(* ===== verification/_CoqProject ===== *)
-Q . S2P
Prelude.v
FastBuffer.v
CdrState.v
CdrInv.v
CdrScalar.v
CdrCodec.v
CdrStrings.v
CdrArrays.v
CdrXcdr.v
CdrContainers.v
CdrContainerLaws.v
CdrSafety.v
CdrSize.v
CdrSizeLaws.v
CdrTypes.v
CdrStruct.v
CdrContracts.v
CdrMembers.v
Employee.v
CdrLimits.v
SequenceNumber.v
BitmapRange.v
RangeSpec.v
TimedEvent.v
WriterProxy.v
WriterProxyInv.v
WriterProxyLaws.v
WriterProxySpec.v
CdrMessage.v
MsgReader.v
Fragments.v
FragmentsSpec.v
ParameterList.v
MessageReceiver.v
MessageReceiverLaws.v
MessageReceiverSpec.v
MessageCreator.v
MessageWire.v
MessageRoundtrip.v
GapBuilder.v
WriterHistory.v
ChangeForReader.v
ReaderProxy.v
ReaderProxyInv.v
ReaderProxyLaws.v
StatefulWriter.v
Delivery.v
ReaderHistory.v
StatefulReader.v
StatefulReaderLaws.v
StatefulWriterLaws.v
System.v
SystemInv.v
Reliability.v
Heartbeats.v
Progress.v
Recovery.v
LimitedVector.v
Liveliness.v
Handles.v
DataReaderInstance.v
DataReaderHistory.v
DataReaderHistoryInv.v
DataReaderHistoryRuns.v
ReadTake.v
DataWriterHistory.v
DataWriterHistoryInv.v
DataWriterHistoryLaws.v
DataWriterRuns.v
DataWriter.v
Partition.v
Matching.v
EndpointDiscovery.v
EndpointDiscoveryInv.v
EndpointDiscoveryLaws.v
EndpointDiscoveryRuns.v
StatelessReader.v
StatelessWriter.v
EndpointMatches.v
ProtocolLimits.v
