(* ===== verification/Prelude.v ===== *)
(** * Fast DDS and Fast CDR: a verification library

    The repository holds a DDS middleware ([src/Fast-DDS]), the serializer below
    it ([src/Fast-CDR]) and an application type generated for both
    ([src/easydds]).  A publisher serializes a sample with Fast CDR into a payload;
    an RTPS writer sends the payload in DATA or DATA_FRAG submessages and announces
    its sequence numbers with HEARTBEATs and GAPs; the receiver of the other
    participant takes a datagram apart and calls the readers; a reliable reader
    keeps a proxy per writer, assembles fragments, acknowledges with ACKNACKs and
    gives the samples to the application in order, where Fast CDR deserializes
    them; a best-effort reader takes what comes and counts what is lost.  Discovery
    tells each reader and writer which remote ones to match.

    ** Conventions

    Machine integers are integers in [Z] with the wrap-around of their width
    written out ([u16], [u32], [u64], [i32]); a byte is an integer below 256, a
    block of memory is a list of bytes, and an access outside of it has no result
    ([None]).  So [Some] in a theorem says that no access left the memory.  The
    class [Platform] holds what the source takes from the target (the byte order,
    the width of [wchar_t] and of [long double]); theorems hold for each of its instances.
    Exceptions of the serializer are values of the monad of [CdrState]; failures
    of RTPS readers and writers of fields are booleans, as in the source.

    ** Fast CDR

    - [FastBuffer]: [FastBuffer.cpp]; the buffer and its growth.
    - [CdrState], [CdrInv]: the record [Cdr] and the saved [state] of [Cdr.h], the
      monad of the stream, configuration, alignment, jumps; the frame conditions
      every operation keeps.
    - [CdrScalar], [CdrArrays], [CdrStrings]: the serializers of [Cdr.cpp].
      [CdrCodec]: the contract of a pair of serializer and deserializer.
    - [CdrContainers], [CdrContainerLaws]: the templates of [Cdr.h] over any element.
    - [CdrXcdr], [CdrTypes], [CdrStruct], [CdrMembers]: encapsulations, members and
      types of plain CDR, XCDRv1 and XCDRv2; the decoding of a type both as a
      function of the object and on the object in place.
    - [CdrSafety]: decoding arbitrary bytes.  [CdrSize], [CdrSizeLaws]:
      [CdrSizeCalculator.hpp] and that it is never too small.
    - [CdrContracts]: the theorems for clients of a stream.  [CdrLimits]: inputs on
      which the code breaks them.
    - [Employee]: the generated type and its type support, client of the above.

    ** Fast DDS: messages

    - [SequenceNumber], [BitmapRange]: [SequenceNumber.hpp] and
      [fixed_size_bitmap.hpp], over any item that keeps the class [RangeItem].
      [RangeSpec]: a range refines a finite set of numbers with a window.
    - [TimedEvent]: the state machine of a timer ([TimedEventImpl.cpp]).
    - [CdrMessage], [MsgReader]: [CDRMessage.cpp]; reading as a state monad on the
      message with a weakest precondition for proofs.
    - [Fragments], [FragmentsSpec]: the list of missing fragments that
      [CacheChange.hpp] keeps inside of the payload, and the assembly of samples.
    - [ParameterList]: inline QoS.  [MessageReceiver]: [MessageReceiver.cpp] over the
      class [Endpoints] of the readers and writers it calls.  [MessageReceiverLaws]:
      the contract [EndpointsLaws] and the handlers.  [MessageReceiverSpec]: the
      theorems on arbitrary datagrams.
    - [MessageCreator]: [RTPSMessageCreator.cpp] and its submessages.
      [MessageWire], [MessageRoundtrip]: what is written is received.
    - [GapBuilder]: [RTPSGapBuilder.cpp] over an interface of the message group.

    ** Fast DDS: the reliable protocol

    - [WriterProxy]: [WriterProxy.cpp], what a reader knows of a writer.
      [WriterProxyInv], [WriterProxyLaws]: its representation invariant and what each
      operation does to the numbers known.  [WriterProxySpec]: traces of events
      against an abstract specification.
    - [ReaderHistory]: the base history of a reader.  [StatefulReader],
      [StatefulReaderLaws]: [StatefulReader.cpp], the reception of DATA, DATA_FRAG,
      HEARTBEAT and GAP.
    - [WriterHistory]: [WriterHistory.cpp].  [ChangeForReader], [ReaderProxy],
      [ReaderProxyInv], [ReaderProxyLaws]: [ChangeForReader.hpp] and
      [ReaderProxy.cpp], what a writer knows of a reader.
    - [StatefulWriter], [StatefulWriterLaws], [Delivery]: [StatefulWriter.cpp], adding
      and removing changes, heartbeats, ACKNACKs and NACK_FRAGs, and the delivery
      of samples.
    - [System]: one writer, one remote reader and a network that loses, repeats and
      reorders messages, as a machine of events.  [SystemInv]: its invariant.
      [Reliability]: the theorems on every run.  [Heartbeats], [Progress],
      [Recovery]: from every state a loss can lead to, a bounded exchange brings the
      reader up to date.
    - [ProtocolLimits]: inputs on which the protocol does not do what it means to.
    - [LimitedVector]: [ResourceLimitedVector.hpp].  [Liveliness]:
      [LivelinessManager.cpp] with the timer that drives it.

    ** Fast DDS: best-effort endpoints

    - [StatelessReader]: what [BaseReader.cpp] records of the samples notified, and
      [StatelessReader.cpp]; each sample is notified at most once and in order, and
      lost ones are counted.
    - [StatelessWriter]: [StatelessWriter.cpp] and [ReaderLocator.cpp]; fragments are sent in order across refusals of the network,
      and readers and their resources are accounted for.

    ** Fast DDS: discovery

    - [Partition]: [PartitionQosPolicy] of [QosPolicies.hpp] on the
      bytes it is kept in, and the parameter it is sent in.
    - [Matching]: [WriterQos.cpp], [ReaderQos.cpp] and
      [EDP::valid_matching], against the relation "offered satisfies requested".
    - [EndpointDiscovery]: the handlers of [EDP.cpp], [EDPSimple.cpp],
      [EDPSimpleListeners.cpp] and the endpoint data of [PDP.cpp], over the class
      [Endpoint] of local readers and writers.  [EndpointDiscoveryInv]: the laws
      [EndpointLaws] of an endpoint and the pairing.  [EndpointDiscoveryLaws]: what each
      operation does to the data known.  [EndpointDiscoveryRuns]: the participant as
      a machine of steps, and its invariant.
    - [EndpointMatches]: the best-effort reader and writer keep the laws; the theorems
      on every run, and two participants.

    ** Fast DDS: data readers and data writers

    - [Handles]: identifiers, instance handles and [std::map] with handles as keys.
    - [DataReaderInstance]: [DataReaderInstance.hpp], the state of an instance, its
      writers and its owner.  [DataReaderHistory]: [DataReaderHistory.cpp] over the
      base history and the unread samples of the reader.  [DataReaderHistoryInv],
      [DataReaderHistoryRuns]: its invariant, and the theorems on every run.
    - [ReadTake]: [ReadTakeCommand.hpp] and the functions of
      [DataReaderImpl.cpp] that run it; what [read] and [take] return.
    - [DataWriterHistory]: [DataWriterHistory.cpp] and [DataWriterInstance.hpp] over
      the class [RtpsWriter].  [DataWriterHistoryInv]: the promises [RtpsWriterLaws]
      of the RTPS writer, and the invariant.  [DataWriterHistoryLaws]: making room and
      adding.  [DataWriterRuns]: the stateful writer as an instance, and the theorems
      on every run.
    - [DataWriter]: the write path, instances, deadlines and lifespan of
      [DataWriterImpl.cpp].

    ** What the theorems show

    Each theorem states its conditions; the ones that matter most are repeated here.

    Serializer: what is written is read back, in every encoding modelled; the
    calculated size suffices; arbitrary bytes are decoded or refused without
    leaving the buffer, loops end, and an [Employee] that is decoded in place is
    not touched when its payload is refused.  Streams stay well formed under the
    operations on values, structures in the plain and delimited encodings and
    reconfigurations; the member headers of XCDRv1 parameter lists are not among
    them, since they leave the buffer ([CdrLimits]).  Ranges and proxies: refinement
    of abstract sets, with the acknowledgements, the acceptance and the notification
    of changes that follow; nothing is removed from an empty range and its base is
    not moved.  Fragments of 4 or at least 6 bytes: assembly is correct for any order
    of messages.  Messages: any datagram is processed to its end in its bytes, with
    well-formed calls (but for the sign of the number of a NACK_FRAG), and what the
    creator writes arrives: samples, heartbeats, acknowledgements and gaps.

    Protocol, for one writer with one remote and reliable reader that has a locator
    and for samples in one message: in every run no handler fails, no sample is
    skipped, acknowledged means received, the listener is told in order, and losses
    are repaired.  Liveliness, for operations that run one after the other and finite
    leases: living writers are watched and declared dead in time.

    Histories: limits hold, pointers are sound, what is rejected, replaced or evicted
    is what the QoS says; reading and taking return exactly the samples selected and
    remove those that cannot be deserialized; exclusive ownership with fixed strengths
    goes to the strongest writer.  While a write of a data writer waits, readers may
    answer or time may end, and nobody else changes the history ([waits_ok]); a change
    is one that the history below accepts ([sendable]).

    Discovery, while nobody else announces the end of an endpoint of this participant:
    a local endpoint is matched with known and visible endpoints only, and, apart from
    readers whose last registration or update failed for an incomplete content filter
    and from endpoints with a limit, with exactly the compatible ones; and both ends of
    a match agree.  Best effort: each sample at most once, in order, and each missing
    number from the first sample on counted.

    Theorems of [CdrLimits], [ProtocolLimits] and those under "What goes wrong" are
    inputs on which the code does not do what it means to, most of them just beyond
    the conditions above.

    ** Bounds and fuel

    Loops over data take fuel, and each theorem says that the fuel suffices: the
    members of a structure (one more than there are), the lists of missing
    fragments (the number of fragments), submessages and parameters (a quarter of the bytes
    of the message, rounded up, and one: each takes 4 bytes at least), the instances a
    read visits and the changes a removal goes through (as many as there are), the retries of a
    write (one, while nobody else writes).  Messages are shorter than [2^31] bytes and
    numbers stay below [2^63] minus the window, so that the additions of
    the source do not wrap; fragments have 4 or at least 6 bytes, the sizes the
    linked list works for; histories have fewer than [2^31] changes.  The theorems on the
    protocol are for a writer with one remote and reliable reader and samples
    in one message.

    ** Not modelled

    Threads and locks (each handler runs under the lock of its endpoint and is one
    step of the model; where a lock is released to wait, what others do is a parameter),
    the network, shared memory, security and statistics (compiled out), the
    announcements of participants, the discovery server and static discovery,
    persistence, pools (objects are numbered), flow controllers (whether they let go of a change is an
    argument), readers and writers in the same process, the timer of positive
    acknowledgements, locators, loans of samples, content filters, the entities of DDS with their
    status and listeners, dynamic types, XML profiles and message groups.  In discovery, the data of an endpoint leaves out its
    locators, an announcement carries the data itself instead of its parameters, the
    lookup of a remote type answers at once, and which names match a pattern
    ([fnmatch]) is a parameter.  The theorems on the reliable protocol are for the stateful
    endpoints, those on matches are instantiated with the best-effort ones. *)

From Stdlib Require Export ZArith Lia Bool.
From stdpp Require Export base list option numbers.
Export ListNotations.
#[global] Open Scope Z_scope.
#[global] Set Default Goal Selector "!".

(** ** Machine integers

    C++ unsigned integers of width [w] are integers in [[0, 2^w)]; the
    conversions below are the implicit wrap-around of the language. *)

Definition u8 (z : Z) : Z := z mod 2 ^ 8.
Definition u16 (z : Z) : Z := z mod 2 ^ 16.
Definition u32 (z : Z) : Z := z mod 2 ^ 32.
Definition u64 (z : Z) : Z := z mod 2 ^ 64.

(** [size_t] is 64 bits wide on the platforms modelled here. *)
Definition size_t (z : Z) : Z := u64 z.

Lemma size_t_small z : 0 <= z < 2 ^ 64 -> size_t z = z.
Proof. intros. unfold size_t, u64. by apply Z.mod_small. Qed.

Lemma size_t_range z : 0 <= size_t z < 2 ^ 64.
Proof. unfold size_t, u64. apply Z.mod_pos_bound. lia. Qed.

Lemma u32_small z : 0 <= z < 2 ^ 32 -> u32 z = z.
Proof. intros. unfold u32. by apply Z.mod_small. Qed.

Lemma u16_small z : 0 <= z < 2 ^ 16 -> u16 z = z.
Proof. intros. unfold u16. by apply Z.mod_small. Qed.

(** A power-of-two alignment mask: [(a - x % a) & (a - 1)] is the distance
    from [x] to the next multiple of [a]. *)
Lemma align_mask k x :
  0 <= k -> Z.land (2 ^ k - x mod 2 ^ k) (2 ^ k - 1) = (- x) mod 2 ^ k.
Proof.
  intros Hk.
  replace (2 ^ k - 1) with (Z.ones k) by (rewrite Z.ones_equiv; lia).
  rewrite Z.land_ones by done.
  rewrite <- Zminus_mod_idemp_l, Z_mod_same_full, Zminus_mod_idemp_r.
  f_equal.
Qed.

(** [x & ~3u]: down to a multiple of four. *)
Lemma mask_align4 x : 0 <= x < 2 ^ 32 -> Z.land x 0xFFFFFFFC = x / 4 * 4.
Proof.
  intros Hx. change 0xFFFFFFFC with (Z.ldiff (Z.ones 32) (Z.ones 2)).
  rewrite <- Z.shiftl_mul_pow2 with (n := 2), <- Z.shiftr_div_pow2 with (n := 2) by lia. rewrite <- Z.ldiff_ones_r by lia.
  replace x with (Z.land x (Z.ones 32)) at 2 by (rewrite Z.land_ones by lia; by apply Z.mod_small).
  apply Z.bits_inj. intros k. rewrite !Z.land_spec, !Z.ldiff_spec, Z.land_spec. by rewrite andb_assoc.
Qed.

Lemma size_t_mod_pow2 x k : 0 <= k <= 64 -> size_t x mod 2 ^ k = x mod 2 ^ k.
Proof.
  intros Hk. unfold size_t, u64. apply Z.mod_mod_divide.
  exists (2 ^ (64 - k)). rewrite <- Z.pow_add_r by lia. f_equal. lia.
Qed.

(** ** Byte strings in host and wire order *)

(** [n] bytes of [v], least significant first. *)
Fixpoint le_bytes (n : nat) (v : Z) : list Z :=
  match n with
  | O => []
  | S n' => v mod 256 :: le_bytes n' (v / 256)
  end.

(** The value of a byte string, least significant first. *)
Fixpoint le_value (bs : list Z) : Z :=
  match bs with
  | [] => 0
  | b :: bs' => b + 256 * le_value bs'
  end.

Definition is_byte (b : Z) : Prop := 0 <= b < 256.

Lemma length_le_bytes n v : length (le_bytes n v) = n.
Proof. revert v. induction n; intros; simpl; auto. Qed.

Lemma le_value_bytes n v : le_value (le_bytes n v) = v mod 2 ^ (8 * Z.of_nat n).
Proof.
  revert v. induction n as [|n IH]; intros v; cbn [le_bytes le_value].
  - by rewrite Z.mod_1_r.
  - rewrite IH.
    replace (8 * Z.of_nat (S n)) with (8 + 8 * Z.of_nat n) by lia.
    rewrite Z.pow_add_r by lia. change (2 ^ 8) with 256.
    rewrite Z.rem_mul_r by lia. done.
Qed.

Lemma le_bytes_is_byte n v : Forall is_byte (le_bytes n v).
Proof.
  revert v. induction n; intros; simpl; constructor; auto.
  unfold is_byte. apply Z.mod_pos_bound. lia.
Qed.

Lemma le_value_range bs : Forall is_byte bs -> 0 <= le_value bs < 2 ^ (8 * Z.of_nat (length bs)).
Proof.
  induction 1 as [|b bs Hb _ IH]; cbn [le_value length]; [lia|].
  replace (8 * Z.of_nat (S (length bs))) with (8 + 8 * Z.of_nat (length bs)) by lia.
  rewrite Z.pow_add_r by lia. change (2 ^ 8) with 256. unfold is_byte in Hb. lia.
Qed.

Lemma le_bytes_value bs : Forall is_byte bs -> le_bytes (length bs) (le_value bs) = bs.
Proof.
  induction 1 as [|b bs Hb _ IH]; cbn [le_bytes le_value length]; [done|].
  unfold is_byte in Hb. f_equal.
  - rewrite (Z.mul_comm 256), Z_mod_plus_full. by apply Z.mod_small.
  - rewrite (Z.mul_comm 256), Z_div_plus_full by lia.
    rewrite Z.div_small by lia. by rewrite Z.add_0_l.
Qed.

(** ** Raw memory

    A block of memory is the list of its bytes; positions are integers so
    that pointer arithmetic can leave the block.  An access outside of the
    block is undefined behaviour and yields [None]. *)

Definition zlen {A} (l : list A) : Z := Z.of_nat (length l).

Definition in_block (m : list Z) (p n : Z) : bool :=
  (0 <=? p) && (0 <=? n) && (p + n <=? zlen m).

(** [memcpy(dst + p, bs)]; a copy of no bytes touches nothing. *)
Definition mwrite (m : list Z) (p : Z) (bs : list Z) : option (list Z) :=
  match bs with
  | [] => Some m
  | _ => if in_block m p (zlen bs)
         then Some (take (Z.to_nat p) m ++ bs ++ drop (Z.to_nat p + length bs) m)
         else None
  end.

(** [memcpy(.., src + p, n)] *)
Definition mread (m : list Z) (p n : Z) : option (list Z) :=
  if n =? 0 then Some []
  else if in_block m p n then Some (take (Z.to_nat n) (drop (Z.to_nat p) m)) else None.

(** [memmove(base + dst, base + src, n)] *)
Definition mmove (m : list Z) (dst src n : Z) : option (list Z) :=
  match mread m src n with
  | Some bs => mwrite m dst bs
  | None => None
  end.

(** Two blocks hold the same bytes at the positions [lo <= i < hi]. *)
Definition agree (lo hi : Z) (m1 m2 : list Z) : Prop :=
  forall i, lo <= i < hi -> m1 !! Z.to_nat i = m2 !! Z.to_nat i.

Lemma agree_refl lo hi m : agree lo hi m m.
Proof. by intros i. Qed.

Lemma agree_sym lo hi m1 m2 : agree lo hi m1 m2 -> agree lo hi m2 m1.
Proof. intros H i Hi. symmetry. auto. Qed.

Lemma agree_trans lo hi m1 m2 m3 :
  agree lo hi m1 m2 -> agree lo hi m2 m3 -> agree lo hi m1 m3.
Proof. intros H1 H2 i Hi. rewrite H1 by done. auto. Qed.

#[export] Instance agree_equivalence lo hi : Equivalence (agree lo hi).
Proof. split; [intros ?; apply agree_refl | intros ??; apply agree_sym | intros ???; apply agree_trans]. Qed.

Lemma agree_weaken lo hi lo' hi' m1 m2 :
  agree lo hi m1 m2 -> lo <= lo' -> hi' <= hi -> agree lo' hi' m1 m2.
Proof. intros H ? ? i ?. apply H. lia. Qed.

Lemma zlen_nonneg {A} (l : list A) : 0 <= zlen l.
Proof. unfold zlen. lia. Qed.

Lemma in_block_true m p n : in_block m p n = true <-> 0 <= p /\ 0 <= n /\ p + n <= zlen m.
Proof. unfold in_block. rewrite !andb_true_iff, !Z.leb_le. tauto. Qed.

Lemma mwrite_ok m p bs :
  0 <= p -> p + zlen bs <= zlen m ->
  exists m', mwrite m p bs = Some m' /\ zlen m' = zlen m /\
    agree 0 p m m' /\ agree (p + zlen bs) (zlen m) m m' /\
    mread m' p (zlen bs) = Some bs.
Proof.
  intros Hp Hn. destruct bs as [|b bs].
  { exists m. cbn. repeat split; try done. }
  remember (b :: bs) as l eqn:El. assert (Hl : 0 < zlen l) by (subst; unfold zlen; simpl; lia).
  exists (take (Z.to_nat p) m ++ l ++ drop (Z.to_nat p + length l) m).
  assert (Hb : in_block m p (zlen l) = true) by (apply in_block_true; lia).
  unfold zlen in *. repeat split.
  - subst l. unfold mwrite, zlen. by rewrite Hb.
  - rewrite !length_app, length_take, length_drop. lia.
  - intros i Hi. rewrite lookup_app_l by (rewrite length_take; lia).
    by rewrite lookup_take_lt by lia.
  - intros i Hi. rewrite lookup_app_r by (rewrite length_take; lia).
    rewrite lookup_app_r by (rewrite length_take; lia).
    rewrite lookup_drop, length_take. f_equal. lia.
  - unfold mread, zlen. destruct (Z.eqb_spec (Z.of_nat (length l)) 0) as [E|_]; [lia|].
    replace (in_block _ p _) with true
      by (symmetry; apply in_block_true; unfold zlen; rewrite !length_app, length_take, length_drop; lia).
    f_equal. rewrite drop_app_ge by (rewrite length_take; lia).
    replace (Z.to_nat p - length (take (Z.to_nat p) m))%nat with 0%nat by (rewrite length_take; lia).
    rewrite drop_0, take_app_le by lia. by rewrite take_ge by lia.
Qed.

Lemma mread_ok m p n :
  0 <= p -> 0 <= n -> p + n <= zlen m -> exists bs, mread m p n = Some bs /\ zlen bs = n.
Proof.
  intros Hp Hn Hm. unfold mread. destruct (Z.eqb_spec n 0) as [->|Hz]; [by exists []|].
  replace (in_block m p n) with true by (symmetry; apply in_block_true; lia).
  eexists; split; [done|]. unfold zlen in *. rewrite length_take, length_drop. lia.
Qed.

Lemma mread_agree m1 m2 p n bs :
  mread m1 p n = Some bs -> agree p (p + n) m1 m2 -> p + n <= zlen m2 -> mread m2 p n = Some bs.
Proof.
  unfold mread. intros H Ha Hl. destruct (Z.eqb_spec n 0); [done|].
  destruct (in_block m1 p n) eqn:Hb; [|done]. injection H as <-.
  apply in_block_true in Hb.
  replace (in_block m2 p n) with true by (symmetry; apply in_block_true; lia).
  f_equal. apply list_eq. intros i.
  destruct (decide (i < Z.to_nat n)%nat).
  - rewrite !lookup_take_lt, !lookup_drop by done.
    specialize (Ha (p + Z.of_nat i) ltac:(lia)).
    replace (Z.to_nat (p + Z.of_nat i)) with (Z.to_nat p + i)%nat in Ha by lia. done.
  - rewrite !lookup_take_ge by lia. done.
Qed.

Lemma mread_split m p a b bs :
  0 <= p -> 0 <= a -> 0 <= b ->
  mread m p (a + b) = Some bs ->
  mread m p a = Some (take (Z.to_nat a) bs) /\ mread m (p + a) b = Some (drop (Z.to_nat a) bs).
Proof.
  intros Hp Ha Hb. unfold mread.
  destruct (Z.eqb_spec (a + b) 0) as [E|Hab].
  { intros [= <-]. assert (a = 0) as -> by lia. assert (b = 0) as -> by lia. done. }
  destruct (in_block m p (a + b)) eqn:Hib; [|done]. intros [= <-].
  apply in_block_true in Hib. split.
  - destruct (Z.eqb_spec a 0) as [->|]; [done|].
    replace (in_block m p a) with true by (symmetry; apply in_block_true; lia).
    rewrite take_take. f_equal. f_equal. lia.
  - destruct (Z.eqb_spec b 0) as [->|].
    + rewrite drop_ge; [done|]. rewrite length_take. lia.
    + replace (in_block m (p + a) b) with true by (symmetry; apply in_block_true; lia).
      f_equal. rewrite skipn_firstn_comm, drop_drop. f_equal; [lia|]. f_equal. lia.
Qed.
