(* ===== verification/FastBuffer.v ===== *)
(** * The raw buffer of Fast CDR

    Models [Fast-CDR/src/cpp/FastBuffer.cpp] and the class [FastBuffer] of
    [Fast-CDR/include/fastcdr/FastBuffer.h], together with the build-time
    configuration of the platform ([FASTCDR_IS_BIG_ENDIAN_TARGET],
    [FASTCDR_SIZEOF_LONG_DOUBLE], [FASTCDR_HAVE_FLOAT128]) and the heap of the
    C library. *)

From S2P Require Import Prelude.

(** ** Platform

    What the code takes from the compiler and from the C library.  [malloc n]
    is the initial (indeterminate) content of a fresh block of [n] bytes, or
    [None] when the allocation fails; no object is larger than [PTRDIFF_MAX].
    [long_double_to_float128] and back are the compiler's conversions between
    object representations, used when [long double] is narrower than 16 bytes
    and [__float128] exists. *)
Class Platform := {
  big_endian_target : bool;
  sizeof_long_double : Z;
  have_float128 : bool;
  long_double_to_float128 : Z -> Z;
  float128_to_long_double : Z -> Z;
  malloc : Z -> option (list Z);
  malloc_length : forall n b, malloc n = Some b -> zlen b = n;
  malloc_bound : forall n b, malloc n = Some b -> n < 2 ^ 62
}.

(** The object representation of an [n]-byte value on the host. *)
Definition host_bytes `{Platform} (n : nat) (v : Z) : list Z :=
  if big_endian_target then rev (le_bytes n v) else le_bytes n v.

(** The value with a given object representation. *)
Definition host_value `{Platform} (bs : list Z) : Z :=
  le_value (if big_endian_target then rev bs else bs).

(** ** FastBuffer

    [block] is the memory the iterators of the buffer point into and
    [buffer_null] tells whether [buffer_] is the null pointer: the two differ
    after a failed [realloc], which leaves the old block in place. *)
Record FastBuffer := mkFastBuffer {
  block : list Z;
  buffer_null : bool;
  size_ : Z;
  m_internalBuffer : bool
}.

(** [FastBuffer()] *)
Definition FastBuffer_internal : FastBuffer := mkFastBuffer [] true 0 true.

(** [FastBuffer(char* const buffer, const size_t bufferSize)] *)
Definition FastBuffer_external (buffer : list Z) : FastBuffer :=
  mkFastBuffer buffer false (zlen buffer) false.

(** [FastBuffer::begin] and [FastBuffer::end] as positions in the block. *)
Definition begin (b : FastBuffer) : Z := 0.
Definition end_of (b : FastBuffer) : Z := size_ b.

Definition BUFFER_START_LENGTH : Z := 200.

Section FastBuffer.
Context `{P : Platform}.

(** [realloc]: the old bytes are kept, the new ones are indeterminate. *)
Definition realloc (old : list Z) (n : Z) : option (list Z) :=
  match malloc n with
  | Some fresh => Some (take (Z.to_nat n) old ++ drop (length old) fresh)
  | None => None
  end.

Definition reserve (b : FastBuffer) (size : Z) : bool * FastBuffer :=
  if m_internalBuffer b && buffer_null b then
    match malloc size with
    | Some blk => (true, mkFastBuffer blk false size (m_internalBuffer b))
    | None => (false, b)
    end
  else (false, b).

Definition resize (b : FastBuffer) (min_size_inc : Z) : bool * FastBuffer :=
  if m_internalBuffer b then
    let incBufferSize :=
      if min_size_inc >? BUFFER_START_LENGTH then min_size_inc else BUFFER_START_LENGTH in
    if buffer_null b then
      let size := incBufferSize in
      match malloc size with
      | Some blk => (true, mkFastBuffer blk false size true)
      | None => (false, mkFastBuffer (block b) true size true)
      end
    else
      let size := size_t (size_ b + incBufferSize) in
      match realloc (block b) size with
      | Some blk => (true, mkFastBuffer blk false size true)
      | None => (false, mkFastBuffer (block b) true size true)
      end
  else (false, b).

(** A buffer no allocation failure has hit: [size_] is the length of the
    block, and only an internal buffer that holds nothing is null. *)
Record buffer_wf (b : FastBuffer) : Prop := {
  bwf_size : size_ b = zlen (block b);
  bwf_bound : size_ b < 2 ^ 62;
  bwf_null : buffer_null b = true -> block b = []
}.

Lemma buffer_wf_internal : buffer_wf FastBuffer_internal.
Proof. by split. Qed.

Lemma buffer_wf_external buf : zlen buf < 2 ^ 62 -> buffer_wf (FastBuffer_external buf).
Proof. intros. by split. Qed.

Lemma realloc_spec old n b :
  zlen old <= n -> realloc old n = Some b -> zlen b = n /\ n < 2 ^ 62 /\ agree 0 (zlen old) old b.
Proof.
  unfold realloc. destruct (malloc n) as [f|] eqn:E; [|done]. intros Hn [= <-].
  pose proof (malloc_length _ _ E) as Hl. pose proof (malloc_bound _ _ E).
  unfold zlen in *. repeat split; [|done|].
  - rewrite length_app, length_take, length_drop. lia.
  - intros i Hi. rewrite lookup_app_l by (rewrite length_take; lia).
    by rewrite lookup_take_lt by lia.
Qed.

Lemma resize_internal b n : m_internalBuffer (resize b n).2 = m_internalBuffer b.
Proof.
  unfold resize. destruct (m_internalBuffer b) eqn:E; [|done].
  destruct (buffer_null b); [destruct (malloc _)|destruct (realloc _ _)]; done.
Qed.

Lemma resize_external b n : m_internalBuffer b = false -> resize b n = (false, b).
Proof. unfold resize. by intros ->. Qed.

(** A successful [resize] of a sound buffer grows it by at least the requested
    amount and keeps its bytes. *)
Lemma resize_spec b n :
  buffer_wf b -> 0 <= n < 2 ^ 63 ->
  match resize b n with
  | (true, b') => buffer_wf b' /\ size_ b + n <= size_ b' /\ agree 0 (size_ b) (block b) (block b')
                  /\ m_internalBuffer b = true
  | (false, b') => block b' = block b
  end.
Proof.
  intros [Hs Hb Hnull] Hn. unfold resize, BUFFER_START_LENGTH.
  destruct (m_internalBuffer b) eqn:Ei; [|done].
  set (inc := if n >? 200 then n else 200).
  assert (Hinc : n <= inc /\ 200 <= inc < 2 ^ 63) by (unfold inc; destruct (Z.gtb_spec n 200); lia).
  assert (Hs0 : 0 <= size_ b) by (rewrite Hs; apply zlen_nonneg).
  destruct (buffer_null b) eqn:En.
  - rewrite (Hnull eq_refl) in *. change (zlen []) with 0 in Hs. rewrite Hs.
    destruct (malloc inc) as [blk|] eqn:E; [|done].
    pose proof (malloc_length _ _ E). pose proof (malloc_bound _ _ E).
    repeat split; simpl; try done; try lia. intros i Hi. lia.
  - rewrite size_t_small by lia.
    destruct (realloc (block b) (size_ b + inc)) as [blk|] eqn:E; [|done].
    apply realloc_spec in E as (? & ? & ?); [|lia].
    repeat split; simpl; try done; try lia. by rewrite Hs.
Qed.

End FastBuffer.

(** [host_value] inverts [host_bytes] on values of the right width. *)
Lemma host_value_bytes `{Platform} n v :
  host_value (host_bytes n v) = v mod 2 ^ (8 * Z.of_nat n).
Proof.
  unfold host_value, host_bytes. destruct big_endian_target; rewrite ?rev_involutive; apply le_value_bytes.
Qed.

Lemma length_host_bytes `{Platform} n v : length (host_bytes n v) = n.
Proof. unfold host_bytes. destruct big_endian_target; rewrite ?length_rev; apply length_le_bytes. Qed.

(** A 64-bit little-endian host with a 16-byte [long double] and zero-filled
    allocations of up to 1 MiB: the platform of the examples. *)
Definition host_malloc (n : Z) : option (list Z) :=
  if (0 <=? n) && (n <=? 2 ^ 20) then Some (replicate (Z.to_nat n) 0) else None.

Lemma host_malloc_length n b : host_malloc n = Some b -> zlen b = n.
Proof.
  unfold host_malloc. destruct (Z.leb_spec 0 n); simpl; [|done]. destruct (Z.leb_spec n (2 ^ 20)); [|done].
  intros [= <-]. unfold zlen. rewrite length_replicate. lia.
Qed.

Lemma host_malloc_bound n b : host_malloc n = Some b -> n < 2 ^ 62.
Proof.
  unfold host_malloc. destruct (Z.leb_spec 0 n); simpl; [|done]. by destruct (Z.leb_spec n (2 ^ 20)); [lia|].
Qed.

Definition host : Platform := {|
  big_endian_target := false;
  sizeof_long_double := 16;
  have_float128 := true;
  long_double_to_float128 := fun v => v;
  float128_to_long_double := fun v => v;
  malloc := host_malloc;
  malloc_length := host_malloc_length;
  malloc_bound := host_malloc_bound
|}.

(** ** Claims *)

(** Growing a sound buffer makes room for at least the requested bytes and
    keeps the ones it held; when the memory is not there, or the buffer belongs
    to the caller, no byte changes. *)
Theorem resize_grows `{Platform} b n :
  buffer_wf b -> 0 <= n < 2 ^ 63 ->
  (forall b', resize b n = (true, b') ->
     buffer_wf b' /\ size_ b + n <= size_ b' /\ agree 0 (size_ b) (block b) (block b') /\ m_internalBuffer b = true) /\
  (forall b', resize b n = (false, b') -> block b' = block b /\ (m_internalBuffer b = false -> b' = b)).
Proof.
  intros W Hn. pose proof (resize_spec b n W Hn) as Hs. split; intros b' E; rewrite E in Hs; [done|].
  split; [done|]. intros Hi. rewrite resize_external in E by done. by injection E.
Qed.

(** After a [realloc] that failed, the buffer forgets the block it had: the
    next [resize] starts from a fresh block of its own size, without the bytes
    already written and possibly smaller than the buffer was. *)
Theorem resize_after_failed_realloc `{Platform} b n1 n2 blk :
  m_internalBuffer b = true -> buffer_null b = false ->
  realloc (block b) (size_t (size_ b + Z.max n1 BUFFER_START_LENGTH)) = None ->
  malloc (Z.max n2 BUFFER_START_LENGTH) = Some blk ->
  resize (resize b n1).2 n2 = (true, mkFastBuffer blk false (Z.max n2 BUFFER_START_LENGTH) true).
Proof.
  intros Hi Hn Hr Hm. unfold resize at 2. rewrite Hi, Hn.
  assert (Hmax : forall n, (if n >? BUFFER_START_LENGTH then n else BUFFER_START_LENGTH) = Z.max n BUFFER_START_LENGTH)
    by (intros n; destruct (Z.gtb_spec n BUFFER_START_LENGTH); lia).
  rewrite Hmax, Hr. unfold resize. simpl. by rewrite Hmax, Hm.
Qed.

Lemma resize_grows_witness :
  (forall b', @resize host (FastBuffer_internal) 3 = (true, b') ->
     buffer_wf b' /\ 0 + 3 <= size_ b' /\ agree 0 0 [] (block b') /\ true = true) /\
  (forall b', @resize host (FastBuffer_internal) 3 = (false, b') -> block b' = [] /\ (true = false -> b' = FastBuffer_internal)).
Proof. apply (@resize_grows host FastBuffer_internal 3); [apply buffer_wf_internal|lia]. Defined.

(** A buffer of 300 bytes is replaced by one of 200 zeroes. *)
Definition full_buffer : FastBuffer := mkFastBuffer (replicate 300 7) false 300 true.

Lemma resize_after_failed_realloc_witness :
  @resize host (@resize host full_buffer (2 ^ 21)).2 1 = (true, mkFastBuffer (replicate 200 0) false 200 true).
Proof.
  apply (@resize_after_failed_realloc host full_buffer (2 ^ 21) 1 (replicate 200 0)); vm_compute; reflexivity.
Defined.
