(* ===== verification/CdrState.v ===== *)
(** * The state of a CDR stream

    Models the class [Cdr] of [Fast-CDR/include/fastcdr/Cdr.h] and the part of
    [Fast-CDR/src/cpp/Cdr.cpp] that manages its state: construction, saved
    states, alignment, growth of the buffer and endianness.  The memory the
    stream writes to is explicit, and an access outside of it is an outcome of
    its own ([Fault]), so that memory safety is a theorem. *)

From S2P Require Import Prelude FastBuffer.

(** ** Data *)

(** [typedef enum { ... } CdrVersion] of [CdrEncoding.hpp]. *)
Inductive CdrVersion := CORBA_CDR | DDS_CDR | XCDRv1 | XCDRv2.

Definition version_num (v : CdrVersion) : Z :=
  match v with CORBA_CDR => 0 | DDS_CDR => 1 | XCDRv1 => 2 | XCDRv2 => 3 end.

(** [typedef enum : uint8_t { ... } EncodingAlgorithmFlag]. *)
Inductive EncodingAlgorithmFlag := PLAIN_CDR | PL_CDR | PLAIN_CDR2 | DELIMIT_CDR2 | PL_CDR2.

Definition flag_num (f : EncodingAlgorithmFlag) : Z :=
  match f with PLAIN_CDR => 0 | PL_CDR => 2 | PLAIN_CDR2 => 6 | DELIMIT_CDR2 => 8 | PL_CDR2 => 10 end.

(** [Cdr::Endianness] *)
Inductive Endianness := BIG_ENDIANNESS | LITTLE_ENDIANNESS.

Definition endianness_num (e : Endianness) : Z :=
  match e with BIG_ENDIANNESS => 0 | LITTLE_ENDIANNESS => 1 end.

(** [Cdr::XCdrHeaderSelection] *)
Inductive XCdrHeaderSelection :=
  SHORT_HEADER | LONG_HEADER | AUTO_WITH_SHORT_HEADER_BY_DEFAULT | AUTO_WITH_LONG_HEADER_BY_DEFAULT.

(** [Cdr::SerializedMemberSizeForNextInt] *)
Inductive SerializedMemberSizeForNextInt :=
  NO_SERIALIZED_MEMBER_SIZE | SERIALIZED_MEMBER_SIZE | SERIALIZED_MEMBER_SIZE_4 | SERIALIZED_MEMBER_SIZE_8.

#[export] Instance CdrVersion_eq_dec : EqDecision CdrVersion.
Proof. solve_decision. Defined.
#[export] Instance EncodingAlgorithmFlag_eq_dec : EqDecision EncodingAlgorithmFlag.
Proof. solve_decision. Defined.
#[export] Instance Endianness_eq_dec : EqDecision Endianness.
Proof. solve_decision. Defined.
#[export] Instance XCdrHeaderSelection_eq_dec : EqDecision XCdrHeaderSelection.
Proof. solve_decision. Defined.
#[export] Instance SerializedMemberSize_eq_dec : EqDecision SerializedMemberSizeForNextInt.
Proof. solve_decision. Defined.

(** [class MemberId] of [xcdr/MemberId.hpp]. *)
Record MemberId := mkMemberId { id : Z; must_understand : bool }.

Definition MEMBER_ID_INVALID : MemberId := mkMemberId 0xFFFFFFFF false.

(** [MemberId::operator ==] compares the identifiers only. *)
Definition MemberId_eqb (a b : MemberId) : bool := id a =? id b.

(** The functions the callbacks of a stream point to. *)
Inductive Callbacks := CdrCallbacks | Xcdr1Callbacks | Xcdr2Callbacks.

(** The members of [class Cdr]; the iterators [offset_], [origin_] and [end_]
    are positions in the block of the buffer. *)
Record Cdr := mkCdr {
  cdr_buffer_ : FastBuffer;
  cdr_version_ : CdrVersion;
  callbacks_ : Callbacks;
  encoding_flag_ : EncodingAlgorithmFlag;
  current_encoding_ : EncodingAlgorithmFlag;
  options_ : list Z;
  endianness_ : Endianness;
  swap_bytes_ : bool;
  last_data_size_ : Z;
  offset_ : Z;
  origin_ : Z;
  end_ : Z;
  next_member_id_ : MemberId;
  align64_ : Z;
  serialized_member_size_ : SerializedMemberSizeForNextInt
}.

Definition set_cdr_buffer_ (v : FastBuffer) (c : Cdr) : Cdr :=
  mkCdr v (cdr_version_ c) (callbacks_ c) (encoding_flag_ c) (current_encoding_ c) (options_ c) (endianness_ c) (swap_bytes_ c) (last_data_size_ c) (offset_ c) (origin_ c) (end_ c) (next_member_id_ c) (align64_ c) (serialized_member_size_ c).
Definition set_cdr_version_ (v : CdrVersion) (c : Cdr) : Cdr :=
  mkCdr (cdr_buffer_ c) v (callbacks_ c) (encoding_flag_ c) (current_encoding_ c) (options_ c) (endianness_ c) (swap_bytes_ c) (last_data_size_ c) (offset_ c) (origin_ c) (end_ c) (next_member_id_ c) (align64_ c) (serialized_member_size_ c).
Definition set_callbacks_ (v : Callbacks) (c : Cdr) : Cdr :=
  mkCdr (cdr_buffer_ c) (cdr_version_ c) v (encoding_flag_ c) (current_encoding_ c) (options_ c) (endianness_ c) (swap_bytes_ c) (last_data_size_ c) (offset_ c) (origin_ c) (end_ c) (next_member_id_ c) (align64_ c) (serialized_member_size_ c).
Definition set_encoding_flag_ (v : EncodingAlgorithmFlag) (c : Cdr) : Cdr :=
  mkCdr (cdr_buffer_ c) (cdr_version_ c) (callbacks_ c) v (current_encoding_ c) (options_ c) (endianness_ c) (swap_bytes_ c) (last_data_size_ c) (offset_ c) (origin_ c) (end_ c) (next_member_id_ c) (align64_ c) (serialized_member_size_ c).
Definition set_current_encoding_ (v : EncodingAlgorithmFlag) (c : Cdr) : Cdr :=
  mkCdr (cdr_buffer_ c) (cdr_version_ c) (callbacks_ c) (encoding_flag_ c) v (options_ c) (endianness_ c) (swap_bytes_ c) (last_data_size_ c) (offset_ c) (origin_ c) (end_ c) (next_member_id_ c) (align64_ c) (serialized_member_size_ c).
Definition set_options_ (v : list Z) (c : Cdr) : Cdr :=
  mkCdr (cdr_buffer_ c) (cdr_version_ c) (callbacks_ c) (encoding_flag_ c) (current_encoding_ c) v (endianness_ c) (swap_bytes_ c) (last_data_size_ c) (offset_ c) (origin_ c) (end_ c) (next_member_id_ c) (align64_ c) (serialized_member_size_ c).
Definition set_endianness_ (v : Endianness) (c : Cdr) : Cdr :=
  mkCdr (cdr_buffer_ c) (cdr_version_ c) (callbacks_ c) (encoding_flag_ c) (current_encoding_ c) (options_ c) v (swap_bytes_ c) (last_data_size_ c) (offset_ c) (origin_ c) (end_ c) (next_member_id_ c) (align64_ c) (serialized_member_size_ c).
Definition set_swap_bytes_ (v : bool) (c : Cdr) : Cdr :=
  mkCdr (cdr_buffer_ c) (cdr_version_ c) (callbacks_ c) (encoding_flag_ c) (current_encoding_ c) (options_ c) (endianness_ c) v (last_data_size_ c) (offset_ c) (origin_ c) (end_ c) (next_member_id_ c) (align64_ c) (serialized_member_size_ c).
Definition set_last_data_size_ (v : Z) (c : Cdr) : Cdr :=
  mkCdr (cdr_buffer_ c) (cdr_version_ c) (callbacks_ c) (encoding_flag_ c) (current_encoding_ c) (options_ c) (endianness_ c) (swap_bytes_ c) v (offset_ c) (origin_ c) (end_ c) (next_member_id_ c) (align64_ c) (serialized_member_size_ c).
Definition set_offset_ (v : Z) (c : Cdr) : Cdr :=
  mkCdr (cdr_buffer_ c) (cdr_version_ c) (callbacks_ c) (encoding_flag_ c) (current_encoding_ c) (options_ c) (endianness_ c) (swap_bytes_ c) (last_data_size_ c) v (origin_ c) (end_ c) (next_member_id_ c) (align64_ c) (serialized_member_size_ c).
Definition set_origin_ (v : Z) (c : Cdr) : Cdr :=
  mkCdr (cdr_buffer_ c) (cdr_version_ c) (callbacks_ c) (encoding_flag_ c) (current_encoding_ c) (options_ c) (endianness_ c) (swap_bytes_ c) (last_data_size_ c) (offset_ c) v (end_ c) (next_member_id_ c) (align64_ c) (serialized_member_size_ c).
Definition set_end_ (v : Z) (c : Cdr) : Cdr :=
  mkCdr (cdr_buffer_ c) (cdr_version_ c) (callbacks_ c) (encoding_flag_ c) (current_encoding_ c) (options_ c) (endianness_ c) (swap_bytes_ c) (last_data_size_ c) (offset_ c) (origin_ c) v (next_member_id_ c) (align64_ c) (serialized_member_size_ c).
Definition set_next_member_id_ (v : MemberId) (c : Cdr) : Cdr :=
  mkCdr (cdr_buffer_ c) (cdr_version_ c) (callbacks_ c) (encoding_flag_ c) (current_encoding_ c) (options_ c) (endianness_ c) (swap_bytes_ c) (last_data_size_ c) (offset_ c) (origin_ c) (end_ c) v (align64_ c) (serialized_member_size_ c).
Definition set_align64_ (v : Z) (c : Cdr) : Cdr :=
  mkCdr (cdr_buffer_ c) (cdr_version_ c) (callbacks_ c) (encoding_flag_ c) (current_encoding_ c) (options_ c) (endianness_ c) (swap_bytes_ c) (last_data_size_ c) (offset_ c) (origin_ c) (end_ c) (next_member_id_ c) v (serialized_member_size_ c).
Definition set_serialized_member_size_ (v : SerializedMemberSizeForNextInt) (c : Cdr) : Cdr :=
  mkCdr (cdr_buffer_ c) (cdr_version_ c) (callbacks_ c) (encoding_flag_ c) (current_encoding_ c) (options_ c) (endianness_ c) (swap_bytes_ c) (last_data_size_ c) (offset_ c) (origin_ c) (end_ c) (next_member_id_ c) (align64_ c) v.

(** The bytes the stream works on. *)
Definition mem (c : Cdr) : list Z := block (cdr_buffer_ c).

Definition set_mem (m : list Z) (c : Cdr) : Cdr :=
  set_cdr_buffer_ (mkFastBuffer m (buffer_null (cdr_buffer_ c)) (size_ (cdr_buffer_ c))
                                (m_internalBuffer (cdr_buffer_ c))) c.

(** [class Cdr::state] *)
Record state := mkState {
  st_offset_ : Z;
  st_origin_ : Z;
  st_swap_bytes_ : bool;
  st_last_data_size_ : Z;
  st_next_member_id_ : MemberId;
  st_member_size_ : Z;
  st_header_selection_ : XCdrHeaderSelection;
  st_header_serialized_ : XCdrHeaderSelection;
  st_previous_encoding_ : EncodingAlgorithmFlag
}.

(** ** Effects

    An operation on a stream returns a value, throws a C++ exception (the
    stream survives it) or touches memory outside of its block.  A loop whose
    length is not bounded by a counter of the code runs on fuel; running out of
    it is an outcome of its own, so that termination is a theorem too. *)

Inductive exn := NotEnoughMemoryException | BadParamException.

Inductive outcome (A : Type) :=
| Ok (a : A) (c : Cdr)
| Throw (e : exn) (c : Cdr)
| Fault
| OutOfFuel.
Arguments Ok {A} _ _.
Arguments Throw {A} _ _.
Arguments Fault {A}.
Arguments OutOfFuel {A}.

Definition M (A : Type) : Type := Cdr -> outcome A.

Definition ret {A} (a : A) : M A := fun c => Ok a c.

Definition bind {A B} (m : M A) (k : A -> M B) : M B := fun c =>
  match m c with
  | Ok a c' => k a c'
  | Throw e c' => Throw e c'
  | Fault => Fault
  | OutOfFuel => OutOfFuel
  end.

Definition throw {A} (e : exn) : M A := fun c => Throw e c.

(** [try { m } catch (Exception& ex) { h }] *)
Definition try_catch {A} (m : M A) (h : exn -> M A) : M A := fun c =>
  match m c with
  | Throw e c' => h e c'
  | r => r
  end.

Definition gets {A} (f : Cdr -> A) : M A := fun c => Ok (f c) c.
Definition modify (f : Cdr -> Cdr) : M unit := fun c => Ok tt (f c).

Declare Scope cdr_scope.
Delimit Scope cdr_scope with cdr.
Notation "x <-- m ;; k" := (bind m (fun x => k))
  (at level 100, m at next level, right associativity) : cdr_scope.
Notation "m ;;; k" := (bind m (fun _ => k))
  (at level 100, right associativity) : cdr_scope.
#[global] Open Scope cdr_scope.

(** Total-correctness weakest precondition: [Q] holds of a normal result, [E]
    of an exception, no access leaves the block and the fuel is enough. *)
Definition wp {A} (m : M A) (c : Cdr) (Q : A -> Cdr -> Prop) (E : exn -> Cdr -> Prop) : Prop :=
  match m c with
  | Ok a c' => Q a c'
  | Throw e c' => E e c'
  | Fault | OutOfFuel => False
  end.

Section wp.
Context {A B : Type}.
Implicit Types (m : M A) (c : Cdr).

Lemma wp_bind m (k : A -> M B) c Q E :
  wp m c (fun a c' => wp (k a) c' Q E) E -> wp (bind m k) c Q E.
Proof. unfold wp, bind. by destruct (m c). Qed.

Lemma wp_bind_inv m (k : A -> M B) c Q E :
  wp (bind m k) c Q E -> wp m c (fun a c' => wp (k a) c' Q E) E.
Proof. unfold wp, bind. by destruct (m c). Qed.

Lemma wp_and m c (Q1 Q2 : A -> Cdr -> Prop) (E1 E2 : exn -> Cdr -> Prop) :
  wp m c Q1 E1 -> wp m c Q2 E2 -> wp m c (fun a c' => Q1 a c' /\ Q2 a c') (fun e c' => E1 e c' /\ E2 e c').
Proof. unfold wp. by destruct (m c). Qed.

Lemma wp_mono m c (Q Q' : A -> Cdr -> Prop) (E E' : exn -> Cdr -> Prop) :
  wp m c Q E -> (forall a c', Q a c' -> Q' a c') -> (forall e c', E e c' -> E' e c') -> wp m c Q' E'.
Proof. unfold wp. destruct (m c); auto. Qed.

Lemma wp_ret (a : A) c Q E : Q a c -> wp (ret a) c Q E.
Proof. done. Qed.

Lemma wp_throw e c (Q : A -> Cdr -> Prop) E : E e c -> wp (throw e) c Q E.
Proof. done. Qed.

Lemma wp_try m h c Q E :
  wp m c Q (fun e c' => wp (h e) c' Q E) -> wp (try_catch m h) c Q E.
Proof. unfold wp, try_catch. by destruct (m c). Qed.

Lemma wp_gets (f : Cdr -> A) c Q E : Q (f c) c -> wp (gets f) c Q E.
Proof. done. Qed.

Lemma wp_modify f c (Q : unit -> Cdr -> Prop) E : Q tt (f c) -> wp (modify f) c Q E.
Proof. done. Qed.

Lemma wp_ok m c a c' Q E : wp m c Q E -> m c = Ok a c' -> Q a c'.
Proof. unfold wp. intros H Eq. by rewrite Eq in H. Qed.

End wp.

(** ** Operations on the state of a stream *)

Section Cdr.
Context `{P : Platform}.

(** [Cdr::DEFAULT_ENDIAN] *)
Definition DEFAULT_ENDIAN : Endianness :=
  if big_endian_target then BIG_ENDIANNESS else LITTLE_ENDIANNESS.

Definition reset_callbacks (c : Cdr) : Cdr :=
  set_callbacks_ (match cdr_version_ c with
                  | XCDRv2 => Xcdr2Callbacks
                  | XCDRv1 => Xcdr1Callbacks
                  | _ => CdrCallbacks
                  end) c.

(** [Cdr::Cdr(FastBuffer&, const Endianness, const CdrVersion)]: the members
    start from their default initialisers. *)
Definition new_Cdr (b : FastBuffer) (endianness : Endianness) (cdr_version : CdrVersion) : Cdr :=
  let c := mkCdr b cdr_version CdrCallbacks PLAIN_CDR2 PLAIN_CDR2 [0; 0] endianness
                 (negb (bool_decide (endianness = DEFAULT_ENDIAN)))
                 0 (begin b) (begin b) (end_of b) MEMBER_ID_INVALID 4 NO_SERIALIZED_MEMBER_SIZE in
  reset_callbacks
    (match cdr_version with
     | XCDRv2 => c
     | _ => set_current_encoding_ PLAIN_CDR (set_encoding_flag_ PLAIN_CDR (set_align64_ 8 c))
     end).

(** [Cdr::state::state(const Cdr&)] *)
Definition get_state (c : Cdr) : state :=
  mkState (offset_ c) (origin_ c) (swap_bytes_ c) (last_data_size_ c) (next_member_id_ c)
          0 AUTO_WITH_SHORT_HEADER_BY_DEFAULT SHORT_HEADER (current_encoding_ c).

(** [Cdr::state::operator ==] *)
Definition state_eqb (a b : state) : bool :=
  (st_offset_ b =? st_offset_ a) && (st_origin_ b =? st_origin_ a) &&
  eqb (st_swap_bytes_ b) (st_swap_bytes_ a) &&
  ((0 =? st_last_data_size_ b) || (0 =? st_last_data_size_ a) ||
   (st_last_data_size_ b =? st_last_data_size_ a)).

(** [Cdr::set_state] *)
Definition set_state (s : state) (c : Cdr) : Cdr :=
  set_next_member_id_ (st_next_member_id_ s)
   (set_last_data_size_ (st_last_data_size_ s)
    (set_swap_bytes_ (st_swap_bytes_ s)
     (set_origin_ (st_origin_ s)
      (set_offset_ (st_offset_ s) c)))).

(** [Cdr::reset] *)
Definition reset (c : Cdr) : Cdr :=
  let flag := if bool_decide (XCDRv2 = cdr_version_ c) then PLAIN_CDR2 else PLAIN_CDR in
  set_options_ [0; 0]
   (set_next_member_id_ MEMBER_ID_INVALID
    (set_current_encoding_ flag
     (set_encoding_flag_ flag
      (set_last_data_size_ 0
       (set_swap_bytes_ (negb (bool_decide (endianness_ c = DEFAULT_ENDIAN)))
        (set_origin_ (begin (cdr_buffer_ c))
         (set_offset_ (begin (cdr_buffer_ c)) c))))))).

(** [Cdr::set_encoding_flag] *)
Definition set_encoding_flag (f : EncodingAlgorithmFlag) (c : Cdr) : bool * Cdr :=
  if negb (bool_decide (CORBA_CDR = cdr_version_ c)) then
    if offset_ c =? begin (cdr_buffer_ c) then (true, set_encoding_flag_ f c) else (false, c)
  else (false, c).

(** [Cdr::set_dds_cdr_options] *)
Definition set_dds_cdr_options (o : list Z) (c : Cdr) : Cdr := set_options_ o c.

(** [Cdr::change_endianness] *)
Definition change_endianness (e : Endianness) (c : Cdr) : Cdr :=
  if bool_decide (endianness_ c = e) then c
  else set_endianness_ e (set_swap_bytes_ (negb (swap_bytes_ c)) c).

(** [Cdr::get_serialized_data_length] *)
Definition get_serialized_data_length (c : Cdr) : Z :=
  size_t (offset_ c - begin (cdr_buffer_ c)).

(** [alignment_on_state]: the padding at [offset], from an explicit origin. *)
Definition alignment_on_state (origin offset data_size : Z) : Z :=
  Z.land (data_size - size_t (offset - origin) mod data_size) (data_size - 1).

(** [Cdr::alignment(size_t) const] *)
Definition alignment (data_size : Z) (c : Cdr) : Z :=
  if data_size >? last_data_size_ c then
    Z.land (data_size - size_t (offset_ c - origin_ c) mod data_size) (data_size - 1)
  else 0.

(** [Cdr::make_alignment] *)
Definition make_alignment (align : Z) (c : Cdr) : Cdr :=
  set_last_data_size_ 0 (set_offset_ (offset_ c + align) c).

(** [Cdr::reset_alignment] *)
Definition reset_alignment (c : Cdr) : Cdr :=
  set_last_data_size_ 0 (set_origin_ (offset_ c) c).

(** [Cdr::resize]: the iterators keep their positions. *)
Definition Cdr_resize (min_size_inc : Z) (c : Cdr) : bool * Cdr :=
  match resize (cdr_buffer_ c) min_size_inc with
  | (true, b) => (true, set_end_ (end_of b) (set_cdr_buffer_ b c))
  | (false, b) => (false, set_cdr_buffer_ b c)
  end.

(** [end_ - offset_], an unsigned difference of pointers. *)
Definition remaining (c : Cdr) : Z := size_t (end_ c - offset_ c).

(** [((end_ - offset_) >= n) || resize(n)], the guard of every serializer. *)
Definition has_room (n : Z) : M bool := fun c =>
  if remaining c >=? n then Ok true c
  else let (ok, c') := Cdr_resize n c in Ok ok c'.

(** [Cdr::jump] *)
Definition jump (num_bytes : Z) : M bool :=
  ok <-- has_room num_bytes ;;
  if ok then
    modify (fun c => set_last_data_size_ 0 (set_offset_ (offset_ c + num_bytes) c)) ;;;
    ret true
  else ret false.

(** [Cdr::move_alignment_forward] *)
Definition move_alignment_forward (num_bytes : Z) (c : Cdr) : bool * Cdr :=
  if size_t (end_ c - origin_ c) >=? num_bytes then
    (true, set_last_data_size_ 0 (set_origin_ (origin_ c + num_bytes) c))
  else match Cdr_resize num_bytes c with
       | (true, c') => (true, set_last_data_size_ 0 (set_origin_ (origin_ c' + num_bytes) c'))
       | (false, c') => (false, c')
       end.

(** [offset_ << data; offset_ += sizeof(data)]: copy bytes at the current
    position and move past them. *)
Definition put (bs : list Z) : M unit := fun c =>
  match mwrite (mem c) (offset_ c) bs with
  | Some m => Ok tt (set_offset_ (offset_ c + zlen bs) (set_mem m c))
  | None => Fault
  end.

(** [offset_ >> data; offset_ += sizeof(data)] *)
Definition get (n : Z) : M (list Z) := fun c =>
  match mread (mem c) (offset_ c) n with
  | Some bs => Ok bs (set_offset_ (offset_ c + n) c)
  | None => Fault
  end.

End Cdr.
