(* ===== verification/CdrInv.v ===== *)
(** * Invariant and frame of a CDR stream

    The well-formedness of a stream, what an operation that appends data may
    change ([ext]), what an operation that fails leaves behind ([unwound]), and
    the specifications of the building blocks of the serializers: alignment,
    growth, raw writes and reads. *)

From S2P Require Import Prelude FastBuffer CdrState.

(** ** Well-formed streams *)

(** The alignment of 8-byte primitives and the callbacks follow the version. *)
Definition align64_of (v : CdrVersion) : Z := match v with XCDRv2 => 4 | _ => 8 end.
Definition callbacks_of (v : CdrVersion) : Callbacks :=
  match v with XCDRv2 => Xcdr2Callbacks | XCDRv1 => Xcdr1Callbacks | _ => CdrCallbacks end.

Record wf (c : Cdr) : Prop := mkWf {
  wf_buffer : buffer_wf (cdr_buffer_ c);
  wf_end : end_ c = size_ (cdr_buffer_ c);
  wf_offset : 0 <= offset_ c <= end_ c;
  wf_lds : 0 <= last_data_size_ c <= 2 /\
           (last_data_size_ c = 2 -> (origin_ c - offset_ c) mod 2 = 0);
  wf_align64 : align64_ c = align64_of (cdr_version_ c);
  wf_callbacks : callbacks_ c = callbacks_of (cdr_version_ c)
}.

(** The bytes are swapped exactly when the wire order is not the host's. *)
Definition endian_ok `{Platform} (c : Cdr) : Prop :=
  swap_bytes_ c = negb (bool_decide (endianness_ c = DEFAULT_ENDIAN)).

(** ** Frames *)

(** The configuration no (de)serializer of plain data changes. *)
Record same_config (c c' : Cdr) : Prop := mkSameConfig {
  sc_version : cdr_version_ c' = cdr_version_ c;
  sc_callbacks : callbacks_ c' = callbacks_ c;
  sc_flag : encoding_flag_ c' = encoding_flag_ c;
  sc_encoding : current_encoding_ c' = current_encoding_ c;
  sc_options : options_ c' = options_ c;
  sc_endianness : endianness_ c' = endianness_ c;
  sc_swap : swap_bytes_ c' = swap_bytes_ c;
  sc_align64 : align64_ c' = align64_ c;
  sc_origin : origin_ c' = origin_ c;
  sc_member : next_member_id_ c' = next_member_id_ c;
  sc_internal : m_internalBuffer (cdr_buffer_ c') = m_internalBuffer (cdr_buffer_ c)
}.

#[export] Instance same_config_equivalence : Equivalence same_config.
Proof.
  split.
  - by intros c.
  - intros c d []. split; congruence.
  - intros c d e [] []. split; congruence.
Qed.

(** A buffer of the caller does not grow. *)
Definition fixed_end (c c' : Cdr) : Prop :=
  m_internalBuffer (cdr_buffer_ c) = false -> end_ c' = end_ c.

(** [c'] extends [c]: data was appended after [offset_ c], nothing before it
    changed and the stream is still well formed. *)
Record ext (c c' : Cdr) : Prop := mkExt {
  ext_wf : wf c';
  ext_config : same_config c c';
  ext_offset : offset_ c <= offset_ c';
  ext_end : end_ c <= end_ c';
  ext_mem : agree 0 (offset_ c) (mem c) (mem c');
  ext_fixed : fixed_end c c'
}.

Lemma ext_refl c : wf c -> ext c c.
Proof. intros. split; try done; try lia. Qed.

Lemma ext_trans c1 c2 c3 : ext c1 c2 -> ext c2 c3 -> ext c1 c3.
Proof.
  intros [W1 S1 O1 E1 M1 F1] [W2 S2 O2 E2 M2 F2]. split; try done; try lia.
  - by etrans.
  - etrans; [exact M1|]. eapply agree_weaken; [exact M2|lia|lia].
  - intros Hi. rewrite <- (F1 Hi). apply F2. destruct S1. congruence.
Qed.

(** [c'] is what a failed operation leaves: the position, the alignment state
    and the data already serialized are those of [c]; when the buffer belongs
    to the caller the stream is still well formed. *)
Record unwound (c c' : Cdr) : Prop := mkUnwound {
  uw_config : same_config c c';
  uw_offset : offset_ c' = offset_ c;
  uw_lds : last_data_size_ c' = last_data_size_ c;
  uw_mem : agree 0 (offset_ c) (mem c) (mem c');
  uw_wf : m_internalBuffer (cdr_buffer_ c) = false -> wf c';
  uw_fixed : fixed_end c c'
}.

(** The postcondition of a failing serializer: the exception is
    [NotEnoughMemoryException] and the stream is as it was. *)
Definition rolled_back (c : Cdr) (e : exn) (c' : Cdr) : Prop :=
  e = NotEnoughMemoryException /\ unwound c c'.

Lemma wf_mem_length c : wf c -> zlen (mem c) = end_ c.
Proof. intros [[] ? ? ? ? ?]. unfold mem. congruence. Qed.

Lemma wf_end_bound c : wf c -> end_ c < 2 ^ 62.
Proof. intros [[] ? ? ? ? ?]. congruence. Qed.

(** Simplify the projections of explicitly updated streams. *)
Ltac cdr_simpl :=
  cbn [cdr_buffer_ cdr_version_ callbacks_ encoding_flag_ current_encoding_ options_ endianness_
       swap_bytes_ last_data_size_ offset_ origin_ end_ next_member_id_ align64_
       serialized_member_size_ set_cdr_buffer_ set_cdr_version_ set_callbacks_ set_encoding_flag_
       set_current_encoding_ set_options_ set_endianness_ set_swap_bytes_ set_last_data_size_
       set_offset_ set_origin_ set_end_ set_next_member_id_ set_align64_
       set_serialized_member_size_ set_mem block buffer_null size_ m_internalBuffer
       st_offset_ st_origin_ st_swap_bytes_ st_last_data_size_ st_next_member_id_ st_member_size_
       st_header_selection_ st_header_serialized_ st_previous_encoding_ set_state get_state
       id must_understand make_alignment reset_alignment] in *.

(** Step through a monadic program in a [wp] goal. *)
Ltac wp_step :=
  lazymatch goal with
  | |- wp (bind _ _) _ _ _ => apply wp_bind
  | |- wp (ret _) _ _ _ => apply wp_ret
  | |- wp (throw _) _ _ _ => apply wp_throw
  | |- wp (gets _) _ _ _ => apply wp_gets
  | |- wp (modify _) _ _ _ => apply wp_modify
  | |- wp (try_catch _ _) _ _ _ => apply wp_try
  end; cbv beta.
Ltac wp_steps := repeat wp_step.

Section Blocks.
Context `{P : Platform}.
Implicit Types (c d : Cdr) (Q : unit -> Cdr -> Prop) (E : exn -> Cdr -> Prop).

(** ** Fresh streams *)

Lemma wf_new_external buf e v : zlen buf < 2 ^ 62 -> wf (new_Cdr (FastBuffer_external buf) e v).
Proof.
  intros Hb. pose proof (zlen_nonneg buf). unfold new_Cdr, reset_callbacks.
  destruct v; split; cdr_simpl; try done; try (by apply buffer_wf_external);
    unfold begin, end_of, FastBuffer_external; simpl; lia.
Qed.

(** ** Alignment *)

(** The next position of [offset] that is a multiple of [al] away from the
    origin: the definition of CDR alignment. *)
Definition aligned_pos (al : Z) (c : Cdr) : Z := offset_ c + (origin_ c - offset_ c) mod al.

Definition is_align (al : Z) : Prop := al = 2 \/ al = 4 \/ al = 8.

Lemma is_align_pow2 al : is_align al -> exists k, 1 <= k <= 3 /\ al = 2 ^ k.
Proof. intros [->|[->| ->]]; [exists 1|exists 2|exists 3]; split; done || lia. Qed.

Lemma is_align_64 v : is_align (align64_of v).
Proof. unfold is_align. destruct v; simpl; lia. Qed.

Lemma alignment_on_state_eq origin offset al :
  is_align al -> alignment_on_state origin offset al = (origin - offset) mod al.
Proof.
  intros Hal. unfold alignment_on_state.
  destruct (is_align_pow2 _ Hal) as (k & Hk & ->).
  rewrite size_t_mod_pow2, align_mask by lia. f_equal. lia.
Qed.

Lemma alignment_eq al c : wf c -> is_align al -> alignment al c = (origin_ c - offset_ c) mod al.
Proof.
  intros [? ? ? [Hl Hl2] ? ?] Hal. unfold alignment.
  destruct (Z.gtb_spec al (last_data_size_ c)).
  - by apply alignment_on_state_eq.
  - assert (al = 2) as -> by (unfold is_align in *; lia). rewrite Hl2; lia.
Qed.

Lemma aligned_pos_bounds al c : is_align al -> offset_ c <= aligned_pos al c < offset_ c + 8.
Proof.
  unfold is_align, aligned_pos. intros H.
  pose proof (Z.mod_pos_bound (origin_ c - offset_ c) al ltac:(lia)). lia.
Qed.

(** ** Growth *)

(** [c'] is [c] on a buffer that was possibly grown. *)
Record grown (c c' : Cdr) : Prop := mkGrown {
  gr_buffer : c' = set_end_ (end_ c') (set_cdr_buffer_ (cdr_buffer_ c') c);
  gr_wf : wf c';
  gr_end : end_ c <= end_ c';
  gr_mem : agree 0 (end_ c) (mem c) (mem c');
  gr_internal : m_internalBuffer (cdr_buffer_ c') = m_internalBuffer (cdr_buffer_ c);
  gr_fixed : fixed_end c c'
}.

Lemma grown_refl c : wf c -> grown c c.
Proof. intros. split; try done; try lia; by destruct c. Qed.

Lemma grown_fields c c' : grown c c' ->
  same_config c c' /\ offset_ c' = offset_ c /\ last_data_size_ c' = last_data_size_ c.
Proof. intros [E ? ? ? ? ?]. repeat split; try done; rewrite E; done. Qed.

Lemma has_room_spec n c R E :
  wf c -> 0 <= n < 2 ^ 63 ->
  (forall c', grown c c' -> offset_ c + n <= end_ c' -> R true c') ->
  (forall c', unwound c c' -> R false c') ->
  wp (has_room n) c R E.
Proof.
  intros W Hn Ht Hf. pose proof (wf_end_bound c W). destruct (W) as [Wb We Wo Wl Wa Wc].
  unfold wp, has_room, remaining. rewrite size_t_small by lia.
  destruct (Z.geb_spec (end_ c - offset_ c) n) as [Hr|Hr].
  { apply Ht; [by apply grown_refl|lia]. }
  pose proof (resize_internal (cdr_buffer_ c) n) as Hint.
  unfold Cdr_resize. pose proof (resize_spec (cdr_buffer_ c) n Wb ltac:(lia)) as Hs.
  destruct (resize (cdr_buffer_ c) n) as [[] b] eqn:Er; simpl in Hint.
  - destruct Hs as (Hwf & Hsz & Hag & Hi). apply Ht; [|simpl; unfold end_of; lia].
    split; cdr_simpl; unfold end_of; try done; try lia.
    + destruct Hwf. split; cdr_simpl; try done; lia.
    + by rewrite We.
    + intros Hi'. congruence.
  - apply Hf. split; cdr_simpl; try done.
    + unfold mem at 2. cdr_simpl. rewrite Hs. apply agree_refl.
    + intros Hi'. rewrite resize_external in Er by done. injection Er as <-. by destruct c.
Qed.

Lemma has_room_ok n c : exists b c', has_room n c = Ok b c'.
Proof.
  unfold has_room. destruct (_ >=? _); [eauto|]. destruct (Cdr_resize n c) as [b c']. eauto.
Qed.

(** ** Raw writes and reads *)

Lemma put_spec bs c Q E :
  0 <= offset_ c -> offset_ c + zlen bs <= zlen (mem c) ->
  (forall m, zlen m = zlen (mem c) -> agree 0 (offset_ c) (mem c) m ->
     agree (offset_ c + zlen bs) (zlen (mem c)) (mem c) m ->
     mread m (offset_ c) (zlen bs) = Some bs ->
     Q tt (set_offset_ (offset_ c + zlen bs) (set_mem m c))) ->
  wp (put bs) c Q E.
Proof.
  intros H0 Hr HQ. unfold wp, put.
  destruct (mwrite_ok (mem c) (offset_ c) bs H0 Hr) as (m & -> & ? & ? & ? & ?). auto.
Qed.

Lemma get_spec n c R E :
  0 <= offset_ c -> 0 <= n -> offset_ c + n <= zlen (mem c) ->
  (forall bs, mread (mem c) (offset_ c) n = Some bs -> zlen bs = n ->
     R bs (set_offset_ (offset_ c + n) c)) ->
  wp (get n) c R E.
Proof.
  intros H0 Hn Hr HQ. unfold wp, get.
  destruct (mread_ok (mem c) (offset_ c) n H0 Hn Hr) as (bs & Hm & ?). rewrite Hm. auto.
Qed.

End Blocks.

Create HintDb cdr discriminated.
#[export] Hint Resolve ext_refl ext_trans is_align_64 grown_refl : cdr.
