(* ===== verification/CdrScalar.v ===== *)
(** * Serialization of primitives, strings and arrays

    Models the overloads of [Cdr::serialize], [Cdr::serialize_array],
    [Cdr::deserialize] and [Cdr::deserialize_array] of
    [Fast-CDR/src/cpp/Cdr.cpp].  A value of an arithmetic type is given by its
    bit pattern (an integer taken modulo [2^w]); floating-point values are
    carried as the bit pattern of their object representation. *)

From S2P Require Import Prelude FastBuffer CdrState CdrInv.

Section Scalars.
Context `{P : Platform}.

(** ** Wire order *)

(** The bytes [dst[n-1], ..., dst[0]] when the bytes are swapped, the object
    representation otherwise. *)
Definition wire (n : nat) (swap : bool) (v : Z) : list Z :=
  if swap then rev (host_bytes n v) else host_bytes n v.

Definition unwire (swap : bool) (bs : list Z) : Z :=
  host_value (if swap then rev bs else bs).

(** ** The two shapes of a serializer *)

(** Data without alignment: check the room, note the data size, copy. *)
Definition put_octets (bs : list Z) : M unit :=
  ok <-- has_room (zlen bs) ;;
  if ok then
    modify (set_last_data_size_ 1) ;;;
    put bs
  else throw NotEnoughMemoryException.

(** The same, going back to a saved state when there is no room. *)
Definition put_or_restore (saved : state) (total_size : Z) (bs : list Z) : M unit :=
  ok <-- has_room total_size ;;
  if ok then
    modify (set_last_data_size_ 1) ;;;
    put bs
  else
    modify (set_state saved) ;;;
    throw NotEnoughMemoryException.

(** Aligned data of [total_size] bytes: [data_align] is [sizeof(T)], or
    [align64_] for the types of eight bytes and more; the bytes depend on
    whether the stream swaps them. *)
Definition put_aligned (data_align total_size : Z) (bytes : bool -> list Z) : M unit :=
  align <-- gets (alignment data_align) ;;
  ok <-- has_room (size_t (total_size + align)) ;;
  if ok then
    modify (set_last_data_size_ data_align) ;;;
    modify (make_alignment align) ;;;
    swap <-- gets swap_bytes_ ;;
    put (bytes swap)
  else throw NotEnoughMemoryException.

(** ** Serialization of primitives *)

(** [Cdr::serialize(const char)]; the octet and [int8_t] overloads of [Cdr.h]
    convert to [char]. *)
Definition serialize_char (char_t : Z) : M unit := put_octets [u8 char_t].

(** The aligned primitives of [n] bytes. *)
Definition serialize_scalar (n : nat) (data_align : Z) (v : Z) : M unit :=
  put_aligned data_align (Z.of_nat n) (fun swap => wire n swap v).

(** [Cdr::serialize(const int16_t)] *)
Definition serialize_int16 (short_t : Z) : M unit := serialize_scalar 2 2 short_t.

(** [Cdr::serialize(const int32_t)] *)
Definition serialize_int32 (long_t : Z) : M unit := serialize_scalar 4 4 long_t.

(** [Cdr::serialize(const int64_t)] *)
Definition serialize_int64 (longlong_t : Z) : M unit :=
  align64 <-- gets align64_ ;; serialize_scalar 8 align64 longlong_t.

(** [Cdr::serialize(const float)] *)
Definition serialize_float (float_t : Z) : M unit := serialize_scalar 4 4 float_t.

(** [Cdr::serialize(const double)] *)
Definition serialize_double (double_t : Z) : M unit :=
  align64 <-- gets align64_ ;; serialize_scalar 8 align64 double_t.

(** The bytes written for one [long double]: converted to [__float128] where
    the platform has it and [long double] is narrower, copied where it has 16
    bytes, and after eight zero bytes where it has 8. *)
Definition ldouble_bytes (swap : bool) (v : Z) : list Z :=
  if have_float128 && (sizeof_long_double <? 16) then wire 16 swap (long_double_to_float128 v)
  else if sizeof_long_double =? 16 then wire 16 swap v
  else replicate 8 0 ++ wire 8 swap v.

(** [Cdr::serialize(const long double)] *)
Definition serialize_long_double (ldouble_t : Z) : M unit :=
  align64 <-- gets align64_ ;;
  put_aligned align64 sizeof_long_double (fun swap => ldouble_bytes swap ldouble_t).

(** [Cdr::serialize(const bool)] *)
Definition serialize_bool (bool_t : bool) : M unit := put_octets [if bool_t then 1 else 0].

(** [uint16_t], [wchar_t], [uint32_t] and [uint64_t] of [Cdr.h] convert to the
    signed type of the same width. *)
Definition serialize_uint16 (v : Z) : M unit := serialize_int16 (u16 v).
Definition serialize_wchar (v : Z) : M unit := serialize_uint16 (u16 v).
Definition serialize_uint32 (v : Z) : M unit := serialize_int32 (u32 v).
Definition serialize_uint64 (v : Z) : M unit := serialize_int64 (u64 v).

(** ** Serialization of strings *)

(** The C string held by a buffer: the characters before the first NUL. *)
Fixpoint c_str (s : list Z) : list Z :=
  match s with
  | [] => []
  | ch :: s' => if ch =? 0 then [] else ch :: c_str s'
  end.

(** [Cdr::serialize] of a [const char] pointer; [None] is the null pointer and a string is
    given without its terminating NUL. *)
Definition serialize_cstring (string_t : option (list Z)) : M unit :=
  let length :=
    match string_t with
    | Some s => u32 (u32 (zlen s) + 1)
    | None => 0
    end in
  (if length >? 0 then
     state_before_error <-- gets get_state ;;
     serialize_uint32 length ;;;
     put_or_restore state_before_error length (take (Z.to_nat length) (default [] string_t ++ [0]))
   else serialize_uint32 length) ;;;
  modify (set_serialized_member_size_ SERIALIZED_MEMBER_SIZE).

(** [Cdr::serialize(const std::string&)] *)
Definition serialize_string (string_t : list Z) : M unit := serialize_cstring (Some (c_str string_t)).

(** [for (count = 0; count < num_elements; ++count) serialize(value[count])] *)
Fixpoint serialize_each {A} (ser : A -> M unit) (vs : list A) : M unit :=
  match vs with
  | [] => ret tt
  | v :: vs' => ser v ;;; serialize_each ser vs'
  end.

(** [Cdr::serialize_array(const wchar_t*, size_t)] *)
Definition serialize_array_wchar (wchar : list Z) : M unit :=
  if zlen wchar =? 0 then ret tt else serialize_each serialize_wchar wchar.

(** [Cdr::serialize] of a [const wchar_t] pointer. *)
Definition serialize_wcstring (string_t : option (list Z)) : M unit :=
  let wstrlen := match string_t with Some s => zlen s | None => 0 end in
  let bytes_length := u32 (size_t (wstrlen * 2)) in
  if bytes_length >? 0 then
    state_ <-- gets get_state ;;
    serialize_uint32 (u32 wstrlen) ;;;
    ok <-- has_room bytes_length ;;
    if ok then serialize_array_wchar (default [] string_t)
    else
      modify (set_state state_) ;;;
      throw NotEnoughMemoryException
  else serialize_uint32 bytes_length.

(** [Cdr::serialize(const std::wstring&)] *)
Definition serialize_wstring (string_t : list Z) : M unit := serialize_wcstring (Some (c_str string_t)).

(** ** Serialization of arrays *)

(** [Cdr::serialize_array(const bool*, size_t)] *)
Definition serialize_array_bool (bool_t : list bool) : M unit :=
  put_octets (map (fun b : bool => if b then 1 else 0) bool_t).

(** [Cdr::serialize_array(const char*, size_t)] *)
Definition serialize_array_char (char_t : list Z) : M unit := put_octets (map u8 char_t).

(** The common body of the arrays of aligned primitives: each element takes
    [n] bytes of the stream, given by [bytes]. *)
Definition serialize_array_scalar (n : nat) (data_align : Z) (bytes : bool -> Z -> list Z)
    (vs : list Z) : M unit :=
  if zlen vs =? 0 then ret tt
  else put_aligned data_align (size_t (Z.of_nat n * zlen vs))
                   (fun swap => concat (map (bytes swap) vs)).

(** [Cdr::serialize_array(const int16_t*, size_t)] *)
Definition serialize_array_int16 (short_t : list Z) : M unit :=
  serialize_array_scalar 2 2 (wire 2) short_t.

(** [Cdr::serialize_array(const int32_t*, size_t)] *)
Definition serialize_array_int32 (long_t : list Z) : M unit :=
  serialize_array_scalar 4 4 (wire 4) long_t.

(** [Cdr::serialize_array(const int64_t*, size_t)] *)
Definition serialize_array_int64 (longlong_t : list Z) : M unit :=
  align64 <-- gets align64_ ;; serialize_array_scalar 8 align64 (wire 8) longlong_t.

(** [Cdr::serialize_array(const float*, size_t)] *)
Definition serialize_array_float (float_t : list Z) : M unit :=
  serialize_array_scalar 4 4 (wire 4) float_t.

(** [Cdr::serialize_array(const double*, size_t)] *)
Definition serialize_array_double (double_t : list Z) : M unit :=
  align64 <-- gets align64_ ;; serialize_array_scalar 8 align64 (wire 8) double_t.

(** [Cdr::serialize_array(const long double*, size_t)]: 16 bytes are reserved
    for each element, whatever the size of [long double].  Where it has 8 bytes
    the swapping loop steps by 8 up to [16 * num_elements] and so reads past
    the end of the array. *)
Definition serialize_array_long_double (ldouble_t : list Z) : M unit :=
  align64 <-- gets align64_ ;;
  swap <-- gets swap_bytes_ ;;
  if swap && negb have_float128 && (sizeof_long_double =? 8) && negb (zlen ldouble_t =? 0) then
    align <-- gets (alignment align64) ;;
    ok <-- has_room (size_t (size_t (16 * zlen ldouble_t) + align)) ;;
    if ok then (fun _ => Fault) else throw NotEnoughMemoryException
  else serialize_array_scalar 16 align64 ldouble_bytes ldouble_t.

(** ** Deserialization of primitives *)

(** [(end_ - offset_) >= n], the guard of every deserializer. *)
Definition has_data (n : Z) : M bool := gets (fun c => remaining c >=? n).

(** Data without alignment: [k] consumes the data once it is known to be
    there. *)
Definition get_octets {A} (total_size : Z) (k : M A) : M A :=
  ok <-- has_data total_size ;;
  if ok then
    modify (set_last_data_size_ 1) ;;;
    k
  else throw NotEnoughMemoryException.

(** Aligned data of [total_size] bytes. *)
Definition get_aligned {A} (data_align total_size : Z) (k : bool -> M A) : M A :=
  align <-- gets (alignment data_align) ;;
  ok <-- has_data (size_t (total_size + align)) ;;
  if ok then
    modify (set_last_data_size_ data_align) ;;;
    modify (make_alignment align) ;;;
    swap <-- gets swap_bytes_ ;;
    k swap
  else throw NotEnoughMemoryException.

(** [Cdr::deserialize(char&)] *)
Definition deserialize_char : M Z := get_octets 1 (bs <-- get 1 ;; ret (le_value bs)).

(** One element of [n] bytes at the current position. *)
Definition get_scalar (n : nat) (swap : bool) : M Z := bs <-- get (Z.of_nat n) ;; ret (unwire swap bs).

(** The aligned primitives of [n] bytes. *)
Definition deserialize_scalar (n : nat) (data_align : Z) : M Z :=
  get_aligned data_align (Z.of_nat n) (get_scalar n).

(** [Cdr::deserialize(int16_t&)] *)
Definition deserialize_int16 : M Z := deserialize_scalar 2 2.

(** [Cdr::deserialize(int32_t&)] *)
Definition deserialize_int32 : M Z := deserialize_scalar 4 4.

(** [Cdr::deserialize(int64_t&)] *)
Definition deserialize_int64 : M Z := align64 <-- gets align64_ ;; deserialize_scalar 8 align64.

(** [Cdr::deserialize(float&)] *)
Definition deserialize_float : M Z := deserialize_scalar 4 4.

(** [Cdr::deserialize(double&)] *)
Definition deserialize_double : M Z := align64 <-- gets align64_ ;; deserialize_scalar 8 align64.

(** Read one [long double] at the current position. *)
Definition get_ldouble (swap : bool) : M Z :=
  if have_float128 && (sizeof_long_double <? 16) then
    bs <-- get 16 ;; ret (float128_to_long_double (unwire swap bs))
  else if sizeof_long_double =? 16 then
    bs <-- get 16 ;; ret (unwire swap bs)
  else
    modify (fun c => set_offset_ (offset_ c + 8) c) ;;;
    bs <-- get 8 ;; ret (unwire swap bs).

(** [Cdr::deserialize(long double&)] *)
Definition deserialize_long_double : M Z :=
  align64 <-- gets align64_ ;; get_aligned align64 sizeof_long_double get_ldouble.

(** One boolean: any byte but 0 and 1 is an error, thrown after the byte was
    consumed. *)
Definition get_bool_strict : M bool :=
  bs <-- get 1 ;;
  let value := le_value bs in
  if value =? 1 then ret true else if value =? 0 then ret false else throw BadParamException.

(** [Cdr::deserialize(bool&)] *)
Definition deserialize_bool : M bool := get_octets 1 get_bool_strict.

(** The unsigned overloads of [Cdr.h] reinterpret the signed ones. *)
Definition deserialize_uint16 : M Z := deserialize_int16.
Definition deserialize_uint32 : M Z := deserialize_int32.
Definition deserialize_uint64 : M Z := deserialize_int64.

(** ** Deserialization of strings *)

(** [Cdr::deserialize] of a [char] pointer: the bytes copied to the allocated string. *)
Definition deserialize_cstring : M (option (list Z)) :=
  state_before_error <-- gets get_state ;;
  length <-- deserialize_uint32 ;;
  if length =? 0 then ret None
  else
    ok <-- has_data length ;;
    if ok then
      modify (set_last_data_size_ 1) ;;;
      bs <-- get length ;;
      ret (Some (c_str bs))
    else
      modify (set_state state_before_error) ;;;
      throw NotEnoughMemoryException.

(** [Cdr::read_string]: the characters and the length returned by reference. *)
Definition read_string : M (list Z) :=
  state_before_error <-- gets get_state ;;
  length <-- deserialize_uint32 ;;
  if length =? 0 then ret []
  else
    ok <-- has_data length ;;
    if ok then
      modify (set_last_data_size_ 1) ;;;
      bs <-- get length ;;
      ret (if List.last bs 0 =? 0 then take (Z.to_nat (length - 1)) bs else bs)
    else
      modify (set_state state_before_error) ;;;
      throw NotEnoughMemoryException.

(** [Cdr::deserialize(std::string&)]: [string_t.assign(str, length)]. *)
Definition deserialize_string : M (list Z) := read_string.

(** [num_elements] calls of a deserializer. *)
Fixpoint deserialize_each {A} (des : M A) (n : nat) : M (list A) :=
  match n with
  | O => ret []
  | S n' => v <-- des ;; vs <-- deserialize_each des n' ;; ret (v :: vs)
  end.

(** [Cdr::deserialize_array(wchar_t*, size_t)] *)
Definition deserialize_array_wchar (num_elements : Z) : M (list Z) :=
  if num_elements =? 0 then ret []
  else deserialize_each deserialize_uint16 (Z.to_nat num_elements).

(** [Cdr::deserialize] of a [wchar_t] pointer. *)
Definition deserialize_wcstring : M (option (list Z)) :=
  state_before_error <-- gets get_state ;;
  length <-- deserialize_uint32 ;;
  if length =? 0 then ret None
  else
    ok <-- has_data (u32 (length * 2)) ;;
    if ok then
      modify (set_last_data_size_ 2) ;;;
      ws <-- deserialize_array_wchar length ;;
      ret (Some (c_str ws))
    else
      modify (set_state state_before_error) ;;;
      throw NotEnoughMemoryException.

(** [Cdr::read_wstring]: the string and the length returned by reference. *)
Definition read_wstring : M (list Z * Z) :=
  state_ <-- gets get_state ;;
  length <-- deserialize_uint32 ;;
  let bytes_length := u32 (length * 2) in
  if bytes_length =? 0 then ret ([], length)
  else
    ok <-- has_data bytes_length ;;
    if ok then
      modify (set_last_data_size_ 2) ;;;
      ws <-- deserialize_array_wchar length ;;
      if List.last ws 0 =? 0
      then ret (take (Z.to_nat (length - 1)) ws, length - 1)
      else ret (ws, length)
    else
      modify (set_state state_) ;;;
      throw NotEnoughMemoryException.

(** [Cdr::deserialize(std::wstring&)] *)
Definition deserialize_wstring : M (list Z) := r <-- read_wstring ;; ret r.1.

(** ** Deserialization of arrays

    The target array is passed by its old content: an array of booleans keeps
    the old element where the byte read is neither 0 nor 1. *)

Definition bool_of_byte (old : bool) (value : Z) : bool :=
  if value =? 1 then true else if value =? 0 then false else old.

(** [Cdr::deserialize_array(bool*, size_t)] *)
Definition deserialize_array_bool (bool_t : list bool) : M (list bool) :=
  let total_size := zlen bool_t in
  get_octets total_size (bs <-- get total_size ;; ret (zip_with bool_of_byte bool_t bs)).

(** [Cdr::deserialize_array(char*, size_t)] *)
Definition deserialize_array_char (num_elements : Z) : M (list Z) :=
  let total_size := num_elements in get_octets total_size (get total_size).

(** The common body of the arrays of aligned primitives of [n] bytes. *)
Definition deserialize_array_scalar (n : nat) (data_align : Z) (elem : bool -> M Z)
    (num_elements : Z) : M (list Z) :=
  if num_elements =? 0 then ret []
  else get_aligned data_align (size_t (Z.of_nat n * num_elements))
                   (fun swap => deserialize_each (elem swap) (Z.to_nat num_elements)).

(** [Cdr::deserialize_array(int16_t*, size_t)] *)
Definition deserialize_array_int16 (n : Z) : M (list Z) := deserialize_array_scalar 2 2 (get_scalar 2) n.

(** [Cdr::deserialize_array(int32_t*, size_t)] *)
Definition deserialize_array_int32 (n : Z) : M (list Z) := deserialize_array_scalar 4 4 (get_scalar 4) n.

(** [Cdr::deserialize_array(int64_t*, size_t)] *)
Definition deserialize_array_int64 (n : Z) : M (list Z) :=
  align64 <-- gets align64_ ;; deserialize_array_scalar 8 align64 (get_scalar 8) n.

(** [Cdr::deserialize_array(float*, size_t)] *)
Definition deserialize_array_float (n : Z) : M (list Z) := deserialize_array_scalar 4 4 (get_scalar 4) n.

(** [Cdr::deserialize_array(double*, size_t)] *)
Definition deserialize_array_double (n : Z) : M (list Z) :=
  align64 <-- gets align64_ ;; deserialize_array_scalar 8 align64 (get_scalar 8) n.

(** [Cdr::deserialize_array(long double*, size_t)] *)
Definition deserialize_array_long_double (n : Z) : M (list Z) :=
  align64 <-- gets align64_ ;; deserialize_array_scalar 16 align64 get_ldouble n.

(** ** Vectors of booleans *)

(** [Cdr::serialize_bool_array] *)
Definition serialize_bool_array (vector_t : list bool) : M unit :=
  state_before_error <-- gets get_state ;;
  put_or_restore state_before_error (zlen vector_t)
                 (map (fun b : bool => if b then 1 else 0) vector_t) ;;;
  v <-- gets cdr_version_ ;;
  if bool_decide (XCDRv2 = v) then modify (set_serialized_member_size_ SERIALIZED_MEMBER_SIZE) else ret tt.

(** [Cdr::deserialize_bool_array] *)
Definition deserialize_bool_array (vector_t : list bool) : M (list bool) :=
  state_before_error <-- gets get_state ;;
  let total_size := zlen vector_t in
  ok <-- has_data total_size ;;
  if ok then
    modify (set_last_data_size_ 1) ;;;
    deserialize_each get_bool_strict (length vector_t)
  else
    modify (set_state state_before_error) ;;;
    throw NotEnoughMemoryException.

(** [Cdr::deserialize_bool_sequence] *)
Definition deserialize_bool_sequence : M (list bool) :=
  state_before_error <-- gets get_state ;;
  sequence_length <-- deserialize_uint32 ;;
  let total_size := sequence_length in
  ok <-- has_data total_size ;;
  if ok then
    modify (set_last_data_size_ 1) ;;;
    deserialize_each get_bool_strict (Z.to_nat sequence_length)
  else
    modify (set_state state_before_error) ;;;
    throw NotEnoughMemoryException.

End Scalars.
