(* ===== verification/CdrCodec.v ===== *)
(** * Round trips: what a serializer stores, the matching deserializer reads

    [stored des v c c'] says that the bytes a serializer left between the
    positions of [c] and [c'] are read back as [v] by [des], from any stream
    with the same position, alignment origin, byte order and encoding.  The
    class [LawfulCodec] is the contract a type has with the containers and
    members built on it: serializing never leaves the buffer, only appends,
    restores the stream on failure and stores the value. *)

From S2P Require Import Prelude FastBuffer CdrState CdrInv CdrScalar.

(** A stream [d] positioned where [c] is, and interpreting bytes as [c] does. *)
Record reader (c d : Cdr) : Prop := mkReader {
  rd_wf : wf d;
  rd_offset : offset_ d = offset_ c;
  rd_origin : origin_ d = origin_ c;
  rd_swap : swap_bytes_ d = swap_bytes_ c;
  rd_version : cdr_version_ d = cdr_version_ c;
  rd_encoding : current_encoding_ d = current_encoding_ c
}.

(** [d'] is [d] after some data was read. *)
Record advanced (d d' : Cdr) : Prop := mkAdvanced {
  ad_wf : wf d';
  ad_config : same_config d d';
  ad_offset : offset_ d <= offset_ d';
  ad_buffer : cdr_buffer_ d' = cdr_buffer_ d
}.

Lemma advanced_refl d : wf d -> advanced d d.
Proof. intros. split; try done; lia. Qed.

Lemma advanced_trans d1 d2 d3 : advanced d1 d2 -> advanced d2 d3 -> advanced d1 d3.
Proof. intros [] []. split; try done; try lia; [by etrans|congruence]. Qed.

Lemma advanced_end d d' : wf d -> advanced d d' -> end_ d' = end_ d.
Proof. intros W [W' ? ? Hb]. rewrite (wf_end _ W), (wf_end _ W'). by rewrite Hb. Qed.

Lemma advanced_mem d d' : advanced d d' -> mem d' = mem d.
Proof. intros []. unfold mem. congruence. Qed.

Lemma reader_advance c c' d d' :
  same_config c c' -> reader c d -> advanced d d' -> offset_ d' = offset_ c' -> reader c' d'.
Proof.
  intros [] [] [? [] ? ?] ?. split; congruence.
Qed.

Lemma reader_nonneg c d : reader c d -> 0 <= offset_ c.
Proof. intros [[] <- ? ? ? ?]. lia. Qed.

(** What a reader sees of the final bytes, it sees of the bytes at an earlier
    stage of the serialization. *)
Lemma agree_ext lo c1 c2 m :
  0 <= lo -> ext c1 c2 -> agree lo (offset_ c2) (mem c2) m -> agree lo (offset_ c1) (mem c1) m.
Proof.
  intros Hlo [_ _ O _ Hm] Ha. etrans; [|eapply agree_weaken; [exact Ha|lia|lia]].
  eapply agree_weaken; [exact Hm|lia|lia].
Qed.

Definition stored {A} (des : M A) (v : A) (c c' : Cdr) : Prop :=
  forall d, reader c d -> agree (offset_ c) (offset_ c') (mem c') (mem d) -> offset_ c' <= end_ d ->
  wp des d (fun v' d' => v' = v /\ advanced d d' /\ offset_ d' = offset_ c') (fun _ _ => False).

(** An operation that failed on the way: it may have appended data. *)
Definition aborted (c : Cdr) (e : exn) (c' : Cdr) : Prop :=
  e = NotEnoughMemoryException /\ exists c1, ext c c1 /\ unwound c1 c'.

Lemma rolled_back_aborted c e c' : wf c -> rolled_back c e c' -> aborted c e c'.
Proof. intros W [-> U]. split; [done|]. exists c. auto using ext_refl. Qed.

Lemma aborted_ext c c1 e c' : ext c c1 -> aborted c1 e c' -> aborted c e c'.
Proof. intros X [-> (c2 & X2 & U)]. split; [done|]. exists c2. eauto using ext_trans. Qed.

(** [catch (Exception& ex) { set_state(state_before); ex.raise(); }] *)
Lemma aborted_set_state c e c' : wf c -> aborted c e c' -> rolled_back c e (set_state (get_state c) c').
Proof.
  intros W [-> (c1 & [W1 S1 O1 E1 M1 F1] & [S2 O2 L2 M2 W2 F2])]. split; [done|].
  assert (S : same_config c c') by (by etrans).
  destruct S, W. split; cdr_simpl; try done.
  - etrans; [exact M1|]. unfold mem; cdr_simpl. eapply agree_weaken; [exact M2|lia|lia].
  - intros Hi. destruct S1, S2. destruct W2 as [Wb We Wo Wl Wa Wc]; [congruence|].
    split; cdr_simpl; try congruence. lia.
  - intros Hi. rewrite <- (F1 Hi). apply F2. destruct S1. congruence.
Qed.

Section Specs.
Context `{P : Platform}.
Implicit Types c d : Cdr.

Lemma ext_grown c c1 c' :
  grown c c1 -> same_config c1 c' -> end_ c' = end_ c1 ->
  size_ (cdr_buffer_ c') = size_ (cdr_buffer_ c1) ->
  buffer_null (cdr_buffer_ c') = buffer_null (cdr_buffer_ c1) ->
  zlen (mem c') = zlen (mem c1) -> agree 0 (offset_ c) (mem c1) (mem c') ->
  offset_ c <= offset_ c' <= end_ c' -> 0 <= last_data_size_ c' <= 1 -> wf c -> ext c c'.
Proof.
  intros G S He Hs Hn Hl Ha Ho Hd W. pose proof (grown_fields _ _ G) as (S0 & O0 & _).
  destruct G as [_ W1 Hend Hag _ Hfx]. destruct (W1) as [[B1 B2 B3] We Wo Wl Wa Wc].
  destruct W as [_ _ ? _ _ _].
  split; [split|by etrans|lia|lia| |].
  - unfold mem in *. split; [congruence|congruence|].
    rewrite Hn. intros Hb. specialize (B3 Hb). rewrite B3 in Hl.
    destruct (block (cdr_buffer_ c')); [done|]. unfold zlen in Hl. simpl in Hl. lia.
  - congruence.
  - lia.
  - lia.
  - destruct S. congruence.
  - destruct S. congruence.
  - etrans; [|exact Ha]. eapply agree_weaken; [exact Hag|lia|lia].
  - intros Hi. by rewrite He, Hfx.
Qed.

(** What a serializer of raw bytes achieves: [bs] stands at position [p] and
    the bytes behind it are untouched. *)
Definition wrote (p : Z) (bs : list Z) (c c' : Cdr) : Prop :=
  ext c c' /\ offset_ c' = p + zlen bs /\ mread (mem c') p (zlen bs) = Some bs /\
  serialized_member_size_ c' = serialized_member_size_ c /\
  agree (offset_ c') (end_ c) (mem c) (mem c').

Lemma agree_above hi lo hi' m1 m2 m3 :
  agree 0 hi m1 m2 -> agree lo hi' m2 m3 -> 0 <= lo -> hi <= hi' -> agree lo hi m1 m3.
Proof.
  intros H1 H2 Hlo Hhi. etrans; eapply agree_weaken; [exact H1|lia|lia|exact H2|lia|lia].
Qed.

Lemma put_octets_spec bs c :
  wf c -> zlen bs < 2 ^ 62 ->
  wp (put_octets bs) c (fun _ c' => wrote (offset_ c) bs c c') (rolled_back c).
Proof.
  intros W Hb. unfold put_octets. wp_steps.
  apply has_room_spec; [done|pose proof (zlen_nonneg bs); lia| |].
  - intros c1 G Hr. pose proof (grown_fields _ _ G) as (S & O & _). pose proof (gr_end _ _ G).
    pose proof (gr_wf _ _ G) as W1. pose proof (wf_mem_length _ W1) as Hm.
    pose proof (wf_offset _ W1). pose proof (zlen_nonneg bs).
    wp_steps. apply put_spec; unfold mem in *; cdr_simpl; [lia|lia|].
    intros m Hl Ha Ha2 Hrd. rewrite O in *. split; [|split; [done|split; [done|split]]].
    + eapply ext_grown; [done| | | | | | | | |]; unfold mem in *; cdr_simpl; try done; lia.
    + destruct G as [E ? ? ? ? ?]. by rewrite E.
    + eapply agree_above; [exact (gr_mem _ _ G)|exact Ha2|..]; cdr_simpl; unfold mem; lia.
  - intros c1 U. wp_steps. by split.
Qed.

Lemma put_aligned_spec al total bytes c :
  wf c -> is_align al -> 0 <= total < 2 ^ 62 -> zlen (bytes (swap_bytes_ c)) = total ->
  wp (put_aligned al total bytes) c
     (fun _ c' => wrote (aligned_pos al c) (bytes (swap_bytes_ c)) c c') (rolled_back c).
Proof.
  intros W Hal Ht Hb. unfold put_aligned. wp_steps. rewrite alignment_eq by done.
  pose proof (aligned_pos_bounds al c Hal) as Hp. unfold aligned_pos in *.
  set (a := (origin_ c - offset_ c) mod al) in *. rewrite size_t_small by lia.
  apply has_room_spec; [done|lia| |].
  - intros c1 G Hr. pose proof (grown_fields _ _ G) as (S & O & _). pose proof (gr_end _ _ G).
    pose proof (gr_wf _ _ G) as W1. pose proof (wf_mem_length _ W1) as Hm.
    pose proof (wf_offset _ W1). wp_steps. cdr_simpl. rewrite (sc_swap _ _ S).
    apply put_spec; unfold mem in *; cdr_simpl; [lia|lia|].
    intros m Hl Ha Ha2 Hrd. rewrite O in *. split; [|split; [done|split; [done|split]]].
    + eapply ext_grown; [done| | | | | | | | |]; unfold mem in *; cdr_simpl; try done; try lia.
      eapply agree_weaken; [exact Ha|lia|lia].
    + destruct G as [E ? ? ? ? ?]. by rewrite E.
    + eapply agree_above; [exact (gr_mem _ _ G)|exact Ha2|..]; cdr_simpl; unfold mem; lia.
  - intros c1 U. wp_steps. by split.
Qed.

(** ** Reading *)

Lemma has_data_true n d R E :
  wf d -> 0 <= n -> offset_ d + n <= end_ d -> R true d -> wp (has_data n) d R E.
Proof.
  intros W Hn Hr H. pose proof (wf_end_bound _ W). pose proof (wf_offset _ W).
  unfold has_data. wp_steps. unfold remaining. rewrite size_t_small by lia.
  by replace (end_ d - offset_ d >=? n) with true by lia.
Qed.

(** Any read below the end of the data moves the position and nothing else. *)
Lemma wf_read d off lds :
  wf d -> offset_ d <= off <= end_ d -> 0 <= lds <= 1 ->
  wf (set_last_data_size_ lds (set_offset_ off d)).
Proof. intros [] ? ?. split; cdr_simpl; try done; lia. Qed.

Lemma get_octets_spec {A} n (k : M A) d R E :
  wf d -> 0 <= n -> offset_ d + n <= end_ d ->
  wp k (set_last_data_size_ 1 d) R E -> wp (get_octets n k) d R E.
Proof.
  intros W Hn Hr Hk. unfold get_octets. wp_steps. apply has_data_true; [done|lia|done|].
  by wp_steps.
Qed.

Lemma get_aligned_spec {A} al n (k : bool -> M A) d R E :
  wf d -> is_align al -> 0 <= n < 2 ^ 62 -> aligned_pos al d + n <= end_ d ->
  wp (k (swap_bytes_ d)) (set_last_data_size_ 0 (set_offset_ (aligned_pos al d) d)) R E ->
  wp (get_aligned al n k) d R E.
Proof.
  intros W Hal Hn Hr Hk. unfold get_aligned. wp_steps. rewrite alignment_eq by done.
  pose proof (aligned_pos_bounds al d Hal) as Hp. unfold aligned_pos in *.
  set (a := (origin_ d - offset_ d) mod al) in *. rewrite size_t_small by lia.
  apply has_data_true; [done|lia|lia|]. wp_steps. exact Hk.
Qed.

(** [get] on bytes that are known. *)
Lemma get_known n bs d R E :
  mread (mem d) (offset_ d) n = Some bs -> R bs (set_offset_ (offset_ d + n) d) -> wp (get n) d R E.
Proof. intros Hm H. unfold wp, get. by rewrite Hm. Qed.

End Specs.

(** ** Codecs *)

(** A type as the templates of [Cdr.h] see it: how it is serialized, how an
    object (with its old value) is deserialized, and the values of the type. *)
Record codec (A : Type) := mkCodec {
  ser : A -> M unit;
  des : A -> M A;
  valid : A -> Prop
}.
Arguments ser {A} _ _.
Arguments des {A} _ _.
Arguments valid {A} _ _.

(** The contract of a codec.  Delimiter headers hold 32-bit sizes, so the
    round trip is promised for streams below 4 GiB. *)
Class Lawful {A} (k : codec A) : Prop := lawful :
  forall v c, valid k v -> wf c ->
  wp (ser k v) c
     (fun _ c' => ext c c' /\ offset_ c < offset_ c' /\
                  (offset_ c' < 2 ^ 32 -> forall old, stored (des k old) v c c'))
     (aborted c).

Section Scalars.
Context `{P : Platform}.
Implicit Types c d : Cdr.

Lemma zlen_wire n swap v : zlen (wire n swap v) = Z.of_nat n.
Proof. unfold wire, zlen. destruct swap; rewrite ?length_rev; by rewrite length_host_bytes. Qed.

Lemma unwire_wire n swap v : unwire swap (wire n swap v) = v mod 2 ^ (8 * Z.of_nat n).
Proof. unfold unwire, wire. destruct swap; rewrite ?rev_involutive; apply host_value_bytes. Qed.

(** Aligned bytes written by [put_aligned] are found by [get_aligned]. *)
Lemma stored_aligned {A} al n bs (k : bool -> M A) v c c' :
  wf c -> is_align al -> 0 <= n < 2 ^ 62 -> zlen bs = n -> wrote (aligned_pos al c) bs c c' ->
  (forall d, wf d -> swap_bytes_ d = swap_bytes_ c -> mread (mem d) (offset_ d) n = Some bs ->
     offset_ d + n <= end_ d -> last_data_size_ d = 0 ->
     wp (k (swap_bytes_ c)) d
        (fun v' d' => v' = v /\ advanced d d' /\ offset_ d' = offset_ d + n) (fun _ _ => False)) ->
  stored (get_aligned al n k) v c c'.
Proof.
  intros W Hal Hn Hb (X & O & Hm & _) Hk d R Ha He.
  assert (Hp : aligned_pos al d = aligned_pos al c).
  { unfold aligned_pos. by rewrite (rd_offset _ _ R), (rd_origin _ _ R). }
  pose proof (rd_wf _ _ R) as Wd. pose proof (aligned_pos_bounds al c Hal).
  pose proof (rd_offset _ _ R).
  assert (Wd' : wf (set_last_data_size_ 0 (set_offset_ (aligned_pos al d) d)))
    by (apply wf_read; [done|lia|lia]).
  apply get_aligned_spec; [done|done|lia|lia|]. rewrite (rd_swap _ _ R).
  eapply wp_mono; [apply Hk; try done| |done].
  - apply R.
  - unfold mem at 1; cdr_simpl. fold (mem d). rewrite Hp. rewrite Hb in Hm. eapply mread_agree; [exact Hm| |].
    + eapply agree_weaken; [exact Ha|lia|lia].
    + rewrite (wf_mem_length _ Wd). lia.
  - cdr_simpl. lia.
  - intros v' d' (-> & [W1 S1 O1 B1] & Ho). split; [done|]. cdr_simpl. split; [|lia].
    split; try done; [|lia]. destruct S1. by split.
Qed.

Lemma get_scalar_known n swap v d :
  wf d -> swap_bytes_ d = swap ->
  mread (mem d) (offset_ d) (Z.of_nat n) = Some (wire n swap v) ->
  offset_ d + Z.of_nat n <= end_ d -> last_data_size_ d <= 1 ->
  wp (get_scalar n swap) d
     (fun v' d' => v' = v mod 2 ^ (8 * Z.of_nat n) /\ advanced d d' /\ offset_ d' = offset_ d + Z.of_nat n)
     (fun _ _ => False).
Proof.
  intros W Hs Hm He Hl. unfold get_scalar. wp_steps. eapply get_known; [exact Hm|].
  wp_steps. rewrite unwire_wire. split; [done|]. cdr_simpl. split; [|done].
  destruct W. split; cdr_simpl; try done; [|lia]. split; cdr_simpl; try done; lia.
Qed.

(** The contract of the aligned primitives of [n] bytes. *)
Lemma serialize_scalar_law n al v c :
  wf c -> is_align al -> (0 < n)%nat -> Z.of_nat n < 2 ^ 62 -> 0 <= v < 2 ^ (8 * Z.of_nat n) ->
  wp (serialize_scalar n al v) c
     (fun _ c' => ext c c' /\ offset_ c < offset_ c' /\ stored (deserialize_scalar n al) v c c' /\
                  offset_ c' = aligned_pos al c + Z.of_nat n /\
                  serialized_member_size_ c' = serialized_member_size_ c /\
                  agree (offset_ c') (end_ c) (mem c) (mem c'))
     (rolled_back c).
Proof.
  intros W Hal Hn Hn2 Hv. pose proof (aligned_pos_bounds al c Hal).
  eapply wp_mono; [apply put_aligned_spec; try done; [lia|apply zlen_wire]| |done].
  intros [] c' Hw. destruct (Hw) as (X & O & Hm & Hsms). rewrite zlen_wire in O.
  split; [done|]. split; [lia|]. split; [|done].
  eapply stored_aligned; try done; [lia|apply zlen_wire|].
  intros d Wd Hs Hr He Hl. rewrite <- Hs. eapply wp_mono; [apply get_scalar_known; try done| |done].
  - by rewrite Hs.
  - lia.
  - intros v' d' (-> & ?). split; [|done]. by apply Z.mod_small.
Qed.

Definition int16_codec : codec Z := mkCodec _ serialize_int16 (fun _ => deserialize_int16) (fun v => 0 <= v < 2 ^ 16).
Definition int32_codec : codec Z := mkCodec _ serialize_int32 (fun _ => deserialize_int32) (fun v => 0 <= v < 2 ^ 32).
Definition int64_codec : codec Z := mkCodec _ serialize_int64 (fun _ => deserialize_int64) (fun v => 0 <= v < 2 ^ 64).
Definition float_codec : codec Z := mkCodec _ serialize_float (fun _ => deserialize_float) (fun v => 0 <= v < 2 ^ 32).
Definition double_codec : codec Z := mkCodec _ serialize_double (fun _ => deserialize_double) (fun v => 0 <= v < 2 ^ 64).
Definition char_codec : codec Z := mkCodec _ serialize_char (fun _ => deserialize_char) is_byte.
Definition bool_codec : codec bool := mkCodec _ serialize_bool (fun _ => deserialize_bool) (fun _ => True).

Lemma scalar_law n al v c :
  wf c -> is_align al -> (0 < n)%nat -> Z.of_nat n < 2 ^ 62 -> 0 <= v < 2 ^ (8 * Z.of_nat n) ->
  wp (serialize_scalar n al v) c
     (fun _ c' => ext c c' /\ offset_ c < offset_ c' /\
        (offset_ c' < 2 ^ 32 -> Z -> stored (deserialize_scalar n al) v c c'))
     (aborted c).
Proof.
  intros W Hal Hn Hn2 Hv. eapply wp_mono; [by apply serialize_scalar_law| |].
  - intros [] c' (X & O & St & _). auto.
  - auto using rolled_back_aborted.
Qed.

#[export] Instance int16_lawful : Lawful int16_codec.
Proof. intros v c Hv W. apply scalar_law; try done; try lia. unfold is_align; lia. Qed.

#[export] Instance int32_lawful : Lawful int32_codec.
Proof. intros v c Hv W. apply scalar_law; try done; try lia. unfold is_align; lia. Qed.

#[export] Instance float_lawful : Lawful float_codec.
Proof. intros v c Hv W. apply scalar_law; try done; try lia. unfold is_align; lia. Qed.

(** The reader of an eight-byte primitive uses its own [align64_]. *)
Lemma stored_align64 n v c c' :
  wf c -> stored (deserialize_scalar n (align64_ c)) v c c' ->
  stored (a <-- gets align64_ ;; deserialize_scalar n a) v c c'.
Proof.
  intros W St d R Ha He. wp_steps.
  assert (align64_ d = align64_ c) as ->.
  { rewrite (wf_align64 _ W), (wf_align64 _ (rd_wf _ _ R)). by rewrite (rd_version _ _ R). }
  by apply St.
Qed.

Lemma scalar64_law n v c :
  wf c -> (0 < n)%nat -> Z.of_nat n < 2 ^ 62 -> 0 <= v < 2 ^ (8 * Z.of_nat n) ->
  wp (a <-- gets align64_ ;; serialize_scalar n a v) c
     (fun _ c' => ext c c' /\ offset_ c < offset_ c' /\
        (offset_ c' < 2 ^ 32 -> Z -> stored (a <-- gets align64_ ;; deserialize_scalar n a) v c c'))
     (aborted c).
Proof.
  intros W Hn Hn2 Hv. wp_steps. eapply wp_mono; [apply scalar_law; try done| |done].
  - rewrite (wf_align64 _ W). apply is_align_64.
  - intros [] c' (X & O & St). split; [done|]. split; [done|]. intros Hb z.
    apply stored_align64; auto.
Qed.

#[export] Instance int64_lawful : Lawful int64_codec.
Proof. intros v c Hv W. apply scalar64_law; try done; lia. Qed.

#[export] Instance double_lawful : Lawful double_codec.
Proof. intros v c Hv W. apply scalar64_law; try done; lia. Qed.

(** Unaligned bytes written by [put_octets] are found by [get_octets]. *)
Lemma stored_octets {A} n bs (k : M A) v c c' :
  zlen bs = n -> wrote (offset_ c) bs c c' ->
  (forall d, wf d -> mread (mem d) (offset_ d) n = Some bs -> offset_ d + n <= end_ d ->
     last_data_size_ d = 1 ->
     wp k d (fun v' d' => v' = v /\ advanced d d' /\ offset_ d' = offset_ d + n) (fun _ _ => False)) ->
  stored (get_octets n k) v c c'.
Proof.
  intros Hb (X & O & Hm & _) Hk d R Ha He. rewrite Hb in *.
  pose proof (rd_wf _ _ R) as Wd. pose proof (rd_offset _ _ R) as Hd. pose proof (zlen_nonneg bs).
  assert (Wd' : wf (set_last_data_size_ 1 d))
    by (destruct Wd; split; cdr_simpl; try done; lia).
  apply get_octets_spec; [done|lia|lia|].
  eapply wp_mono; [apply Hk; try done| |done].
  - unfold mem at 1; cdr_simpl. fold (mem d). rewrite Hd. eapply mread_agree; [exact Hm| |].
    + eapply agree_weaken; [exact Ha|lia|lia].
    + rewrite (wf_mem_length _ Wd). lia.
  - cdr_simpl. lia.
  - intros v' d' (-> & [W1 S1 O1 B1] & Ho). split; [done|]. cdr_simpl. split; [|lia].
    split; try done. destruct S1. by split.
Qed.

(** Reading [n] known bytes and returning [f] of them. *)
Lemma get_ret_known {A} n bs (f : list Z -> A) d :
  wf d -> mread (mem d) (offset_ d) n = Some bs -> 0 <= n -> offset_ d + n <= end_ d ->
  last_data_size_ d <= 1 ->
  wp (b <-- get n ;; ret (f b)) d
     (fun v' d' => v' = f bs /\ advanced d d' /\ offset_ d' = offset_ d + n) (fun _ _ => False).
Proof.
  intros W Hm Hn He Hl. wp_steps. eapply get_known; [exact Hm|]. wp_steps. split; [done|].
  cdr_simpl. split; [|done]. destruct W. split; cdr_simpl; try done; [|lia].
  split; cdr_simpl; try done; lia.
Qed.

#[export] Instance char_lawful : Lawful char_codec.
Proof.
  intros v c Hv W. cbn in Hv. unfold is_byte in Hv.
  eapply wp_mono; [by apply put_octets_spec| |auto using rolled_back_aborted].
  intros [] c' Hw. destruct (Hw) as (X & O & _). change (zlen [u8 v]) with 1 in O.
  split; [done|]. split; [lia|]. intros _ old. eapply (stored_octets 1 [u8 v]); [done|done|].
  intros d Wd Hm He Hl. eapply wp_mono; [by apply (get_ret_known _ [u8 v]); try lia| |done].
  intros v' d' (-> & ?). split; [|done]. simpl. unfold u8. rewrite Z.mod_small; lia.
Qed.

#[export] Instance bool_lawful : Lawful bool_codec.
Proof.
  intros v c _ W.
  eapply wp_mono; [by apply put_octets_spec| |auto using rolled_back_aborted].
  intros [] c' Hw. destruct (Hw) as (X & O & _). change (zlen [if v then 1 else 0]) with 1 in O.
  split; [done|]. split; [lia|]. intros _ old. eapply (stored_octets 1 [if v then 1 else 0]); [done|done|].
  intros d Wd Hm He Hl. unfold get_bool_strict. wp_steps. eapply get_known; [exact Hm|].
  assert (A : advanced d (set_offset_ (offset_ d + 1) d)).
  { destruct Wd. split; cdr_simpl; try done; [|lia]. split; cdr_simpl; try done; lia. }
  by destruct v.
Qed.

End Scalars.
