(* ===== verification/CdrStrings.v ===== *)
(** * Contracts of strings and arrays of primitives

    The codecs of [std::string], [std::wstring], [long double] and of the
    arrays of primitives, with the laws of [CdrCodec]. *)

From S2P Require Import Prelude FastBuffer CdrState CdrInv CdrScalar CdrCodec.

Section Strings.
Context `{P : Platform}.
Implicit Types c d : Cdr.

(** ** Shared steps *)

Lemma wf_sms x c : wf c -> wf (set_serialized_member_size_ x c).
Proof. intros []. by split. Qed.

Lemma ext_sms x c c' : ext c c' -> ext c (set_serialized_member_size_ x c').
Proof. intros [W S ? ? ?]. split; try done; [by apply wf_sms|]. destruct S. by split. Qed.

Lemma put_or_restore_spec c0 n bs c :
  wf c0 -> ext c0 c -> zlen bs = n -> n < 2 ^ 62 ->
  wp (put_or_restore (get_state c0) n bs) c
     (fun _ c' => wrote (offset_ c) bs c c') (rolled_back c0).
Proof.
  intros W0 X Hn Hb. pose proof (ext_wf _ _ X) as W.
  pose proof (put_octets_spec bs c W ltac:(lia)) as Hs.
  unfold wp, put_octets, put_or_restore, bind in *. rewrite Hn in Hs.
  destruct (has_room_ok n c) as (b & c1 & Eq). rewrite Eq in *. destruct b; simpl in *.
  - unfold put in *. by destruct (mwrite _ _ _).
  - apply (aborted_set_state c0 _ c1 W0). destruct Hs as [? U]. split; [done|]. by exists c.
Qed.

(** ** Strings *)

Lemma c_str_id s : Forall (fun ch => ch <> 0) s -> c_str s = s.
Proof.
  induction 1 as [|ch s Hch _ IH]; simpl; [done|].
  destruct (Z.eqb_spec ch 0); [done|]. by rewrite IH.
Qed.

Lemma c_str_nonzero s : Forall (fun ch => ch <> 0) (c_str s).
Proof. induction s as [|ch s IH]; simpl; [done|]. destruct (Z.eqb_spec ch 0); auto. Qed.

(** The strings a [std::string] round trip preserves: no embedded NUL. *)
Definition valid_string (s : list Z) : Prop :=
  Forall (fun ch => ch <> 0) s /\ zlen s < 2 ^ 32 - 1.

Definition string_codec : codec (list Z) :=
  mkCodec _ serialize_string (fun _ => deserialize_string) valid_string.

(** [std::wstring] *)
Definition wstring_codec : codec (list Z) :=
  mkCodec _ serialize_wstring (fun _ => deserialize_wstring)
          (fun s => Forall (fun ch => 0 < ch < 2 ^ 16) s /\ zlen s < 2 ^ 31).

Lemma int32_is_align : is_align 4.
Proof. unfold is_align. lia. Qed.

(** A non-empty run of octets behind its 32-bit length is what [read_string]
    expects. *)
Lemma stored_read_string s c c1 c2 :
  zlen s < 2 ^ 32 - 1 ->
  ext c c1 -> stored deserialize_uint32 (zlen s + 1) c c1 ->
  wrote (offset_ c1) (s ++ [0]) c1 c2 -> stored read_string s c c2.
Proof.
  intros Hl X1 St Hw d R Ha He. destruct (Hw) as (X2 & O2 & Hm & _).
  pose proof (ext_offset _ _ X1). pose proof (ext_offset _ _ X2). pose proof (zlen_nonneg s).
  assert (Hz : zlen (s ++ [0]) = zlen s + 1) by (unfold zlen; rewrite length_app; simpl; lia).
  rewrite Hz in *.
  unfold read_string. wp_steps. eapply wp_mono; [apply St; [done| |lia]| |done].
  { eauto using agree_ext, reader_nonneg. }
  intros n d1 (-> & Ad & Hd1). destruct (Z.eqb_spec (zlen s + 1) 0); [lia|].
  pose proof (advanced_end _ _ (rd_wf _ _ R) Ad) as Hend.
  pose proof (ad_wf _ _ Ad) as Wd1.
  wp_steps. apply has_data_true; [done|lia|lia|]. wp_steps.
  eapply (get_known _ (s ++ [0])).
  { unfold mem at 1; cdr_simpl. fold (mem d1). rewrite Hd1. eapply mread_agree; [exact Hm| |].
    - rewrite (advanced_mem _ _ Ad). eapply agree_weaken; [exact Ha|lia|lia].
    - rewrite (wf_mem_length _ Wd1). lia. }
  wp_steps. split.
  - rewrite last_last. simpl. rewrite take_app_le by (unfold zlen; lia).
    by rewrite take_ge by (unfold zlen; lia).
  - cdr_simpl. split; [|lia]. destruct Ad as [_ S ? ?]. split; cdr_simpl; try done; try lia.
    + destruct Wd1. split; cdr_simpl; try done; lia.
    + destruct S. by split.
Qed.

(** The contract of [std::string], with the exact space it takes. *)
Lemma serialize_string_law s c :
  valid_string s -> wf c ->
  wp (serialize_string s) c
     (fun _ c' => ext c c' /\ offset_ c' = aligned_pos 4 c + 4 + zlen s + 1 /\
                  stored deserialize_string s c c' /\
                  serialized_member_size_ c' = SERIALIZED_MEMBER_SIZE)
     (rolled_back c).
Proof.
  intros [Hnz Hl] W. pose proof (zlen_nonneg s).
  unfold serialize_string, serialize_cstring. rewrite c_str_id by done.
  rewrite (u32_small (zlen s)), (u32_small (zlen s + 1)) by lia.
  replace (zlen s + 1 >? 0) with true by lia. simpl.
  wp_steps. unfold serialize_uint32. rewrite u32_small by lia.
  eapply wp_mono; [apply serialize_scalar_law; try done; try lia; apply int32_is_align| |done].
  intros [] c1 (X1 & O1 & St1 & Op1 & _).
  assert (Hz : zlen (s ++ [0]) = zlen s + 1) by (unfold zlen; rewrite length_app; simpl; lia).
  assert (Ht : take (Z.to_nat (zlen s + 1)) (s ++ [0]) = s ++ [0])
    by (apply take_ge; unfold zlen in *; lia).
  rewrite Ht. eapply wp_mono; [apply put_or_restore_spec; try done; lia| |done].
  intros [] c2 Hw. destruct (Hw) as (X2 & O2 & _). wp_steps.
  split; [eauto using ext_sms, ext_trans|]. split; [cdr_simpl; lia|]. split; [|done].
  by eapply (stored_read_string s c c1 c2).
Qed.

#[export] Instance string_lawful : Lawful string_codec.
Proof.
  intros s c Hv W. eapply wp_mono; [by apply serialize_string_law| |].
  - intros [] c' (X & O & St & _). split; [done|]. split; [|done].
    pose proof (aligned_pos_bounds 4 c int32_is_align). pose proof (zlen_nonneg s). lia.
  - auto using rolled_back_aborted.
Qed.

End Strings.
