(* ===== verification/CdrArrays.v ===== *)
(** * Contracts of arrays of primitives, wide strings and long doubles

    The arithmetic types as the templates of [Cdr.h] use them in arrays and
    sequences, with the law that an array is read back element by element. *)

From S2P Require Import Prelude FastBuffer CdrState CdrInv CdrScalar CdrCodec CdrStrings.

(** The array operations of an arithmetic type, its size class for a NEXTINT
    member header ([get_serialized_member_size<T>]) and its values. *)
Record arith := mkArith {
  ser_array : list Z -> M unit;
  des_array : Z -> M (list Z);
  next_int : SerializedMemberSizeForNextInt;
  in_range : Z -> Prop
}.

(** The contract of an arithmetic type: an array of any length below [2^32]
    round trips, takes at least one byte per element and is all or nothing. *)
Class LawfulArith (k : arith) : Prop := lawful_arith :
  forall vs c, Forall (in_range k) vs -> zlen vs < 2 ^ 32 -> wf c ->
  wp (ser_array k vs) c
     (fun _ c' => ext c c' /\ offset_ c + zlen vs <= offset_ c' /\ (vs = [] -> offset_ c' = offset_ c) /\
                  stored (des_array k (zlen vs)) vs c c' /\
                  serialized_member_size_ c' = serialized_member_size_ c)
     (rolled_back c).

Section Arrays.
Context `{P : Platform}.
Implicit Types c d : Cdr.

Lemma advanced_set_offset n d :
  wf d -> last_data_size_ d <= 1 -> 0 <= n -> offset_ d + n <= end_ d ->
  advanced d (set_offset_ (offset_ d + n) d).
Proof.
  intros W Hl Hn He. destruct W. split; cdr_simpl; try done; [|lia]. split; cdr_simpl; try done; lia.
Qed.

(** [elem] reads the encoding [enc v] of [n] bytes and gives [v] back. *)
Definition reads_elem (n : Z) (enc : Z -> list Z) (elem : M Z) (v : Z) : Prop :=
  zlen (enc v) = n /\
  forall d, mread (mem d) (offset_ d) n = Some (enc v) ->
    elem d = Ok v (set_offset_ (offset_ d + n) d).

Lemma zlen_concat n enc elem vs :
  Forall (reads_elem n enc elem) vs -> zlen (concat (map enc vs)) = n * zlen vs.
Proof.
  unfold zlen. induction 1 as [|v vs [Hv _] _ IH]; simpl; [lia|].
  rewrite length_app. unfold zlen in Hv. lia.
Qed.

Lemma deserialize_each_known n enc elem vs d :
  0 <= n -> 0 <= offset_ d -> Forall (reads_elem n enc elem) vs ->
  mread (mem d) (offset_ d) (n * zlen vs) = Some (concat (map enc vs)) ->
  deserialize_each elem (length vs) d = Ok vs (set_offset_ (offset_ d + n * zlen vs) d).
Proof.
  intros Hn Ho Hvs. revert d Ho. induction Hvs as [|v vs [Hl Hv] Hvs IH]; intros d Ho Hm; simpl.
  { unfold ret. f_equal. destruct d; cbv [set_offset_]; cbn. f_equal. unfold zlen; simpl; lia. }
  replace (n * zlen (v :: vs)) with (n + n * zlen vs) in * by (unfold zlen; simpl; lia).
  pose proof (zlen_nonneg vs).
  apply mread_split in Hm as [H1 H2]; [|lia|lia|nia]. simpl in H1, H2.
  assert (Hen : Z.to_nat n = length (enc v)) by (unfold zlen in Hl; lia).
  rewrite take_app_le, take_ge in H1 by lia.
  rewrite drop_app_ge in H2 by lia. rewrite Hen, Nat.sub_diag, drop_0 in H2.
  unfold bind. rewrite (Hv d H1).
  rewrite IH; [|cdr_simpl; lia|done]. unfold ret. f_equal. cdr_simpl.
  destruct d; cbv [set_offset_]; cbn. f_equal. lia.
Qed.

(** The contract of arrays of aligned elements of [n] bytes. *)
Lemma serialize_array_scalar_law n al bytes elem vs c :
  wf c -> is_align al -> (0 < n <= 16)%nat -> zlen vs < 2 ^ 32 ->
  (forall swap, Forall (reads_elem (Z.of_nat n) (bytes swap) (elem swap)) vs) ->
  wp (serialize_array_scalar n al bytes vs) c
     (fun _ c' => ext c c' /\ offset_ c + zlen vs <= offset_ c' /\ (vs = [] -> offset_ c' = offset_ c) /\
                  stored (deserialize_array_scalar n al elem (zlen vs)) vs c c' /\
                  serialized_member_size_ c' = serialized_member_size_ c)
     (rolled_back c).
Proof.
  intros W Hal Hn Hvs Hel. pose proof (zlen_nonneg vs).
  assert (Hbd : zlen vs <= Z.of_nat n * zlen vs <= 16 * zlen vs) by (split; nia). unfold serialize_array_scalar.
  destruct (Z.eqb_spec (zlen vs) 0) as [Hz|Hz].
  { wp_steps. split; [by apply ext_refl|]. split; [lia|]. split; [done|]. split; [|done].
    intros d R Ha He. unfold deserialize_array_scalar. rewrite Hz. wp_steps. split.
    - destruct vs; [done|]. unfold zlen in Hz. simpl in Hz. lia.
    - split; [apply advanced_refl|]; apply R. }
  rewrite size_t_small by lia.
  assert (Hlen : forall swap, zlen (concat (map (bytes swap) vs)) = Z.of_nat n * zlen vs)
    by (intros; eapply zlen_concat; eauto).
  pose proof (aligned_pos_bounds al c Hal).
  eapply wp_mono; [apply put_aligned_spec; try done; apply Hlen || lia| |done].
  intros [] c' Hw. destruct (Hw) as (X & O & Hm & Hsms & _). rewrite Hlen in O.
  split; [done|]. split; [lia|]. split; [by intros ->|]. split; [|done].
  unfold deserialize_array_scalar. replace (zlen vs =? 0) with false by lia.
  rewrite size_t_small by lia.
  eapply (stored_aligned al _ (concat (map (bytes (swap_bytes_ c)) vs)));
    [done|done|lia|apply Hlen|done|].
  intros d Wd Hs Hr He Hl. pose proof (wf_offset _ Wd).
  unfold wp. replace (Z.to_nat (zlen vs)) with (length vs) by (unfold zlen; lia).
  rewrite (deserialize_each_known (Z.of_nat n) (bytes (swap_bytes_ c))); try done; try lia.
  split; [done|]. split; [|done]. apply advanced_set_offset; try done; lia.
Qed.

Lemma reads_scalar n swap v :
  0 <= v < 2 ^ (8 * Z.of_nat n) -> reads_elem (Z.of_nat n) (wire n swap) (get_scalar n swap) v.
Proof.
  intros Hv. split; [apply zlen_wire|]. intros d Hm. unfold get_scalar, bind, get.
  rewrite Hm, unwire_wire. by rewrite Z.mod_small.
Qed.

Lemma array_scalar_law n al vs c :
  wf c -> is_align al -> (0 < n <= 16)%nat -> zlen vs < 2 ^ 32 ->
  Forall (fun v => 0 <= v < 2 ^ (8 * Z.of_nat n)) vs ->
  wp (serialize_array_scalar n al (wire n) vs) c
     (fun _ c' => ext c c' /\ offset_ c + zlen vs <= offset_ c' /\ (vs = [] -> offset_ c' = offset_ c) /\
                  stored (deserialize_array_scalar n al (get_scalar n) (zlen vs)) vs c c' /\
                  serialized_member_size_ c' = serialized_member_size_ c)
     (rolled_back c).
Proof.
  intros ? ? ? ? Hv. apply serialize_array_scalar_law; try done. intros swap.
  eapply Forall_impl; [|exact Hv]. intros v Hr. by apply reads_scalar.
Qed.

Definition int16_arith := mkArith serialize_array_int16 deserialize_array_int16 NO_SERIALIZED_MEMBER_SIZE (fun v => 0 <= v < 2 ^ 16).
Definition int32_arith := mkArith serialize_array_int32 deserialize_array_int32 SERIALIZED_MEMBER_SIZE_4 (fun v => 0 <= v < 2 ^ 32).
Definition int64_arith := mkArith serialize_array_int64 deserialize_array_int64 SERIALIZED_MEMBER_SIZE_8 (fun v => 0 <= v < 2 ^ 64).
Definition float_arith := mkArith serialize_array_float deserialize_array_float SERIALIZED_MEMBER_SIZE_4 (fun v => 0 <= v < 2 ^ 32).
Definition double_arith := mkArith serialize_array_double deserialize_array_double SERIALIZED_MEMBER_SIZE_8 (fun v => 0 <= v < 2 ^ 64).
Definition char_arith := mkArith serialize_array_char deserialize_array_char SERIALIZED_MEMBER_SIZE is_byte.

#[export] Instance int16_arith_lawful : LawfulArith int16_arith.
Proof. intros vs c Hv Hl W. apply array_scalar_law; try done; try lia. unfold is_align; lia. Qed.

#[export] Instance int32_arith_lawful : LawfulArith int32_arith.
Proof. intros vs c Hv Hl W. apply array_scalar_law; try done; try lia. unfold is_align; lia. Qed.

#[export] Instance float_arith_lawful : LawfulArith float_arith.
Proof. intros vs c Hv Hl W. apply array_scalar_law; try done; try lia. unfold is_align; lia. Qed.

(** A reader of eight-byte elements uses its own [align64_]. *)
Lemma stored_gets_align64 {A} (k : Z -> M A) v c c' :
  wf c -> stored (k (align64_ c)) v c c' -> stored (a <-- gets align64_ ;; k a) v c c'.
Proof.
  intros W St d R Ha He. wp_steps.
  assert (align64_ d = align64_ c) as ->.
  { rewrite (wf_align64 _ W), (wf_align64 _ (rd_wf _ _ R)). by rewrite (rd_version _ _ R). }
  by apply St.
Qed.

Lemma array_scalar64_law vs c :
  wf c -> zlen vs < 2 ^ 32 -> Forall (fun v => 0 <= v < 2 ^ 64) vs ->
  wp (a <-- gets align64_ ;; serialize_array_scalar 8 a (wire 8) vs) c
     (fun _ c' => ext c c' /\ offset_ c + zlen vs <= offset_ c' /\ (vs = [] -> offset_ c' = offset_ c) /\
        stored (a <-- gets align64_ ;; deserialize_array_scalar 8 a (get_scalar 8) (zlen vs)) vs c c' /\
        serialized_member_size_ c' = serialized_member_size_ c)
     (rolled_back c).
Proof.
  intros W Hl Hv. wp_steps. eapply wp_mono; [apply array_scalar_law; try done; try lia| |done].
  - rewrite (wf_align64 _ W). apply is_align_64.
  - intros [] c' (X & O & Hn & St & ?). split; [done|]. split; [done|]. split; [done|]. split; [|done].
    by apply (stored_gets_align64 (fun a => deserialize_array_scalar 8 a (get_scalar 8) (zlen vs))).
Qed.

#[export] Instance int64_arith_lawful : LawfulArith int64_arith.
Proof. intros vs c Hv Hl W. by apply array_scalar64_law. Qed.

#[export] Instance double_arith_lawful : LawfulArith double_arith.
Proof. intros vs c Hv Hl W. by apply array_scalar64_law. Qed.

#[export] Instance char_arith_lawful : LawfulArith char_arith.
Proof.
  intros vs c Hv Hl W. simpl. unfold serialize_array_char.
  assert (map u8 vs = vs) as ->.
  { rewrite <- (map_id vs) at 2. apply map_ext_Forall. eapply Forall_impl; [|exact Hv].
    intros b Hb. cbn in Hb. unfold is_byte, u8 in *. rewrite Z.mod_small; lia. }
  eapply wp_mono; [apply put_octets_spec; [done|lia]| |done].
  intros [] c' Hw. destruct (Hw) as (X & O & _ & ? & _). split; [done|]. split; [lia|].
  split; [intros ->; rewrite O; unfold zlen; simpl; lia|]. split; [|done].
  eapply (stored_octets (zlen vs) vs); [done|done|].
  intros d Wd Hm He Hld. eapply get_known; [exact Hm|]. split; [done|]. split; [|done].
  apply advanced_set_offset; try done; [lia|apply zlen_nonneg].
Qed.

(** ** Long doubles of 16 bytes *)

Section LongDouble.
Hypothesis sixteen : sizeof_long_double = 16.

Lemma ldouble_bytes_16 swap v : ldouble_bytes swap v = wire 16 swap v.
Proof. unfold ldouble_bytes. rewrite sixteen. simpl. by rewrite andb_false_r. Qed.

Lemma get_ldouble_16 swap : get_ldouble swap = get_scalar 16 swap.
Proof. unfold get_ldouble. rewrite sixteen. simpl. by rewrite andb_false_r. Qed.

Definition long_double_codec : codec Z :=
  mkCodec _ serialize_long_double (fun _ => deserialize_long_double) (fun v => 0 <= v < 2 ^ 128).

Lemma long_double_lawful : Lawful long_double_codec.
Proof.
  intros v c Hv W. simpl in Hv. unfold ser, des, long_double_codec, serialize_long_double, deserialize_long_double.
  wp_steps. rewrite sixteen. pose proof (is_align_64 (cdr_version_ c)) as Hal. rewrite <- (wf_align64 _ W) in Hal.
  pose proof (aligned_pos_bounds (align64_ c) c Hal).
  eapply wp_mono; [apply put_aligned_spec; try done; rewrite ldouble_bytes_16; apply (zlen_wire 16)| |
                   auto using rolled_back_aborted].
  intros [] c' Hw. rewrite ldouble_bytes_16 in Hw. destruct (Hw) as (X & O & Hm & _).
  rewrite zlen_wire in O. split; [done|]. split; [lia|]. intros _ old.
  apply (stored_gets_align64 (fun a => get_aligned a 16 get_ldouble)); [done|].
  eapply stored_aligned; try done; [apply (zlen_wire 16)|].
  intros d Wd Hs Hr He Hl. rewrite get_ldouble_16.
  eapply wp_mono; [apply get_scalar_known; try done; lia| |done].
  intros v' d' (-> & ?). split; [|done]. by apply Z.mod_small.
Qed.

End LongDouble.

End Arrays.
