(* ===== verification/CdrXcdr.v ===== *)
(** * Extended CDR: member headers, members and types

    Models the XCDR part of [Fast-CDR/src/cpp/Cdr.cpp]: parameter-list headers
    of XCDRv1, EMHEADERs and DHEADERs of XCDRv2, the member callbacks, the
    type callbacks, and the operators of [Cdr.h] that use them.  The assertions
    of the code are disabled, as in its release builds. *)

From S2P Require Import Prelude FastBuffer CdrState CdrInv CdrScalar.

Definition PID_EXTENDED : Z := 0x3F01.
Definition PID_EXTENDED_LENGTH : Z := 0x8.
Definition PID_SENTINEL : Z := 0x3F02.
Definition PID_SENTINEL_LENGTH : Z := 0x0.

(** Updates of a saved state. *)
Definition st_with_next_member_id (v : MemberId) (s : state) : state :=
  mkState (st_offset_ s) (st_origin_ s) (st_swap_bytes_ s) (st_last_data_size_ s) v
          (st_member_size_ s) (st_header_selection_ s) (st_header_serialized_ s) (st_previous_encoding_ s).
Definition st_with_member_size (v : Z) (s : state) : state :=
  mkState (st_offset_ s) (st_origin_ s) (st_swap_bytes_ s) (st_last_data_size_ s) (st_next_member_id_ s)
          v (st_header_selection_ s) (st_header_serialized_ s) (st_previous_encoding_ s).
Definition st_with_header_selection (v : XCdrHeaderSelection) (s : state) : state :=
  mkState (st_offset_ s) (st_origin_ s) (st_swap_bytes_ s) (st_last_data_size_ s) (st_next_member_id_ s)
          (st_member_size_ s) v (st_header_serialized_ s) (st_previous_encoding_ s).
Definition st_with_header_serialized (v : XCdrHeaderSelection) (s : state) : state :=
  mkState (st_offset_ s) (st_origin_ s) (st_swap_bytes_ s) (st_last_data_size_ s) (st_next_member_id_ s)
          (st_member_size_ s) (st_header_selection_ s) v (st_previous_encoding_ s).
Definition st_with_previous_encoding (v : EncodingAlgorithmFlag) (s : state) : state :=
  mkState (st_offset_ s) (st_origin_ s) (st_swap_bytes_ s) (st_last_data_size_ s) (st_next_member_id_ s)
          (st_member_size_ s) (st_header_selection_ s) (st_header_serialized_ s) v.

(** [Cdr::get_long_lc] *)
Definition get_long_lc (serialized_member_size : SerializedMemberSizeForNextInt) : Z :=
  match serialized_member_size with
  | SERIALIZED_MEMBER_SIZE_8 => 0x70000000
  | SERIALIZED_MEMBER_SIZE_4 => 0x60000000
  | SERIALIZED_MEMBER_SIZE => 0x50000000
  | NO_SERIALIZED_MEMBER_SIZE => 0x40000000
  end.

(** [Cdr::get_short_lc] *)
Definition get_short_lc (member_serialized_size : Z) : Z :=
  if member_serialized_size =? 1 then 0x00000000
  else if member_serialized_size =? 2 then 0x10000000
  else if member_serialized_size =? 4 then 0x20000000
  else if member_serialized_size =? 8 then 0x30000000
  else 0xFFFFFFFF.

Section Xcdr.
Context `{P : Platform}.

(** [make_alignment(alignment(n))]: no check against the end of the buffer. *)
Definition align_to (n : Z) : M unit :=
  align <-- gets (alignment n) ;; modify (make_alignment align).

(** [memmove(&offset_ + dst, &offset_ + src, n)] *)
Definition move_bytes (dst src n : Z) : M unit := fun c =>
  match mmove (mem c) (offset_ c + dst) (offset_ c + src) n with
  | Some m => Ok tt (set_mem m c)
  | None => Fault
  end.

(** ** Member headers of XCDRv1 *)

Definition xcdr1_flags (member_id : MemberId) (pid : Z) : Z :=
  Z.lor (if must_understand member_id then 0x4000 else 0x0) (u16 pid).

Definition xcdr1_serialize_short_member_header (member_id : MemberId) : M unit :=
  align_to 4 ;;;
  serialize_uint16 (xcdr1_flags member_id (id member_id)) ;;;
  serialize_uint16 0 ;;;
  modify reset_alignment.

Definition xcdr1_end_short_member_header (member_id : MemberId) (member_serialized_size : Z) : M unit :=
  align_to 4 ;;;
  _ <-- jump 2 ;;
  serialize_uint16 (u16 member_serialized_size).

Definition xcdr1_serialize_long_member_header (member_id : MemberId) : M unit :=
  align_to 4 ;;;
  serialize_uint16 (xcdr1_flags member_id PID_EXTENDED) ;;;
  serialize_uint16 PID_EXTENDED_LENGTH ;;;
  serialize_uint32 (id member_id) ;;;
  serialize_uint32 0 ;;;
  modify reset_alignment.

Definition xcdr1_end_long_member_header (member_id : MemberId) (member_serialized_size : Z) : M unit :=
  _ <-- jump 8 ;;
  serialize_uint32 (u32 member_serialized_size).

Definition xcdr1_change_to_short_member_header (member_id : MemberId) (member_serialized_size : Z) : M unit :=
  serialize_uint16 (xcdr1_flags member_id (id member_id)) ;;;
  serialize_uint16 (u16 member_serialized_size) ;;;
  move_bytes 0 8 member_serialized_size.

(** The guard subtracts unsigned sizes: it rejects one difference only. *)
Definition xcdr1_change_to_long_member_header (member_id : MemberId) (member_serialized_size : Z) : M unit :=
  rest <-- gets (fun c => size_t (remaining c - member_serialized_size - 11)) ;;
  (if 0 <? rest then move_bytes 12 4 member_serialized_size
   else throw NotEnoughMemoryException) ;;;
  serialize_uint16 (xcdr1_flags member_id PID_EXTENDED) ;;;
  serialize_uint16 PID_EXTENDED_LENGTH ;;;
  serialize_uint32 (id member_id) ;;;
  serialize_uint32 (u32 member_serialized_size).

(** [Cdr::xcdr1_deserialize_member_header]: the member identifier is an object
    the caller passes by reference, and [upd] updates it; the result is the
    returned value and the updated [current_state]. *)
Definition xcdr1_deserialize_member_header (upd : (MemberId -> MemberId) -> M unit)
    (current_state : state) : M (bool * state) :=
  align_to 4 ;;;
  flags_and_member_id <-- deserialize_uint16 ;;
  upd (fun m => mkMemberId (id m) (negb (Z.land flags_and_member_id 0x4000 =? 0))) ;;;
  let pid := Z.land flags_and_member_id 0x3FFF in
  if pid <? PID_EXTENDED then
    upd (fun m => mkMemberId pid (must_understand m)) ;;;
    size <-- deserialize_uint16 ;;
    modify reset_alignment ;;;
    ret (true, st_with_header_serialized SHORT_HEADER (st_with_member_size size current_state))
  else if pid =? PID_EXTENDED then
    size <-- deserialize_uint16 ;;
    if negb (PID_EXTENDED_LENGTH =? size) then throw BadParamException
    else
      mid <-- deserialize_uint32 ;;
      upd (fun m => mkMemberId mid (must_understand m)) ;;;
      msize <-- deserialize_uint32 ;;
      modify reset_alignment ;;;
      ret (true, st_with_header_serialized LONG_HEADER (st_with_member_size msize current_state))
  else if pid =? PID_SENTINEL then
    size <-- deserialize_uint16 ;;
    if negb (0 =? size) then throw BadParamException
    else ret (false, st_with_member_size size current_state)
  else ret (true, current_state).

(** The member identifier is [next_member_id_]. *)
Definition upd_next_member_id (f : MemberId -> MemberId) : M unit :=
  modify (fun c => set_next_member_id_ (f (next_member_id_ c)) c).

(** ** Member headers of XCDRv2 *)

Definition xcdr2_flags (member_id : MemberId) (lc : Z) : Z :=
  Z.lor (Z.lor (if must_understand member_id then 0x80000000 else 0x0) lc) (id member_id).

Definition xcdr2_serialize_short_member_header (member_id : MemberId) : M unit :=
  serialize_uint32 (xcdr2_flags member_id 0).

Definition xcdr2_end_short_member_header (member_id : MemberId) (member_serialized_size : Z) : M unit :=
  serialize_uint32 (xcdr2_flags member_id (get_short_lc member_serialized_size)).

Definition xcdr2_serialize_long_member_header (member_id : MemberId) : M unit :=
  serialize_uint32 (xcdr2_flags member_id 0) ;;;
  serialize_uint32 0.

Definition xcdr2_end_long_member_header (member_id : MemberId) (member_serialized_size : Z) : M unit :=
  sms <-- gets serialized_member_size_ ;;
  let lc := if 0 =? member_serialized_size then get_long_lc sms else 0x40000000 in
  serialize_uint32 (xcdr2_flags member_id lc) ;;;
  if 0 <? member_serialized_size then serialize_uint32 (u32 member_serialized_size) else ret tt.

Definition xcdr2_change_to_short_member_header (member_id : MemberId) (member_serialized_size : Z) : M unit :=
  serialize_uint32 (xcdr2_flags member_id (get_short_lc member_serialized_size)) ;;;
  move_bytes 0 4 member_serialized_size.

Definition xcdr2_change_to_long_member_header (member_id : MemberId) (member_serialized_size : Z) : M unit :=
  rest <-- gets (fun c => size_t (remaining c - member_serialized_size - 7)) ;;
  (if 0 <? rest then move_bytes 8 4 member_serialized_size
   else throw NotEnoughMemoryException) ;;;
  sms <-- gets serialized_member_size_ ;;
  serialize_uint32 (xcdr2_flags member_id (get_long_lc sms)) ;;;
  serialize_uint32 (u32 member_serialized_size).

(** [offset] is the position behind the member. *)
Definition xcdr2_shrink_to_long_member_header (member_id : MemberId) (offset : Z) : M unit :=
  here <-- gets offset_ ;;
  move_bytes 4 8 (size_t (size_t (offset - here) - 8)) ;;;
  sms <-- gets serialized_member_size_ ;;
  serialize_uint32 (xcdr2_flags member_id (get_long_lc sms)).

Definition xcdr2_deserialize_member_header (current_state : state) : M state :=
  flags_and_member_id <-- deserialize_uint32 ;;
  let mid := Z.land flags_and_member_id 0x0FFFFFFF in
  let lc := Z.shiftr (Z.land flags_and_member_id 0x70000000) 28 in
  modify (set_next_member_id_ (mkMemberId mid (negb (Z.land flags_and_member_id 0x80000000 =? 0)))) ;;;
  if lc <? 4 then
    let size := if lc =? 0 then 1 else if lc =? 1 then 2 else if lc =? 2 then 4 else 8 in
    ret (st_with_header_serialized SHORT_HEADER (st_with_member_size size current_state))
  else if lc =? 4 then
    size <-- deserialize_uint32 ;;
    ret (st_with_header_serialized LONG_HEADER (st_with_member_size size current_state))
  else
    size <-- deserialize_uint32 ;;
    let factor := if lc =? 5 then 1 else if lc =? 6 then 4 else 8 in
    modify (fun c => set_offset_ (offset_ c - 4) c) ;;;
    ret (st_with_header_serialized SHORT_HEADER
           (st_with_member_size (u32 (4 + u32 (size * factor))) current_state)).

(** ** Members of XCDRv1 *)

(** The header written for a member: the two switches shared by
    [xcdr1_begin_serialize_member] and [xcdr1_begin_serialize_opt_member]. *)
Definition xcdr1_begin_header (member_id : MemberId) (header_selection : XCdrHeaderSelection)
    (current_state : state) : M state :=
  if id member_id <=? 0x3F00 then
    match header_selection with
    | AUTO_WITH_SHORT_HEADER_BY_DEFAULT | SHORT_HEADER =>
        xcdr1_serialize_short_member_header member_id ;;;
        ret (st_with_header_selection header_selection (st_with_header_serialized SHORT_HEADER current_state))
    | AUTO_WITH_LONG_HEADER_BY_DEFAULT | LONG_HEADER =>
        xcdr1_serialize_long_member_header member_id ;;;
        ret (st_with_header_selection header_selection (st_with_header_serialized LONG_HEADER current_state))
    end
  else
    match header_selection with
    | AUTO_WITH_SHORT_HEADER_BY_DEFAULT | AUTO_WITH_LONG_HEADER_BY_DEFAULT | LONG_HEADER =>
        xcdr1_serialize_long_member_header member_id ;;;
        ret (st_with_header_selection header_selection (st_with_header_serialized LONG_HEADER current_state))
    | SHORT_HEADER => throw BadParamException
    end.

Definition xcdr1_begin_serialize_member (member_id : MemberId) (is_present : bool)
    (current_state : state) (header_selection : XCdrHeaderSelection) : M state :=
  encoding <-- gets current_encoding_ ;;
  current_state <-- (if bool_decide (PL_CDR = encoding)
                     then xcdr1_begin_header member_id header_selection current_state
                     else ret current_state) ;;
  modify (set_next_member_id_ MEMBER_ID_INVALID) ;;;
  ret (st_with_next_member_id member_id current_state).

(** The body shared by [xcdr1_end_serialize_member] and
    [xcdr1_end_serialize_opt_member]: go back to the header, write the size or
    exchange the header for the other kind, and move past the member. *)
Definition xcdr1_end_header (current_state : state) : M unit :=
  last_offset <-- gets offset_ ;;
  member_origin <-- gets origin_ ;;
  modify (set_state current_state) ;;;
  align_to 4 ;;;
  here <-- gets offset_ ;;
  let header := if bool_decide (st_header_serialized_ current_state = SHORT_HEADER) then 4 else 12 in
  let member_serialized_size := size_t (size_t (last_offset - here) - header) in
  let member_id := st_next_member_id_ current_state in
  member_origin <--
    (if member_serialized_size >? 0xFFFF then
       match st_header_serialized_ current_state with
       | SHORT_HEADER =>
           if bool_decide (AUTO_WITH_SHORT_HEADER_BY_DEFAULT = st_header_selection_ current_state) then
             xcdr1_change_to_long_member_header member_id member_serialized_size ;;;
             ret (member_origin + 8)
           else throw BadParamException
       | LONG_HEADER =>
           xcdr1_end_long_member_header member_id member_serialized_size ;;; ret member_origin
       | _ => ret member_origin
       end
     else
       match st_header_serialized_ current_state with
       | SHORT_HEADER =>
           xcdr1_end_short_member_header member_id member_serialized_size ;;; ret member_origin
       | LONG_HEADER =>
           if bool_decide (LONG_HEADER = st_header_selection_ current_state) || (0x3F00 <? id member_id) then
             xcdr1_end_long_member_header member_id member_serialized_size ;;; ret member_origin
           else if bool_decide (AUTO_WITH_LONG_HEADER_BY_DEFAULT = st_header_selection_ current_state) then
             xcdr1_change_to_short_member_header member_id member_serialized_size ;;;
             ret (member_origin - 8)
           else ret member_origin
       | _ => ret member_origin
       end) ;;
  modify (set_origin_ member_origin) ;;;
  _ <-- jump member_serialized_size ;;
  ret tt.

Definition xcdr1_end_serialize_member (current_state : state) : M unit :=
  encoding <-- gets current_encoding_ ;;
  (if bool_decide (PL_CDR = encoding) then xcdr1_end_header current_state else ret tt) ;;;
  modify (set_next_member_id_ MEMBER_ID_INVALID).

Definition xcdr1_begin_serialize_opt_member (member_id : MemberId) (is_present : bool)
    (current_state : state) (header_selection : XCdrHeaderSelection) : M state :=
  encoding <-- gets current_encoding_ ;;
  current_state <-- (if is_present || negb (bool_decide (PL_CDR = encoding))
                     then xcdr1_begin_header member_id header_selection current_state
                     else ret current_state) ;;
  modify (set_next_member_id_ MEMBER_ID_INVALID) ;;;
  ret (st_with_next_member_id member_id
         (st_with_member_size (if is_present then 1 else 0) current_state)).

Definition xcdr1_end_serialize_opt_member (current_state : state) : M unit :=
  (if 0 <? st_member_size_ current_state then xcdr1_end_header current_state else ret tt) ;;;
  modify (set_next_member_id_ MEMBER_ID_INVALID).

(** ** Members of XCDRv2 *)

Definition xcdr2_begin_serialize_member (member_id : MemberId) (is_present : bool)
    (current_state : state) (header_selection : XCdrHeaderSelection) : M state :=
  encoding <-- gets current_encoding_ ;;
  current_state <--
    (if is_present && bool_decide (PL_CDR2 = encoding) then
       if 0x10000000 <=? id member_id then throw BadParamException
       else
         match header_selection with
         | SHORT_HEADER | AUTO_WITH_SHORT_HEADER_BY_DEFAULT =>
             xcdr2_serialize_short_member_header member_id ;;;
             ret (st_with_header_selection header_selection
                    (st_with_header_serialized SHORT_HEADER current_state))
         | LONG_HEADER | AUTO_WITH_LONG_HEADER_BY_DEFAULT =>
             xcdr2_serialize_long_member_header member_id ;;;
             ret (st_with_header_selection header_selection
                    (st_with_header_serialized LONG_HEADER current_state))
         end
     else ret current_state) ;;
  modify (set_next_member_id_ MEMBER_ID_INVALID) ;;;
  ret (st_with_next_member_id member_id
         (st_with_member_size (if is_present then 1 else 0) current_state)).

(** A member whose value does not start with its own size. *)
Definition xcdr2_end_sized_header (current_state : state) (last_offset : Z) : M unit :=
  here <-- gets offset_ ;;
  let header := if bool_decide (st_header_serialized_ current_state = SHORT_HEADER) then 4 else 8 in
  let member_serialized_size := size_t (size_t (last_offset - here) - header) in
  let member_id := st_next_member_id_ current_state in
  (if (8 <? member_serialized_size) || (0xFFFFFFFF =? get_short_lc member_serialized_size) then
     match st_header_serialized_ current_state with
     | SHORT_HEADER =>
         if bool_decide (AUTO_WITH_SHORT_HEADER_BY_DEFAULT = st_header_selection_ current_state)
         then xcdr2_change_to_long_member_header member_id member_serialized_size
         else throw BadParamException
     | LONG_HEADER => xcdr2_end_long_member_header member_id member_serialized_size
     | _ => ret tt
     end
   else
     match st_header_serialized_ current_state with
     | SHORT_HEADER => xcdr2_end_short_member_header member_id member_serialized_size
     | LONG_HEADER =>
         if bool_decide (AUTO_WITH_LONG_HEADER_BY_DEFAULT = st_header_selection_ current_state)
         then xcdr2_change_to_short_member_header member_id member_serialized_size
         else xcdr2_end_long_member_header member_id member_serialized_size
     | _ => ret tt
     end) ;;;
  _ <-- jump member_serialized_size ;;
  ret tt.

(** A member whose value starts with its size: the size is the NEXTINT. *)
Definition xcdr2_end_nextint_header (current_state : state) (last_offset : Z) : M unit :=
  let member_id := st_next_member_id_ current_state in
  match st_header_serialized_ current_state with
  | SHORT_HEADER =>
      if bool_decide (AUTO_WITH_SHORT_HEADER_BY_DEFAULT = st_header_selection_ current_state) then
        xcdr2_end_long_member_header member_id 0 ;;;
        modify (set_offset_ last_offset)
      else throw BadParamException
  | LONG_HEADER =>
      xcdr2_shrink_to_long_member_header member_id last_offset ;;;
      modify (set_offset_ (last_offset - 4))
  | _ => ret tt
  end ;;;
  modify (set_last_data_size_ 0).

Definition xcdr2_end_serialize_member (current_state : state) : M unit :=
  encoding <-- gets current_encoding_ ;;
  (if (0 <? st_member_size_ current_state) && bool_decide (PL_CDR2 = encoding) then
     last_offset <-- gets offset_ ;;
     modify (set_state current_state) ;;;
     align_to 4 ;;;
     sms <-- gets serialized_member_size_ ;;
     if bool_decide (NO_SERIALIZED_MEMBER_SIZE = sms)
     then xcdr2_end_sized_header current_state last_offset
     else xcdr2_end_nextint_header current_state last_offset
   else ret tt) ;;;
  modify (set_next_member_id_ MEMBER_ID_INVALID) ;;;
  modify (set_serialized_member_size_ NO_SERIALIZED_MEMBER_SIZE).

(** ** Members without extension headers *)

Definition cdr_begin_serialize_member (current_state : state) : M state :=
  modify (set_next_member_id_ MEMBER_ID_INVALID) ;;; ret current_state.

Definition cdr_end_serialize_member : M unit := modify (set_next_member_id_ MEMBER_ID_INVALID).

(** ** The callbacks of a stream *)

Definition begin_serialize_member (member_id : MemberId) (is_present : bool)
    (s : state) (h : XCdrHeaderSelection) : M state :=
  cb <-- gets callbacks_ ;;
  match cb with
  | Xcdr2Callbacks => xcdr2_begin_serialize_member member_id is_present s h
  | Xcdr1Callbacks => xcdr1_begin_serialize_member member_id is_present s h
  | CdrCallbacks => cdr_begin_serialize_member s
  end.

Definition end_serialize_member (s : state) : M unit :=
  cb <-- gets callbacks_ ;;
  match cb with
  | Xcdr2Callbacks => xcdr2_end_serialize_member s
  | Xcdr1Callbacks => xcdr1_end_serialize_member s
  | CdrCallbacks => cdr_end_serialize_member
  end.

Definition begin_serialize_opt_member (member_id : MemberId) (is_present : bool)
    (s : state) (h : XCdrHeaderSelection) : M state :=
  cb <-- gets callbacks_ ;;
  match cb with
  | Xcdr2Callbacks => xcdr2_begin_serialize_member member_id is_present s h
  | Xcdr1Callbacks => xcdr1_begin_serialize_opt_member member_id is_present s h
  | CdrCallbacks => cdr_begin_serialize_member s
  end.

Definition end_serialize_opt_member (s : state) : M unit :=
  cb <-- gets callbacks_ ;;
  match cb with
  | Xcdr2Callbacks => xcdr2_end_serialize_member s
  | Xcdr1Callbacks => xcdr1_end_serialize_opt_member s
  | CdrCallbacks => cdr_end_serialize_member
  end.

(** [Cdr::serialize_member(const MemberId&, const _T&, XCdrHeaderSelection)];
    [ser] is [serialize(member_value)]. *)
Definition serialize_member (member_id : MemberId) (ser : M unit) (h : XCdrHeaderSelection) : M unit :=
  current_state <-- gets get_state ;;
  current_state <-- begin_serialize_member member_id true current_state h ;;
  ser ;;;
  end_serialize_member current_state.

(** [Cdr::serialize_member(const MemberId&, const optional<_T>&, ...)] *)
Definition serialize_opt_member (member_id : MemberId) (has_value : bool) (ser : M unit)
    (h : XCdrHeaderSelection) : M unit :=
  current_state <-- gets get_state ;;
  current_state <-- begin_serialize_opt_member member_id has_value current_state h ;;
  ser ;;;
  end_serialize_opt_member current_state.

(** [Cdr::operator <<(const MemberId&)] *)
Definition insert_member_id (member_id : MemberId) : M unit :=
  next <-- gets next_member_id_ ;;
  if negb (MemberId_eqb next MEMBER_ID_INVALID) then throw BadParamException
  else modify (set_next_member_id_ member_id).

(** [Cdr::operator <<(const _T&)] *)
Definition insert_value (ser : M unit) : M unit :=
  next <-- gets next_member_id_ ;;
  if MemberId_eqb MEMBER_ID_INVALID next then ser
  else serialize_member next ser AUTO_WITH_SHORT_HEADER_BY_DEFAULT.

(** ** Types *)

Definition xcdr1_begin_serialize_type (current_state : state) (type_encoding : EncodingAlgorithmFlag) : M state :=
  encoding <-- gets current_encoding_ ;;
  modify (set_current_encoding_ type_encoding) ;;;
  ret (st_with_previous_encoding encoding current_state).

Definition xcdr1_end_serialize_type (current_state : state) : M unit :=
  encoding <-- gets current_encoding_ ;;
  (if bool_decide (PL_CDR = encoding) then
     align_to 4 ;;;
     serialize_uint16 PID_SENTINEL ;;;
     serialize_uint16 PID_SENTINEL_LENGTH
   else ret tt) ;;;
  modify (set_current_encoding_ (st_previous_encoding_ current_state)).

Definition xcdr2_begin_serialize_type (current_state : state) (type_encoding : EncodingAlgorithmFlag) : M state :=
  (if negb (bool_decide (PLAIN_CDR2 = type_encoding)) then serialize_uint32 0 else ret tt) ;;;
  modify (set_serialized_member_size_ NO_SERIALIZED_MEMBER_SIZE) ;;;
  encoding <-- gets current_encoding_ ;;
  modify (set_current_encoding_ type_encoding) ;;;
  ret (st_with_previous_encoding encoding current_state).

Definition xcdr2_end_serialize_type (current_state : state) : M unit :=
  encoding <-- gets current_encoding_ ;;
  (if negb (bool_decide (PLAIN_CDR2 = encoding)) then
     last_offset <-- gets offset_ ;;
     modify (set_state current_state) ;;;
     here <-- gets offset_ ;;
     align <-- gets (alignment 4) ;;
     let member_serialized_size := size_t (size_t (last_offset - here) - 4 - align) in
     serialize_uint32 (u32 member_serialized_size) ;;;
     _ <-- jump member_serialized_size ;;
     modify (set_serialized_member_size_ SERIALIZED_MEMBER_SIZE)
   else ret tt) ;;;
  modify (set_current_encoding_ (st_previous_encoding_ current_state)).

Definition cdr_begin_serialize_type (current_state : state) (type_encoding : EncodingAlgorithmFlag) : M state :=
  encoding <-- gets current_encoding_ ;;
  modify (set_current_encoding_ type_encoding) ;;;
  ret (st_with_previous_encoding encoding current_state).

Definition cdr_end_serialize_type (current_state : state) : M unit :=
  modify (set_current_encoding_ (st_previous_encoding_ current_state)).

(** [Cdr::begin_serialize_type] *)
Definition begin_serialize_type (s : state) (type_encoding : EncodingAlgorithmFlag) : M state :=
  cb <-- gets callbacks_ ;;
  match cb with
  | Xcdr2Callbacks => xcdr2_begin_serialize_type s type_encoding
  | Xcdr1Callbacks => xcdr1_begin_serialize_type s type_encoding
  | CdrCallbacks => cdr_begin_serialize_type s type_encoding
  end.

(** [Cdr::end_serialize_type] *)
Definition end_serialize_type (s : state) : M unit :=
  cb <-- gets callbacks_ ;;
  match cb with
  | Xcdr2Callbacks => xcdr2_end_serialize_type s
  | Xcdr1Callbacks => xcdr1_end_serialize_type s
  | CdrCallbacks => cdr_end_serialize_type s
  end.

(** *** Deserialization of types

    [functor data mid] is the lambda of a generated [deserialize]: it decodes
    the member [mid] into the object [data] it captures by reference and tells
    whether it knows the member. *)

Section Functor.
Context {A : Type} (functor : A -> MemberId -> M (bool * A)).

Definition incr_member_id (c : Cdr) : Cdr :=
  set_next_member_id_ (mkMemberId (u32 (id (next_member_id_ c) + 1)) (must_understand (next_member_id_ c))) c.

(** [while (more && functor( *this, next_member_id_)) ++next_member_id_.id;] *)
Fixpoint members_loop (fuel : nat) (more : Cdr -> bool) (data : A) : M A :=
  match fuel with
  | O => fun _ => OutOfFuel
  | S fuel' =>
      go <-- gets more ;;
      if go then
        mid <-- gets next_member_id_ ;;
        r <-- functor data mid ;;
        if fst r then modify incr_member_id ;;; members_loop fuel' more (snd r)
        else ret (snd r)
      else ret data
  end.

(** A member the object does not know is skipped, unless it must be understood. *)
Definition member_or_skip (data : A) (member_size : Z) : M A :=
  mid <-- gets next_member_id_ ;;
  r <-- functor data mid ;;
  (if fst r then ret tt
   else
     next <-- gets next_member_id_ ;;
     if must_understand next then throw BadParamException
     else _ <-- jump member_size ;; ret tt) ;;;
  ret (snd r).

(** The loop of [xcdr1_deserialize_type] over a parameter list. *)
Fixpoint xcdr1_members_loop (fuel : nat) (current_state : state) (data : A) : M A :=
  match fuel with
  | O => fun _ => OutOfFuel
  | S fuel' =>
      h <-- xcdr1_deserialize_member_header upd_next_member_id current_state ;;
      if fst h then
        prev_offset <-- gets offset_ ;;
        data <-- member_or_skip data (st_member_size_ (snd h)) ;;
        here <-- gets offset_ ;;
        if negb (st_member_size_ (snd h) =? size_t (here - prev_offset)) then throw BadParamException
        else xcdr1_members_loop fuel' (snd h) data
      else ret data
  end.

Definition xcdr1_deserialize_type (fuel : nat) (type_encoding : EncodingAlgorithmFlag) (data : A) : M A :=
  current_state <-- gets get_state ;;
  modify (set_current_encoding_ type_encoding) ;;;
  data <--
    (if bool_decide (PL_CDR = type_encoding) then xcdr1_members_loop fuel current_state data
     else
       modify (set_next_member_id_ (mkMemberId 0 false)) ;;;
       members_loop fuel (fun c => negb (offset_ c =? end_ c)) data) ;;
  modify (set_next_member_id_ (st_next_member_id_ current_state)) ;;;
  modify (set_current_encoding_ (st_previous_encoding_ current_state)) ;;;
  ret data.

(** The loop of [xcdr2_deserialize_type] over a parameter list. *)
Fixpoint xcdr2_members_loop (fuel : nat) (dheader : Z) (current_state : state) (data : A) : M A :=
  match fuel with
  | O => fun _ => OutOfFuel
  | S fuel' =>
      here <-- gets offset_ ;;
      let done := size_t (here - st_offset_ current_state) in
      if negb (done =? dheader) then
        if done >? dheader then throw BadParamException
        else
          current_state <-- xcdr2_deserialize_member_header current_state ;;
          data <-- member_or_skip data (st_member_size_ current_state) ;;
          now <-- gets offset_ ;;
          let size := st_member_size_ current_state in
          let header := if bool_decide (SHORT_HEADER = st_header_serialized_ current_state) then 4 else 8 in
          if negb ((0 =? size) && (0 =? size_t (now - here))) &&
             negb ((0 <? size) &&
                   (size =? size_t (size_t (now - here) -
                                    alignment_on_state (st_origin_ current_state) here 4 - header)))
          then throw BadParamException
          else xcdr2_members_loop fuel' dheader current_state data
      else ret data
  end.

Definition xcdr2_deserialize_type (fuel : nat) (type_encoding : EncodingAlgorithmFlag) (data : A) : M A :=
  if negb (bool_decide (PLAIN_CDR2 = type_encoding)) then
    dheader <-- deserialize_uint32 ;;
    current_state <-- gets get_state ;;
    modify (set_current_encoding_ type_encoding) ;;;
    data <--
      (if bool_decide (PL_CDR2 = type_encoding) then
         data <-- xcdr2_members_loop fuel dheader current_state data ;;
         modify (set_next_member_id_ (st_next_member_id_ current_state)) ;;;
         ret data
       else
         modify (set_next_member_id_ (mkMemberId 0 false)) ;;;
         data <-- members_loop fuel (fun c => size_t (offset_ c - st_offset_ current_state) <? dheader) data ;;
         here <-- gets offset_ ;;
         _ <-- jump (size_t (dheader - size_t (here - st_offset_ current_state))) ;;
         modify (set_next_member_id_ (st_next_member_id_ current_state)) ;;;
         ret data) ;;
    modify (set_current_encoding_ (st_previous_encoding_ current_state)) ;;;
    ret data
  else
    current_state <-- gets get_state ;;
    modify (set_current_encoding_ type_encoding) ;;;
    modify (set_next_member_id_ (mkMemberId 0 false)) ;;;
    data <-- members_loop fuel (fun c => negb (offset_ c =? end_ c)) data ;;
    modify (set_next_member_id_ (st_next_member_id_ current_state)) ;;;
    modify (set_current_encoding_ (st_previous_encoding_ current_state)) ;;;
    ret data.

Definition cdr_deserialize_type (fuel : nat) (type_encoding : EncodingAlgorithmFlag) (data : A) : M A :=
  current_state <-- gets get_state ;;
  modify (set_next_member_id_ (mkMemberId 0 false)) ;;;
  data <-- members_loop fuel (fun c => negb (offset_ c =? end_ c)) data ;;
  modify (set_next_member_id_ (st_next_member_id_ current_state)) ;;;
  ret data.

(** [Cdr::deserialize_type] *)
Definition deserialize_type (fuel : nat) (type_encoding : EncodingAlgorithmFlag) (data : A) : M A :=
  cb <-- gets callbacks_ ;;
  match cb with
  | Xcdr2Callbacks => xcdr2_deserialize_type fuel type_encoding data
  | Xcdr1Callbacks => xcdr1_deserialize_type fuel type_encoding data
  | CdrCallbacks => cdr_deserialize_type fuel type_encoding data
  end.

End Functor.

(** *** The object in place

    The generated lambda assigns to the members of the object it captured by
    reference, so an exception leaves the object as it is at that moment.
    [InPlace X] is a computation on a stream with such an object: it gives the
    object back on every outcome. *)

Section InPlace.
Context {A : Type}.

Definition InPlace (X : Type) : Type := A -> Cdr -> A * outcome X.

Definition obind {X Y} (m : InPlace X) (k : X -> InPlace Y) : InPlace Y := fun o c =>
  match m o c with
  | (o', Ok x c') => k x o' c'
  | (o', Throw e c') => (o', Throw e c')
  | (o', Fault) => (o', Fault)
  | (o', OutOfFuel) => (o', OutOfFuel)
  end.

(** A step of the stream does not touch the object. *)
Definition lift {X} (m : M X) : InPlace X := fun o c => (o, m c).

Definition assign_to (f : A -> A) : InPlace unit := fun o c => (f o, Ok tt c).

Notation "x <== m ;; k" := (obind m (fun x => k)) (at level 100, m at next level, right associativity).
Notation "m ;;= k" := (obind m (fun _ => k)) (at level 100, right associativity).

Context (functor : MemberId -> InPlace bool).

Fixpoint members_loop_at (fuel : nat) (more : Cdr -> bool) : InPlace unit :=
  match fuel with
  | O => fun o _ => (o, OutOfFuel)
  | S fuel' =>
      go <== lift (gets more) ;;
      if go then
        mid <== lift (gets next_member_id_) ;;
        known <== functor mid ;;
        if known then lift (modify incr_member_id) ;;= members_loop_at fuel' more
        else lift (ret tt)
      else lift (ret tt)
  end.

Definition member_or_skip_at (member_size : Z) : InPlace unit :=
  mid <== lift (gets next_member_id_) ;;
  known <== functor mid ;;
  lift (if known then ret tt
        else
          next <-- gets next_member_id_ ;;
          if must_understand next then throw BadParamException
          else _ <-- jump member_size ;; ret tt) ;;=
  lift (ret tt).

Fixpoint xcdr1_members_loop_at (fuel : nat) (current_state : state) : InPlace unit :=
  match fuel with
  | O => fun o _ => (o, OutOfFuel)
  | S fuel' =>
      h <== lift (xcdr1_deserialize_member_header upd_next_member_id current_state) ;;
      if fst h then
        prev_offset <== lift (gets offset_) ;;
        member_or_skip_at (st_member_size_ (snd h)) ;;=
        here <== lift (gets offset_) ;;
        if negb (st_member_size_ (snd h) =? size_t (here - prev_offset)) then lift (throw BadParamException)
        else xcdr1_members_loop_at fuel' (snd h)
      else lift (ret tt)
  end.

Definition xcdr1_deserialize_type_at (fuel : nat) (type_encoding : EncodingAlgorithmFlag) : InPlace unit :=
  current_state <== lift (gets get_state) ;;
  lift (modify (set_current_encoding_ type_encoding)) ;;=
  (if bool_decide (PL_CDR = type_encoding) then xcdr1_members_loop_at fuel current_state
   else
     lift (modify (set_next_member_id_ (mkMemberId 0 false))) ;;=
     members_loop_at fuel (fun c => negb (offset_ c =? end_ c))) ;;=
  lift (modify (set_next_member_id_ (st_next_member_id_ current_state))) ;;=
  lift (modify (set_current_encoding_ (st_previous_encoding_ current_state))) ;;=
  lift (ret tt).

Fixpoint xcdr2_members_loop_at (fuel : nat) (dheader : Z) (current_state : state) : InPlace unit :=
  match fuel with
  | O => fun o _ => (o, OutOfFuel)
  | S fuel' =>
      here <== lift (gets offset_) ;;
      let done := size_t (here - st_offset_ current_state) in
      if negb (done =? dheader) then
        if done >? dheader then lift (throw BadParamException)
        else
          current_state <== lift (xcdr2_deserialize_member_header current_state) ;;
          member_or_skip_at (st_member_size_ current_state) ;;=
          now <== lift (gets offset_) ;;
          let size := st_member_size_ current_state in
          let header := if bool_decide (SHORT_HEADER = st_header_serialized_ current_state) then 4 else 8 in
          if negb ((0 =? size) && (0 =? size_t (now - here))) &&
             negb ((0 <? size) &&
                   (size =? size_t (size_t (now - here) -
                                    alignment_on_state (st_origin_ current_state) here 4 - header)))
          then lift (throw BadParamException)
          else xcdr2_members_loop_at fuel' dheader current_state
      else lift (ret tt)
  end.

Definition xcdr2_deserialize_type_at (fuel : nat) (type_encoding : EncodingAlgorithmFlag) : InPlace unit :=
  if negb (bool_decide (PLAIN_CDR2 = type_encoding)) then
    dheader <== lift deserialize_uint32 ;;
    current_state <== lift (gets get_state) ;;
    lift (modify (set_current_encoding_ type_encoding)) ;;=
    (if bool_decide (PL_CDR2 = type_encoding) then
       xcdr2_members_loop_at fuel dheader current_state ;;=
       lift (modify (set_next_member_id_ (st_next_member_id_ current_state))) ;;=
       lift (ret tt)
     else
       lift (modify (set_next_member_id_ (mkMemberId 0 false))) ;;=
       members_loop_at fuel (fun c => size_t (offset_ c - st_offset_ current_state) <? dheader) ;;=
       here <== lift (gets offset_) ;;
       lift (jump (size_t (dheader - size_t (here - st_offset_ current_state)))) ;;=
       lift (modify (set_next_member_id_ (st_next_member_id_ current_state))) ;;=
       lift (ret tt)) ;;=
    lift (modify (set_current_encoding_ (st_previous_encoding_ current_state))) ;;=
    lift (ret tt)
  else
    current_state <== lift (gets get_state) ;;
    lift (modify (set_current_encoding_ type_encoding)) ;;=
    lift (modify (set_next_member_id_ (mkMemberId 0 false))) ;;=
    members_loop_at fuel (fun c => negb (offset_ c =? end_ c)) ;;=
    lift (modify (set_next_member_id_ (st_next_member_id_ current_state))) ;;=
    lift (modify (set_current_encoding_ (st_previous_encoding_ current_state))) ;;=
    lift (ret tt).

Definition cdr_deserialize_type_at (fuel : nat) (type_encoding : EncodingAlgorithmFlag) : InPlace unit :=
  current_state <== lift (gets get_state) ;;
  lift (modify (set_next_member_id_ (mkMemberId 0 false))) ;;=
  members_loop_at fuel (fun c => negb (offset_ c =? end_ c)) ;;=
  lift (modify (set_next_member_id_ (st_next_member_id_ current_state))) ;;=
  lift (ret tt).

(** [Cdr::deserialize_type] on the object itself *)
Definition deserialize_type_at (fuel : nat) (type_encoding : EncodingAlgorithmFlag) : InPlace unit :=
  cb <== lift (gets callbacks_) ;;
  match cb with
  | Xcdr2Callbacks => xcdr2_deserialize_type_at fuel type_encoding
  | Xcdr1Callbacks => xcdr1_deserialize_type_at fuel type_encoding
  | CdrCallbacks => cdr_deserialize_type_at fuel type_encoding
  end.

(** **** It is [deserialize_type] as far as the stream is concerned *)

(** [m] on the object [o] goes as [p], which only returns the object when it
    ends normally. *)
Definition same (m : InPlace unit) (o : A) (p : M A) : Prop := forall c,
  match m o c with
  | (o', Ok _ c') => p c = Ok o' c'
  | (_, Throw e c') => p c = Throw e c'
  | (_, Fault) => p c = Fault
  | (_, OutOfFuel) => p c = OutOfFuel
  end.

Lemma same_lift {X} (m : M X) k o k' :
  (forall x, same (k x) o (k' x)) -> same (obind (lift m) k) o (bind m k').
Proof. intros H c. unfold obind, lift, bind. destruct (m c); try done. apply H. Qed.

Lemma same_bind m k o p k' :
  same m o p -> (forall o', same (k tt) o' (k' o')) -> same (obind m k) o (bind p k').
Proof.
  intros Hm Hk c. specialize (Hm c). unfold obind, bind.
  destruct (m o c) as [o' [[] c'|e c'| |]]; rewrite Hm; try done. apply Hk.
Qed.

Lemma same_ret o : same (lift (ret tt)) o (ret o).
Proof. done. Qed.

Lemma same_throw e o : same (lift (throw e)) o (throw e).
Proof. done. Qed.

Lemma same_fuel o : same (fun o _ => (o, OutOfFuel)) o (fun _ => OutOfFuel).
Proof. done. Qed.

Context (pure : A -> MemberId -> M (bool * A)).

(** [pure] is the lambda with the object passed on instead. *)
Definition functors_agree : Prop := forall o mid c,
  match functor mid o c with
  | (o', Ok b c') => pure o mid c = Ok (b, o') c'
  | (_, Throw e c') => pure o mid c = Throw e c'
  | (_, Fault) => pure o mid c = Fault
  | (_, OutOfFuel) => pure o mid c = OutOfFuel
  end.

Hypothesis agree : functors_agree.

Lemma same_functor mid k o k' :
  (forall b o', same (k b) o' (k' (b, o'))) -> same (obind (functor mid) k) o (bind (pure o mid) k').
Proof.
  intros Hk c. pose proof (agree o mid c) as Hm. unfold obind, bind.
  destruct (functor mid o c) as [o' [b c'|e c'| |]]; rewrite Hm; try done. apply Hk.
Qed.

Ltac same_steps :=
  repeat first [ apply same_ret | apply same_throw | apply same_fuel | assumption
               | apply same_functor; intros ? ?; cbn [fst snd] | apply same_lift; intros ?
               | case_match | apply same_bind; [|intros ?] ].

Lemma same_members_loop fuel more o : same (members_loop_at fuel more) o (members_loop pure fuel more o).
Proof. revert o. induction fuel as [|fuel IH]; intros o; simpl; same_steps. apply IH. Qed.

Lemma same_member_or_skip n o : same (member_or_skip_at n) o (member_or_skip pure o n).
Proof. unfold member_or_skip_at, member_or_skip. same_steps. Qed.

Lemma same_xcdr1_loop fuel s o : same (xcdr1_members_loop_at fuel s) o (xcdr1_members_loop pure fuel s o).
Proof.
  revert s o. induction fuel as [|fuel IH]; intros s o; simpl; same_steps; first [apply IH|apply same_member_or_skip].
Qed.

Lemma same_xcdr2_loop fuel n s o : same (xcdr2_members_loop_at fuel n s) o (xcdr2_members_loop pure fuel n s o).
Proof.
  revert s o. induction fuel as [|fuel IH]; intros s o; simpl; same_steps; first [apply IH|apply same_member_or_skip].
Qed.

Lemma same_deserialize_type fuel enc o : same (deserialize_type_at fuel enc) o (deserialize_type pure fuel enc o).
Proof.
  unfold deserialize_type_at, deserialize_type, xcdr2_deserialize_type_at, xcdr2_deserialize_type,
    xcdr1_deserialize_type_at, xcdr1_deserialize_type, cdr_deserialize_type_at, cdr_deserialize_type.
  pose proof same_members_loop. pose proof same_xcdr1_loop. pose proof same_xcdr2_loop.
  same_steps; auto; same_steps; auto; same_steps.
Qed.

End InPlace.
#[global] Arguments InPlace : clear implicits.

(** ** Delimiter headers of collections *)

(** [Cdr::allocate_xcdrv2_dheader] *)
Definition allocate_xcdrv2_dheader : M state :=
  dheader_state <-- gets get_state ;;
  v <-- gets cdr_version_ ;;
  (if bool_decide (XCDRv2 = v) then serialize_uint32 0 else ret tt) ;;;
  ret dheader_state.

(** [Cdr::set_xcdrv2_dheader] *)
Definition set_xcdrv2_dheader (dheader_state : state) : M unit :=
  v <-- gets cdr_version_ ;;
  if bool_decide (XCDRv2 = v) then
    offset <-- gets offset_ ;;
    state_after <-- gets get_state ;;
    modify (set_state dheader_state) ;;;
    here <-- gets offset_ ;;
    align <-- gets (alignment 4) ;;
    let dheader := size_t (size_t (offset - here) - (4 + align)) in
    serialize_uint32 (u32 dheader) ;;;
    modify (set_state state_after) ;;;
    modify (set_serialized_member_size_ SERIALIZED_MEMBER_SIZE)
  else ret tt.

(** ** Encapsulation *)

(** The encoding algorithm a byte of the encapsulation stands for. *)
Definition flag_of_byte (b : Z) : option EncodingAlgorithmFlag :=
  if b =? 6 then Some PLAIN_CDR2 else if b =? 8 then Some DELIMIT_CDR2
  else if b =? 10 then Some PL_CDR2 else if b =? 2 then Some PL_CDR
  else if b =? 0 then Some PLAIN_CDR else None.

Definition ddscdr (c : Cdr) : bool := version_num CORBA_CDR <? version_num (cdr_version_ c).
Definition at_least_xcdrv1 (c : Cdr) : bool := version_num XCDRv1 <=? version_num (cdr_version_ c).

(** The switch of [read_encapsulation] on the encoding flag. *)
Definition select_version (encoding_flag : Z) : M unit :=
  xcdr <-- gets at_least_xcdrv1 ;;
  match flag_of_byte encoding_flag with
  | Some PLAIN_CDR2 | Some DELIMIT_CDR2 | Some PL_CDR2 =>
      if xcdr then modify (fun c => set_align64_ 4 (set_cdr_version_ XCDRv2 c)) else throw BadParamException
  | Some PL_CDR =>
      if xcdr then modify (fun c => set_align64_ 8 (set_cdr_version_ XCDRv1 c)) else throw BadParamException
  | Some PLAIN_CDR =>
      if xcdr then modify (fun c => set_align64_ 8 (set_cdr_version_ XCDRv1 c)) else ret tt
  | None => throw BadParamException
  end.

(** [Cdr::read_encapsulation] *)
Definition read_encapsulation : M unit :=
  state_before_error <-- gets get_state ;;
  try_catch
    (dds <-- gets ddscdr ;;
     (if dds then
        dummy <-- deserialize_char ;;
        if negb (0 =? dummy) then throw BadParamException else ret tt
      else ret tt) ;;;
     encapsulation <-- deserialize_char ;;
     let endianness := if Z.land encapsulation 1 =? 0 then BIG_ENDIANNESS else LITTLE_ENDIANNESS in
     modify (change_endianness endianness) ;;;
     let encoding_flag := Z.land encapsulation 0xFE in
     select_version encoding_flag ;;;
     modify reset_callbacks ;;;
     (match flag_of_byte encoding_flag with
      | Some f => modify (fun c => set_current_encoding_ f (set_encoding_flag_ f c))
      | None => ret tt
      end) ;;;
     dds <-- gets ddscdr ;;
     if dds then
       options <-- deserialize_array_char 2 ;;
       modify (set_options_ options)
     else ret tt)
    (fun ex => modify (set_state state_before_error) ;;; throw ex) ;;;
  modify reset_alignment.

(** [Cdr::serialize_encapsulation] *)
Definition serialize_encapsulation : M unit :=
  state_before_error <-- gets get_state ;;
  let rollback := fun ex => modify (set_state state_before_error) ;;; throw ex in
  try_catch
    (dds <-- gets ddscdr ;;
     (if dds then insert_value (serialize_char 0) else ret tt) ;;;
     encapsulation <-- gets (fun c => Z.lor (flag_num (encoding_flag_ c)) (endianness_num (endianness_ c))) ;;
     insert_value (serialize_char encapsulation) ;;;
     modify (fun c => set_current_encoding_ (encoding_flag_ c) c)) rollback ;;;
  try_catch
    (dds <-- gets ddscdr ;;
     if dds then
       options <-- gets options_ ;;
       serialize_array_char options
     else ret tt) rollback ;;;
  modify reset_alignment.

End Xcdr.
