(* ===== verification/CdrContainers.v ===== *)
(** * Sequences, maps and optional members

    Models the container templates of [Fast-CDR/include/fastcdr/Cdr.h]
    ([std::vector], [std::array], [std::map], [optional], [external]) and the
    sequences of booleans and strings of [Cdr.cpp], over any element type given
    by a [codec]; then proves that each container keeps the contract of its
    elements. *)

From S2P Require Import Prelude FastBuffer CdrState CdrInv CdrScalar CdrCodec CdrStrings CdrArrays CdrXcdr.

Section Definitions.
Context `{P : Platform}.

(** [catch (Exception& ex) { set_state(saved); ex.raise(); }] *)
Definition or_restore {A} (saved : state) (m : M A) : M A :=
  try_catch m (fun ex => modify (set_state saved) ;;; throw ex).

(** Elements decoded in place over the objects of [olds], as long as [more]
    holds of the position. *)
Fixpoint deserialize_over {A} (k : codec A) (more : Z -> bool) (olds : list A) : M (list A) :=
  match olds with
  | [] => ret []
  | o :: os =>
      here <-- gets offset_ ;;
      if more here then
        v <-- des k o ;;
        vs <-- deserialize_over k more os ;;
        ret (v :: vs)
      else ret olds
  end.

(** [vector_t.resize(n)] *)
Definition vector_resize {A} (dflt : A) (n : Z) (old : list A) : list A :=
  take (Z.to_nat n) old ++ replicate (Z.to_nat n - length old) dflt.

(** ** Vectors of class types *)

Definition serialize_vector {A} (k : codec A) (vector_t : list A) : M unit :=
  dheader_state <-- allocate_xcdrv2_dheader ;;
  serialize_int32 (u32 (zlen vector_t)) ;;;
  or_restore dheader_state (serialize_each (ser k) vector_t) ;;;
  set_xcdrv2_dheader dheader_state.

(** [while (offset_ - offset < dheader && count < n) ...], then the check that
    the elements took the bytes the delimiter header announced. *)
Definition before (start dheader here : Z) : bool := size_t (here - start) <? dheader.

Definition delimited {A} (start dheader : Z) (body : M A) : M A :=
  r <-- body ;;
  here <-- gets offset_ ;;
  if negb (size_t (here - start) =? dheader) then throw BadParamException else ret r.

Definition deserialize_vector {A} (k : codec A) (dflt : A) (vector_t : list A) : M (list A) :=
  v <-- gets cdr_version_ ;;
  if bool_decide (XCDRv2 = v) then
    dheader <-- deserialize_uint32 ;;
    offset <-- gets offset_ ;;
    sequence_length <-- deserialize_uint32 ;;
    if 0 =? sequence_length then ret []
    else delimited offset dheader
           (deserialize_over k (before offset dheader) (vector_resize dflt sequence_length vector_t))
  else
    state_before_error <-- gets get_state ;;
    sequence_length <-- deserialize_uint32 ;;
    if sequence_length =? 0 then ret []
    else
      rest <-- gets remaining ;;
      if rest <? sequence_length then
        modify (set_state state_before_error) ;;;
        throw NotEnoughMemoryException
      else
        or_restore state_before_error
          (deserialize_over k (fun _ => true) (vector_resize dflt sequence_length vector_t)).

(** ** Vectors of arithmetic types *)

Definition serialize_vector_arith (k : arith) (vector_t : list Z) : M unit :=
  state_before_error <-- gets get_state ;;
  serialize_int32 (u32 (zlen vector_t)) ;;;
  or_restore state_before_error (ser_array k vector_t) ;;;
  v <-- gets cdr_version_ ;;
  if bool_decide (XCDRv2 = v) then modify (set_serialized_member_size_ (next_int k)) else ret tt.

Definition deserialize_vector_arith (k : arith) : M (list Z) :=
  state_before_error <-- gets get_state ;;
  sequence_length <-- deserialize_uint32 ;;
  if sequence_length =? 0 then ret []
  else
    rest <-- gets remaining ;;
    if rest <? sequence_length then
      modify (set_state state_before_error) ;;;
      throw NotEnoughMemoryException
    else or_restore state_before_error (des_array k sequence_length).

(** [Cdr::serialize_bool_sequence] *)
Definition serialize_bool_sequence (vector_t : list bool) : M unit :=
  state_before_error <-- gets get_state ;;
  insert_value (serialize_int32 (u32 (zlen vector_t))) ;;;
  put_or_restore state_before_error (zlen vector_t)
                 (map (fun b : bool => if b then 1 else 0) vector_t) ;;;
  v <-- gets cdr_version_ ;;
  if bool_decide (XCDRv2 = v) then modify (set_serialized_member_size_ SERIALIZED_MEMBER_SIZE) else ret tt.

(** The common body of the sequences of strings: [k] is the codec of the
    string type. *)
Definition deserialize_sequence_of (k : codec (list Z)) : M (list (list Z)) :=
  v <-- gets cdr_version_ ;;
  if bool_decide (XCDRv2 = v) then
    dheader <-- deserialize_uint32 ;;
    offset <-- gets offset_ ;;
    sequence_length <-- deserialize_uint32 ;;
    delimited offset dheader
      (deserialize_over k (before offset dheader) (replicate (Z.to_nat sequence_length) []))
  else
    state_before_error <-- gets get_state ;;
    sequence_length <-- deserialize_uint32 ;;
    or_restore state_before_error
      (deserialize_over k (fun _ => true) (replicate (Z.to_nat sequence_length) [])).

(** [Cdr::deserialize_string_sequence] *)
Definition deserialize_string_sequence : M (list (list Z)) := deserialize_sequence_of string_codec.

(** [Cdr::deserialize_wstring_sequence] *)
Definition deserialize_wstring_sequence : M (list (list Z)) := deserialize_sequence_of wstring_codec.

(** ** Arrays of class types *)

(** [Cdr::serialize(const std::array<_T, _Size>&)] of elements that are not
    primitive. *)
Definition serialize_std_array {A} (k : codec A) (array_t : list A) : M unit :=
  dheader_state <-- allocate_xcdrv2_dheader ;;
  serialize_each (ser k) array_t ;;;
  set_xcdrv2_dheader dheader_state.

Definition deserialize_std_array {A} (k : codec A) (array_t : list A) : M (list A) :=
  v <-- gets cdr_version_ ;;
  if bool_decide (XCDRv2 = v) then
    dheader <-- deserialize_uint32 ;;
    offset <-- gets offset_ ;;
    delimited offset dheader (deserialize_over k (before offset dheader) array_t)
  else deserialize_over k (fun _ => true) array_t.

(** ** Maps

    A [std::map] is the list of its pairs in key order. *)

Definition serialize_pair {K A} (kk : codec K) (ka : codec A) (p : K * A) : M unit :=
  ser kk p.1 ;;; ser ka p.2.

(** [Cdr::serialize(const std::map<_K, _T>&)] of class types. *)
Definition serialize_map {K A} (kk : codec K) (ka : codec A) (map_t : list (K * A)) : M unit :=
  dheader_state <-- allocate_xcdrv2_dheader ;;
  serialize_int32 (u32 (zlen map_t)) ;;;
  or_restore dheader_state (serialize_each (serialize_pair kk ka) map_t) ;;;
  set_xcdrv2_dheader dheader_state.

(** [Cdr::serialize(const std::map<_K, _T>&)] of arithmetic values. *)
Definition serialize_map_arith {K A} (kk : codec K) (ka : codec A) (map_t : list (K * A)) : M unit :=
  state_ <-- gets get_state ;;
  serialize_int32 (u32 (zlen map_t)) ;;;
  or_restore state_ (serialize_each (serialize_pair kk ka) map_t).

Section Map.
Context {K A : Type} (kk : codec K) (ka : codec A) (dk : K) (da : A) (ltb : K -> K -> bool).

(** [map_t.emplace(key, value)]: [ltb] is the order of the keys; a key that is
    already there keeps its value. *)
Fixpoint emplace (key : K) (value : A) (map_t : list (K * A)) : list (K * A) :=
  match map_t with
  | [] => [(key, value)]
  | p :: rest =>
      if ltb key p.1 then (key, value) :: map_t
      else if ltb p.1 key then p :: emplace key value rest
      else map_t
  end.

(** Up to [n] pairs decoded into [map_t], as long as [more] holds. *)
Fixpoint deserialize_pairs (n : nat) (more : Z -> bool) (map_t : list (K * A)) : M (list (K * A)) :=
  match n with
  | O => ret map_t
  | S n' =>
      here <-- gets offset_ ;;
      if more here then
        key <-- des kk dk ;;
        value <-- des ka da ;;
        deserialize_pairs n' more (emplace key value map_t)
      else ret map_t
  end.

(** [Cdr::deserialize(std::map<_K, _T>&)] of class types. *)
Definition deserialize_map (map_t : list (K * A)) : M (list (K * A)) :=
  v <-- gets cdr_version_ ;;
  if bool_decide (XCDRv2 = v) then
    dheader <-- deserialize_uint32 ;;
    offset <-- gets offset_ ;;
    map_length <-- deserialize_uint32 ;;
    delimited offset dheader (deserialize_pairs (Z.to_nat map_length) (before offset dheader) [])
  else
    state_ <-- gets get_state ;;
    sequence_length <-- deserialize_uint32 ;;
    or_restore state_ (deserialize_pairs (Z.to_nat sequence_length) (fun _ => true) []).

(** [Cdr::deserialize(std::map<_K, _T>&)] of arithmetic values: the entries
    are added to those [map_t] holds. *)
Definition deserialize_map_arith (map_t : list (K * A)) : M (list (K * A)) :=
  state_ <-- gets get_state ;;
  sequence_length <-- deserialize_uint32 ;;
  or_restore state_ (deserialize_pairs (Z.to_nat sequence_length) (fun _ => true) map_t).

End Map.

(** ** Optional values *)

(** [Cdr::serialize(const optional<_T>&)] *)
Definition serialize_optional {A} (k : codec A) (value : option A) : M unit :=
  v <-- gets cdr_version_ ;;
  e <-- gets current_encoding_ ;;
  (if bool_decide (XCDRv2 = v) && negb (bool_decide (PL_CDR2 = e))
   then serialize_bool (bool_decide (is_Some value)) else ret tt) ;;;
  match value with
  | Some a => ser k a
  | None => ret tt
  end.

(** [Cdr::deserialize(optional<_T>&)]; [reset(true)] constructs a default
    object before it is decoded. *)
Definition deserialize_optional {A} (k : codec A) (dflt : A) : M (option A) :=
  v <-- gets cdr_version_ ;;
  e <-- gets current_encoding_ ;;
  is_present <-- (if bool_decide (XCDRv2 = v) && negb (bool_decide (PL_CDR2 = e))
                  then deserialize_bool else ret true) ;;
  if (is_present : bool) then a <-- des k dflt ;; ret (Some a) else ret None.

(** [Cdr::deserialize_member(optional<_T>&)]: in plain XCDRv1 an optional member
    has a header of its own, whose member identifier is a local variable. *)
Definition deserialize_opt_member {A} (k : codec A) (dflt : A) (value : option A) : M (option A) :=
  e <-- gets current_encoding_ ;;
  if bool_decide (PLAIN_CDR = e) then
    current_state <-- gets get_state ;;
    h <-- xcdr1_deserialize_member_header (fun _ => ret tt) current_state ;;
    prev_offset <-- gets offset_ ;;
    v <-- (if 0 <? st_member_size_ (snd h) then deserialize_optional k dflt else ret value) ;;
    here <-- gets offset_ ;;
    if negb (st_member_size_ (snd h) =? size_t (here - prev_offset)) then throw BadParamException
    else ret v
  else deserialize_optional k dflt.

(** [Cdr::serialize(const external<_T>&)] *)
Definition serialize_external {A} (k : codec A) (value : option A) : M unit :=
  match value with
  | None => throw BadParamException
  | Some a => ser k a
  end.

(** [Cdr::deserialize(external<_T>&)] *)
Definition deserialize_external {A} (k : codec A) (dflt : A) (locked : bool) (value : option A) : M (option A) :=
  if locked then throw BadParamException
  else
    a <-- des k (default dflt value) ;;
    ret (Some a).

(** ** Explicit byte order *)

(** The swap flag of [serialize(value, endianness)] and of its siblings. *)
Definition swap_for (e : Endianness) (c : Cdr) : bool :=
  (swap_bytes_ c && bool_decide (endianness_ c = e)) ||
  (negb (swap_bytes_ c) && negb (bool_decide (endianness_ c = e))).

(** [Cdr::serialize(const _T&, Endianness)]: [m] is [serialize(value)]. *)
Definition with_endianness {A} (e : Endianness) (m : M A) : M A :=
  aux_swap <-- gets swap_bytes_ ;;
  modify (fun c => set_swap_bytes_ (swap_for e c) c) ;;;
  try_catch
    (r <-- m ;; modify (set_swap_bytes_ aux_swap) ;;; ret r)
    (fun ex => modify (set_swap_bytes_ aux_swap) ;;; throw ex).

End Definitions.
