(* ===== verification/CdrContainerLaws.v ===== *)
(** * Containers keep the contract of their elements

    Instances of [Lawful] for vectors, arrays of class types, vectors of
    arithmetic types, optional values and maps: every container built from
    lawful codecs is lawful, in XCDRv1 and behind the delimiter headers of
    XCDRv2. *)

From Stdlib Require Import Sorted.
From S2P Require Import Prelude FastBuffer CdrState CdrInv CdrScalar CdrCodec CdrStrings CdrArrays CdrXcdr CdrContainers.

Section Laws.
Context `{P : Platform}.
Implicit Types c d : Cdr.

(** Two stored values, one after the other. *)
Lemma stored_bind {A B C} (m : M A) (k : A -> M C) (f : B -> C) a b c c1 c2 :
  ext c c1 -> ext c1 c2 -> stored m a c c1 ->
  (forall d, reader c1 d -> agree (offset_ c1) (offset_ c2) (mem c2) (mem d) -> offset_ c2 <= end_ d ->
     wp (k a) d (fun v' d' => v' = f b /\ advanced d d' /\ offset_ d' = offset_ c2) (fun _ _ => False)) ->
  stored (bind m k) (f b) c c2.
Proof.
  intros X1 X2 S1 S2 d R Ha He. pose proof (reader_nonneg _ _ R).
  pose proof (ext_offset _ _ X1). pose proof (ext_offset _ _ X2).
  apply wp_bind. eapply wp_mono; [apply S1; [done|by eapply agree_ext|lia]| |done].
  intros a' d1 (-> & A1 & O1). pose proof (advanced_end _ _ (rd_wf _ _ R) A1).
  eapply wp_mono; [apply S2| |done].
  - by eapply reader_advance; [exact (ext_config _ _ X1)| | |].
  - rewrite (advanced_mem _ _ A1). eapply agree_weaken; [exact Ha|lia|lia].
  - lia.
  - intros v' d2 (-> & A2 & O2). eauto using advanced_trans.
Qed.

(** ** Elements *)

Section Elements.
Context {A : Type} (k : codec A) `{K : !Lawful k}.

Lemma serialize_each_law vs c :
  Forall (valid k) vs -> wf c ->
  wp (serialize_each (ser k) vs) c
     (fun _ c' => ext c c' /\ offset_ c + zlen vs <= offset_ c' /\ (vs = [] -> c' = c) /\
        (offset_ c' < 2 ^ 32 -> forall more olds, length olds = length vs ->
           (forall o, offset_ c <= o < offset_ c' -> more o = true) ->
           stored (deserialize_over k more olds) vs c c'))
     (aborted c).
Proof.
  intros Hvs. revert c. induction Hvs as [|v vs Hv Hvs IH]; intros c W; simpl.
  - wp_steps. split; [by apply ext_refl|]. split; [unfold zlen; simpl; lia|]. split; [done|].
    intros _ more [|] Hl _; [|done]. intros d R _ _. simpl. wp_steps. split; [done|].
    split; [apply advanced_refl|]; apply R.
  - wp_steps. eapply wp_mono; [by apply K| |done]. intros [] c1 (X1 & P1 & St1).
    pose proof (ext_wf _ _ X1) as W1.
    eapply wp_mono; [by apply IH| |intros; by eapply aborted_ext].
    intros [] c2 (X2 & P2 & _ & St2). split; [by eapply ext_trans|].
    split; [unfold zlen in *; simpl; lia|]. split; [done|].
    intros Hb more [|o os] Hl Hmore; [done|]. injection Hl as Hl.
    pose proof (ext_offset _ _ X2). simpl.
    assert (Hst : stored (v0 <-- des k o ;; vs0 <-- deserialize_over k more os ;; ret (v0 :: vs0))
                         (v :: vs) c c2); [|intros d R Ha He; wp_steps; rewrite (rd_offset _ _ R);
                                            rewrite Hmore by lia; by apply Hst].
    apply (stored_bind (des k o) _ (cons v) v vs c c1 c2); try done; [apply St1; lia|].
    intros d R Ha He. wp_steps.
    eapply wp_mono; [apply (St2 ltac:(lia) more os); try done; intros; apply Hmore; lia| |done].
    intros vs' d' (-> & ?). by wp_steps.
Qed.

End Elements.

(** ** Delimiter headers *)

(** Going back to the saved state of a stream that only grew since. *)
Lemma ext_set_state c c3 : wf c -> ext c c3 -> ext c (set_state (get_state c) c3).
Proof.
  intros W [W3 [] O E Hm]. destruct W, W3. split; cdr_simpl; try done; try lia.
  split; cdr_simpl; try congruence; lia.
Qed.

Lemma reader_set_state c c3 d : ext c c3 -> reader c d <-> reader (set_state (get_state c) c3) d.
Proof.
  intros [_ [] _ _ _]. split; intros []; split; cdr_simpl; congruence.
Qed.

(** [set_xcdrv2_dheader] writes the size of what follows the header, and
    leaves the stream behind the data. *)
Lemma set_xcdrv2_dheader_spec c c3 :
  wf c -> ext c c3 -> cdr_version_ c = XCDRv2 -> aligned_pos 4 c + 4 <= offset_ c3 ->
  wp (set_xcdrv2_dheader (get_state c)) c3
     (fun _ c4 => ext c c4 /\ offset_ c4 = offset_ c3 /\
        agree (aligned_pos 4 c + 4) (offset_ c3) (mem c3) (mem c4) /\
        exists s, (offset_ c3 < 2 ^ 32 -> stored deserialize_uint32 (offset_ c3 - (aligned_pos 4 c + 4)) c s) /\
          offset_ s = aligned_pos 4 c + 4 /\ mem s = mem c4)
     (aborted c).
Proof.
  intros W X Hv Hp. pose proof (wf_offset _ W). pose proof (ext_wf _ _ X) as W3.
  pose proof (wf_offset _ W3).
  set (s := set_state (get_state c) c3). assert (Xs : ext c s) by by apply ext_set_state.
  pose proof (ext_wf _ _ Xs) as Ws. pose proof (aligned_pos_bounds 4 c int32_is_align).
  unfold set_xcdrv2_dheader. wp_steps. rewrite (sc_version _ _ (ext_config _ _ X)), Hv.
  rewrite bool_decide_eq_true_2 by done. wp_steps. fold s.
  rewrite alignment_eq by (done || apply int32_is_align).
  assert (Ep : offset_ s + (origin_ s - offset_ s) mod 4 = aligned_pos 4 c) by done.
  assert (Es : offset_ s = offset_ c) by done.
  pose proof (wf_end_bound _ W3). rewrite (size_t_small (offset_ c3 - offset_ s)) by lia.
  rewrite size_t_small by lia.
  replace (offset_ c3 - offset_ s - (4 + (origin_ s - offset_ s) mod 4))
    with (offset_ c3 - (aligned_pos 4 c + 4)) by lia.
  unfold serialize_uint32. set (x := u32 (u32 _)).
  assert (Hx : offset_ c3 < 2 ^ 32 -> x = offset_ c3 - (aligned_pos 4 c + 4))
    by (intros; unfold x; by rewrite !u32_small by (rewrite ?u32_small; lia)).
  assert (0 <= x < 2 ^ 32) by (apply Z.mod_pos_bound; lia).
  eapply wp_mono; [apply serialize_scalar_law; try done; try lia; apply int32_is_align| |].
  - intros [] s1 (X1 & _ & St & O1 & _ & Hag). wp_steps.
    assert (Em : end_ c3 <= end_ s1) by apply (ext_end _ _ X1).
    assert (O1' : offset_ s1 = aligned_pos 4 c + 4) by (rewrite O1; done).
    assert (Hmem : agree 0 (offset_ c) (mem c) (mem s1)).
    { etrans; [exact (ext_mem _ _ Xs)|exact (ext_mem _ _ X1)]. }
    split; [|split; [done|split]].
    + assert (Sc : same_config c s1)
        by (etrans; [exact (ext_config _ _ Xs)|exact (ext_config _ _ X1)]).
      pose proof (ext_fixed _ _ (ext_trans _ _ _ Xs X1)) as Fx.
      destruct X as [_ [] ? ? ? _], (ext_wf _ _ X1), Sc, W3. split; cdr_simpl; try lia; try done.
      split; cdr_simpl; try congruence; lia.
    + eapply agree_weaken; [exact Hag|lia|]. unfold s. cdr_simpl. lia.
    + exists s1. split; [|done]. intros Hb d R. rewrite <- (Hx Hb). apply (St d). by apply reader_set_state.
  - intros e c' Hr. eapply aborted_ext; [exact Xs|]. by apply rolled_back_aborted.
Qed.

(** [or_restore] turns a failure on the way into a clean one. *)
Lemma or_restore_spec {A} (m : M A) c0 c Q :
  wf c0 -> ext c0 c -> wp m c Q (aborted c) -> wp (or_restore (get_state c0) m) c Q (aborted c0).
Proof.
  intros W X H. unfold or_restore. wp_steps. eapply wp_mono; [exact H|done|].
  intros e c' Ha. wp_steps. apply rolled_back_aborted; [done|].
  apply aborted_set_state; [done|]. by eapply aborted_ext.
Qed.

(** ** Counted data, with or without a delimiter header

    [serialize_vector] and [serialize_map] share this frame. *)

Definition counted (n : Z) (body : M unit) : M unit :=
  dheader_state <-- allocate_xcdrv2_dheader ;;
  serialize_int32 n ;;;
  or_restore dheader_state body ;;;
  set_xcdrv2_dheader dheader_state.

Lemma stored_gets {A B} (f : Cdr -> B) (k : B -> M A) v c c' :
  (forall x, stored (k x) v c c') -> stored (x <-- gets f ;; k x) v c c'.
Proof. intros H d R Ha He. wp_steps. by apply H. Qed.

Lemma stored_version {A} (m2 m1 : M A) v c c' :
  stored (if bool_decide (XCDRv2 = cdr_version_ c) then m2 else m1) v c c' ->
  stored (x <-- gets cdr_version_ ;; if bool_decide (XCDRv2 = x) then m2 else m1) v c c'.
Proof. intros H d R Ha He. wp_steps. rewrite (rd_version _ _ R). by apply H. Qed.

Lemma stored_or_restore {A} (m : M A) v s c c' : stored m v c c' -> stored (or_restore s m) v c c'.
Proof.
  intros H d R Ha He. unfold or_restore. wp_steps. eapply wp_mono; [by apply H|done|done].
Qed.

(** What follows the delimiter header and the count is stored behind them:
    [c1] is the stream after the header was allocated, [c2] after the count,
    [c3] after the elements and [c4] after the header was filled. *)
Lemma stored_counted_v2 {B} (rest : Z -> Z -> Z -> M B) v n c c1 c2 c3 c4 s :
  ext c c1 -> ext c1 c2 -> ext c2 c3 ->
  offset_ c1 = aligned_pos 4 c + 4 -> offset_ c4 = offset_ c3 ->
  agree (aligned_pos 4 c + 4) (offset_ c3) (mem c3) (mem c4) ->
  stored deserialize_uint32 (offset_ c3 - (aligned_pos 4 c + 4)) c s ->
  offset_ s = aligned_pos 4 c + 4 -> mem s = mem c4 ->
  stored deserialize_uint32 n c1 c2 ->
  stored (rest (offset_ c3 - (aligned_pos 4 c + 4)) (aligned_pos 4 c + 4) n) v c2 c3 ->
  stored (dheader <-- deserialize_uint32 ;; start <-- gets offset_ ;;
          m <-- deserialize_uint32 ;; rest dheader start m) v c c4.
Proof.
  intros X1 X2 X3 O1 O4 Hag Sh Os Ms Sn Se d R Ha He.
  pose proof (reader_nonneg _ _ R). pose proof (ext_offset _ _ X1). pose proof (ext_offset _ _ X2).
  pose proof (ext_offset _ _ X3). pose proof (aligned_pos_bounds 4 c int32_is_align).
  assert (Ha3 : agree (offset_ c1) (offset_ c3) (mem c3) (mem d)).
  { etrans; eapply agree_weaken; [exact Hag|lia|lia|exact Ha|lia|lia]. }
  wp_steps. eapply wp_mono; [apply Sh; [done| |lia]| |done].
  { rewrite Ms. eapply agree_weaken; [exact Ha|lia|lia]. }
  intros ? d1 (-> & A1 & E1). pose proof (advanced_end _ _ (rd_wf _ _ R) A1).
  assert (R1 : reader c1 d1) by (eapply reader_advance; [exact (ext_config _ _ X1)|done|done|lia]).
  wp_steps. eapply wp_mono; [apply Sn; [done| |lia]| |done].
  { rewrite (advanced_mem _ _ A1). eapply agree_ext; [lia|exact X3|done]. }
  intros ? d2 (-> & A2 & E2). pose proof (advanced_end _ _ (rd_wf _ _ R1) A2).
  assert (R2 : reader c2 d2) by (eapply reader_advance; [exact (ext_config _ _ X2)|done|done|lia]).
  rewrite E1, Os. eapply wp_mono; [apply Se; [done| |lia]| |done].
  - rewrite (advanced_mem _ _ A2), (advanced_mem _ _ A1). eapply agree_weaken; [exact Ha3|lia|lia].
  - intros v' d3 (-> & A3 & E3). split; [done|].
    split; [by eapply advanced_trans; [|eapply advanced_trans]|lia].
Qed.

Lemma counted_law n body c (R : Cdr -> Cdr -> Prop) :
  wf c -> 0 <= n < 2 ^ 32 ->
  (forall c2, ext c c2 -> wp body c2 (fun _ c3 => ext c2 c3 /\ R c2 c3) (aborted c2)) ->
  wp (counted n body) c
     (fun _ c' => ext c c' /\ offset_ c < offset_ c' /\
        exists c2 c3 start, ext c2 c3 /\ R c2 c3 /\ offset_ c' = offset_ c3 /\
          0 <= start <= offset_ c2 /\
          (cdr_version_ c = XCDRv2 -> offset_ c' < 2 ^ 32 ->
             forall B (rest : Z -> Z -> Z -> M B) v,
             stored (rest (offset_ c3 - start) start n) v c2 c3 ->
             stored (dheader <-- deserialize_uint32 ;; st <-- gets offset_ ;;
                     m <-- deserialize_uint32 ;; rest dheader st m) v c c') /\
          (cdr_version_ c <> XCDRv2 -> forall B (rest : Z -> M B) v,
             stored (rest n) v c2 c3 -> stored (m <-- deserialize_uint32 ;; rest m) v c c'))
     (aborted c).
Proof.
  intros W Hn Hbody. unfold counted, allocate_xcdrv2_dheader, serialize_int32. wp_steps.
  pose proof (aligned_pos_bounds 4 c int32_is_align). pose proof (wf_offset _ W).
  destruct (decide (cdr_version_ c = XCDRv2)) as [Hv|Hv].
  - rewrite bool_decide_eq_true_2 by done. wp_steps.
    eapply wp_mono; [apply serialize_scalar_law; try done; try lia; apply int32_is_align| |auto using rolled_back_aborted].
    intros [] c1 (X1 & P1 & _ & O1 & _). pose proof (ext_wf _ _ X1) as W1. wp_steps.
    eapply wp_mono; [apply serialize_scalar_law; try done; try lia; apply int32_is_align| |
                     eauto using aborted_ext, rolled_back_aborted].
    intros [] c2 (X2 & P2 & Sn & O2 & _). assert (X12 : ext c c2) by eauto using ext_trans.
    wp_steps. eapply wp_mono; [apply or_restore_spec; [done|done|by apply Hbody]| |done].
    intros [] c3 (X3 & HR). pose proof (ext_offset _ _ X3).
    eapply wp_mono; [apply set_xcdrv2_dheader_spec; try done; [eauto using ext_trans|lia]| |done].
    intros [] c4 (X4 & O4 & Hag & s & Sh & Os & Ms). split; [done|]. split; [lia|].
    exists c2, c3, (aligned_pos 4 c + 4). split; [done|]. split; [done|]. split; [done|].
    split; [lia|]. split; [|done]. intros _ Hb B rest v Hst.
    eapply (stored_counted_v2 rest v n c c1 c2 c3 c4 s); try done; try lia. apply Sh. lia.
  - rewrite bool_decide_eq_false_2 by congruence. wp_steps.
    eapply wp_mono; [apply serialize_scalar_law; try done; try lia; apply int32_is_align| |
                     auto using rolled_back_aborted].
    intros [] c2 (X2 & P2 & Sn & O2 & _). wp_steps.
    eapply wp_mono; [apply or_restore_spec; [done|done|by apply Hbody]| |done].
    intros [] c3 (X3 & HR). unfold set_xcdrv2_dheader. wp_steps.
    pose proof (ext_offset _ _ X3). assert (X : ext c c3) by eauto using ext_trans.
    rewrite (sc_version _ _ (ext_config _ _ X)). rewrite bool_decide_eq_false_2 by congruence.
    wp_steps. split; [done|]. split; [lia|]. exists c2, c3, (offset_ c2).
    split; [done|]. split; [done|]. split; [done|]. split; [lia|]. split; [done|].
    intros _ B rest v Hst. by eapply (stored_bind deserialize_uint32 rest (fun x => x) n v c c2 c3).
Qed.

Lemma length_vector_resize {A} (dflt : A) n old : length (vector_resize dflt n old) = Z.to_nat n.
Proof. unfold vector_resize. rewrite length_app, length_take, length_replicate. lia. Qed.

Lemma zlen_0 {A} (vs : list A) : zlen vs = 0 -> vs = [].
Proof. destruct vs; [done|]. unfold zlen. simpl. lia. Qed.

(** Reading behind a delimiter header. *)
Lemma stored_delimited {A} (body : M A) v start c2 c3 :
  ext c2 c3 -> 0 <= start <= offset_ c2 -> offset_ c3 < 2 ^ 32 -> stored body v c2 c3 ->
  stored (delimited start (offset_ c3 - start) body) v c2 c3.
Proof.
  intros X Hs Hb St d R Ha He. pose proof (ext_offset _ _ X).
  unfold delimited. wp_steps. eapply wp_mono; [by apply St| |done].
  intros vs' d' (-> & Ad & O). wp_steps. rewrite O, size_t_small by lia.
  rewrite Z.eqb_refl. by wp_steps.
Qed.

Lemma before_true start here stop :
  0 <= start <= here -> here < stop -> stop < 2 ^ 32 -> before start (stop - start) here = true.
Proof. intros. unfold before. rewrite size_t_small by lia. lia. Qed.

(** A guard on the space left, as the sequences check it. *)
Lemma stored_remaining {A} n (no yes : M A) v c c' :
  0 <= n -> offset_ c + n <= offset_ c' -> stored yes v c c' ->
  stored (rest <-- gets remaining ;; if rest <? n then no else yes) v c c'.
Proof.
  intros Hn Ho St d R Ha He. wp_steps. unfold remaining. pose proof (rd_wf _ _ R) as W.
  pose proof (wf_end_bound _ W). pose proof (wf_offset _ W). pose proof (rd_offset _ _ R).
  rewrite size_t_small by lia. replace (end_ d - offset_ d <? n) with false by lia. by apply St.
Qed.

(** ** Vectors of class types *)

Section Vector.
Context {A : Type} (k : codec A) `{K : !Lawful k} (dflt : A).

Definition vector_codec : codec (list A) :=
  mkCodec _ (serialize_vector k) (deserialize_vector k dflt)
          (fun vs => Forall (valid k) vs /\ zlen vs < 2 ^ 32).

#[export] Instance vector_lawful : Lawful vector_codec.
Proof.
  intros vs c [Hvs Hl] W. cbn [ser des vector_codec].
  change (serialize_vector k vs) with (counted (u32 (zlen vs)) (serialize_each (ser k) vs)).
  pose proof (zlen_nonneg vs). rewrite u32_small by lia.
  eapply wp_mono; [apply counted_law; [done|lia|intros c2 X2; apply (serialize_each_law k); try done; apply (ext_wf _ _ X2)]| |done].
  intros [] c' (X & Hp & c2 & c3 & start & X3 & (P3 & Hnil & Se) & O & Hs & H2 & H1).
  split; [done|]. split; [done|]. intros Hb old. unfold deserialize_vector. apply stored_version.
  assert (Hln : length (vector_resize dflt (zlen vs) old) = length vs)
    by (rewrite length_vector_resize; unfold zlen; lia).
  assert (Hempty : zlen vs = 0 -> stored (ret []) vs c2 c3).
  { intros E. apply zlen_0 in E as ->. rewrite (Hnil eq_refl). intros d R _ _. wp_steps.
    split; [done|]. split; [apply advanced_refl|]; apply R. }
  destruct (decide (cdr_version_ c = XCDRv2)) as [Hv|Hv].
  - rewrite bool_decide_eq_true_2 by done.
    apply (H2 Hv Hb _ (fun dheader offset n => if 0 =? n then ret [] else
      delimited offset dheader (deserialize_over k (before offset dheader) (vector_resize dflt n old)))).
    cbn beta. destruct (Z.eqb_spec 0 (zlen vs)); [auto|]. apply stored_delimited; try done; [lia|].
    apply Se; [lia|done|]. intros o Ho. apply before_true; lia.
  - rewrite bool_decide_eq_false_2 by congruence. apply stored_gets. intros st.
    apply (H1 Hv _ (fun n => if n =? 0 then ret [] else _)). cbn beta.
    destruct (Z.eqb_spec (zlen vs) 0); [auto|]. apply stored_remaining; [lia|lia|].
    apply stored_or_restore. apply Se; [lia|done|done].
Qed.

(** The sequences of strings decode into fresh objects. *)
Lemma stored_sequence_of (ks : codec (list Z)) vs c c' c2 c3 start :
  zlen vs < 2 ^ 32 -> offset_ c' < 2 ^ 32 -> ext c2 c3 -> offset_ c' = offset_ c3 ->
  0 <= start <= offset_ c2 ->
  (forall more olds, length olds = length vs -> (forall o, offset_ c2 <= o < offset_ c3 -> more o = true) ->
     stored (deserialize_over ks more olds) vs c2 c3) ->
  (cdr_version_ c = XCDRv2 -> offset_ c' < 2 ^ 32 -> forall B (rest : Z -> Z -> Z -> M B) v,
     stored (rest (offset_ c3 - start) start (zlen vs)) v c2 c3 ->
     stored (dheader <-- deserialize_uint32 ;; st <-- gets offset_ ;;
             m <-- deserialize_uint32 ;; rest dheader st m) v c c') ->
  (cdr_version_ c <> XCDRv2 -> forall B (rest : Z -> M B) v,
     stored (rest (zlen vs)) v c2 c3 -> stored (m <-- deserialize_uint32 ;; rest m) v c c') ->
  stored (deserialize_sequence_of ks) vs c c'.
Proof.
  intros Hl Hb X3 O Hs Se H2 H1. unfold deserialize_sequence_of. apply stored_version.
  assert (Hln : length (replicate (Z.to_nat (zlen vs)) (@nil Z)) = length vs)
    by (rewrite length_replicate; unfold zlen; lia).
  destruct (decide (cdr_version_ c = XCDRv2)) as [Hv|Hv].
  - rewrite bool_decide_eq_true_2 by done.
    apply (H2 Hv Hb _ (fun dheader offset n =>
      delimited offset dheader (deserialize_over ks (before offset dheader) (replicate (Z.to_nat n) [])))).
    apply stored_delimited; try done; [lia|]. apply Se; [done|]. intros o Ho. apply before_true; lia.
  - rewrite bool_decide_eq_false_2 by congruence. apply stored_gets. intros st.
    apply (H1 Hv _ (fun n => or_restore st _)). apply stored_or_restore. by apply Se.
Qed.

End Vector.

(** ** Vectors of arithmetic types *)

Section VectorArith.
Context (k : arith) `{K : !LawfulArith k}.

Definition vector_arith_codec : codec (list Z) :=
  mkCodec _ (serialize_vector_arith k) (fun _ => deserialize_vector_arith k)
          (fun vs => Forall (in_range k) vs /\ zlen vs < 2 ^ 32).

#[export] Instance vector_arith_lawful : Lawful vector_arith_codec.
Proof.
  intros vs c [Hvs Hl] W. cbn [ser des vector_arith_codec]. unfold serialize_vector_arith, serialize_int32.
  pose proof (zlen_nonneg vs). rewrite u32_small by lia. wp_steps.
  eapply wp_mono; [apply serialize_scalar_law; try done; try lia; apply int32_is_align| |
                   auto using rolled_back_aborted].
  intros [] c1 (X1 & P1 & Sn & _). pose proof (ext_wf _ _ X1) as W1. wp_steps.
  eapply wp_mono; [apply or_restore_spec; [done|done|]| |done].
  { eapply wp_mono; [by apply K| |intros; by apply rolled_back_aborted].
    intros a b Hab. exact Hab. }
  intros [] c2 (X2 & P2 & Hnil & Se & _). wp_steps. pose proof (ext_offset _ _ X2).
  assert (St : stored (deserialize_vector_arith k) vs c c2).
  { unfold deserialize_vector_arith. apply stored_gets. intros st.
    apply (stored_bind deserialize_uint32
             (fun n => if n =? 0 then ret [] else _) (fun x => x) (zlen vs) vs c c1 c2); try done.
    destruct (Z.eqb_spec (zlen vs) 0) as [E|E].
    - apply zlen_0 in E as ->. intros d R Ha He. wp_steps. split; [done|].
      split; [apply advanced_refl; apply R|]. rewrite (rd_offset _ _ R), (Hnil eq_refl). done.
    - apply stored_remaining; [lia|lia|]. by apply stored_or_restore. }
  destruct (bool_decide _); wp_steps; (split; [eauto using ext_trans, ext_sms|]; split; [cdr_simpl; lia|]); done.
Qed.

End VectorArith.

(** ** Maps *)

Section Map.
Context {K A : Type} (kk : codec K) (ka : codec A) `{Kk : !Lawful kk} `{Ka : !Lawful ka}.
Context (dk : K) (da : A) (ltb : K -> K -> bool).

(** The pairs of a [std::map]: their keys strictly increase. *)
Definition key_lt (p q : K * A) : Prop := ltb p.1 q.1 = true /\ ltb q.1 p.1 = false.
Definition map_pairs (ps : list (K * A)) : Prop := StronglySorted key_lt ps.

Lemma emplace_last key value ps :
  Forall (fun p => key_lt p (key, value)) ps -> emplace ltb key value ps = ps ++ [(key, value)].
Proof.
  induction 1 as [|p ps [H1 H2] _ IH]; simpl; [done|]. simpl in H1, H2. by rewrite H2, H1, IH.
Qed.

Lemma map_pairs_before acc p ps : map_pairs (acc ++ p :: ps) -> Forall (fun q => key_lt q p) acc.
Proof.
  unfold map_pairs. induction acc as [|q acc IH]; simpl; [done|]. inversion 1 as [|? ? Hs Hf]; subst.
  constructor; [|by apply IH]. apply Forall_app in Hf as [_ Hf]. by inversion Hf.
Qed.

Lemma serialize_pairs_law ps c :
  Forall (fun p => valid kk p.1 /\ valid ka p.2) ps -> wf c ->
  wp (serialize_each (serialize_pair kk ka) ps) c
     (fun _ c' => ext c c' /\ (offset_ c' < 2 ^ 32 -> forall more acc, map_pairs (acc ++ ps) ->
           (forall o, offset_ c <= o < offset_ c' -> more o = true) ->
           stored (deserialize_pairs kk ka dk da ltb (length ps) more acc) (acc ++ ps) c c'))
     (aborted c).
Proof.
  intros Hps. revert c. induction Hps as [|[key value] ps [Hk Hv] Hps IH]; intros c W; simpl.
  - wp_steps. split; [by apply ext_refl|]. intros _ more acc _ _ d R _ _. wp_steps. rewrite app_nil_r.
    split; [done|]. split; [apply advanced_refl|]; apply R.
  - unfold serialize_pair at 1. simpl in Hk, Hv |- *. wp_steps.
    eapply wp_mono; [by apply Kk| |done]. intros [] c1 (X1 & P1 & S1).
    eapply wp_mono; [apply Ka; [done|apply (ext_wf _ _ X1)]| |intros; by eapply aborted_ext].
    intros [] c2 (X2 & P2 & S2). assert (X12 : ext c c2) by eauto using ext_trans.
    eapply wp_mono; [apply IH; apply (ext_wf _ _ X12)| |intros; by eapply aborted_ext].
    intros [] c3 (X3 & S3). assert (X13 : ext c1 c3) by eauto using ext_trans.
    split; [eauto using ext_trans|]. intros Hb more acc Hm Hmore.
    pose proof (ext_offset _ _ X2). pose proof (ext_offset _ _ X3).
    assert (Hst : stored (key <-- des kk dk ;; value <-- des ka da ;;
       deserialize_pairs kk ka dk da ltb (length ps) more (emplace ltb key value acc))
       (acc ++ (key, value) :: ps) c c3);
      [|intros d R Ha He; wp_steps; rewrite (rd_offset _ _ R), Hmore by lia; by apply Hst].
    apply (stored_bind _ _ (fun x => x) key (acc ++ (key, value) :: ps) c c1 c3); try done; [apply S1; lia|].
    apply (stored_bind _ _ (fun x => x) value (acc ++ (key, value) :: ps) c1 c2 c3); try done; [apply S2; lia|].
    rewrite emplace_last by (by eapply map_pairs_before).
    replace (acc ++ (key, value) :: ps) with ((acc ++ [(key, value)]) ++ ps) in * by by rewrite <- app_assoc.
    apply S3; [done|done|]. intros; apply Hmore; lia.
Qed.

Definition map_codec : codec (list (K * A)) :=
  mkCodec _ (serialize_map kk ka) (deserialize_map kk ka dk da ltb)
          (fun ps => Forall (fun p => valid kk p.1 /\ valid ka p.2) ps /\ map_pairs ps /\ zlen ps < 2 ^ 32).

#[export] Instance map_lawful : Lawful map_codec.
Proof.
  intros ps c (Hps & Hm & Hl) W. cbn [ser des map_codec].
  change (serialize_map kk ka ps) with (counted (u32 (zlen ps)) (serialize_each (serialize_pair kk ka) ps)).
  pose proof (zlen_nonneg ps). rewrite u32_small by lia.
  eapply wp_mono; [apply counted_law; [done|lia|
    intros c2 X2; apply serialize_pairs_law; try done; apply (ext_wf _ _ X2)]| |done].
  intros [] c' (X & Hp & c2 & c3 & start & X3 & Se & O & Hs & H2 & H1).
  split; [done|]. split; [done|]. intros Hb old. unfold deserialize_map. apply stored_version.
  assert (El : Z.to_nat (zlen ps) = length ps) by (unfold zlen; lia).
  destruct (decide (cdr_version_ c = XCDRv2)) as [Hv|Hv].
  - rewrite bool_decide_eq_true_2 by done.
    apply (H2 Hv Hb _ (fun dheader offset n => delimited offset dheader
             (deserialize_pairs kk ka dk da ltb (Z.to_nat n) (before offset dheader) []))).
    rewrite El. apply stored_delimited; try done; [lia|]. apply (Se ltac:(lia) _ []); [done|].
    intros o Ho. apply before_true; lia.
  - rewrite bool_decide_eq_false_2 by congruence. apply stored_gets. intros st.
    apply (H1 Hv _ (fun n => or_restore st _)). rewrite El. apply stored_or_restore.
    by apply (Se ltac:(lia) _ []).
Qed.

End Map.

(** ** Optional values *)

Section Optional.
Context {A : Type} (k : codec A) `{K : !Lawful k} (dflt : A).

(** In XCDRv2, outside of a parameter list, an optional value is a boolean and
    the value if there is one. *)
Lemma serialize_optional_law v c :
  wf c -> cdr_version_ c = XCDRv2 -> current_encoding_ c <> PL_CDR2 ->
  (forall a, v = Some a -> valid k a) ->
  wp (serialize_optional k v) c
     (fun _ c' => ext c c' /\ offset_ c < offset_ c' /\
        (offset_ c' < 2 ^ 32 -> stored (deserialize_optional k dflt) v c c'))
     (aborted c).
Proof.
  intros W Hv He Hval. unfold serialize_optional. wp_steps.
  rewrite Hv, bool_decide_eq_true_2, bool_decide_eq_false_2 by congruence. simpl.
  eapply wp_mono; [by apply (bool_lawful (bool_decide (is_Some v)))| |done].
  intros [] c1 (X1 & P1 & S1). cbn [ser des bool_codec] in S1.
  assert (Hrd : forall c', ext c1 c' -> offset_ c' < 2 ^ 32 ->
     stored (if bool_decide (is_Some v) then a <-- des k dflt ;; ret (Some a) else ret None) v c1 c' ->
     stored (deserialize_optional k dflt) v c c').
  { intros c' X' Hb St d R Ha Hend. unfold deserialize_optional. wp_steps.
    rewrite (rd_version _ _ R), (rd_encoding _ _ R), Hv.
    rewrite bool_decide_eq_true_2, (bool_decide_eq_false_2 (PL_CDR2 = _)) by congruence. simpl.
    pose proof (ext_offset _ _ X').
    pose proof (stored_bind _ (fun p : bool => if p then a <-- des k dflt ;; ret (Some a) else ret None)
                  (fun x => x) _ v c c1 c' X1 X' (S1 ltac:(lia) true) St d R Ha Hend) as Hg.
    by apply wp_bind_inv. }
  destruct v as [a|].
  - eapply wp_mono; [apply K; [by apply Hval|apply (ext_wf _ _ X1)]| |intros; by eapply aborted_ext].
    intros [] c2 (X2 & P2 & S2). split; [eauto using ext_trans|]. split; [lia|]. intros Hb.
    apply Hrd; try done. simpl. intros d R Ha Hend. wp_steps.
    eapply wp_mono; [by apply (S2 Hb dflt d)| |done]. intros v' d' (-> & ?). by wp_steps.
  - wp_steps. split; [done|]. split; [done|]. intros Hb. apply Hrd; [by apply ext_refl, (ext_wf _ _ X1)|done|].
    intros d R _ _. simpl. wp_steps. split; [done|]. split; [apply advanced_refl|]; apply R.
Qed.

End Optional.

(** ** Arrays of class types *)

Section Array.
Context {A : Type} (k : codec A) `{K : !Lawful k}.

(** [std::array] of class types: the object read into has the size of the one
    written. *)
Lemma serialize_std_array_law vs c :
  Forall (valid k) vs -> wf c ->
  wp (serialize_std_array k vs) c
     (fun _ c' => ext c c' /\ (offset_ c' < 2 ^ 32 -> forall old, length old = length vs ->
                     stored (deserialize_std_array k old) vs c c'))
     (aborted c).
Proof.
  intros Hvs W. unfold serialize_std_array, allocate_xcdrv2_dheader. wp_steps.
  pose proof (aligned_pos_bounds 4 c int32_is_align). pose proof (wf_offset _ W).
  destruct (decide (cdr_version_ c = XCDRv2)) as [Hv|Hv].
  - rewrite bool_decide_eq_true_2 by done. wp_steps.
    eapply wp_mono; [apply serialize_scalar_law; try done; try lia; apply int32_is_align| |auto using rolled_back_aborted].
    intros [] c1 (X1 & P1 & _ & O1 & _). wp_steps.
    eapply wp_mono; [apply (serialize_each_law k); [done|apply (ext_wf _ _ X1)]| |intros; by eapply aborted_ext].
    intros [] c3 (X3 & P3 & _ & Se). pose proof (ext_offset _ _ X3).
    eapply wp_mono; [apply set_xcdrv2_dheader_spec; try done; [eauto using ext_trans|lia]| |done].
    intros [] c4 (X4 & O4 & Hag & s & Sh & Os & Ms). split; [done|]. intros Hb old Hl.
    unfold deserialize_std_array. apply stored_version. rewrite bool_decide_eq_true_2 by done.
    intros d R Ha He. wp_steps. eapply wp_mono; [apply (Sh ltac:(lia)); [done| |lia]| |done].
    { rewrite Ms. eapply agree_weaken; [exact Ha|lia|lia]. }
    intros ? d1 (-> & A1 & E1). pose proof (advanced_end _ _ (rd_wf _ _ R) A1). wp_steps. rewrite E1, Os.
    eapply wp_mono; [apply (stored_delimited (deserialize_over k _ old) vs (aligned_pos 4 c + 4) c1 c3);
                     [done|lia|lia|apply Se; [lia|done|intros; apply before_true; lia]| | |lia]| |done].
    + eapply reader_advance; [exact (ext_config _ _ X1)|done|done|lia].
    + rewrite (advanced_mem _ _ A1).
      etrans; eapply agree_weaken; [exact Hag|lia|lia|exact Ha|lia|lia].
    + intros v' d2 (-> & A2 & E2). split; [done|]. split; [by eapply advanced_trans|lia].
  - rewrite bool_decide_eq_false_2 by congruence. wp_steps.
    eapply wp_mono; [by apply (serialize_each_law k)| |done].
    intros [] c3 (X3 & P3 & _ & Se). unfold set_xcdrv2_dheader. wp_steps.
    rewrite (sc_version _ _ (ext_config _ _ X3)), bool_decide_eq_false_2 by congruence. wp_steps.
    split; [done|]. intros Hb old Hl. unfold deserialize_std_array. apply stored_version.
    rewrite bool_decide_eq_false_2 by congruence. by apply Se.
Qed.

End Array.

(** ** Wide strings *)

Definition wchar_codec : codec Z :=
  mkCodec _ serialize_wchar (fun _ => deserialize_uint16) (fun ch => 0 <= ch < 2 ^ 16).

Lemma serialize_wchar_law ch c :
  0 <= ch < 2 ^ 16 -> wf c ->
  wp (serialize_wchar ch) c
     (fun _ c' => ext c c' /\ offset_ c < offset_ c' /\ stored deserialize_uint16 ch c c' /\
                  offset_ c' = aligned_pos 2 c + 2)
     (rolled_back c).
Proof.
  intros Hch W. unfold serialize_wchar, serialize_uint16, serialize_int16.
  rewrite !(u16_small ch) by done.
  eapply wp_mono; [apply serialize_scalar_law; try done; try lia; unfold is_align; lia| |done].
  intros [] c' (X & Hp & St & O & _). auto.
Qed.

#[export] Instance wchar_lawful : Lawful wchar_codec.
Proof.
  intros ch c Hch W. eapply wp_mono; [by apply serialize_wchar_law| |auto using rolled_back_aborted].
  intros [] c' (X & Hp & St & _). auto.
Qed.

(** On an even position, wide characters are not padded. *)
Lemma serialize_wchars_size ws c :
  Forall (fun ch => 0 <= ch < 2 ^ 16) ws -> wf c -> (origin_ c - offset_ c) mod 2 = 0 ->
  wp (serialize_each serialize_wchar ws) c
     (fun _ c' => offset_ c' = offset_ c + 2 * zlen ws) (fun _ _ => True).
Proof.
  intros Hws. revert c. induction Hws as [|ch ws Hch _ IH]; intros c W He; simpl.
  - wp_steps. unfold zlen; simpl. lia.
  - wp_steps. eapply wp_mono; [by apply serialize_wchar_law| |done].
    intros [] c1 (X1 & _ & _ & O1). unfold aligned_pos in O1.
    eapply wp_mono; [apply IH; [apply (ext_wf _ _ X1)|]| |done].
    + rewrite (sc_origin _ _ (ext_config _ _ X1)), O1, He.
      replace (origin_ c - (offset_ c + 0 + 2)) with (origin_ c - offset_ c + (-1) * 2) by lia.
      by rewrite Z_mod_plus_full.
    + cbn beta. intros _ c' E. unfold zlen in *. simpl. lia.
Qed.

Lemma deserialize_each_over {B} (m : M B) ser val x n c :
  deserialize_over (mkCodec _ ser (fun _ => m) val) (fun _ => true) (replicate n x) c = deserialize_each m n c.
Proof.
  revert c. induction n as [|n IH]; intros c; simpl; [done|]. unfold bind at 1, gets. unfold bind at 1 3.
  destruct (m c) as [a c'| | |]; try done. unfold bind. by rewrite IH.
Qed.

Lemma grown_ext c c' : wf c -> grown c c' -> ext c c'.
Proof.
  intros W G. pose proof (grown_fields _ _ G) as (S & O & _). pose proof (wf_offset _ W).
  destruct G. split; try done; [lia|]. eapply agree_weaken; [done|lia|lia].
Qed.

Lemma stored_read_wstring s c c1 c2 c3 :
  0 < zlen s < 2 ^ 31 -> List.last s 0 <> 0 -> ext c c1 -> ext c1 c2 -> offset_ c2 = offset_ c1 -> ext c2 c3 ->
  (origin_ c1 - offset_ c1) mod 2 = 0 -> offset_ c3 = offset_ c2 + 2 * zlen s ->
  stored deserialize_uint32 (zlen s) c c1 ->
  stored (deserialize_over wchar_codec (fun _ => true) (replicate (length s) 0)) s c2 c3 ->
  stored deserialize_wstring s c c3.
Proof.
  intros Hl Hlast X1 X2 O2 X3 Hev O3 Sn Sw. unfold deserialize_wstring.
  assert (H : stored read_wstring (s, zlen s) c c3).
  { apply stored_gets. intros st.
    eapply (stored_bind deserialize_uint32 _ (fun x => x) (zlen s) (s, zlen s) c c1 c3); try done;
      [eauto using ext_trans|].
    intros d R Ha He. pose proof (rd_wf _ _ R) as Wd. rewrite u32_small by lia.
    cbv beta zeta. destruct (Z.eqb_spec (zlen s * 2) 0); [lia|]. wp_steps.
    pose proof (rd_offset _ _ R) as Ro. pose proof (rd_origin _ _ R) as Rg.
    apply has_data_true; [done|lia|lia|]. wp_steps.
    assert (Wd2 : wf (set_last_data_size_ 2 d)).
    { destruct Wd. split; cdr_simpl; try done. split; [lia|]. intros _. congruence. }
    unfold deserialize_array_wchar. replace (zlen s =? 0) with false by lia.
    replace (Z.to_nat (zlen s)) with (length s) by (unfold zlen; lia).
    assert (Hd : wp (deserialize_each deserialize_uint16 (length s)) (set_last_data_size_ 2 d)
                   (fun v' d' => v' = s /\ advanced (set_last_data_size_ 2 d) d' /\ offset_ d' = offset_ c3)
                   (fun _ _ => False)).
    { unfold wp. rewrite <- (deserialize_each_over _ serialize_wchar (fun ch => 0 <= ch < 2 ^ 16) 0).
      apply Sw; [|by rewrite O2|done].
      destruct R. pose proof (ext_config _ _ X2) as []. split; cdr_simpl; try done; congruence. }
    eapply wp_mono; [exact Hd| |done]. intros ws d' (-> & Ad & O). cbn beta.
    replace (List.last s 0 =? 0) with false by lia. wp_steps. split; [done|]. split; [|done].
    destruct Ad as [? S ? ?]. split; cdr_simpl; try done. destruct S. by split. }
  intros d R Ha He. wp_steps. eapply wp_mono; [by apply H| |done]. intros r d' (-> & ?). by wp_steps.
Qed.

Lemma last_Forall (Q : Z -> Prop) s x : Forall Q s -> s <> [] -> Q (List.last s x).
Proof.
  induction 1 as [|a s Ha Hs IH]; [done|]. intros _. destruct s; [done|]. by apply IH.
Qed.

#[export] Instance wstring_lawful : Lawful wstring_codec.
Proof.
  intros s c [Hs Hl] W. cbn [ser des wstring_codec]. pose proof (zlen_nonneg s).
  unfold serialize_wstring. rewrite c_str_id by (eapply Forall_impl; [|exact Hs]; simpl; lia).
  unfold serialize_wcstring. rewrite size_t_small, (u32_small (zlen s * 2)) by lia.
  unfold serialize_uint32, serialize_int32.
  destruct (Z.gtb_spec (zlen s * 2) 0) as [Hz|Hz].
  - wp_steps. rewrite (u32_small (u32 _)), (u32_small (zlen s)) by (rewrite ?u32_small; lia).
    eapply wp_mono; [apply serialize_scalar_law; try done; try lia; apply int32_is_align| |
                     auto using rolled_back_aborted].
    intros [] c1 (X1 & P1 & Sn & O1 & _). pose proof (ext_wf _ _ X1) as W1. wp_steps.
    assert (Hev : (origin_ c1 - offset_ c1) mod 2 = 0).
    { rewrite (sc_origin _ _ (ext_config _ _ X1)), O1. unfold aligned_pos.
      pose proof (Z.div_mod (origin_ c - offset_ c) 4 ltac:(lia)).
      replace (origin_ c - (offset_ c + (origin_ c - offset_ c) mod 4 + Z.of_nat 4))
        with ((2 * ((origin_ c - offset_ c) / 4) - 2) * 2) by lia. apply Z_mod_mult. }
    apply has_room_spec; [done|lia| |].
    + intros c2 G Hr. pose proof (grown_ext _ _ W1 G) as X2. pose proof (grown_fields _ _ G) as (S2 & O2 & _).
      assert (Hs' : Forall (fun ch => 0 <= ch < 2 ^ 16) s) by (eapply Forall_impl; [|exact Hs]; simpl; lia).
      unfold serialize_array_wchar. simpl default. replace (zlen s =? 0) with false by lia.
      assert (X12 : ext c c2) by eauto using ext_trans.
      eapply wp_mono; [apply wp_and;
        [apply (serialize_each_law wchar_codec s c2 Hs'); apply X2
        |apply serialize_wchars_size; [done|apply X2|]]| |].
      * by rewrite (sc_origin _ _ S2), O2.
      * intros [] c3 ((X3 & P3 & _ & Se) & O3). split; [eauto using ext_trans|]. split; [lia|].
        intros Hb _. eapply (stored_read_wstring s c c1 c2 c3); try done; try lia.
        -- enough (0 < List.last s 0 < 2 ^ 16) by lia. apply (last_Forall (fun ch => 0 < ch < 2 ^ 16)); [done|].
           intros ->. done.
        -- apply Se; [lia|by rewrite length_replicate|done].
      * intros e c' [Hab _]. by eapply aborted_ext.
    + intros c2 U. wp_steps. apply rolled_back_aborted; [done|]. apply aborted_set_state; [done|].
      split; [done|]. by exists c1.
  - assert (s = []) as -> by (apply zlen_0; lia). wp_steps. change (u32 (zlen [] * 2)) with 0.
    eapply wp_mono; [apply serialize_scalar_law; try done; try lia; apply int32_is_align| |
                     auto using rolled_back_aborted].
    intros [] c1 (X1 & P1 & Sn & O1 & _). split; [done|]. split; [done|]. intros _ _ d R Ha He.
    unfold deserialize_wstring, read_wstring. wp_steps.
    eapply wp_mono; [by apply Sn| |done]. intros n d' (-> & ?). simpl. wp_steps. done.
Qed.

End Laws.
