(* ===== verification/CdrSafety.v ===== *)
(** * Decoding arbitrary bytes is memory safe

    A deserializer is [Safe] when, from any well-formed stream and whatever the
    bytes are, it terminates, reads nothing outside of the buffer, and leaves a
    well-formed stream, not before its starting position, on the normal path
    and on the exceptional one.  The instances cover the primitives, strings,
    arrays and every container of [CdrContainers]. *)

From S2P Require Import Prelude FastBuffer CdrState CdrInv CdrScalar CdrCodec CdrStrings CdrArrays CdrXcdr CdrContainers.

(** The buffer holds octets. *)
Definition octets (d : Cdr) : Prop := Forall is_byte (mem d).

Lemma advanced_octets d d' : octets d -> advanced d d' -> octets d'.
Proof. unfold octets. intros B Ad. by rewrite (advanced_mem _ _ Ad). Qed.

Class Safe {A} (m : M A) : Prop := safe :
  forall d, wf d -> octets d -> wp m d (fun _ d' => advanced d d') (fun _ d' => advanced d d').

Section Safety.
Context `{P : Platform}.
Implicit Types c d : Cdr.

(** ** Composition *)

#[export] Instance safe_ret {A} (a : A) : Safe (ret a).
Proof. intros d W B. wp_steps. by apply advanced_refl. Qed.

#[export] Instance safe_throw {A} e : Safe (@throw A e).
Proof. intros d W B. wp_steps. by apply advanced_refl. Qed.

#[export] Instance safe_gets {A} (f : Cdr -> A) : Safe (gets f).
Proof. intros d W B. wp_steps. by apply advanced_refl. Qed.

#[export] Instance safe_bind {A B} (m : M A) (k : A -> M B) :
  Safe m -> (forall a, Safe (k a)) -> Safe (bind m k).
Proof.
  intros Hm Hk d W B0. wp_steps. eapply wp_mono; [by apply Hm| |done]. intros a d1 A1.
  eapply wp_mono; [apply Hk; [apply A1|by eapply advanced_octets]| |]; cbv beta in *; eauto using advanced_trans.
Qed.

#[export] Instance safe_if {A} (b : bool) (m1 m2 : M A) : Safe m1 -> Safe m2 -> Safe (if b then m1 else m2).
Proof. by destruct b. Qed.

(** Going back to where a stream was. *)
Lemma advanced_set_state d d' : wf d -> advanced d d' -> advanced d (set_state (get_state d) d').
Proof.
  intros W [W' S' ? Hb]. destruct W as [? We ? ? ? ?]. destruct (S'). destruct W' as [? We' ? ? ? ?].
  rewrite Hb in *. split; cdr_simpl; try done; try lia.
  - split; cdr_simpl; try done; try congruence; lia.
  - split; cdr_simpl; done || congruence.
Qed.

(** [state_before_error(this)], and a failure that restores it. *)
Definition restoring {A} (k : state -> M A) : M A := st <-- gets get_state ;; k st.

Lemma safe_restoring {A} (k : state -> M A) :
  (forall d0 d, wf d0 -> octets d0 -> advanced d0 d ->
     wp (k (get_state d0)) d (fun _ d' => advanced d0 d') (fun _ d' => advanced d0 d')) ->
  Safe (st <-- gets get_state ;; k st).
Proof. intros H d W B. wp_steps. apply H; [done|done|by apply advanced_refl]. Qed.

Lemma wp_safe {A} (m : M A) d0 d (Q : A -> Cdr -> Prop) (E : exn -> Cdr -> Prop) :
  Safe m -> octets d0 -> advanced d0 d -> (forall a d', advanced d0 d' -> Q a d') ->
  (forall e d', advanced d0 d' -> E e d') -> wp m d Q E.
Proof.
  intros Hm B Ad HQ HE.
  eapply wp_mono; [apply Hm; [apply Ad|by eapply advanced_octets]| |]; eauto using advanced_trans.
Qed.

Lemma wp_or_restore {A} (m : M A) d0 d :
  Safe m -> wf d0 -> octets d0 -> advanced d0 d ->
  wp (or_restore (get_state d0) m) d (fun _ d' => advanced d0 d') (fun _ d' => advanced d0 d').
Proof.
  intros Hm W B Ad. unfold or_restore. wp_steps. eapply wp_safe; [done|done|done|done|].
  intros e d' Ad'. wp_steps. by apply advanced_set_state.
Qed.

Lemma wp_fail_restore {A} d0 d e :
  wf d0 -> advanced d0 d ->
  wp (modify (set_state (get_state d0)) ;;; @throw A e) d
     (fun _ d' => advanced d0 d') (fun _ d' => advanced d0 d').
Proof. intros W Ad. wp_steps. by apply advanced_set_state. Qed.

(** ** Guarded reads *)

Lemma has_data_spec n d R E :
  wf d -> (offset_ d + n <= end_ d -> R true d) -> R false d -> wp (has_data n) d R E.
Proof.
  intros W Ht Hf. pose proof (wf_end_bound _ W). pose proof (wf_offset _ W).
  unfold has_data. wp_steps. unfold remaining. rewrite size_t_small by lia.
  destruct (Z.geb_spec (end_ d - offset_ d) n); [apply Ht; lia|done].
Qed.

(** A continuation that reads [n] bytes that are there. *)
Definition consumes {A} (n : Z) (k : M A) : Prop :=
  forall d, wf d -> last_data_size_ d <= 1 -> offset_ d + n <= end_ d ->
  wp k d (fun _ d' => advanced d d' /\ last_data_size_ d' <= 1 /\ offset_ d' <= offset_ d + n)
         (fun _ d' => advanced d d').

Lemma consumes_get n : 0 <= n -> consumes n (get n).
Proof.
  intros Hn d W Hl He. pose proof (wf_mem_length _ W). pose proof (wf_offset _ W).
  apply get_spec; [lia|lia|lia|]. intros bs _ _. split; [by apply advanced_set_offset|].
  cdr_simpl. lia.
Qed.

Lemma consumes_ret {A B} n (m : M A) (f : A -> B) : consumes n m -> consumes n (x <-- m ;; ret (f x)).
Proof. intros H d W Hl He. wp_steps. eapply wp_mono; [by apply H| |done]. intros a d' ?. by wp_steps. Qed.

Lemma consumes_each {A} n (m : M A) k :
  0 <= n -> consumes n m -> consumes (n * Z.of_nat k) (deserialize_each m k).
Proof.
  intros Hn Hm. induction k as [|k IH]; intros d W Hl He; simpl.
  - wp_steps. split; [by apply advanced_refl|]. lia.
  - wp_steps. eapply wp_mono; [apply Hm; [done|done|lia]| |done].
    intros a d1 (A1 & L1 & O1). pose proof (advanced_end _ _ W A1).
    wp_steps. eapply wp_mono; [apply IH; [apply A1|done|lia]| |].
    + intros vs d2 (A2 & L2 & O2). wp_steps. split; [by eapply advanced_trans|]. lia.
    + intros e d2 A2. by eapply advanced_trans.
Qed.

Lemma consumes_octets {A} n (k : M A) : 0 <= n -> consumes n k -> Safe (get_octets n k).
Proof.
  intros Hn Hk d W _. unfold get_octets. wp_steps. apply has_data_spec; [done| |].
  - intros He. wp_steps.
    assert (W1 : wf (set_last_data_size_ 1 d)) by (destruct W; split; cdr_simpl; try done; lia).
    assert (A1 : advanced d (set_last_data_size_ 1 d)) by (split; cdr_simpl; try done; lia).
    eapply wp_mono; [apply Hk; [done|cdr_simpl; lia|done]| |].
    + intros a d' (Ad & _). by eapply advanced_trans.
    + intros e d' Ad. by eapply advanced_trans.
  - wp_steps. by apply advanced_refl.
Qed.

Lemma consumes_aligned {A} al n (k : bool -> M A) :
  is_align al -> 0 <= n < 2 ^ 63 -> (forall swap, consumes n (k swap)) -> Safe (get_aligned al n k).
Proof.
  intros Hal Hn Hk d W _. unfold get_aligned. wp_steps. rewrite alignment_eq by done.
  pose proof (aligned_pos_bounds al d Hal) as Hp. unfold aligned_pos in Hp.
  set (a := (origin_ d - offset_ d) mod al) in *. rewrite size_t_small by lia.
  apply has_data_spec; [done| |].
  - intros He. wp_steps. set (d1 := make_alignment a _).
    assert (W1 : wf d1) by (destruct W; split; unfold d1; cdr_simpl; try done; lia).
    assert (A1 : advanced d d1) by (split; unfold d1; cdr_simpl; try done; lia).
    eapply wp_mono; [apply Hk; [done|unfold d1; cdr_simpl; lia|unfold d1; cdr_simpl; lia]| |].
    + intros v d' (Ad & _). by eapply advanced_trans.
    + intros e d' Ad. by eapply advanced_trans.
  - wp_steps. by apply advanced_refl.
Qed.

(** ** Primitives *)

Lemma consumes_scalar n swap : consumes (Z.of_nat n) (get_scalar n swap).
Proof. apply consumes_ret, consumes_get. lia. Qed.

Lemma safe_scalar n al : is_align al -> (n <= 16)%nat -> Safe (deserialize_scalar n al).
Proof. intros. apply consumes_aligned; [done|lia|]. intros swap. apply consumes_scalar. Qed.

Lemma safe_align64 {A} (k : Z -> M A) :
  (forall al, is_align al -> Safe (k al)) -> Safe (a <-- gets align64_ ;; k a).
Proof. intros H d W B. wp_steps. apply H; [|done|done]. rewrite (wf_align64 _ W). apply is_align_64. Qed.

#[export] Instance safe_char : Safe deserialize_char.
Proof. apply consumes_octets; [lia|]. apply consumes_ret, consumes_get. lia. Qed.

#[export] Instance safe_int16 : Safe deserialize_int16.
Proof. apply safe_scalar; [unfold is_align; lia|lia]. Qed.

#[export] Instance safe_int32 : Safe deserialize_int32.
Proof. apply safe_scalar; [unfold is_align; lia|lia]. Qed.

#[export] Instance safe_uint16 : Safe deserialize_uint16 := safe_int16.
#[export] Instance safe_uint32 : Safe deserialize_uint32 := safe_int32.

#[export] Instance safe_float : Safe deserialize_float.
Proof. apply safe_scalar; [unfold is_align; lia|lia]. Qed.

#[export] Instance safe_int64 : Safe deserialize_int64.
Proof. apply safe_align64. intros. by apply safe_scalar; [|lia]. Qed.

#[export] Instance safe_double : Safe deserialize_double.
Proof. apply safe_align64. intros. by apply safe_scalar; [|lia]. Qed.

Lemma consumes_bool : consumes 1 get_bool_strict.
Proof.
  intros d W Hl He. unfold get_bool_strict. wp_steps. eapply wp_mono; [by apply (consumes_get 1)| |done].
  intros bs d' Hd. cbv zeta. destruct (_ =? 1); [by wp_steps|]. destruct (_ =? 0); wp_steps; [done|apply Hd].
Qed.

#[export] Instance safe_bool : Safe deserialize_bool.
Proof. apply consumes_octets; [lia|]. apply consumes_bool. Qed.

(** ** Strings *)

(** A length read from the stream is a 32-bit value. *)
Lemma scalar_range n al d :
  wf d -> is_align al -> (n <= 16)%nat -> octets d ->
  wp (deserialize_scalar n al) d (fun v _ => 0 <= v < 2 ^ (8 * Z.of_nat n)) (fun _ _ => True).
Proof.
  intros W Hal Hn Hb. unfold octets in Hb. unfold deserialize_scalar, get_aligned. wp_steps. rewrite alignment_eq by done.
  pose proof (aligned_pos_bounds al d Hal) as Hp. unfold aligned_pos in Hp.
  set (a := (origin_ d - offset_ d) mod al) in *. rewrite size_t_small by lia.
  pose proof (wf_offset _ W). pose proof (wf_mem_length _ W).
  apply has_data_spec; [done| |by wp_steps].
  intros He. unfold get_scalar. wp_steps.
  apply get_spec; unfold mem in *; cdr_simpl; [lia|lia|lia|].
  intros bs Hm Hl. wp_steps. unfold unwire, host_value.
  assert (Hbs : Forall is_byte bs).
  { unfold mread in Hm. destruct (_ =? 0); [by injection Hm as <-|].
    destruct (in_block _ _ _); [|done]. injection Hm as <-. by apply Forall_take, Forall_drop. }
  assert (Hlen : length bs = n) by (unfold zlen in Hl; lia).
  destruct big_endian_target, (swap_bytes_ _); rewrite <- Hlen.
  - rewrite rev_involutive. by apply le_value_range.
  - rewrite <- (length_rev bs). apply le_value_range. by apply Forall_rev.
  - rewrite <- (length_rev bs). apply le_value_range. by apply Forall_rev.
  - by apply le_value_range.
Qed.

Lemma wp_uint32 d0 d (Q : Z -> Cdr -> Prop) (E : exn -> Cdr -> Prop) :
  octets d0 -> advanced d0 d -> (forall n d', advanced d0 d' -> 0 <= n < 2 ^ 32 -> Q n d') ->
  (forall e d', advanced d0 d' -> E e d') -> wp deserialize_uint32 d Q E.
Proof.
  intros B Ad HQ HE. assert (B1 : octets d) by (by eapply advanced_octets).
  eapply wp_mono; [apply wp_and; [apply safe_int32; [apply Ad|done]|apply (scalar_range 4 4); try done]| |].
  - apply Ad.
  - unfold is_align; lia.
  - lia.
  - intros n d' [A1 Hn]. apply HQ; [by eapply advanced_trans|done].
  - intros e d' [A1 _]. apply HE. by eapply advanced_trans.
Qed.

(** [last_data_size_ = x] before data that starts right here. *)
Lemma advanced_lds x d0 d : advanced d0 d -> 0 <= x <= 1 -> advanced d0 (set_last_data_size_ x d).
Proof.
  intros [W S ? ?] Hx. destruct W, S. split; cdr_simpl; try done; split; cdr_simpl; try done; lia.
Qed.

Lemma wp_consumes {A} n (k : M A) d0 d (Q : A -> Cdr -> Prop) (E : exn -> Cdr -> Prop) :
  consumes n k -> advanced d0 d -> last_data_size_ d <= 1 -> offset_ d + n <= end_ d ->
  (forall a d', advanced d0 d' -> Q a d') -> (forall e d', advanced d0 d' -> E e d') -> wp k d Q E.
Proof.
  intros Hk Ad Hl He HQ HE. eapply wp_mono; [apply Hk; [apply Ad|done|done]| |].
  - intros a d' (A1 & _). eauto using advanced_trans.
  - intros e d' A1. eauto using advanced_trans.
Qed.

(** Length-prefixed data: the shape of strings and sequences of octets. *)
Lemma safe_prefixed {A} (none : Z -> M A) (zero : Z -> bool) (k : Z -> M A) :
  (forall n, 0 <= n < 2 ^ 32 -> Safe (none n)) -> (forall n, 0 <= n < 2 ^ 32 -> consumes n (k n)) ->
  Safe (st <-- gets get_state ;; n <-- deserialize_uint32 ;;
        if zero n then none n
        else ok <-- has_data n ;;
             if (ok : bool) then modify (set_last_data_size_ 1) ;;; k n
             else modify (set_state st) ;;; throw NotEnoughMemoryException).
Proof.
  intros Hz Hk. apply safe_restoring. intros d0 d W0 B0 Ad. apply wp_bind.
  eapply wp_uint32; [done|done| |done]. intros n d1 A1 Hn. destruct (zero n).
  - by eapply wp_safe; [apply Hz| | | |].
  - wp_steps. apply has_data_spec; [apply A1| |].
    + intros He. wp_steps. eapply wp_consumes; [by apply Hk| | | |done|done].
      * by apply advanced_lds.
      * cdr_simpl. lia.
      * done.
    + by apply wp_fail_restore.
Qed.

#[export] Instance safe_read_string : Safe read_string.
Proof.
  apply (safe_prefixed (fun _ => ret []) (fun n => n =? 0)); intros n Hn; [apply _|].
  apply consumes_ret, consumes_get. lia.
Qed.

#[export] Instance safe_cstring : Safe deserialize_cstring.
Proof.
  apply (safe_prefixed (fun _ => ret None) (fun n => n =? 0)); intros n Hn; [apply _|].
  apply consumes_ret, consumes_get. lia.
Qed.

#[export] Instance safe_bool_sequence : Safe deserialize_bool_sequence.
Proof.
  eapply (safe_prefixed (fun _ => ret []) (fun _ => false)); intros n Hn; [apply _|].
  replace n with (1 * Z.of_nat (Z.to_nat n)) at 1 by lia. apply consumes_each; [lia|]. apply consumes_bool.
Qed.

#[export] Instance safe_each {A} (m : M A) n : Safe m -> Safe (deserialize_each m n).
Proof. intros Hm. induction n; simpl; apply _. Qed.

#[export] Instance safe_array_wchar n : Safe (deserialize_array_wchar n).
Proof. unfold deserialize_array_wchar. apply _. Qed.

(** The wide characters behind a length that was just read are at an even
    distance from the origin, as [last_data_size_ = 2] promises. *)
Lemma uint32_even d :
  wf d -> wp deserialize_uint32 d (fun _ d' => (origin_ d' - offset_ d') mod 2 = 0) (fun _ _ => True).
Proof.
  intros W. unfold deserialize_uint32, deserialize_int32, deserialize_scalar, get_aligned. wp_steps.
  rewrite alignment_eq by (done || unfold is_align; lia).
  pose proof (Z.mod_pos_bound (origin_ d - offset_ d) 4 ltac:(lia)).
  rewrite size_t_small by lia. pose proof (wf_offset _ W). pose proof (wf_mem_length _ W).
  apply has_data_spec; [done| |by wp_steps]. intros He. unfold get_scalar. wp_steps.
  apply get_spec; unfold mem in *; cdr_simpl; [lia|lia|lia|]. intros bs _ _. wp_steps. cdr_simpl.
  pose proof (Z.div_mod (origin_ d - offset_ d) 4 ltac:(lia)).
  replace (origin_ d - (offset_ d + (origin_ d - offset_ d) mod 4 + Z.of_nat 4))
    with ((2 * ((origin_ d - offset_ d) / 4) - 2) * 2) by lia. apply Z_mod_mult.
Qed.

Lemma advanced_lds2 d0 d :
  advanced d0 d -> (origin_ d - offset_ d) mod 2 = 0 -> advanced d0 (set_last_data_size_ 2 d).
Proof.
  intros [W S ? ?] He. destruct W, S. split; cdr_simpl; try done; split; cdr_simpl; try done; lia.
Qed.

#[export] Instance safe_read_wstring : Safe read_wstring.
Proof.
  apply safe_restoring. intros d0 d W0 B0 Ad. apply wp_bind.
  assert (B1 : octets d) by (by eapply advanced_octets).
  eapply wp_mono; [apply wp_and; [apply (safe_uint32 d); [apply Ad|done]|apply uint32_even; apply Ad]| |].
  - intros n d1 [A1 Hev]. assert (A01 : advanced d0 d1) by (by eapply advanced_trans).
    cbv zeta. destruct (_ =? 0); [by wp_steps|]. wp_steps. apply has_data_spec; [apply A1| |].
    + intros He. wp_steps. apply (wp_safe _ d0); [apply safe_array_wchar|done| |intros ws d2 A2|done].
      * by apply advanced_lds2.
      * destruct (_ =? 0); by wp_steps.
    + by apply wp_fail_restore.
  - intros e d1 [A1 _]. by eapply advanced_trans.
Qed.

#[export] Instance safe_wstring : Safe deserialize_wstring.
Proof. unfold deserialize_wstring. apply _. Qed.

(** ** Arrays *)

Lemma safe_array_scalar n al elem num :
  is_align al -> (0 < n <= 16)%nat -> 0 <= num < 2 ^ 58 ->
  (forall swap, consumes (Z.of_nat n) (elem swap)) -> Safe (deserialize_array_scalar n al elem num).
Proof.
  intros Hal Hn Hnum He. unfold deserialize_array_scalar. destruct (_ =? 0); [apply _|].
  assert (0 <= Z.of_nat n * num < 2 ^ 63) by nia. rewrite size_t_small by lia.
  apply consumes_aligned; [done|lia|]. intros swap.
  replace num with (Z.of_nat (Z.to_nat num)) at 1 by lia. apply consumes_each; [lia|done].
Qed.

(** The arrays of an arithmetic type can be read from any bytes. *)
End Safety.

Class SafeArith (k : arith) : Prop := safe_arith : forall n, 0 <= n < 2 ^ 32 -> Safe (des_array k n).
Class SafeCodec {A} (k : codec A) : Prop := safe_codec : forall old, Safe (des k old).
#[export] Hint Extern 0 (Safe (des _ _)) => apply safe_codec : typeclass_instances.

Section Containers.
Context `{P : Platform}.
Implicit Types c d : Cdr.

#[export] Instance safe_int16_arith : SafeArith int16_arith.
Proof. intros n Hn. apply safe_array_scalar; try lia; [unfold is_align; lia|]. intros; apply consumes_scalar. Qed.
#[export] Instance safe_int32_arith : SafeArith int32_arith.
Proof. intros n Hn. apply safe_array_scalar; try lia; [unfold is_align; lia|]. intros; apply consumes_scalar. Qed.
#[export] Instance safe_float_arith : SafeArith float_arith.
Proof. intros n Hn. apply safe_array_scalar; try lia; [unfold is_align; lia|]. intros; apply consumes_scalar. Qed.
#[export] Instance safe_int64_arith : SafeArith int64_arith.
Proof.
  intros n Hn. apply safe_align64. intros al Hal. apply safe_array_scalar; try lia; [done|].
  intros; apply consumes_scalar.
Qed.
#[export] Instance safe_double_arith : SafeArith double_arith.
Proof.
  intros n Hn. apply safe_align64. intros al Hal. apply safe_array_scalar; try lia; [done|].
  intros; apply consumes_scalar.
Qed.
#[export] Instance safe_char_arith : SafeArith char_arith.
Proof. intros n Hn. apply consumes_octets; [lia|]. apply consumes_get. lia. Qed.

#[export] Instance safe_char_codec : SafeCodec char_codec := fun _ => safe_char.
#[export] Instance safe_bool_codec : SafeCodec bool_codec := fun _ => safe_bool.
#[export] Instance safe_int16_codec : SafeCodec int16_codec := fun _ => safe_int16.
#[export] Instance safe_int32_codec : SafeCodec int32_codec := fun _ => safe_int32.
#[export] Instance safe_int64_codec : SafeCodec int64_codec := fun _ => safe_int64.
#[export] Instance safe_float_codec : SafeCodec float_codec := fun _ => safe_float.
#[export] Instance safe_double_codec : SafeCodec double_codec := fun _ => safe_double.
#[export] Instance safe_string_codec : SafeCodec string_codec := fun _ => safe_read_string.
#[export] Instance safe_wstring_codec : SafeCodec wstring_codec := fun _ => safe_wstring.

(** ** Containers *)

#[export] Instance safe_over {A} (k : codec A) more olds : SafeCodec k -> Safe (deserialize_over k more olds).
Proof. intros Hk. induction olds; simpl; apply _. Qed.

#[export] Instance safe_delimited {A} start dheader (body : M A) : Safe body -> Safe (delimited start dheader body).
Proof. intros. unfold delimited. apply _. Qed.

(** [state_before_error(this)], a length, and a body that restores the state
    when it fails. *)
Lemma safe_counted {A} (zero : Z -> bool) (guard : bool) (none : M A) (body : Z -> M A) :
  Safe none -> (forall n, 0 <= n < 2 ^ 32 -> Safe (body n)) ->
  Safe (st <-- gets get_state ;; n <-- deserialize_uint32 ;;
        if zero n then none
        else if guard then
          rest <-- gets remaining ;;
          if rest <? n then modify (set_state st) ;;; throw NotEnoughMemoryException
          else or_restore st (body n)
        else or_restore st (body n)).
Proof.
  intros Hz Hb. apply safe_restoring. intros d0 d W0 B0 Ad. apply wp_bind.
  eapply wp_uint32; [done|done| |done]. intros n d1 A1 Hn. destruct (zero n).
  - by eapply wp_safe; [apply Hz| | | |].
  - destruct guard; [|apply wp_or_restore; [by apply Hb|done|done|done]].
    wp_steps. destruct (_ <? _); [by apply wp_fail_restore|apply wp_or_restore; [by apply Hb|done|done|done]].
Qed.

#[export] Instance safe_vector {A} (k : codec A) dflt old : SafeCodec k -> Safe (deserialize_vector k dflt old).
Proof.
  intros Hk. unfold deserialize_vector. apply safe_bind; [apply _|]. intros v. destruct (bool_decide _).
  - apply _.
  - eapply (safe_counted (fun n => n =? 0) true (ret [])); intros; apply _.
Qed.

#[export] Instance safe_vector_arith (k : arith) : SafeArith k -> Safe (deserialize_vector_arith k).
Proof.
  intros Hk. eapply (safe_counted (fun n => n =? 0) true (ret [])); intros; [apply _|by apply Hk].
Qed.

#[export] Instance safe_sequence_of (k : codec (list Z)) : SafeCodec k -> Safe (deserialize_sequence_of k).
Proof.
  intros Hk. unfold deserialize_sequence_of. apply safe_bind; [apply _|]. intros v. destruct (bool_decide _).
  - apply _.
  - eapply (safe_counted (fun n => false) false (ret [])); intros; apply _.
Qed.

#[export] Instance safe_std_array {A} (k : codec A) old : SafeCodec k -> Safe (deserialize_std_array k old).
Proof. intros Hk. unfold deserialize_std_array. apply _. Qed.

#[export] Instance safe_pairs {K A} (kk : codec K) (ka : codec A) dk da ltb n more m :
  SafeCodec kk -> SafeCodec ka -> Safe (deserialize_pairs kk ka dk da ltb n more m).
Proof. intros Hk Ha. revert m. induction n; intros m; simpl; apply _. Qed.

#[export] Instance safe_map {K A} (kk : codec K) (ka : codec A) dk da ltb m :
  SafeCodec kk -> SafeCodec ka -> Safe (deserialize_map kk ka dk da ltb m).
Proof.
  intros Hk Ha. unfold deserialize_map. apply safe_bind; [apply _|]. intros v. destruct (bool_decide _).
  - apply _.
  - eapply (safe_counted (fun n => false) false (ret [])); intros; apply _.
Qed.

#[export] Instance safe_map_arith {K A} (kk : codec K) (ka : codec A) dk da ltb m :
  SafeCodec kk -> SafeCodec ka -> Safe (deserialize_map_arith kk ka dk da ltb m).
Proof. intros Hk Ha. eapply (safe_counted (fun n => false) false (ret [])); intros; apply _. Qed.

#[export] Instance safe_optional {A} (k : codec A) dflt : SafeCodec k -> Safe (deserialize_optional k dflt).
Proof. intros Hk. unfold deserialize_optional. apply _. Qed.

#[export] Instance safe_external {A} (k : codec A) dflt locked old :
  SafeCodec k -> Safe (deserialize_external k dflt locked old).
Proof. intros Hk. unfold deserialize_external. apply _. Qed.

End Containers.
