(* ===== verification/CdrSize.v ===== *)
(** * The size calculator

    Models [Fast-CDR/src/cpp/CdrSizeCalculator.cpp] and the templates of
    [Fast-CDR/include/fastcdr/CdrSizeCalculator.hpp].  [current_alignment],
    which the code passes by reference, is a component of the state.  The sums
    are kept as integers: the code computes them in [size_t], and the caller
    truncates the total. *)

From S2P Require Import Prelude FastBuffer CdrState.

Record CdrSizeCalculator := mkSz {
  sz_version : CdrVersion;
  sz_encoding : EncodingAlgorithmFlag;
  sz_sms : SerializedMemberSizeForNextInt;
  sz_align64 : Z;
  current_alignment : Z
}.

Definition sz_set_encoding v s := mkSz (sz_version s) v (sz_sms s) (sz_align64 s) (current_alignment s).
Definition sz_set_sms v s := mkSz (sz_version s) (sz_encoding s) v (sz_align64 s) (current_alignment s).
Definition sz_set_alignment v s := mkSz (sz_version s) (sz_encoding s) (sz_sms s) (sz_align64 s) v.

(** [CdrSizeCalculator(CdrVersion)], with [current_alignment {0}]. *)
Definition new_CdrSizeCalculator (cdr_version : CdrVersion) : CdrSizeCalculator :=
  match cdr_version with
  | XCDRv2 => mkSz cdr_version PLAIN_CDR2 NO_SERIALIZED_MEMBER_SIZE 4 0
  | _ => mkSz cdr_version PLAIN_CDR NO_SERIALIZED_MEMBER_SIZE 8 0
  end.

(** ** A state monad with the one exception of the calculator *)

Definition Sz (A : Type) : Type := CdrSizeCalculator -> option (A * CdrSizeCalculator).

Definition szret {A} (a : A) : Sz A := fun s => Some (a, s).
Definition szbind {A B} (m : Sz A) (k : A -> Sz B) : Sz B := fun s =>
  match m s with Some (a, s') => k a s' | None => None end.
Definition szgets {A} (f : CdrSizeCalculator -> A) : Sz A := fun s => Some (f s, s).
Definition szmodify (f : CdrSizeCalculator -> CdrSizeCalculator) : Sz unit := fun s => Some (tt, f s).
(** [throw BadParamException] *)
Definition szthrow {A} : Sz A := fun _ => None.

Declare Scope sz_scope.
Notation "x <~ m ;; k" := (szbind m (fun x => k))
  (at level 100, m at next level, right associativity) : sz_scope.
Notation "m ;;~ k" := (szbind m (fun _ => k)) (at level 100, right associativity) : sz_scope.
#[global] Open Scope sz_scope.

(** [CdrSizeCalculator::alignment] *)
Definition sz_alignment (cur data_size : Z) : Z :=
  Z.land (data_size - cur mod data_size) (data_size - 1).

(** [current_alignment += n] *)
Definition advance (n : Z) : Sz unit := szmodify (fun s => sz_set_alignment (current_alignment s + n) s).

(** [size_t calculated_size {n + alignment(current_alignment, al)}; current_alignment += calculated_size;] *)
Definition calc_aligned (n al : Z) : Sz Z :=
  calculated_size <~ szgets (fun s => n + sz_alignment (current_alignment s) al) ;;
  advance calculated_size ;;~
  szret calculated_size.

(** ** Primitives and strings *)

Definition calc_octet : Sz Z := advance 1 ;;~ szret 1.
Definition calc_int16 : Sz Z := calc_aligned 2 2.
Definition calc_int32 : Sz Z := calc_aligned 4 4.
Definition calc_int64 : Sz Z := al <~ szgets sz_align64 ;; calc_aligned 8 al.
Definition calc_long_double : Sz Z := al <~ szgets sz_align64 ;; calc_aligned 16 al.

(** [calculate_serialized_size(const std::string&, size_t&)] *)
Definition calc_string (data : list Z) : Sz Z :=
  calculated_size <~ szgets (fun s => 4 + sz_alignment (current_alignment s) 4 + zlen data + 1) ;;
  advance calculated_size ;;~
  szmodify (sz_set_sms SERIALIZED_MEMBER_SIZE) ;;~
  szret calculated_size.

(** [calculate_serialized_size(const std::wstring&, size_t&)] *)
Definition calc_wstring (data : list Z) : Sz Z :=
  calculated_size <~ szgets (fun s => 4 + sz_alignment (current_alignment s) 4 + zlen data * 2) ;;
  advance calculated_size ;;~
  szret calculated_size.

(** ** Arrays *)

(** [calculate_array_serialized_size(const _T*, size_t, size_t&)] *)
Fixpoint calc_array {A} (elem : A -> Sz Z) (data : list A) : Sz Z :=
  match data with
  | [] => szret 0
  | x :: rest => n <~ elem x ;; m <~ calc_array elem rest ;; szret (n + m)
  end.

(** The arrays of primitives of [n] bytes. *)
Definition calc_array_octet (num_elements : Z) : Sz Z := advance num_elements ;;~ szret num_elements.
Definition calc_array_int16 (num_elements : Z) : Sz Z := calc_aligned (num_elements * 2) 2.
Definition calc_array_int32 (num_elements : Z) : Sz Z := calc_aligned (num_elements * 4) 4.
Definition calc_array_int64 (num_elements : Z) : Sz Z :=
  al <~ szgets sz_align64 ;; calc_aligned (num_elements * 8) al.
Definition calc_array_long_double (num_elements : Z) : Sz Z :=
  al <~ szgets sz_align64 ;; calc_aligned (num_elements * 16) al.

(** ** Containers *)

(** [current_alignment += 4 + alignment(current_alignment, 4)] *)
Definition reserve_uint32 : Sz unit :=
  n <~ szgets (fun s => 4 + sz_alignment (current_alignment s) 4) ;; advance n.

Definition if_xcdrv2 (m : Sz unit) : Sz unit :=
  v <~ szgets sz_version ;; if bool_decide (XCDRv2 = v) then m else szret tt.

(** [calculate_serialized_size(const std::vector<_T>&, size_t&)] of class types. *)
Definition calc_vector {A} (elem : A -> Sz Z) (data : list A) : Sz Z :=
  initial_alignment <~ szgets current_alignment ;;
  if_xcdrv2 reserve_uint32 ;;~
  reserve_uint32 ;;~
  calculated_size <~ szgets (fun s => current_alignment s - initial_alignment) ;;
  n <~ calc_array elem data ;;
  if_xcdrv2 (szmodify (sz_set_sms SERIALIZED_MEMBER_SIZE)) ;;~
  szret (calculated_size + n).

(** The same of arithmetic types: [arr] sizes the array and [sms] is
    [get_serialized_member_size<_T>()]. *)
Definition calc_vector_arith (arr : Z -> Sz Z) (sms : SerializedMemberSizeForNextInt) (data : list Z) : Sz Z :=
  initial_alignment <~ szgets current_alignment ;;
  reserve_uint32 ;;~
  calculated_size <~ szgets (fun s => current_alignment s - initial_alignment) ;;
  n <~ arr (zlen data) ;;
  if_xcdrv2 (szmodify (sz_set_sms sms)) ;;~
  szret (calculated_size + n).

(** [calculate_serialized_size(const std::vector<bool>&, size_t&)] *)
Definition calc_vector_bool (data : list bool) : Sz Z := calc_aligned (zlen data + 4) 4.

(** [calculate_serialized_size(const std::array<_T, _Size>&, size_t&)] of
    elements that are not primitive. *)
Definition calc_std_array {A} (elem : A -> Sz Z) (data : list A) : Sz Z :=
  initial_alignment <~ szgets current_alignment ;;
  if_xcdrv2 reserve_uint32 ;;~
  calculated_size <~ szgets (fun s => current_alignment s - initial_alignment) ;;
  n <~ calc_array elem data ;;
  if_xcdrv2 (szmodify (sz_set_sms SERIALIZED_MEMBER_SIZE)) ;;~
  szret (calculated_size + n).

Definition calc_pair {K A} (key : K -> Sz Z) (value : A -> Sz Z) (p : K * A) : Sz Z :=
  n <~ key p.1 ;; m <~ value p.2 ;; szret (n + m).

(** [calculate_serialized_size(const std::map<_K, _V>&, size_t&)] of class types. *)
Definition calc_map {K A} (key : K -> Sz Z) (value : A -> Sz Z) (data : list (K * A)) : Sz Z :=
  initial_alignment <~ szgets current_alignment ;;
  if_xcdrv2 reserve_uint32 ;;~
  reserve_uint32 ;;~
  calculated_size <~ szgets (fun s => current_alignment s - initial_alignment) ;;
  n <~ calc_array (calc_pair key value) data ;;
  if_xcdrv2 (szmodify (sz_set_sms SERIALIZED_MEMBER_SIZE)) ;;~
  szret (calculated_size + n).

(** [calculate_serialized_size(const std::map<_K, _V>&, size_t&)] of arithmetic values. *)
Definition calc_map_arith {K A} (key : K -> Sz Z) (value : A -> Sz Z) (data : list (K * A)) : Sz Z :=
  initial_alignment <~ szgets current_alignment ;;
  reserve_uint32 ;;~
  calculated_size <~ szgets (fun s => current_alignment s - initial_alignment) ;;
  n <~ calc_array (calc_pair key value) data ;;
  szret (calculated_size + n).

(** [calculate_serialized_size(const optional<_T>&, size_t&)] *)
Definition calc_optional {A} (elem : A -> Sz Z) (data : option A) : Sz Z :=
  initial_alignment <~ szgets current_alignment ;;
  v <~ szgets sz_version ;;
  e <~ szgets sz_encoding ;;
  (if bool_decide (XCDRv2 = v) && negb (bool_decide (PL_CDR2 = e)) then advance 1 else szret tt) ;;~
  calculated_size <~ szgets (fun s => current_alignment s - initial_alignment) ;;
  match data with
  | Some a => n <~ elem a ;; szret (calculated_size + n)
  | None => szret calculated_size
  end.

(** [calculate_serialized_size(const external<_T>&, size_t&)] *)
Definition calc_external {A} (elem : A -> Sz Z) (data : option A) : Sz Z :=
  match data with None => szthrow | Some a => elem a end.

(** ** Members and types *)

Definition align_header : Sz unit :=
  n <~ szgets (fun s => sz_alignment (current_alignment s) 4) ;; advance n.

(** [calculate_member_serialized_size(const MemberId&, const _T&, size_t&)];
    [size] is [calculate_serialized_size(data, current_alignment)]. *)
Definition calc_member (id : Z) (size : Sz Z) : Sz Z :=
  initial_alignment <~ szgets current_alignment ;;
  v <~ szgets sz_version ;;
  e <~ szgets sz_encoding ;;
  (if bool_decide (PL_CDR = e) || bool_decide (PL_CDR2 = e) then align_header else szret tt) ;;~
  prev_size <~ szgets (fun s => current_alignment s - initial_alignment) ;;
  (if bool_decide (PL_CDR = e) then szmodify (sz_set_alignment 0) else szret tt) ;;~
  calculated_size <~ size ;;
  sms <~ szgets sz_sms ;;
  let joined := negb (bool_decide (NO_SERIALIZED_MEMBER_SIZE = sms)) in
  let '(calculated_size, extra_size) :=
    if bool_decide (XCDRv2 = v) && bool_decide (PL_CDR2 = e) && (0 <? calculated_size) then
      if (8 <? calculated_size) ||
         (negb (1 =? calculated_size) && negb (2 =? calculated_size) &&
          negb (4 =? calculated_size) && negb (8 =? calculated_size))
      then (if joined then calculated_size - 4 else calculated_size, 8)
      else (calculated_size, 4)
    else if bool_decide (XCDRv1 = v) && bool_decide (PL_CDR = e) && (0 <? calculated_size) then
      (calculated_size, if (0x3F00 <? id) || (calculated_size >? 0xFFFF) then 12 else 4)
    else (calculated_size, 0) in
  (if bool_decide (PL_CDR = e) then szret tt else advance extra_size) ;;~
  szmodify (sz_set_sms NO_SERIALIZED_MEMBER_SIZE) ;;~
  szret (calculated_size + prev_size + extra_size).

(** [calculate_member_serialized_size(const MemberId&, const optional<_T>&, size_t&)];
    [size] is [calculate_serialized_size(data, current_alignment)]. *)
Definition calc_opt_member (id : Z) (has_value : bool) (size : Sz Z) : Sz Z :=
  initial_alignment <~ szgets current_alignment ;;
  v <~ szgets sz_version ;;
  e <~ szgets sz_encoding ;;
  (if (negb (bool_decide (XCDRv2 = v)) || bool_decide (PL_CDR2 = e)) &&
      (has_value || bool_decide (PLAIN_CDR = e)) then align_header else szret tt) ;;~
  prev_size <~ szgets (fun s => current_alignment s - initial_alignment) ;;
  (if bool_decide (XCDRv1 = v) && (has_value || bool_decide (PLAIN_CDR = e))
   then szmodify (sz_set_alignment 0) else szret tt) ;;~
  calculated_size <~ size ;;
  sms <~ szgets sz_sms ;;
  let extra_size :=
    if bool_decide (XCDRv2 = v) && bool_decide (PL_CDR2 = e) && (0 <? calculated_size) then
      if 8 <? calculated_size
      then (if bool_decide (NO_SERIALIZED_MEMBER_SIZE = sms) then 8 else 4)
      else 4
    else if bool_decide (XCDRv1 = v) && ((0 <? calculated_size) || bool_decide (PLAIN_CDR = e)) then
      if (0x3F00 <? id) || (calculated_size >? 0xFFFF) then 12 else 4
    else 0 in
  (if bool_decide (XCDRv1 = v) then szret tt else advance extra_size) ;;~
  szret (calculated_size + prev_size + extra_size).

(** [CdrSizeCalculator::begin_calculate_type_serialized_size] *)
Definition begin_calculate_type_serialized_size (new_encoding : EncodingAlgorithmFlag) : Sz Z :=
  szmodify (sz_set_encoding new_encoding) ;;~
  calculated_size <~ szgets (fun s =>
    if bool_decide (XCDRv2 = sz_version s) && negb (bool_decide (PLAIN_CDR2 = sz_encoding s))
    then 4 + sz_alignment (current_alignment s) 4 else 0) ;;
  advance calculated_size ;;~
  szmodify (sz_set_sms NO_SERIALIZED_MEMBER_SIZE) ;;~
  szret calculated_size.

(** [CdrSizeCalculator::end_calculate_type_serialized_size] *)
Definition end_calculate_type_serialized_size (new_encoding : EncodingAlgorithmFlag) : Sz Z :=
  v <~ szgets sz_version ;;
  e <~ szgets sz_encoding ;;
  calculated_size <~
    (if bool_decide (XCDRv1 = v) && bool_decide (PL_CDR = e) then
       szgets (fun s => 4 + sz_alignment (current_alignment s) 4)
     else if bool_decide (XCDRv2 = v) && negb (bool_decide (PLAIN_CDR2 = e)) then
       szmodify (sz_set_sms SERIALIZED_MEMBER_SIZE) ;;~ szret 0
     else szret 0) ;;
  advance calculated_size ;;~
  szmodify (sz_set_encoding new_encoding) ;;~
  szret calculated_size.
