(* ===== verification/CdrSizeLaws.v ===== *)
(** * The calculated size is never too small

    [Sized k sz] relates a codec to its size calculation: from a stream whose
    position is at most [current_alignment], serializing ends at most at the
    new [current_alignment], and fails only when the buffer ends before it.  A
    buffer of the calculated size is therefore enough. *)

From S2P Require Import Prelude FastBuffer CdrState CdrInv CdrScalar CdrCodec CdrStrings CdrArrays CdrXcdr CdrContainers CdrContainerLaws CdrSize.

(** ** Rounding up *)

Lemma round_up_mono al p a : 0 < al -> p <= a -> p + (- p) mod al <= a + (- a) mod al.
Proof.
  intros Hal Hp. rewrite !Z.mod_eq by lia.
  pose proof (Z.div_le_mono (- a) (- p) al ltac:(lia) ltac:(lia)). nia.
Qed.

Lemma sz_alignment_eq cur al : is_align al -> sz_alignment cur al = (- cur) mod al.
Proof.
  intros Hal. destruct (is_align_pow2 _ Hal) as (k & Hk & ->). apply align_mask. lia.
Qed.

(** The position of the stream, counted from its origin, is at most where the
    calculator believes it to be. *)
Record sz_rel (c : Cdr) (s : CdrSizeCalculator) : Prop := mkSzRel {
  szr_version : sz_version s = cdr_version_ c;
  szr_align64 : sz_align64 s = align64_ c;
  szr_pos : offset_ c - origin_ c <= current_alignment s
}.

Lemma aligned_rel al c s :
  is_align al -> sz_rel c s ->
  aligned_pos al c - origin_ c <= current_alignment s + sz_alignment (current_alignment s) al.
Proof.
  intros Hal [_ _ Hp]. rewrite sz_alignment_eq by done. unfold aligned_pos.
  assert (0 < al) by (unfold is_align in Hal; lia).
  pose proof (round_up_mono al (offset_ c - origin_ c) (current_alignment s) ltac:(done) Hp).
  replace (- (offset_ c - origin_ c)) with (origin_ c - offset_ c) in * by lia. lia.
Qed.

(** The calculator's own configuration is what a size calculation keeps. *)
Record sz_same (s s' : CdrSizeCalculator) : Prop := mkSzSame {
  szs_version : sz_version s' = sz_version s;
  szs_align64 : sz_align64 s' = sz_align64 s;
  szs_encoding : sz_encoding s' = sz_encoding s
}.

#[export] Instance sz_same_preorder : PreOrder sz_same.
Proof. split; [by intros s|]. intros s1 s2 s3 [] []. split; congruence. Qed.

(** The result of a size calculation: the size is what [current_alignment]
    moved by. *)
Definition sized_as (m : Sz Z) (s s' : CdrSizeCalculator) (n : Z) : Prop :=
  m s = Some (n, s') /\ current_alignment s' = current_alignment s + n /\ 0 <= n /\ sz_same s s'.

(** What a serializer does with the space the calculator asked for. *)
Definition within (m : M unit) (c : Cdr) (s' : CdrSizeCalculator) : Prop :=
  wp m c (fun _ c' => ext c c' /\ offset_ c' - origin_ c' <= current_alignment s')
         (fun _ _ => end_ c - origin_ c < current_alignment s').

Class Sized {A} (k : codec A) (sz : A -> Sz Z) : Prop := mkSized {
  sized_calc v s : valid k v -> is_align (sz_align64 s) -> exists n s', sized_as (sz v) s s' n;
  sized_within v c s n s' : valid k v -> wf c -> sz_rel c s -> sz v s = Some (n, s') ->
    within (ser k v) c s'
}.

Section Laws.
Context `{P : Platform}.
Implicit Types c d : Cdr.

Lemma sz_rel_next c c1 s s1 :
  sz_rel c s -> same_config c c1 -> sz_same s s1 ->
  offset_ c1 - origin_ c1 <= current_alignment s1 -> sz_rel c1 s1.
Proof. intros [] [] [] ?. split; congruence. Qed.

(** ** When a raw write fails *)

Lemma put_octets_throws bs c e c' :
  wf c -> put_octets bs c = Throw e c' -> end_ c < offset_ c + zlen bs.
Proof.
  intros W. pose proof (wf_end_bound _ W). pose proof (wf_offset _ W).
  unfold put_octets, bind, has_room, remaining. rewrite size_t_small by lia.
  destruct (Z.geb_spec (end_ c - offset_ c) (zlen bs)); [|intros; lia].
  unfold modify, put. by destruct (mwrite _ _ _).
Qed.

Lemma put_aligned_throws al total bytes c e c' :
  wf c -> is_align al -> 0 <= total < 2 ^ 62 ->
  put_aligned al total bytes c = Throw e c' -> end_ c < aligned_pos al c + total.
Proof.
  intros W Hal Ht. pose proof (wf_end_bound _ W). pose proof (wf_offset _ W).
  pose proof (aligned_pos_bounds al c Hal) as Hp. unfold aligned_pos in *.
  unfold put_aligned, bind, gets, has_room, remaining. rewrite alignment_eq by done.
  rewrite !size_t_small by lia.
  destruct (Z.geb_spec (end_ c - offset_ c) (total + (origin_ c - offset_ c) mod al)); [|intros; lia].
  unfold modify, put. by destruct (mwrite _ _ _).
Qed.

Lemma wp_throws {A} (m : M A) c Q Q' E (Pr : Prop) :
  wp m c Q E -> (forall e c', m c = Throw e c' -> Pr) -> (forall a c', Q a c' -> Q' a c') ->
  wp m c Q' (fun _ _ => Pr).
Proof. unfold wp. destruct (m c); eauto. Qed.

(** ** Primitives *)

Lemma sized_calc_aligned n al s :
  is_align al -> 0 <= n ->
  sized_as (calc_aligned n al) s
    (sz_set_alignment (current_alignment s + (n + sz_alignment (current_alignment s) al)) s)
    (n + sz_alignment (current_alignment s) al).
Proof.
  intros Hal Hn. split; [done|]. split; [done|]. split; [|done].
  rewrite sz_alignment_eq by done. assert (0 < al) by (unfold is_align in Hal; lia).
  pose proof (Z.mod_pos_bound (- current_alignment s) al ltac:(lia)). lia.
Qed.

Lemma within_scalar n al v c s :
  wf c -> is_align al -> (0 < n)%nat -> Z.of_nat n < 2 ^ 62 -> 0 <= v < 2 ^ (8 * Z.of_nat n) -> sz_rel c s ->
  within (serialize_scalar n al v) c
    (sz_set_alignment (current_alignment s + (Z.of_nat n + sz_alignment (current_alignment s) al)) s).
Proof.
  intros W Hal Hn Hn2 Hv R. pose proof (aligned_rel al c s Hal R).
  eapply wp_throws; [by apply serialize_scalar_law| |].
  - intros e c' Ht. unfold serialize_scalar in Ht. apply put_aligned_throws in Ht; try done; [|lia].
    simpl. lia.
  - intros [] c' (X & _ & _ & O & _). split; [done|]. simpl.
    rewrite (sc_origin _ _ (ext_config _ _ X)). lia.
Qed.

Lemma sized_scalar {A} (k : codec A) n al (f : A -> Z) :
  is_align al -> (0 < n)%nat -> Z.of_nat n < 2 ^ 62 ->
  (forall v, valid k v -> 0 <= f v < 2 ^ (8 * Z.of_nat n)) ->
  (forall v, ser k v = serialize_scalar n al (f v)) -> Sized k (fun _ => calc_aligned (Z.of_nat n) al).
Proof.
  intros Hal Hn Hn2 Hf Hser. split.
  - intros v s Hv _. eexists _, _. apply sized_calc_aligned; [done|lia].
  - intros v c s m s' Hv W R [= <- <-]. rewrite Hser. by apply within_scalar; auto.
Qed.

#[export] Instance int16_sized : Sized int16_codec (fun _ => calc_int16).
Proof. apply (sized_scalar int16_codec 2 2 (fun v => v)); try done; try lia. unfold is_align; lia. Qed.
#[export] Instance int32_sized : Sized int32_codec (fun _ => calc_int32).
Proof. apply (sized_scalar int32_codec 4 4 (fun v => v)); try done; try lia. unfold is_align; lia. Qed.
#[export] Instance float_sized : Sized float_codec (fun _ => calc_int32).
Proof. apply (sized_scalar float_codec 4 4 (fun v => v)); try done; try lia. unfold is_align; lia. Qed.

Lemma sized_scalar64 (k : codec Z) :
  (forall v, valid k v -> 0 <= v < 2 ^ 64) ->
  (forall v, ser k v = (a <-- gets align64_ ;; serialize_scalar 8 a v)) -> Sized k (fun _ => calc_int64).
Proof.
  intros Hr Hser. split.
  - intros v s Hv Hal. eexists _, _. by apply sized_calc_aligned.
  - intros v c s m s' Hv W R [= <- <-]. rewrite Hser, (szr_align64 _ _ R).
    apply (within_scalar 8 (align64_ c) v c s); try done; try lia; auto.
    rewrite (wf_align64 _ W). apply is_align_64.
Qed.

#[export] Instance int64_sized : Sized int64_codec (fun _ => calc_int64).
Proof. by apply sized_scalar64. Qed.
#[export] Instance double_sized : Sized double_codec (fun _ => calc_int64).
Proof. by apply sized_scalar64. Qed.

Lemma within_octet b c s :
  wf c -> sz_rel c s -> within (put_octets [b]) c (sz_set_alignment (current_alignment s + 1) s).
Proof.
  intros W R. pose proof (szr_pos _ _ R).
  eapply wp_throws; [by apply put_octets_spec| |].
  - intros e c' Ht. apply put_octets_throws in Ht; [|done]. simpl. change (zlen [b]) with 1 in *. lia.
  - intros [] c' (X & O & _). split; [done|]. rewrite (sc_origin _ _ (ext_config _ _ X)). simpl.
    change (zlen [b]) with 1 in *. lia.
Qed.

#[export] Instance char_sized : Sized char_codec (fun _ => calc_octet).
Proof.
  split; [intros v s _ _; by eexists _, _|]. intros v c s n s' Hv W R [= <- <-]. by apply within_octet.
Qed.
#[export] Instance bool_sized : Sized bool_codec (fun _ => calc_octet).
Proof.
  split; [intros v s _ _; by eexists _, _|]. intros v c s n s' Hv W R [= <- <-]. by apply within_octet.
Qed.

(** ** Composition *)

Lemma within_bind m k c s1 s2 :
  within m c s1 -> current_alignment s1 <= current_alignment s2 ->
  (forall c1, ext c c1 -> offset_ c1 - origin_ c1 <= current_alignment s1 -> within k c1 s2) ->
  within (m ;;; k) c s2.
Proof.
  intros Hm Hs Hk. unfold within in *. wp_steps. eapply wp_mono; [exact Hm| |].
  - intros [] c1 [X O]. pose proof (sc_origin _ _ (ext_config _ _ X)). pose proof (ext_end _ _ X).
    eapply wp_mono; [by apply Hk| |].
    + intros [] c2 [X2 O2]. split; [by eapply ext_trans|done].
    + intros e ce Hend. cbn beta in *. lia.
  - intros e ce Hend. cbn beta in *. lia.
Qed.

Lemma within_mono m c s1 s2 : within m c s1 -> current_alignment s1 = current_alignment s2 -> within m c s2.
Proof. intros H E. unfold within in *. by rewrite <- E. Qed.

(** ** Strings *)

Lemma put_or_restore_throws st n bs c e c' :
  wf c -> put_or_restore st n bs c = Throw e c' -> end_ c < offset_ c + n.
Proof.
  intros W. pose proof (wf_end_bound _ W). pose proof (wf_offset _ W).
  unfold put_or_restore, bind, has_room, remaining. rewrite size_t_small by lia.
  destruct (Z.geb_spec (end_ c - offset_ c) n); [|intros; lia].
  unfold modify, put. by destruct (mwrite _ _ _).
Qed.

Lemma sized_string data s :
  sized_as (calc_string data) s
    (sz_set_sms SERIALIZED_MEMBER_SIZE
       (sz_set_alignment (current_alignment s + (4 + sz_alignment (current_alignment s) 4 + zlen data + 1)) s))
    (4 + sz_alignment (current_alignment s) 4 + zlen data + 1).
Proof.
  split; [done|]. split; [done|]. split; [|done]. pose proof (zlen_nonneg data).
  rewrite sz_alignment_eq by apply int32_is_align.
  pose proof (Z.mod_pos_bound (- current_alignment s) 4 ltac:(lia)). lia.
Qed.

Lemma serialize_string_throws str c e c' :
  valid_string str -> wf c -> serialize_string str c = Throw e c' ->
  end_ c < aligned_pos 4 c + 4 + zlen str + 1.
Proof.
  intros [Hnz Hl] W. pose proof (zlen_nonneg str).
  unfold serialize_string, serialize_cstring. rewrite c_str_id by done.
  rewrite (u32_small (zlen str)), (u32_small (zlen str + 1)) by lia.
  replace (zlen str + 1 >? 0) with true by lia. simpl.
  unfold bind at 1 2, gets, serialize_uint32. rewrite u32_small by lia. unfold bind at 1.
  pose proof (serialize_scalar_law 4 4 (zlen str + 1) c W int32_is_align ltac:(lia) ltac:(lia) ltac:(lia)) as Hw.
  unfold serialize_int32. unfold wp in Hw.
  destruct (serialize_scalar 4 4 (zlen str + 1) c) as [[] c1|e1 c1| |] eqn:E1; simpl in *; try done.
  - destruct Hw as (X & _ & _ & O & _).
    destruct (put_or_restore _ _ _ c1) as [|e2 c2| |] eqn:E2; simpl; try done. intros _.
    apply put_or_restore_throws in E2; [|apply X]. pose proof (ext_end _ _ X). lia.
  - intros _. apply put_aligned_throws in E1; try done; [|apply int32_is_align]. lia.
Qed.

#[export] Instance string_sized : Sized string_codec calc_string.
Proof.
  split; [intros v s _ _; eexists _, _; apply sized_string|].
  intros str c s n s' Hv W R [= <- <-]. pose proof (aligned_rel 4 c s int32_is_align R).
  eapply wp_throws; [by apply serialize_string_law| |].
  - intros e c' Ht. apply serialize_string_throws in Ht; [|done|done]. simpl. lia.
  - intros [] c' (X & O & _). split; [done|]. rewrite (sc_origin _ _ (ext_config _ _ X)). simpl. lia.
Qed.

(** ** Elements *)

Lemma szbind_inv {A B} (m : Sz A) (k : A -> Sz B) s r :
  szbind m k s = Some r -> exists a s', m s = Some (a, s') /\ k a s' = Some r.
Proof. unfold szbind. destruct (m s) as [[a s']|]; [eauto|done]. Qed.

Lemma sized_as_eq m s s' n s1 n1 : sized_as m s s' n -> m s = Some (n1, s1) -> n1 = n /\ s1 = s'.
Proof. intros (E & _) E'. rewrite E in E'. by injection E' as <- <-. Qed.

Section Elements.
Context {A : Type} (k : codec A) (sz : A -> Sz Z) `{K : !Sized k sz}.

Lemma sized_array vs s :
  Forall (valid k) vs -> is_align (sz_align64 s) -> exists n s', sized_as (calc_array sz vs) s s' n.
Proof.
  intros Hvs. revert s. induction Hvs as [|v vs Hv _ IH]; intros s Hal; simpl.
  - exists 0, s. split; [done|]. split; [lia|]. done.
  - destruct (sized_calc v s Hv Hal) as (n1 & s1 & E1 & C1 & N1 & S1).
    destruct (IH s1) as (n2 & s2 & E2 & C2 & N2 & S2); [by rewrite (szs_align64 _ _ S1)|].
    exists (n1 + n2), s2. split; [unfold szbind, szret; by rewrite E1, E2|].
    split; [lia|]. split; [lia|by etrans].
Qed.

Lemma within_each vs c s n s' :
  Forall (valid k) vs -> wf c -> sz_rel c s -> calc_array sz vs s = Some (n, s') ->
  within (serialize_each (ser k) vs) c s'.
Proof.
  intros Hvs. revert c s n s'. induction Hvs as [|v vs Hv Hvs IH]; intros c s n s' W R; simpl.
  - intros [= <- <-]. split; [by apply ext_refl|apply R].
  - intros (n1 & s1 & E1 & H)%szbind_inv. apply szbind_inv in H as (n2 & s2 & E2 & [= <- <-]).
    assert (Hal : is_align (sz_align64 s)).
    { rewrite (szr_align64 _ _ R), (wf_align64 _ W). apply is_align_64. }
    destruct (sized_calc v s Hv Hal) as (m1 & t1 & H1). destruct (sized_as_eq _ _ _ _ _ _ H1 E1) as [-> ->].
    destruct H1 as (_ & C1 & N1 & S1). assert (Hal1 : is_align (sz_align64 t1)) by by rewrite (szs_align64 _ _ S1).
    destruct (sized_array vs t1 Hvs Hal1) as (m2 & t2 & H2). destruct (sized_as_eq _ _ _ _ _ _ H2 E2) as [-> ->].
    destruct H2 as (_ & C2 & N2 & S2).
    eapply within_bind; [by eapply sized_within|lia|].
    intros c1 X O. eapply IH; [apply X| |done]. by eapply sz_rel_next; [|apply X| |].
Qed.

End Elements.

(** ** Counted data *)

Definition reserved (s : CdrSizeCalculator) : CdrSizeCalculator :=
  sz_set_alignment (current_alignment s + (4 + sz_alignment (current_alignment s) 4)) s.

Lemma reserved_le s : current_alignment s + 4 <= current_alignment (reserved s).
Proof.
  simpl. rewrite sz_alignment_eq by apply int32_is_align.
  pose proof (Z.mod_pos_bound (- current_alignment s) 4 ltac:(lia)). lia.
Qed.

Lemma reserved_same s : sz_same s (reserved s).
Proof. by split. Qed.

Lemma within_uint32 v c s :
  wf c -> sz_rel c s -> 0 <= v < 2 ^ 32 -> within (serialize_scalar 4 4 v) c (reserved s).
Proof. intros. apply (within_scalar 4 4 v c s); try done; try lia. apply int32_is_align. Qed.

(** The space of a delimiter header is there when the header is filled. *)
Lemma set_xcdrv2_dheader_no_throw c c3 e c' :
  wf c -> ext c c3 -> cdr_version_ c = XCDRv2 -> aligned_pos 4 c + 4 <= offset_ c3 ->
  set_xcdrv2_dheader (get_state c) c3 = Throw e c' -> False.
Proof.
  intros W X Hv Hp. pose proof (ext_wf _ _ X) as W3. pose proof (wf_offset _ W3).
  pose proof (ext_wf _ _ (ext_set_state c c3 W X)) as Ws.
  unfold set_xcdrv2_dheader, bind, gets, modify.
  rewrite (sc_version _ _ (ext_config _ _ X)), Hv, bool_decide_eq_true_2 by done.
  destruct (serialize_uint32 _ _) as [|e1 c1| |] eqn:E; try done. intros _.
  apply put_aligned_throws in E; [|done|apply int32_is_align|lia].
  change (aligned_pos 4 (set_state (get_state c) c3)) with (aligned_pos 4 c) in E.
  change (end_ (set_state (get_state c) c3)) with (end_ c3) in E. lia.
Qed.

Lemma wp_or_restore_end {A} (m : M A) st c Q (Pr : Prop) :
  wp m c Q (fun _ _ => Pr) -> wp (or_restore st m) c Q (fun _ _ => Pr).
Proof. intros H. unfold or_restore. wp_steps. eapply wp_mono; [exact H|done|]. intros. by wp_steps. Qed.

Lemma within_counted n body c s s3 :
  wf c -> sz_rel c s -> 0 <= n < 2 ^ 32 ->
  let s1 := if bool_decide (XCDRv2 = cdr_version_ c) then reserved s else s in
  (forall c2, ext c c2 -> sz_rel c2 (reserved s1) -> within body c2 s3) ->
  current_alignment (reserved s1) <= current_alignment s3 ->
  within (counted n body) c s3.
Proof.
  intros W R Hn s1 Hbody Hle. unfold within, counted, allocate_xcdrv2_dheader, serialize_int32. wp_steps.
  pose proof (reserved_le s). pose proof (reserved_le s1).
  assert (Hrest : forall c1, ext c c1 -> sz_rel c1 s1 ->
    (cdr_version_ c = XCDRv2 -> aligned_pos 4 c + 4 <= offset_ c1) ->
    wp (serialize_scalar 4 4 n) c1
       (fun _ c2 => wp (or_restore (get_state c) body ;;; set_xcdrv2_dheader (get_state c)) c2
          (fun _ c' => ext c c' /\ offset_ c' - origin_ c' <= current_alignment s3)
          (fun _ _ => end_ c - origin_ c < current_alignment s3))
       (fun _ _ => end_ c - origin_ c < current_alignment s3)).
  { intros c1 X1 R1 Hp. pose proof (ext_end _ _ X1). pose proof (sc_origin _ _ (ext_config _ _ X1)).
    eapply wp_mono; [apply (within_uint32 n c1 s1); [apply X1|done|done]| |intros; simpl in *; lia].
    intros [] c2 [X2 O2]. assert (X12 : ext c c2) by by eapply ext_trans.
    pose proof (ext_end _ _ X12). pose proof (sc_origin _ _ (ext_config _ _ X12)).
    wp_steps. apply wp_or_restore_end.
    eapply wp_mono; [apply Hbody; [done|by eapply sz_rel_next; [exact R1|apply X2| |]]| |intros; simpl in *; lia].
    intros [] c3 [X3 O3]. assert (X : ext c c3) by by eapply ext_trans.
    pose proof (sc_origin _ _ (ext_config _ _ X3)). pose proof (ext_offset _ _ X2). pose proof (ext_offset _ _ X3).
    destruct (decide (cdr_version_ c = XCDRv2)) as [Hv|Hv].
    - specialize (Hp Hv). eapply wp_throws; [apply set_xcdrv2_dheader_spec; try done; lia| |].
      + intros e c' Ht. exfalso. eapply set_xcdrv2_dheader_no_throw; [..|exact Ht]; try done. lia.
      + intros [] c4 (X4 & O4 & _). split; [done|]. rewrite O4, (sc_origin _ _ (ext_config _ _ X4)). lia.
    - unfold set_xcdrv2_dheader. wp_steps. rewrite (sc_version _ _ (ext_config _ _ X)).
      rewrite bool_decide_eq_false_2 by congruence. by wp_steps. }
  destruct (decide (cdr_version_ c = XCDRv2)) as [Hv|Hv].
  - subst s1. rewrite bool_decide_eq_true_2 in * by done. wp_steps. unfold serialize_uint32, serialize_int32.
    change (u32 0) with 0.
    eapply wp_mono; [apply wp_and; [by apply (within_uint32 0 c s)|
      apply (serialize_scalar_law 4 4 0 c); try done; try lia; apply int32_is_align]| |].
    + intros [] c1 [[X1 O1] (_ & _ & _ & O & _)]. wp_steps. apply Hrest; [done| |intros _; lia].
      by eapply sz_rel_next; [exact R|apply X1| |].
    + intros e c1 [He _]. simpl in *. lia.
  - subst s1. rewrite bool_decide_eq_false_2 in * by congruence. wp_steps.
    apply Hrest; [by apply ext_refl|done|done].
Qed.

(** The calculation of the two headers of a counted container. *)
Lemma sized_counted (body : Sz Z) s n3 s3 :
  let s1 := if bool_decide (XCDRv2 = sz_version s) then reserved s else s in
  sized_as body (reserved s1) s3 n3 ->
  exists n' s', sized_as
    (initial <~ szgets current_alignment ;; if_xcdrv2 reserve_uint32 ;;~ reserve_uint32 ;;~
     size <~ szgets (fun s => current_alignment s - initial) ;; m <~ body ;;
     if_xcdrv2 (szmodify (sz_set_sms SERIALIZED_MEMBER_SIZE)) ;;~ szret (size + m)) s s' n' /\
    current_alignment s' = current_alignment s3.
Proof.
  intros s1 (E & C & N & S). pose proof (reserved_le s). pose proof (reserved_le s1).
  pose proof (reserved_same s1) as S1. assert (S0 : sz_same s s1) by (subst s1; by destruct (bool_decide _)).
  assert (Sall : sz_same s s3) by (etrans; [exact S0|]; by etrans).
  unfold sized_as, szbind at 1 2, if_xcdrv2 at 1. unfold szgets at 1 2, szbind at 1.
  assert (Eh : forall (kk : unit -> Sz Z),
     (match (if bool_decide (XCDRv2 = sz_version s) then reserve_uint32 else szret tt) s with
      | Some (a, s') => kk a s' | None => None end) = kk tt s1)
    by (intros kk; subst s1; by destruct (bool_decide _)).
  rewrite Eh. unfold szbind at 1. change (reserve_uint32 s1) with (Some (tt, reserved s1)).
  cbv beta iota. unfold szbind at 1, szgets at 1. unfold szbind at 1. rewrite E. unfold if_xcdrv2, szbind, szgets.
  assert (Hle : current_alignment s <= current_alignment s1) by (subst s1; destruct (bool_decide _); lia).
  destruct (bool_decide (XCDRv2 = sz_version s3)); (eexists _, _; split; [split; [reflexivity|]|]);
    [|done| |done]; simpl in *; (split; [lia|]); (split; [lia|]); destruct Sall; by split.
Qed.

Section Vector.
Context {A : Type} (k : codec A) (sz : A -> Sz Z) `{K : !Sized k sz} (dflt : A).

#[export] Instance vector_sized : Sized (vector_codec k dflt) (calc_vector sz).
Proof.
  split.
  - intros vs s [Hvs Hl] Hal.
    destruct (sized_array k sz vs (reserved (if bool_decide (XCDRv2 = sz_version s) then reserved s else s)))
      as (n & s3 & H); [done|by destruct (bool_decide _)|].
    destruct (sized_counted _ s n s3 H) as (n' & s' & Hs & _). eauto.
  - intros vs c s n s' [Hvs Hl] W R E.
    assert (Hal : is_align (sz_align64 s)) by (rewrite (szr_align64 _ _ R), (wf_align64 _ W); apply is_align_64).
    destruct (sized_array k sz vs (reserved (if bool_decide (XCDRv2 = sz_version s) then reserved s else s)))
      as (m & s3 & H); [done|by destruct (bool_decide _)|].
    destruct (sized_counted _ s m s3 H) as (n' & t & Hs & Ht).
    destruct (sized_as_eq _ _ _ _ _ _ Hs E) as [-> ->]. destruct H as (E3 & C3 & N3 & _).
    eapply within_mono; [|symmetry; exact Ht]. pose proof (zlen_nonneg vs).
    cbn [ser vector_codec]. change (serialize_vector k vs) with (counted (u32 (zlen vs)) (serialize_each (ser k) vs)).
    rewrite u32_small by lia. rewrite (szr_version _ _ R) in *. eapply within_counted; try done; try lia.
    intros c2 X2 R2. by eapply (within_each k sz); [|apply X2| |].
Qed.

End Vector.

(** ** Maps *)

Section Map.
Context {K A : Type} (kk : codec K) (ka : codec A) (szk : K -> Sz Z) (sza : A -> Sz Z).
Context `{Kk : !Sized kk szk} `{Ka : !Sized ka sza} (dk : K) (da : A) (ltb : K -> K -> bool).

(** A key and its value, one after the other. *)
Definition pair_codec : codec (K * A) :=
  mkCodec _ (serialize_pair kk ka) ret (fun p => valid kk p.1 /\ valid ka p.2).

#[export] Instance pair_sized : Sized pair_codec (calc_pair szk sza).
Proof.
  split.
  - intros p s [Hk Ha] Hal. destruct (sized_calc (k := kk) p.1 s Hk Hal) as (n1 & s1 & E1 & C1 & N1 & S1).
    destruct (sized_calc (k := ka) p.2 s1 Ha) as (n2 & s2 & E2 & C2 & N2 & S2); [by rewrite (szs_align64 _ _ S1)|].
    exists (n1 + n2), s2. split; [unfold calc_pair, szbind, szret; by rewrite E1, E2|].
    split; [lia|]. split; [lia|by etrans].
  - intros p c s n s' [Hk Ha] W R (n1 & s1 & E1 & H)%szbind_inv. apply szbind_inv in H as (n2 & s2 & E2 & [= <- <-]).
    assert (Hal : is_align (sz_align64 s)) by (rewrite (szr_align64 _ _ R), (wf_align64 _ W); apply is_align_64).
    destruct (sized_calc (k := kk) p.1 s Hk Hal) as (m1 & t1 & H1). destruct (sized_as_eq _ _ _ _ _ _ H1 E1) as [-> ->].
    destruct H1 as (_ & C1 & N1 & S1).
    destruct (sized_calc (k := ka) p.2 t1 Ha) as (m2 & t2 & H2); [by rewrite (szs_align64 _ _ S1)|].
    destruct (sized_as_eq _ _ _ _ _ _ H2 E2) as [-> ->]. destruct H2 as (_ & C2 & N2 & S2).
    eapply (within_bind _ _ c t1 t2); [by eapply sized_within|lia|].
    intros c1 X O. eapply sized_within; [done|apply X| |done]. by eapply sz_rel_next; [|apply X| |].
Qed.

#[export] Instance map_sized : Sized (map_codec kk ka dk da ltb) (calc_map szk sza).
Proof.
  split.
  - intros vs s (Hvs & _ & Hl) Hal.
    destruct (sized_array pair_codec (calc_pair szk sza) vs
                (reserved (if bool_decide (XCDRv2 = sz_version s) then reserved s else s)))
      as (n & s3 & H); [done|by destruct (bool_decide _)|].
    destruct (sized_counted _ s n s3 H) as (n' & s' & Hs & _). eauto.
  - intros vs c s n s' (Hvs & _ & Hl) W R E.
    assert (Hal : is_align (sz_align64 s)) by (rewrite (szr_align64 _ _ R), (wf_align64 _ W); apply is_align_64).
    destruct (sized_array pair_codec (calc_pair szk sza) vs
                (reserved (if bool_decide (XCDRv2 = sz_version s) then reserved s else s)))
      as (m & s3 & H); [done|by destruct (bool_decide _)|].
    destruct (sized_counted _ s m s3 H) as (n' & t & Hs & Ht).
    destruct (sized_as_eq _ _ _ _ _ _ Hs E) as [-> ->]. destruct H as (E3 & C3 & N3 & _).
    eapply within_mono; [|symmetry; exact Ht]. pose proof (zlen_nonneg vs). cbn [ser map_codec].
    change (serialize_map kk ka vs) with (counted (u32 (zlen vs)) (serialize_each (ser pair_codec) vs)).
    rewrite u32_small by lia. rewrite (szr_version _ _ R) in *. eapply within_counted; try done; try lia.
    intros c2 X2 R2. by eapply (within_each pair_codec (calc_pair szk sza)); [|apply X2| |].
Qed.

End Map.

(** ** Vectors of arithmetic types *)

Class SizedArith (k : arith) (arr : Z -> Sz Z) : Prop := mkSizedArith {
  sized_arith_calc n s : 0 <= n -> is_align (sz_align64 s) -> exists m s', sized_as (arr n) s s' m;
  sized_arith_within vs c s n s' : Forall (in_range k) vs -> zlen vs < 2 ^ 32 -> wf c -> sz_rel c s ->
    arr (zlen vs) s = Some (n, s') -> within (ser_array k vs) c s'
}.

Lemma within_array_scalar n al vs c s :
  wf c -> is_align al -> (0 < n <= 16)%nat -> zlen vs < 2 ^ 32 ->
  Forall (fun v => 0 <= v < 2 ^ (8 * Z.of_nat n)) vs -> sz_rel c s ->
  within (serialize_array_scalar n al (wire n) vs) c
    (sz_set_alignment (current_alignment s + (zlen vs * Z.of_nat n + sz_alignment (current_alignment s) al)) s).
Proof.
  intros W Hal Hn Hl Hv R. pose proof (aligned_rel al c s Hal R). pose proof (zlen_nonneg vs).
  pose proof (szr_pos _ _ R). unfold serialize_array_scalar. destruct (Z.eqb_spec (zlen vs) 0) as [Hz|Hz].
  { rewrite Hz. unfold within. wp_steps. split; [by apply ext_refl|]. simpl. rewrite sz_alignment_eq by done.
    pose proof (Z.mod_pos_bound (- current_alignment s) al ltac:(unfold is_align in Hal; lia)). lia. }
  assert (Hb : 0 <= Z.of_nat n * zlen vs < 2 ^ 62) by nia. rewrite size_t_small by lia.
  eapply wp_throws; [apply put_aligned_spec; try done|intros e c' Ht|].
  - eapply (zlen_concat (Z.of_nat n) _ (get_scalar n (swap_bytes_ c))). eapply Forall_impl; [|exact Hv].
    intros v Hr. by apply reads_scalar.
  - apply put_aligned_throws in Ht; try done. simpl. lia.
  - intros [] c' (X & O & _). split; [done|]. rewrite (sc_origin _ _ (ext_config _ _ X)). simpl.
    rewrite (zlen_concat (Z.of_nat n) _ (get_scalar n (swap_bytes_ c))) in O; [lia|].
    eapply Forall_impl; [|exact Hv]. intros v Hr. by apply reads_scalar.
Qed.

Lemma sized_arith_scalar (k : arith) n al :
  is_align al -> (0 < n <= 16)%nat -> (forall v, in_range k v -> 0 <= v < 2 ^ (8 * Z.of_nat n)) ->
  (forall vs, ser_array k vs = serialize_array_scalar n al (wire n) vs) ->
  SizedArith k (fun m => calc_aligned (m * Z.of_nat n) al).
Proof.
  intros Hal Hn Hr Hser. split.
  - intros m s Hm _. eexists _, _. apply sized_calc_aligned; [done|nia].
  - intros vs c s m s' Hv Hl W R [= <- <-]. rewrite Hser. apply within_array_scalar; try done.
    eapply Forall_impl; [|exact Hv]. auto.
Qed.

#[export] Instance int16_arith_sized : SizedArith int16_arith calc_array_int16.
Proof. apply (sized_arith_scalar int16_arith 2 2); try done; try lia. unfold is_align; lia. Qed.
#[export] Instance int32_arith_sized : SizedArith int32_arith calc_array_int32.
Proof. apply (sized_arith_scalar int32_arith 4 4); try done; try lia. unfold is_align; lia. Qed.
#[export] Instance float_arith_sized : SizedArith float_arith calc_array_int32.
Proof. apply (sized_arith_scalar float_arith 4 4); try done; try lia. unfold is_align; lia. Qed.

Lemma sized_arith_scalar64 (k : arith) :
  (forall v, in_range k v -> 0 <= v < 2 ^ 64) ->
  (forall vs, ser_array k vs = (a <-- gets align64_ ;; serialize_array_scalar 8 a (wire 8) vs)) ->
  SizedArith k calc_array_int64.
Proof.
  intros Hr Hser. split.
  - intros m s Hm Hal. eexists _, _. apply sized_calc_aligned; [done|lia].
  - intros vs c s m s' Hv Hl W R [= <- <-]. rewrite Hser, (szr_align64 _ _ R).
    apply (within_array_scalar 8 (align64_ c) vs c s); try done; try lia.
    + rewrite (wf_align64 _ W). apply is_align_64.
    + eapply Forall_impl; [|exact Hv]. auto.
Qed.

#[export] Instance int64_arith_sized : SizedArith int64_arith calc_array_int64.
Proof. by apply sized_arith_scalar64. Qed.
#[export] Instance double_arith_sized : SizedArith double_arith calc_array_int64.
Proof. by apply sized_arith_scalar64. Qed.

#[export] Instance vector_arith_sized (k : arith) arr :
  SizedArith k arr -> Sized (vector_arith_codec k) (calc_vector_arith arr (next_int k)).
Proof.
  intros K.
  assert (Hcalc : forall vs s, is_align (sz_align64 s) -> exists m s3 n s',
    sized_as (arr (zlen vs)) (reserved s) s3 m /\ sized_as (calc_vector_arith arr (next_int k) vs) s s' n /\
    current_alignment s' = current_alignment s3).
  { intros vs s Hal. destruct (sized_arith_calc (zlen vs) (reserved s) (zlen_nonneg vs) Hal) as (m & s3 & H).
    destruct (H) as (E & C & N & []). pose proof (reserved_le s). exists m, s3.
    unfold sized_as, calc_vector_arith, szbind at 1, szgets at 1, szbind at 1.
    change (reserve_uint32 s) with (Some (tt, reserved s)). cbv beta iota.
    unfold szbind at 1, szgets at 1, szbind at 1. rewrite E. unfold if_xcdrv2, szbind, szgets.
    destruct (bool_decide _); (eexists _, _; split; [by split|]; split; [split; [reflexivity|]|done]);
      simpl in *; (split; [lia|]); (split; [lia|]); by split. }
  split.
  - intros vs s _ Hal. destruct (Hcalc vs s Hal) as (? & ? & n & s' & _ & H & _). eauto.
  - intros vs c s n s' [Hvs Hl] W R E.
    assert (Hal : is_align (sz_align64 s)) by (rewrite (szr_align64 _ _ R), (wf_align64 _ W); apply is_align_64).
    destruct (Hcalc vs s Hal) as (m & s3 & n1 & t & (E3 & C3 & N3 & _) & H & Ht).
    destruct (sized_as_eq _ _ _ _ _ _ H E) as [-> ->]. eapply within_mono; [|symmetry; exact Ht].
    pose proof (zlen_nonneg vs). cbn [ser vector_arith_codec]. unfold serialize_vector_arith, serialize_int32, within.
    rewrite u32_small by lia. wp_steps.
    eapply wp_mono; [by apply (within_uint32 (zlen vs) c s)| |intros; simpl in *; lia].
    intros [] c1 [X1 O1]. pose proof (ext_end _ _ X1). pose proof (sc_origin _ _ (ext_config _ _ X1)).
    wp_steps. apply wp_or_restore_end.
    eapply wp_mono; [apply (sized_arith_within vs c1 (reserved s) m s3); [done|done|apply X1|by eapply sz_rel_next; [exact R|apply X1| |]|exact E3]|
                    |intros; simpl in *; lia].
    intros [] c2 [X2 O2]. assert (X : ext c c2) by by eapply ext_trans. wp_steps.
    destruct (bool_decide _); wp_steps; (split; [eauto using ext_sms|done]).
Qed.

End Laws.
