(* ===== verification/CdrTypes.v ===== *)
(** * Encapsulations, plain members and delimited types

    The specifications of the encapsulation header (what [read_encapsulation]
    configures is what [serialize_encapsulation] announced), of members in the
    encodings without member headers, and of types behind a delimiter header. *)

From S2P Require Import Prelude FastBuffer CdrState CdrInv CdrScalar CdrCodec CdrStrings CdrArrays CdrXcdr CdrContainers CdrContainerLaws CdrSafety CdrSize CdrSizeLaws.

(** The version and encoding an encapsulation byte selects on a stream of
    version XCDRv1 or later. *)
Definition version_of_flag (f : EncodingAlgorithmFlag) : CdrVersion :=
  match f with PLAIN_CDR | PL_CDR => XCDRv1 | _ => XCDRv2 end.

Section Types.
Context `{P : Platform}.
Implicit Types c d : Cdr.

(** ** Encapsulation *)

Definition encapsulation_byte (c : Cdr) : Z :=
  Z.lor (flag_num (encoding_flag_ c)) (endianness_num (endianness_ c)).

Lemma wp_insert_value (m : M unit) c Q E :
  next_member_id_ c = MEMBER_ID_INVALID -> wp m c Q E -> wp (insert_value m) c Q E.
Proof. intros H Hm. unfold insert_value. wp_steps. by rewrite H. Qed.

(** A write of octets fails only for lack of room. *)
Lemma put_octets_full bs c :
  wf c -> zlen bs < 2 ^ 62 ->
  wp (put_octets bs) c (fun _ c' => wrote (offset_ c) bs c c')
     (fun e c' => e = NotEnoughMemoryException /\ unwound c c' /\ end_ c < offset_ c + zlen bs).
Proof.
  intros W Hb. pose proof (put_octets_spec bs c W Hb) as Hs. unfold wp in *.
  destruct (put_octets bs c) as [|e c'| |] eqn:E; try done. destruct Hs as [-> U].
  split; [done|]. split; [done|]. by eapply put_octets_throws.
Qed.

(** [c'] is [c] behind an encapsulation header. *)
Record encapsulated (c c' : Cdr) : Prop := mkEncapsulated {
  en_wf : wf c';
  en_offset : offset_ c' = offset_ c + 4;
  en_origin : origin_ c' = offset_ c + 4;
  en_version : cdr_version_ c' = cdr_version_ c;
  en_endianness : endianness_ c' = endianness_ c;
  en_swap : swap_bytes_ c' = swap_bytes_ c;
  en_flag : encoding_flag_ c' = encoding_flag_ c;
  en_encoding : current_encoding_ c' = encoding_flag_ c;
  en_member : next_member_id_ c' = next_member_id_ c;
  en_options : options_ c' = options_ c;
  en_internal : m_internalBuffer (cdr_buffer_ c') = m_internalBuffer (cdr_buffer_ c);
  en_mem : agree 0 (offset_ c) (mem c) (mem c');
  en_end : end_ c <= end_ c';
  en_fixed : fixed_end c c'
}.

Lemma encapsulation_byte_range c : 0 <= encapsulation_byte c < 256.
Proof. unfold encapsulation_byte. by destruct (encoding_flag_ c), (endianness_ c). Qed.

Lemma mread_app_r m p bs1 bs2 :
  0 <= p -> mread m p (zlen bs1) = Some bs1 -> mread m (p + zlen bs1) (zlen bs2) = Some bs2 ->
  mread m p (zlen (bs1 ++ bs2)) = Some (bs1 ++ bs2).
Proof.
  intros Hp. unfold mread. pose proof (zlen_nonneg bs1). pose proof (zlen_nonneg bs2).
  assert (Hz : zlen (bs1 ++ bs2) = zlen bs1 + zlen bs2) by (unfold zlen; rewrite length_app; lia).
  destruct (Z.eqb_spec (zlen bs1) 0) as [E1|E1].
  { intros _. rewrite (zlen_0 bs1 E1) in *. simpl. change (zlen []) with 0. by rewrite Z.add_0_r. }
  destruct (in_block m p (zlen bs1)) eqn:B1; [|done]. intros [= H1].
  destruct (Z.eqb_spec (zlen bs2) 0) as [E2|E2].
  { intros _. rewrite (zlen_0 bs2 E2) in *. rewrite app_nil_r.
    destruct (Z.eqb_spec (zlen bs1) 0); [done|]. rewrite B1. by f_equal. }
  destruct (in_block m (p + zlen bs1) (zlen bs2)) eqn:B2; [|done]. intros [= H2].
  apply in_block_true in B1, B2. destruct (Z.eqb_spec (zlen (bs1 ++ bs2)) 0); [lia|].
  replace (in_block m p (zlen (bs1 ++ bs2))) with true by (symmetry; apply in_block_true; lia).
  f_equal. rewrite Hz, Z2Nat.inj_add by lia. rewrite <- H1 at 2. rewrite <- H2 at 2.
  rewrite Z2Nat.inj_add by lia. rewrite <- drop_drop. symmetry. apply take_take_drop.
Qed.

Lemma serialize_encapsulation_law c :
  wf c -> next_member_id_ c = MEMBER_ID_INVALID -> cdr_version_ c <> CORBA_CDR ->
  Forall is_byte (options_ c) -> zlen (options_ c) = 2 ->
  wp serialize_encapsulation c
     (fun _ c' => encapsulated c c' /\
        mread (mem c') (offset_ c) 4 = Some (0 :: encapsulation_byte c :: options_ c))
     (fun e c' => e = NotEnoughMemoryException /\ end_ c < offset_ c + 4 /\ offset_ c' = offset_ c).
Proof.
  intros W Hm Hv Hopt Hol. pose proof (wf_offset _ W).
  assert (Hdds : forall c1, cdr_version_ c1 = cdr_version_ c -> ddscdr c1 = true)
    by (intros c1 E; unfold ddscdr; rewrite E; by destruct (cdr_version_ c)).
  assert (Ho : map u8 (options_ c) = options_ c).
  { rewrite <- (map_id (options_ c)) at 2. apply map_ext_Forall. eapply Forall_impl; [|exact Hopt].
    intros b Hb. unfold is_byte, u8 in *. rewrite Z.mod_small; lia. }
  unfold serialize_encapsulation, serialize_char. wp_steps. rewrite Hdds by done.
  apply wp_insert_value; [done|]. eapply wp_mono; [by apply put_octets_full| |].
  2:{ intros e c' (-> & U & Hend). wp_steps. change (zlen [u8 0]) with 1 in Hend. split; [done|].
      split; [lia|done]. }
  intros [] c1 (X1 & O1 & M1 & _). change (zlen [u8 0]) with 1 in *. pose proof (ext_wf _ _ X1) as W1.
  destruct (ext_config _ _ X1) as []. pose proof (ext_end _ _ X1).
  wp_steps. rewrite sc_flag, sc_endianness. fold (encapsulation_byte c).
  set (b := encapsulation_byte c). assert (Hb : u8 b = b) by (apply Z.mod_small, encapsulation_byte_range).
  apply wp_insert_value; [congruence|]. eapply wp_mono; [by apply put_octets_full| |].
  2:{ intros e c' (-> & U & Hend). wp_steps. change (zlen [u8 b]) with 1 in Hend. split; [done|].
      split; [lia|done]. }
  intros [] c2 (X2 & O2 & M2 & _). change (zlen [u8 b]) with 1 in *. pose proof (ext_wf _ _ X2) as W2.
  pose proof (ext_end _ _ X2). destruct (ext_config _ _ X2) as [].
  wp_steps. rewrite (Hdds (set_current_encoding_ _ _)) by (cdr_simpl; congruence). wp_steps. cdr_simpl.
  set (c2' := set_current_encoding_ (encoding_flag_ c2) c2).
  assert (W2' : wf c2') by (destruct W2; by split).
  unfold serialize_array_char. replace (options_ c2) with (options_ c) by congruence. rewrite Ho.
  eapply wp_mono; [by apply put_octets_full; [|lia]| |].
  2:{ intros e c' (-> & U & Hend). wp_steps. change (offset_ c2') with (offset_ c2) in *.
      change (end_ c2') with (end_ c2) in *. split; [done|]. split; [lia|done]. }
  intros [] c3 (X3 & O3 & M3 & _). change (offset_ c2') with (offset_ c2) in *. wp_steps.
  pose proof (ext_wf _ _ X3) as W3. destruct (ext_config _ _ X3) as []. pose proof (ext_end _ _ X3).
  pose proof (wf_offset _ W3). unfold c2' in *. cdr_simpl.
  assert (Hmem : agree 0 (offset_ c2) (mem c2) (mem c3)) by apply (ext_mem _ _ X3).
  split.
  - split; cdr_simpl; try congruence; try lia.
    + destruct W3. split; cdr_simpl; try done; lia.
    + etrans; [exact (ext_mem _ _ X1)|].
      eapply agree_trans; (eapply agree_weaken; [exact (ext_mem _ _ X2) || exact Hmem|lia|lia]).
    + intros Hi. cdr_simpl. rewrite <- (ext_fixed _ _ X1 Hi), <- (ext_fixed _ _ X2) by congruence.
      apply (ext_fixed _ _ X3). cdr_simpl. congruence.
  - pose proof (wf_mem_length _ W3). change (mem (reset_alignment c3)) with (mem c3).
    rewrite Hb in M2. replace 4 with (zlen ([0] ++ [b] ++ options_ c)) by (unfold zlen in *; simpl; lia).
    apply mread_app_r; [lia| |].
    + eapply mread_agree; [exact M1| |cdr_simpl; change (zlen [0]) with 1; lia].
      change (zlen [0]) with 1.
      eapply agree_trans; (eapply agree_weaken; [exact (ext_mem _ _ X2) || exact Hmem|lia|lia]).
    + apply mread_app_r; change (zlen [0]) with 1; [lia| |].
      * replace (offset_ c + 1) with (offset_ c1) by lia. eapply mread_agree; [exact M2| |].
        -- eapply agree_weaken; [exact Hmem|lia|change (zlen [b]) with 1; lia].
        -- change (zlen [b]) with 1. lia.
      * change (zlen [b]) with 1. replace (offset_ c + 1 + 1) with (offset_ c2) by lia. exact M3.
Qed.

Lemma get_octets_known {A} n bs (k : list Z -> M A) d Q E :
  wf d -> mread (mem d) (offset_ d) n = Some bs -> 0 <= n -> offset_ d + n <= end_ d ->
  wp (k bs) (set_offset_ (offset_ d + n) (set_last_data_size_ 1 d)) Q E ->
  wp (get_octets n (b <-- get n ;; k b)) d Q E.
Proof.
  intros W Hm Hn He H. apply get_octets_spec; [done|done|done|]. wp_steps.
  by eapply get_known.
Qed.

Lemma wf_octets_read n d :
  wf d -> 0 <= n -> offset_ d + n <= end_ d -> wf (set_offset_ (offset_ d + n) (set_last_data_size_ 1 d)).
Proof. intros [] ? ?. split; cdr_simpl; try done; lia. Qed.

(** [change_endianness] keeps the byte order and the swap flag together. *)
Lemma change_endianness_ok e d :
  endian_ok d -> endian_ok (change_endianness e d) /\ endianness_ (change_endianness e d) = e.
Proof.
  unfold endian_ok, change_endianness. intros H. destruct (bool_decide_reflect (endianness_ d = e)); [done|].
  cdr_simpl. split; [|done]. rewrite H, negb_involutive. unfold DEFAULT_ENDIAN.
  destruct big_endian_target, (endianness_ d), e; done.
Qed.

Lemma change_endianness_frame e d :
  exists e' s', change_endianness e d = set_endianness_ e' (set_swap_bytes_ s' d).
Proof.
  unfold change_endianness. destruct (bool_decide _); [|eauto].
  exists (endianness_ d), (swap_bytes_ d). by destruct d.
Qed.

(** What [read_encapsulation] makes of a header with flag [f], byte order [e]
    and options [o]. *)
Record configured (f : EncodingAlgorithmFlag) (e : Endianness) (o : list Z) (d d' : Cdr) : Prop := mkConfigured {
  cf_wf : wf d';
  cf_offset : offset_ d' = offset_ d + 4;
  cf_origin : origin_ d' = offset_ d + 4;
  cf_buffer : cdr_buffer_ d' = cdr_buffer_ d;
  cf_version : cdr_version_ d' = version_of_flag f;
  cf_endianness : endianness_ d' = e;
  cf_endian_ok : endian_ok d';
  cf_flag : encoding_flag_ d' = f;
  cf_encoding : current_encoding_ d' = f;
  cf_options : options_ d' = o;
  cf_member : next_member_id_ d' = next_member_id_ d
}.

Lemma flag_of_encapsulation f e :
  flag_of_byte (Z.land (Z.lor (flag_num f) (endianness_num e)) 0xFE) = Some f.
Proof. by destruct f, e. Qed.

Lemma endianness_of_encapsulation f e :
  (if Z.land (Z.lor (flag_num f) (endianness_num e)) 1 =? 0 then BIG_ENDIANNESS else LITTLE_ENDIANNESS) = e.
Proof. by destruct f, e. Qed.

Lemma select_version_spec f d (Q : unit -> Cdr -> Prop) E b :
  at_least_xcdrv1 d = true -> flag_of_byte b = Some f ->
  Q tt (set_align64_ (align64_of (version_of_flag f)) (set_cdr_version_ (version_of_flag f) d)) ->
  wp (select_version b) d Q E.
Proof. intros Hx Hf HQ. unfold select_version. wp_steps. rewrite Hx, Hf. by destruct f; wp_steps. Qed.

Lemma read_encapsulation_law f e o d :
  wf d -> endian_ok d -> at_least_xcdrv1 d = true -> zlen o = 2 -> offset_ d + 4 <= end_ d ->
  mread (mem d) (offset_ d) 4 = Some (0 :: Z.lor (flag_num f) (endianness_num e) :: o) ->
  wp read_encapsulation d (fun _ d' => configured f e o d d') (fun _ _ => False).
Proof.
  intros W He Hx Ho Hend Hm. pose proof (wf_offset _ W).
  assert (Hd : ddscdr d = true) by (unfold ddscdr, at_least_xcdrv1 in *; by destruct (cdr_version_ d)).
  change 4 with (1 + 3) in Hm. apply mread_split in Hm as [M1 Hm]; try lia. simpl in M1, Hm.
  change 3 with (1 + 2) in Hm. apply mread_split in Hm as [M2 M3]; try lia. simpl in M2, M3. rewrite take_0 in M2. rewrite drop_0 in M3.
  unfold read_encapsulation. wp_steps. rewrite Hd. wp_steps.
  eapply get_octets_known; [done|exact M1|lia|lia|]. wp_steps. simpl. wp_steps.
  set (d1 := set_offset_ _ _). assert (W1 : wf d1) by (apply wf_octets_read; [done|lia|lia]).
  eapply get_octets_known; [done|exact M2|lia|unfold d1; cdr_simpl; lia|]. wp_steps.
  set (d2 := set_offset_ _ _). assert (W2 : wf d2) by (apply wf_octets_read; [done|lia|unfold d1; cdr_simpl; lia]).
  change (le_value [Z.lor (flag_num f) (endianness_num e)])
    with (Z.lor (flag_num f) (endianness_num e) + 256 * 0).
  rewrite Z.mul_0_r, Z.add_0_r, endianness_of_encapsulation, flag_of_encapsulation.
  destruct (change_endianness_ok e d2 He) as [He2 Ee2]. destruct (change_endianness_frame e d2) as (e' & s' & Ec).
  rewrite Ec in *. cdr_simpl. apply (select_version_spec f); [done|apply flag_of_encapsulation|]. wp_steps.
  set (d3 := set_current_encoding_ _ _).
  assert (Hd3 : ddscdr d3 = true) by (unfold d3; by destruct f). rewrite Hd3. wp_steps.
  assert (W3 : wf d3).
  { destruct W2. unfold d3, reset_callbacks. split; cdr_simpl; by destruct f. }
  unfold deserialize_array_char.
  assert (F3 : offset_ d3 = offset_ d + 1 + 1 /\ end_ d3 = end_ d /\ cdr_buffer_ d3 = cdr_buffer_ d /\
    cdr_version_ d3 = version_of_flag f /\ endianness_ d3 = e /\ endian_ok d3 /\ encoding_flag_ d3 = f /\
    current_encoding_ d3 = f /\ next_member_id_ d3 = next_member_id_ d) by done.
  clearbody d3. destruct F3 as (O3 & E3 & B3 & V3 & N3 & K3 & F3 & C3 & I3).
  apply get_octets_spec; [done|lia|lia|]. apply (get_known _ o).
  { unfold mem in *. cdr_simpl. by rewrite O3, B3. }
  wp_steps. destruct W3. split; cdr_simpl; try done; try lia. split; cdr_simpl; try done; lia.
Qed.

(** ** Arbitrary encapsulations *)

(** What is left of a stream after something was decoded, or failed to be: the
    bytes are the same, and the position is in the buffer. *)
Record visited (d d' : Cdr) : Prop := mkVisited {
  vi_wf : wf d';
  vi_buffer : cdr_buffer_ d' = cdr_buffer_ d;
  vi_offset : offset_ d <= offset_ d'
}.

Lemma visited_refl d : wf d -> visited d d.
Proof. intros. split; [done|done|lia]. Qed.

Lemma visited_trans d1 d2 d3 : visited d1 d2 -> visited d2 d3 -> visited d1 d3.
Proof. intros [] []. split; [done|congruence|lia]. Qed.

Lemma advanced_visited d d' : advanced d d' -> visited d d'.
Proof. intros []. by split. Qed.

Lemma visited_octets d d' : octets d -> visited d d' -> octets d'.
Proof. unfold octets, mem. intros B V. by rewrite (vi_buffer _ _ V). Qed.

Lemma visited_set_state d d' : wf d -> visited d d' -> visited d (set_state (get_state d) d').
Proof.
  intros [] [[] Hb ?]. rewrite Hb in *. split; cdr_simpl; try done.
  split; cdr_simpl; try done; try congruence; lia.
Qed.

Lemma wp_safe_visited {A} (m : M A) d0 d (Q : A -> Cdr -> Prop) (E : exn -> Cdr -> Prop) :
  Safe m -> octets d0 -> visited d0 d -> (forall a d', visited d0 d' -> Q a d') ->
  (forall e d', visited d0 d' -> E e d') -> wp m d Q E.
Proof.
  intros Hm B V HQ HE. eapply wp_mono; [apply Hm; [apply V|by eapply visited_octets]| |];
    intros ? ? Ad; cbn beta in Ad; eauto using visited_trans, advanced_visited.
Qed.

(** Whatever the bytes of the encapsulation are, [read_encapsulation] stays in
    the buffer and leaves a sound stream. *)
Lemma read_encapsulation_safe d :
  wf d -> octets d -> wp read_encapsulation d (fun _ d' => visited d d') (fun _ d' => visited d d').
Proof.
  intros W B. pose proof (visited_refl d W) as V0.
  unfold read_encapsulation. apply wp_bind, wp_gets, wp_bind, wp_try.
  match goal with |- wp ?m d ?Q ?E => enough (Hbody : wp m d (fun _ d' => visited d d') (fun _ d' => visited d d')) end.
  { eapply wp_mono; [exact Hbody| |].
    - intros [] d' V. cbn beta in V. wp_steps. destruct V as [[] ? ?].
      split; cdr_simpl; try done; split; cdr_simpl; done || lia.
    - intros e d' V. wp_steps. by apply visited_set_state. }
  wp_steps.
  match goal with |- wp (if ddscdr d then ?m else ?m') d ?Q ?E =>
    enough (Hrest : forall d1, visited d d1 -> Q tt d1) end.
  { destruct (ddscdr d); [|by apply wp_ret, Hrest]. wp_steps.
    apply (wp_safe_visited _ d d); try done; [apply safe_char|]. intros a d1 V1.
    destruct (negb _); [by wp_steps|]. by apply wp_ret, Hrest. }
  intros d1 V1. wp_steps. apply (wp_safe_visited _ d d1); try done; [apply safe_char|]. intros b d2 V2. wp_steps.
  set (e := if _ =? 0 then BIG_ENDIANNESS else LITTLE_ENDIANNESS).
  assert (V3 : visited d (change_endianness e d2)).
  { destruct (change_endianness_frame e d2) as (e' & s' & ->). destruct V2 as [[] ? ?]. by split. }
  set (d3 := change_endianness e d2) in *. clearbody d3.
  match goal with |- wp (select_version _) d3 ?Q ?E =>
    enough (Hsel : forall v al, visited d (set_callbacks_ (callbacks_of v) (set_align64_ al (set_cdr_version_ v d3))) ->
              Q tt (set_align64_ al (set_cdr_version_ v d3))) end.
  { assert (Hv : forall v, visited d (set_callbacks_ (callbacks_of v) (set_align64_ (align64_of v) (set_cdr_version_ v d3)))).
    { intros v. destruct V3 as [[] ? ?]. by split. }
    assert (Hid : set_align64_ (align64_ d3) (set_cdr_version_ (cdr_version_ d3) d3) = d3) by by destruct d3.
    unfold select_version. wp_steps.
    destruct (flag_of_byte _) as [[]|]; [..|by wp_steps]; destruct (at_least_xcdrv1 d3); try (by wp_steps);
      try (apply wp_modify, Hsel; apply (Hv XCDRv1) || apply (Hv XCDRv2)).
    apply wp_ret. rewrite <- Hid. apply Hsel. rewrite (wf_align64 _ (vi_wf _ _ V3)). apply Hv. }
  intros v al V4. wp_steps.
  assert (Ecb : reset_callbacks (set_align64_ al (set_cdr_version_ v d3)) =
                set_callbacks_ (callbacks_of v) (set_align64_ al (set_cdr_version_ v d3)))
    by (unfold reset_callbacks; cdr_simpl; by destruct v).
  rewrite Ecb. set (d4 := set_callbacks_ _ _) in *. clearbody d4.
  match goal with |- wp _ d4 ?Q ?E => enough (Hopt : forall d5, visited d d5 -> Q tt d5) end.
  { destruct (flag_of_byte _); [apply wp_modify, Hopt|by apply wp_ret, Hopt]. destruct V4 as [[] ? ?]. by split. }
  intros d5 V5. wp_steps. destruct (ddscdr d5); [|by wp_steps]. wp_steps.
  apply (wp_safe_visited _ d d5); try done.
  - unfold deserialize_array_char. apply consumes_octets; [lia|]. apply consumes_get. lia.
  - intros o d6 V6. wp_steps. destruct V6 as [[] ? ?]. by split.
Qed.

End Types.
