(* ===== verification/CdrStruct.v ===== *)
(** * Structures

    The code generated for a structure serializes its members one after the
    other between [begin_serialize_type] and [end_serialize_type], and decodes
    them in a functor that switches on the member identifier.  A structure is
    given here by the list of its members; the theorems show that a structure
    of lawful members round trips in XCDRv1 and behind the delimiter header of
    XCDRv2, and never takes more space than the calculator asks for. *)

From S2P Require Import Prelude FastBuffer CdrState CdrInv CdrScalar CdrCodec CdrStrings CdrArrays CdrXcdr CdrContainers CdrContainerLaws CdrSafety CdrSize CdrSizeLaws CdrTypes.

(** A member of a structure of type [A]: how it is serialized, how it is
    decoded into an object, what decoding the member of [v] makes of an object
    [old], and its size calculation. *)
Record field (A : Type) := mkField {
  fser : A -> M unit;
  fdes : A -> M A;
  fcopy : A -> A -> A;
  fsize : A -> Sz Z
}.
Arguments fser {A} _ _.
Arguments fdes {A} _ _.
Arguments fcopy {A} _ _ _.
Arguments fsize {A} _ _.

Section Struct.
Context `{P : Platform} {A : Type}.
Implicit Types (c d : Cdr) (fs : list (field A)) (v old : A).

(** [scdr << MemberId(i) << data.f() << MemberId(i + 1) << ...] *)
Fixpoint serialize_fields (i : Z) (fs : list (field A)) (v : A) : M unit :=
  match fs with
  | [] => ret tt
  | f :: fs' =>
      insert_member_id (mkMemberId i false) ;;;
      insert_value (fser f v) ;;;
      serialize_fields (i + 1) fs' v
  end.

(** The switch of the functor passed to [deserialize_type]. *)
Definition struct_functor (fs : list (field A)) (data : A) (mid : MemberId) : M (bool * A) :=
  match (if id mid <? 0 then None else fs !! Z.to_nat (id mid)) with
  | Some f => data' <-- fdes f data ;; ret (true, data')
  | None => ret (false, data)
  end.

(** [calculated_size += calculator.calculate_member_serialized_size(MemberId(i), data.f(), ...)],
    member by member. *)
Fixpoint calc_fields (i : Z) (fs : list (field A)) (v : A) : Sz Z :=
  match fs with
  | [] => szret 0
  | f :: fs' =>
      n <~ calc_member i (fsize f v) ;;
      m <~ calc_fields (i + 1) fs' v ;;
      szret (n + m)
  end.

(** The encoding a generated type asks for. *)
Definition appendable_encoding (v : CdrVersion) : EncodingAlgorithmFlag :=
  if bool_decide (XCDRv2 = v) then DELIMIT_CDR2 else PLAIN_CDR.

Definition serialize_struct (fs : list (field A)) (v : A) : M unit :=
  current_state <-- gets get_state ;;
  version <-- gets cdr_version_ ;;
  current_state <-- begin_serialize_type current_state (appendable_encoding version) ;;
  serialize_fields 0 fs v ;;;
  end_serialize_type current_state.

Definition deserialize_struct (fs : list (field A)) (fuel : nat) (data : A) : M A :=
  version <-- gets cdr_version_ ;;
  deserialize_type (struct_functor fs) fuel (appendable_encoding version) data.

Definition calc_struct (fs : list (field A)) (v : A) : Sz Z :=
  previous_encoding <~ szgets sz_encoding ;;
  version <~ szgets sz_version ;;
  calculated_size <~ begin_calculate_type_serialized_size (appendable_encoding version) ;;
  n <~ calc_fields 0 fs v ;;
  m <~ end_calculate_type_serialized_size previous_encoding ;;
  szret (calculated_size + n + m).

(** ** Members without headers *)

Lemma set_next_id c m : set_next_member_id_ (next_member_id_ c) (set_next_member_id_ m c) = c.
Proof. by destruct c. Qed.

Definition finish_member (c : Cdr) : Cdr :=
  match callbacks_ c with
  | Xcdr2Callbacks =>
      set_serialized_member_size_ NO_SERIALIZED_MEMBER_SIZE (set_next_member_id_ MEMBER_ID_INVALID c)
  | _ => set_next_member_id_ MEMBER_ID_INVALID c
  end.

Definition plain (e : EncodingAlgorithmFlag) : Prop := e <> PL_CDR /\ e <> PL_CDR2.

Lemma wp_plain_member mid (m : M unit) c Q E :
  next_member_id_ c = MEMBER_ID_INVALID -> id mid <> 0xFFFFFFFF -> plain (current_encoding_ c) ->
  wp m c (fun _ c1 => same_config c c1 /\ Q tt (finish_member c1)) E ->
  wp (insert_member_id mid ;;; insert_value m) c Q E.
Proof.
  intros Hn Hid [Hp1 Hp2] Hm. unfold insert_member_id. wp_steps. rewrite Hn. simpl. wp_steps.
  set (c0 := set_next_member_id_ mid c).
  assert (E0 : set_next_member_id_ MEMBER_ID_INVALID c0 = c) by (rewrite <- Hn; apply set_next_id).
  assert (Hpl : bool_decide (PL_CDR = current_encoding_ c0) = false /\
                bool_decide (PL_CDR2 = current_encoding_ c0) = false)
    by (split; apply bool_decide_eq_false_2; unfold c0; cdr_simpl; congruence).
  destruct Hpl as [Hpl1 Hpl2].
  unfold insert_value. wp_steps. assert (Em : MemberId_eqb MEMBER_ID_INVALID (next_member_id_ c0) = false)
    by (apply Z.eqb_neq; intros Eq; by apply Hid).
  rewrite Em.
  unfold serialize_member. wp_steps. unfold begin_serialize_member, end_serialize_member. wp_steps.
  destruct (callbacks_ c0) eqn:Ecb; change (callbacks_ c0) with (callbacks_ c) in Ecb.
  - unfold cdr_begin_serialize_member. wp_steps. rewrite E0. eapply wp_mono; [exact Hm| |done].
    intros [] c1 [S HQ]. wp_steps. unfold finish_member in HQ. rewrite (sc_callbacks _ _ S), Ecb in *.
    unfold cdr_end_serialize_member. by wp_steps.
  - unfold xcdr1_begin_serialize_member. wp_steps. rewrite Hpl1. wp_steps. rewrite E0.
    eapply wp_mono; [exact Hm| |done]. intros [] c1 [S HQ]. wp_steps.
    unfold finish_member in HQ. rewrite (sc_callbacks _ _ S), Ecb in *.
    unfold xcdr1_end_serialize_member. wp_steps. rewrite (sc_encoding _ _ S).
    change (current_encoding_ c0) with (current_encoding_ c) in Hpl1. rewrite Hpl1. by wp_steps.
  - unfold xcdr2_begin_serialize_member. wp_steps. rewrite Hpl2. simpl. wp_steps. rewrite E0.
    eapply wp_mono; [exact Hm| |done]. intros [] c1 [S HQ]. wp_steps.
    unfold finish_member in HQ. rewrite (sc_callbacks _ _ S), Ecb in *.
    unfold xcdr2_end_serialize_member. wp_steps. rewrite (sc_encoding _ _ S).
    change (current_encoding_ c0) with (current_encoding_ c) in Hpl2. rewrite Hpl2.
    rewrite andb_false_r. by wp_steps.
Qed.

Lemma ext_finish_member c c1 :
  next_member_id_ c = MEMBER_ID_INVALID -> ext c c1 -> ext c (finish_member c1).
Proof.
  intros Hn X. assert (E : set_next_member_id_ MEMBER_ID_INVALID c1 = c1).
  { rewrite <- Hn, <- (sc_member _ _ (ext_config _ _ X)). by destruct c1. }
  unfold finish_member. rewrite E. destruct (callbacks_ c1); eauto using ext_sms.
Qed.

(** ** The members of a structure round trip *)

(** The contract of a member, with the value [v] of the structure. *)
Definition field_law (v : A) (f : field A) : Prop :=
  forall c, wf c ->
  wp (fser f v) c
     (fun _ c' => ext c c' /\ offset_ c < offset_ c' /\
                  (offset_ c' < 2 ^ 32 -> forall old, stored (fdes f old) (fcopy f v old) c c'))
     (aborted c).

(** The object after all members were decoded into [old]. *)
Definition copy_fields (fs : list (field A)) (v old : A) : A := fold_left (fun o f => fcopy f v o) fs old.

(** [d'] is [d] with data read and another member identifier. *)
Definition moved (d d' : Cdr) : Prop := exists m, advanced (set_next_member_id_ m d) d'.

Lemma advanced_next m d d' : advanced d d' -> advanced (set_next_member_id_ m d) (set_next_member_id_ m d').
Proof. intros [[] [] ? ?]. split; cdr_simpl; try done; split; cdr_simpl; try done; congruence. Qed.

Lemma moved_set m d : wf d -> moved d (set_next_member_id_ m d).
Proof. intros []. exists m. apply advanced_refl. by split. Qed.

Lemma moved_advanced d d' : advanced d d' -> moved d d'.
Proof.
  intros Ad. exists (next_member_id_ d). replace (set_next_member_id_ (next_member_id_ d) d) with d; [done|].
  by destruct d.
Qed.

Lemma moved_trans d1 d2 d3 : moved d1 d2 -> moved d2 d3 -> moved d1 d3.
Proof.
  intros [m1 A1] [m2 A2]. exists m2. eapply advanced_trans; [|exact A2].
  apply (advanced_next m2) in A1. by destruct d1.
Qed.

Lemma moved_wf d d' : moved d d' -> wf d'.
Proof. intros [m []]. done. Qed.

Lemma moved_end d d' : wf d -> moved d d' -> end_ d' = end_ d.
Proof.
  intros W [m Ad]. assert (W' : wf (set_next_member_id_ m d)) by (destruct W; by split).
  apply (advanced_end _ _ W' Ad).
Qed.

Lemma moved_mem d d' : moved d d' -> mem d' = mem d.
Proof. intros [m Ad]. apply (advanced_mem _ _ Ad). Qed.

Lemma moved_reader c c' d d' :
  same_config c c' -> reader c d -> moved d d' -> offset_ d' = offset_ c' -> reader c' d'.
Proof. intros [] [] [m [? [] ? ?]] ?. cdr_simpl. split; congruence. Qed.

(** How the loop of [deserialize_type] decodes the members [fs], numbered from
    [i], that were serialized between [c] and [c']. *)
Definition loop_stored (i : Z) (fs : list (field A)) (v : A) (c c' : Cdr) : Prop :=
  forall (functor : A -> MemberId -> M (bool * A)) fuel (more : Cdr -> bool) data d,
  (forall j f o b, fs !! j = Some f ->
     functor o (mkMemberId (i + Z.of_nat j) b) = (x <-- fdes f o ;; ret (true, x))) ->
  (forall o b, functor o (mkMemberId (i + zlen fs) b) = ret (false, o)) ->
  (length fs < fuel)%nat -> i + zlen fs < 2 ^ 32 -> 0 <= i ->
  (forall d', offset_ c <= offset_ d' < offset_ c' -> end_ d' = end_ d -> more d' = true) ->
  reader c d -> id (next_member_id_ d) = i -> agree (offset_ c) (offset_ c') (mem c') (mem d) ->
  offset_ c' <= end_ d ->
  wp (members_loop functor fuel more data) d
     (fun data' d' => data' = copy_fields fs v data /\ moved d d' /\ offset_ d' = offset_ c')
     (fun _ _ => False).

Lemma loop_stored_nil i v c : wf c -> loop_stored i [] v c c.
Proof.
  intros W functor fuel more data d _ Hlast Hf _ _ _ R Hi _ _. destruct fuel as [|fuel]; [simpl in Hf; lia|].
  simpl. wp_steps. destruct (more d).
  - wp_steps. destruct (next_member_id_ d) as [j b] eqn:E. simpl in Hi. subst j.
    change (zlen []) with 0 in Hlast. rewrite Z.add_0_r in Hlast. rewrite Hlast. wp_steps. simpl. wp_steps.
    split; [done|]. split; [|apply R]. apply moved_advanced, advanced_refl, R.
  - wp_steps. split; [done|]. split; [|apply R]. apply moved_advanced, advanced_refl, R.
Qed.

Lemma loop_stored_cons i f fs v c c1 c1' c2 :
  (forall old, stored (fdes f old) (fcopy f v old) c c1) -> ext c c1 -> ext c c1' -> offset_ c1' = offset_ c1 ->
  mem c1' = mem c1 -> offset_ c < offset_ c1 -> ext c1' c2 ->
  loop_stored (i + 1) fs v c1' c2 -> loop_stored i (f :: fs) v c c2.
Proof.
  intros S1 X1 X1' O1' M1' P1 X2 IH functor fuel more data d Hf Hlast Hfuel Hb Hi Hmore R Hid Ha He.
  assert (Hz : zlen (f :: fs) = zlen fs + 1) by (unfold zlen; simpl; lia). rewrite Hz in *.
  destruct fuel as [|fuel]; [simpl in Hfuel; lia|]. simpl. wp_steps.
  pose proof (ext_offset _ _ X2). pose proof (zlen_nonneg fs). pose proof (reader_nonneg _ _ R).
  rewrite Hmore by (done || rewrite (rd_offset _ _ R); lia). wp_steps.
  destruct (next_member_id_ d) as [j b] eqn:Ej. simpl in Hid. subst j.
  pose proof (Hf 0%nat f data b eq_refl) as Hf0. simpl in Hf0. rewrite Z.add_0_r in Hf0. rewrite Hf0. wp_steps.
  eapply wp_mono; [apply S1; [done| |lia]| |done].
  { rewrite <- M1', <- O1'. by eapply agree_ext. }
  intros x d1 (-> & A1 & E1). wp_steps. simpl. wp_steps.
  pose proof (rd_wf _ _ R) as W. pose proof (advanced_end _ _ W A1) as Hend.
  assert (Hn1 : next_member_id_ d1 = mkMemberId i b) by (rewrite (sc_member _ _ (ad_config _ _ A1)); done).
  set (d1' := incr_member_id d1).
  assert (Mv : moved d d1').
  { eapply moved_trans; [by apply moved_advanced|]. apply moved_set, A1. }
  eapply wp_mono; [apply (IH functor fuel more (fcopy f v data) d1')| |done].
  - intros k g o b' Hk. specialize (Hf (S k) g o b' Hk). rewrite <- Hf. do 2 f_equal. lia.
  - intros o b'. rewrite <- (Hlast o b'). do 2 f_equal. lia.
  - simpl in Hfuel. lia.
  - lia.
  - lia.
  - intros d' Hd' Ee. apply Hmore; [lia|]. rewrite Ee. unfold d1', incr_member_id. cdr_simpl. done.
  - eapply moved_reader; [exact (ext_config _ _ X1')|done|done|]. unfold d1', incr_member_id. cdr_simpl. lia.
  - unfold d1', incr_member_id. rewrite Hn1. cdr_simpl. apply u32_small. lia.
  - rewrite (moved_mem _ _ Mv). eapply agree_weaken; [exact Ha|lia|lia].
  - rewrite (moved_end _ _ W Mv). lia.
  - intros data' d2 (-> & M2 & O2). split; [done|]. split; [by eapply moved_trans|done].
Qed.

Lemma serialize_fields_law i fs v c :
  Forall (field_law v) fs -> wf c -> next_member_id_ c = MEMBER_ID_INVALID -> plain (current_encoding_ c) ->
  0 <= i -> i + zlen fs < 2 ^ 32 - 1 ->
  wp (serialize_fields i fs v) c
     (fun _ c' => ext c c' /\ offset_ c + zlen fs <= offset_ c' /\
                  (offset_ c' < 2 ^ 32 -> loop_stored i fs v c c'))
     (fun e _ => e = NotEnoughMemoryException).
Proof.
  intros Hfs. revert i c. induction Hfs as [|f fs Hf Hfs IH]; intros i c W Hn Hp Hi Hb; simpl.
  - wp_steps. split; [by apply ext_refl|]. split; [unfold zlen; simpl; lia|]. intros _. by apply loop_stored_nil.
  - assert (Hz : zlen (f :: fs) = zlen fs + 1) by (unfold zlen; simpl; lia). rewrite Hz in *.
    pose proof (zlen_nonneg fs).
    assert (Hassoc : forall Q E, wp ((insert_member_id (mkMemberId i false) ;;; insert_value (fser f v)) ;;;
               serialize_fields (i + 1) fs v) c Q E ->
             wp (insert_member_id (mkMemberId i false) ;;; insert_value (fser f v) ;;;
               serialize_fields (i + 1) fs v) c Q E).
    { intros Q E. unfold wp, bind. by destruct (insert_member_id _ c) as [? c0| | |]; [destruct (insert_value _ c0)|..]. }
    apply Hassoc. apply wp_bind. apply wp_plain_member; [done|simpl; lia|done|].
    eapply wp_mono; [by apply Hf| |intros e c' [-> _]; done].
    intros [] c1 (X1 & P1 & S1). split; [apply X1|].
    pose proof (ext_finish_member c c1 Hn X1) as X1'. set (c1' := finish_member c1) in *.
    assert (Ff : offset_ c1' = offset_ c1 /\ mem c1' = mem c1)
      by (unfold c1', finish_member; by destruct (callbacks_ c1)). destruct Ff as [O1' M1'].
    pose proof (ext_config _ _ X1') as S1'.
    eapply wp_mono; [apply (IH (i + 1) c1')| |done].
    + apply X1'.
    + by rewrite (sc_member _ _ S1').
    + by rewrite (sc_encoding _ _ S1').
    + lia.
    + lia.
    + intros [] c2 (X2 & P2 & L2). pose proof (ext_offset _ _ X2). split; [by eapply ext_trans|].
      split; [lia|]. intros Hlt.
      eapply (loop_stored_cons i f fs v c c1 c1' c2); try done; [apply S1; lia|by apply L2].
Qed.

(** ** The delimiter header of a structure *)

Lemma wp_has_room_true n c Q E :
  wf c -> 0 <= n -> offset_ c + n <= end_ c -> Q true c -> wp (has_room n) c Q E.
Proof.
  intros W Hn He HQ. pose proof (wf_end_bound _ W). pose proof (wf_offset _ W).
  unfold wp, has_room, remaining. rewrite size_t_small by lia.
  by replace (end_ c - offset_ c >=? n) with true by lia.
Qed.

Lemma wf_enc e c : wf c -> wf (set_current_encoding_ e c).
Proof. intros []. by split. Qed.

Lemma ext_enc e c c' : ext c c' -> ext (set_current_encoding_ e c) (set_current_encoding_ e c').
Proof. intros [W [] ? ? ?]. split; try done. by apply wf_enc. Qed.

Lemma enc_id c : set_current_encoding_ (current_encoding_ c) c = c.
Proof. by destruct c. Qed.

(** Reading an integer does not depend on the encoding. *)
Lemma uint32_enc e d :
  deserialize_uint32 (set_current_encoding_ e d) =
  match deserialize_uint32 d with
  | Ok v d' => Ok v (set_current_encoding_ e d')
  | Throw x d' => Throw x (set_current_encoding_ e d')
  | Fault => Fault
  | OutOfFuel => OutOfFuel
  end.
Proof.
  unfold deserialize_uint32, deserialize_int32, deserialize_scalar, get_aligned, get_scalar, has_data.
  unfold bind, gets, modify, get, ret, throw.
  change (alignment 4 (set_current_encoding_ e d)) with (alignment 4 d).
  change (remaining (set_current_encoding_ e d)) with (remaining d).
  match goal with |- context [remaining d >=? ?n] => destruct (remaining d >=? n); [|done] end.
  change (mem (make_alignment (alignment 4 d) (set_last_data_size_ 4 (set_current_encoding_ e d)))) with (mem d).
  change (mem (make_alignment (alignment 4 d) (set_last_data_size_ 4 d))) with (mem d).
  cdr_simpl. by destruct (mread _ _ _).
Qed.

(** [xcdr2_end_serialize_type] fills the delimiter header of a type whose
    members end at [c2]; the space of the header is there. *)
Lemma xcdr2_end_type_spec c c2 :
  wf c -> ext c c2 -> cdr_version_ c = XCDRv2 -> aligned_pos 4 c + 4 <= offset_ c2 ->
  wp (xcdr2_end_serialize_type (st_with_previous_encoding (current_encoding_ c) (get_state c)))
     (set_current_encoding_ DELIMIT_CDR2 c2)
     (fun _ c4 => ext c c4 /\ offset_ c4 = offset_ c2 /\
        agree (aligned_pos 4 c + 4) (offset_ c2) (mem c2) (mem c4) /\
        exists s, (offset_ c2 < 2 ^ 32 -> stored deserialize_uint32 (offset_ c2 - (aligned_pos 4 c + 4)) c s) /\
          offset_ s = aligned_pos 4 c + 4 /\ mem s = mem c4)
     (fun _ _ => False).
Proof.
  intros W X Hv Hp. pose proof (ext_wf _ _ X) as W2. pose proof (wf_offset _ W2). pose proof (wf_offset _ W).
  pose proof (wf_end_bound _ W2). pose proof (aligned_pos_bounds 4 c int32_is_align).
  unfold xcdr2_end_serialize_type. wp_steps. cdr_simpl. simpl bool_decide. cbn [negb]. wp_steps.
  match goal with |- context [alignment 4 ?s0] => set (s := s0) end.
  assert (Es : s = set_current_encoding_ DELIMIT_CDR2 (set_state (get_state c) c2)) by done.
  assert (Xs : ext c (set_state (get_state c) c2)) by by apply ext_set_state.
  assert (Ws : wf s) by (rewrite Es; apply wf_enc, Xs).
  rewrite alignment_eq by (done || apply int32_is_align).
  assert (Fs : offset_ s = offset_ c /\ origin_ s = origin_ c /\ end_ s = end_ c2) by done.
  destruct Fs as (Os & Gs & Ends). rewrite Os, Gs.
  change (offset_ (set_current_encoding_ DELIMIT_CDR2 c2)) with (offset_ c2).
  assert (Hsz : size_t (size_t (offset_ c2 - offset_ c) - 4 - (origin_ c - offset_ c) mod 4)
                = offset_ c2 - (aligned_pos 4 c + 4)).
  { unfold aligned_pos in *. rewrite (size_t_small (offset_ c2 - offset_ c)) by lia.
    rewrite size_t_small by lia. lia. }
  rewrite Hsz. set (n := offset_ c2 - (aligned_pos 4 c + 4)) in *.
  assert (Hx : 0 <= u32 (u32 n) < 2 ^ 32) by (apply Z.mod_pos_bound; lia).
  unfold serialize_uint32, serialize_int32.
  eapply wp_throws; [apply serialize_scalar_law; try done; try lia; apply int32_is_align| |].
  { intros e c' Ht. apply put_aligned_throws in Ht; [|done|apply int32_is_align|lia].
    change (aligned_pos 4 s) with (aligned_pos 4 c) in Ht. lia. }
  intros [] s1 (X1 & _ & St & O1 & _ & Hag). change (aligned_pos 4 s) with (aligned_pos 4 c) in O1.
  pose proof (ext_wf _ _ X1) as W1. pose proof (ext_end _ _ X1).
  wp_steps. unfold jump. wp_steps. apply wp_has_room_true; [done|lia|lia|]. wp_steps.
  replace (offset_ s1 + n) with (offset_ c2) by lia.
  assert (Sc : same_config (set_current_encoding_ DELIMIT_CDR2 (set_state (get_state c) c2)) s1)
    by (rewrite <- Es; apply X1).
  pose proof (ext_config _ _ X) as S2. pose proof (ext_end _ _ X).
  assert (Hm : agree 0 (offset_ c) (mem c) (mem s1)).
  { etrans; [exact (ext_mem _ _ Xs)|exact (ext_mem _ _ X1)]. }
  assert (Fx : fixed_end c s1).
  { intros Hi. rewrite <- (ext_fixed _ _ X Hi). apply (ext_fixed _ _ X1).
    transitivity (m_internalBuffer (cdr_buffer_ c2)); [done|]. destruct S2. congruence. }
  split; [|split; [done|split]].
  - destruct W1, Sc, S2. clear Ws St X1 Es. cdr_simpl. split; cdr_simpl; try lia; try done.
    + split; cdr_simpl; try done; lia.
    + split; cdr_simpl; try congruence. done.
  - change (agree (aligned_pos 4 c + 4) (offset_ c2) (mem s) (mem s1)).
    eapply agree_weaken; [exact Hag|lia|lia].
  - exists s1. split; [|done]. intros Hb d R.
    replace n with (u32 (u32 n)) by (rewrite !u32_small by (rewrite ?u32_small; lia); done).
    intros Ha He. specialize (St (set_current_encoding_ DELIMIT_CDR2 d)).
    assert (Rs : reader s (set_current_encoding_ DELIMIT_CDR2 d)).
    { rewrite Es. destruct R, S2. split; cdr_simpl; try congruence. by apply wf_enc. }
    specialize (St Rs). change (deserialize_scalar 4 4) with deserialize_uint32 in St. unfold wp in *. rewrite uint32_enc in St.
    pose proof (uint32_enc (current_encoding_ d) d) as Eid. rewrite enc_id in Eid.
    destruct (deserialize_uint32 d) as [x d'| | |]; try (by apply St). injection Eid as Eid.
    destruct St as (-> & [Wd [] ? ?] & O); [done|done|]. cdr_simpl. split; [done|]. split; [|done].
    split; try done; [destruct Wd; by split|]. split; try done. by rewrite Eid.
Qed.

(** ** The round trip of a structure *)

Lemma functor_hit fs j f o b :
  fs !! j = Some f -> struct_functor fs o (mkMemberId (0 + Z.of_nat j) b) = (x <-- fdes f o ;; ret (true, x)).
Proof.
  intros H. unfold struct_functor. cbn [id]. destruct (Z.ltb_spec (0 + Z.of_nat j) 0); [lia|].
  by rewrite Z.add_0_l, Nat2Z.id, H.
Qed.

Lemma functor_miss fs o b : struct_functor fs o (mkMemberId (0 + zlen fs) b) = ret (false, o).
Proof.
  unfold struct_functor. cbn [id]. pose proof (zlen_nonneg fs).
  destruct (Z.ltb_spec (0 + zlen fs) 0); [lia|].
  rewrite lookup_ge_None_2; [done|]. unfold zlen. lia.
Qed.

(** A stream moved through the members is advanced once the member identifier
    and the encoding are put back. *)
Lemma moved_restore e d d1 d2 lds :
  wf d -> advanced d d1 -> moved (set_current_encoding_ e d1) d2 -> 0 <= lds <= 1 \/ lds = last_data_size_ d2 ->
  advanced d (set_current_encoding_ (current_encoding_ d1)
               (set_next_member_id_ (next_member_id_ d1) (set_last_data_size_ lds d2))).
Proof.
  intros W [W1 [] O1 B1] [m [W2 [] O2 B2]] Hl. cdr_simpl.
  split; cdr_simpl; [|split; cdr_simpl; congruence|lia|congruence].
  destruct W2. split; cdr_simpl; try done. destruct Hl as [Hl| ->]; [lia|done].
Qed.

Lemma stored_struct_v1 fs v old fuel c c2 :
  wf c -> cdr_version_ c = XCDRv1 -> zlen fs < 2 ^ 32 -> (length fs < fuel)%nat ->
  loop_stored 0 fs v (set_current_encoding_ PLAIN_CDR c) c2 ->
  stored (deserialize_struct fs fuel old) (copy_fields fs v old) c c2.
Proof.
  intros W Hv Hl Hf Hloop d R Ha He. pose proof (rd_wf _ _ R) as Wd.
  unfold deserialize_struct, deserialize_type. wp_steps.
  rewrite (wf_callbacks _ Wd), (rd_version _ _ R), Hv. simpl.
  change (appendable_encoding XCDRv1) with PLAIN_CDR. unfold xcdr1_deserialize_type. wp_steps.
  set (d0 := set_next_member_id_ (mkMemberId 0 false) (set_current_encoding_ PLAIN_CDR d)).
  assert (Mv : moved (set_current_encoding_ PLAIN_CDR d) d0) by by apply moved_set, wf_enc.
  eapply wp_mono; [apply (Hloop (struct_functor fs) fuel _ old d0)| |done].
  - apply functor_hit.
  - apply functor_miss.
  - done.
  - lia.
  - lia.
  - intros d' Hd' Ee. change (end_ d0) with (end_ d) in Ee. cdr_simpl. destruct (Z.eqb_spec (offset_ d') (end_ d')); [lia|done].
  - destruct R. split; unfold d0; cdr_simpl; try done. apply (moved_wf _ _ Mv).
  - done.
  - exact Ha.
  - exact He.
  - intros data' d2 (-> & M2 & O2). wp_steps. split; [done|]. split; [|done].
    pose proof (moved_restore PLAIN_CDR d d d2 (last_data_size_ d2) Wd (advanced_refl _ Wd)
                  (moved_trans _ _ _ Mv M2) (or_intror eq_refl)) as Hadv.
    destruct d2; exact Hadv.
Qed.

Lemma stored_struct_v2 fs v old fuel c c1 c2 c4 s :
  wf c -> cdr_version_ c = XCDRv2 -> zlen fs < 2 ^ 32 -> (length fs < fuel)%nat ->
  ext c c1 -> offset_ c1 = aligned_pos 4 c + 4 -> ext c1 c2 -> offset_ c4 = offset_ c2 -> offset_ c2 < 2 ^ 32 ->
  agree (aligned_pos 4 c + 4) (offset_ c2) (mem c2) (mem c4) ->
  stored deserialize_uint32 (offset_ c2 - (aligned_pos 4 c + 4)) c s ->
  offset_ s = aligned_pos 4 c + 4 -> mem s = mem c4 ->
  loop_stored 0 fs v (set_current_encoding_ DELIMIT_CDR2 c1) (set_current_encoding_ DELIMIT_CDR2 c2) ->
  stored (deserialize_struct fs fuel old) (copy_fields fs v old) c c4.
Proof.
  intros W Hv Hl Hf X1 O1 X2 O4 Hb Hag Sh Os Ms Hloop d R Ha He. pose proof (rd_wf _ _ R) as Wd.
  pose proof (ext_offset _ _ X1). pose proof (ext_offset _ _ X2). pose proof (wf_offset _ W).
  unfold deserialize_struct, deserialize_type. wp_steps.
  rewrite (wf_callbacks _ Wd), (rd_version _ _ R), Hv. simpl.
  change (appendable_encoding XCDRv2) with DELIMIT_CDR2. unfold xcdr2_deserialize_type.
  change (negb (bool_decide (PLAIN_CDR2 = DELIMIT_CDR2))) with true. cbn iota. wp_steps.
  eapply wp_mono; [apply Sh; [done| |lia]| |done].
  { rewrite Ms. eapply agree_weaken; [exact Ha|lia|lia]. }
  intros ? d1 (-> & A1 & E1). wp_steps. pose proof (ad_wf _ _ A1) as W1. pose proof (advanced_end _ _ Wd A1).
  change (bool_decide (PL_CDR2 = DELIMIT_CDR2)) with false. cbn iota. wp_steps.
  set (d1' := set_next_member_id_ (mkMemberId 0 false) (set_current_encoding_ DELIMIT_CDR2 d1)).
  assert (Mv : moved (set_current_encoding_ DELIMIT_CDR2 d1) d1') by by apply moved_set, wf_enc.
  assert (R1 : reader c1 d1) by (eapply reader_advance; [exact (ext_config _ _ X1)|done|done|lia]).
  change (st_offset_ (get_state d1)) with (offset_ d1). rewrite E1, Os.
  eapply wp_mono; [apply (Hloop (struct_functor fs) fuel _ old d1')| |done].
  - apply functor_hit.
  - apply functor_miss.
  - done.
  - lia.
  - lia.
  - intros d' Hd' Ee. cdr_simpl. apply before_true; lia.
  - destruct R1. split; unfold d1'; cdr_simpl; try done. apply (moved_wf _ _ Mv).
  - done.
  - change (mem d1') with (mem d1). rewrite (advanced_mem _ _ A1). cdr_simpl.
    eapply agree_trans; [change (mem (set_current_encoding_ DELIMIT_CDR2 c2)) with (mem c2)|].
    + eapply agree_weaken; [exact Hag|lia|lia].
    + eapply agree_weaken; [exact Ha|lia|lia].
  - change (end_ d1') with (end_ d1). cdr_simpl. lia.
  - intros data' d2 (-> & M2 & O2). wp_steps. cdr_simpl.
    pose proof (moved_wf _ _ M2) as W2. pose proof (wf_offset _ W2).
    rewrite O2, (size_t_small (offset_ c2 - (aligned_pos 4 c + 4))) by lia.
    replace (offset_ c2 - (aligned_pos 4 c + 4) - (offset_ c2 - (aligned_pos 4 c + 4))) with 0 by lia.
    change (size_t 0) with 0. unfold jump. wp_steps. apply wp_has_room_true; [done|lia|lia|]. wp_steps.
    rewrite Z.add_0_r. split; [done|]. cdr_simpl. split; [|lia].
    pose proof (moved_restore DELIMIT_CDR2 d d1 d2 0 Wd A1 (moved_trans _ _ _ Mv M2) (or_introl (conj (Z.le_refl 0) Z.le_0_1))) as Hadv.
    destruct d2; exact Hadv.
Qed.

Lemma serialize_struct_law fs v c :
  Forall (field_law v) fs -> zlen fs < 2 ^ 32 - 1 -> wf c -> next_member_id_ c = MEMBER_ID_INVALID ->
  cdr_version_ c = XCDRv1 \/ cdr_version_ c = XCDRv2 ->
  wp (serialize_struct fs v) c
     (fun _ c' => ext c c' /\ offset_ c + zlen fs <= offset_ c' /\
        (offset_ c' < 2 ^ 32 -> forall fuel old, (length fs < fuel)%nat ->
           stored (deserialize_struct fs fuel old) (copy_fields fs v old) c c'))
     (fun e _ => e = NotEnoughMemoryException).
Proof.
  intros Hfs Hl W Hn Hv. pose proof (zlen_nonneg fs).
  unfold serialize_struct, begin_serialize_type, end_serialize_type. wp_steps.
  rewrite (wf_callbacks _ W). destruct Hv as [Hv|Hv]; rewrite Hv; simpl.
  - change (appendable_encoding XCDRv1) with PLAIN_CDR. unfold xcdr1_begin_serialize_type. wp_steps.
    eapply wp_mono; [apply serialize_fields_law; try done; by apply wf_enc| |done].
    intros [] c2 (X2 & P2 & L2). wp_steps.
    rewrite (sc_callbacks _ _ (ext_config _ _ X2)). cdr_simpl. rewrite (wf_callbacks _ W), Hv. simpl.
    unfold xcdr1_end_serialize_type. wp_steps. rewrite (sc_encoding _ _ (ext_config _ _ X2)). cdr_simpl.
    change (bool_decide (PL_CDR = PLAIN_CDR)) with false. cbn iota. wp_steps.
    assert (Xr : ext c (set_current_encoding_ (current_encoding_ c) c2)).
    { pose proof (ext_enc (current_encoding_ c) _ _ X2) as Xe. by destruct c. }
    split; [exact Xr|]. split; [done|]. intros Hb fuel old Hf.
    eapply (stored_struct_v1 fs v old fuel c); try done; [lia|]. by apply L2.
  - change (appendable_encoding XCDRv2) with DELIMIT_CDR2. unfold xcdr2_begin_serialize_type.
    change (negb (bool_decide (PLAIN_CDR2 = DELIMIT_CDR2))) with true. cbn iota. wp_steps.
    unfold serialize_uint32, serialize_int32. change (u32 0) with 0.
    eapply wp_mono; [apply serialize_scalar_law; try done; try lia; apply int32_is_align| |by intros e c' [-> _]].
    intros [] c1 (X1 & P1 & _ & O1 & _). wp_steps. cdr_simpl.
    rewrite (sc_encoding _ _ (ext_config _ _ X1)).
    assert (Xs : ext c (set_serialized_member_size_ NO_SERIALIZED_MEMBER_SIZE c1)) by eauto using ext_sms.
    set (c1s := set_serialized_member_size_ NO_SERIALIZED_MEMBER_SIZE c1) in *.
    change (offset_ c1) with (offset_ c1s) in O1, P1. clearbody c1s.
    eapply wp_mono; [apply serialize_fields_law; try done| |done].
    + apply wf_enc, Xs.
    + cdr_simpl. by rewrite (sc_member _ _ (ext_config _ _ Xs)).
    + intros [] c2 (X2 & P2 & L2). wp_steps. cdr_simpl.
      rewrite (sc_callbacks _ _ (ext_config _ _ X2)). cdr_simpl.
      rewrite (sc_callbacks _ _ (ext_config _ _ Xs)), (wf_callbacks _ W), Hv. simpl.
      set (c2r := set_current_encoding_ (current_encoding_ c) c2).
      assert (X2r : ext c1s c2r).
      { pose proof (ext_enc (current_encoding_ c) _ _ X2) as Xe. pose proof (sc_encoding _ _ (ext_config _ _ Xs)) as Ee.
        rewrite <- Ee in Xe. unfold c2r. rewrite <- Ee. by destruct c1s. }
      assert (Ec2 : c2 = set_current_encoding_ DELIMIT_CDR2 c2r).
      { pose proof (sc_encoding _ _ (ext_config _ _ X2)) as Ee. cdr_simpl. unfold c2r. destruct c2. cdr_simpl. by subst. }
      assert (O2 : offset_ c2 = offset_ c2r) by done. pose proof (ext_offset _ _ X2r).
      rewrite Ec2. eapply wp_mono; [apply xcdr2_end_type_spec; try done; [by eapply ext_trans|lia]| |done].
      intros [] c4 (X4 & O4 & Hag & s & Sh & Os & Ms). split; [done|]. split; [lia|]. intros Hb fuel old Hf.
      eapply (stored_struct_v2 fs v old fuel c c1s c2r c4 s); try done; try lia.
      * apply Sh. lia.
      * rewrite <- Ec2. apply L2. lia.
Qed.

(** ** The size of a structure *)

Definition field_sized (v : A) (f : field A) : Prop :=
  (forall s, is_align (sz_align64 s) -> exists n s', sized_as (fsize f v) s s' n) /\
  (forall c s n s', wf c -> sz_rel c s -> fsize f v s = Some (n, s') -> within (fser f v) c s').

(** Without member headers, a member takes the space of its value. *)
Lemma calc_plain_member i size s n s' :
  plain (sz_encoding s) -> sized_as size s s' n ->
  sized_as (calc_member i size) s (sz_set_sms NO_SERIALIZED_MEMBER_SIZE s') n.
Proof.
  intros [Hp1 Hp2] (E & C & N & S). unfold sized_as, calc_member, szbind, szgets, szret, szmodify.
  rewrite (bool_decide_eq_false_2 (PL_CDR = _)), (bool_decide_eq_false_2 (PL_CDR2 = _)) by congruence. simpl.
  rewrite E, !andb_false_r. simpl. destruct S.
  split; [f_equal; f_equal; [lia|]; unfold sz_set_sms, sz_set_alignment; simpl; f_equal; lia|].
  split; [done|]. split; [done|]. by split.
Qed.

Lemma sized_fields i fs v s :
  Forall (field_sized v) fs -> plain (sz_encoding s) -> is_align (sz_align64 s) ->
  exists n s', sized_as (calc_fields i fs v) s s' n.
Proof.
  intros Hfs. revert i s. induction Hfs as [|f fs [Hc _] _ IH]; intros i s Hp Hal; simpl.
  - exists 0, s. split; [done|]. split; [lia|]. done.
  - destruct (Hc s Hal) as (n1 & s1 & H1). pose proof (calc_plain_member i _ _ _ _ Hp H1) as (E1 & C1 & N1 & S1).
    destruct (IH (i + 1) (sz_set_sms NO_SERIALIZED_MEMBER_SIZE s1)) as (n2 & s2 & E2 & C2 & N2 & S2).
    { by rewrite (szs_encoding _ _ S1). }
    { by rewrite (szs_align64 _ _ S1). }
    exists (n1 + n2), s2. split; [unfold szbind, szret; by rewrite E1, E2|]. split; [lia|]. split; [lia|by etrans].
Qed.

Lemma within_fields i fs v c s n s' :
  Forall (field_sized v) fs -> wf c -> sz_rel c s -> next_member_id_ c = MEMBER_ID_INVALID ->
  plain (current_encoding_ c) -> plain (sz_encoding s) -> 0 <= i -> i + zlen fs < 2 ^ 32 - 1 ->
  calc_fields i fs v s = Some (n, s') -> within (serialize_fields i fs v) c s'.
Proof.
  intros Hfs. revert i c s n s'. induction Hfs as [|f fs [Hc Hw] Hfs IH]; intros i c s n s' W R Hn Hp Hps Hi Hb; simpl.
  - intros [= <- <-]. split; [by apply ext_refl|apply R].
  - intros (n1 & s1 & E1 & H)%szbind_inv. apply szbind_inv in H as (n2 & s2 & E2 & [= <- <-]).
    assert (Hz : zlen (f :: fs) = zlen fs + 1) by (unfold zlen; simpl; lia). rewrite Hz in *.
    assert (Hal : is_align (sz_align64 s)) by (rewrite (szr_align64 _ _ R), (wf_align64 _ W); apply is_align_64).
    destruct (Hc s Hal) as (m1 & t1 & H1). pose proof (calc_plain_member i _ _ _ _ Hps H1) as Hm.
    destruct (sized_as_eq _ _ _ _ _ _ Hm E1) as [-> ->]. destruct Hm as (_ & C1 & N1 & S1).
    destruct (sized_fields (i + 1) fs v (sz_set_sms NO_SERIALIZED_MEMBER_SIZE t1) Hfs) as (m2 & t2 & H2).
    { by rewrite (szs_encoding _ _ S1). }
    { by rewrite (szs_align64 _ _ S1). }
    destruct (sized_as_eq _ _ _ _ _ _ H2 E2) as [-> ->]. destruct H2 as (_ & C2 & N2 & _).
    assert (Hmem : within (insert_member_id (mkMemberId i false) ;;; insert_value (fser f v)) c
                     (sz_set_sms NO_SERIALIZED_MEMBER_SIZE t1)).
    { pose proof (zlen_nonneg fs). unfold within. apply wp_plain_member; [done|simpl; lia|done|].
      eapply wp_mono; [by eapply Hw; [..|apply H1]| |done]. intros [] c1 [X1 O1]. split; [apply X1|].
      split; [by apply ext_finish_member|]. unfold finish_member. by destruct (callbacks_ c1). }
    assert (Hseq : within ((insert_member_id (mkMemberId i false) ;;; insert_value (fser f v)) ;;;
                           serialize_fields (i + 1) fs v) c t2).
    { eapply within_bind; [exact Hmem|lia|]. intros c1 X1 O1. pose proof (ext_config _ _ X1) as S.
      eapply IH; [apply X1|by eapply sz_rel_next| | | | | |exact E2].
      - by rewrite (sc_member _ _ S).
      - by rewrite (sc_encoding _ _ S).
      - by rewrite (szs_encoding _ _ S1).
      - lia.
      - lia. }
    unfold within, wp, bind in *.
    destruct (insert_member_id _ c) as [? c0| | |]; [|done..]. by destruct (insert_value _ c0).
Qed.

(** The calculator at the start of the members, and at the end. *)
Definition struct_start (s : CdrSizeCalculator) : CdrSizeCalculator :=
  sz_set_sms NO_SERIALIZED_MEMBER_SIZE
    (sz_set_encoding (appendable_encoding (sz_version s))
       (if bool_decide (XCDRv2 = sz_version s) then reserved s else s)).

Lemma begin_struct_eq s :
  begin_calculate_type_serialized_size (appendable_encoding (sz_version s)) s =
  Some (current_alignment (struct_start s) - current_alignment s, struct_start s).
Proof.
  destruct s as [v e m a cur].
  unfold begin_calculate_type_serialized_size, szbind, szmodify, szgets, advance, struct_start, szret, appendable_encoding.
  simpl. destruct (bool_decide_reflect (XCDRv2 = v)); simpl; f_equal; f_equal; try lia.
  unfold sz_set_sms, sz_set_alignment, sz_set_encoding. simpl. f_equal. lia.
Qed.

Lemma end_struct_eq e s :
  sz_encoding s <> PL_CDR ->
  exists s', end_calculate_type_serialized_size e s = Some (0, s') /\
    current_alignment s' = current_alignment s /\ sz_encoding s' = e /\
    sz_version s' = sz_version s /\ sz_align64 s' = sz_align64 s.
Proof.
  intros He. unfold end_calculate_type_serialized_size, szbind, szmodify, szgets, advance, szret.
  rewrite (bool_decide_eq_false_2 (PL_CDR = _)), andb_false_r by congruence.
  destruct (_ && _); (eexists; split; [reflexivity|]); simpl; (split; [lia|]); done.
Qed.

Lemma struct_start_props s :
  plain (sz_encoding (struct_start s)) /\ sz_version (struct_start s) = sz_version s /\
  sz_align64 (struct_start s) = sz_align64 s /\ current_alignment s <= current_alignment (struct_start s).
Proof.
  pose proof (reserved_le s). unfold struct_start, plain, appendable_encoding. simpl.
  destruct (bool_decide _); simpl in *; (split; [done|]); (split; [done|]); (split; [done|]); lia.
Qed.

Lemma sized_struct fs v s :
  Forall (field_sized v) fs -> is_align (sz_align64 s) -> exists n s', sized_as (calc_struct fs v) s s' n.
Proof.
  intros Hfs Hal. destruct (struct_start_props s) as (Hp & Hv & Ha & Hc).
  destruct (sized_fields 0 fs v (struct_start s) Hfs) as (n2 & s2 & E2 & C2 & N2 & S2); [done|by rewrite Ha|].
  destruct (end_struct_eq (sz_encoding s) s2) as (s3 & E3 & C3 & En3 & V3 & A3).
  { rewrite (szs_encoding _ _ S2). apply Hp. }
  destruct S2. exists (current_alignment (struct_start s) - current_alignment s + n2 + 0), s3. split.
  - unfold calc_struct, szbind at 1 2, szgets. unfold szbind at 1. rewrite begin_struct_eq.
    unfold szbind. by rewrite E2, E3.
  - split; [lia|]. split; [lia|]. split; congruence.
Qed.

Lemma within_struct fs v c s n s' :
  Forall (field_sized v) fs -> zlen fs < 2 ^ 32 - 1 -> wf c -> next_member_id_ c = MEMBER_ID_INVALID ->
  cdr_version_ c = XCDRv1 \/ cdr_version_ c = XCDRv2 -> sz_rel c s ->
  calc_struct fs v s = Some (n, s') -> within (serialize_struct fs v) c s'.
Proof.
  intros Hfs Hl W Hn Hv R E. destruct (struct_start_props s) as (Hp & Hvs & Has & Hcs).
  assert (Hal : is_align (sz_align64 s)) by (rewrite (szr_align64 _ _ R), (wf_align64 _ W); apply is_align_64).
  destruct (sized_fields 0 fs v (struct_start s) Hfs) as (n2 & s2 & E2 & C2 & N2 & S2); [done|by rewrite Has|].
  destruct (end_struct_eq (sz_encoding s) s2) as (s3 & E3 & C3 & _); [rewrite (szs_encoding _ _ S2); apply Hp|].
  assert (s' = s3) as ->.
  { unfold calc_struct, szbind at 1 2, szgets in E. unfold szbind at 1 in E. rewrite begin_struct_eq in E.
    unfold szbind in E. rewrite E2, E3 in E. by injection E. }
  eapply within_mono; [|symmetry; exact C3]. pose proof (zlen_nonneg fs).
  unfold within, serialize_struct, begin_serialize_type, end_serialize_type. wp_steps.
  rewrite (wf_callbacks _ W). destruct Hv as [Hv|Hv]; rewrite Hv; simpl.
  - change (appendable_encoding XCDRv1) with PLAIN_CDR. unfold xcdr1_begin_serialize_type. wp_steps.
    assert (Rs : sz_rel (set_current_encoding_ PLAIN_CDR c) (struct_start s)).
    { destruct R. split; cdr_simpl; congruence || lia. }
    eapply wp_mono; [eapply (within_fields 0 fs v _ (struct_start s)); try done; by apply wf_enc| |done].
    intros [] c2 [X2 O2]. wp_steps.
    rewrite (sc_callbacks _ _ (ext_config _ _ X2)). cdr_simpl. rewrite (wf_callbacks _ W), Hv. simpl.
    unfold xcdr1_end_serialize_type. wp_steps. rewrite (sc_encoding _ _ (ext_config _ _ X2)). cdr_simpl.
    change (bool_decide (PL_CDR = PLAIN_CDR)) with false. cbn iota. wp_steps. split; [|done].
    pose proof (ext_enc (current_encoding_ c) _ _ X2) as Xe. by destruct c.
  - change (appendable_encoding XCDRv2) with DELIMIT_CDR2. unfold xcdr2_begin_serialize_type.
    change (negb (bool_decide (PLAIN_CDR2 = DELIMIT_CDR2))) with true. cbn iota. wp_steps.
    unfold serialize_uint32, serialize_int32. change (u32 0) with 0.
    assert (Est : current_alignment (struct_start s) = current_alignment (reserved s)).
    { unfold struct_start. rewrite (szr_version _ _ R), Hv. done. }
    eapply wp_mono; [apply wp_and; [by apply (within_uint32 0 c s)|
      apply (serialize_scalar_law 4 4 0 c); try done; try lia; apply int32_is_align]| |].
    2:{ intros e c' [He _]. cbn beta in He. lia. }
    intros [] c1 [[X1 O1] (_ & _ & _ & Op1 & _)]. wp_steps. cdr_simpl.
    rewrite (sc_encoding _ _ (ext_config _ _ X1)).
    assert (Xs : ext c (set_serialized_member_size_ NO_SERIALIZED_MEMBER_SIZE c1)) by eauto using ext_sms.
    set (c1s := set_serialized_member_size_ NO_SERIALIZED_MEMBER_SIZE c1) in *.
    change (offset_ c1) with (offset_ c1s) in O1, Op1. change (origin_ c1) with (origin_ c1s) in O1.
    clearbody c1s. pose proof (ext_config _ _ Xs) as Sc. pose proof (ext_end _ _ Xs).
    pose proof (sc_origin _ _ Sc).
    assert (Rs : sz_rel (set_current_encoding_ DELIMIT_CDR2 c1s) (struct_start s)).
    { destruct R, Sc. split; cdr_simpl; congruence || lia. }
    eapply wp_mono; [eapply (within_fields 0 fs v _ (struct_start s)); try done| |].
    + apply wf_enc, Xs.
    + cdr_simpl. by rewrite (sc_member _ _ Sc).
    + intros [] c2 [X2 O2]. wp_steps. cdr_simpl.
      rewrite (sc_callbacks _ _ (ext_config _ _ X2)). cdr_simpl.
      rewrite (sc_callbacks _ _ Sc), (wf_callbacks _ W), Hv. simpl.
      set (c2r := set_current_encoding_ (current_encoding_ c) c2).
      assert (X2r : ext c1s c2r).
      { pose proof (ext_enc (current_encoding_ c) _ _ X2) as Xe. pose proof (sc_encoding _ _ Sc) as Ee.
        rewrite <- Ee in Xe. unfold c2r. rewrite <- Ee. by destruct c1s. }
      assert (Ec2 : c2 = set_current_encoding_ DELIMIT_CDR2 c2r).
      { pose proof (sc_encoding _ _ (ext_config _ _ X2)) as Ee. cdr_simpl. unfold c2r. destruct c2. cdr_simpl. by subst. }
      pose proof (ext_offset _ _ X2r). assert (Og : origin_ c2 = origin_ c).
      { change (origin_ c2) with (origin_ c2r). rewrite (sc_origin _ _ (ext_config _ _ X2r)). done. }
      rewrite Ec2. eapply wp_mono; [apply xcdr2_end_type_spec; try done; [by eapply ext_trans|lia]| |done].
      intros [] c4 (X4 & O4 & _). split; [done|]. rewrite (sc_origin _ _ (ext_config _ _ X4)), O4.
      change (offset_ c2r) with (offset_ c2). lia.
    + intros e c' He. cbn beta in He. cdr_simpl. lia.
Qed.

(** ** Decoding a structure from arbitrary bytes *)

Lemma moved_visited d d' : moved d d' -> visited d d'.
Proof. intros [m [? ? ? ?]]. by split. Qed.

(** Fields of no consequence to a position. *)
Lemma visited_set m e d d' :
  visited d d' -> visited d (set_next_member_id_ m d') /\ visited d (set_current_encoding_ e d').
Proof. intros [[] ? ?]. split; split; cdr_simpl; try done; by split. Qed.

(** The loop over the members terminates: an identifier beyond the last
    member ends it. *)
Lemma members_loop_safe fs fuel more data d :
  Forall (fun f => forall o, Safe (fdes f o)) fs -> wf d -> octets d ->
  0 <= id (next_member_id_ d) <= zlen fs -> zlen fs < 2 ^ 32 - 1 ->
  zlen fs - id (next_member_id_ d) < Z.of_nat fuel ->
  wp (members_loop (struct_functor fs) fuel more data) d (fun _ d' => moved d d') (fun _ d' => moved d d').
Proof.
  intros Hfs. revert data d. induction fuel as [|fuel IH]; intros data d W B Hi Hl Hf; [lia|]. simpl. wp_steps.
  assert (Hself : moved d d) by by apply moved_advanced, advanced_refl.
  destruct (more d); [|by wp_steps]. wp_steps. unfold struct_functor at 1.
  destruct (Z.ltb_spec (id (next_member_id_ d)) 0); [lia|]. destruct (fs !! Z.to_nat (id (next_member_id_ d))) as [f|] eqn:Ef.
  - wp_steps. rewrite Forall_lookup in Hfs. eapply wp_mono; [by apply (Hfs _ _ Ef)| |intros; by apply moved_advanced].
    intros x d1 A1. cbn beta in A1. wp_steps. simpl. wp_steps. set (d1' := incr_member_id d1).
    assert (Hlt : id (next_member_id_ d) < zlen fs).
    { apply lookup_lt_Some in Ef. unfold zlen. lia. }
    assert (Mv : moved d d1') by (eapply moved_trans; [by apply moved_advanced|apply moved_set, A1]).
    assert (Hid : id (next_member_id_ d1') = id (next_member_id_ d) + 1).
    { unfold d1', incr_member_id. cdr_simpl. rewrite (sc_member _ _ (ad_config _ _ A1)). apply u32_small. lia. }
    eapply wp_mono; [apply IH; rewrite ?Hid; try lia| |].
    + by apply (moved_wf _ _ Mv).
    + unfold octets. by rewrite (moved_mem _ _ Mv).
    + intros a d2 M2. cbn beta in M2. by eapply moved_trans.
    + intros e d2 M2. cbn beta in M2. by eapply moved_trans.
  - wp_steps. simpl. by wp_steps.
Qed.

(** [jump] on a buffer that belongs to the caller. *)
Lemma jump_external n d :
  wf d -> m_internalBuffer (cdr_buffer_ d) = false -> 0 <= n ->
  wp (jump n) d (fun _ d' => visited d d') (fun _ _ => False).
Proof.
  intros W Hi Hn. unfold jump. wp_steps. pose proof (wf_end_bound _ W). pose proof (wf_offset _ W).
  unfold wp, has_room, remaining. rewrite size_t_small by lia.
  destruct (Z.geb_spec (end_ d - offset_ d) n).
  - unfold bind, modify, ret. destruct W. split; cdr_simpl; try done; [|lia]. split; cdr_simpl; try done; lia.
  - unfold Cdr_resize. rewrite resize_external by done. unfold ret. destruct W. split; cdr_simpl; done || lia.
Qed.

(** Whatever bytes an XCDR stream holds, decoding a structure terminates and
    stays in the buffer. *)
Lemma deserialize_struct_safe fs fuel old d :
  Forall (fun f => forall o, Safe (fdes f o)) fs -> zlen fs < 2 ^ 32 - 1 -> (length fs < fuel)%nat ->
  wf d -> octets d -> m_internalBuffer (cdr_buffer_ d) = false ->
  wp (deserialize_struct fs fuel old) d (fun _ d' => visited d d') (fun _ d' => visited d d').
Proof.
  intros Hfs Hl Hf W B Hi. unfold deserialize_struct, deserialize_type. wp_steps.
  assert (Hloop : forall d1 more Q (E : exn -> Cdr -> Prop), visited d d1 ->
    (forall a d2, visited d d2 -> Q a d2) -> (forall e d2, visited d d2 -> E e d2) ->
    wp (members_loop (struct_functor fs) fuel more old) (set_next_member_id_ (mkMemberId 0 false) d1) Q E).
  { intros d1 more Q E V1 HQ HE. set (d1' := set_next_member_id_ (mkMemberId 0 false) d1).
    destruct (visited_set (mkMemberId 0 false) PLAIN_CDR d d1 V1) as [V1' _].
    pose proof (zlen_nonneg fs).
    eapply wp_mono; [apply members_loop_safe; try done|intros a d2 M2; apply HQ|intros e d2 M2; apply HE].
    - apply V1'.
    - unfold octets, mem in *. change (cdr_buffer_ d1') with (cdr_buffer_ d1). by rewrite (vi_buffer _ _ V1).
    - change (id (next_member_id_ d1')) with 0. unfold zlen. lia.
    - eapply visited_trans; [exact V1'|by apply moved_visited].
    - eapply visited_trans; [exact V1'|by apply moved_visited]. }
  assert (V0 : visited d d) by (split; [done|done|lia]).
  assert (Henc : forall e d1, visited d d1 -> visited d (set_current_encoding_ e d1))
    by (intros e d1 V1; apply (visited_set MEMBER_ID_INVALID e d d1 V1)).
  assert (Hnext : forall m d1, visited d d1 -> visited d (set_next_member_id_ m d1))
    by (intros m d1 V1; apply (visited_set m PLAIN_CDR d d1 V1)).
  destruct (callbacks_ d) eqn:Ecb.
  - unfold cdr_deserialize_type. wp_steps. apply Hloop; [done| |done].
    intros a d2 V2. wp_steps. auto.
  - unfold xcdr1_deserialize_type. wp_steps.
    assert (Hv : cdr_version_ d = XCDRv1) by (rewrite (wf_callbacks _ W) in Ecb; by destruct (cdr_version_ d)).
    rewrite Hv. change (appendable_encoding XCDRv1) with PLAIN_CDR.
    change (bool_decide (PL_CDR = PLAIN_CDR)) with false. cbn iota. wp_steps.
    apply Hloop; [auto| |auto]. intros a d2 V2. wp_steps. auto.
  - unfold xcdr2_deserialize_type.
    assert (Hv : cdr_version_ d = XCDRv2) by (rewrite (wf_callbacks _ W) in Ecb; by destruct (cdr_version_ d)).
    rewrite Hv. change (appendable_encoding XCDRv2) with DELIMIT_CDR2.
    change (negb (bool_decide (PLAIN_CDR2 = DELIMIT_CDR2))) with true. cbn iota. wp_steps.
    eapply wp_mono; [by apply safe_uint32| |intros; by apply advanced_visited].
    intros dheader d1 A1. wp_steps. change (bool_decide (PL_CDR2 = DELIMIT_CDR2)) with false. cbn iota. wp_steps.
    apply Hloop; [by apply Henc, advanced_visited| |auto]. intros a d2 V2. wp_steps.
    eapply wp_mono; [apply jump_external; [apply V2| |apply size_t_range]| |done].
    + by rewrite (vi_buffer _ _ V2).
    + intros ok d3 V3. wp_steps. apply Henc, Hnext. by eapply visited_trans.
Qed.

End Struct.

(** ** Members of a codec *)

Section CodecField.
Context `{P : Platform} {A B : Type} (k : codec B) (fget : A -> B) (fset : B -> A -> A) (size : B -> Sz Z).

(** [scdr << MemberId(i) << data.f()] and [dcdr >> data.f()] for a member whose
    type has the codec [k]. *)
Definition codec_field : field A :=
  mkField _ (fun v => ser k (fget v))
          (fun o => b <-- des k (fget o) ;; ret (fset b o))
          (fun v o => fset (fget v) o)
          (fun v => size (fget v)).

Lemma codec_field_law v : Lawful k -> valid k (fget v) -> field_law v codec_field.
Proof.
  intros K Hv c W. simpl. eapply wp_mono; [by apply K| |done].
  intros [] c' (X & Hp & St). split; [done|]. split; [done|]. intros Hb old d R Ha He. wp_steps.
  eapply wp_mono; [by apply (St Hb (fget old) d)| |done]. intros t d' (-> & ?). by wp_steps.
Qed.

Lemma codec_field_sized v : Sized k size -> valid k (fget v) -> field_sized v codec_field.
Proof.
  intros K Hv. split.
  - intros s Hal. by apply (sized_calc (k := k) (fget v) s).
  - intros c s n s' W R E. by eapply (sized_within (k := k) (fget v)).
Qed.

Lemma codec_field_safe o : SafeCodec k -> Safe (fdes codec_field o).
Proof. intros K. simpl. apply _. Qed.

End CodecField.
