(* ===== verification/CdrContracts.v ===== *)
(** * What a stream promises

    The contracts of the stream in the terms of its interface: a value that was
    serialized is read back from the saved state, with [set_state] and the
    matching [deserialize]; a serializer fails only for lack of memory and never
    when the buffer has the calculated size; no bytes make a deserializer leave
    the buffer; and every stream the interface can reach is well formed. *)

From S2P Require Import Prelude FastBuffer CdrState CdrInv CdrScalar CdrCodec CdrStrings CdrArrays CdrXcdr CdrContainers CdrContainerLaws CdrSafety CdrSize CdrSizeLaws CdrTypes CdrStruct.

(** [state s(cdr); cdr.serialize(v); cdr.set_state(s); cdr.deserialize(v')]:
    the value comes back, the position is the one behind the value and no byte
    changes; the only failure is [NotEnoughMemoryException] while serializing. *)
Definition reads_back {A} (ser_v : M unit) (des_v : M A) (v : A) (c : Cdr) : Prop :=
  match ser_v c with
  | Ok _ c' => offset_ c' < 2 ^ 32 ->
      exists d, des_v (set_state (get_state c) c') = Ok v d /\ offset_ d = offset_ c' /\ mem d = mem c'
  | Throw e _ => e = NotEnoughMemoryException
  | Fault | OutOfFuel => False
  end.

(** Decoding arbitrary bytes ends, with a value or an exception, in the buffer
    and without changing it. *)
Definition decodes_safely {A} (m : M A) (d : Cdr) : Prop :=
  match m d with
  | Ok _ d' | Throw _ d' => wf d' /\ mem d' = mem d /\ offset_ d <= offset_ d' <= end_ d
  | Fault | OutOfFuel => False
  end.

(** The serializer [m] does not fail and does not pass the calculated size [sz]
    when the buffer has room for it. *)
Definition fits (m : M unit) (sz : Sz Z) (c : Cdr) (s : CdrSizeCalculator) : Prop :=
  match sz s with
  | Some (n, s') => origin_ c + current_alignment s + n <= end_ c ->
      exists c', m c = Ok tt c' /\ offset_ c' <= origin_ c + current_alignment s + n
  | None => False
  end.

Section Contracts.
Context `{P : Platform}.
Implicit Types c d : Cdr.

Lemma reader_rewind c c' : wf c -> ext c c' -> reader c (set_state (get_state c) c').
Proof.
  intros W X. destruct (X) as [[] [] ? ? ? _], W. split; cdr_simpl; try done.
  split; cdr_simpl; try done; try congruence; lia.
Qed.

Lemma reads_back_stored {A} (s : M unit) (m : M A) v c (E : exn -> Cdr -> Prop) :
  wf c -> (forall e c', E e c' -> e = NotEnoughMemoryException) ->
  wp s c (fun _ c' => ext c c' /\ (offset_ c' < 2 ^ 32 -> stored m v c c')) E ->
  reads_back s m v c.
Proof.
  intros W He H. unfold reads_back, wp in *. destruct (s c) as [[] c'|e c'| |]; eauto.
  destruct H as [X St]. intros Hb. specialize (St Hb (set_state (get_state c) c') (reader_rewind _ _ W X)).
  pose proof (wf_offset _ (ext_wf _ _ X)). unfold wp in St.
  destruct (m (set_state (get_state c) c')) as [v' d| | |]; try (destruct St; [done|cdr_simpl; lia]).
  destruct St as (-> & Ad & O); [done|cdr_simpl; lia|]. exists d. split; [done|]. split; [done|].
  by rewrite (advanced_mem _ _ Ad).
Qed.

Lemma reads_back_codec {A} (k : codec A) v old c :
  Lawful k -> valid k v -> wf c -> reads_back (ser k v) (des k old) v c.
Proof.
  intros K Hv W. eapply (reads_back_stored _ _ _ _ (aborted c)); [done|by intros e c' [-> _]|].
  eapply wp_mono; [by apply K| |done]. intros [] c' (X & _ & St). eauto.
Qed.

Lemma decodes_safely_intro {A} (m : M A) d : Safe m -> wf d -> octets d -> decodes_safely m d.
Proof.
  intros Hm W B. specialize (Hm d W B). unfold decodes_safely, wp in *.
  assert (Hv : forall d', advanced d d' -> wf d' /\ mem d' = mem d /\ offset_ d <= offset_ d' <= end_ d).
  { intros d' Ad. split; [apply Ad|]. split; [by apply advanced_mem|].
    pose proof (wf_offset _ (ad_wf _ _ Ad)). pose proof (advanced_end _ _ W Ad). pose proof (ad_offset _ _ Ad). lia. }
  destruct (m d); auto.
Qed.

Lemma fits_within (m : M unit) (sz : Sz Z) c s s' n :
  sized_as sz s s' n -> within m c s' -> fits m sz c s.
Proof.
  intros (E & C & _ & _) Hw. unfold fits. rewrite E. intros Hend. unfold within, wp in Hw.
  destruct (m c) as [[] c'|e c'| |]; [|lia|done|done]. destruct Hw as [X Hp]. exists c'. split; [done|].
  rewrite (sc_origin _ _ (ext_config _ _ X)) in Hp. lia.
Qed.

Lemma fits_codec {A} (k : codec A) sz v c s :
  Sized k sz -> valid k v -> wf c -> sz_rel c s -> fits (ser k v) (sz v) c s.
Proof.
  intros K Hv W R. destruct (sized_calc v s Hv) as (n & s' & E).
  { rewrite (szr_align64 _ _ R), (wf_align64 _ W). apply is_align_64. }
  eapply fits_within; [exact E|]. destruct E as (E & _). by eapply sized_within.
Qed.

(** ** Round trips *)

(** C15: a structure whose members keep the contract of a member is read back as
    it was written, in XCDRv1 and behind the delimiter header of XCDRv2: every
    member of the object decoded into is replaced, whatever it held. *)
Theorem struct_roundtrip {A} (fs : list (field A)) v old fuel c :
  Forall (field_law v) fs -> zlen fs < 2 ^ 32 - 1 -> (length fs < fuel)%nat ->
  wf c -> next_member_id_ c = MEMBER_ID_INVALID -> cdr_version_ c = XCDRv1 \/ cdr_version_ c = XCDRv2 ->
  reads_back (serialize_struct fs v) (deserialize_struct fs fuel old) (copy_fields fs v old) c.
Proof.
  intros Hfs Hl Hf W Hn Hv. eapply reads_back_stored; [done| |].
  - intros e c' E. exact E.
  - eapply wp_mono; [by apply serialize_struct_law| |by intros ? ? ->].
    intros [] c' (X & _ & St). eauto.
Qed.

(** Serializing a structure into a buffer that has room for the size
    [calculate_serialized_size] computes does not fail and stays in it. *)
Theorem struct_fits {A} (fs : list (field A)) v c s :
  Forall (field_sized v) fs -> zlen fs < 2 ^ 32 - 1 -> wf c -> next_member_id_ c = MEMBER_ID_INVALID ->
  cdr_version_ c = XCDRv1 \/ cdr_version_ c = XCDRv2 -> sz_rel c s ->
  fits (serialize_struct fs v) (calc_struct fs v) c s.
Proof.
  intros Hfs Hl W Hn Hv R. destruct (sized_struct fs v s Hfs) as (n & s' & E).
  { rewrite (szr_align64 _ _ R), (wf_align64 _ W). apply is_align_64. }
  eapply fits_within; [exact E|]. destruct E as (E & _). by eapply within_struct.
Qed.

(** Whatever the bytes are, decoding a structure of safe members from a
    buffer of the caller ends after at most one pass per member, in the buffer
    and without changing it. *)
Theorem struct_decodes_safely {A} (fs : list (field A)) fuel old d :
  Forall (fun f => forall o, Safe (fdes f o)) fs -> zlen fs < 2 ^ 32 - 1 -> (length fs < fuel)%nat ->
  wf d -> octets d -> m_internalBuffer (cdr_buffer_ d) = false ->
  decodes_safely (deserialize_struct fs fuel old) d.
Proof.
  intros Hfs Hl Hf W B Hi. pose proof (deserialize_struct_safe fs fuel old d Hfs Hl Hf W B Hi) as H.
  assert (Hv : forall d', visited d d' -> wf d' /\ mem d' = mem d /\ offset_ d <= offset_ d' <= end_ d).
  { intros d' [W' Hb Ho]. unfold mem. rewrite Hb. split; [done|]. split; [done|].
    pose proof (wf_offset _ W'). pose proof (wf_end _ W) as E1. pose proof (wf_end _ W') as E2.
    rewrite Hb in E2. lia. }
  unfold decodes_safely, wp in *. destruct (deserialize_struct fs fuel old d); auto.
Qed.

(** The header [serialize_encapsulation] writes configures the stream that
    reads it like the one that wrote it: version, encoding, byte order, options
    and position, whatever version and byte order the reader was created for. *)
Theorem encapsulation_roundtrip c d c' :
  wf c -> next_member_id_ c = MEMBER_ID_INVALID -> cdr_version_ c = version_of_flag (encoding_flag_ c) ->
  Forall is_byte (options_ c) -> zlen (options_ c) = 2 ->
  serialize_encapsulation c = Ok tt c' ->
  wf d -> endian_ok d -> at_least_xcdrv1 d = true -> offset_ d = offset_ c -> mem d = mem c' ->
  exists d', read_encapsulation d = Ok tt d' /\ cdr_version_ d' = cdr_version_ c' /\
    current_encoding_ d' = current_encoding_ c' /\ endianness_ d' = endianness_ c' /\ endian_ok d' /\
    options_ d' = options_ c' /\ offset_ d' = offset_ c' /\ origin_ d' = origin_ c'.
Proof.
  intros W Hm Hv Ho Hz Es Wd Ed Hx Hod Hmd.
  assert (Hcv : cdr_version_ c <> CORBA_CDR) by (rewrite Hv; by destruct (encoding_flag_ c)).
  pose proof (wp_ok _ _ _ _ _ _ (serialize_encapsulation_law c W Hm Hcv Ho Hz) Es) as [En Hrd].
  assert (He : offset_ d + 4 <= end_ d).
  { pose proof (wf_offset _ (en_wf _ _ En)) as Hof. rewrite (en_offset _ _ En) in Hof.
    rewrite <- (wf_mem_length _ (en_wf _ _ En)), <- Hmd, (wf_mem_length _ Wd) in Hof. lia. }
  rewrite <- Hod, <- Hmd in Hrd.
  pose proof (read_encapsulation_law (encoding_flag_ c) (endianness_ c) (options_ c) d Wd Ed Hx Hz He Hrd) as Hr.
  unfold wp in Hr. destruct (read_encapsulation d) as [[] d'| | |]; try done. exists d'. destruct Hr, En.
  split_and!; try done; congruence.
Qed.

(** The values of the primitive types are read back as they were written:
    integers of 16, 32 and 64 bits and floating point numbers in either byte
    order and alignment rule, characters and booleans. *)
Theorem primitives_roundtrip c :
  wf c ->
  (forall v old, is_byte v -> reads_back (serialize_char v) (des char_codec old) v c) /\
  (forall v, reads_back (serialize_bool v) deserialize_bool v c) /\
  (forall v, 0 <= v < 2 ^ 16 -> reads_back (serialize_int16 v) deserialize_int16 v c) /\
  (forall v, 0 <= v < 2 ^ 32 -> reads_back (serialize_int32 v) deserialize_int32 v c) /\
  (forall v, 0 <= v < 2 ^ 64 -> reads_back (serialize_int64 v) deserialize_int64 v c) /\
  (forall v, 0 <= v < 2 ^ 32 -> reads_back (serialize_float v) deserialize_float v c) /\
  (forall v, 0 <= v < 2 ^ 64 -> reads_back (serialize_double v) deserialize_double v c) /\
  (sizeof_long_double = 16 -> forall v, 0 <= v < 2 ^ 128 ->
     reads_back (serialize_long_double v) deserialize_long_double v c).
Proof.
  intros W. split_and!; intros.
  - by apply (reads_back_codec char_codec v old c _).
  - by apply (reads_back_codec bool_codec v true c _).
  - by apply (reads_back_codec int16_codec v 0 c _).
  - by apply (reads_back_codec int32_codec v 0 c _).
  - by apply (reads_back_codec int64_codec v 0 c _).
  - by apply (reads_back_codec float_codec v 0 c _).
  - by apply (reads_back_codec double_codec v 0 c _).
  - by apply (reads_back_codec long_double_codec v 0 c (long_double_lawful ltac:(done))).
Qed.

(** Strings without embedded null characters, and wide strings of 16-bit
    characters, are read back as they were written. *)
Theorem strings_roundtrip c :
  wf c ->
  (forall s, valid_string s -> reads_back (serialize_string s) deserialize_string s c) /\
  (forall s, valid wstring_codec s -> reads_back (serialize_wstring s) deserialize_wstring s c).
Proof.
  intros W. split; intros s Hs.
  - by apply (reads_back_codec string_codec s [] c _).
  - by apply (reads_back_codec wstring_codec s [] c _).
Qed.

(** A [std::vector] of elements of a class type is read back as it was
    written, whatever the vector decoded into held, for elements of every type
    that keeps the contract. *)
Theorem vector_roundtrip {A} (k : codec A) dflt vs old c :
  Lawful k -> Forall (valid k) vs -> zlen vs < 2 ^ 32 -> wf c ->
  reads_back (serialize_vector k vs) (deserialize_vector k dflt old) vs c.
Proof.
  intros K Hv Hl W. exact (reads_back_codec (vector_codec k dflt) vs old c (vector_lawful k dflt) (conj Hv Hl) W).
Qed.

(** A [std::vector] of an arithmetic type is read back as it was
    written. *)
Theorem vector_arith_roundtrip (k : arith) vs c :
  LawfulArith k -> Forall (in_range k) vs -> zlen vs < 2 ^ 32 -> wf c ->
  reads_back (serialize_vector_arith k vs) (deserialize_vector_arith k) vs c.
Proof.
  intros K Hv Hl W. exact (reads_back_codec (vector_arith_codec k) vs [] c (vector_arith_lawful k) (conj Hv Hl) W).
Qed.

(** A [std::map], given by its pairs in the strict order [ltb] of its
    keys, is read back as it was written, whatever the map decoded into
    held. *)
Theorem map_roundtrip {K A} (kk : codec K) (ka : codec A) dk da ltb ps old c :
  Lawful kk -> Lawful ka -> Forall (fun p => valid kk p.1 /\ valid ka p.2) ps ->
  map_pairs ltb ps -> zlen ps < 2 ^ 32 -> wf c ->
  reads_back (serialize_map kk ka ps) (deserialize_map kk ka dk da ltb old) ps c.
Proof.
  intros Kk Ka Hv Hm Hl W.
  exact (reads_back_codec (map_codec kk ka dk da ltb) ps old c (map_lawful kk ka dk da ltb) (conj Hv (conj Hm Hl)) W).
Qed.

(** An optional value outside of a parameter list and a [std::array] are
    read back as they were written; so are arrays of arithmetic types. *)
Theorem fixed_shape_roundtrip {A} (k : codec A) dflt c :
  Lawful k -> wf c ->
  (forall v, (forall a, v = Some a -> valid k a) -> cdr_version_ c = XCDRv2 -> current_encoding_ c <> PL_CDR2 ->
     reads_back (serialize_optional k v) (deserialize_optional k dflt) v c) /\
  (forall vs old, Forall (valid k) vs -> length old = length vs ->
     reads_back (serialize_std_array k vs) (deserialize_std_array k old) vs c) /\
  (forall (ar : arith) vs, LawfulArith ar -> Forall (in_range ar) vs -> zlen vs < 2 ^ 32 ->
     reads_back (ser_array ar vs) (des_array ar (zlen vs)) vs c).
Proof.
  intros K W. split; [|split].
  - intros v Hv Hx He. eapply (reads_back_stored _ _ _ _ (aborted c)); [done|by intros e c' [-> _]|].
    eapply wp_mono; [by apply (serialize_optional_law k dflt)| |done]. intros [] c' (X & _ & St). auto.
  - intros vs old Hvs Hl. eapply (reads_back_stored _ _ _ _ (aborted c)); [done|by intros e c' [-> _]|].
    eapply wp_mono; [by apply (serialize_std_array_law k)| |done]. intros [] c' (X & St). auto.
  - intros ar vs Ka Hvs Hl. eapply (reads_back_stored _ _ _ _ (rolled_back c)); [done|by intros e c' [-> _]|].
    eapply wp_mono; [by apply Ka| |done]. intros [] c' (X & _ & _ & St & _). auto.
Qed.

(** What the vector serializer leaves for a sequence decoded into fresh objects. *)
Lemma sequence_of_law (ks : codec (list Z)) vs c :
  Lawful ks -> Forall (valid ks) vs -> zlen vs < 2 ^ 32 -> wf c ->
  wp (serialize_vector ks vs) c
     (fun _ c' => ext c c' /\ (offset_ c' < 2 ^ 32 -> stored (deserialize_sequence_of ks) vs c c')) (aborted c).
Proof.
  intros K Hvs Hl W.
  change (serialize_vector ks vs) with (counted (u32 (zlen vs)) (serialize_each (ser ks) vs)).
  pose proof (zlen_nonneg vs). rewrite u32_small by lia.
  eapply wp_mono; [apply counted_law; [done|lia|intros c2 X2; apply (serialize_each_law ks); try done; apply (ext_wf _ _ X2)]| |done].
  intros [] c' (X & Hp & c2 & c3 & start & X3 & (P3 & Hnil & Se) & O & Hs & H2 & H1).
  split; [done|]. intros Hb. eapply stored_sequence_of; try done. intros more olds Ho Hm. apply Se; [lia|done|done].
Qed.

(** The sequences of strings and of wide strings, which are decoded into a
    fresh array, read back what the vector serializer wrote. *)
Theorem string_sequences_roundtrip c :
  wf c ->
  (forall vs, Forall valid_string vs -> zlen vs < 2 ^ 32 ->
     reads_back (serialize_vector string_codec vs) deserialize_string_sequence vs c) /\
  (forall vs, Forall (valid wstring_codec) vs -> zlen vs < 2 ^ 32 ->
     reads_back (serialize_vector wstring_codec vs) deserialize_wstring_sequence vs c).
Proof.
  intros W. split; intros vs Hvs Hl; (eapply (reads_back_stored _ _ _ _ (aborted c)); [done|by intros e c' [-> _]|]).
  - exact (sequence_of_law string_codec vs c _ Hvs Hl W).
  - exact (sequence_of_law wstring_codec vs c _ Hvs Hl W).
Qed.

(** ** Arbitrary bytes *)

(** Whatever the bytes of the buffer are, decoding a primitive value, a
    string or a sequence of booleans or strings ends with a value or an
    exception, reads nothing outside of the buffer and writes nothing. *)
Theorem values_decode_safely d :
  wf d -> octets d ->
  decodes_safely deserialize_char d /\ decodes_safely deserialize_bool d /\
  decodes_safely deserialize_int16 d /\ decodes_safely deserialize_int32 d /\
  decodes_safely deserialize_int64 d /\ decodes_safely deserialize_float d /\
  decodes_safely deserialize_double d /\ decodes_safely deserialize_string d /\
  decodes_safely deserialize_cstring d /\ decodes_safely deserialize_wstring d /\
  decodes_safely deserialize_bool_sequence d /\ decodes_safely deserialize_string_sequence d /\
  decodes_safely deserialize_wstring_sequence d.
Proof. intros W B. split_and!; apply decodes_safely_intro; try done; apply _. Qed.

(** Decoding a container of elements that are safe to decode is safe too:
    a length or a delimiter header that lies about the data cannot make it read
    outside of the buffer or run forever. *)
Theorem containers_decode_safely {K A} (kk : codec K) (k : codec A) (ar : arith) d :
  SafeCodec kk -> SafeCodec k -> SafeArith ar -> wf d -> octets d ->
  (forall dflt old, decodes_safely (deserialize_vector k dflt old) d) /\
  decodes_safely (deserialize_vector_arith ar) d /\
  (forall old, decodes_safely (deserialize_std_array k old) d) /\
  (forall dk da ltb old, decodes_safely (deserialize_map kk k dk da ltb old) d) /\
  (forall dk da ltb old, decodes_safely (deserialize_map_arith kk k dk da ltb old) d) /\
  (forall dflt, decodes_safely (deserialize_optional k dflt) d) /\
  (forall dflt locked old, decodes_safely (deserialize_external k dflt locked old) d).
Proof. intros Hkk Hk Har W B. split_and!; intros; apply decodes_safely_intro; try done; apply _. Qed.

(** ** Calculated sizes *)

(** Primitive values, strings, vectors and maps fit the size the
    calculator computes for them. *)
Theorem values_fit {K A} (kk : codec K) (k : codec A) (dk : K) (da : A) szk sz (ar : arith) szar c s :
  Sized kk szk -> Sized k sz -> SizedArith ar szar -> wf c -> sz_rel c s ->
  (forall v, is_byte v -> fits (serialize_char v) calc_octet c s) /\
  (forall v, fits (serialize_bool v) calc_octet c s) /\
  (forall v, 0 <= v < 2 ^ 16 -> fits (serialize_int16 v) calc_int16 c s) /\
  (forall v, 0 <= v < 2 ^ 32 -> fits (serialize_int32 v) calc_int32 c s) /\
  (forall v, 0 <= v < 2 ^ 64 -> fits (serialize_int64 v) calc_int64 c s) /\
  (forall v, valid_string v -> fits (serialize_string v) (calc_string v) c s) /\
  (forall vs, Forall (valid k) vs -> zlen vs < 2 ^ 32 -> fits (serialize_vector k vs) (calc_vector sz vs) c s) /\
  (forall vs, Forall (in_range ar) vs -> zlen vs < 2 ^ 32 ->
     fits (serialize_vector_arith ar vs) (calc_vector_arith szar (next_int ar) vs) c s) /\
  (forall ltb ps, Forall (fun p => valid kk p.1 /\ valid k p.2) ps -> map_pairs ltb ps -> zlen ps < 2 ^ 32 ->
     fits (serialize_map kk k ps) (calc_map szk sz ps) c s).
Proof.
  intros Kk K0 Kar W R. split_and!; intros.
  - by apply (fits_codec char_codec (fun _ => calc_octet) v c s _).
  - by apply (fits_codec bool_codec (fun _ => calc_octet) v c s _).
  - by apply (fits_codec int16_codec (fun _ => calc_int16) v c s _).
  - by apply (fits_codec int32_codec (fun _ => calc_int32) v c s _).
  - by apply (fits_codec int64_codec (fun _ => calc_int64) v c s _).
  - by apply (fits_codec string_codec calc_string v c s _).
  - exact (fits_codec (vector_codec k da) (calc_vector sz) vs c s (vector_sized k sz da) (conj H H0) W R).
  - exact (fits_codec (vector_arith_codec ar) (calc_vector_arith szar (next_int ar)) vs c s
             (vector_arith_sized ar szar Kar) (conj H H0) W R).
  - exact (fits_codec (map_codec kk k dk da ltb) (calc_map szk sz) ps c s
             (map_sized kk k szk sz dk da ltb) (conj H (conj H0 H1)) W R).
Qed.

(** ** Reachable streams *)

(** How an operation of the interface leaves the stream, by return or by
    exception. *)
Definition leaves {A} (m : M A) (c c' : Cdr) : Prop :=
  (exists a, m c = Ok a c') \/ (exists e, m c = Throw e c').

(** The types of values an application serializes and decodes: scalars,
    strings, wide strings, vectors and maps of them to any depth. *)
Inductive arith_type := AChar | AInt16 | AInt32 | AInt64 | AFloat | ADouble.

Inductive datatype : Type -> Type :=
| TChar : datatype Z
| TBool : datatype bool
| TInt16 : datatype Z
| TInt32 : datatype Z
| TInt64 : datatype Z
| TFloat : datatype Z
| TDouble : datatype Z
| TString : datatype (list Z)
| TWString : datatype (list Z)
| TVector {A} (k : datatype A) (dflt : A) : datatype (list A)
| TVectorArith (k : arith_type) : datatype (list Z)
| TMap {K A} (kk : datatype K) (ka : datatype A) (dk : K) (da : A) (ltb : K -> K -> bool) : datatype (list (K * A)).

Definition arith_of (k : arith_type) : arith :=
  match k with
  | AChar => char_arith | AInt16 => int16_arith | AInt32 => int32_arith
  | AInt64 => int64_arith | AFloat => float_arith | ADouble => double_arith
  end.

(** [cdr << v] and [cdr >> v] of a type. *)
Fixpoint codec_of {A} (k : datatype A) : codec A :=
  match k with
  | TChar => char_codec | TBool => bool_codec
  | TInt16 => int16_codec | TInt32 => int32_codec | TInt64 => int64_codec
  | TFloat => float_codec | TDouble => double_codec
  | TString => string_codec | TWString => wstring_codec
  | TVector k dflt => vector_codec (codec_of k) dflt
  | TVectorArith k => vector_arith_codec (arith_of k)
  | TMap kk ka dk da ltb => map_codec (codec_of kk) (codec_of ka) dk da ltb
  end.

Lemma arith_of_lawful k : LawfulArith (arith_of k).
Proof. destruct k; apply _. Qed.

Lemma arith_of_safe k : SafeArith (arith_of k).
Proof. destruct k; apply _. Qed.

Lemma codec_of_lawful {A} (k : datatype A) : Lawful (codec_of k).
Proof.
  induction k; simpl; try apply _.
  - apply vector_arith_lawful. apply arith_of_lawful.
Qed.

Lemma codec_of_safe {A} (k : datatype A) : SafeCodec (codec_of k).
Proof.
  induction k as [| | | | | | | | |A k IH dflt|k|K A kk IHk ka IHa dk da ltb]; simpl; try apply _; intros old; simpl.
  - apply safe_vector, IH.
  - apply safe_vector_arith, arith_of_safe.
  - by apply safe_map.
Qed.

(** A member of a structure [A]: its type, how it is read from an object and
    assigned to one. *)
Record member (A : Type) := mkMember {
  mtype : Type;
  mdatatype : datatype mtype;
  mget : A -> mtype;
  mset : mtype -> A -> A
}.
Arguments mtype {A} _.
Arguments mdatatype {A} _.
Arguments mget {A} _ _.
Arguments mset {A} _ _ _.

Definition member_field {A} (m : member A) : field A :=
  codec_field (codec_of (mdatatype m)) (mget m) (mset m) (fun _ => szret 0).

Definition member_valid {A} (a : A) (m : member A) : Prop := valid (codec_of (mdatatype m)) (mget m a).

(** The streams an application can reach on the buffer [buf]: it serializes
    values, decodes them, goes back to states it saved and reconfigures the
    stream, in any order, and survives the exceptions.  Structures are
    serialized in the plain and delimited encodings, as generated code does,
    between members; an exception out of the middle of a structure ends the
    serialization, and the member headers of XCDRv1 parameter lists, which
    leave the buffer ([CdrLimits]), are not among the steps. *)
Inductive reachable (buf : list Z) : Cdr -> Prop :=
| reach_new e v : reachable buf (new_Cdr (FastBuffer_external buf) e v)
| reach_serialize {A} (k : datatype A) a c c' :
    reachable buf c -> valid (codec_of k) a -> leaves (ser (codec_of k) a) c c' -> reachable buf c'
| reach_deserialize {A} (k : datatype A) old c c' :
    reachable buf c -> octets c -> leaves (des (codec_of k) old) c c' -> reachable buf c'
| reach_serialize_struct {A} (ms : list (member A)) a c c' :
    reachable buf c -> Forall (member_valid a) ms -> zlen ms < 2 ^ 32 - 1 ->
    next_member_id_ c = MEMBER_ID_INVALID -> cdr_version_ c = XCDRv1 \/ cdr_version_ c = XCDRv2 ->
    serialize_struct (map member_field ms) a c = Ok tt c' -> reachable buf c'
| reach_deserialize_struct {A} (ms : list (member A)) fuel old c c' :
    reachable buf c -> octets c -> zlen ms < 2 ^ 32 - 1 -> (length ms < fuel)%nat ->
    leaves (deserialize_struct (map member_field ms) fuel old) c c' -> reachable buf c'
| reach_read_encapsulation c c' :
    reachable buf c -> octets c -> leaves read_encapsulation c c' -> reachable buf c'
| reach_set_state c0 c :
    reachable buf c0 -> reachable buf c -> reachable buf (set_state (get_state c0) c)
| reach_jump n c c' : reachable buf c -> 0 <= n < 2 ^ 64 -> leaves (jump n) c c' -> reachable buf c'
| reach_reset c : reachable buf c -> reachable buf (reset c)
| reach_change_endianness e c : reachable buf c -> reachable buf (change_endianness e c)
| reach_set_encoding_flag f c : reachable buf c -> reachable buf (set_encoding_flag f c).2
| reach_set_dds_cdr_options o c : reachable buf c -> reachable buf (set_dds_cdr_options o c).

(** The invariant: the stream is well formed and still on its buffer. *)
Definition on_buffer (buf : list Z) (c : Cdr) : Prop :=
  wf c /\ m_internalBuffer (cdr_buffer_ c) = false /\ end_ c = zlen buf.

Lemma on_buffer_visited buf c c' : on_buffer buf c -> visited c c' -> on_buffer buf c'.
Proof.
  intros (W & Hi & He) [W' Hb _]. split; [done|]. rewrite Hb. split; [done|].
  rewrite (wf_end _ W'), Hb, <- (wf_end _ W). done.
Qed.

Lemma on_buffer_ext buf c c' : on_buffer buf c -> ext c c' -> on_buffer buf c'.
Proof.
  intros (W & Hi & He) X. split; [apply X|]. rewrite (ext_fixed _ _ X Hi).
  destruct (ext_config _ _ X). split; congruence.
Qed.

Lemma on_buffer_unwound buf c c' : on_buffer buf c -> unwound c c' -> on_buffer buf c'.
Proof.
  intros (W & Hi & He) U. split; [by apply U|]. rewrite (uw_fixed _ _ U Hi).
  destruct (uw_config _ _ U). split; congruence.
Qed.

Lemma wp_leaves {A} (m : M A) c c' (R : Cdr -> Prop) :
  leaves m c c' -> wp m c (fun _ c1 => R c1) (fun _ c1 => R c1) -> R c'.
Proof. unfold wp. by intros [[a ->]|[e ->]]. Qed.

Lemma on_buffer_frame buf c c' :
  on_buffer buf c -> wf c' -> cdr_buffer_ c' = cdr_buffer_ c -> on_buffer buf c'.
Proof.
  intros (W & Hi & He) W' Hb. split; [done|]. rewrite Hb. split; [done|].
  rewrite (wf_end _ W'), Hb, <- (wf_end _ W). done.
Qed.

(** C16: every stream that serializing and decoding values of any type
    (scalars, strings, vectors and maps to any depth, structures of them in the
    plain and delimited encodings), saved states, jumps, resets and
    reconfigurations can reach on a buffer is well formed: the position stays
    in the buffer, the buffer keeps its size, the padding that
    [last_data_size_] lets the stream skip is never needed, and the alignment
    rule and the callbacks are those of the version. *)
Theorem reachable_well_formed buf c : zlen buf < 2 ^ 62 -> reachable buf c -> on_buffer buf c.
Proof.
  intros Hb H. induction H as [e v|A k a c c' _ IH Hv L|A k old c c' _ IH B L|A ms a c c' _ IH Hv Hl Hn Hver L
    |A ms fuel old c c' _ IH B Hl Hf L|c c' _ IH B L|c0 c _ IH0 _ IH
    |n c c' _ IH Hn L|c _ IH|e c _ IH|f c _ IH|o c _ IH].
  - split; [by apply wf_new_external|]. by destruct v.
  - eapply wp_leaves; [exact L|]. eapply wp_mono; [by apply (codec_of_lawful k), IH| |].
    + intros [] c1 (X & _). by eapply on_buffer_ext.
    + intros e c1 [_ (c2 & X & U)]. eapply on_buffer_unwound; [|exact U]. by eapply on_buffer_ext.
  - eapply wp_leaves; [exact L|]. eapply wp_mono; [by apply (codec_of_safe k old); [apply IH|]| |];
      intros ? c1 Ad; (eapply on_buffer_visited; [exact IH|by apply advanced_visited]).
  - assert (Hs : Forall (field_law a) (map member_field ms)).
    { apply Forall_map. revert Hv. apply Forall_impl. intros m Hm.
      apply codec_field_law; [apply codec_of_lawful|exact Hm]. }
    pose proof (wp_ok _ _ _ _ _ _ (serialize_struct_law _ a c Hs ltac:(unfold zlen in *; by rewrite length_map) (proj1 IH) Hn Hver) L) as [X _].
    by eapply on_buffer_ext.
  - destruct (IH) as (W & Hi & _). eapply wp_leaves; [exact L|].
    eapply wp_mono; [apply deserialize_struct_safe; try done; try (unfold zlen in *; by rewrite length_map)| |].
    + apply Forall_map, Forall_forall. intros m _ o. apply codec_field_safe, codec_of_safe.
    + intros ? c1 V. by eapply on_buffer_visited.
    + intros ? c1 V. by eapply on_buffer_visited.
  - eapply wp_leaves; [exact L|]. eapply wp_mono; [by apply read_encapsulation_safe; [apply IH|]| |];
      intros ? c1 V; by eapply on_buffer_visited.
  - eapply on_buffer_frame; [exact IH| |done]. destruct IH as (W & _ & He), IH0 as (W0 & _ & He0).
    destruct W, W0. split; cdr_simpl; try done; lia.
  - eapply wp_leaves; [exact L|]. destruct (IH) as (W & Hi & _).
    eapply wp_mono; [apply jump_external; [done|done|lia]| |done]. intros b c1 V. by eapply on_buffer_visited.
  - eapply on_buffer_frame; [exact IH| |done]. destruct IH as (W & _ & He). pose proof (wf_offset _ W).
    destruct W. unfold reset, begin. split; cdr_simpl; try done; split; try done; lia.
  - eapply on_buffer_frame; [exact IH| |]; destruct (change_endianness_frame e c) as (e' & s' & ->); [|done].
    destruct IH as ([] & _). by split.
  - eapply on_buffer_frame; [exact IH| |]; unfold set_encoding_flag;
      (destruct (negb _); [destruct (offset_ c =? _)|]); try done; destruct IH as ([] & _); by split.
  - eapply on_buffer_frame; [exact IH| |done]. destruct IH as ([] & _). by split.
Qed.

(** ** Alignment and failures *)

(** [alignment] is the least padding after which the position is a multiple
    of the alignment away from the origin, although it is computed with a mask
    on wrapped differences and skipped when the last datum had the same size. *)
Theorem alignment_is_least al c :
  wf c -> is_align al ->
  0 <= alignment al c < al /\ (offset_ c + alignment al c - origin_ c) mod al = 0 /\
  (forall p, 0 <= p -> (offset_ c + p - origin_ c) mod al = 0 -> alignment al c <= p).
Proof.
  intros W Hal. rewrite alignment_eq by done. assert (0 < al) by (unfold is_align in Hal; lia).
  pose proof (Z.mod_pos_bound (origin_ c - offset_ c) al ltac:(lia)).
  pose proof (Z.div_mod (origin_ c - offset_ c) al ltac:(lia)) as Hd.
  set (q := (origin_ c - offset_ c) / al) in *. set (r := (origin_ c - offset_ c) mod al) in *.
  split; [lia|]. split.
  - replace (offset_ c + r - origin_ c) with (- q * al) by lia. apply Z_mod_mult.
  - intros p Hp Hm. apply Z.mod_divide in Hm as [z Hz]; [|lia].
    assert (Hq : p = r + al * (q + z)) by lia. assert (0 <= q + z) by nia. nia.
Qed.

(** A primitive value or an array of an arithmetic type that does not fit
    leaves the stream as it was: position, alignment state and the bytes
    already serialized. *)
Theorem failed_serialize_unwinds c e c' :
  wf c ->
  (forall v, serialize_char v c = Throw e c' -> rolled_back c e c') /\
  (forall v, serialize_bool v c = Throw e c' -> rolled_back c e c') /\
  (forall v, 0 <= v < 2 ^ 16 -> serialize_int16 v c = Throw e c' -> rolled_back c e c') /\
  (forall v, 0 <= v < 2 ^ 32 -> serialize_int32 v c = Throw e c' -> rolled_back c e c') /\
  (forall v, 0 <= v < 2 ^ 64 -> serialize_int64 v c = Throw e c' -> rolled_back c e c') /\
  (forall (k : arith) vs, LawfulArith k -> Forall (in_range k) vs -> zlen vs < 2 ^ 32 ->
     ser_array k vs c = Throw e c' -> rolled_back c e c').
Proof.
  intros W.
  assert (Ht : forall (m : M unit) Q, wp m c Q (rolled_back c) -> m c = Throw e c' -> rolled_back c e c')
    by (unfold wp; intros m Q H E; by rewrite E in H).
  split_and!; intros; (eapply Ht; [|eassumption]).
  - by apply put_octets_spec.
  - by apply put_octets_spec.
  - apply (serialize_scalar_law 2 2); try done; try lia. unfold is_align. lia.
  - apply (serialize_scalar_law 4 4); try done; try lia. unfold is_align. lia.
  - unfold serialize_int64. wp_steps. apply (serialize_scalar_law 8); try done; try lia.
    rewrite (wf_align64 _ W). apply is_align_64.
  - by apply lawful_arith.
Qed.

End Contracts.

(** ** Examples

    The theorems at work on a stream over 64 bytes and on a structure
    [struct Person { string name; long age; }]. *)

#[local] Existing Instance host.

Definition sample_stream (v : CdrVersion) : Cdr :=
  new_Cdr (FastBuffer_external (replicate 64 0)) BIG_ENDIANNESS v.

Lemma sample_wf v : wf (sample_stream v).
Proof. by apply wf_new_external. Qed.

Lemma sample_octets v : octets (sample_stream v).
Proof. unfold octets. destruct v; apply Forall_replicate; unfold is_byte; lia. Qed.

Lemma sample_sz_rel v : sz_rel (sample_stream v) (new_CdrSizeCalculator v).
Proof. destruct v; split; done || (simpl; lia). Qed.

Definition person_fields : list (field (list Z * Z)) :=
  [codec_field string_codec fst (fun n p => (n, p.2)) calc_string;
   codec_field int32_codec snd (fun a p => (p.1, a)) (fun _ => calc_int32)].

Definition person : list Z * Z := ([74; 111], 41).

Lemma valid_name : valid_string [74; 111].
Proof. split; [repeat (constructor; [discriminate|]); constructor|reflexivity]. Qed.

Lemma person_law : Forall (field_law person) person_fields.
Proof.
  constructor; [apply codec_field_law; [apply _|apply valid_name]|].
  constructor; [|constructor]. apply codec_field_law; [apply _|simpl; lia].
Qed.

Lemma person_sized : Forall (field_sized person) person_fields.
Proof.
  constructor; [apply codec_field_sized; [apply _|apply valid_name]|].
  constructor; [|constructor]. apply codec_field_sized; [apply _|simpl; lia].
Qed.

Lemma person_safe : Forall (fun f => forall o, Safe (fdes f o)) person_fields.
Proof. repeat constructor; intros o; apply codec_field_safe; apply _. Qed.

Lemma struct_roundtrip_witness :
  reads_back (serialize_struct person_fields person) (deserialize_struct person_fields 3 ([], 0))
             person (sample_stream XCDRv2).
Proof.
  apply (struct_roundtrip person_fields person ([], 0) 3 (sample_stream XCDRv2)).
  - apply person_law.
  - reflexivity.
  - simpl; lia.
  - apply sample_wf.
  - reflexivity.
  - right. reflexivity.
Defined.

Lemma struct_fits_witness :
  fits (serialize_struct person_fields person) (calc_struct person_fields person)
       (sample_stream XCDRv1) (new_CdrSizeCalculator XCDRv1).
Proof.
  apply (struct_fits person_fields person (sample_stream XCDRv1) (new_CdrSizeCalculator XCDRv1)).
  - apply person_sized.
  - reflexivity.
  - apply sample_wf.
  - reflexivity.
  - left. reflexivity.
  - apply sample_sz_rel.
Defined.

Lemma struct_decodes_safely_witness :
  decodes_safely (deserialize_struct person_fields 3 person) (sample_stream XCDRv2).
Proof.
  apply (struct_decodes_safely person_fields 3 person (sample_stream XCDRv2)).
  - apply person_safe.
  - reflexivity.
  - simpl; lia.
  - apply sample_wf.
  - apply sample_octets.
  - reflexivity.
Defined.

(** A big-endian appendable stream behind its encapsulation, and a stream of the
    host's byte order over the same bytes. *)
Definition written_stream : Cdr :=
  match serialize_encapsulation (set_encoding_flag DELIMIT_CDR2 (sample_stream XCDRv2)).2 with
  | Ok _ c | Throw _ c => c
  | _ => sample_stream XCDRv2
  end.

Definition received_stream : Cdr := new_Cdr (FastBuffer_external (mem written_stream)) LITTLE_ENDIANNESS XCDRv1.

Lemma encapsulation_roundtrip_witness :
  exists d', read_encapsulation received_stream = Ok tt d' /\ cdr_version_ d' = XCDRv2 /\
    current_encoding_ d' = DELIMIT_CDR2 /\ endianness_ d' = BIG_ENDIANNESS /\ endian_ok d' /\
    options_ d' = [0; 0] /\ offset_ d' = 4 /\ origin_ d' = 4.
Proof.
  apply (encapsulation_roundtrip (set_encoding_flag DELIMIT_CDR2 (sample_stream XCDRv2)).2
           received_stream written_stream).
  - destruct (sample_wf XCDRv2). by split.
  - reflexivity.
  - reflexivity.
  - repeat constructor; unfold is_byte; simpl; lia.
  - reflexivity.
  - vm_compute. reflexivity.
  - apply wf_new_external. reflexivity.
  - reflexivity.
  - reflexivity.
  - reflexivity.
  - reflexivity.
Defined.

Lemma primitives_roundtrip_witness :
  reads_back (serialize_int64 5) deserialize_int64 5 (sample_stream XCDRv1).
Proof. exact (proj1 (proj2 (proj2 (proj2 (proj2 (primitives_roundtrip (sample_stream XCDRv1) (sample_wf XCDRv1)))))) 5 ltac:(lia)). Defined.

Lemma strings_roundtrip_witness :
  reads_back (serialize_string [74; 111]) deserialize_string [74; 111] (sample_stream XCDRv2).
Proof. exact (proj1 (strings_roundtrip (sample_stream XCDRv2) (sample_wf XCDRv2)) _ valid_name). Defined.

Lemma vector_roundtrip_witness :
  reads_back (serialize_vector string_codec [[74; 111]; [74; 111]]) (deserialize_vector string_codec [] [])
             [[74; 111]; [74; 111]] (sample_stream XCDRv2).
Proof.
  apply (vector_roundtrip string_codec [] [[74; 111]; [74; 111]] [] (sample_stream XCDRv2)).
  - apply _.
  - repeat (apply Forall_cons_2; [apply valid_name|]); apply Forall_nil_2.
  - reflexivity.
  - apply sample_wf.
Defined.

Lemma vector_arith_roundtrip_witness :
  reads_back (serialize_vector_arith int64_arith [3; 2 ^ 60]) (deserialize_vector_arith int64_arith)
             [3; 2 ^ 60] (sample_stream XCDRv1).
Proof.
  apply (vector_arith_roundtrip int64_arith [3; 2 ^ 60] (sample_stream XCDRv1)).
  - apply _.
  - repeat (apply Forall_cons_2; [simpl; lia|]); apply Forall_nil_2.
  - reflexivity.
  - apply sample_wf.
Defined.

Lemma map_roundtrip_witness :
  reads_back (serialize_map int32_codec string_codec [(1, [74; 111]); (7, [74; 111])])
             (deserialize_map int32_codec string_codec 0 [] Z.ltb [(5, [])])
             [(1, [74; 111]); (7, [74; 111])] (sample_stream XCDRv2).
Proof.
  apply (map_roundtrip int32_codec string_codec 0 [] Z.ltb [(1, [74; 111]); (7, [74; 111])] [(5, [])]
           (sample_stream XCDRv2)).
  - apply _.
  - apply _.
  - repeat (apply Forall_cons_2; [split; [simpl; lia|apply valid_name]|]); apply Forall_nil_2.
  - repeat constructor.
  - reflexivity.
  - apply sample_wf.
Defined.

Lemma fixed_shape_roundtrip_witness :
  reads_back (serialize_optional string_codec (Some [74; 111])) (deserialize_optional string_codec [])
             (Some [74; 111]) (sample_stream XCDRv2).
Proof.
  destruct (fixed_shape_roundtrip string_codec [] (sample_stream XCDRv2) _ (sample_wf XCDRv2)) as (H & _).
  apply H.
  - intros a [= <-]. apply valid_name.
  - reflexivity.
  - discriminate.
Defined.

Lemma string_sequences_roundtrip_witness :
  reads_back (serialize_vector string_codec [[74; 111]]) deserialize_string_sequence [[74; 111]] (sample_stream XCDRv2).
Proof.
  destruct (string_sequences_roundtrip (sample_stream XCDRv2) (sample_wf XCDRv2)) as (H & _). apply H.
  - repeat (apply Forall_cons_2; [apply valid_name|]); apply Forall_nil_2.
  - reflexivity.
Defined.

Lemma values_decode_safely_witness : decodes_safely deserialize_string (sample_stream XCDRv2).
Proof.
  destruct (values_decode_safely (sample_stream XCDRv2) (sample_wf XCDRv2) (sample_octets XCDRv2))
    as (_ & _ & _ & _ & _ & _ & _ & H & _). exact H.
Defined.

Lemma containers_decode_safely_witness :
  decodes_safely (deserialize_map string_codec int64_codec [] 0 (fun _ _ => false) []) (sample_stream XCDRv2).
Proof.
  destruct (containers_decode_safely string_codec int64_codec int16_arith (sample_stream XCDRv2) _ _ _
              (sample_wf XCDRv2) (sample_octets XCDRv2)) as (_ & _ & _ & H & _). apply H.
Defined.

Lemma values_fit_witness :
  fits (serialize_vector string_codec [[74; 111]]) (calc_vector calc_string [[74; 111]])
       (sample_stream XCDRv2) (new_CdrSizeCalculator XCDRv2).
Proof.
  destruct (values_fit int32_codec string_codec 0 [] (fun _ => calc_int32) calc_string int16_arith calc_array_int16
              (sample_stream XCDRv2) (new_CdrSizeCalculator XCDRv2) _ _ _ (sample_wf XCDRv2) (sample_sz_rel XCDRv2))
    as (_ & _ & _ & _ & _ & _ & H & _). apply H.
  - repeat (apply Forall_cons_2; [apply valid_name|]); apply Forall_nil_2.
  - reflexivity.
Defined.

(** A structure of a name and of an age: it is written, the stream goes back
    to its saved state, and it is read. *)
Definition person_members : list (member (list Z * Z)) :=
  [mkMember _ _ TString fst (fun n p => (n, p.2)); mkMember _ _ TInt32 snd (fun a p => (p.1, a))].

Definition left_by {A} (m : M A) (c : Cdr) : Cdr :=
  match m c with Ok _ c' | Throw _ c' => c' | Fault | OutOfFuel => c end.

Definition written : Cdr := left_by (serialize_struct (map member_field person_members) ([72; 105], 30)) (sample_stream XCDRv2).
Definition rewound : Cdr := set_state (get_state (sample_stream XCDRv2)) written.
Definition reread : Cdr := left_by (deserialize_struct (map member_field person_members) 3 ([], 0)) rewound.

Lemma sample_reachable : reachable (replicate 64 0) reread.
Proof.
  assert (Hw : reachable (replicate 64 0) written).
  { apply (reach_serialize_struct _ person_members ([72; 105], 30) (sample_stream XCDRv2)).
    - apply reach_new.
    - repeat constructor; unfold member_valid; simpl; repeat constructor; lia.
    - reflexivity.
    - reflexivity.
    - by right.
    - vm_compute. reflexivity. }
  apply (reach_deserialize_struct _ person_members 3 ([], 0) rewound).
  - by apply reach_set_state; [apply reach_new|].
  - unfold octets. set (bytes := mem rewound). vm_compute in bytes. subst bytes. repeat constructor; unfold is_byte; lia.
  - reflexivity.
  - simpl. lia.
  - left. eexists. vm_compute. reflexivity.
Qed.

Lemma reachable_well_formed_witness : on_buffer (replicate 64 0) reread.
Proof. apply (reachable_well_formed (replicate 64 0)); [reflexivity|apply sample_reachable]. Defined.

Lemma alignment_is_least_witness :
  0 <= alignment 8 (set_offset_ 3 (sample_stream XCDRv1)) < 8 /\
  (3 + alignment 8 (set_offset_ 3 (sample_stream XCDRv1)) - 0) mod 8 = 0 /\
  (forall p, 0 <= p -> (3 + p - 0) mod 8 = 0 -> alignment 8 (set_offset_ 3 (sample_stream XCDRv1)) <= p).
Proof.
  apply (alignment_is_least 8 (set_offset_ 3 (sample_stream XCDRv1))).
  - destruct (sample_wf XCDRv1). split; try done.
  - right. right. reflexivity.
Defined.

(** A stream without room for anything. *)
Definition tiny_stream : Cdr := new_Cdr (FastBuffer_external [9]) LITTLE_ENDIANNESS XCDRv2.

Lemma failed_serialize_unwinds_witness : rolled_back tiny_stream NotEnoughMemoryException tiny_stream.
Proof.
  destruct (failed_serialize_unwinds tiny_stream NotEnoughMemoryException tiny_stream) as (_ & _ & H & _);
    [apply wf_new_external; reflexivity|]. apply (H 5).
  - lia.
  - vm_compute. reflexivity.
Defined.
