(* ===== verification/CdrMembers.v ===== *)
(** * Member headers of mutable types

    The headers an XCDRv2 parameter list puts before its members: the packing of
    the must-understand flag, the length code and the identifier in one 32-bit
    word, and the header that follows from it. *)

From S2P Require Import Prelude FastBuffer CdrState CdrInv CdrScalar CdrCodec CdrStrings CdrArrays CdrXcdr CdrContainers CdrContainerLaws CdrSafety CdrSize CdrSizeLaws CdrTypes CdrStruct CdrContracts.

(** ** Bit fields *)

Lemma land_high x m n : 0 <= n -> Z.land x (Z.shiftl m n) = Z.shiftl (Z.land (Z.shiftr x n) m) n.
Proof.
  intros Hn. apply Z.bits_inj'. intros i Hi. rewrite Z.land_spec, !Z.shiftl_spec by done.
  destruct (Z.lt_ge_cases i n).
  - rewrite !(Z.testbit_neg_r _ (i - n)) by lia. apply andb_false_r.
  - rewrite Z.land_spec, Z.shiftr_spec by lia. by replace (i - n + n) with i by lia.
Qed.

(** A field above the low [n] bits and one in them. *)
Lemma lor_fields hi lo n :
  0 <= n -> 0 <= lo < 2 ^ n ->
  Z.land (Z.lor (Z.shiftl hi n) lo) (Z.ones n) = lo /\ Z.shiftr (Z.lor (Z.shiftl hi n) lo) n = hi.
Proof.
  intros Hn Hlo. split.
  - rewrite Z.land_lor_distr_l, !Z.land_ones by done. rewrite Z.shiftl_mul_pow2 by done.
    rewrite Z.mod_mul, Z.mod_small by lia. apply Z.lor_0_l.
  - rewrite Z.shiftr_lor, Z.shiftr_shiftl_l by done. rewrite Z.sub_diag, Z.shiftl_0_r.
    rewrite (Z.shiftr_div_pow2 lo), Z.div_small by lia. apply Z.lor_0_r.
Qed.

Lemma lor_range a b n : 0 <= n -> 0 <= a < 2 ^ n -> 0 <= b < 2 ^ n -> 0 <= Z.lor a b < 2 ^ n.
Proof.
  intros Hn Ha Hb. split; [apply Z.lor_nonneg; lia|].
  destruct (Z.eq_dec (Z.lor a b) 0) as [->|Hne]; [lia|].
  assert (0 <= Z.lor a b) by (apply Z.lor_nonneg; lia). apply Z.log2_lt_pow2; [lia|].
  rewrite Z.log2_lor by lia. destruct (Z.eq_dec a 0) as [->|]; destruct (Z.eq_dec b 0) as [->|];
    [done| | |apply Z.max_lub_lt; apply Z.log2_lt_pow2; lia].
  - rewrite Z.max_r by apply Z.log2_nonneg. apply Z.log2_lt_pow2; lia.
  - rewrite Z.max_l by apply Z.log2_nonneg. apply Z.log2_lt_pow2; lia.
Qed.

(** The word of a header with the length code [lc]. *)
Lemma xcdr2_flags_fields mid lc :
  0 <= id mid < 2 ^ 28 -> 0 <= lc < 8 ->
  let w := xcdr2_flags mid (Z.shiftl lc 28) in
  0 <= w < 2 ^ 32 /\ Z.land w 0x0FFFFFFF = id mid /\ Z.shiftr (Z.land w 0x70000000) 28 = lc /\
  negb (Z.land w 0x80000000 =? 0) = must_understand mid.
Proof.
  intros Hid Hlc w. set (hi := (if must_understand mid then 8 else 0) + lc).
  assert (Ew : w = Z.lor (Z.shiftl hi 28) (id mid)).
  { unfold w, xcdr2_flags. f_equal. unfold hi.
    assert (Hc : lc = 0 \/ lc = 1 \/ lc = 2 \/ lc = 3 \/ lc = 4 \/ lc = 5 \/ lc = 6 \/ lc = 7) by lia.
    by destruct (must_understand mid); decompose [or] Hc; subst lc. }
  assert (Hhi : 0 <= hi < 16) by (unfold hi; destruct (must_understand mid); lia).
  destruct (lor_fields hi (id mid) 28 ltac:(lia) Hid) as [Hl Hs]. rewrite <- Ew in Hl, Hs.
  split.
  - rewrite Ew. apply lor_range; [lia| |lia]. rewrite Z.shiftl_mul_pow2 by lia. lia.
  - split; [exact Hl|]. change 0x70000000 with (Z.shiftl 7 28). change 0x80000000 with (Z.shiftl 8 28).
    rewrite !land_high, Hs, Z.shiftr_shiftl_l, Z.sub_diag, Z.shiftl_0_r by lia. unfold hi.
    assert (Hc : lc = 0 \/ lc = 1 \/ lc = 2 \/ lc = 3 \/ lc = 4 \/ lc = 5 \/ lc = 6 \/ lc = 7) by lia.
    by destruct (must_understand mid); decompose [or] Hc; subst lc.
Qed.

Section Members.
Context `{P : Platform}.
Implicit Types c d : Cdr.

(** What a parameter list knows of a member once its header was read. *)
Definition read_member_header : M (MemberId * Z * XCdrHeaderSelection) :=
  st <-- gets get_state ;;
  st <-- xcdr2_deserialize_member_header st ;;
  mid <-- gets next_member_id_ ;;
  ret (mid, st_member_size_ st, st_header_serialized_ st).

(** [reads_back] for a program that also changes the configuration. *)
Lemma reads_back_intro {A} (s : M unit) (m : M A) v c (E : exn -> Cdr -> Prop) :
  wf c -> (forall e c', E e c' -> e = NotEnoughMemoryException) ->
  wp s c (fun _ c' => ext c c' /\ forall d, reader c d -> agree (offset_ c) (offset_ c') (mem c') (mem d) ->
     offset_ c' <= end_ d -> wp m d (fun v' d' => v' = v /\ offset_ d' = offset_ c' /\ mem d' = mem d) (fun _ _ => False)) E ->
  reads_back s m v c.
Proof.
  intros W He H. unfold reads_back, wp in *. destruct (s c) as [[] c'|e c'| |]; eauto.
  destruct H as [X St]. intros _. specialize (St (set_state (get_state c) c') (reader_rewind _ _ W X)).
  pose proof (wf_offset _ (ext_wf _ _ X)).
  destruct (m (set_state (get_state c) c')) as [v' d| | |]; try (destruct St; [done|cdr_simpl; lia]).
  destruct St as (-> & O & Hm); [done|cdr_simpl; lia|]. by exists d.
Qed.

Lemma uint32_law v c :
  wf c -> 0 <= v < 2 ^ 32 ->
  wp (serialize_uint32 v) c
     (fun _ c' => ext c c' /\ stored deserialize_uint32 v c c' /\ offset_ c' = aligned_pos 4 c + 4) (rolled_back c).
Proof.
  intros W Hv. unfold serialize_uint32. rewrite u32_small by done.
  eapply wp_mono; [apply serialize_scalar_law; try done; try lia; apply int32_is_align| |done].
  intros [] c' (X & _ & St & O & _). auto.
Qed.

Lemma short_lc size : size = 1 \/ size = 2 \/ size = 4 \/ size = 8 ->
  exists lc, 0 <= lc < 4 /\ get_short_lc size = Z.shiftl lc 28 /\
    (if lc =? 0 then 1 else if lc =? 1 then 2 else if lc =? 2 then 4 else 8) = size.
Proof. intros [->|[->|[->| ->]]]; [exists 0|exists 1|exists 2|exists 3]; by split. Qed.

(** The header of a mutable member of 1, 2, 4 or 8 bytes decodes to its
    identifier, its must-understand flag and its size. *)
Theorem short_member_header_roundtrip mid size c :
  wf c -> 0 <= id mid < 2 ^ 28 -> size = 1 \/ size = 2 \/ size = 4 \/ size = 8 ->
  reads_back (xcdr2_end_short_member_header mid size) read_member_header (mid, size, SHORT_HEADER) c.
Proof.
  intros W Hid Hs. destruct (short_lc size Hs) as (lc & Hlc & El & Es).
  destruct (xcdr2_flags_fields mid lc Hid ltac:(lia)) as (Hw & Hi & Hl & Hmu).
  eapply (reads_back_intro _ _ _ _ (rolled_back c)); [done|by intros e c' [-> _]|].
  unfold xcdr2_end_short_member_header. rewrite El. eapply wp_mono; [by apply uint32_law| |done].
  intros [] c' (X & St & _). split; [done|]. intros d R Ha He.
  unfold read_member_header, xcdr2_deserialize_member_header. wp_steps.
  eapply wp_mono; [by apply St| |done]. intros v d' (-> & Ad & O). rewrite Hi, Hl, Hmu, Es. wp_steps.
  replace (lc <? 4) with true by lia. wp_steps. cdr_simpl. split; [by destruct mid|].
  split; [done|]. exact (advanced_mem _ _ Ad).
Qed.

(** The header of a mutable member of any other size below 4 GiB decodes to
    its identifier, its must-understand flag and its size. *)
Theorem long_member_header_roundtrip mid size c :
  wf c -> 0 <= id mid < 2 ^ 28 -> 0 < size < 2 ^ 32 ->
  reads_back (xcdr2_end_long_member_header mid size) read_member_header (mid, size, LONG_HEADER) c.
Proof.
  intros W Hid Hs. destruct (xcdr2_flags_fields mid 4 Hid ltac:(lia)) as (Hw & Hi & Hl & Hmu).
  eapply (reads_back_intro _ _ _ _ (aborted c)); [done|by intros e c' [-> _]|].
  unfold xcdr2_end_long_member_header. wp_steps. replace (0 =? size) with false by lia.
  replace (0 <? size) with true by lia. change 0x40000000 with (Z.shiftl 4 28). rewrite u32_small by lia.
  eapply wp_mono; [by apply uint32_law| |intros; by apply rolled_back_aborted].
  intros [] c1 (X1 & S1 & O1). pose proof (ext_wf _ _ X1) as W1. pose proof (aligned_pos_bounds 4 c1 int32_is_align).
  eapply wp_mono; [apply uint32_law; [done|lia]| |intros; eapply aborted_ext; [done|by apply rolled_back_aborted]].
  intros [] c2 (X2 & S2 & O2). split; [eauto using ext_trans|]. intros d R Ha He.
  pose proof (ext_offset _ _ X1). pose proof (ext_offset _ _ X2). pose proof (reader_nonneg _ _ R).
  unfold read_member_header, xcdr2_deserialize_member_header. wp_steps.
  eapply wp_mono; [apply S1; [done|by eapply agree_ext; [|exact X2|]|lia]| |done].
  intros v d1 (-> & A1 & E1). rewrite Hi, Hl, Hmu. wp_steps. change (4 <? 4) with false. change (4 =? 4) with true.
  cbn iota. wp_steps. set (d1' := set_next_member_id_ _ d1).
  assert (R1 : reader c1 d1').
  { destruct (reader_advance _ _ _ _ (ext_config _ _ X1) R A1 E1). split; try done. destruct rd_wf. by split. }
  eapply wp_mono; [apply (S2 d1' R1)| |done].
  - change (mem d1') with (mem d1). rewrite (advanced_mem _ _ A1). eapply agree_weaken; [exact Ha|lia|lia].
  - change (end_ d1') with (end_ d1). rewrite (advanced_end _ _ (rd_wf _ _ R) A1). done.
  - intros v d2 (-> & A2 & E2). wp_steps. rewrite (sc_member _ _ (ad_config _ _ A2)).
    change (next_member_id_ d1') with (mkMemberId (id mid) (must_understand mid)).
    split; [by destruct mid|]. split; [done|].
    rewrite (advanced_mem _ _ A2). by rewrite <- (advanced_mem _ _ A1).
Qed.

End Members.

#[local] Existing Instance host.

Lemma short_member_header_roundtrip_witness :
  reads_back (xcdr2_end_short_member_header (mkMemberId 77 true) 4) read_member_header
             (mkMemberId 77 true, 4, SHORT_HEADER) (sample_stream XCDRv2).
Proof.
  apply (short_member_header_roundtrip (mkMemberId 77 true) 4 (sample_stream XCDRv2)).
  - apply sample_wf.
  - simpl; lia.
  - lia.
Defined.

Lemma long_member_header_roundtrip_witness :
  reads_back (xcdr2_end_long_member_header (mkMemberId 77 false) 300) read_member_header
             (mkMemberId 77 false, 300, LONG_HEADER) (sample_stream XCDRv2).
Proof.
  apply (long_member_header_roundtrip (mkMemberId 77 false) 300 (sample_stream XCDRv2)).
  - apply sample_wf.
  - simpl; lia.
  - lia.
Defined.
