(* ===== verification/Employee.v ===== *)
(** * The application type

    Models the code generated for [struct Employee { string text; }] of
    [easydds/easydds.idl]: [easydds/easyddsCdrAux.ipp] and the type support
    [EmployeePubSubType] of [easydds/easyddsPubSubTypes.cxx], on top of the
    stream of Fast CDR.  The type support decodes into the object of the
    application in place; for the stream this is the same as decoding with the
    object passed on ([Employee_same]). *)

From Stdlib Require Import FunctionalExtensionality.
From S2P Require Import Prelude FastBuffer CdrState CdrInv CdrScalar CdrCodec CdrStrings CdrArrays CdrXcdr CdrContainers CdrContainerLaws CdrSafety CdrSize CdrSizeLaws CdrTypes CdrStruct.

(** [class Employee] *)
Record Employee := mkEmployee { text : list Z }.

(** The fields of [SerializedPayload_t] the type support uses; [data] is the
    memory the pointer points to. *)
Record SerializedPayload_t := mkPayload {
  encapsulation : Z;
  plength : Z;
  pdata : list Z;
  max_size : Z
}.

Inductive DataRepresentationId_t := XCDR_DATA_REPRESENTATION | XML_DATA_REPRESENTATION | XCDR2_DATA_REPRESENTATION.

#[export] Instance DataRepresentationId_eq_dec : EqDecision DataRepresentationId_t.
Proof. solve_decision. Defined.

Definition CDR_BE : Z := 0x0000.
Definition CDR_LE : Z := 0x0001.

Section Employee.
Context `{P : Platform}.

(** ** [easyddsCdrAux.ipp] *)

Definition Employee_serialize (data : Employee) : M unit :=
  current_state <-- gets get_state ;;
  version <-- gets cdr_version_ ;;
  current_state <-- begin_serialize_type current_state
                      (if bool_decide (XCDRv2 = version) then DELIMIT_CDR2 else PLAIN_CDR) ;;
  insert_member_id (mkMemberId 0 false) ;;;
  insert_value (serialize_string (text data)) ;;;
  end_serialize_type current_state.

(** The lambda passed to [deserialize_type]. *)
Definition Employee_functor (data : Employee) (mid : MemberId) : M (bool * Employee) :=
  if id mid =? 0 then t <-- deserialize_string ;; ret (true, mkEmployee t)
  else ret (false, data).

Definition Employee_deserialize (fuel : nat) (data : Employee) : M Employee :=
  version <-- gets cdr_version_ ;;
  deserialize_type Employee_functor fuel
    (if bool_decide (XCDRv2 = version) then DELIMIT_CDR2 else PLAIN_CDR) data.

(** The same on the object the lambda captures by reference: [deser >> data.text()]
    assigns a string it has read. *)
Definition Employee_functor_at (mid : MemberId) : InPlace Employee bool :=
  if id mid =? 0
  then obind (lift deserialize_string) (fun t => obind (assign_to (fun _ => mkEmployee t)) (fun _ => lift (ret true)))
  else lift (ret false).

Definition Employee_deserialize_at (fuel : nat) : InPlace Employee unit :=
  obind (lift (gets cdr_version_)) (fun version =>
    deserialize_type_at Employee_functor_at fuel
      (if bool_decide (XCDRv2 = version) then DELIMIT_CDR2 else PLAIN_CDR)).

Definition Employee_calculate_serialized_size (data : Employee) : Sz Z :=
  previous_encoding <~ szgets sz_encoding ;;
  version <~ szgets sz_version ;;
  calculated_size <~ begin_calculate_type_serialized_size
                       (if bool_decide (XCDRv2 = version) then DELIMIT_CDR2 else PLAIN_CDR) ;;
  n <~ calc_member 0 (calc_string (text data)) ;;
  m <~ end_calculate_type_serialized_size previous_encoding ;;
  szret (calculated_size + n + m).

(** ** [easyddsPubSubTypes.cxx] *)

Definition version_of_representation (r : DataRepresentationId_t) : CdrVersion :=
  if bool_decide (r = XCDR_DATA_REPRESENTATION) then XCDRv1 else XCDRv2.

Definition flag_of_representation (r : DataRepresentationId_t) : EncodingAlgorithmFlag :=
  if bool_decide (r = XCDR_DATA_REPRESENTATION) then PLAIN_CDR else DELIMIT_CDR2.

Definition encapsulation_of (c : Cdr) : Z :=
  if bool_decide (endianness_ c = BIG_ENDIANNESS) then CDR_BE else CDR_LE.

(** [FastBuffer fastbuffer(payload.data, size)]: the buffer is the first [size]
    bytes of the payload, and what is written to it is in the payload. *)
Definition payload_buffer (size : Z) (payload : SerializedPayload_t) : FastBuffer :=
  FastBuffer_external (take (Z.to_nat size) (pdata payload)).

(** [EmployeePubSubType::serialize]: the result and the payload, [None] when
    memory outside of the payload is touched. *)
Definition EmployeePubSubType_serialize (data : Employee) (payload : SerializedPayload_t)
    (data_representation : DataRepresentationId_t) : option (bool * SerializedPayload_t) :=
  let ser := new_Cdr (payload_buffer (max_size payload) payload) DEFAULT_ENDIAN
                     (version_of_representation data_representation) in
  let enc := encapsulation_of ser in
  let ser := (set_encoding_flag (flag_of_representation data_representation) ser).2 in
  let bytes c := mem c ++ drop (Z.to_nat (max_size payload)) (pdata payload) in
  match (serialize_encapsulation ;;; insert_value (Employee_serialize data)) ser with
  | Ok _ c => Some (true, mkPayload enc (u32 (get_serialized_data_length c)) (bytes c) (max_size payload))
  | Throw _ c => Some (false, mkPayload enc (plength payload) (bytes c) (max_size payload))
  | Fault | OutOfFuel => None
  end.

(** One member: the second pass of the loop ends it. *)
Definition Employee_fuel : nat := 2.

(** [EmployeePubSubType::deserialize]: the result, the payload (whose
    [encapsulation] is set once the header was read, and whose bytes are those
    of the stream) and the object as it is when the function returns. *)
Definition EmployeePubSubType_deserialize (payload : SerializedPayload_t) (data : Employee) :
    option (bool * SerializedPayload_t * Employee) :=
  let deser := new_Cdr (payload_buffer (plength payload) payload) DEFAULT_ENDIAN XCDRv2 in
  let left enc c := mkPayload enc (plength payload) (mem c ++ drop (Z.to_nat (plength payload)) (pdata payload))
                              (max_size payload) in
  match read_encapsulation deser with
  | Ok _ c =>
      match Employee_deserialize_at Employee_fuel data c with
      | (data', Ok _ c') => Some (true, left (encapsulation_of c) c', data')
      | (data', Throw _ c') => Some (false, left (encapsulation_of c) c', data')
      | (_, Fault) | (_, OutOfFuel) => None
      end
  | Throw _ c => Some (false, left (encapsulation payload) c, data)
  | Fault | OutOfFuel => None
  end.

(** [EmployeePubSubType::calculate_serialized_size] *)
Definition EmployeePubSubType_calculate_serialized_size (data : Employee)
    (data_representation : DataRepresentationId_t) : Z :=
  match Employee_calculate_serialized_size data
          (new_CdrSizeCalculator (version_of_representation data_representation)) with
  | Some (n, _) => u32 (u32 n + 4)
  | None => 0
  end.

(** ** Employee is a structure of one member *)

Definition text_field : field Employee :=
  mkField _ (fun v => serialize_string (text v))
          (fun _ => t <-- deserialize_string ;; ret (mkEmployee t))
          (fun v _ => mkEmployee (text v))
          (fun v => calc_string (text v)).

Lemma bind_ret_r {A} (m : M A) : (x <-- m ;; ret x) = m.
Proof. apply functional_extensionality. intros c. unfold bind, ret. by destruct (m c). Qed.

Lemma bind_assoc {A B C} (m : M A) (f : A -> M B) (g : B -> M C) :
  (x <-- (y <-- m ;; f y) ;; g x) = (y <-- m ;; x <-- f y ;; g x).
Proof. apply functional_extensionality. intros c. unfold bind. by destruct (m c). Qed.

Lemma Employee_serialize_struct data : Employee_serialize data = serialize_struct [text_field] data.
Proof.
  unfold Employee_serialize, serialize_struct. do 3 (f_equal; apply functional_extensionality; intros ?).
  simpl. rewrite bind_assoc. f_equal. apply functional_extensionality. intros ?. by rewrite bind_assoc.
Qed.

Lemma Employee_functor_struct : Employee_functor = struct_functor [text_field].
Proof.
  apply functional_extensionality. intros data. apply functional_extensionality. intros [i b].
  unfold Employee_functor, struct_functor. cbn [id]. destruct (Z.eqb_spec i 0) as [->|Hi].
  - simpl. by rewrite bind_assoc.
  - destruct (Z.ltb_spec i 0); [done|]. by rewrite lookup_ge_None_2 by (simpl; lia).
Qed.

Lemma Employee_deserialize_struct fuel data :
  Employee_deserialize fuel data = deserialize_struct [text_field] fuel data.
Proof. unfold Employee_deserialize. by rewrite Employee_functor_struct. Qed.

Lemma Employee_size_struct data s :
  Employee_calculate_serialized_size data s = calc_struct [text_field] data s.
Proof.
  unfold Employee_calculate_serialized_size, calc_struct. simpl. unfold szbind, szgets, szret.
  unfold appendable_encoding. destruct (begin_calculate_type_serialized_size _ s) as [[n1 s1]|]; [|done].
  destruct (calc_member _ _ s1) as [[n2 s2]|]; [|done].
  destruct (end_calculate_type_serialized_size _ s2) as [[n3 s3]|]; [|done]. f_equal. f_equal. lia.
Qed.

(** ** Decoding into the object *)

Lemma Employee_functors_agree : functors_agree Employee_functor_at Employee_functor.
Proof.
  intros o mid c. unfold Employee_functor_at, Employee_functor, bind. destruct (id mid =? 0); [|done].
  unfold obind, lift, assign_to, ret. by destruct (deserialize_string c).
Qed.

Lemma Employee_same fuel o : same (Employee_deserialize_at fuel) o (Employee_deserialize fuel o).
Proof. apply same_lift. intros v. apply same_deserialize_type, Employee_functors_agree. Qed.

(** An exception leaves the object as it was. *)
Definition keeps {X} (m : InPlace Employee X) (o : Employee) (c : Cdr) : Prop :=
  match m o c with (o', Throw _ _) => o' = o | _ => True end.

(** No exception at all. *)
Definition quiet {X} (m : InPlace Employee X) : Prop :=
  forall o c, match m o c with (_, Throw _ _) => False | _ => True end.

Lemma quiet_keeps {X} (m : InPlace Employee X) o c : quiet m -> keeps m o c.
Proof. intros H. specialize (H o c). unfold keeps. by destruct (m o c) as [? []]. Qed.

Lemma keeps_bind {X Y} (m : InPlace Employee X) (k : X -> InPlace Employee Y) o c :
  keeps m o c -> (forall x, quiet (k x)) -> keeps (obind m k) o c.
Proof.
  unfold keeps, obind. intros H Q. destruct (m o c) as [o' [x c'|e c'| |]]; [|done..].
  specialize (Q x o' c'). by destruct (k x o' c') as [? []].
Qed.

Lemma keeps_lift {X Y} (m : M X) (k : X -> InPlace Employee Y) o c (R : X -> Cdr -> Prop) :
  wp m c R (fun _ _ => True) -> (forall x c', R x c' -> keeps (k x) o c') -> keeps (obind (lift m) k) o c.
Proof. unfold wp, keeps, obind, lift. intros H K. destruct (m c) as [x c'| | |]; try done. by apply K. Qed.

Lemma quiet_lift {X Y} (m : M X) (k : X -> InPlace Employee Y) :
  (forall c, match m c with Throw _ _ => False | _ => True end) -> (forall x, quiet (k x)) ->
  quiet (obind (lift m) k).
Proof. intros H Q o c. specialize (H c). unfold obind, lift. destruct (m c); try done. apply Q. Qed.

Lemma jump_quiet n c : match jump n c with Throw _ _ => False | _ => True end.
Proof.
  unfold jump, bind, has_room. destruct (remaining c >=? n); [done|].
  destruct (Cdr_resize n c) as [[] c']; done.
Qed.

(** The rest of a type after its members. *)
Ltac quiet_steps :=
  repeat first [ done | apply quiet_lift; [done|intros ?] | apply quiet_lift; [intros ?; apply jump_quiet|intros ?] ].

Lemma members_keep more o c :
  wf c -> octets c -> id (next_member_id_ c) = 0 ->
  keeps (members_loop_at Employee_functor_at Employee_fuel more) o c.
Proof.
  intros W B H. unfold keeps. cbn [members_loop_at Employee_fuel]. unfold obind at 1, lift at 1, gets at 1.
  destruct (more c); [|done]. unfold obind at 1 2, lift at 1, gets at 1, Employee_functor_at at 1.
  rewrite H. change (0 =? 0) with true. cbn iota. unfold obind at 1 2, lift at 1.
  pose proof (safe (m := deserialize_string) c W B) as S. unfold wp in S.
  destruct (deserialize_string c) as [t c'|e c'| |]; try done. unfold assign_to, lift at 1, ret at 1. cbn iota.
  unfold obind at 1, lift at 1, modify at 1. unfold obind at 1, lift at 1, gets at 1.
  destruct (more _); [|done]. unfold obind at 1 2, lift at 1, gets at 1, Employee_functor_at at 1.
  replace (id (next_member_id_ (incr_member_id c'))) with 1; [done|].
  destruct (ad_config _ _ S). unfold incr_member_id. cdr_simpl. cbn [id].
  replace (next_member_id_ c') with (next_member_id_ c) by congruence. by rewrite H.
Qed.


Lemma wf_next_member i c : wf c -> wf (set_next_member_id_ i c).
Proof. intros []. by split. Qed.

Lemma wf_current_encoding f c : wf c -> wf (set_current_encoding_ f c).
Proof. intros []. by split. Qed.

(** The members and what follows them. *)
Lemma members_first_keep {X} more (rest : unit -> InPlace Employee X) o c :
  wf c -> octets c -> (forall u, quiet (rest u)) ->
  keeps (obind (lift (modify (set_next_member_id_ (mkMemberId 0 false)))) (fun _ =>
         obind (members_loop_at Employee_functor_at Employee_fuel more) rest)) o c.
Proof.
  intros W B Q. apply (keeps_lift _ _ _ _ (fun _ c' => c' = set_next_member_id_ (mkMemberId 0 false) c)); [done|].
  intros _ c' ->. apply keeps_bind; [|done]. apply members_keep; [by apply wf_next_member|done|done].
Qed.

Lemma keeps_assoc {X Y Z} (m : InPlace Employee X) (f : X -> InPlace Employee Y) (g : Y -> InPlace Employee Z) o c :
  keeps (obind m (fun x => obind (f x) g)) o c -> keeps (obind (obind m f) g) o c.
Proof. unfold keeps, obind. by destruct (m o c) as [? []]. Qed.

(** A decoding that fails has not touched the object. *)
Lemma Employee_keeps o c : wf c -> octets c -> keeps (Employee_deserialize_at Employee_fuel) o c.
Proof.
  intros W B. unfold Employee_deserialize_at, deserialize_type_at.
  apply (keeps_lift _ _ _ _ (fun _ c' => c' = c)); [done|]. intros v ? ->.
  apply (keeps_lift _ _ _ _ (fun _ c' => c' = c)); [done|]. intros cb ? ->.
  assert (Hp1 : bool_decide (PL_CDR = (if bool_decide (XCDRv2 = v) then DELIMIT_CDR2 else PLAIN_CDR)) = false)
    by (by destruct v).
  assert (Hp2 : bool_decide (PL_CDR2 = (if bool_decide (XCDRv2 = v) then DELIMIT_CDR2 else PLAIN_CDR)) = false)
    by (by destruct v).
  assert (Hp3 : negb (bool_decide (PLAIN_CDR2 = (if bool_decide (XCDRv2 = v) then DELIMIT_CDR2 else PLAIN_CDR))) = true)
    by (by destruct v).
  set (enc := if bool_decide (XCDRv2 = v) then DELIMIT_CDR2 else PLAIN_CDR) in *. clearbody enc. destruct cb.
  - unfold cdr_deserialize_type_at. apply (keeps_lift _ _ _ _ (fun _ c' => c' = c)); [done|]. intros s ? ->.
    apply members_first_keep; [done|done|intros ?; quiet_steps].
  - unfold xcdr1_deserialize_type_at. rewrite Hp1. apply (keeps_lift _ _ _ _ (fun _ c' => c' = c)); [done|].
    intros s ? ->. apply (keeps_lift _ _ _ _ (fun _ c' => c' = set_current_encoding_ enc c)); [done|].
    intros [] ? ->. apply keeps_assoc, members_first_keep; [by apply wf_current_encoding|done|intros ?; quiet_steps].
  - unfold xcdr2_deserialize_type_at. rewrite Hp2, Hp3.
    apply (keeps_lift _ _ _ _ (fun _ c' => advanced c c')).
    { eapply wp_mono; [by apply (safe (m := deserialize_uint32))|by intros|done]. }
    intros n c1 Ad. assert (B1 : octets c1) by (unfold octets in *; by rewrite (advanced_mem _ _ Ad)).
    apply (keeps_lift _ _ _ _ (fun _ c' => c' = c1)); [done|]. intros s ? ->.
    apply (keeps_lift _ _ _ _ (fun _ c' => c' = set_current_encoding_ enc c1)); [done|]. intros [] ? ->.
    apply keeps_bind; [|intros ?; quiet_steps].
    apply members_first_keep; [apply wf_current_encoding, Ad|done|intros ?; quiet_steps].
Qed.

(** ** The laws of the member *)

Lemma text_field_law v : valid_string (text v) -> field_law v text_field.
Proof.
  intros Hv c W. simpl. eapply wp_mono; [by apply (string_lawful (text v))| |done].
  intros [] c' (X & Hp & St). split; [done|]. split; [done|]. intros Hb old d R Ha He. wp_steps.
  eapply wp_mono; [by apply (St Hb (text v) d)| |done]. intros t d' (-> & ?). by wp_steps.
Qed.

Lemma text_field_sized v : valid_string (text v) -> field_sized v text_field.
Proof.
  intros Hv. split.
  - intros s Hal. by apply (sized_calc (k := string_codec) (text v) s).
  - intros c s n s' W R E. by eapply (sized_within (k := string_codec) (text v)).
Qed.

Lemma text_field_safe : Forall (fun f => forall o, Safe (fdes f o)) [text_field].
Proof. constructor; [|done]. intros o. simpl. apply _. Qed.

(** ** Fresh streams *)

(** A stream as the type support sets it up. *)
Record fresh (c : Cdr) : Prop := mkFresh {
  fr_wf : wf c;
  fr_offset : offset_ c = 0;
  fr_origin : origin_ c = 0;
  fr_endian : endian_ok c;
  fr_member : next_member_id_ c = MEMBER_ID_INVALID;
  fr_options : options_ c = [0; 0];
  fr_version : cdr_version_ c = version_of_flag (encoding_flag_ c);
  fr_internal : m_internalBuffer (cdr_buffer_ c) = false
}.

Definition ser_stream (buf : list Z) (r : DataRepresentationId_t) : Cdr :=
  (set_encoding_flag (flag_of_representation r)
     (new_Cdr (FastBuffer_external buf) DEFAULT_ENDIAN (version_of_representation r))).2.

Lemma fresh_ser_stream buf r : zlen buf < 2 ^ 62 -> fresh (ser_stream buf r).
Proof.
  intros Hb. pose proof (wf_new_external buf DEFAULT_ENDIAN (version_of_representation r) Hb) as W.
  unfold ser_stream, set_encoding_flag, flag_of_representation, version_of_representation, endian_ok in *.
  destruct (bool_decide (r = _)); simpl in *; (split; [|done..]); destruct W; by split.
Qed.

Lemma mem_ser_stream buf r : mem (ser_stream buf r) = buf /\ end_ (ser_stream buf r) = zlen buf.
Proof.
  unfold ser_stream, set_encoding_flag, flag_of_representation, version_of_representation.
  by destruct (bool_decide (r = _)).
Qed.

(** The length of the data of an Employee, without the encapsulation. *)
Definition Employee_data_size (data : Employee) (v : CdrVersion) (n : Z) : Prop :=
  exists s', calc_struct [text_field] data (new_CdrSizeCalculator v) = Some (n, s') /\ current_alignment s' = n.

Lemma Employee_data_size_exists data v : valid_string (text data) -> exists n, Employee_data_size data v n /\ 0 <= n.
Proof.
  intros Hv. destruct (sized_struct [text_field] data (new_CdrSizeCalculator v)) as (n & s' & E & C & N & _).
  - constructor; [by apply text_field_sized|done].
  - unfold is_align. destruct v; simpl; lia.
  - exists n. split; [|done]. exists s'. split; [done|]. destruct v; simpl in C; lia.
Qed.

(** What [EmployeePubSubType::serialize] leaves in the buffer. *)
Lemma Employee_stream_law data c n :
  fresh c -> valid_string (text data) -> Employee_data_size data (cdr_version_ c) n ->
  wp (serialize_encapsulation ;;; insert_value (Employee_serialize data)) c
     (fun _ c' => exists c1, encapsulated c c1 /\ ext c1 c' /\ offset_ c' <= 4 + n /\ 4 < offset_ c' /\
        mread (mem c') 0 4 = Some (0 :: encapsulation_byte c :: [0; 0]) /\
        (offset_ c' < 2 ^ 32 -> forall old, stored (Employee_deserialize Employee_fuel old) data c1 c'))
     (fun e c' => e = NotEnoughMemoryException /\ end_ c < 4 + n).
Proof.
  intros F Hv (s' & Hsz & Hcur). pose proof (fr_wf _ F) as W. pose proof (fr_offset _ F) as Ho.
  assert (Hn : 0 <= n).
  { destruct (Employee_data_size_exists data (cdr_version_ c) Hv) as (m & (t & E & _) & ?). rewrite Hsz in E.
    by injection E as -> _. }
  assert (Hver : cdr_version_ c = XCDRv1 \/ cdr_version_ c = XCDRv2)
    by (rewrite (fr_version _ F); destruct (encoding_flag_ c); simpl; auto).
  wp_steps. eapply wp_mono; [apply serialize_encapsulation_law; try done| |].
  - apply F.
  - by destruct Hver as [-> | ->].
  - rewrite (fr_options _ F). repeat constructor; unfold is_byte; lia.
  - by rewrite (fr_options _ F).
  - intros [] c1 [En Hm]. rewrite Ho, (fr_options _ F) in Hm.
    assert (Hnx : next_member_id_ c1 = MEMBER_ID_INVALID) by (rewrite (en_member _ _ En); apply F).
    apply wp_insert_value; [done|]. rewrite Employee_serialize_struct.
    assert (R : sz_rel c1 (new_CdrSizeCalculator (cdr_version_ c))).
    { split.
      - rewrite (en_version _ _ En). by destruct (cdr_version_ c).
      - rewrite (wf_align64 _ (en_wf _ _ En)), (en_version _ _ En). by destruct (cdr_version_ c).
      - rewrite (en_offset _ _ En), (en_origin _ _ En). destruct (cdr_version_ c); simpl; lia. }
    eapply wp_mono; [apply wp_and; [apply serialize_struct_law|eapply within_struct]| |].
    + constructor; [by apply text_field_law|done].
    + done.
    + apply En.
    + done.
    + by rewrite (en_version _ _ En).
    + constructor; [by apply text_field_sized|done].
    + done.
    + apply En.
    + done.
    + by rewrite (en_version _ _ En).
    + exact R.
    + exact Hsz.
    + intros [] c' [(X & Hp & St) [_ Hw]]. exists c1. split; [done|]. split; [done|].
      rewrite (sc_origin _ _ (ext_config _ _ X)), (en_origin _ _ En), Ho in Hw.
      change (zlen [text_field]) with 1 in Hp. rewrite (en_offset _ _ En), Ho in Hp.
      split; [lia|]. split; [lia|]. split.
      * eapply mread_agree; [exact Hm| |].
        -- eapply agree_weaken; [exact (ext_mem _ _ X)|lia|]. rewrite (en_offset _ _ En). lia.
        -- pose proof (ext_wf _ _ X) as W'. rewrite (wf_mem_length _ W'). pose proof (wf_offset _ W'). lia.
      * intros Hb old. rewrite Employee_deserialize_struct.
        replace data with (copy_fields [text_field] data old) at 1 by (destruct data; done).
        apply St; [done|]. simpl. unfold Employee_fuel. lia.
    + intros e c' [-> Hend]. split; [done|]. rewrite (en_origin _ _ En), Ho, Hcur in Hend.
      pose proof (en_end _ _ En). lia.
  - intros e c' (-> & Hend & _). split; [done|]. lia.
Qed.

(** The exact size: a delimiter header in XCDRv2, the length and the bytes of
    the string with its terminator. *)
Definition Employee_wire_size (data : Employee) (v : CdrVersion) : Z :=
  zlen (text data) + (if bool_decide (XCDRv2 = v) then 9 else 5).

Lemma Employee_data_size_eq data v :
  v = XCDRv1 \/ v = XCDRv2 -> Employee_data_size data v (Employee_wire_size data v).
Proof.
  intros Hv. unfold Employee_data_size, Employee_wire_size.
  set (s := new_CdrSizeCalculator v). destruct (struct_start_props s) as (Hp & _).
  pose proof (calc_plain_member 0 _ _ _ _ Hp (sized_string (text data) (struct_start s))) as (E2 & C2 & N2 & S2).
  set (s2 := sz_set_sms _ _) in *.
  destruct (end_struct_eq (sz_encoding s) s2) as (s3 & E3 & C3 & _).
  { rewrite (szs_encoding _ _ S2). apply Hp. }
  exists s3. unfold calc_struct, szbind at 1 2, szgets. unfold szbind at 1. rewrite begin_struct_eq.
  simpl. unfold szbind. rewrite E2. unfold szret. rewrite E3, C3.
  destruct Hv as [-> | ->]; simpl; change (sz_alignment 0 4) with 0; change (sz_alignment (0 + (4 + 0)) 4) with 0;
    (split; [f_equal; f_equal; lia|lia]).
Qed.

Lemma version_of_representation_cases r :
  version_of_representation r = XCDRv1 \/ version_of_representation r = XCDRv2.
Proof. unfold version_of_representation. destruct (bool_decide _); auto. Qed.

Lemma calculate_size_eq data r :
  zlen (text data) < 2 ^ 32 - 13 ->
  EmployeePubSubType_calculate_serialized_size data r = 4 + Employee_wire_size data (version_of_representation r).
Proof.
  intros Hl. unfold EmployeePubSubType_calculate_serialized_size. rewrite Employee_size_struct.
  destruct (Employee_data_size_eq data _ (version_of_representation_cases r)) as (s & -> & _).
  unfold Employee_wire_size. pose proof (zlen_nonneg (text data)).
  unfold u32. destruct (bool_decide _); rewrite !Z.mod_small; try lia; rewrite Z.mod_small; lia.
Qed.

Lemma cdr_version_ser_stream buf r : cdr_version_ (ser_stream buf r) = version_of_representation r.
Proof.
  unfold ser_stream, set_encoding_flag, flag_of_representation, version_of_representation.
  by destruct (bool_decide (r = _)).
Qed.

(** The stream [EmployeePubSubType::deserialize] sets up is a reader of what
    [EmployeePubSubType::serialize] wrote. *)
Lemma payload_reader c c1 d d1 :
  fresh c -> encapsulated c c1 -> configured (encoding_flag_ c) (endianness_ c) (options_ c) d d1 ->
  offset_ d = 0 -> reader c1 d1.
Proof.
  intros F En Cf Ho. split.
  - apply Cf.
  - by rewrite (cf_offset _ _ _ _ _ Cf), (en_offset _ _ En), Ho, (fr_offset _ F).
  - by rewrite (cf_origin _ _ _ _ _ Cf), (en_origin _ _ En), Ho, (fr_offset _ F).
  - rewrite (en_swap _ _ En). pose proof (fr_endian _ F) as E1. pose proof (cf_endian_ok _ _ _ _ _ Cf) as E2.
    unfold endian_ok in *. by rewrite E1, E2, (cf_endianness _ _ _ _ _ Cf).
  - by rewrite (cf_version _ _ _ _ _ Cf), (en_version _ _ En), (fr_version _ F).
  - by rewrite (cf_encoding _ _ _ _ _ Cf), (en_encoding _ _ En).
Qed.

(** [EmployeePubSubType::serialize] in terms of the law of its stream. *)
Lemma pubsub_serialize_cases data payload r :
  valid_string (text data) -> zlen (text data) < 2 ^ 32 - 13 ->
  zlen (pdata payload) = max_size payload -> max_size payload < 2 ^ 32 ->
  exists c, fresh c /\
  match EmployeePubSubType_serialize data payload r with
  | Some (true, payload') => exists c1 c',
      encapsulated c c1 /\ plength payload' = offset_ c' /\ pdata payload' = mem c' /\ wf c' /\
      max_size payload' = max_size payload /\ zlen (pdata payload') = max_size payload' /\
      4 < offset_ c' <= EmployeePubSubType_calculate_serialized_size data r /\
      offset_ c' <= max_size payload /\
      mread (mem c') 0 4 = Some (0 :: encapsulation_byte c :: [0; 0]) /\
      (forall old, stored (Employee_deserialize Employee_fuel old) data c1 c')
  | Some (false, _) => max_size payload < EmployeePubSubType_calculate_serialized_size data r
  | None => False
  end.
Proof.
  intros Hv Hl Hz Hm. pose proof (zlen_nonneg (pdata payload)). pose proof (zlen_nonneg (text data)).
  set (c := ser_stream (pdata payload) r). assert (F : fresh c) by (apply fresh_ser_stream; lia).
  exists c. split; [done|]. unfold EmployeePubSubType_serialize, payload_buffer.
  rewrite take_ge, drop_ge by (unfold zlen in Hz; lia).
  change ((set_encoding_flag _ _).2) with c. rewrite (calculate_size_eq data r Hl).
  destruct (mem_ser_stream (pdata payload) r) as [Hmem Hend]. fold c in Hmem, Hend.
  assert (Hver : cdr_version_ c = version_of_representation r) by apply cdr_version_ser_stream.
  pose proof (Employee_data_size_eq data _ (version_of_representation_cases r)) as Hd. rewrite <- Hver in Hd |- *.
  pose proof (Employee_stream_law data c _ F Hv Hd) as Hs. unfold wp in Hs.
  set (n := Employee_wire_size data (cdr_version_ c)) in *.
  assert (Hn : 4 + n < 2 ^ 32) by (unfold n, Employee_wire_size; destruct (bool_decide _); lia).
  clearbody n c. destruct ((serialize_encapsulation ;;; _) c) as [[] c'|e c'| |]; [|lia|done|done].
  destruct Hs as (c1 & En & X & Hle & Hlt & Hrd & St). pose proof (ext_wf _ _ X) as W'.
  pose proof (wf_offset _ W'). pose proof (wf_mem_length _ W').
  assert (Hend' : end_ c' = end_ c).
  { rewrite <- (en_fixed _ _ En (fr_internal _ F)). apply (ext_fixed _ _ X).
    rewrite (en_internal _ _ En). apply F. }
  assert (Hb : get_serialized_data_length c' = offset_ c').
  { unfold get_serialized_data_length, begin. rewrite Z.sub_0_r. apply size_t_small. lia. }
  exists c1, c'. cbn [plength pdata max_size]. rewrite app_nil_r, Hb, u32_small by lia.
  split_and!; try done; try lia. apply St. lia.
Qed.

(** The stream [EmployeePubSubType::deserialize] sets up. *)
Lemma deser_stream buf :
  zlen buf < 2 ^ 62 ->
  let d := new_Cdr (FastBuffer_external buf) DEFAULT_ENDIAN XCDRv2 in
  wf d /\ endian_ok d /\ mem d = buf /\ end_ d = zlen buf /\ offset_ d = 0 /\ at_least_xcdrv1 d = true /\
  m_internalBuffer (cdr_buffer_ d) = false.
Proof. intros Hb. split; [by apply wf_new_external|]. done. Qed.

(** What was stored behind an encapsulation is read back. *)
Lemma pubsub_deserialize_stored c c1 c' data old payload :
  fresh c -> encapsulated c c1 -> wf c' -> 4 < offset_ c' <= 2 ^ 32 ->
  plength payload = offset_ c' -> pdata payload = mem c' ->
  mread (mem c') 0 4 = Some (0 :: encapsulation_byte c :: [0; 0]) ->
  stored (Employee_deserialize Employee_fuel old) data c1 c' ->
  EmployeePubSubType_deserialize payload old =
    Some (true, mkPayload (encapsulation_of c) (plength payload) (pdata payload) (max_size payload), data).
Proof.
  intros F En W' Ho Hl Hd Hm St. pose proof (wf_offset _ W'). pose proof (wf_mem_length _ W').
  unfold EmployeePubSubType_deserialize, payload_buffer. rewrite Hl, Hd.
  set (buf := take (Z.to_nat (offset_ c')) (mem c')).
  assert (Hz : zlen buf = offset_ c') by (unfold buf, zlen in *; rewrite length_take; lia).
  assert (Ha : agree 0 (offset_ c') (mem c') buf).
  { intros i Hi. unfold buf. by rewrite lookup_take_lt by lia. }
  destruct (deser_stream buf) as (W & He & Hmd & Hed & Hod & Hx & _); [lia|]. set (d := new_Cdr _ _ _) in *.
  clearbody d.
  pose proof (read_encapsulation_law (encoding_flag_ c) (endianness_ c) [0; 0] d W He Hx eq_refl ltac:(lia)) as Hr.
  unfold wp in Hr. destruct (read_encapsulation d) as [[] d1|e d1| |] eqn:Er; [|exfalso; apply Hr..].
  2-4: rewrite Hod, Hmd; eapply mread_agree; [exact Hm|eapply agree_weaken; [exact Ha|lia|lia]|lia].
  assert (Cf : configured (encoding_flag_ c) (endianness_ c) (options_ c) d d1).
  { rewrite (fr_options _ F). apply Hr. rewrite Hod, Hmd.
    eapply mread_agree; [exact Hm|eapply agree_weaken; [exact Ha|lia|lia]|lia]. }
  pose proof (payload_reader c c1 d d1 F En Cf Hod) as R.
  assert (Hm1 : mem d1 = buf) by (unfold mem; rewrite (cf_buffer _ _ _ _ _ Cf); exact Hmd).
  assert (He1 : end_ d1 = zlen buf) by (rewrite <- (wf_mem_length _ (cf_wf _ _ _ _ _ Cf)); congruence).
  assert (E4 : offset_ c1 = 4) by (rewrite (en_offset _ _ En), (fr_offset _ F); done).
  specialize (St d1 R). rewrite Hm1, He1 in St.
  assert (St' : wp (Employee_deserialize Employee_fuel old) d1
    (fun v' d' => v' = data /\ advanced d1 d' /\ offset_ d' = offset_ c') (fun _ _ => False)).
  { apply St; [|lia]. eapply agree_weaken; [exact Ha|lia|lia]. }
  unfold wp in St'. pose proof (Employee_same Employee_fuel old d1) as Hs.
  destruct (Employee_deserialize_at _ old d1) as [o' [[] d2|e d2| |]]; rewrite Hs in St'; try done.
  destruct St' as (-> & Ad & _). unfold encapsulation_of. rewrite (cf_endianness _ _ _ _ _ Cf).
  rewrite (advanced_mem _ _ Ad), Hm1. do 4 f_equal. apply take_drop.
Qed.

(** ** The type support *)

(** C12: an [Employee] that is serialized into a payload of the size
    [calculate_serialized_size] asks for is serialized successfully, in no more
    bytes than calculated and without writing outside of the payload, and
    [deserialize] gives it back whatever the object held before, in both data
    representations and on a host of either byte order. *)
Theorem pubsub_roundtrip data payload r old :
  valid_string (text data) -> zlen (text data) < 2 ^ 32 - 13 ->
  zlen (pdata payload) = max_size payload -> max_size payload < 2 ^ 32 ->
  EmployeePubSubType_calculate_serialized_size data r <= max_size payload ->
  exists payload' payload'',
    EmployeePubSubType_serialize data payload r = Some (true, payload') /\
    plength payload' <= EmployeePubSubType_calculate_serialized_size data r /\
    zlen (pdata payload') = max_size payload /\
    EmployeePubSubType_deserialize payload' old = Some (true, payload'', data).
Proof.
  intros Hv Hl Hz Hm Hs. destruct (pubsub_serialize_cases data payload r Hv Hl Hz Hm) as (c & F & H).
  destruct (EmployeePubSubType_serialize data payload r) as [[[] payload']|]; [|lia|done].
  destruct H as (c1 & c' & En & Hpl & Hpd & W & Hms & Hz' & [? ?] & ? & Hrd & St).
  eexists payload', _. split; [done|]. split; [lia|]. split; [lia|].
  eapply pubsub_deserialize_stored; [done|done|done|lia|done|done|done|done].
Qed.

(** C13: whatever bytes arrive in a payload, [EmployeePubSubType::deserialize]
    terminates, never touches memory outside of the payload, leaves the bytes
    alone, and when it refuses them no exception came after an assignment to
    the object it decodes into, which is as it was. *)
Theorem pubsub_deserialize_safe payload old :
  Forall is_byte (pdata payload) -> zlen (pdata payload) < 2 ^ 62 ->
  exists b payload' data', EmployeePubSubType_deserialize payload old = Some (b, payload', data') /\
    pdata payload' = pdata payload /\ plength payload' = plength payload /\ (b = false -> data' = old).
Proof.
  intros Hb Hl. unfold EmployeePubSubType_deserialize, payload_buffer.
  set (buf := take (Z.to_nat (plength payload)) (pdata payload)).
  assert (Hz : zlen buf < 2 ^ 62) by (unfold buf, zlen in *; rewrite length_take; lia).
  destruct (deser_stream buf Hz) as (W & _ & Hmd & _ & _ & _ & Hi). set (d := new_Cdr _ _ _) in *.
  assert (Hk : forall d', visited d d' -> mem d' ++ drop (Z.to_nat (plength payload)) (pdata payload) = pdata payload).
  { intros d' V. unfold mem in *. rewrite (vi_buffer _ _ V), Hmd. apply take_drop. }
  clearbody d. assert (B : octets d) by (unfold octets; rewrite Hmd; by apply Forall_take).
  pose proof (read_encapsulation_safe d W B) as Hr. unfold wp in Hr.
  destruct (read_encapsulation d) as [[] d1|e d1| |]; [|by (do 3 eexists; split; [done|]; split; [by apply Hk|])|done|done].
  pose proof (visited_octets _ _ B Hr) as B1. pose proof (Employee_same Employee_fuel old d1) as Hs.
  pose proof (Employee_keeps old d1 (vi_wf _ _ Hr) B1) as Hold. unfold keeps in Hold.
  assert (Hd : wp (deserialize_struct [text_field] Employee_fuel old) d1 (fun _ d' => visited d1 d') (fun _ d' => visited d1 d')).
  { apply deserialize_struct_safe; [apply text_field_safe|done|unfold Employee_fuel; simpl; lia|apply Hr|done|].
    by rewrite (vi_buffer _ _ Hr). }
  rewrite <- Employee_deserialize_struct in Hd. unfold wp in Hd.
  destruct (Employee_deserialize_at _ old d1) as [o' [[] d2|e d2| |]]; rewrite Hs in Hd; try done;
    (do 3 eexists; split; [done|]; split; [apply Hk; by eapply visited_trans|done]).
Qed.

(** [EmployeePubSubType::serialize] never writes outside of the payload,
    and it fails only when the payload is smaller than
    [calculate_serialized_size] says. *)
Theorem pubsub_serialize_total data payload r :
  valid_string (text data) -> zlen (text data) < 2 ^ 32 - 13 ->
  zlen (pdata payload) = max_size payload -> max_size payload < 2 ^ 32 ->
  exists b payload', EmployeePubSubType_serialize data payload r = Some (b, payload') /\
    (b = false -> max_size payload < EmployeePubSubType_calculate_serialized_size data r) /\
    (b = true -> plength payload' <= max_size payload).
Proof.
  intros Hv Hl Hz Hm. destruct (pubsub_serialize_cases data payload r Hv Hl Hz Hm) as (c & F & H).
  destruct (EmployeePubSubType_serialize data payload r) as [[[] payload']|]; [| |done].
  - exists true, payload'. split; [done|]. split; [done|]. intros _.
    destruct H as (c1 & c' & _ & -> & _ & _ & _ & _ & _ & ? & _). lia.
  - exists false, payload'. by split_and!.
Qed.

End Employee.

Definition sample_employee : Employee := mkEmployee [72; 105].
Definition sample_payload : SerializedPayload_t := mkPayload 0 0 (replicate 16 7) 16.

Lemma pubsub_roundtrip_witness :
  exists payload' payload'',
    @EmployeePubSubType_serialize host sample_employee sample_payload XCDR2_DATA_REPRESENTATION = Some (true, payload') /\
    plength payload' <= EmployeePubSubType_calculate_serialized_size sample_employee XCDR2_DATA_REPRESENTATION /\
    zlen (pdata payload') = 16 /\
    @EmployeePubSubType_deserialize host payload' (mkEmployee []) = Some (true, payload'', sample_employee).
Proof.
  apply (@pubsub_roundtrip host sample_employee sample_payload XCDR2_DATA_REPRESENTATION (mkEmployee [])).
  - split; [repeat (constructor; [discriminate|]); constructor|reflexivity].
  - reflexivity.
  - reflexivity.
  - reflexivity.
  - vm_compute. discriminate.
Defined.

Lemma pubsub_deserialize_safe_witness :
  exists b payload' data',
    @EmployeePubSubType_deserialize host (mkPayload 0 5 [0; 9; 0; 0; 1] 5) sample_employee = Some (b, payload', data') /\
    pdata payload' = [0; 9; 0; 0; 1] /\ plength payload' = 5 /\ (b = false -> data' = sample_employee).
Proof.
  apply (@pubsub_deserialize_safe host (mkPayload 0 5 [0; 9; 0; 0; 1] 5) sample_employee).
  - repeat constructor; unfold is_byte; lia.
  - reflexivity.
Defined.

Lemma pubsub_serialize_total_witness :
  exists b payload', @EmployeePubSubType_serialize host sample_employee sample_payload XCDR_DATA_REPRESENTATION = Some (b, payload') /\
    (b = false -> 16 < EmployeePubSubType_calculate_serialized_size sample_employee XCDR_DATA_REPRESENTATION) /\
    (b = true -> plength payload' <= 16).
Proof.
  apply (@pubsub_serialize_total host sample_employee sample_payload XCDR_DATA_REPRESENTATION).
  - split; [repeat (constructor; [discriminate|]); constructor|reflexivity].
  - reflexivity.
  - reflexivity.
  - reflexivity.
Defined.
