(* ===== verification/CdrLimits.v ===== *)
(** * Where the stream does not keep its promises

    Theorems about the places of Fast CDR whose behaviour differs from what the
    code around them relies on: unchecked alignment in the headers of XCDRv1,
    an unsigned guard before a move of bytes, a size class that leaks from the
    keys of a map, a size calculator that forgets to reset it, and two
    deserializers that leave more behind than they should. *)

From S2P Require Import Prelude FastBuffer CdrState CdrInv CdrScalar CdrCodec CdrStrings CdrArrays CdrXcdr CdrContainers CdrContainerLaws CdrSafety CdrSize CdrSizeLaws CdrTypes.

Section Limits.
Context `{P : Platform}.
Implicit Types c d : Cdr.

Lemma mwrite_out m p bs : bs <> [] -> zlen m < p + zlen bs -> mwrite m p bs = None.
Proof.
  intros Hbs Hp. destruct bs as [|b bs]; [done|]. unfold mwrite.
  destruct (in_block m p _) eqn:E; [|done]. apply in_block_true in E. lia.
Qed.

Lemma mread_out m p n : n <> 0 -> zlen m < p + n -> mread m p n = None.
Proof.
  intros Hn Hp. unfold mread. destruct (Z.eqb_spec n 0); [done|].
  destruct (in_block m p n) eqn:E; [|done]. apply in_block_true in E. lia.
Qed.

(** [0 < ((end_ - offset_) - member_serialized_size - k)] on unsigned integers
    rejects a single value: when fewer than [k + 1] bytes are left behind the
    member, but not exactly [k], the bytes are moved out of the buffer. *)
Lemma move_bytes_out k size c :
  wf c -> 0 < size < 2 ^ 62 -> 0 <= k -> offset_ c + 4 + size <= end_ c -> end_ c < offset_ c + k + 1 + size ->
  move_bytes (k + 1) 4 size c = Fault.
Proof.
  intros W Hs Hk H4 Hend. pose proof (wf_mem_length _ W) as Hm. pose proof (wf_offset _ W).
  unfold move_bytes, mmove. destruct (mread_ok (mem c) (offset_ c + 4) size) as (bs & -> & Hb); [lia|lia|lia|].
  rewrite mwrite_out; [done| |lia]. intros ->. change (zlen []) with 0 in Hb. lia.
Qed.

Lemma guard_wraps k size c :
  wf c -> 0 < size < 2 ^ 62 -> 0 <= k < 16 -> offset_ c + 4 + size <= end_ c ->
  end_ c <> offset_ c + k + size -> (0 <? size_t (remaining c - size - k)) = true.
Proof.
  intros W Hs Hk H4 Hne. pose proof (wf_end_bound _ W). pose proof (wf_offset _ W).
  unfold remaining. rewrite (size_t_small (end_ c - offset_ c)) by lia.
  pose proof (size_t_range (end_ c - offset_ c - size - k)). apply Z.ltb_lt.
  enough (size_t (end_ c - offset_ c - size - k) <> 0) by lia. intros E.
  unfold size_t, u64 in E. apply Z.mod_divide in E as [q Hq]; [|lia].
  assert (-16 < end_ c - offset_ c - size - k < 2 ^ 62) by lia. assert (q = 0) by nia. subst q. lia.
Qed.

(** [Cdr::xcdr2_change_to_long_member_header] writes outside of the buffer
    when a member of [size] bytes has its short header and its value in the
    buffer but fewer than 4 free bytes behind them (and not exactly 3): the
    guard that should refuse the change of header underflows. *)
Theorem xcdr2_change_to_long_overruns mid size c :
  wf c -> 0 < size < 2 ^ 32 -> offset_ c + 4 + size <= end_ c < offset_ c + 8 + size ->
  end_ c <> offset_ c + 7 + size -> xcdr2_change_to_long_member_header mid size c = Fault.
Proof.
  intros W Hs [H4 Hend] Hne. unfold xcdr2_change_to_long_member_header, bind, gets.
  rewrite guard_wraps by (done || lia). change 8 with (7 + 1). by rewrite (move_bytes_out 7 size c) by (done || lia).
Qed.

(** [Cdr::xcdr1_change_to_long_member_header] has the same flaw with the
    12 bytes of its header. *)
Theorem xcdr1_change_to_long_overruns mid size c :
  wf c -> 0 < size < 2 ^ 32 -> offset_ c + 4 + size <= end_ c < offset_ c + 12 + size ->
  end_ c <> offset_ c + 11 + size -> xcdr1_change_to_long_member_header mid size c = Fault.
Proof.
  intros W Hs [H4 Hend] Hne. unfold xcdr1_change_to_long_member_header, bind, gets.
  rewrite guard_wraps by (done || lia). change 12 with (11 + 1). by rewrite (move_bytes_out 11 size c) by (done || lia).
Qed.

(** The state after an unchecked alignment to 4 that left the buffer. *)
Lemma aligned_outside c :
  wf c -> end_ c < aligned_pos 4 c ->
  let c1 := make_alignment ((origin_ c - offset_ c) mod 4) c in
  offset_ c1 = aligned_pos 4 c /\ zlen (mem c1) < offset_ c1 /\ alignment 2 c1 = 0 /\ 2 ^ 63 < remaining c1.
Proof.
  intros W Hp c1. pose proof (aligned_pos_bounds 4 c int32_is_align). pose proof (wf_offset _ W).
  pose proof (wf_end_bound _ W). pose proof (wf_mem_length _ W). unfold aligned_pos in *.
  set (a := (origin_ c - offset_ c) mod 4) in *. split; [done|].
  split; [unfold c1; cdr_simpl; change (mem (make_alignment a c)) with (mem c); lia|]. split.
  - assert (E : alignment 2 c1 = alignment_on_state (origin_ c) (offset_ c + a) 2) by done.
    rewrite E, alignment_on_state_eq by (unfold is_align; lia). unfold a.
    pose proof (Z.div_mod (origin_ c - offset_ c) 4 ltac:(lia)).
    replace (origin_ c - (offset_ c + (origin_ c - offset_ c) mod 4))
      with ((2 * ((origin_ c - offset_ c) / 4)) * 2) by lia. apply Z_mod_mult.
  - unfold remaining, c1. cdr_simpl. unfold size_t, u64.
    replace (end_ c - (offset_ c + a)) with ((end_ c - (offset_ c + a) + 2 ^ 64) + (-1) * 2 ^ 64) by lia.
    rewrite Z_mod_plus_full, Z.mod_small by lia. lia.
Qed.

(** Decoding an XCDRv1 member header whose padding would end behind the
    buffer reads outside of it: [make_alignment(alignment(4))] is not checked,
    and the unsigned [end_ - offset_] is then huge. *)
Theorem xcdr1_header_reads_outside upd st c :
  wf c -> end_ c < aligned_pos 4 c -> xcdr1_deserialize_member_header upd st c = Fault.
Proof.
  intros W Hp. destruct (aligned_outside c W Hp) as (O & Hm & Ha & Hr).
  unfold xcdr1_deserialize_member_header, align_to, bind, gets, modify.
  rewrite alignment_eq by (done || apply int32_is_align). set (c1 := make_alignment _ c) in *.
  unfold deserialize_uint16, deserialize_int16, deserialize_scalar, get_aligned, has_data, bind, gets, modify, get_scalar.
  rewrite Ha. change (size_t (Z.of_nat 2 + 0)) with 2. destruct (Z.geb_spec (remaining c1) 2); [|lia].
  unfold get, bind. rewrite mread_out; [done|done|].
  change (mem (make_alignment 0 (set_last_data_size_ 2 c1))) with (mem c1).
  change (offset_ (make_alignment 0 (set_last_data_size_ 2 c1))) with (offset_ c1 + 0). lia.
Qed.

(** Serializing an XCDRv1 member header at such a position writes outside
    of the buffer, for the same reason. *)
Theorem xcdr1_header_writes_outside mid c :
  wf c -> end_ c < aligned_pos 4 c -> xcdr1_serialize_short_member_header mid c = Fault.
Proof.
  intros W Hp. destruct (aligned_outside c W Hp) as (O & Hm & Ha & Hr).
  unfold xcdr1_serialize_short_member_header, align_to, bind, gets, modify.
  rewrite alignment_eq by (done || apply int32_is_align). set (c1 := make_alignment _ c) in *.
  unfold serialize_uint16, serialize_int16, serialize_scalar, put_aligned, has_room, bind, gets, modify.
  rewrite Ha. change (size_t (Z.of_nat 2 + 0)) with 2. destruct (Z.geb_spec (remaining c1) 2); [|lia].
  unfold put. rewrite mwrite_out; [done| |].
  - intros E. apply (f_equal zlen) in E. rewrite zlen_wire in E. done.
  - change (mem (make_alignment 0 (set_last_data_size_ 2 c1))) with (mem c1).
    change (offset_ (make_alignment 0 (set_last_data_size_ 2 c1))) with (offset_ c1 + 0). rewrite zlen_wire. lia.
Qed.

End Limits.

(** ** Concrete streams on the example platform *)

#[local] Existing Instance host.

(** A stream on a buffer of [n] zero bytes. *)
Definition stream (n : nat) (v : CdrVersion) : Cdr :=
  new_Cdr (FastBuffer_external (replicate n 0)) LITTLE_ENDIANNESS v.

(** A stream that reads what was serialized on [c]. *)
Definition rewind (c : Cdr) : Cdr :=
  new_Cdr (FastBuffer_external (take (Z.to_nat (offset_ c)) (mem c))) LITTLE_ENDIANNESS (cdr_version_ c).

(** The code generated for a mutable type. *)
Definition mutable_type (body : M unit) : M unit :=
  current_state <-- gets get_state ;;
  current_state <-- begin_serialize_type current_state PL_CDR2 ;;
  body ;;;
  end_serialize_type current_state.

Lemma wf_stream n v : Z.of_nat n < 2 ^ 62 -> wf (stream n v).
Proof.
  intros Hn. apply wf_new_external. unfold zlen. by rewrite length_replicate.
Qed.

(** The witness stream of the theorems above: a member of 3 bytes behind a
    short header, with one free byte behind it. *)
Lemma xcdr2_change_to_long_overruns_witness :
  xcdr2_change_to_long_member_header (mkMemberId 0 false) 3 (stream 8 XCDRv2) = Fault.
Proof.
  apply xcdr2_change_to_long_overruns; [apply wf_stream; reflexivity|lia| |]; vm_compute; try done; split; done.
Defined.

Lemma xcdr1_change_to_long_overruns_witness :
  xcdr1_change_to_long_member_header (mkMemberId 0 false) 3 (stream 8 XCDRv1) = Fault.
Proof.
  apply xcdr1_change_to_long_overruns; [apply wf_stream; reflexivity|lia| |]; vm_compute; try done; split; done.
Defined.

(** Five of six bytes were consumed: the next header would start at 8. *)
Definition odd_stream : Cdr := set_offset_ 5 (stream 6 XCDRv1).

Lemma wf_odd_stream : wf odd_stream.
Proof. destruct (wf_stream 6 XCDRv1 eq_refl). split; cdr_simpl; try done. Qed.

Lemma xcdr1_header_reads_outside_witness :
  xcdr1_deserialize_member_header upd_next_member_id (get_state odd_stream) odd_stream = Fault.
Proof. apply xcdr1_header_reads_outside; [apply wf_odd_stream|reflexivity]. Defined.

Lemma xcdr1_header_writes_outside_witness :
  xcdr1_serialize_short_member_header (mkMemberId 0 false) odd_stream = Fault.
Proof. apply xcdr1_header_writes_outside; [apply wf_odd_stream|reflexivity]. Defined.

(** ** The size class of a member *)

(** A mutable type with one member, a [std::map<std::string, int32_t>]. *)
Definition serialize_map_type (m : list (list Z * Z)) : M unit :=
  mutable_type (insert_member_id (mkMemberId 0 false) ;;;
                insert_value (serialize_map_arith string_codec int32_codec m)).

Definition deserialize_map_type (fuel : nat) : M (list (list Z * Z)) :=
  deserialize_type
    (fun data mid =>
       if id mid =? 0 then
         m <-- deserialize_map_arith string_codec int32_codec [] 0 (fun _ _ => false) data ;; ret (true, m)
       else ret (false, data)) fuel PL_CDR2 [].

(** A map from strings to integers does not survive in a mutable type: the
    key leaves [serialized_member_size_] set, the member header takes the
    number of entries for a number of bytes, and decoding the type fails. *)
Theorem mutable_map_unreadable :
  match serialize_map_type [([97], 1)] (stream 64 XCDRv2) with
  | Ok _ c => match deserialize_map_type 8 (rewind c) with Throw BadParamException _ => True | _ => False end
  | _ => False
  end.
Proof. vm_compute. exact I. Qed.

(** A mutable type of an optional string of 10 characters and 20 octets: what
    the calculator asks for, and the serialization. *)
Definition calc_stale : Sz Z :=
  n <~ begin_calculate_type_serialized_size PL_CDR2 ;;
  a <~ calc_opt_member 0 true (calc_optional calc_string (Some (replicate 10 97))) ;;
  b <~ calc_member 1 (calc_array_octet 20) ;;
  e <~ end_calculate_type_serialized_size PLAIN_CDR2 ;;
  szret (n + a + b + e).

Definition serialize_stale : M unit :=
  mutable_type
    (serialize_opt_member (mkMemberId 0 false) true
       (serialize_optional string_codec (Some (replicate 10 97))) AUTO_WITH_SHORT_HEADER_BY_DEFAULT ;;;
     insert_member_id (mkMemberId 1 false) ;;;
     insert_value (serialize_array_char (replicate 20 7))).

(** [calculate_member_serialized_size] of an optional member does not reset
    [serialized_member_size_], so that 4 bytes are missing from the size of the
    next member: the type needs 52 bytes, the calculator says 48, and
    serializing into a buffer of the calculated size writes behind its end. *)
Theorem calculator_forgets_reset :
  option_map fst (calc_stale (new_CdrSizeCalculator XCDRv2)) = Some 48 /\
  match serialize_stale (stream 52 XCDRv2) with Ok _ c => offset_ c = 52 | _ => False end /\
  serialize_stale (stream 48 XCDRv2) = Fault.
Proof. vm_compute. split; [reflexivity|]. split; reflexivity. Qed.

(** A mutable type of an optional array of three octets. *)
Definition calc_three : Sz Z :=
  n <~ begin_calculate_type_serialized_size PL_CDR2 ;;
  a <~ calc_opt_member 0 true (calc_optional calc_array_octet (Some 3)) ;;
  e <~ end_calculate_type_serialized_size PLAIN_CDR2 ;;
  szret (n + a + e).

Definition serialize_three : M unit :=
  mutable_type (serialize_opt_member (mkMemberId 0 false) true (serialize_array_char [1; 2; 3])
                                     AUTO_WITH_SHORT_HEADER_BY_DEFAULT).

(** For an optional member of 3 bytes the calculator counts a short header
    where the stream needs a long one, and serializing into a buffer of the
    calculated size writes behind its end. *)
Theorem calculated_buffer_overrun :
  option_map fst (calc_three (new_CdrSizeCalculator XCDRv2)) = Some 11 /\
  match serialize_three (stream 15 XCDRv2) with Ok _ c => offset_ c = 15 | _ => False end /\
  serialize_three (stream 11 XCDRv2) = Fault.
Proof. vm_compute. split; [reflexivity|]. split; reflexivity. Qed.

(** ** What failing or repeated decoding leaves behind *)

(** An encapsulation of another byte order and of an unknown encoding is
    refused, but [endianness_] keeps the refused byte order while [swap_bytes_]
    is restored: the stream, consistent before, is not any more. *)
Theorem read_encapsulation_splits_endianness :
  let d := new_Cdr (FastBuffer_external [0; 0x10; 0; 0]) LITTLE_ENDIANNESS XCDRv2 in
  endian_ok d /\
  match read_encapsulation d with
  | Throw BadParamException d' => offset_ d' = 0 /\ endianness_ d' = BIG_ENDIANNESS /\ ~ endian_ok d'
  | _ => False
  end.
Proof. vm_compute. split; [reflexivity|]. split; [reflexivity|]. split; [reflexivity|]. intros H. discriminate H. Qed.

(** Decoding a map of arithmetic values does not clear the object: the
    entry read from the stream loses against the one that was there. *)
Theorem map_arith_keeps_old_entries :
  let d := new_Cdr (FastBuffer_external [1; 0; 0; 0; 1; 0; 0; 0; 9; 0; 0; 0]) LITTLE_ENDIANNESS XCDRv2 in
  match deserialize_map_arith int32_codec int32_codec 0 0 Z.ltb [(1, 5); (2, 6)] d with
  | Ok m _ => m = [(1, 5); (2, 6)]
  | _ => False
  end.
Proof. vm_compute. reflexivity. Qed.

(** The length of a wide string is doubled in 32 bits: a length of [2^31]
    is taken for no bytes at all, and the empty string is returned together
    with that length. *)
Theorem wstring_length_wraps :
  let d := new_Cdr (FastBuffer_external [0; 0; 0; 0x80]) LITTLE_ENDIANNESS XCDRv2 in
  match read_wstring d with Ok r _ => r = ([], 2 ^ 31) | _ => False end.
Proof. vm_compute. reflexivity. Qed.
