(* ===== verification/SequenceNumber.v ===== *)
(** * Sequence numbers of RTPS

    Models [SequenceNumber_t] and [SequenceNumberDiff] of
    [Fast-DDS/include/fastdds/rtps/common/SequenceNumber.hpp], and the items a
    [BitmapRange] holds: sequence numbers and fragment numbers.  The 64-bit
    number is split into a signed high and an unsigned low half; the theorems
    show that the operations on the halves are those on the number. *)

From S2P Require Import Prelude.

(** [lia] on quotients and remainders by constants. *)
#[local] Ltac Zify.zify_post_hook ::= Z.to_euclidean_division_equations.

(** [int32_t] *)
Definition i32 (z : Z) : Z := (z + 2 ^ 31) mod 2 ^ 32 - 2 ^ 31.

Record SequenceNumber_t := mkSN { high : Z; low : Z }.

#[export] Instance SequenceNumber_eq_dec : EqDecision SequenceNumber_t.
Proof. solve_decision. Defined.

(** [SequenceNumber_t(uint64_t)] *)
Definition SequenceNumber_of (u : Z) : SequenceNumber_t := mkSN (i32 (Z.shiftr u 32)) (u32 u).

Definition to64long (s : SequenceNumber_t) : Z := u64 (u64 (Z.shiftl (u64 (high s)) 32) + low s).

(** [operator ++] *)
Definition sn_incr (s : SequenceNumber_t) : SequenceNumber_t :=
  let l := u32 (low s + 1) in
  if l =? 0 then mkSN (high s + 1) l else mkSN (high s) l.

(** [operator +=(int)] *)
Definition sn_add_assign (s : SequenceNumber_t) (inc : Z) : SequenceNumber_t :=
  let l := u32 (low s + u32 inc) in
  if l <? low s then mkSN (high s + 1) l else mkSN (high s) l.

Definition sn_eqb (a b : SequenceNumber_t) : bool := (low a =? low b) && (high a =? high b).
Definition sn_gtb (a b : SequenceNumber_t) : bool := if high a =? high b then low a >? low b else high a >? high b.
Definition sn_ltb (a b : SequenceNumber_t) : bool := if high a =? high b then low a <? low b else high a <? high b.
Definition sn_geb (a b : SequenceNumber_t) : bool := if high a =? high b then low a >=? low b else high a >? high b.
Definition sn_leb (a b : SequenceNumber_t) : bool := if high a =? high b then low a <=? low b else high a <? high b.

(** [operator -(const SequenceNumber_t&, const uint32_t)] *)
Definition sn_sub_u32 (s : SequenceNumber_t) (inc : Z) : SequenceNumber_t :=
  let l := u32 (low s - inc) in
  if inc >? low s then mkSN (high s - 1) l else mkSN (high s) l.

(** [operator +(const SequenceNumber_t&, const uint32_t)] *)
Definition sn_add (s : SequenceNumber_t) (inc : Z) : SequenceNumber_t :=
  let l := u32 (low s + inc) in
  if l <? low s then mkSN (high s + 1) l else mkSN (high s) l.

(** [operator -(const SequenceNumber_t&, const SequenceNumber_t&)] *)
Definition sn_sub (a b : SequenceNumber_t) : SequenceNumber_t :=
  let l := u32 (low a - low b) in
  if low a <? low b then mkSN (high a - high b - 1) l else mkSN (high a - high b) l.

Definition sn_unknown : SequenceNumber_t := mkSN (-1) 0.

(** [SequenceNumberDiff] *)
Definition SequenceNumberDiff (a b : SequenceNumber_t) : Z := low (sn_sub a b).

(** [std::min] *)
Definition sn_min (a b : SequenceNumber_t) : SequenceNumber_t := if sn_ltb b a then b else a.

(** ** The number *)

Definition sn_val (s : SequenceNumber_t) : Z := high s * 2 ^ 32 + low s.

(** The halves are in their ranges. *)
Definition sn_ok (s : SequenceNumber_t) : Prop := - 2 ^ 31 <= high s < 2 ^ 31 /\ 0 <= low s < 2 ^ 32.

(** The number a writer can use. *)
Definition sn_valid (s : SequenceNumber_t) : Prop := sn_ok s /\ 0 <= sn_val s.

Lemma sn_val_inj a b : sn_ok a -> sn_ok b -> sn_val a = sn_val b -> a = b.
Proof.
  destruct a as [ha la], b as [hb lb]. unfold sn_ok, sn_val. simpl. intros ? ? ?.
  assert (ha = hb) by lia. f_equal; lia.
Qed.

Lemma sn_valid_range s : sn_valid s -> 0 <= sn_val s < 2 ^ 63.
Proof. unfold sn_valid, sn_ok, sn_val. lia. Qed.

Lemma sn_of_val z : 0 <= z < 2 ^ 63 -> sn_valid (SequenceNumber_of z) /\ sn_val (SequenceNumber_of z) = z.
Proof.
  intros Hz. unfold sn_valid, sn_ok, SequenceNumber_of, i32, u32, sn_val. simpl.
  rewrite Z.shiftr_div_pow2 by lia. rewrite (Z.mod_small (z / 2 ^ 32 + 2 ^ 31)) by lia. lia.
Qed.

(** ** Comparisons *)

Section Compare.
Context (a b : SequenceNumber_t) (Ha : sn_ok a) (Hb : sn_ok b).

Lemma sn_eqb_val : sn_eqb a b = (sn_val a =? sn_val b).
Proof.
  revert Ha Hb. unfold sn_ok, sn_eqb, sn_val. destruct a as [ha la], b as [hb lb]. simpl. intros ? ?.
  destruct (Z.eqb_spec la lb), (Z.eqb_spec ha hb), (Z.eqb_spec (ha * 2 ^ 32 + la) (hb * 2 ^ 32 + lb)); simpl; lia.
Qed.

Lemma sn_ltb_val : sn_ltb a b = (sn_val a <? sn_val b).
Proof.
  revert Ha Hb. unfold sn_ok, sn_ltb, sn_val. destruct a as [ha la], b as [hb lb]. simpl. intros ? ?.
  destruct (Z.eqb_spec ha hb); lia.
Qed.

Lemma sn_gtb_val : sn_gtb a b = (sn_val b <? sn_val a).
Proof.
  revert Ha Hb. unfold sn_ok, sn_gtb, sn_val. destruct a as [ha la], b as [hb lb]. simpl. intros ? ?.
  destruct (Z.eqb_spec ha hb); lia.
Qed.

Lemma sn_leb_val : sn_leb a b = (sn_val a <=? sn_val b).
Proof.
  revert Ha Hb. unfold sn_ok, sn_leb, sn_val. destruct a as [ha la], b as [hb lb]. simpl. intros ? ?.
  destruct (Z.eqb_spec ha hb); lia.
Qed.

Lemma sn_geb_val : sn_geb a b = (sn_val b <=? sn_val a).
Proof.
  revert Ha Hb. unfold sn_ok, sn_geb, sn_val. destruct a as [ha la], b as [hb lb]. simpl. intros ? ?.
  destruct (Z.eqb_spec ha hb); lia.
Qed.

End Compare.

(** ** Arithmetic *)

Lemma sn_add_val s n :
  sn_valid s -> 0 <= n < 2 ^ 32 -> sn_val s + n < 2 ^ 63 ->
  sn_valid (sn_add s n) /\ sn_val (sn_add s n) = sn_val s + n.
Proof.
  unfold sn_valid, sn_ok, sn_add, sn_val, u32. destruct s as [h l]. simpl. intros ? ? ?.
  destruct (Z.lt_ge_cases (l + n) (2 ^ 32)).
  - rewrite Z.mod_small by lia. replace (l + n <? l) with false by lia. simpl. lia.
  - replace ((l + n) mod 2 ^ 32) with (l + n - 2 ^ 32)
      by (rewrite <- (Z.mod_small (l + n - 2 ^ 32) (2 ^ 32)) by lia; rewrite Z.mod_eq, (Z.mod_eq (l + n)) by lia; lia).
    replace (l + n - 2 ^ 32 <? l) with true by lia. simpl. lia.
Qed.

Lemma sn_incr_val s :
  sn_valid s -> sn_val s + 1 < 2 ^ 63 -> sn_valid (sn_incr s) /\ sn_val (sn_incr s) = sn_val s + 1.
Proof.
  unfold sn_valid, sn_ok, sn_incr, sn_val, u32. destruct s as [h l]. simpl. intros ? ?.
  destruct (Z.lt_ge_cases (l + 1) (2 ^ 32)).
  - rewrite Z.mod_small by lia. replace (l + 1 =? 0) with false by lia. simpl. lia.
  - replace (l + 1) with (2 ^ 32) by lia. rewrite Z.mod_same by lia. simpl. lia.
Qed.

Lemma sn_sub_u32_val s n :
  sn_valid s -> 0 <= n < 2 ^ 32 -> n <= sn_val s ->
  sn_valid (sn_sub_u32 s n) /\ sn_val (sn_sub_u32 s n) = sn_val s - n.
Proof.
  unfold sn_valid, sn_ok, sn_sub_u32, sn_val, u32. destruct s as [h l]. simpl. intros ? ? ?.
  destruct (Z.gtb_spec n l).
  - replace ((l - n) mod 2 ^ 32) with (l - n + 2 ^ 32)
      by (rewrite <- (Z.mod_small (l - n + 2 ^ 32) (2 ^ 32)) by lia; rewrite <- (Z_mod_plus_full (l - n) 1); f_equal; lia).
    simpl. lia.
  - rewrite Z.mod_small by lia. simpl. lia.
Qed.

(** The difference keeps the low half: it is exact for numbers less than [2^32]
    apart. *)
Lemma SequenceNumberDiff_val a b :
  sn_valid a -> sn_valid b -> sn_val b <= sn_val a -> SequenceNumberDiff a b = u32 (sn_val a - sn_val b).
Proof.
  unfold sn_valid, sn_ok, SequenceNumberDiff, sn_sub, sn_val, u32. destruct a as [ha la], b as [hb lb]. simpl.
  intros ? ? ?. replace (ha * 2 ^ 32 + la - (hb * 2 ^ 32 + lb)) with ((la - lb) + (ha - hb) * 2 ^ 32) by lia.
  rewrite Z_mod_plus_full. by destruct (la <? lb).
Qed.

Lemma to64long_val s : sn_valid s -> to64long s = sn_val s.
Proof.
  unfold sn_valid, sn_ok, to64long, sn_val, u64. destruct s as [h l]. simpl. intros ?.
  rewrite Z.shiftl_mul_pow2 by lia. rewrite (Z.mod_small h) by lia.
  rewrite (Z.mod_small (h * 2 ^ 32)) by lia. apply Z.mod_small. lia.
Qed.

Lemma sn_min_val a b : sn_ok a -> sn_ok b -> sn_val (sn_min a b) = Z.min (sn_val a) (sn_val b).
Proof. intros Ha Hb. unfold sn_min. rewrite sn_ltb_val by done. destruct (Z.ltb_spec (sn_val b) (sn_val a)); lia. Qed.

Lemma sn_min_cases a b : sn_min a b = a \/ sn_min a b = b.
Proof. unfold sn_min. destruct (sn_ltb b a); auto. Qed.

Lemma sn_valid_ok s : sn_valid s -> sn_ok s.
Proof. by intros []. Qed.
#[export] Hint Resolve sn_valid_ok : core.
