(* ===== verification/BitmapRange.v ===== *)
(** * Ranges of numbers as bitmaps

    Models the template [BitmapRange] of
    [Fast-DDS/include/fastdds/utils/fixed_size_bitmap.hpp] at the size its two
    instances have, 256 bits in 8 words with the most significant bit first.
    The instances are the sets of sequence numbers ([SequenceNumber.hpp]) and of
    fragment numbers ([FragmentNumber.hpp]).  An access outside of the array of
    words is [None].  The theorems show that a range is a set of numbers and
    that every operation is the operation on the set. *)

From Stdlib Require Import Sorted.
From S2P Require Import Prelude SequenceNumber.

(** [lia] on quotients and remainders by constants. *)
#[local] Ltac Zify.zify_post_hook ::= Z.to_euclidean_division_equations.

(** ** What the range needs of its items *)

Class RangeItem (T : Type) := {
  item_default : T;
  item_geb : T -> T -> bool;
  item_gtb : T -> T -> bool;
  item_eqb : T -> T -> bool;
  item_add : T -> Z -> T;
  item_diff : T -> T -> Z
}.

(** The items are numbers below [ilimit]; adding and comparing them is adding
    and comparing the numbers, and the difference is exact below [2^32]. *)
Class RangeItemLaws (T : Type) `{RangeItem T} := {
  ival : T -> Z;
  iok : T -> Prop;
  ilimit : Z;
  iok_range x : iok x -> 0 <= ival x < ilimit;
  ival_inj x y : iok x -> iok y -> ival x = ival y -> x = y;
  item_geb_val x y : iok x -> iok y -> item_geb x y = (ival y <=? ival x);
  item_gtb_val x y : iok x -> iok y -> item_gtb x y = (ival y <? ival x);
  item_eqb_val x y : iok x -> iok y -> item_eqb x y = (ival x =? ival y);
  item_add_val x n : iok x -> 0 <= n < 2 ^ 32 -> ival x + n < ilimit ->
    iok (item_add x n) /\ ival (item_add x n) = ival x + n;
  item_diff_val x y : iok x -> iok y -> ival y <= ival x -> item_diff x y = u32 (ival x - ival y)
}.

#[export] Instance sn_range_item : RangeItem SequenceNumber_t := {|
  item_default := mkSN 0 0;
  item_geb := sn_geb; item_gtb := sn_gtb; item_eqb := sn_eqb;
  item_add := sn_add; item_diff := SequenceNumberDiff
|}.

#[export, program] Instance sn_range_laws : RangeItemLaws SequenceNumber_t := {|
  ival := sn_val; iok := sn_valid; ilimit := 2 ^ 63
|}.
Next Obligation. apply sn_valid_range. Qed.
Next Obligation. intros x y [] [] ?. by apply sn_val_inj. Qed.
Next Obligation. intros x y [] []. by apply sn_geb_val. Qed.
Next Obligation. intros x y [] []. by apply sn_gtb_val. Qed.
Next Obligation. intros x y [] []. by apply sn_eqb_val. Qed.
Next Obligation. apply sn_add_val. Qed.
Next Obligation. apply SequenceNumberDiff_val. Qed.

(** Fragment numbers are [uint32_t] with the difference of the language. *)
Record FragmentNumber_t := mkFrag { frag : Z }.

#[export] Instance frag_range_item : RangeItem FragmentNumber_t := {|
  item_default := mkFrag 0;
  item_geb x y := frag x >=? frag y;
  item_gtb x y := frag x >? frag y;
  item_eqb x y := frag x =? frag y;
  item_add x n := mkFrag (u32 (frag x + n));
  item_diff x y := u32 (frag x - frag y)
|}.

#[export, program] Instance frag_range_laws : RangeItemLaws FragmentNumber_t := {|
  ival := frag; iok x := 0 <= frag x < 2 ^ 32; ilimit := 2 ^ 32
|}.
Next Obligation. done. Qed.
Next Obligation. intros [x] [y] _ _. simpl. by intros ->. Qed.
Next Obligation. intros x y _ _. simpl. lia. Qed.
Next Obligation. intros x y _ _. simpl. lia. Qed.
Next Obligation. done. Qed.
Next Obligation. intros x n Hx Hn Hl. simpl in *. rewrite u32_small; lia. Qed.
Next Obligation. done. Qed.

(** ** Words *)

Definition NBITS : Z := 256.
Definition NITEMS : nat := 8.
Definition full_mask : Z := 0xFFFFFFFF.

Definition not32 (x : Z) : Z := Z.lxor x full_mask.
Definition shl32 (x n : Z) : Z := u32 (Z.shiftl x n).

(** [__builtin_clz] *)
Definition clz (x : Z) : Z := 31 - Z.log2 x.

Definition get_word (ws : list Z) (i : Z) : option Z := if i <? 0 then None else ws !! Z.to_nat i.
Definition set_word (ws : list Z) (i w : Z) : option (list Z) :=
  if (0 <=? i) && (i <? zlen ws) then Some (<[Z.to_nat i := w]> ws) else None.

(** ** The range *)

Record BitmapRange (T : Type) := mkRange {
  base_ : T;
  range_max_ : T;
  bitmap_ : list Z;
  num_bits_ : Z
}.
Arguments mkRange {T}.
Arguments base_ {T}.
Arguments range_max_ {T}.
Arguments bitmap_ {T}.
Arguments num_bits_ {T}.

Section Range.
Context {T : Type} `{I : RangeItem T}.
Implicit Types r : BitmapRange T.

(** [BitmapRange(T base, uint32_t max_bits)] *)
Definition range_of (base : T) (max_bits : Z) : BitmapRange T :=
  mkRange base (item_add base (Z.min max_bits (NBITS - 1))) (replicate NITEMS 0) 0.

(** [BitmapRange(T base)] and [BitmapRange()] *)
Definition range_new (base : T) : BitmapRange T := range_of base (NBITS - 1).
Definition range_default : BitmapRange T := range_new item_default.

(** [base(T)] and [base(T, uint32_t)] reset the range. *)
Definition range_set_base r (base : T) : BitmapRange T :=
  mkRange base (item_add base (NBITS - 1)) (replicate NITEMS 0) 0.
Definition range_set_base_max r (base : T) (max_bits : Z) : BitmapRange T :=
  mkRange base (item_add base (Z.min max_bits (NBITS - 1))) (replicate NITEMS 0) 0.

Definition range_empty r : bool := num_bits_ r =? 0.

Definition range_max r : T := item_add (base_ r) (u32 (num_bits_ r - 1)).

(** The number of words in use. *)
Definition n_longs r : Z := (num_bits_ r + 31) / 32.

(** [min()]: the first word with a bit set. *)
Fixpoint min_loop (dflt item : T) (ws : list Z) : T :=
  match ws with
  | [] => dflt
  | bits :: ws' => if bits =? 0 then min_loop dflt (item_add item 32) ws' else item_add item (clz bits)
  end.

Definition range_min r : T := min_loop (base_ r) (base_ r) (take (Z.to_nat (n_longs r)) (bitmap_ r)).

Definition is_set r (item : T) : option bool :=
  if item_geb item (base_ r) && item_geb (range_max_ r) item then
    let diff := item_diff item (base_ r) in
    if diff <? num_bits_ r then
      w ← get_word (bitmap_ r) (Z.shiftr diff 5);
      Some (negb (Z.land w (shl32 1 (31 - Z.land diff 31)) =? 0))
    else Some false
  else Some false.

Definition range_add r (item : T) : option (bool * BitmapRange T) :=
  if item_geb item (base_ r) && item_geb (range_max_ r) item then
    let diff := item_diff item (base_ r) in
    w ← get_word (bitmap_ r) (Z.shiftr diff 5);
    ws ← set_word (bitmap_ r) (Z.shiftr diff 5) (Z.lor w (shl32 1 (31 - Z.land diff 31)));
    Some (true, mkRange (base_ r) (range_max_ r) ws (Z.max (u32 (diff + 1)) (num_bits_ r)))
  else Some (false, r).

(** The loop of [add_range] over whole masks, and the bits behind them. *)
Fixpoint add_range_loop (fuel : nat) (ws : list Z) (pos n_bits mask bits_in_mask : Z) : option (list Z) :=
  match fuel with
  | O => None
  | S fuel' =>
      if n_bits >=? bits_in_mask then
        w ← get_word ws pos;
        ws ← set_word ws pos (Z.lor w mask);
        add_range_loop fuel' ws (pos + 1) (n_bits - bits_in_mask) full_mask 32
      else if n_bits >? 0 then
        w ← get_word ws pos;
        set_word ws pos (Z.lor w (Z.land mask (shl32 full_mask (bits_in_mask - n_bits))))
      else Some ws
  end.

Definition add_range r (from to : T) : option (BitmapRange T) :=
  let lo := if item_geb (base_ r) from then base_ r else from in
  let hi := if item_geb to (item_add (base_ r) NBITS) then item_add (base_ r) NBITS else to in
  if item_geb lo hi then Some r
  else
    let offset := item_diff lo (base_ r) in
    let n_bits := item_diff hi lo in
    ws ← add_range_loop (S NITEMS) (bitmap_ r) (Z.shiftr offset 5) n_bits
           (Z.shiftr full_mask (Z.land offset 31)) (32 - Z.land offset 31);
    Some (mkRange (base_ r) (range_max_ r) ws (Z.max (num_bits_ r) (u32 (offset + n_bits)))).

(** [calc_maximum_bit_set]: the number of bits up to the last one set in the
    words [min_index <= i < starting_index]; [words] are those words, the last
    one first. *)
Fixpoint calc_loop (i : Z) (words : list Z) : Z :=
  match words with
  | [] => 0
  | bits :: words' =>
      if bits =? 0 then calc_loop (i - 1) words'
      else Z.shiftl (i - 1) 5 + clz (Z.land bits (not32 (bits - 1))) + 1
  end.

Definition calc_maximum_bit_set (ws : list Z) (starting_index min_index : Z) : option Z :=
  if starting_index <=? zlen ws then
    Some (calc_loop starting_index (rev (drop (Z.to_nat min_index) (take (Z.to_nat starting_index) ws))))
  else None.

Definition range_remove r (item : T) : option (BitmapRange T) :=
  let max_value := range_max r in
  if item_geb item (base_ r) && item_geb max_value item then
    let diff := item_diff item (base_ r) in
    let pos := Z.shiftr diff 5 in
    w ← get_word (bitmap_ r) pos;
    ws ← set_word (bitmap_ r) pos (Z.land w (not32 (shl32 1 (31 - Z.land diff 31))));
    if item_eqb item max_value then
      n ← calc_maximum_bit_set ws (pos + 1) 0;
      Some (mkRange (base_ r) (range_max_ r) ws n)
    else Some (mkRange (base_ r) (range_max_ r) ws (num_bits_ r))
  else Some r.

Definition bitmap_get r : Z * list Z * Z := (num_bits_ r, bitmap_ r, n_longs r).

Definition bitmap_set r (num_bits : Z) (bitmap : list Z) : option (BitmapRange T) :=
  let n := Z.min num_bits NBITS in
  let num_items := (n + 31) / 32 in
  if num_items <=? zlen bitmap then
    let ws := take (Z.to_nat num_items) bitmap ++ replicate (NITEMS - Z.to_nat num_items) 0 in
    let shift := Z.land num_bits 31 in
    ws ← (if (0 <? num_bits) && negb (shift =? 0) then
            w ← get_word ws (num_items - 1);
            set_word ws (num_items - 1) (Z.land w (not32 (Z.shiftr full_mask shift)))
          else Some ws);
    m ← calc_maximum_bit_set ws num_items 0;
    Some (mkRange (base_ r) (range_max_ r) ws m)
  else None.

(** The items [for_each] visits in one word, the most significant bit first. *)
Fixpoint word_items (fuel : nat) (item : T) (bits : Z) : list T :=
  match fuel with
  | O => []
  | S fuel' =>
      if bits =? 0 then []
      else item_add item (clz bits) :: word_items fuel' item (Z.land bits (not32 (shl32 1 (31 - clz bits))))
  end.

Fixpoint for_each_loop (item : T) (ws : list Z) : list T :=
  match ws with
  | [] => []
  | bits :: ws' => word_items 32 item bits ++ for_each_loop (item_add item 32) ws'
  end.

(** The items [for_each] calls the function on, in order. *)
Definition for_each r : list T := for_each_loop (base_ r) (take (Z.to_nat (n_longs r)) (bitmap_ r)).

(** The loop of [shift_map_left] over the words that have a next one. *)
Fixpoint shift_left_loop (fuel : nat) (ws : list Z) (i n n_bits : Z) : option (list Z) :=
  match fuel with
  | O => None
  | S fuel' =>
      if n <? Z.of_nat NITEMS - 1 then
        a ← get_word ws n;
        b ← get_word ws (n + 1);
        ws ← set_word ws i (Z.lor (shl32 a n_bits) (Z.shiftr b (32 - n_bits)));
        shift_left_loop fuel' ws (i + 1) (n + 1) n_bits
      else Some ws
  end.

(** [std::fill_n(bitmap_.rbegin(), n, 0)] and [std::fill_n(bitmap_.begin(), n, 0)] *)
Definition clear_last (n : Z) (ws : list Z) : list Z := take (length ws - Z.to_nat n) ws ++ replicate (Z.to_nat n) 0.
Definition clear_first (n : Z) (ws : list Z) : list Z := replicate (Z.to_nat n) 0 ++ drop (Z.to_nat n) ws.

Definition shift_map_left r (n_bits : Z) : option (BitmapRange T) :=
  if n_bits >=? num_bits_ r then Some (mkRange (base_ r) (range_max_ r) (replicate NITEMS 0) 0)
  else
    let n_items := Z.shiftr n_bits 5 in
    let s := Z.land n_bits 31 in
    let last_index := Z.of_nat NITEMS - 1 in
    ws ← (if s =? 0 then Some (drop (Z.to_nat n_items) (bitmap_ r) ++ replicate (Z.to_nat n_items) 0)
          else
            ws ← shift_left_loop (S NITEMS) (bitmap_ r) 0 n_items s;
            w ← get_word ws last_index;
            ws ← set_word ws (last_index - n_items) (shl32 w s);
            Some (clear_last n_items ws));
    Some (mkRange (base_ r) (range_max_ r) ws (num_bits_ r - n_bits)).

(** The loop of [shift_map_right] over the words that have a previous one. *)
Fixpoint shift_right_loop (fuel : nat) (ws : list Z) (i n n_bits : Z) : option (list Z) :=
  match fuel with
  | O => None
  | S fuel' =>
      if n >? 0 then
        a ← get_word ws n;
        b ← get_word ws (n - 1);
        ws ← set_word ws i (Z.lor (Z.shiftr a n_bits) (shl32 b (32 - n_bits)));
        shift_right_loop fuel' ws (i - 1) (n - 1) n_bits
      else Some ws
  end.

Definition shift_map_right r (n_bits : Z) : option (BitmapRange T) :=
  if n_bits >=? NBITS then Some (mkRange (base_ r) (range_max_ r) (replicate NITEMS 0) 0)
  else
    let new_num_bits := u32 (num_bits_ r + n_bits) in
    let n_items := Z.shiftr n_bits 5 in
    let s := Z.land n_bits 31 in
    let last_index := Z.of_nat NITEMS - 1 in
    ws ← (if s =? 0 then Some (replicate (Z.to_nat n_items) 0 ++ take (NITEMS - Z.to_nat n_items) (bitmap_ r))
          else
            ws ← shift_right_loop (S NITEMS) (bitmap_ r) last_index (last_index - n_items) s;
            w ← get_word ws 0;
            ws ← set_word ws n_items (Z.shiftr w s);
            Some (clear_first n_items ws));
    n ← (if new_num_bits >? NBITS then calc_maximum_bit_set ws (Z.of_nat NITEMS) n_items else Some new_num_bits);
    Some (mkRange (base_ r) (range_max_ r) ws n).

Definition base_update r (base : T) : option (BitmapRange T) :=
  if item_eqb base (base_ r) then Some r
  else
    r ← (if item_gtb base (base_ r) then shift_map_left r (item_diff base (base_ r))
         else shift_map_right r (item_diff (base_ r) base));
    Some (mkRange base (item_add base (NBITS - 1)) (bitmap_ r) (num_bits_ r)).

End Range.

(** ** Bits of words *)

Definition word (w : Z) : Prop := 0 <= w < 2 ^ 32.

Lemma word_intro w : 0 <= w -> (forall k, 32 <= k -> Z.testbit w k = false) -> word w.
Proof.
  intros Hw H. split; [done|]. destruct (Z.eq_dec w 0) as [->|Hne]; [done|].
  apply Z.log2_lt_pow2; [lia|]. destruct (Z.lt_ge_cases (Z.log2 w) 32); [done|].
  pose proof (Z.bit_log2 w ltac:(lia)) as E. by rewrite H in E by lia.
Qed.

Lemma word_high w k : word w -> 32 <= k -> Z.testbit w k = false.
Proof.
  intros [Hw Hl] Hk. destruct (Z.eq_dec w 0) as [->|]; [apply Z.bits_0|].
  apply Z.bits_above_log2; [done|]. assert (Z.log2 w < 32) by (apply Z.log2_lt_pow2; lia). lia.
Qed.

Lemma word_lor a b : word a -> word b -> word (Z.lor a b).
Proof.
  intros Ha Hb. apply word_intro; [apply Z.lor_nonneg; split; apply Ha || apply Hb|].
  intros k Hk. by rewrite Z.lor_spec, !word_high.
Qed.

Lemma word_land a b : word a -> word (Z.land a b).
Proof.
  intros Ha. apply word_intro; [apply Z.land_nonneg; left; apply Ha|].
  intros k Hk. by rewrite Z.land_spec, word_high.
Qed.

Lemma word_shiftr a n : word a -> 0 <= n -> word (Z.shiftr a n).
Proof.
  intros Ha Hn. apply word_intro; [apply Z.shiftr_nonneg; apply Ha|].
  intros k Hk. rewrite Z.shiftr_spec by lia. apply word_high; [done|lia].
Qed.

Lemma word_shl32 a n : word (shl32 a n).
Proof. unfold shl32, u32. apply Z.mod_pos_bound. lia. Qed.

Lemma word_not32 a : word a -> word (not32 a).
Proof.
  intros Ha. unfold not32. change full_mask with (Z.ones 32).
  apply word_intro; [apply Z.lxor_nonneg; split; intros; [done|apply Ha]|].
  intros k Hk. rewrite Z.lxor_spec, (word_high a k), Z.testbit_ones_nonneg by (done || lia).
  by replace (k <? 32) with false by lia.
Qed.

Lemma word_0 : word 0.
Proof. done. Qed.
Lemma word_full : word full_mask.
Proof. done. Qed.

Create HintDb bitmap discriminated.
#[export] Hint Resolve word_lor word_land word_shiftr word_shl32 word_not32 word_0 word_full : bitmap.
#[export] Hint Extern 3 (0 <= _) => lia : bitmap.

Lemma testbit_not32 w k : 0 <= k < 32 -> Z.testbit (not32 w) k = negb (Z.testbit w k).
Proof.
  intros Hk. unfold not32. change full_mask with (Z.ones 32).
  rewrite Z.lxor_spec, Z.testbit_ones_nonneg by lia. replace (k <? 32) with true by lia. apply xorb_true_r.
Qed.

Lemma testbit_shl32 x n k : 0 <= k < 32 -> Z.testbit (shl32 x n) k = Z.testbit x (k - n).
Proof. intros Hk. unfold shl32, u32. rewrite Z.mod_pow2_bits_low by lia. apply Z.shiftl_spec. lia. Qed.

Lemma testbit_one m k : 0 <= m < 32 -> 0 <= k < 32 -> Z.testbit (shl32 1 m) k = (k =? m).
Proof.
  intros Hm Hk. rewrite testbit_shl32 by done. destruct (Z.eqb_spec k m) as [->|].
  - by rewrite Z.sub_diag.
  - destruct (Z.lt_ge_cases (k - m) 0); [by rewrite Z.testbit_neg_r|].
    apply Z.bits_above_log2; [lia|]. simpl. lia.
Qed.

Lemma testbit_full k : 0 <= k -> Z.testbit full_mask k = (k <? 32).
Proof. intros Hk. change full_mask with (Z.ones 32). by rewrite Z.testbit_ones_nonneg by lia. Qed.

(** A test of one bit. *)
Lemma land_one w m : word w -> 0 <= m < 32 -> negb (Z.land w (shl32 1 m) =? 0) = Z.testbit w m.
Proof.
  intros Hw Hm. destruct (Z.testbit w m) eqn:E.
  - apply negb_true_iff, Z.eqb_neq. intros H0. apply (f_equal (fun x => Z.testbit x m)) in H0.
    by rewrite Z.land_spec, E, testbit_one, Z.eqb_refl, Z.bits_0 in H0 by lia.
  - apply negb_false_iff, Z.eqb_eq. apply Z.bits_inj'. intros k Hk. rewrite Z.land_spec, Z.bits_0.
    destruct (Z.lt_ge_cases k 32); [|by rewrite word_high].
    rewrite testbit_one by lia. destruct (Z.eqb_spec k m) as [->|]; [by rewrite E|apply andb_false_r].
Qed.

(** ** Bits of a bitmap *)

Definition bit (ws : list Z) (i : Z) : bool :=
  if i <? 0 then false
  else match ws !! Z.to_nat (i / 32) with
       | Some w => Z.testbit w (31 - i mod 32)
       | None => false
       end.

Definition words (ws : list Z) : Prop := length ws = NITEMS /\ Forall word ws.

Lemma words_zero : words (replicate NITEMS 0).
Proof. split; [done|]. apply Forall_replicate, word_0. Qed.

Lemma bit_neg ws i : i < 0 -> bit ws i = false.
Proof. intros. unfold bit. by replace (i <? 0) with true by lia. Qed.

Lemma bit_beyond ws i : words ws -> 256 <= i -> bit ws i = false.
Proof.
  intros [Hl _] Hi. unfold bit. destruct (i <? 0); [done|].
  rewrite lookup_ge_None_2; [done|]. rewrite Hl. unfold NITEMS. lia.
Qed.

Lemma bit_zero i : bit (replicate NITEMS 0) i = false.
Proof.
  unfold bit. destruct (i <? 0); [done|]. destruct (replicate NITEMS 0 !! _) as [w|] eqn:E; [|done].
  apply lookup_replicate in E as [-> _]. apply Z.bits_0.
Qed.

Lemma get_word_spec ws i : words ws -> 0 <= i < 8 ->
  exists w, get_word ws i = Some w /\ word w /\ forall j, j / 32 = i -> bit ws j = Z.testbit w (31 - j mod 32).
Proof.
  intros [Hl Hf] Hi. unfold get_word. replace (i <? 0) with false by lia.
  destruct (lookup_lt_is_Some_2 ws (Z.to_nat i)) as [w E]; [rewrite Hl; unfold NITEMS; lia|].
  exists w. split; [done|]. split; [by eapply Forall_lookup_1|].
  intros j <-. unfold bit. rewrite E. replace (j <? 0) with false by lia. done.
Qed.

Lemma set_word_spec ws i w : words ws -> word w -> 0 <= i < 8 ->
  exists ws', set_word ws i w = Some ws' /\ words ws' /\
    forall j, bit ws' j = if j / 32 =? i then Z.testbit w (31 - j mod 32) else bit ws j.
Proof.
  intros [Hl Hf] Hw Hi. unfold set_word, zlen. rewrite Hl. unfold NITEMS.
  rewrite (proj2 (Z.leb_le 0 i)), (proj2 (Z.ltb_lt i (Z.of_nat 8))) by lia. simpl. eexists. split; [done|]. split.
  - split; [by rewrite length_insert|by apply Forall_insert].
  - intros j. unfold bit. destruct (Z.ltb_spec j 0) as [Hj|Hj].
    + by replace (j / 32 =? i) with false by lia.
    + destruct (Z.eqb_spec (j / 32) i) as [<-|Hne].
      * by rewrite list_lookup_insert_eq by (rewrite Hl; unfold NITEMS; lia).
      * rewrite list_lookup_insert_ne; [done|]. lia.
Qed.

Lemma index_32 d : 0 <= d -> Z.shiftr d 5 = d / 32 /\ Z.land d 31 = d mod 32.
Proof.
  intros Hd. split; [by rewrite Z.shiftr_div_pow2|]. change 31 with (Z.ones 5). by rewrite Z.land_ones.
Qed.

(** Setting bits in one word. *)
Lemma or_word ws pos m (f : Z -> bool) :
  words ws -> word m -> 0 <= pos < 8 ->
  (forall j, j / 32 = pos -> Z.testbit m (31 - j mod 32) = f j) -> (forall j, f j = true -> j / 32 = pos) ->
  exists w ws', get_word ws pos = Some w /\ set_word ws pos (Z.lor w m) = Some ws' /\ words ws' /\
    forall j, bit ws' j = bit ws j || f j.
Proof.
  intros Hws Hm Hp Hf Hin. destruct (get_word_spec ws pos Hws Hp) as (w & E & Hw & Hb).
  destruct (set_word_spec ws pos (Z.lor w m) Hws) as (ws' & E' & Hws' & Hb'); [auto with bitmap|done|].
  exists w, ws'. split; [done|]. split; [done|]. split; [done|]. intros j. rewrite Hb'.
  destruct (Z.eqb_spec (j / 32) pos) as [Ej|Ej].
  - by rewrite Z.lor_spec, Hf, Hb.
  - destruct (f j) eqn:Efj; [by apply Hin in Efj|by rewrite orb_false_r].
Qed.

Lemma add_range_loop_spec fuel ws pos off n :
  words ws -> 0 <= off < 32 -> 0 <= pos -> 0 <= n -> 32 * pos + off + n <= 256 -> 8 - pos < Z.of_nat fuel ->
  exists ws', add_range_loop fuel ws pos n (Z.shiftr full_mask off) (32 - off) = Some ws' /\ words ws' /\
    forall i, bit ws' i = bit ws i || ((32 * pos + off <=? i) && (i <? 32 * pos + off + n)).
Proof.
  revert ws pos off n. induction fuel as [|fuel IH]; intros ws pos off n Hws Ho Hp Hn Hend Hf; [lia|].
  cbn [add_range_loop].
  destruct (Z.geb_spec n (32 - off)) as [Hg|Hg].
  - destruct (or_word ws pos (Z.shiftr full_mask off) (fun j => (j / 32 =? pos) && (off <=? j mod 32)))
      as (w & ws1 & E1 & E2 & Hws1 & Hb1); [done|auto with bitmap|lia| |intros j Hj; lia|].
    { intros j Hj. rewrite Z.shiftr_spec, testbit_full by lia. lia. }
    rewrite E1. simpl. rewrite E2. simpl. change full_mask with (Z.shiftr full_mask 0).
    destruct (IH ws1 (pos + 1) 0 (n - (32 - off))) as (ws2 & E & Hws2 & Hb2); [done|lia..|].
    change (32 - 0) with 32 in E. rewrite E. exists ws2. split; [done|]. split; [done|].
    intros i. rewrite Hb2, Hb1, <- orb_assoc. f_equal. lia.
  - destruct (Z.gtb_spec n 0) as [Hn0|Hn0].
    + destruct (or_word ws pos (Z.land (Z.shiftr full_mask off) (shl32 full_mask (32 - off - n)))
        (fun j => (j / 32 =? pos) && (off <=? j mod 32) && (j mod 32 <? off + n)))
        as (w & ws1 & E1 & E2 & Hws1 & Hb1); [done|auto with bitmap|lia| |intros j Hj; lia|].
      { intros j Hj. rewrite Z.land_spec, Z.shiftr_spec, testbit_shl32, testbit_full by lia.
        destruct (Z.lt_ge_cases (31 - j mod 32 - (32 - off - n)) 0).
        - rewrite Z.testbit_neg_r by lia. lia.
        - rewrite testbit_full by lia. lia. }
      rewrite E1. simpl. rewrite E2. exists ws1. split; [done|]. split; [done|].
      intros i. rewrite Hb1. f_equal. lia.
    + exists ws. split; [done|]. split; [done|]. intros i.
      replace ((32 * pos + off <=? i) && (i <? 32 * pos + off + n)) with false by lia. by rewrite orb_false_r.
Qed.

(** The lowest bit set of a word, the way [bits & ~(bits - 1)] isolates it. *)
Lemma lowest_bit w : word w -> w <> 0 ->
  exists k, 0 <= k < 32 /\ Z.testbit w k = true /\ (forall j, 0 <= j < k -> Z.testbit w j = false).
Proof.
  intros Hw Hne.
  assert (H : forall n : nat, (exists k, 0 <= k < Z.of_nat n /\ Z.testbit w k = true /\
                               forall j, 0 <= j < k -> Z.testbit w j = false) \/
                              forall j, 0 <= j < Z.of_nat n -> Z.testbit w j = false).
  { induction n as [|n [(k & Hk & Hb & Hl)|IH]]; [right; lia|left; exists k; split; [lia|done]|].
    destruct (Z.testbit w (Z.of_nat n)) eqn:E.
    - left. exists (Z.of_nat n). split; [lia|done].
    - right. intros j Hj. destruct (Z.eq_dec j (Z.of_nat n)) as [->|]; [done|apply IH; lia]. }
  destruct (H 32%nat) as [(k & Hk & Hr)|Hz]; [exists k; split; [lia|done]|].
  destruct Hne. apply Z.bits_inj'. intros j Hj. rewrite Z.bits_0.
  destruct (Z.lt_ge_cases j 32); [apply Hz; lia|by apply word_high].
Qed.

Lemma isolate_lowest w k :
  word w -> 0 <= k < 32 -> Z.testbit w k = true -> (forall j, 0 <= j < k -> Z.testbit w j = false) ->
  Z.land w (not32 (w - 1)) = 2 ^ k.
Proof.
  intros Hw Hk Hb Hl. set (h := Z.shiftl (Z.shiftr w (k + 1)) (k + 1)).
  assert (Hh : forall j, 0 <= j -> Z.testbit h j = (k <? j) && Z.testbit w j).
  { intros j Hj. unfold h. rewrite Z.shiftl_spec by lia. destruct (Z.ltb_spec k j); simpl.
    - rewrite Z.shiftr_spec by lia. f_equal. lia.
    - apply Z.testbit_neg_r. lia. }
  assert (E : w = h + 2 ^ k).
  { rewrite Z.add_nocarry_lxor.
    - apply Z.bits_inj'. intros j Hj. rewrite Z.lxor_spec, Hh, Z.pow2_bits_eqb by lia.
      destruct (Z.lt_trichotomy j k) as [?|[->|?]].
      + rewrite Hl by lia. replace (k <? j) with false by lia. by replace (k =? j) with false by lia.
      + by rewrite Hb, Z.ltb_irrefl, Z.eqb_refl.
      + replace (k <? j) with true by lia. replace (k =? j) with false by lia. by destruct (Z.testbit w j).
    - apply Z.bits_inj'. intros j Hj. rewrite Z.land_spec, Hh, Z.pow2_bits_eqb, Z.bits_0 by lia. lia. }
  assert (E1 : w - 1 = Z.lxor h (Z.ones k)).
  { rewrite <- Z.add_nocarry_lxor.
    - rewrite Z.ones_equiv. lia.
    - apply Z.bits_inj'. intros j Hj. rewrite Z.land_spec, Hh, Z.testbit_ones_nonneg, Z.bits_0 by lia. lia. }
  apply Z.bits_inj'. intros j Hj. rewrite Z.land_spec, Z.pow2_bits_eqb by lia.
  destruct (Z.lt_ge_cases j 32); [|rewrite word_high by done; lia].
  rewrite testbit_not32, E1, Z.lxor_spec, Hh, Z.testbit_ones_nonneg by lia.
  destruct (Z.lt_trichotomy j k) as [?|[->|?]].
  - rewrite Hl by lia. by replace (k =? j) with false by lia.
  - by rewrite Hb, !Z.ltb_irrefl, Z.eqb_refl.
  - replace (k <? j) with true by lia. replace (j <? k) with false by lia. replace (k =? j) with false by lia.
    by destruct (Z.testbit w j).
Qed.

Lemma clz_lowest w : word w -> w <> 0 ->
  exists c, clz (Z.land w (not32 (w - 1))) = c /\ 0 <= c < 32 /\ Z.testbit w (31 - c) = true /\
    forall j, c < j < 32 -> Z.testbit w (31 - j) = false.
Proof.
  intros Hw Hne. destruct (lowest_bit w Hw Hne) as (k & Hk & Hb & Hl). exists (31 - k).
  rewrite (isolate_lowest w k) by done. unfold clz. rewrite Z.log2_pow2 by lia.
  split; [done|]. split; [lia|]. split; [by replace (31 - (31 - k)) with k by lia|]. intros j Hj. apply Hl. lia.
Qed.

(** The first bit set of a word. *)
Lemma clz_highest w : word w -> w <> 0 ->
  0 <= clz w < 32 /\ Z.testbit w (31 - clz w) = true /\ forall j, 0 <= j < clz w -> Z.testbit w (31 - j) = false.
Proof.
  intros [Hw Hl] Hne. unfold clz.
  assert (0 <= Z.log2 w < 32) by (split; [apply Z.log2_nonneg|apply Z.log2_lt_pow2; lia]).
  split; [lia|]. replace (31 - (31 - Z.log2 w)) with (Z.log2 w) by lia. split; [apply Z.bit_log2; lia|].
  intros j Hj. apply Z.bits_above_log2; lia.
Qed.

(** The bits between two words. *)
Lemma calc_maximum_bit_set_spec ws s m :
  words ws -> 0 <= m -> m <= s <= 8 ->
  exists n, calc_maximum_bit_set ws s m = Some n /\ 0 <= n <= 32 * s /\
    (forall i, 32 * m <= i < 32 * s -> n <= i -> bit ws i = false) /\
    (0 < n -> 32 * m < n /\ bit ws (n - 1) = true).
Proof.
  intros Hws Hm Hs. unfold calc_maximum_bit_set. pose proof (proj1 Hws) as Hlen.
  rewrite (proj2 (Z.leb_le s (zlen ws))) by (unfold zlen; rewrite Hlen; unfold NITEMS; lia).
  eexists. split; [done|]. remember (Z.to_nat (s - m)) as d eqn:Ed. revert s Hs Ed.
  induction d as [|d IH]; intros s Hs Ed.
  { replace s with m by lia. rewrite drop_ge by (rewrite length_take; lia). simpl. split; [lia|]. split; lia. }
  destruct (get_word_spec ws (s - 1) Hws) as (w & E & Hw & Hb); [lia|].
  unfold get_word in E. replace (s - 1 <? 0) with false in E by lia.
  replace (Z.to_nat s) with (S (Z.to_nat (s - 1))) by lia. rewrite (take_S_r _ _ _ E).
  rewrite drop_app_le by (rewrite length_take, Hlen; unfold NITEMS; lia). rewrite rev_app_distr. simpl.
  destruct (Z.eqb_spec w 0) as [->|Hne].
  - destruct (IH (s - 1)) as (Hn & Hz & Hl); [lia|lia|]. set (n := calc_loop _ _) in *.
    split; [lia|]. split; [|done]. intros i Hi Hni.
    destruct (Z.eq_dec (i / 32) (s - 1)) as [Ei|]; [rewrite Hb by done; apply Z.bits_0|apply Hz; lia].
  - destruct (clz_lowest w Hw Hne) as (c & -> & Hc & Hbc & Hlo). rewrite Z.shiftl_mul_pow2 by lia. change (2 ^ 5) with 32.
    split; [lia|]. split.
    + intros i Hi Hni. rewrite Hb by lia. apply Hlo. lia.
    + intros _. split; [lia|]. rewrite Hb by lia. by replace (((s - 1) * 32 + c + 1 - 1) mod 32) with c by lia.
Qed.

(** *** Shifts *)

(** The first loop moves the words before [i] and leaves those from [i] on. *)
Lemma shift_left_loop_spec fuel ws0 ws i q s :
  words ws -> 0 < s < 32 -> 0 <= q -> 0 <= i -> i + q <= 7 -> 7 - (i + q) < Z.of_nat fuel ->
  (forall j, bit ws j = if j <? 0 then false else bit ws0 (if j <? 32 * i then j + 32 * q + s else j)) ->
  exists ws', shift_left_loop fuel ws i (i + q) s = Some ws' /\ words ws' /\
    forall j, bit ws' j = if j <? 0 then false else bit ws0 (if j <? 32 * (7 - q) then j + 32 * q + s else j).
Proof.
  revert ws i. induction fuel as [|fuel IH]; intros ws i Hws Hs Hq Hi Hn Hf Hb; [lia|].
  cbn [shift_left_loop]. change (Z.of_nat NITEMS - 1) with 7. destruct (Z.ltb_spec (i + q) 7) as [Hlt|Hge].
  - destruct (get_word_spec ws (i + q) Hws) as (a & -> & Ha & Hba); [lia|].
    destruct (get_word_spec ws (i + q + 1) Hws) as (b & -> & Hb' & Hbb); [lia|]. simpl.
    destruct (set_word_spec ws i (Z.lor (shl32 a s) (Z.shiftr b (32 - s))) Hws) as (ws1 & -> & Hws1 & Hb1);
      [auto with bitmap|lia|]. simpl.
    replace (i + q + 1) with (i + 1 + q) by lia. apply IH; try done; try lia.
    intros j. rewrite Hb1. destruct (Z.ltb_spec j 0) as [Hj|Hj].
    { replace (j / 32 =? i) with false by lia. by apply bit_neg. }
    destruct (Z.eqb_spec (j / 32) i) as [Ej|Ej].
    2:{ rewrite Hb. replace (j <? 0) with false by lia. f_equal. destruct (Z.ltb_spec j (32 * i)), (Z.ltb_spec j (32 * (i + 1))); lia. }
    replace (j <? 32 * (i + 1)) with true by lia.
    rewrite Z.lor_spec, testbit_shl32, Z.shiftr_spec by lia.
    destruct (Z.lt_ge_cases (j mod 32 + s) 32) as [Hc|Hc].
    + rewrite (word_high b) by (done || lia). rewrite orb_false_r.
      replace (31 - j mod 32 - s) with (31 - (j + 32 * q + s) mod 32) by lia.
      rewrite <- Hba by lia. rewrite Hb. replace (j + 32 * q + s <? 0) with false by lia.
      by replace (j + 32 * q + s <? 32 * i) with false by lia.
    + rewrite Z.testbit_neg_r by lia. simpl.
      replace (31 - j mod 32 + (32 - s)) with (31 - (j + 32 * q + s) mod 32) by lia.
      rewrite <- Hbb by lia. rewrite Hb. replace (j + 32 * q + s <? 0) with false by lia.
      by replace (j + 32 * q + s <? 32 * i) with false by lia.
  - exists ws. split; [done|]. split; [done|]. intros j. rewrite Hb. by replace (7 - q) with i by lia.
Qed.

Lemma shift_right_loop_spec fuel ws0 ws i q s :
  words ws -> 0 < s < 32 -> 0 <= q -> q <= i <= 7 -> i - q < Z.of_nat fuel ->
  (forall j, bit ws j = if (j <? 0) || (256 <=? j) then false else bit ws0 (if j <? 32 * (i + 1) then j else j - 32 * q - s)) ->
  exists ws', shift_right_loop fuel ws i (i - q) s = Some ws' /\ words ws' /\
    forall j, bit ws' j = if (j <? 0) || (256 <=? j) then false else bit ws0 (if j <? 32 * (q + 1) then j else j - 32 * q - s).
Proof.
  revert ws i. induction fuel as [|fuel IH]; intros ws i Hws Hs Hq Hi Hf Hb; [lia|].
  cbn [shift_right_loop]. destruct (Z.gtb_spec (i - q) 0) as [Hlt|Hge].
  - destruct (get_word_spec ws (i - q) Hws) as (a & -> & Ha & Hba); [lia|].
    destruct (get_word_spec ws (i - q - 1) Hws) as (b & -> & Hb' & Hbb); [lia|]. simpl.
    destruct (set_word_spec ws i (Z.lor (Z.shiftr a s) (shl32 b (32 - s))) Hws) as (ws1 & -> & Hws1 & Hb1);
      [auto with bitmap|lia|]. simpl.
    replace (i - q - 1) with (i - 1 - q) by lia. apply IH; try done; try lia.
    intros j. rewrite Hb1. destruct ((j <? 0) || (256 <=? j)) eqn:Hj.
    { replace (j / 32 =? i) with false by lia. by rewrite Hb, Hj. }
    destruct (Z.eqb_spec (j / 32) i) as [Ej|Ej].
    2:{ rewrite Hb, Hj. f_equal.
        destruct (Z.ltb_spec j (32 * (i + 1))), (Z.ltb_spec j (32 * (i - 1 + 1))); lia. }
    replace (j <? 32 * (i - 1 + 1)) with false by lia.
    rewrite Z.lor_spec, testbit_shl32, Z.shiftr_spec by lia.
    destruct (Z.lt_ge_cases (j mod 32) s) as [Hc|Hc].
    + rewrite (word_high a) by (done || lia). simpl.
      replace (31 - j mod 32 - (32 - s)) with (31 - (j - 32 * q - s) mod 32) by lia.
      rewrite <- Hbb by lia. rewrite Hb. replace ((j - 32 * q - s <? 0) || (256 <=? j - 32 * q - s)) with false by lia.
      by replace (j - 32 * q - s <? 32 * (i + 1)) with true by lia.
    + rewrite (Z.testbit_neg_r b) by lia. rewrite orb_false_r.
      replace (31 - j mod 32 + s) with (31 - (j - 32 * q - s) mod 32) by lia.
      rewrite <- Hba by lia. rewrite Hb. replace ((j - 32 * q - s <? 0) || (256 <=? j - 32 * q - s)) with false by lia.
      by replace (j - 32 * q - s <? 32 * (i + 1)) with true by lia.
  - exists ws. split; [done|]. split; [done|]. intros j. rewrite Hb. by replace q with i by lia.
Qed.

(** Whole words moved. *)
Lemma bit_drop ws q j : 0 <= q <= 8 -> words ws ->
  bit (drop (Z.to_nat q) ws ++ replicate (Z.to_nat q) 0) j = if j <? 0 then false else bit ws (j + 32 * q).
Proof.
  intros Hq [Hl Hf]. unfold bit. destruct (Z.ltb_spec j 0); [done|]. replace (j + 32 * q <? 0) with false by lia.
  replace ((j + 32 * q) mod 32) with (j mod 32) by lia.
  replace (Z.to_nat ((j + 32 * q) / 32)) with (Z.to_nat q + Z.to_nat (j / 32))%nat by lia. rewrite <- lookup_drop.
  destruct (drop (Z.to_nat q) ws !! Z.to_nat (j / 32)) as [w|] eqn:E.
  - by rewrite (lookup_app_l_Some _ _ _ _ E).
  - apply lookup_ge_None in E. rewrite lookup_app_r by done.
    destruct (replicate _ _ !! _) as [w|] eqn:E'; [|done]. apply lookup_replicate in E' as [-> _]. apply Z.bits_0.
Qed.

Lemma bit_take ws q j : 0 <= q <= 8 -> words ws ->
  bit (replicate (Z.to_nat q) 0 ++ take (NITEMS - Z.to_nat q) ws) j =
  if j <? 256 then bit ws (j - 32 * q) else false.
Proof.
  intros Hq [Hl Hf]. unfold bit. destruct (Z.ltb_spec j 0).
  { replace (j <? 256) with true by lia. by replace (j - 32 * q <? 0) with true by lia. }
  destruct (Z.lt_ge_cases j (32 * q)) as [Hj|Hj].
  - rewrite lookup_app_l by (rewrite length_replicate; lia). rewrite lookup_replicate_2 by lia.
    rewrite Z.bits_0. replace (j - 32 * q <? 0) with true by lia. by destruct (j <? 256).
  - rewrite lookup_app_r by (rewrite length_replicate; lia). rewrite length_replicate.
    replace (j - 32 * q <? 0) with false by lia. replace ((j - 32 * q) mod 32) with (j mod 32) by lia.
    replace (Z.to_nat ((j - 32 * q) / 32)) with (Z.to_nat (j / 32) - Z.to_nat q)%nat by lia.
    destruct (Z.ltb_spec j 256).
    + rewrite lookup_take_lt by (unfold NITEMS; lia). done.
    + rewrite lookup_take_ge by (unfold NITEMS; lia). done.
Qed.

Lemma bit_clear_last ws q j : 0 <= q <= 8 -> words ws ->
  words (clear_last q ws) /\ bit (clear_last q ws) j = if j <? 32 * (8 - q) then bit ws j else false.
Proof.
  intros Hq [Hl Hf]. unfold clear_last. split.
  { split; [rewrite length_app, length_take, length_replicate; unfold NITEMS in *; lia|].
    apply Forall_app; split; [by apply Forall_take|apply Forall_replicate, word_0]. }
  unfold bit. destruct (Z.ltb_spec j 0); [by destruct (j <? _)|].
  destruct (Z.ltb_spec j (32 * (8 - q))).
  - rewrite lookup_app_l by (rewrite length_take, Hl; unfold NITEMS; lia).
    by rewrite lookup_take_lt by (rewrite Hl; unfold NITEMS; lia).
  - rewrite lookup_app_r by (rewrite length_take, Hl; unfold NITEMS; lia).
    destruct (replicate _ _ !! _) as [w|] eqn:E'; [|done]. apply lookup_replicate in E' as [-> _]. apply Z.bits_0.
Qed.

Lemma bit_clear_first ws q j : 0 <= q <= 8 -> words ws ->
  words (clear_first q ws) /\ bit (clear_first q ws) j = if j <? 32 * q then false else bit ws j.
Proof.
  intros Hq [Hl Hf]. unfold clear_first. split.
  { split; [rewrite length_app, length_drop, length_replicate; unfold NITEMS in *; lia|].
    apply Forall_app; split; [apply Forall_replicate, word_0|by apply Forall_drop]. }
  unfold bit. destruct (Z.ltb_spec j 0); [by destruct (j <? _)|].
  destruct (Z.ltb_spec j (32 * q)).
  - rewrite lookup_app_l by (rewrite length_replicate; lia). rewrite lookup_replicate_2 by lia. apply Z.bits_0.
  - rewrite lookup_app_r by (rewrite length_replicate; lia). rewrite length_replicate, lookup_drop.
    by replace (Z.to_nat q + (Z.to_nat (j / 32) - Z.to_nat q))%nat with (Z.to_nat (j / 32)) by lia.
Qed.

(** ** A range is a set of numbers *)

Section Specs.
Context {T : Type} `{I : RangeItem T} `{L : !RangeItemLaws T}.
Implicit Types (r : BitmapRange T) (x : T).

(** The invariant: the words have 32 bits, [num_bits_] counts the bits up to the
    last one set, and the window does not run out of numbers. *)
Record range_wf r : Prop := mkRangeWf {
  rw_words : words (bitmap_ r);
  rw_num : 0 <= num_bits_ r <= 256;
  rw_top i : num_bits_ r <= i -> bit (bitmap_ r) i = false;
  rw_last : 0 < num_bits_ r -> bit (bitmap_ r) (num_bits_ r - 1) = true;
  rw_base : iok (base_ r);
  rw_room : ival (base_ r) + 256 < ilimit;
  rw_max_ok : iok (range_max_ r);
  rw_max : ival (base_ r) <= ival (range_max_ r) <= ival (base_ r) + 255
}.

(** The set. *)
Definition has r (n : Z) : bool := bit (bitmap_ r) (n - ival (base_ r)).

Lemma has_window r n : range_wf r -> has r n = true ->
  ival (base_ r) <= n < ival (base_ r) + num_bits_ r.
Proof.
  intros W H. unfold has in H. destruct (Z.lt_ge_cases (n - ival (base_ r)) 0) as [Hn|Hn].
  - by rewrite bit_neg in H.
  - destruct (Z.lt_ge_cases (n - ival (base_ r)) (num_bits_ r)); [lia|].
    by rewrite (rw_top _ W) in H.
Qed.

Lemma range_empty_spec r : range_wf r -> range_empty r = true <-> forall n, has r n = false.
Proof.
  intros W. unfold range_empty. rewrite Z.eqb_eq. split.
  - intros E n. unfold has. destruct (Z.lt_ge_cases (n - ival (base_ r)) 0); [by apply bit_neg|].
    apply (rw_top _ W). lia.
  - intros H. pose proof (rw_num _ W). destruct (Z.eq_dec (num_bits_ r) 0) as [|Hne]; [done|].
    pose proof (rw_last _ W ltac:(lia)) as Hl.
    specialize (H (ival (base_ r) + (num_bits_ r - 1))). unfold has in H.
    replace (ival (base_ r) + (num_bits_ r - 1) - ival (base_ r)) with (num_bits_ r - 1) in H by lia. congruence.
Qed.

Lemma range_of_spec base max_bits :
  iok base -> ival base + 256 < ilimit -> 0 <= max_bits ->
  range_wf (range_of base max_bits) /\ (forall n, has (range_of base max_bits) n = false) /\
  ival (range_max_ (range_of base max_bits)) = ival base + Z.min max_bits 255.
Proof.
  intros Hb Hr Hm. destruct (item_add_val base (Z.min max_bits (NBITS - 1)) Hb) as [Ho Hv];
    [unfold NBITS; lia|unfold NBITS; lia|]. unfold range_of. set (m := item_add base _) in *. unfold NBITS in Hv.
  split; [|split].
  - split; simpl; try done; [apply words_zero|intros; apply bit_zero|lia].
  - intros n. apply bit_zero.
  - simpl. lia.
Qed.

(** The position of an item of the window. *)
Lemma item_index r x :
  range_wf r -> iok x -> ival (base_ r) <= ival x <= ival (base_ r) + 255 ->
  let d := ival x - ival (base_ r) in
  item_diff x (base_ r) = d /\ 0 <= d <= 255 /\ Z.shiftr d 5 = d / 32 /\ Z.land d 31 = d mod 32 /\ 0 <= d / 32 < 8.
Proof.
  intros W Hx Hb d. rewrite item_diff_val by (done || lia || apply (rw_base _ W)).
  assert (0 <= d <= 255) by (unfold d; lia). destruct (index_32 d ltac:(lia)) as [-> ->].
  rewrite u32_small by lia. split; [done|]. split; [lia|]. split; [done|]. split; [done|]. lia.
Qed.

Lemma is_set_spec r x :
  range_wf r -> iok x -> is_set r x = Some (has r (ival x) && (ival x <=? ival (range_max_ r))).
Proof.
  intros W Hx. unfold is_set. pose proof (rw_max _ W) as Hm.
  rewrite !item_geb_val by (done || apply (rw_base _ W) || apply (rw_max_ok _ W)).
  destruct (Z.leb_spec (ival (base_ r)) (ival x)) as [Hb|Hb]; simpl.
  2:{ unfold has. by rewrite bit_neg by lia. }
  destruct (Z.leb_spec (ival x) (ival (range_max_ r))) as [Hu|Hu]; [|by rewrite andb_false_r].
  rewrite andb_true_r.
  destruct (item_index r x W Hx ltac:(lia)) as (-> & Hd & -> & -> & Hi).
  set (d := ival x - ival (base_ r)) in *. unfold has. fold d.
  destruct (Z.ltb_spec d (num_bits_ r)) as [Hn|Hn]; [|by rewrite (rw_top _ W)].
  destruct (get_word_spec _ (d / 32) (rw_words _ W) Hi) as (w & -> & Hw & Hbit). simpl.
  rewrite land_one by (done || lia). f_equal. symmetry. by apply Hbit.
Qed.

(** A bit set: the invariant on the number of bits. *)
Lemma num_bits_add ws ws' n m p :
  (forall i, n <= i -> bit ws i = false) -> (0 < n -> bit ws (n - 1) = true) -> 0 <= m < p ->
  (forall i, bit ws' i = (bit ws i || ((m <=? i) && (i <? p)))) ->
  (forall i, Z.max p n <= i -> bit ws' i = false) /\ (0 < Z.max p n -> bit ws' (Z.max p n - 1) = true).
Proof.
  intros Ht Hl Hm Hb. split.
  - intros i Hi. rewrite Hb, Ht by lia. simpl. lia.
  - intros _. rewrite Hb. destruct (Z.max_spec p n) as [[? ->]|[? ->]].
    + by rewrite Hl by lia.
    + replace ((m <=? p - 1) && (p - 1 <? p)) with true by lia. apply orb_true_r.
Qed.

Lemma range_add_spec r x :
  range_wf r -> iok x ->
  exists r', range_add r x = Some ((ival (base_ r) <=? ival x) && (ival x <=? ival (range_max_ r)), r') /\
    range_wf r' /\ base_ r' = base_ r /\ range_max_ r' = range_max_ r /\
    forall n, has r' n = has r n || ((n =? ival x) && (ival (base_ r) <=? n) && (n <=? ival (range_max_ r))).
Proof.
  intros W Hx. unfold range_add. pose proof (rw_max _ W) as Hm. pose proof (rw_num _ W).
  rewrite !item_geb_val by (done || apply (rw_base _ W) || apply (rw_max_ok _ W)).
  destruct ((ival (base_ r) <=? ival x) && (ival x <=? ival (range_max_ r))) eqn:E.
  2:{ exists r. split; [done|]. split; [done|]. split; [done|]. split; [done|]. intros n.
      destruct (Z.eqb_spec n (ival x)) as [->|]; cbn [andb]; [rewrite E|]; by rewrite orb_false_r. }
  apply andb_true_iff in E as [E1 E2]. apply Z.leb_le in E1, E2.
  destruct (item_index r x W Hx ltac:(lia)) as (-> & Hd & -> & -> & Hi).
  set (d := ival x - ival (base_ r)) in *.
  destruct (get_word_spec _ (d / 32) (rw_words _ W) Hi) as (w & -> & Hw & Hbit). simpl.
  destruct (set_word_spec (bitmap_ r) (d / 32) (Z.lor w (shl32 1 (31 - d mod 32))) (rw_words _ W))
    as (ws & -> & Hws & Hbw); [auto with bitmap|done|]. simpl.
  eexists. split; [done|]. rewrite u32_small by lia.
  assert (Hb : forall i, bit ws i = bit (bitmap_ r) i || ((d <=? i) && (i <? d + 1))).
  { intros i. rewrite Hbw. destruct (Z.eqb_spec (i / 32) (d / 32)) as [Ei|Ei].
    - rewrite Hbit, Z.lor_spec, testbit_one by lia. f_equal. lia.
    - replace ((d <=? i) && (i <? d + 1)) with false by lia. by rewrite orb_false_r. }
  destruct (num_bits_add _ _ (num_bits_ r) d (d + 1) (rw_top _ W) (rw_last _ W) ltac:(lia) Hb) as [Ht Hl].
  split; [|split; [done|split; [done|]]].
  - destruct W. split; simpl; try done. lia.
  - intros n. unfold has. simpl. rewrite Hb. f_equal. lia.
Qed.

Lemma add_range_spec r from to :
  range_wf r -> iok from -> iok to ->
  exists r', add_range r from to = Some r' /\ range_wf r' /\ base_ r' = base_ r /\ range_max_ r' = range_max_ r /\
    forall n, has r' n = has r n || ((ival (base_ r) <=? n) && (n <? ival (base_ r) + 256) &&
                                     (ival from <=? n) && (n <? ival to)).
Proof.
  intros W Hf Ht. unfold add_range. pose proof (rw_base _ W) as Hb. pose proof (rw_room _ W). pose proof (rw_num _ W).
  destruct (item_add_val (base_ r) NBITS Hb) as [Hto Htv]; [unfold NBITS; lia|unfold NBITS; lia|].
  set (top := item_add (base_ r) NBITS) in *. unfold NBITS in Htv. rewrite !(item_geb_val _ from), !(item_geb_val to) by done.
  set (lo := if ival from <=? ival (base_ r) then base_ r else from).
  set (hi := if ival top <=? ival to then top else to).
  assert (Hlo : iok lo /\ ival lo = Z.max (ival from) (ival (base_ r)))
    by (unfold lo; destruct (Z.leb_spec (ival from) (ival (base_ r))); split; done || lia).
  assert (Hhi : iok hi /\ ival hi = Z.min (ival to) (ival (base_ r) + 256))
    by (unfold hi; destruct (Z.leb_spec (ival top) (ival to)); split; done || lia).
  destruct Hlo as [Hlo Elo], Hhi as [Hhi Ehi]. rewrite item_geb_val by done.
  destruct (Z.leb_spec (ival hi) (ival lo)) as [Hle|Hlt].
  { exists r. split; [done|]. split; [done|]. split; [done|]. split; [done|]. intros n.
    replace (_ && _ && _ && _) with false by lia. by rewrite orb_false_r. }
  rewrite !item_diff_val by (done || lia). rewrite (u32_small (ival hi - ival lo)), (u32_small (ival lo - _)) by lia.
  set (o := ival lo - ival (base_ r)) in *. set (m := ival hi - ival lo) in *.
  destruct (index_32 o ltac:(lia)) as [-> ->].
  destruct (add_range_loop_spec (S NITEMS) (bitmap_ r) (o / 32) (o mod 32) m (rw_words _ W))
    as (ws & -> & Hws & Hbw); [lia|lia|lia|lia|unfold NITEMS; lia|]. simpl.
  assert (Hbits : forall i, bit ws i = bit (bitmap_ r) i || ((o <=? i) && (i <? o + m)))
    by (intros i; rewrite Hbw; f_equal; lia).
  destruct (num_bits_add _ _ (num_bits_ r) o (o + m) (rw_top _ W) (rw_last _ W) ltac:(lia) Hbits) as [Ht' Hl'].
  eexists. split; [done|]. rewrite u32_small by lia. rewrite (Z.max_comm (num_bits_ r)).
  split; [|split; [done|split; [done|]]].
  - destruct W. split; simpl; try done. lia.
  - intros n. unfold has. simpl. rewrite Hbits. f_equal. lia.
Qed.

(** The last item of a range that is not empty. *)
Lemma range_max_spec r : range_wf r -> 0 < num_bits_ r ->
  iok (range_max r) /\ ival (range_max r) = ival (base_ r) + num_bits_ r - 1.
Proof.
  intros W Hn. pose proof (rw_num _ W). pose proof (rw_room _ W). unfold range_max. rewrite u32_small by lia.
  destruct (item_add_val (base_ r) (num_bits_ r - 1) (rw_base _ W)) as [? ->]; [lia|lia|]. split; [done|lia].
Qed.

Lemma range_max_greatest r : range_wf r -> 0 < num_bits_ r ->
  iok (range_max r) /\ has r (ival (range_max r)) = true /\ forall n, has r n = true -> n <= ival (range_max r).
Proof.
  intros W Hn. destruct (range_max_spec r W Hn) as [Ho ->]. split; [done|]. split.
  - unfold has. rewrite <- (rw_last _ W Hn). f_equal. lia.
  - intros n Hh. apply (has_window r n W) in Hh. lia.
Qed.

Lemma range_remove_spec r x :
  range_wf r -> 0 < num_bits_ r -> iok x ->
  exists r', range_remove r x = Some r' /\ range_wf r' /\ base_ r' = base_ r /\ range_max_ r' = range_max_ r /\
    forall n, has r' n = has r n && negb (n =? ival x).
Proof.
  intros W Hn Hx. destruct (range_max_spec r W Hn) as [Hmo Hmv]. pose proof (rw_num _ W).
  unfold range_remove. rewrite !item_geb_val, item_eqb_val by (done || apply (rw_base _ W)). rewrite Hmv.
  destruct ((ival (base_ r) <=? ival x) && (ival x <=? ival (base_ r) + num_bits_ r - 1)) eqn:E.
  2:{ exists r. split; [done|]. split; [done|]. split; [done|]. split; [done|]. intros n.
      destruct (has r n) eqn:Eh; [|done]. apply (has_window r n W) in Eh. lia. }
  destruct (item_index r x W Hx ltac:(lia)) as (-> & Hd & -> & -> & Hi).
  set (d := ival x - ival (base_ r)) in *.
  destruct (get_word_spec _ (d / 32) (rw_words _ W) Hi) as (w & -> & Hw & Hbit). simpl.
  destruct (set_word_spec (bitmap_ r) (d / 32) (Z.land w (not32 (shl32 1 (31 - d mod 32)))) (rw_words _ W))
    as (ws & -> & Hws & Hbw); [auto with bitmap|done|]. simpl.
  assert (Hb : forall i, bit ws i = bit (bitmap_ r) i && negb (i =? d)).
  { intros i. rewrite Hbw. destruct (Z.eqb_spec (i / 32) (d / 32)) as [Ei|Ei].
    - rewrite Hbit, Z.land_spec, testbit_not32, testbit_one by lia. f_equal. f_equal. lia.
    - replace (i =? d) with false by lia. by rewrite andb_true_r. }
  assert (Hhas : forall n, bit ws (n - ival (base_ r)) = has r n && negb (n =? ival x)).
  { intros n. unfold has. rewrite Hb. f_equal. f_equal. lia. }
  destruct (Z.eqb_spec (ival x) (ival (base_ r) + num_bits_ r - 1)) as [Ex|Ex].
  - destruct (calc_maximum_bit_set_spec ws (d / 32 + 1) 0 Hws) as (m & -> & Hm & Hz & Hl); [lia|lia|]. simpl.
    eexists. split; [done|]. split; [|done]. destruct W. split; simpl; try done; [lia| |intros; apply Hl; lia].
    intros i Hi'. destruct (Z.lt_ge_cases i (32 * (d / 32 + 1))); [apply Hz; lia|].
    rewrite Hb, rw_top0 by lia. done.
  - eexists. split; [done|]. split; [|done]. destruct W. split; simpl; try done.
    + intros i Hi'. by rewrite Hb, rw_top0.
    + intros _. rewrite Hb, rw_last0 by lia. lia.
Qed.

(** The bits of the words after a shift of the map. *)
Lemma shift_map_left_bits r n :
  words (bitmap_ r) -> 0 <= n < num_bits_ r -> num_bits_ r <= 256 ->
  exists ws, shift_map_left r n = Some (mkRange (base_ r) (range_max_ r) ws (num_bits_ r - n)) /\ words ws /\
    forall j, bit ws j = if j <? 0 then false else bit (bitmap_ r) (j + n).
Proof.
  intros Hws Hn H256. unfold shift_map_left. rewrite Z.geb_leb. rewrite (proj2 (Z.leb_gt _ _)) by lia.
  destruct (index_32 n ltac:(lia)) as [-> ->]. change (Z.of_nat NITEMS - 1) with 7.
  destruct (Z.eqb_spec (n mod 32) 0) as [Es|Es].
  - simpl. eexists. split; [done|]. split.
    + destruct Hws as [Hl Hf]. split.
      * rewrite length_app, length_drop, length_replicate, Hl. unfold NITEMS. lia.
      * apply Forall_app; split; [by apply Forall_drop|apply Forall_replicate, word_0].
    + intros j. rewrite bit_drop by (done || lia). by replace (j + 32 * (n / 32)) with (j + n) by lia.
  - destruct (shift_left_loop_spec (S NITEMS) (bitmap_ r) (bitmap_ r) 0 (n / 32) (n mod 32) Hws)
      as (ws1 & E1 & Hws1 & Hb1); try (unfold NITEMS; lia).
    { intros j. destruct (Z.ltb_spec j 0); [by apply bit_neg|]. by replace (j <? 32 * 0) with false by lia. }
    change (0 + n / 32) with (n / 32) in E1. rewrite E1. simpl.
    destruct (get_word_spec ws1 7 Hws1) as (w & -> & Hw & Hbw); [lia|]. simpl.
    destruct (set_word_spec ws1 (7 - n / 32) (shl32 w (n mod 32)) Hws1) as (ws2 & -> & Hws2 & Hb2);
      [auto with bitmap|lia|]. simpl.
    eexists. split; [done|]. split; [apply (bit_clear_last ws2 (n / 32) 0); done || lia|].
    intros j. rewrite (proj2 (bit_clear_last ws2 (n / 32) j ltac:(lia) Hws2)), Hb2.
    destruct (Z.ltb_spec j (32 * (8 - n / 32))) as [Hj|Hj].
    2:{ replace (j <? 0) with false by lia. symmetry. apply bit_beyond; [done|lia]. }
    destruct (Z.eqb_spec (j / 32) (7 - n / 32)) as [Ej|Ej].
    + replace (j <? 0) with false by lia. rewrite testbit_shl32 by lia.
      destruct (Z.lt_ge_cases (j mod 32 + n mod 32) 32) as [Hc|Hc].
      * replace (31 - j mod 32 - n mod 32) with (31 - (j + n) mod 32) by lia. rewrite <- Hbw by lia.
        rewrite Hb1. replace (j + n <? 0) with false by lia. by replace (j + n <? 32 * (7 - n / 32)) with false by lia.
      * rewrite Z.testbit_neg_r by lia. symmetry. apply bit_beyond; [done|lia].
    + rewrite Hb1. destruct (j <? 0); [done|]. replace (j <? 32 * (7 - n / 32)) with true by lia. f_equal. lia.
Qed.

Lemma shift_map_right_bits r n :
  words (bitmap_ r) -> 0 <= n < 256 -> 0 <= num_bits_ r <= 256 ->
  exists ws m, shift_map_right r n = Some (mkRange (base_ r) (range_max_ r) ws m) /\ words ws /\
    (forall j, bit ws j = if j <? 256 then bit (bitmap_ r) (j - n) else false) /\
    (if num_bits_ r + n >? 256
     then 0 <= m <= 256 /\ (forall j, m <= j -> bit ws j = false) /\ (0 < m -> bit ws (m - 1) = true)
     else m = num_bits_ r + n).
Proof.
  intros Hws Hn H256. unfold shift_map_right. rewrite Z.geb_leb. rewrite (proj2 (Z.leb_gt _ _)) by (unfold NBITS; lia).
  destruct (index_32 n ltac:(lia)) as [-> ->]. change (Z.of_nat NITEMS - 1) with 7.
  assert (Hws' : exists ws,
    (if n mod 32 =? 0 then Some (replicate (Z.to_nat (n / 32)) 0 ++ take (NITEMS - Z.to_nat (n / 32)) (bitmap_ r))
     else ws ← shift_right_loop (S NITEMS) (bitmap_ r) 7 (7 - n / 32) (n mod 32);
          w ← get_word ws 0;
          ws0 ← set_word ws (n / 32) (Z.shiftr w (n mod 32));
          Some (clear_first (n / 32) ws0)) = Some ws /\ words ws /\
    forall j, bit ws j = if j <? 256 then bit (bitmap_ r) (j - n) else false).
  { destruct (Z.eqb_spec (n mod 32) 0) as [Es|Es].
    - eexists. split; [done|]. split.
      + destruct Hws as [Hl Hf]. split.
        * rewrite length_app, length_take, length_replicate, Hl. unfold NITEMS. lia.
        * apply Forall_app; split; [apply Forall_replicate, word_0|by apply Forall_take].
      + intros j. rewrite bit_take by (done || lia). by replace (j - 32 * (n / 32)) with (j - n) by lia.
    - destruct (shift_right_loop_spec (S NITEMS) (bitmap_ r) (bitmap_ r) 7 (n / 32) (n mod 32) Hws)
        as (ws1 & E1 & Hws1 & Hb1); try (unfold NITEMS; lia).
      { intros j. destruct (Z.ltb_spec j 0); [by apply bit_neg|]. destruct (Z.leb_spec 256 j); [by apply bit_beyond|].
        by replace (j <? 32 * (7 + 1)) with true by lia. }
      rewrite E1. simpl.
      destruct (get_word_spec ws1 0 Hws1) as (w & -> & Hw & Hbw); [lia|]. simpl.
      destruct (set_word_spec ws1 (n / 32) (Z.shiftr w (n mod 32)) Hws1) as (ws2 & -> & Hws2 & Hb2);
        [auto with bitmap|lia|]. simpl.
      eexists. split; [done|]. split; [apply (bit_clear_first ws2 (n / 32) 0); done || lia|].
      intros j. rewrite (proj2 (bit_clear_first ws2 (n / 32) j ltac:(lia) Hws2)), Hb2.
      destruct (Z.ltb_spec j (32 * (n / 32))) as [Hj|Hj].
      { replace (j <? 256) with true by lia. symmetry. apply bit_neg. lia. }
      destruct (Z.eqb_spec (j / 32) (n / 32)) as [Ej|Ej].
      + replace (j <? 256) with true by lia. rewrite Z.shiftr_spec by lia.
        destruct (Z.lt_ge_cases (j mod 32) (n mod 32)) as [Hc|Hc].
        * rewrite word_high by (done || lia). symmetry. apply bit_neg. lia.
        * replace (31 - j mod 32 + n mod 32) with (31 - (j - n) mod 32) by lia. rewrite <- Hbw by lia.
          rewrite Hb1. replace ((j - n <? 0) || (256 <=? j - n)) with false by lia.
          by replace (j - n <? 32 * (n / 32 + 1)) with true by lia.
      + rewrite Hb1. destruct (Z.ltb_spec j 256).
        * replace ((j <? 0) || (256 <=? j)) with false by lia.
          replace (j <? 32 * (n / 32 + 1)) with false by lia. f_equal. lia.
        * by replace ((j <? 0) || (256 <=? j)) with true by lia. }
  destruct Hws' as (ws & E & Hw & Hb). rewrite E. simpl. rewrite u32_small by lia. unfold NBITS.
  destruct (num_bits_ r + n >? 256).
  - destruct (calc_maximum_bit_set_spec ws (Z.of_nat NITEMS) (n / 32) Hw) as (m & -> & Hm & Hz & Hl);
      [lia|unfold NITEMS; lia|]. change (Z.of_nat NITEMS) with 8 in *. simpl.
    exists ws, m. split; [done|]. split; [done|]. split; [done|]. split; [lia|]. split; [|intros; by apply Hl].
    intros j Hj. destruct (Z.lt_ge_cases j 256); [|by apply bit_beyond].
    destruct (Z.lt_ge_cases j (32 * (n / 32))); [|apply Hz; lia].
    rewrite Hb. replace (j <? 256) with true by lia. apply bit_neg. lia.
  - simpl. by exists ws, (num_bits_ r + n).
Qed.

(** [m] counts the bits of the words up to the last one set. *)
Definition counts (ws : list Z) (m : Z) : Prop :=
  words ws /\ 0 <= m <= 256 /\ (forall j, m <= j -> bit ws j = false) /\ (0 < m -> bit ws (m - 1) = true).

Lemma counts_zero : counts (replicate NITEMS 0) 0.
Proof. split; [apply words_zero|]. split; [lia|]. split; [intros; apply bit_zero|lia]. Qed.

Lemma shift_map_left_spec r d : range_wf r -> 0 <= d ->
  exists ws m, shift_map_left r d = Some (mkRange (base_ r) (range_max_ r) ws m) /\ counts ws m /\
    forall j, bit ws j = (0 <=? j) && bit (bitmap_ r) (j + d).
Proof.
  intros W Hd. pose proof (rw_num _ W). destruct (Z.lt_ge_cases d (num_bits_ r)) as [Hs|Hs].
  - destruct (shift_map_left_bits r d (rw_words _ W)) as (ws & E & Hws & Hbits); [lia|lia|].
    exists ws, (num_bits_ r - d). split; [done|]. split; [|intros j; rewrite Hbits; by destruct (Z.ltb_spec j 0), (Z.leb_spec 0 j); try lia].
    split; [done|]. split; [lia|]. split.
    + intros j Hj. rewrite Hbits. destruct (j <? 0); [done|]. apply (rw_top _ W). lia.
    + intros Hp. rewrite Hbits. replace (num_bits_ r - d - 1 <? 0) with false by lia.
      rewrite <- (rw_last _ W ltac:(lia)). f_equal. lia.
  - unfold shift_map_left. rewrite Z.geb_leb, (proj2 (Z.leb_le _ _)) by lia.
    eexists _, _. split; [done|]. split; [apply counts_zero|]. intros j. rewrite bit_zero.
    destruct (Z.leb_spec 0 j); [|done]. symmetry. apply (rw_top _ W). lia.
Qed.

Lemma shift_map_right_spec r d : range_wf r -> 0 < num_bits_ r -> 0 <= d ->
  exists ws m, shift_map_right r d = Some (mkRange (base_ r) (range_max_ r) ws m) /\ counts ws m /\
    forall j, bit ws j = (j <? 256) && bit (bitmap_ r) (j - d).
Proof.
  intros W Hn Hd. pose proof (rw_num _ W). destruct (Z.lt_ge_cases d 256) as [Hs|Hs].
  - destruct (shift_map_right_bits r d (rw_words _ W)) as (ws & m & E & Hws & Hbits & Hm); [lia|lia|].
    exists ws, m. split; [done|]. split; [|intros j; rewrite Hbits; by destruct (j <? 256)].
    split; [done|]. destruct (Z.gtb_spec (num_bits_ r + d) 256) as [Hg|Hg]; [done|].
    subst m. split; [lia|]. split.
    + intros j Hj. rewrite Hbits. destruct (j <? 256); [|done]. apply (rw_top _ W). lia.
    + intros _. rewrite Hbits. replace (num_bits_ r + d - 1 <? 256) with true by lia.
      rewrite <- (rw_last _ W Hn). f_equal. lia.
  - unfold shift_map_right. rewrite Z.geb_leb, (proj2 (Z.leb_le _ _)) by (unfold NBITS; lia).
    eexists _, _. split; [done|]. split; [apply counts_zero|]. intros j. rewrite bit_zero.
    destruct (Z.ltb_spec j 256); [|done]. symmetry. apply bit_neg. lia.
Qed.

(** Moving the base keeps the numbers of the new window. *)
Lemma base_update_spec r b :
  range_wf r -> 0 < num_bits_ r -> iok b -> ival b + 256 < ilimit -> Z.abs (ival b - ival (base_ r)) < 2 ^ 32 ->
  exists r', base_update r b = Some r' /\ base_ r' = b /\ range_wf r' /\
    (b <> base_ r -> ival (range_max_ r') = ival b + 255) /\
    forall n, has r' n = has r n && (ival b <=? n) && (n <? ival b + 256).
Proof.
  intros W Hn Hb Hr Hd. pose proof (rw_base _ W) as Hb0. pose proof (rw_num _ W). unfold base_update.
  rewrite item_eqb_val, item_gtb_val by done.
  destruct (Z.eqb_spec (ival b) (ival (base_ r))) as [E|E].
  { apply ival_inj in E as ->; [|done..]. exists r. split; [done|]. split; [done|]. split; [done|]. split; [done|].
    intros n. destruct (has r n) eqn:Eh; [|done]. apply (has_window r n W) in Eh. lia. }
  destruct (item_add_val b (NBITS - 1) Hb) as [Hmo Hmv]; [unfold NBITS; lia|unfold NBITS; lia|].
  set (top := item_add b (NBITS - 1)) in *. change (NBITS - 1) with 255 in Hmv.
  assert (Hfin : forall r0 ws m, counts ws m -> bitmap_ r0 = ws -> num_bits_ r0 = m ->
    (forall j, bit ws j = (0 <=? j) && (j <? 256) && bit (bitmap_ r) (j + (ival b - ival (base_ r)))) ->
    exists r', Some (mkRange b top (bitmap_ r0) (num_bits_ r0)) = Some r' /\ base_ r' = b /\ range_wf r' /\
      (b <> base_ r -> ival (range_max_ r') = ival b + 255) /\
      forall n, has r' n = has r n && (ival b <=? n) && (n <? ival b + 256)).
  { intros r0 ws m (Hws & Hm & Ht & Hl) E1 E2 Hbits. subst ws m. eexists. split; [done|]. split; [done|].
    split; [split; simpl; try done; lia|]. split; [done|]. intros n. unfold has. simpl. rewrite Hbits.
    replace (n - ival b + (ival b - ival (base_ r))) with (n - ival (base_ r)) by lia.
    rewrite andb_comm, andb_assoc. f_equal; [f_equal|]; lia. }
  destruct (Z.ltb_spec (ival (base_ r)) (ival b)) as [Hlt|Hge];
    rewrite item_diff_val by (done || lia); rewrite u32_small by lia.
  - destruct (shift_map_left_spec r (ival b - ival (base_ r)) W) as (ws & m & -> & Hc & Hbits); [lia|]. simpl.
    apply (Hfin (mkRange (base_ r) (range_max_ r) ws m) ws m); try done. intros j. rewrite Hbits.
    destruct (Z.ltb_spec j 256); [by rewrite andb_true_r|].
    rewrite bit_beyond by (apply W || lia). by rewrite !andb_false_r.
  - destruct (shift_map_right_spec r (ival (base_ r) - ival b) W Hn) as (ws & m & -> & Hc & Hbits); [lia|]. simpl.
    apply (Hfin (mkRange (base_ r) (range_max_ r) ws m) ws m); try done. intros j. rewrite Hbits.
    replace (j + (ival b - ival (base_ r))) with (j - (ival (base_ r) - ival b)) by lia.
    destruct (Z.leb_spec 0 j); [done|]. rewrite bit_neg by lia. by rewrite andb_false_r.
Qed.

(** The items of one word, the bits before [p] being clear. *)
Lemma word_items_spec fuel x w p :
  word w -> iok x -> ival x + 32 <= ilimit -> 0 <= p <= 32 -> 32 - p <= Z.of_nat fuel ->
  (forall i, 0 <= i < p -> Z.testbit w (31 - i) = false) ->
  Forall iok (word_items fuel x w) /\ StronglySorted Z.lt (ival <$> word_items fuel x w) /\
  forall n, n ∈ (ival <$> word_items fuel x w) <->
            ival x + p <= n < ival x + 32 /\ Z.testbit w (31 - (n - ival x)) = true.
Proof.
  revert w p. induction fuel as [|fuel IH]; intros w p Hw Hx Hl Hp Hf Hz.
  { simpl. split; [done|]. split; [constructor|]. intros n. split; [by intros ?%elem_of_nil|lia]. }
  cbn [word_items]. destruct (Z.eqb_spec w 0) as [->|Hne].
  { simpl. split; [done|]. split; [constructor|]. intros n. rewrite Z.bits_0. split; [by intros ?%elem_of_nil|by intros []]. }
  destruct (clz_highest w Hw Hne) as (Hc & Hb & Hhi). set (c := clz w) in *.
  assert (Hpc : p <= c).
  { destruct (Z.lt_ge_cases c p); [|done]. rewrite Hz in Hb by lia. done. }
  destruct (item_add_val x c Hx) as [Hco Hcv]; [lia|lia|].
  set (w' := Z.land w (not32 (shl32 1 (31 - c)))).
  assert (Hw' : forall i, 0 <= i < 32 -> Z.testbit w' (31 - i) = Z.testbit w (31 - i) && negb (i =? c)).
  { intros i Hi. unfold w'. rewrite Z.land_spec, testbit_not32, testbit_one by lia. f_equal. f_equal. lia. }
  destruct (IH w' (c + 1)) as (Ho & Hs & Hm); [unfold w'; auto with bitmap|done|done|lia|lia| |].
  { intros i Hi. rewrite Hw' by lia. destruct (Z.eqb_spec i c); [apply andb_false_r|]. rewrite Hhi by lia. done. }
  split; [by constructor|]. simpl. rewrite Hcv. split.
  - constructor; [done|]. apply list.Forall_forall. intros n Hn. apply Hm in Hn. lia.
  - intros n. rewrite elem_of_cons, Hm. split.
    + intros [->|[Hn Hbn]]; [|rewrite Hw' in Hbn by lia; apply andb_true_iff in Hbn as [? _]; split; [lia|done]].
      split; [lia|]. by replace (ival x + c - ival x) with c by lia.
    + intros [Hn Hbn]. destruct (Z.eq_dec n (ival x + c)) as [|Hnc]; [by left|right].
      destruct (Z.lt_ge_cases (n - ival x) c) as [Hlt|Hge]; [rewrite Hhi in Hbn by lia; done|].
      split; [lia|]. rewrite Hw' by lia. rewrite Hbn. lia.
Qed.

Lemma sorted_app (l1 l2 : list Z) b :
  StronglySorted Z.lt l1 -> StronglySorted Z.lt l2 -> (forall n, n ∈ l1 -> n < b) -> (forall n, n ∈ l2 -> b <= n) ->
  StronglySorted Z.lt (l1 ++ l2).
Proof.
  intros H1 H2 Hl Hg. induction H1 as [|x l1 H1 IH Hx]; [done|]. simpl. constructor.
  - apply IH. intros n Hn. apply Hl. by right.
  - apply Forall_app. split; [done|]. apply list.Forall_forall. intros n Hn.
    apply Z.lt_le_trans with b; [apply Hl; by left|by apply Hg].
Qed.

Lemma bit_cons w ws i : 0 <= i ->
  bit (w :: ws) i = if i <? 32 then Z.testbit w (31 - i) else bit ws (i - 32).
Proof.
  intros Hi. unfold bit. replace (i <? 0) with false by lia. destruct (Z.ltb_spec i 32).
  - replace (i / 32) with 0 by lia. replace (i mod 32) with i by lia. done.
  - replace (i - 32 <? 0) with false by lia.
    replace (Z.to_nat (i / 32)) with (S (Z.to_nat ((i - 32) / 32))) by lia. simpl.
    by replace (i mod 32) with ((i - 32) mod 32) by lia.
Qed.

Lemma for_each_loop_spec x ws :
  Forall word ws -> iok x -> ival x + 32 * zlen ws < ilimit ->
  Forall iok (for_each_loop x ws) /\ StronglySorted Z.lt (ival <$> for_each_loop x ws) /\
  forall n, n ∈ (ival <$> for_each_loop x ws) <-> bit ws (n - ival x) = true.
Proof.
  revert x. induction ws as [|w ws IH]; intros x Hws Hx Hl.
  { simpl. split; [done|]. split; [constructor|]. intros n. unfold bit. rewrite lookup_nil.
    destruct (n - ival x <? 0); split; by intros ?%elem_of_nil || done. }
  inversion Hws as [|? ? Hw Hws']; subst. unfold zlen in Hl. simpl length in Hl.
  destruct (item_add_val x 32 Hx) as [Hxo Hxv]; [lia|lia|].
  destruct (word_items_spec 32 x w 0) as (Ho1 & Hs1 & Hm1); try (done || lia).
  destruct (IH (item_add x 32) Hws' Hxo) as (Ho2 & Hs2 & Hm2); [unfold zlen; lia|].
  cbn [for_each_loop]. rewrite fmap_app. split; [by apply Forall_app|]. split.
  - apply (sorted_app _ _ (ival x + 32)); [done|done| |].
    + intros n Hn. apply Hm1 in Hn. lia.
    + intros n Hn. apply Hm2 in Hn. destruct (Z.lt_ge_cases (n - ival (item_add x 32)) 0); [by rewrite bit_neg in Hn|lia].
  - intros n. rewrite elem_of_app, Hm1, Hm2, Hxv.
    destruct (Z.lt_ge_cases (n - ival x) 0) as [Hn|Hn].
    { rewrite !bit_neg by lia. split; [intros [[? _]|?]; [lia|done]|done]. }
    rewrite bit_cons by done. destruct (Z.ltb_spec (n - ival x) 32).
    + rewrite (bit_neg ws) by lia. split; [by intros [[_ ?]|?]|]. intros ?. left. split; [lia|done].
    + replace (n - (ival x + 32)) with (n - ival x - 32) by lia. split; [|by right]. intros [[? _]|?]; [lia|done].
Qed.

(** The words in use hold all the bits. *)
Lemma bit_used r i : range_wf r -> bit (take (Z.to_nat (n_longs r)) (bitmap_ r)) i = bit (bitmap_ r) i.
Proof.
  intros W. pose proof (rw_num _ W). destruct (Z.lt_ge_cases i (32 * n_longs r)) as [Hi|Hi].
  - unfold bit. destruct (Z.ltb_spec i 0); [done|]. by rewrite lookup_take_lt by lia.
  - rewrite (rw_top _ W) by (unfold n_longs in *; lia). unfold bit. destruct (Z.ltb_spec i 0); [done|].
    rewrite lookup_take_ge; [done|]. unfold n_longs in *. lia.
Qed.

Lemma used_words r : range_wf r ->
  Forall word (take (Z.to_nat (n_longs r)) (bitmap_ r)) /\ zlen (take (Z.to_nat (n_longs r)) (bitmap_ r)) = n_longs r.
Proof.
  intros W. destruct (rw_words _ W) as [Hl Hf]. pose proof (rw_num _ W). split; [by apply Forall_take|].
  unfold zlen. rewrite length_take, Hl. unfold NITEMS, n_longs. lia.
Qed.

Lemma for_each_spec r : range_wf r ->
  Forall iok (for_each r) /\ StronglySorted Z.lt (ival <$> for_each r) /\
  forall n, n ∈ (ival <$> for_each r) <-> has r n = true.
Proof.
  intros W. destruct (used_words r W) as [Hf Hl]. pose proof (rw_num _ W). pose proof (rw_room _ W).
  destruct (for_each_loop_spec (base_ r) (take (Z.to_nat (n_longs r)) (bitmap_ r)) Hf (rw_base _ W)) as (Ho & Hs & Hm).
  { rewrite Hl. unfold n_longs. lia. }
  split; [done|]. split; [done|]. intros n. unfold for_each. rewrite Hm. by rewrite bit_used.
Qed.

Lemma min_loop_spec d x ws :
  Forall word ws -> iok x -> ival x + 32 * zlen ws < ilimit -> (exists i, bit ws i = true) ->
  iok (min_loop d x ws) /\ bit ws (ival (min_loop d x ws) - ival x) = true /\
  forall i, bit ws i = true -> ival (min_loop d x ws) <= ival x + i.
Proof.
  revert x. induction ws as [|w ws IH]; intros x Hws Hx Hl [i Hi].
  { unfold bit in Hi. rewrite lookup_nil in Hi. by destruct (i <? 0). }
  inversion Hws as [|? ? Hw Hws']; subst. unfold zlen in Hl. simpl length in Hl. cbn [min_loop].
  assert (Hpos : forall l j, bit l j = true -> 0 <= j).
  { intros l j Hj. destruct (Z.lt_ge_cases j 0); [by rewrite bit_neg in Hj|done]. }
  destruct (Z.eqb_spec w 0) as [->|Hne].
  - assert (Hsh : forall j, bit (0 :: ws) j = bit ws (j - 32)).
    { intros j. destruct (Z.lt_ge_cases j 0); [by rewrite !bit_neg by lia|]. rewrite bit_cons by done.
      destruct (Z.ltb_spec j 32); [|done]. rewrite Z.bits_0. symmetry. apply bit_neg. lia. }
    destruct (item_add_val x 32 Hx) as [Hxo Hxv]; [lia|lia|].
    destruct (IH (item_add x 32) Hws' Hxo) as (Ho & Hb & Hm); [unfold zlen; lia|exists (i - 32); by rewrite <- Hsh|].
    rewrite Hxv in Hb, Hm. split; [done|]. split.
    + rewrite Hsh. rewrite <- Hb. f_equal. lia.
    + intros j Hj. rewrite Hsh in Hj. specialize (Hm _ Hj). lia.
  - destruct (clz_highest w Hw Hne) as (Hc & Hb & Hhi). set (c := clz w) in *.
    destruct (item_add_val x c Hx) as [Hco Hcv]; [lia|lia|]. rewrite Hcv. split; [done|]. split.
    + rewrite bit_cons by lia. replace (ival x + c - ival x) with c by lia. by replace (c <? 32) with true by lia.
    + intros j Hj. pose proof (Hpos _ _ Hj). rewrite bit_cons in Hj by lia. destruct (Z.ltb_spec j 32); [|lia].
      destruct (Z.lt_ge_cases j c); [rewrite Hhi in Hj by lia; done|lia].
Qed.

Lemma range_min_least r : range_wf r -> 0 < num_bits_ r ->
  iok (range_min r) /\ has r (ival (range_min r)) = true /\ forall n, has r n = true -> ival (range_min r) <= n.
Proof.
  intros W Hn. destruct (used_words r W) as [Hf Hl]. pose proof (rw_num _ W). pose proof (rw_room _ W).
  destruct (min_loop_spec (base_ r) (base_ r) (take (Z.to_nat (n_longs r)) (bitmap_ r)) Hf (rw_base _ W)) as (Ho & Hb & Hm).
  { rewrite Hl. unfold n_longs. lia. }
  { exists (num_bits_ r - 1). rewrite bit_used by done. by apply (rw_last _ W). }
  split; [done|]. split; [by rewrite bit_used in Hb|]. intros n Hh. unfold has in Hh. rewrite <- bit_used in Hh by done.
  apply Hm in Hh. unfold range_min. lia.
Qed.

(** Words received: the bits before [num_bits] of them. *)
Lemma bitmap_set_bits r num_bits bitmap :
  0 <= num_bits <= 256 -> Forall word bitmap -> (num_bits + 31) / 32 <= zlen bitmap ->
  exists ws m, bitmap_set r num_bits bitmap = Some (mkRange (base_ r) (range_max_ r) ws m) /\ counts ws m /\
    forall i, bit ws i = (i <? num_bits) && bit bitmap i.
Proof.
  intros Hn Hf Hlen. unfold bitmap_set, NBITS. rewrite Z.min_l by lia. rewrite (proj2 (Z.leb_le _ _)) by done.
  destruct (index_32 num_bits ltac:(lia)) as [_ ->]. set (k := (num_bits + 31) / 32) in *.
  set (ws0 := take (Z.to_nat k) bitmap ++ replicate (NITEMS - Z.to_nat k) 0).
  assert (Hk : 0 <= k <= 8) by (unfold k; lia). unfold zlen in Hlen.
  assert (Hws0 : words ws0).
  { split; [unfold ws0; rewrite length_app, length_take, length_replicate; unfold NITEMS; lia|].
    apply Forall_app; split; [by apply Forall_take|apply Forall_replicate, word_0]. }
  assert (Hb0 : forall i, bit ws0 i = (i <? 32 * k) && bit bitmap i).
  { intros i. unfold bit. destruct (Z.ltb_spec i 0); [by rewrite andb_false_r|]. unfold ws0.
    destruct (Z.ltb_spec i (32 * k)).
    - rewrite lookup_app_l by (rewrite length_take; lia). by rewrite lookup_take_lt by lia.
    - rewrite lookup_app_r by (rewrite length_take; lia). destruct (replicate _ _ !! _) as [w|] eqn:E; [|done].
      apply lookup_replicate in E as [-> _]. apply Z.bits_0. }
  assert (Hws : exists ws, (if (0 <? num_bits) && negb (num_bits mod 32 =? 0) then
      w ← get_word ws0 (k - 1); set_word ws0 (k - 1) (Z.land w (not32 (Z.shiftr full_mask (num_bits mod 32))))
    else Some ws0) = Some ws /\ words ws /\ forall i, bit ws i = (i <? num_bits) && bit bitmap i).
  { destruct ((0 <? num_bits) && negb (num_bits mod 32 =? 0)) eqn:E.
    - destruct (get_word_spec ws0 (k - 1) Hws0) as (w & -> & Hw & Hbw); [unfold k; lia|]. simpl.
      destruct (set_word_spec ws0 (k - 1) (Z.land w (not32 (Z.shiftr full_mask (num_bits mod 32)))) Hws0)
        as (ws & -> & Hws & Hb); [auto with bitmap|unfold k; lia|].
      exists ws. split; [done|]. split; [done|]. intros i. rewrite Hb. destruct (Z.eqb_spec (i / 32) (k - 1)) as [Ei|Ei].
      + rewrite Z.land_spec, <- Hbw, Hb0, testbit_not32, Z.shiftr_spec, testbit_full by lia.
        replace (i <? 32 * k) with true by lia. cbn [andb]. rewrite andb_comm. f_equal. unfold k in *. lia.
      + rewrite Hb0. destruct (Z.lt_ge_cases i 0); [rewrite (bit_neg bitmap) by done; by rewrite !andb_false_r|].
        f_equal. unfold k in *. lia.
    - exists ws0. split; [done|]. split; [done|]. intros i. rewrite Hb0. f_equal. unfold k. lia. }
  destruct Hws as (ws & -> & Hws & Hb). simpl.
  destruct (calc_maximum_bit_set_spec ws k 0 Hws) as (m & -> & Hm & Hz & Hl); [lia|lia|]. simpl.
  exists ws, m. split; [done|]. split; [|done]. split; [done|]. split; [lia|]. split; [|intros; by apply Hl].
  intros i Hi. destruct (Z.lt_ge_cases i (32 * k)); [apply Hz; lia|]. rewrite Hb.
  by replace (i <? num_bits) with false by (unfold k in *; lia).
Qed.

Lemma bitmap_set_spec r num_bits bitmap :
  range_wf r -> 0 <= num_bits <= 256 -> Forall word bitmap -> (num_bits + 31) / 32 <= zlen bitmap ->
  exists r', bitmap_set r num_bits bitmap = Some r' /\ range_wf r' /\ base_ r' = base_ r /\ range_max_ r' = range_max_ r /\
    forall n, has r' n = (n - ival (base_ r) <? num_bits) && bit bitmap (n - ival (base_ r)).
Proof.
  intros W Hn Hf Hlen. destruct (bitmap_set_bits r num_bits bitmap Hn Hf Hlen) as (ws & m & E & (Hw & Hm & Ht & Hl) & Hb).
  eexists. split; [exact E|]. split; [|split; [done|split; [done|intros n; unfold has; simpl; apply Hb]]].
  destruct W. by split.
Qed.

End Specs.
