(* ===== verification/RangeSpec.v ===== *)
(** * What a range promises

    The abstract specification of [BitmapRange]: a window of numbers and a finite
    set of the numbers of it.  The operations of the program, run in any order,
    are the operations on the set, and what a program observes of a range
    ([is_set], [empty], [min], [max], [for_each]) is what the set says. *)

From Stdlib Require Import Sorted.
From stdpp Require Import gmap.
From S2P Require Import Prelude SequenceNumber BitmapRange.

(** ** The specification *)

Record NumberSet := mkNumbers {
  ns_base : Z;
  ns_last : Z;
  ns_set : gset Z
}.

Inductive range_op (T : Type) :=
  | OpAdd (item : T)
  | OpAddRange (from to : T)
  | OpRemove (item : T)
  | OpMove (base : T)
  | OpReset (base : T)
  | OpLimit (base : T) (max_bits : Z).
Arguments OpAdd {T}.
Arguments OpAddRange {T}.
Arguments OpRemove {T}.
Arguments OpMove {T}.
Arguments OpReset {T}.
Arguments OpLimit {T}.

(** The numbers [from <= n < to]. *)
Definition numbers (from to : Z) : gset Z := list_to_set (seqZ from (to - from)).

Lemma elem_of_numbers n from to : n ∈ numbers from to <-> from <= n < to.
Proof. unfold numbers. rewrite elem_of_list_to_set, elem_of_seqZ. lia. Qed.

Section Refinement.
Context {T : Type} `{I : RangeItem T} `{L : !RangeItemLaws T}.
Implicit Types (r : BitmapRange T) (op : range_op T).

Definition spec_step (s : NumberSet) op : NumberSet :=
  match op with
  | OpAdd x =>
      if (ns_base s <=? ival x) && (ival x <=? ns_last s)
      then mkNumbers (ns_base s) (ns_last s) ({[ ival x ]} ∪ ns_set s) else s
  | OpAddRange from to =>
      mkNumbers (ns_base s) (ns_last s)
        (numbers (Z.max (ival from) (ns_base s)) (Z.min (ival to) (ns_base s + 256)) ∪ ns_set s)
  | OpRemove x => mkNumbers (ns_base s) (ns_last s) (ns_set s ∖ {[ ival x ]})
  | OpMove b =>
      if ival b =? ns_base s then s
      else mkNumbers (ival b) (ival b + 255) (ns_set s ∩ numbers (ival b) (ival b + 256))
  | OpReset b => mkNumbers (ival b) (ival b + 255) ∅
  | OpLimit b m => mkNumbers (ival b) (ival b + Z.min m 255) ∅
  end.

(** The program's step. *)
Definition range_step r op : option (BitmapRange T) :=
  match op with
  | OpAdd x => '(_, r') ← range_add r x; Some r'
  | OpAddRange from to => add_range r from to
  | OpRemove x => range_remove r x
  | OpMove b => base_update r b
  | OpReset b => Some (range_set_base r b)
  | OpLimit b m => Some (range_set_base_max r b m)
  end.

(** What an operation needs: a removal and a move of the base need a range that
    is not empty, a move is shorter than [2^32] and a window ends before the
    largest number. *)
Definition op_ok (s : NumberSet) op : Prop :=
  match op with
  | OpAdd x => iok x
  | OpAddRange from to => iok from /\ iok to
  | OpRemove x => iok x /\ ns_set s <> ∅
  | OpMove b => iok b /\ ns_set s <> ∅ /\ ival b + 256 < ilimit /\ Z.abs (ival b - ns_base s) < 2 ^ 32
  | OpReset b => iok b /\ ival b + 256 < ilimit
  | OpLimit b m => iok b /\ ival b + 256 < ilimit /\ 0 <= m
  end.

Fixpoint ops_ok (s : NumberSet) (ops : list (range_op T)) : Prop :=
  match ops with
  | [] => True
  | op :: ops => op_ok s op /\ ops_ok (spec_step s op) ops
  end.

Fixpoint range_run r (ops : list (range_op T)) : option (BitmapRange T) :=
  match ops with
  | [] => Some r
  | op :: ops => r ← range_step r op; range_run r ops
  end.

(** The set a range stands for: the numbers [for_each] visits. *)
Definition range_numbers r : NumberSet :=
  mkNumbers (ival (base_ r)) (ival (range_max_ r)) (list_to_set (ival <$> for_each r)).

Lemma elem_of_range_numbers r n : range_wf r -> n ∈ ns_set (range_numbers r) <-> has r n = true.
Proof. intros W. simpl. rewrite elem_of_list_to_set. apply (for_each_spec r W). Qed.

Lemma range_numbers_empty r : range_wf r -> ns_set (range_numbers r) <> ∅ <-> 0 < num_bits_ r.
Proof.
  intros W. pose proof (rw_num _ W). split.
  - intros H0. destruct (Z.eq_dec (num_bits_ r) 0) as [E|]; [|lia]. destruct H0. apply set_eq. intros n.
    rewrite elem_of_range_numbers by done.
    rewrite (proj1 (range_empty_spec r W)) by (unfold range_empty; lia).
    split; [done|by intros ?%elem_of_empty].
  - intros Hp E. destruct (range_max_greatest r W Hp) as (_ & Hh & _).
    apply elem_of_range_numbers in Hh; [|done]. rewrite E in Hh. set_solver.
Qed.

(** A range is determined by its window and its members. *)
Lemma range_numbers_eq r b m (X : gset Z) :
  range_wf r -> ival (base_ r) = b -> ival (range_max_ r) = m -> (forall n, has r n = true <-> n ∈ X) ->
  range_numbers r = mkNumbers b m X.
Proof.
  intros W <- <- H. unfold range_numbers. f_equal. apply set_eq. intros n.
  rewrite <- H. by apply elem_of_range_numbers.
Qed.

Lemma range_reset_wf b m : iok b -> ival b + 256 < ilimit -> 0 <= m ->
  range_wf (range_of b m) /\ range_numbers (range_of b m) = mkNumbers (ival b) (ival b + Z.min m 255) ∅.
Proof.
  intros Hb Hr Hm. destruct (range_of_spec b m Hb Hr Hm) as (W & H0 & Hv). split; [done|].
  apply range_numbers_eq; [done|done|done|]. intros n. rewrite H0. set_solver.
Qed.

Lemma range_step_refines r op :
  range_wf r -> op_ok (range_numbers r) op ->
  exists r', range_step r op = Some r' /\ range_wf r' /\ range_numbers r' = spec_step (range_numbers r) op.
Proof.
  intros W Hok. pose proof (rw_max _ W). destruct op as [x|from to|x|b|b|b m]; cbn [op_ok] in Hok.
  - destruct (range_add_spec r x W Hok) as (r' & E & W' & Eb & Em & Hh). exists r'. split; [cbn; by rewrite E|].
    split; [done|]. simpl. destruct ((ival (base_ r) <=? ival x) && (ival x <=? ival (range_max_ r))) eqn:Ew.
    + apply range_numbers_eq; [done|by rewrite Eb|by rewrite Em|]. intros n.
      rewrite Hh, orb_true_iff, elem_of_union, elem_of_singleton, <- (elem_of_range_numbers r n W).
      destruct (Z.eqb_spec n (ival x)) as [->|]; [rewrite <- andb_assoc, Ew|]; simpl; intuition congruence.
    + apply range_numbers_eq; [done|by rewrite Eb|by rewrite Em|]. intros n. rewrite Hh, (elem_of_range_numbers r n W).
      destruct (Z.eqb_spec n (ival x)) as [->|]; [rewrite <- andb_assoc, Ew|]; by rewrite orb_false_r.
  - destruct Hok as [Hf Ht]. destruct (add_range_spec r from to W Hf Ht) as (r' & E & W' & Eb & Em & Hh).
    exists r'. split; [done|]. split; [done|]. apply range_numbers_eq; [done|by rewrite Eb|by rewrite Em|]. intros n.
    rewrite Hh, elem_of_union, elem_of_numbers, elem_of_range_numbers, orb_true_iff by done.
    simpl. rewrite !andb_true_iff. destruct (has r n); [intuition|]. lia.
  - destruct Hok as [Hx Hne]. apply range_numbers_empty in Hne; [|done].
    destruct (range_remove_spec r x W Hne Hx) as (r' & E & W' & Eb & Em & Hh).
    exists r'. split; [done|]. split; [done|]. apply range_numbers_eq; [done|by rewrite Eb|by rewrite Em|]. intros n.
    rewrite Hh, elem_of_difference, elem_of_singleton, elem_of_range_numbers, andb_true_iff by done.
    destruct (Z.eqb_spec n (ival x)); simpl; intuition congruence.
  - destruct Hok as (Hb & Hne & Hr & Hd). apply range_numbers_empty in Hne; [|done].
    destruct (base_update_spec r b W Hne Hb Hr Hd) as (r' & E & Eb & W' & Em & Hh).
    exists r'. split; [done|]. split; [done|]. simpl. destruct (Z.eqb_spec (ival b) (ival (base_ r))) as [Ev|Ev].
    + apply ival_inj in Ev as ->; [|done|apply W]. cbn in E. unfold base_update in E.
      rewrite item_eqb_val, Z.eqb_refl in E by apply W. by simplify_eq.
    + apply range_numbers_eq; [done|by rewrite Eb|apply Em; by intros ->|]. intros n.
      rewrite Hh, !andb_true_iff, elem_of_intersection, elem_of_numbers, <- (elem_of_range_numbers r n W).
      rewrite Z.leb_le, Z.ltb_lt. simpl. intuition.
  - destruct Hok as [Hb Hr]. eexists. split; [done|]. apply (range_reset_wf b 255); [done|done|lia].
  - destruct Hok as (Hb & Hr & Hm). eexists. split; [done|]. by apply range_reset_wf.
Qed.

(** C19: any sequence of additions, range additions, removals, moves of the base
    and resets on a well-formed range, in which nothing is removed from an empty
    range and the base of an empty range is not moved (the code writes outside of
    its array then), and in which bases stay a window below the largest number and
    move by less than [2^32] (the distance is computed in 32 bits), succeeds, never leaves the array of words, keeps the range
    well-formed and leaves the window and the finite set of numbers that the same
    operations on sets give.  The sets follow the code where its documentation
    differs: a limit of [max_bits] admits the number behind them too, and
    [add_range] heeds the 256 numbers of the window only. *)
Theorem range_run_refines r ops :
  range_wf r -> ops_ok (range_numbers r) ops ->
  exists r', range_run r ops = Some r' /\ range_wf r' /\
    range_numbers r' = fold_left spec_step ops (range_numbers r).
Proof.
  revert r. induction ops as [|op ops IH]; intros r W Hok; [by exists r|].
  destruct Hok as [Hop Hops]. destruct (range_step_refines r op W Hop) as (r1 & E & W1 & E1).
  cbn [range_run fold_left]. rewrite E. simpl. rewrite <- E1 in Hops |- *. by apply IH.
Qed.

(** What a program sees of a range is the set: [empty] is emptiness, [is_set]
    is membership, [for_each] visits the members in ascending order, and [min]
    and [max] are the least and the greatest member of a set that has one. *)
Theorem range_observed r :
  range_wf r ->
  range_empty r = bool_decide (ns_set (range_numbers r) = ∅) /\
  (forall x, iok x -> is_set r x = Some (bool_decide (ival x ∈ ns_set (range_numbers r)) && (ival x <=? ival (range_max_ r)))) /\
  StronglySorted Z.lt (ival <$> for_each r) /\
  (ns_set (range_numbers r) <> ∅ ->
     (forall n, n ∈ ns_set (range_numbers r) -> ival (range_min r) <= n <= ival (range_max r)) /\
     ival (range_min r) ∈ ns_set (range_numbers r) /\ ival (range_max r) ∈ ns_set (range_numbers r)).
Proof.
  intros W. split; [|split; [|split]].
  - destruct (range_empty r) eqn:E; symmetry.
    + apply bool_decide_eq_true_2. apply set_eq. intros n. rewrite elem_of_range_numbers by done.
      rewrite (proj1 (range_empty_spec r W) E). split; [done|by intros ?%elem_of_empty].
    + apply bool_decide_eq_false_2, range_numbers_empty; [done|]. pose proof (rw_num _ W). unfold range_empty in E. lia.
  - intros x Hx. rewrite is_set_spec by done. f_equal. f_equal. destruct (has r (ival x)) eqn:E; symmetry.
    + by apply bool_decide_eq_true_2, elem_of_range_numbers.
    + apply bool_decide_eq_false_2. rewrite elem_of_range_numbers by done. by rewrite E.
  - apply (for_each_spec r W).
  - intros Hne. apply range_numbers_empty in Hne; [|done].
    destruct (range_min_least r W Hne) as (_ & Hmin & Hlo), (range_max_greatest r W Hne) as (_ & Hmax & Hhi).
    split; [|by rewrite !elem_of_range_numbers].
    intros n Hn. apply elem_of_range_numbers in Hn; [|done]. split; [by apply Hlo|by apply Hhi].
Qed.

End Refinement.

(** ** Examples *)

Definition sample_range : BitmapRange SequenceNumber_t := range_new (SequenceNumber_of 100).

Definition sample_ops : list (range_op SequenceNumber_t) :=
  [OpAdd (SequenceNumber_of 101); OpAddRange (SequenceNumber_of 105) (SequenceNumber_of 200);
   OpRemove (SequenceNumber_of 150); OpMove (SequenceNumber_of 120); OpMove (SequenceNumber_of 60)].

Lemma sample_range_wf : range_wf sample_range.
Proof.
  apply (range_of_spec (SequenceNumber_of 100) 255); [apply sn_of_val; lia|by vm_compute|lia].
Qed.

Lemma sample_ops_ok : ops_ok (range_numbers sample_range) sample_ops.
Proof.
  assert (Hv : forall z, 0 <= z < 2 ^ 63 -> sn_valid (SequenceNumber_of z)) by (intros; by apply sn_of_val).
  assert (Hne : forall X : gset Z, bool_decide (X = ∅) = false -> X <> ∅) by (intros X H; by apply bool_decide_eq_false in H).
  cbn [sample_ops ops_ok op_ok]. repeat split;
    lazymatch goal with
    | |- _ <> ∅ => apply Hne; by vm_compute
    | |- 0 <= sn_val _ => by vm_compute
    | |- (_ < _)%Z => by vm_compute
    | |- (_ <= _)%Z => by vm_compute
    end.
Qed.

Lemma range_run_refines_witness :
  exists r', range_run sample_range sample_ops = Some r' /\ range_wf r' /\
    range_numbers r' = fold_left spec_step sample_ops (range_numbers sample_range).
Proof. exact (range_run_refines sample_range sample_ops sample_range_wf sample_ops_ok). Defined.

Lemma range_observed_witness : range_empty sample_range = bool_decide (ns_set (range_numbers sample_range) = ∅).
Proof. exact (proj1 (range_observed sample_range sample_range_wf)). Defined.

(** ** Outside of the specification *)

(** [remove] on an empty range of sequence numbers takes [max()] of it, which is
    [2^32 - 1] numbers after the base: a number that far is looked up outside of
    the array of words. *)
Lemma remove_from_empty :
  range_wf sample_range /\ range_empty sample_range = true /\
  range_remove sample_range (SequenceNumber_of 400) = None.
Proof. split; [apply sample_range_wf|]. split; reflexivity. Qed.

(** Moving the base of an empty range back makes [empty()] false. *)
Lemma move_empty_back :
  range_empty sample_range = true /\
  exists r', base_update sample_range (SequenceNumber_of 60) = Some r' /\ range_empty r' = false /\ for_each r' = [].
Proof. split; [done|]. eexists. split; [reflexivity|]. split; reflexivity. Qed.

(** [add_range] adds numbers that [add] refuses. *)
Lemma add_range_beyond_limit :
  let r := range_of (SequenceNumber_of 100) 10 in
  range_add r (SequenceNumber_of 120) = Some (false, r) /\
  exists r', add_range r (SequenceNumber_of 120) (SequenceNumber_of 121) = Some r' /\
    for_each r' = [SequenceNumber_of 120].
Proof. split; [reflexivity|]. eexists. split; reflexivity. Qed.
