(* ===== verification/TimedEvent.v ===== *)
(** * Timed events

    Models [TimedEventImpl] ([Fast-DDS/src/cpp/rtps/resources/TimedEventImpl.cpp]
    and [.h]): the state machine of one timer.  Times and intervals are whole
    microseconds.  A callback is a function of the timer's own state, since it
    can restart, cancel or re-time the timer it runs for. *)

From S2P Require Import Prelude.

Inductive TimerState := INACTIVE | READY | WAITING.

#[export] Instance TimerState_eq_dec : EqDecision TimerState.
Proof. solve_decision. Defined.

Record TimedEvent := mkTimer {
  interval_microsec_ : Z;
  next_trigger_time_ : Z;
  timer_state_ : TimerState
}.

Definition timer_new (interval now : Z) : TimedEvent := mkTimer interval now INACTIVE.

Definition set_timer_state (t : TimedEvent) (s : TimerState) : TimedEvent :=
  mkTimer (interval_microsec_ t) (next_trigger_time_ t) s.
Definition set_trigger_time (t : TimedEvent) (time : Z) : TimedEvent :=
  mkTimer (interval_microsec_ t) time (timer_state_ t).

(** The boolean is what the service is told: whether it has to look at the timer. *)
Definition go_ready (t : TimedEvent) : bool * TimedEvent :=
  match timer_state_ t with
  | INACTIVE => (true, set_timer_state t READY)
  | _ => (false, t)
  end.

Definition go_cancel (t : TimedEvent) : bool * TimedEvent :=
  (negb (bool_decide (timer_state_ t = INACTIVE)), set_timer_state t INACTIVE).

Definition timer_update (t : TimedEvent) (current_time cancel_time : Z) : bool * TimedEvent :=
  match timer_state_ t with
  | READY => (true, set_trigger_time (set_timer_state t WAITING) (current_time + interval_microsec_ t))
  | INACTIVE => (false, set_trigger_time t cancel_time)
  | WAITING => (true, t)
  end.

(** The first component is whether the callback ran. *)
Definition trigger (callback : TimedEvent -> bool * TimedEvent) (t : TimedEvent) (current_time cancel_time : Z)
  : bool * TimedEvent :=
  match timer_state_ t with
  | WAITING =>
      let '(restart, t) := callback (set_timer_state t INACTIVE) in
      if restart && bool_decide (timer_state_ t = INACTIVE)
      then (true, set_trigger_time (set_timer_state t WAITING) (current_time + interval_microsec_ t))
      else (true, set_trigger_time t cancel_time)
  | _ => (false, set_trigger_time t cancel_time)
  end.

Definition update_interval (t : TimedEvent) (microseconds : Z) : TimedEvent :=
  mkTimer microseconds (next_trigger_time_ t) (timer_state_ t).
Definition update_interval_millisec (t : TimedEvent) (milliseconds : Z) : TimedEvent :=
  mkTimer (milliseconds * 1000) (next_trigger_time_ t) (timer_state_ t).

(** [duration_cast<milliseconds>] rounds towards zero. *)
Definition getIntervalMsec (t : TimedEvent) : Z := Z.quot (interval_microsec_ t) 1000.

(** [TimedEvent::restart_timer], [cancel_timer] and [recreate_timer]: the part
    that changes the timer. *)
Definition restart_timer (t : TimedEvent) : TimedEvent := snd (go_ready t).
Definition cancel_timer (t : TimedEvent) : TimedEvent := snd (go_cancel t).
Definition recreate_timer (t : TimedEvent) : TimedEvent := snd (go_cancel t).

(** ** The service's thread *)

(** The service looks at a notified timer with [update] and runs one whose time
    has come with [trigger]; clients restart and cancel in between. *)
Inductive timer_op :=
  | TRestart
  | TCancel
  | TUpdate (now : Z)
  | TTrigger (now : Z).

Section Runs.
Context (callback : TimedEvent -> bool * TimedEvent) (cancel_time : Z).

Definition timer_step (t : TimedEvent) (op : timer_op) : bool * TimedEvent :=
  match op with
  | TRestart => (false, restart_timer t)
  | TCancel => (false, cancel_timer t)
  | TUpdate now => (false, snd (timer_update t now cancel_time))
  | TTrigger now => trigger callback t now cancel_time
  end.

(** The number of times the callback runs. *)
Fixpoint timer_fires (t : TimedEvent) (ops : list timer_op) : nat :=
  match ops with
  | [] => 0
  | op :: ops => let '(ran, t) := timer_step t op in (if ran then 1 else 0) + timer_fires t ops
  end.

(** A timer that is not restarted stays still. *)
Lemma inactive_never_fires t ops :
  timer_state_ t = INACTIVE -> TRestart ∉ ops -> timer_fires t ops = 0%nat.
Proof.
  revert t. induction ops as [|op ops IH]; intros t Ht Hn; [done|].
  apply not_elem_of_cons in Hn as [Hop Hn]. cbn [timer_fires].
  destruct op; [done| | |]; cbn [timer_step]; unfold trigger, timer_update; try rewrite Ht; by apply IH.
Qed.

(** A restart between two runs of the callback is enough for the second. *)
Lemma fires_after_restart t now1 now2 :
  timer_state_ t = INACTIVE -> timer_fires t [TRestart; TUpdate now1; TTrigger now2] = 1%nat.
Proof.
  intros Ht. destruct t as [i n s]. simpl in Ht. subst s. cbn. unfold trigger. simpl.
  destruct (callback _) as [b t']. by destruct (b && _).
Qed.

End Runs.
