(* ===== verification/WriterProxy.v ===== *)
(** * The proxy of a writer in a reader

    Models [WriterProxy] ([Fast-DDS/src/cpp/rtps/reader/WriterProxy.cpp] and
    [.h]): what a reliable reader knows of the changes of one writer.  The numbers
    up to the low mark are known; beyond it the set of the numbers received is
    kept.  The reader's mutex protects every operation, so an operation is one
    step; the two timers' callbacks are the operations [perform_initial_ack_nack]
    and [perform_heartbeat_response], whose state changes around the body are
    steps of their own because [stop] can come in between.

    Identifiers, locators and QoS values of the remote writer are not modelled. *)

From Stdlib Require Import Sorted.
From S2P Require Import Prelude SequenceNumber BitmapRange TimedEvent.

(** ** [std::set<SequenceNumber_t>] *)

Fixpoint set_insert (x : SequenceNumber_t) (l : list SequenceNumber_t) : list SequenceNumber_t :=
  match l with
  | [] => [x]
  | y :: l' => if sn_ltb x y then x :: l else if sn_ltb y x then y :: set_insert x l' else l
  end.

Definition set_find (x : SequenceNumber_t) (l : list SequenceNumber_t) : bool :=
  existsb (fun y => negb (sn_ltb x y) && negb (sn_ltb y x)) l.

(** The elements before [std::lower_bound], and those from it on. *)
Fixpoint lower_bound (x : SequenceNumber_t) (l : list SequenceNumber_t) : list SequenceNumber_t * list SequenceNumber_t :=
  match l with
  | [] => ([], [])
  | y :: l' => if sn_ltb y x then let '(a, b) := lower_bound x l' in (y :: a, b) else ([], l)
  end.

(** ** The state *)

Inductive StateCode := IDLE | BUSY | STOPPED.

#[export] Instance StateCode_eq_dec : EqDecision StateCode.
Proof. solve_decision. Defined.

Record WriterProxy := mkWP {
  changes_received_ : list SequenceNumber_t;
  changes_from_writer_low_mark_ : SequenceNumber_t;
  max_sequence_number_ : SequenceNumber_t;
  last_notified_ : SequenceNumber_t;
  last_heartbeat_count_ : Z;
  heartbeat_final_flag_ : bool;
  is_alive_ : bool;
  is_on_same_process_ : bool;
  is_datasharing_writer_ : bool;
  received_at_least_one_heartbeat_ : bool;
  state_ : StateCode;
  heartbeat_response_ : TimedEvent;
  initial_acknack_ : TimedEvent
}.

Implicit Types w : WriterProxy.
Implicit Types s : SequenceNumber_t.

(** The four numbers change together; the rest is kept. *)
Definition set_numbers w received low max notified : WriterProxy :=
  mkWP received low max notified (last_heartbeat_count_ w) (heartbeat_final_flag_ w) (is_alive_ w)
    (is_on_same_process_ w) (is_datasharing_writer_ w) (received_at_least_one_heartbeat_ w) (state_ w)
    (heartbeat_response_ w) (initial_acknack_ w).
Definition set_timers w hr ia : WriterProxy :=
  mkWP (changes_received_ w) (changes_from_writer_low_mark_ w) (max_sequence_number_ w) (last_notified_ w)
    (last_heartbeat_count_ w) (heartbeat_final_flag_ w) (is_alive_ w)
    (is_on_same_process_ w) (is_datasharing_writer_ w) (received_at_least_one_heartbeat_ w) (state_ w) hr ia.
Definition set_state_code w st : WriterProxy :=
  mkWP (changes_received_ w) (changes_from_writer_low_mark_ w) (max_sequence_number_ w) (last_notified_ w)
    (last_heartbeat_count_ w) (heartbeat_final_flag_ w) (is_alive_ w)
    (is_on_same_process_ w) (is_datasharing_writer_ w) (received_at_least_one_heartbeat_ w) st
    (heartbeat_response_ w) (initial_acknack_ w).
Definition set_heartbeat w count final : WriterProxy :=
  mkWP (changes_received_ w) (changes_from_writer_low_mark_ w) (max_sequence_number_ w) (last_notified_ w)
    count final (is_alive_ w) (is_on_same_process_ w) (is_datasharing_writer_ w)
    (received_at_least_one_heartbeat_ w) (state_ w) (heartbeat_response_ w) (initial_acknack_ w).
Definition set_heartbeat_seen w : WriterProxy :=
  mkWP (changes_received_ w) (changes_from_writer_low_mark_ w) (max_sequence_number_ w) (last_notified_ w)
    (last_heartbeat_count_ w) (heartbeat_final_flag_ w) (is_alive_ w) (is_on_same_process_ w)
    (is_datasharing_writer_ w) true (state_ w) (heartbeat_response_ w) (initial_acknack_ w).
(** What [start] and [clear] set. *)
Definition set_flags w alive same_process datasharing seen : WriterProxy :=
  mkWP (changes_received_ w) (changes_from_writer_low_mark_ w) (max_sequence_number_ w) (last_notified_ w)
    (last_heartbeat_count_ w) (heartbeat_final_flag_ w) alive same_process datasharing seen (state_ w)
    (heartbeat_response_ w) (initial_acknack_ w).

(** ** Operations *)

Definition loaded_from_storage w s : WriterProxy := set_numbers w (changes_received_ w) s s s.

Definition clear w : WriterProxy :=
  let w := set_flags w false (is_on_same_process_ w) (is_datasharing_writer_ w) (received_at_least_one_heartbeat_ w) in
  let w := set_heartbeat w 0 false in
  let w := set_numbers w [] (changes_from_writer_low_mark_ w) (max_sequence_number_ w) (last_notified_ w) in
  let w := set_flags w (is_alive_ w) false (is_datasharing_writer_ w) (received_at_least_one_heartbeat_ w) in
  loaded_from_storage w (mkSN 0 0).

(** The constructor; [now] is the time the timers are made. *)
Definition WriterProxy_new (now : Z) : WriterProxy :=
  clear (mkWP [] (mkSN 0 0) (mkSN 0 0) (mkSN 0 0) 0 false false false false false STOPPED
           (timer_new 0 now) (timer_new 0 now)).

(** [start]: the reader's two delays and whether the writer is in this process
    are arguments. *)
Definition start w (response_delay acknack_delay : Z) (same_process : bool) s (is_datasharing : bool) : WriterProxy :=
  let w := set_timers w (update_interval (heartbeat_response_ w) response_delay)
             (update_interval (initial_acknack_ w) acknack_delay) in
  let w := set_flags w true same_process is_datasharing (received_at_least_one_heartbeat_ w) in
  let w := set_state_code w IDLE in
  let w := set_timers w (heartbeat_response_ w) (restart_timer (initial_acknack_ w)) in
  let w := loaded_from_storage w s in
  set_flags w (is_alive_ w) (is_on_same_process_ w) (is_datasharing_writer_ w) false.

Definition stop w : WriterProxy :=
  let prev := state_ w in
  let w := set_state_code w STOPPED in
  let ia := match prev with
            | BUSY => recreate_timer (initial_acknack_ w)
            | _ => cancel_timer (initial_acknack_ w)
            end in
  clear (set_timers w (cancel_timer (heartbeat_response_ w)) ia).

Definition missing_changes_update w s : WriterProxy :=
  if sn_gtb s (changes_from_writer_low_mark_ w) then
    if sn_gtb s (max_sequence_number_ w)
    then set_numbers w (changes_received_ w) (changes_from_writer_low_mark_ w) s (last_notified_ w)
    else w
  else w.

(** The loop of [cleanup] over the set, its first element first. *)
Fixpoint cleanup_loop (low : SequenceNumber_t) (l : list SequenceNumber_t) : SequenceNumber_t * list SequenceNumber_t :=
  match l with
  | y :: l' => if sn_eqb y (sn_add low 1) then cleanup_loop (sn_incr low) l' else (low, l)
  | [] => (low, [])
  end.

Definition cleanup w : WriterProxy :=
  let '(low, l) := cleanup_loop (changes_from_writer_low_mark_ w) (changes_received_ w) in
  set_numbers w l low (max_sequence_number_ w) (last_notified_ w).

Definition INT32_MAX : Z := 2 ^ 31 - 1.
Definition to_int32_max (tmp : Z) : Z := if tmp >? INT32_MAX then INT32_MAX else tmp.

(** [lost_changes_update]: the number of samples lost, and the proxy. *)
Definition lost_changes_update w s : Z * WriterProxy :=
  let low := changes_from_writer_low_mark_ w in
  if sn_gtb s (sn_add low 1) then
    let '(before, rest) := lower_bound s (changes_received_ w) in
    let lost :=
      match changes_received_ w with
      | first :: _ =>
          let tmp := u64 (to64long first - u64 (to64long low + 1)) in
          let distance := zlen before in
          to_int32_max (u64 (tmp + u64 (u64 (to64long s - to64long first) - distance)))
      | [] => to_int32_max (u64 (to64long s - u64 (to64long low + 1)))
      end in
    let low := sn_sub_u32 s 1 in
    let max := if sn_gtb low (max_sequence_number_ w) then low else max_sequence_number_ w in
    (lost, cleanup (set_numbers w rest low max (last_notified_ w)))
  else (0, w).

Definition received_change_set w s : bool * WriterProxy :=
  let low := changes_from_writer_low_mark_ w in
  if sn_leb s low then (false, w)
  else if sn_gtb s (max_sequence_number_ w) then
    if sn_eqb s (sn_add low 1)
    then (true, set_numbers w (changes_received_ w) s s (last_notified_ w))
    else (true, set_numbers w (set_insert s (changes_received_ w)) low s (last_notified_ w))
  else if sn_eqb (sn_add low 1) s
  then (true, cleanup (set_numbers w (changes_received_ w) s (max_sequence_number_ w) (last_notified_ w)))
  else if set_find s (changes_received_ w) then (false, w)
  else (true, set_numbers w (set_insert s (changes_received_ w)) low (max_sequence_number_ w) (last_notified_ w)).

Definition irrelevant_change_set w s : bool * WriterProxy := received_change_set w s.

(** The loop of [missing_changes] over the set; the first number not handled
    and the set of missing numbers. *)
Fixpoint missing_loop (max_missing first_missing : SequenceNumber_t) (sns : BitmapRange SequenceNumber_t)
    (l : list SequenceNumber_t) : option (SequenceNumber_t * BitmapRange SequenceNumber_t) :=
  match l with
  | [] => Some (first_missing, sns)
  | y :: l' =>
      let seq := sn_min y max_missing in
      sns ← add_range sns first_missing seq;
      let first_missing := sn_add seq 1 in
      if sn_geb first_missing max_missing then Some (first_missing, sns)
      else missing_loop max_missing first_missing sns l'
  end.

Definition missing_changes w : option (BitmapRange SequenceNumber_t) :=
  let first_missing := sn_add (changes_from_writer_low_mark_ w) 1 in
  let max_missing := sn_min (sn_add first_missing 256) (sn_add (max_sequence_number_ w) 1) in
  '(first_missing, sns) ← missing_loop max_missing first_missing (range_new first_missing) (changes_received_ w);
  if sn_ltb first_missing max_missing then add_range sns first_missing max_missing else Some sns.

Definition change_was_received w s : bool :=
  if sn_leb s (changes_from_writer_low_mark_ w) then true else set_find s (changes_received_ w).

Definition available_changes_max w : SequenceNumber_t := changes_from_writer_low_mark_ w.

Definition are_there_missing_changes w : bool := sn_ltb (changes_from_writer_low_mark_ w) (max_sequence_number_ w).

Fixpoint unknown_loop (seq_num first_missing : SequenceNumber_t) (n : Z) (l : list SequenceNumber_t)
  : SequenceNumber_t * Z :=
  match l with
  | [] => (first_missing, n)
  | y :: l' =>
      let seq := sn_min y seq_num in
      let n := if sn_ltb first_missing seq then u32 (n + SequenceNumberDiff seq first_missing) else n in
      let first_missing := sn_add seq 1 in
      if sn_geb first_missing seq_num then (first_missing, n) else unknown_loop seq_num first_missing n l'
  end.

Definition unknown_missing_changes_up_to w s : Z :=
  let low := changes_from_writer_low_mark_ w in
  if sn_gtb s low then
    let '(first_missing, n) := unknown_loop s (sn_add low 1) 0 (changes_received_ w) in
    if sn_ltb first_missing s then u32 (n + SequenceNumberDiff s first_missing) else n
  else 0.

Definition number_of_changes_from_writer w : Z :=
  if sn_gtb (max_sequence_number_ w) (changes_from_writer_low_mark_ w)
  then SequenceNumberDiff (max_sequence_number_ w) (changes_from_writer_low_mark_ w) else 0.

Definition next_cache_change_to_be_notified w : SequenceNumber_t * WriterProxy :=
  if sn_ltb (last_notified_ w) (changes_from_writer_low_mark_ w) then
    let n := sn_incr (last_notified_ w) in
    (n, set_numbers w (changes_received_ w) (changes_from_writer_low_mark_ w) (max_sequence_number_ w) n)
  else (sn_unknown, w).

(** *** The events of the timers *)

(** What a proxy asks of its reader and of a writer in the same process. *)
Inductive wp_message :=
  | InitialAckNack            (** [send_acknack] with an empty set based at 0, not final *)
  | LocalAckNack              (** [process_acknack] of the writer in this process *)
  | HeartbeatResponse (final : bool).  (** [send_acknack] for the missing changes *)

(** The exchange a callback starts with: [None] when another thread stopped the
    proxy. *)
Definition event_begin w : option WriterProxy :=
  match state_ w with IDLE => Some (set_state_code w BUSY) | _ => None end.

(** The exchange a callback ends with: it leaves a proxy stopped meanwhile as it is. *)
Definition event_end w : WriterProxy :=
  match state_ w with BUSY => set_state_code w IDLE | _ => w end.

Definition initial_ack_nack_body w (local_writer : bool) : bool * list wp_message * WriterProxy :=
  if is_datasharing_writer_ w then (false, [], w)
  else if is_on_same_process_ w then (false, if local_writer then [LocalAckNack] else [], w)
  else if last_heartbeat_count_ w =? 0 then
    let time_ms := getIntervalMsec (initial_acknack_ w) in
    if time_ms <? 60 * 60 * 1000
    then (true, [InitialAckNack],
          set_timers w (heartbeat_response_ w) (update_interval_millisec (initial_acknack_ w) (time_ms * 2)))
    else (false, [InitialAckNack], w)
  else (false, [], w).

Definition perform_initial_ack_nack w (local_writer : bool) : bool * list wp_message * WriterProxy :=
  match event_begin w with
  | None => (false, [], w)
  | Some w => let '(ret, out, w) := initial_ack_nack_body w local_writer in (ret, out, event_end w)
  end.

Definition perform_heartbeat_response w : list wp_message * WriterProxy :=
  match event_begin w with
  | None => ([], w)
  | Some w => ([HeartbeatResponse (heartbeat_final_flag_ w)], event_end w)
  end.

(** [process_heartbeat]: whether the message was processed, whether liveliness has
    to be asserted, the number of samples lost ([None] when the reference
    argument is not assigned). *)
Definition process_heartbeat w (count : Z) first_seq last_seq (final_flag liveliness_flag disable_positive : bool)
  : bool * bool * option Z * WriterProxy :=
  if negb (bool_decide (state_ w = STOPPED)) && (last_heartbeat_count_ w <? count) then
    let w := set_heartbeat w count (heartbeat_final_flag_ w) in
    let '(lost, w) := lost_changes_update w first_seq in
    let w := missing_changes_update w last_seq in
    let w := set_heartbeat w (last_heartbeat_count_ w) final_flag in
    let respond w := set_timers w (restart_timer (heartbeat_response_ w)) (initial_acknack_ w) in
    let '(assert_liveliness, w) :=
      if negb (is_on_same_process_ w) then
        if negb final_flag then
          if negb disable_positive || are_there_missing_changes w then (false, respond w) else (false, w)
        else if final_flag && negb liveliness_flag then
          if are_there_missing_changes w then (false, respond w) else (false, w)
        else (liveliness_flag, w)
      else (liveliness_flag, w) in
    if negb (received_at_least_one_heartbeat_ w)
    then (true, assert_liveliness, Some 0, set_heartbeat_seen w)
    else (true, assert_liveliness, Some lost, w)
  else (false, false, None, w).
