(* ===== verification/WriterProxyInv.v ===== *)
(** * The invariant of the writer proxy

    The set of numbers the proxy knows, the invariant of its representation (the
    low mark is the end of the known prefix, what is beyond is sorted and between
    the low mark and the largest number announced) and what each operation of
    [WriterProxy.cpp] does to the set. *)

From Stdlib Require Import Sorted.
From S2P Require Import Prelude SequenceNumber BitmapRange TimedEvent WriterProxy.

Implicit Types (w : WriterProxy) (s : SequenceNumber_t) (l : list SequenceNumber_t).

(** A number with room for the window of an acknowledgement behind it. *)
Definition usable s : Prop := sn_valid s /\ sn_val s + 258 < 2 ^ 63.

Notation vals l := (sn_val <$> l).
Definition ascending l : Prop := StronglySorted Z.lt (vals l).

(** What is known: the prefix up to the low mark and the numbers received. *)
Definition knows (low : SequenceNumber_t) l (n : Z) : Prop := n <= sn_val low \/ n ∈ vals l.
Definition known w (n : Z) : Prop := knows (changes_from_writer_low_mark_ w) (changes_received_ w) n.

#[export] Instance known_dec w n : Decision (known w n).
Proof. unfold known, knows. apply _. Defined.

Record wp_inv w : Prop := mkWpInv {
  wi_low : usable (changes_from_writer_low_mark_ w);
  wi_max : usable (max_sequence_number_ w);
  wi_last : sn_valid (last_notified_ w);
  wi_received : Forall usable (changes_received_ w);
  wi_sorted : ascending (changes_received_ w);
  wi_range : Forall (fun s => sn_val (changes_from_writer_low_mark_ w) + 1 < sn_val s <= sn_val (max_sequence_number_ w))
               (changes_received_ w);
  wi_order : sn_val (changes_from_writer_low_mark_ w) <= sn_val (max_sequence_number_ w);
  wi_notified : sn_val (last_notified_ w) <= sn_val (changes_from_writer_low_mark_ w)
}.

Lemma usable_valid s : usable s -> sn_valid s.
Proof. by intros []. Qed.
Lemma usable_ok s : usable s -> sn_ok s.
Proof. by intros [[]]. Qed.
#[export] Hint Resolve usable_valid usable_ok : core.

Lemma usable_range s : usable s -> 0 <= sn_val s < 2 ^ 63 - 258.
Proof. intros [[? ?] ?]. lia. Qed.

Lemma usable_next s : usable s -> sn_valid (sn_add s 1) /\ sn_val (sn_add s 1) = sn_val s + 1.
Proof. intros [Hv Hr]. apply sn_add_val; [done|lia|lia]. Qed.

(** Comparisons of valid numbers are those of their values. *)
Ltac sn_vals := rewrite ?sn_ltb_val, ?sn_gtb_val, ?sn_leb_val, ?sn_geb_val, ?sn_eqb_val by auto.

Lemma elem_of_vals l s : s ∈ l -> sn_val s ∈ vals l.
Proof. intros H. by apply list_elem_of_fmap_2. Qed.

(** ** Sorted sets *)

Lemma ascending_cons y l : ascending (y :: l) <-> ascending l /\ forall n, n ∈ vals l -> sn_val y < n.
Proof.
  unfold ascending. simpl. split.
  - intros H. inversion H; subst. split; [done|]. by apply list.Forall_forall.
  - intros [H1 H2]. constructor; [done|]. by apply list.Forall_forall.
Qed.

Lemma set_insert_spec (P : SequenceNumber_t -> Prop) x l :
  (forall s, P s -> sn_ok s) -> P x -> Forall P l -> ascending l ->
  Forall P (set_insert x l) /\ ascending (set_insert x l) /\
  forall n, n ∈ vals (set_insert x l) <-> n = sn_val x \/ n ∈ vals l.
Proof.
  intros HP Hx Hl. induction Hl as [|y l Hy Hl IH]; intros Hs; simpl.
  - split; [by repeat constructor|]. split; [repeat constructor|]. intros n. rewrite list_elem_of_singleton.
    split; [by left|by intros [?|?%elem_of_nil]].
  - apply ascending_cons in Hs as [Hs Hlt]. rewrite !sn_ltb_val by auto.
    destruct (Z.ltb_spec (sn_val x) (sn_val y)) as [Hxy|Hxy].
    + split; [by repeat constructor|]. split; [|intros n; simpl; by rewrite elem_of_cons].
      apply ascending_cons. split; [by apply ascending_cons|]. intros n Hn. simpl in Hn.
      apply elem_of_cons in Hn as [->|Hn]; [done|]. specialize (Hlt _ Hn). lia.
    + destruct (Z.ltb_spec (sn_val y) (sn_val x)) as [Hyx|Hyx].
      * destruct (IH Hs) as (HF & HS & HM). split; [by constructor|]. split.
        -- apply ascending_cons. split; [done|]. intros n [->|Hn]%HM; [done|by apply Hlt].
        -- intros n. simpl. rewrite !elem_of_cons, HM. tauto.
      * split; [by constructor|]. split; [by apply ascending_cons|]. intros n. simpl. rewrite elem_of_cons.
        split; [tauto|]. intros [->|[->|?]]; [left; lia|by left|by right].
Qed.

Lemma set_find_spec x l : sn_ok x -> Forall sn_ok l -> set_find x l = true <-> sn_val x ∈ vals l.
Proof.
  intros Hx Hl. induction Hl as [|y l Hy Hl IH]; simpl; [split; [done|by intros ?%elem_of_nil]|].
  rewrite orb_true_iff, elem_of_cons. fold (set_find x l). rewrite IH, !sn_ltb_val by done.
  split; (intros [H|H]; [left; lia|by right]).
Qed.

Lemma lower_bound_spec x l : sn_ok x -> Forall sn_ok l -> ascending l ->
  l = (lower_bound x l).1 ++ (lower_bound x l).2 /\
  Forall (fun y => sn_val y < sn_val x) (lower_bound x l).1 /\ Forall (fun y => sn_val x <= sn_val y) (lower_bound x l).2.
Proof.
  intros Hx Hl. induction Hl as [|y l Hy Hl IH]; intros Hs; [done|].
  apply ascending_cons in Hs as [Hs Hlt]. cbn [lower_bound]. rewrite sn_ltb_val by done.
  destruct (Z.ltb_spec (sn_val y) (sn_val x)) as [H|H].
  - destruct (IH Hs) as (E & Ha & Hb). destruct (lower_bound x l) as [a b]. simpl in *. subst l. by repeat constructor.
  - simpl. split; [done|]. split; [done|]. constructor; [done|]. apply list.Forall_forall. intros z Hz.
    specialize (Hlt _ (elem_of_vals _ _ Hz)). lia.
Qed.

Lemma ascending_app a b : ascending (a ++ b) -> ascending a /\ ascending b.
Proof.
  induction a as [|y a IH]; [by split; [constructor|]|]. intros H.
  change (ascending (y :: (a ++ b))) in H. apply ascending_cons in H as [H Hlt]. destruct (IH H) as [Ha Hb].
  split; [|done]. apply ascending_cons. split; [done|]. intros n Hn. apply Hlt. rewrite fmap_app. apply elem_of_app. by left.
Qed.

(** The loop of [cleanup] moves the low mark to the end of the known prefix. *)
Lemma cleanup_loop_spec low l :
  usable low -> Forall usable l -> ascending l -> Forall (fun y => sn_val low < sn_val y) l ->
  let '(low', l') := cleanup_loop low l in
  usable low' /\ Forall usable l' /\ ascending l' /\ Forall (fun y => sn_val low' + 1 < sn_val y) l' /\
  sn_val low <= sn_val low' /\ (low' = low \/ sn_val low' ∈ vals l) /\ (forall n, n ∈ vals l' -> n ∈ vals l) /\
  forall n, knows low' l' n <-> knows low l n.
Proof.
  revert low. induction l as [|y l IH]; intros low Hlow Hl Hs Hgt.
  { simpl. repeat (split; [done || lia || (by left) || constructor|]). done. }
  apply list.Forall_cons in Hl as [Hy Hl]. apply ascending_cons in Hs as [Hs Hlt]. apply list.Forall_cons in Hgt as [Hgy Hgt].
  destruct (usable_next low Hlow) as [Hnv Hnext]. cbn [cleanup_loop]. rewrite sn_eqb_val, Hnext by auto.
  destruct (Z.eqb_spec (sn_val y) (sn_val low + 1)) as [E|E].
  - destruct (sn_incr_val low) as [Hiv Hi]; [auto|destruct Hlow; lia|].
    assert (Eincr : sn_incr low = y) by (apply sn_val_inj; auto; lia).
    rewrite Eincr. specialize (IH y Hy Hl Hs). destruct (cleanup_loop y l) as [low' l'].
    destruct IH as (H1 & H2 & H3 & H4 & H5 & H6 & H7 & H8).
    { apply list.Forall_forall. intros z Hz. apply Hlt. by apply elem_of_vals. }
    split; [done|]. split; [done|]. split; [done|]. split; [done|]. split; [lia|]. split; [|split].
    + right. simpl. apply elem_of_cons. destruct H6 as [->|?]; auto.
    + intros n Hn. simpl. apply elem_of_cons. right. by apply H7.
    + intros n. rewrite H8. unfold knows. simpl. rewrite elem_of_cons, E. split; [|intuition lia].
      intros [Hn|Hn]; [|by right; right]. destruct (Z.eq_dec n (sn_val low + 1)); [by right; left|left; lia].
  - split; [done|]. split; [by constructor|]. split; [by apply ascending_cons|]. split; [|repeat (split; [done || lia || (by left)|]); done].
    constructor; [lia|]. apply list.Forall_forall. intros z Hz. specialize (Hlt _ (elem_of_vals _ _ Hz)). lia.
Qed.

(** ** Counting *)

Lemma u64_small x : 0 <= x < 2 ^ 64 -> u64 x = x.
Proof. intros. by apply Z.mod_small. Qed.
Lemma u64_add_l x y : u64 (u64 x + y) = u64 (x + y).
Proof. apply Zplus_mod_idemp_l. Qed.
Lemma u64_add_r x y : u64 (x + u64 y) = u64 (x + y).
Proof. apply Zplus_mod_idemp_r. Qed.
Lemma u64_sub_l x y : u64 (u64 x - y) = u64 (x - y).
Proof. apply Zminus_mod_idemp_l. Qed.
Lemma u64_sub_r x y : u64 (x - u64 y) = u64 (x - y).
Proof. apply Zminus_mod_idemp_r. Qed.

Lemma to_int32_max_min x : to_int32_max x = Z.min x INT32_MAX.
Proof. unfold to_int32_max. destruct (Z.gtb_spec x INT32_MAX); lia. Qed.

(** The numbers below [s] that are not known, ascending. *)
Definition unknown_below w s : list Z :=
  filter (fun n => ~ known w n)
    (seqZ (sn_val (changes_from_writer_low_mark_ w) + 1) (sn_val s - sn_val (changes_from_writer_low_mark_ w) - 1)).

Lemma length_filter_not (P : Z -> Prop) (dP : forall x, Decision (P x)) (l : list Z) :
  (length (filter P l) + length (filter (fun x => ~ P x) l) = length l)%nat.
Proof.
  induction l as [|x l IH]; [done|]. rewrite !filter_cons. destruct (decide (P x)), (decide (~ P x)); simpl; lia || tauto.
Qed.

Lemma ascending_NoDup l : ascending l -> NoDup (vals l).
Proof.
  induction l as [|y l IH]; intros Hs; [constructor|]. apply ascending_cons in Hs as [Hs Hlt]. simpl. constructor; [|auto].
  intros Hy. specialize (Hlt _ Hy). lia.
Qed.

(** Of [n] numbers from [b] on, all but those of a set. *)
Lemma count_outside l b n :
  ascending l -> 0 <= n -> (forall x, x ∈ vals l -> b <= x < b + n) ->
  Z.of_nat (length (filter (fun x => x ∉ vals l) (seqZ b n))) = n - Z.of_nat (length l).
Proof.
  intros Hs Hn Hin. pose proof (length_filter_not (fun x => x ∈ vals l) _ (seqZ b n)) as H.
  rewrite length_seqZ in H. assert (Hp : filter (fun x => x ∈ vals l) (seqZ b n) ≡ₚ vals l).
  { apply NoDup_Permutation; [apply list.NoDup_filter, NoDup_seqZ|by apply ascending_NoDup|].
    intros x. rewrite list_elem_of_filter, elem_of_seqZ. split; [by intros []|]. intros Hx. split; [done|]. by apply Hin. }
  apply Permutation_length in Hp. rewrite length_fmap in Hp. lia.
Qed.

Lemma filter_same (P Q : Z -> Prop) (dP : forall x, Decision (P x)) (dQ : forall x, Decision (Q x)) (l : list Z) :
  (forall x, x ∈ l -> P x <-> Q x) -> filter P l = filter Q l.
Proof.
  induction l as [|x l IH]; intros HPQ; [done|]. rewrite !filter_cons.
  assert (Hx : P x <-> Q x) by (apply HPQ; by left). rewrite IH by (intros; apply HPQ; by right).
  destruct (decide (P x)), (decide (Q x)); tauto || done.
Qed.

Lemma length_unknown_below w s :
  wp_inv w -> usable s -> sn_val (changes_from_writer_low_mark_ w) < sn_val s ->
  Z.of_nat (length (unknown_below w s)) =
  sn_val s - sn_val (changes_from_writer_low_mark_ w) - 1 - zlen (lower_bound s (changes_received_ w)).1.
Proof.
  intros W Hs Hlt. destruct (lower_bound_spec s (changes_received_ w)) as (E & Ha & Hb);
    [auto|eapply list.Forall_impl; [exact (wi_received _ W)|auto]|apply W|].
  destruct (lower_bound s (changes_received_ w)) as [a b]. simpl in *. unfold zlen, unknown_below.
  set (low := sn_val (changes_from_writer_low_mark_ w)) in *. pose proof (wi_range _ W) as Hr. fold low in Hr.
  pose proof (wi_sorted _ W) as Hsort. rewrite E in Hr, Hsort. apply Forall_app in Hr as [Hra _].
  apply ascending_app in Hsort as [Hsa _].
  rewrite <- (count_outside a (low + 1) (sn_val s - low - 1) Hsa); [|lia|].
  - f_equal. f_equal. apply filter_same. intros x [Hx1 Hx2]%elem_of_seqZ. unfold known, knows. fold low.
    rewrite E, fmap_app, elem_of_app. split; [tauto|]. intros Hna [?|[?|Hxb]]; [lia|done|].
    apply list_elem_of_fmap in Hxb as (y & -> & Hy). rewrite list.Forall_forall in Hb. specialize (Hb _ Hy). lia.
  - intros x Hx. apply list_elem_of_fmap in Hx as (y & -> & Hy). rewrite list.Forall_forall in Ha, Hra.
    specialize (Ha _ Hy). specialize (Hra _ Hy). simpl in *. lia.
Qed.

(** ** Operations and the invariant *)

(** Only the numbers change. *)
Definition same_rest w w' : Prop :=
  w' = set_numbers w (changes_received_ w') (changes_from_writer_low_mark_ w') (max_sequence_number_ w') (last_notified_ w').

Lemma same_rest_refl w : same_rest w w.
Proof. by destruct w. Qed.
Lemma same_rest_set w a b c d : same_rest w (set_numbers w a b c d).
Proof. done. Qed.
#[export] Hint Resolve same_rest_refl same_rest_set : core.

(** The invariant before [cleanup]: the next number may be there. *)
Lemma cleanup_spec w l low max last :
  usable low -> usable max -> sn_valid last -> Forall usable l -> ascending l ->
  Forall (fun s => sn_val low < sn_val s <= sn_val max) l -> sn_val low <= sn_val max -> sn_val last <= sn_val low ->
  let w' := cleanup (set_numbers w l low max last) in
  wp_inv w' /\ same_rest w w' /\ last_notified_ w' = last /\ max_sequence_number_ w' = max /\
  forall n, known w' n <-> knows low l n.
Proof.
  intros Hlow Hmax Hlast Hl Hs Hr Ho Hn. unfold cleanup. cbn [changes_from_writer_low_mark_ changes_received_ set_numbers].
  pose proof (cleanup_loop_spec low l Hlow Hl Hs) as H. destruct (cleanup_loop low l) as [low' l'].
  destruct H as (H1 & H2 & H3 & H4 & H5 & H6 & H7 & H8); [eapply list.Forall_impl; [exact Hr|intros ? []; done]|].
  assert (Hle : forall n, n ∈ vals l -> n <= sn_val max).
  { intros n Hin. apply list_elem_of_fmap in Hin as (y & -> & Hy). rewrite list.Forall_forall in Hr. by apply Hr. }
  split; [|done]. split; simpl; try done.
  - apply list.Forall_forall. intros y Hy. rewrite list.Forall_forall in H4. split; [by apply H4|].
    apply Hle, H7. by apply elem_of_vals.
  - destruct H6 as [->|H6]; [done|by apply Hle].
  - lia.
Qed.

(** The number [s] becomes known; [b] says that it was not. *)
Definition learned w s (b : bool) w' : Prop :=
  wp_inv w' /\ same_rest w w' /\ last_notified_ w' = last_notified_ w /\ b = bool_decide (~ known w (sn_val s)) /\
  sn_val (max_sequence_number_ w') = Z.max (sn_val (max_sequence_number_ w)) (sn_val s) /\
  forall n, known w' n <-> known w n \/ n = sn_val s.

Lemma received_bounds w n : wp_inv w -> n ∈ vals (changes_received_ w) ->
  sn_val (changes_from_writer_low_mark_ w) + 1 < n <= sn_val (max_sequence_number_ w).
Proof.
  intros W Hn. pose proof (wi_range _ W) as Hr. rewrite list.Forall_forall in Hr.
  apply list_elem_of_fmap in Hn as (y & -> & Hy). by apply Hr.
Qed.

Lemma known_bound w n : wp_inv w -> known w n -> n <= sn_val (max_sequence_number_ w).
Proof. intros W [Hn|Hn%(received_bounds w n W)]; [pose proof (wi_order _ W)|]; lia. Qed.

(** The number behind the low mark is not known. *)
Lemma next_unknown w : wp_inv w -> ~ known w (sn_val (changes_from_writer_low_mark_ w) + 1).
Proof. intros W [Hn|Hn%(received_bounds w _ W)]; lia. Qed.

Lemma learned_known w s : wp_inv w -> known w (sn_val s) -> learned w s false w.
Proof.
  intros W K. pose proof (known_bound w _ W K). split; [done|]. split; [done|]. split; [done|].
  rewrite bool_decide_eq_false_2 by tauto. split; [done|]. split; [lia|]. intros n. split; [tauto|]. by intros [?| ->].
Qed.

Lemma learned_inserted w s m :
  wp_inv w -> usable s -> usable m -> ~ known w (sn_val s) ->
  sn_val (changes_from_writer_low_mark_ w) + 1 < sn_val s -> sn_val m = Z.max (sn_val (max_sequence_number_ w)) (sn_val s) ->
  learned w s true
    (set_numbers w (set_insert s (changes_received_ w)) (changes_from_writer_low_mark_ w) m (last_notified_ w)).
Proof.
  intros W Hs Hm K Hlt Em. pose proof (wi_order _ W).
  destruct (set_insert_spec usable s (changes_received_ w)) as (HF & HS & HM); [auto|done|apply W|apply W|].
  split; [|split; [done|split; [done|split; [by rewrite bool_decide_eq_true_2|split; [done|]]]]].
  - split; simpl; try done; [apply W|apply W| |lia|apply W]. apply list.Forall_forall. intros y Hy%elem_of_vals.
    apply HM in Hy as [->|Hy%(received_bounds w _ W)]; lia.
  - intros n. unfold known, knows. simpl. rewrite HM. tauto.
Qed.

Lemma received_change_set_spec w s :
  wp_inv w -> usable s -> learned w s (received_change_set w s).1 (received_change_set w s).2.
Proof.
  intros W Hs. destruct (usable_next _ (wi_low _ W)) as [Hnv Hnext].
  pose proof (wi_low _ W) as Hlow. pose proof (wi_max _ W) as Hmax. pose proof (wi_order _ W). pose proof (wi_notified _ W).
  unfold received_change_set. sn_vals. rewrite Hnext.
  set (low := changes_from_writer_low_mark_ w) in *. set (mx := max_sequence_number_ w) in *.
  destruct (Z.leb_spec (sn_val s) (sn_val low)) as [Hle|Hgt]; [apply learned_known; [done|by left]|].
  destruct (Z.ltb_spec (sn_val mx) (sn_val s)) as [Hnew|Hold].
  - assert (K : ~ known w (sn_val s)) by (intros K%(known_bound w _ W); unfold mx in *; lia).
    destruct (Z.eqb_spec (sn_val s) (sn_val low + 1)) as [E|E];
      [|apply learned_inserted; try done; unfold low, mx in *; lia].
    assert (Hnil : changes_received_ w = []).
    { destruct (changes_received_ w) as [|y l] eqn:El; [done|].
      assert (Hy : sn_val y ∈ vals (changes_received_ w)) by (rewrite El; by left).
      apply (received_bounds w _ W) in Hy. unfold low, mx in *. lia. }
    split; [split; simpl; rewrite ?Hnil; try done; [apply W|constructor|unfold low in *; lia]|].
    split; [done|]. split; [done|]. split; [by rewrite bool_decide_eq_true_2|]. split; [simpl; unfold mx in *; lia|].
    intros n. unfold known, knows. simpl. rewrite Hnil. simpl. rewrite elem_of_nil. unfold low in *. lia.
  - destruct (Z.eqb_spec (sn_val low + 1) (sn_val s)) as [E|E].
    + destruct (cleanup_spec w (changes_received_ w) s mx (last_notified_ w)) as (Hi & Hsr & Hla & Hmx & Hk);
        try (done || apply W); [|unfold low in *; lia|].
      { eapply list.Forall_impl; [exact (wi_range _ W)|unfold low, mx in *; simpl; lia]. }
      split; [done|]. split; [done|]. split; [done|]. split.
      { rewrite bool_decide_eq_true_2; [done|]. rewrite <- E. by apply next_unknown. }
      simpl. rewrite Hmx. split; [unfold mx in *; lia|]. intros n. rewrite Hk. unfold known, knows. fold low.
      assert (n <= sn_val s <-> n <= sn_val low \/ n = sn_val s) by lia. tauto.
    + assert (Hfind : set_find s (changes_received_ w) = true <-> sn_val s ∈ vals (changes_received_ w))
        by (apply set_find_spec; [auto|eapply list.Forall_impl; [exact (wi_received _ W)|auto]]).
      destruct (set_find s (changes_received_ w)); [apply learned_known; [done|right; by apply Hfind]|].
      apply learned_inserted; try done; [|unfold low in *; lia|unfold mx in *; lia].
      intros [?|?%Hfind]; [unfold low in *; lia|done].
Qed.

(** [change_was_received] is knowledge. *)
Lemma change_was_received_spec w s : wp_inv w -> usable s -> change_was_received w s = bool_decide (known w (sn_val s)).
Proof.
  intros W Hs. pose proof (wi_low _ W). unfold change_was_received. sn_vals.
  assert (Hfind : set_find s (changes_received_ w) = true <-> sn_val s ∈ vals (changes_received_ w))
    by (apply set_find_spec; [auto|eapply list.Forall_impl; [exact (wi_received _ W)|auto]]).
  symmetry.
  destruct (Z.leb_spec (sn_val s) (sn_val (changes_from_writer_low_mark_ w))) as [H1|H1].
  - apply bool_decide_eq_true_2. by left.
  - destruct (set_find s (changes_received_ w)).
    + apply bool_decide_eq_true_2. right. by apply Hfind.
    + apply bool_decide_eq_false_2. intros [?|?%Hfind]; [lia|done].
Qed.

(** The sum of [lost_changes_update], in unsigned arithmetic that can wrap around
    on the way, is the number of unknown numbers. *)
Lemma lost_count w s :
  wp_inv w -> usable s -> sn_val (changes_from_writer_low_mark_ w) < sn_val s ->
  let low := changes_from_writer_low_mark_ w in
  (match changes_received_ w with
   | [] => to_int32_max (u64 (to64long s - u64 (to64long low + 1)))
   | first :: _ => to_int32_max (u64 (u64 (to64long first - u64 (to64long low + 1)) +
                       u64 (u64 (to64long s - to64long first) - zlen (lower_bound s (changes_received_ w)).1)))
   end) = Z.min (Z.of_nat (length (unknown_below w s))) INT32_MAX.
Proof.
  intros W Hs Hlt low. pose proof (wi_low _ W) as Hlow. fold low in Hlow, Hlt.
  pose proof (usable_range low Hlow). pose proof (usable_range s Hs).
  pose proof (length_unknown_below w s W Hs Hlt) as Hlen. fold low in Hlen.
  rewrite (to64long_val low), (to64long_val s), u64_sub_r by auto. destruct (changes_received_ w) as [|f l] eqn:El.
  - unfold zlen in Hlen. simpl in Hlen. rewrite u64_small by lia. rewrite to_int32_max_min. lia.
  - assert (usable f) by (pose proof (wi_received _ W) as Hf; rewrite El in Hf; by apply list.Forall_cons in Hf as [? _]).
    rewrite (to64long_val f), u64_sub_r, u64_sub_l, u64_add_l, u64_add_r by auto.
    rewrite u64_small by (unfold zlen in *; lia). rewrite to_int32_max_min. lia.
Qed.

(** The numbers below [s] become known. *)
Definition gave_up w s (lost : Z) w' : Prop :=
  wp_inv w' /\ same_rest w w' /\ last_notified_ w' = last_notified_ w /\
  lost = Z.min (Z.of_nat (length (unknown_below w s))) INT32_MAX /\
  sn_val (max_sequence_number_ w') = Z.max (sn_val (max_sequence_number_ w)) (sn_val s - 1) /\
  forall n, known w' n <-> known w n \/ n < sn_val s.

Lemma lost_changes_update_spec w s :
  wp_inv w -> usable s -> gave_up w s (lost_changes_update w s).1 (lost_changes_update w s).2.
Proof.
  intros W Hs. destruct (usable_next _ (wi_low _ W)) as [Hnv Hnext].
  pose proof (wi_low _ W) as Hlow. pose proof (wi_max _ W) as Hmax. pose proof (wi_order _ W). pose proof (wi_notified _ W).
  pose proof (lost_count w s W Hs) as Hcount. cbv zeta in Hcount.
  unfold lost_changes_update. sn_vals. rewrite Hnext.
  set (low := changes_from_writer_low_mark_ w) in *. pose proof (usable_range low Hlow). pose proof (usable_range s Hs).
  destruct (Z.ltb_spec (sn_val low + 1) (sn_val s)) as [Hlt|Hge].
  2:{ split; [done|]. split; [done|]. split; [done|]. unfold unknown_below. rewrite seqZ_nil by (unfold low in *; lia).
      split; [done|]. simpl. split; [lia|]. intros n. split; [tauto|]. intros [?|?]; [done|left; unfold low in *; lia]. }
  destruct (lower_bound_spec s (changes_received_ w)) as (E & Ha & Hb);
    [auto|eapply list.Forall_impl; [exact (wi_received _ W)|auto]|apply W|].
  destruct (lower_bound s (changes_received_ w)) as [a b]. simpl in *. rewrite Hcount by lia. clear Hcount.
  destruct (sn_sub_u32_val s 1) as [Hpv Hprev]; [auto|lia|lia|].
  assert (Hpu : usable (sn_sub_u32 s 1)) by (split; [done|destruct Hs; lia]).
  set (prev := sn_sub_u32 s 1) in *. sn_vals.
  set (mx := if sn_val (max_sequence_number_ w) <? sn_val prev then prev else max_sequence_number_ w).
  assert (Hmx : usable mx /\ sn_val mx = Z.max (sn_val (max_sequence_number_ w)) (sn_val s - 1))
    by (unfold mx; destruct (Z.ltb_spec (sn_val (max_sequence_number_ w)) (sn_val prev)); split; done || lia).
  destruct Hmx as [Hmu Hmv]. pose proof (wi_received _ W) as Hu. pose proof (wi_sorted _ W) as Hso.
  rewrite E in Hu, Hso. apply Forall_app in Hu as [_ Hub]. apply ascending_app in Hso as [_ Hsob].
  destruct (cleanup_spec w b prev mx (last_notified_ w)) as (Hi & Hsr & Hla & Hm' & Hk); try (done || apply W); [|lia|lia|].
  { apply list.Forall_forall. intros y Hy. rewrite list.Forall_forall in Hb. specialize (Hb _ Hy).
    assert (Hyv : sn_val y ∈ vals (changes_received_ w)) by (apply elem_of_vals; rewrite E; apply elem_of_app; by right).
    apply (received_bounds w _ W) in Hyv. lia. }
  split; [done|]. split; [done|]. split; [done|]. split; [done|]. simpl. rewrite Hm'. split; [done|].
  intros n. rewrite Hk. unfold known, knows. fold low. rewrite E, fmap_app, elem_of_app, Hprev.
  assert (Han : n ∈ vals a -> n < sn_val s).
  { intros Hn. apply list_elem_of_fmap in Hn as (y & -> & Hy). rewrite list.Forall_forall in Ha. by apply Ha. }
  assert (n <= sn_val s - 1 <-> n < sn_val s) by lia. assert (n <= sn_val low -> n < sn_val s) by lia. tauto.
Qed.

(** Numbers are announced: nothing becomes known. *)
Lemma missing_changes_update_spec w s :
  wp_inv w -> usable s ->
  let w' := missing_changes_update w s in
  wp_inv w' /\ same_rest w w' /\ last_notified_ w' = last_notified_ w /\
  sn_val (max_sequence_number_ w') = Z.max (sn_val (max_sequence_number_ w)) (sn_val s) /\
  forall n, known w' n <-> known w n.
Proof.
  intros W Hs. pose proof (wi_low _ W). pose proof (wi_max _ W). pose proof (wi_order _ W). unfold missing_changes_update. sn_vals.
  destruct (Z.ltb_spec (sn_val (changes_from_writer_low_mark_ w)) (sn_val s)) as [Hl|Hl].
  - destruct (Z.ltb_spec (sn_val (max_sequence_number_ w)) (sn_val s)) as [Hm|Hm].
    + split; [|split; [done|split; [done|split; [simpl; lia|done]]]]. destruct W. split; simpl; try done; [|lia].
      eapply list.Forall_impl; [exact wi_range0|simpl; lia].
    + split; [done|]. split; [done|]. split; [done|]. split; [lia|done].
  - split; [done|]. split; [done|]. split; [done|]. split; [lia|done].
Qed.
