(* ===== verification/WriterProxyLaws.v ===== *)
(** * What the writer proxy answers

    The queries of [WriterProxy.cpp]: the set of missing changes that goes into
    an acknowledgement, the counts, the notifications in order, and the handling
    of heartbeats and timers. *)

From Stdlib Require Import Sorted.
From S2P Require Import Prelude SequenceNumber BitmapRange TimedEvent WriterProxy WriterProxyInv.

Implicit Types (w : WriterProxy) (s : SequenceNumber_t) (l : list SequenceNumber_t).

(** ** Missing changes *)

Lemma missing_loop_spec M l : forall f r,
  range_wf r -> sn_valid f -> sn_valid M -> Forall usable l -> ascending l ->
  (forall n, n ∈ vals l -> sn_val f <= n) -> sn_val (base_ r) <= sn_val f -> sn_val f <= sn_val M ->
  sn_val M <= sn_val (base_ r) + 256 -> sn_val M + 1 < 2 ^ 63 ->
  exists f' r', missing_loop M f r l = Some (f', r') /\ range_wf r' /\ base_ r' = base_ r /\ sn_valid f' /\ sn_val f <= sn_val f' /\
    forall n, has r' n = true \/ sn_val f' <= n < sn_val M <-> has r n = true \/ (sn_val f <= n < sn_val M /\ n ∉ vals l).
Proof.
  induction l as [|y l IH]; intros f r W Hf HM Hl Hs Hge Hbf HfM HMb Hroom.
  { exists f, r. split; [done|]. split; [done|]. split; [done|]. split; [auto|]. split; [lia|]. intros n. simpl. rewrite elem_of_nil. tauto. }
  apply list.Forall_cons in Hl as [Hy Hl]. apply ascending_cons in Hs as [Hs Hlt].
  assert (Hfy : sn_val f <= sn_val y) by (apply Hge; by left).
  set (seq := sn_min y M). assert (Hseq : sn_valid seq) by (unfold seq; destruct (sn_min_cases y M) as [->| ->]; auto).
  assert (Ev : sn_val seq = Z.min (sn_val y) (sn_val M)) by (apply sn_min_val; auto).
  destruct (add_range_spec r f seq W Hf Hseq) as (r1 & E1 & W1 & Eb1 & _ & Hh1).
  destruct (sn_add_val seq 1 Hseq) as [Hnv Hnext]; [lia|lia|].
  assert (Hin1 : forall n, has r1 n = true <-> has r n = true \/ sn_val f <= n < sn_val seq).
  { intros n. rewrite Hh1, orb_true_iff, !andb_true_iff, !Z.leb_le, !Z.ltb_lt. simpl in *. split; [tauto|]. intros [?|?]; [by left|right]. lia. }
  cbn [missing_loop]. fold seq. rewrite E1. simpl. rewrite sn_geb_val, Hnext by auto.
  destruct (Z.leb_spec (sn_val M) (sn_val seq + 1)) as [Hend|Hend].
  - exists (sn_add seq 1), r1. split; [done|]. split; [done|]. split; [done|]. split; [done|]. split; [lia|]. intros n.
    rewrite Hin1, Hnext, elem_of_cons. split.
    + intros [[?|?]|?]; [by left| |lia]. right. split; [lia|]. intros [->|Hn]; [lia|]. specialize (Hlt _ Hn). lia.
    + intros [?|[? Hn]]; [by left; left|]. left. right. split; [lia|].
      destruct (Z.eq_dec n (sn_val y)) as [->|]; [by destruct Hn; left|]. lia.
  - assert (Eseq : seq = y) by (destruct (sn_min_cases y M) as [Ec|Ec]; [done|unfold seq in *; rewrite Ec in *; lia]).
    destruct (IH (sn_add seq 1) r1) as (f' & r' & E & W' & Eb & Hfv & Hff & Hh); try done.
    + intros n Hn. rewrite Hnext, Eseq. specialize (Hlt _ Hn). lia.
    + rewrite Eb1, Hnext. lia.
    + rewrite Hnext. lia.
    + by rewrite Eb1.
    + exists f', r'. split; [done|]. split; [done|]. split; [congruence|]. split; [done|]. split; [lia|]. intros n.
      rewrite Hh, Hin1, Hnext, Eseq. simpl. rewrite elem_of_cons. rewrite Eseq in *. split.
      * intros [[?|?]|[? ?]]; [by left| |]; right; (split; [lia|]); intros [->|Hn]; try lia; try done.
        specialize (Hlt _ Hn). lia.
      * intros [?|[? Hn]]; [by left; left|]. destruct (Z.lt_ge_cases n (sn_val y)); [left; right; lia|].
        right. split; [|tauto]. destruct (Z.eq_dec n (sn_val y)); [tauto|lia].
Qed.

Lemma missing_changes_spec w :
  wp_inv w ->
  exists r, missing_changes w = Some r /\ range_wf r /\ sn_val (base_ r) = sn_val (changes_from_writer_low_mark_ w) + 1 /\
    forall n, has r n = true <-> ~ known w n /\ n <= sn_val (max_sequence_number_ w) /\
                                 n <= sn_val (changes_from_writer_low_mark_ w) + 256.
Proof.
  intros W. pose proof (usable_range _ (wi_low _ W)). pose proof (usable_range _ (wi_max _ W)). pose proof (wi_order _ W).
  destruct (usable_next _ (wi_low _ W)) as [Hfv Hf]. destruct (usable_next _ (wi_max _ W)) as [Hmv Hm].
  unfold missing_changes. set (low := sn_val (changes_from_writer_low_mark_ w)) in *.
  set (f := sn_add (changes_from_writer_low_mark_ w) 1) in *. destruct (sn_add_val f 256 Hfv) as [Htv Ht]; [lia|lia|].
  set (M := sn_min (sn_add f 256) (sn_add (max_sequence_number_ w) 1)).
  assert (HM : sn_valid M /\ sn_val M = Z.min (low + 257) (sn_val (max_sequence_number_ w) + 1)).
  { split; [unfold M; destruct (sn_min_cases (sn_add f 256) (sn_add (max_sequence_number_ w) 1)) as [->| ->]; done|].
    unfold M. rewrite sn_min_val by auto. lia. }
  destruct HM as [HM EM]. destruct (range_of_spec f 255) as (W0 & Hh0 & _); [done|simpl; lia|lia|]. fold (range_new f) in *.
  destruct (missing_loop_spec M (changes_received_ w) f (range_new f)) as (f' & r & E & W1 & Eb & Hf' & Hff & Hh);
    try (done || apply W || lia).
  { intros n Hn%(received_bounds w n W). unfold low in *. lia. }
  { change (base_ (range_new f)) with f. lia. }
  rewrite E. simpl. rewrite sn_ltb_val by auto. change (base_ (range_new f)) with f in *.
  assert (Hiff : forall n, has (range_new f) n = true \/ (sn_val f <= n < sn_val M /\ n ∉ vals (changes_received_ w)) <->
    ~ known w n /\ n <= sn_val (max_sequence_number_ w) /\ n <= low + 256).
  { intros n. change (range_new f) with (range_of f 255). rewrite Hh0. unfold known, knows. fold low.
    split; [intros [?|[? ?]]; [done|]|]; [split; [intros [?|?]; [lia|done]|lia]|].
    intros (Hk & ? & ?). right. split; [|tauto]. destruct (Z.lt_ge_cases low n); [lia|]. destruct Hk. by left. }
  destruct (Z.ltb_spec (sn_val f') (sn_val M)) as [Hlt|Hge].
  - destruct (add_range_spec r f' M W1 Hf' HM) as (r' & E' & W' & Eb' & _ & Hh'). exists r'. split; [done|]. split; [done|].
    rewrite Eb', Eb. split; [done|]. intros n. rewrite <- Hiff, <- Hh, Hh', orb_true_iff, !andb_true_iff, !Z.leb_le, !Z.ltb_lt.
    simpl. split; [tauto|]. intros [?|?]; [by left|].
    right. rewrite Eb. change (base_ (range_new f)) with f. lia.
  - exists r. split; [done|]. split; [done|]. rewrite Eb. split; [done|]. intros n. rewrite <- Hiff, <- Hh.
    split; [by left|]. intros [?|?]; [done|lia].
Qed.

Lemma are_there_missing_changes_spec w :
  wp_inv w -> are_there_missing_changes w = true <-> exists n, ~ known w n /\ n <= sn_val (max_sequence_number_ w).
Proof.
  intros W. pose proof (wi_low _ W). pose proof (wi_max _ W). unfold are_there_missing_changes. sn_vals. rewrite Z.ltb_lt.
  split.
  - intros Hlt. exists (sn_val (changes_from_writer_low_mark_ w) + 1). split; [by apply next_unknown|lia].
  - intros (n & Hk & Hn). destruct (Z.lt_ge_cases (sn_val (changes_from_writer_low_mark_ w)) n); [lia|]. destruct Hk. by left.
Qed.

(** ** Counts *)

Lemma u32_small_range x : 0 <= u32 x < 2 ^ 32.
Proof. unfold u32. apply Z.mod_pos_bound. lia. Qed.
Lemma u32_idem x : u32 (u32 x) = u32 x.
Proof. unfold u32. apply Z.mod_mod. lia. Qed.
Lemma u32_add_l x y : u32 (u32 x + y) = u32 (x + y).
Proof. apply Zplus_mod_idemp_l. Qed.
Lemma u32_add_r x y : u32 (x + u32 y) = u32 (x + y).
Proof. apply Zplus_mod_idemp_r. Qed.

Lemma lower_bound_none s l : sn_ok s -> Forall sn_ok l -> (forall n, n ∈ vals l -> sn_val s <= n) -> lower_bound s l = ([], l).
Proof.
  intros Hs Hl Hn. destruct Hl as [|y l Hy Hl]; [done|]. cbn [lower_bound]. rewrite sn_ltb_val by done.
  specialize (Hn (sn_val y) ltac:(by left)). by destruct (Z.ltb_spec (sn_val y) (sn_val s)); [lia|].
Qed.

Lemma unknown_loop_spec s l : forall f n,
  usable s -> sn_valid f -> Forall usable l -> ascending l -> (forall m, m ∈ vals l -> sn_val f <= m) ->
  sn_val f <= sn_val s -> n = u32 n ->
  exists f' n', unknown_loop s f n l = (f', n') /\ sn_valid f' /\ n' = u32 n' /\
    u32 (n' + Z.max 0 (sn_val s - sn_val f')) = u32 (n + (sn_val s - sn_val f) - zlen (lower_bound s l).1).
Proof.
  induction l as [|y l IH]; intros f n Hs Hf Hl Hso Hge Hfs En.
  { exists f, n. split; [done|]. split; [done|]. split; [done|]. unfold zlen. simpl. f_equal. lia. }
  apply list.Forall_cons in Hl as [Hy Hl]. apply ascending_cons in Hso as [Hso Hlt].
  assert (Hfy : sn_val f <= sn_val y) by (apply Hge; by left). pose proof (usable_range s Hs).
  assert (Hlok : Forall sn_ok l) by (eapply list.Forall_impl; [exact Hl|auto]).
  set (seq := sn_min y s). assert (Hseq : usable seq) by (unfold seq; destruct (sn_min_cases y s) as [->| ->]; auto).
  assert (Ev : sn_val seq = Z.min (sn_val y) (sn_val s)) by (apply sn_min_val; auto).
  destruct (usable_next seq Hseq) as [Hnv Hnext]. cbn [unknown_loop]. fold seq. sn_vals. rewrite Hnext.
  set (n1 := if sn_val f <? sn_val seq then u32 (n + SequenceNumberDiff seq f) else n).
  assert (En1 : n1 = u32 (n + (sn_val seq - sn_val f))).
  { unfold n1. destruct (Z.ltb_spec (sn_val f) (sn_val seq)).
    - rewrite SequenceNumberDiff_val by (auto || lia). by rewrite u32_add_r.
    - rewrite En at 1. f_equal. lia. }
  assert (Hlow : zlen (lower_bound s (y :: l)).1 = if sn_val y <? sn_val s then 1 + zlen (lower_bound s l).1 else 0).
  { cbn [lower_bound]. rewrite sn_ltb_val by auto. destruct (sn_val y <? sn_val s); [|done].
    destruct (lower_bound s l). unfold zlen. simpl. lia. }
  rewrite Hlow. destruct (Z.leb_spec (sn_val s) (sn_val seq + 1)) as [Hend|Hend].
  - exists (sn_add seq 1), n1. split; [done|]. split; [done|]. split; [rewrite En1; by rewrite u32_idem|].
    rewrite Hnext, Z.max_l, Z.add_0_r, En1, u32_idem by lia. f_equal.
    destruct (Z.ltb_spec (sn_val y) (sn_val s)); [|lia]. rewrite lower_bound_none; [unfold zlen; simpl; lia|auto|done|].
    intros m Hm%Hlt. lia.
  - replace (sn_val y <? sn_val s) with true by lia.
    assert (Eseq : seq = y) by (unfold seq in *; destruct (sn_min_cases y s) as [Ec|Ec]; rewrite Ec in *; [done|lia]).
    destruct (IH (sn_add seq 1) n1) as (f' & n' & E & Hf' & En' & Hu); try done;
      [intros m Hm%Hlt; rewrite Hnext, Eseq; lia|lia|rewrite En1; by rewrite u32_idem|].
    exists f', n'. split; [done|]. split; [done|]. split; [done|]. rewrite Hu, Hnext, En1, Eseq.
    rewrite <- Z.add_sub_assoc, u32_add_l. f_equal. lia.
Qed.

(** The count is the number of unknown numbers below, in 32 bits. *)
Lemma unknown_missing_changes_up_to_spec w s :
  wp_inv w -> usable s -> unknown_missing_changes_up_to w s = u32 (Z.of_nat (length (unknown_below w s))).
Proof.
  intros W Hs. pose proof (wi_low _ W) as Hlow. destruct (usable_next _ Hlow) as [Hnv Hnext].
  unfold unknown_missing_changes_up_to. sn_vals.
  destruct (Z.ltb_spec (sn_val (changes_from_writer_low_mark_ w)) (sn_val s)) as [Hlt|Hge].
  2:{ unfold unknown_below. by rewrite seqZ_nil by lia. }
  destruct (unknown_loop_spec s (changes_received_ w) (sn_add (changes_from_writer_low_mark_ w) 1) 0)
    as (f' & n' & -> & Hf' & En' & Hu); try (done || apply W || lia).
  { intros m Hm%(received_bounds w m W). lia. }
  rewrite (length_unknown_below w s W Hs Hlt). rewrite sn_ltb_val by auto. rewrite Hnext in Hu.
  replace (sn_val s - sn_val (changes_from_writer_low_mark_ w) - 1 - zlen (lower_bound s (changes_received_ w)).1)
    with (0 + (sn_val s - (sn_val (changes_from_writer_low_mark_ w) + 1)) - zlen (lower_bound s (changes_received_ w)).1) by lia.
  rewrite <- Hu. destruct (Z.ltb_spec (sn_val f') (sn_val s)).
  - rewrite SequenceNumberDiff_val, u32_add_r by (auto || lia). f_equal. lia.
  - rewrite Z.max_l, Z.add_0_r by lia. done.
Qed.

(** ** Notifications *)

(** The calls of [next_cache_change_to_be_notified] until it says that there is
    nothing to notify, as [NotifyChanges] does. *)
Fixpoint notify_all (fuel : nat) w : option (list Z * WriterProxy) :=
  match fuel with
  | O => None
  | S fuel =>
      let '(n, w') := next_cache_change_to_be_notified w in
      if sn_eqb n sn_unknown then Some ([], w')
      else '(ns, w') ← notify_all fuel w'; Some (sn_val n :: ns, w')
  end.

Lemma next_notified_spec w :
  wp_inv w ->
  let '(n, w') := next_cache_change_to_be_notified w in
  wp_inv w' /\ same_rest w w' /\ (forall m, known w' m <-> known w m) /\
  max_sequence_number_ w' = max_sequence_number_ w /\ changes_from_writer_low_mark_ w' = changes_from_writer_low_mark_ w /\
  changes_received_ w' = changes_received_ w /\
  if sn_val (last_notified_ w) <? sn_val (changes_from_writer_low_mark_ w)
  then sn_val n = sn_val (last_notified_ w) + 1 /\ sn_ok n /\ last_notified_ w' = n
  else n = sn_unknown /\ w' = w.
Proof.
  intros W. pose proof (wi_low _ W) as Hlow. pose proof (usable_range _ Hlow). pose proof (wi_last _ W) as Hlast.
  unfold next_cache_change_to_be_notified. rewrite sn_ltb_val by auto.
  destruct (Z.ltb_spec (sn_val (last_notified_ w)) (sn_val (changes_from_writer_low_mark_ w))) as [Hlt|Hge].
  - destruct (sn_incr_val (last_notified_ w)) as [Hv Hi]; [done|lia|].
    split; [destruct W; split; simpl; try done; lia|]. split; [done|]. split; [done|]. split; [done|]. split; [done|].
    split; [done|]. split; [done|]. split; [auto|done].
  - do 7 (split; [done|]). done.
Qed.

Lemma notify_all_spec fuel w :
  wp_inv w -> sn_val (changes_from_writer_low_mark_ w) - sn_val (last_notified_ w) < Z.of_nat fuel ->
  exists w', notify_all fuel w =
      Some (seqZ (sn_val (last_notified_ w) + 1) (sn_val (changes_from_writer_low_mark_ w) - sn_val (last_notified_ w)), w') /\
    wp_inv w' /\ sn_val (last_notified_ w') = sn_val (changes_from_writer_low_mark_ w) /\
    forall m, known w' m <-> known w m.
Proof.
  revert w. induction fuel as [|fuel IH]; intros w W Hf; [pose proof (wi_notified _ W); lia|].
  pose proof (next_notified_spec w W) as H. cbn [notify_all].
  destruct (next_cache_change_to_be_notified w) as [n w1]. destruct H as (W1 & _ & Hk & _ & El & _ & Hn).
  pose proof (wi_notified _ W).
  destruct (Z.ltb_spec (sn_val (last_notified_ w)) (sn_val (changes_from_writer_low_mark_ w))) as [Hlt|Hge].
  - destruct Hn as (En & Hok & E1). rewrite sn_eqb_val by done. change (sn_val sn_unknown) with (- 2 ^ 32).
    pose proof (sn_valid_range _ (wi_last _ W)). rewrite (proj2 (Z.eqb_neq _ _)) by lia.
    destruct (IH w1 W1) as (w' & E & W' & Ev & Hk'); [rewrite El, E1; lia|]. rewrite E. simpl. exists w'.
    rewrite El in *. rewrite E1, En in *. split; [|split; [done|split; [done|intros m; by rewrite Hk', Hk]]].
    do 2 f_equal. rewrite (seqZ_cons (sn_val (last_notified_ w) + 1)) by lia. f_equal. f_equal; lia.
  - destruct Hn as [-> ->]. rewrite sn_eqb_val by done. rewrite Z.eqb_refl. exists w. rewrite seqZ_nil by lia.
    split; [done|]. split; [done|]. split; [lia|done].
Qed.

(** ** Heartbeats *)

(** Whether a heartbeat is answered: never in the same process; one that is not
    final unless positive acknowledgements are off and nothing is missing; a
    final one without the liveliness flag if something is missing. *)
Definition answers w (final_flag liveliness_flag disable_positive : bool) : bool :=
  negb (is_on_same_process_ w) &&
  (if final_flag then negb liveliness_flag && are_there_missing_changes w
   else negb disable_positive || are_there_missing_changes w).

(** Fields besides the numbers survive the two updates. *)
Lemma same_rest_fields w w' : same_rest w w' ->
  last_heartbeat_count_ w' = last_heartbeat_count_ w /\ heartbeat_final_flag_ w' = heartbeat_final_flag_ w /\
  is_alive_ w' = is_alive_ w /\ is_on_same_process_ w' = is_on_same_process_ w /\
  is_datasharing_writer_ w' = is_datasharing_writer_ w /\
  received_at_least_one_heartbeat_ w' = received_at_least_one_heartbeat_ w /\ state_ w' = state_ w /\
  heartbeat_response_ w' = heartbeat_response_ w /\ initial_acknack_ w' = initial_acknack_ w.
Proof. intros ->. done. Qed.

(** Operations on the other fields keep the numbers. *)
Definition same_numbers w w' : Prop :=
  changes_received_ w' = changes_received_ w /\ changes_from_writer_low_mark_ w' = changes_from_writer_low_mark_ w /\
  max_sequence_number_ w' = max_sequence_number_ w /\ last_notified_ w' = last_notified_ w.

Lemma same_numbers_inv w w' : same_numbers w w' -> wp_inv w -> wp_inv w'.
Proof.
  intros (E1 & E2 & E3 & E4) [H1 H2 H3 H4 H5 H6 H7 H8].
  split; rewrite ?E1, ?E2, ?E3, ?E4; done.
Qed.

Lemma same_numbers_known w w' n : same_numbers w w' -> known w' n <-> known w n.
Proof. intros (E1 & E2 & _). unfold known. by rewrite E1, E2. Qed.

(** The heartbeat's effect on the numbers. *)
Lemma heartbeat_numbers w first_seq last_seq :
  wp_inv w -> usable first_seq -> usable last_seq ->
  let '(lost, w1) := lost_changes_update w first_seq in
  let w2 := missing_changes_update w1 last_seq in
  wp_inv w2 /\ same_rest w w2 /\ lost = Z.min (Z.of_nat (length (unknown_below w first_seq))) INT32_MAX /\
  sn_val (max_sequence_number_ w2) = Z.max (Z.max (sn_val (max_sequence_number_ w)) (sn_val first_seq - 1)) (sn_val last_seq) /\
  last_notified_ w2 = last_notified_ w /\
  forall n, known w2 n <-> known w n \/ n < sn_val first_seq.
Proof.
  intros W Hf Hl. pose proof (lost_changes_update_spec w first_seq W Hf) as H.
  destruct (lost_changes_update w first_seq) as [lost w1]. destruct H as (W1 & R1 & L1 & El & M1 & K1). simpl in *.
  destruct (missing_changes_update_spec w1 last_seq W1 Hl) as (W2 & R2 & L2 & M2 & K2).
  split; [done|]. split; [unfold same_rest in *; rewrite R2, R1; done|]. split; [done|]. rewrite M2, M1. split; [done|].
  split; [congruence|]. intros n. by rewrite K2, K1.
Qed.

Lemma process_heartbeat_spec w count first_seq last_seq final_flag liveliness_flag disable_positive :
  wp_inv w -> usable first_seq -> usable last_seq ->
  let '(processed, assert_liveliness, lost, w') :=
    process_heartbeat w count first_seq last_seq final_flag liveliness_flag disable_positive in
  if negb (bool_decide (state_ w = STOPPED)) && (last_heartbeat_count_ w <? count) then
    processed = true /\ wp_inv w' /\ last_heartbeat_count_ w' = count /\ heartbeat_final_flag_ w' = final_flag /\
    received_at_least_one_heartbeat_ w' = true /\ state_ w' = state_ w /\ last_notified_ w' = last_notified_ w /\
    (forall n, known w' n <-> known w n \/ n < sn_val first_seq) /\
    sn_val (max_sequence_number_ w') = Z.max (Z.max (sn_val (max_sequence_number_ w)) (sn_val first_seq - 1)) (sn_val last_seq) /\
    lost = Some (if received_at_least_one_heartbeat_ w
                 then Z.min (Z.of_nat (length (unknown_below w first_seq))) INT32_MAX else 0) /\
    heartbeat_response_ w' = (if answers w' final_flag liveliness_flag disable_positive
                              then restart_timer (heartbeat_response_ w) else heartbeat_response_ w) /\
    assert_liveliness = liveliness_flag && (is_on_same_process_ w || final_flag)
  else processed = false /\ assert_liveliness = false /\ lost = None /\ w' = w.
Proof.
  intros W Hf Hl. unfold process_heartbeat.
  destruct (negb (bool_decide (state_ w = STOPPED)) && (last_heartbeat_count_ w <? count)); [|done].
  assert (W0 : wp_inv (set_heartbeat w count (heartbeat_final_flag_ w))) by (by apply (same_numbers_inv w)).
  pose proof (heartbeat_numbers _ first_seq last_seq W0 Hf Hl) as H.
  destruct (lost_changes_update _ first_seq) as [lost w1]. cbv zeta in H |- *.
  set (w2 := missing_changes_update w1 last_seq) in *. destruct H as (W2 & R2 & El & M2 & L2 & K2).
  apply same_rest_fields in R2 as (F1 & F2 & F3 & F4 & F5 & F6 & F7 & F8 & F9). simpl in *.
  change (unknown_below (set_heartbeat w count (heartbeat_final_flag_ w)) first_seq) with (unknown_below w first_seq) in El.
  subst lost. clearbody w2. clear W0 w1. unfold answers, are_there_missing_changes.
  destruct w2 as [rc lo mx la hc hf al sp ds ro st hr ia]. simpl in *. subst.
  destruct (sn_ltb lo mx) eqn:Elt, (is_on_same_process_ w), final_flag, liveliness_flag, disable_positive,
    (received_at_least_one_heartbeat_ w); cbn; rewrite ?Elt; cbn;
    (split; [done|]; split; [by eapply same_numbers_inv; [|exact W2]|]; do 5 (split; [done|]); split; [exact K2|]; split; [exact M2|]; done).
Qed.
