(* ===== verification/WriterProxySpec.v ===== *)
(** * What the writer proxy promises

    The abstract specification of [WriterProxy]: a set of known numbers, the
    largest number announced and the last heartbeat's count.  The proxy, driven
    by any sequence of events, implements it; what it acknowledges, asks for,
    counts and notifies is what the specification says. *)

From Stdlib Require Import Sorted.
From S2P Require Import Prelude SequenceNumber BitmapRange TimedEvent WriterProxy WriterProxyInv WriterProxyLaws.

Implicit Types (w : WriterProxy) (s : SequenceNumber_t).

(** ** Events *)

(** What the reader and the timers do to a proxy that is not stopped. *)
Inductive wp_event :=
  | EvReceived s
  | EvIrrelevant s
  | EvLost s
  | EvHeartbeat (count : Z) (first_seq last_seq : SequenceNumber_t) (final liveliness disable_positive : bool)
  | EvNotify
  | EvInitialTimer (local_writer : bool)
  | EvResponseTimer.

Definition wp_step w (ev : wp_event) : WriterProxy :=
  match ev with
  | EvReceived s => (received_change_set w s).2
  | EvIrrelevant s => (irrelevant_change_set w s).2
  | EvLost s => (lost_changes_update w s).2
  | EvHeartbeat c f l fin liv dis => (process_heartbeat w c f l fin liv dis).2
  | EvNotify => (next_cache_change_to_be_notified w).2
  | EvInitialTimer b => (perform_initial_ack_nack w b).2
  | EvResponseTimer => (perform_heartbeat_response w).2
  end.

Definition wp_run w (evs : list wp_event) : WriterProxy := fold_left wp_step evs w.

(** The numbers of a message leave room for the arithmetic. *)
Definition ev_ok (ev : wp_event) : Prop :=
  match ev with
  | EvReceived s | EvIrrelevant s | EvLost s => usable s
  | EvHeartbeat _ f l _ _ _ => usable f /\ usable l
  | _ => True
  end.

(** ** The specification *)

Record wp_spec := mkSpec {
  sp_known : Z -> Prop;
  sp_max : Z;
  sp_count : Z
}.

Definition spec_learn (S : wp_spec) (n : Z) : wp_spec :=
  mkSpec (fun m => sp_known S m \/ m = n) (Z.max (sp_max S) n) (sp_count S).
Definition spec_give_up (S : wp_spec) (n : Z) : wp_spec :=
  mkSpec (fun m => sp_known S m \/ m < n) (Z.max (sp_max S) (n - 1)) (sp_count S).

Definition spec_event (S : wp_spec) (ev : wp_event) : wp_spec :=
  match ev with
  | EvReceived s | EvIrrelevant s => spec_learn S (sn_val s)
  | EvLost s => spec_give_up S (sn_val s)
  | EvHeartbeat c f l _ _ _ =>
      if sp_count S <? c then
        let S := spec_give_up S (sn_val f) in mkSpec (sp_known S) (Z.max (sp_max S) (sn_val l)) c
      else S
  | _ => S
  end.

(** A proxy that stands for a specification state. *)
Definition represents w (S : wp_spec) : Prop :=
  wp_inv w /\ state_ w = IDLE /\ (forall n, known w n <-> sp_known S n) /\
  sn_val (max_sequence_number_ w) = sp_max S /\ last_heartbeat_count_ w = sp_count S.

(** The specification state of a proxy that was just started. *)
Definition spec_start s : wp_spec := mkSpec (fun n => n <= sn_val s) (sn_val s) 0.

(** A proxy started for a writer whose changes up to [s] are known. *)
Definition started (now response_delay acknack_delay : Z) (same_process : bool) s (datasharing : bool) : WriterProxy :=
  start (WriterProxy_new now) response_delay acknack_delay same_process s datasharing.

Lemma started_represents now d1 d2 sp s ds : usable s -> represents (started now d1 d2 sp s ds) (spec_start s).
Proof.
  intros Hs. split; [split; simpl; auto; try constructor; lia|]. split; [done|]. split; [|done].
  intros n. unfold known, knows. simpl. rewrite elem_of_nil. tauto.
Qed.

Lemma event_rest w : state_ w = IDLE -> forall b,
  same_numbers w (perform_initial_ack_nack w b).2 /\ state_ (perform_initial_ack_nack w b).2 = IDLE /\
  last_heartbeat_count_ (perform_initial_ack_nack w b).2 = last_heartbeat_count_ w.
Proof.
  intros Hi b. unfold perform_initial_ack_nack, event_begin, initial_ack_nack_body. rewrite Hi.
  destruct w. simpl in *. unfold event_end. repeat (case_match; simpl in *; simplify_eq; try done).
Qed.

Lemma represents_step w S ev : represents w S -> ev_ok ev -> represents (wp_step w ev) (spec_event S ev).
Proof.
  intros (W & Hst & Hk & Hm & Hc) Hok. destruct ev as [s|s|s|c f l fin liv dis| |b|]; cbn [wp_step spec_event ev_ok] in *.
  1,2: pose proof (received_change_set_spec w s W Hok) as H; unfold irrelevant_change_set;
    destruct (received_change_set w s) as [r w']; destruct H as (W' & R & _ & _ & M' & K');
    apply same_rest_fields in R as (F1 & _ & _ & _ & _ & _ & F7 & _); simpl in *;
    (split; [done|]); (split; [congruence|]); (split; [intros n; by rewrite K', Hk|]); simpl; by rewrite M', Hm, F1.
  - pose proof (lost_changes_update_spec w s W Hok) as H. destruct (lost_changes_update w s) as [r w'].
    destruct H as (W' & R & _ & _ & M' & K'). apply same_rest_fields in R as (F1 & _ & _ & _ & _ & _ & F7 & _). simpl in *.
    split; [done|]. split; [congruence|]. split; [intros n; by rewrite K', Hk|]. simpl. by rewrite M', Hm, F1.
  - destruct Hok as [Hf Hl]. pose proof (process_heartbeat_spec w c f l fin liv dis W Hf Hl) as H.
    destruct (process_heartbeat w c f l fin liv dis) as [[[p a] lo] w']. rewrite Hst, bool_decide_eq_false_2, Hc in H by done.
    simpl in *. destruct (sp_count S <? c).
    + destruct H as (_ & W' & C' & _ & _ & S' & _ & K' & M' & _). split; [done|]. split; [congruence|].
      split; [intros n; simpl; by rewrite K', Hk|]. simpl. by rewrite M', Hm.
    + destruct H as (_ & _ & _ & ->). by repeat (split; [done|]).
  - pose proof (next_notified_spec w W) as H. destruct (next_cache_change_to_be_notified w) as [n w'].
    destruct H as (W' & R & K' & M' & _). apply same_rest_fields in R as (F1 & _ & _ & _ & _ & _ & F7 & _). simpl.
    split; [done|]. split; [congruence|]. split; [intros m; by rewrite K', Hk|]. rewrite M', F1. done.
  - destruct (event_rest w Hst b) as (Hn & Hst' & Hc'). split; [by apply (same_numbers_inv w)|]. split; [done|].
    split; [intros n; by rewrite (same_numbers_known w)|]. destruct Hn as (_ & _ & -> & _). by rewrite Hc'.
  - unfold perform_heartbeat_response, event_begin. rewrite Hst. simpl.
    split; [by apply (same_numbers_inv w)|]. by repeat (split; [done|]).
Qed.

Lemma represents_run evs : forall w S, represents w S -> Forall ev_ok evs -> represents (wp_run w evs) (fold_left spec_event evs S).
Proof.
  induction evs as [|ev evs IH]; intros w S HR Hok; [done|]. apply list.Forall_cons in Hok as [Hev Hok].
  apply IH; [by apply represents_step|done].
Qed.

(** ** Traces *)

(** What an event makes known. *)
Definition teaches (ev : wp_event) (n : Z) : Prop :=
  match ev with
  | EvReceived s | EvIrrelevant s => n = sn_val s
  | EvLost s => n < sn_val s
  | EvHeartbeat _ f _ _ _ _ => n < sn_val f
  | _ => False
  end.

Lemma spec_known_taught evs : forall S n,
  sp_known (fold_left spec_event evs S) n -> sp_known S n \/ exists ev, ev ∈ evs /\ teaches ev n.
Proof.
  induction evs as [|ev evs IH]; intros S n Hn; [by left|]. simpl in Hn. apply IH in Hn as [Hn|(ev' & Hin & Ht)].
  - destruct ev as [s|s|s|c f l fin liv dis| |b|]; simpl in Hn; try (by left).
    1-3: destruct Hn as [Hn|Hn]; [by left|]; right; eexists; (split; [by left|]); simpl; done.
    destruct (sp_count S <? c); [|by left]. destruct Hn as [Hn|Hn]; [by left|]. right. eexists. split; [by left|]. done.
  - right. exists ev'. split; [by right|done].
Qed.

(** The numbers accepted as new, in order. *)
Fixpoint accepted w (evs : list wp_event) : list Z :=
  match evs with
  | [] => []
  | ev :: evs =>
      match ev with
      | EvReceived s | EvIrrelevant s => if (received_change_set w s).1 then [sn_val s] else []
      | _ => []
      end ++ accepted (wp_step w ev) evs
  end.

(** The numbers notified, in order. *)
Fixpoint notified w (evs : list wp_event) : list Z :=
  match evs with
  | [] => []
  | ev :: evs =>
      match ev with
      | EvNotify =>
          let n := (next_cache_change_to_be_notified w).1 in if sn_eqb n sn_unknown then [] else [sn_val n]
      | _ => []
      end ++ notified (wp_step w ev) evs
  end.

Lemma known_monotone w S ev n : represents w S -> ev_ok ev -> known w n -> known (wp_step w ev) n.
Proof.
  intros HR Hok Hn. pose proof (represents_step w S ev HR Hok) as (_ & _ & Hk & _). apply Hk.
  destruct HR as (_ & _ & Hk0 & _). apply Hk0 in Hn.
  destruct ev; simpl; try done; try (by left). case_match; [by left|done].
Qed.

Lemma accepted_unknown evs : forall w S n, represents w S -> Forall ev_ok evs -> known w n -> n ∉ accepted w evs.
Proof.
  induction evs as [|ev evs IH]; intros w S n HR Hok Hn; [by intros ?%elem_of_nil|].
  apply list.Forall_cons in Hok as [Hev Hok]. cbn [accepted]. rewrite elem_of_app. intros [H|H].
  - destruct ev as [s|s| | | | |]; try (by apply elem_of_nil in H).
    all: destruct (received_change_set_spec w s) as (_ & _ & _ & Eb & _); [apply HR|done|]; rewrite Eb in H;
      case_bool_decide; [|by apply elem_of_nil in H]; apply list_elem_of_singleton in H as ->; done.
  - revert H. apply (IH _ (spec_event S ev)); [by apply represents_step|done|by apply (known_monotone w S)].
Qed.

Lemma accepted_NoDup evs : forall w S, represents w S -> Forall ev_ok evs -> NoDup (accepted w evs).
Proof.
  induction evs as [|ev evs IH]; intros w S HR Hok; [constructor|]. apply list.Forall_cons in Hok as [Hev Hok].
  pose proof (represents_step w S ev HR Hev) as HR'. cbn [accepted].
  destruct ev as [s|s| | | | |]; try (by apply (IH _ _ HR')).
  all: destruct ((received_change_set w s).1); [|by apply (IH _ _ HR')]; apply list.NoDup_cons; split; [|by apply (IH _ _ HR')];
    apply (accepted_unknown evs _ _ _ HR' Hok);
    destruct (received_change_set_spec w s) as (_ & _ & _ & _ & _ & Hk); [apply HR|done|]; apply Hk; by right.
Qed.

(** Only a notification moves the last notified number. *)
Lemma last_notified_kept w S ev : represents w S -> ev_ok ev -> ev <> EvNotify ->
  last_notified_ (wp_step w ev) = last_notified_ w.
Proof.
  intros (W & Hst & _) Hok Hne. destruct ev as [s|s|s|c f l fin liv dis| |b|]; cbn [wp_step ev_ok] in *; try done.
  1,2: by destruct (received_change_set_spec w s W Hok) as (_ & _ & E & _).
  - by destruct (lost_changes_update_spec w s W Hok) as (_ & _ & E & _).
  - destruct Hok as [Hf Hl]. pose proof (process_heartbeat_spec w c f l fin liv dis W Hf Hl) as H.
    destruct (process_heartbeat w c f l fin liv dis) as [[[p a] lo] w']. case_match; [by destruct H as (_ & _ & _ & _ & _ & _ & E & _)|].
    by destruct H as (_ & _ & _ & ->).
  - by destruct (event_rest w Hst b) as ((_ & _ & _ & E) & _).
  - unfold perform_heartbeat_response, event_begin. by rewrite Hst.
Qed.

Lemma notified_consecutive evs : forall w S, represents w S -> Forall ev_ok evs ->
  exists k, 0 <= k /\ notified w evs = seqZ (sn_val (last_notified_ w) + 1) k /\
    sn_val (last_notified_ (wp_run w evs)) = sn_val (last_notified_ w) + k.
Proof.
  induction evs as [|ev evs IH]; intros w S HR Hok; [exists 0; split; [done|]; split; [done|simpl; lia]|].
  apply list.Forall_cons in Hok as [Hev Hok]. pose proof (represents_step w S ev HR Hev) as HR'.
  destruct (IH _ _ HR' Hok) as (k & Hk & E & El). cbn [notified].
  change (wp_run w (ev :: evs)) with (wp_run (wp_step w ev) evs). rewrite E, El.
  assert (Hev' : ev = EvNotify \/ ev <> EvNotify) by (destruct ev; (by left) || (by right)).
  destruct Hev' as [->|Hne].
  - pose proof (next_notified_spec w (proj1 HR)) as H. cbn [wp_step]. destruct (next_cache_change_to_be_notified w) as [n w'].
    destruct H as (_ & _ & _ & _ & _ & _ & Hn). simpl.
    destruct (Z.ltb_spec (sn_val (last_notified_ w)) (sn_val (changes_from_writer_low_mark_ w))).
    + destruct Hn as (En & Hok' & ->). rewrite sn_eqb_val by done. change (sn_val sn_unknown) with (- 2 ^ 32).
      pose proof (sn_valid_range _ (wi_last _ (proj1 HR))). rewrite (proj2 (Z.eqb_neq _ _)) by lia.
      exists (k + 1). split; [lia|]. split; [|lia]. rewrite (seqZ_cons (sn_val (last_notified_ w) + 1)) by lia. simpl.
      f_equal; [done|]. f_equal; lia.
    + destruct Hn as [-> ->]. exists k. by split.
  - rewrite (last_notified_kept w S ev HR Hev Hne). exists k. split; [done|]. split; [|done]. by destruct ev.
Qed.

(** ** The promises *)

Section Promises.
Context (now response_delay acknack_delay : Z) (same_process datasharing : bool) (s0 : SequenceNumber_t).
Context (evs : list wp_event) (Hs0 : usable s0) (Hevs : Forall ev_ok evs).

Let w := wp_run (started now response_delay acknack_delay same_process s0 datasharing) evs.
Let S := fold_left spec_event evs (spec_start s0).

Lemma run_represents : represents w S.
Proof. apply represents_run; [by apply started_represents|done]. Qed.

(** C14: a proxy driven by any sequence of receptions, gaps, heartbeats,
    notifications and timer events keeps the invariant of its representation and
    knows exactly the numbers the specification says: those up to the initial one,
    those received or irrelevant, and those below a bound given by an accepted
    heartbeat. *)
Theorem proxy_refines_spec :
  wp_inv w /\ (forall n, known w n <-> sp_known S n) /\ sn_val (max_sequence_number_ w) = sp_max S /\
  last_heartbeat_count_ w = sp_count S.
Proof. destruct run_represents as (H1 & _ & H2 & H3 & H4). done. Qed.

(** The set [missing_changes] builds for an acknowledgement exists and is
    exact: its base is the first number that is not known, so everything below is
    acknowledged rightly, and its members are the announced numbers of the next
    256 that are not known. *)
Theorem acknowledgement_exact :
  exists r, missing_changes w = Some r /\ range_wf r /\
    (forall n, n < sn_val (base_ r) -> sp_known S n) /\ ~ sp_known S (sn_val (base_ r)) /\
    (forall n, has r n = true <-> ~ sp_known S n /\ n <= sp_max S /\ n < sn_val (base_ r) + 256) /\
    range_empty r = negb (are_there_missing_changes w).
Proof.
  destruct run_represents as (W & _ & Hk & Hm & _). destruct (missing_changes_spec w W) as (r & E & Wr & Eb & Hh).
  exists r. split; [done|]. split; [done|]. rewrite Eb. split; [|split; [|split]].
  - intros n Hn. apply Hk. left. lia.
  - rewrite <- Hk. by apply next_unknown.
  - intros n. rewrite Hh, Hk, Hm. assert (n <= sn_val (changes_from_writer_low_mark_ w) + 256 <-> n < sn_val (changes_from_writer_low_mark_ w) + 1 + 256) by lia. tauto.
  - apply eq_true_iff_eq. rewrite (range_empty_spec r Wr), negb_true_iff, <- not_true_iff_false, (are_there_missing_changes_spec w W).
    split.
    + intros H0 (n & Hn1 & Hn2). pose proof (wi_low _ W). pose proof (next_unknown w W).
      assert (Hc : has r (sn_val (changes_from_writer_low_mark_ w) + 1) = true); [|by rewrite H0 in Hc].
      apply Hh. split; [done|]. split; [|lia]. destruct (Z.lt_ge_cases (sn_val (changes_from_writer_low_mark_ w)) n); [lia|].
      destruct Hn1. by left.
    + intros Hno n. destruct (has r n) eqn:En; [|done]. apply Hh in En as (? & ? & _). destruct Hno. by exists n.
Qed.

(** A number below the base of an acknowledgement was covered before the
    proxy started, or an event of the trace was its reception, its irrelevance or
    the writer's word that it is no longer available. *)
Theorem acknowledged_was_taught : forall r n,
  missing_changes w = Some r -> n < sn_val (base_ r) -> n <= sn_val s0 \/ exists ev, ev ∈ evs /\ teaches ev n.
Proof.
  intros r n E Hn. destruct run_represents as (W & _ & Hk & _).
  destruct (missing_changes_spec w W) as (r' & E' & _ & Eb & _). rewrite E in E'. simplify_eq.
  assert (Hkn : known w n) by (left; lia). apply Hk, spec_known_taught in Hkn. done.
Qed.

End Promises.

(** No number is accepted as new twice, and none that was covered before the
    proxy started. *)
Theorem accepted_at_most_once now d1 d2 sp ds s0 evs :
  usable s0 -> Forall ev_ok evs ->
  NoDup (accepted (started now d1 d2 sp s0 ds) evs) /\
  forall n, n ∈ accepted (started now d1 d2 sp s0 ds) evs -> sn_val s0 < n.
Proof.
  intros Hs Hok. pose proof (started_represents now d1 d2 sp s0 ds Hs) as HR. split; [by apply (accepted_NoDup evs _ _ HR)|].
  intros n Hn. destruct (Z.lt_ge_cases (sn_val s0) n); [done|].
  destruct (accepted_unknown evs _ _ n HR Hok); [by left|done].
Qed.

(** The numbers notified are consecutive from the first one after the initial
    number on, none is skipped or repeated, and each of them is known when the
    trace ends. *)
Theorem notified_in_order now d1 d2 sp ds s0 evs :
  usable s0 -> Forall ev_ok evs ->
  let w := started now d1 d2 sp s0 ds in
  exists k, 0 <= k /\ notified w evs = seqZ (sn_val s0 + 1) k /\ forall n, n ∈ notified w evs -> known (wp_run w evs) n.
Proof.
  intros Hs Hok w. pose proof (started_represents now d1 d2 sp s0 ds Hs) as HR.
  destruct (notified_consecutive evs _ _ HR Hok) as (k & Hk & E & El). exists k. split; [done|]. split; [done|].
  intros n Hn. unfold w in Hn. rewrite E in Hn. apply elem_of_seqZ in Hn. simpl in Hn, El.
  pose proof (represents_run evs _ _ HR Hok) as (W & _). pose proof (wi_notified _ W). unfold w. left. simpl in *. lia.
Qed.

(** A heartbeat is handled when the proxy is not stopped and its count is new,
    and changes nothing otherwise.  Handled, it gives up on the numbers below its
    first one and reports how many of them were not known (0 for the first
    heartbeat, at most the largest [int32_t]), announces its last number, and
    restarts the response timer exactly when an answer is due. *)
Theorem heartbeat_handled w count first_seq last_seq final_flag liveliness_flag disable_positive :
  wp_inv w -> usable first_seq -> usable last_seq ->
  let '(processed, assert_liveliness, lost, w') :=
    process_heartbeat w count first_seq last_seq final_flag liveliness_flag disable_positive in
  processed = negb (bool_decide (state_ w = STOPPED)) && (last_heartbeat_count_ w <? count) /\
  (processed = false -> w' = w /\ lost = None) /\
  (processed = true ->
     wp_inv w' /\ last_heartbeat_count_ w' = count /\ (forall n, known w' n <-> known w n \/ n < sn_val first_seq) /\
     sn_val (max_sequence_number_ w') =
       Z.max (Z.max (sn_val (max_sequence_number_ w)) (sn_val first_seq - 1)) (sn_val last_seq) /\
     lost = Some (if received_at_least_one_heartbeat_ w
                  then Z.min (Z.of_nat (length (unknown_below w first_seq))) INT32_MAX else 0) /\
     heartbeat_response_ w' = (if answers w' final_flag liveliness_flag disable_positive
                               then restart_timer (heartbeat_response_ w) else heartbeat_response_ w)).
Proof.
  intros W Hf Hl. pose proof (process_heartbeat_spec w count _ _ final_flag liveliness_flag disable_positive W Hf Hl) as H.
  destruct (process_heartbeat w count first_seq last_seq final_flag liveliness_flag disable_positive) as [[[p a] lo] w'].
  destruct (negb (bool_decide (state_ w = STOPPED)) && (last_heartbeat_count_ w <? count)).
  - destruct H as (-> & H1 & H2 & _ & _ & _ & _ & H3 & H4 & H5 & H6 & _). split; [done|]. split; [done|]. done.
  - destruct H as (-> & _ & -> & ->). split; [done|]. split; [done|]. done.
Qed.

(** ** The initial acknowledgement *)

(** The callback of the initial timer, run until it does not ask for another run;
    the number of acknowledgements sent. *)
Fixpoint initial_rounds (fuel : nat) w : option Z :=
  match fuel with
  | O => None
  | S fuel =>
      let '(again, out, w') := perform_initial_ack_nack w false in
      if again then n ← initial_rounds fuel w'; Some (n + zlen out) else Some (zlen out)
  end.

Lemma initial_round w :
  state_ w = IDLE -> is_datasharing_writer_ w = false -> is_on_same_process_ w = false -> last_heartbeat_count_ w = 0 ->
  let ms := getIntervalMsec (initial_acknack_ w) in
  perform_initial_ack_nack w false =
  if ms <? 3600000
  then (true, [InitialAckNack],
        set_timers w (heartbeat_response_ w) (update_interval_millisec (initial_acknack_ w) (ms * 2)))
  else (false, [InitialAckNack], w).
Proof.
  intros H1 H2 H3 H4. unfold perform_initial_ack_nack, event_begin, initial_ack_nack_body. rewrite H1. destruct w. simpl in *. subst.
  simpl. change (60 * 60 * 1000) with 3600000. by destruct (getIntervalMsec _ <? 3600000).
Qed.

Lemma initial_rounds_stop k : forall w fuel,
  state_ w = IDLE -> is_datasharing_writer_ w = false -> is_on_same_process_ w = false -> last_heartbeat_count_ w = 0 ->
  3600000 <= getIntervalMsec (initial_acknack_ w) * 2 ^ Z.of_nat k -> 0 < getIntervalMsec (initial_acknack_ w) ->
  (k < fuel)%nat -> exists n, initial_rounds fuel w = Some n /\ 1 <= n <= Z.of_nat k + 1.
Proof.
  induction k as [|k IH]; intros w fuel H1 H2 H3 H4 Hk Hp Hf; (destruct fuel as [|fuel]; [lia|]);
    cbn [initial_rounds]; rewrite initial_round by done; cbv zeta; set (ms := getIntervalMsec (initial_acknack_ w)) in *.
  - rewrite Z.pow_0_r in Hk. rewrite (proj2 (Z.ltb_ge _ _)) by lia. exists 1. split; [done|lia].
  - destruct (Z.ltb_spec ms 3600000) as [Hlt|Hge]; [|exists 1; split; [done|lia]].
    set (w' := set_timers w (heartbeat_response_ w) (update_interval_millisec (initial_acknack_ w) (ms * 2))).
    assert (Ems : getIntervalMsec (initial_acknack_ w') = ms * 2).
    { unfold w', getIntervalMsec, update_interval_millisec. simpl. by rewrite Z.quot_mul by lia. }
    destruct (IH w' fuel) as (n & E & Hn); try done; [|lia|lia|].
    { rewrite Ems. rewrite Nat2Z.inj_succ, Z.pow_succ_r in Hk by lia. lia. }
    rewrite E. simpl. exists (n + 1). split; [done|lia].
Qed.

(** With a delay of a millisecond or more the initial acknowledgement is
    repeated at doubled intervals at most 23 times when the writer never answers:
    the callback stops asking to be run again. *)
Theorem initial_acknack_stops w :
  state_ w = IDLE -> is_datasharing_writer_ w = false -> is_on_same_process_ w = false -> last_heartbeat_count_ w = 0 ->
  1000 <= interval_microsec_ (initial_acknack_ w) ->
  exists n, initial_rounds 23 w = Some n /\ 1 <= n <= 23.
Proof.
  intros H1 H2 H3 H4 Hi. assert (1 <= getIntervalMsec (initial_acknack_ w))
    by (unfold getIntervalMsec; apply Z.quot_le_lower_bound; lia).
  destruct (initial_rounds_stop 22 w 23) as (n & E & Hn); try done; [lia|lia|lia|]. exists n. split; [done|lia].
Qed.

(** With a delay below a millisecond the interval becomes zero and the
    callback asks to be run again every time: no number of rounds ends it. *)
Theorem initial_acknack_never_stops w fuel :
  state_ w = IDLE -> is_datasharing_writer_ w = false -> is_on_same_process_ w = false -> last_heartbeat_count_ w = 0 ->
  0 <= interval_microsec_ (initial_acknack_ w) < 1000 -> initial_rounds fuel w = None.
Proof.
  revert w. induction fuel as [|fuel IH]; intros w H1 H2 H3 H4 Hi; [done|]. cbn [initial_rounds]. rewrite initial_round by done.
  cbv zeta. unfold getIntervalMsec at 1 2. rewrite Z.quot_small by lia. simpl. rewrite IH; [done|done..|]. simpl. lia.
Qed.

(** ** Stopping *)

Lemma stopped_ignores w : state_ w = STOPPED ->
  event_end w = w /\ (forall b, perform_initial_ack_nack w b = (false, [], w)) /\ perform_heartbeat_response w = ([], w) /\
  forall c f l fin liv dis, process_heartbeat w c f l fin liv dis = (false, false, None, w).
Proof.
  intros H. unfold event_end, perform_initial_ack_nack, perform_heartbeat_response, event_begin, process_heartbeat.
  rewrite H, bool_decide_eq_true_2 by done. done.
Qed.

Lemma stop_state w : state_ (stop w) = STOPPED /\ is_alive_ (stop w) = false /\ changes_received_ (stop w) = [] /\
  timer_state_ (heartbeat_response_ (stop w)) = INACTIVE /\ timer_state_ (initial_acknack_ (stop w)) = INACTIVE.
Proof. unfold stop. destruct (state_ w); done. Qed.

(** A proxy stopped while a timer's callback runs stays stopped when the
    callback ends; until it is started again it forgets what it knew, both timers
    are inactive, callbacks do nothing and heartbeats are ignored. *)
Theorem stop_is_final w :
  let w2 := event_end (stop w) in
  state_ w2 = STOPPED /\ is_alive_ w2 = false /\ changes_received_ w2 = [] /\
  timer_state_ (heartbeat_response_ w2) = INACTIVE /\ timer_state_ (initial_acknack_ w2) = INACTIVE /\
  (forall b, perform_initial_ack_nack w2 b = (false, [], w2)) /\ perform_heartbeat_response w2 = ([], w2) /\
  forall c f l fin liv dis, process_heartbeat w2 c f l fin liv dis = (false, false, None, w2).
Proof.
  intros w2. destruct (stop_state w) as (H1 & H2 & H3 & H4 & H5). destruct (stopped_ignores (stop w) H1) as (E & Hi).
  unfold w2. rewrite E. done.
Qed.

(** ** Examples *)

Definition sample_start : SequenceNumber_t := SequenceNumber_of 10.
Definition sample_events : list wp_event :=
  [EvReceived (SequenceNumber_of 11); EvReceived (SequenceNumber_of 14); EvNotify; EvNotify;
   EvHeartbeat 1 (SequenceNumber_of 5) (SequenceNumber_of 300) false false false;
   EvIrrelevant (SequenceNumber_of 12); EvReceived (SequenceNumber_of 14); EvNotify;
   EvHeartbeat 2 (SequenceNumber_of 14) (SequenceNumber_of 300) true false false; EvNotify].

Lemma small_usable z : 0 <= z < 1000000 -> usable (SequenceNumber_of z).
Proof. intros Hz. destruct (sn_of_val z) as [Hv E]; [lia|]. split; [done|]. rewrite E. lia. Qed.

Lemma sample_events_ok : Forall ev_ok sample_events.
Proof. repeat constructor; by vm_compute. Qed.

Lemma sample_start_ok : usable sample_start.
Proof. by apply small_usable. Qed.

Notation sample_proxy := (started 0 5000 70000 false sample_start false).

Lemma proxy_refines_spec_witness :
  wp_inv (wp_run sample_proxy sample_events) /\
  notified sample_proxy sample_events = [11; 12; 13].
Proof.
  split; [|reflexivity].
  exact (proj1 (proxy_refines_spec 0 5000 70000 false false sample_start sample_events sample_start_ok sample_events_ok)).
Defined.

Lemma acknowledgement_exact_witness : exists r, missing_changes (wp_run sample_proxy sample_events) = Some r /\ range_wf r.
Proof.
  destruct (acknowledgement_exact 0 5000 70000 false false sample_start sample_events sample_start_ok sample_events_ok)
    as (r & E & W & _). exists r. by split.
Defined.

Lemma acknowledged_was_taught_witness : 13 <= sn_val sample_start \/ exists ev, ev ∈ sample_events /\ teaches ev 13.
Proof.
  destruct (missing_changes (wp_run sample_proxy sample_events)) as [r|] eqn:E; [|vm_compute in E; discriminate E].
  apply (acknowledged_was_taught 0 5000 70000 false false sample_start sample_events sample_start_ok sample_events_ok r 13 E).
  vm_compute in E. injection E as <-. reflexivity.
Defined.

Lemma accepted_at_most_once_witness :
  NoDup (accepted sample_proxy sample_events) /\ accepted sample_proxy sample_events = [11; 14; 12].
Proof.
  split; [|reflexivity].
  exact (proj1 (accepted_at_most_once 0 5000 70000 false false sample_start sample_events sample_start_ok sample_events_ok)).
Defined.

Lemma notified_in_order_witness : exists k, 0 <= k /\ notified sample_proxy sample_events = seqZ 11 k.
Proof.
  destruct (notified_in_order 0 5000 70000 false false sample_start sample_events sample_start_ok sample_events_ok)
    as (k & Hk & E & _). exists k. by split.
Defined.

Lemma heartbeat_handled_witness :
  let '(processed, _, lost, _) := process_heartbeat sample_proxy 1 (SequenceNumber_of 15) (SequenceNumber_of 20) false false false in
  processed = true /\ lost = Some 0.
Proof.
  pose proof (heartbeat_handled sample_proxy 1 (SequenceNumber_of 15) (SequenceNumber_of 20) false false false
    (proj1 (started_represents 0 5000 70000 false sample_start false sample_start_ok))
    (small_usable 15 ltac:(lia)) (small_usable 20 ltac:(lia))) as H.
  destruct (process_heartbeat _ _ _ _ _ _ _) as [[[p a] lo] w']. destruct H as (-> & _ & H). split; [reflexivity|].
  by destruct (H eq_refl) as (_ & _ & _ & _ & -> & _).
Defined.

Lemma initial_acknack_stops_witness : exists n, initial_rounds 23 sample_proxy = Some n /\ 1 <= n <= 23.
Proof. apply (initial_acknack_stops sample_proxy); reflexivity || (intros Hx; discriminate Hx). Defined.

Lemma initial_acknack_never_stops_witness : initial_rounds 1000 (started 0 5000 500 false sample_start false) = None.
Proof.
  apply (initial_acknack_never_stops (started 0 5000 500 false sample_start false) 1000); try reflexivity.
  split; [intros Hx; discriminate Hx|reflexivity].
Defined.
