(* ===== verification/CdrMessage.v ===== *)
(** * Sets of numbers on the wire

    Models the part of [Fast-DDS/src/cpp/rtps/messages/CDRMessage.cpp] that reads
    and writes integers, sequence numbers and sets of sequence and fragment
    numbers on a [CDRMessage_t], in either byte order.  Positions are [uint32_t]
    with wrap-around; an access outside of the buffer is [None].  A reader
    returns the value of the C++ function, the out parameter (unchanged when the
    function does not assign it) and the message.  The lemmas show that what
    is written is read back. *)

From S2P Require Import Prelude FastBuffer SequenceNumber BitmapRange.

Inductive Endianness_t := BIGEND | LITTLEEND.

#[export] Instance Endianness_t_eq_dec : EqDecision Endianness_t.
Proof. solve_decision. Defined.

Record CDRMessage_t := mkMsg {
  buffer : list Z;
  pos : Z;
  msg_max_size : Z;
  msg_length : Z;
  msg_endian : Endianness_t
}.

Section Message.
Context `{P : Platform}.
Implicit Types msg : CDRMessage_t.

Definition RTPS_DEFAULT_ENDIAN : Endianness_t := if big_endian_target then BIGEND else LITTLEEND.

(** The bytes of a value in memory order, reversed for the other byte order. *)
Definition order_bytes msg (bs : list Z) : list Z :=
  if bool_decide (msg_endian msg = RTPS_DEFAULT_ENDIAN) then bs else rev bs.

Definition set_pos msg (p : Z) : CDRMessage_t :=
  mkMsg (buffer msg) p (msg_max_size msg) (msg_length msg) (msg_endian msg).

(** A result of a reader, taken apart. *)
Definition bind3 {A B} (r : option (bool * A * CDRMessage_t)) (f : bool -> A -> CDRMessage_t -> option B) : option B :=
  match r with Some (v, a, m) => f v a m | None => None end.

Notation "'read' v , a , m := r 'in' k" := (bind3 r (fun v a m => k))
  (at level 200, v name, a name, m name, r at level 100, k at level 200).

(** *** Reading *)

(** The common body of [readInt32], [readUInt32], [readInt64] and [readUInt64]:
    [None] inside when there are not enough bytes. *)
Definition read_raw msg (n : Z) : option (option (list Z) * CDRMessage_t) :=
  if u32 (pos msg + n) >? msg_length msg then Some (None, msg)
  else
    bs ← mread (buffer msg) (pos msg) n;
    Some (Some (order_bytes msg bs), set_pos msg (u32 (pos msg + n))).

Definition readInt32 msg (lo : Z) : option (bool * Z * CDRMessage_t) :=
  '(bs, msg) ← read_raw msg 4;
  Some (match bs with Some bs => (true, i32 (host_value bs), msg) | None => (false, lo, msg) end).

Definition readUInt32 msg (ulo : Z) : option (bool * Z * CDRMessage_t) :=
  '(bs, msg) ← read_raw msg 4;
  Some (match bs with Some bs => (true, host_value bs, msg) | None => (false, ulo, msg) end).

Definition readUInt64 msg (ulolo : Z) : option (bool * Z * CDRMessage_t) :=
  '(bs, msg) ← read_raw msg 8;
  Some (match bs with Some bs => (true, host_value bs, msg) | None => (false, ulolo, msg) end).

Definition readSequenceNumber msg (sn : SequenceNumber_t) : option (bool * SequenceNumber_t * CDRMessage_t) :=
  if u32 (pos msg + 8) >? msg_length msg then Some (false, sn, msg)
  else
    read v1, h, msg := readInt32 msg (high sn) in
    read v2, l, msg := readUInt32 msg (low sn) in
    Some (v1 && v2, mkSN h l, msg).

(** The loop over the words of a bitmap: it stops at the first one that is not
    there. *)
Fixpoint read_words (n : nat) msg : option (bool * list Z * CDRMessage_t) :=
  match n with
  | O => Some (true, [], msg)
  | S n =>
      match readUInt32 msg 0 with
      | Some (true, w, msg) => read valid, ws, msg := read_words n msg in Some (valid, w :: ws, msg)
      | Some (false, _, msg) => Some (false, [], msg)
      | None => None
      end
  end.

Definition readSequenceNumberSet msg : option (BitmapRange SequenceNumber_t * CDRMessage_t) :=
  read v1, seqNum, msg := readSequenceNumber msg (mkSN 0 0) in
  read v2, numBits, msg := readUInt32 msg 0 in
  let valid := v1 && v2 && (numBits <=? 256) && (high seqNum >=? 0) in
  let numBits := if valid && (high seqNum =? 2 ^ 31 - 1) then Z.min numBits (2 ^ 32 - 1 - low seqNum) else numBits in
  let n_longs := u32 (numBits + 31) / 32 in
  read v3, bitmap, msg := (if valid then read_words (Z.to_nat n_longs) msg else Some (false, [], msg)) in
  if v3 then
    sns ← bitmap_set (range_of seqNum numBits) numBits bitmap;
    Some (sns, msg)
  else Some (range_new sn_unknown, msg).

Definition readFragmentNumberSet msg (fns : BitmapRange FragmentNumber_t)
  : option (bool * BitmapRange FragmentNumber_t * CDRMessage_t) :=
  read v1, base, msg := readUInt32 msg 0 in
  read v2, numBits, msg := readUInt32 msg 0 in
  let valid := v1 && v2 && (numBits <=? 256) in
  let n_longs := u32 (numBits + 31) / 32 in
  read v3, bitmap, msg := (if valid then read_words (Z.to_nat n_longs) msg else Some (false, [], msg)) in
  if v3 then
    fns ← bitmap_set (range_set_base fns (mkFrag base)) numBits bitmap;
    Some (true, fns, msg)
  else Some (false, fns, msg).

(** *** Writing *)

Definition hasSpace msg (length : Z) : bool := u32 (pos msg + length) <=? msg_max_size msg.

Definition copyToBuffer msg (data : list Z) : option CDRMessage_t :=
  buf ← mwrite (buffer msg) (pos msg) data;
  Some (mkMsg buf (u32 (pos msg + zlen data)) (msg_max_size msg) (u32 (msg_length msg + zlen data)) (msg_endian msg)).

Definition addPrimitive msg (size : nat) (value : Z) : option (bool * CDRMessage_t) :=
  if hasSpace msg (Z.of_nat size) then
    msg ← copyToBuffer msg (order_bytes msg (host_bytes size value));
    Some (true, msg)
  else Some (false, msg).

Definition addInt32 msg (lo : Z) := addPrimitive msg 4 lo.
Definition addUInt32 msg (ulo : Z) := addPrimitive msg 4 ulo.
Definition addUInt64 msg (ulolo : Z) := addPrimitive msg 8 ulolo.

(** The results of the parts are ignored. *)
Definition addSequenceNumber msg (sn : SequenceNumber_t) : option (bool * CDRMessage_t) :=
  '(_, msg) ← addInt32 msg (high sn);
  '(_, msg) ← addUInt32 msg (low sn);
  Some (true, msg).

Fixpoint add_words msg (ws : list Z) : option CDRMessage_t :=
  match ws with
  | [] => Some msg
  | w :: ws => '(_, msg) ← addUInt32 msg w; add_words msg ws
  end.

Definition addSequenceNumberSet msg (sns : BitmapRange SequenceNumber_t) : option (bool * CDRMessage_t) :=
  '(_, msg) ← addSequenceNumber msg (base_ sns);
  if range_empty sns then '(_, msg) ← addUInt32 msg 0; Some (true, msg)
  else
    let '(numBits, bitmap, n_longs) := bitmap_get sns in
    '(_, msg) ← addUInt32 msg numBits;
    msg ← add_words msg (take (Z.to_nat n_longs) bitmap);
    Some (true, msg).

Definition addFragmentNumberSet msg (fns : BitmapRange FragmentNumber_t) : option (bool * CDRMessage_t) :=
  if frag (base_ fns) =? 0 then Some (false, msg)
  else
    '(_, msg) ← addUInt32 msg (frag (base_ fns));
    if range_empty fns then '(_, msg) ← addUInt32 msg 0; Some (true, msg)
    else
      let '(numBits, bitmap, n_longs) := bitmap_get fns in
      '(_, msg) ← addUInt32 msg numBits;
      msg ← add_words msg (take (Z.to_nat n_longs) bitmap);
      Some (true, msg).

(** ** Bytes written and read *)

(** The message is sound: the position and the bytes filled are in the buffer,
    and adding a few bytes to a position does not wrap around. *)
Record msg_ok msg : Prop := mkMsgOk {
  mo_pos : 0 <= pos msg <= msg_max_size msg;
  mo_len : 0 <= msg_length msg <= msg_max_size msg;
  mo_max : msg_max_size msg <= zlen (buffer msg);
  mo_small : msg_max_size msg + 8 < 2 ^ 32
}.

(** [bs] is at [p]. *)
Definition holds (m : list Z) (p : Z) (bs : list Z) : Prop :=
  0 <= p /\ forall i b, bs !! i = Some b -> m !! (Z.to_nat p + i)%nat = Some b.

(** [msg'] is [msg] with [bs] written at its position. *)
Definition emits msg (bs : list Z) msg' : Prop :=
  pos msg' = pos msg + zlen bs /\ zlen (buffer msg') = zlen (buffer msg) /\ msg_max_size msg' = msg_max_size msg /\
  msg_endian msg' = msg_endian msg /\ agree 0 (pos msg) (buffer msg) (buffer msg') /\ holds (buffer msg') (pos msg) bs /\
  msg_length msg' = msg_length msg + zlen bs.

Lemma zlen_app {A} (a b : list A) : zlen (a ++ b) = zlen a + zlen b.
Proof. unfold zlen. rewrite length_app. lia. Qed.

Lemma holds_app m p a b : holds m p a -> holds m (p + zlen a) b -> holds m p (a ++ b).
Proof.
  intros [Hp Ha] [_ Hb]. split; [done|]. intros i c Hi. apply lookup_app_Some in Hi as [Hi|[Hl Hi]]; [by apply Ha|].
  apply Hb in Hi. rewrite <- Hi. f_equal. unfold zlen. lia.
Qed.

Lemma holds_app_inv m p a b : holds m p (a ++ b) -> holds m p a /\ holds m (p + zlen a) b.
Proof.
  intros [Hp H]. split; (split; [unfold zlen; lia|]).
  - intros i c Hi. apply H. by apply lookup_app_l_Some.
  - intros i c Hi. replace (Z.to_nat (p + zlen a) + i)%nat with (Z.to_nat p + (length a + i))%nat by (unfold zlen; lia).
    apply H. rewrite lookup_app_r by lia. rewrite <- Hi. f_equal. lia.
Qed.

Lemma holds_mread m p bs : holds m p bs -> mread m p (zlen bs) = Some bs.
Proof.
  intros [Hp H]. unfold mread. destruct (Z.eqb_spec (zlen bs) 0) as [E|E].
  { destruct bs; [done|]. unfold zlen in E. simpl in E. lia. }
  assert (Hlen : (Z.to_nat p + (length bs - 1) < length m)%nat).
  { destruct (lookup_lt_is_Some_2 bs (length bs - 1)) as [c Hc]; [unfold zlen in E; lia|].
    apply H in Hc. by apply lookup_lt_Some in Hc. }
  replace (in_block m p (zlen bs)) with true by (symmetry; apply in_block_true; unfold zlen in *; lia).
  f_equal. unfold zlen. rewrite Nat2Z.id. apply list_eq. intros i. destruct (bs !! i) as [c|] eqn:Ei.
  - rewrite lookup_take_lt, lookup_drop by (apply lookup_lt_Some in Ei; lia). by apply H.
  - apply lookup_ge_None in Ei. by rewrite lookup_take_ge.
Qed.

Lemma mread_holds m p bs : 0 <= p -> mread m p (zlen bs) = Some bs -> holds m p bs.
Proof.
  intros Hp. unfold mread. destruct (Z.eqb_spec (zlen bs) 0) as [E|E].
  { intros _. destruct bs; [|unfold zlen in E; simpl in E; lia]. by split. }
  destruct (in_block m p (zlen bs)); [|done]. intros H. injection H as H. split; [done|].
  intros i c Hi. rewrite <- H in Hi. apply lookup_take_Some in Hi as [Hi _]. by rewrite lookup_drop in Hi.
Qed.

Lemma holds_agree m m' p bs q : holds m p bs -> agree 0 q m m' -> p + zlen bs <= q -> holds m' p bs.
Proof.
  intros [Hp H] Ha Hq. split; [done|]. intros i c Hi. pose proof (lookup_lt_Some _ _ _ Hi). apply H in Hi.
  specialize (Ha (p + Z.of_nat i)). replace (Z.to_nat (p + Z.of_nat i)) with (Z.to_nat p + i)%nat in Ha by lia.
  rewrite <- Ha; [done|unfold zlen in Hq; lia].
Qed.

Lemma emits_trans m0 a m1 b m2 : emits m0 a m1 -> emits m1 b m2 -> emits m0 (a ++ b) m2.
Proof.
  intros (P1 & L1 & X1 & E1 & A1 & H1 & N1) (P2 & L2 & X2 & E2 & A2 & H2 & N2). pose proof (zlen_nonneg a).
  unfold emits. rewrite zlen_app. split; [lia|]. split; [lia|]. split; [congruence|]. split; [congruence|]. split; [|split].
  - eapply agree_trans; [exact A1|]. eapply agree_weaken; [exact A2|lia|lia].
  - apply holds_app; [eapply holds_agree; [exact H1|exact A2|lia]|]. rewrite P1 in H2. done.
  - lia.
Qed.

(** ** Single values *)

Definition value_bytes msg (size : nat) (v : Z) : list Z := order_bytes msg (host_bytes size v).

Lemma zlen_value_bytes msg size v : zlen (value_bytes msg size v) = Z.of_nat size.
Proof.
  unfold value_bytes, order_bytes, zlen. destruct (bool_decide _); rewrite ?length_rev; by rewrite length_host_bytes.
Qed.

Lemma order_bytes_involutive msg bs : order_bytes msg (order_bytes msg bs) = bs.
Proof. unfold order_bytes. destruct (bool_decide _); [done|apply rev_involutive]. Qed.

Lemma addPrimitive_spec msg size v :
  msg_ok msg -> (size <= 8)%nat -> pos msg + Z.of_nat size <= msg_max_size msg -> msg_length msg + Z.of_nat size <= msg_max_size msg ->
  exists msg', addPrimitive msg size v = Some (true, msg') /\ msg_ok msg' /\ emits msg (value_bytes msg size v) msg'.
Proof.
  intros [Hp Hl Hm Hs] Hsz Hfit Hfit2. unfold addPrimitive, hasSpace. rewrite u32_small by lia.
  rewrite (proj2 (Z.leb_le _ _)) by lia. unfold copyToBuffer. fold (value_bytes msg size v).
  pose proof (zlen_value_bytes msg size v) as Hlen.
  destruct (mwrite_ok (buffer msg) (pos msg) (value_bytes msg size v)) as (m' & -> & El & Ha & _ & Hr); [lia|lia|].
  simpl. rewrite Hlen, !u32_small by lia. eexists. split; [done|]. split; [split; simpl; lia|].
  split; [simpl; lia|]. simpl. split; [done|]. split; [done|]. split; [done|]. split; [done|].
  split; [apply mread_holds; [lia|done]|lia].
Qed.

Lemma read_raw_spec msg bs :
  msg_ok msg -> zlen bs <= 8 -> pos msg + zlen bs <= msg_length msg -> holds (buffer msg) (pos msg) bs ->
  read_raw msg (zlen bs) = Some (Some (order_bytes msg bs), set_pos msg (pos msg + zlen bs)) /\
  msg_ok (set_pos msg (pos msg + zlen bs)).
Proof.
  intros [Hp Hl Hm Hs] H8 Hfit Hh. pose proof (zlen_nonneg bs). unfold read_raw. rewrite u32_small by lia.
  rewrite Z.gtb_ltb, (proj2 (Z.ltb_ge _ _)) by lia. rewrite (holds_mread _ _ _ Hh). simpl. split; [done|].
  split; simpl; lia.
Qed.

Lemma readUInt32_spec msg v v0 :
  msg_ok msg -> 0 <= v < 2 ^ 32 -> pos msg + 4 <= msg_length msg -> holds (buffer msg) (pos msg) (value_bytes msg 4 v) ->
  readUInt32 msg v0 = Some (true, v, set_pos msg (pos msg + 4)) /\ msg_ok (set_pos msg (pos msg + 4)).
Proof.
  intros Hok Hv Hfit Hh. pose proof (zlen_value_bytes msg 4 v) as Hlen. unfold readUInt32.
  destruct (read_raw_spec msg (value_bytes msg 4 v) Hok) as [E Hok']; [lia|lia|done|]. rewrite Hlen in E, Hok'.
  change (Z.of_nat 4) with 4 in *. rewrite E. simpl. split; [|done]. unfold value_bytes.
  rewrite order_bytes_involutive, host_value_bytes. by rewrite Z.mod_small.
Qed.

Lemma readInt32_spec msg v v0 :
  msg_ok msg -> - 2 ^ 31 <= v < 2 ^ 31 -> pos msg + 4 <= msg_length msg -> holds (buffer msg) (pos msg) (value_bytes msg 4 v) ->
  readInt32 msg v0 = Some (true, v, set_pos msg (pos msg + 4)) /\ msg_ok (set_pos msg (pos msg + 4)).
Proof.
  intros Hok Hv Hfit Hh. pose proof (zlen_value_bytes msg 4 v) as Hlen. unfold readInt32.
  destruct (read_raw_spec msg (value_bytes msg 4 v) Hok) as [E Hok']; [lia|lia|done|]. rewrite Hlen in E, Hok'.
  change (Z.of_nat 4) with 4 in *. rewrite E. simpl. split; [|done]. unfold value_bytes.
  rewrite order_bytes_involutive, host_value_bytes. do 2 f_equal. f_equal. change (8 * Z.of_nat 4) with 32.
  unfold i32. rewrite Zplus_mod_idemp_l, Z.mod_small by lia. lia.
Qed.

(** The position is all a reader changes. *)
Lemma value_bytes_same msg msg' size v : msg_endian msg' = msg_endian msg -> value_bytes msg' size v = value_bytes msg size v.
Proof. intros E. unfold value_bytes, order_bytes. by rewrite E. Qed.

(** *** Words *)

Definition words_bytes msg (ws : list Z) : list Z := concat (value_bytes msg 4 <$> ws).

Lemma words_bytes_same msg msg' ws : msg_endian msg' = msg_endian msg -> words_bytes msg' ws = words_bytes msg ws.
Proof.
  intros E. unfold words_bytes. f_equal. apply list_fmap_ext. intros i w _. by apply value_bytes_same.
Qed.

Lemma zlen_words_bytes msg ws : zlen (words_bytes msg ws) = 4 * zlen ws.
Proof.
  induction ws as [|w ws IH]; [done|]. unfold words_bytes in *. cbn [fmap list_fmap concat]. rewrite zlen_app, zlen_value_bytes.
  change (list_fmap _ _ (value_bytes msg 4) ws) with (value_bytes msg 4 <$> ws). rewrite IH. unfold zlen. simpl length. lia.
Qed.

Lemma add_words_spec ws : forall msg,
  msg_ok msg -> pos msg + 4 * zlen ws <= msg_max_size msg -> msg_length msg + 4 * zlen ws <= msg_max_size msg ->
  exists msg', add_words msg ws = Some msg' /\ msg_ok msg' /\ emits msg (words_bytes msg ws) msg'.
Proof.
  induction ws as [|w ws IH]; intros msg Hok Hp Hl.
  { exists msg. split; [done|]. split; [done|]. unfold emits, words_bytes, zlen. simpl. destruct Hok.
    repeat split; (lia || done || apply agree_refl). }
  unfold zlen in Hp, Hl. simpl length in Hp, Hl. fold (zlen ws) in *.
  destruct (addPrimitive_spec msg 4 w) as (m1 & E1 & Hok1 & Hem1); [done|lia|lia|lia|].
  pose proof Hem1 as (P1 & _ & X1 & En1 & _ & _ & N1). rewrite zlen_value_bytes in P1, N1.
  destruct (IH m1 Hok1) as (m2 & E2 & Hok2 & Hem2); [unfold zlen in *; lia|unfold zlen in *; lia|].
  exists m2. cbn [add_words]. unfold addUInt32. rewrite E1. simpl. split; [done|]. split; [done|].
  unfold words_bytes. simpl. eapply emits_trans; [exact Hem1|]. rewrite (words_bytes_same msg m1) in Hem2 by done. done.
Qed.

Lemma read_words_spec ws : forall msg,
  msg_ok msg -> Forall (fun w => 0 <= w < 2 ^ 32) ws -> pos msg + 4 * zlen ws <= msg_length msg ->
  holds (buffer msg) (pos msg) (words_bytes msg ws) ->
  read_words (length ws) msg = Some (true, ws, set_pos msg (pos msg + 4 * zlen ws)) /\
  msg_ok (set_pos msg (pos msg + 4 * zlen ws)).
Proof.
  induction ws as [|w ws IH]; intros msg Hok Hws Hl Hh.
  { unfold zlen. simpl. rewrite Z.add_0_r. destruct msg. split; [done|]. by destruct Hok. }
  inversion Hws as [|? ? Hw Hws']; subst. unfold words_bytes in Hh. cbn [fmap list_fmap concat] in Hh.
  change (list_fmap _ _ (value_bytes msg 4) ws) with (value_bytes msg 4 <$> ws) in Hh.
  apply holds_app_inv in Hh as [Hh1 Hh2]. rewrite zlen_value_bytes in Hh2. fold (words_bytes msg ws) in Hh2.
  assert (El : zlen (w :: ws) = 1 + zlen ws) by (unfold zlen; simpl length; lia). rewrite El in *.
  pose proof (zlen_nonneg ws).
  destruct (readUInt32_spec msg w 0 Hok Hw) as [E Hok']; [lia|done|]. cbn [length read_words]. rewrite E.
  destruct (IH (set_pos msg (pos msg + 4)) Hok' Hws') as [E2 Hok2].
  { simpl. lia. }
  { simpl. by rewrite (words_bytes_same msg). }
  rewrite E2. simpl in *. replace (pos msg + 4 + 4 * zlen ws) with (pos msg + 4 * (1 + zlen ws)) in * by lia. done.
Qed.

(** *** Sequence numbers and sets *)

Definition sn_bytes msg (sn : SequenceNumber_t) : list Z := value_bytes msg 4 (high sn) ++ value_bytes msg 4 (low sn).

Lemma zlen_sn_bytes msg sn : zlen (sn_bytes msg sn) = 8.
Proof. unfold sn_bytes. by rewrite zlen_app, !zlen_value_bytes. Qed.

Lemma addSequenceNumber_spec msg sn :
  msg_ok msg -> pos msg + 8 <= msg_max_size msg -> msg_length msg + 8 <= msg_max_size msg ->
  exists msg', addSequenceNumber msg sn = Some (true, msg') /\ msg_ok msg' /\ emits msg (sn_bytes msg sn) msg'.
Proof.
  intros Hok Hp Hl. destruct (addPrimitive_spec msg 4 (high sn)) as (m1 & E1 & Hok1 & Hem1); [done|lia|lia|lia|].
  pose proof Hem1 as (P1 & _ & X1 & En1 & _ & _ & N1). rewrite zlen_value_bytes in P1, N1.
  destruct (addPrimitive_spec m1 4 (low sn)) as (m2 & E2 & Hok2 & Hem2); [done|lia|lia|lia|].
  exists m2. unfold addSequenceNumber, addInt32, addUInt32. rewrite E1. simpl. rewrite E2. simpl. split; [done|]. split; [done|].
  eapply emits_trans; [exact Hem1|]. rewrite (value_bytes_same msg m1) in Hem2 by done. done.
Qed.

Lemma readSequenceNumber_spec msg sn sn0 :
  msg_ok msg -> sn_ok sn -> pos msg + 8 <= msg_length msg -> holds (buffer msg) (pos msg) (sn_bytes msg sn) ->
  readSequenceNumber msg sn0 = Some (true, sn, set_pos msg (pos msg + 8)) /\ msg_ok (set_pos msg (pos msg + 8)).
Proof.
  intros Hok [Hh Hl] Hfit Hb. apply holds_app_inv in Hb as [Hb1 Hb2]. rewrite zlen_value_bytes in Hb2.
  unfold readSequenceNumber. pose proof (mo_pos _ Hok). pose proof (mo_len _ Hok). pose proof (mo_small _ Hok).
  rewrite u32_small, Z.gtb_ltb, (proj2 (Z.ltb_ge _ _)) by lia.
  destruct (readInt32_spec msg (high sn) (high sn0) Hok Hh) as [E1 Hok1]; [lia|done|]. rewrite E1. simpl.
  destruct (readUInt32_spec (set_pos msg (pos msg + 4)) (low sn) (low sn0) Hok1 Hl) as [E2 Hok2].
  { simpl. lia. }
  { simpl. by rewrite (value_bytes_same msg). }
  rewrite E2. simpl in *. replace (pos msg + 4 + 4) with (pos msg + 8) in * by lia. destruct sn. done.
Qed.

(** The words of a set that go into a message. *)
Definition set_words {T} (r : BitmapRange T) : list Z :=
  if range_empty r then [] else take (Z.to_nat (n_longs r)) (bitmap_ r).

Definition set_bytes msg (r : BitmapRange SequenceNumber_t) : list Z :=
  sn_bytes msg (base_ r) ++ value_bytes msg 4 (num_bits_ r) ++ words_bytes msg (set_words r).

Lemma zlen_set_words {T} `{I : RangeItem T} `{L : !RangeItemLaws T} (r : BitmapRange T) :
  range_wf r -> zlen (set_words r) = n_longs r /\ 0 <= n_longs r <= 8 /\ Forall word (set_words r) /\
  forall i, bit (set_words r) i = bit (bitmap_ r) i.
Proof.
  intros W. pose proof (rw_num _ W). destruct (used_words r W) as [Hf Hl]. unfold set_words, range_empty.
  assert (0 <= n_longs r <= 8) by (unfold n_longs; split; [apply Z.div_pos; lia|apply Z.lt_succ_r, Z.div_lt_upper_bound; lia]).
  destruct (Z.eqb_spec (num_bits_ r) 0) as [E|E].
  - unfold n_longs. rewrite E. split; [done|]. split; [done|]. split; [done|]. intros i.
    destruct (Z.lt_ge_cases i 0); [by rewrite !bit_neg|]. rewrite (rw_top _ W) by lia. unfold bit. rewrite lookup_nil. by destruct (i <? 0).
  - split; [done|]. split; [done|]. split; [done|]. intros i. by apply bit_used.
Qed.

Lemma addSequenceNumberSet_spec msg r :
  msg_ok msg -> range_wf r ->
  pos msg + 12 + 4 * n_longs r <= msg_max_size msg -> msg_length msg + 12 + 4 * n_longs r <= msg_max_size msg ->
  exists msg', addSequenceNumberSet msg r = Some (true, msg') /\ msg_ok msg' /\ emits msg (set_bytes msg r) msg'.
Proof.
  intros Hok W Hp Hl. destruct (zlen_set_words r W) as (Hlen & Hn & _). unfold addSequenceNumberSet.
  destruct (addSequenceNumber_spec msg (base_ r) Hok) as (m1 & E1 & Hok1 & Hem1); [lia|lia|].
  pose proof Hem1 as (P1 & _ & X1 & En1 & _ & _ & N1). rewrite zlen_sn_bytes in P1, N1. rewrite E1. simpl.
  destruct (addPrimitive_spec m1 4 (num_bits_ r)) as (m2 & E2 & Hok2 & Hem2); [done|lia|lia|lia|].
  pose proof Hem2 as (P2 & _ & X2 & En2 & _ & _ & N2). rewrite zlen_value_bytes in P2, N2. unfold addUInt32.
  unfold set_bytes, set_words in *. unfold range_empty in *. destruct (Z.eqb_spec (num_bits_ r) 0) as [E|E].
  - rewrite E in *. rewrite E2. simpl. exists m2. split; [done|]. split; [done|].
    eapply emits_trans; [exact Hem1|]. unfold words_bytes. simpl. rewrite app_nil_r.
    rewrite (value_bytes_same msg m1) in Hem2 by done. done.
  - rewrite E2. simpl. destruct (add_words_spec (take (Z.to_nat (n_longs r)) (bitmap_ r)) m2 Hok2) as (m3 & E3 & Hok3 & Hem3);
      [lia|lia|]. rewrite E3. simpl. exists m3. split; [done|]. split; [done|].
    eapply emits_trans; [exact Hem1|]. eapply emits_trans; [|rewrite (words_bytes_same msg m2) in Hem3 by congruence; exact Hem3].
    rewrite (value_bytes_same msg m1) in Hem2 by done. done.
Qed.

Lemma readSequenceNumberSet_spec msg r :
  msg_ok msg -> range_wf r -> pos msg + 12 + 4 * n_longs r <= msg_length msg ->
  holds (buffer msg) (pos msg) (set_bytes msg r) ->
  exists r', readSequenceNumberSet msg = Some (r', set_pos msg (pos msg + 12 + 4 * n_longs r)) /\ range_wf r' /\
    base_ r' = base_ r /\ forall n, has r' n = has r n.
Proof.
  intros Hok W Hfit Hh. pose proof (rw_num _ W) as Hnum. pose proof (rw_base _ W) as Hb. pose proof (rw_room _ W) as Hroom.
  destruct (zlen_set_words r W) as (Hlen & Hn & Hws & Hbits).
  unfold set_bytes in Hh. apply holds_app_inv in Hh as [Hh1 Hh]. rewrite zlen_sn_bytes in Hh.
  apply holds_app_inv in Hh as [Hh2 Hh3]. rewrite zlen_value_bytes in Hh3. unfold readSequenceNumberSet.
  destruct (readSequenceNumber_spec msg (base_ r) (mkSN 0 0) Hok (sn_valid_ok _ Hb)) as [E1 Hok1]; [lia|done|]. rewrite E1. cbn [bind3].
  destruct (readUInt32_spec (set_pos msg (pos msg + 8)) (num_bits_ r) 0 Hok1) as [E2 Hok2]; [lia|simpl; lia| |].
  { simpl. by rewrite (value_bytes_same msg). }
  rewrite E2. cbn [bind3]. simpl pos in *.
  change (set_pos (set_pos msg (pos msg + 8)) (pos msg + 8 + 4)) with (set_pos msg (pos msg + 8 + 4)) in *. destruct Hb as [Hbok Hbv]. simpl in Hroom. unfold sn_ok, sn_val in *.
  rewrite (proj2 (Z.leb_le _ _)), Z.geb_leb, (proj2 (Z.leb_le 0 (high (base_ r)))) by lia. cbn [andb].
  set (nb := if high (base_ r) =? 2 ^ 31 - 1 then Z.min (num_bits_ r) (2 ^ 32 - 1 - low (base_ r)) else num_bits_ r).
  assert (Enb : nb = num_bits_ r) by (unfold nb; destruct (Z.eqb_spec (high (base_ r)) (2 ^ 31 - 1)); lia).
  rewrite Enb. rewrite u32_small by lia. fold (n_longs r).
  destruct (read_words_spec (set_words r) (set_pos msg (pos msg + 8 + 4)) Hok2) as [E3 Hok3]; [exact Hws|simpl; lia| |].
  { simpl. rewrite (words_bytes_same msg) by done. exact Hh3. }
  replace (Z.to_nat (n_longs r)) with (length (set_words r)) by (unfold zlen in Hlen; lia). rewrite E3. cbn [bind3].
  destruct (range_of_spec (base_ r) (num_bits_ r)) as (W0 & _ & _); [apply W|apply W|lia|].
  destruct (bitmap_set_spec (range_of (base_ r) (num_bits_ r)) (num_bits_ r) (set_words r) W0) as (r' & E4 & W' & Eb & _ & Hh');
    [lia|done|fold (n_longs r); lia|].
  rewrite E4. cbn. exists r'. split; [do 2 f_equal; unfold set_pos; simpl; f_equal; lia|]. split; [done|]. split; [done|].
  intros n. rewrite Hh'. change (base_ (range_of (base_ r) (num_bits_ r))) with (base_ r). rewrite Hbits. unfold has.
  destruct (Z.ltb_spec (n - ival (base_ r)) (num_bits_ r)); [done|]. symmetry. by apply (rw_top _ W).
Qed.

End Message.
