(* ===== verification/MsgReader.v ===== *)
(** * Reading a message

    The readers of [Fast-DDS/src/cpp/rtps/messages/CDRMessage.cpp] that the
    receiver uses, as a state monad over the message, with a weakest
    precondition for them.  A reader that finds too few bytes returns false and
    leaves the out parameter and the position as they were; [None] is an access
    outside of the buffer. *)

From S2P Require Import Prelude FastBuffer SequenceNumber BitmapRange CdrMessage.

(** ** The monad *)

Definition Reader (A : Type) : Type := CDRMessage_t -> option (A * CDRMessage_t).

Definition rret {A} (a : A) : Reader A := fun m => Some (a, m).
Definition rbind {A B} (r : Reader A) (f : A -> Reader B) : Reader B :=
  fun m => match r m with Some (a, m') => f a m' | None => None end.
Definition rget : Reader CDRMessage_t := fun m => Some (m, m).
Definition rput (f : CDRMessage_t -> CDRMessage_t) : Reader unit := fun m => Some (tt, f m).
(** An access outside of the buffer. *)
Definition rcheck {A} (o : option A) : Reader A := fun m => match o with Some a => Some (a, m) | None => None end.

Declare Scope reader_scope.
Delimit Scope reader_scope with reader.
Notation "'let*' x := r 'in' k" := (rbind r (fun x => k))
  (at level 200, x name, r at level 100, k at level 200, right associativity) : reader_scope.
Notation "'let*' ' p := r 'in' k" := (rbind r (fun p => k))
  (at level 200, p strict pattern, r at level 100, k at level 200, right associativity) : reader_scope.
Notation "'do*' r 'in' k" := (rbind r (fun _ => k))
  (at level 200, r at level 100, k at level 200, right associativity) : reader_scope.
Open Scope reader_scope.

Section Readers.
Context `{P : Platform}.

Definition advance (n : Z) : Reader unit := rput (fun m => set_pos m (u32 (pos m + n))).
Definition set_endian (e : Endianness_t) : Reader unit :=
  rput (fun m => mkMsg (buffer m) (pos m) (msg_max_size m) (msg_length m) e).

(** [msg->buffer[msg->pos]] *)
Definition peek : Reader Z := let* m := rget in rcheck (if pos m <? 0 then None else buffer m !! Z.to_nat (pos m)).

Definition readData (n : Z) (old : list Z) : Reader (bool * list Z) :=
  let* m := rget in
  if u32 (pos m + n) >? msg_length m then rret (false, old)
  else if n >? 0 then
    let* bs := rcheck (mread (buffer m) (pos m) n) in
    do* advance n in rret (true, bs)
  else rret (true, old).

Definition readEntityId (old : list Z) : Reader (bool * list Z) :=
  let* m := rget in
  if u32 (pos m + 4) >? msg_length m then rret (false, old)
  else let* bs := rcheck (mread (buffer m) (pos m) 4) in do* advance 4 in rret (true, bs).

Definition readOctet (old : Z) : Reader (bool * Z) :=
  let* m := rget in
  if u32 (pos m + 1) >? msg_length m then rret (false, old)
  else let* b := peek in do* advance 1 in rret (true, b).

(** [readInt16] and [readUInt16] *)
Definition readUInt16 (old : Z) : Reader (bool * Z) :=
  fun m => '(bs, m) ← read_raw m 2;
    Some (match bs with Some bs => ((true, host_value bs), m) | None => ((false, old), m) end).
Definition i16 (z : Z) : Z := (z + 2 ^ 15) mod 2 ^ 16 - 2 ^ 15.
Definition readInt16 (old : Z) : Reader (bool * Z) :=
  let* '(v, x) := readUInt16 (u16 old) in rret (v, if v then i16 x else old).

Definition read_u32 (old : Z) : Reader (bool * Z) := fun m => readUInt32 m old.
Definition read_i32 (old : Z) : Reader (bool * Z) := fun m => readInt32 m old.
Definition read_sn (old : SequenceNumber_t) : Reader (bool * SequenceNumber_t) := fun m => readSequenceNumber m old.
Definition read_sn_set : Reader (BitmapRange SequenceNumber_t) := readSequenceNumberSet.
Definition read_frag_set (old : BitmapRange FragmentNumber_t) : Reader (bool * BitmapRange FragmentNumber_t) :=
  fun m => readFragmentNumberSet m old.

(** Seconds and fraction. *)
Definition readTimestamp (old : Z * Z) : Reader (bool * (Z * Z)) :=
  let* '(v1, s) := read_i32 old.1 in
  let* '(v2, f) := read_u32 0 in
  rret (v1 && v2, (s, f)).

(** ** Weakest preconditions *)

Definition rwp {A} (r : Reader A) (Q : A -> CDRMessage_t -> Prop) (m : CDRMessage_t) : Prop :=
  match r m with Some (a, m') => Q a m' | None => False end.

Lemma rwp_ret {A} (a : A) Q m : Q a m -> rwp (rret a) Q m.
Proof. done. Qed.

Lemma rwp_bind {A B} (r : Reader A) (f : A -> Reader B) Q m : rwp r (fun a m' => rwp (f a) Q m') m -> rwp (rbind r f) Q m.
Proof. unfold rwp, rbind. by destruct (r m) as [[a m']|]. Qed.

Lemma rwp_get Q m : Q m m -> rwp rget Q m.
Proof. done. Qed.

Lemma rwp_put f (Q : unit -> CDRMessage_t -> Prop) m : Q tt (f m) -> rwp (rput f) Q m.
Proof. done. Qed.

Lemma rwp_mono {A} (r : Reader A) (Q Q' : A -> CDRMessage_t -> Prop) m :
  rwp r Q m -> (forall a m', Q a m' -> Q' a m') -> rwp r Q' m.
Proof. unfold rwp. destruct (r m) as [[a m']|]; [auto|done]. Qed.

(** The bytes being read: the position may run [k] bytes past the end. *)
Record reading (B : list Z) (L k : Z) (m : CDRMessage_t) : Prop := mkReading {
  rd_buffer : buffer m = B;
  rd_length : msg_length m = L;
  rd_pos : 0 <= pos m <= L + k;
  rd_max : L <= msg_max_size m <= zlen B;
  rd_small : msg_max_size m + 2 ^ 18 < 2 ^ 32;
  rd_bytes : Forall is_byte B
}.

(** A reader that stays among the bytes: it moves forward, and past the end only
    as far as it was. *)
Definition stays {A} (r : Reader A) (Q : A -> Prop) : Prop :=
  forall B L k m, 0 <= k <= 2 ^ 17 -> reading B L k m ->
    rwp r (fun a m' => reading B L k m' /\ pos m <= pos m' /\ (pos m' = pos m \/ pos m' <= L) /\
                       msg_endian m' = msg_endian m /\ Q a) m.

Lemma reading_pos B L k k' m p : reading B L k m -> 0 <= p <= L + k' -> reading B L k' (set_pos m p).
Proof. intros []. by split. Qed.

Lemma stays_weaken {A} (r : Reader A) (Q Q' : A -> Prop) : stays r Q -> (forall a, Q a -> Q' a) -> stays r Q'.
Proof. intros H HQ B L k m Hk R. eapply rwp_mono; [by apply (H B L k)|]. intros a m' (? & ? & ? & ? & ?). eauto 10. Qed.

Lemma stays_ret {A} (a : A) (Q : A -> Prop) : Q a -> stays (rret a) Q.
Proof. intros HQ B L k m Hk R. apply rwp_ret. split; [done|]. split; [lia|]. split; [by left|done]. Qed.

Lemma stays_bind {A B} (r : Reader A) (f : A -> Reader B) (Q : A -> Prop) (Q' : B -> Prop) :
  stays r Q -> (forall a, Q a -> stays (f a) Q') -> stays (rbind r f) Q'.
Proof.
  intros Hr Hf Bs L k m Hk R. apply rwp_bind. eapply rwp_mono; [by apply (Hr Bs L k)|].
  intros a m' (R' & Hp & Hp' & He & HQ). eapply rwp_mono; [by apply (Hf a HQ Bs L k)|].
  intros b m'' (R'' & Hq & Hq' & He' & HQ'). split; [done|]. split; [lia|]. split; [|split; [congruence|done]].
  destruct Hq' as [->|?]; [destruct Hp'; auto|by right].
Qed.

(** Reading [n] bytes that are there. *)
Lemma reading_mread B L k m n : reading B L k m -> 0 <= n -> pos m + n <= L ->
  exists bs, mread (buffer m) (pos m) n = Some bs /\ zlen bs = n /\ Forall is_byte bs.
Proof.
  intros [] Hn Hp. destruct (mread_ok (buffer m) (pos m) n) as (bs & E & El); [lia|lia|rewrite rd_buffer0; lia|].
  exists bs. split; [done|]. split; [done|]. unfold mread in E. destruct (n =? 0); [by simplify_eq|].
  destruct (in_block _ _ _); [|done]. injection E as <-. subst B. by apply Forall_take, Forall_drop.
Qed.

Lemma stays_take n {A} (old : A) (f : list Z -> A) (Q : bool * A -> Prop) :
  0 <= n <= 2 ^ 16 -> Q (false, old) -> (forall bs, zlen bs = n -> Forall is_byte bs -> Q (true, f bs)) ->
  stays (let* m := rget in
         if u32 (pos m + n) >? msg_length m then rret (false, old)
         else let* bs := rcheck (mread (buffer m) (pos m) n) in do* advance n in rret (true, f bs)) Q.
Proof.
  intros Hn Hold Hf B L k m Hk R. apply rwp_bind, rwp_get. pose proof R as [Rb Rl Rp Rm Rs Ry].
  rewrite u32_small by lia. destruct (Z.gtb_spec (pos m + n) (msg_length m)) as [Hgt|Hle].
  - apply rwp_ret. split; [done|]. split; [lia|]. split; [by left|done].
  - destruct (reading_mread B L k m n R) as (bs & E & El & Hb); [lia|lia|]. unfold rwp, rbind, rcheck, advance, rput, rret.
    rewrite E. rewrite u32_small by lia. split; [apply (reading_pos B L k); [done|lia]|]. simpl. split; [lia|]. split; [right; lia|].
    split; [done|]. by apply Hf.
Qed.

Lemma stays_entity_id old : stays (readEntityId old) (fun _ => True).
Proof. apply (stays_take 4); [lia|done|done]. Qed.

Lemma stays_data n old : 0 <= n <= 2 ^ 16 -> stays (readData n old) (fun p => p.1 = true -> 0 < n -> zlen p.2 = n /\ Forall is_byte p.2).
Proof.
  intros Hn. destruct (Z.gtb_spec n 0) as [Hpos|Hz].
  - unfold readData. eapply stays_weaken; [|intros a H; exact H].
    intros B L k m Hk R. pose proof (stays_take n old id (fun p => p.1 = true -> 0 < n -> zlen p.2 = n /\ Forall is_byte p.2)
      Hn ltac:(done) ltac:(done) B L k m Hk R) as H.
    unfold rwp, rbind, rget in *. simpl in *. destruct (u32 (pos m + n) >? msg_length m); [done|].
    rewrite Z.gtb_ltb, (proj2 (Z.ltb_lt _ _)) by lia. done.
  - unfold readData. intros B L k m Hk R. apply rwp_bind, rwp_get.
    rewrite (Z.gtb_ltb n), (proj2 (Z.ltb_ge 0 n)) by lia.
    destruct (_ >? _); apply rwp_ret; (split; [done|]); (split; [lia|]); (split; [by left|]); (split; [done|lia]).
Qed.

Lemma stays_raw n {A} (old : A) (f : list Z -> A) (Q : bool * A -> Prop) :
  0 <= n <= 8 -> Q (false, old) -> (forall bs, zlen bs = n -> Forall is_byte bs -> Q (true, f bs)) ->
  stays (fun m => '(bs, m) ← read_raw m n;
           Some (match bs with Some bs => ((true, f bs), m) | None => ((false, old), m) end)) Q.
Proof.
  intros Hn Hold Hf B L k m Hk R. pose proof R as [Rb Rl Rp Rm Rs Ry]. unfold rwp, read_raw. rewrite u32_small by lia.
  destruct (Z.gtb_spec (pos m + n) (msg_length m)) as [Hgt|Hle].
  - simpl. split; [done|]. split; [lia|]. split; [by left|done].
  - destruct (reading_mread B L k m n R) as (bs & E & El & Hb); [lia|lia|]. rewrite E. simpl.
    split; [apply (reading_pos B L k); [done|lia]|]. split; [lia|]. split; [right; lia|].
    split; [done|]. apply Hf; unfold order_bytes; destruct (bool_decide _); try done.
    + unfold zlen. by rewrite length_rev.
    + by apply Forall_rev.
Qed.

Lemma host_value_bound n bs : Forall is_byte bs -> zlen bs = Z.of_nat n -> 0 <= host_value bs < 2 ^ (8 * Z.of_nat n).
Proof.
  intros Hb Hl. unfold host_value, zlen in *. rewrite <- Hl. destruct big_endian_target.
  - rewrite <- (length_rev bs). apply le_value_range. by apply Forall_rev.
  - by apply le_value_range.
Qed.

Lemma stays_u16 old : 0 <= old < 2 ^ 16 -> stays (readUInt16 old) (fun p => 0 <= p.2 < 2 ^ 16).
Proof.
  intros Ho. apply (stays_raw 2 old host_value); [lia|done|]. intros bs El Hb. by apply (host_value_bound 2).
Qed.

Lemma stays_i16 old : - 2 ^ 15 <= old < 2 ^ 15 -> stays (readInt16 old) (fun p => - 2 ^ 15 <= p.2 < 2 ^ 15).
Proof.
  intros Ho. unfold readInt16. eapply stays_bind; [apply stays_u16, Z.mod_pos_bound; lia|].
  intros [v x] Hx. apply stays_ret. simpl in *. destruct v; [|done]. unfold i16.
  pose proof (Z.mod_pos_bound (x + 2 ^ 15) (2 ^ 16)). lia.
Qed.

Lemma stays_u32 old : 0 <= old < 2 ^ 32 -> stays (read_u32 old) (fun p => 0 <= p.2 < 2 ^ 32).
Proof.
  intros Ho. apply (stays_raw 4 old host_value); [lia|done|]. intros bs El Hb. by apply (host_value_bound 4).
Qed.

Lemma stays_i32 old : - 2 ^ 31 <= old < 2 ^ 31 -> stays (read_i32 old) (fun p => - 2 ^ 31 <= p.2 < 2 ^ 31).
Proof.
  intros Ho. apply (stays_raw 4 old (fun bs => i32 (host_value bs))); [lia|done|]. intros bs El Hb. simpl. unfold i32.
  pose proof (Z.mod_pos_bound (host_value bs + 2 ^ 31) (2 ^ 32)). lia.
Qed.

Lemma stays_ext {A} (r r' : Reader A) (Q : A -> Prop) : (forall m, r m = r' m) -> stays r' Q -> stays r Q.
Proof. intros E H B L k m Hk R. unfold rwp. rewrite E. by apply (H B L k). Qed.

Lemma stays_octet old : stays (readOctet old) (fun p => is_byte old -> is_byte p.2).
Proof.
  intros B L k m Hk R. pose proof R as [Rb Rl Rp Rm Rs Ry]. unfold readOctet. apply rwp_bind, rwp_get.
  rewrite u32_small by lia. destruct (Z.gtb_spec (pos m + 1) (msg_length m)) as [Hgt|Hle].
  - apply rwp_ret. split; [done|]. split; [lia|]. split; [by left|done].
  - destruct (lookup_lt_is_Some_2 (buffer m) (Z.to_nat (pos m))) as [b Eb]; [rewrite Rb; unfold zlen in *; lia|].
    unfold rwp, rbind, peek, rget, rcheck, advance, rput, rret, rbind. rewrite (proj2 (Z.ltb_ge _ _)), Eb, u32_small by lia.
    split; [apply (reading_pos B L k); [done|lia]|]. simpl. split; [lia|]. split; [right; lia|]. split; [done|].
    intros _. subst B. by eapply Forall_lookup_1.
Qed.

Lemma stays_sn old : sn_ok old -> stays (read_sn old) (fun p => sn_ok p.2).
Proof.
  intros [Hh Hl]. eapply (stays_ext _ (let* m := rget in
    if u32 (pos m + 8) >? msg_length m then rret (false, old)
    else let* '(v1, h) := read_i32 (high old) in let* '(v2, l) := read_u32 (low old) in rret (v1 && v2, mkSN h l))).
  - intros m. unfold read_sn, readSequenceNumber, bind3, rbind, rget, rret, read_i32, read_u32.
    destruct (_ >? _); [done|]. destruct (readInt32 m (high old)) as [[[v1 h] m1]|]; [|done].
    by destruct (readUInt32 m1 (low old)) as [[[v2 l] m2]|].
  - intros B L k m Hk R. apply rwp_bind, rwp_get. destruct (_ >? _).
    + by apply (stays_ret (false, old) (fun p => sn_ok p.2)).
    + revert B L k m Hk R. change (stays (let* '(v1, h) := read_i32 (high old) in
        let* '(v2, l) := read_u32 (low old) in rret (v1 && v2, mkSN h l)) (fun p => sn_ok p.2)).
      eapply stays_bind; [by apply stays_i32|]. intros [v1 h] Hh'. eapply stays_bind; [by apply stays_u32|].
      intros [v2 l] Hl'. by apply stays_ret.
Qed.

Lemma stays_timestamp old : - 2 ^ 31 <= old.1 < 2 ^ 31 -> stays (readTimestamp old) (fun p => - 2 ^ 31 <= p.2.1 < 2 ^ 31 /\ 0 <= p.2.2 < 2 ^ 32).
Proof.
  intros Ho. unfold readTimestamp. eapply stays_bind; [by apply stays_i32|]. intros [v1 s] Hs.
  eapply stays_bind; [apply stays_u32; lia|]. intros [v2 f] Hf. by apply stays_ret.
Qed.

(** Sets: the words of a bitmap. *)
Definition read_words_r (n : nat) : Reader (bool * list Z) := fun m => read_words n m.

Lemma stays_words n : stays (read_words_r n) (fun p => Forall word p.2 /\ (p.1 = true -> length p.2 = n)).
Proof.
  induction n as [|n IH]; [by apply (stays_ret (true, []))|].
  apply (stays_ext _ (let* '(v, w) := read_u32 0 in
    if (v : bool) then let* '(v, ws) := read_words_r n in rret (v, w :: ws) else rret (false, []))).
  - intros m. unfold read_words_r, rbind, rret, read_u32. cbn [read_words].
    destruct (readUInt32 m 0) as [[[[|] w] m1]|]; [|done|done]. by destruct (read_words n m1) as [[[v ws] m2]|].
  - eapply stays_bind; [apply stays_u32; lia|]. intros [[|] w] Hw; [|by apply (stays_ret (false, []))].
    eapply stays_bind; [exact IH|]. intros [v ws] [Hws Hlen]. apply stays_ret. simpl in *.
    split; [by constructor|]. intros Hv. by rewrite Hlen.
Qed.

(** What a set read from a message can be. *)
Definition set_read_ok {T} (base_ok : T -> Prop) (r : BitmapRange T) : Prop :=
  base_ok (base_ r) /\ counts (bitmap_ r) (num_bits_ r).

Lemma n_longs_bound nb : 0 <= nb <= 256 -> u32 (nb + 31) / 32 = (nb + 31) / 32.
Proof. intros. by rewrite u32_small by lia. Qed.

Lemma stays_sn_set : stays read_sn_set (fun r => r = range_new sn_unknown \/
  (set_read_ok sn_valid r /\ sn_val (base_ r) + num_bits_ r < 2 ^ 63)).
Proof.
  apply (stays_ext _ (let* '(v1, sn) := read_sn (mkSN 0 0) in let* '(v2, nb) := read_u32 0 in
    let valid := v1 && v2 && (nb <=? 256) && (high sn >=? 0) in
    let nb := if valid && (high sn =? 2 ^ 31 - 1) then Z.min nb (2 ^ 32 - 1 - low sn) else nb in
    let* '(v3, bitmap) := (if valid then read_words_r (Z.to_nat (u32 (nb + 31) / 32)) else rret (false, [])) in
    if (v3 : bool) then rcheck (bitmap_set (range_of sn nb) nb bitmap) else rret (range_new sn_unknown))).
  - intros m. unfold read_sn_set, readSequenceNumberSet, read_sn, read_u32, read_words_r, bind3, rbind, rret, rcheck.
    destruct (readSequenceNumber m (mkSN 0 0)) as [[[v1 sn] m1]|]; [|done].
    destruct (readUInt32 m1 0) as [[[v2 nb] m2]|]; [|done]. cbv zeta.
    destruct (v1 && v2 && (nb <=? 256) && (high sn >=? 0)); [|done]. destruct (read_words _ m2) as [[[[|] ws] m3]|]; done || by destruct (bitmap_set _ _ _).
  - eapply stays_bind; [by apply stays_sn|]. intros [v1 sn] Hsn. eapply stays_bind; [apply stays_u32; lia|].
    intros [v2 nb] Hnb. cbv zeta. simpl in *. destruct (v1 && v2 && (nb <=? 256) && (high sn >=? 0)) eqn:Ev; cbn [andb].
    2:{ eapply stays_bind; [by apply (stays_ret (false, []) (fun p => p.1 = false))|]. intros [v3 ws] E. simpl in E. subst. apply stays_ret. by left. }
    apply andb_true_iff in Ev as [Ev Hhi]. apply andb_true_iff in Ev as [_ Hle]. apply Z.leb_le in Hle.
    rewrite Z.geb_leb in Hhi. apply Z.leb_le in Hhi. destruct Hsn as [Hh Hl].
    set (nb' := if high sn =? 2 ^ 31 - 1 then Z.min nb (2 ^ 32 - 1 - low sn) else nb).
    assert (Hnb' : 0 <= nb' <= 256 /\ sn_val sn + nb' < 2 ^ 63)
      by (unfold nb', sn_val; destruct (Z.eqb_spec (high sn) (2 ^ 31 - 1)); lia).
    destruct Hnb' as [Hnb' Hroom]. rewrite n_longs_bound by done.
    eapply stays_bind; [apply stays_words|]. intros [[|] ws] [Hws Hlen]; [|apply stays_ret; by left].
    destruct (bitmap_set_bits (range_of sn nb') nb' ws Hnb' Hws) as (ws' & m & E4 & Hc & Hb).
    { unfold zlen. simpl in Hlen. rewrite (Hlen eq_refl). lia. }
    rewrite E4. apply (stays_ret (mkRange _ _ ws' m)). right. split; [split; [split; [done|simpl; unfold sn_val; lia]|done]|]. simpl.
    destruct Hc as (_ & Hm & _ & Hlast). destruct (Z.eq_dec m 0) as [->|]; [unfold sn_val in *; lia|].
    specialize (Hlast ltac:(lia)). rewrite Hb in Hlast. apply andb_true_iff in Hlast as [Hlast _]. apply Z.ltb_lt in Hlast. lia.
Qed.

Lemma stays_frag_set old : set_read_ok (fun x => 0 <= frag x < 2 ^ 32) old ->
  stays (read_frag_set old) (fun p => set_read_ok (fun x => 0 <= frag x < 2 ^ 32) p.2).
Proof.
  intros Hold. apply (stays_ext _ (let* '(v1, base) := read_u32 0 in let* '(v2, nb) := read_u32 0 in
    let valid := v1 && v2 && (nb <=? 256) in
    let* '(v3, bitmap) := (if valid then read_words_r (Z.to_nat (u32 (nb + 31) / 32)) else rret (false, [])) in
    if (v3 : bool) then let* r := rcheck (bitmap_set (range_set_base old (mkFrag base)) nb bitmap) in rret (true, r)
    else rret (false, old))).
  - intros m. unfold read_frag_set, readFragmentNumberSet, read_u32, read_words_r, bind3, rbind, rret, rcheck.
    destruct (readUInt32 m 0) as [[[v1 sn] m1]|]; [|done].
    destruct (readUInt32 m1 0) as [[[v2 nb] m2]|]; [|done]. cbv zeta.
    destruct (v1 && v2 && (nb <=? 256)); [|done]. destruct (read_words _ m2) as [[[[|] ws] m3]|]; done || by destruct (bitmap_set _ _ _).
  - eapply stays_bind; [apply stays_u32; lia|]. intros [v1 b] Hb. eapply stays_bind; [apply stays_u32; lia|].
    intros [v2 nb] Hnb. cbv zeta. simpl in *. destruct (v1 && v2 && (nb <=? 256)) eqn:Ev.
    2:{ eapply stays_bind; [by apply (stays_ret (false, []) (fun p => p.1 = false))|]. intros [v3 ws] E. simpl in E. subst. by apply stays_ret. }
    apply andb_true_iff in Ev as [_ Hle]. apply Z.leb_le in Hle. rewrite n_longs_bound by lia.
    eapply stays_bind; [apply stays_words|]. intros [[|] ws] [Hws Hlen]; [|by apply stays_ret].
    destruct (bitmap_set_bits (range_set_base old (mkFrag b)) nb ws) as (ws' & m & E4 & Hc & _); [lia|done| |].
    { unfold zlen. simpl in Hlen. rewrite (Hlen eq_refl). lia. }
    rewrite E4. apply (stays_ret (true, mkRange _ _ ws' m)). done.
Qed.

End Readers.
