(* ===== verification/Fragments.v ===== *)
(** * Fragmented samples

    Models the assembly of a sample out of fragments in
    [Fast-DDS/include/fastdds/rtps/common/CacheChange.hpp]: [setFragmentSize],
    [add_fragments], [received_fragments], [get_missing_fragments] and the list
    of missing fragments, which is kept in the payload itself: the first four
    aligned bytes of a missing fragment hold the index of the next one.  An
    access outside of the allocated bytes is [None].  The loops over the list
    take a bound on their number of rounds, and [None] also says that it was
    not enough; the theorems give a bound that is.

    The specification is the set of the fragments that are missing. *)

From Stdlib Require Import Sorted.
From S2P Require Import Prelude FastBuffer SequenceNumber BitmapRange CdrMessage.

(** The fields of [CacheChange_t] that assembly uses.  [payload] is the memory
    at [serializedPayload.data], as far as it is allocated. *)
Record Change := mkChange {
  payload : list Z;
  payload_length : Z;
  fragment_size_ : Z;
  fragment_count_ : Z;
  first_missing_fragment_ : Z
}.

Section Fragments.
Context `{P : Platform}.
Implicit Types ch : Change.

Definition is_fully_assembled ch : bool := first_missing_fragment_ ch >=? fragment_count_ ch.
Definition contains_first_fragment ch : bool := 0 <? first_missing_fragment_ ch.

(** The offset is a [size_t], the mask [~3u] has 32 bits. *)
Definition next_fragment_pointer (fragment_size fragment_index : Z) : Z :=
  Z.land (fragment_size * fragment_index + 3) 0xFFFFFFFC.

Definition get_next_missing_fragment (data : list Z) (fragment_size fragment_index : Z) : option Z :=
  host_value <$> mread data (next_fragment_pointer fragment_size fragment_index) 4.

Definition set_next_missing_fragment (data : list Z) (fragment_size fragment_index next_fragment_index : Z) : option (list Z) :=
  mwrite data (next_fragment_pointer fragment_size fragment_index) (host_bytes 4 next_fragment_index).

(** The loop of [setFragmentSize] that links each fragment to the next. *)
Fixpoint link_fragments (n : nat) (data : list Z) (fragment_size i : Z) : option (list Z) :=
  match n with
  | O => Some data
  | S n =>
      data ← set_next_missing_fragment data fragment_size (i - 1) i;
      link_fragments n data fragment_size (i + 1)
  end.

Definition setFragmentSize ch (fragment_size : Z) (create_fragment_list : bool) : option Change :=
  if fragment_size >? 0 then
    let count := u32 (payload_length ch + fragment_size - 1) / fragment_size in
    if create_fragment_list then
      data ← link_fragments (Z.to_nat count) (payload ch) fragment_size 1;
      Some (mkChange data (payload_length ch) fragment_size count 0)
    else Some (mkChange (payload ch) (payload_length ch) fragment_size count count)
  else Some (mkChange (payload ch) (payload_length ch) fragment_size 0 0).

(** [while (cur < last) cur = next(cur)], and whether it made a round. *)
Fixpoint skip_missing (fuel : nat) (data : list Z) (fragment_size cur last : Z) : option (Z * bool) :=
  if cur <? last then
    match fuel with
    | O => None
    | S fuel =>
        cur ← get_next_missing_fragment data fragment_size cur;
        '(cur, _) ← skip_missing fuel data fragment_size cur last;
        Some (cur, true)
    end
  else Some (cur, false).

(** The loop that looks for the fragment before [initial] and unlinks. *)
Fixpoint unlink_missing (fuel : nat) (data : list Z) (fragment_size cur initial last : Z) : option (list Z * bool) :=
  if cur <? initial then
    match fuel with
    | O => None
    | S fuel =>
        next_frag ← get_next_missing_fragment data fragment_size cur;
        if next_frag >=? initial then
          '(next_missing, changed) ← skip_missing fuel data fragment_size next_frag last;
          if changed : bool then
            data ← set_next_missing_fragment data fragment_size cur next_missing;
            Some (data, true)
          else Some (data, false)
        else unlink_missing fuel data fragment_size next_frag initial last
    end
  else Some (data, false).

Definition received_fragments (fuel : nat) ch (initial_fragment num_of_fragments : Z) : option (bool * Change) :=
  if (fragment_size_ ch >? 0) && (initial_fragment <? fragment_count_ ch) then
    let last_fragment := u32 (initial_fragment + num_of_fragments) in
    let last_fragment := if last_fragment >? fragment_count_ ch then fragment_count_ ch else last_fragment in
    if initial_fragment <=? first_missing_fragment_ ch then
      '(first, changed) ← skip_missing fuel (payload ch) (fragment_size_ ch) (first_missing_fragment_ ch) last_fragment;
      Some (changed, mkChange (payload ch) (payload_length ch) (fragment_size_ ch) (fragment_count_ ch) first)
    else
      '(data, changed) ← unlink_missing fuel (payload ch) (fragment_size_ ch) (first_missing_fragment_ ch)
                           initial_fragment last_fragment;
      Some (changed, mkChange data (payload_length ch) (fragment_size_ ch) (fragment_count_ ch) (first_missing_fragment_ ch))
  else Some (false, ch).

(** [incoming_data] is the memory at the incoming payload, [incoming_data_length]
    the length it is said to have. *)
Definition add_fragments (fuel : nat) ch (incoming_data : list Z) (incoming_data_length : Z)
    (fragment_starting_num fragments_in_submessage : Z) : option (bool * Change) :=
  let original_offset := u32 (u32 (fragment_starting_num - 1) * fragment_size_ ch) in
  let incoming_length := u32 (fragment_size_ ch * fragments_in_submessage) in
  let last_fragment_index := u32 (fragment_starting_num + fragments_in_submessage - 1) in
  if last_fragment_index >? fragment_count_ ch then Some (false, ch)
  else if (last_fragment_index <? fragment_count_ ch) && (incoming_data_length <? incoming_length) then Some (false, ch)
  else
    let incoming_length :=
      if last_fragment_index <? fragment_count_ ch then incoming_length
      else u32 (payload_length ch - original_offset) in
    if u32 (original_offset + incoming_length) >? payload_length ch then Some (false, ch)
    else
      '(changed, ch) ← received_fragments fuel ch (u32 (fragment_starting_num - 1)) fragments_in_submessage;
      if changed : bool then
        bs ← mread incoming_data 0 incoming_length;
        data ← mwrite (payload ch) original_offset bs;
        let ch := mkChange data (payload_length ch) (fragment_size_ ch) (fragment_count_ ch) (first_missing_fragment_ ch) in
        Some (is_fully_assembled ch, ch)
      else Some (is_fully_assembled ch, ch).

(** [get_missing_fragments]: the numbers start at 1. *)
Fixpoint collect_missing (fuel : nat) ch (current_frag : Z) (frag_sns : BitmapRange FragmentNumber_t)
  : option (BitmapRange FragmentNumber_t) :=
  if current_frag <? fragment_count_ ch then
    match fuel with
    | O => None
    | S fuel =>
        '(_, frag_sns) ← range_add frag_sns (mkFrag (u32 (current_frag + 1)));
        current_frag ← get_next_missing_fragment (payload ch) (fragment_size_ ch) current_frag;
        collect_missing fuel ch current_frag frag_sns
    end
  else Some frag_sns.

Definition get_missing_fragments (fuel : nat) ch (frag_sns : BitmapRange FragmentNumber_t)
  : option (BitmapRange FragmentNumber_t) :=
  collect_missing fuel ch (first_missing_fragment_ ch)
    (range_set_base frag_sns (mkFrag (u32 (first_missing_fragment_ ch + 1)))).


(** ** Where the links are *)

(** The fragment sizes for which the link of a fragment lies in the fragment. *)
Definition links_fit (fs : Z) : Prop := (fs = 4 \/ 6 <= fs) /\ fs < 2 ^ 16.

Definition n_fragments (fs len : Z) : Z := (len + fs - 1) / fs.

Lemma n_fragments_spec fs len : 0 < fs -> 0 < len ->
  0 < n_fragments fs len /\ fs * (n_fragments fs len - 1) < len <= fs * n_fragments fs len.
Proof.
  intros Hf Hl. unfold n_fragments. pose proof (Z.div_mod (len + fs - 1) fs ltac:(lia)).
  pose proof (Z.mod_pos_bound (len + fs - 1) fs Hf). split; [|lia]. apply Z.div_str_pos. lia.
Qed.

Lemma slot_eq fs i : 0 <= fs * i -> fs * i + 3 < 2 ^ 32 -> next_fragment_pointer fs i = (fs * i + 3) / 4 * 4.
Proof.
  intros Hlo Hhi. unfold next_fragment_pointer. apply mask_align4. lia.
Qed.

Lemma slot_in fs i : links_fit fs -> 0 <= i -> fs * i + 4 < 2 ^ 32 ->
  fs * i <= next_fragment_pointer fs i /\ next_fragment_pointer fs i + 4 <= fs * (i + 1).
Proof.
  intros [Hf _] Hi Hb. rewrite slot_eq by (destruct Hf; nia). rewrite Z.mul_add_distr_l, Z.mul_1_r.
  pose proof (Z.div_mod (fs * i + 3) 4 ltac:(lia)). pose proof (Z.mod_pos_bound (fs * i + 3) 4 ltac:(lia)).
  split; [lia|]. destruct Hf as [->|Hf]; [|destruct (Z.eq_dec fs 6) as [->|]]; [|lia..].
  replace (4 * i + 3) with (3 + i * 4) in * by lia. rewrite Z_div_plus_full in * by lia. change (3 / 4) with 0 in *. lia.
Qed.

(** ** The list of missing fragments *)

Notation next := get_next_missing_fragment.
Notation slot := next_fragment_pointer.

(** The fragments of [M], linked from [cur] on. *)
Fixpoint chain (data : list Z) (fs cnt cur : Z) (M : list Z) : Prop :=
  match M with
  | [] => cur = cnt
  | a :: M => cur = a /\ exists nx, next data fs a = Some nx /\ chain data fs cnt nx M
  end.

Lemma next_frame data data' fs a v :
  next data fs a = Some v -> agree (slot fs a) (slot fs a + 4) data data' -> zlen data' = zlen data -> next data' fs a = Some v.
Proof.
  unfold next. destruct (mread data _ 4) as [bs|] eqn:E; [|done]. intros Hv Ha Hl.
  assert (slot fs a + 4 <= zlen data).
  { unfold mread in E. simpl in E. destruct (in_block _ _ _) eqn:Eb; [|done]. apply in_block_true in Eb. lia. }
  by rewrite (mread_agree _ _ _ _ _ E Ha) by lia.
Qed.

Lemma chain_frame data data' fs cnt cur M :
  chain data fs cnt cur M -> (forall a, a ∈ M -> agree (slot fs a) (slot fs a + 4) data data') -> zlen data' = zlen data ->
  chain data' fs cnt cur M.
Proof.
  intros Hc Ha Hl. revert cur Hc. induction M as [|a M IH]; intros cur; [done|]. intros (-> & nx & Hn & Hc).
  split; [done|]. exists nx. split; [eapply next_frame; [done|apply Ha; left|done]|].
  apply IH; [|done]. intros b Hb. apply Ha. by right.
Qed.

Lemma set_next_ok data fs p v : 0 <= slot fs p -> slot fs p + 4 <= zlen data -> 0 <= v < 2 ^ 32 ->
  exists data', set_next_missing_fragment data fs p v = Some data' /\ zlen data' = zlen data /\
    agree 0 (slot fs p) data data' /\ agree (slot fs p + 4) (zlen data) data data' /\ next data' fs p = Some v.
Proof.
  intros H0 Hl Hv. unfold set_next_missing_fragment, next.
  assert (E4 : zlen (host_bytes 4 v) = 4) by (unfold zlen; by rewrite length_host_bytes).
  destruct (mwrite_ok data (slot fs p) (host_bytes 4 v)) as (d' & E & El & A1 & A2 & R); [done|lia|].
  rewrite E4 in A2, R. exists d'. rewrite R. simpl. rewrite host_value_bytes, Z.mod_small by done. auto.
Qed.

Lemma chain_head data fs cnt cur M : chain data fs cnt cur M -> cur = default cnt (head M).
Proof. destruct M; [done|]. by intros [-> _]. Qed.

Definition ascending (M : list Z) (cnt : Z) : Prop := StronglySorted Z.lt M /\ Forall (fun x => 0 <= x < cnt) M.

Lemma fragments_ascending_cons a M cnt : ascending (a :: M) cnt -> 0 <= a < cnt /\ Forall (Z.lt a) M /\ ascending M cnt.
Proof. intros [Hs Hf]. apply StronglySorted_inv in Hs as [? ?]. inversion Hf; subst. by split; [|split; [|split]]. Qed.

Lemma filter_all {A} (Pr : A -> Prop) `{forall x, Decision (Pr x)} (l : list A) : Forall Pr l -> filter Pr l = l.
Proof. induction 1 as [|x l Hx _ IH]; [done|]. rewrite filter_cons_True by done. by rewrite IH. Qed.

Lemma ascending_filter (Pr : Z -> Prop) `{forall x, Decision (Pr x)} M cnt : ascending M cnt -> ascending (filter Pr M) cnt.
Proof.
  intros [Hs Hf]. assert (Hall : forall Q : Z -> Prop, Forall Q M -> Forall Q (filter Pr M)).
  { intros Q. rewrite !list.Forall_forall. intros HQ x [_ Hx]%list_elem_of_filter. auto. }
  split; [|by apply Hall]. clear Hf Hall. induction Hs as [|a M Hs IH Ha]; [constructor|]. destruct (decide (Pr a)).
  - rewrite filter_cons_True by done. constructor; [done|]. rewrite list.Forall_forall in *.
    intros x [_ Hx]%list_elem_of_filter. auto.
  - by rewrite filter_cons_False.
Qed.

(** The rounds the code makes stop at the first missing fragment from [last] on. *)
Lemma skip_missing_spec data fs cnt last M : forall cur fuel,
  chain data fs cnt cur M -> ascending M cnt -> last <= cnt -> (length M <= fuel)%nat ->
  exists cur', skip_missing fuel data fs cur last = Some (cur', bool_decide (Exists (fun x => x < last) M)) /\
    chain data fs cnt cur' (filter (fun x => last <= x) M).
Proof.
  induction M as [|a M IH]; intros cur fuel Hc Hs Hl Hf.
  { simpl in Hc. subst cur. exists cnt. rewrite bool_decide_eq_false_2 by (by intros H; inversion H).
    by destruct fuel; cbn [skip_missing]; rewrite (proj2 (Z.ltb_ge _ _)) by done. }
  destruct Hc as (-> & nx & Hn & Hc). apply fragments_ascending_cons in Hs as (Ha & Hlt & Hs).
  destruct (Z.ltb_spec a last) as [Hal|Hal].
  - destruct fuel as [|fuel]; [simpl in Hf; lia|]. destruct (IH nx fuel Hc Hs Hl) as (c & E & Hc'); [simpl in Hf; lia|].
    exists c. rewrite (bool_decide_eq_true_2 (Exists _ (a :: M))) by (by left). cbn [skip_missing].
    rewrite (proj2 (Z.ltb_lt _ _)) by done. rewrite Hn. simpl. rewrite E. split; [done|]. by rewrite filter_cons_False by lia.
  - exists a. assert (Hall : Forall (fun x => last <= x) (a :: M)).
    { constructor; [done|]. eapply list.Forall_impl; [done|]. simpl. lia. }
    rewrite (filter_all (fun x => last <= x)) by done. split; [|by split; [|exists nx]].
    rewrite bool_decide_eq_false_2.
    + destruct fuel; cbn [skip_missing]; by rewrite (proj2 (Z.ltb_ge _ _)).
    + rewrite list.Exists_exists. intros (x & Hx & Hxl). rewrite list.Forall_forall in Hall. specialize (Hall x Hx). lia.
Qed.

(** The bytes of [data] outside of the links of [S] are those of [data']. *)
Definition links_only (fs : Z) (S : Z -> Prop) (data data' : list Z) : Prop :=
  zlen data' = zlen data /\
  forall lo hi, 0 <= lo -> hi <= zlen data -> (forall b, S b -> hi <= slot fs b \/ slot fs b + 4 <= lo) -> agree lo hi data data'.

Lemma links_only_refl fs S data : links_only fs S data data.
Proof. by split. Qed.

Lemma links_only_set data fs p v (S : Z -> Prop) : 0 <= slot fs p -> slot fs p + 4 <= zlen data -> 0 <= v < 2 ^ 32 -> S p ->
  exists data', set_next_missing_fragment data fs p v = Some data' /\ links_only fs S data data' /\ next data' fs p = Some v.
Proof.
  intros H0 Hl Hv Hp. destruct (set_next_ok data fs p v H0 Hl Hv) as (d & E & El & A1 & A2 & Hn).
  exists d. split; [done|]. split; [|done]. split; [done|]. intros lo hi Hlo Hhi Hs. destruct (Hs p Hp).
  - eapply agree_weaken; [exact A1|lia|lia].
  - eapply agree_weaken; [exact A2|lia|lia].
Qed.

(** Slots of different fragments do not overlap. *)
Lemma slot_disjoint fs a b : links_fit fs -> 0 <= a < b -> fs * b + 4 < 2 ^ 32 -> slot fs a + 4 <= slot fs b.
Proof.
  intros Hf Hab Hb. assert (0 < fs) by (destruct Hf as [[->|] _]; lia).
  destruct (slot_in fs a Hf) as [_ H1]; [lia|nia|]. destruct (slot_in fs b Hf) as [H2 _]; [lia|lia|]. nia.
Qed.

(** The links of the fragments below [cnt] are in the memory. *)
Definition room (data : list Z) (fs cnt : Z) : Prop :=
  links_fit fs /\ 0 <= cnt /\ fs * cnt + 4 < 2 ^ 32 /\ forall i, 0 <= i < cnt -> 0 <= slot fs i /\ slot fs i + 4 <= zlen data.

Lemma Exists_weaken_iff {A} (P1 P2 : A -> Prop) l : Forall (fun x => P1 x <-> P2 x) l -> Exists P1 l <-> Exists P2 l.
Proof.
  induction 1 as [|x l Hx _ IH]; [by split; intros H; inversion H|]. rewrite !Exists_cons. naive_solver.
Qed.

Lemma filter_iff_in {A} (P1 P2 : A -> Prop) `{forall x, Decision (P1 x)} `{forall x, Decision (P2 x)} l :
  Forall (fun x => P1 x <-> P2 x) l -> filter P1 l = filter P2 l.
Proof.
  induction 1 as [|x l Hx _ IH]; [done|]. destruct (decide (P1 x)).
  - rewrite !filter_cons_True by naive_solver. by rewrite IH.
  - rewrite !filter_cons_False by naive_solver. done.
Qed.

(** The last fragment before [initial] is linked to the first one from [last] on. *)
Lemma unlink_here data fs cnt initial last a nx M fuel : room data fs cnt -> initial <= last <= cnt ->
  next data fs a = Some nx -> chain data fs cnt nx M -> ascending (a :: M) cnt -> a < initial ->
  Forall (fun x => initial <= x) M -> (length M <= fuel)%nat ->
  exists data', ('(next_missing, changed) ← skip_missing fuel data fs nx last;
      if changed : bool then data ← set_next_missing_fragment data fs a next_missing; Some (data, true)
      else Some (data, false)) =
      Some (data', bool_decide (Exists (fun x => initial <= x < last) (a :: M))) /\
    links_only fs (fun b => b ∈ a :: M /\ b < initial) data data' /\
    chain data' fs cnt a (filter (fun x => ~ initial <= x < last) (a :: M)).
Proof.
  intros (Hfit & H0 & Hsmall & Hroom) Hl Hn Hc Hs Ha Hge Hf. apply fragments_ascending_cons in Hs as (Hac & Hlt & Hs).
  destruct (skip_missing_spec data fs cnt last M nx fuel Hc Hs) as (c & E & Hc'); [lia|done|]. rewrite E. cbn [mbind option_bind].
  rewrite filter_cons_True by lia.
  rewrite <- (filter_iff_in (fun x => last <= x) (fun x => ~ initial <= x < last)) by (eapply list.Forall_impl; [exact Hge|simpl; lia]).
  replace (bool_decide (Exists (fun x => initial <= x < last) (a :: M))) with (bool_decide (Exists (fun x => x < last) M)).
  2:{ apply bool_decide_ext. rewrite Exists_cons. rewrite (Exists_weaken_iff (fun x => initial <= x < last) (fun x => x < last)).
      - naive_solver lia.
      - eapply list.Forall_impl; [exact Hge|simpl; lia]. }
  case_bool_decide as Hex.
  - destruct (Hroom a Hac) as [Ha0 Ha1].
    assert (Hcb : 0 <= c < 2 ^ 32).
    { apply chain_head in Hc'. assert (cnt < 2 ^ 32) by (destruct Hfit as [[->|] _]; nia).
      destruct (filter _ M) as [|c' M'] eqn:EM; simpl in Hc'; subst c; [lia|].
      assert (c' ∈ filter (fun x => last <= x) M) as [_ Hin]%list_elem_of_filter by (rewrite EM; left).
      destruct Hs as [_ Hs]. rewrite list.Forall_forall in Hs. specialize (Hs c' Hin). simpl in Hs. lia. }
    destruct (links_only_set data fs a c (fun b => b ∈ a :: M /\ b < initial) Ha0 Ha1 Hcb) as (d & E2 & Hlo & Hnd);
      [by split; [left|]|].
    rewrite E2. exists d. split; [done|]. split; [done|]. split; [done|]. exists c. split; [done|].
    destruct (set_next_ok data fs a c Ha0 Ha1 Hcb) as (d' & E3 & El & _ & A2 & _). rewrite E2 in E3. injection E3 as <-.
    apply (chain_frame data); [done| |done]. intros b [_ Hb]%list_elem_of_filter.
    assert (a < b < cnt).
    { rewrite list.Forall_forall in Hlt. specialize (Hlt b Hb). destruct Hs as [_ Hs].
      rewrite list.Forall_forall in Hs. specialize (Hs b Hb). simpl in Hs. lia. }
    eapply agree_weaken; [exact A2| |].
    + apply slot_disjoint; [done|lia|]. destruct Hfit as [[->|] _]; nia.
    + apply Hroom. lia.
  - exists data. split; [done|]. split; [apply links_only_refl|]. split; [done|]. exists nx. split; [done|].
    rewrite filter_all; [done|]. rewrite list.Forall_forall. intros x Hx. destruct (Z.lt_ge_cases x last); [|done].
    exfalso. apply Hex. rewrite list.Exists_exists. eauto.
Qed.

Lemma ascending_above a M cnt x : ascending (a :: M) cnt -> x <= a -> Forall (fun y => x <= y) (a :: M).
Proof.
  intros (_ & Hlt & _)%fragments_ascending_cons Hx. constructor; [done|]. eapply list.Forall_impl; [done|]. simpl. lia.
Qed.

Lemma unlink_missing_spec data fs cnt initial last M : room data fs cnt -> initial <= last <= cnt -> forall a fuel,
  chain data fs cnt a (a :: M) -> ascending (a :: M) cnt -> a < initial -> (length (a :: M) <= fuel)%nat ->
  exists data', unlink_missing fuel data fs a initial last =
      Some (data', bool_decide (Exists (fun x => initial <= x < last) (a :: M))) /\
    links_only fs (fun b => b ∈ a :: M /\ b < initial) data data' /\
    chain data' fs cnt a (filter (fun x => ~ initial <= x < last) (a :: M)).
Proof.
  intros Hroom Hl. induction M as [|b M IH] using list_ind; intros a fuel Hch Hs Ha Hf;
    (destruct fuel as [|fuel]; [simpl in Hf; lia|]); destruct Hch as (_ & nx & Hn & Hc); cbn [unlink_missing];
    rewrite (proj2 (Z.ltb_lt _ _)) by done; rewrite Hn; cbn [mbind option_bind]; simpl in Hf.
  - simpl in Hc. rewrite Z.geb_leb, (proj2 (Z.leb_le _ _)) by lia. eapply unlink_here; try done; simpl; lia.
  - pose proof Hc as [-> _]. apply fragments_ascending_cons in Hs as Hs'. destruct Hs' as (Hac & Hlt & Hs').
    destruct (Z.geb_spec b initial) as [Hb|Hb].
    { eapply unlink_here; try done; [|simpl; lia]. eapply ascending_above; [done|lia]. }
    destruct (IH b fuel Hc Hs') as (d & E & [El Hlo] & Hc'); [lia|simpl; lia|]. exists d. split; [|split].
    + rewrite E. do 2 f_equal. apply bool_decide_ext. rewrite (Exists_cons _ a). naive_solver lia.
    + split; [done|]. intros lo hi H0 H1 Hx. apply Hlo; [done|done|]. intros y [Hy ?]. apply Hx. split; [by right|done].
    + rewrite filter_cons_True by lia. split; [done|]. exists b. split; [|done].
      apply (next_frame data); [done| |done]. destruct Hroom as (Hfit & H0 & Hsmall & Hr).
      destruct (Hr a Hac) as [??]. apply Hlo; [done|done|]. intros y [Hy _]. left.
      assert (a < y /\ y < cnt) as [Hay Hyc].
      { rewrite list.Forall_forall in Hlt. split; [by apply Hlt|]. destruct Hs' as [_ Hs'].
        rewrite list.Forall_forall in Hs'. by apply Hs'. }
      apply slot_disjoint; [done|lia|]. destruct Hfit as [[->|] _]; nia.
Qed.

End Fragments.
