(* ===== verification/FragmentsSpec.v ===== *)
(** * Assembly of a sample: the theorems

    The state of an assembly against its specification, the list of the
    fragments that are still missing: creating the list, adding the fragments of
    a message, and asking for the missing ones.  Fragments may come in any order,
    more than once and several to a message; once none is missing the payload is
    the sample.  The file ends with the fragment sizes for which it is not. *)

From Stdlib Require Import Sorted.
From S2P Require Import Prelude FastBuffer SequenceNumber BitmapRange CdrMessage Fragments.

Section Assembly.
Context `{P : Platform}.

Notation next := get_next_missing_fragment.
Notation slot := next_fragment_pointer.

(** [0, 1, .., n - 1] from [i] on. *)
Definition upto (i : Z) (n : nat) : list Z := (fun k => i + Z.of_nat k) <$> seq 0 n.

Lemma upto_S i n : upto i (S n) = i :: upto (i + 1) n.
Proof.
  unfold upto. cbn [seq]. rewrite <- fmap_S_seq. rewrite fmap_cons. f_equal; [lia|].
  rewrite <- list_fmap_compose. apply list_fmap_ext. intros ? k _. simpl. lia.
Qed.

Lemma elem_of_upto i n x : x ∈ upto i n <-> i <= x < i + Z.of_nat n.
Proof.
  unfold upto. rewrite list_elem_of_fmap. split.
  - intros (k & -> & Hk). apply elem_of_seq in Hk. lia.
  - intros Hx. exists (Z.to_nat (x - i)). split; [lia|]. apply elem_of_seq. lia.
Qed.

Lemma upto_ascending i n cnt : 0 <= i -> i + Z.of_nat n <= cnt -> ascending (upto i n) cnt.
Proof.
  intros Hi Hn. split.
  - revert i Hi Hn. induction n as [|n IH]; intros i Hi Hn; [constructor|]. rewrite upto_S. constructor; [apply IH; lia|].
    rewrite list.Forall_forall. intros x Hx. apply elem_of_upto in Hx. lia.
  - rewrite list.Forall_forall. intros x Hx. apply elem_of_upto in Hx. lia.
Qed.

Lemma length_upto i n : length (upto i n) = n.
Proof. unfold upto. by rewrite length_fmap, length_seq. Qed.

(** The loop of [setFragmentSize] links every fragment. *)
Lemma link_fragments_spec fs cnt : forall n data i, room data fs cnt -> 1 <= i -> i - 1 + Z.of_nat n = cnt ->
  exists data', link_fragments n data fs i = Some data' /\ links_only fs (fun b => i - 1 <= b < cnt) data data' /\
    chain data' fs cnt (i - 1) (upto (i - 1) n).
Proof.
  induction n as [|n IH]; intros data i Hroom Hi Hn.
  { exists data. split; [done|]. split; [apply links_only_refl|]. simpl. lia. }
  pose proof Hroom as (Hfit & H0 & Hsmall & Hr). cbn [link_fragments].
  assert (cnt < 2 ^ 32) by (destruct Hfit as [[->|] _]; nia). destruct (Hr (i - 1)) as [Hs0 Hs1]; [lia|].
  destruct (links_only_set data fs (i - 1) i (fun b => i - 1 <= b < cnt) Hs0 Hs1) as (d & E & [El Hlo] & Hn1); [lia|lia|].
  rewrite E. cbn [mbind option_bind]. destruct (IH d (i + 1)) as (d' & E' & [El' Hlo'] & Hc'); [|lia|lia|].
  { split; [done|]. split; [done|]. split; [done|]. by rewrite El. }
  replace (i + 1 - 1) with i in * by lia. exists d'. split; [done|]. split.
  - split; [congruence|]. intros lo hi Hlo0 Hhi Hb. eapply agree_trans; [by apply Hlo|]. apply Hlo'; [done|lia|].
    intros b Hbb. apply Hb. lia.
  - rewrite upto_S. replace (i - 1 + 1) with i by lia. split; [done|]. exists i. split; [|done].
    apply (next_frame d); [done| |done]. apply Hlo'; [done|lia|]. intros b Hb. left.
    apply slot_disjoint; [done|lia|]. destruct Hfit as [[->|] _]; nia.
Qed.

(** ** The state of an assembly *)

Context (sample : list Z) (fs : Z).

Notation len := (zlen sample).
Notation cnt := (n_fragments fs (zlen sample)).

(** [M] are the fragments that are missing; the bytes of the others are those
    of the sample. *)
Record assembling (ch : Change) (M : list Z) : Prop := mkAssembling {
  as_len : payload_length ch = len;
  as_fs : fragment_size_ ch = fs;
  as_cnt : fragment_count_ ch = cnt;
  as_room : room (payload ch) fs cnt;
  as_alloc : len <= zlen (payload ch);
  as_chain : chain (payload ch) fs cnt (first_missing_fragment_ ch) M;
  as_asc : ascending M cnt;
  as_bytes : forall i, 0 <= i < cnt -> i ∉ M -> agree (fs * i) (Z.min (fs * (i + 1)) len) (payload ch) sample
}.

(** A sample that fits: the sizes do not wrap around, and the memory has room for
    the link of the last fragment. *)
Definition fits (alloc : Z) : Prop :=
  links_fit fs /\ 0 < len /\ len + 2 ^ 17 <= 2 ^ 32 /\ len <= alloc /\ slot fs (cnt - 1) + 4 <= alloc.

Lemma fits_room data : fits (zlen data) -> room data fs cnt.
Proof.
  intros (Hfit & H0 & Hsmall & Ha & Hl). assert (Hf : 0 < fs) by (destruct Hfit as [[->|] _]; lia).
  destruct (n_fragments_spec fs len Hf H0) as [Hc [Hlo Hhi]]. pose proof Hfit as [_ Hmax].
  assert (fs * cnt + 4 < 2 ^ 32) by nia. split; [done|]. split; [lia|]. split; [done|].
  intros i Hi. destruct (slot_in fs i Hfit) as [H1 H2]; [lia|nia|]. split; [nia|].
  destruct (Z.eq_dec i (cnt - 1)) as [->|]; [done|].
  assert (slot fs i + 4 <= slot fs (cnt - 1)) by (apply slot_disjoint; [done|lia|nia]). lia.
Qed.

Lemma start_assembling ch : fits (zlen (payload ch)) -> payload_length ch = len ->
  exists ch', setFragmentSize ch fs true = Some ch' /\ assembling ch' (upto 0 (Z.to_nat cnt)) /\
    zlen (payload ch') = zlen (payload ch).
Proof.
  intros Hfits Hlen. pose proof (fits_room _ Hfits) as Hroom. destruct Hfits as (Hfit & H0 & Hsmall & Ha & _).
  assert (Hf : 0 < fs) by (destruct Hfit as [[->|] _]; lia). pose proof Hfit as [_ Hmax].
  destruct (n_fragments_spec fs len Hf H0) as [Hc _]. unfold setFragmentSize.
  rewrite Z.gtb_ltb, (proj2 (Z.ltb_lt _ _)) by done. rewrite Hlen, u32_small by lia. fold (n_fragments fs len).
  destruct (link_fragments_spec fs cnt (Z.to_nat cnt) (payload ch) 1 Hroom) as (d & E & [El Hlo] & Hch); [lia|lia|].
  rewrite E. simpl. eexists. split; [done|]. split; [|done]. split; simpl; [done|done|done| |lia|exact Hch| |].
  - destruct Hroom as (? & ? & ? & Hr). split; [done|]. split; [done|]. split; [done|]. by rewrite El.
  - apply upto_ascending; lia.
  - intros i Hi Hn. exfalso. apply Hn. apply elem_of_upto. lia.
Qed.

(** ** Fragments received *)

Lemma chain_above ch M x : assembling ch M -> x <= first_missing_fragment_ ch -> x <= cnt ->
  Forall (fun y => x <= y) M.
Proof.
  intros As Hx Hc. pose proof (as_chain _ _ As) as Hch. destruct M as [|a M]; [constructor|].
  apply chain_head in Hch. simpl in Hch. eapply ascending_above; [apply (as_asc _ _ As)|lia].
Qed.

Lemma received_fragments_spec ch M initial n fuel :
  assembling ch M -> 0 <= initial < cnt -> 0 <= n -> initial + n <= cnt -> (length M <= fuel)%nat ->
  exists data first, received_fragments fuel ch initial n =
      Some (bool_decide (Exists (fun x => initial <= x < initial + n) M),
            mkChange data (payload_length ch) (fragment_size_ ch) (fragment_count_ ch) first) /\
    links_only fs (fun b => b ∈ M /\ b < initial) (payload ch) data /\
    chain data fs cnt first (filter (fun x => ~ initial <= x < initial + n) M).
Proof.
  intros As Hi Hn Hin Hfuel. pose proof As as [Al Af Ac (Hfit & H0 & Hsmall & Hr) Aa Ach Aasc _].
  assert (Hf : 0 < fs) by (destruct Hfit as [[->|] _]; lia). assert (cnt < 2 ^ 32) by nia.
  unfold received_fragments. rewrite Af, Ac. rewrite Z.gtb_ltb, (proj2 (Z.ltb_lt 0 fs)), (proj2 (Z.ltb_lt initial cnt)) by lia.
  cbn [andb]. rewrite u32_small by lia. rewrite Z.gtb_ltb, (proj2 (Z.ltb_ge cnt _)) by lia.
  destruct (Z.leb_spec initial (first_missing_fragment_ ch)) as [Hle|Hgt].
  - pose proof (chain_above ch M initial As Hle ltac:(lia)) as Hab.
    destruct (skip_missing_spec (payload ch) fs cnt (initial + n) M _ fuel Ach Aasc) as (c & E & Hc); [lia|done|].
    rewrite E. cbn [mbind option_bind]. exists (payload ch), c. split; [|split; [apply links_only_refl|]].
    + do 2 f_equal. apply bool_decide_ext, Exists_weaken_iff. eapply list.Forall_impl; [exact Hab|simpl; lia].
    + rewrite <- (filter_iff_in (fun x => initial + n <= x) (fun x => ~ initial <= x < initial + n)); [done|]. eapply list.Forall_impl; [exact Hab|simpl; lia].
  - destruct M as [|a M]; [simpl in Ach; lia|]. pose proof (chain_head _ _ _ _ _ Ach) as Ea. simpl in Ea. rewrite Ea in *.
    destruct (unlink_missing_spec (payload ch) fs cnt initial (initial + n) M) with (a := a) (fuel := fuel)
      as (d & E & Hlo & Hc); [done|lia|done|done|done|done|].
    rewrite E. cbn [mbind option_bind]. rewrite <- Ea. exists d, a. rewrite Ea. auto.
Qed.

(** When it was told nothing new, nothing has changed. *)
Lemma skip_missing_same fuel data last : forall cur c, skip_missing fuel data fs cur last = Some (c, false) -> c = cur.
Proof.
  destruct fuel; intros cur c; cbn [skip_missing]; destruct (cur <? last); [done|naive_solver| |naive_solver].
  destruct (next data fs cur) as [y|]; [|done]. simpl. by destruct (skip_missing fuel data fs y last) as [[??]|].
Qed.

Lemma unlink_missing_same fuel data initial last : forall cur d,
  unlink_missing fuel data fs cur initial last = Some (d, false) -> d = data.
Proof.
  induction fuel as [|fuel IH]; intros cur d; cbn [unlink_missing]; destruct (cur <? initial); [done|naive_solver| |naive_solver].
  destruct (next data fs cur) as [y|]; [|done]. cbn [mbind option_bind]. destruct (y >=? initial); [|apply IH].
  destruct (skip_missing fuel data fs y last) as [[z [|]]|]; [|naive_solver|done]. cbn [mbind option_bind].
  by destruct (set_next_missing_fragment data fs cur z).
Qed.

Lemma received_fragments_same ch fuel initial n ch' :
  fragment_size_ ch = fs -> received_fragments fuel ch initial n = Some (false, ch') -> ch' = ch.
Proof.
  intros Hf. unfold received_fragments. rewrite Hf. destruct (_ && _); [|naive_solver]. cbv zeta. destruct (initial <=? _).
  - destruct (skip_missing _ _ _ _ _) as [[c [|]]|] eqn:E; [done| |done]. apply skip_missing_same in E as ->.
    intros [= <-]. rewrite <- Hf. by destruct ch.
  - destruct (unlink_missing _ _ _ _ _ _) as [[d [|]]|] eqn:E; [done| |done]. apply unlink_missing_same in E as ->.
    intros [= <-]. rewrite <- Hf. by destruct ch.
Qed.

(** The bytes of the fragments from [start] on, as many as the sample has. *)
Definition extent (start n : Z) : Z := Z.min (fs * (start - 1 + n)) len - fs * (start - 1).

(** A message about fragments that the sample has. *)
Definition in_sample (start n : Z) : Prop := 1 <= start /\ 1 <= n /\ start - 1 + n <= cnt.

#[export] Instance in_sample_dec start n : Decision (in_sample start n).
Proof. unfold in_sample. apply _. Defined.

Definition covers (start n i : Z) : Prop := in_sample start n /\ start - 1 <= i < start - 1 + n.

#[export] Instance covers_dec start n i : Decision (covers start n i).
Proof. unfold covers. apply _. Defined.

(** The message carries the bytes of the sample. *)
Definition carries (start n : Z) (incoming : list Z) (incoming_length : Z) : Prop :=
  in_sample start n -> extent start n <= incoming_length /\
    mread incoming 0 (extent start n) = mread sample (fs * (start - 1)) (extent start n).

(** A message about other fragments changes nothing. *)
Lemma add_fragments_elsewhere ch M start n incoming incoming_length fuel :
  assembling ch M -> len + 2 ^ 17 <= 2 ^ 32 -> 0 < len -> 0 <= start < 2 ^ 32 -> 0 <= n < 2 ^ 16 -> ~ in_sample start n -> (length M <= fuel)%nat ->
  exists b, add_fragments fuel ch incoming incoming_length start n = Some (b, ch) /\ (b = true -> is_fully_assembled ch = true).
Proof.
  intros As Hs H0 Hst Hn Hout Hfuel. pose proof As as [Al Af Ac (Hfit & Hc0 & Hsmall & Hr) Aa Ach Aasc _].
  assert (Hf : 0 < fs) by (destruct Hfit as [[->|] _]; lia). destruct (n_fragments_spec fs len Hf H0) as [_ [Hlo Hhi]].
  unfold add_fragments. cbv zeta. repeat (case_match; [by exists false|]).
  match goal with H : (u32 (start + n - 1) >? _) = false |- _ => rename H into Hlast end.
  assert (Hrec : received_fragments fuel ch (u32 (start - 1)) n = Some (false, ch)); [|by rewrite Hrec; cbn; eauto].
  destruct (Z.eq_dec start 0) as [->|].
  { unfold received_fragments. rewrite Ac. replace (u32 (0 - 1)) with (2 ^ 32 - 1) by done.
    assert (cnt <= len) by nia. by rewrite (proj2 (Z.ltb_ge _ _)), andb_false_r by lia. }
  rewrite u32_small by lia. destruct (Z.lt_ge_cases (start - 1) cnt) as [Hlt|Hge].
  - assert (cnt <= len) by nia. rewrite u32_small in Hlast by lia. rewrite Z.gtb_ltb, Ac in Hlast. apply Z.ltb_ge in Hlast.
    assert (n = 0) as -> by (unfold in_sample in Hout; lia).
    destruct (received_fragments_spec ch M (start - 1) 0 fuel As) as (d & f & E & _ & _); [lia|lia|lia|done|].
    assert (Hno : ~ Exists (fun x => start - 1 <= x < start - 1 + 0) M).
    { rewrite list.Exists_exists. intros (x & _ & Hx). lia. }
    rewrite bool_decide_eq_false_2 in E by done. rewrite E. by rewrite (received_fragments_same _ _ _ _ _ Af E).
  - unfold received_fragments. rewrite Ac. by rewrite (proj2 (Z.ltb_ge _ _)), andb_false_r by lia.
Qed.

(** Copying bytes of the sample over. *)
Lemma mwrite_sample data off n : 0 <= off -> 0 < n -> off + n <= len -> len <= zlen data ->
  exists bs data', mread sample off n = Some bs /\ mwrite data off bs = Some data' /\ zlen data' = zlen data /\
    agree 0 off data data' /\ agree (off + n) (zlen data) data data' /\ agree off (off + n) data' sample.
Proof.
  intros Ho Hn Hl Ha. destruct (mread_ok sample off n) as (bs & E & El); [lia|lia|lia|].
  destruct (mwrite_ok data off bs) as (d & E2 & El2 & A1 & A2 & R); [done|lia|]. exists bs, d. rewrite <- El in E.
  apply mread_holds in E as [_ E]; [|done]. apply mread_holds in R as [_ R]; [|done]. rewrite El in *.
  split; [rewrite <- El at 1; apply holds_mread; by split|]. do 4 (split; [done|]). intros x Hx.
  destruct (lookup_lt_is_Some_2 bs (Z.to_nat (x - off))) as [c Hc]; [unfold zlen in El; lia|].
  apply E in Hc as H1. apply R in Hc as H2. replace (Z.to_nat off + Z.to_nat (x - off))%nat with (Z.to_nat x) in * by lia. congruence.
Qed.

(** The zone of a fragment is clear of the links of the others. *)
Lemma zone_clear data data' (S : Z -> Prop) i : room data fs cnt -> links_only fs S data data' -> 0 <= i < cnt ->
  (forall b, S b -> 0 <= b < cnt /\ b <> i) -> forall hi, hi <= fs * (i + 1) -> hi <= zlen data -> agree (fs * i) hi data data'.
Proof.
  intros (Hfit & _ & Hsmall & _) [_ Hlo] Hi HS hi Hhi Hl. assert (0 < fs) by (destruct Hfit as [[->|] _]; lia).
  apply Hlo; [lia|done|]. intros b Hb. apply HS in Hb as [Hb Hne].
  destruct (slot_in fs b Hfit) as [H1 H2]; [lia|nia|]. destruct (Z.lt_ge_cases b i); [right|left]; nia.
Qed.

(** The bytes of a message: as many as the sample has of these fragments. *)
Lemma extent_spec start n : 0 < fs -> 0 < len -> in_sample start n ->
  0 < extent start n /\ 0 <= fs * (start - 1) /\ fs * (start - 1) + extent start n <= len /\
  (start - 1 + n < cnt -> extent start n = fs * n) /\ (start - 1 + n = cnt -> extent start n = len - fs * (start - 1)) /\
  (forall i, start - 1 <= i < start - 1 + n -> fs * (start - 1) <= fs * i /\ Z.min (fs * (i + 1)) len <= fs * (start - 1) + extent start n) /\
  (forall i, i < start - 1 -> fs * (i + 1) <= fs * (start - 1)) /\
  (forall i, start - 1 + n <= i -> fs * (start - 1) + extent start n <= fs * i).
Proof.
  intros Hf H0 (H1 & H2 & H3). destruct (n_fragments_spec fs len Hf H0) as [_ [Hlo Hhi]]. unfold extent.
  assert (fs * (start - 1) <= fs * (cnt - 1)) by nia. assert (fs * (start - 1) < fs * (start - 1 + n)) by nia.
  split; [lia|]. split; [nia|]. split; [lia|]. split; [intros; nia|]. split; [intros E; rewrite E; lia|].
  split; [intros i Hi; split; [nia|]|split; intros i Hi; nia].
  assert (fs * (i + 1) <= fs * (start - 1 + n)) by nia. lia.
Qed.

Lemma assembling_copy ch M start n data data' first :
  assembling ch M -> 0 < len -> in_sample start n ->
  links_only fs (fun b => b ∈ M /\ b < start - 1) (payload ch) data ->
  chain data fs cnt first (filter (fun x => ~ start - 1 <= x < start - 1 + n) M) ->
  zlen data' = zlen data -> agree 0 (fs * (start - 1)) data data' ->
  agree (fs * (start - 1) + extent start n) (zlen data) data data' ->
  agree (fs * (start - 1)) (fs * (start - 1) + extent start n) data' sample ->
  assembling (mkChange data' (payload_length ch) (fragment_size_ ch) (fragment_count_ ch) first)
    (filter (fun x => ~ covers start n x) M).
Proof.
  intros As H0 Hin Hlo Hch El A1 A2 A3. pose proof As as [Al Af Ac Hroom Aa Ach Aasc Ab].
  pose proof Hroom as (Hfit & Hc0 & Hsmall & Hr). assert (Hf : 0 < fs) by (destruct Hfit as [[->|] _]; lia).
  destruct (extent_spec start n Hf H0 Hin) as (He & Ho & Hol & _ & _ & Hz & Hz1 & Hz2). pose proof Hlo as [El0 _].
  assert (HM : Forall (fun x => 0 <= x < cnt) M) by apply Aasc. rewrite list.Forall_forall in HM.
  rewrite <- (filter_iff_in (fun x => ~ start - 1 <= x < start - 1 + n) (fun x => ~ covers start n x)) by (rewrite list.Forall_forall; unfold covers; intuition).
  split; simpl; [done|done|done| |lia| | |].
  - split; [done|]. split; [done|]. split; [done|]. by rewrite El, El0.
  - apply (chain_frame data); [done| |done]. intros a [Ha Hm]%list_elem_of_filter. apply HM in Hm.
    destruct (slot_in fs a Hfit) as [H1 H2]; [lia|nia|]. destruct (Hr a Hm) as [H3 H4].
    destruct (Z.lt_ge_cases a (start - 1)) as [Hlt|Hge].
    + specialize (Hz1 a Hlt). eapply agree_weaken; [exact A1|lia|lia].
    + specialize (Hz2 a ltac:(lia)). eapply agree_weaken; [exact A2|lia|lia].
  - by apply ascending_filter.
  - intros i Hi Hnot x Hx. destruct (decide (fs * (start - 1) <= x < fs * (start - 1) + extent start n)) as [Hx'|Hx']; [by apply A3|].
    assert (Hnc : ~ start - 1 <= i < start - 1 + n) by (intros Hc; apply Hx'; specialize (Hz i Hc); lia).
    assert (i ∉ M) by (intros Hm; apply Hnot, list_elem_of_filter; done).
    transitivity (data !! Z.to_nat x).
    { symmetry. destruct (Z.lt_ge_cases x (fs * (start - 1))); [apply A1; nia|apply A2; lia]. }
    transitivity (payload ch !! Z.to_nat x); [symmetry|by apply (Ab i)].
    apply (zone_clear (payload ch) data _ i Hroom Hlo Hi) with (hi := Z.min (fs * (i + 1)) len); [|lia|lia|done].
    intros b [Hb _]. split; [by apply HM|]. by intros ->.
Qed.

Lemma add_fragments_inside ch M start n incoming incoming_length fuel :
  assembling ch M -> 0 < len -> len + 2 ^ 17 <= 2 ^ 32 -> n < 2 ^ 16 -> in_sample start n ->
  carries start n incoming incoming_length -> (length M <= fuel)%nat ->
  exists ch', add_fragments fuel ch incoming incoming_length start n = Some (is_fully_assembled ch', ch') /\
    assembling ch' (filter (fun x => ~ covers start n x) M) /\ zlen (payload ch') = zlen (payload ch).
Proof.
  intros As H0 Hsmall Hn Hin Hcar Hfuel. destruct (Hcar Hin) as [Hil Hrd]. pose proof As as [Al Af Ac (Hfit & Hc0 & Hs & Hr) Aa Ach Aasc _].
  assert (Hf : 0 < fs) by (destruct Hfit as [[->|] _]; lia). destruct (n_fragments_spec fs len Hf H0) as [_ [Hlo Hhi]].
  destruct (extent_spec start n Hf H0 Hin) as (He & Ho & Hol & Hmid & Hend & _). pose proof Hin as (H1 & H2 & H3).
  assert (cnt <= len) by nia. unfold add_fragments. cbv zeta. rewrite Af, Ac, Al. rewrite !(u32_small (start - 1)), !(u32_small (start + n - 1)) by lia.
  rewrite (Z.mul_comm (start - 1)), (u32_small (fs * (start - 1))), (u32_small (fs * n)) by nia.
  rewrite (Z.gtb_ltb (start + n - 1)), (proj2 (Z.ltb_ge cnt (start + n - 1))) by lia.
  set (il := if start + n - 1 <? cnt then fs * n else u32 (len - fs * (start - 1))).
  assert (Eil : il = extent start n).
  { unfold il. destruct (Z.ltb_spec (start + n - 1) cnt); [rewrite Hmid by lia; done|]. rewrite Hend, u32_small by lia. done. }
  replace ((start + n - 1 <? cnt) && (incoming_length <? fs * n)) with false.
  2:{ symmetry. destruct (Z.ltb_spec (start + n - 1) cnt); [|done]. rewrite Hmid in Hil by lia. apply Z.ltb_ge. lia. }
  rewrite Eil, u32_small by lia. rewrite Z.gtb_ltb, (proj2 (Z.ltb_ge _ _)) by lia.
  destruct (received_fragments_spec ch M (start - 1) n fuel As) as (d & f & E & Hlk & Hch); [lia|lia|lia|done|].
  case_bool_decide as Hex; rewrite E; cbn [mbind option_bind].
  - rewrite Hrd. pose proof Hlk as [El0 _].
    destruct (mwrite_sample d (fs * (start - 1)) (extent start n)) as (bs & d' & E1 & E2 & El & A1 & A2 & A3); [lia|lia|lia|lia|].
    rewrite E1. cbn [mbind option_bind payload]. rewrite E2. cbn [mbind option_bind]. eexists. split; [done|]. split; [|simpl; lia].
    by apply (assembling_copy ch M start n d d' f).
  - apply (received_fragments_same _ _ _ _ _ Af) in E. rewrite E. exists ch. split; [done|]. split; [|done].
    rewrite filter_all; [done|]. rewrite list.Forall_forall. intros x Hx [_ Hc]. apply Hex. rewrite list.Exists_exists. eauto.
Qed.

(** ** A whole assembly *)

Record FragMsg := mkFragMsg { fm_start : Z; fm_n : Z; fm_data : list Z; fm_length : Z }.

Definition fm_ok (m : FragMsg) : Prop :=
  0 <= fm_start m < 2 ^ 32 /\ 0 <= fm_n m < 2 ^ 16 /\ carries (fm_start m) (fm_n m) (fm_data m) (fm_length m).

Definition fm_covers (i : Z) (m : FragMsg) : Prop := covers (fm_start m) (fm_n m) i.

#[export] Instance fm_covers_dec i m : Decision (fm_covers i m).
Proof. unfold fm_covers. apply _. Defined.

Fixpoint add_all (fuel : nat) (ch : Change) (ms : list FragMsg) : option Change :=
  match ms with
  | [] => Some ch
  | m :: ms =>
      '(_, ch) ← add_fragments fuel ch (fm_data m) (fm_length m) (fm_start m) (fm_n m);
      add_all fuel ch ms
  end.

(** One message, whatever fragments it is about. *)
Lemma add_one_spec m ch M fuel : assembling ch M -> 0 < len -> len + 2 ^ 17 <= 2 ^ 32 -> fm_ok m -> (length M <= fuel)%nat ->
  exists b ch', add_fragments fuel ch (fm_data m) (fm_length m) (fm_start m) (fm_n m) = Some (b, ch') /\
    assembling ch' (filter (fun i => ~ fm_covers i m) M) /\ zlen (payload ch') = zlen (payload ch).
Proof.
  intros As H0 Hs (Hst & Hn & Hcar) Hf. destruct (decide (in_sample (fm_start m) (fm_n m))) as [Hin|Hout].
  - destruct (add_fragments_inside ch M (fm_start m) (fm_n m) (fm_data m) (fm_length m) fuel) as (ch' & E & As' & El);
      [done|done|done|lia|done|done|done|]. eauto.
  - destruct (add_fragments_elsewhere ch M (fm_start m) (fm_n m) (fm_data m) (fm_length m) fuel) as (b & E & _);
      [done|done|done|done|done|done|done|]. exists b, ch. split; [done|]. split; [|done].
    rewrite filter_all; [done|]. rewrite list.Forall_forall. by intros x _ [? _].
Qed.

Lemma add_all_spec ms : forall ch M fuel, assembling ch M -> 0 < len -> len + 2 ^ 17 <= 2 ^ 32 -> Forall fm_ok ms ->
  (length M <= fuel)%nat ->
  exists ch', add_all fuel ch ms = Some ch' /\ assembling ch' (filter (fun i => ~ Exists (fm_covers i) ms) M) /\
    zlen (payload ch') = zlen (payload ch).
Proof.
  induction ms as [|m ms IH]; intros ch M fuel As H0 Hs Hms Hf.
  { exists ch. split; [done|]. rewrite filter_all; [done|]. rewrite list.Forall_forall. intros x _ H. inversion H. }
  inversion Hms as [|?? Hm Hms']; subst. cbn [add_all]. destruct (add_one_spec m ch M fuel As H0 Hs Hm Hf) as (b & ch' & E & As' & El).
  rewrite E. cbn [mbind option_bind].
  destruct (IH ch' _ fuel As' H0 Hs Hms') as (ch'' & E' & As'' & El').
  { etransitivity; [apply length_filter|done]. }
  exists ch''. split; [done|]. split; [|congruence]. rewrite list_filter_filter in As''.
  rewrite (filter_iff_in _ (fun i => ~ Exists (fm_covers i) (m :: ms))) in As''; [done|].
  rewrite list.Forall_forall. intros x _. rewrite Exists_cons. tauto.
Qed.

(** No fragment is missing when and only when the change says so. *)
Lemma assembling_done ch M : assembling ch M -> is_fully_assembled ch = bool_decide (M = []).
Proof.
  intros As. pose proof As as [_ _ Ac _ _ Ach [_ Hf] _]. apply chain_head in Ach. unfold is_fully_assembled. rewrite Ac, Ach.
  destruct M as [|a M]; simpl; [rewrite Z.geb_leb; apply Z.leb_le; lia|]. inversion Hf; subst. rewrite Z.geb_leb. apply Z.leb_gt. lia.
Qed.

Lemma assembling_complete ch : assembling ch [] -> 0 < len -> take (length sample) (payload ch) = sample.
Proof.
  intros As H0. pose proof As as [_ _ _ (Hfit & _) Aa _ _ Ab]. assert (Hf : 0 < fs) by (destruct Hfit as [[->|] _]; lia).
  destruct (n_fragments_spec fs len Hf H0) as [_ [Hlo Hhi]]. apply list_eq. intros k.
  destruct (decide (k < length sample)%nat) as [Hk|Hk].
  - rewrite lookup_take_lt by done. set (i := Z.of_nat k / fs).
    pose proof (Z.div_mod (Z.of_nat k) fs ltac:(lia)) as Hd. pose proof (Z.mod_pos_bound (Z.of_nat k) fs Hf) as Hm. fold i in Hd.
    assert (0 <= i) by (apply Z.div_pos; lia). assert (i < cnt) by (unfold zlen in *; nia).
    specialize (Ab i ltac:(lia) ltac:(by intros ?%elem_of_nil) (Z.of_nat k)). rewrite Nat2Z.id in Ab. apply Ab. unfold zlen. lia.
  - rewrite lookup_take_ge by lia. symmetry. apply lookup_ge_None. lia.
Qed.

(** ** The fragments asked for *)

Lemma collect_missing_spec ch M : forall cur fuel (r : BitmapRange FragmentNumber_t),
  fragment_count_ ch = cnt -> fragment_size_ ch = fs -> 0 <= cnt < 2 ^ 32 - 1 ->
  chain (payload ch) fs cnt cur M -> ascending M cnt -> range_wf r -> (length M <= fuel)%nat ->
  exists r', collect_missing fuel ch cur r = Some r' /\ range_wf r' /\ base_ r' = base_ r /\ range_max_ r' = range_max_ r /\
    forall n, has r' n = has r n || (bool_decide (n - 1 ∈ M) && (frag (base_ r) <=? n) && (n <=? frag (range_max_ r))).
Proof.
  induction M as [|a M IH]; intros cur fuel r Hc Hf Hs Hch Hasc W Hfuel.
  { simpl in Hch. exists r. destruct fuel; simpl; rewrite Hc, Hch, Z.ltb_irrefl; (do 4 (split; [done|]));
      intros n; by rewrite orb_false_r. }
  destruct Hch as (-> & nx & Hn & Hch). apply fragments_ascending_cons in Hasc as (Ha & Hlt & Hasc).
  destruct fuel as [|fuel]; [simpl in Hfuel; lia|]. cbn [collect_missing]. rewrite Hc, (proj2 (Z.ltb_lt _ _)) by lia.
  rewrite u32_small by lia. destruct (range_add_spec r (mkFrag (a + 1)) W) as (r1 & E & W1 & B1 & X1 & H1); [simpl; lia|].
  rewrite E. cbn [mbind option_bind]. rewrite Hf, Hn. cbn [mbind option_bind].
  destruct (IH nx fuel r1) as (r' & E' & W' & B' & X' & H'); try done; [simpl in Hfuel; lia|].
  exists r'. split; [done|]. split; [done|]. split; [congruence|]. split; [congruence|]. intros n. rewrite H', H1, B1, X1.
  change (ival (mkFrag (a + 1))) with (a + 1). change (ival (base_ r)) with (frag (base_ r)). change (ival (range_max_ r)) with (frag (range_max_ r)).
  rewrite <- orb_assoc. f_equal. rewrite <- !andb_assoc, <- andb_orb_distrib_l. f_equal.
  replace (n =? a + 1) with (bool_decide (n - 1 = a)) by (case_bool_decide; [symmetry; apply Z.eqb_eq; lia|symmetry; apply Z.eqb_neq; lia]).
  rewrite <- bool_decide_or. apply bool_decide_ext. by rewrite elem_of_cons.
Qed.

Lemma get_missing_fragments_spec ch M r fuel : assembling ch M -> 0 < len -> len + 2 ^ 17 <= 2 ^ 32 -> (length M <= fuel)%nat ->
  exists r', get_missing_fragments fuel ch r = Some r' /\ range_wf r' /\ frag (base_ r') = first_missing_fragment_ ch + 1 /\
    forall n, has r' n = true <-> n - 1 ∈ M /\ n <= first_missing_fragment_ ch + 256.
Proof.
  intros As H0 Hs Hf. pose proof As as [Al Af Ac (Hfit & Hc0 & Hsm & Hr) Aa Ach Aasc _].
  assert (Hfs : 0 < fs) by (destruct Hfit as [[->|] _]; lia). destruct (n_fragments_spec fs len Hfs H0) as [_ [Hlo Hhi]].
  assert (cnt <= len) by nia.
  assert (Hfirst : 0 <= first_missing_fragment_ ch <= cnt /\ forall x, x ∈ M -> first_missing_fragment_ ch <= x).
  { pose proof (chain_head _ _ _ _ _ Ach) as Eh. destruct M as [|a M]; simpl in Eh; rewrite Eh.
    - split; [lia|]. by intros x ?%elem_of_nil.
    - apply fragments_ascending_cons in Aasc as (Ha & Hlt & _). rewrite list.Forall_forall in Hlt. split; [lia|].
      intros x [->|Hx]%elem_of_cons; [lia|]. apply Hlt in Hx. lia. }
  unfold get_missing_fragments. set (f := first_missing_fragment_ ch) in *. rewrite u32_small by lia.
  destruct (range_of_spec (mkFrag (f + 1)) 255) as (W0 & E0 & X0); [simpl; lia|simpl; lia|lia|].
  change (range_set_base r (mkFrag (f + 1))) with (range_of (mkFrag (f + 1)) 255).
  destruct (collect_missing_spec ch M f fuel (range_of (mkFrag (f + 1)) 255)) as (r' & E & W & B & X & Hh); try done; [lia|].
  exists r'. split; [done|]. split; [done|]. rewrite B. split; [done|]. intros n. rewrite Hh, E0. cbn [orb].
  change (frag (range_max_ (range_of (mkFrag (f + 1)) 255))) with (ival (range_max_ (range_of (mkFrag (f + 1)) 255))).
  rewrite X0. rewrite !andb_true_iff, bool_decide_eq_true, !Z.leb_le. simpl. destruct Hfirst as [_ Hge]. split.
  - intros [[Hn _] Hle]. split; [done|lia].
  - intros [Hn Hle]. apply Hge in Hn as Hn'. split; [split; [done|lia]|lia].
Qed.

(** A change that is created for a fragmented sample and given the messages in
    turn; there are never more rounds than fragments. *)
Definition assemble (ch : Change) (ms : list FragMsg) : option Change :=
  ch ← setFragmentSize ch fs true;
  add_all (Z.to_nat (fragment_count_ ch)) ch ms.

Lemma assemble_spec ch ms : fits (zlen (payload ch)) -> payload_length ch = len -> Forall fm_ok ms ->
  exists ch', assemble ch ms = Some ch' /\
    assembling ch' (filter (fun i => ~ Exists (fm_covers i) ms) (upto 0 (Z.to_nat cnt))).
Proof.
  intros Hfits Hlen Hms. destruct (start_assembling ch Hfits Hlen) as (ch0 & E & As & _).
  destruct Hfits as (_ & H0 & Hs & _). unfold assemble. rewrite E. cbn [mbind option_bind]. rewrite (as_cnt _ _ As).
  destruct (add_all_spec ms ch0 _ (Z.to_nat cnt) As H0 Hs Hms) as (ch' & E' & As' & _); [by rewrite length_upto|]. eauto.
Qed.

(** C18: a sample of less than [2^32 - 2^17] bytes arrives in fragments of 4 bytes
    or of 6 to 65535, into memory
    with room for it and for the link of its last fragment, in messages that carry
    the bytes of the sample.  Whatever the order of the messages, with fragments
    repeated, several to a message or of numbers the sample does not have, assembly
    stays in its memory and comes to an end; the change is complete exactly when
    every fragment has come, and then its payload is the sample.  (For the sizes
    that are left out see [five_byte_fragments_lose_data].) *)
Theorem fragments_assemble ch ms : fits (zlen (payload ch)) -> payload_length ch = len -> Forall fm_ok ms ->
  exists ch', assemble ch ms = Some ch' /\
    (is_fully_assembled ch' = true <-> forall i, 0 <= i < cnt -> Exists (fm_covers i) ms) /\
    (is_fully_assembled ch' = true -> take (length sample) (payload ch') = sample).
Proof.
  intros Hfits Hlen Hms. destruct (assemble_spec ch ms Hfits Hlen Hms) as (ch' & E & As). exists ch'. split; [done|].
  assert (H0 : 0 < len) by apply Hfits. rewrite (assembling_done _ _ As), bool_decide_eq_true. split.
  - split.
    + intros E0 i Hi. destruct (decide (Exists (fm_covers i) ms)) as [|Hn]; [done|]. exfalso.
      apply (elem_of_nil i). rewrite <- E0. apply list_elem_of_filter. split; [done|]. apply elem_of_upto. lia.
    + intros Hall. destruct (filter _ _) as [|i l] eqn:E0; [done|]. exfalso.
      assert (Hi : i ∈ i :: l) by left. rewrite <- E0 in Hi. apply list_elem_of_filter in Hi as [Hn Hi].
      apply elem_of_upto in Hi. apply Hn, Hall. lia.
  - intros E0. rewrite E0 in As. by apply assembling_complete.
Qed.

(** The set of fragments that a reader asks for again starts at the first
    missing one and has exactly the missing ones among the 256 from it on. *)
Theorem missing_fragments_reported ch ms r : fits (zlen (payload ch)) -> payload_length ch = len -> Forall fm_ok ms ->
  exists ch' r', assemble ch ms = Some ch' /\ get_missing_fragments (Z.to_nat (fragment_count_ ch')) ch' r = Some r' /\
    frag (base_ r') = first_missing_fragment_ ch' + 1 /\
    forall n, has r' n = true <->
      1 <= n <= cnt /\ ~ Exists (fm_covers (n - 1)) ms /\ n <= first_missing_fragment_ ch' + 256.
Proof.
  intros Hfits Hlen Hms. destruct (assemble_spec ch ms Hfits Hlen Hms) as (ch' & E & As).
  pose proof Hfits as (_ & H0 & Hs & _).
  destruct (get_missing_fragments_spec ch' _ r (Z.to_nat (fragment_count_ ch')) As H0 Hs) as (r' & E' & _ & B & H).
  { rewrite (as_cnt _ _ As). etransitivity; [apply length_filter|]. by rewrite length_upto. }
  exists ch', r'. split; [done|]. split; [done|]. split; [done|]. intros n. rewrite H, list_elem_of_filter, elem_of_upto. naive_solver lia.
Qed.

End Assembly.

(** ** Examples *)

Definition bytes10 : list Z := [1; 2; 3; 4; 5; 6; 7; 8; 9; 10].
Definition fresh10 : Change := mkChange (replicate 12 0) 10 0 0 0.
Definition messages10 : list FragMsg := [mkFragMsg 3 1 [9; 10] 2; mkFragMsg 0 7 [] 0; mkFragMsg 1 2 (take 8 bytes10) 8; mkFragMsg 3 1 [9; 10] 2].

Lemma fits10 : fits bytes10 4 (zlen (payload fresh10)).
Proof. unfold fits, links_fit. vm_compute. intuition congruence. Qed.

Lemma messages10_ok : Forall (fm_ok bytes10 4) messages10.
Proof.
  repeat constructor; cbn [fm_start fm_n fm_data fm_length]; try lia; unfold in_sample in *;
    try (by vm_compute); vm_compute in H; intuition congruence.
Qed.

Lemma fragments_assemble_witness :
  exists ch', @assemble host 4 fresh10 messages10 = Some ch' /\
    (is_fully_assembled ch' = true <-> forall i, 0 <= i < n_fragments 4 (zlen bytes10) -> Exists (fm_covers bytes10 4 i) messages10) /\
    (is_fully_assembled ch' = true -> take 10 (payload ch') = bytes10).
Proof. exact (@fragments_assemble host bytes10 4 fresh10 messages10 fits10 eq_refl messages10_ok). Defined.

Lemma missing_fragments_reported_witness :
  exists ch' r', @assemble host 4 fresh10 messages10 = Some ch' /\
    @get_missing_fragments host (Z.to_nat (fragment_count_ ch')) ch' range_default = Some r' /\
    frag (base_ r') = first_missing_fragment_ ch' + 1 /\
    forall n, has r' n = true <-> 1 <= n <= n_fragments 4 (zlen bytes10) /\
      ~ Exists (fm_covers bytes10 4 (n - 1)) messages10 /\ n <= first_missing_fragment_ ch' + 256.
Proof. exact (@missing_fragments_reported host bytes10 4 fresh10 messages10 range_default fits10 eq_refl messages10_ok). Defined.

(** ** Outside of these sizes *)

Definition bytes20 : list Z := [1; 2; 3; 4; 5; 6; 7; 8; 9; 10; 11; 12; 13; 14; 15; 16; 17; 18; 19; 20].
Definition fresh20 : Change := mkChange (replicate 24 0) 20 0 0 0.

(** With fragments of five bytes a link lies over the next fragment: fragment
    3 overwrites the link of fragment 2, and the change is complete without
    fragment 4. *)
Theorem five_byte_fragments_lose_data :
  exists ch', @assemble host 5 fresh20
      [mkFragMsg 3 1 [11; 12; 13; 14; 15] 5; mkFragMsg 1 1 [1; 2; 3; 4; 5] 5; mkFragMsg 2 1 [6; 7; 8; 9; 10] 5] = Some ch' /\
    is_fully_assembled ch' = true /\ take 20 (payload ch') <> bytes20.
Proof. eexists. split; [vm_compute; reflexivity|]. split; [reflexivity|]. discriminate. Qed.

(** A fragment size of 0, which a message can carry, makes the change complete
    before any byte has come. *)
Lemma zero_fragment_size_complete `{Platform} ch :
  exists ch', setFragmentSize ch 0 true = Some ch' /\ payload ch' = payload ch /\ is_fully_assembled ch' = true.
Proof. eexists. split; [reflexivity|]. done. Qed.

(** The last fragment is copied at the length it should have, not at the length
    it came with: the bytes that follow it in memory become part of the sample. *)
Lemma last_fragment_over_read :
  exists ch ch', @setFragmentSize host fresh10 4 true = Some ch /\
    @add_fragments host 3 ch [9; 66] 1 3 1 = Some (false, ch') /\ payload ch' !! 9%nat = Some 66 /\
    @add_fragments host 3 ch [9] 1 3 1 = None.
Proof.
  eexists _, _. split; [vm_compute; reflexivity|]. split; [vm_compute; reflexivity|]. split; reflexivity.
Qed.

(** The link of a short last fragment is written past the end of the payload. *)
Lemma link_past_the_payload : @setFragmentSize host (mkChange (replicate 10 0) 10 0 0 0) 4 true = None.
Proof. reflexivity. Qed.
