(* ===== verification/ParameterList.v ===== *)
(** * Inline QoS of a received change

    Models [ParameterList::readParameterListfromCDRMsg] of
    [Fast-DDS/src/cpp/fastdds/core/policy/ParameterList.hpp],
    [updateCacheChangeFromInlineQos] of [ParameterList.cpp] and the readers of the
    parameters it uses in [ParameterSerializer.hpp], with the [CacheChange_t] they
    fill.  Payload and inline QoS of a received change are pieces of the message:
    an offset into its buffer and a length. *)

From S2P Require Import Prelude FastBuffer SequenceNumber BitmapRange CdrMessage MsgReader.

Inductive ChangeKind_t := ALIVE | NOT_ALIVE_DISPOSED | NOT_ALIVE_UNREGISTERED | NOT_ALIVE_DISPOSED_UNREGISTERED.

#[export] Instance ChangeKind_eq_dec : EqDecision ChangeKind_t.
Proof. solve_decision. Defined.

Inductive TopicKind_t := NO_KEY | WITH_KEY.

#[export] Instance TopicKind_eq_dec : EqDecision TopicKind_t.
Proof. solve_decision. Defined.

(** Twelve and four bytes. *)
Definition GuidPrefix_t : Type := list Z.
Definition EntityId_t : Type := list Z.
Definition VendorId_t : Type := list Z.
Definition c_GuidPrefix_Unknown : GuidPrefix_t := replicate 12 0.
Definition c_EntityId_Unknown : EntityId_t := replicate 4 0.
Definition c_EntityId_SPDPWriter : EntityId_t := [0x00; 0x01; 0x00; 0xc2].
Definition c_VendorId_Unknown : VendorId_t := [0x00; 0x00].
Definition c_VendorId_eProsima : VendorId_t := [0x01; 0x0F].
Definition c_VendorId_rti_connext : VendorId_t := [0x01; 0x01].

Record GUID_t := mkGUID { guidPrefix : GuidPrefix_t; entityId : EntityId_t }.

#[export] Instance GUID_t_eq_dec : EqDecision GUID_t.
Proof. solve_decision. Defined.

(** A piece of the message. *)
Record Slice := mkSlice { s_pos : Z; s_length : Z }.

Record CacheChange_t := mkCC {
  kind : ChangeKind_t;
  writerGUID : GUID_t;
  instanceHandle : list Z * bool;
  sequenceNumber : SequenceNumber_t;
  serializedPayload : option Slice;
  inline_qos : option (Slice * Z);
  sourceTimestamp : Z * Z;
  vendor_id : VendorId_t;
  sample_identity : option (GUID_t * SequenceNumber_t);
  change_fragment_size : Z;
  change_fragment_count : Z
}.

Definition CacheChange_new : CacheChange_t :=
  mkCC ALIVE (mkGUID c_GuidPrefix_Unknown c_EntityId_Unknown) (replicate 16 0, false) (mkSN 0 0) None None (0, 0)
    c_VendorId_Unknown None 0 0.

Definition set_kind (k : ChangeKind_t) (c : CacheChange_t) : CacheChange_t :=
  mkCC k (writerGUID c) (instanceHandle c) (sequenceNumber c) (serializedPayload c) (inline_qos c) (sourceTimestamp c)
    (vendor_id c) (sample_identity c) (change_fragment_size c) (change_fragment_count c).
Definition set_instanceHandle (h : list Z * bool) (c : CacheChange_t) : CacheChange_t :=
  mkCC (kind c) (writerGUID c) h (sequenceNumber c) (serializedPayload c) (inline_qos c) (sourceTimestamp c)
    (vendor_id c) (sample_identity c) (change_fragment_size c) (change_fragment_count c).
Definition set_sample_identity (i : GUID_t * SequenceNumber_t) (c : CacheChange_t) : CacheChange_t :=
  mkCC (kind c) (writerGUID c) (instanceHandle c) (sequenceNumber c) (serializedPayload c) (inline_qos c) (sourceTimestamp c)
    (vendor_id c) (Some i) (change_fragment_size c) (change_fragment_count c).
Definition set_payload (s : Slice) (c : CacheChange_t) : CacheChange_t :=
  mkCC (kind c) (writerGUID c) (instanceHandle c) (sequenceNumber c) (Some s) (inline_qos c) (sourceTimestamp c)
    (vendor_id c) (sample_identity c) (change_fragment_size c) (change_fragment_count c).
Definition set_inline_qos (q : Slice * Z) (c : CacheChange_t) : CacheChange_t :=
  mkCC (kind c) (writerGUID c) (instanceHandle c) (sequenceNumber c) (serializedPayload c) (Some q) (sourceTimestamp c)
    (vendor_id c) (sample_identity c) (change_fragment_size c) (change_fragment_count c).
Definition set_timestamp (t : Z * Z) (c : CacheChange_t) : CacheChange_t :=
  mkCC (kind c) (writerGUID c) (instanceHandle c) (sequenceNumber c) (serializedPayload c) (inline_qos c) t
    (vendor_id c) (sample_identity c) (change_fragment_size c) (change_fragment_count c).
Definition set_fragments (fs n : Z) (c : CacheChange_t) : CacheChange_t :=
  mkCC (kind c) (writerGUID c) (instanceHandle c) (sequenceNumber c) (serializedPayload c) (inline_qos c) (sourceTimestamp c)
    (vendor_id c) (sample_identity c) fs n.

Definition PID_SENTINEL : Z := 0x0001.
Definition PID_KEY_HASH : Z := 0x0070.
Definition PID_STATUS_INFO : Z := 0x0071.
Definition PID_RELATED_SAMPLE_IDENTITY : Z := 0x0083.
Definition PID_CUSTOM_RELATED_SAMPLE_IDENTITY : Z := 0x800f.
Definition PARAMETER_KEY_HASH_LENGTH : Z := 16.
Definition PARAMETER_STATUS_INFO_LENGTH : Z := 4.
Definition PARAMETER_SAMPLEIDENTITY_LENGTH : Z := 24.
Definition PL_CDR_BE : Z := 0x0002.
Definition PL_CDR_LE : Z := 0x0003.

Section ParameterList.
Context `{P : Platform}.

Definition seek (p : Z) : Reader unit := rput (fun m => set_pos m p).

(** A loop that did not get enough rounds. *)
Definition out_of_fuel {A} : Reader A := fun _ => None.

(** ** Parameters *)

(** The handle is set as soon as its bytes are pointed to. *)
Definition read_ParameterKey (plength : Z) : Reader (bool * (list Z * bool)) :=
  if plength <? PARAMETER_KEY_HASH_LENGTH then rret (false, (replicate 16 0, false))
  else let* '(v, bs) := readData PARAMETER_KEY_HASH_LENGTH (replicate 16 0) in rret (v, (bs, true)).

Definition read_ParameterStatusInfo (plength : Z) : Reader (bool * Z) :=
  if plength <? PARAMETER_STATUS_INFO_LENGTH then rret (false, 0)
  else
    let* '(v1, tmp) := readOctet 0 in
    let* '(v2, tmp) := readOctet tmp in
    let* '(v3, tmp) := readOctet tmp in
    let* '(v4, status) := readOctet 0 in
    rret (v1 && v2 && v3 && v4, status).

Definition read_ParameterSampleIdentity (plength : Z) : Reader (bool * (GUID_t * SequenceNumber_t)) :=
  if plength <? PARAMETER_SAMPLEIDENTITY_LENGTH then rret (false, (mkGUID c_GuidPrefix_Unknown c_EntityId_Unknown, mkSN (-1) 0))
  else
    let* '(v1, prefix) := readData 12 c_GuidPrefix_Unknown in
    let* '(v2, entity) := readData 4 c_EntityId_Unknown in
    let* '(v3, h) := read_i32 (-1) in
    let* '(v4, l) := read_u32 0 in
    rret (v1 && v2 && v3 && v4, (mkGUID prefix entity, mkSN h l)).

(** ** The list *)

(** [processor] gets the id and the length of a parameter and an accumulator. *)
Fixpoint parameter_loop {A} (fuel : nat) (processor : Z -> Z -> A -> Reader (bool * A))
    (original_pos qos_size : Z) (a : A) : Reader (bool * Z * A) :=
  match fuel with
  | O => out_of_fuel
  | S fuel =>
      do* seek (u32 (original_pos + qos_size)) in
      let* '(v1, pid) := readUInt16 PID_SENTINEL in
      let* '(v2, plength) := readUInt16 0 in
      let is_sentinel := pid =? PID_SENTINEL in
      let plength := if is_sentinel then 0 else plength in
      let qos_size := Z.land (u32 (u32 (qos_size + (4 + plength)) + 3)) 0xFFFFFFFC in
      let* m := rget in
      if negb (v1 && v2) || (u32 (pos m + plength) >? msg_length m) then rret (false, qos_size, a)
      else if is_sentinel then rret (true, qos_size, a)
      else
        let* '(ok, a) := processor pid plength a in
        if (ok : bool) then parameter_loop fuel processor original_pos qos_size a
        else rret (false, qos_size, a)
  end.

Definition readParameterListfromCDRMsg {A} (fuel : nat) (processor : Z -> Z -> A -> Reader (bool * A))
    (use_encapsulation : bool) (a : A) : Reader (bool * Z * A) :=
  let* known :=
    (if use_encapsulation then
       do* advance 1 in
       let* '(_, encapsulation) := readOctet 0 in
       if encapsulation =? PL_CDR_BE then do* set_endian BIGEND in do* advance 2 in rret true
       else if encapsulation =? PL_CDR_LE then do* set_endian LITTLEEND in do* advance 2 in rret true
       else rret false
     else rret true) in
  if (known : bool) then let* m := rget in parameter_loop fuel processor (pos m) 0 a
  else rret (false, 0, a).

Definition parameter_process (pid plength : Z) (change : CacheChange_t) : Reader (bool * CacheChange_t) :=
  if pid =? PID_KEY_HASH then
    let* '(v, key) := read_ParameterKey plength in
    rret (if (v : bool) then (true, set_instanceHandle key change) else (false, change))
  else if (pid =? PID_CUSTOM_RELATED_SAMPLE_IDENTITY) || (pid =? PID_RELATED_SAMPLE_IDENTITY) then
    if (pid =? PID_CUSTOM_RELATED_SAMPLE_IDENTITY) &&
       bool_decide (c_VendorId_eProsima <> vendor_id change) && bool_decide (c_VendorId_rti_connext <> vendor_id change)
    then rret (true, change)
    else if plength >=? 24 then
      let* '(v, id) := read_ParameterSampleIdentity plength in
      rret (if (v : bool) then (true, set_sample_identity id change) else (false, change))
    else rret (true, change)
  else if pid =? PID_STATUS_INFO then
    let* '(v, status) := read_ParameterStatusInfo plength in
    rret (if (v : bool) then
            (true, if status =? 1 then set_kind NOT_ALIVE_DISPOSED change
                   else if status =? 2 then set_kind NOT_ALIVE_UNREGISTERED change
                   else if status =? 3 then set_kind NOT_ALIVE_DISPOSED_UNREGISTERED change
                   else change)
          else (false, change))
  else rret (true, change).

Definition updateCacheChangeFromInlineQos (fuel : nat) (change : CacheChange_t) : Reader (bool * Z * CacheChange_t) :=
  readParameterListfromCDRMsg fuel parameter_process false change.

(** ** Parsing stays in the message *)

Lemma read_u16_full old B L k m : 0 <= k <= 2 ^ 17 -> reading B L k m -> 0 <= old < 2 ^ 16 ->
  rwp (readUInt16 old) (fun p m' => reading B L k m' /\ msg_endian m' = msg_endian m /\ 0 <= p.2 < 2 ^ 16 /\
    pos m <= pos m' <= pos m + 2 /\ (p.1 = true -> pos m' = pos m + 2 /\ pos m' <= L)) m.
Proof.
  intros Hk R Ho. unfold rwp, readUInt16, read_raw. pose proof R as [Rb Rl Rp Rm Rs Ry]. rewrite u32_small by lia.
  destruct (Z.gtb_spec (pos m + 2) (msg_length m)); [simpl; split; [done|]; split; [done|]; split; [done|]; split; [lia|done]|].
  destruct (reading_mread B L k m 2 R) as (bs & E & El & Hb); [lia|lia|]. rewrite E. simpl.
  split; [apply (reading_pos B L k); [done|lia]|]. split; [done|]. split; [|lia].
  apply (host_value_bound 2); unfold order_bytes; destruct (bool_decide _); try done; [by apply Forall_rev|].
  unfold zlen in *. by rewrite length_rev.
Qed.

Lemma u16_there old B L k m : 0 <= k <= 2 ^ 17 -> reading B L k m -> pos m + 2 <= L -> rwp (readUInt16 old) (fun p _ => p.1 = true) m.
Proof.
  intros Hk R Hp. unfold rwp, readUInt16, read_raw. pose proof R as [Rb Rl Rp Rm Rs Ry]. rewrite u32_small by lia.
  rewrite Z.gtb_ltb, (proj2 (Z.ltb_ge _ _)) by lia. destruct (reading_mread B L k m 2 R) as (bs & E & _); [lia|lia|]. by rewrite E.
Qed.

Lemma rwp_and {A} (r : Reader A) Q1 Q2 m : rwp r Q1 m -> rwp r Q2 m -> rwp r (fun a m' => Q1 a m' /\ Q2 a m') m.
Proof. unfold rwp. destruct (r m) as [[a m']|]; [by split|done]. Qed.

(** Reading a list ends, inside of the message; when it succeeds the position is
    right after it. *)
Lemma parameter_loop_spec {A} (I : A -> Prop) (processor : Z -> Z -> A -> Reader (bool * A)) B L original_pos :
  (forall pid plength a, 0 <= plength < 2 ^ 16 -> I a -> stays (processor pid plength a) (fun p => I p.2)) ->
  0 <= original_pos <= L -> forall fuel j a k m, 0 <= k <= 2 ^ 17 -> reading B L k m -> I a ->
  0 <= j -> original_pos + 4 * j <= L + 3 -> (Z.to_nat ((L + 3 - (original_pos + 4 * j)) / 4) < fuel)%nat ->
  rwp (parameter_loop fuel processor original_pos (4 * j) a)
    (fun r m' => reading B L (2 ^ 17) m' /\ msg_endian m' = msg_endian m /\ I r.2 /\
       (r.1.1 = true -> 0 <= r.1.2 /\ pos m' = original_pos + r.1.2 /\ pos m' <= L)) m.
Proof.
  intros Hproc Ho. induction fuel as [|fuel IH]; intros j a k m Hk R Ha Hj Hpos Hfuel; [lia|].
  cbn [parameter_loop]. pose proof R as [Rb Rl Rp Rm Rs Ry]. apply rwp_bind, rwp_put. rewrite u32_small by lia.
  apply rwp_bind. eapply rwp_mono; [apply (read_u16_full _ B L (2 ^ 17)); [lia| |unfold PID_SENTINEL; lia]|].
  { apply (reading_pos B L k); [done|lia]. }
  intros [v1 pid] m1 (R1 & E1 & Hpid & P1 & T1). cbn in E1, Hpid, P1, T1.
  apply rwp_bind. eapply rwp_mono; [apply (read_u16_full _ B L (2 ^ 17)); [lia|done|lia]|].
  intros [v2 pl] m2 (R2 & E2 & Hpl & P2 & T2). cbn in E2, Hpl, P2, T2.
  set (pl' := if pid =? PID_SENTINEL then 0 else pl). assert (Hpl' : 0 <= pl' < 2 ^ 16) by (unfold pl'; destruct (_ =? _); lia).
  rewrite (u32_small (4 * j + (4 + pl'))), u32_small, mask_align4 by lia. pose proof R2 as [_ Rl2 Rp2 _ Rs2 _].
  assert (Hal : exists j', (4 * j + (4 + pl') + 3) / 4 * 4 = 4 * j' /\ 4 * j + 4 + pl' <= 4 * j' <= 4 * j + 4 + pl' + 3).
  { exists ((4 * j + (4 + pl') + 3) / 4). pose proof (Z.div_mod (4 * j + (4 + pl') + 3) 4 ltac:(lia)).
    pose proof (Z.mod_pos_bound (4 * j + (4 + pl') + 3) 4 ltac:(lia)). lia. }
  destruct Hal as (j' & -> & Hj'). apply rwp_bind, rwp_get. rewrite u32_small by lia.
  destruct (v1 && v2) eqn:Ev; cbn [negb orb].
  2:{ apply rwp_ret. split; [done|]. split; [congruence|]. by split. }
  apply andb_true_iff in Ev as [-> ->]. destruct (T1 eq_refl) as [T1a T1b]. destruct (T2 eq_refl) as [T2a T2b].
  destruct (Z.gtb_spec (pos m2 + pl') (msg_length m2)) as [Hgt|Hle].
  { apply rwp_ret. split; [done|]. split; [congruence|]. by split. }
  destruct (pid =? PID_SENTINEL) eqn:Es.
  { apply rwp_ret. split; [done|]. split; [congruence|]. split; [done|]. intros _. simpl.
    assert (pl' = 0) by done. lia. }
  apply rwp_bind. eapply rwp_mono; [apply (Hproc pid pl' a Hpl' Ha B L (2 ^ 17)); [lia|done]|].
  intros [ok a'] m3 (R3 & _ & _ & E3 & Ha'). cbn in Ha'. destruct ok.
  - eapply rwp_mono; [apply (IH j' a' (2 ^ 17)); [lia|done|done|lia|lia|]|].
    + assert (0 <= (L + 3 - (original_pos + 4 * j')) / 4) by (apply Z.div_pos; lia).
      assert ((L + 3 - (original_pos + 4 * j')) / 4 < (L + 3 - (original_pos + 4 * j)) / 4); [|lia].
      apply Z.lt_le_trans with ((L + 3 - (original_pos + 4 * j')) / 4 + 1); [lia|].
      rewrite <- Z.div_add with (b := 1) by lia. apply Z.div_le_mono; lia.
    + intros r m' (Rr & Er & Ir & Tr). split; [done|]. split; [congruence|]. by split.
  - apply rwp_ret. split; [done|]. split; [congruence|]. by split.
Qed.

(** What inline QoS leave alone. *)
Definition same_sample (c c' : CacheChange_t) : Prop :=
  writerGUID c' = writerGUID c /\ sequenceNumber c' = sequenceNumber c /\ serializedPayload c' = serializedPayload c /\
  inline_qos c' = inline_qos c /\ sourceTimestamp c' = sourceTimestamp c /\ length (instanceHandle c').1 = 16%nat.

Lemma stays_ParameterKey plength : stays (read_ParameterKey plength) (fun p => p.1 = true -> length p.2.1 = 16%nat).
Proof.
  unfold read_ParameterKey. destruct (_ <? _); [by apply stays_ret|]. eapply stays_bind; [apply stays_data; unfold PARAMETER_KEY_HASH_LENGTH; lia|].
  intros [v bs] Hb. apply stays_ret. simpl in *. intros ->. destruct Hb as [Hb _]; [done|unfold PARAMETER_KEY_HASH_LENGTH; lia|].
  unfold zlen, PARAMETER_KEY_HASH_LENGTH in Hb. lia.
Qed.

Lemma stays_any {A} (r : Reader A) (Q : A -> Prop) : stays r Q -> stays r (fun _ => True).
Proof. intros H. by eapply stays_weaken. Qed.

Lemma stays_ParameterStatusInfo plength : stays (read_ParameterStatusInfo plength) (fun _ => True).
Proof.
  unfold read_ParameterStatusInfo. destruct (_ <? _); [by apply stays_ret|].
  do 4 (eapply stays_bind; [eapply stays_any, stays_octet|]; intros [? ?] _). by apply stays_ret.
Qed.

Lemma stays_ParameterSampleIdentity plength : stays (read_ParameterSampleIdentity plength) (fun _ => True).
Proof.
  unfold read_ParameterSampleIdentity. destruct (_ <? _); [by apply stays_ret|].
  do 2 (eapply stays_bind; [eapply stays_any, stays_data; lia|]; intros [? ?] _).
  eapply stays_bind; [eapply stays_any, stays_i32; lia|]. intros [? ?] _.
  eapply stays_bind; [eapply stays_any, stays_u32; lia|]. intros [? ?] _. by apply stays_ret.
Qed.

Lemma stays_parameter_process c pid plength a : same_sample c a ->
  stays (parameter_process pid plength a) (fun p => same_sample c p.2).
Proof.
  intros Hs. pose proof Hs as (H1 & H2 & H3 & H4 & H5 & H6). unfold parameter_process.
  destruct (pid =? PID_KEY_HASH).
  { eapply stays_bind; [apply stays_ParameterKey|]. intros [[|] [h b]] Hh; apply stays_ret; [|done].
    do 5 (split; [done|]). by apply Hh. }
  destruct (_ || _).
  { destruct (_ && _); [by apply stays_ret|]. destruct (plength >=? 24); [|by apply stays_ret].
    eapply stays_bind; [apply stays_ParameterSampleIdentity|]. intros [[|] i] _; by apply stays_ret. }
  destruct (pid =? PID_STATUS_INFO); [|by apply stays_ret].
  eapply stays_bind; [apply stays_ParameterStatusInfo|]. intros [[|] st] _; apply stays_ret; [|done].
  simpl. by repeat (destruct (st =? _); [done|]).
Qed.

Lemma inline_qos_read B L k m c fuel : 0 <= k <= 2 ^ 17 -> reading B L k m -> pos m <= L -> length (instanceHandle c).1 = 16%nat ->
  (Z.to_nat ((L + 3) / 4) < fuel)%nat ->
  rwp (updateCacheChangeFromInlineQos fuel c) (fun r m' => reading B L (2 ^ 17) m' /\ msg_endian m' = msg_endian m /\
    same_sample c r.2 /\ (r.1.1 = true -> 0 <= r.1.2 /\ pos m' = pos m + r.1.2 /\ pos m' <= L)) m.
Proof.
  intros Hk R Hp Hh Hf. unfold updateCacheChangeFromInlineQos, readParameterListfromCDRMsg.
  apply rwp_bind, rwp_ret, rwp_bind, rwp_get. pose proof R as [_ _ Rp _ _ _].
  apply (parameter_loop_spec (same_sample c) parameter_process B L (pos m)) with (j := 0) (k := k); try done; try lia.
  - intros pid pl a _ Ha. by apply stays_parameter_process.
  - eapply Nat.le_lt_trans; [|exact Hf]. apply Z2Nat.inj_le; [apply Z.div_pos; lia|apply Z.div_pos; lia|]. apply Z.div_le_mono; lia.
Qed.

End ParameterList.
