(* ===== verification/MessageReceiver.v ===== *)
(** * Receiving RTPS messages

    Models [Fast-DDS/src/cpp/rtps/messages/MessageReceiver.cpp] as it is built
    without security and without statistics: the header of a message, the headers
    of its submessages, one definition per kind of submessage and the loop of
    [processCDRMsg].  The endpoints and the participant that the receiver calls
    are the interface [Endpoints]; they see the memory of the message, because
    the payload of a change is a piece of it.  [None] is an access outside of the
    message, or of what an endpoint owns. *)

From stdpp Require Import gmap.
From S2P Require Import Prelude FastBuffer SequenceNumber BitmapRange CdrMessage MsgReader ParameterList.

Definition SNSet : Type := BitmapRange SequenceNumber_t.
Definition FragSet : Type := BitmapRange FragmentNumber_t.

(** What the receiver calls.  [process_acknack] and [process_nack_frag] answer
    [None] when the message is for another writer, and the [result] otherwise. *)
Class Endpoints := {
  World : Type;
  ReaderId : Type;
  WriterId : Type;
  reader_eq :: EqDecision ReaderId;
  writer_eq :: EqDecision WriterId;
  process_data_msg : ReaderId -> list Z -> CacheChange_t -> World -> option World;
  process_data_frag_msg : ReaderId -> list Z -> CacheChange_t -> Z -> Z -> Z -> World -> option World;
  process_heartbeat_msg : ReaderId -> GUID_t -> Z -> SequenceNumber_t -> SequenceNumber_t -> bool -> bool -> VendorId_t -> World -> option World;
  process_gap_msg : ReaderId -> GUID_t -> SequenceNumber_t -> SNSet -> VendorId_t -> World -> option World;
  process_acknack : WriterId -> GUID_t -> GUID_t -> Z -> SNSet -> bool -> VendorId_t -> World -> option (option bool * World);
  process_nack_frag : WriterId -> GUID_t -> GUID_t -> Z -> SequenceNumber_t -> FragSet -> VendorId_t -> World -> option (option bool * World);
  is_participant_ignored : GuidPrefix_t -> World -> bool;
  assert_remote_participant_liveliness : GuidPrefix_t -> World -> World
}.

(** [SubmessageId] *)
Definition PAD : Z := 0x01.
Definition ACKNACK : Z := 0x06.
Definition HEARTBEAT : Z := 0x07.
Definition GAP : Z := 0x08.
Definition INFO_TS : Z := 0x09.
Definition INFO_SRC : Z := 0x0c.
Definition INFO_REPLY_IP4 : Z := 0x0d.
Definition INFO_DST : Z := 0x0e.
Definition INFO_REPLY : Z := 0x0f.
Definition NACK_FRAG : Z := 0x12.
Definition HEARTBEAT_FRAG : Z := 0x13.
Definition DATA : Z := 0x15.
Definition DATA_FRAG : Z := 0x16.

Definition RTPSMESSAGE_HEADER_SIZE : Z := 20.
Definition RTPSMESSAGE_DATA_MIN_LENGTH : Z := 24.
Definition RTPSMESSAGE_DATA_EXTRA_INLINEQOS_SIZE : Z := 4.
Definition RTPSMESSAGE_OCTETSTOINLINEQOS_DATASUBMSG : Z := 16.
Definition RTPSMESSAGE_OCTETSTOINLINEQOS_DATAFRAGSUBMSG : Z := 28.
Definition INFO_SRC_SUBMSG_LENGTH : Z := 20.

Record SubmessageHeader_t := mkSMH {
  submessageId : Z;
  submessageLength : Z;
  flags : Z;
  is_last : bool
}.

(** [(smh->flags & BIT(n)) != 0] *)
Definition flag (smh : SubmessageHeader_t) (n : Z) : bool := negb (Z.land (flags smh) (2 ^ n) =? 0).

Section Receiver.
Context `{P : Platform} `{E : Endpoints}.

(** The readers are kept by entity id, in a hash table whose order is that of
    the keys here.  The version of the protocol is 2.2 without security. *)
Record MessageReceiver := mkReceiver {
  associated_writers_ : list WriterId;
  associated_readers_ : gmap EntityId_t (list ReaderId);
  source_version_ : Z * Z;
  source_vendor_id_ : VendorId_t;
  source_guid_prefix_ : GuidPrefix_t;
  dest_guid_prefix_ : GuidPrefix_t;
  have_timestamp_ : bool;
  timestamp_ : Z * Z
}.
Implicit Types rc : MessageReceiver.

Definition c_ProtocolVersion : Z * Z := (2, 2).
Definition c_TimeInvalid : Z * Z := (-1, 0xffffffff).

Definition MessageReceiver_new : MessageReceiver :=
  mkReceiver [] ∅ c_ProtocolVersion c_VendorId_Unknown c_GuidPrefix_Unknown c_GuidPrefix_Unknown false c_TimeInvalid.

Definition reset rc : MessageReceiver :=
  mkReceiver (associated_writers_ rc) (associated_readers_ rc) c_ProtocolVersion c_VendorId_Unknown
    c_GuidPrefix_Unknown c_GuidPrefix_Unknown false c_TimeInvalid.

Definition set_source rc (version : Z * Z) (vendor : VendorId_t) (prefix : GuidPrefix_t) : MessageReceiver :=
  mkReceiver (associated_writers_ rc) (associated_readers_ rc) version vendor prefix (dest_guid_prefix_ rc)
    (have_timestamp_ rc) (timestamp_ rc).
Definition set_dest rc (prefix : GuidPrefix_t) : MessageReceiver :=
  mkReceiver (associated_writers_ rc) (associated_readers_ rc) (source_version_ rc) (source_vendor_id_ rc)
    (source_guid_prefix_ rc) prefix (have_timestamp_ rc) (timestamp_ rc).
Definition set_time rc (have : bool) (t : Z * Z) : MessageReceiver :=
  mkReceiver (associated_writers_ rc) (associated_readers_ rc) (source_version_ rc) (source_vendor_id_ rc)
    (source_guid_prefix_ rc) (dest_guid_prefix_ rc) have t.
Definition set_endpoints rc (ws : list WriterId) (rs : gmap EntityId_t (list ReaderId)) : MessageReceiver :=
  mkReceiver ws rs (source_version_ rc) (source_vendor_id_ rc) (source_guid_prefix_ rc) (dest_guid_prefix_ rc)
    (have_timestamp_ rc) (timestamp_ rc).

(** ** The endpoints of a receiver *)

Definition associate_writer rc (w : WriterId) : MessageReceiver :=
  if decide (w ∈ associated_writers_ rc) then rc
  else set_endpoints rc (associated_writers_ rc ++ [w]) (associated_readers_ rc).

Definition associate_reader rc (id : EntityId_t) (r : ReaderId) : MessageReceiver :=
  match associated_readers_ rc !! id with
  | None => set_endpoints rc (associated_writers_ rc) (<[id := [r]]> (associated_readers_ rc))
  | Some rs => if decide (r ∈ rs) then rc
               else set_endpoints rc (associated_writers_ rc) (<[id := rs ++ [r]]> (associated_readers_ rc))
  end.

(** [erase] of the first one that is the endpoint. *)
Fixpoint erase_first {A} `{EqDecision A} (x : A) (l : list A) : list A :=
  match l with
  | [] => []
  | y :: l => if decide (y = x) then l else y :: erase_first x l
  end.

Definition remove_writer rc (w : WriterId) : MessageReceiver :=
  set_endpoints rc (erase_first w (associated_writers_ rc)) (associated_readers_ rc).

Definition remove_reader rc (id : EntityId_t) (r : ReaderId) : MessageReceiver :=
  match associated_readers_ rc !! id with
  | Some rs =>
      if decide (r ∈ rs) then
        match erase_first r rs with
        | [] => set_endpoints rc (associated_writers_ rc) (delete id (associated_readers_ rc))
        | rs' => set_endpoints rc (associated_writers_ rc) (<[id := rs']> (associated_readers_ rc))
        end
      else rc
  | None => rc
  end.

Definition all_readers rc : list ReaderId := concat (snd <$> map_to_list (associated_readers_ rc)).

Definition willAReaderAcceptMsgDirectedTo rc (readerID : EntityId_t) : bool :=
  if bool_decide (associated_readers_ rc = ∅) then false
  else if bool_decide (readerID <> c_EntityId_Unknown) then bool_decide (is_Some (associated_readers_ rc !! readerID))
  else bool_decide (all_readers rc <> []).

(** The readers a message is for. *)
Definition readers_for rc (readerID : EntityId_t) : list ReaderId :=
  if bool_decide (readerID <> c_EntityId_Unknown) then default [] (associated_readers_ rc !! readerID)
  else all_readers rc.

Fixpoint for_readers (rs : list ReaderId) (callback : ReaderId -> World -> option World) (w : World) : option World :=
  match rs with
  | [] => Some w
  | r :: rs => w ← callback r w; for_readers rs callback w
  end.

Definition findAllReaders rc (readerID : EntityId_t) (callback : ReaderId -> World -> option World) (w : World) : option World :=
  for_readers (readers_for rc readerID) callback w.

(** ** Headers *)

Definition octet_at (p : Z) : Reader Z := let* m := rget in rcheck (if p <? 0 then None else buffer m !! Z.to_nat p).

Definition checkRTPSHeader rc : Reader (bool * MessageReceiver) :=
  let* b0 := octet_at 0 in
  if negb (b0 =? 0x52) then rret (false, rc) else
  let* b1 := octet_at 1 in
  if negb (b1 =? 0x54) then rret (false, rc) else
  let* b2 := octet_at 2 in
  if negb (b2 =? 0x50) then rret (false, rc) else
  let* b3 := octet_at 3 in
  if negb (b3 =? 0x53) then rret (false, rc) else
  do* advance 4 in
  let* major := peek in
  if major =? fst c_ProtocolVersion then
    do* advance 1 in
    let* minor := peek in
    do* advance 1 in
    let* v0 := peek in
    do* advance 1 in
    let* v1 := peek in
    do* advance 1 in
    let* '(_, prefix) := readData 12 (source_guid_prefix_ rc) in
    rret (true, set_time (set_source rc (major, minor) [v0; v1] prefix) false (timestamp_ rc))
  else rret (false, rc).

Definition flags_endian (fl : Z) : Endianness_t := if negb (Z.land fl (2 ^ 0) =? 0) then LITTLEEND else BIGEND.

Definition readSubmessageHeader : Reader (option SubmessageHeader_t) :=
  let* m := rget in
  if u32 (msg_length m - pos m) <? 4 then rret None
  else
    let* id := peek in
    do* advance 1 in
    let* fl := peek in
    do* advance 1 in
    do* set_endian (flags_endian fl) in
    let* '(_, len) := readUInt16 0 in
    let* m := rget in
    if u32 (pos m + len) >? msg_length m then rret None
    else if (len =? 0) && negb (id =? INFO_TS) && negb (id =? PAD) then
      rret (Some (mkSMH id (u32 (msg_length m - pos m)) fl true))
    else rret (Some (mkSMH id len fl false)).

(** ** Submessages *)

(** [memcpy(ch.instanceHandle.value, .., n)] *)
Definition fill_handle (h : list Z * bool) (bs : list Z) : list Z * bool := (bs ++ drop (length bs) h.1, true).

(** The payload, or the key, of a DATA submessage. *)
Definition data_payload (smh : SubmessageHeader_t) (octetsToInlineQos inlineQosSize : Z) (ch : CacheChange_t)
  : Reader (bool * CacheChange_t) :=
  let submsg_no_payload_size := u32 (RTPSMESSAGE_DATA_EXTRA_INLINEQOS_SIZE + octetsToInlineQos + inlineQosSize) in
  if submessageLength smh <? submsg_no_payload_size then rret (false, ch)
  else
    let* m := rget in
    let payload_size := u32 (submessageLength smh - submsg_no_payload_size) in
    let next_pos := u32 (pos m + payload_size) in
    if (msg_length m >=? next_pos) && (payload_size >? 0) then
      let* ch :=
        (if flag smh 2 then rret (set_payload (mkSlice (pos m) payload_size) ch)
         else if payload_size <=? PARAMETER_KEY_HASH_LENGTH then
           if snd (instanceHandle ch) then rret ch
           else let* bs := rcheck (mread (buffer m) (pos m) payload_size) in
                rret (set_instanceHandle (fill_handle (instanceHandle ch) bs) ch)
         else rret ch) in
      do* seek next_pos in rret (true, ch)
    else rret (false, ch).

Definition proc_Submsg_Data (fuel : nat) rc (smh : SubmessageHeader_t) (w : World) : Reader (bool * EntityId_t * World) :=
  let stop (id : EntityId_t) : Reader (bool * EntityId_t * World) := rret (false, id, w) in
  if submessageLength smh <? RTPSMESSAGE_DATA_MIN_LENGTH then stop c_EntityId_Unknown
  else
  let inlineQosFlag := flag smh 1 in
  let dataFlag := flag smh 2 in
  let keyFlag := flag smh 3 in
  if keyFlag && dataFlag then stop c_EntityId_Unknown
  else
  do* set_endian (flags_endian (flags smh)) in
  do* advance 2 in
  let* '(v1, octetsToInlineQos) := readInt16 0 in
  let* '(v2, readerID) := readEntityId c_EntityId_Unknown in
  if negb (willAReaderAcceptMsgDirectedTo rc readerID) then stop c_EntityId_Unknown
  else
  let* '(v3, writerID) := readEntityId c_EntityId_Unknown in
  let* '(v4, sn) := read_sn (mkSN 0 0) in
  if negb (v1 && v2 && v3 && v4) then stop writerID
  else if sn_leb sn (mkSN 0 0) then stop writerID
  else
  let ch := mkCC ALIVE (mkGUID (source_guid_prefix_ rc) writerID) (replicate 16 0, false) sn None None (0, 0)
              (source_vendor_id_ rc) None 0 0 in
  do* (if octetsToInlineQos >? RTPSMESSAGE_OCTETSTOINLINEQOS_DATASUBMSG
       then advance (octetsToInlineQos - RTPSMESSAGE_OCTETSTOINLINEQOS_DATASUBMSG) else rret tt) in
  let* m := rget in
  if (octetsToInlineQos >? RTPSMESSAGE_OCTETSTOINLINEQOS_DATASUBMSG) && (pos m >? msg_length m) then stop writerID
  else
  let* '(ok, inlineQosSize, ch) := (if inlineQosFlag then updateCacheChangeFromInlineQos fuel ch else rret (true, 0, ch)) in
  if negb ok then stop writerID
  else
  let* m := rget in
  let ch := if inlineQosFlag then
              set_inline_qos (mkSlice (u32 (pos m - inlineQosSize)) inlineQosSize, if flag smh 0 then PL_CDR_LE else PL_CDR_BE) ch
            else ch in
  let* '(ok, ch) := (if dataFlag || keyFlag then data_payload smh octetsToInlineQos inlineQosSize ch else rret (true, ch)) in
  if negb ok then stop writerID
  else
  let ch := if have_timestamp_ rc then set_timestamp (timestamp_ rc) ch else ch in
  let* w := rcheck (findAllReaders rc readerID (fun r => process_data_msg r (buffer m) ch) w) in
  rret (true, writerID, w).

(** A change keeps its fragments only when it has a payload. *)
Definition fragment_count_of (fragment_size payload_size : Z) : Z :=
  if fragment_size >? 0 then u32 (payload_size + fragment_size - 1) / fragment_size else 0.

(** The payload of a DATA_FRAG submessage. *)
Definition frag_payload (smh : SubmessageHeader_t) (octetsToInlineQos inlineQosSize fragmentSize : Z) (ch : CacheChange_t)
  : Reader (bool * CacheChange_t) :=
  let payload_size := u32 (submessageLength smh - u32 (RTPSMESSAGE_DATA_EXTRA_INLINEQOS_SIZE + octetsToInlineQos + inlineQosSize)) in
  let* m := rget in
  let next_pos := u32 (pos m + payload_size) in
  if (msg_length m >=? next_pos) && (payload_size >? 0) then
    do* seek next_pos in
    rret (true, set_fragments fragmentSize (fragment_count_of fragmentSize payload_size)
                  (set_payload (mkSlice (pos m) payload_size) (set_kind ALIVE ch)))
  else rret (false, ch).

Definition proc_Submsg_DataFrag (fuel : nat) rc (smh : SubmessageHeader_t) (w : World) : Reader (bool * World) :=
  let stop : Reader (bool * World) := rret (false, w) in
  if submessageLength smh <? RTPSMESSAGE_DATA_MIN_LENGTH then stop
  else
  let inlineQosFlag := flag smh 1 in
  let keyFlag := flag smh 2 in
  do* set_endian (flags_endian (flags smh)) in
  do* advance 2 in
  let* '(v1, octetsToInlineQos) := readInt16 0 in
  let* '(v2, readerID) := readEntityId c_EntityId_Unknown in
  if negb (willAReaderAcceptMsgDirectedTo rc readerID) then stop
  else
  let* '(v3, writerID) := readEntityId c_EntityId_Unknown in
  let* '(v4, sn) := read_sn (mkSN 0 0) in
  if sn_leb sn (mkSN 0 0) then stop
  else
  let ch := mkCC ALIVE (mkGUID (source_guid_prefix_ rc) writerID) (replicate 16 0, false) sn None None (0, 0)
              (source_vendor_id_ rc) None 0 0 in
  let* '(v5, fragmentStartingNum) := read_u32 0 in
  let* '(v6, fragmentsInSubmessage) := readUInt16 0 in
  let* '(v7, fragmentSize) := readUInt16 0 in
  let* '(v8, sampleSize) := read_u32 0 in
  if negb (v1 && v2 && v3 && v4 && v5 && v6 && v7 && v8) then stop
  else
  do* (if octetsToInlineQos >? RTPSMESSAGE_OCTETSTOINLINEQOS_DATAFRAGSUBMSG
       then advance (octetsToInlineQos - RTPSMESSAGE_OCTETSTOINLINEQOS_DATAFRAGSUBMSG) else rret tt) in
  let* m := rget in
  if (octetsToInlineQos >? RTPSMESSAGE_OCTETSTOINLINEQOS_DATAFRAGSUBMSG) && (pos m >? msg_length m) then stop
  else
  let* '(ok, inlineQosSize, ch) := (if inlineQosFlag then updateCacheChangeFromInlineQos fuel ch else rret (true, 0, ch)) in
  if negb ok then stop
  else
  let* m := rget in
  let ch := if inlineQosFlag then
              set_inline_qos (mkSlice (u32 (pos m - inlineQosSize)) inlineQosSize, if flag smh 0 then PL_CDR_LE else PL_CDR_BE) ch
            else ch in
  let* '(ok, ch) := (if negb keyFlag then frag_payload smh octetsToInlineQos inlineQosSize fragmentSize ch else rret (true, ch)) in
  if negb ok then stop
  else
  let ch := if have_timestamp_ rc then set_timestamp (timestamp_ rc) ch else ch in
  let* w := rcheck (findAllReaders rc readerID
              (fun r => process_data_frag_msg r (buffer m) ch sampleSize fragmentStartingNum fragmentsInSubmessage) w) in
  rret (true, w).

Definition proc_Submsg_Heartbeat rc (smh : SubmessageHeader_t) (w : World) : Reader (bool * World) :=
  let finalFlag := flag smh 1 in
  let livelinessFlag := flag smh 2 in
  do* set_endian (flags_endian (flags smh)) in
  let* '(_, readerID) := readEntityId c_EntityId_Unknown in
  let* '(_, writerID) := readEntityId c_EntityId_Unknown in
  let writerGUID := mkGUID (source_guid_prefix_ rc) writerID in
  let* '(_, firstSN) := read_sn (mkSN 0 0) in
  let* '(_, lastSN) := read_sn (mkSN 0 0) in
  if sn_leb firstSN (mkSN 0 0) then rret (false, w)
  else if sn_ltb lastSN firstSN && negb (sn_eqb lastSN (sn_sub_u32 firstSN 1)) then rret (false, w)
  else
    let* '(v, HBCount) := read_u32 0 in
    if negb v then rret (false, w)
    else
      let* w := rcheck (findAllReaders rc readerID
        (fun r => process_heartbeat_msg r writerGUID HBCount firstSN lastSN finalFlag livelinessFlag (source_vendor_id_ rc)) w) in
      rret (true, w).

(** The first writer that takes the message decides. *)
Fixpoint offer_writers (ws : list WriterId) (call : WriterId -> World -> option (option bool * World)) (w : World)
  : option (bool * World) :=
  match ws with
  | [] => Some (false, w)
  | x :: ws =>
      '(taken, w) ← call x w;
      match taken with
      | Some result => Some (result, w)
      | None => offer_writers ws call w
      end
  end.

Definition proc_Submsg_Acknack rc (smh : SubmessageHeader_t) (w : World) : Reader (bool * World) :=
  let finalFlag := flag smh 1 in
  do* set_endian (flags_endian (flags smh)) in
  let* '(_, readerID) := readEntityId c_EntityId_Unknown in
  let readerGUID := mkGUID (source_guid_prefix_ rc) readerID in
  let* '(_, writerID) := readEntityId c_EntityId_Unknown in
  let writerGUID := mkGUID (dest_guid_prefix_ rc) writerID in
  let* SNSet := read_sn_set in
  let* '(v, Ackcount) := read_u32 0 in
  if negb v then rret (false, w)
  else rcheck (offer_writers (associated_writers_ rc)
                 (fun x => process_acknack x writerGUID readerGUID Ackcount SNSet finalFlag (source_vendor_id_ rc)) w).

Definition proc_Submsg_Gap rc (smh : SubmessageHeader_t) (w : World) : Reader (bool * World) :=
  do* set_endian (flags_endian (flags smh)) in
  let* '(_, readerID) := readEntityId c_EntityId_Unknown in
  let* '(_, writerID) := readEntityId c_EntityId_Unknown in
  let writerGUID := mkGUID (source_guid_prefix_ rc) writerID in
  let* '(_, gapStart) := read_sn (mkSN 0 0) in
  let* gapList := read_sn_set in
  if sn_leb gapStart (mkSN 0 0) then rret (false, w)
  else
    let* w := rcheck (findAllReaders rc readerID
      (fun r => process_gap_msg r writerGUID gapStart gapList (source_vendor_id_ rc)) w) in
    rret (true, w).

Definition proc_Submsg_InfoTS rc (smh : SubmessageHeader_t) : Reader (bool * MessageReceiver) :=
  let timeFlag := flag smh 1 in
  do* set_endian (flags_endian (flags smh)) in
  if negb timeFlag then
    let* '(_, t) := readTimestamp (timestamp_ rc) in
    rret (true, set_time rc true t)
  else rret (true, set_time rc false (timestamp_ rc)).

Definition proc_Submsg_InfoDST rc (smh : SubmessageHeader_t) : Reader (bool * MessageReceiver) :=
  do* set_endian (flags_endian (flags smh)) in
  let* '(_, guidP) := readData 12 c_GuidPrefix_Unknown in
  rret (true, if bool_decide (guidP <> c_GuidPrefix_Unknown) then set_dest rc guidP else rc).

Definition proc_Submsg_InfoSRC rc (smh : SubmessageHeader_t) : Reader (bool * MessageReceiver) :=
  do* set_endian (flags_endian (flags smh)) in
  if submessageLength smh =? INFO_SRC_SUBMSG_LENGTH then
    do* advance 4 in
    let* '(_, major) := readOctet (fst (source_version_ rc)) in
    let* '(_, minor) := readOctet (snd (source_version_ rc)) in
    let* '(_, vendor) := readData 2 (source_vendor_id_ rc) in
    let* '(_, prefix) := readData 12 (source_guid_prefix_ rc) in
    rret (true, set_source rc (major, minor) vendor prefix)
  else rret (false, rc).

Definition proc_Submsg_NackFrag rc (smh : SubmessageHeader_t) (w : World) : Reader (bool * World) :=
  do* set_endian (flags_endian (flags smh)) in
  let* '(_, readerID) := readEntityId c_EntityId_Unknown in
  let readerGUID := mkGUID (source_guid_prefix_ rc) readerID in
  let* '(_, writerID) := readEntityId c_EntityId_Unknown in
  let writerGUID := mkGUID (dest_guid_prefix_ rc) writerID in
  let* '(_, writerSN) := read_sn (mkSN 0 0) in
  let* '(_, fnState) := read_frag_set range_default in
  let* '(v, Ackcount) := read_u32 0 in
  if negb v then rret (false, w)
  else rcheck (offer_writers (associated_writers_ rc)
                 (fun x => process_nack_frag x writerGUID readerGUID Ackcount writerSN fnState (source_vendor_id_ rc)) w).

Definition proc_Submsg_HeartbeatFrag : Reader bool := rret true.

(** ** Messages *)

(** One submessage: whether it was valid, whether further submessages are
    ignored, the receiver and the endpoints. *)
Definition proc_Submsg (fuel : nat) (participant : GuidPrefix_t) rc (smh : SubmessageHeader_t) (ignore : bool) (w : World)
  : Reader (bool * bool * MessageReceiver * World) :=
  let id := submessageId smh in
  let for_us := bool_decide (dest_guid_prefix_ rc = participant) in
  let deliver (r : Reader (bool * World)) : Reader (bool * bool * MessageReceiver * World) :=
    if for_us then let* '(v, w) := r in rret (v, ignore, rc, w) else rret (true, ignore, rc, w) in
  if ignore && negb (id =? INFO_SRC) then rret (true, ignore, rc, w)
  else if id =? DATA then
    if for_us then
      let* '(v, writerId, w) := proc_Submsg_Data fuel rc smh w in
      rret (v, if v && bool_decide (writerId = c_EntityId_SPDPWriter) then is_participant_ignored (source_guid_prefix_ rc) w
               else ignore, rc, w)
    else rret (true, ignore, rc, w)
  else if id =? DATA_FRAG then deliver (proc_Submsg_DataFrag fuel rc smh w)
  else if id =? GAP then deliver (proc_Submsg_Gap rc smh w)
  else if id =? ACKNACK then deliver (proc_Submsg_Acknack rc smh w)
  else if id =? NACK_FRAG then deliver (proc_Submsg_NackFrag rc smh w)
  else if id =? HEARTBEAT then deliver (proc_Submsg_Heartbeat rc smh w)
  else if id =? HEARTBEAT_FRAG then deliver (let* v := proc_Submsg_HeartbeatFrag in rret (v, w))
  else if id =? INFO_DST then let* '(v, rc) := proc_Submsg_InfoDST rc smh in rret (v, ignore, rc, w)
  else if id =? INFO_SRC then
    let* '(v, rc) := proc_Submsg_InfoSRC rc smh in
    rret (v, is_participant_ignored (source_guid_prefix_ rc) w, rc, w)
  else if id =? INFO_TS then let* '(v, rc) := proc_Submsg_InfoTS rc smh in rret (v, ignore, rc, w)
  else rret (true, ignore, rc, w).

(** The loop; false when a header was bad, which ends the function at once. *)
Fixpoint submessage_loop (fuel qos_fuel : nat) (participant : GuidPrefix_t) rc (ignore : bool) (w : World)
  : Reader (bool * MessageReceiver * World) :=
  let* m := rget in
  if pos m <? msg_length m then
    match fuel with
    | O => out_of_fuel
    | S fuel =>
        let* h := readSubmessageHeader in
        match h with
        | None => rret (false, rc, w)
        | Some smh =>
            let* m := rget in
            let next_msg_pos := u32 (pos m + Z.land (u32 (submessageLength smh + 3)) 0xFFFFFFFC) in
            let* '(valid, ignore, rc, w) := proc_Submsg qos_fuel participant rc smh ignore w in
            if negb valid || is_last smh then rret (true, rc, w)
            else do* seek next_msg_pos in submessage_loop fuel qos_fuel participant rc ignore w
        end
    end
  else rret (true, rc, w).

Definition processCDRMsg (fuel qos_fuel : nat) (participant : GuidPrefix_t) rc (w : World) : Reader (MessageReceiver * World) :=
  let* m := rget in
  if msg_length m <? RTPSMESSAGE_HEADER_SIZE then rret (rc, w)
  else
    let rc := set_dest (reset rc) participant in
    do* seek 0 in
    let* '(ok, rc) := checkRTPSHeader rc in
    if negb ok then rret (rc, w)
    else
      let ignore := is_participant_ignored (source_guid_prefix_ rc) w in
      let* '(ok, rc, w) := submessage_loop fuel qos_fuel participant rc ignore w in
      rret (rc, if (ok : bool) then assert_remote_participant_liveliness (source_guid_prefix_ rc) w else w).

End Receiver.
