(* ===== verification/MessageReceiverLaws.v ===== *)
(** * Receiving arbitrary bytes

    What the receiver hands to the endpoints, as the contract [EndpointsLaws]:
    each operation is given arguments that satisfy its precondition, and keeps an
    invariant of the endpoints.  Under the contract, processing any message stays
    in its memory, ends, and keeps the invariant. *)

From stdpp Require Import gmap.
From S2P Require Import Prelude FastBuffer SequenceNumber BitmapRange CdrMessage MsgReader ParameterList MessageReceiver.

(** ** The contract *)

(** A piece of the first [L] bytes. *)
Definition slice_in (L : Z) (s : Slice) : Prop := 0 <= s_pos s /\ 0 <= s_length s /\ s_pos s + s_length s <= L.

(** A piece whose end, computed on 32 bits, is one of the first [L] bytes. *)
Definition slice_wraps (L : Z) (s : Slice) : Prop :=
  0 <= s_pos s <= L /\ 0 < s_length s < 2 ^ 32 /\ u32 (s_pos s + s_length s) <= L.

Definition number_given (s : SequenceNumber_t) : Prop := sn_ok s /\ 0 < sn_val s.

Definition optional {A} (Q : A -> Prop) (o : option A) : Prop := match o with Some a => Q a | None => True end.

Definition change_given (payload_ok : Slice -> Prop) (L : Z) (c : CacheChange_t) : Prop :=
  number_given (sequenceNumber c) /\ length (instanceHandle c).1 = 16%nat /\
  optional payload_ok (serializedPayload c) /\ optional (fun q => slice_in L q.1) (inline_qos c).

Definition set_given (r : SNSet) : Prop :=
  r = range_new sn_unknown \/ (set_read_ok sn_valid r /\ sn_val (base_ r) + num_bits_ r < 2 ^ 63).

Definition frags_given (r : FragSet) : Prop := set_read_ok (fun x => 0 <= frag x < 2 ^ 32) r.

(** An operation that keeps [Inv]. *)
Definition keeps {W} (Inv : W -> Prop) (f : W -> option W) : Prop := forall w, Inv w -> exists w', f w = Some w' /\ Inv w'.
Definition keeps_answer {W} (Inv : W -> Prop) (f : W -> option (option bool * W)) : Prop :=
  forall w, Inv w -> exists a w', f w = Some (a, w') /\ Inv w'.

Class EndpointsLaws `{Endpoints} (B : list Z) (L : Z) (Inv : World -> Prop) := {
  data_keeps r c : change_given (slice_in L) L c -> keeps Inv (process_data_msg r B c);
  data_frag_keeps r c size start n :
    change_given (slice_wraps L) L c -> 0 <= size < 2 ^ 32 -> 0 <= start < 2 ^ 32 -> 0 <= n < 2 ^ 16 ->
    keeps Inv (process_data_frag_msg r B c size start n);
  heartbeat_keeps r g count first last final liveliness v :
    0 <= count < 2 ^ 32 -> number_given first -> sn_ok last -> sn_val first - 1 <= sn_val last ->
    keeps Inv (process_heartbeat_msg r g count first last final liveliness v);
  gap_keeps r g start gaps v : number_given start -> set_given gaps -> keeps Inv (process_gap_msg r g start gaps v);
  acknack_keeps x gw gr count acks final v :
    0 <= count < 2 ^ 32 -> set_given acks -> keeps_answer Inv (process_acknack x gw gr count acks final v);
  nack_frag_keeps x gw gr count sn frags v :
    0 <= count < 2 ^ 32 -> sn_ok sn -> frags_given frags -> keeps_answer Inv (process_nack_frag x gw gr count sn frags v);
  liveliness_keeps g w : Inv w -> Inv (assert_remote_participant_liveliness g w)
}.

Section Laws.
Context `{P : Platform} `{E : Endpoints}.
Context (B : list Z) (L : Z) (Inv : World -> Prop) `{!EndpointsLaws B L Inv}.

(** ** Rules *)

(** A read, from a position in the message. *)
Lemma rwp_read {A C} (r : Reader A) (Q : A -> Prop) (f : A -> Reader C) (R : C -> CDRMessage_t -> Prop) m :
  stays r Q -> reading B L 0 m -> (forall a m', reading B L 0 m' -> pos m <= pos m' -> Q a -> rwp (f a) R m') -> rwp (rbind r f) R m.
Proof.
  intros Hr Hm Hf. apply rwp_bind. eapply rwp_mono; [apply (Hr B L 0); [lia|done]|]. intros a m' (Hm' & Hp & _ & _ & HQ). eauto.
Qed.

Lemma rwp_set_endian {C} e (f : unit -> Reader C) (R : C -> CDRMessage_t -> Prop) m k :
  reading B L k m -> (forall m', reading B L k m' -> pos m' = pos m -> rwp (f tt) R m') -> rwp (rbind (set_endian e) f) R m.
Proof. intros [] Hf. apply rwp_bind, rwp_put, Hf; by split. Qed.

Lemma rwp_advance {C} n (f : unit -> Reader C) (R : C -> CDRMessage_t -> Prop) m k k' :
  reading B L k m -> 0 <= k <= 2 ^ 17 -> 0 <= n <= 2 ^ 16 -> pos m + n <= L + k' ->
  (forall m', reading B L k' m' -> pos m' = pos m + n -> rwp (f tt) R m') -> rwp (rbind (advance n) f) R m.
Proof.
  intros Rm Hk Hn Hp Hf. pose proof Rm as []. apply rwp_bind, rwp_put. rewrite u32_small by lia.
  apply Hf; [|done]. apply (reading_pos B L k); [done|lia].
Qed.

Lemma rwp_peek {C} (f : Z -> Reader C) (R : C -> CDRMessage_t -> Prop) m p k :
  reading B L k m -> 0 <= p < L -> (forall b, is_byte b -> rwp (f b) R m) -> rwp (rbind (octet_at p) f) R m.
Proof.
  intros Hm Hp Hf. destruct Hm. apply rwp_bind. unfold octet_at, rwp, rbind, rget, rcheck.
  rewrite (proj2 (Z.ltb_ge _ _)) by lia. rewrite rd_buffer.
  destruct (lookup_lt_is_Some_2 B (Z.to_nat p)) as [b Eb]; [unfold zlen in *; lia|]. rewrite Eb.
  apply Hf. by eapply Forall_lookup_1.
Qed.

Lemma peek_octet_at {C} (f : Z -> Reader C) (R : C -> CDRMessage_t -> Prop) m :
  rwp (rbind (octet_at (pos m)) f) R m -> rwp (rbind peek f) R m.
Proof. done. Qed.

Lemma rwp_check {A C} (o : option A) (a : A) (f : A -> Reader C) (R : C -> CDRMessage_t -> Prop) m :
  o = Some a -> rwp (f a) R m -> rwp (rbind (rcheck o) f) R m.
Proof. intros ->. done. Qed.

Lemma for_readers_keeps rs callback : (forall r, keeps Inv (callback r)) -> keeps Inv (for_readers rs callback).
Proof.
  intros Hc. induction rs as [|r rs IH]; intros w Hw; [by exists w|]. simpl. destruct (Hc r w Hw) as (w1 & -> & Hw1). simpl. by apply IH.
Qed.

Lemma offer_writers_keeps ws call w : (forall x, keeps_answer Inv (call x)) -> Inv w ->
  exists v w', offer_writers ws call w = Some (v, w') /\ Inv w'.
Proof.
  intros Hc. revert w. induction ws as [|x ws IH]; intros w Hw; [by exists false, w|]. simpl.
  destruct (Hc x w Hw) as ([v|] & w1 & -> & Hw1); simpl; [by exists v, w1|]. by apply IH.
Qed.

(** What a handler leaves. *)
Definition handled {A} (r : A * World) (m' : CDRMessage_t) : Prop := reading B L (2 ^ 17) m' /\ Inv r.2.

Lemma reading_more k k' m : reading B L k m -> k <= k' -> reading B L k' m.
Proof. intros [] Hk. split; try done. lia. Qed.

Lemma rwp_stop {A} (a : A) w m k : reading B L k m -> k <= 2 ^ 17 -> Inv w -> rwp (rret (a, w)) handled m.
Proof. intros Hm Hk Hw. apply rwp_ret. split; [by eapply reading_more|done]. Qed.

Ltac rd Hm := first
  [ eapply rwp_read; [apply stays_entity_id|exact Hm|]
  | eapply rwp_read; [apply stays_sn; done|exact Hm|]
  | eapply rwp_read; [apply stays_u32; lia|exact Hm|]
  | eapply rwp_read; [apply stays_u16; lia|exact Hm|]
  | eapply rwp_read; [apply stays_i16; lia|exact Hm|]
  | eapply rwp_read; [apply stays_sn_set|exact Hm|] ].

Lemma sn_zero_ok : sn_ok (mkSN 0 0).
Proof. done. Qed.
Hint Resolve sn_zero_ok : core.

Lemma number_given_intro s : sn_ok s -> sn_leb s (mkSN 0 0) = false -> number_given s.
Proof.
  intros Hs Hl. split; [done|]. unfold sn_leb in Hl. destruct Hs as [Hh Hlo]. unfold sn_val. simpl in Hl.
  destruct (Z.eqb_spec (high s) 0); [apply Z.leb_gt in Hl; lia|]. apply Z.ltb_ge in Hl. lia.
Qed.

Lemma heartbeat_range first last : number_given first -> sn_ok last ->
  sn_ltb last first && negb (sn_eqb last (sn_sub_u32 first 1)) = false -> sn_val first - 1 <= sn_val last.
Proof.
  intros [Hf Hp] Hl. rewrite sn_ltb_val by done. destruct (Z.ltb_spec (sn_val last) (sn_val first)) as [Hlt|]; [|intros; lia].
  cbn [andb]. destruct (sn_sub_u32_val first 1) as [[Hok _] Hv]; [by split; [|lia]|lia|lia|].
  rewrite sn_eqb_val by done. rewrite Hv. intros H%negb_false_iff%Z.eqb_eq. lia.
Qed.

Lemma heartbeat_safe rc smh w m : reading B L 0 m -> Inv w -> rwp (proc_Submsg_Heartbeat rc smh w) handled m.
Proof.
  intros Hm Hw. unfold proc_Submsg_Heartbeat. cbv zeta. apply (rwp_set_endian _ _ _ _ 0); [done|]. intros m0 Hm0 _.
  rd Hm0. intros [? rid] m1 Hm1 _ _. rd Hm1. intros [? wid] m2 Hm2 _ _. rd Hm2. intros [? first] m3 Hm3 _ Hf.
  rd Hm3. intros [? last] m4 Hm4 _ Hl. simpl in Hf, Hl.
  destruct (sn_leb first (mkSN 0 0)) eqn:Ez; [by apply (rwp_stop _ _ _ 0)|].
  destruct (_ && _) eqn:Ev; [by apply (rwp_stop _ _ _ 0)|].
  rd Hm4. intros [[|] count] m5 Hm5 _ Hc; simpl in Hc; [|by apply (rwp_stop _ _ _ 0)]. cbn [negb].
  pose proof (number_given_intro first Hf Ez) as Hg.
  destruct (for_readers_keeps (readers_for rc rid) (fun r => process_heartbeat_msg r (mkGUID (source_guid_prefix_ rc) wid) count first last
    (flag smh 1) (flag smh 2) (source_vendor_id_ rc))) with (w := w) as (w' & Ew & Hw'); [|done|].
  { intros r. apply heartbeat_keeps; try done. apply heartbeat_range; [done|done|done]. }
  eapply rwp_check; [exact Ew|]. by apply (rwp_stop _ _ _ 0).
Qed.

Lemma acknack_safe rc smh w m : reading B L 0 m -> Inv w -> rwp (proc_Submsg_Acknack rc smh w) handled m.
Proof.
  intros Hm Hw. unfold proc_Submsg_Acknack. cbv zeta. apply (rwp_set_endian _ _ _ _ 0); [done|]. intros m0 Hm0 _.
  rd Hm0. intros [? rid] m1 Hm1 _ _. rd Hm1. intros [? wid] m2 Hm2 _ _. rd Hm2. intros acks m3 Hm3 _ Ha.
  rd Hm3. intros [[|] count] m4 Hm4 _ Hc; simpl in Hc; [|by apply (rwp_stop _ _ _ 0)]. cbn [negb].
  edestruct (offer_writers_keeps (associated_writers_ rc)) as (v & w' & Ew & Hw'); [|exact Hw|].
  { intros x. by apply (acknack_keeps x (mkGUID (dest_guid_prefix_ rc) wid) (mkGUID (source_guid_prefix_ rc) rid) count acks (flag smh 1) (source_vendor_id_ rc)). }
  unfold rwp, rcheck. rewrite Ew. split; [by eapply reading_more|done].
Qed.

Lemma nack_frag_safe rc smh w m : reading B L 0 m -> Inv w -> rwp (proc_Submsg_NackFrag rc smh w) handled m.
Proof.
  intros Hm Hw. unfold proc_Submsg_NackFrag. cbv zeta. apply (rwp_set_endian _ _ _ _ 0); [done|]. intros m0 Hm0 _.
  rd Hm0. intros [? rid] m1 Hm1 _ _. rd Hm1. intros [? wid] m2 Hm2 _ _. rd Hm2. intros [? sn] m3 Hm3 _ Hs.
  eapply rwp_read; [apply stays_frag_set|exact Hm3|].
  { split; [done|]. unfold counts. split; [apply words_zero|]. split; [done|]. split; [intros; apply bit_zero|done]. }
  intros [? frags] m4 Hm4 _ Hf.
  rd Hm4. intros [[|] count] m5 Hm5 _ Hc; simpl in Hc; [|by apply (rwp_stop _ _ _ 0)]. cbn [negb].
  edestruct (offer_writers_keeps (associated_writers_ rc)) as (v & w' & Ew & Hw'); [|exact Hw|].
  { intros x. by apply (nack_frag_keeps x (mkGUID (dest_guid_prefix_ rc) wid) (mkGUID (source_guid_prefix_ rc) rid) count sn frags (source_vendor_id_ rc)). }
  unfold rwp, rcheck. rewrite Ew. split; [by eapply reading_more|done].
Qed.

Lemma gap_safe rc smh w m : reading B L 0 m -> Inv w -> rwp (proc_Submsg_Gap rc smh w) handled m.
Proof.
  intros Hm Hw. unfold proc_Submsg_Gap. cbv zeta. apply (rwp_set_endian _ _ _ _ 0); [done|]. intros m0 Hm0 _.
  rd Hm0. intros [? rid] m1 Hm1 _ _. rd Hm1. intros [? wid] m2 Hm2 _ _. rd Hm2. intros [? start] m3 Hm3 _ Hs.
  rd Hm3. intros gaps m4 Hm4 _ Hg. simpl in Hs.
  destruct (sn_leb start (mkSN 0 0)) eqn:Ez; [by apply (rwp_stop _ _ _ 0)|].
  edestruct (for_readers_keeps (readers_for rc rid)) as (w' & Ew & Hw'); [|exact Hw|].
  { intros r. apply (gap_keeps r (mkGUID (source_guid_prefix_ rc) wid) start gaps (source_vendor_id_ rc)); [by apply number_given_intro|done]. }
  eapply rwp_check; [exact Ew|]. by apply (rwp_stop _ _ _ 0).
Qed.

(** The length of a submessage is in the message. *)
Definition header_ok (smh : SubmessageHeader_t) (m : CDRMessage_t) : Prop :=
  0 <= submessageLength smh /\ pos m + submessageLength smh <= L.

Lemma info_ts_safe rc smh m : reading B L 0 m -> rwp (proc_Submsg_InfoTS rc smh) (fun _ m' => reading B L (2 ^ 17) m') m.
Proof.
  intros Hm. unfold proc_Submsg_InfoTS. cbv zeta. apply (rwp_set_endian _ _ _ _ 0); [done|]. intros m0 Hm0 _.
  destruct (negb _); [|apply rwp_ret; by eapply reading_more]. unfold readTimestamp.
  eapply rwp_read; [|exact Hm0|intros [? t] m1 Hm1 _ _; apply rwp_ret; by eapply reading_more].
  apply (stays_bind _ _ (fun _ => True) (fun _ => True)).
  - by apply (stays_raw 4 (timestamp_ rc).1 (fun bs => i32 (host_value bs))).
  - intros [? s] _. eapply stays_bind; [eapply stays_any, stays_u32; lia|]. intros [? f] _. by apply stays_ret.
Qed.

Lemma info_dst_safe rc smh m : reading B L 0 m -> rwp (proc_Submsg_InfoDST rc smh) (fun _ m' => reading B L (2 ^ 17) m') m.
Proof.
  intros Hm. unfold proc_Submsg_InfoDST. apply (rwp_set_endian _ _ _ _ 0); [done|]. intros m0 Hm0 _.
  eapply rwp_read; [apply stays_data; lia|exact Hm0|]. intros [? g] m1 Hm1 _ _. apply rwp_ret. by eapply reading_more.
Qed.

Lemma info_src_safe rc smh m : reading B L 0 m -> header_ok smh m ->
  rwp (proc_Submsg_InfoSRC rc smh) (fun _ m' => reading B L (2 ^ 17) m') m.
Proof.
  intros Hm [_ Hh]. unfold proc_Submsg_InfoSRC. apply (rwp_set_endian _ _ _ _ 0); [done|]. intros m0 Hm0 Hp.
  destruct (Z.eqb_spec (submessageLength smh) INFO_SRC_SUBMSG_LENGTH) as [El|]; [|apply rwp_ret; by eapply reading_more].
  unfold INFO_SRC_SUBMSG_LENGTH in El. apply (rwp_advance _ _ _ _ 0 0); [done|lia|lia|lia|]. intros m1 Hm1 _.
  do 2 (eapply rwp_read; [eapply stays_any, stays_octet|eassumption|]; intros [? ?] ? ? _ _).
  do 2 (eapply rwp_read; [apply stays_data; lia|eassumption|]; intros [? ?] ? ? _ _).
  apply rwp_ret. by eapply reading_more.
Qed.

(** *** Changes *)

(** The jump over what a later version puts before the inline QoS. *)
Lemma rwp_jump {C} octets skip (f : Reader C) (R : C -> CDRMessage_t -> Prop) (stop : Reader C) m :
  reading B L 0 m -> - 2 ^ 15 <= octets < 2 ^ 15 -> 0 <= skip -> (forall m', reading B L (2 ^ 17) m' -> rwp stop R m') ->
  (forall m', reading B L 0 m' -> pos m <= pos m' -> rwp f R m') ->
  rwp (do* (if octets >? skip then advance (octets - skip) else rret tt) in let* m := rget in
       if (octets >? skip) && (pos m >? msg_length m) then stop else f) R m.
Proof.
  intros Hm Ho Hs Hstop Hf. destruct (Z.gtb_spec octets skip) as [Hgt|Hle]; cbn [andb].
  - pose proof Hm as []. apply (rwp_advance _ _ _ _ 0 (2 ^ 17)); [done|lia|lia|lia|]. intros m' Hm' Hp'. apply rwp_bind, rwp_get.
    pose proof Hm' as [_ El _ _ _ _]. destruct (Z.gtb_spec (pos m') (msg_length m')); [by apply Hstop|].
    apply Hf; [|lia]. pose proof Hm' as []. split; try done. lia.
  - apply rwp_bind, rwp_ret, rwp_bind, rwp_get. apply Hf; [done|lia].
Qed.

(** The inline QoS of a change, if it has some. *)
Lemma rwp_inline_qos {C} (has_qos : bool) fuel c (f : bool * Z * CacheChange_t -> Reader C) (R : C -> CDRMessage_t -> Prop) m :
  reading B L 0 m -> length (instanceHandle c).1 = 16%nat -> (Z.to_nat ((L + 3) / 4) < fuel)%nat ->
  (forall m' q c', reading B L (2 ^ 17) m' -> rwp (f (false, q, c')) R m') ->
  (forall m' q c', reading B L 0 m' -> same_sample c c' -> 0 <= q -> pos m' = pos m + q -> rwp (f (true, q, c')) R m') ->
  rwp (let* r := (if has_qos then updateCacheChangeFromInlineQos fuel c else rret (true, 0, c)) in f r) R m.
Proof.
  intros Hm Hh Hfuel Hbad Hgood. pose proof Hm as [_ _ Hp _ _ _]. destruct has_qos.
  - apply rwp_bind. eapply rwp_mono; [apply (inline_qos_read B L 0); [lia|done|lia|done|done]|].
    intros [[[|] q] c'] m' (Hm' & _ & Hs & Ht); [|by apply Hbad]. destruct (Ht eq_refl) as (Hq & Hp' & Hl). simpl in *.
    apply Hgood; [|done|done|done]. pose proof Hm' as []. split; try done. lia.
  - apply rwp_bind, rwp_ret. apply Hgood; [done|by repeat split|lia|lia].
Qed.

Lemma change_weaken (Q Q' : Slice -> Prop) c : change_given Q L c -> (forall s, Q s -> Q' s) -> change_given Q' L c.
Proof. intros (H1 & H2 & H3 & H4) HQ. split; [done|]. split; [done|]. split; [|done]. destruct (serializedPayload c); [by apply HQ|done]. Qed.

Definition payload_read (Q : Slice -> Prop) (r : bool * CacheChange_t) (m' : CDRMessage_t) : Prop :=
  reading B L (2 ^ 17) m' /\ (r.1 = true -> change_given Q L r.2).

Lemma data_payload_safe smh octets q c m : L < 2 ^ 31 -> reading B L 0 m -> 0 <= submessageLength smh <= L ->
  change_given (slice_in L) L c -> rwp (data_payload smh octets q c) (payload_read (slice_in L)) m.
Proof.
  intros HL Hm Hs Hc. pose proof Hm as [Hb Hl Hp Hmx Hsm Hby]. pose proof Hc as (C1 & C2 & C3 & C4).
  assert (Hstop : rwp (rret (false, c)) (payload_read (slice_in L)) m).
  { apply rwp_ret. split; [by eapply reading_more|done]. }
  unfold data_payload. cbv zeta. set (np := u32 _). assert (Hnp : 0 <= np < 2 ^ 32) by (apply Z.mod_pos_bound; lia).
  destruct (Z.ltb_spec (submessageLength smh) np); [done|]. apply rwp_bind, rwp_get.
  rewrite (u32_small (submessageLength smh - np)) by lia. rewrite u32_small by lia. set (ps := submessageLength smh - np) in *.
  destruct (_ && _) eqn:Ev; [|done]. apply andb_true_iff in Ev as [Hfit Hpos]. rewrite Z.geb_leb in Hfit. apply Z.leb_le in Hfit.
  rewrite Z.gtb_ltb in Hpos. apply Z.ltb_lt in Hpos.
  assert (Hend : forall c', change_given (slice_in L) L c' -> rwp (do* seek (pos m + ps) in rret (true, c')) (payload_read (slice_in L)) m).
  { intros c' Hc'. apply rwp_bind, rwp_put, rwp_ret. split; [|done]. apply (reading_pos B L 0); [done|lia]. }
  destruct (flag smh 2).
  { apply rwp_bind, rwp_ret, Hend. split; [done|]. split; [done|]. split; [|done]. unfold slice_in. simpl. lia. }
  destruct (Z.leb_spec ps PARAMETER_KEY_HASH_LENGTH) as [H16|]; [|by apply rwp_bind, rwp_ret, Hend].
  destruct (instanceHandle c).2; [by apply rwp_bind, rwp_ret, Hend|].
  destruct (reading_mread B L 0 m ps Hm) as (bs & E1 & El & _); [lia|lia|]. rewrite E1.
  apply rwp_bind. apply (rwp_check (Some bs) bs); [done|]. apply rwp_ret, Hend. split; [done|]. split; [|done]. simpl.
  unfold PARAMETER_KEY_HASH_LENGTH, zlen in *. rewrite length_app, length_drop. lia.
Qed.

Lemma frag_payload_safe smh octets q fs c m : reading B L 0 m -> change_given (slice_wraps L) L c ->
  rwp (frag_payload smh octets q fs c) (payload_read (slice_wraps L)) m.
Proof.
  intros Hm Hc. pose proof Hm as [Hb Hl Hp Hmx Hsm Hby]. pose proof Hc as (C1 & C2 & C3 & C4).
  unfold frag_payload. cbv zeta. set (ps := u32 (submessageLength smh - _)). assert (Hps : 0 <= ps < 2 ^ 32) by (apply Z.mod_pos_bound; lia).
  apply rwp_bind, rwp_get. destruct (_ && _) eqn:Ev; [|apply rwp_ret; split; [by eapply reading_more|done]].
  apply andb_true_iff in Ev as [Hfit Hpos]. rewrite Z.geb_leb in Hfit. apply Z.leb_le in Hfit.
  rewrite Z.gtb_ltb in Hpos. apply Z.ltb_lt in Hpos. apply rwp_bind, rwp_put, rwp_ret.
  assert (0 <= u32 (pos m + ps)) by (apply Z.mod_pos_bound; lia). split; [apply (reading_pos B L 0); [done|lia]|].
  intros _. split; [done|]. split; [done|]. split; [|done]. unfold slice_wraps. simpl. lia.
Qed.

Lemma given_with_qos (Q : Slice -> Prop) c c' (b : bool) p q e :
  same_sample c c' -> number_given (sequenceNumber c) -> serializedPayload c = None -> inline_qos c = None ->
  0 <= p -> 0 <= q -> p + q <= L -> L < 2 ^ 32 ->
  change_given Q L (if b then set_inline_qos (mkSlice (u32 (p + q - q)) q, e) c' else c').
Proof.
  intros (_ & S2 & S3 & S4 & _ & S6) Hn Hp Hi H0 Hq Hl H32. replace (p + q - q) with p by lia. rewrite u32_small by lia.
  destruct b; (split; [simpl; by rewrite S2|]); (split; [done|]); simpl; rewrite S3, Hp; (split; [done|]); simpl; [unfold slice_in; simpl; lia|by rewrite S4, Hi].
Qed.

Lemma given_timestamp (Q : Slice -> Prop) (b : bool) t c : change_given Q L c -> change_given Q L (if b then set_timestamp t c else c).
Proof. by destruct b. Qed.

Lemma data_safe fuel rc smh w m : L < 2 ^ 31 -> reading B L 0 m -> header_ok smh m -> Inv w -> (Z.to_nat ((L + 3) / 4) < fuel)%nat ->
  rwp (proc_Submsg_Data fuel rc smh w) handled m.
Proof.
  intros HL Hm [Hh0 Hh] Hw Hfuel. pose proof Hm as [_ _ Hpm _ _ _]. unfold proc_Submsg_Data. cbv zeta.
  destruct (Z.ltb_spec (submessageLength smh) RTPSMESSAGE_DATA_MIN_LENGTH) as [|Hmin]; [by apply (rwp_stop _ _ _ 0)|].
  unfold RTPSMESSAGE_DATA_MIN_LENGTH in Hmin. destruct (_ && _); [by apply (rwp_stop _ _ _ 0)|].
  apply (rwp_set_endian _ _ _ _ 0); [done|]. intros m0 Hm0 Hp0.
  apply (rwp_advance _ _ _ _ 0 0); [done|lia|lia|lia|]. intros m1 Hm1 _.
  rd Hm1. intros [v1 octets] m2 Hm2 _ Ho. rd Hm2. intros [v2 rid] m3 Hm3 _ _. simpl in Ho.
  destruct (negb _); [by apply (rwp_stop _ _ _ 0)|]. rd Hm3. intros [v3 wid] m4 Hm4 _ _.
  rd Hm4. intros [v4 sn] m5 Hm5 _ Hsn. simpl in Hsn. destruct (negb _); [by apply (rwp_stop _ _ _ 0)|].
  destruct (sn_leb sn (mkSN 0 0)) eqn:Ez; [by apply (rwp_stop _ _ _ 0)|].
  apply rwp_jump; [done|done|done|intros; by eapply rwp_stop|]. intros m6 Hm6 _.
  apply rwp_inline_qos; [done|done|done|intros; by eapply rwp_stop|].
  intros m7 q c' Hm7 Hs Hq Hp7. cbn [negb]. apply rwp_bind, rwp_get. rewrite Hp7.
  pose proof Hm6 as [_ _ Hp6 _ _ _]. pose proof Hm7 as [Hb7 _ Hp7' _ _ _].
  match goal with |- context [set_inline_qos ?x c'] => pose proof (given_with_qos (slice_in L) _ c' (flag smh 1) (pos m6) q x.2 Hs) as Hgc end.
  simpl in Hgc. specialize (Hgc (number_given_intro sn Hsn Ez) eq_refl eq_refl ltac:(lia) Hq ltac:(lia) ltac:(lia)).
  set (c1 := if flag smh 1 then _ else c') in *.
  apply rwp_bind. eapply rwp_mono with (Q := payload_read (slice_in L)).
  { destruct (_ || _); [apply data_payload_safe; [done|done|lia|done]|]. apply rwp_ret. split; [by eapply reading_more|done]. }
  intros [[|] c2] m8 [Hm8 Hc2]; [|by eapply rwp_stop]. cbn [negb]. specialize (Hc2 eq_refl). simpl in Hc2.
  edestruct (for_readers_keeps (readers_for rc rid)) as (w' & Ew & Hw'); [|exact Hw|].
  { intros r. apply (data_keeps r). apply (given_timestamp _ (have_timestamp_ rc) (timestamp_ rc)). exact Hc2. }
  eapply rwp_check; [unfold findAllReaders; rewrite Hb7; exact Ew|]. by eapply rwp_stop.
Qed.

Lemma data_frag_safe fuel rc smh w m : L < 2 ^ 31 -> reading B L 0 m -> header_ok smh m -> Inv w -> (Z.to_nat ((L + 3) / 4) < fuel)%nat ->
  rwp (proc_Submsg_DataFrag fuel rc smh w) handled m.
Proof.
  intros HL Hm [Hh0 Hh] Hw Hfuel. pose proof Hm as [_ _ Hpm _ _ _]. unfold proc_Submsg_DataFrag. cbv zeta.
  destruct (Z.ltb_spec (submessageLength smh) RTPSMESSAGE_DATA_MIN_LENGTH) as [|Hmin]; [by apply (rwp_stop _ _ _ 0)|].
  unfold RTPSMESSAGE_DATA_MIN_LENGTH in Hmin.
  apply (rwp_set_endian _ _ _ _ 0); [done|]. intros m0 Hm0 Hp0.
  apply (rwp_advance _ _ _ _ 0 0); [done|lia|lia|lia|]. intros m1 Hm1 _.
  rd Hm1. intros [v1 octets] m2 Hm2 _ Ho. rd Hm2. intros [v2 rid] m3 Hm3 _ _. simpl in Ho.
  destruct (negb (willAReaderAcceptMsgDirectedTo _ _)); [by apply (rwp_stop _ _ _ 0)|]. rd Hm3. intros [v3 wid] m4 Hm4 _ _.
  rd Hm4. intros [v4 sn] m5 Hm5 _ Hsn. simpl in Hsn. destruct (sn_leb sn (mkSN 0 0)) eqn:Ez; [by apply (rwp_stop _ _ _ 0)|].
  rd Hm5. intros [v5 start] m5a Hm5a _ Hst. rd Hm5a. intros [v6 n] m5b Hm5b _ Hn.
  rd Hm5b. intros [v7 fs] m5c Hm5c _ Hfs. rd Hm5c. intros [v8 size] m5d Hm5d _ Hsz. simpl in Hst, Hn, Hfs, Hsz.
  destruct (negb _); [by apply (rwp_stop _ _ _ 0)|].
  apply rwp_jump; [done|done|done|intros; by eapply rwp_stop|]. intros m6 Hm6 _.
  apply rwp_inline_qos; [done|done|done|intros; by eapply rwp_stop|].
  intros m7 q c' Hm7 Hs Hq Hp7. cbn [negb]. apply rwp_bind, rwp_get. rewrite Hp7.
  pose proof Hm6 as [_ _ Hp6 _ _ _]. pose proof Hm7 as [Hb7 _ Hp7' _ _ _].
  match goal with |- context [set_inline_qos ?x c'] => pose proof (given_with_qos (slice_wraps L) _ c' (flag smh 1) (pos m6) q x.2 Hs) as Hgc end.
  simpl in Hgc. specialize (Hgc (number_given_intro sn Hsn Ez) eq_refl eq_refl ltac:(lia) Hq ltac:(lia) ltac:(lia)).
  set (c1 := if flag smh 1 then _ else c') in *.
  apply rwp_bind. eapply rwp_mono with (Q := payload_read (slice_wraps L)).
  { destruct (flag smh 2); cbn [negb]; [|by apply frag_payload_safe]. apply rwp_ret. split; [by eapply reading_more|done]. }
  intros [[|] c2] m8 [Hm8 Hc2]; [|by eapply rwp_stop]. cbn [negb]. specialize (Hc2 eq_refl). simpl in Hc2.
  edestruct (for_readers_keeps (readers_for rc rid)) as (w' & Ew & Hw'); [|exact Hw|].
  { intros r. apply (data_frag_keeps r (if have_timestamp_ rc then set_timestamp (timestamp_ rc) c2 else c2) size start n); [|done|done|done].
    apply (given_timestamp _ (have_timestamp_ rc) (timestamp_ rc)). exact Hc2. }
  eapply rwp_check; [unfold findAllReaders; rewrite Hb7; exact Ew|]. by eapply rwp_stop.
Qed.

(** ** Headers and messages *)

Lemma check_header_safe rc m : 20 <= L -> reading B L 0 m -> pos m = 0 ->
  rwp (checkRTPSHeader rc) (fun _ m' => reading B L 0 m') m.
Proof.
  intros HL Hm Hp. unfold checkRTPSHeader.
  do 4 (eapply rwp_peek; [exact Hm|lia|]; intros ? _; destruct (negb _); [by apply rwp_ret|]).
  apply (rwp_advance _ _ _ _ 0 0); [done|lia|lia|lia|]. intros m1 Hm1 Hp1.
  apply peek_octet_at. eapply rwp_peek; [exact Hm1|lia|]. intros major _. destruct (_ =? _); [|by apply rwp_ret].
  apply (rwp_advance _ _ _ _ 0 0); [done|lia|lia|lia|]. intros m2 Hm2 Hp2.
  do 3 (apply peek_octet_at; eapply rwp_peek; [eassumption|lia|]; intros ? _;
        apply (rwp_advance _ _ _ _ 0 0); [eassumption|lia|lia|lia|]; intros ? ? ?).
  eapply rwp_read; [apply stays_data; lia|eassumption|]. intros [? ?] m3 Hm3 _ _. by apply rwp_ret.
Qed.

Lemma submessage_header_safe m : L < 2 ^ 31 -> reading B L 0 m -> pos m < L ->
  rwp readSubmessageHeader (fun h m' => reading B L 0 m' /\
    optional (fun smh => header_ok smh m' /\ pos m + 4 <= pos m') h) m.
Proof.
  intros HL Hm Hp. pose proof Hm as [Hb Hl Hpm Hmx Hsm Hby]. unfold readSubmessageHeader. apply rwp_bind, rwp_get.
  rewrite u32_small by lia. destruct (Z.ltb_spec (msg_length m - pos m) 4); [by apply rwp_ret|].
  apply peek_octet_at. eapply rwp_peek; [exact Hm|lia|]. intros id _.
  apply (rwp_advance _ _ _ _ 0 0); [done|lia|lia|lia|]. intros m1 Hm1 Hp1.
  apply peek_octet_at. eapply rwp_peek; [exact Hm1|lia|]. intros fl _.
  apply (rwp_advance _ _ _ _ 0 0); [done|lia|lia|lia|]. intros m2 Hm2 Hp2.
  apply (rwp_set_endian _ _ _ _ 0); [done|]. intros m3 Hm3 Hp3.
  apply rwp_bind. eapply rwp_mono.
  { apply rwp_and; [apply (read_u16_full 0 B L 0); [lia|done|lia]|]. apply (u16_there 0 B L 0); [lia|done|lia]. }
  intros [v len] m4 [(Hm4 & _ & Hlen & _ & Ht) Hv]. simpl in *. destruct (Ht Hv) as [Hp4 Hp4']. apply rwp_bind, rwp_get.
  pose proof Hm4 as [_ Hl4 _ _ _ _]. rewrite u32_small by lia. destruct (Z.gtb_spec (pos m4 + len) (msg_length m4)); [by apply rwp_ret|].
  destruct (_ && _); apply rwp_ret; (split; [done|]); (split; [|lia]); unfold header_ok; simpl; rewrite ?u32_small by lia; lia.
Qed.

Lemma proc_submsg_safe qos_fuel participant rc smh ignore w m :
  L < 2 ^ 31 -> reading B L 0 m -> header_ok smh m -> Inv w -> (Z.to_nat ((L + 3) / 4) < qos_fuel)%nat ->
  rwp (proc_Submsg qos_fuel participant rc smh ignore w) handled m.
Proof.
  intros HL Hm Hh Hw Hf. unfold proc_Submsg. cbv zeta. destruct (ignore && _); [by apply (rwp_stop _ _ _ 0)|].
  assert (Hd : forall r : Reader (bool * World), rwp r handled m -> rwp (if bool_decide (dest_guid_prefix_ rc = participant)
      then let* '(v, w) := r in rret (v, ignore, rc, w) else rret (true, ignore, rc, w)) handled m).
  { intros r Hr. destruct (bool_decide _); [|by apply (rwp_stop _ _ _ 0)]. apply rwp_bind. eapply rwp_mono; [exact Hr|].
    intros [v w'] m' [Hm' Hw']. by eapply rwp_stop. }
  assert (Hi : forall (r : Reader (bool * MessageReceiver)) (g : MessageReceiver -> bool), rwp r (fun _ m' => reading B L (2 ^ 17) m') m ->
      rwp (let* '(v, rc') := r in rret (v, g rc', rc', w)) handled m).
  { intros r g Hr. apply rwp_bind. eapply rwp_mono; [exact Hr|]. intros [v rc'] m' Hm'. by eapply rwp_stop. }
  destruct (_ =? DATA).
  { destruct (bool_decide _); [|by apply (rwp_stop _ _ _ 0)]. apply rwp_bind.
    eapply rwp_mono; [by apply (data_safe qos_fuel rc smh w)|]. intros [[v wid] w'] m' [Hm' Hw']. by eapply rwp_stop. }
  destruct (_ =? DATA_FRAG); [by apply Hd, data_frag_safe|]. destruct (_ =? GAP); [by apply Hd, gap_safe|].
  destruct (_ =? ACKNACK); [by apply Hd, acknack_safe|]. destruct (_ =? NACK_FRAG); [by apply Hd, nack_frag_safe|].
  destruct (_ =? HEARTBEAT); [by apply Hd, heartbeat_safe|].
  destruct (_ =? HEARTBEAT_FRAG); [apply Hd; apply rwp_bind, rwp_ret; by apply (rwp_stop _ _ _ 0)|].
  destruct (_ =? INFO_DST); [by apply (Hi _ (fun _ => ignore)), info_dst_safe|].
  destruct (_ =? INFO_SRC); [by apply (Hi _ (fun rc => is_participant_ignored (source_guid_prefix_ rc) w)), info_src_safe|].
  destruct (_ =? INFO_TS); [by apply (Hi _ (fun _ => ignore)), info_ts_safe|]. by apply (rwp_stop _ _ _ 0).
Qed.

(** Each round takes at least the four bytes of a header. *)
Lemma loop_safe qos_fuel participant : L < 2 ^ 31 -> (Z.to_nat ((L + 3) / 4) < qos_fuel)%nat ->
  forall fuel rc ignore w m, reading B L 3 m -> Inv w -> (Z.to_nat (L + 3 - pos m) < 4 * fuel)%nat ->
  rwp (submessage_loop fuel qos_fuel participant rc ignore w) handled m.
Proof.
  intros HL Hq. induction fuel as [|fuel IH]; intros rc ignore w m Hm Hw Hfuel; [lia|].
  cbn [submessage_loop]. apply rwp_bind, rwp_get. pose proof Hm as [Hb Hl Hp Hmx Hsm Hby].
  destruct (Z.ltb_spec (pos m) (msg_length m)) as [Hlt|]; [|by apply (rwp_stop _ _ _ 3)].
  assert (Hm0 : reading B L 0 m) by (split; try done; lia). apply rwp_bind.
  eapply rwp_mono; [apply (submessage_header_safe m); [done|done|lia]|].
  intros [smh|] m1 [Hm1 Hh]; [|by apply (rwp_stop _ _ _ 0)]. destruct Hh as [Hh Hp1]. apply rwp_bind, rwp_get.
  destruct Hh as [Hh0 Hh1]. pose proof Hm1 as [_ _ Hp1' _ _ _].
  rewrite (u32_small (submessageLength smh + 3)), mask_align4 by lia.
  pose proof (Z.div_mod (submessageLength smh + 3) 4 ltac:(lia)). pose proof (Z.mod_pos_bound (submessageLength smh + 3) 4 ltac:(lia)).
  rewrite u32_small by lia. apply rwp_bind. eapply rwp_mono; [apply (proc_submsg_safe qos_fuel participant rc smh ignore w m1); done|].
  intros [[[v ig] rc'] w'] m2 [Hm2 Hw']. simpl in Hw'. destruct (negb v || is_last smh); [by eapply rwp_stop|].
  apply rwp_bind, rwp_put. apply IH; [apply (reading_pos B L (2 ^ 17)); [done|lia]|done|]. simpl. lia.
Qed.

End Laws.
