(* ===== verification/MessageReceiverSpec.v ===== *)
(** * Receiving messages: the theorems

    Processing any bytes is safe and ends; what endpoints are told is well
    formed.  [log_endpoints] are endpoints that keep a log of the calls, with which
    the theorems are stated on what the receiver does and evaluated on messages. *)

From stdpp Require Import gmap.
From S2P Require Import Prelude FastBuffer SequenceNumber BitmapRange CdrMessage MsgReader ParameterList.
From S2P Require Import MessageReceiver MessageReceiverLaws.

(** ** Endpoints that keep a log *)

Inductive Call :=
| CallData (reader : Z) (c : CacheChange_t)
| CallDataFrag (reader : Z) (c : CacheChange_t) (size start n : Z)
| CallHeartbeat (reader : Z) (g : GUID_t) (count : Z) (first last : SequenceNumber_t) (final liveliness : bool)
| CallGap (reader : Z) (g : GUID_t) (start : SequenceNumber_t) (gaps : SNSet)
| CallAcknack (writer : Z) (gw gr : GUID_t) (count : Z) (acks : SNSet) (final : bool)
| CallNackFrag (writer : Z) (gw gr : GUID_t) (count : Z) (sn : SequenceNumber_t) (frags : FragSet)
| CallLiveliness (g : GuidPrefix_t).

(** Readers and writers are numbers; a writer takes the messages for its entity
    id, [ignored] are the participants that are ignored. *)
Definition log_endpoints (writer_entity : Z -> EntityId_t) (ignored : list GuidPrefix_t) : Endpoints := {|
  World := list Call;
  ReaderId := Z;
  WriterId := Z;
  process_data_msg r _ c w := Some (w ++ [CallData r c]);
  process_data_frag_msg r _ c size start n w := Some (w ++ [CallDataFrag r c size start n]);
  process_heartbeat_msg r g count first last final liveliness _ w :=
    Some (w ++ [CallHeartbeat r g count first last final liveliness]);
  process_gap_msg r g start gaps _ w := Some (w ++ [CallGap r g start gaps]);
  process_acknack x gw gr count acks final _ w :=
    if decide (entityId gw = writer_entity x) then Some (Some true, w ++ [CallAcknack x gw gr count acks final]) else Some (None, w);
  process_nack_frag x gw gr count sn frags _ w :=
    if decide (entityId gw = writer_entity x) then Some (Some true, w ++ [CallNackFrag x gw gr count sn frags]) else Some (None, w);
  is_participant_ignored g _ := bool_decide (g ∈ ignored);
  assert_remote_participant_liveliness g w := w ++ [CallLiveliness g]
|}.

(** A call with the arguments endpoints rely on, for a message of [L] bytes. *)
Definition call_ok (L : Z) (c : Call) : Prop :=
  match c with
  | CallData _ c => change_given (slice_in L) L c
  | CallDataFrag _ c size start n =>
      change_given (slice_wraps L) L c /\ 0 <= size < 2 ^ 32 /\ 0 <= start < 2 ^ 32 /\ 0 <= n < 2 ^ 16
  | CallHeartbeat _ _ count first last _ _ =>
      0 <= count < 2 ^ 32 /\ number_given first /\ sn_ok last /\ sn_val first - 1 <= sn_val last
  | CallGap _ _ start gaps => number_given start /\ set_given gaps
  | CallAcknack _ _ _ count acks _ => 0 <= count < 2 ^ 32 /\ set_given acks
  | CallNackFrag _ _ _ count sn frags => 0 <= count < 2 ^ 32 /\ sn_ok sn /\ frags_given frags
  | CallLiveliness _ => True
  end.

#[export] Instance log_laws writer_entity ignored B L :
  @EndpointsLaws (log_endpoints writer_entity ignored) B L (Forall (call_ok L)).
Proof.
  assert (Hk : forall (w : list Call) c, Forall (call_ok L) w -> call_ok L c -> Forall (call_ok L) (w ++ [c])).
  { intros w c Hw Hc. apply Forall_app. split; [done|]. by constructor. }
  split; unfold keeps, keeps_answer; intros; simpl;
    repeat match goal with |- context [decide ?X] => destruct (decide X) end; try by eauto 10.
  all: try (eexists; split; [reflexivity|]; apply Hk; [done|]; simpl; tauto).
  all: try (eexists _, _; split; [reflexivity|]; apply Hk; [done|]; simpl; tauto).
  by apply Hk.
Qed.

(** ** Any bytes *)

(** A message as the transport fills it. *)
Definition received (m : CDRMessage_t) : Prop :=
  Forall is_byte (buffer m) /\ 0 <= msg_length m <= msg_max_size m /\ msg_max_size m <= zlen (buffer m) /\ msg_max_size m < 2 ^ 31.

Section Any.
Context `{P : Platform} `{E : Endpoints}.

(** As many rounds as the message has headers of four bytes. *)
Definition process (participant : GuidPrefix_t) (rc : MessageReceiver) (w : World) (m : CDRMessage_t)
  : option (MessageReceiver * World * CDRMessage_t) :=
  let fuel := S (Z.to_nat ((msg_length m + 3) / 4)) in
  processCDRMsg fuel fuel participant rc w m.

Lemma process_safe participant rc w m (Inv : World -> Prop) `{!EndpointsLaws (buffer m) (msg_length m) Inv} :
  received m -> Inv w ->
  exists rc' w' m', process participant rc w m = Some (rc', w', m') /\ Inv w' /\ buffer m' = buffer m.
Proof.
  intros (Hb & Hl & Hm & Hs) Hw. set (B := buffer m) in *. set (L := msg_length m) in *.
  unfold process. fold L. set (fuel := S (Z.to_nat ((L + 3) / 4))).
  assert (Hfuel : (Z.to_nat ((L + 3) / 4) < fuel)%nat) by (unfold fuel; lia).
  assert (Hrounds : (Z.to_nat (L + 3) < 4 * fuel)%nat).
  { pose proof (Z.div_mod (L + 3) 4 ltac:(lia)). pose proof (Z.mod_pos_bound (L + 3) 4 ltac:(lia)). unfold fuel. lia. }
  cut (rwp (processCDRMsg fuel fuel participant rc w) (fun r m' => Inv r.2 /\ buffer m' = B) m).
  { unfold rwp. destruct (processCDRMsg _ _ _ _ _ m) as [[[rc' w'] m']|]; [|done]. intros [? ?]. eauto 10. }
  clearbody fuel. unfold processCDRMsg. apply rwp_bind, rwp_get. fold L.
  destruct (Z.ltb_spec L RTPSMESSAGE_HEADER_SIZE) as [|H20]; [by apply rwp_ret|]. unfold RTPSMESSAGE_HEADER_SIZE in H20.
  cbv zeta. apply rwp_bind, rwp_put. assert (Hm0 : reading B L 0 (set_pos m 0)) by (split; simpl; try done; lia).
  apply rwp_bind. eapply rwp_mono; [by apply (check_header_safe B L)|]. intros [ok rc1] m1 Hm1.
  pose proof Hm1 as [Hb1 _ Hp1 _ _ _]. destruct ok; cbn [negb]; [|by apply rwp_ret].
  apply rwp_bind. eapply rwp_mono.
  { apply (loop_safe B L Inv); [lia|exact Hfuel| |exact Hw|lia]. by eapply reading_more. }
  intros [[ok2 rc2] w2] m2 [[Hb2 _ _ _ _ _] Hw2]. apply rwp_ret. split; [|done]. simpl in *. destruct ok2; [|done].
  by apply (liveliness_keeps (B := B) (L := L)).
Qed.

(** C17: whatever bytes arrive, processing them ends and never reads outside of
    the message, for endpoints that keep their invariant when they are called
    with well-formed arguments. *)
Theorem any_message_is_processed participant rc w m (Inv : World -> Prop) `{!EndpointsLaws (buffer m) (msg_length m) Inv} :
  received m -> Inv w ->
  exists rc' w' m', process participant rc w m = Some (rc', w', m') /\ Inv w'.
Proof. intros Hm Hw. destruct (process_safe participant rc w m Inv Hm Hw) as (? & ? & ? & ? & ? & _). eauto. Qed.

End Any.

(** C37: every call the receiver makes to readers and writers for an arbitrary
    message has well-formed arguments: positive numbers of samples, of the start of
    gaps and of the first sample of a heartbeat, heartbeats whose range is not
    inverted, sets of at most 256 numbers, and payload and inline QoS of DATA
    submessages inside of the message.  Of the number of a NACK_FRAG only the
    representation is known: the code does not check its sign
    ([negative_nack_frag_passes]). *)
Theorem calls_are_well_formed `{P : Platform} writer_entity ignored participant rc m :
  received m ->
  exists rc' calls m', @process P (log_endpoints writer_entity ignored) participant rc [] m = Some (rc', calls, m') /\
    Forall (call_ok (msg_length m)) calls.
Proof.
  intros Hm. destruct (@process_safe P (log_endpoints writer_entity ignored) participant rc [] m (Forall (call_ok (msg_length m))) _ Hm)
    as (rc' & w' & m' & E & Hw & _); [by constructor|]. eauto.
Qed.

(** ** Examples *)

Definition peer : GuidPrefix_t := [1; 15; 1; 2; 3; 4; 5; 6; 7; 8; 9; 10].
Definition own : GuidPrefix_t := [1; 15; 9; 9; 9; 9; 9; 9; 9; 9; 9; 9].
Definition rtps_header : list Z := [0x52; 0x54; 0x50; 0x53; 2; 2; 1; 15] ++ peer.
Definition message_of (bs : list Z) : CDRMessage_t := mkMsg bs 0 (zlen bs) (zlen bs) LITTLEEND.

Definition logging : Endpoints := log_endpoints (fun _ => [0; 0; 2; 3]) [].

(** A receiver with one reader, number 7. *)
Definition one_reader : @MessageReceiver logging :=
  @associate_reader logging (@MessageReceiver_new logging) [0; 0; 1; 4] 7.

(** A heartbeat for the reader: 1 to 5, count 3, and the final flag. *)
Definition heartbeat_message : list Z :=
  rtps_header ++ [0x07; 3; 28; 0] ++ [0; 0; 1; 4] ++ [0; 0; 2; 3] ++ [0; 0; 0; 0; 1; 0; 0; 0] ++ [0; 0; 0; 0; 5; 0; 0; 0] ++ [3; 0; 0; 0].

Lemma bytes_check bs : forallb (fun b => (0 <=? b) && (b <? 256)) bs = true -> Forall is_byte bs.
Proof.
  rewrite forallb_forall, list.Forall_forall. intros H x Hx. apply list_elem_of_In in Hx. apply H in Hx.
  apply andb_true_iff in Hx as [H1 H2]. unfold is_byte. lia.
Qed.

Lemma message_of_received bs : forallb (fun b => (0 <=? b) && (b <? 256)) bs = true -> zlen bs < 2 ^ 31 -> received (message_of bs).
Proof. intros Hb Hl. pose proof (zlen_nonneg bs). split; [by apply bytes_check|]. simpl. lia. Qed.

Example heartbeat_delivered :
  (fun r => r.1.2) <$> @process host logging own one_reader [] (message_of heartbeat_message) =
  Some [CallHeartbeat 7 (mkGUID peer [0; 0; 2; 3]) 3 (mkSN 0 1) (mkSN 0 5) true false; CallLiveliness peer].
Proof. vm_compute. reflexivity. Qed.

Lemma any_message_is_processed_witness :
  exists rc' w' m', @process host logging own one_reader [] (message_of heartbeat_message) = Some (rc', w', m') /\
    Forall (call_ok (zlen heartbeat_message)) w'.
Proof.
  apply (@any_message_is_processed host logging own one_reader [] (message_of heartbeat_message)
           (Forall (call_ok (zlen heartbeat_message))) (log_laws _ _ _ _)).
  - apply message_of_received; [reflexivity|vm_compute; reflexivity].
  - constructor.
Defined.

Lemma calls_are_well_formed_witness :
  exists rc' calls m', @process host (log_endpoints (fun _ => [0; 0; 2; 3]) []) own one_reader [] (message_of heartbeat_message) = Some (rc', calls, m') /\
    Forall (call_ok (zlen heartbeat_message)) calls.
Proof.
  apply (@calls_are_well_formed host (fun _ => [0; 0; 2; 3]) [] own one_reader (message_of heartbeat_message)).
  apply message_of_received; [reflexivity|vm_compute; reflexivity].
Defined.

(** ** Fragments *)

(** A DATA_FRAG submessage of 24 bytes: the shortest that is accepted, and eight
    less than its fields take. *)
Definition short_frag_message : list Z :=
  rtps_header ++ [0x16; 1; 24; 0] ++ [0; 0; 28; 0] ++ [0; 0; 1; 4] ++ [0; 0; 2; 3] ++ [0; 0; 0; 0; 1; 0; 0; 0] ++
  [1; 0; 0; 0] ++ [1; 0; 64; 0] ++ [64; 0; 0; 0].

(** A DATA_FRAG submessage that is too short for its fields is not refused: the
    size of its payload wraps around, and readers are given a payload of almost
    four gigabytes out of a message of 56 bytes. *)
Theorem short_data_frag_wraps :
  exists c rest, (fun r => r.1.2) <$> @process host logging own one_reader [] (message_of short_frag_message) =
      Some (CallDataFrag 7 c 64 1 1 :: rest) /\
    serializedPayload c = Some (mkSlice 56 (2 ^ 32 - 8)) /\ zlen short_frag_message = 56.
Proof. eexists _, _. split; [vm_compute; reflexivity|]. split; reflexivity. Qed.

(** ** Numbers of samples that are not positive *)

(** A NACK_FRAG submessage for the sample (-1, 7), from the unknown reader. *)
Definition negative_nack_frag : list Z :=
  rtps_header ++ [0x12; 1; 28; 0] ++ [0; 0; 1; 4] ++ [0; 0; 2; 3] ++ [255; 255; 255; 255; 7; 0; 0; 0] ++
  [1; 0; 0; 0] ++ [0; 0; 0; 0] ++ [1; 0; 0; 0].

Definition one_writer : @MessageReceiver logging :=
  @associate_writer logging (@MessageReceiver_new logging) 9.

(** The sign of the number is not checked: the writer is called. *)
Theorem negative_nack_frag_passes :
  exists frags rest, (fun r => r.1.2) <$> @process host logging own one_writer [] (message_of negative_nack_frag) =
    Some (CallNackFrag 9 (mkGUID own [0; 0; 2; 3]) (mkGUID peer [0; 0; 1; 4]) 1 (mkSN (-1) 7) frags :: rest).
Proof. eexists _, _. vm_compute. reflexivity. Qed.
