(* ===== verification/MessageCreator.v ===== *)
(** * Writing RTPS messages

    Models [Fast-DDS/src/cpp/rtps/messages/RTPSMessageCreator.cpp] and
    [submessages/HeartbeatMsg.hpp], [AckNackMsg.hpp], [GapMsg.hpp] and
    [DataMsg.hpp], with the parameters of [ParameterSerializer.hpp] that a DATA
    submessage has: the header of a message and the submessages.  The code ignores
    most results of the writers of fields. *)

From S2P Require Import Prelude FastBuffer SequenceNumber BitmapRange CdrMessage MsgReader ParameterList MessageReceiver.

Section Creator.
Context `{P : Platform}.
Implicit Types msg : CDRMessage_t.

Definition addOctet msg (o : Z) : option (bool * CDRMessage_t) := addPrimitive msg 1 o.
Definition addUInt16 msg (us : Z) : option (bool * CDRMessage_t) := addPrimitive msg 2 us.

Definition addData msg (data : list Z) : option (bool * CDRMessage_t) :=
  if hasSpace msg (zlen data) then msg ← copyToBuffer msg data; Some (true, msg) else Some (false, msg).

(** It wants one more byte than it writes. *)
Definition addEntityId msg (id : EntityId_t) : option (bool * CDRMessage_t) :=
  if u32 (pos msg + 4) >=? msg_max_size msg then Some (false, msg)
  else msg ← copyToBuffer msg id; Some (true, msg).

(** A write whose result is ignored. *)
Definition then_add (f : CDRMessage_t -> option (bool * CDRMessage_t)) msg : option CDRMessage_t := snd <$> f msg.

(** Several, one after the other. *)
Fixpoint add_each (fs : list (CDRMessage_t -> option (bool * CDRMessage_t))) msg : option CDRMessage_t :=
  match fs with
  | [] => Some msg
  | f :: fs => msg ← then_add f msg; add_each fs msg
  end.

Definition with_length msg : CDRMessage_t := mkMsg (buffer msg) (pos msg) (msg_max_size msg) (pos msg) (msg_endian msg).
Definition with_endian msg (e : Endianness_t) : CDRMessage_t :=
  mkMsg (buffer msg) (pos msg) (msg_max_size msg) (msg_length msg) e.

Definition addHeader msg (prefix : GuidPrefix_t) (version : Z * Z) (vendor : VendorId_t) : option CDRMessage_t :=
  msg ← add_each ((fun o m => addOctet m o) <$> [0x52; 0x54; 0x50; 0x53; version.1; version.2] ++ take 2 vendor) msg;
  msg ← then_add (fun m => addData m prefix) msg;
  Some (with_length msg).

(** Bytes of zero; the results are accumulated. *)
Fixpoint add_padding (n : nat) (valid : bool) msg : option (bool * CDRMessage_t) :=
  match n with
  | O => Some (valid, msg)
  | S n => '(v, msg) ← addOctet msg 0; add_padding n (valid && v) msg
  end.

(** Several fields; the results are accumulated. *)
Fixpoint add_all (fs : list (CDRMessage_t -> option (bool * CDRMessage_t))) (valid : bool) msg : option (bool * CDRMessage_t) :=
  match fs with
  | [] => Some (valid, msg)
  | f :: fs => '(v, msg) ← f msg; add_all fs (valid && v) msg
  end.

(** The flag of little-endian hosts. *)
Definition endian_flag : Z := if big_endian_target then 0 else 1.

Definition bits (b1 b2 : bool) : Z := Z.lor endian_flag (Z.lor (if b1 then 2 else 0) (if b2 then 4 else 0)).

(** The header of a submessage of a known size. *)
Definition add_sized_header msg (id fl size : Z) : option CDRMessage_t :=
  add_each [fun m => addOctet m id; fun m => addOctet m fl; fun m => addUInt16 m size] (with_endian msg RTPS_DEFAULT_ENDIAN).

Definition addSubmessageInfoTS msg (seconds fraction : Z) (invalidateFlag : bool) : option CDRMessage_t :=
  msg ← add_sized_header msg INFO_TS (bits invalidateFlag false) (if invalidateFlag then 0 else 8);
  if invalidateFlag then Some msg
  else add_each [fun m => addInt32 m seconds; fun m => addUInt32 m fraction] msg.

Definition addSubmessageInfoSRC msg (version : Z * Z) (vendor : VendorId_t) (prefix : GuidPrefix_t) : option CDRMessage_t :=
  msg ← add_sized_header msg INFO_SRC (bits false false) 20;
  msg ← then_add (fun m => addUInt32 m 0) msg;
  msg ← add_each ((fun o m => addOctet m o) <$> [version.1; version.2] ++ take 2 vendor) msg;
  then_add (fun m => addData m prefix) msg.

Definition addSubmessageInfoDST msg (prefix : GuidPrefix_t) : option CDRMessage_t :=
  msg ← add_sized_header msg INFO_DST (bits false false) 12;
  then_add (fun m => addData m prefix) msg.

(** A submessage whose size is filled in at the end; the byte order of the
    message is put back. *)
Definition add_submessage msg (id fl : Z) (body : list (CDRMessage_t -> option (bool * CDRMessage_t))) : option CDRMessage_t :=
  let old_endianess := msg_endian msg in
  msg ← add_each [fun m => addOctet m id; fun m => addOctet m fl] (with_endian msg RTPS_DEFAULT_ENDIAN);
  let submessage_size_pos := pos msg in
  msg ← then_add (fun m => addUInt16 m 0) msg;
  let position_size_count_size := pos msg in
  msg ← add_each body msg;
  let submessage_size := u16 (u32 (pos msg - position_size_count_size)) in
  buf ← mwrite (buffer msg) submessage_size_pos (order_bytes msg (host_bytes 2 submessage_size));
  Some (mkMsg buf (pos msg) (msg_max_size msg) (msg_length msg) old_endianess).

Definition addSubmessageHeartbeat msg (readerId writerId : EntityId_t) (firstSN lastSN : SequenceNumber_t) (count : Z)
    (isFinal livelinessFlag : bool) : option CDRMessage_t :=
  add_submessage msg HEARTBEAT (bits isFinal livelinessFlag)
    [fun m => addEntityId m readerId; fun m => addEntityId m writerId;
     fun m => addSequenceNumber m firstSN; fun m => addSequenceNumber m lastSN; fun m => addInt32 m (i32 count)].

Definition addSubmessageHeartbeatFrag msg (readerId writerId : EntityId_t) (firstSN : SequenceNumber_t)
    (lastFN : FragmentNumber_t) (count : Z) : option CDRMessage_t :=
  add_submessage msg HEARTBEAT_FRAG (bits false false)
    [fun m => addEntityId m readerId; fun m => addEntityId m writerId;
     fun m => addSequenceNumber m firstSN; fun m => addUInt32 m (frag lastFN); fun m => addInt32 m (i32 count)].

Definition addSubmessageAcknack msg (readerId writerId : EntityId_t) (set : SNSet) (count : Z) (finalFlag : bool)
  : option CDRMessage_t :=
  add_submessage msg ACKNACK (bits finalFlag false)
    [fun m => addEntityId m readerId; fun m => addEntityId m writerId;
     fun m => addSequenceNumberSet m set; fun m => addInt32 m count].

Definition addSubmessageNackFrag msg (readerId writerId : EntityId_t) (writerSN : SequenceNumber_t) (fnState : FragSet)
    (count : Z) : option CDRMessage_t :=
  add_submessage msg NACK_FRAG (bits false false)
    [fun m => addEntityId m readerId; fun m => addEntityId m writerId;
     fun m => addSequenceNumber m writerSN; fun m => addFragmentNumberSet m fnState; fun m => addUInt32 m count].

Definition addSubmessageGap msg (seqNumFirst : SequenceNumber_t) (seqNumList : SNSet) (readerId writerId : EntityId_t)
  : option CDRMessage_t :=
  add_submessage msg GAP (bits false false)
    [fun m => addEntityId m readerId; fun m => addEntityId m writerId;
     fun m => addSequenceNumber m seqNumFirst; fun m => addSequenceNumberSet m seqNumList].

(** ** DATA and DATA_FRAG *)

(** What a submessage takes of a change; [write_params.related_sample_identity()]
    is [sc_related].  A payload without bytes stands for one without memory too. *)
Record SentChange := mkSent {
  sc_kind : ChangeKind_t;
  sc_writer : GUID_t;
  sc_handle : list Z;
  sc_seq : SequenceNumber_t;
  sc_payload : list Z;
  sc_related : GUID_t * SequenceNumber_t;
  sc_fragment_size : Z;
  sc_fragment_count : Z
}.
Implicit Types ch : SentChange.

(** [InlineQosWriter], if there is one. *)
Definition InlineQosWriter : Type := option (CDRMessage_t -> option CDRMessage_t).

Definition is_builtin (g : GUID_t) : bool := nth 3 (entityId g) 0 >=? 0xC0.

(** [related_sample_identity() != SampleIdentity::unknown()] *)
Definition has_related ch : bool :=
  negb (bool_decide ((sc_related ch).1 = mkGUID c_GuidPrefix_Unknown c_EntityId_Unknown) && sn_eqb (sc_related ch).2 sn_unknown).

(** Whether the key of the instance goes with the inline QoS. *)
Definition sends_key ch (topicKind : TopicKind_t) (expectsInlineQos : bool) : bool :=
  bool_decide (topicKind = WITH_KEY) &&
  (negb (is_builtin (sc_writer ch)) || expectsInlineQos || bool_decide (sc_kind ch <> ALIVE)).

Definition status_bits (k : ChangeKind_t) : Z :=
  match k with ALIVE => 0 | NOT_ALIVE_DISPOSED => 1 | NOT_ALIVE_UNREGISTERED => 2 | NOT_ALIVE_DISPOSED_UNREGISTERED => 3 end.

(** The flags of data, key and inline QoS, and the status. *)
Definition prepare_submessage_flags ch (topicKind : TopicKind_t) (expectsInlineQos : bool) (inlineQos : InlineQosWriter)
  : bool * bool * bool * Z :=
  let inlineQosFlag := match inlineQos with Some _ => true | None => false end || sends_key ch topicKind expectsInlineQos || has_related ch in
  let dataFlag := bool_decide (sc_kind ch = ALIVE) && (0 <? zlen (sc_payload ch)) in
  let keyFlag := negb dataFlag && negb inlineQosFlag && bool_decide (topicKind = WITH_KEY) in
  (dataFlag, keyFlag, inlineQosFlag, status_bits (sc_kind ch)).

(** The parameters check the space for the whole of them. *)
Definition add_parameter_status msg (status : Z) : option (bool * CDRMessage_t) :=
  if u32 (pos msg + 8) >=? msg_max_size msg then Some (false, msg)
  else
    msg ← add_each [fun m => addUInt16 m PID_STATUS_INFO; fun m => addUInt16 m 4; fun m => addOctet m 0; fun m => addOctet m 0;
                    fun m => addOctet m 0; fun m => addOctet m status] msg;
    Some (true, msg).

Definition add_parameter_key msg (handle : list Z) : option (bool * CDRMessage_t) :=
  if u32 (pos msg + 20) >=? msg_max_size msg then Some (false, msg)
  else
    msg ← add_each [fun m => addUInt16 m PID_KEY_HASH; fun m => addUInt16 m 16; fun m => addData m (take 16 handle)] msg;
    Some (true, msg).

Definition add_parameter_sentinel msg : option (bool * CDRMessage_t) :=
  if u32 (pos msg + 4) >? msg_max_size msg then Some (false, msg)
  else msg ← add_each [fun m => addUInt16 m PID_SENTINEL; fun m => addUInt16 m 0] msg; Some (true, msg).

(** [add_parameter_sample_identity] and [add_parameter_custom_related_sample_identity],
    by their identifiers. *)
Definition add_parameter_identity (pid : Z) msg (id : GUID_t * SequenceNumber_t) : option (bool * CDRMessage_t) :=
  if u32 (pos msg + 28) >? msg_max_size msg then Some (false, msg)
  else
    msg ← add_each [fun m => addUInt16 m pid; fun m => addUInt16 m 24; fun m => addData m (guidPrefix id.1); fun m => addData m (entityId id.1);
                    fun m => addInt32 m (high id.2); fun m => addUInt32 m (low id.2)] msg;
    Some (true, msg).
Definition add_parameter_sample_identity := add_parameter_identity PID_RELATED_SAMPLE_IDENTITY.
Definition add_parameter_custom_related_sample_identity := add_parameter_identity PID_CUSTOM_RELATED_SAMPLE_IDENTITY.

(** [DataMsgUtils::serialize_header]: whether the fields fit, the position of the
    size and the position behind it; the results of the first three are ignored. *)
Definition serialize_header (fragment_number : Z) msg ch (readerId : EntityId_t) (fl : Z) : option (bool * Z * Z * CDRMessage_t) :=
  let is_fragment := 0 <? fragment_number in
  msg ← add_each [fun m => addOctet m (if is_fragment then DATA_FRAG else DATA); fun m => addOctet m fl] msg;
  let submessage_size_pos := pos msg in
  msg ← then_add (fun m => addUInt16 m 0) msg;
  let position_size_count_size := pos msg in
  '(ok, msg) ← add_all ([fun m => addUInt16 m 0;
      fun m => addUInt16 m (if is_fragment then RTPSMESSAGE_OCTETSTOINLINEQOS_DATAFRAGSUBMSG else RTPSMESSAGE_OCTETSTOINLINEQOS_DATASUBMSG);
      fun m => addEntityId m readerId; fun m => addEntityId m (entityId (sc_writer ch)); fun m => addSequenceNumber m (sc_seq ch)] ++
      (if is_fragment then [fun m => addUInt32 m fragment_number; fun m => addUInt16 m 1; fun m => addUInt16 m (sc_fragment_size ch);
                            fun m => addUInt32 m (zlen (sc_payload ch))] else [])) true msg;
  Some (ok, submessage_size_pos, position_size_count_size, msg).

(** The results are ignored. *)
Definition serialize_inline_qos msg ch (topicKind : TopicKind_t) (expectsInlineQos : bool) (inlineQos : InlineQosWriter) (status : Z)
  : option CDRMessage_t :=
  msg ← (if has_related ch then
           add_each [fun m => add_parameter_sample_identity m (sc_related ch);
                     fun m => add_parameter_custom_related_sample_identity m (sc_related ch)] msg
         else Some msg);
  msg ← (if sends_key ch topicKind expectsInlineQos then
           msg ← then_add (fun m => add_parameter_key m (sc_handle ch)) msg;
           if bool_decide (sc_kind ch <> ALIVE) then then_add (fun m => add_parameter_status m status) msg else Some msg
         else Some msg);
  msg ← (match inlineQos with Some write => write msg | None => Some msg end);
  then_add add_parameter_sentinel msg.

(** Filling in a size of two bytes. *)
Definition put_size msg (p size : Z) : option CDRMessage_t :=
  buf ← mwrite (buffer msg) p (order_bytes msg (host_bytes 2 size));
  Some (mkMsg buf (pos msg) (msg_max_size msg) (msg_length msg) (msg_endian msg)).

(** What an addition answers: its result, whether the submessage is too big for
    its size, the payload that is sent from where it is and its padding. *)
Record Added := mkAdded { a_ok : bool; a_big : bool; a_pending : list Z; a_padding : Z }.

(** The bytes of the payload; without a copy only their place is left, which has
    been checked. *)
Definition add_payload (copy_data : bool) msg (payload : list Z) : option (bool * CDRMessage_t) :=
  if copy_data then addData msg payload else Some (true, set_pos msg (u32 (pos msg + zlen payload))).

Definition no_place (copy_data : bool) msg (payload : list Z) : bool :=
  negb copy_data && (u32 (pos msg + zlen payload) >? msg_max_size msg).

Definition addSubmessageData msg ch (topicKind : TopicKind_t) (readerId : EntityId_t) (expectsInlineQos : bool) (inlineQos : InlineQosWriter)
    (copy_data : bool) : option (Added * CDRMessage_t) :=
  let old_endianess := msg_endian msg in
  let '(dataFlag, keyFlag, inlineQosFlag, status) := prepare_submessage_flags ch topicKind expectsInlineQos inlineQos in
  let fl := Z.lor (bits inlineQosFlag dataFlag) (if keyFlag then 8 else 0) in
  '(ok, submessage_size_pos, position_size_count_size, msg) ← serialize_header 0 (with_endian msg RTPS_DEFAULT_ENDIAN) ch readerId fl;
  msg ← (if inlineQosFlag then serialize_inline_qos msg ch topicKind expectsInlineQos inlineQos status else Some msg);
  if dataFlag && no_place copy_data msg (sc_payload ch) then Some (mkAdded false false [] 0, msg)
  else
    let pending := if dataFlag && negb copy_data then sc_payload ch else [] in
    '(v, msg) ← (if dataFlag then add_payload copy_data msg (sc_payload ch) else Some (true, msg));
    '(ok, msg) ← (if keyFlag then
                    add_all [fun m => addOctet m 0; fun m => addOctet m (if big_endian_target then PL_CDR_BE else PL_CDR_LE); fun m => addUInt16 m 0;
                             fun m => add_parameter_key m (sc_handle ch); fun m => add_parameter_status m status; add_parameter_sentinel] (ok && v) msg
                  else Some (ok && v, msg));
    let align := Z.land (4 - pos msg mod 4) 3 in
    '(ok, msg) ← (if copy_data then add_padding (Z.to_nat align) ok msg else Some (ok, set_pos msg (u32 (pos msg + align))));
    let size32 := u32 (pos msg - position_size_count_size) in
    let big := size32 >? 0xFFFF in
    msg ← (if big then Some msg else put_size msg submessage_size_pos size32);
    let msg := if copy_data then msg else set_pos msg (u32 (pos msg - align - zlen pending)) in
    Some (mkAdded ok big pending (if copy_data then 0 else align), with_endian msg old_endianess).

(** A key is not sent in fragments. *)
Definition addSubmessageDataFrag msg ch (fragment_number : Z) (payload : list Z) (topicKind : TopicKind_t) (readerId : EntityId_t)
    (expectsInlineQos : bool) (inlineQos : InlineQosWriter) (copy_data : bool) : option (Added * CDRMessage_t) :=
  let old_endianess := msg_endian msg in
  let '(_, keyFlag, inlineQosFlag, status) := prepare_submessage_flags ch topicKind expectsInlineQos inlineQos in
  '(ok, submessage_size_pos, position_size_count_size, msg) ←
    serialize_header fragment_number (with_endian msg RTPS_DEFAULT_ENDIAN) ch readerId (bits inlineQosFlag keyFlag);
  msg ← (if inlineQosFlag then serialize_inline_qos msg ch topicKind expectsInlineQos inlineQos status else Some msg);
  if keyFlag then Some (mkAdded false false [] 0, with_endian msg old_endianess)
  else if no_place copy_data msg payload then Some (mkAdded false false [] 0, msg)
  else
    let pending := if copy_data then [] else payload in
    '(v, msg) ← add_payload copy_data msg payload;
    let submessage_size := u16 (u32 (pos msg - position_size_count_size)) in
    let padding := (- submessage_size) mod 4 in
    '(ok, msg) ← (if copy_data then add_padding (Z.to_nat padding) (ok && v) msg else Some (ok && v, msg));
    let msg := if copy_data then msg else set_pos msg (u32 (pos msg - zlen pending)) in
    msg ← put_size msg submessage_size_pos (u16 (submessage_size + padding));
    Some (mkAdded ok false pending (if copy_data then 0 else padding), with_endian msg old_endianess).

(** ** Messages *)

Definition new_header msg (prefix : GuidPrefix_t) : option CDRMessage_t :=
  addHeader msg prefix c_ProtocolVersion c_VendorId_eProsima.

Definition addMessageHeartbeat msg (prefix : GuidPrefix_t) (remote : option GuidPrefix_t) (readerId writerId : EntityId_t)
    (firstSN lastSN : SequenceNumber_t) (count : Z) (isFinal livelinessFlag : bool) : option CDRMessage_t :=
  msg ← new_header msg prefix;
  msg ← (match remote with Some g => addSubmessageInfoDST msg g | None => Some msg end);
  msg ← addSubmessageHeartbeat msg readerId writerId firstSN lastSN count isFinal livelinessFlag;
  Some (with_length msg).

Definition addMessageAcknack msg (prefix remote : GuidPrefix_t) (readerId writerId : EntityId_t) (set : SNSet) (count : Z)
    (finalFlag : bool) : option CDRMessage_t :=
  msg ← new_header msg prefix;
  msg ← addSubmessageInfoDST msg remote;
  msg ← addSubmessageAcknack msg readerId writerId set count finalFlag;
  Some (with_length msg).

Definition addMessageNackFrag msg (prefix remote : GuidPrefix_t) (readerId writerId : EntityId_t) (writerSN : SequenceNumber_t)
    (fnState : FragSet) (count : Z) : option CDRMessage_t :=
  msg ← new_header msg prefix;
  msg ← addSubmessageInfoDST msg remote;
  msg ← addSubmessageNackFrag msg readerId writerId writerSN fnState count;
  Some (with_length msg).

(** [seconds] and [fraction] are the time now. *)
Definition addMessageGap msg (prefix remote : GuidPrefix_t) (seconds fraction : Z) (seqNumFirst : SequenceNumber_t)
    (seqNumList : SNSet) (readerId writerId : EntityId_t) : option CDRMessage_t :=
  msg ← new_header msg prefix;
  msg ← addSubmessageInfoDST msg remote;
  msg ← addSubmessageInfoTS msg seconds fraction false;
  addSubmessageGap msg seqNumFirst seqNumList readerId writerId.

Definition addMessageData msg (prefix : GuidPrefix_t) (seconds fraction : Z) ch (topicKind : TopicKind_t) (readerId : EntityId_t)
    (expectsInlineQos : bool) (inlineQos : InlineQosWriter) : option CDRMessage_t :=
  msg ← new_header msg prefix;
  msg ← addSubmessageInfoTS msg seconds fraction false;
  '(_, msg) ← addSubmessageData msg ch topicKind readerId expectsInlineQos inlineQos true;
  Some (with_length msg).

(** The piece of the payload that is a fragment. *)
Definition fragment_of ch (fragment_number : Z) : option (list Z) :=
  let fragment_start := u32 (sc_fragment_size ch * u32 (fragment_number - 1)) in
  let fragment_size := if fragment_number <? sc_fragment_count ch then sc_fragment_size ch else u32 (zlen (sc_payload ch) - fragment_start) in
  mread (sc_payload ch) fragment_start fragment_size.

Definition addMessageDataFrag msg (prefix : GuidPrefix_t) (seconds fraction : Z) ch (fragment_number : Z) (topicKind : TopicKind_t)
    (readerId : EntityId_t) (expectsInlineQos : bool) (inlineQos : InlineQosWriter) : option CDRMessage_t :=
  msg ← new_header msg prefix;
  msg ← addSubmessageInfoTS msg seconds fraction false;
  payload ← fragment_of ch fragment_number;
  '(_, msg) ← addSubmessageDataFrag msg ch fragment_number payload topicKind readerId expectsInlineQos inlineQos true;
  Some (with_length msg).

End Creator.
