(* ===== verification/MessageWire.v ===== *)
(** * What is on the wire

    The bytes that the writers of [MessageCreator.v] produce, and what the readers
    of [MsgReader.v] and [MessageReceiver.v] make of them: [writes f bs] says that
    a field is written as [bs], [consumes r bs Q] that reading [bs] gives a value
    with [Q]. *)

From stdpp Require Import gmap.
From S2P Require Import Prelude FastBuffer SequenceNumber BitmapRange CdrMessage MsgReader ParameterList.
From S2P Require Import MessageReceiver MessageCreator.

Section Wire.
Context `{P : Platform}.
Implicit Types msg m : CDRMessage_t.

(** ** Writing *)

(** A message being filled, in the byte order of the host. *)
Definition filling m : Prop := msg_ok m /\ pos m = msg_length m /\ msg_endian m = RTPS_DEFAULT_ENDIAN.

Definition writes (f : CDRMessage_t -> option (bool * CDRMessage_t)) (bs : list Z) : Prop :=
  forall m, filling m -> pos m + zlen bs < msg_max_size m ->
    exists m', f m = Some (true, m') /\ filling m' /\ emits m bs m'.

Lemma filling_emits m bs m' : filling m -> msg_ok m' -> emits m bs m' -> filling m'.
Proof. intros (_ & Hl & He) Hok (P1 & _ & _ & E1 & _ & _ & N1). split; [done|]. split; [lia|congruence]. Qed.

Lemma filling_bytes m n v : filling m -> value_bytes m n v = host_bytes n v.
Proof. intros (_ & _ & He). unfold value_bytes, order_bytes. rewrite He. by rewrite bool_decide_eq_true_2. Qed.

Lemma writes_primitive n v : (n <= 8)%nat -> writes (fun m => addPrimitive m n v) (host_bytes n v).
Proof.
  intros Hn m Hf Hfit. pose proof Hf as (Hok & Hl & He). unfold zlen in Hfit. rewrite length_host_bytes in Hfit.
  destruct (addPrimitive_spec m n v Hok Hn) as (m' & E & Hok' & Hem); [lia|lia|]. rewrite filling_bytes in Hem by done.
  exists m'. split; [done|]. split; [by eapply filling_emits|done].
Qed.

Lemma copyToBuffer_spec m bs : msg_ok m -> pos m + zlen bs <= msg_max_size m -> msg_length m + zlen bs <= msg_max_size m ->
  exists m', copyToBuffer m bs = Some m' /\ msg_ok m' /\ emits m bs m'.
Proof.
  intros [Hp Hl Hm Hs] Hf Hf2. pose proof (zlen_nonneg bs). unfold copyToBuffer.
  destruct (mwrite_ok (buffer m) (pos m) bs) as (b' & -> & El & Ha & _ & Hr); [lia|lia|]. simpl. rewrite !u32_small by lia.
  eexists. split; [done|]. split; [split; simpl; lia|]. repeat split; simpl; try done; try lia. apply mread_holds; [lia|done].
Qed.

Lemma writes_data bs : writes (fun m => addData m bs) bs.
Proof.
  intros m Hf Hfit. pose proof Hf as ([Hp Hl0 Hm Hs] & Hl & He). pose proof (zlen_nonneg bs). unfold addData, hasSpace.
  rewrite u32_small, (proj2 (Z.leb_le _ _)) by lia.
  destruct (copyToBuffer_spec m bs) as (m' & -> & Hok' & Hem); [by apply Hf|lia|lia|].
  exists m'. split; [done|]. split; [by eapply filling_emits|done].
Qed.

Lemma writes_entity id : zlen id = 4 -> writes (fun m => addEntityId m id) id.
Proof.
  intros Hid m Hf Hfit. pose proof Hf as ([Hp Hl0 Hm Hs] & Hl & He). unfold addEntityId.
  rewrite u32_small, Z.geb_leb, (proj2 (Z.leb_gt _ _)) by lia.
  destruct (copyToBuffer_spec m id) as (m' & -> & Hok' & Hem); [by apply Hf|lia|lia|].
  exists m'. split; [done|]. split; [by eapply filling_emits|done].
Qed.

Definition sn_wire (sn : SequenceNumber_t) : list Z := host_bytes 4 (high sn) ++ host_bytes 4 (low sn).
Definition words_wire (ws : list Z) : list Z := concat (host_bytes 4 <$> ws).
Definition set_wire (r : SNSet) : list Z := sn_wire (base_ r) ++ host_bytes 4 (num_bits_ r) ++ words_wire (set_words r).

Lemma sn_bytes_wire m sn : filling m -> sn_bytes m sn = sn_wire sn.
Proof. intros Hf. unfold sn_bytes. by rewrite !filling_bytes. Qed.

Lemma set_bytes_wire m r : filling m -> set_bytes m r = set_wire r.
Proof.
  intros Hf. unfold set_bytes, set_wire, words_bytes, words_wire. rewrite sn_bytes_wire, !filling_bytes by done. do 3 f_equal.
  apply list_fmap_ext. intros. by apply filling_bytes.
Qed.

Lemma zlen_host n v : zlen (host_bytes n v) = Z.of_nat n.
Proof. unfold zlen. by rewrite length_host_bytes. Qed.

Lemma zlen_sn_wire sn : zlen (sn_wire sn) = 8.
Proof. unfold sn_wire. by rewrite zlen_app, !zlen_host. Qed.

Lemma zlen_words_wire ws : zlen (words_wire ws) = 4 * zlen ws.
Proof.
  induction ws as [|w ws IH]; [done|]. unfold words_wire in *. rewrite fmap_cons. cbn [concat]. rewrite zlen_app, zlen_host, IH.
  unfold zlen. simpl length. lia.
Qed.

Lemma zlen_set_wire r : range_wf r -> zlen (set_wire r) = 12 + 4 * n_longs r.
Proof.
  intros W. destruct (zlen_set_words r W) as (Hl & _). unfold set_wire.
  rewrite !zlen_app, zlen_sn_wire, zlen_host, zlen_words_wire. lia.
Qed.

Lemma writes_sn sn : writes (fun m => addSequenceNumber m sn) (sn_wire sn).
Proof.
  intros m Hf Hfit. pose proof Hf as (Hok & Hl & He). rewrite zlen_sn_wire in Hfit.
  destruct (addSequenceNumber_spec m sn Hok) as (m' & E & Hok' & Hem); [lia|lia|]. rewrite sn_bytes_wire in Hem by done.
  exists m'. split; [done|]. split; [by eapply filling_emits|done].
Qed.

Lemma writes_set r : range_wf r -> writes (fun m => addSequenceNumberSet m r) (set_wire r).
Proof.
  intros W m Hf Hfit. pose proof Hf as (Hok & Hl & He). rewrite zlen_set_wire in Hfit by done.
  destruct (addSequenceNumberSet_spec m r Hok W) as (m' & E & Hok' & Hem); [lia|lia|]. rewrite set_bytes_wire in Hem by done.
  exists m'. split; [done|]. split; [by eapply filling_emits|done].
Qed.

Lemma emits_nil m : msg_ok m -> emits m [] m.
Proof.
  intros [Hp _ _ _]. split; [change (zlen []) with 0; lia|]. do 3 (split; [done|]).
  split; [apply agree_refl|]. split; [|change (zlen []) with 0; lia]. split; [lia|]. intros i c Hc. by rewrite lookup_nil in Hc.
Qed.

Lemma writes_each fs bss : Forall2 writes fs bss -> forall m, filling m -> pos m + zlen (concat bss) < msg_max_size m ->
  exists m', add_each fs m = Some m' /\ filling m' /\ emits m (concat bss) m'.
Proof.
  induction 1 as [|f bs fs bss Hw _ IH]; intros m Hf Hfit.
  { exists m. split; [done|]. split; [done|]. by apply emits_nil, Hf. }
  cbn [concat] in *. rewrite zlen_app in Hfit. pose proof (zlen_nonneg (concat bss)).
  destruct (Hw m Hf) as (m1 & E1 & Hf1 & Hem1); [lia|]. pose proof Hem1 as (P1 & _ & X1 & _).
  destruct (IH m1 Hf1) as (m2 & E2 & Hf2 & Hem2); [lia|]. exists m2. cbn [add_each]. unfold then_add at 1. rewrite E1. simpl.
  split; [done|]. split; [done|]. by eapply emits_trans.
Qed.

(** One write and then others. *)
Lemma writes_then f a m n : writes f a -> filling m -> 0 <= n -> pos m + zlen a + n < msg_max_size m ->
  exists m1, f m = Some (true, m1) /\ filling m1 /\ emits m a m1 /\ pos m1 + n < msg_max_size m1.
Proof.
  intros Hw Hf Hn Hl. destruct (Hw m Hf) as (m1 & E & Hf1 & He); [lia|]. exists m1. split; [done|]. split; [done|]. split; [done|].
  destruct He as (Ep & _ & Em & _). lia.
Qed.

Lemma padding_written n : forall m, filling m -> pos m + Z.of_nat n < msg_max_size m ->
  exists m', add_padding n true m = Some (true, m') /\ filling m' /\ emits m (repeat 0 n) m'.
Proof.
  induction n as [|n IH]; intros m Hf Hl.
  { exists m. split; [done|]. split; [done|]. apply emits_nil, Hf. }
  assert (E1 : host_bytes 1 0 = [0]) by (unfold host_bytes; by destruct big_endian_target).
  destruct (writes_then _ _ m (Z.of_nat n) (writes_primitive 1 0 ltac:(lia)) Hf) as (m1 & E & Hf1 & He & Hl1); [lia|rewrite E1; change (zlen [0]) with 1; lia|].
  destruct (IH m1 Hf1 Hl1) as (m2 & E2 & Hf2 & He2). exists m2. cbn [add_padding]. unfold addOctet. rewrite E. cbn [mbind option_bind andb].
  split; [done|]. split; [done|]. rewrite E1 in He. exact (emits_trans _ _ _ _ _ He He2).
Qed.

Lemma filling_default m : filling m -> with_endian m RTPS_DEFAULT_ENDIAN = m.
Proof. intros (_ & _ & He). destruct m. simpl in *. by subst. Qed.

(** ** Submessages *)

(** The bytes of a submessage. *)
Definition submessage_wire (id fl : Z) (body : list Z) : list Z := host_bytes 1 id ++ host_bytes 1 fl ++ host_bytes 2 (zlen body) ++ body.

Lemma zlen_submessage_wire id fl body : zlen (submessage_wire id fl body) = 4 + zlen body.
Proof. unfold submessage_wire. rewrite !zlen_app, !zlen_host. lia. Qed.

(** Filling in the size. *)
Lemma patch_holds (b : list Z) p hd sz body b' : holds b p (hd ++ sz ++ body) -> forall sz', zlen sz' = zlen sz -> p + zlen hd + zlen sz' <= zlen b ->
  mwrite b (p + zlen hd) sz' = Some b' -> holds b' p (hd ++ sz' ++ body) /\ zlen b' = zlen b /\ agree 0 p b b'.
Proof.
  intros Hh sz' Hsz Hfit E. pose proof Hh as [Hp _]. pose proof (zlen_nonneg hd).
  apply holds_app_inv in Hh as [H1 Hh]. apply holds_app_inv in Hh as [H2 H3].
  destruct (mwrite_ok b (p + zlen hd) sz') as (b0 & E0 & El & A1 & A2 & R); [lia|lia|]. rewrite E in E0. injection E0 as <-.
  split; [|split; [done|eapply agree_weaken; [exact A1|lia|lia]]]. apply holds_app; [by eapply holds_agree; [exact H1|exact A1|lia]|].
  apply holds_app; [by apply mread_holds; [lia|]|]. destruct H3 as [H30 H3]. split; [lia|]. intros i c Hi. pose proof (H3 i c Hi) as Hb.
  specialize (A2 (p + zlen hd + zlen sz' + Z.of_nat i)). rewrite <- Hsz in Hb.
  replace (Z.to_nat (p + zlen hd + zlen sz' + Z.of_nat i)) with (Z.to_nat (p + zlen hd + zlen sz') + i)%nat in A2 by (pose proof (zlen_nonneg sz'); lia).
  rewrite <- A2; [done|]. apply lookup_lt_Some in Hb. pose proof (zlen_nonneg sz'). unfold zlen in *. lia.
Qed.

Lemma add_submessage_spec m id fl fs bss : filling m -> Forall2 writes fs bss ->
  pos m + 4 + zlen (concat bss) < msg_max_size m -> zlen (concat bss) < 2 ^ 16 ->
  exists m', add_submessage m id fl fs = Some m' /\ filling m' /\ emits m (submessage_wire id fl (concat bss)) m'.
Proof.
  intros Hf Hfs Hfit Hsz. set (body := concat bss) in *. pose proof (zlen_nonneg body). unfold add_submessage. rewrite filling_default by done.
  destruct (writes_each [fun m => addOctet m id; fun m => addOctet m fl] [host_bytes 1 id; host_bytes 1 fl])
    with (m := m) as (m1 & E1 & Hf1 & Hem1); [|done| |].
  { constructor; [by apply (writes_primitive 1); lia|]. constructor; [by apply (writes_primitive 1); lia|]. constructor. }
  { simpl. rewrite !zlen_app, !zlen_host. change (zlen []) with 0. lia. }
  rewrite E1. simpl. pose proof Hem1 as (P1 & L1 & X1 & _). simpl in P1. rewrite !zlen_app, !zlen_host in P1. change (zlen []) with 0 in P1.
  destruct (writes_primitive 2 0 ltac:(lia) m1 Hf1) as (m2 & E2 & Hf2 & Hem2); [rewrite zlen_host; lia|].
  unfold then_add, addUInt16. rewrite E2. simpl. pose proof Hem2 as (P2 & L2 & X2 & _). rewrite zlen_host in P2.
  destruct (writes_each fs bss Hfs m2 Hf2) as (m3 & E3 & Hf3 & Hem3); [fold body; lia|]. rewrite E3. simpl. fold body in Hem3.
  pose proof Hem3 as (P3 & L3 & X3 & _). replace (pos m3 - pos m2) with (zlen body) by lia.
  pose proof Hf3 as ([Hp3 Hl3 Hb3 Hs3] & Hq3 & He3). rewrite u32_small by lia. unfold u16. rewrite Z.mod_small by lia.
  unfold order_bytes. rewrite He3, bool_decide_eq_true_2 by done.
  pose proof (emits_trans _ _ _ _ _ (emits_trans _ _ _ _ _ Hem1 Hem2) Hem3) as (Pp & Ln & X & Ee & A & Hh & Nn).
  simpl in Hh. rewrite app_nil_r in Hh. rewrite <- !app_assoc in Hh. rewrite app_assoc in Hh.
  destruct (mwrite_ok (buffer m3) (pos m1) (host_bytes 2 (zlen body))) as (b & E4 & _); [destruct Hf1 as [[] _]; lia|rewrite zlen_host; lia|].
  rewrite E4. simpl. eexists. split; [done|].
  assert (Epm : pos m1 = pos m + zlen (host_bytes 1 id ++ host_bytes 1 fl)) by (rewrite zlen_app, !zlen_host; lia).
  rewrite Epm in E4. destruct (patch_holds _ _ _ _ _ b Hh (host_bytes 2 (zlen body))) as (Hh' & El' & A'); [by rewrite !zlen_host| |exact E4|].
  { rewrite zlen_app, !zlen_host. lia. }
  destruct Hf as (Hok & Hl & He). split; [split; [split; simpl; lia|split; [done|by rewrite He]]|].
  split; [rewrite zlen_submessage_wire; simpl; lia|]. simpl. split; [lia|]. split; [lia|]. split; [done|]. split; [by eapply agree_trans|].
  split; [unfold submessage_wire; by rewrite <- app_assoc in Hh'|]. rewrite zlen_submessage_wire. lia.
Qed.

(** Submessages whose size is known. *)
Lemma sized_header_spec m id fl size : filling m -> pos m + 4 < msg_max_size m ->
  exists m', add_sized_header m id fl size = Some m' /\ filling m' /\ emits m (host_bytes 1 id ++ host_bytes 1 fl ++ host_bytes 2 size) m'.
Proof.
  intros Hf Hfit. unfold add_sized_header. rewrite filling_default by done.
  destruct (writes_each [fun m => addOctet m id; fun m => addOctet m fl; fun m => addUInt16 m size] [host_bytes 1 id; host_bytes 1 fl; host_bytes 2 size])
    with (m := m) as (m1 & E1 & Hf1 & Hem1); [|done| |].
  { constructor; [by apply (writes_primitive 1); lia|]. constructor; [by apply (writes_primitive 1); lia|].
    constructor; [by apply (writes_primitive 2); lia|]. constructor. }
  { simpl. rewrite !zlen_app, !zlen_host. change (zlen []) with 0. lia. }
  exists m1. simpl in Hem1. rewrite app_nil_r in Hem1. done.
Qed.

Lemma then_add_spec f bs m : writes f bs -> filling m -> pos m + zlen bs < msg_max_size m ->
  exists m', then_add f m = Some m' /\ filling m' /\ emits m bs m'.
Proof. intros Hw Hf Hfit. destruct (Hw m Hf Hfit) as (m' & E & Hf' & Hem). exists m'. unfold then_add. by rewrite E. Qed.

Lemma info_dst_spec m prefix : filling m -> zlen prefix = 12 -> pos m + 16 < msg_max_size m ->
  exists m', addSubmessageInfoDST m prefix = Some m' /\ filling m' /\ emits m (submessage_wire INFO_DST (bits false false) prefix) m'.
Proof.
  intros Hf Hp Hfit. unfold addSubmessageInfoDST.
  destruct (sized_header_spec m INFO_DST (bits false false) 12 Hf) as (m1 & E1 & Hf1 & Hem1); [lia|]. rewrite E1. simpl.
  pose proof Hem1 as (P1 & _ & X1 & _). rewrite !zlen_app, !zlen_host in P1.
  destruct (then_add_spec _ _ m1 (writes_data prefix) Hf1) as (m2 & E2 & Hf2 & Hem2); [lia|]. exists m2. split; [done|]. split; [done|].
  pose proof (emits_trans _ _ _ _ _ Hem1 Hem2) as H. unfold submessage_wire. rewrite Hp. by rewrite <- !app_assoc in H.
Qed.

Lemma info_ts_spec m s f : filling m -> pos m + 12 < msg_max_size m ->
  exists m', addSubmessageInfoTS m s f false = Some m' /\ filling m' /\
    emits m (submessage_wire INFO_TS (bits false false) (host_bytes 4 s ++ host_bytes 4 f)) m'.
Proof.
  intros Hf Hfit. unfold addSubmessageInfoTS.
  destruct (sized_header_spec m INFO_TS (bits false false) 8 Hf) as (m1 & E1 & Hf1 & Hem1); [lia|]. rewrite E1. cbn [mbind option_bind].
  pose proof Hem1 as (P1 & _ & X1 & _). rewrite !zlen_app, !zlen_host in P1.
  destruct (writes_each [fun m => addInt32 m s; fun m => addUInt32 m f] [host_bytes 4 s; host_bytes 4 f]) with (m := m1)
    as (m2 & E2 & Hf2 & Hem2); [|done| |].
  { constructor; [by apply (writes_primitive 4); lia|]. constructor; [by apply (writes_primitive 4); lia|]. constructor. }
  { simpl. rewrite !zlen_app, !zlen_host. change (zlen []) with 0. lia. }
  exists m2. split; [done|]. split; [done|]. pose proof (emits_trans _ _ _ _ _ Hem1 Hem2) as H. simpl in H. rewrite app_nil_r in H.
  unfold submessage_wire. rewrite zlen_app, !zlen_host. by rewrite <- !app_assoc in H.
Qed.

(** ** DATA submessages *)

(** A parameter, and the end of a list of them. *)
Definition param_wire (p : Z * list Z) : list Z := host_bytes 2 p.1 ++ host_bytes 2 (zlen p.2) ++ p.2.
Definition sentinel_wire : list Z := host_bytes 2 PID_SENTINEL ++ host_bytes 2 0.
Definition params_wire (ps : list (Z * list Z)) : list Z := concat (param_wire <$> ps) ++ sentinel_wire.

Definition identity_wire (id : GUID_t * SequenceNumber_t) : list Z := guidPrefix id.1 ++ entityId id.1 ++ sn_wire id.2.

(** The parameters of a change, without those of an [InlineQosWriter]. *)
Definition qos_params (ch : SentChange) (topicKind : TopicKind_t) (expects : bool) : list (Z * list Z) :=
  (if has_related ch then [(PID_RELATED_SAMPLE_IDENTITY, identity_wire (sc_related ch)); (PID_CUSTOM_RELATED_SAMPLE_IDENTITY, identity_wire (sc_related ch))]
   else []) ++
  (if sends_key ch topicKind expects then
     (PID_KEY_HASH, sc_handle ch) :: (if bool_decide (sc_kind ch <> ALIVE) then [(PID_STATUS_INFO, [0; 0; 0; status_bits (sc_kind ch)])] else [])
   else []).

Lemma zlen_param_wire p : zlen (param_wire p) = 4 + zlen p.2.
Proof. unfold param_wire. rewrite !zlen_app, !zlen_host. lia. Qed.

(** The sizes of the identifiers in a change. *)
Record change_sized (ch : SentChange) : Prop := mkSized {
  cs_writer : zlen (entityId (sc_writer ch)) = 4;
  cs_handle : zlen (sc_handle ch) = 16;
  cs_prefix : zlen (guidPrefix (sc_related ch).1) = 12;
  cs_entity : zlen (entityId (sc_related ch).1) = 4
}.

Lemma zlen_identity_wire ch : change_sized ch -> zlen (identity_wire (sc_related ch)) = 24.
Proof. intros [_ _ Hp He]. unfold identity_wire. rewrite !zlen_app, zlen_sn_wire. lia. Qed.

(** Fields behind a check for the whole of them. *)
Lemma writes_block (full : CDRMessage_t -> bool) fs bss : Forall2 writes fs bss ->
  (forall m, filling m -> pos m + zlen (concat bss) < msg_max_size m -> full m = false) ->
  writes (fun m => if full m then Some (false, m) else msg ← add_each fs m; Some (true, msg)) (concat bss).
Proof.
  intros Hfs Hc m Hm Hfit. rewrite Hc by done. destruct (writes_each fs bss Hfs m Hm Hfit) as (m' & -> & Hf' & Hem). by exists m'.
Qed.

Lemma writes_octet v : writes (fun m => addOctet m v) (host_bytes 1 v).
Proof. apply (writes_primitive 1). lia. Qed.
Lemma writes_u16 v : writes (fun m => addUInt16 m v) (host_bytes 2 v).
Proof. apply (writes_primitive 2). lia. Qed.
Lemma writes_u32 v : writes (fun m => addUInt32 m v) (host_bytes 4 v).
Proof. apply (writes_primitive 4). lia. Qed.
Lemma writes_i32 v : writes (fun m => addInt32 m v) (host_bytes 4 v).
Proof. apply (writes_primitive 4). lia. Qed.

Lemma host_octet b : 0 <= b < 256 -> host_bytes 1 b = [b].
Proof. intros Hb. unfold host_bytes. destruct big_endian_target; cbn [le_bytes rev app]; by rewrite Z.mod_small. Qed.

(** The space that a block checks for. *)
Ltac has_space :=
  let m := fresh "m" in let Hp := fresh in let Hs := fresh in let Hfit := fresh in
  intros m [[Hp _ _ Hs] _] Hfit; cbn [concat] in Hfit; rewrite ?zlen_app, ?zlen_host in Hfit; change (zlen []) with 0 in Hfit;
  rewrite u32_small by lia; first [rewrite Z.geb_leb; apply Z.leb_gt; lia|rewrite Z.gtb_ltb; apply Z.ltb_ge; lia].

Ltac each_field := repeat apply Forall2_cons_2; [..|apply Forall2_nil_2];
  first [apply writes_u16|apply writes_octet|apply writes_u32|apply writes_i32|apply writes_data].

Lemma writes_status s : 0 <= s < 256 -> writes (fun m => add_parameter_status m s) (param_wire (PID_STATUS_INFO, [0; 0; 0; s])).
Proof.
  intros Hs. replace (param_wire _) with (concat [host_bytes 2 PID_STATUS_INFO; host_bytes 2 4; host_bytes 1 0; host_bytes 1 0; host_bytes 1 0; host_bytes 1 s]).
  - apply (writes_block (fun m => u32 (pos m + 8) >=? msg_max_size m)); [each_field|has_space].
  - cbn [concat]. by rewrite !host_octet by lia.
Qed.

Lemma writes_key h : zlen h = 16 -> writes (fun m => add_parameter_key m h) (param_wire (PID_KEY_HASH, h)).
Proof.
  intros Hh. unfold add_parameter_key. rewrite take_ge by (unfold zlen in Hh; lia).
  replace (param_wire _) with (concat [host_bytes 2 PID_KEY_HASH; host_bytes 2 16; h]) by (unfold param_wire; cbn [concat fst snd]; by rewrite Hh, app_nil_r).
  apply (writes_block (fun m => u32 (pos m + 20) >=? msg_max_size m)); [each_field|has_space].
Qed.

Lemma writes_sentinel : writes add_parameter_sentinel sentinel_wire.
Proof.
  replace sentinel_wire with (concat [host_bytes 2 PID_SENTINEL; host_bytes 2 0]) by (cbn [concat]; by rewrite app_nil_r).
  apply (writes_block (fun m => u32 (pos m + 4) >? msg_max_size m)); [each_field|has_space].
Qed.

Lemma writes_identity pid id : zlen (guidPrefix id.1) = 12 -> zlen (entityId id.1) = 4 ->
  writes (fun m => add_parameter_identity pid m id) (param_wire (pid, identity_wire id)).
Proof.
  intros Hp He. replace (param_wire _) with
    (concat [host_bytes 2 pid; host_bytes 2 24; guidPrefix id.1; entityId id.1; host_bytes 4 (high id.2); host_bytes 4 (low id.2)]).
  - apply (writes_block (fun m => u32 (pos m + 28) >? msg_max_size m)); [each_field|has_space].
  - unfold param_wire, identity_wire, sn_wire. cbn [concat fst snd]. rewrite !zlen_app, !zlen_host, Hp, He, app_nil_r. done.
Qed.

(** Fields whose results are accumulated. *)
Lemma writes_all fs bss : Forall2 writes fs bss -> forall m, filling m -> pos m + zlen (concat bss) < msg_max_size m ->
  exists m', add_all fs true m = Some (true, m') /\ filling m' /\ emits m (concat bss) m'.
Proof.
  induction 1 as [|f bs fs bss Hw _ IH]; intros m Hf Hfit.
  { exists m. split; [done|]. split; [done|]. by apply emits_nil, Hf. }
  cbn [concat] in *. rewrite zlen_app in Hfit. destruct (writes_then f bs m (zlen (concat bss)) Hw Hf) as (m1 & E1 & Hf1 & Hem1 & Hl1);
    [apply zlen_nonneg|lia|].
  destruct (IH m1 Hf1 Hl1) as (m2 & E2 & Hf2 & Hem2). exists m2. cbn [add_all]. rewrite E1. cbn [mbind option_bind andb].
  split; [done|]. split; [done|]. by eapply emits_trans.
Qed.

Lemma add_each_app fs gs m : add_each (fs ++ gs) m = m ← add_each fs m; add_each gs m.
Proof. revert m. induction fs as [|f fs IH]; intros m; [done|]. cbn [app add_each]. destruct (then_add f m); [apply IH|done]. Qed.

Lemma add_each_one f m : add_each [f] m = then_add f m.
Proof. cbn [add_each]. by destruct (then_add f m). Qed.

Definition qos_fields (ch : SentChange) (topicKind : TopicKind_t) (expects : bool) : list (CDRMessage_t -> option (bool * CDRMessage_t)) :=
  (if has_related ch then [fun m => add_parameter_sample_identity m (sc_related ch); fun m => add_parameter_custom_related_sample_identity m (sc_related ch)]
   else []) ++
  (if sends_key ch topicKind expects then
     (fun m => add_parameter_key m (sc_handle ch)) ::
       (if bool_decide (sc_kind ch <> ALIVE) then [fun m => add_parameter_status m (status_bits (sc_kind ch))] else [])
   else []).

Lemma qos_fields_written ch topicKind expects : change_sized ch ->
  Forall2 writes (qos_fields ch topicKind expects) (param_wire <$> qos_params ch topicKind expects).
Proof.
  intros [Hw Hh Hp He]. unfold qos_fields, qos_params. rewrite fmap_app. apply Forall2_app.
  - destruct (has_related ch); [|constructor]. cbn [fmap list_fmap]. repeat constructor; by apply writes_identity.
  - destruct (sends_key ch topicKind expects); [|constructor]. cbn [fmap list_fmap]. constructor; [by apply writes_key|].
    destruct (bool_decide (sc_kind ch <> ALIVE)); [|constructor]. cbn [fmap list_fmap]. repeat constructor. apply writes_status. by destruct (sc_kind ch).
Qed.

Lemma inline_qos_written ch topicKind expects m : change_sized ch -> filling m ->
  pos m + zlen (params_wire (qos_params ch topicKind expects)) < msg_max_size m ->
  exists m', serialize_inline_qos m ch topicKind expects None (status_bits (sc_kind ch)) = Some m' /\ filling m' /\
    emits m (params_wire (qos_params ch topicKind expects)) m'.
Proof.
  intros Hc Hf Hfit.
  assert (E : serialize_inline_qos m ch topicKind expects None (status_bits (sc_kind ch)) = add_each (qos_fields ch topicKind expects ++ [add_parameter_sentinel]) m).
  { assert (Ek : forall m, (if sends_key ch topicKind expects then
         msg ← then_add (fun m => add_parameter_key m (sc_handle ch)) m;
         if bool_decide (sc_kind ch <> ALIVE) then then_add (fun m => add_parameter_status m (status_bits (sc_kind ch))) msg else Some msg
       else Some m) = add_each (if sends_key ch topicKind expects then (fun m => add_parameter_key m (sc_handle ch)) ::
         (if bool_decide (sc_kind ch <> ALIVE) then [fun m => add_parameter_status m (status_bits (sc_kind ch))] else []) else []) m).
    { intros m1. destruct (sends_key ch topicKind expects); [|done]. cbn [add_each]. destruct (then_add _ m1) as [m2|]; [|done].
      cbn [mbind option_bind]. destruct (bool_decide _); [by rewrite add_each_one|done]. }
    unfold serialize_inline_qos, qos_fields. rewrite !add_each_app. destruct (has_related ch); cbn [mbind option_bind].
    - destruct (add_each _ m) as [m1|]; [|done]. cbn [mbind option_bind]. rewrite Ek. destruct (add_each _ m1) as [m2|]; [|done].
      cbn [mbind option_bind]. by rewrite add_each_one.
    - cbn [add_each mbind option_bind]. rewrite Ek. destruct (add_each _ m) as [m2|]; [|done]. cbn [mbind option_bind]. by destruct (then_add _ m2). }
  rewrite E. assert (Ew : params_wire (qos_params ch topicKind expects) = concat ((param_wire <$> qos_params ch topicKind expects) ++ [sentinel_wire])).
  { unfold params_wire. rewrite concat_app. cbn [concat]. by rewrite app_nil_r. }
  rewrite Ew in *. apply writes_each; [|done|done]. apply Forall2_app; [by apply qos_fields_written|]. repeat constructor. apply writes_sentinel.
Qed.

(** What comes before the inline QoS, after the size. *)
Definition field_wires (fragment_number : Z) (ch : SentChange) (rid : EntityId_t) : list (list Z) :=
  [host_bytes 2 0; host_bytes 2 (if 0 <? fragment_number then RTPSMESSAGE_OCTETSTOINLINEQOS_DATAFRAGSUBMSG else RTPSMESSAGE_OCTETSTOINLINEQOS_DATASUBMSG);
   rid; entityId (sc_writer ch); sn_wire (sc_seq ch)] ++
  (if 0 <? fragment_number
   then [host_bytes 4 fragment_number; host_bytes 2 1; host_bytes 2 (sc_fragment_size ch); host_bytes 4 (zlen (sc_payload ch))] else []).
Definition data_fields (fragment_number : Z) (ch : SentChange) (rid : EntityId_t) : list Z := concat (field_wires fragment_number ch rid).

Lemma header_written n m ch rid fl : filling m -> change_sized ch -> zlen rid = 4 -> pos m + 4 + zlen (data_fields n ch rid) < msg_max_size m ->
  exists m', serialize_header n m ch rid fl = Some (true, pos m + 2, pos m + 4, m') /\ filling m' /\
    emits m ((host_bytes 1 (if 0 <? n then DATA_FRAG else DATA) ++ host_bytes 1 fl) ++ host_bytes 2 0 ++ data_fields n ch rid) m'.
Proof.
  intros Hf [Hw _ _ _] Hr Hfit. pose proof (zlen_nonneg (data_fields n ch rid)). unfold serialize_header. set (id := if 0 <? n then DATA_FRAG else DATA).
  destruct (writes_each [fun m => addOctet m id; fun m => addOctet m fl] [host_bytes 1 id; host_bytes 1 fl]) with (m := m) as (m1 & E1 & Hf1 & Hem1);
    [repeat constructor; apply writes_octet|done|cbn [concat]; rewrite !zlen_app, !zlen_host; change (zlen []) with 0; lia|].
  rewrite E1. cbn [mbind option_bind]. cbn [concat] in Hem1. rewrite app_nil_r in Hem1. pose proof Hem1 as (P1 & _ & X1 & _). rewrite zlen_app, !zlen_host in P1.
  destruct (then_add_spec _ _ m1 (writes_u16 0) Hf1) as (m2 & E2 & Hf2 & Hem2); [rewrite zlen_host; lia|]. rewrite E2. cbn [mbind option_bind].
  pose proof Hem2 as (P2 & _ & X2 & _). rewrite zlen_host in P2. set (fs := _ ++ _).
  destruct (writes_all fs (field_wires n ch rid)) with (m := m2) as (m3 & E3 & Hf3 & Hem3); [|done|fold (data_fields n ch rid); lia|].
  { unfold fs, field_wires. apply Forall2_app; [|destruct (0 <? n); [|constructor]];
      repeat apply Forall2_cons_2; try apply Forall2_nil_2; first [apply writes_u16|apply writes_u32|by apply writes_entity|apply writes_sn]. }
  rewrite E3. cbn [mbind option_bind]. exists m3. split; [repeat f_equal; lia|]. split; [done|].
  exact (emits_trans _ _ _ _ _ Hem1 (emits_trans _ _ _ _ _ Hem2 Hem3)).
Qed.

(** The size, filled in behind [hd]. *)
Lemma size_written m m1 hd sz body size : filling m -> filling m1 -> zlen sz = 2 -> emits m (hd ++ sz ++ body) m1 ->
  exists m2, put_size m1 (pos m + zlen hd) size = Some m2 /\ filling m2 /\ emits m (hd ++ host_bytes 2 size ++ body) m2 /\ pos m2 = pos m1.
Proof.
  intros Hf (Hok1 & Hl1 & He1) Hsz (P1 & L1 & X1 & E1 & A1 & Hh & N1). pose proof (zlen_nonneg hd). pose proof (zlen_nonneg body). rewrite !zlen_app in P1.
  unfold put_size, order_bytes. rewrite He1, bool_decide_eq_true_2 by done. destruct Hf as ([Hp Hl Hb Hs] & Hl0 & He). pose proof Hok1 as [Hp1 _ Hb1 _].
  destruct (mwrite_ok (buffer m1) (pos m + zlen hd) (host_bytes 2 size)) as (b & E & _); [lia|rewrite zlen_host; lia|]. rewrite E. cbn [mbind option_bind].
  destruct (patch_holds _ _ _ _ _ b Hh (host_bytes 2 size)) as (Hh' & El & A'); [by rewrite zlen_host|rewrite zlen_host; lia|exact E|].
  eexists. split; [done|]. split; [split; [split; simpl; lia|split; simpl; congruence]|]. split; [|done].
  rewrite !zlen_app in N1. unfold emits. rewrite !zlen_app, zlen_host. cbn [pos buffer msg_max_size msg_endian msg_length].
  split; [lia|]. split; [lia|]. split; [done|]. split; [congruence|]. split; [by eapply agree_trans|]. split; [done|lia].
Qed.

(** The body of a DATA submessage: the inline QoS, the payload, and zeros up to a
    multiple of four. *)
Definition has_qos (ch : SentChange) (topicKind : TopicKind_t) (expects : bool) : bool := sends_key ch topicKind expects || has_related ch.
Definition qos_wire (ch : SentChange) (topicKind : TopicKind_t) (expects : bool) : list Z :=
  if has_qos ch topicKind expects then params_wire (qos_params ch topicKind expects) else [].
Definition has_data (ch : SentChange) : bool := bool_decide (sc_kind ch = ALIVE) && (0 <? zlen (sc_payload ch)).
Definition padded (bs : list Z) : list Z := bs ++ repeat 0 (Z.to_nat ((- zlen bs) mod 4)).
Definition data_body (ch : SentChange) (topicKind : TopicKind_t) (rid : EntityId_t) (expects : bool) : list Z :=
  padded (data_fields 0 ch rid ++ qos_wire ch topicKind expects ++ (if has_data ch then sc_payload ch else [])).
Definition data_flags (ch : SentChange) (topicKind : TopicKind_t) (expects : bool) : Z := bits (has_qos ch topicKind expects) (has_data ch).

(** A change whose receiver learns what it is. *)
Definition sendable (ch : SentChange) (topicKind : TopicKind_t) : Prop :=
  match sc_kind ch with ALIVE => sc_payload ch <> [] | _ => topicKind = WITH_KEY end.

(** A submessage that may be too big for its size. *)
Definition big_wire (id fl : Z) (body : list Z) : list Z :=
  host_bytes 1 id ++ host_bytes 1 fl ++ host_bytes 2 (if zlen body >? 0xFFFF then 0 else zlen body) ++ body.

Lemma zlen_zeros n : 0 <= n -> zlen (repeat 0 (Z.to_nat n)) = n.
Proof. intros. unfold zlen. rewrite repeat_length. lia. Qed.

Lemma zlen_padded bs : zlen (padded bs) = zlen bs + (- zlen bs) mod 4.
Proof. unfold padded. rewrite zlen_app, zlen_zeros; [done|]. apply Z.mod_pos_bound. lia. Qed.

Lemma zlen_big_wire id fl body : zlen (big_wire id fl body) = 4 + zlen body.
Proof. unfold big_wire. rewrite !zlen_app, !zlen_host. lia. Qed.

Lemma zlen_data_fields n ch rid : change_sized ch -> zlen rid = 4 -> zlen (data_fields n ch rid) = if 0 <? n then 32 else 20.
Proof.
  intros [Hw _ _ _] Hr. unfold data_fields, field_wires. destruct (0 <? n); cbn [concat app]; rewrite !zlen_app, ?zlen_sn_wire, ?zlen_host; change (zlen []) with 0; lia.
Qed.

Lemma flags_prepared ch topicKind expects : sendable ch topicKind ->
  prepare_submessage_flags ch topicKind expects None = (has_data ch, false, has_qos ch topicKind expects, status_bits (sc_kind ch)).
Proof.
  intros Hs. unfold prepare_submessage_flags, sendable in *. fold (has_data ch). cbn [orb]. fold (has_qos ch topicKind expects). repeat f_equal.
  destruct (sc_kind ch) eqn:Ek.
  - unfold has_data. rewrite Ek, bool_decide_eq_true_2 by done. destruct (sc_payload ch); [done|]. rewrite (proj2 (Z.ltb_lt _ _)); [done|]. unfold zlen. simpl. lia.
  - subst. unfold has_qos, sends_key. rewrite Ek, !bool_decide_eq_true_2 by done. rewrite orb_true_r. simpl. by rewrite andb_false_r.
  - subst. unfold has_qos, sends_key. rewrite Ek, !bool_decide_eq_true_2 by done. rewrite orb_true_r. simpl. by rewrite andb_false_r.
  - subst. unfold has_qos, sends_key. rewrite Ek, !bool_decide_eq_true_2 by done. rewrite orb_true_r. simpl. by rewrite andb_false_r.
Qed.

(** The inline QoS, when there are some. *)
Lemma qos_wire_written ch topicKind expects m : change_sized ch -> filling m -> pos m + zlen (qos_wire ch topicKind expects) < msg_max_size m ->
  exists m', (if has_qos ch topicKind expects then serialize_inline_qos m ch topicKind expects None (status_bits (sc_kind ch)) else Some m) = Some m' /\
    filling m' /\ emits m (qos_wire ch topicKind expects) m'.
Proof.
  intros Hc Hf Hfit. unfold qos_wire in *. destruct (has_qos ch topicKind expects); [by apply inline_qos_written|].
  exists m. split; [done|]. split; [done|]. by apply emits_nil, Hf.
Qed.

Lemma align_count p : Z.land (4 - p mod 4) 3 = (- p) mod 4.
Proof. change 3 with (Z.ones 2). rewrite Z.land_ones by lia. change (2 ^ 2) with 4. Z.to_euclidean_division_equations; lia. Qed.

Lemma data_written m ch topicKind rid expects : filling m -> (4 | pos m) -> change_sized ch -> zlen rid = 4 -> sendable ch topicKind ->
  pos m + 4 + zlen (data_body ch topicKind rid expects) < msg_max_size m ->
  exists m' big, addSubmessageData m ch topicKind rid expects None true = Some (mkAdded true big [] 0, m') /\ filling m' /\
    emits m (big_wire DATA (data_flags ch topicKind expects) (data_body ch topicKind rid expects)) m'.
Proof.
  intros Hf [q Hq] Hc Hr Hs Hfit. unfold data_body in *. set (body := data_fields 0 ch rid ++ _) in *. rewrite zlen_padded in Hfit.
  assert (Hb : zlen body = zlen (data_fields 0 ch rid) + zlen (qos_wire ch topicKind expects) + zlen (if has_data ch then sc_payload ch else [])) by (unfold body; rewrite !zlen_app; lia).
  pose proof (zlen_nonneg (qos_wire ch topicKind expects)). pose proof (zlen_nonneg (if has_data ch then sc_payload ch else [])). pose proof (zlen_nonneg (data_fields 0 ch rid)).
  pose proof (Z.mod_pos_bound (- zlen body) 4 ltac:(lia)). unfold addSubmessageData. rewrite flags_prepared, filling_default by done. cbv iota zeta.
  rewrite Z.lor_0_r. fold (data_flags ch topicKind expects). set (fl := data_flags ch topicKind expects).
  destruct (header_written 0 m ch rid fl Hf Hc Hr) as (m1 & E1 & Hf1 & Hem1); [lia|]. rewrite E1. cbn [mbind option_bind]. pose proof Hem1 as (P1 & _ & X1 & _).
  rewrite !zlen_app, !zlen_host in P1.
  destruct (qos_wire_written ch topicKind expects m1 Hc Hf1) as (m2 & E2 & Hf2 & Hem2); [lia|]. rewrite E2. cbn [mbind option_bind]. pose proof Hem2 as (P2 & _ & X2 & _).
  unfold no_place. cbn [negb andb]. rewrite andb_false_r.
  assert (exists m3, (if has_data ch then add_payload true m2 (sc_payload ch) else Some (true, m2)) = Some (true, m3) /\ filling m3 /\
    emits m2 (if has_data ch then sc_payload ch else []) m3) as (m3 & E3 & Hf3 & Hem3).
  { destruct (has_data ch); [apply (writes_data (sc_payload ch) m2 Hf2); lia|]. exists m2. split; [done|]. split; [done|]. by apply emits_nil, Hf2. }
  rewrite E3. cbn [mbind option_bind andb]. pose proof Hem3 as (P3 & _ & X3 & _). rewrite align_count.
  assert (Ea : (- pos m3) mod 4 = (- zlen body) mod 4).
  { replace (- pos m3) with (- zlen body + - (1 + q) * 4) by lia. by rewrite Z.mod_add by lia. }
  rewrite Ea. destruct (padding_written (Z.to_nat ((- zlen body) mod 4)) m3 Hf3) as (m4 & E4 & Hf4 & Hem4); [lia|]. rewrite E4. cbn [mbind option_bind].
  pose proof Hem4 as (P4 & _ & X4 & _). rewrite zlen_zeros in P4 by lia.
  pose proof Hf as ([Hp0 _ _ _] & _). pose proof Hf4 as ([Hp4 _ _ Hs4] & _). rewrite u32_small by lia.
  pose proof (emits_trans _ _ _ _ _ (emits_trans _ _ _ _ _ (emits_trans _ _ _ _ _ Hem1 Hem2) Hem3) Hem4) as Hem.
  replace (pos m4 - (pos m + 4)) with (zlen (padded body)) by (rewrite zlen_padded; lia).
  assert (Hem' : emits m ((host_bytes 1 DATA ++ host_bytes 1 fl) ++ host_bytes 2 0 ++ padded body) m4).
  { unfold padded, body. rewrite <- !app_assoc in *. exact Hem. }
  unfold big_wire. destruct (zlen (padded body) >? 0xFFFF) eqn:Eb.
  - cbn [mbind option_bind]. exists m4, true. split; [|split; [done|by rewrite <- app_assoc in Hem']].
    replace (msg_endian m) with RTPS_DEFAULT_ENDIAN by (symmetry; apply Hf). by rewrite filling_default.
  - destruct (size_written m m4 (host_bytes 1 DATA ++ host_bytes 1 fl) (host_bytes 2 0) (padded body) (zlen (padded body)) Hf Hf4) as (m5 & E5 & Hf5 & Hem5 & _);
      [by rewrite zlen_host|exact Hem'|]. rewrite zlen_app, !zlen_host in E5. change (Z.of_nat 1 + Z.of_nat 1) with 2 in E5. rewrite E5.
    cbn [mbind option_bind]. exists m5, false. split; [|split; [done|by rewrite <- app_assoc in Hem5]].
    replace (msg_endian m) with RTPS_DEFAULT_ENDIAN by (symmetry; apply Hf). by rewrite filling_default.
Qed.

(** ** The header *)

Definition header_wire (prefix : GuidPrefix_t) : list Z := concat (host_bytes 1 <$> [0x52; 0x54; 0x50; 0x53; 2; 2; 1; 15]) ++ prefix.

Lemma new_header_spec m prefix : filling m -> zlen prefix = 12 -> pos m + 20 < msg_max_size m ->
  exists m', new_header m prefix = Some m' /\ filling m' /\ emits m (header_wire prefix) m'.
Proof.
  intros Hf Hp Hfit. unfold new_header, addHeader. set (os := _ ++ take 2 _).
  assert (Eos : os = [0x52; 0x54; 0x50; 0x53; 2; 2; 1; 15]) by done. rewrite Eos. clear os Eos. set (os := [_; _; _; _; _; _; _; _]).
  assert (Hz : forall l, zlen (concat (host_bytes 1 <$> l)) = zlen l).
  { induction l as [|x l IH]; [done|]. rewrite fmap_cons. cbn [concat]. rewrite zlen_app, zlen_host, IH. unfold zlen. simpl length. lia. }
  destruct (writes_each ((fun o m => addOctet m o) <$> os) (host_bytes 1 <$> os)) with (m := m) as (m1 & E1 & Hf1 & Hem1); [|done| |].
  { generalize os. intros l. induction l as [|x l IH]; constructor; [by apply (writes_primitive 1); lia|done]. }
  { rewrite Hz. unfold zlen, os. simpl. lia. }
  rewrite E1. simpl. pose proof Hem1 as (P1 & _ & X1 & _). rewrite Hz in P1. change (zlen os) with 8 in P1.
  destruct (then_add_spec _ _ m1 (writes_data prefix) Hf1) as (m2 & E2 & Hf2 & Hem2); [lia|]. rewrite E2. simpl.
  replace (with_length m2) with m2; [|destruct Hf2 as (_ & Hl & _); unfold with_length; rewrite Hl at 2; by destruct m2].
  exists m2. split; [done|]. split; [done|]. exact (emits_trans _ _ _ _ _ Hem1 Hem2).
Qed.

(** ** Reading *)

(** The bytes [bs] are next. *)
Record ahead m (bs : list Z) : Prop := mkAhead {
  ah_pos : 0 <= pos m /\ pos m + zlen bs <= msg_length m;
  ah_len : msg_length m <= msg_max_size m <= zlen (buffer m);
  ah_small : msg_max_size m < 2 ^ 31;
  ah_holds : holds (buffer m) (pos m) bs
}.

Definition skip_bytes m (n : Z) : CDRMessage_t := set_pos m (pos m + n).

Lemma ahead_app m a b : ahead m (a ++ b) -> ahead m a /\ ahead (skip_bytes m (zlen a)) b.
Proof.
  intros [Hp Hl Hs Hh]. rewrite zlen_app in Hp. pose proof (zlen_nonneg a). pose proof (zlen_nonneg b).
  apply holds_app_inv in Hh as [Ha Hb]. split; split; simpl; try done; lia.
Qed.

Lemma ahead_ok m bs : ahead m bs -> msg_ok m.
Proof. intros [Hp Hl Hs Hh]. pose proof (zlen_nonneg bs). split; lia. Qed.

(** A read of [bs], in the byte order of the host. *)
Definition consumes {A} (r : Reader A) (bs : list Z) (Q : A -> Prop) : Prop :=
  forall m, ahead m bs -> msg_endian m = RTPS_DEFAULT_ENDIAN -> exists a, r m = Some (a, skip_bytes m (zlen bs)) /\ Q a.

Lemma ahead_bytes m n v : msg_endian m = RTPS_DEFAULT_ENDIAN -> value_bytes m n v = host_bytes n v.
Proof. intros He. unfold value_bytes, order_bytes. rewrite He. by rewrite bool_decide_eq_true_2. Qed.

Lemma consumes_u32 v old : 0 <= v < 2 ^ 32 -> consumes (read_u32 old) (host_bytes 4 v) (fun p => p = (true, v)).
Proof.
  intros Hv m Ha He. destruct (readUInt32_spec m v old) as [E _]; [by eapply ahead_ok|done| | |].
  - destruct Ha as [Hp _ _ _]. rewrite zlen_host in Hp. lia.
  - rewrite ahead_bytes by done. apply Ha.
  - eexists. split; [|done]. unfold read_u32, skip_bytes. rewrite zlen_host. exact E.
Qed.

Lemma consumes_i32 v old : - 2 ^ 31 <= v < 2 ^ 31 -> consumes (read_i32 old) (host_bytes 4 v) (fun p => p = (true, v)).
Proof.
  intros Hv m Ha He. destruct (readInt32_spec m v old) as [E _]; [by eapply ahead_ok|done| | |].
  - destruct Ha as [Hp _ _ _]. rewrite zlen_host in Hp. lia.
  - rewrite ahead_bytes by done. apply Ha.
  - eexists. split; [|done]. unfold read_i32, skip_bytes. rewrite zlen_host. exact E.
Qed.

Lemma host_bytes_mod n v : host_bytes n (v mod 2 ^ (8 * Z.of_nat n)) = host_bytes n v.
Proof.
  unfold host_bytes. assert (E : le_bytes n (v mod 2 ^ (8 * Z.of_nat n)) = le_bytes n v); [|by rewrite E].
  rewrite <- (le_value_bytes n v). rewrite <- (length_le_bytes n v) at 1. apply le_bytes_value, le_bytes_is_byte.
Qed.

Lemma consumes_sn sn old : sn_ok sn -> consumes (read_sn old) (sn_wire sn) (fun p => p = (true, sn)).
Proof.
  intros Hs m Ha He. destruct (readSequenceNumber_spec m sn old) as [E _]; [by eapply ahead_ok|done| | |].
  - destruct Ha as [Hp _ _ _]. rewrite zlen_sn_wire in Hp. lia.
  - unfold sn_bytes. rewrite !ahead_bytes by done. apply Ha.
  - eexists. split; [|done]. unfold read_sn, skip_bytes. rewrite zlen_sn_wire. exact E.
Qed.

(** The same numbers, from the same base. *)
Definition same_set (r r' : SNSet) : Prop := range_wf r' /\ base_ r' = base_ r /\ forall n, has r' n = has r n.

Lemma consumes_set r : range_wf r -> consumes read_sn_set (set_wire r) (same_set r).
Proof.
  intros W m Ha He. destruct (readSequenceNumberSet_spec m r) as (r' & E & W' & Hb & Hh); [by eapply ahead_ok|done| | |].
  - destruct Ha as [Hp _ _ _]. rewrite zlen_set_wire in Hp by done. lia.
  - replace (set_bytes m r) with (set_wire r); [apply Ha|]. unfold set_bytes, set_wire, words_bytes, words_wire, sn_bytes, sn_wire.
    rewrite !ahead_bytes by done. do 3 f_equal. apply list_fmap_ext. intros. by rewrite ahead_bytes.
  - exists r'. split; [|done]. unfold read_sn_set, skip_bytes. rewrite zlen_set_wire, Z.add_assoc by done. exact E.
Qed.

Lemma ahead_mread m bs : ahead m bs -> mread (buffer m) (pos m) (zlen bs) = Some bs.
Proof. intros [_ _ _ Hh]. by apply holds_mread. Qed.

Lemma readData_ahead m bs old : ahead m bs -> 0 < zlen bs -> readData (zlen bs) old m = Some ((true, bs), skip_bytes m (zlen bs)).
Proof.
  intros Ha Hn. pose proof Ha as [Hp Hl Hs Hh]. unfold readData, rbind, rget, rcheck, advance, rput, rret.
  rewrite u32_small, Z.gtb_ltb, (proj2 (Z.ltb_ge _ _)) by lia. rewrite Z.gtb_ltb, (proj2 (Z.ltb_lt _ _)) by lia.
  rewrite (ahead_mread m bs Ha). by rewrite u32_small by lia.
Qed.

Lemma consumes_data bs old : 0 < zlen bs -> consumes (readData (zlen bs) old) bs (fun p => p = (true, bs)).
Proof. intros Hn m Ha He. eexists. split; [by apply readData_ahead|done]. Qed.

Lemma consumes_entity id old : zlen id = 4 -> consumes (readEntityId old) id (fun p => p = (true, id)).
Proof.
  intros Hn m Ha He. pose proof Ha as [Hp Hl Hs Hh]. rewrite Hn in Hp. unfold readEntityId, rbind, rget, rcheck, advance, rput, rret.
  rewrite u32_small, Z.gtb_ltb, (proj2 (Z.ltb_ge _ _)) by lia. pose proof (ahead_mread m id Ha) as E. rewrite Hn in E. rewrite E, u32_small by lia.
  eexists. split; [|done]. unfold skip_bytes. by rewrite Hn.
Qed.

Lemma consumes_u16 v old : 0 <= v < 2 ^ 16 -> consumes (readUInt16 old) (host_bytes 2 v) (fun p => p = (true, v)).
Proof.
  intros Hv m Ha He. destruct (read_raw_spec m (host_bytes 2 v)) as [E _].
  - by eapply ahead_ok.
  - rewrite zlen_host. lia.
  - destruct Ha as [Hp _ _ _]. lia.
  - apply Ha.
  - unfold readUInt16. rewrite zlen_host in E. change (Z.of_nat 2) with 2 in E. rewrite E. simpl. eexists. split; [unfold skip_bytes; by rewrite zlen_host|].
    unfold order_bytes. rewrite He, bool_decide_eq_true_2 by done. rewrite host_value_bytes, Z.mod_small by done. done.
Qed.

(** A read in the middle of others. *)
Lemma rwp_consume {A B} (r : Reader A) bs (Q : A -> Prop) (f : A -> Reader B) (R : B -> CDRMessage_t -> Prop) m rest :
  consumes r bs Q -> ahead m (bs ++ rest) -> msg_endian m = RTPS_DEFAULT_ENDIAN ->
  (forall a, Q a -> ahead (skip_bytes m (zlen bs)) rest -> rwp (f a) R (skip_bytes m (zlen bs))) -> rwp (rbind r f) R m.
Proof.
  intros Hc Ha He Hf. apply ahead_app in Ha as [Ha Ha']. destruct (Hc m Ha He) as (a & E & HQ).
  apply rwp_bind. unfold rwp. rewrite E. by apply Hf.
Qed.

End Wire.
