(* ===== verification/MessageRoundtrip.v ===== *)
(** * Messages that arrive

    Samples, heartbeats, acknowledgements and gaps written by one participant reach
    the endpoints of another with the same content. *)

From stdpp Require Import gmap.
From S2P Require Import Prelude FastBuffer SequenceNumber BitmapRange CdrMessage MsgReader ParameterList.
From S2P Require Import MessageReceiver MessageReceiverLaws MessageReceiverSpec MessageCreator MessageWire.

Section Roundtrip.
Context `{P : Platform} `{E : Endpoints}.
Implicit Types m : CDRMessage_t.

(** The same memory. *)
Definition framed m m' : Prop := buffer m' = buffer m /\ msg_length m' = msg_length m /\ msg_max_size m' = msg_max_size m.

Lemma framed_skip m n : framed m (skip_bytes m n).
Proof. done. Qed.

Lemma framed_trans m1 m2 m3 : framed m1 m2 -> framed m2 m3 -> framed m1 m3.
Proof. intros (? & ? & ?) (? & ? & ?). repeat split; congruence. Qed.

Lemma ahead_framed m m' bs : ahead m bs -> framed m m' -> pos m' = pos m -> ahead m' bs.
Proof. intros [] (Eb & El & Em) Ep. split; by rewrite ?Eb, ?El, ?Em, ?Ep. Qed.

(** One byte. *)
Lemma host_byte b : 0 <= b < 256 -> host_bytes 1 b = [b].
Proof. intros Hb. unfold host_bytes. destruct big_endian_target; cbn [le_bytes rev app]; by rewrite Z.mod_small. Qed.

Lemma ahead_peek {B} (f : Z -> Reader B) (R : B -> CDRMessage_t -> Prop) m b rest :
  ahead m (host_bytes 1 b ++ rest) -> 0 <= b < 256 -> rwp (f b) R m -> rwp (let* x := peek in f x) R m.
Proof.
  intros [Hp Hl Hs [_ Hh]] Hb Hf. specialize (Hh 0%nat b). rewrite host_byte, Nat.add_0_r in Hh by done.
  unfold rwp, peek, rbind, rget, rcheck. by rewrite (proj2 (Z.ltb_ge _ _)), Hh by (done || lia).
Qed.

Lemma ahead_advance {B} (f : Reader B) (R : B -> CDRMessage_t -> Prop) m b rest :
  ahead m (host_bytes 1 b ++ rest) -> (ahead (skip_bytes m 1) rest -> rwp f R (skip_bytes m 1)) -> rwp (do* advance 1 in f) R m.
Proof.
  intros Ha Hf. pose proof Ha as [Hp Hl Hs _]. rewrite zlen_app, zlen_host in Hp. pose proof (zlen_nonneg rest).
  apply rwp_bind, rwp_put. rewrite u32_small by lia. apply Hf. apply ahead_app in Ha as [_ Ha]. by rewrite zlen_host in Ha.
Qed.

Lemma default_endian_flags b1 b2 : flags_endian (bits b1 b2) = RTPS_DEFAULT_ENDIAN.
Proof. unfold flags_endian, bits, endian_flag, RTPS_DEFAULT_ENDIAN. by destruct big_endian_target, b1, b2. Qed.

Lemma flags_of_bits id len l b1 b2 : let smh := mkSMH id len (bits b1 b2) l in flag smh 1 = b1 /\ flag smh 2 = b2.
Proof. unfold flag, bits, endian_flag. by destruct big_endian_target, b1, b2. Qed.

Lemma bits_byte b1 b2 : 0 <= bits b1 b2 < 256.
Proof. unfold bits, endian_flag. by destruct big_endian_target, b1, b2. Qed.

(** The header of a submessage: a size of zero is the rest of the message. *)
Definition header_of (id fl n left : Z) : SubmessageHeader_t :=
  if (n =? 0) && negb (id =? INFO_TS) && negb (id =? PAD) then mkSMH id left fl true else mkSMH id n fl false.

Lemma sized_header_read m id b1 b2 n rest (R : option SubmessageHeader_t -> CDRMessage_t -> Prop) :
  ahead m (host_bytes 1 id ++ host_bytes 1 (bits b1 b2) ++ host_bytes 2 n ++ rest) -> 0 <= id < 256 -> 0 <= n < 2 ^ 16 -> n <= zlen rest ->
  (forall m', ahead m' rest -> framed m m' -> pos m' = pos m + 4 -> msg_endian m' = RTPS_DEFAULT_ENDIAN ->
     R (Some (header_of id (bits b1 b2) n (msg_length m - pos m'))) m') ->
  rwp readSubmessageHeader R m.
Proof.
  intros Ha Hid Hn Hlen HR. pose proof Ha as [Hp Hl Hs _]. rewrite !zlen_app, !zlen_host in Hp.
  unfold readSubmessageHeader. apply rwp_bind, rwp_get. rewrite u32_small, (proj2 (Z.ltb_ge _ _)) by lia.
  eapply ahead_peek; [exact Ha|done|]. eapply ahead_advance; [exact Ha|]. intros Ha1.
  eapply ahead_peek; [exact Ha1|apply bits_byte|]. eapply ahead_advance; [exact Ha1|]. intros Ha2.
  apply rwp_bind, rwp_put. rewrite default_endian_flags. set (m3 := mkMsg _ _ _ _ RTPS_DEFAULT_ENDIAN).
  assert (Ha3 : ahead m3 (host_bytes 2 n ++ rest)) by (by apply (ahead_framed _ m3 _ Ha2)).
  eapply rwp_consume; [apply (consumes_u16 n); lia|exact Ha3|done|]. intros p -> Ha4. apply rwp_bind, rwp_get.
  rewrite zlen_host in *. set (m4 := skip_bytes m3 _) in *. assert (Ep : pos m4 = pos m + 4) by (unfold m4, m3; simpl; lia).
  assert (El4 : msg_length m4 = msg_length m) by done. rewrite El4, Ep. rewrite !u32_small by lia.
  rewrite Z.gtb_ltb, (proj2 (Z.ltb_ge _ _)) by lia. specialize (HR m4 Ha4 ltac:(done) Ep ltac:(done)). rewrite Ep in HR. unfold header_of in HR.
  destruct (_ && _); by apply rwp_ret.
Qed.

Lemma submessage_header_read m id b1 b2 body rest (R : option SubmessageHeader_t -> CDRMessage_t -> Prop) :
  ahead m (submessage_wire id (bits b1 b2) body ++ rest) -> 0 <= id < 256 -> 0 < zlen body < 2 ^ 16 ->
  (forall m', ahead m' (body ++ rest) -> framed m m' -> pos m' = pos m + 4 -> msg_endian m' = RTPS_DEFAULT_ENDIAN ->
     R (Some (mkSMH id (zlen body) (bits b1 b2) false)) m') ->
  rwp readSubmessageHeader R m.
Proof.
  intros Ha Hid Hlen HR. unfold submessage_wire in Ha. rewrite <- !app_assoc in Ha. pose proof (zlen_nonneg rest).
  eapply sized_header_read; [exact Ha|done|lia|rewrite zlen_app; lia|]. intros m' Ha' Hf Hp He. specialize (HR m' Ha' Hf Hp He).
  unfold header_of. by rewrite (proj2 (Z.eqb_neq _ _)) by lia.
Qed.

(** A round of the loop. *)
Lemma loop_round fuel qos_fuel participant rc ignore w m id b1 b2 body rest
    (R : bool * MessageReceiver * World -> CDRMessage_t -> Prop) :
  ahead m (submessage_wire id (bits b1 b2) body ++ rest) -> 0 <= id < 256 -> 0 < zlen body < 2 ^ 16 -> (4 | zlen body) ->
  (forall m', ahead m' (body ++ rest) -> framed m m' -> pos m' = pos m + 4 -> msg_endian m' = RTPS_DEFAULT_ENDIAN ->
     rwp (proc_Submsg qos_fuel participant rc (mkSMH id (zlen body) (bits b1 b2) false) ignore w)
       (fun r m2 => framed m' m2 /\ r.1.1.1 = true /\
          forall m3, ahead m3 rest -> framed m m3 -> pos m3 = pos m + 4 + zlen body ->
            rwp (submessage_loop fuel qos_fuel participant r.1.2 r.1.1.2 r.2) R m3) m') ->
  rwp (submessage_loop (S fuel) qos_fuel participant rc ignore w) R m.
Proof.
  intros Ha Hid Hlen [k Hk] HR. pose proof Ha as [Hp Hl Hs _]. rewrite zlen_app, zlen_submessage_wire in Hp. pose proof (zlen_nonneg rest).
  cbn [submessage_loop]. apply rwp_bind, rwp_get. rewrite (proj2 (Z.ltb_lt _ _)) by lia. apply rwp_bind.
  eapply submessage_header_read; [exact Ha|done|done|]. intros m1 Ha1 Hf1 Hp1 He1. apply rwp_bind, rwp_get. simpl submessageLength. simpl is_last.
  rewrite (u32_small (zlen body + 3)), mask_align4 by lia.
  assert (Hround : (zlen body + 3) / 4 * 4 = zlen body).
  { pose proof (Z.div_mod (zlen body + 3) 4 ltac:(lia)). pose proof (Z.mod_pos_bound (zlen body + 3) 4 ltac:(lia)). lia. }
  rewrite Hround.
  rewrite u32_small by lia. apply rwp_bind. eapply rwp_mono; [by apply HR|]. intros [[[v ig] rc'] w'] m2 (Hf2 & Hv & Hnext). simpl in Hv, Hnext. subst v.
  cbn [negb orb]. apply rwp_bind, rwp_put. pose proof Hf1 as (F1 & F2 & F3). pose proof Hf2 as (G1 & G2 & G3). apply Hnext.
  - apply ahead_app in Ha1 as [_ Ha1]. apply (ahead_framed _ _ _ Ha1); [done|simpl; lia].
  - by repeat split; simpl; congruence.
  - simpl. lia.
Qed.

Lemma loop_end fuel qos_fuel participant rc ignore w m (R : bool * MessageReceiver * World -> CDRMessage_t -> Prop) :
  pos m = msg_length m -> R (true, rc, w) m -> rwp (submessage_loop fuel qos_fuel participant rc ignore w) R m.
Proof.
  intros Hp HR. destruct fuel; cbn [submessage_loop]; apply rwp_bind, rwp_get; rewrite (proj2 (Z.ltb_ge _ _)) by lia; by apply rwp_ret.
Qed.

(** The last round. *)
Lemma last_round fuel qos_fuel participant rc ignore w m id b1 b2 body (R : bool * MessageReceiver * World -> CDRMessage_t -> Prop) :
  ahead m (big_wire id (bits b1 b2) body) -> pos m + (4 + zlen body) = msg_length m ->
  0 <= id < 256 -> id <> INFO_TS -> id <> PAD -> 0 < zlen body -> (4 | zlen body) ->
  (forall l m', ahead m' (body ++ []) -> pos m' + zlen body = msg_length m' ->
     rwp (proc_Submsg qos_fuel participant rc (mkSMH id (zlen body) (bits b1 b2) l) ignore w)
       (fun r m2 => framed m' m2 /\ r.1.1.1 = true /\ forall m3, R (true, r.1.2, r.2) m3) m') ->
  rwp (submessage_loop (S fuel) qos_fuel participant rc ignore w) R m.
Proof.
  intros Ha Hend Hid Hts Hpad Hpos Hdiv HR. unfold big_wire in Ha. destruct (zlen body >? 0xFFFF) eqn:Eb; rewrite Z.gtb_ltb in Eb.
  - cbn [submessage_loop]. apply rwp_bind, rwp_get. rewrite (proj2 (Z.ltb_lt _ _)) by lia. apply rwp_bind.
    eapply sized_header_read; [exact Ha|done|lia|lia|]. intros m1 Ha1 (F1 & F2 & F3) Hp1 He1. apply rwp_bind, rwp_get.
    unfold header_of. rewrite (proj2 (Z.eqb_neq id _) Hts), (proj2 (Z.eqb_neq id _) Hpad). cbn [Z.eqb negb andb]. cbv zeta. rewrite <- (app_nil_r body) in Ha1.
    replace (msg_length m - pos m1) with (zlen body) by lia. apply rwp_bind. eapply rwp_mono; [apply HR; [done|lia]|].
    intros [[[v ig] rc'] w'] m2 (_ & Hv & Hnext). cbn [fst snd] in Hv, Hnext. subst v. cbn [negb is_last orb]. by apply rwp_ret.
  - apply Z.ltb_ge in Eb. change (ahead m (submessage_wire id (bits b1 b2) body)) in Ha. rewrite <- (app_nil_r (submessage_wire id _ _)) in Ha.
    eapply loop_round; [exact Ha|done|lia|done|]. intros m1 Ha1 (F1 & F2 & F3) Hp1 _. eapply rwp_mono; [apply HR; [done|lia]|].
    intros [[[v ig] rc'] w'] m2 (Hf2 & Hv & Hnext). split; [done|]. split; [done|]. intros m3 _ (_ & G2 & _) Hp3. apply loop_end; [lia|apply Hnext].
Qed.

(** ** The header of a message *)

(** The receiver after the header of a message from [prefix]. *)
Definition from_peer (rc : MessageReceiver) (own prefix : GuidPrefix_t) : MessageReceiver :=
  set_time (set_source (set_dest (reset rc) own) (2, 2) c_VendorId_eProsima prefix) false c_TimeInvalid.

Lemma ahead_octet_at {B} (f : Z -> Reader B) (R : B -> CDRMessage_t -> Prop) m bs i b :
  ahead m bs -> pos m = 0 -> bs !! i = Some b -> rwp (f b) R m -> rwp (let* x := octet_at (Z.of_nat i) in f x) R m.
Proof.
  intros [_ _ _ [_ Hh]] Hp Hi Hf. apply Hh in Hi. rewrite Hp in Hi. simpl in Hi.
  unfold rwp, octet_at, rbind, rget, rcheck. rewrite (proj2 (Z.ltb_ge _ _)), Nat2Z.id, Hi by lia. done.
Qed.

Lemma header_read rc own prefix m rest (R : bool * MessageReceiver -> CDRMessage_t -> Prop) :
  ahead m (header_wire prefix ++ rest) -> zlen prefix = 12 -> pos m = 0 ->
  (forall m', ahead m' rest -> framed m m' -> pos m' = 20 -> R (true, from_peer rc own prefix) m') ->
  rwp (checkRTPSHeader (set_dest (reset rc) own)) R m.
Proof.
  intros Ha Hlen Hp HR.
  assert (Ew : header_wire prefix = [0x52; 0x54; 0x50; 0x53; 2; 2; 1; 15] ++ prefix).
  { unfold header_wire. f_equal. cbn [fmap list_fmap concat]. by rewrite !host_byte. }
  assert (Hl : ahead m ([0x52; 0x54; 0x50; 0x53] ++ host_bytes 1 2 ++ host_bytes 1 2 ++ host_bytes 1 1 ++ host_bytes 1 15 ++ prefix ++ rest)).
  { rewrite Ew in Ha. rewrite !host_byte by lia. exact Ha. }
  unfold checkRTPSHeader.
  apply (ahead_octet_at _ _ m _ 0 _ Hl Hp eq_refl). cbn [Z.eqb Pos.eqb negb].
  apply (ahead_octet_at _ _ m _ 1 _ Hl Hp eq_refl). cbn [Z.eqb Pos.eqb negb].
  apply (ahead_octet_at _ _ m _ 2 _ Hl Hp eq_refl). cbn [Z.eqb Pos.eqb negb].
  apply (ahead_octet_at _ _ m _ 3 _ Hl Hp eq_refl). cbn [Z.eqb Pos.eqb negb].
  apply rwp_bind, rwp_put. rewrite Hp, u32_small by lia. apply ahead_app in Hl as [_ Hl].
  replace (skip_bytes m _) with (set_pos m 4) in Hl by (unfold skip_bytes; rewrite Hp; done). change (0 + 4) with 4.
  eapply ahead_peek; [exact Hl|lia|]. change (2 =? c_ProtocolVersion.1) with true. cbv iota.
  eapply ahead_advance; [exact Hl|]. intros H1. eapply ahead_peek; [exact H1|lia|]. eapply ahead_advance; [exact H1|]. intros H2.
  eapply ahead_peek; [exact H2|lia|]. eapply ahead_advance; [exact H2|]. intros H3.
  eapply ahead_peek; [exact H3|lia|]. eapply ahead_advance; [exact H3|]. intros H4.
  apply ahead_app in H4 as [H4 H5]. apply rwp_bind. unfold rwp at 1. rewrite <- Hlen, readData_ahead by (done || lia).
  apply rwp_ret. rewrite Hlen in *. by apply HR.
Qed.

(** ** Submessages *)

(** Handlers set the byte order that the flags give. *)
Lemma rwp_default_endian {B} (f : Reader B) (R : B -> CDRMessage_t -> Prop) m bs b1 b2 :
  ahead m bs -> (forall m', ahead m' bs -> framed m m' -> msg_endian m' = RTPS_DEFAULT_ENDIAN -> rwp f R m') ->
  rwp (do* set_endian (flags_endian (bits b1 b2)) in f) R m.
Proof.
  intros Ha Hf. apply rwp_bind, rwp_put. rewrite default_endian_flags. apply Hf; [|done|done]. by apply (ahead_framed _ _ _ Ha).
Qed.

Lemma host_bytes_i32 c : host_bytes 4 (i32 c) = host_bytes 4 (u32 c).
Proof.
  rewrite <- (host_bytes_mod 4 (i32 c)), <- (host_bytes_mod 4 (u32 c)). f_equal. unfold i32, u32.
  change (2 ^ (8 * Z.of_nat 4)) with (2 ^ 32). rewrite Zminus_mod_idemp_l, Z.mod_mod by lia. f_equal. lia.
Qed.

Lemma heartbeat_leb s : number_given s -> sn_leb s (mkSN 0 0) = false.
Proof. intros [Hok Hv]. rewrite sn_leb_val by done. apply Z.leb_gt. done. Qed.

Lemma heartbeat_accepted first last : number_given first -> sn_ok last -> sn_val first - 1 <= sn_val last ->
  sn_ltb last first && negb (sn_eqb last (sn_sub_u32 first 1)) = false.
Proof.
  intros [Hf Hp] Hl Hr. rewrite sn_ltb_val by done. destruct (Z.ltb_spec (sn_val last) (sn_val first)); [|done].
  destruct (sn_sub_u32_val first 1) as [[Hok _] Hv]; [by split; [|lia]|lia|lia|]. cbn [andb].
  rewrite sn_eqb_val, Hv by done. apply negb_false_iff, Z.eqb_eq. lia.
Qed.

Definition heartbeat_body (rid wid : EntityId_t) (first last : SequenceNumber_t) (count : Z) : list Z :=
  rid ++ wid ++ sn_wire first ++ sn_wire last ++ host_bytes 4 (i32 count).

Lemma heartbeat_read rc id len l final live w w1 rid wid first last count m rest :
  ahead m (heartbeat_body rid wid first last count ++ rest) -> zlen rid = 4 -> zlen wid = 4 ->
  number_given first -> sn_ok last -> sn_val first - 1 <= sn_val last -> 0 <= count < 2 ^ 32 ->
  findAllReaders rc rid (fun r => process_heartbeat_msg r (mkGUID (source_guid_prefix_ rc) wid) count first last final live (source_vendor_id_ rc)) w = Some w1 ->
  rwp (proc_Submsg_Heartbeat rc (mkSMH id len (bits final live) l) w) (fun p m' => framed m m' /\ p = (true, w1)) m.
Proof.
  intros Ha Hr Hw Hfirst Hlast Hrange Hc Hcall. unfold proc_Submsg_Heartbeat. cbv zeta.
  destruct (flags_of_bits id len l final live) as [-> ->]. cbn [flags]. eapply rwp_default_endian; [exact Ha|]. clear Ha. intros m0 Ha Hf0 He.
  unfold heartbeat_body in Ha. rewrite host_bytes_i32, u32_small, <- !app_assoc in Ha by done.
  eapply rwp_consume; [by apply (consumes_entity rid)|exact Ha|done|]. clear Ha. intros ? -> Ha.
  eapply rwp_consume; [by apply (consumes_entity wid)|exact Ha|done|]. clear Ha. intros ? -> Ha.
  eapply rwp_consume; [apply consumes_sn, Hfirst|exact Ha|done|]. clear Ha. intros ? -> Ha.
  eapply rwp_consume; [apply consumes_sn, Hlast|exact Ha|done|]. clear Ha. intros ? -> Ha.
  rewrite heartbeat_leb, heartbeat_accepted by done.
  eapply rwp_consume; [by apply consumes_u32|exact Ha|done|]. clear Ha. intros ? -> Ha. cbn [negb].
  eapply rwp_check; [exact Hcall|]. apply rwp_ret. split; [|done]. exact Hf0.
Qed.

Definition acknack_body (rid wid : EntityId_t) (set : SNSet) (count : Z) : list Z :=
  rid ++ wid ++ set_wire set ++ host_bytes 4 count.

Lemma acknack_read rc id len l final w rid wid set count m rest (R : bool * World -> Prop) :
  ahead m (acknack_body rid wid set count ++ rest) -> zlen rid = 4 -> zlen wid = 4 -> range_wf set ->
  - 2 ^ 31 <= count < 2 ^ 31 ->
  (forall set', same_set set set' -> exists p, R p /\
     offer_writers (associated_writers_ rc) (fun x => process_acknack x (mkGUID (dest_guid_prefix_ rc) wid)
       (mkGUID (source_guid_prefix_ rc) rid) (u32 count) set' final (source_vendor_id_ rc)) w = Some p) ->
  rwp (proc_Submsg_Acknack rc (mkSMH id len (bits final false) l) w) (fun p m' => framed m m' /\ R p) m.
Proof.
  intros Ha Hr Hw W Hc Hcall. unfold proc_Submsg_Acknack. cbv zeta.
  destruct (flags_of_bits id len l final false) as [-> _]. cbn [flags]. eapply rwp_default_endian; [exact Ha|]. clear Ha. intros m0 Ha Hf0 He.
  unfold acknack_body in Ha. replace count with (i32 count) in Ha at 1.
  2:{ unfold i32. rewrite Z.mod_small; lia. }
  rewrite host_bytes_i32, <- !app_assoc in Ha.
  eapply rwp_consume; [by apply (consumes_entity rid)|exact Ha|done|]. clear Ha. intros ? -> Ha.
  eapply rwp_consume; [by apply (consumes_entity wid)|exact Ha|done|]. clear Ha. intros ? -> Ha.
  eapply rwp_consume; [by apply consumes_set|exact Ha|done|]. clear Ha. intros set' Hset Ha.
  eapply rwp_consume; [apply (consumes_u32 (u32 count)); apply Z.mod_pos_bound; lia|exact Ha|done|]. clear Ha. intros ? -> Ha. cbn [negb].
  destruct (Hcall set' Hset) as (p & HR & Ep). unfold rwp, rcheck. rewrite Ep. done.
Qed.

Definition gap_body (rid wid : EntityId_t) (start : SequenceNumber_t) (set : SNSet) : list Z :=
  rid ++ wid ++ sn_wire start ++ set_wire set.

Lemma gap_read rc id len l b1 b2 w rid wid start set m rest (R : World -> Prop) :
  ahead m (gap_body rid wid start set ++ rest) -> zlen rid = 4 -> zlen wid = 4 -> range_wf set -> number_given start ->
  (forall set', same_set set set' -> exists w1, R w1 /\
     findAllReaders rc rid (fun r => process_gap_msg r (mkGUID (source_guid_prefix_ rc) wid) start set' (source_vendor_id_ rc)) w = Some w1) ->
  rwp (proc_Submsg_Gap rc (mkSMH id len (bits b1 b2) l) w) (fun p m' => framed m m' /\ p.1 = true /\ R p.2) m.
Proof.
  intros Ha Hr Hw W Hs Hcall. unfold proc_Submsg_Gap. cbv zeta. cbn [flags].
  eapply rwp_default_endian; [exact Ha|]. clear Ha. intros m0 Ha Hf0 He. unfold gap_body in Ha. rewrite <- !app_assoc in Ha.
  eapply rwp_consume; [by apply (consumes_entity rid)|exact Ha|done|]. clear Ha. intros ? -> Ha.
  eapply rwp_consume; [by apply (consumes_entity wid)|exact Ha|done|]. clear Ha. intros ? -> Ha.
  eapply rwp_consume; [apply consumes_sn, Hs|exact Ha|done|]. clear Ha. intros ? -> Ha.
  eapply rwp_consume; [by apply consumes_set|exact Ha|done|]. clear Ha. intros set' Hset Ha.
  rewrite heartbeat_leb by done. destruct (Hcall set' Hset) as (w1 & HR & Ew). eapply rwp_check; [exact Ew|]. by apply rwp_ret.
Qed.

Lemma info_dst_read rc id len l b1 b2 prefix m rest :
  ahead m (prefix ++ rest) -> zlen prefix = 12 -> prefix <> c_GuidPrefix_Unknown ->
  rwp (proc_Submsg_InfoDST rc (mkSMH id len (bits b1 b2) l)) (fun p m' => framed m m' /\ p = (true, set_dest rc prefix)) m.
Proof.
  intros Ha Hl Hne. unfold proc_Submsg_InfoDST. cbn [flags]. eapply rwp_default_endian; [exact Ha|]. clear Ha. intros m0 Ha Hf0 He.
  rewrite <- Hl. eapply rwp_consume; [apply consumes_data; lia|exact Ha|done|]. intros ? -> _.
  rewrite bool_decide_eq_true_2 by done. by apply rwp_ret.
Qed.

Lemma info_ts_read rc id len l b2 s f m rest :
  ahead m ((host_bytes 4 s ++ host_bytes 4 f) ++ rest) -> - 2 ^ 31 <= s < 2 ^ 31 -> 0 <= f < 2 ^ 32 ->
  rwp (proc_Submsg_InfoTS rc (mkSMH id len (bits false b2) l)) (fun p m' => framed m m' /\ p = (true, set_time rc true (s, f))) m.
Proof.
  intros Ha Hs Hf. unfold proc_Submsg_InfoTS. cbv zeta. destruct (flags_of_bits id len l false b2) as [-> _]. cbn [flags negb].
  eapply rwp_default_endian; [exact Ha|]. clear Ha. intros m0 Ha Hf0 He. rewrite <- app_assoc in Ha.
  apply rwp_bind. unfold readTimestamp.
  eapply rwp_consume; [by apply consumes_i32|exact Ha|done|]. clear Ha. intros ? -> Ha.
  eapply rwp_consume; [by apply consumes_u32|exact Ha|done|]. clear Ha. intros ? -> Ha. apply rwp_ret. by apply rwp_ret.
Qed.

(** ** DATA *)

(** A parameter that a processor takes, and several. *)
Definition takes_param {A} (processor : Z -> Z -> A -> Reader (bool * A)) (p : Z * list Z) (a a' : A) : Prop :=
  forall m rest, ahead m (p.2 ++ rest) -> msg_endian m = RTPS_DEFAULT_ENDIAN ->
    rwp (processor p.1 (zlen p.2) a) (fun r m' => r = (true, a') /\ framed m m' /\ msg_endian m' = RTPS_DEFAULT_ENDIAN) m.

Fixpoint takes_params {A} (processor : Z -> Z -> A -> Reader (bool * A)) (ps : list (Z * list Z)) (a a' : A) : Prop :=
  match ps with
  | [] => a' = a
  | p :: ps => exists a1, takes_param processor p a a1 /\ takes_params processor ps a1 a'
  end.

Lemma takes_params_app {A} (processor : Z -> Z -> A -> Reader (bool * A)) ps qs a b c :
  takes_params processor ps a b -> takes_params processor qs b c -> takes_params processor (ps ++ qs) a c.
Proof. revert a. induction ps as [|p ps IH]; intros a; [by intros ->|]. intros (a1 & Hp & Hps) Hq. exists a1. split; [done|]. by apply IH. Qed.

Definition param_ok (p : Z * list Z) : Prop := 0 <= p.1 < 2 ^ 16 /\ p.1 <> PID_SENTINEL /\ zlen p.2 < 2 ^ 16 /\ (4 | zlen p.2).

Lemma params_wire_cons p ps : params_wire (p :: ps) = param_wire p ++ params_wire ps.
Proof. unfold params_wire. rewrite fmap_cons. cbn [concat]. by rewrite app_assoc. Qed.

Lemma zlen_params_wire ps : Forall param_ok ps -> 4 <= zlen (params_wire ps) /\ (4 | zlen (params_wire ps)).
Proof.
  induction 1 as [|p ps (_ & _ & _ & [k Hk]) _ [IH1 [j IH2]]].
  { unfold params_wire, sentinel_wire. cbn [fmap list_fmap concat app]. rewrite zlen_app, !zlen_host. split; [lia|by exists 1]. }
  rewrite params_wire_cons, zlen_app, zlen_param_wire. pose proof (zlen_nonneg p.2). split; [lia|]. exists (1 + k + j). lia.
Qed.

Lemma parameters_read {A} (processor : Z -> Z -> A -> Reader (bool * A)) o ps : Forall param_ok ps -> forall fuel q a af m rest,
  takes_params processor ps a af -> 0 <= q -> (4 | q) -> 0 <= o -> ahead (set_pos m (o + q)) (params_wire ps ++ rest) -> msg_endian m = RTPS_DEFAULT_ENDIAN ->
  (length ps < fuel)%nat ->
  rwp (parameter_loop fuel processor o q a) (fun r m' => r = (true, q + zlen (params_wire ps), af) /\ framed m m' /\
    msg_endian m' = RTPS_DEFAULT_ENDIAN /\ pos m' = o + q + zlen (params_wire ps)) m.
Proof.
  induction 1 as [|p ps (Hpid & Hns & Hlen & Hdiv) Hok IH]; intros fuel q a af m rest Ht Hq [k Hk] Ho Ha He Hfuel; (destruct fuel as [|fuel]; [simpl in Hfuel; lia|]);
    cbn [parameter_loop]; pose proof Ha as [Hp Hl Hs _]; simpl in Hp, Hl, Hs.
  - simpl in Ht. subst af. assert (Hz : zlen (params_wire []) = 4) by (unfold params_wire, sentinel_wire; cbn [fmap list_fmap concat app]; by rewrite zlen_app, !zlen_host). rewrite zlen_app, Hz in *. pose proof (zlen_nonneg rest).
    change (params_wire []) with (host_bytes 2 PID_SENTINEL ++ host_bytes 2 0) in Ha. rewrite <- app_assoc in Ha.
    apply rwp_bind, rwp_put. rewrite u32_small by lia. set (m0 := set_pos m (o + q)) in *.
    eapply rwp_consume; [apply (consumes_u16 PID_SENTINEL); unfold PID_SENTINEL; lia|exact Ha|done|]. clear Ha. intros ? -> Ha.
    eapply rwp_consume; [apply (consumes_u16 0); lia|exact Ha|done|]. clear Ha. intros ? -> Ha. cbv zeta. rewrite Z.eqb_refl.
    apply rwp_bind, rwp_get. cbn [negb orb andb]. simpl pos. rewrite !zlen_host. rewrite (u32_small (_ + 0)) by (simpl; lia).
    rewrite Z.gtb_ltb, (proj2 (Z.ltb_ge _ _)) by (simpl; lia). apply rwp_ret. rewrite (u32_small (q + (4 + 0))), u32_small, mask_align4 by lia.
    split; [|split; [done|split; [done|simpl; lia]]]. repeat f_equal. subst q. Z.to_euclidean_division_equations; lia.
  - destruct Ht as (a1 & Hp1 & Hps). pose proof (zlen_params_wire ps Hok) as [Hps4 _]. rewrite params_wire_cons in *. rewrite !zlen_app, zlen_param_wire in *.
    pose proof (zlen_nonneg rest). pose proof (zlen_nonneg p.2). destruct Hdiv as [j Hj].
    apply rwp_bind, rwp_put. rewrite u32_small by lia. set (m0 := set_pos m (o + q)) in *. unfold param_wire in Ha. rewrite <- !app_assoc in Ha.
    eapply rwp_consume; [apply (consumes_u16 p.1); lia|exact Ha|done|]. intros ? -> Ha1.
    eapply rwp_consume; [apply (consumes_u16 (zlen p.2)); lia|exact Ha1|done|]. intros ? -> Ha2. cbv zeta. rewrite (proj2 (Z.eqb_neq _ _)) by done.
    apply rwp_bind, rwp_get. cbn [negb orb andb]. simpl pos. rewrite !zlen_host in *. rewrite (u32_small (_ + zlen p.2)) by (simpl; lia).
    rewrite Z.gtb_ltb, (proj2 (Z.ltb_ge _ _)) by (simpl; lia). rewrite (u32_small (q + (4 + zlen p.2))), u32_small, mask_align4 by lia.
    replace ((q + (4 + zlen p.2) + 3) / 4 * 4) with (q + (4 + zlen p.2)) by (subst q; rewrite Hj; Z.to_euclidean_division_equations; lia).
    apply rwp_bind. eapply rwp_mono; [by eapply Hp1|]. intros ? m2 (-> & Hf2 & He2). destruct Hf2 as (F1 & F2 & F3).
    eapply rwp_mono; [apply (IH fuel (q + (4 + zlen p.2)) a1 af m2 rest)|]; try done; try lia.
    + exists (k + 1 + j). lia.
    + apply ahead_app in Ha as [_ Ha]. apply ahead_app in Ha as [_ Ha]. apply ahead_app in Ha as [_ Ha].
      eapply ahead_framed; [exact Ha|by repeat split|]. simpl. rewrite !zlen_host. lia.
    + simpl in Hfuel. lia.
    + intros r m3 (-> & (G1 & G2 & G3) & He3 & Hp3). split; [do 2 f_equal; lia|]. split; [split; [by rewrite G1|split; [by rewrite G2|by rewrite G3]]|]. split; [done|lia].
Qed.

Lemma takes_key c h : zlen h = 16 -> takes_param parameter_process (PID_KEY_HASH, h) c (set_instanceHandle (h, true) c).
Proof.
  intros Hh m rest Ha He. cbn [fst snd] in *. unfold parameter_process. rewrite Z.eqb_refl. unfold read_ParameterKey.
  rewrite Hh. change (16 <? PARAMETER_KEY_HASH_LENGTH) with false. cbv iota. change PARAMETER_KEY_HASH_LENGTH with 16. rewrite <- Hh.
  apply rwp_bind. eapply rwp_consume; [apply consumes_data; lia|exact Ha|done|]. intros ? -> _. apply rwp_ret. by apply rwp_ret.
Qed.

Lemma consumes_octet v old : 0 <= v < 256 -> consumes (readOctet old) [v] (fun p => p = (true, v)).
Proof.
  intros Hv m [Hp Hl Hs [_ Hh]] He. change (zlen [v]) with 1 in *. unfold readOctet, rbind, rget, rcheck, peek, advance, rput, rret.
  rewrite u32_small, Z.gtb_ltb, (proj2 (Z.ltb_ge _ _)) by lia. specialize (Hh 0%nat v eq_refl). rewrite Nat.add_0_r in Hh.
  unfold rbind, rget, rcheck. rewrite (proj2 (Z.ltb_ge _ _)), Hh by lia. rewrite u32_small by lia. by eexists.
Qed.

Lemma takes_status c k : k <> ALIVE -> takes_param parameter_process (PID_STATUS_INFO, [0; 0; 0; status_bits k]) c (set_kind k c).
Proof.
  intros Hk m rest Ha He. cbn [fst snd] in *. unfold parameter_process, read_ParameterStatusInfo. change (zlen [0; 0; 0; status_bits k]) with 4.
  repeat match goal with |- context [if ?x =? ?y then _ else _] => let b := eval vm_compute in (x =? y) in change (x =? y) with b; cbv iota end.
  cbn [andb orb]. change (4 <? PARAMETER_STATUS_INFO_LENGTH) with false. cbv iota. apply rwp_bind.
  change ([0; 0; 0; status_bits k] ++ rest) with ([0] ++ [0] ++ [0] ++ [status_bits k] ++ rest) in Ha.
  do 3 (eapply rwp_consume; [apply (consumes_octet 0); lia|exact Ha|done|]; clear Ha; intros ? -> Ha).
  eapply rwp_consume; [apply (consumes_octet (status_bits k)); by destruct k|exact Ha|done|]. clear Ha. intros ? -> Ha.
  apply rwp_ret, rwp_ret. by destruct k.
Qed.

Lemma takes_identity c pid id : pid = PID_RELATED_SAMPLE_IDENTITY \/ pid = PID_CUSTOM_RELATED_SAMPLE_IDENTITY -> vendor_id c = c_VendorId_eProsima ->
  zlen (guidPrefix id.1) = 12 -> zlen (entityId id.1) = 4 -> sn_ok id.2 -> takes_param parameter_process (pid, identity_wire id) c (set_sample_identity id c).
Proof.
  intros Hpid Hv Hp He Hs m rest Ha Hem. cbn [fst snd] in *. unfold parameter_process. rewrite Hv.
  assert (Ez : zlen (identity_wire id) = 24) by (unfold identity_wire; rewrite !zlen_app, zlen_sn_wire; lia). rewrite Ez. unfold read_ParameterSampleIdentity.
  change (24 <? PARAMETER_SAMPLEIDENTITY_LENGTH) with false. rewrite (bool_decide_eq_false_2 (c_VendorId_eProsima <> c_VendorId_eProsima)) by (intros H; by apply H).
  rewrite andb_false_r. cbn [andb]. change (24 >=? 24) with true. cbv iota.
  replace (pid =? PID_KEY_HASH) with false by (by destruct Hpid as [->| ->]).
  replace ((pid =? PID_CUSTOM_RELATED_SAMPLE_IDENTITY) || (pid =? PID_RELATED_SAMPLE_IDENTITY)) with true by (by destruct Hpid as [->| ->]). cbv iota.
  unfold identity_wire, sn_wire in Ha. rewrite <- !app_assoc in Ha. destruct Hs as [[Hh1 Hh2] Hl]. apply rwp_bind.
  rewrite <- Hp. eapply rwp_consume; [apply consumes_data; lia|exact Ha|done|]. clear Ha. intros ? -> Ha.
  rewrite <- He. eapply rwp_consume; [apply consumes_data; lia|exact Ha|done|]. clear Ha. intros ? -> Ha.
  eapply rwp_consume; [apply (consumes_i32 (high id.2)); lia|exact Ha|done|]. clear Ha. intros ? -> Ha.
  eapply rwp_consume; [apply (consumes_u32 (low id.2)); lia|exact Ha|done|]. clear Ha. intros ? -> Ha.
  apply rwp_ret, rwp_ret. split; [|done]. destruct id as [[? ?] [? ?]]. done.
Qed.

(** What the inline QoS of a change make of a received one. *)
Definition with_qos (ch : SentChange) (topicKind : TopicKind_t) (expects : bool) (c : CacheChange_t) : CacheChange_t :=
  let c := if has_related ch then set_sample_identity (sc_related ch) c else c in
  if sends_key ch topicKind expects then
    let c := set_instanceHandle (sc_handle ch, true) c in if bool_decide (sc_kind ch <> ALIVE) then set_kind (sc_kind ch) c else c
  else c.

Lemma takes_qos ch topicKind expects c : change_sized ch -> sn_ok (sc_related ch).2 -> vendor_id c = c_VendorId_eProsima ->
  takes_params parameter_process (qos_params ch topicKind expects) c (with_qos ch topicKind expects c).
Proof.
  intros [Hw Hh Hp He] Hs Hv. unfold qos_params, with_qos. eapply takes_params_app.
  - instantiate (1 := if has_related ch then set_sample_identity (sc_related ch) c else c). destruct (has_related ch); [|done].
    eexists. split; [by apply takes_identity; [left|..]|]. eexists. split; [by apply takes_identity; [right|..]|done].
  - set (c1 := if has_related ch then _ else _). destruct (sends_key ch topicKind expects); [|done]. eexists. split; [by apply takes_key|].
    case_bool_decide; [|done]. eexists. split; [by apply takes_status|done].
Qed.

Lemma qos_params_ok ch topicKind expects : change_sized ch -> Forall param_ok (qos_params ch topicKind expects) /\ (length (qos_params ch topicKind expects) <= 4)%nat.
Proof.
  intros Hc. pose proof (zlen_identity_wire ch Hc) as Hi. destruct Hc as [_ Hh _ _]. unfold qos_params.
  destruct (has_related ch), (sends_key ch topicKind expects), (bool_decide (sc_kind ch <> ALIVE)); cbn [app]; (split; [|simpl; lia]);
    repeat apply Forall_cons_2; try apply Forall_nil_2; unfold param_ok; cbn [fst snd]; rewrite ?Hi, ?Hh;
    (split; [by vm_compute|split; [by vm_compute|split; [by vm_compute|]]]); first [by exists 6|by exists 4|by exists 1].
Qed.

(** What a reader is given of a change that was sent: the payload comes with the
    zeros that align the submessage. *)
Definition received_as (prefix : GuidPrefix_t) (ts : Z * Z) (ch : SentChange) (topicKind : TopicKind_t) (expects : bool) (buf : list Z) (c : CacheChange_t) : Prop :=
  kind c = sc_kind ch /\ writerGUID c = mkGUID prefix (entityId (sc_writer ch)) /\ sequenceNumber c = sc_seq ch /\
  instanceHandle c = (if sends_key ch topicKind expects then (sc_handle ch, true) else (replicate 16 0, false)) /\
  sample_identity c = (if has_related ch then Some (sc_related ch) else None) /\ sourceTimestamp c = ts /\ vendor_id c = c_VendorId_eProsima /\
  if has_data ch then exists p, serializedPayload c = Some (mkSlice p (zlen (padded (sc_payload ch)))) /\
    mread buf p (zlen (padded (sc_payload ch))) = Some (padded (sc_payload ch))
  else serializedPayload c = None.

Lemma sends_key_not_alive ch topicKind expects : sendable ch topicKind -> sc_kind ch <> ALIVE -> sends_key ch topicKind expects = true.
Proof.
  unfold sendable, sends_key. intros Hs Hk. rewrite (bool_decide_eq_true_2 (sc_kind ch <> ALIVE)), orb_true_r by done.
  apply andb_true_iff. split; [|done]. apply bool_decide_eq_true_2. by destruct (sc_kind ch).
Qed.

Lemma has_data_alive ch topicKind : sendable ch topicKind -> has_data ch = bool_decide (sc_kind ch = ALIVE).
Proof.
  unfold sendable, has_data. intros Hs. case_bool_decide as Ek; [|done]. rewrite Ek in Hs. destruct (sc_payload ch); [done|]. apply Z.ltb_lt. unfold zlen. simpl. lia.
Qed.

(** The sizes of the parts of a body. *)
Lemma data_body_parts ch topicKind rid expects : change_sized ch -> zlen rid = 4 ->
  data_body ch topicKind rid expects = data_fields 0 ch rid ++ qos_wire ch topicKind expects ++ (if has_data ch then padded (sc_payload ch) else []) /\
  (4 | zlen (qos_wire ch topicKind expects)) /\ (4 | zlen (data_body ch topicKind rid expects)).
Proof.
  intros Hc Hr. assert (Hq : (4 | zlen (qos_wire ch topicKind expects))).
  { unfold qos_wire. destruct (has_qos _ _ _); [apply zlen_params_wire, qos_params_ok, Hc|by exists 0]. }
  split; [|split; [done|]].
  - destruct Hq as [k Hk]. pose proof (zlen_data_fields 0 ch rid Hc Hr) as Hd. simpl in Hd.
    assert (Hm : forall n, (- (20 + (k * 4 + n))) mod 4 = (- n) mod 4) by (intros n; replace (- _) with (- n + - (5 + k) * 4) by lia; by rewrite Z.mod_add).
    unfold data_body, padded. rewrite !zlen_app, Hd, Hk, Hm, <- !app_assoc. destruct (has_data ch); [done|]. change (zlen []) with 0. simpl. done.
  - unfold data_body. rewrite zlen_padded. set (n := zlen _). exists ((n + (- n) mod 4) / 4). Z.to_euclidean_division_equations; lia.
Qed.

Lemma consumes_i16 v old : 0 <= v < 2 ^ 15 -> consumes (readInt16 old) (host_bytes 2 v) (fun p => p = (true, v)).
Proof.
  intros Hv m Ha He. destruct (consumes_u16 v (u16 old) ltac:(lia) m Ha He) as (a & Er & ->). unfold readInt16, rbind. rewrite Er. eexists. split; [done|].
  cbn [fst snd]. unfold i16. f_equal. rewrite Z.mod_small; lia.
Qed.

(** The inline QoS of a submessage. *)
Lemma qos_wire_read {B} (f : bool * Z * CacheChange_t -> Reader B) (R : B -> CDRMessage_t -> Prop) fuel ch topicKind expects c m rest :
  ahead m (qos_wire ch topicKind expects ++ rest) -> change_sized ch -> sn_ok (sc_related ch).2 -> vendor_id c = c_VendorId_eProsima ->
  msg_endian m = RTPS_DEFAULT_ENDIAN -> (5 <= fuel)%nat ->
  (forall m', ahead m' rest -> framed m m' -> msg_endian m' = RTPS_DEFAULT_ENDIAN -> pos m' = pos m + zlen (qos_wire ch topicKind expects) ->
     rwp (f (true, zlen (qos_wire ch topicKind expects), with_qos ch topicKind expects c)) R m') ->
  rwp (rbind (if has_qos ch topicKind expects then updateCacheChangeFromInlineQos fuel c else rret (true, 0, c)) f) R m.
Proof.
  intros Ha Hc Hs Hv He Hfuel Hf. destruct (qos_params_ok ch topicKind expects Hc) as [Hok Hlen]. unfold qos_wire in *. destruct (has_qos ch topicKind expects) eqn:Eq.
  - apply rwp_bind. unfold updateCacheChangeFromInlineQos, readParameterListfromCDRMsg. apply rwp_bind, rwp_ret, rwp_bind, rwp_get.
    pose proof Ha as [[Hp _] _ _ _]. assert (Em : set_pos m (pos m + 0) = m) by (rewrite Z.add_0_r; by destruct m).
    eapply rwp_mono; [apply (parameters_read parameter_process (pos m) _ Hok fuel 0 c (with_qos ch topicKind expects c) m rest); [by apply takes_qos|lia|by exists 0|lia|by rewrite Em|done|lia]|].
    intros r m' (-> & Hfr & He' & Hp'). rewrite Z.add_0_l. rewrite Z.add_0_r in Hp'. apply ahead_app in Ha as [_ Ha]. apply Hf; [|done|done|done].
    by eapply ahead_framed.
  - unfold has_qos in Eq. apply orb_false_iff in Eq as [E1 E2]. apply rwp_bind, rwp_ret. replace c with (with_qos ch topicKind expects c) at 1 by (unfold with_qos; by rewrite E1, E2).
    change 0 with (zlen (@nil Z)). apply Hf; [done|done|done|]. change (zlen []) with 0. lia.
Qed.

(** The payload: the rest of the message. *)
Lemma payload_read {B} (f : bool * CacheChange_t -> Reader B) (R : B -> CDRMessage_t -> Prop) id len fl l q bs c m :
  ahead m (bs ++ []) -> bs <> [] -> 0 <= q -> len = 20 + q + zlen bs -> len < 2 ^ 31 -> pos m + zlen bs = msg_length m -> flag (mkSMH id len fl l) 2 = true ->
  (forall m', framed m m' -> pos m' = msg_length m -> rwp (f (true, set_payload (mkSlice (pos m) (zlen bs)) c)) R m') ->
  rwp (rbind (data_payload (mkSMH id len fl l) RTPSMESSAGE_OCTETSTOINLINEQOS_DATASUBMSG q c) f) R m.
Proof.
  intros [Hp Hl Hs Hh] Hne Hq Hlen Hsm Hend Hfl Hf. assert (0 < zlen bs) by (destruct bs; [done|unfold zlen; simpl; lia]).
  apply rwp_bind. unfold data_payload. cbv zeta. cbn [submessageLength]. change RTPSMESSAGE_DATA_EXTRA_INLINEQOS_SIZE with 4.
  change RTPSMESSAGE_OCTETSTOINLINEQOS_DATASUBMSG with 16. rewrite (u32_small (4 + 16 + q)), (proj2 (Z.ltb_ge _ _)) by lia. apply rwp_bind, rwp_get.
  replace (len - (4 + 16 + q)) with (zlen bs) by lia. rewrite (u32_small (zlen bs)), u32_small by lia. rewrite Hend, Z.geb_leb, (proj2 (Z.leb_le _ _)) by lia.
  rewrite Z.gtb_ltb, (proj2 (Z.ltb_lt _ _)) by lia. cbn [andb]. rewrite Hfl. apply rwp_bind, rwp_ret, rwp_bind, rwp_put, rwp_ret. by apply Hf.
Qed.

(** A change as the receiver starts with it. *)
Definition new_change (prefix : GuidPrefix_t) (wid : EntityId_t) (sn : SequenceNumber_t) : CacheChange_t :=
  mkCC ALIVE (mkGUID prefix wid) (replicate 16 0, false) sn None None (0, 0) c_VendorId_eProsima None 0 0.

Lemma with_qos_received prefix ts ch topicKind expects buf q p : sendable ch topicKind ->
  match p with
  | Some s => has_data ch = true /\ s_length s = zlen (padded (sc_payload ch)) /\ mread buf (s_pos s) (s_length s) = Some (padded (sc_payload ch))
  | None => has_data ch = false
  end ->
  received_as prefix ts ch topicKind expects buf
    (let c := with_qos ch topicKind expects (new_change prefix (entityId (sc_writer ch)) (sc_seq ch)) in
     let c := if has_qos ch topicKind expects then set_inline_qos q c else c in
     set_timestamp ts (match p with Some s => set_payload s c | None => c end)).
Proof.
  intros Hs Hp. assert (Hk : sends_key ch topicKind expects = false -> sc_kind ch = ALIVE).
  { intros Ek. destruct (decide (sc_kind ch = ALIVE)) as [|Hne]; [done|]. by rewrite (sends_key_not_alive ch topicKind expects Hs Hne) in Ek. }
  assert (Hd : if has_data ch then exists a, p = Some (mkSlice a (zlen (padded (sc_payload ch)))) /\ mread buf a (zlen (padded (sc_payload ch))) = Some (padded (sc_payload ch))
          else p = None).
  { destruct p as [[a n]|]; [destruct Hp as (-> & Hn & Hm); cbn [s_pos s_length] in *; subst n; by exists a|by rewrite Hp]. }
  unfold received_as, with_qos. cbv zeta. destruct (has_data ch); [destruct Hd as (a & -> & Hm)|subst p];
    destruct (has_qos ch topicKind expects), (has_related ch), (sends_key ch topicKind expects); simpl; try case_bool_decide as Ek; simpl;
    repeat split; try done; try (by rewrite Hk); try (destruct (sc_kind ch); [done|by exfalso; apply Ek|by exfalso; apply Ek|by exfalso; apply Ek]); by exists a.
Qed.

Lemma data_body_size ch topicKind rid expects : change_sized ch -> zlen rid = 4 -> sendable ch topicKind -> 24 <= zlen (data_body ch topicKind rid expects).
Proof.
  intros Hc Hr Hs. destruct (data_body_parts ch topicKind rid expects Hc Hr) as (-> & _ & _). pose proof (zlen_data_fields 0 ch rid Hc Hr) as Hd. simpl in Hd.
  pose proof (zlen_nonneg (qos_wire ch topicKind expects)). rewrite !zlen_app, Hd, (has_data_alive ch topicKind Hs). case_bool_decide as Ek.
  - assert (0 < zlen (sc_payload ch)) by (unfold sendable in Hs; rewrite Ek in Hs; destruct (sc_payload ch); [done|unfold zlen; simpl; lia]).
    rewrite zlen_padded. Z.to_euclidean_division_equations; lia.
  - change (zlen []) with 0. unfold qos_wire, has_qos. rewrite (sends_key_not_alive ch topicKind expects Hs Ek). simpl.
    pose proof (zlen_params_wire _ (proj1 (qos_params_ok ch topicKind expects Hc))). lia.
Qed.

Lemma data_read fuel rc id l ch topicKind rid expects w m (R : World -> Prop) :
  let body := data_body ch topicKind rid expects in
  ahead m (body ++ []) -> pos m + zlen body = msg_length m -> change_sized ch -> zlen rid = 4 -> sendable ch topicKind -> number_given (sc_seq ch) ->
  sn_ok (sc_related ch).2 -> (5 <= fuel)%nat -> willAReaderAcceptMsgDirectedTo rc rid = true -> source_vendor_id_ rc = c_VendorId_eProsima -> have_timestamp_ rc = true ->
  (forall c, received_as (source_guid_prefix_ rc) (timestamp_ rc) ch topicKind expects (buffer m) c ->
     exists w1, R w1 /\ findAllReaders rc rid (fun r => process_data_msg r (buffer m) c) w = Some w1) ->
  rwp (proc_Submsg_Data fuel rc (mkSMH id (zlen body) (data_flags ch topicKind expects) l) w)
    (fun p m' => framed m m' /\ pos m' = msg_length m /\ p.1.1 = true /\ R p.2) m.
Proof.
  cbv zeta. intros Ha Hend Hc Hr Hs Hseq Hrel Hfuel Hacc Hv Hts Hcall. assert (Hsmall : msg_length m < 2 ^ 31 /\ 0 <= pos m) by (destruct Ha; lia). destruct (data_body_parts ch topicKind rid expects Hc Hr) as (Eb & [kq Hkq] & [kb Hkb]).
  pose proof (zlen_data_fields 0 ch rid Hc Hr) as Hd. simpl in Hd. set (body := data_body ch topicKind rid expects) in *. pose proof (zlen_nonneg (qos_wire ch topicKind expects)) as Hq0.
  assert (Hlen : zlen body = 20 + zlen (qos_wire ch topicKind expects) + zlen (if has_data ch then padded (sc_payload ch) else [])) by (rewrite Eb, !zlen_app; lia).
  pose proof (data_body_size ch topicKind rid expects Hc Hr Hs : 24 <= zlen body) as Hmin.
  unfold proc_Submsg_Data. cbv zeta. cbn [submessageLength flags]. change RTPSMESSAGE_DATA_MIN_LENGTH with 24. rewrite (proj2 (Z.ltb_ge _ _)) by lia.
  unfold data_flags. destruct (flags_of_bits id (zlen body) l (has_qos ch topicKind expects) (has_data ch)) as [-> F2].
  assert (F3 : flag (mkSMH id (zlen body) (bits (has_qos ch topicKind expects) (has_data ch)) l) 3 = false).
  { unfold flag, bits, endian_flag. by destruct big_endian_target, (has_qos _ _ _), (has_data _). }
  rewrite F2, F3. cbn [andb orb]. rewrite orb_false_r.
  apply rwp_bind, rwp_put. rewrite default_endian_flags. set (m0 := mkMsg _ _ _ _ RTPS_DEFAULT_ENDIAN). apply (ahead_framed _ m0) in Ha; [|done|done].
  assert (He : msg_endian m0 = RTPS_DEFAULT_ENDIAN) by done. rewrite app_nil_r, Eb in Ha. unfold data_fields, field_wires in Ha. simpl in Ha. rewrite app_nil_r, <- !app_assoc in Ha.
  set (after := qos_wire ch topicKind expects ++ _) in Ha. pose proof Ha as [[Hp0 Hp1] Hl0 Hs0 _]. rewrite zlen_app, zlen_host in Hp1.
  apply rwp_bind, rwp_put. apply ahead_app in Ha as [_ Ha]. rewrite zlen_host in Ha. pose proof (zlen_nonneg after) as Haf.
  assert (Hrest : 0 <= zlen (host_bytes 2 RTPSMESSAGE_OCTETSTOINLINEQOS_DATASUBMSG ++ rid ++ entityId (sc_writer ch) ++ sn_wire (sc_seq ch) ++ after)) by apply zlen_nonneg.
  rewrite u32_small by lia. change (set_pos m0 (pos m0 + 2)) with (skip_bytes m0 (Z.of_nat 2)). set (m1 := skip_bytes m0 (Z.of_nat 2)) in *.
  eapply rwp_consume; [apply (consumes_i16 RTPSMESSAGE_OCTETSTOINLINEQOS_DATASUBMSG); by vm_compute|exact Ha|done|]. clear Ha. intros ? -> Ha.
  eapply rwp_consume; [by apply (consumes_entity rid)|exact Ha|done|]. clear Ha. intros ? -> Ha. rewrite Hacc. cbn [negb].
  eapply rwp_consume; [apply (consumes_entity (entityId (sc_writer ch))); apply Hc|exact Ha|done|]. clear Ha. intros ? -> Ha.
  eapply rwp_consume; [apply consumes_sn, Hseq|exact Ha|done|]. clear Ha. intros ? -> Ha. cbn [andb negb]. rewrite heartbeat_leb by done.
  rewrite (Z.gtb_ltb RTPSMESSAGE_OCTETSTOINLINEQOS_DATASUBMSG), Z.ltb_irrefl. cbn [andb]. apply rwp_bind, rwp_ret, rwp_bind, rwp_get.
  match type of Ha with ahead ?x _ => set (m2 := x) in * end.
  assert (Hp2 : pos m2 = pos m + 20).
  { unfold m2, m1. simpl. destruct Hc as [Hw _ _ _]. rewrite !zlen_host, Hr, Hw, zlen_sn_wire. change (pos m0) with (pos m). lia. }
  unfold after in Ha. rewrite Hv. fold (new_change (source_guid_prefix_ rc) (entityId (sc_writer ch)) (sc_seq ch)).
  eapply qos_wire_read; [exact Ha|done|done|done|done|done|]. clear Ha. intros m3 Ha (G1 & G2 & G3) He3 Hp3. cbn [negb]. apply rwp_bind, rwp_get. rewrite Hts.
  assert (Gm : framed m m3) by (by repeat split). set (q := (mkSlice _ _, _)).
  pose proof (with_qos_received (source_guid_prefix_ rc) (timestamp_ rc) ch topicKind expects (buffer m) q) as Hrec. cbv zeta in Hrec.
  destruct (has_data ch) eqn:Ed.
  - assert (Gl : msg_length m3 = msg_length m) by apply Gm. assert (Hne : padded (sc_payload ch) <> []).
    { intros En. apply (f_equal zlen) in En. rewrite zlen_padded in En. change (zlen []) with 0 in En. rewrite (has_data_alive ch topicKind Hs), bool_decide_eq_true in Ed.
      unfold sendable in Hs. rewrite Ed in Hs. destruct (sc_payload ch); [done|]. unfold zlen in En. simpl in En. pose proof (Z.mod_pos_bound (- Z.pos (Pos.of_succ_nat (length l0))) 4). lia. }
    pose proof (ahead_mread _ _ Ha) as Hm. rewrite G1 in Hm. rewrite <- (app_nil_r (padded _)) in Ha.
    eapply payload_read; [exact Ha|done|lia|done|lia|lia|exact F2|]. intros m4 (K1 & K2 & K3) Hp4. cbn [negb]. cbv zeta.
    destruct (Hcall _ (Hrec (Some (mkSlice (pos m3) (zlen (padded (sc_payload ch))))) Hs (conj eq_refl (conj eq_refl Hm)))) as (w1 & HR & Ew).
    replace (buffer m3) with (buffer m) by done. eapply rwp_check; [exact Ew|]. apply rwp_ret. split; [by repeat split; etrans|]. split; [congruence|done].
  - apply rwp_bind, rwp_ret. cbn [negb]. cbv zeta. destruct (Hcall _ (Hrec None Hs eq_refl)) as (w1 & HR & Ew).
    replace (buffer m3) with (buffer m) by done. eapply rwp_check; [exact Ew|]. apply rwp_ret. split; [done|]. split; [|done].
    change (zlen []) with 0 in Hlen. destruct Gm as (_ & Gl & _). simpl. lia.
Qed.

(** ** Whole messages *)

(** The memory of a receiver holds the [bs] that were sent. *)
Definition arrives (bs : list Z) (mr : CDRMessage_t) : Prop :=
  msg_length mr = zlen bs /\ msg_length mr <= msg_max_size mr <= zlen (buffer mr) /\ msg_max_size mr < 2 ^ 31 /\ holds (buffer mr) 0 bs.

(** The bytes of a message that was written. *)
Definition sent (m : CDRMessage_t) : list Z := take (Z.to_nat (msg_length m)) (buffer m).

(** A message to be written. *)
Definition fresh (m : CDRMessage_t) : Prop := filling m /\ pos m = 0.

Lemma sent_wire m bs m' : fresh m -> emits m bs m' -> filling m' -> sent m' = bs.
Proof.
  intros [(_ & Hl & _) Hp] (P1 & _ & _ & _ & _ & Hh & N1) _. unfold sent. rewrite Hp in *. rewrite N1, <- Hl.
  pose proof (zlen_nonneg bs). apply holds_mread in Hh. unfold mread in Hh. destruct (Z.eqb_spec (zlen bs) 0) as [E0|E0].
  { injection Hh as <-. done. }
  destruct (in_block _ _ _); [|done]. injection Hh as Hh. simpl in Hh. rewrite drop_0 in Hh. done.
Qed.

Lemma zlen_header_wire prefix : zlen prefix = 12 -> zlen (header_wire prefix) = 20.
Proof. intros Hl. unfold header_wire. rewrite zlen_app, Hl. cbn [fmap list_fmap concat]. by rewrite !zlen_app, !zlen_host. Qed.

Lemma process_from_peer own prefix rc w mr rest (R : World -> Prop) :
  arrives (header_wire prefix ++ rest) mr -> zlen prefix = 12 -> 16 <= zlen rest -> is_participant_ignored prefix w = false ->
  (forall fuel qos_fuel m1, (4 <= fuel)%nat -> (5 <= qos_fuel)%nat -> ahead m1 rest -> pos m1 + zlen rest = msg_length m1 ->
     rwp (submessage_loop fuel qos_fuel own (from_peer rc own prefix) false w)
       (fun r _ => r.1.1 = true /\ source_guid_prefix_ r.1.2 = prefix /\ R r.2) m1) ->
  exists rc' w' m', process own rc w mr = Some (rc', assert_remote_participant_liveliness prefix w', m') /\ R w'.
Proof.
  intros (Hl & Hm & Hs & Hh) Hlen Hrest Hig Hloop. unfold process. set (fuel := S _).
  pose proof (zlen_header_wire prefix Hlen) as Hz.
  rewrite zlen_app, Hz in Hl.
  assert (Hfuel : (5 <= fuel)%nat).
  { unfold fuel. pose proof (Z.div_mod (msg_length mr + 3) 4 ltac:(lia)). pose proof (Z.mod_pos_bound (msg_length mr + 3) 4 ltac:(lia)). lia. }
  clearbody fuel.
  cut (rwp (processCDRMsg fuel fuel own rc w) (fun r _ => exists w', r.2 = assert_remote_participant_liveliness prefix w' /\ R w') mr).
  { unfold rwp. destruct (processCDRMsg _ _ _ _ _ mr) as [[[rc' w'] m']|]; [|done]. simpl. intros (w2 & -> & HR). eauto 10. }
  unfold processCDRMsg. apply rwp_bind, rwp_get. unfold RTPSMESSAGE_HEADER_SIZE. rewrite (proj2 (Z.ltb_ge _ _)) by lia. cbv zeta.
  apply rwp_bind, rwp_put, rwp_bind.
  apply (header_read rc own prefix _ rest); [split; simpl; rewrite ?zlen_app, ?Hz; [lia|lia|lia|done]|done|done|].
  intros m1 Ha1 (_ & F2 & _) Hp1. cbn [negb]. change (source_guid_prefix_ (from_peer rc own prefix)) with prefix. rewrite Hig.
  apply rwp_bind. eapply rwp_mono; [apply Hloop; [lia|done|done|]|].
  - rewrite F2, Hp1. simpl. lia.
  - intros [[v rc2] w2] m2 (Hv & Hsrc & HR). simpl in Hv, Hsrc, HR. subst v. apply rwp_ret. exists w2. by rewrite Hsrc.
Qed.

(** The kind of a submessage decides the branch. *)
Ltac route :=
  unfold proc_Submsg; cbn [submessageId andb]; cbv zeta;
  repeat match goal with
    |- context [?x =? ?y] => let b := eval vm_compute in (x =? y) in change (x =? y) with b; cbv iota
  end.

(** INFO_DST first, as writers and readers do. *)
Lemma info_dst_round fuel qos_fuel own rc w m rest (R : bool * MessageReceiver * World -> CDRMessage_t -> Prop) :
  ahead m (submessage_wire INFO_DST (bits false false) own ++ rest) -> zlen own = 12 -> own <> c_GuidPrefix_Unknown ->
  pos m + (16 + zlen rest) = msg_length m ->
  (forall m', ahead m' rest -> pos m' + zlen rest = msg_length m' ->
     rwp (submessage_loop fuel qos_fuel own (set_dest rc own) false w) R m') ->
  rwp (submessage_loop (S fuel) qos_fuel own rc false w) R m.
Proof.
  intros Ha Hl Hne Hend HR. apply (loop_round _ _ _ _ _ _ _ INFO_DST false false own rest); [done|done|lia|exists 3; lia|].
  intros m1 Ha1 Hf1 Hp1 He1. route.
  apply rwp_bind. eapply rwp_mono; [by eapply info_dst_read|]. intros p m2 [Hf2 ->]. apply rwp_ret. split; [done|]. split; [done|].
  intros m3 Ha3 (_ & F2 & _) Hp3. apply HR; [done|]. simpl in *. lia.
Qed.

Lemma info_ts_round fuel qos_fuel own rc w m rest s f (R : bool * MessageReceiver * World -> CDRMessage_t -> Prop) :
  ahead m (submessage_wire INFO_TS (bits false false) (host_bytes 4 s ++ host_bytes 4 f) ++ rest) ->
  - 2 ^ 31 <= s < 2 ^ 31 -> 0 <= f < 2 ^ 32 -> pos m + (12 + zlen rest) = msg_length m ->
  (forall m', ahead m' rest -> pos m' + zlen rest = msg_length m' ->
     rwp (submessage_loop fuel qos_fuel own (set_time rc true (s, f)) false w) R m') ->
  rwp (submessage_loop (S fuel) qos_fuel own rc false w) R m.
Proof.
  intros Ha Hs Hf Hend HR. assert (Hz : zlen (host_bytes 4 s ++ host_bytes 4 f) = 8) by (rewrite zlen_app, !zlen_host; done).
  eapply loop_round; [exact Ha|done|lia|exists 2; lia|]. intros m1 Ha1 Hf1 Hp1 He1. route.
  apply rwp_bind. eapply rwp_mono; [by eapply info_ts_read|]. intros p m2 [Hf2 ->]. apply rwp_ret. split; [done|]. split; [done|].
  intros m3 Ha3 (_ & F2 & _) Hp3. apply HR; [done|]. simpl in *. lia.
Qed.

Definition peer_message (prefix own : GuidPrefix_t) (w : World) : Prop :=
  zlen prefix = 12 /\ zlen own = 12 /\ own <> c_GuidPrefix_Unknown /\ is_participant_ignored prefix w = false.

Lemma write_to_peer m prefix own : fresh m -> zlen prefix = 12 -> zlen own = 12 -> 36 < msg_max_size m ->
  exists m', (msg ← new_header m prefix; addSubmessageInfoDST msg own) = Some m' /\ filling m' /\
    emits m (header_wire prefix ++ submessage_wire INFO_DST (bits false false) own) m' /\ pos m' = 36.
Proof.
  intros [Hf Hp] Hlp Hlo Hmax. destruct (new_header_spec m prefix Hf Hlp) as (m1 & E1 & Hf1 & Hem1); [lia|]. rewrite E1. simpl.
  pose proof Hem1 as (P1 & _ & X1 & _). pose proof (zlen_header_wire prefix Hlp) as Hz.
  destruct (info_dst_spec m1 own Hf1 Hlo) as (m2 & E2 & Hf2 & Hem2); [lia|]. exists m2. split; [done|]. split; [done|].
  split; [by eapply emits_trans|]. pose proof Hem2 as (P2 & _). rewrite zlen_submessage_wire in P2. lia.
Qed.

Lemma zlen_heartbeat_body rid wid first last count : zlen rid = 4 -> zlen wid = 4 -> zlen (heartbeat_body rid wid first last count) = 28.
Proof. intros Hr Hw. unfold heartbeat_body. rewrite !zlen_app, !zlen_sn_wire, zlen_host. lia. Qed.

Lemma zlen_acknack_body rid wid set count : zlen rid = 4 -> zlen wid = 4 -> range_wf set ->
  zlen (acknack_body rid wid set count) = 24 + 4 * n_longs set.
Proof. intros Hr Hw W. unfold acknack_body. rewrite !zlen_app, zlen_set_wire, zlen_host by done. lia. Qed.

Lemma zlen_gap_body rid wid start set : zlen rid = 4 -> zlen wid = 4 -> range_wf set ->
  zlen (gap_body rid wid start set) = 28 + 4 * n_longs set.
Proof. intros Hr Hw W. unfold gap_body. rewrite !zlen_app, zlen_set_wire, zlen_sn_wire by done. lia. Qed.

Lemma with_length_filling m : filling m -> with_length m = m.
Proof. intros (_ & Hl & _). unfold with_length. rewrite Hl at 2. by destruct m. Qed.

(** What comes before the last submessage of a message to a peer: INFO_DST, and
    INFO_TS for some. *)
Definition preamble (own : GuidPrefix_t) (ts : option (Z * Z)) : list Z :=
  submessage_wire INFO_DST (bits false false) own ++
  match ts with Some t => submessage_wire INFO_TS (bits false false) (host_bytes 4 t.1 ++ host_bytes 4 t.2) | None => [] end.

Definition time_ok (ts : option (Z * Z)) : Prop := optional (fun t => - 2 ^ 31 <= t.1 < 2 ^ 31 /\ 0 <= t.2 < 2 ^ 32) ts.

Definition after_preamble (rc : MessageReceiver) (own prefix : GuidPrefix_t) (ts : option (Z * Z)) : MessageReceiver :=
  let rc := set_dest (from_peer rc own prefix) own in
  match ts with Some t => set_time rc true t | None => rc end.

(** The last submessage of a message from a peer. *)
Lemma peer_message_arrives own prefix rc w mr ts id b1 b2 body (R : World -> Prop) :
  peer_message prefix own w -> time_ok ts -> 0 <= id < 256 -> 0 < zlen body < 2 ^ 16 -> (4 | zlen body) ->
  arrives (header_wire prefix ++ preamble own ts ++ submessage_wire id (bits b1 b2) body) mr ->
  (forall qos_fuel m, ahead m (body ++ []) ->
     rwp (proc_Submsg qos_fuel own (after_preamble rc own prefix ts) (mkSMH id (zlen body) (bits b1 b2) false) false w)
       (fun r m' => framed m m' /\ r.1.1.1 = true /\ source_guid_prefix_ r.1.2 = prefix /\ R r.2) m) ->
  exists rc' w' m', process own rc w mr = Some (rc', assert_remote_participant_liveliness prefix w', m') /\ R w'.
Proof.
  intros (Hlp & Hlo & Hne & Hig) Hts Hid Hlen Hdiv Harr Hproc. unfold preamble in Harr. rewrite <- app_assoc in Harr.
  eapply process_from_peer; [exact Harr|done| |done|].
  { rewrite zlen_app, zlen_submessage_wire. match goal with |- context [zlen (?x ++ ?y)] => pose proof (zlen_nonneg (x ++ y)) end. lia. }
  intros fuel qos_fuel m1 Hfuel _ Ha1 Hend. rewrite zlen_app, zlen_submessage_wire in Hend.
  destruct fuel as [|[|[|fuel]]]; [lia|lia|lia|]. apply (info_dst_round _ _ _ _ _ _ _ _ Ha1); [done|done|lia|].
  intros m2 Ha2 Hend2.
  assert (Hlast : forall f m, ahead m (submessage_wire id (bits b1 b2) body) -> pos m + zlen (submessage_wire id (bits b1 b2) body) = msg_length m ->
    rwp (submessage_loop (S f) qos_fuel own (after_preamble rc own prefix ts) false w)
      (fun r _ => r.1.1 = true /\ source_guid_prefix_ r.1.2 = prefix /\ R r.2) m).
  { intros f m Ha He. rewrite <- (app_nil_r (submessage_wire id _ _)) in Ha. rewrite zlen_submessage_wire in He.
    eapply loop_round; [exact Ha|done|done|done|]. intros m3 Ha3 Hf3 Hp3 _. eapply rwp_mono; [by apply Hproc|].
    intros [[[v ig] rc'] w'] m4 (Hf4 & Hv & Hsrc & HR). split; [done|]. split; [done|]. intros m5 _ (_ & F2 & _) Hp5.
    apply loop_end; [lia|done]. }
  destruct ts as [[s f]|]; [|by apply Hlast]. destruct Hts as [Ht1 Ht2]. rewrite zlen_app, zlen_submessage_wire in Hend2.
  rewrite zlen_app, !zlen_host in Hend2. eapply info_ts_round; [exact Ha2|done|done|cbn [fst snd] in *; lia|]. intros m3 Ha3 Hend3. by apply Hlast.
Qed.

(** C35: a heartbeat written by a writer's participant reaches the readers it is
    for, in the participant it is for, with the same range, count and flags. *)
Theorem heartbeat_arrives m prefix own rid wid first last count final live rc w w1 :
  fresh m -> 68 < msg_max_size m -> peer_message prefix own w -> zlen rid = 4 -> zlen wid = 4 ->
  number_given first -> sn_ok last -> sn_val first - 1 <= sn_val last -> 0 <= count < 2 ^ 32 ->
  findAllReaders rc rid (fun r => process_heartbeat_msg r (mkGUID prefix wid) count first last final live c_VendorId_eProsima) w = Some w1 ->
  exists m', addMessageHeartbeat m prefix (Some own) rid wid first last count final live = Some m' /\
    forall mr, arrives (sent m') mr ->
      exists rc' mr', process own rc w mr = Some (rc', assert_remote_participant_liveliness prefix w1, mr').
Proof.
  intros Hfr Hmax Hpeer Hr Hw Hfirst Hlast Hrange Hc Hcall. pose proof Hpeer as (Hlp & Hlo & _).
  destruct (write_to_peer m prefix own Hfr Hlp Hlo) as (m1 & E1 & Hf1 & Hem1 & Hp1); [lia|].
  pose proof Hem1 as (_ & _ & X1 & _). pose proof (zlen_heartbeat_body rid wid first last count Hr Hw) as Hb.
  destruct (add_submessage_spec m1 HEARTBEAT (bits final live)
    [fun m => addEntityId m rid; fun m => addEntityId m wid; fun m => addSequenceNumber m first;
     fun m => addSequenceNumber m last; fun m => addInt32 m (i32 count)]
    [rid; wid; sn_wire first; sn_wire last; host_bytes 4 (i32 count)] Hf1) as (m2 & E2 & Hf2 & Hem2).
  { repeat constructor; [by apply writes_entity|by apply writes_entity|apply writes_sn|apply writes_sn|apply (writes_primitive 4); lia]. }
  all: cbn [concat] in *; rewrite ?app_nil_r in *; fold (heartbeat_body rid wid first last count) in *.
  1,2: lia.
  exists m2. unfold addMessageHeartbeat. destruct (new_header m prefix) as [m0|]; [|done]. cbn [mbind option_bind] in *. rewrite E1. cbn [mbind option_bind].
  unfold addSubmessageHeartbeat. rewrite E2. cbn [mbind option_bind]. rewrite with_length_filling by done. split; [done|]. intros mr Harr.
  rewrite (sent_wire m _ m2 Hfr (emits_trans _ _ _ _ _ Hem1 Hem2) Hf2) in Harr.
  destruct (peer_message_arrives own prefix rc w mr None HEARTBEAT final live (heartbeat_body rid wid first last count) (fun w' => w' = w1))
    as (rc' & w' & mr' & Ep & ->); [done|done|done|lia|exists 7; lia| | |by eauto].
  { unfold preamble. by rewrite app_nil_r, app_assoc. }
  intros qf m3 Ha3. route.
  rewrite bool_decide_eq_true_2 by done. apply rwp_bind.
  eapply rwp_mono; [eapply heartbeat_read with (rc := after_preamble rc own prefix None); try done; exact Hcall|].
  intros p m4 [Hf4 ->]. apply rwp_ret. done.
Qed.

(** An acknowledgement written by a reader's participant reaches the writer it is
    for with the same count and flag, and with a set of the same base and the
    same numbers. *)
Theorem acknack_arrives m prefix own rid wid set count final rc w (R : World -> Prop) :
  fresh m -> 104 < msg_max_size m -> peer_message prefix own w -> zlen rid = 4 -> zlen wid = 4 ->
  range_wf set -> - 2 ^ 31 <= count < 2 ^ 31 ->
  (forall set', same_set set set' -> exists w1, R w1 /\
     offer_writers (associated_writers_ rc) (fun x => process_acknack x (mkGUID own wid) (mkGUID prefix rid) (u32 count) set' final
       c_VendorId_eProsima) w = Some (true, w1)) ->
  exists m', addMessageAcknack m prefix own rid wid set count final = Some m' /\
    forall mr, arrives (sent m') mr ->
      exists rc' w1 mr', process own rc w mr = Some (rc', assert_remote_participant_liveliness prefix w1, mr') /\ R w1.
Proof.
  intros Hfr Hmax Hpeer Hr Hw W Hc Hcall. pose proof Hpeer as (Hlp & Hlo & _).
  destruct (write_to_peer m prefix own Hfr Hlp Hlo) as (m1 & E1 & Hf1 & Hem1 & Hp1); [lia|].
  pose proof Hem1 as (_ & _ & X1 & _). pose proof (zlen_acknack_body rid wid set count Hr Hw W) as Hb. destruct (zlen_set_words set W) as (_ & Hn & _).
  destruct (add_submessage_spec m1 ACKNACK (bits final false)
    [fun m => addEntityId m rid; fun m => addEntityId m wid; fun m => addSequenceNumberSet m set; fun m => addInt32 m count]
    [rid; wid; set_wire set; host_bytes 4 count] Hf1) as (m2 & E2 & Hf2 & Hem2).
  { repeat constructor; [by apply writes_entity|by apply writes_entity|by apply writes_set|apply (writes_primitive 4); lia]. }
  all: cbn [concat] in *; rewrite ?app_nil_r in *; fold (acknack_body rid wid set count) in *.
  1,2: lia.
  exists m2. unfold addMessageAcknack. destruct (new_header m prefix) as [m0|]; [|done]. cbn [mbind option_bind] in *. rewrite E1. cbn [mbind option_bind].
  unfold addSubmessageAcknack. rewrite E2. cbn [mbind option_bind]. rewrite with_length_filling by done. split; [done|]. intros mr Harr.
  rewrite (sent_wire m _ m2 Hfr (emits_trans _ _ _ _ _ Hem1 Hem2) Hf2) in Harr.
  eapply (peer_message_arrives own prefix rc w mr None ACKNACK final false (acknack_body rid wid set count));
    [done|done|done|lia|exists (6 + n_longs set); lia| |].
  { unfold preamble. by rewrite app_nil_r, app_assoc. }
  intros qf m3 Ha3. route. rewrite bool_decide_eq_true_2 by done. apply rwp_bind.
  eapply rwp_mono; [apply acknack_read with (rc := after_preamble rc own prefix None) (1 := Ha3) (R := fun p => p.1 = true /\ R p.2); try done|].
  - intros set' Hs. destruct (Hcall set' Hs) as (w1 & HR & Ew). by exists (true, w1).
  - intros [v w'] m4 (Hf4 & Hv & HR). simpl in *. subst v. by apply rwp_ret.
Qed.

(** A gap written by a writer's participant reaches the readers it is for with
    the same start, and with a set of the same base and the same numbers. *)
Theorem gap_arrives m prefix own s f rid wid start set rc w (R : World -> Prop) :
  fresh m -> 120 < msg_max_size m -> peer_message prefix own w -> zlen rid = 4 -> zlen wid = 4 ->
  - 2 ^ 31 <= s < 2 ^ 31 -> 0 <= f < 2 ^ 32 -> range_wf set -> number_given start ->
  (forall set', same_set set set' -> exists w1, R w1 /\
     findAllReaders rc rid (fun r => process_gap_msg r (mkGUID prefix wid) start set' c_VendorId_eProsima) w = Some w1) ->
  exists m', addMessageGap m prefix own s f start set rid wid = Some m' /\
    forall mr, arrives (sent m') mr ->
      exists rc' w1 mr', process own rc w mr = Some (rc', assert_remote_participant_liveliness prefix w1, mr') /\ R w1.
Proof.
  intros Hfr Hmax Hpeer Hr Hw Hs Hf W Hstart Hcall. pose proof Hpeer as (Hlp & Hlo & _).
  destruct (write_to_peer m prefix own Hfr Hlp Hlo) as (m1 & E1 & Hf1 & Hem1 & Hp1); [lia|].
  pose proof Hem1 as (_ & _ & X1 & _). destruct (info_ts_spec m1 s f Hf1) as (m2 & E2 & Hf2 & Hem2); [lia|].
  pose proof Hem2 as (P2 & _ & X2 & _). rewrite zlen_submessage_wire, zlen_app, !zlen_host in P2.
  pose proof (zlen_gap_body rid wid start set Hr Hw W) as Hb. destruct (zlen_set_words set W) as (_ & Hn & _).
  destruct (add_submessage_spec m2 GAP (bits false false)
    [fun m => addEntityId m rid; fun m => addEntityId m wid; fun m => addSequenceNumber m start; fun m => addSequenceNumberSet m set]
    [rid; wid; sn_wire start; set_wire set] Hf2) as (m3 & E3 & Hf3 & Hem3).
  { repeat constructor; [by apply writes_entity|by apply writes_entity|apply writes_sn|by apply writes_set]. }
  all: cbn [concat] in *; rewrite ?app_nil_r in *; fold (gap_body rid wid start set) in *.
  1,2: lia.
  exists m3. unfold addMessageGap. destruct (new_header m prefix) as [m0|]; [|done]. cbn [mbind option_bind] in *. rewrite E1. cbn [mbind option_bind].
  rewrite E2. cbn [mbind option_bind]. unfold addSubmessageGap. split; [done|]. intros mr Harr.
  rewrite (sent_wire m _ m3 Hfr (emits_trans _ _ _ _ _ (emits_trans _ _ _ _ _ Hem1 Hem2) Hem3) Hf3) in Harr.
  eapply (peer_message_arrives own prefix rc w mr (Some (s, f)) GAP false false (gap_body rid wid start set));
    [done|done|done|lia|exists (7 + n_longs set); lia| |].
  { unfold preamble. by rewrite !app_assoc in *. }
  intros qf m4 Ha4. route. rewrite bool_decide_eq_true_2 by done. apply rwp_bind.
  eapply rwp_mono; [apply gap_read with (rc := after_preamble rc own prefix (Some (s, f))) (1 := Ha4) (R := R); done|].
  intros [v w'] m5 (Hf5 & Hv & HR). simpl in *. subst v. by apply rwp_ret.
Qed.


End Roundtrip.

(** ** Examples *)

Definition blank : CDRMessage_t := mkMsg (replicate 200 0) 0 200 0 LITTLEEND.

Lemma blank_fresh : @fresh host blank.
Proof. split; [split; [split; simpl; unfold zlen; simpl; lia|done]|done]. Qed.

(** A participant with reader 7 and writer 0. *)
Definition both_ends : @MessageReceiver logging := @associate_writer logging one_reader 0.

Definition some_set : SNSet := range_new (SequenceNumber_of 3).

Lemma some_set_wf : range_wf some_set.
Proof. apply (range_of_spec (SequenceNumber_of 3) 255); [apply sn_of_val; lia|by vm_compute|lia]. Qed.

Lemma peers : @peer_message logging peer own [].
Proof. by repeat split. Qed.

Lemma heartbeat_arrives_witness :
  exists m', @addMessageHeartbeat host blank peer (Some own) [0; 0; 1; 4] [0; 0; 2; 3] (mkSN 0 1) (mkSN 0 5) 3 true false = Some m' /\
    forall mr, arrives (sent m') mr ->
      exists rc' mr', @process host logging own both_ends [] mr =
        Some (rc', [CallHeartbeat 7 (mkGUID peer [0; 0; 2; 3]) 3 (mkSN 0 1) (mkSN 0 5) true false; CallLiveliness peer], mr').
Proof.
  apply (@heartbeat_arrives host logging blank peer own [0; 0; 1; 4] [0; 0; 2; 3] (mkSN 0 1) (mkSN 0 5) 3 true false both_ends []
           [CallHeartbeat 7 (mkGUID peer [0; 0; 2; 3]) 3 (mkSN 0 1) (mkSN 0 5) true false]);
    [exact blank_fresh|done|exact peers|done|done|done|done|by vm_compute|lia|vm_compute; reflexivity].
Defined.

Lemma acknack_arrives_witness :
  exists m', @addMessageAcknack host blank peer own [0; 0; 1; 4] [0; 0; 2; 3] some_set 4 false = Some m' /\
    forall mr, arrives (sent m') mr ->
      exists rc' w1 mr', @process host logging own both_ends [] mr = Some (rc', w1 ++ [CallLiveliness peer], mr') /\
        exists set', same_set some_set set' /\ w1 = [CallAcknack 0 (mkGUID own [0; 0; 2; 3]) (mkGUID peer [0; 0; 1; 4]) 4 set' false].
Proof.
  apply (@acknack_arrives host logging blank peer own [0; 0; 1; 4] [0; 0; 2; 3] some_set 4 false both_ends []
    (fun w1 => exists set', same_set some_set set' /\ w1 = [CallAcknack 0 (mkGUID own [0; 0; 2; 3]) (mkGUID peer [0; 0; 1; 4]) 4 set' false]));
    [exact blank_fresh|done|exact peers|done|done|exact some_set_wf|lia|].
  intros set' Hs. eexists. split; [by exists set'|]. reflexivity.
Defined.

Lemma gap_arrives_witness :
  exists m', @addMessageGap host blank peer own 0 0 (mkSN 0 1) some_set [0; 0; 1; 4] [0; 0; 2; 3] = Some m' /\
    forall mr, arrives (sent m') mr ->
      exists rc' w1 mr', @process host logging own both_ends [] mr = Some (rc', w1 ++ [CallLiveliness peer], mr') /\
        exists set', same_set some_set set' /\ w1 = [CallGap 7 (mkGUID peer [0; 0; 2; 3]) (mkSN 0 1) set'].
Proof.
  apply (@gap_arrives host logging blank peer own 0 0 [0; 0; 1; 4] [0; 0; 2; 3] (mkSN 0 1) some_set both_ends []
    (fun w1 => exists set', same_set some_set set' /\ w1 = [CallGap 7 (mkGUID peer [0; 0; 2; 3]) (mkSN 0 1) set']));
    [exact blank_fresh|done|exact peers|done|done|lia|lia|exact some_set_wf|by vm_compute|].
  intros set' Hs. eexists. split; [by exists set'|]. vm_compute. reflexivity.
Defined.

(** A sample of reader 7's topic, with its key and a payload of five bytes. *)
Definition a_sample : SentChange :=
  mkSent ALIVE (mkGUID peer [0; 0; 2; 3]) (replicate 16 7) (mkSN 0 2) [1; 2; 3; 4; 5] (mkGUID (replicate 12 0) (replicate 4 0), mkSN 0 0) 0 0.

