(* ===== verification/GapBuilder.v ===== *)
(** * Gaps

    Models [Fast-DDS/src/cpp/rtps/messages/RTPSGapBuilder.cpp]: sequence numbers
    that a writer will not send are gathered into GAP messages, each a contiguous
    range followed by a bitmap.  The message group that takes the messages is the
    interface [GapSink].  The theorem says that the messages declare exactly the
    numbers that were added. *)

From Stdlib Require Import Sorted.
From S2P Require Import Prelude SequenceNumber BitmapRange.

(** [RTPSMessageGroup::add_gap]: false when the message could not be added. *)
Class GapSink (G : Type) := add_gap : SequenceNumber_t -> BitmapRange SequenceNumber_t -> G -> bool * G.

Record RTPSGapBuilder := mkGapBuilder {
  is_gap_pending_ : bool;
  initial_sequence_ : SequenceNumber_t;
  gap_bitmap_ : BitmapRange SequenceNumber_t
}.

Definition RTPSGapBuilder_new : RTPSGapBuilder := mkGapBuilder false (mkSN 0 0) range_default.

Section GapBuilder.
Context {G : Type} `{S : GapSink G}.
Implicit Types (b : RTPSGapBuilder) (g : G).

Definition flush b g : bool * RTPSGapBuilder * G :=
  if is_gap_pending_ b then
    let '(ok, g) := add_gap (initial_sequence_ b) (gap_bitmap_ b) g in
    if ok then (true, mkGapBuilder false (initial_sequence_ b) (gap_bitmap_ b), g) else (false, b, g)
  else (true, b, g).

(** A pending gap of one number. *)
Definition gap_of (r : BitmapRange SequenceNumber_t) (x : SequenceNumber_t) : RTPSGapBuilder :=
  mkGapBuilder true x (range_set_base r (sn_add x 1)).

Definition gap_add b g (gap_sequence : SequenceNumber_t) : option (bool * RTPSGapBuilder * G) :=
  if negb (is_gap_pending_ b) then Some (true, gap_of (gap_bitmap_ b) gap_sequence, g)
  else if sn_eqb gap_sequence (base_ (gap_bitmap_ b)) then
    Some (true, mkGapBuilder true (initial_sequence_ b) (range_set_base (gap_bitmap_ b) (sn_add gap_sequence 1)), g)
  else
    '(added, bitmap) ← range_add (gap_bitmap_ b) gap_sequence;
    if added : bool then Some (true, mkGapBuilder true (initial_sequence_ b) bitmap, g)
    else
      let '(ret_val, b, g) := flush (mkGapBuilder true (initial_sequence_ b) bitmap) g in
      Some (ret_val, gap_of (gap_bitmap_ b) gap_sequence, g).

Fixpoint gap_add_all b g (xs : list SequenceNumber_t) : option (bool * RTPSGapBuilder * G) :=
  match xs with
  | [] => Some (true, b, g)
  | x :: xs =>
      '(ok, b, g) ← gap_add b g x;
      '(oks, b, g) ← gap_add_all b g xs;
      Some (ok && oks, b, g)
  end.

(** The numbers in increasing order, then the destructor. *)
Definition build_gaps g (xs : list SequenceNumber_t) : option (bool * G) :=
  '(ok, b, g) ← gap_add_all RTPSGapBuilder_new g xs;
  let '(okf, _, g) := flush b g in
  Some (ok && okf, g).

End GapBuilder.

(** ** The messages *)

Definition GapMsg : Type := SequenceNumber_t * BitmapRange SequenceNumber_t.

(** The numbers a GAP message declares. *)
Definition declares (gap : GapMsg) (n : Z) : Prop :=
  sn_val gap.1 <= n < sn_val (base_ gap.2) \/ has gap.2 n = true.

Definition gap_ok (gap : GapMsg) : Prop := sn_valid gap.1 /\ 0 < sn_val gap.1 /\ sn_val gap.1 < sn_val (base_ gap.2) /\ range_wf gap.2.

(** A group that takes every message. *)
#[export] Instance gap_log : GapSink (list GapMsg) := fun start set log => (true, log ++ [(start, set)]).

Definition sendable (x : SequenceNumber_t) : Prop := sn_valid x /\ 0 < sn_val x /\ sn_val x + 257 < 2 ^ 63.

(** [done] is what has been added so far, up to [last]. *)
Record gap_inv (b : RTPSGapBuilder) (log : list GapMsg) (added : list Z) (last : Z) : Prop := mkGapInv {
  gi_log : Forall gap_ok log;
  gi_pending : is_gap_pending_ b = true -> gap_ok (initial_sequence_ b, gap_bitmap_ b) /\ sn_val (base_ (gap_bitmap_ b)) <= last + 1;
  gi_added : forall n, n ∈ added <->
    Exists (fun gap => declares gap n) log \/ (is_gap_pending_ b = true /\ declares (initial_sequence_ b, gap_bitmap_ b) n);
  gi_last : forall n, n ∈ added -> n <= last
}.

Lemma gap_of_ok r x : sendable x -> gap_ok (x, range_set_base r (sn_add x 1)) /\
  sn_val (sn_add x 1) = sn_val x + 1 /\
  (forall n, declares (x, range_set_base r (sn_add x 1)) n <-> n = sn_val x) /\
  (forall n, has (range_set_base r (sn_add x 1)) n = false) /\ range_wf (range_set_base r (sn_add x 1)).
Proof.
  intros (Hv & Hp & Hl). destruct (sn_add_val x 1 Hv) as [Hv1 E1]; [lia|lia|].
  destruct (range_of_spec (sn_add x 1) 255) as (W & Hh & _); [done|simpl; lia|lia|].
  change (range_of (sn_add x 1) 255) with (range_set_base r (sn_add x 1)) in *.
  split; [|split; [done|split; [|done]]].
  - split; [done|]. split; [done|]. split; [simpl; lia|done].
  - intros n. unfold declares. cbn [fst snd]. rewrite Hh. simpl. rewrite E1. split; [intros [?|?]; [lia|done]|intros ->; left; lia].
Qed.

Lemma gap_add_spec b log added last x :
  gap_inv b log added last -> sendable x -> last < sn_val x ->
  exists b' log', gap_add b log x = Some (true, b', log') /\ gap_inv b' log' (sn_val x :: added) (sn_val x) /\ is_gap_pending_ b' = true.
Proof.
  intros [Hlog Hpend Hadd Hlast] Hx Hlt. unfold gap_add. destruct (is_gap_pending_ b) eqn:Ep; cbn [negb].
  2:{ destruct (gap_of_ok (gap_bitmap_ b) x Hx) as (Hok & Eb & Hd & _). eexists _, log. split; [done|]. split; [|done]. split; simpl.
      - done.
      - intros _. split; [done|]. rewrite Eb. lia.
      - intros n. rewrite elem_of_cons, Hadd, Hd. naive_solver.
      - intros n. rewrite elem_of_cons. intros [->|Hn]; [lia|]. apply Hlast in Hn. lia. }
  destruct (Hpend eq_refl) as [(Hv & Hp0 & Hlo & W) Hbl]. cbn [fst snd] in *.
  pose proof Hx as (Hxv & Hxp & Hxl). pose proof (rw_base _ W) as Hb. simpl in Hb.
  rewrite sn_eqb_val by (by apply sn_valid_ok). destruct (Z.eqb_spec (sn_val x) (sn_val (base_ (gap_bitmap_ b)))) as [Ex|Ex].
  - destruct (gap_of_ok (gap_bitmap_ b) x Hx) as (Hok & Eb & _ & Hh & W'). eexists _, log. split; [done|]. split; [|done].
    assert (Hempty : forall n, has (gap_bitmap_ b) n = false).
    { intros n. destruct (has (gap_bitmap_ b) n) eqn:En; [|done]. exfalso. pose proof (has_window _ _ W En) as Hwin. simpl in Hwin.
      assert (n ∈ added) as Hn by (apply Hadd; right; split; [done|by right]). apply Hlast in Hn. lia. }
    split; simpl.
    + done.
    + intros _. split; [|rewrite Eb; lia]. split; [done|]. split; [done|]. split; [simpl in *; lia|done].
    + intros n. rewrite elem_of_cons, Hadd. unfold declares. cbn [fst snd]. rewrite Hempty, Hh. simpl in *. rewrite Eb. naive_solver lia.
    + intros n. rewrite elem_of_cons. intros [->|Hn]; [lia|]. apply Hlast in Hn. lia.
  - destruct (range_add_spec (gap_bitmap_ b) x W Hxv) as (r & Er & Wr & Br & Xr & Hr). simpl ival in *. rewrite Er. cbn [mbind option_bind].
    destruct ((sn_val (base_ (gap_bitmap_ b)) <=? sn_val x) && (sn_val x <=? sn_val (range_max_ (gap_bitmap_ b)))) eqn:Ein.
    + eexists _, log. split; [done|]. split; [|done]. apply andb_true_iff in Ein as [I1 I2]. apply Z.leb_le in I1, I2. split; simpl.
      * done.
      * intros _. split; [|rewrite Br; lia]. split; [done|]. split; [done|]. cbn [fst snd]. rewrite Br. done.
      * intros n. rewrite elem_of_cons, Hadd. unfold declares. cbn [fst snd]. rewrite Br, Hr.
        rewrite orb_true_iff, !andb_true_iff, Z.eqb_eq, !Z.leb_le. naive_solver lia.
      * intros n. rewrite elem_of_cons. intros [->|Hn]; [lia|]. apply Hlast in Hn. lia.
    + assert (Hsame : forall n, has r n = has (gap_bitmap_ b) n).
      { intros n. rewrite Hr. destruct (Z.eqb_spec n (sn_val x)) as [->|]; [|by rewrite orb_false_r]. cbn [andb]. by rewrite Ein, orb_false_r. }
      unfold flush. cbn [is_gap_pending_ initial_sequence_ gap_bitmap_]. unfold add_gap, gap_log.
      destruct (gap_of_ok r x Hx) as (Hok & Eb & Hd & _). eexists _, _. split; [done|]. split; [|done]. split; simpl.
      * apply Forall_app. split; [done|]. constructor; [|constructor]. split; [done|]. split; [done|]. cbn [fst snd]. rewrite Br. done.
      * intros _. split; [done|]. rewrite Eb. lia.
      * intros n. rewrite elem_of_cons, Hadd, Exists_app, Exists_cons, Exists_nil, Hd.
        assert (declares (initial_sequence_ b, r) n <-> declares (initial_sequence_ b, gap_bitmap_ b) n) as ->
          by (unfold declares; cbn [fst snd]; by rewrite Br, Hsame). naive_solver.
      * intros n. rewrite elem_of_cons. intros [->|Hn]; [lia|]. apply Hlast in Hn. lia.
Qed.

Lemma gap_add_all_spec xs : forall b log added last,
  gap_inv b log added last -> Forall sendable xs -> StronglySorted (fun x y => sn_val x < sn_val y) xs -> Forall (fun x => last < sn_val x) xs ->
  exists b' log' last', gap_add_all b log xs = Some (true, b', log') /\ gap_inv b' log' (rev (sn_val <$> xs) ++ added) last'.
Proof.
  induction xs as [|x xs IH]; intros b log added last Hi Hs Hsort Hlast; [by exists b, log, last|].
  inversion Hs; inversion Hsort; inversion Hlast; subst.
  destruct (gap_add_spec b log added last x) as (b1 & log1 & E1 & Hi1 & _); [done|done|done|].
  destruct (IH b1 log1 (sn_val x :: added) (sn_val x)) as (b2 & log2 & last2 & E2 & Hi2); [done|done|done|done|].
  exists b2, log2, last2. cbn [gap_add_all]. rewrite E1. simpl. rewrite E2. split; [done|].
  rewrite <- app_assoc. done.
Qed.

(** What is pending is flushed. *)
Lemma flush_spec b log added last : gap_inv b log added last ->
  exists b' log', flush b log = (true, b', log') /\ Forall gap_ok log' /\ forall n, Exists (fun gap => declares gap n) log' <-> n ∈ added.
Proof.
  intros [Hlog Hpend Hadd _]. unfold flush. destruct (is_gap_pending_ b) eqn:Ep.
  - destruct (Hpend eq_refl) as [Hok _]. eexists _, _. split; [reflexivity|]. split; [apply Forall_app; split; [done|by constructor]|].
    intros n. rewrite Hadd, Exists_app, Exists_cons, Exists_nil. naive_solver.
  - exists b, log. split; [done|]. split; [done|]. intros n. rewrite Hadd. naive_solver.
Qed.

Lemma gap_inv_new : gap_inv RTPSGapBuilder_new [] [] 0.
Proof. split; [constructor|done| |by intros n ?%elem_of_nil]. intros n. rewrite elem_of_nil, Exists_nil. naive_solver. Qed.

(** The messages of a list of numbers. *)
Lemma build_gaps_spec xs :
  Forall sendable xs -> StronglySorted (fun x y => sn_val x < sn_val y) xs ->
  exists log, build_gaps [] xs = Some (true, log) /\ Forall gap_ok log /\
    forall n, Exists (fun gap => declares gap n) log <-> n ∈ sn_val <$> xs.
Proof.
  intros Hs Hsort. destruct (gap_add_all_spec xs RTPSGapBuilder_new [] [] 0) as (b & log & last & E & Hi); [apply gap_inv_new|done|done| |].
  { eapply list.Forall_impl; [exact Hs|]. by intros x (_ & ? & _). }
  unfold build_gaps. rewrite E. cbn [mbind option_bind]. destruct (flush_spec _ _ _ _ Hi) as (b' & log' & -> & Hok & Hd). exists log'.
  split; [done|]. split; [done|]. intros n. rewrite Hd, app_nil_r, !list_elem_of_In, <- in_rev. done.
Qed.

(** C20: the numbers that a writer declares irrelevant, in increasing order, come
    out as GAP messages that are well formed and declare exactly these numbers. *)
Theorem gaps_declare_exactly xs :
  Forall sendable xs -> StronglySorted (fun x y => sn_val x < sn_val y) xs ->
  exists log, build_gaps [] xs = Some (true, log) /\ Forall gap_ok log /\
    forall n, Exists (fun gap => declares gap n) log <-> n ∈ sn_val <$> xs.
Proof. apply build_gaps_spec. Qed.

Definition some_gaps : list SequenceNumber_t := SequenceNumber_of <$> [3; 4; 5; 9; 300; 301].

Lemma gaps_declare_exactly_witness :
  exists log, build_gaps [] some_gaps = Some (true, log) /\ Forall gap_ok log /\
    forall n, Exists (fun gap => declares gap n) log <-> n ∈ sn_val <$> some_gaps.
Proof.
  apply (gaps_declare_exactly some_gaps).
  - rewrite list.Forall_forall. intros x Hx. unfold some_gaps in Hx. apply list_elem_of_fmap in Hx as (z & -> & Hz).
    assert (0 < z < 1000) by (repeat (apply elem_of_cons in Hz as [->|Hz]; [lia|]); by apply elem_of_nil in Hz).
    destruct (sn_of_val z) as [Hv Ev]; [lia|]. split; [done|]. lia.
  - repeat constructor.
Defined.

(** What a message that could not be added loses: its numbers are dropped. *)
Lemma failed_flush_drops :
  let refuse : GapSink (list GapMsg) := fun _ _ log => (false, log) in
  let b := mkGapBuilder true (SequenceNumber_of 3) (range_new (SequenceNumber_of 4)) in
  exists b', @gap_add _ refuse b [] (SequenceNumber_of 300) = Some (false, b', []) /\
    initial_sequence_ b' = SequenceNumber_of 300 /\ forall n, declares (initial_sequence_ b', gap_bitmap_ b') n -> n <> 3.
Proof.
  eexists. split; [reflexivity|]. split; [reflexivity|]. intros n [[H _]|H] ->; [by vm_compute in H|]. by vm_compute in H.
Qed.
