(* ===== verification/WriterHistory.v ===== *)
(** * The history of a writer

    Models [Fast-DDS/src/cpp/rtps/history/WriterHistory.cpp] and the part of
    [History.cpp] that writers use: the changes a writer keeps, in the order of
    their sequence numbers.  A change is what the writer's protocol needs of it:
    its number and how it is split into fragments.  Payloads and the pools they
    come from are not modelled. *)

From Stdlib Require Import Sorted.
From S2P Require Import Prelude SequenceNumber WriterProxyInv MessageReceiver.

(** ** Changes *)

Record OutChange := mkOut {
  out_seq : SequenceNumber_t;
  out_fragment_size : Z;
  out_fragment_count : Z
}.

(** A change as the application gives it to the history: whether its writer is
    the one of the history, the sizes of its payload and inline QoS, whether it
    answers another sample, and whether it ends an instance of a keyed topic. *)
Record NewChange := mkNew {
  new_own : bool;
  new_length : Z;
  new_inline_qos : Z;
  new_related : bool;
  new_keyed_end : bool
}.

Definition PARAMETER_STATUS_SIZE : Z := 8.
Definition PARAMETER_KEY_SIZE : Z := 20.
Definition PARAMETER_SENTINEL_SIZE : Z := 4.
Definition PARAMETER_SAMPLE_IDENTITY_SIZE : Z := 28.

(** [RTPSMessageGroup::get_max_fragment_payload_size] *)
Definition get_max_fragment_payload_size : Z := 65535 - 28 - 32 - 3.

(** ** The history *)

Record WriterHistory := mkWH {
  m_changes : list OutChange;
  m_lastCacheChangeSeqNum : SequenceNumber_t;
  m_isHistoryFull : bool;
  preallocated_ : bool;
  payloadMaxSize : Z;
  maximumReservedCaches : Z;
  high_mark_for_frag_ : Z
}.

Implicit Types (h : WriterHistory) (c : OutChange) (s : SequenceNumber_t) (l : list OutChange).

Definition set_changes h (l : list OutChange) (full : bool) : WriterHistory :=
  mkWH l (m_lastCacheChangeSeqNum h) full (preallocated_ h) (payloadMaxSize h) (maximumReservedCaches h) (high_mark_for_frag_ h).

(** [set_fragments]: the size and the number of fragments; 0 when the change is
    not split. *)
Definition writer_set_fragments (high_mark : Z) (ch : NewChange) : Z * Z :=
  let inline_qos_size := new_inline_qos ch in
  let inline_qos_size := if new_related ch then u32 (inline_qos_size + 2 * PARAMETER_SAMPLE_IDENTITY_SIZE) else inline_qos_size in
  let inline_qos_size :=
    if new_keyed_end ch then u32 (u32 (inline_qos_size + PARAMETER_KEY_SIZE) + PARAMETER_STATUS_SIZE) else inline_qos_size in
  let final_high_mark :=
    if 0 <? inline_qos_size then u32 (high_mark - u32 (PARAMETER_SENTINEL_SIZE + inline_qos_size)) else high_mark in
  if new_length ch >? final_high_mark then
    let size := u16 (Z.min final_high_mark get_max_fragment_payload_size) in
    (size, fragment_count_of size (new_length ch))
  else (0, 0).

(** [prepare_and_add_change]: the change added, [None] when it is refused.
    [allowed] is the writer's [get_max_allowed_payload_size]. *)
Definition prepare_and_add_change h (allowed : Z) (ch : NewChange) : option OutChange * WriterHistory :=
  if negb (new_own ch) then (None, h)
  else if preallocated_ h && (new_length ch >? payloadMaxSize h) then (None, h)
  else if m_isHistoryFull h then (None, h)
  else
    let last := sn_incr (m_lastCacheChangeSeqNum h) in
    let high_mark := if high_mark_for_frag_ h =? 0 then allowed else high_mark_for_frag_ h in
    let '(size, count) := writer_set_fragments high_mark ch in
    let c := mkOut last size count in
    let l := m_changes h ++ [c] in
    (Some c,
     mkWH l last (if i32 (zlen l) =? maximumReservedCaches h then true else m_isHistoryFull h)
       (preallocated_ h) (payloadMaxSize h) (maximumReservedCaches h) high_mark).

Definition next_sequence_number h : SequenceNumber_t := sn_add (m_lastCacheChangeSeqNum h) 1.

(** [get_min_change] and [get_max_change]; the writer's [get_seq_num_min] and
    [get_seq_num_max]. *)
Definition get_min_change h : option OutChange := head (m_changes h).
Definition get_max_change h : option OutChange := list.last (m_changes h).
Definition get_seq_num_min h : SequenceNumber_t := from_option out_seq sn_unknown (get_min_change h).
Definition get_seq_num_max h : SequenceNumber_t := from_option out_seq sn_unknown (get_max_change h).

(** [get_change_nts] stops at the first number that is larger; all the changes
    are of one writer here. *)
Fixpoint get_change_nts (l : list OutChange) s : option OutChange :=
  match l with
  | [] => None
  | c :: l => if sn_eqb (out_seq c) s then Some c else if sn_gtb (out_seq c) s then None else get_change_nts l s
  end.

Definition get_change h s : option OutChange := get_change_nts (m_changes h) s.

(** [find_change_nts] looks at every change; [remove_change_nts] once the writer
    has agreed. *)
Definition find_change_nts h s : option OutChange := List.find (fun c => sn_eqb (out_seq c) s) (m_changes h).

Fixpoint erase_change (l : list OutChange) s : list OutChange :=
  match l with
  | [] => []
  | c :: l => if sn_eqb (out_seq c) s then l else c :: erase_change l s
  end.

Definition history_remove h s : WriterHistory := set_changes h (erase_change (m_changes h) s) false.

(** ** The invariant *)

Notation seqs l := (sn_val ∘ out_seq <$> l).

Record history_ok h : Prop := mkHistoryOk {
  ho_sorted : StronglySorted Z.lt (seqs (m_changes h));
  ho_usable : Forall (fun c => usable (out_seq c)) (m_changes h);
  ho_last : usable (m_lastCacheChangeSeqNum h);
  ho_bound : Forall (fun c => 0 < sn_val (out_seq c) <= sn_val (m_lastCacheChangeSeqNum h)) (m_changes h)
}.

(** A number is in the history. *)
Definition in_history h (n : Z) : Prop := n ∈ seqs (m_changes h).

#[export] Instance in_history_dec h n : Decision (in_history h n).
Proof. unfold in_history. apply _. Defined.

Lemma in_history_cons c l n : n ∈ seqs (c :: l) <-> n = sn_val (out_seq c) \/ n ∈ seqs l.
Proof. rewrite fmap_cons, elem_of_cons. done. Qed.

Lemma seqs_elem l c : c ∈ l -> sn_val (out_seq c) ∈ seqs l.
Proof. intros H. apply list_elem_of_fmap_2 with (f := sn_val ∘ out_seq) in H. done. Qed.

Lemma sorted_head x (l : list Z) n : StronglySorted Z.lt (x :: l) -> n ∈ l -> x < n.
Proof. intros [_ H]%StronglySorted_inv. rewrite list.Forall_forall in H. auto. Qed.

(** The search stops early and is complete all the same. *)
Lemma get_change_nts_spec l s :
  StronglySorted Z.lt (seqs l) -> Forall (fun c => usable (out_seq c)) l -> sn_ok s ->
  match get_change_nts l s with
  | Some c => c ∈ l /\ sn_val (out_seq c) = sn_val s
  | None => sn_val s ∉ seqs l
  end.
Proof.
  induction l as [|c l IH]; intros Hs Hu Ho; [by apply not_elem_of_nil|]. apply list.Forall_cons in Hu as [Hc Hu]. simpl.
  rewrite sn_eqb_val, sn_gtb_val by auto. destruct (Z.eqb_spec (sn_val (out_seq c)) (sn_val s)) as [E|E].
  - split; [left|done].
  - destruct (Z.ltb_spec (sn_val s) (sn_val (out_seq c))) as [Hl|Hl].
    + intros [Hx|Hx]%elem_of_cons; [simpl in Hx; lia|].
      pose proof (sorted_head _ _ _ Hs Hx) as Hg. simpl in Hg. lia.
    + apply StronglySorted_inv in Hs as [Hs _]. specialize (IH Hs Hu Ho). destruct (get_change_nts l s).
      * destruct IH. split; [by right|done].
      * intros [Hx|Hx]%elem_of_cons; [by simpl in Hx|done].
Qed.

Lemma erase_change_seqs l s :
  StronglySorted Z.lt (seqs l) -> Forall (fun c => usable (out_seq c)) l -> sn_ok s ->
  forall n, n ∈ seqs (erase_change l s) <-> n ∈ seqs l /\ n <> sn_val s.
Proof.
  induction l as [|c l IH]; intros Hs Hu Ho n; [simpl; rewrite elem_of_nil; tauto|].
  apply list.Forall_cons in Hu as [Hc Hu]. simpl. rewrite sn_eqb_val by auto.
  destruct (Z.eqb_spec (sn_val (out_seq c)) (sn_val s)) as [E|E].
  - rewrite elem_of_cons. simpl. split; [|intros [[->|?] ?]; done]. intros Hx. split; [by right|].
    pose proof (sorted_head _ _ _ Hs Hx) as Hg. simpl in Hg. lia.
  - apply StronglySorted_inv in Hs as [Hs _]. rewrite !fmap_cons, !elem_of_cons, (IH Hs Hu Ho n). simpl.
    split; [intros [->|[? ?]]; auto|intros [[->|?] ?]; auto].
Qed.

Lemma erase_change_sub l s : erase_change l s `sublist_of` l.
Proof. induction l as [|c l IH]; simpl; [done|]. destruct (sn_eqb _ _); [by constructor|by constructor]. Qed.

Lemma sublist_all {A} (P : A -> Prop) (l k : list A) : l `sublist_of` k -> Forall P k -> Forall P l.
Proof. induction 1; intros Hk; [done|inversion Hk; auto..]. Qed.

Lemma sublist_sorted (l k : list Z) : l `sublist_of` k -> StronglySorted Z.lt k -> StronglySorted Z.lt l.
Proof.
  intros Hs. induction Hs as [|x l k Hs IH|x l k Hs IH]; intros Hk; [done| |].
  - apply StronglySorted_inv in Hk as [Hk Hx]. constructor; [auto|]. by eapply sublist_all.
  - apply StronglySorted_inv in Hk as [Hk _]. auto.
Qed.

Lemma fmap_sublist {A B} (f : A -> B) (l k : list A) : l `sublist_of` k -> f <$> l `sublist_of` f <$> k.
Proof. induction 1; simpl; by constructor. Qed.

Lemma history_remove_ok h s :
  history_ok h -> sn_ok s ->
  history_ok (history_remove h s) /\ (forall n, in_history (history_remove h s) n <-> in_history h n /\ n <> sn_val s) /\
  m_lastCacheChangeSeqNum (history_remove h s) = m_lastCacheChangeSeqNum h.
Proof.
  intros [Hs Hu Hl Hb] Ho. split; [|split; [by apply erase_change_seqs|done]].
  pose proof (erase_change_sub (m_changes h) s) as Hsub. split; simpl; [|by eapply sublist_all|done|by eapply sublist_all].
  eapply sublist_sorted; [|exact Hs]. by apply fmap_sublist.
Qed.

Lemma sorted_snoc (l : list Z) x : StronglySorted Z.lt l -> (forall n, n ∈ l -> n < x) -> StronglySorted Z.lt (l ++ [x]).
Proof.
  induction l as [|y l IH]; intros Hs Hx; [repeat constructor|]. apply StronglySorted_inv in Hs as [Hs Hy]. simpl.
  constructor; [apply IH; [done|intros n Hn; apply Hx; by right]|].
  apply Forall_app. split; [done|]. constructor; [apply Hx; left|constructor].
Qed.

(** A change that is accepted gets the next number. *)
Lemma prepare_and_add_change_ok h allowed ch c h' :
  history_ok h -> sn_val (m_lastCacheChangeSeqNum h) + 259 < 2 ^ 63 ->
  prepare_and_add_change h allowed ch = (Some c, h') ->
  history_ok h' /\ m_changes h' = m_changes h ++ [c] /\ out_seq c = m_lastCacheChangeSeqNum h' /\
  sn_val (m_lastCacheChangeSeqNum h') = sn_val (m_lastCacheChangeSeqNum h) + 1.
Proof.
  intros [Hs Hu Hl Hb] Hr. unfold prepare_and_add_change.
  destruct (negb (new_own ch)); [done|]. destruct (_ && _); [done|]. destruct (m_isHistoryFull h) eqn:Ef; [done|].
  destruct (writer_set_fragments _ ch) as [size count]. intros [= <- <-]. simpl.
  destruct (sn_incr_val (m_lastCacheChangeSeqNum h)) as [Hv Ev]; [auto|lia|].
  assert (usable (sn_incr (m_lastCacheChangeSeqNum h))) as Hu' by (split; [done|lia]).
  assert (0 <= sn_val (m_lastCacheChangeSeqNum h)) by apply Hl.
  split; [|by split]. split; simpl; [| |done|].
  - rewrite fmap_app. simpl. apply sorted_snoc; [done|]. intros n (c & -> & Hc)%list_elem_of_fmap. simpl.
    rewrite list.Forall_forall in Hb. apply Hb in Hc. lia.
  - apply Forall_app. split; [done|]. constructor; [done|constructor].
  - apply Forall_app. split; [eapply list.Forall_impl; [done|]; simpl; lia|]. constructor; [simpl; lia|constructor].
Qed.

Lemma prepare_and_add_change_refused h allowed ch h' : prepare_and_add_change h allowed ch = (None, h') -> h' = h.
Proof.
  unfold prepare_and_add_change. destruct (negb (new_own ch)); [by intros [= <-]|]. destruct (_ && _); [by intros [= <-]|].
  destruct (m_isHistoryFull h); [by intros [= <-]|]. by destruct (writer_set_fragments _ ch).
Qed.

(** ** The ends of the history *)

Lemma sn_unknown_val s : sn_valid s -> sn_eqb sn_unknown s = false /\ sn_val sn_unknown < sn_val s.
Proof. intros Hv. split; [|unfold sn_unknown, sn_val at 1; simpl; destruct Hv; lia]. rewrite sn_eqb_val; [|done|apply Hv].
  apply Z.eqb_neq. destruct Hv. unfold sn_unknown, sn_val at 1. simpl. lia. Qed.

Lemma seq_num_min_spec h : history_ok h ->
  match get_min_change h with
  | Some c => get_seq_num_min h = out_seq c /\ usable (out_seq c) /\ in_history h (sn_val (out_seq c)) /\
              forall n, in_history h n -> sn_val (out_seq c) <= n
  | None => get_seq_num_min h = sn_unknown /\ forall n, ~ in_history h n
  end.
Proof.
  intros [Hs Hu Hl Hb]. unfold get_seq_num_min, get_min_change, in_history. destruct (m_changes h) as [|c l]; simpl.
  - split; [done|]. intros n. apply not_elem_of_nil.
  - split; [done|]. split; [by inversion Hu|]. split; [by left|]. intros n [->|Hn]%elem_of_cons; [done|].
    pose proof (sorted_head _ _ _ Hs Hn) as Hg. simpl in Hg. lia.
Qed.

Lemma seq_num_max_spec h : history_ok h ->
  match get_max_change h with
  | Some c => get_seq_num_max h = out_seq c /\ usable (out_seq c) /\ in_history h (sn_val (out_seq c)) /\
              forall n, in_history h n -> n <= sn_val (out_seq c)
  | None => get_seq_num_max h = sn_unknown /\ forall n, ~ in_history h n
  end.
Proof.
  intros [Hs Hu Hl Hb]. unfold get_seq_num_max, get_max_change, in_history. destruct (list.last (m_changes h)) as [c|] eqn:E.
  - apply last_Some in E as [l E]. rewrite E in *. split; [done|]. apply Forall_app in Hu as [_ Hu]. inversion Hu; subst.
    split; [done|]. rewrite fmap_app in *. simpl in *. split; [apply elem_of_app; right; left|]. intros n [Hn|Hn]%elem_of_app.
    + clear -Hs Hn. induction (seqs l) as [|x k IH]; [by apply elem_of_nil in Hn|]. simpl in Hs.
      apply StronglySorted_inv in Hs as [Hs Hx]. apply elem_of_cons in Hn as [->|Hn]; [|auto].
      apply Forall_app in Hx as [_ Hx]. inversion Hx; subst. simpl in *. lia.
    + apply list_elem_of_singleton in Hn as ->. simpl. lia.
  - apply last_None in E. rewrite E. split; [done|]. intros n. apply not_elem_of_nil.
Qed.
