(* ===== verification/ChangeForReader.v ===== *)
(** * A change on its way to a reader

    Models [ChangeForReader_t] ([Fast-DDS/src/cpp/rtps/writer/ChangeForReader.hpp]):
    the status of one change for one reader and the fragments of it that are
    still to be sent, a window of 256 of them that moves while the change is sent
    for the first time.  An assertion of the source that fails is [None]. *)

From S2P Require Import Prelude SequenceNumber BitmapRange RangeSpec WriterHistory.

Inductive ChangeForReaderStatus_t := UNSENT | REQUESTED | UNACKNOWLEDGED | ACKNOWLEDGED | UNDERWAY.

#[export] Instance ChangeForReaderStatus_eq_dec : EqDecision ChangeForReaderStatus_t.
Proof. solve_decision. Defined.

(** The order of the enumeration. *)
Definition status_num (st : ChangeForReaderStatus_t) : Z :=
  match st with UNSENT => 0 | REQUESTED => 1 | UNACKNOWLEDGED => 2 | ACKNOWLEDGED => 3 | UNDERWAY => 4 end.

Record ChangeForReader_t := mkCFR {
  cfr_status : ChangeForReaderStatus_t;
  cfr_seq : SequenceNumber_t;
  cfr_change : OutChange;
  unsent_fragments_ : BitmapRange FragmentNumber_t;
  delivered_ : bool
}.

Implicit Types (c : ChangeForReader_t) (o : OutChange).

Definition with_status c (st : ChangeForReaderStatus_t) : ChangeForReader_t :=
  mkCFR st (cfr_seq c) (cfr_change c) (unsent_fragments_ c) (delivered_ c).
Definition with_unsent c (r : BitmapRange FragmentNumber_t) : ChangeForReader_t :=
  mkCFR (cfr_status c) (cfr_seq c) (cfr_change c) r (delivered_ c).
Definition set_delivered c : ChangeForReader_t :=
  mkCFR (cfr_status c) (cfr_seq c) (cfr_change c) (unsent_fragments_ c) true.

(** A continuation run only when an assertion holds. *)
Definition assert {A} (b : bool) (k : option A) : option A := if b then k else None.

(** All the fragments of a change, as far as the window goes. *)
Definition all_fragments (r : BitmapRange FragmentNumber_t) o : option (BitmapRange FragmentNumber_t) :=
  if negb (out_fragment_size o =? 0)
  then add_range (range_set_base r (mkFrag 1)) (mkFrag 1) (mkFrag (u32 (out_fragment_count o + 1)))
  else Some r.

Definition ChangeForReader_new o : option ChangeForReader_t :=
  r ← all_fragments range_default o;
  Some (mkCFR UNSENT (out_seq o) o r false).

Definition markAllFragmentsAsUnsent c : option ChangeForReader_t :=
  r ← all_fragments (unsent_fragments_ c) (cfr_change c);
  Some (with_unsent c r).

Definition get_next_unsent_fragment c : FragmentNumber_t :=
  if range_empty (unsent_fragments_ c) then mkFrag (u32 (out_fragment_count (cfr_change c) + 1))
  else range_min (unsent_fragments_ c).

Definition markFragmentsAsSent c (sentFragment : FragmentNumber_t) : option ChangeForReader_t :=
  r ← range_remove (unsent_fragments_ c) sentFragment;
  if negb (delivered_ c) && negb (range_empty r) && (frag (range_max r) <? out_fragment_count (cfr_change c)) then
    let max := range_max r in
    first ← is_set r (base_ r);
    assert (negb first) (
      r ← base_update r (range_min r);
      r ← add_range r (mkFrag (u32 (frag max + 1))) (mkFrag (u32 (out_fragment_count (cfr_change c) + 1)));
      Some (with_unsent c r))
  else Some (with_unsent c r).

Fixpoint add_each_fragment (r : BitmapRange FragmentNumber_t) (l : list FragmentNumber_t) : option (BitmapRange FragmentNumber_t) :=
  match l with
  | [] => Some r
  | x :: l => '(_, r) ← range_add r x; add_each_fragment r l
  end.

Definition markFragmentsAsUnsent c (unsentFragments : BitmapRange FragmentNumber_t) : option ChangeForReader_t :=
  if delivered_ c then
    if range_empty (unsent_fragments_ c) then Some (with_unsent c unsentFragments)
    else
      let other_base := base_ unsentFragments in
      r ← (if frag other_base <? frag (base_ (unsent_fragments_ c))
           then base_update (unsent_fragments_ c) other_base else Some (unsent_fragments_ c));
      r ← add_each_fragment r (for_each unsentFragments);
      Some (with_unsent c r)
  else Some c.

(** The fragments that are sent while there are any to be sent, in order: the loop
    of [StatefulWriter::deliver_sample_to_network] for one reader. *)
Fixpoint send_fragments (fuel : nat) c : option (list Z * ChangeForReader_t) :=
  if range_empty (unsent_fragments_ c) then Some ([], c)
  else
    match fuel with
    | O => None
    | S fuel =>
        let x := get_next_unsent_fragment c in
        c ← markFragmentsAsSent c x;
        '(sent, c) ← send_fragments fuel c;
        Some (frag x :: sent, c)
    end.

(** ** The window *)

(** The fragments from [k] on of a change of [n], in a window that starts at
    [k] or reaches the last one. *)
Record window (r : BitmapRange FragmentNumber_t) (k n : Z) : Prop := mkWindow {
  wd_wf : range_wf r;
  wd_base : 1 <= frag (base_ r) <= k;
  wd_where : k = frag (base_ r) \/ n <= frag (base_ r) + 255;
  wd_has m : has r m = true <-> k <= m <= Z.min n (frag (base_ r) + 255)
}.

Definition splits o : Prop := out_fragment_size o <> 0 /\ 1 <= out_fragment_count o < 2 ^ 32 - 1.

Lemma window_nonempty r k n : window r k n -> k <= n -> 0 < num_bits_ r.
Proof.
  intros [W Hb Hw Hh] Hk. pose proof (rw_num _ W). destruct (Z.eq_dec (num_bits_ r) 0) as [E|]; [|lia].
  assert (has r k = true) as Ht by (apply Hh; lia). rewrite (proj1 (range_empty_spec r W)) in Ht; [done|].
  unfold range_empty. by rewrite E.
Qed.

Lemma range_empty_none r : range_wf r -> (forall n, ~ has r n = true) -> range_empty r = true.
Proof. intros W H. apply range_empty_spec; [done|]. intros n. apply not_true_iff_false, H. Qed.

Lemma range_min_is r k : range_wf r -> has r k = true -> (forall m, has r m = true -> k <= m) -> iok (range_min r) /\ frag (range_min r) = k.
Proof.
  intros W Hk Hm. assert (0 < num_bits_ r) as Hp by (pose proof (has_window r k W Hk); lia).
  destruct (range_min_least r W Hp) as (Ho & Hh & Hl). split; [done|]. apply Hm in Hh. specialize (Hl k Hk). simpl in *. lia.
Qed.

Lemma range_max_is r k : range_wf r -> has r k = true -> (forall m, has r m = true -> m <= k) -> frag (range_max r) = k.
Proof.
  intros W Hk Hm. assert (0 < num_bits_ r) as Hp by (pose proof (has_window r k W Hk); lia).
  destruct (range_max_greatest r W Hp) as (Ho & Hh & Hl). apply Hm in Hh. specialize (Hl k Hk). simpl in *. lia.
Qed.

Lemma all_fragments_window r o : splits o ->
  exists r', all_fragments r o = Some r' /\ window r' 1 (out_fragment_count o).
Proof.
  intros [Hs Hn]. unfold all_fragments. rewrite (proj2 (Z.eqb_neq _ _)) by done. simpl.
  assert (iok (mkFrag 1)) as H1 by (simpl; lia).
  destruct (range_of_spec (mkFrag 1) (NBITS - 1) H1) as (W & H0 & _); [simpl; lia|unfold NBITS; lia|].
  change (range_of (mkFrag 1) (NBITS - 1)) with (range_set_base r (mkFrag 1)) in *.
  destruct (add_range_spec (range_set_base r (mkFrag 1)) (mkFrag 1) (mkFrag (u32 (out_fragment_count o + 1)))) as (r' & E & W' & Eb & _ & Hh);
    [done|done|simpl; rewrite u32_small; lia|]. exists r'. split; [done|]. split; [done|rewrite Eb; simpl; lia|rewrite Eb; by left|].
  intros m. rewrite Hh, H0, Eb. simpl. rewrite u32_small by lia. lia.
Qed.

(** Sending the first fragment of the window leaves the rest, moved on by one if
    there are fragments behind the window. *)
Lemma window_sent c k :
  delivered_ c = false -> window (unsent_fragments_ c) k (out_fragment_count (cfr_change c)) ->
  k <= out_fragment_count (cfr_change c) < 2 ^ 32 - 1 ->
  exists c', markFragmentsAsSent c (mkFrag k) = Some c' /\ cfr_change c' = cfr_change c /\ delivered_ c' = false /\
    window (unsent_fragments_ c') (k + 1) (out_fragment_count (cfr_change c)).
Proof.
  set (r := unsent_fragments_ c). set (n := out_fragment_count (cfr_change c)). intros Hd Wd Hk.
  pose proof (window_nonempty _ _ _ Wd ltac:(lia)) as Hp. destruct Wd as [W Hb Hw Hh].
  unfold markFragmentsAsSent. fold r n.
  destruct (range_remove_spec r (mkFrag k)) as (r1 & E1 & W1 & Eb1 & _ & Hh1); [done|done|simpl; lia|]. simpl in Hh1.
  rewrite E1. cbn [mbind option_bind]. rewrite Hd. cbn [negb andb].
  assert (forall m, has r1 m = true <-> k + 1 <= m <= Z.min n (frag (base_ r) + 255)) as Hr1.
  { intros m. rewrite Hh1, andb_true_iff, Hh, negb_true_iff, Z.eqb_neq. lia. }
  destruct (range_empty r1) eqn:Ee; cbn [negb andb].
  { exists (with_unsent c r1). split; [done|]. split; [done|]. split; [done|]. simpl. split; [done|rewrite Eb1; lia|rewrite Eb1|].
    - right. destruct (Z.le_gt_cases (k + 1) (Z.min n (frag (base_ r) + 255))) as [Hle|]; [|lia].
      assert (has r1 (k + 1) = true) as Ht by (apply Hr1; lia). by rewrite (proj1 (range_empty_spec r1 W1) Ee) in Ht.
    - intros m. by rewrite Hr1, Eb1. }
  assert (k + 1 <= Z.min n (frag (base_ r) + 255)) as Hne.
  { apply Z.nlt_ge. intros Hgt. rewrite (range_empty_none r1 W1) in Ee; [done|]. intros m Hm%Hr1. lia. }
  assert (frag (range_max r1) = Z.min n (frag (base_ r) + 255)) as Emax.
  { apply range_max_is; [done|apply Hr1; lia|intros m Hm%Hr1; lia]. }
  rewrite Emax. destruct (Z.ltb_spec (Z.min n (frag (base_ r) + 255)) n) as [Hlt|Hge].
  2:{ exists (with_unsent c r1). split; [done|]. split; [done|]. split; [done|]. simpl. split; [done|rewrite Eb1; lia|rewrite Eb1; lia|].
      intros m. by rewrite Hr1, Eb1. }
  assert (k = frag (base_ r)) as -> by lia.
  rewrite is_set_spec by (done || apply (rw_base _ W1)). simpl.
  assert (has r1 (frag (base_ r1)) = false) as -> by (apply not_true_iff_false; rewrite Hr1, Eb1; lia). simpl.
  destruct (range_min_is r1 (frag (base_ r) + 1) W1) as [Hmo Hmv]; [apply Hr1; lia|intros m Hm%Hr1; lia|].
  destruct (base_update_spec r1 (range_min r1) W1) as (r2 & E2 & Eb2 & W2 & _ & Hh2);
    [|done|simpl; lia|simpl; rewrite Eb1; lia|]. { unfold range_empty in Ee. pose proof (rw_num _ W1). lia. }
  rewrite E2. simpl.
  destruct (add_range_spec r2 (mkFrag (u32 (Z.min n (frag (base_ r) + 255) + 1))) (mkFrag (u32 (n + 1)))) as (r3 & E3 & W3 & Eb3 & _ & Hh3);
    [done|simpl; rewrite u32_small; lia|simpl; rewrite u32_small; lia|]. rewrite E3. simpl.
  eexists. split; [done|]. split; [done|]. split; [done|]. simpl. rewrite Eb2 in Eb3. simpl in Hmv.
  split; [done|rewrite Eb3; lia|rewrite Eb3; lia|]. intros m. rewrite Hh3, Hh2, Eb2, Eb3. simpl. rewrite Hmv, !u32_small by lia.
  rewrite orb_true_iff, !andb_true_iff, Hr1. lia.
Qed.

Lemma window_next c k : window (unsent_fragments_ c) k (out_fragment_count (cfr_change c)) ->
  k <= out_fragment_count (cfr_change c) -> range_empty (unsent_fragments_ c) = false /\ get_next_unsent_fragment c = mkFrag k.
Proof.
  intros Wd Hk. pose proof (window_nonempty _ _ _ Wd Hk) as Hp. destruct Wd as [W Hb Hw Hh].
  unfold get_next_unsent_fragment, range_empty. rewrite (proj2 (Z.eqb_neq _ _)) by lia. split; [done|].
  destruct (range_min_is (unsent_fragments_ c) k W) as [_ E]; [apply Hh; lia|intros m Hm%Hh; lia|].
  by destruct (range_min (unsent_fragments_ c)); simpl in E; subst.
Qed.

Lemma send_fragments_window fuel : forall c k,
  delivered_ c = false -> window (unsent_fragments_ c) k (out_fragment_count (cfr_change c)) ->
  out_fragment_count (cfr_change c) < 2 ^ 32 - 1 -> k <= out_fragment_count (cfr_change c) + 1 ->
  out_fragment_count (cfr_change c) - k + 1 <= Z.of_nat fuel ->
  exists c', send_fragments fuel c = Some (seqZ k (out_fragment_count (cfr_change c) - k + 1), c') /\
    range_empty (unsent_fragments_ c') = true.
Proof.
  induction fuel as [|fuel IH]; intros c k Hd Wd Hn Hk Hf.
  - assert (k = out_fragment_count (cfr_change c) + 1) as -> by lia. exists c. simpl.
    assert (range_empty (unsent_fragments_ c) = true) as Ee.
    { destruct Wd as [W _ _ Hh]. apply range_empty_none; [done|]. intros m Hm%Hh. lia. }
    by rewrite Ee, seqZ_nil by lia.
  - destruct (Z.eq_dec k (out_fragment_count (cfr_change c) + 1)) as [->|Hne].
    { exists c. cbn [send_fragments]. assert (range_empty (unsent_fragments_ c) = true) as Ee.
      { destruct Wd as [W _ _ Hh]. apply range_empty_none; [done|]. intros m Hm%Hh. lia. }
      by rewrite Ee, seqZ_nil by lia. }
    destruct (window_next c k Wd) as [Ee En]; [lia|].
    destruct (window_sent c k Hd Wd) as (c1 & E1 & Ec & Hd1 & Wd1); [lia|].
    rewrite <- Ec in Wd1. destruct (IH c1 (k + 1) Hd1 Wd1) as (c' & E' & He); [rewrite Ec; lia|rewrite Ec; lia|rewrite Ec; lia|].
    exists c'. split; [|done]. cbn [send_fragments]. rewrite Ee, En, E1. simpl. rewrite E', Ec. simpl.
    rewrite (seqZ_cons k) by lia. repeat f_equal; lia.
Qed.

(** A change is sent for the first time in all its fragments, each of them once
    and in order, however many there are; the window of 256 never leaves one out
    and no assertion fails. *)
Theorem fragments_sent_once o :
  splits o ->
  exists c c', ChangeForReader_new o = Some c /\
    send_fragments (Z.to_nat (out_fragment_count o)) c = Some (seqZ 1 (out_fragment_count o), c') /\
    range_empty (unsent_fragments_ c') = true.
Proof.
  intros Hs. destruct (all_fragments_window range_default o Hs) as (r & E & Wd). unfold ChangeForReader_new. rewrite E. simpl.
  destruct Hs as [Hs Hn]. set (c := mkCFR UNSENT (out_seq o) o r false).
  destruct (send_fragments_window (Z.to_nat (out_fragment_count o)) c 1) as (c' & E' & He); [done|done|simpl; lia|simpl; lia|simpl; lia|].
  exists c, c'. split; [done|]. split; [|done]. rewrite E'. simpl. do 3 f_equal. lia.
Qed.

Definition some_out : OutChange := mkOut (SequenceNumber_of 7) 1024 300.

Lemma fragments_sent_once_witness : splits some_out /\
  exists c c', ChangeForReader_new some_out = Some c /\ send_fragments 300 c = Some (seqZ 1 300, c') /\
    range_empty (unsent_fragments_ c') = true.
Proof. assert (splits some_out) as H by (split; simpl; lia). split; [done|]. apply (fragments_sent_once some_out H). Defined.
