(* ===== verification/ReaderProxy.v ===== *)
(** * The proxy of a reader in a writer

    Models [ReaderProxy] ([Fast-DDS/src/cpp/rtps/writer/ReaderProxy.cpp] and
    [.hpp]): what a stateful writer knows of one matched reader.  Everything up to
    the low mark is acknowledged; beyond it the vector of changes holds the status
    of each change that is relevant for the reader.  What a proxy asks of its
    writer (the smallest and the next sequence number, a change of the history) is
    taken from the writer's history, an argument of the operations.

    The limit of the vector is the one of the history, of which it holds a part,
    and is not modelled.  Assertions of the source are checks here. *)

From S2P Require Import Prelude SequenceNumber BitmapRange TimedEvent ParameterList GapBuilder WriterHistory ChangeForReader.

Inductive DurabilityKind_t := VOLATILE | TRANSIENT_LOCAL | TRANSIENT | PERSISTENT.

#[export] Instance DurabilityKind_eq_dec : EqDecision DurabilityKind_t.
Proof. solve_decision. Defined.

Record ReaderProxy := mkRP {
  remote_guid_ : GUID_t;
  is_local_reader_ : bool;
  is_datasharing_reader_ : bool;
  is_active_ : bool;
  durability_kind_ : DurabilityKind_t;
  expects_inline_qos_ : bool;
  is_reliable_ : bool;
  disable_positive_acks_ : bool;
  changes_for_reader_ : list ChangeForReader_t;
  nack_supression_event_ : TimedEvent;
  initial_heartbeat_event_ : TimedEvent;
  timers_enabled_ : bool;
  next_expected_acknack_count_ : Z;
  last_nackfrag_count_ : Z;
  changes_low_mark_ : SequenceNumber_t;
  active_ : bool
}.

Implicit Types (rp : ReaderProxy) (c : ChangeForReader_t) (s : SequenceNumber_t) (h : WriterHistory).
Implicit Types (l : list ChangeForReader_t).

(** The changes and the low mark. *)
Definition set_marks rp l s : ReaderProxy :=
  mkRP (remote_guid_ rp) (is_local_reader_ rp) (is_datasharing_reader_ rp) (is_active_ rp) (durability_kind_ rp)
    (expects_inline_qos_ rp) (is_reliable_ rp) (disable_positive_acks_ rp) l (nack_supression_event_ rp)
    (initial_heartbeat_event_ rp) (timers_enabled_ rp) (next_expected_acknack_count_ rp) (last_nackfrag_count_ rp) s (active_ rp).
Definition set_reader_changes rp l : ReaderProxy := set_marks rp l (changes_low_mark_ rp).

(** The timers and whether they are enabled. *)
Definition set_reader_timers rp nack heartbeat enabled : ReaderProxy :=
  mkRP (remote_guid_ rp) (is_local_reader_ rp) (is_datasharing_reader_ rp) (is_active_ rp) (durability_kind_ rp)
    (expects_inline_qos_ rp) (is_reliable_ rp) (disable_positive_acks_ rp) (changes_for_reader_ rp) nack heartbeat enabled
    (next_expected_acknack_count_ rp) (last_nackfrag_count_ rp) (changes_low_mark_ rp) (active_ rp).
Definition restart_nack_supression rp : ReaderProxy :=
  set_reader_timers rp (restart_timer (nack_supression_event_ rp)) (initial_heartbeat_event_ rp) (timers_enabled_ rp).

Definition set_counts rp acknack nackfrag : ReaderProxy :=
  mkRP (remote_guid_ rp) (is_local_reader_ rp) (is_datasharing_reader_ rp) (is_active_ rp) (durability_kind_ rp)
    (expects_inline_qos_ rp) (is_reliable_ rp) (disable_positive_acks_ rp) (changes_for_reader_ rp) (nack_supression_event_ rp)
    (initial_heartbeat_event_ rp) (timers_enabled_ rp) acknack nackfrag (changes_low_mark_ rp) (active_ rp).

Definition is_remote_and_reliable rp : bool :=
  negb (is_local_reader_ rp) && negb (is_datasharing_reader_ rp) && is_reliable_ rp.

(** [active]: whether the reader takes part in the delivery of a sample. *)
Definition set_active rp (b : bool) : ReaderProxy :=
  mkRP (remote_guid_ rp) (is_local_reader_ rp) (is_datasharing_reader_ rp) (is_active_ rp) (durability_kind_ rp)
    (expects_inline_qos_ rp) (is_reliable_ rp) (disable_positive_acks_ rp) (changes_for_reader_ rp) (nack_supression_event_ rp)
    (initial_heartbeat_event_ rp) (timers_enabled_ rp) (next_expected_acknack_count_ rp) (last_nackfrag_count_ rp)
    (changes_low_mark_ rp) b.

(** ** Looking for a change *)

(** [std::lower_bound]: the changes before the first one that is not less, and
    those from it on. *)
Fixpoint lower_change l s : list ChangeForReader_t * list ChangeForReader_t :=
  match l with
  | [] => ([], [])
  | c :: l' => if sn_ltb (cfr_seq c) s then let '(a, b) := lower_change l' s in (c :: a, b) else ([], l)
  end.

(** [find_change] with [exact]: the change with what is before and behind it. *)
Definition find_change l s : option (list ChangeForReader_t * ChangeForReader_t * list ChangeForReader_t) :=
  match lower_change l s with
  | (a, c :: b) => if sn_eqb (cfr_seq c) s then Some (a, c, b) else None
  | (_, []) => None
  end.

(** ** Acknowledgements *)

(** The changes that are acknowledged one after the other from [mark] on. *)
Fixpoint skip_acked l (mark : SequenceNumber_t) : SequenceNumber_t * list ChangeForReader_t :=
  match l with
  | c :: l' =>
      if sn_eqb (cfr_seq c) mark && bool_decide (cfr_status c = ACKNOWLEDGED) then skip_acked l' (sn_incr mark)
      else (mark, l)
  | [] => (mark, [])
  end.

Fixpoint skip_present (low cur : SequenceNumber_t) l : SequenceNumber_t :=
  match l with
  | c :: l' => if sn_leb cur low && sn_eqb (cfr_seq c) cur then skip_present low (sn_incr cur) l' else cur
  | [] => cur
  end.

(** The changes of the history up to the low mark that are not in the collection
    are added at its end; the boolean says whether there were any. *)
Fixpoint revive (fuel : nat) h (low cur : SequenceNumber_t) l (should_sort : bool) : option (list ChangeForReader_t * bool) :=
  if sn_leb cur low then
    match fuel with
    | O => None
    | S fuel =>
        let cur := match find_change l cur with
                   | Some (_, c, b) => skip_present low cur (c :: b)
                   | None => cur
                   end in
        match (if sn_leb cur low then get_change h cur else None) with
        | Some o =>
            c ← ChangeForReader_new o;
            revive fuel h low (sn_incr cur) (l ++ [with_status c UNACKNOWLEDGED]) true
        | None => revive fuel h low (sn_incr cur) l should_sort
        end
    end
  else Some (l, should_sort).

(** [std::sort] with [ChangeForReaderCmp]. *)
Fixpoint insert_change c l : list ChangeForReader_t :=
  match l with
  | [] => [c]
  | d :: l' => if sn_ltb (cfr_seq d) (cfr_seq c) then d :: insert_change c l' else c :: l
  end.
Definition sort_changes l : list ChangeForReader_t := foldr insert_change [] l.

Definition revive_fuel (low cur : SequenceNumber_t) : nat := Z.to_nat (sn_val low - sn_val cur + 1).

Definition acked_changes_set h rp (seq_num : SequenceNumber_t) : option ReaderProxy :=
  let low := changes_low_mark_ rp in
  let l := changes_for_reader_ rp in
  if sn_gtb seq_num low then
    let '(_, from) := lower_change l seq_num in
    let '(mark, rest) := skip_acked from seq_num in
    Some (set_marks rp rest (sn_sub_u32 mark 1))
  else if sn_eqb seq_num (mkSN 0 0) && negb (bool_decide (durability_kind_ rp = VOLATILE)) then
    let min_sequence := get_seq_num_min h in
    if negb (sn_eqb min_sequence sn_unknown) then
      let cur := if sn_ltb seq_num min_sequence then min_sequence else seq_num in
      '(l, should_sort) ← revive (revive_fuel low cur) h low cur l false;
      Some (set_marks rp (if should_sort : bool then sort_changes l else l) (sn_sub_u32 cur 1))
    else if negb (is_local_reader_ rp) then Some (set_marks rp l (sn_sub_u32 (next_sequence_number h) 1))
    else Some (set_marks rp l (sn_sub_u32 (sn_add low 1) 1))
  else Some (set_marks rp l (sn_sub_u32 (sn_add low 1) 1)).

(** [check_and_set_acknack_count] *)
Definition check_and_set_acknack_count rp (acknack_count : Z) : bool * ReaderProxy :=
  if acknack_count >=? next_expected_acknack_count_ rp
  then (true, set_counts rp (u32 (acknack_count + 1)) (last_nackfrag_count_ rp))
  else (false, rp).

(** ** Life *)

Definition disable_timers rp : ReaderProxy :=
  set_reader_timers rp
    (if timers_enabled_ rp then cancel_timer (nack_supression_event_ rp) else nack_supression_event_ rp)
    (cancel_timer (initial_heartbeat_event_ rp)) false.

Definition c_Guid_Unknown : GUID_t := mkGUID c_GuidPrefix_Unknown c_EntityId_Unknown.

(** The reader, where it is and whether the proxy is in use; [ReaderLocator] holds
    the first three. *)
Definition set_reader rp (guid : GUID_t) (local datasharing active : bool) : ReaderProxy :=
  mkRP guid local datasharing active (durability_kind_ rp)
    (expects_inline_qos_ rp) (is_reliable_ rp) (disable_positive_acks_ rp) (changes_for_reader_ rp) (nack_supression_event_ rp)
    (initial_heartbeat_event_ rp) (timers_enabled_ rp) (next_expected_acknack_count_ rp) (last_nackfrag_count_ rp)
    (changes_low_mark_ rp) (active_ rp).

Definition rp_stop rp : ReaderProxy :=
  let rp := disable_timers (set_reader rp c_Guid_Unknown false false false) in
  set_marks (set_counts rp 0 0) [] (mkSN 0 0).

(** What the proxy takes from the data of a reader. *)
Record ReaderData := mkReaderData {
  rd_guid : GUID_t;
  rd_local : bool;
  rd_datasharing : bool;
  rd_durability : DurabilityKind_t;
  rd_inline_qos : bool;
  rd_reliable : bool;
  rd_no_positive_acks : bool
}.

(** [update]: QoS that may change. *)
Definition rp_update rp (d : ReaderData) : ReaderProxy :=
  mkRP (remote_guid_ rp) (is_local_reader_ rp) (is_datasharing_reader_ rp) (is_active_ rp) (rd_durability d)
    (rd_inline_qos d) (rd_reliable d) (rd_no_positive_acks d) (changes_for_reader_ rp) (nack_supression_event_ rp)
    (initial_heartbeat_event_ rp) (timers_enabled_ rp) (next_expected_acknack_count_ rp) (last_nackfrag_count_ rp)
    (changes_low_mark_ rp) (active_ rp).

(** [start]; [ReaderLocator::start] takes a reader only when it has none. *)
Definition rp_start h rp (d : ReaderData) : option ReaderProxy :=
  let rp := if bool_decide (remote_guid_ rp = c_Guid_Unknown)
            then set_reader rp (rd_guid d) (rd_local d) (rd_datasharing d && negb (rd_local d)) (is_active_ rp) else rp in
  let rp := set_reader rp (remote_guid_ rp) (is_local_reader_ rp) (is_datasharing_reader_ rp) true in
  let rp := rp_update rp d in
  rp ← (if bool_decide (durability_kind_ rp = VOLATILE) then
          let min_sequence := get_seq_num_min h in
          Some (set_marks rp (changes_for_reader_ rp)
                  (if sn_eqb min_sequence sn_unknown then sn_sub_u32 (next_sequence_number h) 1 else sn_sub_u32 min_sequence 1))
        else acked_changes_set h rp (mkSN 0 0));
  let hb := if is_local_reader_ rp then restart_timer (initial_heartbeat_event_ rp) else initial_heartbeat_event_ rp in
  Some (set_reader_timers rp (nack_supression_event_ rp) hb (is_remote_and_reliable rp)).

(** ** Changes *)

Definition last_change l : option ChangeForReader_t := head (rev l).

Definition add_change rp c (is_relevant restart : bool) : option ReaderProxy :=
  let rp := if restart && timers_enabled_ rp then restart_nack_supression rp else rp in
  assert (sn_gtb (cfr_seq c) (changes_low_mark_ rp)) (
  assert (match last_change (changes_for_reader_ rp) with Some d => sn_gtb (cfr_seq c) (cfr_seq d) | None => true end) (
    if negb is_relevant then
      if negb (is_reliable_ rp) && sn_eqb (sn_add (changes_low_mark_ rp) 1) (cfr_seq c)
      then Some (set_marks rp (changes_for_reader_ rp) (cfr_seq c)) else Some rp
    else Some (set_reader_changes rp (changes_for_reader_ rp ++ [c])))).

Definition has_changes rp : bool := match changes_for_reader_ rp with [] => false | _ => true end.

Definition change_is_acked rp s : bool :=
  if sn_leb s (changes_low_mark_ rp) || negb (has_changes rp) then true
  else match find_change (changes_for_reader_ rp) s with
       | None => true
       | Some (_, c, _) => bool_decide (cfr_status c = ACKNOWLEDGED)
       end.

(** [change_is_unsent]: [None] when it is not; the next fragment to be sent, the
    first number of the gap before the change and whether the periodic heartbeat
    is needed. *)
Definition change_is_unsent rp s (min_seq : SequenceNumber_t) : option (FragmentNumber_t * SequenceNumber_t * bool) :=
  if sn_leb s (changes_low_mark_ rp) || negb (has_changes rp) then None
  else match find_change (changes_for_reader_ rp) s with
       | None => None
       | Some (a, c, _) =>
           if bool_decide (cfr_status c = UNSENT) then
             let next_unsent_frag := get_next_unsent_fragment c in
             if is_reliable_ rp && negb (delivered_ c) then
               let prev := sn_add (match last_change a with Some d => cfr_seq d | None => changes_low_mark_ rp end) 1 in
               let gap_seq :=
                 if negb (sn_eqb prev (cfr_seq c)) then
                   if sn_ltb prev min_seq then if sn_ltb min_seq s then min_seq else sn_unknown else prev
                 else sn_unknown in
               Some (next_unsent_frag, gap_seq, true)
             else Some (next_unsent_frag, sn_unknown, false)
           else None
       end.

Definition from_unsent_to_status h rp s (status : ChangeForReaderStatus_t) (restart delivered : bool) : option ReaderProxy :=
  assert (is_reliable_ rp) (
  rp ← (if restart && is_remote_and_reliable rp then assert (timers_enabled_ rp) (Some (restart_nack_supression rp)) else Some rp);
  assert (sn_gtb s (changes_low_mark_ rp)) (
  '(a, c, b) ← find_change (changes_for_reader_ rp) s;
  assert (bool_decide (cfr_status c = UNSENT) && negb (bool_decide (status = UNSENT))) (
    if bool_decide (status = ACKNOWLEDGED) && sn_eqb s (sn_add (changes_low_mark_ rp) 1) then
      assert (match a with [] => true | _ => false end) (acked_changes_set h (set_reader_changes rp (a ++ b)) (sn_add s 1))
    else
      let c := with_status c status in
      let c := if delivered then set_delivered c else c in
      Some (set_reader_changes rp (a ++ c :: b))))).

(** [mark_fragment_as_sent_for_change]: whether the change was found and whether
    the fragment was the last one. *)
Definition mark_fragment_as_sent_for_change rp s (frag_num : FragmentNumber_t) : option (bool * bool * ReaderProxy) :=
  if sn_leb s (changes_low_mark_ rp) then Some (false, false, rp)
  else match find_change (changes_for_reader_ rp) s with
       | None => Some (false, false, rp)
       | Some (a, c, b) =>
           c ← markFragmentsAsSent c frag_num;
           Some (true, range_empty (unsent_fragments_ c), set_reader_changes rp (a ++ c :: b))
       end.

(** [convert_status_on_all_changes]: the changes whose status was changed. *)
Definition convert_status (previous next : ChangeForReaderStatus_t) l : list ChangeForReader_t :=
  (fun c => if bool_decide (cfr_status c = previous) then with_status c next else c) <$> l.
Definition converted (previous : ChangeForReaderStatus_t) l : list ChangeForReader_t :=
  filter (fun c => cfr_status c = previous) l.

Definition convert_status_on_all_changes rp (previous next : ChangeForReaderStatus_t)
  : option (list ChangeForReader_t * ReaderProxy) :=
  assert (status_num previous >? status_num next) (
    Some (converted previous (changes_for_reader_ rp),
          set_reader_changes rp (convert_status previous next (changes_for_reader_ rp)))).

Definition perform_nack_supression rp : option (bool * ReaderProxy) :=
  '(cs, rp) ← convert_status_on_all_changes rp UNDERWAY UNACKNOWLEDGED;
  Some (negb (zlen cs =? 0), rp).

(** The changes to be sent again. *)
Definition perform_acknack_response rp : option (list ChangeForReader_t * ReaderProxy) :=
  convert_status_on_all_changes rp REQUESTED UNSENT.

Definition process_initial_acknack rp : option (bool * list ChangeForReader_t * ReaderProxy) :=
  if is_local_reader_ rp then
    '(cs, rp) ← convert_status_on_all_changes rp UNACKNOWLEDGED UNSENT;
    Some (negb (zlen cs =? 0), cs, rp)
  else Some (true, [], rp).

(** [change_has_been_removed]: the number a local reader is told to skip. *)
Definition change_has_been_removed h rp s : option (option SequenceNumber_t * ReaderProxy) :=
  match changes_for_reader_ rp with
  | [] => Some (None, rp)
  | first :: _ =>
      if sn_ltb s (cfr_seq first) then Some (None, rp)
      else match find_change (changes_for_reader_ rp) s with
           | None => Some (None, rp)
           | Some (a, c, b) =>
               let gap := if is_local_reader_ rp && (status_num ACKNOWLEDGED >? status_num (cfr_status c)) then Some s else None in
               let rp := set_reader_changes rp (a ++ b) in
               rp ← (if sn_eqb (sn_add (changes_low_mark_ rp) 1) s then acked_changes_set h rp (sn_add s 1) else Some rp);
               Some (gap, rp)
           end
  end.

Definition has_unacknowledged rp (first_seq_in_history : SequenceNumber_t) : bool :=
  if sn_gtb first_seq_in_history (changes_low_mark_ rp) then true
  else existsb (fun c => bool_decide (cfr_status c = UNACKNOWLEDGED)) (changes_for_reader_ rp).

Definition requested_fragment_set rp s (frag_set : BitmapRange FragmentNumber_t) : option (bool * ReaderProxy) :=
  match find_change (changes_for_reader_ rp) s with
  | None => Some (false, rp)
  | Some (a, c, b) =>
      c ← markFragmentsAsUnsent c frag_set;
      let c := if negb (bool_decide (cfr_status c = UNSENT)) then with_status c REQUESTED else c in
      Some (true, set_reader_changes rp (a ++ c :: b))
  end.

Definition process_nack_frag rp (reader_guid : GUID_t) (nack_count : Z) s (fragments_state : BitmapRange FragmentNumber_t)
  : option (bool * ReaderProxy) :=
  if bool_decide (remote_guid_ rp = reader_guid) && (last_nackfrag_count_ rp <? nack_count) then
    requested_fragment_set (set_counts rp (next_expected_acknack_count_ rp) nack_count) s fragments_state
  else Some (false, rp).

(** [has_been_delivered]: the result, and [found] when it is assigned. *)
Definition has_been_delivered rp s : bool * bool :=
  if sn_leb s (changes_low_mark_ rp) then (true, false)
  else match find_change (changes_for_reader_ rp) s with
       | Some (_, c, _) => (delivered_ c, true)
       | None => (false, false)
       end.

(** ** Requests *)

Section Requests.
Context {G : Type} `{S : GapSink G}.

(** One number of [requested_changes_set]. *)
Definition request_one rp (b : RTPSGapBuilder) (g : G) (min_seq : SequenceNumber_t) (sit : SequenceNumber_t)
  : option (bool * ReaderProxy * RTPSGapBuilder * G) :=
  match find_change (changes_for_reader_ rp) sit with
  | Some (a, c, t) =>
      if bool_decide (cfr_status c = UNACKNOWLEDGED) then
        c ← markAllFragmentsAsUnsent (with_status c REQUESTED);
        Some (true, set_reader_changes rp (a ++ c :: t), b, g)
      else Some (false, rp, b, g)
  | None =>
      if sn_geb sit min_seq && sn_gtb sit (changes_low_mark_ rp) then
        '(_, b, g) ← gap_add b g sit;
        Some (false, rp, b, g)
      else Some (false, rp, b, g)
  end.

Fixpoint request_each rp (b : RTPSGapBuilder) (g : G) (min_seq : SequenceNumber_t) (sits : list SequenceNumber_t)
  : option (bool * ReaderProxy * RTPSGapBuilder * G) :=
  match sits with
  | [] => Some (false, rp, b, g)
  | sit :: sits =>
      '(one, rp, b, g) ← request_one rp b g min_seq sit;
      '(some, rp, b, g) ← request_each rp b g min_seq sits;
      Some (one || some, rp, b, g)
  end.

Definition requested_changes_set rp (b : RTPSGapBuilder) (g : G) (seq_num_set : BitmapRange SequenceNumber_t)
    (min_seq_in_history : SequenceNumber_t) : option (bool * ReaderProxy * RTPSGapBuilder * G) :=
  if negb (sn_eqb sn_unknown min_seq_in_history)
  then request_each rp b g min_seq_in_history (for_each seq_num_set)
  else Some (false, rp, b, g).

End Requests.
