(* ===== verification/ReaderProxyInv.v ===== *)
(** * The invariant of the reader proxy

    The representation invariant of [ReaderProxy] next to the history of its
    writer (the changes are sorted, beyond the low mark and in the history), the
    status of a number, and what each operation of [ReaderProxy.cpp] does to the
    low mark and to the statuses. *)

From Stdlib Require Import Sorted.
From S2P Require Import Prelude SequenceNumber BitmapRange RangeSpec TimedEvent WriterProxyInv ParameterList GapBuilder.
From S2P Require Import WriterHistory ChangeForReader ReaderProxy.

Implicit Types (rp : ReaderProxy) (c : ChangeForReader_t) (s : SequenceNumber_t) (h : WriterHistory) (o : OutChange).
Implicit Types (l : list ChangeForReader_t).

Notation cseqs l := (sn_val ∘ cfr_seq <$> l).

(** A change that is sent whole, or in a number of fragments that can be counted. *)
Definition out_ok o : Prop := out_fragment_size o = 0 \/ splits o.

Record cfr_ok c : Prop := mkCfrOk {
  co_seq : cfr_seq c = out_seq (cfr_change c);
  co_usable : usable (cfr_seq c);
  co_out : out_ok (cfr_change c);
  co_unsent : range_wf (unsent_fragments_ c)
}.

(** The changes of a proxy with its low mark. *)
Record changes_ok (low : SequenceNumber_t) l : Prop := mkChangesOk {
  ch_sorted : StronglySorted Z.lt (cseqs l);
  ch_above : Forall (fun c => sn_val low < sn_val (cfr_seq c)) l;
  ch_cfr : Forall cfr_ok l
}.

Record rp_ok h rp : Prop := mkRpOk {
  ro_low : usable (changes_low_mark_ rp);
  ro_changes : changes_ok (changes_low_mark_ rp) (changes_for_reader_ rp);
  ro_history : Forall (fun c => in_history h (sn_val (cfr_seq c))) (changes_for_reader_ rp);
  ro_last : sn_val (changes_low_mark_ rp) <= sn_val (m_lastCacheChangeSeqNum h)
}.

Lemma cseqs_elem l c : c ∈ l -> sn_val (cfr_seq c) ∈ cseqs l.
Proof. intros H. apply list_elem_of_fmap_2 with (f := sn_val ∘ cfr_seq) in H. done. Qed.

(** The status of a number, [None] when it is not in the collection. *)
Fixpoint status_of l (n : Z) : option ChangeForReaderStatus_t :=
  match l with
  | [] => None
  | c :: l => if sn_val (cfr_seq c) =? n then Some (cfr_status c) else status_of l n
  end.

Lemma status_of_app l k n : status_of (l ++ k) n = match status_of l n with Some st => Some st | None => status_of k n end.
Proof. induction l as [|c l IH]; simpl; [done|]. destruct (_ =? n); [done|apply IH]. Qed.

Lemma status_of_None l n : status_of l n = None <-> n ∉ cseqs l.
Proof.
  induction l as [|c l IH]; simpl; [split; [intros; apply not_elem_of_nil|done]|].
  destruct (Z.eqb_spec (sn_val (cfr_seq c)) n) as [<-|Hne].
  - split; [done|]. intros H. destruct H. by left.
  - rewrite IH, not_elem_of_cons. simpl. naive_solver.
Qed.

Lemma status_of_Some l n st : status_of l n = Some st -> exists c, c ∈ l /\ sn_val (cfr_seq c) = n /\ cfr_status c = st.
Proof.
  induction l as [|c l IH]; simpl; [done|]. destruct (Z.eqb_spec (sn_val (cfr_seq c)) n) as [E|_].
  - intros [= <-]. exists c. split; [left|done].
  - intros (d & Hd & ?)%IH. exists d. split; [by right|done].
Qed.

Lemma status_of_above l low n : Forall (fun c => sn_val low < sn_val (cfr_seq c)) l -> n <= sn_val low -> status_of l n = None.
Proof.
  intros Hf Hn. apply status_of_None. intros (c & -> & Hc)%list_elem_of_fmap. simpl in Hn.
  rewrite list.Forall_forall in Hf. apply Hf in Hc. lia.
Qed.

Lemma status_of_in h l n : Forall (fun c => in_history h (sn_val (cfr_seq c))) l -> is_Some (status_of l n) -> in_history h n.
Proof.
  intros Hf [st (c & Hc & <- & _)%status_of_Some]. rewrite list.Forall_forall in Hf. by apply Hf.
Qed.

(** ** Searches *)

Lemma lower_change_spec l s : StronglySorted Z.lt (cseqs l) -> Forall cfr_ok l -> sn_ok s ->
  let '(a, b) := lower_change l s in
  l = a ++ b /\ Forall (fun c => sn_val (cfr_seq c) < sn_val s) a /\ Forall (fun c => sn_val s <= sn_val (cfr_seq c)) b.
Proof.
  induction l as [|c l IH]; intros Hs Hf Ho; [done|]. apply list.Forall_cons in Hf as [Hc Hf]. simpl.
  pose proof (co_usable c Hc). rewrite sn_ltb_val by auto.
  apply StronglySorted_inv in Hs as [Hs Hx]. destruct (Z.ltb_spec (sn_val (cfr_seq c)) (sn_val s)) as [Hlt|Hge].
  - specialize (IH Hs Hf Ho). destruct (lower_change l s) as [a b]. destruct IH as (-> & Ha & Hb).
    split; [done|]. split; [by constructor|done].
  - split; [done|]. split; [constructor|]. constructor; [done|]. apply list.Forall_forall. intros d Hd%cseqs_elem.
    rewrite list.Forall_forall in Hx. apply Hx in Hd. simpl in Hd. lia.
Qed.

Lemma find_change_spec l s : StronglySorted Z.lt (cseqs l) -> Forall cfr_ok l -> sn_ok s ->
  match find_change l s with
  | Some (a, c, b) => l = a ++ c :: b /\ cfr_seq c = s
  | None => status_of l (sn_val s) = None
  end.
Proof.
  intros Hs Hf Ho. unfold find_change. pose proof (lower_change_spec l s Hs Hf Ho) as H. destruct (lower_change l s) as [a b].
  destruct H as (-> & Ha & Hb).
  assert (status_of a (sn_val s) = None) as Ea.
  { apply status_of_None. intros (c & E & Hc)%list_elem_of_fmap. rewrite list.Forall_forall in Ha. apply Ha in Hc. simpl in E. lia. }
  destruct b as [|c b]; [by rewrite app_nil_r|]. apply Forall_app in Hf as [_ Hf]. apply list.Forall_cons in Hf as [Hc Hf].
  pose proof (co_usable c Hc). rewrite sn_eqb_val by auto. destruct (Z.eqb_spec (sn_val (cfr_seq c)) (sn_val s)) as [E|E].
  - split; [done|]. apply sn_val_inj; auto.
  - rewrite status_of_app, Ea. apply status_of_None. apply list.Forall_cons in Hb as [Hc0 _].
    rewrite fmap_app in Hs. rewrite fmap_cons in Hs. intros [Hx|Hx]%elem_of_cons; [simpl in Hx; lia|].
    assert (StronglySorted Z.lt (sn_val (cfr_seq c) :: cseqs b)) as Hs'.
    { clear -Hs. induction (cseqs a) as [|x k IH]; [done|]. simpl in Hs. apply StronglySorted_inv in Hs as [Hs _]. auto. }
    pose proof (sorted_head _ _ _ Hs' Hx). lia.
Qed.

Section Sorted.
Context (l : list ChangeForReader_t).

Lemma sorted_parts a b : StronglySorted Z.lt (cseqs (a ++ b)) ->
  StronglySorted Z.lt (cseqs a) /\ StronglySorted Z.lt (cseqs b) /\ forall x y, x ∈ cseqs a -> y ∈ cseqs b -> x < y.
Proof.
  rewrite fmap_app. induction (cseqs a) as [|x k IH]; simpl; [intros H; split; [constructor|split; [done|by intros ?? ?%elem_of_nil]]|].
  intros [Hs Hx]%StronglySorted_inv. destruct (IH Hs) as (H1 & H2 & H3). apply Forall_app in Hx as [Hx1 Hx2].
  split; [by constructor|]. split; [done|]. intros x' y [->|Hx']%elem_of_cons Hy; [|auto].
  rewrite list.Forall_forall in Hx2. auto.
Qed.

Lemma sorted_join a b : StronglySorted Z.lt (cseqs a) -> StronglySorted Z.lt (cseqs b) ->
  (forall x y, x ∈ cseqs a -> y ∈ cseqs b -> x < y) -> StronglySorted Z.lt (cseqs (a ++ b)).
Proof.
  rewrite fmap_app. intros Ha Hb Hab. induction (cseqs a) as [|x k IH]; simpl; [done|]. apply StronglySorted_inv in Ha as [Ha Hx].
  constructor; [apply IH; [done|intros; apply Hab; [by right|done]]|]. apply Forall_app. split; [done|].
  apply list.Forall_forall. intros y Hy. apply Hab; [left|done].
Qed.
End Sorted.

(** ** Changing one change, removing one *)

(** [c'] in the place of [c], of the same number. *)
Lemma replace_ok low a c c' b : changes_ok low (a ++ c :: b) -> cfr_ok c' -> cfr_seq c' = cfr_seq c ->
  changes_ok low (a ++ c' :: b) /\
  forall n, status_of (a ++ c' :: b) n = if n =? sn_val (cfr_seq c) then Some (cfr_status c') else status_of (a ++ c :: b) n.
Proof.
  intros [Hs Ha Hf] Hc' E. apply Forall_app in Hf as [Hfa Hfb]. apply list.Forall_cons in Hfb as [Hc Hfb].
  apply Forall_app in Ha as [Haa Hab]. apply list.Forall_cons in Hab as [Hac Hab].
  destruct (sorted_parts a (c :: b) Hs) as (_ & _ & Hlt). split.
  - split; [|apply Forall_app; split; [done|]; constructor; [by rewrite E|done]|apply Forall_app; by split; [|constructor]].
    rewrite fmap_app, fmap_cons in *. simpl in *. by rewrite E.
  - intros n. rewrite !status_of_app. simpl. rewrite E. destruct (Z.eqb_spec n (sn_val (cfr_seq c))) as [->|Hne].
    + rewrite (proj2 (status_of_None a (sn_val (cfr_seq c)))); [by rewrite Z.eqb_refl|].
      intros Hx. specialize (Hlt _ (sn_val (cfr_seq c)) Hx ltac:(by left)). lia.
    + by rewrite (proj2 (Z.eqb_neq (sn_val (cfr_seq c)) n)) by done.
Qed.

Lemma remove_ok low a c b : changes_ok low (a ++ c :: b) ->
  changes_ok low (a ++ b) /\
  forall n, status_of (a ++ b) n = if n =? sn_val (cfr_seq c) then None else status_of (a ++ c :: b) n.
Proof.
  intros [Hs Ha Hf]. apply Forall_app in Hf as [Hfa Hfb]. apply list.Forall_cons in Hfb as [Hc Hfb].
  apply Forall_app in Ha as [Haa Hab]. apply list.Forall_cons in Hab as [Hac Hab].
  destruct (sorted_parts a (c :: b) Hs) as (Hsa & Hsb & Hlt). rewrite fmap_cons in Hsb. apply StronglySorted_inv in Hsb as [Hsb Hx]. split.
  - split; [|by apply Forall_app..]. apply sorted_join; [done|done|]. intros x y Hx' Hy. apply Hlt; [done|]. by right.
  - intros n. rewrite !status_of_app. simpl. destruct (Z.eqb_spec n (sn_val (cfr_seq c))) as [->|Hne].
    + rewrite (proj2 (status_of_None a _)), (proj2 (status_of_None b _)); [done| |].
      * intros Hy. rewrite list.Forall_forall in Hx. specialize (Hx _ Hy). simpl in Hx. lia.
      * intros Hy. specialize (Hlt _ (sn_val (cfr_seq c)) Hy ltac:(by left)). lia.
    + by rewrite (proj2 (Z.eqb_neq (sn_val (cfr_seq c)) n)) by done.
Qed.

(** ** Acknowledgements *)

Lemma skip_acked_spec : forall l mark,
  StronglySorted Z.lt (cseqs l) -> Forall cfr_ok l -> Forall (fun c => sn_val mark <= sn_val (cfr_seq c)) l ->
  sn_valid mark -> 1 <= sn_val mark -> sn_val mark - 1 + 258 < 2 ^ 63 ->
  let '(m, rest) := skip_acked l mark in
  (exists a, l = a ++ rest) /\ sn_valid m /\ sn_val mark <= sn_val m /\ sn_val m - 1 + 258 < 2 ^ 63 /\
  (forall n, sn_val mark <= n < sn_val m -> status_of l n = Some ACKNOWLEDGED) /\
  Forall (fun c => sn_val m <= sn_val (cfr_seq c)) rest /\
  (forall n, sn_val m <= n -> status_of rest n = status_of l n).
Proof.
  assert (Hstay : forall l (mark : SequenceNumber_t), sn_valid mark -> sn_val mark - 1 + 258 < 2 ^ 63 ->
    Forall (fun c => sn_val mark <= sn_val (cfr_seq c)) l ->
    (exists a, l = a ++ l) /\ sn_valid mark /\ sn_val mark <= sn_val mark /\ sn_val mark - 1 + 258 < 2 ^ 63 /\
    (forall n, sn_val mark <= n < sn_val mark -> status_of l n = Some ACKNOWLEDGED) /\
    Forall (fun c => sn_val mark <= sn_val (cfr_seq c)) l /\ (forall n, sn_val mark <= n -> status_of l n = status_of l n)).
  { intros l mark Hv Hl Hg. split; [by exists []|]. do 3 (split; [done|]). split; [lia|]. done. }
  induction l as [|c l IH]; intros mark Hs Hf Hg Hv H1 Hl; [by apply Hstay|]. simpl.
  apply list.Forall_cons in Hf as [Hc Hf]. apply list.Forall_cons in Hg as [Hgc Hg]. pose proof (co_usable c Hc) as Hu.
  rewrite sn_eqb_val by (auto; apply Hv). destruct (Z.eqb_spec (sn_val (cfr_seq c)) (sn_val mark)) as [E|E]; simpl.
  2:{ apply Hstay; [done|done|by constructor]. }
  destruct (bool_decide (cfr_status c = ACKNOWLEDGED)) eqn:Ea; simpl; [|apply Hstay; [done|done|by constructor]].
  apply bool_decide_eq_true in Ea. apply StronglySorted_inv in Hs as [Hs Hx].
  destruct (sn_incr_val mark Hv) as [Hvi Ei]; [lia|]. pose proof (usable_range _ Hu).
  specialize (IH (sn_incr mark) Hs Hf). destruct (skip_acked l (sn_incr mark)) as [m rest]. rewrite Ei in IH.
  destruct IH as ([a ->] & Hvm & Hle & Hlm & Hack & Hrest & Hst); [|done|lia|lia|].
  { apply list.Forall_forall. intros d Hd%cseqs_elem. rewrite list.Forall_forall in Hx. apply Hx in Hd. simpl in Hd. lia. }
  split; [by exists (c :: a)|]. split; [done|]. split; [lia|]. split; [done|]. split; [|split; [done|]].
  - intros n Hn. rewrite E. destruct (Z.eqb_spec (sn_val mark) n); [by rewrite Ea|]. apply Hack. lia.
  - intros n Hn. rewrite E. rewrite (proj2 (Z.eqb_neq _ _)) by lia. by apply Hst.
Qed.

(** The proxies that differ in the changes and the low mark. *)
Definition same_reader rp rp' : Prop := rp' = set_marks rp (changes_for_reader_ rp') (changes_low_mark_ rp').

Lemma same_reader_fields rp rp' : same_reader rp rp' ->
  remote_guid_ rp' = remote_guid_ rp /\ is_local_reader_ rp' = is_local_reader_ rp /\
  is_datasharing_reader_ rp' = is_datasharing_reader_ rp /\ durability_kind_ rp' = durability_kind_ rp /\
  is_reliable_ rp' = is_reliable_ rp /\ timers_enabled_ rp' = timers_enabled_ rp /\
  next_expected_acknack_count_ rp' = next_expected_acknack_count_ rp /\ last_nackfrag_count_ rp' = last_nackfrag_count_ rp.
Proof. intros ->. done. Qed.

Lemma sub_one s : sn_valid s -> 1 <= sn_val s -> sn_val s - 1 + 258 < 2 ^ 63 -> usable (sn_sub_u32 s 1) /\ sn_val (sn_sub_u32 s 1) = sn_val s - 1.
Proof. intros Hv H1 Hr. destruct (sn_sub_u32_val s 1 Hv) as [Hv' E]; [lia|lia|]. split; [split; [done|lia]|done]. Qed.

(** An acknowledgement up to [seq_num]: the low mark moves there, and on over
    what follows acknowledged. *)
Lemma acked_changes_set_up h rp seq_num :
  rp_ok h rp -> sn_valid seq_num -> sn_val (changes_low_mark_ rp) < sn_val seq_num <= sn_val (m_lastCacheChangeSeqNum h) + 1 ->
  history_ok h ->
  exists rp', acked_changes_set h rp seq_num = Some rp' /\ rp_ok h rp' /\ same_reader rp rp' /\
    sn_val seq_num - 1 <= sn_val (changes_low_mark_ rp') /\
    (forall n, sn_val seq_num <= n <= sn_val (changes_low_mark_ rp') -> status_of (changes_for_reader_ rp) n = Some ACKNOWLEDGED) /\
    (forall n, sn_val (changes_low_mark_ rp') < n -> status_of (changes_for_reader_ rp') n = status_of (changes_for_reader_ rp) n).
Proof.
  intros [Hlow [Hs Ha Hf] Hh Hlast] Hu [Hlt Hle] [_ _ Hul Hbd]. unfold acked_changes_set. rewrite sn_gtb_val by (auto; apply Hu).
  rewrite (proj2 (Z.ltb_lt _ _)) by done. pose proof (usable_range _ Hlow). pose proof (usable_range _ Hul).
  pose proof (lower_change_spec _ seq_num Hs Hf ltac:(apply Hu)) as HL. destruct (lower_change (changes_for_reader_ rp) seq_num) as [a b].
  destruct HL as (El & Hla & Hlb). rewrite El in *. apply Forall_app in Hf as [Hfa Hfb]. apply Forall_app in Hh as [Hha Hhb].
  destruct (sorted_parts a b Hs) as (_ & Hsb & Hab).
  pose proof (skip_acked_spec b seq_num Hsb Hfb Hlb Hu ltac:(lia) ltac:(lia)) as HK.
  destruct (skip_acked b seq_num) as [m rest]. destruct HK as ([a' Eb] & Hvm & Hm & Hlm & Hack & Hrest & Hst).
  destruct (sub_one m Hvm) as [Hum Em]; [lia|lia|]. eexists. split; [done|].
  assert (forall n, sn_val seq_num <= n -> status_of a n = None) as Hna.
  { intros n Hn. apply status_of_None. intros (c & -> & Hc)%list_elem_of_fmap. rewrite list.Forall_forall in Hla. apply Hla in Hc. simpl in Hn. lia. }
  assert (forall n, sn_val seq_num <= n < sn_val m -> in_history h n) as Hin.
  { intros n Hn. apply (status_of_in h b); [done|]. rewrite Hack by done. by eexists. }
  split; [|split; [done|simpl; rewrite Em; split; [lia|split]]].
  - split; simpl; [done| | |].
    + rewrite Eb in *. destruct (sorted_parts a' rest Hsb) as (_ & Hsr & _). split; [done| |by apply Forall_app in Hfb as [_ ?]].
      eapply list.Forall_impl; [exact Hrest|]. simpl. lia.
    + rewrite Eb in Hhb. by apply Forall_app in Hhb as [_ ?].
    + rewrite Em. destruct (Z.eq_dec (sn_val m) (sn_val seq_num)) as [->|Hne]; [lia|].
      specialize (Hin (sn_val m - 1) ltac:(lia)). apply list_elem_of_fmap in Hin as (o & Eo & Ho). simpl in Eo.
      rewrite list.Forall_forall in Hbd. apply Hbd in Ho. lia.
  - intros n Hn. rewrite status_of_app, Hna by lia. apply Hack. lia.
  - intros n Hn. rewrite status_of_app, Hna by lia. apply Hst. lia.
Qed.

(** *** Starting again

    A reader that acknowledges 0 gets the whole history again. *)

Definition history_frags h : Prop := Forall out_ok (m_changes h).

Lemma find_change_in l s a c b : find_change l s = Some (a, c, b) -> c ∈ l /\ sn_eqb (cfr_seq c) s = true.
Proof.
  unfold find_change. intros H. destruct (lower_change l s) as [x y] eqn:E. destruct y as [|d y]; [done|].
  destruct (sn_eqb (cfr_seq d) s) eqn:Ed; [|done]. injection H as -> -> ->. split; [|done].
  revert a E. induction l as [|e l IH]; intros a E; simpl in E; [done|]. destruct (sn_ltb (cfr_seq e) s).
  - destruct (lower_change l s) as [x y]. injection E as <- ->. right. by eapply IH.
  - injection E as <- <- <-. left.
Qed.

Lemma ChangeForReader_new_ok o : usable (out_seq o) -> out_ok o ->
  exists c, ChangeForReader_new o = Some c /\ cfr_ok c /\ cfr_seq c = out_seq o /\ cfr_change c = o /\ cfr_status c = UNSENT /\ delivered_ c = false.
Proof.
  intros Hu Ho. unfold ChangeForReader_new.
  assert (range_wf (range_default : BitmapRange FragmentNumber_t)) as W0.
  { destruct (range_of_spec (mkFrag 0) 255) as (W & _); simpl; [lia|lia|lia|done]. }
  destruct Ho as [E0|Hs].
  - unfold all_fragments. rewrite E0. simpl. eexists. split; [done|]. split; [|done]. split; simpl; [done|done|by left|done].
  - destruct (all_fragments_window range_default o Hs) as (r & -> & Wd). simpl. eexists. split; [done|]. split; [|done].
    split; simpl; [done|done|by right|apply Wd].
Qed.

Lemma with_status_ok c st : cfr_ok c -> cfr_ok (with_status c st).
Proof. by intros []. Qed.

Lemma revive_spec h (low : SequenceNumber_t) : history_ok h -> history_frags h -> usable low -> forall fuel cur l flag,
  sn_valid cur -> sn_val cur <= sn_val low + 1 -> sn_val low - sn_val cur + 1 <= Z.of_nat fuel ->
  Forall cfr_ok l -> (forall n, sn_val cur <= n <= sn_val low -> n ∉ cseqs l) ->
  exists q, revive fuel h low cur l flag = Some (l ++ q, flag || negb (match q with [] => true | _ => false end)) /\
    StronglySorted Z.lt (cseqs q) /\ Forall cfr_ok q /\ Forall (fun c => sn_val cur <= sn_val (cfr_seq c) <= sn_val low) q /\
    Forall (fun c => in_history h (sn_val (cfr_seq c)) /\ cfr_status c = UNACKNOWLEDGED) q /\
    (forall n, sn_val cur <= n <= sn_val low -> in_history h n -> n ∈ cseqs q).
Proof.
  intros Hh Hfr Hlow. pose proof (usable_range _ Hlow) as Hrl.
  assert (Hend : forall fuel (cur : SequenceNumber_t) l flag, sn_valid cur -> sn_val cur = sn_val low + 1 ->
    exists q, revive fuel h low cur l flag = Some (l ++ q, flag || negb (match q with [] => true | _ => false end)) /\
    StronglySorted Z.lt (cseqs q) /\ Forall cfr_ok q /\ Forall (fun c => sn_val cur <= sn_val (cfr_seq c) <= sn_val low) q /\
    Forall (fun c => in_history h (sn_val (cfr_seq c)) /\ cfr_status c = UNACKNOWLEDGED) q /\
    (forall n, sn_val cur <= n <= sn_val low -> in_history h n -> n ∈ cseqs q)).
  { intros fuel cur l flag Hv E. exists []. destruct fuel; cbn [revive]; rewrite sn_leb_val by (auto; apply Hv);
      rewrite (proj2 (Z.leb_gt _ _)) by lia; simpl; rewrite app_nil_r, orb_false_r; (split; [done|]);
      (split; [constructor|]); (split; [constructor|]); (split; [constructor|]); (split; [constructor|]); intros; lia. }
  induction fuel as [|fuel IH]; intros cur l flag Hv Hc Hfu Hl Hno; [apply Hend; [done|lia]|].
  destruct (Z.eq_dec (sn_val cur) (sn_val low + 1)) as [E|Hne]; [by apply Hend|]. cbn [revive].
  rewrite !sn_leb_val by (auto; apply Hv). rewrite (proj2 (Z.leb_le _ _)) by lia.
  destruct (find_change l cur) as [[[a c] b]|] eqn:Ef.
  { exfalso. apply find_change_in in Ef as [Hin He]. rewrite list.Forall_forall in Hl. pose proof (co_usable _ (Hl c Hin)).
    rewrite sn_eqb_val in He by (auto; apply Hv). apply Z.eqb_eq in He. apply (Hno (sn_val cur)); [lia|]. rewrite <- He. by apply cseqs_elem. }
  rewrite sn_leb_val by (auto; apply Hv). rewrite (proj2 (Z.leb_le _ _)) by lia.
  destruct (sn_incr_val cur Hv) as [Hvi Ei]; [lia|].
  pose proof (get_change_nts_spec (m_changes h) cur (ho_sorted _ Hh) (ho_usable _ Hh) ltac:(apply Hv)) as HG.
  unfold get_change. destruct (get_change_nts (m_changes h) cur) as [o|].
  - destruct HG as [Ho Eo]. pose proof (ho_usable _ Hh) as Hus. unfold history_frags in Hfr. rewrite list.Forall_forall in Hus, Hfr.
    destruct (ChangeForReader_new_ok o (Hus o Ho) (Hfr o Ho)) as (c & -> & Hok & Es & Ec & _). simpl.
    destruct (IH (sn_incr cur) (l ++ [with_status c UNACKNOWLEDGED]) true) as (q & E & Hsq & Hfq & Hbq & Hhq & Hcq).
    { done. } { lia. } { lia. }
    { apply Forall_app. split; [done|]. constructor; [by apply with_status_ok|constructor]. }
    { intros n Hn. rewrite fmap_app. intros [Hx|Hx]%elem_of_app; [by apply (Hno n); [lia|]|].
      apply list_elem_of_singleton in Hx. simpl in Hx. rewrite Es in Hx. lia. }
    exists (with_status c UNACKNOWLEDGED :: q). rewrite E. split; [by rewrite <- app_assoc, orb_true_r|].
    assert (sn_val (cfr_seq c) = sn_val cur) as Esv by (by rewrite Es). split; [|split; [|split; [|split]]].
    + rewrite fmap_cons. constructor; [done|]. apply list.Forall_forall. intros n (d & -> & Hd)%list_elem_of_fmap. simpl.
      rewrite list.Forall_forall in Hbq. apply Hbq in Hd. simpl in *. lia.
    + constructor; [by apply with_status_ok|done].
    + constructor; [simpl; lia|]. eapply list.Forall_impl; [exact Hbq|]. simpl. lia.
    + constructor; [|done]. simpl. split; [|done]. rewrite Esv, <- Eo. by apply seqs_elem.
    + intros n Hn Hin. rewrite fmap_cons. apply elem_of_cons. simpl. destruct (Z.eq_dec n (sn_val cur)) as [->|]; [left; lia|].
      right. apply Hcq; [lia|done].
  - destruct (IH (sn_incr cur) l flag Hvi) as (q & E & Hsq & Hfq & Hbq & Hhq & Hcq); [lia|lia|done|intros; apply Hno; lia|].
    exists q. rewrite E. split; [done|]. split; [done|]. split; [done|]. split; [|split; [done|]].
    + eapply list.Forall_impl; [exact Hbq|]. simpl. lia.
    + intros n Hn Hin. destruct (Z.eq_dec n (sn_val cur)) as [->|]; [by destruct HG|]. apply Hcq; [lia|done].
Qed.

Lemma insert_change_between q c l : Forall cfr_ok (q ++ c :: l) ->
  (forall x, x ∈ cseqs q -> x < sn_val (cfr_seq c)) -> (forall x, x ∈ cseqs l -> sn_val (cfr_seq c) < x) ->
  insert_change c (q ++ l) = q ++ c :: l.
Proof.
  induction q as [|d q IH]; intros Hf Hq Hl; simpl.
  - destruct l as [|e l]; [done|]. simpl. apply list.Forall_cons in Hf as [Hc Hf]. apply list.Forall_cons in Hf as [He _].
    pose proof (co_usable _ Hc). pose proof (co_usable _ He). rewrite sn_ltb_val by auto.
    specialize (Hl (sn_val (cfr_seq e)) ltac:(by left)). by rewrite (proj2 (Z.ltb_ge _ _)) by lia.
  - simpl in Hf. apply list.Forall_cons in Hf as [Hd Hf]. pose proof (co_usable _ Hd).
    assert (cfr_ok c) as Hc by (apply Forall_app in Hf as [_ Hf]; by inversion Hf). pose proof (co_usable _ Hc).
    rewrite sn_ltb_val by auto. specialize (Hq (sn_val (cfr_seq d)) ltac:(by left)) as Hd'.
    rewrite (proj2 (Z.ltb_lt _ _)) by lia. f_equal. apply IH; [done| |done]. intros x Hx. apply Hq. by right.
Qed.

Lemma sort_changes_sorted q : StronglySorted Z.lt (cseqs q) -> Forall cfr_ok q -> sort_changes q = q.
Proof.
  induction q as [|c q IH]; intros Hs Hf; [done|]. rewrite fmap_cons in Hs. apply StronglySorted_inv in Hs as [Hs Hx].
  apply list.Forall_cons in Hf as Hf'. destruct Hf' as [Hc Hq]. unfold sort_changes. simpl. fold (sort_changes q). rewrite IH by done.
  apply (insert_change_between [] c q); [done|by intros ? ?%elem_of_nil|]. rewrite list.Forall_forall in Hx. auto.
Qed.

(** Sorting puts the smaller part in front. *)
Lemma sort_changes_app l q : StronglySorted Z.lt (cseqs l) -> StronglySorted Z.lt (cseqs q) -> Forall cfr_ok (l ++ q) ->
  (forall x y, x ∈ cseqs q -> y ∈ cseqs l -> x < y) -> sort_changes (l ++ q) = q ++ l.
Proof.
  intros Hl Hq Hf Hlt. induction l as [|c l IH]; [rewrite app_nil_r; simpl in *; by apply sort_changes_sorted|].
  rewrite fmap_cons in Hl. apply StronglySorted_inv in Hl as [Hl Hx]. simpl in Hf. apply list.Forall_cons in Hf as [Hc Hf].
  unfold sort_changes. simpl. fold (sort_changes (l ++ q)). rewrite IH; [|done|done|intros; apply Hlt; [done|by right]].
  apply Forall_app in Hf as [Hfl Hfq]. apply insert_change_between.
  - apply Forall_app. split; [done|]. by constructor.
  - intros x Hq'. apply Hlt; [done|]. by left.
  - rewrite list.Forall_forall in Hx. auto.
Qed.

Lemma acked_changes_set_zero h rp :
  rp_ok h rp -> history_ok h -> history_frags h -> durability_kind_ rp <> VOLATILE -> is_local_reader_ rp = false ->
  exists rp', acked_changes_set h rp (mkSN 0 0) = Some rp' /\ rp_ok h rp' /\ same_reader rp rp' /\
    (forall n, n <= sn_val (changes_low_mark_ rp') -> ~ in_history h n) /\
    (forall n, status_of (changes_for_reader_ rp') n =
       if (n <=? sn_val (changes_low_mark_ rp)) && bool_decide (in_history h n) then Some UNACKNOWLEDGED
       else status_of (changes_for_reader_ rp) n).
Proof.
  intros [Hlow [Hs Ha Hf] Hin Hlast] Hh Hfr Hd Hloc. unfold acked_changes_set. pose proof (usable_range _ Hlow) as Hrl.
  assert (sn_ok (mkSN 0 0)) as Hz by done. rewrite sn_gtb_val by auto. rewrite (proj2 (Z.ltb_ge _ _)) by (change (sn_val (mkSN 0 0)) with 0; lia).
  rewrite bool_decide_eq_false_2 by done. rewrite sn_eqb_val by done. simpl.
  pose proof (seq_num_min_spec h Hh) as HM. destruct (get_min_change h) as [o|].
  - destruct HM as (-> & Huo & Hino & Hmin). destruct (sn_unknown_val (out_seq o) ltac:(auto)) as [Eu _].
    rewrite sn_eqb_val in Eu by (done || auto). rewrite sn_eqb_val by (done || auto). rewrite Z.eqb_sym, Eu. cbn [negb].
    assert (0 < sn_val (out_seq o)) as Hpos.
    { apply list_elem_of_fmap in Hino as (o' & Eo' & Ho'). simpl in Eo'. pose proof (ho_bound _ Hh) as Hb.
      rewrite list.Forall_forall in Hb. apply Hb in Ho'. lia. }
    rewrite sn_ltb_val by auto. change (sn_val (mkSN 0 0)) with 0. rewrite (proj2 (Z.ltb_lt _ _)) by done.
    destruct (sub_one (out_seq o)) as [Hus Esub]; [auto|lia|apply usable_range in Huo; lia|].
    assert (exists q, revive (revive_fuel (changes_low_mark_ rp) (out_seq o)) h (changes_low_mark_ rp) (out_seq o) (changes_for_reader_ rp) false
      = Some (changes_for_reader_ rp ++ q, false || negb (match q with [] => true | _ => false end)) /\
      StronglySorted Z.lt (cseqs q) /\ Forall cfr_ok q /\ Forall (fun c => sn_val (out_seq o) <= sn_val (cfr_seq c) <= sn_val (changes_low_mark_ rp)) q /\
      Forall (fun c => in_history h (sn_val (cfr_seq c)) /\ cfr_status c = UNACKNOWLEDGED) q /\
      (forall n, sn_val (out_seq o) <= n <= sn_val (changes_low_mark_ rp) -> in_history h n -> n ∈ cseqs q))
      as (q & -> & Hsq & Hfq & Hbq & Hhq & Hcq).
    { destruct (Z.le_gt_cases (sn_val (out_seq o)) (sn_val (changes_low_mark_ rp) + 1)) as [Hle|Hgt].
      - apply revive_spec; [done|done|done|auto|done|unfold revive_fuel; lia|done|]. intros n Hn. apply status_of_None.
        apply (status_of_above _ (changes_low_mark_ rp)); [done|lia].
      - exists []. unfold revive_fuel. replace (Z.to_nat _) with 0%nat by lia. cbn [revive]. rewrite sn_leb_val by auto.
        rewrite (proj2 (Z.leb_gt _ _)) by lia. rewrite app_nil_r. split; [done|]. do 4 (split; [constructor|]). intros; lia. }
    simpl.
    assert (forall x y, x ∈ cseqs q -> y ∈ cseqs (changes_for_reader_ rp) -> x < y) as Hqy.
    { intros x y (c & -> & Hc)%list_elem_of_fmap (d & -> & Hd')%list_elem_of_fmap. simpl. rewrite list.Forall_forall in Hbq, Ha.
      apply Hbq in Hc. apply Ha in Hd'. lia. }
    exists (set_marks rp (q ++ changes_for_reader_ rp) (sn_sub_u32 (out_seq o) 1)).
    split; [|split; [|split; [done|split]]].
    + destruct q; simpl; [by rewrite app_nil_r|]. rewrite sort_changes_app; [done|done|done| |done]. by apply Forall_app.
    + split; simpl; [done| | |].
      * split; [by apply sorted_join| |by apply Forall_app]. rewrite Esub. apply Forall_app. split.
        -- eapply list.Forall_impl; [exact Hbq|]. simpl. lia.
        -- eapply list.Forall_impl; [exact Hin|]. simpl. intros c Hc%Hmin. lia.
      * apply Forall_app. split; [|done]. eapply list.Forall_impl; [exact Hhq|]. by intros c [].
      * rewrite Esub. apply list_elem_of_fmap in Hino as (o' & Eo' & Ho'). simpl in Eo'. pose proof (ho_bound _ Hh) as Hb.
        rewrite list.Forall_forall in Hb. apply Hb in Ho'. lia.
    + simpl. rewrite Esub. intros n Hn Hi%Hmin. lia.
    + intros n. simpl. rewrite status_of_app. destruct (status_of q n) as [st|] eqn:Eq.
      * apply status_of_Some in Eq as (c & Hc & <- & <-). rewrite list.Forall_forall in Hbq, Hhq. destruct (Hhq c Hc) as [Hi ->].
        specialize (Hbq c Hc). rewrite (proj2 (Z.leb_le _ _)) by lia. by rewrite bool_decide_eq_true_2.
      * destruct (Z.leb_spec n (sn_val (changes_low_mark_ rp))) as [Hn|Hn]; simpl; [|done]. case_bool_decide as Hi; [|done].
        apply status_of_None in Eq. destruct Eq. apply Hcq; [|done]. apply Hmin in Hi. lia.
  - destruct HM as [-> Hno]. simpl. rewrite Hloc. simpl. eexists. split; [done|].
    destruct (usable_next _ (ho_last _ Hh)) as [Hvn En]. pose proof (usable_range _ (ho_last _ Hh)) as Hrn.
    unfold next_sequence_number. destruct (sub_one (sn_add (m_lastCacheChangeSeqNum h) 1)) as [Hus Esub]; [done|lia|rewrite En; lia|].
    assert (changes_for_reader_ rp = []) as El.
    { destruct (changes_for_reader_ rp) as [|c l]; [done|]. apply list.Forall_cons in Hin as [Hi _]. by destruct (Hno _ Hi). }
    split; [|split; [done|split]].
    + split; simpl; [done|rewrite El; repeat constructor|by rewrite El|lia].
    + intros n _. apply Hno.
    + intros n. simpl. rewrite El. simpl. rewrite bool_decide_eq_false_2 by apply Hno. by rewrite andb_false_r.
Qed.
