(* ===== verification/ReaderProxyLaws.v ===== *)
(** * What the reader proxy does

    Each operation of [ReaderProxy.cpp] on a remote reliable reader, on a proxy
    that satisfies its invariant: it succeeds (no assertion fails, no fragment
    window is left), keeps the invariant and changes the statuses as stated. *)

From Stdlib Require Import Sorted.
From S2P Require Import Prelude SequenceNumber BitmapRange RangeSpec TimedEvent WriterProxyInv ParameterList GapBuilder.
From S2P Require Import WriterHistory ChangeForReader ReaderProxy ReaderProxyInv.

Implicit Types (rp : ReaderProxy) (c : ChangeForReader_t) (s : SequenceNumber_t) (h : WriterHistory) (o : OutChange).
Implicit Types (l : list ChangeForReader_t).

(** A proxy whose changes are replaced by others of the same numbers and statuses
    given by [f]. *)
Definition updated rp rp' (f : Z -> option ChangeForReaderStatus_t) : Prop :=
  changes_low_mark_ rp' = changes_low_mark_ rp /\ forall n, status_of (changes_for_reader_ rp') n = f n.

(** ** New changes *)

Lemma last_change_None l : last_change l = None -> l = [].
Proof. unfold last_change. rewrite <- (rev_involutive l) at 2. by destruct (rev l). Qed.

Lemma last_change_Some l d : last_change l = Some d -> exists a, l = a ++ [d].
Proof.
  unfold last_change. intros H. destruct (rev l) as [|e k] eqn:E; [done|]. injection H as ->. exists (rev k).
  by rewrite <- (rev_involutive l), E.
Qed.

Lemma rp_ok_more h h' rp : rp_ok h rp -> (forall n, in_history h n -> in_history h' n) ->
  sn_val (m_lastCacheChangeSeqNum h) <= sn_val (m_lastCacheChangeSeqNum h') -> rp_ok h' rp.
Proof.
  intros [H1 H2 H3 H4] Hi Hl. split; [done|done| |lia]. eapply list.Forall_impl; [exact H3|]. auto.
Qed.

Lemma add_change_spec h h' rp c relevant :
  rp_ok h rp -> history_ok h' -> cfr_ok c -> cfr_seq c = m_lastCacheChangeSeqNum h' ->
  sn_val (m_lastCacheChangeSeqNum h') = sn_val (m_lastCacheChangeSeqNum h) + 1 ->
  (forall n, in_history h' n <-> in_history h n \/ n = sn_val (cfr_seq c)) ->
  (forall n, in_history h n -> n <= sn_val (m_lastCacheChangeSeqNum h)) -> is_reliable_ rp = true ->
  exists rp', add_change rp c relevant false = Some rp' /\ rp_ok h' rp' /\ same_reader rp rp' /\
    updated rp rp' (fun n => if relevant && (n =? sn_val (cfr_seq c)) then Some (cfr_status c) else status_of (changes_for_reader_ rp) n).
Proof.
  intros Hok Hh' Hc Es El Hin Hb Hrel. pose proof Hok as [Hlow [Hs Ha Hf] Hi Hlast]. pose proof (co_usable c Hc) as Hu.
  assert (forall d, d ∈ changes_for_reader_ rp -> sn_val (cfr_seq d) < sn_val (cfr_seq c)) as Hlt.
  { intros d Hd. rewrite list.Forall_forall in Hi. apply Hi, Hb in Hd. rewrite Es. lia. }
  assert (rp_ok h' rp) as Hok' by (apply (rp_ok_more h); [done|intros; apply Hin; by left|lia]).
  unfold add_change. simpl. unfold assert. rewrite sn_gtb_val by auto. rewrite (proj2 (Z.ltb_lt _ _)) by (rewrite Es; lia).
  assert (match last_change (changes_for_reader_ rp) with Some d => sn_gtb (cfr_seq c) (cfr_seq d) | None => true end = true) as ->.
  { destruct (last_change (changes_for_reader_ rp)) as [d|] eqn:E; [|done]. apply last_change_Some in E as [a E]. rewrite E in *.
    assert (d ∈ a ++ [d]) as Hd by (apply elem_of_app; right; left). rewrite list.Forall_forall in Hf. pose proof (co_usable _ (Hf d Hd)).
    rewrite sn_gtb_val by auto. apply Z.ltb_lt. auto. }
  destruct relevant; simpl.
  - eexists. split; [done|]. split; [|split; [done|split; [done|]]].
    + destruct Hok' as [_ _ Hi' Hlast']. split; simpl; [done| | |done].
      * split.
        -- rewrite fmap_app. apply sorted_snoc; [done|]. intros n (d & -> & Hd)%list_elem_of_fmap. simpl. auto.
        -- apply Forall_app. split; [done|]. constructor; [rewrite Es; lia|constructor].
        -- apply Forall_app. split; [done|]. constructor; [done|constructor].
      * apply Forall_app. split; [done|]. constructor; [apply Hin; by right|constructor].
    + intros n. simpl. rewrite status_of_app. simpl. rewrite (Z.eqb_sym n). destruct (Z.eqb_spec (sn_val (cfr_seq c)) n) as [<-|Hne].
      * rewrite (proj2 (status_of_None _ _)); [done|]. intros (d & E & Hd)%list_elem_of_fmap. simpl in E. apply Hlt in Hd. lia.
      * by destruct (status_of _ n).
  - rewrite Hrel. simpl. exists rp. split; [done|]. split; [done|]. by destruct rp.
Qed.

(** ** Conversions *)

Lemma convert_status_spec h rp previous next :
  rp_ok h rp -> status_num next < status_num previous ->
  exists cs rp', convert_status_on_all_changes rp previous next = Some (cs, rp') /\ rp_ok h rp' /\ same_reader rp rp' /\
    updated rp rp' (fun n => match status_of (changes_for_reader_ rp) n with
                             | Some st => Some (if bool_decide (st = previous) then next else st)
                             | None => None
                             end) /\
    (forall c, c ∈ cs <-> c ∈ changes_for_reader_ rp /\ cfr_status c = previous).
Proof.
  intros [Hlow [Hs Ha Hf] Hi Hlast] Hlt. unfold convert_status_on_all_changes, assert. rewrite (proj2 (Z.gtb_lt _ _)) by done.
  set (f := fun c => if bool_decide (cfr_status c = previous) then with_status c next else c).
  assert (forall c, cfr_seq (f c) = cfr_seq c) as Efs by (intros c; unfold f; by case_bool_decide).
  assert (forall c, cfr_ok c -> cfr_ok (f c)) as Hfo by (intros c ?; unfold f; case_bool_decide; [by apply with_status_ok|done]).
  eexists _, _. split; [done|]. split; [|split; [done|split; [split; [done|]|]]].
  - split; simpl; [done| | |done]; unfold convert_status; fold f.
    + split; [|rewrite list.Forall_fmap; eapply list.Forall_impl; [exact Ha|]; intros c; simpl; by rewrite Efs
              |rewrite list.Forall_fmap; eapply list.Forall_impl; [exact Hf|]; apply Hfo].
      rewrite <- list_fmap_compose. erewrite list_fmap_ext; [exact Hs|]. intros i c _. simpl. by rewrite Efs.
    + rewrite list.Forall_fmap. eapply list.Forall_impl; [exact Hi|]. intros c. simpl. by rewrite Efs.
  - intros n. simpl. unfold convert_status. fold f. clear - Efs. induction (changes_for_reader_ rp) as [|c l IH]; simpl; [done|]. rewrite Efs.
    destruct (_ =? n); [|apply IH]. unfold f. by case_bool_decide.
  - intros c. unfold converted. rewrite list_elem_of_filter. tauto.
Qed.

(** ** Sending *)

(** What stays the same in a proxy that works: the reader and its QoS. *)
Definition kept rp rp' : Prop :=
  remote_guid_ rp' = remote_guid_ rp /\ is_local_reader_ rp' = is_local_reader_ rp /\
  is_datasharing_reader_ rp' = is_datasharing_reader_ rp /\ durability_kind_ rp' = durability_kind_ rp /\
  is_reliable_ rp' = is_reliable_ rp /\ timers_enabled_ rp' = timers_enabled_ rp.

Lemma kept_refl rp : kept rp rp.
Proof. done. Qed.

Lemma kept_trans rp1 rp2 rp3 : kept rp1 rp2 -> kept rp2 rp3 -> kept rp1 rp3.
Proof. unfold kept. naive_solver congruence. Qed.

Lemma same_reader_kept rp rp' : same_reader rp rp' -> kept rp rp' /\
  next_expected_acknack_count_ rp' = next_expected_acknack_count_ rp /\ last_nackfrag_count_ rp' = last_nackfrag_count_ rp.
Proof. intros (? & ? & ? & ? & ? & ? & ? & ?)%same_reader_fields. done. Qed.

Lemma same_reader_trans rp1 rp2 rp3 : same_reader rp1 rp2 -> same_reader rp2 rp3 -> same_reader rp1 rp3.
Proof. unfold same_reader. intros E1 E2. rewrite E2, E1. done. Qed.

(** The invariant looks at the changes and the low mark only. *)
Lemma rp_ok_marks h rp rp' : rp_ok h rp -> changes_for_reader_ rp' = changes_for_reader_ rp ->
  changes_low_mark_ rp' = changes_low_mark_ rp -> rp_ok h rp'.
Proof. intros [H1 H2 H3 H4] E1 E2. split; by rewrite ?E1, ?E2. Qed.

Lemma found_in h rp a c b : rp_ok h rp -> changes_for_reader_ rp = a ++ c :: b -> cfr_ok c /\ sn_val (changes_low_mark_ rp) < sn_val (cfr_seq c).
Proof.
  intros [_ [_ Ha Hf] _ _] E. rewrite E in Ha, Hf. apply Forall_app in Ha as [_ Ha]. apply Forall_app in Hf as [_ Hf].
  split; [by inversion Hf|by inversion Ha].
Qed.

(** A change put in the place of another of the same number. *)
Lemma rp_replace_ok h rp a c c' b : rp_ok h rp -> changes_for_reader_ rp = a ++ c :: b -> cfr_ok c' -> cfr_seq c' = cfr_seq c ->
  rp_ok h (set_reader_changes rp (a ++ c' :: b)) /\ same_reader rp (set_reader_changes rp (a ++ c' :: b)) /\
  updated rp (set_reader_changes rp (a ++ c' :: b))
    (fun n => if n =? sn_val (cfr_seq c) then Some (cfr_status c') else status_of (changes_for_reader_ rp) n).
Proof.
  intros [Hl Hc Hh Hla] E Hok Es. rewrite E in Hc, Hh. destruct (replace_ok _ a c c' b Hc Hok Es) as [Hc' Hst].
  split; [|split; [done|split; [done|intros n; simpl; by rewrite E]]]. split; simpl; [done|done| |done].
  apply Forall_app in Hh as [Hha Hhb]. inversion Hhb; subst. apply Forall_app. split; [done|]. constructor; [by rewrite Es|done].
Qed.

Lemma from_unsent_to_underway h rp s delivered :
  rp_ok h rp -> usable s -> is_remote_and_reliable rp = true -> timers_enabled_ rp = true ->
  status_of (changes_for_reader_ rp) (sn_val s) = Some UNSENT ->
  exists rp', from_unsent_to_status h rp s UNDERWAY true delivered = Some rp' /\ rp_ok h rp' /\ kept rp rp' /\
    next_expected_acknack_count_ rp' = next_expected_acknack_count_ rp /\
    updated rp rp' (fun n => if n =? sn_val s then Some UNDERWAY else status_of (changes_for_reader_ rp) n).
Proof.
  intros Hok Hu Hr Ht Hst. unfold from_unsent_to_status. rewrite Hr.
  assert (is_reliable_ rp = true) as -> by (unfold is_remote_and_reliable in Hr; by destruct (is_reliable_ rp); rewrite ?andb_false_r in Hr).
  cbn [andb assert]. rewrite Ht. cbn [assert mbind option_bind].
  set (rp1 := restart_nack_supression rp). assert (rp_ok h rp1) as Hok1 by (by apply (rp_ok_marks h rp)).
  pose proof Hok as [Hlow [Hs Ha Hf] Hh Hlast].
  change (changes_low_mark_ rp1) with (changes_low_mark_ rp). change (changes_for_reader_ rp1) with (changes_for_reader_ rp).
  pose proof (find_change_spec _ s Hs Hf ltac:(auto)) as HF. destruct (find_change (changes_for_reader_ rp) s) as [[[a c] b]|]; [|by rewrite Hst in HF].
  destruct HF as [E Es]. destruct (found_in h rp a c b Hok E) as [Hc Hgt]. rewrite sn_gtb_val by auto.
  rewrite (proj2 (Z.ltb_lt _ _)) by (by rewrite <- Es). cbn [assert mbind option_bind].
  assert (cfr_status c = UNSENT) as Eu.
  { rewrite E, status_of_app in Hst. destruct (sorted_parts a (c :: b)) as (_ & _ & Hlt); [by rewrite <- E|].
    rewrite (proj2 (status_of_None a (sn_val s))) in Hst.
    - simpl in Hst. rewrite Es, Z.eqb_refl in Hst. by injection Hst.
    - intros Hx. specialize (Hlt _ (sn_val (cfr_seq c)) Hx ltac:(by left)). rewrite Es in Hlt. lia. }
  rewrite Eu. cbn [bool_decide negb andb assert]. rewrite !bool_decide_eq_true_2, !bool_decide_eq_false_2 by done. cbn [negb andb assert].
  set (c' := if delivered then set_delivered (with_status c UNDERWAY) else with_status c UNDERWAY).
  assert (cfr_ok c') as Hc' by (unfold c'; destruct delivered; destruct Hc; by split).
  assert (cfr_seq c' = cfr_seq c /\ cfr_status c' = UNDERWAY) as [Es' Est'] by (unfold c'; by destruct delivered).
  destruct (rp_replace_ok h rp1 a c c' b) as (Hok' & Hsame & [Hlo Hup]); [done|done|done|done|].
  eexists. split; [done|]. split; [done|]. split; [by destruct (same_reader_kept _ _ Hsame)|]. split; [done|].
  split; [done|]. intros n. rewrite Hup, Es, Est'. done.
Qed.

(** ** Removals *)

(** The change [s] is taken out of the history; of the proxy too, and the low mark
    goes over it when it was the next one. *)
Lemma change_has_been_removed_spec h h' rp s :
  rp_ok h rp -> history_ok h' -> usable s -> is_local_reader_ rp = false ->
  m_lastCacheChangeSeqNum h' = m_lastCacheChangeSeqNum h -> sn_val s <= sn_val (m_lastCacheChangeSeqNum h) ->
  (forall n, in_history h' n <-> in_history h n /\ n <> sn_val s) ->
  exists rp', change_has_been_removed h rp s = Some (None, rp') /\ rp_ok h' rp' /\ same_reader rp rp' /\
    sn_val (changes_low_mark_ rp) <= sn_val (changes_low_mark_ rp') /\
    (forall n, sn_val (changes_low_mark_ rp) < n <= sn_val (changes_low_mark_ rp') ->
       n = sn_val s \/ status_of (changes_for_reader_ rp) n = Some ACKNOWLEDGED) /\
    (forall n, sn_val (changes_low_mark_ rp') < n ->
       status_of (changes_for_reader_ rp') n = if n =? sn_val s then None else status_of (changes_for_reader_ rp) n).
Proof.
  intros Hok Hh' Hu Hloc El Hsl Hin. pose proof Hok as [Hlow [Hs Ha Hf] Hh Hlast]. unfold change_has_been_removed.
  assert (Hsame : status_of (changes_for_reader_ rp) (sn_val s) = None ->
    exists rp', Some (None : option SequenceNumber_t, rp) = Some (None, rp') /\ rp_ok h' rp' /\ same_reader rp rp' /\
    sn_val (changes_low_mark_ rp) <= sn_val (changes_low_mark_ rp') /\
    (forall n, sn_val (changes_low_mark_ rp) < n <= sn_val (changes_low_mark_ rp') ->
       n = sn_val s \/ status_of (changes_for_reader_ rp) n = Some ACKNOWLEDGED) /\
    (forall n, sn_val (changes_low_mark_ rp') < n ->
       status_of (changes_for_reader_ rp') n = if n =? sn_val s then None else status_of (changes_for_reader_ rp) n)).
  { intros Hn. exists rp. split; [done|]. split; [|split; [by destruct rp|split; [done|split; [lia|]]]].
    - split; [done|done| |by rewrite El]. apply list.Forall_forall. intros c Hc. apply Hin.
      rewrite list.Forall_forall in Hh. split; [by apply Hh|]. intros E. apply status_of_None in Hn. apply Hn. rewrite <- E. by apply cseqs_elem.
    - intros n _. by destruct (Z.eqb_spec n (sn_val s)) as [->|]. }
  destruct (changes_for_reader_ rp) as [|first l] eqn:Ec; [by apply Hsame|]. rewrite <- Ec in *.
  assert (cfr_ok first) as Hfi by (rewrite Ec in Hf; by inversion Hf). pose proof (co_usable _ Hfi) as Huf. rewrite sn_ltb_val by auto.
  destruct (Z.ltb_spec (sn_val s) (sn_val (cfr_seq first))) as [Hlt|_].
  { apply Hsame, status_of_None. rewrite Ec in *. intros [Hx|Hx]%elem_of_cons; [simpl in Hx; lia|].
    pose proof (sorted_head _ _ _ Hs Hx) as Hg. simpl in Hg. lia. }
  pose proof (find_change_spec _ s Hs Hf ltac:(auto)) as HF. destruct (find_change (changes_for_reader_ rp) s) as [[[a c] b]|]; [|by apply Hsame].
  destruct HF as [E Es]. rewrite Hloc. cbn [andb]. rewrite E in Hh, Hs, Ha, Hf.
  destruct (remove_ok (changes_low_mark_ rp) a c b) as [Hch Hst]; [by split|]. rewrite <- E in Hst. rewrite Es in Hst.
  set (rp1 := set_reader_changes rp (a ++ b)).
  assert (rp_ok h' rp1) as Hok1.
  { split; simpl; [done|done| |by rewrite El]. apply list.Forall_forall. intros d Hd. apply Hin. split.
    - rewrite list.Forall_forall in Hh. apply Hh. apply elem_of_app in Hd as [Hd|Hd]; apply elem_of_app; [by left|right; by right].
    - intros Ed. assert (status_of (a ++ b) (sn_val s) = None) as Hn by (by rewrite Hst, Z.eqb_refl).
      apply status_of_None in Hn. apply Hn. rewrite <- Ed. by apply cseqs_elem. }
  change (changes_low_mark_ rp1) with (changes_low_mark_ rp).
  destruct (usable_next _ Hlow) as [Hvn En]. destruct (usable_next _ Hu) as [Hvs Ens]. pose proof (usable_range _ Hu).
  rewrite sn_eqb_val by (auto; apply Hvn). rewrite En. destruct (Z.eqb_spec (sn_val (changes_low_mark_ rp) + 1) (sn_val s)) as [Ex|Hne].
  2:{ simpl. eexists. split; [done|]. split; [exact Hok1|]. split; [done|]. simpl. split; [lia|]. split; [lia|]. intros n _. apply Hst. }
  assert (acked_changes_set h rp1 (sn_add s 1) = acked_changes_set h' rp1 (sn_add s 1)) as ->.
  { unfold acked_changes_set. rewrite sn_gtb_val by (auto; apply Hvs). change (changes_low_mark_ rp1) with (changes_low_mark_ rp).
    by rewrite Ens, (proj2 (Z.ltb_lt _ _)) by lia. }
  destruct (acked_changes_set_up h' rp1 (sn_add s 1)) as (rp2 & E2 & Hok2 & Hsame2 & Hlo2 & Hack2 & Hst2).
  { done. } { done. } { simpl. rewrite Ens, El. lia. } { done. }
  rewrite E2. simpl. exists rp2. split; [done|]. split; [done|]. split; [by apply (same_reader_trans rp rp1)|].
  split; [lia|]. split.
  - intros n Hn. destruct (Z.eq_dec n (sn_val s)) as [|Hns]; [by left|]. right. specialize (Hack2 n ltac:(lia)). simpl in Hack2.
    rewrite Hst in Hack2. by rewrite (proj2 (Z.eqb_neq _ _)) in Hack2 by done.
  - intros n Hn. rewrite Hst2 by done. apply Hst.
Qed.

(** ** Requests *)

Lemma markAllFragmentsAsUnsent_ok c : cfr_ok c ->
  exists c', markAllFragmentsAsUnsent c = Some c' /\ cfr_ok c' /\ cfr_seq c' = cfr_seq c /\ cfr_status c' = cfr_status c.
Proof.
  intros [H1 H2 H3 H4]. unfold markAllFragmentsAsUnsent. destruct H3 as [E0|Hsp].
  - unfold all_fragments. rewrite E0. simpl. eexists. split; [done|]. split; [|done]. split; simpl; [done|done|by left|done].
  - destruct (all_fragments_window (unsent_fragments_ c) (cfr_change c) Hsp) as (r & -> & Wd). simpl. eexists. split; [done|].
    split; [|done]. split; simpl; [done|done|by right|apply Wd].
Qed.

Lemma status_found l a c b s : StronglySorted Z.lt (cseqs l) -> l = a ++ c :: b -> cfr_seq c = s -> status_of l (sn_val s) = Some (cfr_status c).
Proof.
  intros Hs -> <-. destruct (sorted_parts a (c :: b) Hs) as (_ & _ & Hlt). rewrite status_of_app.
  rewrite (proj2 (status_of_None a _)); [simpl; by rewrite Z.eqb_refl|].
  intros Hx. specialize (Hlt _ (sn_val (cfr_seq c)) Hx ltac:(by left)). lia.
Qed.

(** What becomes of a status that is requested. *)
Definition requested (st : option ChangeForReaderStatus_t) : option ChangeForReaderStatus_t :=
  match st with Some UNACKNOWLEDGED => Some REQUESTED | _ => st end.

(** A number that is requested and will not come. *)
Definition refused rp (min_seq : SequenceNumber_t) (n : Z) : Prop :=
  status_of (changes_for_reader_ rp) n = None /\ sn_val min_seq <= n /\ sn_val (changes_low_mark_ rp) < n.

Lemma requested_None st : requested st = None <-> st = None.
Proof. by destruct st as [[]|]. Qed.

Lemma request_one_spec h rp b log added last (min_seq sit : SequenceNumber_t) :
  rp_ok h rp -> sn_ok min_seq -> sendable sit -> gap_inv b log added last -> last < sn_val sit ->
  exists one rp' b' log' added', request_one rp b log min_seq sit = Some (one, rp', b', log') /\ rp_ok h rp' /\ same_reader rp rp' /\
    updated rp rp' (fun n => if n =? sn_val sit then requested (status_of (changes_for_reader_ rp) n) else status_of (changes_for_reader_ rp) n) /\
    gap_inv b' log' added' (sn_val sit) /\ (forall n, n ∈ added' <-> n ∈ added \/ (n = sn_val sit /\ refused rp min_seq n)).
Proof.
  intros Hok Hmo Hsit Hgi Hla. pose proof Hsit as (Hv & Hp & Hr). pose proof Hok as [Hlow [Hs Ha Hf] Hh Hlast].
  assert (gap_inv b log added (sn_val sit)) as Hgi'.
  { destruct Hgi as [G1 G2 G3 G4]. split; [done| |done|]. { intros Hpe. destruct (G2 Hpe). split; [done|lia]. }
    intros n Hn. apply G4 in Hn. lia. }
  assert (Hidle : status_of (changes_for_reader_ rp) (sn_val sit) <> Some UNACKNOWLEDGED -> ~ refused rp min_seq (sn_val sit) ->
    exists one rp' b' log' added', Some (false, rp, b, log) = Some (one, rp', b', log') /\ rp_ok h rp' /\ same_reader rp rp' /\
    updated rp rp' (fun n => if n =? sn_val sit then requested (status_of (changes_for_reader_ rp) n) else status_of (changes_for_reader_ rp) n) /\
    gap_inv b' log' added' (sn_val sit) /\ (forall n, n ∈ added' <-> n ∈ added \/ (n = sn_val sit /\ refused rp min_seq n))).
  { intros Hst Href. exists false, rp, b, log, added. split; [done|]. split; [done|]. split; [by destruct rp|]. split; [split; [done|]|split; [done|]].
    - intros n. destruct (Z.eqb_spec n (sn_val sit)) as [->|]; [|done]. by destruct (status_of _ _) as [[]|].
    - intros n. split; [by left|]. intros [?|[-> ?]]; done. }
  unfold request_one. pose proof (find_change_spec _ sit Hs Hf ltac:(apply Hv)) as HF.
  destruct (find_change (changes_for_reader_ rp) sit) as [[[a c] t]|].
  - destruct HF as [E Es]. pose proof (status_found _ a c t sit Hs E Es) as Hst. case_bool_decide as Hu.
    + destruct (found_in h rp a c t Hok E) as [Hc _].
      destruct (markAllFragmentsAsUnsent_ok (with_status c REQUESTED) (with_status_ok _ _ Hc)) as (c' & -> & Hc' & Es' & Et'). simpl in *.
      destruct (rp_replace_ok h rp a c c' t Hok E Hc' Es') as (Hok' & Hsame & [Hlo Hup]).
      exists true, (set_reader_changes rp (a ++ c' :: t)), b, log, added. split; [done|]. split; [done|]. split; [done|]. split; [split; [done|]|split; [done|]].
      * intros n. rewrite Hup, Es, Et'. destruct (Z.eqb_spec n (sn_val sit)) as [->|]; [|done]. by rewrite Hst, Hu.
      * intros n. split; [by left|]. intros [?|[-> [Hn _]]]; [done|]. by rewrite Hst in Hn.
    + apply Hidle; [rewrite Hst; congruence|]. intros [Hn _]. by rewrite Hst in Hn.
  - rewrite sn_geb_val, sn_gtb_val by (auto; apply Hv).
    destruct (Z.leb_spec (sn_val min_seq) (sn_val sit)) as [Hge|Hlt], (Z.ltb_spec (sn_val (changes_low_mark_ rp)) (sn_val sit)) as [Hg|Hl]; cbn [andb].
    2-4: apply Hidle; [by rewrite HF|intros (_ & ? & ?); lia].
    destruct (gap_add_spec b log added last sit) as (b' & log' & -> & Hgi2 & _); [done|done|done|]. simpl.
    exists false, rp, b', log', (sn_val sit :: added). split; [done|]. split; [done|]. split; [by destruct rp|]. split; [split; [done|]|split; [done|]].
    + intros n. destruct (Z.eqb_spec n (sn_val sit)) as [->|]; [|done]. by rewrite HF.
    + intros n. rewrite elem_of_cons. split; [|naive_solver]. intros [->|?]; [right|by left]. by split.
Qed.

Lemma refused_same rp rp' min_seq n : changes_low_mark_ rp' = changes_low_mark_ rp ->
  (status_of (changes_for_reader_ rp') n = None <-> status_of (changes_for_reader_ rp) n = None) -> refused rp' min_seq n <-> refused rp min_seq n.
Proof. unfold refused. intros -> ->. done. Qed.

Lemma request_each_spec h (min_seq : SequenceNumber_t) sits : forall rp b log added last,
  rp_ok h rp -> sn_ok min_seq -> Forall sendable sits -> StronglySorted Z.lt (sn_val <$> sits) -> Forall (fun x => last < sn_val x) sits ->
  gap_inv b log added last ->
  exists some rp' b' log' added' last', request_each rp b log min_seq sits = Some (some, rp', b', log') /\ rp_ok h rp' /\ same_reader rp rp' /\
    updated rp rp' (fun n => if bool_decide (n ∈ sn_val <$> sits) then requested (status_of (changes_for_reader_ rp) n)
                             else status_of (changes_for_reader_ rp) n) /\
    gap_inv b' log' added' last' /\ (forall n, n ∈ added' <-> n ∈ added \/ (n ∈ sn_val <$> sits /\ refused rp min_seq n)).
Proof.
  induction sits as [|x sits IH]; intros rp b log added last Hok Hmo Hse Hso Hla Hgi.
  { exists false, rp, b, log, added, last. split; [done|]. split; [done|]. split; [by destruct rp|]. split; [done|]. split; [done|].
    intros n. simpl. rewrite elem_of_nil. naive_solver. }
  apply list.Forall_cons in Hse as [Hx Hse]. apply list.Forall_cons in Hla as [Hlx _]. rewrite fmap_cons in Hso.
  apply StronglySorted_inv in Hso as [Hso Hxs].
  destruct (request_one_spec h rp b log added last min_seq x Hok Hmo Hx Hgi Hlx) as (one & rp1 & b1 & log1 & ad1 & E1 & Hok1 & Hsame1 & [Hlo1 Hup1] & Hgi1 & Had1).
  destruct (IH rp1 b1 log1 ad1 (sn_val x) Hok1 Hmo Hse Hso) as (some & rp2 & b2 & log2 & ad2 & last2 & E2 & Hok2 & Hsame2 & [Hlo2 Hup2] & Hgi2 & Had2).
  { rewrite list.Forall_fmap in Hxs. exact Hxs. } { done. }
  exists (one || some), rp2, b2, log2, ad2, last2. cbn [request_each]. rewrite E1. cbn [mbind option_bind]. rewrite E2. simpl.
  split; [done|]. split; [done|]. split; [by apply (same_reader_trans rp rp1)|]. split; [split; [congruence|]|split; [done|]].
  - intros n. rewrite Hup2, !Hup1. rewrite list.Forall_forall in Hxs. specialize (Hxs n).
    assert (n ∈ vals (x :: sits) <-> n = sn_val x \/ n ∈ vals sits) as Hiff by (rewrite fmap_cons; apply elem_of_cons).
    rewrite (bool_decide_ext _ _ Hiff). clear - Hxs. destruct (Z.eqb_spec n (sn_val x)) as [->|Hne]; repeat case_bool_decide; naive_solver lia.
  - intros n. rewrite Had2, Had1, elem_of_cons. assert (refused rp1 min_seq n <-> refused rp min_seq n) as ->; [|naive_solver].
    apply refused_same; [done|]. rewrite Hup1. destruct (n =? _); [apply requested_None|done].
Qed.
