(* ===== verification/StatefulWriter.v ===== *)
(** * The stateful writer

    Models [Fast-DDS/src/cpp/rtps/writer/StatefulWriter.cpp] for readers that are
    reached over the network: the history, the proxies of the matched readers, the
    heartbeats, the answers to ACKNACK and NACK_FRAG messages, the delivery of a
    sample and the bookkeeping of what all the readers have.  The vectors of local
    and data sharing readers are empty, and the timer that stands for positive
    acknowledgements is not used.

    What the writer does to its surroundings is recorded in logs: the submessages
    it adds to a message group, the changes it gives to the flow controller and the
    changes its listener is told about.  The mutex of the writer protects every
    operation, so an operation is one step.  An assertion that fails is [None]. *)

From S2P Require Import Prelude SequenceNumber BitmapRange TimedEvent ParameterList GapBuilder.
From S2P Require Import WriterHistory ChangeForReader ReaderProxy.

(** The submessages, with the reader they are for when it is not all of them. *)
Inductive Submessage :=
  | DATA (o : OutChange) (inline_qos : bool) (reader : option GUID_t)
  | DATA_FRAG (o : OutChange) (fragment : FragmentNumber_t) (inline_qos : bool) (reader : option GUID_t)
  | GAP (start : SequenceNumber_t) (list : BitmapRange SequenceNumber_t) (reader : option GUID_t)
  | HEARTBEAT (first last : SequenceNumber_t) (count : Z) (final liveliness : bool).

Inductive DeliveryRetCode := DELIVERED | NOT_DELIVERED | EXCEEDED_LIMIT.

#[export] Instance DeliveryRetCode_eq_dec : EqDecision DeliveryRetCode.
Proof. solve_decision. Defined.

(** What [add_data] and [add_data_frag] of a message group do: true, false, or one
    of two exceptions. *)
Inductive AddResult := Added | NotAdded | TimedOut | LimitExceeded.

Record StatefulWriter := mkSW {
  m_guid : GUID_t;
  push_mode_ : bool;
  writer_disable_positive_acks_ : bool;
  separate_sending_enabled_ : bool;
  disable_heartbeat_piggyback_ : bool;
  writer_durability : DurabilityKind_t;
  history_ : WriterHistory;
  matched_remote_readers_ : list ReaderProxy;
  periodic_hb_event_ : TimedEvent;
  nack_response_event_ : TimedEvent;
  heartbeat_count_ : Z;
  next_all_acked_notify_sequence_ : SequenceNumber_t;
  min_readers_low_mark_ : SequenceNumber_t;
  biggest_removed_sequence_number_ : SequenceNumber_t;
  may_remove_change_ : Z;
  all_acked_ : bool;
  sent_ : list Submessage;
  scheduled_ : list OutChange;
  told_ : list SequenceNumber_t
}.

Implicit Types (w : StatefulWriter) (rp : ReaderProxy) (s : SequenceNumber_t) (o : OutChange) (h : WriterHistory).

Definition set_history w h : StatefulWriter :=
  mkSW (m_guid w) (push_mode_ w) (writer_disable_positive_acks_ w) (separate_sending_enabled_ w) (disable_heartbeat_piggyback_ w)
    (writer_durability w) h (matched_remote_readers_ w) (periodic_hb_event_ w) (nack_response_event_ w) (heartbeat_count_ w)
    (next_all_acked_notify_sequence_ w) (min_readers_low_mark_ w) (biggest_removed_sequence_number_ w) (may_remove_change_ w)
    (all_acked_ w) (sent_ w) (scheduled_ w) (told_ w).
Definition set_readers w l : StatefulWriter :=
  mkSW (m_guid w) (push_mode_ w) (writer_disable_positive_acks_ w) (separate_sending_enabled_ w) (disable_heartbeat_piggyback_ w)
    (writer_durability w) (history_ w) l (periodic_hb_event_ w) (nack_response_event_ w) (heartbeat_count_ w)
    (next_all_acked_notify_sequence_ w) (min_readers_low_mark_ w) (biggest_removed_sequence_number_ w) (may_remove_change_ w)
    (all_acked_ w) (sent_ w) (scheduled_ w) (told_ w).
Definition set_events w hb nack : StatefulWriter :=
  mkSW (m_guid w) (push_mode_ w) (writer_disable_positive_acks_ w) (separate_sending_enabled_ w) (disable_heartbeat_piggyback_ w)
    (writer_durability w) (history_ w) (matched_remote_readers_ w) hb nack (heartbeat_count_ w)
    (next_all_acked_notify_sequence_ w) (min_readers_low_mark_ w) (biggest_removed_sequence_number_ w) (may_remove_change_ w)
    (all_acked_ w) (sent_ w) (scheduled_ w) (told_ w).
(** What the readers have: the next number to tell the listener about, the low
    mark of all of them, whether all is acknowledged and whether a change may be
    removed. *)
Definition set_acked w next low may all : StatefulWriter :=
  mkSW (m_guid w) (push_mode_ w) (writer_disable_positive_acks_ w) (separate_sending_enabled_ w) (disable_heartbeat_piggyback_ w)
    (writer_durability w) (history_ w) (matched_remote_readers_ w) (periodic_hb_event_ w) (nack_response_event_ w) (heartbeat_count_ w)
    next low (biggest_removed_sequence_number_ w) may all (sent_ w) (scheduled_ w) (told_ w).
Definition set_removed w biggest may : StatefulWriter :=
  mkSW (m_guid w) (push_mode_ w) (writer_disable_positive_acks_ w) (separate_sending_enabled_ w) (disable_heartbeat_piggyback_ w)
    (writer_durability w) (history_ w) (matched_remote_readers_ w) (periodic_hb_event_ w) (nack_response_event_ w) (heartbeat_count_ w)
    (next_all_acked_notify_sequence_ w) (min_readers_low_mark_ w) biggest may (all_acked_ w) (sent_ w) (scheduled_ w) (told_ w).
Definition set_logs w count sent scheduled told : StatefulWriter :=
  mkSW (m_guid w) (push_mode_ w) (writer_disable_positive_acks_ w) (separate_sending_enabled_ w) (disable_heartbeat_piggyback_ w)
    (writer_durability w) (history_ w) (matched_remote_readers_ w) (periodic_hb_event_ w) (nack_response_event_ w) count
    (next_all_acked_notify_sequence_ w) (min_readers_low_mark_ w) (biggest_removed_sequence_number_ w) (may_remove_change_ w)
    (all_acked_ w) sent scheduled told.

Definition send w (ms : list Submessage) : StatefulWriter :=
  set_logs w (heartbeat_count_ w) (sent_ w ++ ms) (scheduled_ w) (told_ w).
Definition schedule w (os : list OutChange) : StatefulWriter :=
  set_logs w (heartbeat_count_ w) (sent_ w) (scheduled_ w ++ os) (told_ w).
Definition restart_periodic_hb w : StatefulWriter := set_events w (restart_timer (periodic_hb_event_ w)) (nack_response_event_ w).
Definition restart_nack_response w : StatefulWriter := set_events w (periodic_hb_event_ w) (restart_timer (nack_response_event_ w)).

(** ** Loops over the readers *)

(** Each reader is changed by [f]. *)
Fixpoint each_reader (f : ReaderProxy -> option ReaderProxy) (l : list ReaderProxy) : option (list ReaderProxy) :=
  match l with
  | [] => Some []
  | rp :: l => rp ← f rp; l ← each_reader f l; Some (rp :: l)
  end.

(** The reader of a GUID, with the readers before and behind it. *)
Fixpoint find_reader (guid : GUID_t) (l : list ReaderProxy) : option (list ReaderProxy * ReaderProxy * list ReaderProxy) :=
  match l with
  | [] => None
  | rp :: l =>
      if bool_decide (remote_guid_ rp = guid) then Some ([], rp, l)
      else '(a, x, b) ← find_reader guid l; Some (rp :: a, x, b)
  end.

(** ** Heartbeats *)

Definition send_heartbeat_nts_ w (number_of_readers : Z) (final liveliness : bool) : option StatefulWriter :=
  if number_of_readers =? 0 then Some w
  else
    let firstSeq := get_seq_num_min (history_ w) in
    let lastSeq := get_seq_num_max (history_ w) in
    let beat first last :=
      let count := u32 (heartbeat_count_ w + 1) in
      Some (set_logs w count (sent_ w ++ [HEARTBEAT first last count final liveliness]) (scheduled_ w) (told_ w)) in
    if sn_eqb firstSeq sn_unknown || sn_eqb lastSeq sn_unknown then
      assert (sn_eqb firstSeq sn_unknown && sn_eqb lastSeq sn_unknown) (
        if (number_of_readers =? 1) || liveliness then
          let first := next_sequence_number (history_ w) in
          beat first (sn_sub_u32 first 1)
        else Some w)
    else assert (sn_leb firstSeq lastSeq) (beat firstSeq lastSeq).

(** The numbers from [prev] up to [stop]. *)
Fixpoint hole_until (fuel : nat) (prev stop : SequenceNumber_t) : option (list SequenceNumber_t) :=
  if sn_eqb prev stop then Some []
  else match fuel with
       | O => None
       | S fuel => l ← hole_until fuel (sn_incr prev) stop; Some (prev :: l)
       end.

Fixpoint holes (prev : SequenceNumber_t) (l : list OutChange) : option (list SequenceNumber_t) :=
  match l with
  | [] => Some []
  | o :: l =>
      a ← hole_until (Z.to_nat (sn_val (out_seq o) - sn_val prev)) prev (out_seq o);
      b ← holes (sn_incr (out_seq o)) l;
      Some (a ++ b)
  end.

Definition gaps_for (reader : option GUID_t) (log : list GapMsg) : list Submessage := (fun g => GAP g.1 g.2 reader) <$> log.

Definition add_gaps_for_holes_in_history w (reader : option GUID_t) : option StatefulWriter :=
  let firstSeq := get_seq_num_min (history_ w) in
  let lastSeq := get_seq_num_max (history_ w) in
  if negb (sn_eqb sn_unknown firstSeq) &&
     negb (u64 (u64 (to64long lastSeq - to64long firstSeq) + 1) =? zlen (m_changes (history_ w))) then
    match m_changes (history_ w) with
    | [] => Some w
    | o :: l =>
        xs ← holes (sn_add (out_seq o) 1) l;
        '(_, log) ← build_gaps [] xs;
        Some (send w (gaps_for reader log))
    end
  else Some w.

Definition first_seq_to_check_acknowledge w : SequenceNumber_t :=
  let m := get_seq_num_min (history_ w) in
  if sn_eqb sn_unknown m then sn_sub_u32 (next_sequence_number (history_ w)) 1 else m.

Definition send_heartbeat_to_nts w rp (liveliness force : bool) : option StatefulWriter :=
  if is_reliable_ rp && (force || liveliness || has_unacknowledged rp (first_seq_to_check_acknowledge w)) then
    let firstSeq := get_seq_num_min (history_ w) in
    let lastSeq := get_seq_num_max (history_ w) in
    w ← (if negb (sn_eqb firstSeq sn_unknown) && negb (sn_eqb lastSeq sn_unknown) then
           assert (sn_leb firstSeq lastSeq) (
             if negb liveliness then add_gaps_for_holes_in_history w (Some (remote_guid_ rp)) else Some w)
         else Some w);
    send_heartbeat_nts_ w 1 (writer_disable_positive_acks_ w) liveliness
  else Some w.

Fixpoint send_heartbeat_to_each w (l : list ReaderProxy) (liveliness : bool) : option StatefulWriter :=
  match l with
  | [] => Some w
  | rp :: l => w ← send_heartbeat_to_nts w rp liveliness false; send_heartbeat_to_each w l liveliness
  end.

Definition send_heartbeat_to_all_readers w : option StatefulWriter :=
  let readers := matched_remote_readers_ w in
  if separate_sending_enabled_ w then send_heartbeat_to_each w readers false
  else
    match readers with
    | [] => Some w
    | _ =>
        let first := get_seq_num_min (history_ w) in
        let last := get_seq_num_max (history_ w) in
        assert (Bool.eqb (sn_eqb sn_unknown first) (sn_eqb sn_unknown last)) (
          w ← add_gaps_for_holes_in_history w None;
          send_heartbeat_nts_ w (zlen readers) (writer_disable_positive_acks_ w) false)
    end.

Definition send_periodic_heartbeat w (final liveliness : bool) : option (bool * StatefulWriter) :=
  let readers := matched_remote_readers_ w in
  if negb liveliness then
    let first := first_seq_to_check_acknowledge w in
    let unacked_changes := existsb (fun rp => has_unacknowledged rp first) readers in
    w ← (if unacked_changes then send_heartbeat_to_all_readers w else Some w);
    Some (unacked_changes, w)
  else if separate_sending_enabled_ w then
    w ← send_heartbeat_to_each w readers liveliness;
    Some (negb (zlen readers =? 0), w)
  else
    match readers with
    | [] => Some (false, w)
    | _ => w ← send_heartbeat_nts_ w (zlen readers) final liveliness; Some (true, w)
    end.

(** ** Removing a change *)

(** [change_removed_by_history]; whether the flow controller has let go of the
    change is an argument. *)
Definition change_removed_by_history w s (flow_removed : bool) : option (bool * StatefulWriter) :=
  if flow_removed then
    let biggest := if sn_gtb s (biggest_removed_sequence_number_ w) then s else biggest_removed_sequence_number_ w in
    readers ← each_reader (fun rp => '(_, rp) ← change_has_been_removed (history_ w) rp s; Some rp) (matched_remote_readers_ w);
    Some (true, set_removed (set_readers w readers) biggest 2)
  else Some (false, w).

(** [WriterHistory::remove_change] *)
Definition remove_change w s (flow_removed : bool) : option (bool * StatefulWriter) :=
  match find_change_nts (history_ w) s with
  | None => Some (false, w)
  | Some o =>
      '(removed, w) ← change_removed_by_history w (out_seq o) flow_removed;
      Some (removed, if removed : bool then set_history w (history_remove (history_ w) s) else w)
  end.

(** ** What all the readers have *)

(** The listener, when there is one, and the changes it removes when all the
    readers have them. *)
Definition Listener : Type := option (OutChange -> bool).

Section Listener.
Context (listener : Listener).

Definition on_writer_change_received_by_all w o : option StatefulWriter :=
  match listener with
  | None => Some w
  | Some removes =>
      let w := set_logs w (heartbeat_count_ w) (sent_ w) (scheduled_ w) (told_ w ++ [out_seq o]) in
      if removes o then '(_, w) ← remove_change w (out_seq o) true; Some w else Some w
  end.

(** The loop of [check_acked_status], backwards from the low mark. *)
Fixpoint notify_backwards w (cs : list OutChange) (end_seq : SequenceNumber_t) : option StatefulWriter :=
  match cs with
  | [] => Some w
  | o :: cs =>
      if sn_ltb (out_seq o) (next_all_acked_notify_sequence_ w) then Some w
      else
        w ← on_writer_change_received_by_all w o;
        if sn_gtb (out_seq o) end_seq then notify_backwards w cs end_seq else Some w
  end.

(** The low mark of all the readers; the last number when there are none. *)
Fixpoint min_low_mark_of (l : list ReaderProxy) (has_min : bool) (low : SequenceNumber_t) : SequenceNumber_t :=
  match l with
  | [] => low
  | rp :: l =>
      if sn_ltb (changes_low_mark_ rp) low || negb has_min then min_low_mark_of l true (changes_low_mark_ rp)
      else min_low_mark_of l has_min low
  end.

Definition all_without_changes (l : list ReaderProxy) : bool := forallb (fun rp => negb (has_changes rp)) l.

Definition up_to (s : SequenceNumber_t) (l : list OutChange) : list OutChange := filter (fun o => Is_true (sn_leb (out_seq o) s)) l.

(** The changes up to the low mark of all the readers are told to the listener,
    when the history is not empty. *)
Definition notify_acked w (min_low_mark : SequenceNumber_t) : option StatefulWriter :=
  let min_seq := get_seq_num_min (history_ w) in
  if negb (sn_eqb min_seq sn_unknown) then
    w ← (if sn_leb (next_all_acked_notify_sequence_ w) min_low_mark then
           w ← (if (match listener with None => false | Some _ => true end) && sn_geb min_low_mark min_seq then
                  let next := next_all_acked_notify_sequence_ w in
                  notify_backwards w (rev (up_to min_low_mark (m_changes (history_ w)))) (if sn_gtb min_seq next then min_seq else next)
                else Some w);
           Some (set_acked w (sn_add min_low_mark 1) (min_readers_low_mark_ w) (may_remove_change_ w) (all_acked_ w))
         else Some w);
    let may := if sn_geb min_low_mark (get_seq_num_min (history_ w)) then 1 else may_remove_change_ w in
    Some (set_acked w (next_all_acked_notify_sequence_ w) min_low_mark may (all_acked_ w))
  else Some w.

Definition check_acked_status w : option StatefulWriter :=
  let min_low_mark := min_low_mark_of (matched_remote_readers_ w) false (sn_sub_u32 (next_sequence_number (history_ w)) 1) in
  let all_acked := all_without_changes (matched_remote_readers_ w) in
  w ← notify_acked w min_low_mark;
  if all_acked then
    let next_seq := next_sequence_number (history_ w) in
    Some (set_acked w next_seq (sn_sub_u32 next_seq 1) (may_remove_change_ w) true)
  else Some w.

(** ** New changes *)

(** The lambda of [unsent_change_added_to_history] for one reader. *)
Definition add_for_reader w o (relevant : ReaderProxy -> bool) rp : option ReaderProxy :=
  c ← ChangeForReader_new o;
  let c := if push_mode_ w || negb (is_reliable_ rp) then c else with_status c UNACKNOWLEDGED in
  add_change rp c (relevant rp) false.

Definition unsent_change_added_to_history w o (relevant : ReaderProxy -> bool) : option StatefulWriter :=
  match matched_remote_readers_ w with
  | [] => check_acked_status w
  | readers =>
      let should_be_sent := existsb (fun rp => (push_mode_ w || negb (is_reliable_ rp)) && relevant rp) readers in
      readers ← each_reader (add_for_reader w o relevant) readers;
      let w := set_readers w readers in
      Some (if should_be_sent then schedule w [o] else restart_periodic_hb w)
  end.

(** [WriterHistory::add_change_] *)
Definition writer_add_change w (allowed : Z) (ch : NewChange) (relevant : ReaderProxy -> bool) : option (bool * StatefulWriter) :=
  match prepare_and_add_change (history_ w) allowed ch with
  | (None, _) => Some (false, w)
  | (Some o, h) => w ← unsent_change_added_to_history (set_history w h) o relevant; Some (true, w)
  end.

(** ** Answers to the readers *)

Definition perform_nack_response w : option StatefulWriter :=
  let fix go l :=
    match l with
    | [] => Some ([], [])
    | rp :: l =>
        '(cs, rp) ← perform_acknack_response rp;
        '(os, l) ← go l;
        Some ((cfr_change <$> cs) ++ os, rp :: l)
    end in
  '(os, readers) ← go (matched_remote_readers_ w);
  Some (schedule (set_readers w readers) os).

Definition writer_perform_nack_supression w (reader_guid : GUID_t) : option StatefulWriter :=
  match find_reader reader_guid (matched_remote_readers_ w) with
  | None => Some w
  | Some (a, rp, b) =>
      '(_, rp) ← perform_nack_supression rp;
      Some (restart_periodic_hb (set_readers w (a ++ rp :: b)))
  end.

(** The branch of [process_acknack] for a request. *)
Definition answer_request w a rp b (sn_set : BitmapRange SequenceNumber_t) (final_flag : bool) : option StatefulWriter :=
  '(some, rp, g, log) ← requested_changes_set rp RTPSGapBuilder_new ([] : list GapMsg) sn_set (get_seq_num_min (history_ w));
  let '(_, _, log) := flush g log in
  let w := set_readers w (a ++ rp :: b) in
  let w := if some : bool then restart_nack_response w else if negb final_flag then restart_periodic_hb w else w in
  Some (send w (gaps_for (Some (remote_guid_ rp)) log)).

(** The branch for the first, empty ACKNACK of a reader. *)
Definition answer_initial w a rp b : option StatefulWriter :=
  '(ok, cs, rp) ← process_initial_acknack rp;
  let w := schedule (set_readers w (a ++ rp :: b)) (cfr_change <$> cs) in
  if ok && is_remote_and_reliable rp then
    w ← send_heartbeat_to_nts w rp false true;
    Some (restart_periodic_hb w)
  else Some w.

Definition process_acknack w (writer_guid reader_guid : GUID_t) (ack_count : Z) (sn_set : BitmapRange SequenceNumber_t)
    (final_flag : bool) : option (bool * StatefulWriter) :=
  if bool_decide (m_guid w = writer_guid) then
    let received_sequence_number := if range_empty sn_set then base_ sn_set else range_max sn_set in
    if sn_leb received_sequence_number (next_sequence_number (history_ w)) then
      match find_reader reader_guid (matched_remote_readers_ w) with
      | None => Some (true, w)
      | Some (a, rp, b) =>
          let '(counted, rp) := check_and_set_acknack_count rp ack_count in
          if counted then
            rp ← acked_changes_set (history_ w) rp (base_ sn_set);
            let w := set_readers w (a ++ rp :: b) in
            w ← (if sn_gtb (base_ sn_set) (mkSN 0 0) then answer_request w a rp b sn_set final_flag
                 else if range_empty sn_set && negb final_flag then answer_initial w a rp b
                 else Some w);
            w ← check_acked_status w;
            Some (true, w)
          else Some (true, w)
      end
    else Some (true, w)
  else Some (false, w).

Definition writer_process_nack_frag w (writer_guid reader_guid : GUID_t) (ack_count : Z) s
    (fragments_state : BitmapRange FragmentNumber_t) : option (bool * StatefulWriter) :=
  if bool_decide (m_guid w = writer_guid) then
    match find_reader reader_guid (matched_remote_readers_ w) with
    | None => Some (true, w)
    | Some (a, rp, b) =>
        '(ok, rp) ← process_nack_frag rp reader_guid ack_count s fragments_state;
        let w := set_readers w (a ++ rp :: b) in
        Some (true, if ok : bool then restart_nack_response w else w)
    end
  else Some (false, w).

(** ** Questions *)

Definition is_acked_by_all_nts w s : option bool :=
  assert (sn_gtb (next_sequence_number (history_ w)) s) (
    Some (sn_ltb s (next_all_acked_notify_sequence_ w) || forallb (fun rp => change_is_acked rp s) (matched_remote_readers_ w))).

Definition all_readers_updated w : bool := forallb (fun rp => negb (has_changes rp)) (matched_remote_readers_ w).

(** [found] keeps its value from one reader to the next. *)
Fixpoint fully_delivered (l : list ReaderProxy) s (found : bool) : bool :=
  match l with
  | [] => true
  | rp :: l =>
      let '(ret, f) := has_been_delivered rp s in
      let found := found || f in
      if found && negb ret then false else fully_delivered l s found
  end.

Definition has_been_fully_delivered w s : bool :=
  if sn_geb s (next_sequence_number (history_ w)) then false else fully_delivered (matched_remote_readers_ w) s false.

(** [try_remove_change] when it need not wait, or with the value it waits for. *)
Definition try_remove_change w (awaited : Z) : option (bool * StatefulWriter) :=
  let min_low_mark := sn_sub_u32 (next_all_acked_notify_sequence_ w) 1 in
  let min_seq := get_seq_num_min (history_ w) in
  let calc := if sn_ltb min_low_mark min_seq then mkSN 0 0 else sn_add (sn_sub min_low_mark min_seq) 1 in
  let may := if sn_leb calc (mkSN 0 0) then awaited else 1 in
  if may =? 1 then
    match get_min_change (history_ w) with
    | None => Some (false, w)
    | Some o => remove_change w (out_seq o) true
    end
  else Some (may =? 2, w).

End Listener.
