(* ===== verification/Delivery.v ===== *)
(** * The delivery of a sample

    Models [StatefulWriter::deliver_sample_to_network] and [deliver_sample_nts]
    ([Fast-DDS/src/cpp/rtps/writer/StatefulWriter.cpp]), which the flow controller
    calls, and [matched_reader_add_edp] and [matched_reader_remove].

    Of the message group the writer sees whether a DATA or DATA_FRAG submessage was
    added, of the locator selector whether any locator is selected, and of the
    bytes sent whether the send buffer is used up; the three are arguments. *)

From S2P Require Import Prelude SequenceNumber BitmapRange TimedEvent ParameterList GapBuilder.
From S2P Require Import WriterHistory ChangeForReader ReaderProxy StatefulWriter.

Implicit Types (w : StatefulWriter) (rp : ReaderProxy) (s : SequenceNumber_t) (o : OutChange) (h : WriterHistory).

(** ** Which readers get the sample *)

(** The change in front of [s] in the history. *)
Fixpoint change_before (l : list OutChange) (prev : option OutChange) s : option OutChange :=
  match l with
  | [] => prev
  | o :: l => if sn_eqb (out_seq o) s then prev else change_before l (Some o) s
  end.

(** The hole in front of [s] is one for all the readers. *)
Definition hole_for_all h s (gap_seq : SequenceNumber_t) : bool :=
  match change_before (m_changes h) None s with
  | None => true
  | Some p => sn_eqb (sn_add (out_seq p) 1) gap_seq
  end.

(** What the loop over the readers has found: the next fragment, the readers
    before the first relevant one and those from it on, the gap for all. *)
Record Scan := mkScan {
  sc_min_unsent_fragment : Z;
  sc_before : list ReaderProxy;
  sc_from : list ReaderProxy;
  sc_gap_for_all : SequenceNumber_t;
  sc_inline_qos : bool;
  sc_should_be_sent : bool;
  sc_need_heartbeat : bool
}.

Fixpoint scan_readers w o (n_fragments : Z) (l : list ReaderProxy) (sc : Scan) : option (Scan * StatefulWriter) :=
  match l with
  | [] => Some (sc, w)
  | rp :: l =>
      match change_is_unsent rp (out_seq o) (get_seq_num_min (history_ w)) with
      | Some (next, gap_seq, hb) =>
          let need := sc_need_heartbeat sc || hb in
          if (n_fragments =? 0) || (frag next <=? sc_min_unsent_fragment sc) then
            let '(min, before, from) :=
              if frag next <? sc_min_unsent_fragment sc then (frag next, sc_before sc ++ sc_from sc, [])
              else (sc_min_unsent_fragment sc, sc_before sc, sc_from sc) in
            let rp := set_active rp true in
            let from := from ++ [rp] in
            let inline := sc_inline_qos sc || expects_inline_qos_ rp in
            '(gap, w) ← (if negb (sn_eqb sn_unknown gap_seq) then
                           let gap := if sn_eqb sn_unknown (sc_gap_for_all sc) && hole_for_all (history_ w) (out_seq o) gap_seq
                                      then gap_seq else sc_gap_for_all sc in
                           if negb (sn_eqb gap gap_seq) then
                             let w := send w [GAP gap_seq (range_new (out_seq o)) (Some (remote_guid_ rp))] in
                             w ← send_heartbeat_nts_ w 1 (writer_disable_positive_acks_ w) false;
                             Some (gap, w)
                           else Some (gap, w)
                         else Some (sc_gap_for_all sc, w));
            scan_readers w o n_fragments l (mkScan min before from gap inline true need)
          else
            scan_readers w o n_fragments l
              (mkScan (sc_min_unsent_fragment sc) (sc_before sc) (sc_from sc ++ [set_active rp false]) (sc_gap_for_all sc)
                 (sc_inline_qos sc) (sc_should_be_sent sc) need)
      | None =>
          scan_readers w o n_fragments l
            (mkScan (sc_min_unsent_fragment sc) (sc_before sc) (sc_from sc ++ [set_active rp false]) (sc_gap_for_all sc)
               (sc_inline_qos sc) (sc_should_be_sent sc) (sc_need_heartbeat sc))
      end
  end.

(** ** Sending *)

(** A reader that got the whole sample. *)
Definition sample_sent h s rp : option ReaderProxy :=
  if negb (is_reliable_ rp) then acked_changes_set h rp (sn_add s 1)
  else from_unsent_to_status h rp s UNDERWAY true true.

(** A reader that got the fragment [x], and the whole sample when it was the last. *)
Definition fragment_sent h s (x : FragmentNumber_t) rp : option ReaderProxy :=
  '(_, last, rp) ← mark_fragment_as_sent_for_change rp s x;
  if last : bool then sample_sent h s rp else Some rp.

(** What is sent: the sample, or its fragment [min]; the fragment [n + 1] stands
    for none. *)
Definition sent_to h o (n_fragments min : Z) rp : option ReaderProxy :=
  if 0 <? n_fragments then fragment_sent h (out_seq o) (mkFrag min) rp else sample_sent h (out_seq o) rp.

Definition submessage_of o (n_fragments min : Z) (inline : bool) (reader : option GUID_t) : Submessage :=
  if 0 <? n_fragments then DATA_FRAG o (mkFrag min) inline reader else DATA o inline reader.

Definition nothing_to_send (n_fragments min : Z) : bool := (0 <? n_fragments) && (min =? u32 (n_fragments + 1)).

Section Group.
(** What the group does with the submessage for a fragment (0 for a whole sample)
    and the reader at an index, whether any locator is selected, and whether the
    send buffer is used up once a fragment was sent. *)
Context (add : nat -> Z -> AddResult) (has_locators : bool) (buffer_used : Z -> bool).

Definition send_heartbeat_piggyback_nts_ w (x : Z) : option StatefulWriter :=
  if negb (disable_heartbeat_piggyback_ w) then
    if m_isHistoryFull (history_ w) || sn_ltb (next_all_acked_notify_sequence_ w) (get_seq_num_min (history_ w)) || buffer_used x
    then send_heartbeat_nts_ w (zlen (matched_remote_readers_ w)) (writer_disable_positive_acks_ w) false
    else Some w
  else Some w.

(** One submessage for all the readers. *)
Definition send_to_all w o (n_fragments : Z) (sc : Scan) : option (DeliveryRetCode * StatefulWriter) :=
  let min := sc_min_unsent_fragment sc in
  if has_locators then
    '(ret, thrown, w) ←
      (if nothing_to_send n_fragments min then Some (DELIVERED, false, w)
       else match add 0%nat min with
            | Added =>
                from ← each_reader (fun rp => if active_ rp then sent_to (history_ w) o n_fragments min rp else Some rp) (sc_from sc);
                Some (DELIVERED, false,
                      send (set_readers w (sc_before sc ++ from)) [submessage_of o n_fragments min (sc_inline_qos sc) None])
            | NotAdded => Some (NOT_DELIVERED, false, w)
            | TimedOut => Some (NOT_DELIVERED, true, w)
            | LimitExceeded => Some (EXCEEDED_LIMIT, true, w)
            end);
    w ← (if thrown : bool then Some w else send_heartbeat_piggyback_nts_ w min);
    Some (ret, w)
  else Some (DELIVERED, w).

(** One submessage for each reader; [done] are the readers already served. *)
Fixpoint send_to_each w o (n_fragments : Z) (sc : Scan) (i : nat) (done : list ReaderProxy) (l : list ReaderProxy) (ret : DeliveryRetCode)
  : option (DeliveryRetCode * StatefulWriter) :=
  let min := sc_min_unsent_fragment sc in
  match l with
  | [] => Some (ret, set_readers w done)
  | rp :: l =>
      if active_ rp then
        let next w done l ret :=
          w ← send_heartbeat_nts_ w 1 false false;
          send_to_each w o n_fragments sc (S i) done l ret in
        if nothing_to_send n_fragments min then next w (done ++ [rp]) l ret
        else match add i min with
             | Added =>
                 rp' ← sent_to (history_ w) o n_fragments min rp;
                 let inline := if 0 <? n_fragments then sc_inline_qos sc else expects_inline_qos_ rp in
                 next (send w [submessage_of o n_fragments min inline (Some (remote_guid_ rp))]) (done ++ [rp']) l ret
             | NotAdded => next w (done ++ [rp]) l NOT_DELIVERED
             | TimedOut => Some (NOT_DELIVERED, set_readers w (done ++ rp :: l))
             | LimitExceeded => Some (EXCEEDED_LIMIT, set_readers w (done ++ rp :: l))
             end
      else send_to_each w o n_fragments sc (S i) (done ++ [rp]) l ret
  end.

(** One round of the loop: the next fragment that any reader lacks. *)
Definition deliver_round w o (need : bool) : option (Z * bool * DeliveryRetCode * StatefulWriter) :=
  let n_fragments := out_fragment_count o in
  '(sc, w) ← scan_readers w o n_fragments (matched_remote_readers_ w)
               (mkScan (u32 (n_fragments + 1)) [] [] sn_unknown false false need);
  let w := set_readers w (sc_before sc ++ sc_from sc) in
  let w := if negb (sn_eqb sn_unknown (sc_gap_for_all sc)) then send w [GAP (sc_gap_for_all sc) (range_new (out_seq o)) None] else w in
  '(ret, w) ← (if sc_should_be_sent sc then
                 if negb (separate_sending_enabled_ w) then send_to_all w o n_fragments sc
                 else send_to_each w o n_fragments sc 0 (sc_before sc) (sc_from sc) DELIVERED
               else Some (DELIVERED, w));
  Some (sc_min_unsent_fragment sc, sc_need_heartbeat sc, ret, w).

Fixpoint deliver_rounds (fuel : nat) w o (min : Z) (need : bool) (ret : DeliveryRetCode) : option (bool * DeliveryRetCode * StatefulWriter) :=
  if bool_decide (ret = DELIVERED) && negb (min =? u32 (out_fragment_count o + 1)) then
    match fuel with
    | O => None
    | S fuel => '(min, need, ret, w) ← deliver_round w o need; deliver_rounds fuel w o min need ret
    end
  else Some (need, ret, w).

Definition deliver_sample_to_network (fuel : nat) w o : option (DeliveryRetCode * StatefulWriter) :=
  '(need, ret, w) ← deliver_rounds fuel w o 0 false DELIVERED;
  Some (ret, if need : bool then restart_periodic_hb w else w).

Definition deliver_sample_nts (listener : Listener) (fuel : nat) w o : option (DeliveryRetCode * StatefulWriter) :=
  '(ret, w) ← (match matched_remote_readers_ w with [] => Some (DELIVERED, w) | _ => deliver_sample_to_network fuel w o end);
  w ← check_acked_status listener w;
  Some (ret, w).

End Group.

(** ** Matched readers *)

Definition is_transient (d : DurabilityKind_t) : bool := negb (bool_decide (d = VOLATILE)).

(** The changes a reader that joins late is to ask for. *)
Fixpoint add_old_changes rp (l : list OutChange) (relevant : OutChange -> bool) : option ReaderProxy :=
  match l with
  | [] => Some rp
  | o :: l =>
      rp ← (if relevant o then c ← ChangeForReader_new o; add_change rp (with_status c UNACKNOWLEDGED) true false else Some rp);
      add_old_changes rp l relevant
  end.

(** The part of [matched_reader_add_edp] for a reader that is not matched yet;
    [rp] comes from the pool or is new. *)
Definition add_reader w rp (d : ReaderData) (relevant : OutChange -> bool) : option (ReaderProxy * StatefulWriter) :=
  let h := history_ w in
  rp ← rp_start h rp d;
  if is_reliable_ rp then
    let min_seq := get_seq_num_min h in
    '(rp, w) ← (if negb (sn_eqb min_seq sn_unknown) then
                  let last_seq := get_seq_num_max h in
                  assert (negb (sn_eqb last_seq sn_unknown) && sn_leb min_seq last_seq) (
                    '(rp, w) ← (if is_transient (durability_kind_ rp) && is_transient (writer_durability w) then
                                  rp ← add_old_changes rp (m_changes h) relevant; Some (rp, w)
                                else Some (rp, send w [GAP min_seq (range_new (next_sequence_number h)) (Some (remote_guid_ rp))]));
                    Some (rp, restart_periodic_hb w))
                else Some (rp, w));
    w ← send_heartbeat_nts_ w 1 (writer_disable_positive_acks_ w) false;
    Some (rp, w)
  else
    rp ← acked_changes_set h rp (next_sequence_number h);
    Some (rp, w).

Definition matched_reader_add_edp w (pool : option ReaderProxy) (d : ReaderData) (relevant : OutChange -> bool) : option (bool * StatefulWriter) :=
  if bool_decide (rd_guid d = c_Guid_Unknown) then Some (false, w)
  else match find_reader (rd_guid d) (matched_remote_readers_ w) with
       | Some (a, rp, b) => Some (false, set_readers w (a ++ rp_update rp d :: b))
       | None =>
           match pool with
           | None => Some (false, w)
           | Some rp =>
               '(rp, w) ← add_reader w rp d relevant;
               Some (true, set_readers w (matched_remote_readers_ w ++ [rp]))
           end
       end.

(** [matched_reader_remove]: the proxy that goes back to the pool. *)
Definition matched_reader_remove (listener : Listener) w (reader_guid : GUID_t) : option (option ReaderProxy * StatefulWriter) :=
  let '(proxy, w) := match find_reader reader_guid (matched_remote_readers_ w) with
                     | Some (a, rp, b) => (Some rp, set_readers w (a ++ b))
                     | None => (None, w)
                     end in
  let w := match matched_remote_readers_ w with
           | [] => set_events w (cancel_timer (periodic_hb_event_ w)) (nack_response_event_ w)
           | _ => w
           end in
  match proxy with
  | Some rp => w ← check_acked_status listener w; Some (Some (rp_stop rp), w)
  | None => Some (None, w)
  end.
