(* ===== verification/ReaderHistory.v ===== *)
(** * The history of a reader

    Models [Fast-DDS/src/cpp/rtps/history/ReaderHistory.cpp], the part of
    [History.cpp] that readers use, [sorted_vector_insert.hpp] and
    [ChangeComparison.hpp]: the changes a reader keeps, of several writers, complete
    ones and ones that are still being put together.  An iterator is an index; the
    end is the length.

    The theorems: as long as the changes of other writers do not get between, a
    change is found whenever it is there; and the comparison is not an order, so
    that in general it is not. *)

From Stdlib Require Import Sorted.
From S2P Require Import Prelude FastBuffer SequenceNumber CdrMessage Fragments ParameterList WriterProxyInv ReaderProxy.

Record InChange := mkIn {
  in_writer : GUID_t;
  in_seq : SequenceNumber_t;
  in_time : Z;
  in_body : Change;
  in_read : bool
}.

Record ReaderHistory := mkRH {
  r_changes : list InChange;
  r_isHistoryFull : bool;
  r_preallocated : bool;
  r_payloadMaxSize : Z
}.

Implicit Types (h : ReaderHistory) (c : InChange) (l : list InChange) (s : SequenceNumber_t) (g : GUID_t).

Definition set_r_changes h l (full : bool) : ReaderHistory := mkRH l full (r_preallocated h) (r_payloadMaxSize h).

Definition assembled c : bool := is_fully_assembled (in_body c).

(** [can_change_be_added_nts]: whether the change can be added, and whether it
    never can. *)
Definition can_change_be_added_nts h g (total_payload_size : Z) : bool * bool :=
  if r_preallocated h && (total_payload_size >? r_payloadMaxSize h) then (false, true)
  else if bool_decide (g = c_Guid_Unknown) then (false, true)
  else (true, false).

Definition history_order_cmp c1 c2 : bool :=
  if bool_decide (in_writer c1 = in_writer c2) then sn_ltb (in_seq c1) (in_seq c2) else in_time c1 <? in_time c2.

(** [std::lower_bound]: before the first element that is not less. *)
Fixpoint insert_sorted c l : list InChange :=
  match l with
  | [] => [c]
  | d :: l' => if history_order_cmp d c then d :: insert_sorted c l' else c :: l
  end.

Definition sorted_vector_insert c l : list InChange :=
  match list.last l with
  | Some d => if history_order_cmp c d then insert_sorted c l else l ++ [c]
  | None => [c]
  end.

(** [add_change] and [received_change] *)
Definition history_add_change h c : bool * ReaderHistory :=
  if r_preallocated h && (payload_length (in_body c) >? r_payloadMaxSize h) then (false, h)
  else (true, set_r_changes h (sorted_vector_insert c (r_changes h)) (r_isHistoryFull h)).

(** [get_change_nts] from an index on. *)
Fixpoint search_change l g s (i : nat) : nat * option InChange :=
  match l with
  | [] => (i, None)
  | c :: l =>
      if bool_decide (in_writer c = g) then
        if sn_eqb (in_seq c) s then (i, Some c)
        else if sn_gtb (in_seq c) s then (i, None)
        else search_change l g s (S i)
      else search_change l g s (S i)
  end.

Definition reader_get_change_nts h s g (hint : nat) : nat * option InChange := search_change (drop hint (r_changes h)) g s hint.
Definition reader_get_change h s g : option InChange := snd (reader_get_change_nts h s g 0).

(** [find_change_nts]: by number and writer. *)
Definition reader_find_change h s g : option InChange :=
  List.find (fun c => sn_eqb (in_seq c) s && bool_decide (in_writer c = g)) (r_changes h).

(** [History::remove_change_nts]; the element behind has the index afterwards. *)
Definition remove_at h (i : nat) : ReaderHistory := set_r_changes h (delete i (r_changes h)) false.

(** [writer_unmatched] and [remove_changes_with_guid] *)
Definition remove_changes_with_guid h g : ReaderHistory :=
  set_r_changes h (filter (fun c => in_writer c <> g) (r_changes h))
    (if existsb (fun c => bool_decide (in_writer c = g)) (r_changes h) then false else r_isHistoryFull h).

(** The changes that [remove_fragmented_changes_until] takes out and those it
    leaves. *)
Fixpoint fragmented_until l s g : list InChange * list InChange :=
  match l with
  | [] => ([], [])
  | c :: l =>
      if bool_decide (in_writer c = g) then
        if sn_ltb (in_seq c) s then
          let '(out, rest) := fragmented_until l s g in
          if negb (assembled c) then (c :: out, rest) else (out, c :: rest)
        else ([], c :: l)
      else let '(out, rest) := fragmented_until l s g in (out, c :: rest)
  end.

(** ** Order *)

(** A writer numbers its changes in the order of their time stamps. *)
Definition timely l : Prop :=
  Forall (fun c => sn_ok (in_seq c)) l /\
  forall c d, c ∈ l -> d ∈ l -> in_writer c = in_writer d -> sn_val (in_seq c) < sn_val (in_seq d) <-> in_time c < in_time d.

Definition in_order l : Prop := StronglySorted Z.le (in_time <$> l).

Lemma timely_cmp l c d : timely l -> c ∈ l -> d ∈ l -> history_order_cmp c d = (in_time c <? in_time d).
Proof.
  intros [Ho Ht] Hc Hd. unfold history_order_cmp. case_bool_decide as E; [|done]. rewrite list.Forall_forall in Ho.
  rewrite sn_ltb_val by auto. specialize (Ht c d Hc Hd E). apply eq_bool_prop_intro. rewrite !Is_true_true, !Z.ltb_lt. done.
Qed.

Lemma timely_sub l l' : timely l -> (forall c, c ∈ l' -> c ∈ l) -> timely l'.
Proof. intros [Ho Ht] Hs. split; [rewrite list.Forall_forall in *; auto|auto]. Qed.

Lemma insert_sorted_in_order c l : timely (c :: l) -> in_order l ->
  in_order (insert_sorted c l) /\ forall d, d ∈ insert_sorted c l <-> d ∈ c :: l.
Proof.
  induction l as [|d l IH]; intros Ht Ho; [split; [repeat constructor|done]|]. simpl.
  rewrite (timely_cmp (c :: d :: l)); [|done|by right; left|by left].
  unfold in_order in Ho. rewrite fmap_cons in Ho. apply StronglySorted_inv in Ho as [Ho Hd].
  destruct (Z.ltb_spec (in_time d) (in_time c)) as [Hlt|Hge].
  - destruct IH as [IH1 IH2]; [apply (timely_sub _ _ Ht); intros x; rewrite !elem_of_cons; tauto|done|]. split.
    + unfold in_order. rewrite fmap_cons. constructor; [done|]. apply list.Forall_forall. intros t (x & -> & Hx)%list_elem_of_fmap.
      apply IH2, elem_of_cons in Hx as [->|Hx]; [lia|]. rewrite list.Forall_forall in Hd. apply Hd. by apply list_elem_of_fmap_2.
    + intros x. rewrite !elem_of_cons, IH2, elem_of_cons. tauto.
  - split; [|done]. unfold in_order. rewrite !fmap_cons. constructor; [by constructor|]. constructor; [done|].
    eapply list.Forall_impl; [exact Hd|]. simpl. lia.
Qed.

Lemma sorted_vector_insert_in_order c l : timely (c :: l) -> in_order l ->
  in_order (sorted_vector_insert c l) /\ forall d, d ∈ sorted_vector_insert c l <-> d ∈ c :: l.
Proof.
  intros Ht Ho. unfold sorted_vector_insert. destruct (list.last l) as [d|] eqn:E.
  2:{ apply last_None in E as ->. split; [repeat constructor|done]. }
  apply last_Some in E as [k ->]. rewrite (timely_cmp (c :: k ++ [d])); [|done|by left|right; apply elem_of_app; right; left].
  destruct (Z.ltb_spec (in_time c) (in_time d)) as [Hlt|Hge]; [by apply insert_sorted_in_order|]. split.
  - unfold in_order in *. assert (forall t, t ∈ in_time <$> (k ++ [d]) -> t <= in_time d) as Hle.
    { rewrite fmap_app in *. clear -Ho. induction (in_time <$> k) as [|x j IH]; simpl in *; intros t; [by intros ->%list_elem_of_singleton|].
      apply StronglySorted_inv in Ho as [Ho Hx]. intros [->|Hi]%elem_of_cons; [|auto].
      apply Forall_app in Hx as [_ Hx]. by inversion Hx. }
    rewrite fmap_app. clear -Ho Hge Hle. induction (in_time <$> k ++ [d]) as [|x j IH]; [repeat constructor|].
    apply StronglySorted_inv in Ho as [Ho Hx]. simpl. constructor; [apply IH; [done|intros; apply Hle; by right]|].
    apply Forall_app. split; [done|]. constructor; [specialize (Hle x ltac:(by left)); lia|constructor].
  - intros x. rewrite elem_of_app, !elem_of_cons, elem_of_nil. tauto.
Qed.

(** The search that stops early finds what is there. *)
Lemma search_change_complete l g s i : timely l -> in_order l -> sn_ok s ->
  snd (search_change l g s i) = List.find (fun c => sn_eqb (in_seq c) s && bool_decide (in_writer c = g)) l.
Proof.
  revert i. induction l as [|c l IH]; intros i Ht Ho Hs; [done|]. simpl.
  assert (sn_ok (in_seq c)) as Hc by (destruct Ht as [Ht _]; by inversion Ht).
  assert (timely l) as Ht' by (apply (timely_sub _ _ Ht); intros; by right).
  unfold in_order in Ho. rewrite fmap_cons in Ho. apply StronglySorted_inv in Ho as [Ho Hle].
  case_bool_decide as Ew; [|rewrite andb_false_r; by apply IH]. rewrite andb_true_r. destruct (sn_eqb (in_seq c) s) eqn:Es; [done|].
  rewrite sn_eqb_val in Es by done. rewrite sn_gtb_val by done. destruct (Z.ltb_spec (sn_val s) (sn_val (in_seq c))) as [Hlt|Hge]; [|by apply IH].
  simpl. symmetry. destruct (List.find _ l) as [d|] eqn:Ef; [|done]. exfalso. apply find_some in Ef as [Hd Hb].
  apply andb_true_iff in Hb as [Hb1 Hb2]. apply bool_decide_eq_true in Hb2. apply list_elem_of_In in Hd.
  destruct Ht as [Hok Ht]. rewrite list.Forall_forall in Hok. assert (sn_ok (in_seq d)) as Hdo by (apply Hok; by right).
  rewrite sn_eqb_val in Hb1 by done. apply Z.eqb_eq in Hb1.
  assert (in_time d < in_time c) by (apply Ht; [by right|by left|congruence|lia]).
  rewrite list.Forall_forall in Hle. assert (in_time c <= in_time d) by (apply Hle; by apply list_elem_of_fmap_2). lia.
Qed.

(** A history made by adding changes one after the other. *)
Fixpoint add_each_change h (cs : list InChange) : ReaderHistory :=
  match cs with [] => h | c :: cs => add_each_change (snd (history_add_change h c)) cs end.

Lemma add_each_in_order cs : forall h, timely (r_changes h ++ cs) -> in_order (r_changes h) ->
  in_order (r_changes (add_each_change h cs)) /\ timely (r_changes (add_each_change h cs)).
Proof.
  induction cs as [|c cs IH]; intros h Ht Ho; simpl; [by rewrite app_nil_r in Ht|].
  unfold history_add_change. destruct (_ && _); simpl.
  { apply IH; [|done]. apply (timely_sub _ _ Ht). intros x. rewrite !elem_of_app, elem_of_cons. tauto. }
  destruct (sorted_vector_insert_in_order c (r_changes h)) as [Ho' Hin]; [|done|].
  { apply (timely_sub _ _ Ht). intros x. rewrite elem_of_app, !elem_of_cons. tauto. }
  apply IH; simpl; [|done]. apply (timely_sub _ _ Ht). intros x. rewrite !elem_of_app, Hin, !elem_of_cons. tauto.
Qed.

(** C21: In a history whose writers number their changes in the order of the time
    stamps, whatever order the changes came in, the lookup that stops at the first
    larger number finds exactly what a search of the whole history finds. *)
Theorem reader_lookup_complete h cs s g :
  timely (r_changes h ++ cs) -> in_order (r_changes h) -> sn_ok s ->
  reader_get_change (add_each_change h cs) s g = reader_find_change (add_each_change h cs) s g.
Proof.
  intros Ht Ho Hs. destruct (add_each_in_order cs h Ht Ho) as [Ho' Ht']. unfold reader_get_change, reader_get_change_nts, reader_find_change.
  rewrite drop_0. by apply search_change_complete.
Qed.

Definition guid_a : GUID_t := mkGUID c_GuidPrefix_Unknown [0; 0; 1; 0xc2].
Definition guid_b : GUID_t := mkGUID c_GuidPrefix_Unknown [0; 0; 2; 0xc2].
Definition whole : Change := mkChange [] 0 0 0 0.
Definition a_change g (n t : Z) : InChange := mkIn g (SequenceNumber_of n) t whole false.
Definition empty_history : ReaderHistory := mkRH [] false false 0.

Lemma reader_lookup_complete_witness :
  reader_get_change (add_each_change empty_history [a_change guid_a 2 20; a_change guid_b 1 15; a_change guid_a 1 10]) (SequenceNumber_of 1) guid_a
  = Some (a_change guid_a 1 10).
Proof.
  rewrite (reader_lookup_complete empty_history [a_change guid_a 2 20; a_change guid_b 1 15; a_change guid_a 1 10] (SequenceNumber_of 1) guid_a).
  - reflexivity.
  - split; [repeat constructor; by vm_compute|]. intros c d Hc Hd. simpl in Hc, Hd. rewrite !elem_of_cons, elem_of_nil in Hc, Hd.
    destruct Hc as [->|[->|[->|[]]]], Hd as [->|[->|[->|[]]]]; intros E; try discriminate E; vm_compute; naive_solver.
  - constructor.
  - by vm_compute.
Defined.

(** The comparison of the history is not an order: three changes of two writers
    can be in a circle, and then a change of the history is not found. *)
Theorem history_order_circle :
  let a1 := a_change guid_a 1 5 in let a2 := a_change guid_a 2 1 in let b := a_change guid_b 1 3 in
  history_order_cmp a1 a2 = true /\ history_order_cmp a2 b = true /\ history_order_cmp b a1 = true /\
  let h := add_each_change empty_history [a2; b; a1] in
  a1 ∈ r_changes h /\ reader_get_change h (SequenceNumber_of 1) guid_a = None.
Proof. split; [done|]. split; [done|]. split; [done|]. split; [|done]. simpl. by right; right; left. Qed.
