(* ===== verification/StatefulReader.v ===== *)
(** * The stateful reader

    Models [Fast-DDS/src/cpp/rtps/reader/StatefulReader.cpp]: the proxies of the
    matched writers, the history, the reception of DATA, DATA_FRAG, HEARTBEAT and
    GAP messages, the notification of the listener and the ACKNACK and NACK_FRAG
    messages.  The history is the one of the RTPS layer ([ReaderHistory]).  Writers
    are remote: none is in this process or shares memory with the reader, and
    messages of unknown writers are not accepted.

    What the filter of the reader says, and whether the pools have room, are
    arguments.  The messages sent, the samples lost and the numbers the listener
    is told about are logs. *)

From S2P Require Import Prelude FastBuffer SequenceNumber BitmapRange TimedEvent WriterProxy ParameterList CdrMessage Fragments.
From S2P Require Import ChangeForReader ReaderProxy ReaderHistory.

Inductive ReaderMsg :=
  | ACKNACK (writer : GUID_t) (set : BitmapRange SequenceNumber_t) (count : Z) (final : bool)
  | NACK_FRAG (writer : GUID_t) (seq : SequenceNumber_t) (set : BitmapRange FragmentNumber_t) (count : Z).

Record StatefulReader := mkSR {
  sr_alive : bool;
  sr_disable_positive_acks_ : bool;
  matched_writers_ : list (GUID_t * WriterProxy);
  sr_history_ : ReaderHistory;
  acknack_count_ : Z;
  nackfrag_count_ : Z;
  total_unread_ : Z;
  history_record : list (GUID_t * SequenceNumber_t);
  sr_sent : list ReaderMsg;
  sr_lost : list Z;
  sr_notified : list (GUID_t * SequenceNumber_t)
}.

Implicit Types (r : StatefulReader) (p : WriterProxy) (s : SequenceNumber_t) (g : GUID_t) (c : InChange).

Definition sr_set_writers r l : StatefulReader :=
  mkSR (sr_alive r) (sr_disable_positive_acks_ r) l (sr_history_ r) (acknack_count_ r) (nackfrag_count_ r) (total_unread_ r)
    (history_record r) (sr_sent r) (sr_lost r) (sr_notified r).
Definition sr_set_history r h : StatefulReader :=
  mkSR (sr_alive r) (sr_disable_positive_acks_ r) (matched_writers_ r) h (acknack_count_ r) (nackfrag_count_ r) (total_unread_ r)
    (history_record r) (sr_sent r) (sr_lost r) (sr_notified r).
Definition sr_set_sent r acknack nackfrag sent : StatefulReader :=
  mkSR (sr_alive r) (sr_disable_positive_acks_ r) (matched_writers_ r) (sr_history_ r) acknack nackfrag (total_unread_ r)
    (history_record r) sent (sr_lost r) (sr_notified r).
Definition sr_set_lost r lost : StatefulReader :=
  mkSR (sr_alive r) (sr_disable_positive_acks_ r) (matched_writers_ r) (sr_history_ r) (acknack_count_ r) (nackfrag_count_ r) (total_unread_ r)
    (history_record r) (sr_sent r) lost (sr_notified r).
Definition sr_set_notified r unread record notified : StatefulReader :=
  mkSR (sr_alive r) (sr_disable_positive_acks_ r) (matched_writers_ r) (sr_history_ r) (acknack_count_ r) (nackfrag_count_ r) unread
    record (sr_sent r) (sr_lost r) notified.

(** ** The writers *)

(** [findWriterProxy] and [acceptMsgFrom]: the proxy of a writer that is alive. *)
Fixpoint find_writer g (l : list (GUID_t * WriterProxy)) : option WriterProxy :=
  match l with
  | [] => None
  | (g', p) :: l => if bool_decide (g' = g) && is_alive_ p then Some p else find_writer g l
  end.

Fixpoint set_writer g p (l : list (GUID_t * WriterProxy)) : list (GUID_t * WriterProxy) :=
  match l with
  | [] => []
  | (g', q) :: l => if bool_decide (g' = g) && is_alive_ q then (g', p) :: l else (g', q) :: set_writer g p l
  end.

Definition acceptMsgFrom r g : option WriterProxy := find_writer g (matched_writers_ r).
Definition put_writer r g p : StatefulReader := sr_set_writers r (set_writer g p (matched_writers_ r)).

(** ** What was notified last *)

Fixpoint record_of g (l : list (GUID_t * SequenceNumber_t)) : SequenceNumber_t :=
  match l with
  | [] => mkSN 0 0
  | (g', s) :: l => if bool_decide (g' = g) then s else record_of g l
  end.

Definition get_last_notified r g : SequenceNumber_t := record_of g (history_record r).

Definition update_last_notified r g s : StatefulReader :=
  if sn_ltb (get_last_notified r g) s
  then sr_set_notified r (total_unread_ r) ((g, s) :: history_record r) (sr_notified r) else r.

(** ** Notification *)

(** [do next = next_to_be_notified() while (next != unknown && next <= seq)] *)
Fixpoint skip_notified (fuel : nat) p s : option (SequenceNumber_t * WriterProxy) :=
  let '(next, p) := next_cache_change_to_be_notified p in
  if negb (sn_eqb next sn_unknown) && sn_leb next s then
    match fuel with
    | O => None
    | S fuel => skip_notified fuel p s
    end
  else Some (next, p).

(** The loop over the history: the numbers of the changes that are new. *)
Fixpoint notify_loop (fuel : nat) (h : ReaderHistory) g (max_seq next_seq : SequenceNumber_t) (it : nat) p
  : option (list SequenceNumber_t * WriterProxy) :=
  if negb (sn_eqb next_seq sn_unknown) then
    let it := fst (reader_get_change_nts h next_seq g it) in
    match r_changes h !! it with
    | Some aux_ch =>
        if sn_leb (in_seq aux_ch) max_seq then
          assert (negb (in_read aux_ch))
            match fuel with
            | O => None
            | S fuel =>
                '(next, p) ← skip_notified fuel p (in_seq aux_ch);
                '(l, p) ← notify_loop fuel h g max_seq next (S it) p;
                Some (in_seq aux_ch :: l, p)
            end
        else Some ([], p)
    | None => Some ([], p)
    end
  else Some ([], p).

Fixpoint drain_notified (fuel : nat) p : option WriterProxy :=
  let '(next, p) := next_cache_change_to_be_notified p in
  if negb (sn_eqb next sn_unknown) then
    match fuel with
    | O => None
    | S fuel => drain_notified fuel p
    end
  else Some p.

(** Enough for every number between the last one notified and the low mark. *)
Definition notify_fuel p : nat := S (Z.to_nat (sn_val (changes_from_writer_low_mark_ p) - sn_val (last_notified_ p))).

(** [NotifyChanges] of the writer [g] with the proxy [p]. *)
Definition NotifyChanges r g p : option StatefulReader :=
  let fuel := notify_fuel p in
  let max_seq := available_changes_max p in
  let '(first_seq, p) := next_cache_change_to_be_notified p in
  let r := update_last_notified r g max_seq in
  '(new, p) ← notify_loop fuel (sr_history_ r) g max_seq first_seq 0 p;
  p ← drain_notified fuel p;
  let r := put_writer r g p in
  Some (sr_set_notified r (u64 (total_unread_ r + zlen new)) (history_record r) (sr_notified r ++ ((fun s => (g, s)) <$> new))).

Definition irrelevant_and_notify r g p s : option StatefulReader := NotifyChanges r g (snd (irrelevant_change_set p s)).

(** ** Removals *)

(** [change_removed_by_history], which [ReaderHistory::remove_change_nts] calls. *)
Definition reader_change_removed r c : StatefulReader :=
  if sr_alive r then
    if assembled c then
      if negb (in_read c) && sn_geb (get_last_notified r (in_writer c)) (in_seq c) && (0 <? total_unread_ r)
      then sr_set_notified r (total_unread_ r - 1) (history_record r) (sr_notified r) else r
    else match find_writer (in_writer c) (matched_writers_ r) with
         | Some p => put_writer r (in_writer c) (snd (irrelevant_change_set p (in_seq c)))
         | None => r
         end
  else r.

(** [History::remove_change] of the change at an index. *)
Definition reader_remove_change r (i : nat) : StatefulReader :=
  match r_changes (sr_history_ r) !! i with
  | Some c => reader_change_removed (sr_set_history r (remove_at (sr_history_ r) i)) c
  | None => r
  end.

Definition remove_fragmented_changes_until r s g : StatefulReader :=
  let '(out, rest) := fragmented_until (r_changes (sr_history_ r)) s g in
  let full := match out with [] => r_isHistoryFull (sr_history_ r) | _ => false end in
  fold_left reader_change_removed out (sr_set_history r (set_r_changes (sr_history_ r) rest full)).

(** ** Reception of a change *)

(** [change_received] with the proxy of the writer: whether the change was taken. *)
Definition change_received r g p c : option (bool * StatefulReader) :=
  let '(added, h) := history_add_change (sr_history_ r) c in
  if added then
    let r := sr_set_history r h in
    let '(ret, p) :=
      if assembled c then received_change_set p (in_seq c)
      else match reader_find_change h (in_seq c) g with
           | None => (false, snd (irrelevant_change_set p (in_seq c)))
           | Some _ => (true, p)
           end in
    r ← NotifyChanges r g p;
    Some (ret, r)
  else Some (false, r).

(** [relevant] is the answer of the data filter, [room] says whether the pools
    have a change and a payload. *)
Definition process_data_msg r c (relevant room : bool) : option (bool * StatefulReader) :=
  if negb (sr_alive r) then Some (false, r)
  else match acceptMsgFrom r (in_writer c) with
       | None => Some (false, r)
       | Some p =>
           if negb (change_was_received p (in_seq c)) then
             let '(can, never) := can_change_be_added_nts (sr_history_ r) (in_writer c) (payload_length (in_body c)) in
             if negb can then
               r ← (if never : bool then irrelevant_and_notify r (in_writer c) p (in_seq c) else Some r);
               Some (false, r)
             else if negb relevant then
               r ← irrelevant_and_notify r (in_writer c) p (in_seq c);
               Some (true, r)
             else if negb room then Some (false, r)
             else
               '(ok, r) ← change_received r (in_writer c) p c;
               Some (ok, r)
           else Some (true, r)
       end.

(** *** Fragments *)

Section Frag.
Context `{P : Platform}.

(** The index of a change and the change with its body replaced. *)
Definition replace_body h s g (b : Change) : ReaderHistory :=
  match reader_get_change_nts h s g 0 with
  | (i, Some c) => set_r_changes h (<[i := mkIn (in_writer c) (in_seq c) (in_time c) b (in_read c)]> (r_changes h)) (r_isHistoryFull h)
  | (_, None) => h
  end.

(** The change that is put together: the one of the history, or a new one with
    the memory of the pool; the boolean says that it is new. *)
Definition work_change r c (sampleSize : Z) (memory : option (list Z)) : option (option (bool * InChange)) :=
  match reader_get_change (sr_history_ r) (in_seq c) (in_writer c) with
  | Some w => Some (Some (false, w))
  | None =>
      match memory with
      | Some m =>
          if zlen m <? sampleSize then Some None
          else
            b ← setFragmentSize (mkChange m sampleSize 0 0 0) (fragment_size_ (in_body c)) true;
            Some (Some (true, mkIn (in_writer c) (in_seq c) (in_time c) b false))
      | None => Some None
      end
  end.

Definition process_data_frag_msg (fuel : nat) r c (sampleSize fragmentStartingNum fragmentsInSubmessage : Z)
    (relevant : bool) (memory : option (list Z)) : option (bool * StatefulReader) :=
  let g := in_writer c in
  if negb (sr_alive r) then Some (false, r)
  else match acceptMsgFrom r g with
       | None => Some (false, r)
       | Some p =>
           if negb (change_was_received p (in_seq c)) then
             let '(can, never) := can_change_be_added_nts (sr_history_ r) g sampleSize in
             if negb can then
               r ← (if never : bool then irrelevant_and_notify r g p (in_seq c) else Some r);
               Some (false, r)
             else
               work ← work_change r c sampleSize memory;
               match work with
               | None => Some (true, r)
               | Some (created, w) =>
                   '(_, b) ← add_fragments fuel (in_body w) (payload (in_body c)) (payload_length (in_body c))
                               fragmentStartingNum fragmentsInSubmessage;
                   let w := mkIn g (in_seq w) (in_time w) b (in_read w) in
                   '(taken, r) ← (if created : bool then change_received r g p w
                                  else Some (true, sr_set_history r (replace_body (sr_history_ r) (in_seq w) g b)));
                   if taken && assembled w then
                     match acceptMsgFrom r g with
                     | Some p =>
                         let p := snd (received_change_set p (in_seq w)) in
                         let r := put_writer r g p in
                         let r := if relevant then r
                                  else match reader_get_change_nts (sr_history_ r) (in_seq w) g 0 with
                                       | (i, Some _) => reader_remove_change r i
                                       | (_, None) => r
                                       end in
                         r ← NotifyChanges r g p;
                         Some (true, r)
                     | None => Some (true, r)
                     end
                   else Some (true, r)
               end
           else Some (true, r)
       end.

(** ** Acknowledgements *)

(** [send_acknack] of a set. *)
Definition send_acknack_set r g p (sns : BitmapRange SequenceNumber_t) (is_final : bool) : StatefulReader :=
  if negb (is_alive_ p) || is_on_same_process_ p then r
  else
    let count := u32 (acknack_count_ r + 1) in
    sr_set_sent r count (nackfrag_count_ r) (sr_sent r ++ [ACKNACK g sns count is_final]).

(** One missing number: a NACK_FRAG when some fragments are there, an element of
    the ACKNACK otherwise. *)
Definition ask_for (fuel : nat) r g (it : nat) (sns : BitmapRange SequenceNumber_t) s
  : option (StatefulReader * nat * BitmapRange SequenceNumber_t) :=
  let '(i, found) := reader_get_change_nts (sr_history_ r) s g it in
  let it := if (i <? length (r_changes (sr_history_ r)))%nat then i else it in
  match (match found with Some c => if assembled c then None else Some c | None => None end) with
  | None => '(_, sns) ← range_add sns s; Some (r, it, sns)
  | Some c =>
      frag_sns ← get_missing_fragments fuel (in_body c) range_default;
      let count := u32 (nackfrag_count_ r + 1) in
      Some (sr_set_sent r (acknack_count_ r) count (sr_sent r ++ [NACK_FRAG g s frag_sns count]), it, sns)
  end.

Fixpoint ask_for_each (fuel : nat) r g (it : nat) (sns : BitmapRange SequenceNumber_t) (l : list SequenceNumber_t)
  : option (StatefulReader * BitmapRange SequenceNumber_t) :=
  match l with
  | [] => Some (r, sns)
  | s :: l => '(r, it, sns) ← ask_for fuel r g it sns s; ask_for_each fuel r g it sns l
  end.

(** [send_acknack] in answer to a heartbeat. *)
Definition send_acknack (fuel : nat) r g p (heartbeat_was_final : bool) : option StatefulReader :=
  if negb (is_alive_ p) || is_datasharing_writer_ p then Some r
  else
    missing ← missing_changes p;
    if negb (range_empty missing) || negb heartbeat_was_final then
      '(r, sns) ← ask_for_each fuel r g 0 (range_new (sn_add (available_changes_max p) 1)) (for_each missing);
      let count := u32 (acknack_count_ r + 1) in
      Some (sr_set_sent r count (nackfrag_count_ r) (sr_sent r ++ [ACKNACK g sns count (range_empty sns)]))
    else Some r.

(** The callbacks of the timers of a proxy. *)
Definition answer_heartbeat (fuel : nat) r g : option StatefulReader :=
  match acceptMsgFrom r g with
  | None => Some r
  | Some p =>
      let '(out, p) := perform_heartbeat_response p in
      let r := put_writer r g p in
      match out with
      | [HeartbeatResponse final] => send_acknack fuel r g p final
      | _ => Some r
      end
  end.

Definition answer_initial_acknack r g : bool * StatefulReader :=
  match acceptMsgFrom r g with
  | None => (false, r)
  | Some p =>
      let '(again, out, p) := perform_initial_ack_nack p false in
      let r := put_writer r g p in
      (again, match out with [InitialAckNack] => send_acknack_set r g p (range_new (mkSN 0 0)) false | _ => r end)
  end.

End Frag.

(** ** Heartbeats *)

Definition process_heartbeat_msg r g (hbCount : Z) (firstSN lastSN : SequenceNumber_t) (finalFlag livelinessFlag : bool)
  : option (bool * StatefulReader) :=
  if negb (sr_alive r) then Some (false, r)
  else match acceptMsgFrom r g with
       | None => Some (false, r)
       | Some p =>
           let '(processed, _, lost, p) :=
             process_heartbeat p hbCount firstSN lastSN finalFlag livelinessFlag (sr_disable_positive_acks_ r) in
           let r := put_writer r g p in
           if processed then
             let r := remove_fragmented_changes_until r firstSN g in
             let r := match lost with Some n => if 0 <? n then sr_set_lost r (sr_lost r ++ [n]) else r | None => r end in
             match acceptMsgFrom r g with
             | Some p => r ← NotifyChanges r g p; Some (true, r)
             | None => Some (true, r)
             end
           else Some (true, r)
       end.

(** ** Gaps *)

(** A number [s] that is declared irrelevant; the change that is looked for in the
    history has the number [looked_for]. *)
Definition gap_one (h : ReaderHistory) g (it : nat) p s (looked_for : SequenceNumber_t) : ReaderHistory * nat * WriterProxy :=
  let '(new, p) := irrelevant_change_set p s in
  if new then
    match reader_get_change_nts h looked_for g it with
    | (i, Some c) => if assembled c then (h, i, p) else (remove_at h i, i, p)
    | (i, None) => (h, if (i <? length (r_changes h))%nat then i else it, p)
    end
  else (h, it, p).

Fixpoint gap_range (fuel : nat) (h : ReaderHistory) g (it : nat) p s (finalSN : SequenceNumber_t)
  : option (ReaderHistory * nat * WriterProxy * SequenceNumber_t) :=
  if sn_ltb s finalSN then
    match fuel with
    | O => None
    | S fuel => let '(h, it, p) := gap_one h g it p s s in gap_range fuel h g it p (sn_incr s) finalSN
    end
  else Some (h, it, p, s).

(** The loop over the set looks for the number [auxSN] that the first loop ended
    with. *)
Fixpoint gap_set (h : ReaderHistory) g (it : nat) p (auxSN : SequenceNumber_t) (l : list SequenceNumber_t) : ReaderHistory * WriterProxy :=
  match l with
  | [] => (h, p)
  | s :: l => let '(h, it, p) := gap_one h g it p s auxSN in gap_set h g it p auxSN l
  end.

Definition process_gap_msg r g (gapStart : SequenceNumber_t) (gapList : BitmapRange SequenceNumber_t) : option (bool * StatefulReader) :=
  if negb (sr_alive r) || sn_ltb gapStart (mkSN 0 1) || sn_leb (base_ gapList) gapStart then Some (false, r)
  else match acceptMsgFrom r g with
       | None => Some (false, r)
       | Some p =>
           '(h, it, p, auxSN) ← gap_range (Z.to_nat (sn_val (base_ gapList) - sn_val gapStart)) (sr_history_ r) g 0 p gapStart (base_ gapList);
           let '(h, p) := gap_set h g it p auxSN (for_each gapList) in
           r ← NotifyChanges (sr_set_history r h) g p;
           Some (true, r)
       end.

(** ** Matched writers *)

(** [matched_writer_add_edp] for a remote writer; [pool] is a proxy of the pool or
    a new one. *)
Definition matched_writer_add_edp r g (pool : option WriterProxy) (response_delay acknack_delay : Z) : bool * StatefulReader :=
  if negb (sr_alive r) then (false, r)
  else if existsb (fun w => bool_decide (w.1 = g)) (matched_writers_ r) then (false, r)
  else match pool with
       | None => (false, r)
       | Some p =>
           (true, sr_set_writers r (matched_writers_ r ++ [(g, start p response_delay acknack_delay false (get_last_notified r g) false)]))
       end.

(** [remove_persistence_guid] when the writer has no other GUID: the record is kept
    when a lease has run out. *)
Definition erase_record r g (removed_by_lease : bool) : StatefulReader :=
  if removed_by_lease then r
  else sr_set_notified r (total_unread_ r) (filter (fun x => x.1 <> g) (history_record r)) (sr_notified r).

(** [matched_writer_remove]: the proxy that goes back to the pool. *)
Definition matched_writer_remove r g (removed_by_lease : bool) : option WriterProxy * StatefulReader :=
  if sr_alive r then
    let gone := filter (fun c => in_writer c = g) (r_changes (sr_history_ r)) in
    let r := fold_left reader_change_removed gone (sr_set_history r (remove_changes_with_guid (sr_history_ r) g)) in
    match List.find (fun w => bool_decide (w.1 = g)) (matched_writers_ r) with
    | Some (_, p) =>
        (Some (stop p), erase_record (sr_set_writers r (filter (fun w => w.1 <> g) (matched_writers_ r))) g removed_by_lease)
    | None => (None, r)
    end
  else (None, r).

(** ** Access *)

(** [matched_writer_lookup] *)
Definition matched_writer_lookup r g : option WriterProxy := if sr_alive r then find_writer g (matched_writers_ r) else None.

(** [begin_sample_access_nts]: whether the change is behind the available ones. *)
Definition is_future_change r c : bool :=
  match matched_writer_lookup r (in_writer c) with
  | Some p => sn_ltb (available_changes_max p) (in_seq c)
  | None => false
  end.

(** [end_sample_access_nts] of the change at an index. *)
Definition end_sample_access_nts r (i : nat) (mark_as_read : bool) : StatefulReader :=
  match r_changes (sr_history_ r) !! i with
  | Some c =>
      if mark_as_read && negb (in_read c) then
        let h := sr_history_ r in
        let c := mkIn (in_writer c) (in_seq c) (in_time c) (in_body c) true in
        let r := sr_set_history r (set_r_changes h (<[i := c]> (r_changes h)) (r_isHistoryFull h)) in
        if 0 <? total_unread_ r then sr_set_notified r (total_unread_ r - 1) (history_record r) (sr_notified r) else r
      else r
  | None => r
  end.

(** [next_untaken_cache] and, with [unread], [next_unread_cache] from an index on:
    the index of the change.  Changes of writers that are gone are removed on the
    way. *)
Fixpoint next_cache_from (fuel : nat) (unread : bool) r (i : nat) : option nat * StatefulReader :=
  match fuel, r_changes (sr_history_ r) !! i with
  | S fuel, Some c =>
      if unread && in_read c then next_cache_from fuel unread r (S i)
      else match matched_writer_lookup r (in_writer c) with
           | Some p => if sn_ltb (available_changes_max p) (in_seq c) then next_cache_from fuel unread r (S i) else (Some i, r)
           | None => next_cache_from fuel unread (reader_remove_change r i) i
           end
  | _, _ => (None, r)
  end.

Definition next_untaken_cache r : option nat * StatefulReader :=
  if sr_alive r then next_cache_from (length (r_changes (sr_history_ r))) false r 0 else (None, r).
Definition next_unread_cache r : option nat * StatefulReader :=
  if sr_alive r then next_cache_from (length (r_changes (sr_history_ r))) true r 0 else (None, r).

Definition is_in_clean_state r : bool :=
  negb (sr_alive r) || forallb (fun w => number_of_changes_from_writer w.2 =? 0) (matched_writers_ r).
