(* ===== verification/StatefulReaderLaws.v ===== *)
(** * What the stateful reader does

    Each handler of [StatefulReader.cpp], for the writer [g] with a proxy that
    satisfies its invariant: the handler returns (its loops end, no set is left),
    and the proxy and the history change as stated. *)

From S2P Require Import Prelude FastBuffer SequenceNumber BitmapRange TimedEvent WriterProxy WriterProxyInv WriterProxyLaws ParameterList CdrMessage Fragments.
From Stdlib Require Import Sorted.
From S2P Require Import GapBuilder ChangeForReader ReaderProxy ReaderHistory StatefulReader.

Implicit Types (r : StatefulReader) (p : WriterProxy) (s : SequenceNumber_t) (g : GUID_t) (c : InChange) (h : ReaderHistory).

(** ** Proxies in the list *)

Lemma find_set_writer g p p' l : find_writer g l = Some p -> is_alive_ p' = true -> find_writer g (set_writer g p' l) = Some p'.
Proof.
  induction l as [|[g' q] l IH]; simpl; [done|]. destruct (bool_decide (g' = g) && is_alive_ q) eqn:E; simpl.
  - intros _ Ha. rewrite Ha. apply andb_true_iff in E as [E _]. by rewrite E.
  - intros Hf Ha. rewrite E. auto.
Qed.

Lemma find_writer_alive g l p : find_writer g l = Some p -> is_alive_ p = true.
Proof.
  induction l as [|[g' q] l IH]; simpl; [done|]. destruct (bool_decide (g' = g) && is_alive_ q) eqn:E; [|done].
  intros [= <-]. by apply andb_true_iff in E as [_ ?].
Qed.

(** ** Notifications *)

(** Only the number notified last has changed. *)
Definition told p p' : Prop :=
  wp_inv p' /\ same_rest p p' /\ changes_received_ p' = changes_received_ p /\
  changes_from_writer_low_mark_ p' = changes_from_writer_low_mark_ p /\ max_sequence_number_ p' = max_sequence_number_ p.

Definition dist p : Z := sn_val (changes_from_writer_low_mark_ p) - sn_val (last_notified_ p).

Lemma told_refl p : wp_inv p -> told p p.
Proof. intros. by split; [|split]. Qed.

Lemma told_trans p1 p2 p3 : told p1 p2 -> told p2 p3 -> told p1 p3.
Proof.
  intros (_ & R1 & A1 & B1 & C1) (W & R2 & A2 & B2 & C2). split; [done|]. split; [unfold same_rest in *; rewrite R2, R1; done|].
  split; [congruence|]. split; congruence.
Qed.

Lemma told_known p p' n : told p p' -> known p' n <-> known p n.
Proof. intros (_ & _ & A & B & _). unfold known. by rewrite A, B. Qed.

Lemma next_told p : wp_inv p -> let '(n, p') := next_cache_change_to_be_notified p in
  told p p' /\ if 0 <? dist p then sn_eqb n sn_unknown = false /\ sn_ok n /\ sn_val n = sn_val (last_notified_ p) + 1 /\ last_notified_ p' = n
                else sn_eqb n sn_unknown = true /\ p' = p.
Proof.
  intros W. pose proof (next_notified_spec p W) as H. pose proof (sn_valid_range _ (wi_last _ W)). unfold dist.
  destruct (next_cache_change_to_be_notified p) as [n p']. destruct H as (W' & R & _ & M & L & C & Hn).
  split; [by split; [|split; [|split]]|].
  destruct (Z.ltb_spec (sn_val (last_notified_ p)) (sn_val (changes_from_writer_low_mark_ p))) as [Hlt|Hge].
  - destruct Hn as (En & Ho & El). rewrite (proj2 (Z.ltb_lt _ _)) by lia. split; [|done].
    rewrite sn_eqb_val by done. change (sn_val sn_unknown) with (- 2 ^ 32). apply Z.eqb_neq. lia.
  - destruct Hn as [-> ->]. by rewrite (proj2 (Z.ltb_ge _ _)) by lia.
Qed.

(** What is to be notified next: the number notified last, now, or nothing. *)
Definition at_number p (next : SequenceNumber_t) (n : Z) : Prop :=
  if n <=? sn_val (changes_from_writer_low_mark_ p)
  then sn_eqb next sn_unknown = false /\ sn_ok next /\ sn_val next = n /\ last_notified_ p = next
  else sn_eqb next sn_unknown = true.

Lemma next_at p : wp_inv p -> let '(next, p') := next_cache_change_to_be_notified p in
  told p p' /\ at_number p' next (sn_val (last_notified_ p) + 1) /\ sn_val (last_notified_ p) <= sn_val (last_notified_ p').
Proof.
  intros W. pose proof (next_told p W) as H. destruct (next_cache_change_to_be_notified p) as [n p']. destruct H as [T H]. split; [done|].
  pose proof T as (_ & _ & _ & El & _). unfold at_number. rewrite El. unfold dist in H. destruct (Z.ltb_spec 0 (sn_val (changes_from_writer_low_mark_ p) - sn_val (last_notified_ p))).
  - destruct H as (E1 & E2 & E3 & E4). rewrite (proj2 (Z.leb_le _ _)) by lia. split; [done|]. rewrite E4. lia.
  - destruct H as [E ->]. by rewrite (proj2 (Z.leb_gt _ _)) by lia.
Qed.

(** The numbers up to [s] are passed over. *)
Lemma skip_notified_spec fuel : forall p s, wp_inv p -> sn_ok s -> sn_val (last_notified_ p) <= sn_val s ->
  dist p <= Z.of_nat fuel -> sn_val s <= sn_val (changes_from_writer_low_mark_ p) ->
  exists next p', skip_notified fuel p s = Some (next, p') /\ told p p' /\ at_number p' next (sn_val s + 1) /\ sn_val (last_notified_ p) <= sn_val (last_notified_ p').
Proof.
  induction fuel as [|fuel IH]; intros p s W Hs Hle Hf Hsl; cbn [skip_notified]; pose proof (next_at p W) as H;
    destruct (next_cache_change_to_be_notified p) as [n p1]; destruct H as (T & H & Hm); pose proof (wi_notified _ W) as Hno; pose proof T as (W1 & _ & _ & El & _);
    unfold at_number in H; rewrite El in H; unfold dist in Hf;
    (destruct (Z.leb_spec (sn_val (last_notified_ p) + 1) (sn_val (changes_from_writer_low_mark_ p))) as [Hlt|Hge];
     [|rewrite H; simpl; exists n, p1; split; [done|]; split; [done|]; split; [|lia]; unfold at_number; rewrite El; by rewrite (proj2 (Z.leb_gt _ _)) by lia]).
  { lia. }
  destruct H as (E1 & E2 & E3 & E4). rewrite E1, sn_leb_val, E3 by done. cbn [negb andb].
  destruct (Z.leb_spec (sn_val (last_notified_ p) + 1) (sn_val s)) as [Hls|Hgt].
  - destruct (IH p1 s W1 Hs) as (next & p' & -> & T' & H' & Hm'); [rewrite E4; lia|unfold dist; rewrite El, E4; lia|by rewrite El|].
    exists next, p'. split; [done|]. split; [by apply (told_trans p p1)|]. split; [done|lia].
  - exists n, p1. split; [done|]. split; [done|]. split; [|lia]. unfold at_number. rewrite El, (proj2 (Z.leb_le _ _)) by lia. split; [done|]. split; [done|]. split; [lia|done].
Qed.

(** *** The loop over the history *)

(** The history has a change of the writer with a number. *)
Definition has_change h g (n : Z) : Prop := exists c, c ∈ r_changes h /\ in_writer c = g /\ sn_val (in_seq c) = n.

(** The changes of a writer are in the order of their numbers. *)
Definition ordered (l : list InChange) g : Prop :=
  forall i j c d, l !! i = Some c -> l !! j = Some d -> in_writer c = g -> in_writer d = g -> (i < j)%nat -> sn_val (in_seq c) < sn_val (in_seq d).

(** No change behind a number has been read, and the numbers are proper. *)
Definition unread_beyond h g (n : Z) : Prop :=
  Forall (fun c => sn_ok (in_seq c) /\ (in_writer c = g -> n < sn_val (in_seq c) -> in_read c = false)) (r_changes h).

Lemma unread_beyond_later h g n m : unread_beyond h g n -> n <= m -> unread_beyond h g m.
Proof. intros H Hle. eapply list.Forall_impl; [exact H|]. intros c [Hc Hr]. split; [done|]. intros Hw Hm. apply Hr; [done|lia]. Qed.

(** The search ends at the first change of the writer that is not before [s]. *)
Lemma search_change_first l g s : Forall (fun c => sn_ok (in_seq c)) l -> sn_ok s -> forall i, let j := (search_change l g s i).1 in
  (i <= j)%nat /\ (forall k c, (i <= k < j)%nat -> l !! (k - i)%nat = Some c -> in_writer c = g -> sn_val (in_seq c) < sn_val s) /\
  (forall c, l !! (j - i)%nat = Some c -> in_writer c = g /\ sn_val s <= sn_val (in_seq c)) /\ (j - i <= length l)%nat.
Proof.
  intros Hf Hs. induction Hf as [|c l Hc Hf IH]; intros i; cbn [search_change].
  { simpl. split; [done|]. split; [intros k c Hk; lia|]. split; [done|lia]. }
  assert (forall (b : bool), b = true -> in_writer c = g -> sn_val s <= sn_val (in_seq c) -> let j := i in
    (i <= j)%nat /\ (forall k d, (i <= k < j)%nat -> (c :: l) !! (k - i)%nat = Some d -> in_writer d = g -> sn_val (in_seq d) < sn_val s) /\
    (forall d, (c :: l) !! (j - i)%nat = Some d -> in_writer d = g /\ sn_val s <= sn_val (in_seq d)) /\ (j - i <= length (c :: l))%nat) as Hhere.
  { intros b _ Hw Hle. simpl. split; [done|]. split; [intros k d Hk; lia|]. rewrite Nat.sub_diag. split; [intros d [= <-]; done|lia]. }
  assert ((in_writer c = g -> sn_val (in_seq c) < sn_val s) -> let j := (search_change l g s (S i)).1 in
    (i <= j)%nat /\ (forall k d, (i <= k < j)%nat -> (c :: l) !! (k - i)%nat = Some d -> in_writer d = g -> sn_val (in_seq d) < sn_val s) /\
    (forall d, (c :: l) !! (j - i)%nat = Some d -> in_writer d = g /\ sn_val s <= sn_val (in_seq d)) /\ (j - i <= length (c :: l))%nat) as Hnext.
  { intros Hlt. specialize (IH (S i)). set (j := (search_change l g s (S i)).1) in *. destruct IH as (I1 & I2 & I3 & I4). split; [lia|]. split; [|split; [|simpl; lia]].
    - intros k d Hk Hl Hw. destruct (Nat.eq_dec k i) as [->|Hne]; [rewrite Nat.sub_diag in Hl; injection Hl as <-; auto|].
      apply (I2 k); [lia| |done]. replace (k - i)%nat with (S (k - S i)) in Hl by lia. done.
    - intros d Hl. replace (j - i)%nat with (S (j - S i)) in Hl by lia. auto. }
  case_bool_decide as Hw; [|apply Hnext; done]. rewrite sn_eqb_val, sn_gtb_val by done.
  destruct (Z.eqb_spec (sn_val (in_seq c)) (sn_val s)) as [E|Hne]; [apply (Hhere true); [done|done|lia]|].
  destruct (Z.ltb_spec (sn_val s) (sn_val (in_seq c))) as [Hlt|Hge]; [apply (Hhere true); [done|done|lia]|]. apply Hnext. lia.
Qed.

Lemma get_change_first h g s i : Forall (fun c => sn_ok (in_seq c)) (r_changes h) -> sn_ok s -> let j := (reader_get_change_nts h s g i).1 in
  (i <= j)%nat /\ (forall k c, (i <= k < j)%nat -> r_changes h !! k = Some c -> in_writer c = g -> sn_val (in_seq c) < sn_val s) /\
  (forall c, r_changes h !! j = Some c -> in_writer c = g /\ sn_val s <= sn_val (in_seq c)) /\
  (r_changes h !! j = None -> forall k c, (i <= k)%nat -> r_changes h !! k = Some c -> in_writer c = g -> sn_val (in_seq c) < sn_val s).
Proof.
  intros Hf Hs. pose proof (search_change_first (drop i (r_changes h)) g s (Forall_drop _ i _ Hf) Hs i) as H. unfold reader_get_change_nts.
  set (j := (search_change _ g s i).1) in *. destruct H as (H1 & H2 & H3 & H4).
  assert (forall k c, (i <= k < j)%nat -> r_changes h !! k = Some c -> in_writer c = g -> sn_val (in_seq c) < sn_val s) as Hb.
  { intros k c Hk Hl Hw. apply (H2 k c); [done| |done]. rewrite lookup_drop. by replace (i + (k - i))%nat with k by lia. }
  split; [done|]. split; [done|]. split.
  - intros c Hl. apply H3. rewrite lookup_drop. by replace (i + (j - i))%nat with j by lia.
  - intros Hn k c Hk Hl Hw. apply (Hb k c); [|done|done]. apply lookup_ge_None in Hn. apply lookup_lt_Some in Hl. lia.
Qed.

Lemma notify_loop_spec h g max_seq fuel : forall next it p n, wp_inv p -> at_number p next n -> (sn_eqb next sn_unknown = true \/ dist p < Z.of_nat fuel) ->
  sn_ok max_seq -> sn_val max_seq = sn_val (changes_from_writer_low_mark_ p) ->
  unread_beyond h g (n - 1) -> (forall k c, (k < it)%nat -> r_changes h !! k = Some c -> in_writer c = g -> sn_val (in_seq c) < n) ->
  exists l p', notify_loop fuel h g max_seq next it p = Some (l, p') /\ told p p' /\ sn_val (last_notified_ p) <= sn_val (last_notified_ p') /\
    (forall s, s ∈ l -> sn_ok s /\ n <= sn_val s <= sn_val max_seq /\ has_change h g (sn_val s)) /\ StronglySorted Z.lt (vals l) /\
    (ordered (r_changes h) g -> forall m, n <= m <= sn_val max_seq -> has_change h g m -> m ∈ vals l).
Proof.
  induction fuel as [|fuel IH]; intros next it p n W Hat Hd Hmo Hmax Hun Hbefore; cbn [notify_loop].
  all: assert (Hend : forall l' : list SequenceNumber_t, l' = [] -> (ordered (r_changes h) g -> forall m, n <= m <= sn_val max_seq -> ~ has_change h g m) ->
    exists l p', Some (l', p) = Some (l, p') /\ told p p' /\ sn_val (last_notified_ p) <= sn_val (last_notified_ p') /\
      (forall s, s ∈ l -> sn_ok s /\ n <= sn_val s <= sn_val max_seq /\ has_change h g (sn_val s)) /\ StronglySorted Z.lt (vals l) /\
      (ordered (r_changes h) g -> forall m, n <= m <= sn_val max_seq -> has_change h g m -> m ∈ vals l)) by
    (intros l' -> Hno; exists [], p; split; [done|]; split; [by apply told_refl|]; split; [lia|]; split; [by intros s ?%elem_of_nil|]; split; [constructor|];
     intros Ho m Hm Hh; by destruct (Hno Ho m Hm)).
  all: assert (Hunk : sn_eqb next sn_unknown = true -> sn_val max_seq < n) by
    (unfold at_number in Hat; destruct (Z.leb_spec n (sn_val (changes_from_writer_low_mark_ p))); [by destruct Hat as [-> _]|lia]).
  - destruct Hd as [Hu|Hd]; [|pose proof (wi_notified _ W); unfold dist in Hd; lia]. rewrite Hu. simpl. apply Hend; [done|]. specialize (Hunk Hu). lia.
  - destruct (sn_eqb next sn_unknown) eqn:En; cbn [negb]; [apply Hend; [done|specialize (Hunk eq_refl); lia]|].
    destruct Hd as [?|Hd]; [done|]. unfold at_number in Hat.
    destruct (Z.leb_spec n (sn_val (changes_from_writer_low_mark_ p))) as [Hn|Hn]; [|by rewrite Hat in En]. destruct Hat as (_ & Hno & Ev & Elast).
    assert (Forall (fun c => sn_ok (in_seq c)) (r_changes h)) as Hok by (eapply list.Forall_impl; [exact Hun|]; by intros c [? _]).
    pose proof (get_change_first h g next it Hok Hno) as HG. set (i := (reader_get_change_nts h next g it).1) in *.
    destruct HG as (G1 & G2 & G3 & G4). rewrite Ev in *. destruct (r_changes h !! i) as [c|] eqn:Ec.
    2:{ apply Hend; [done|]. intros _ m Hm (c & (k & Hk)%list_elem_of_lookup_1 & Hw & <-). destruct (Nat.lt_ge_cases k it) as [Hlt|Hge].
        - specialize (Hbefore k c Hlt Hk Hw). lia.
        - specialize (G4 eq_refl k c Hge Hk Hw). lia. }
    destruct (G3 c eq_refl) as [Hcw Hcn]. assert (c ∈ r_changes h) as Hcin by (by eapply list_elem_of_lookup_2).
    unfold unread_beyond in Hun. pose proof Hun as Hun'. rewrite list.Forall_forall in Hun'. destruct (Hun' c Hcin) as [Hco Hcr]. rewrite sn_leb_val by done.
    assert (Hfirst : ordered (r_changes h) g -> forall k d, r_changes h !! k = Some d -> in_writer d = g -> n <= sn_val (in_seq d) -> sn_val (in_seq c) <= sn_val (in_seq d)).
    { intros Ho k d Hk Hw Hle. destruct (Nat.lt_trichotomy k i) as [Hlt|[->|Hgt]].
      - destruct (Nat.lt_ge_cases k it) as [Hl|Hl]; [specialize (Hbefore k d Hl Hk Hw); lia|]. specialize (G2 k d ltac:(lia) Hk Hw). lia.
      - rewrite Ec in Hk. injection Hk as <-. lia.
      - specialize (Ho i k c d Ec Hk Hcw Hw Hgt). lia. }
    destruct (Z.leb_spec (sn_val (in_seq c)) (sn_val max_seq)) as [Hle|Hgt].
    2:{ apply Hend; [done|]. intros Ho m Hm (d & (k & Hk)%list_elem_of_lookup_1 & Hw & <-). specialize (Hfirst Ho k d Hk Hw). lia. }
    rewrite (Hcr Hcw) by lia. cbn [negb assert].
    destruct (skip_notified_spec fuel p (in_seq c) W Hco) as (n1 & p1 & -> & T1 & A1 & M1); [rewrite Elast; lia|lia|lia|]. cbn [mbind option_bind].
    pose proof T1 as (W1 & _ & _ & El1 & _).
    destruct (IH n1 (S i) p1 (sn_val (in_seq c) + 1)) as (l & p2 & -> & T2 & M2 & Hl & Hs & Hc); [done|done| |done|congruence| | |].
    { unfold at_number in A1. destruct (_ <=? _); [right|by left]. destruct A1 as (_ & _ & E3 & E4). unfold dist in *. rewrite El1, E4, E3. rewrite Elast in Hd. lia. }
    { eapply unread_beyond_later; [exact Hun|lia]. }
    { intros k d Hk Hl Hw. destruct (Nat.eq_dec k i) as [->|Hne]; [rewrite Ec in Hl; injection Hl as <-; lia|].
      destruct (Nat.lt_ge_cases k it) as [Hk'|Hk']; [specialize (Hbefore k d Hk' Hl Hw); lia|]. specialize (G2 k d ltac:(lia) Hl Hw). lia. }
    simpl. eexists _, p2. split; [done|]. split; [by apply (told_trans p p1)|]. split; [lia|]. split; [|split].
    + intros s [->|Hs']%elem_of_cons; [|specialize (Hl s Hs'); split; [apply Hl|]; split; [lia|apply Hl]]. split; [done|]. split; [lia|]. by exists c.
    + constructor; [done|]. apply list.Forall_forall. intros m (s & -> & Hs')%list_elem_of_fmap. specialize (Hl s Hs'). lia.
    + intros Ho m Hm Hh. destruct (Z.eq_dec m (sn_val (in_seq c))) as [->|Hne]; [by left|]. right. apply Hc; [done| |done].
      destruct Hh as (d & (k & Hk)%list_elem_of_lookup_1 & Hw & <-). specialize (Hfirst Ho k d Hk Hw). lia.
Qed.

Lemma drain_told fuel : forall p, wp_inv p -> dist p <= Z.of_nat fuel ->
  exists p', drain_notified fuel p = Some p' /\ told p p' /\ last_notified_ p' = changes_from_writer_low_mark_ p'.
Proof.
  assert (Hsame : forall p, wp_inv p -> dist p <= 0 -> last_notified_ p = changes_from_writer_low_mark_ p).
  { intros p W Hd. pose proof (wi_notified _ W). apply sn_val_inj; [apply (wi_last _ W)|apply usable_ok, (wi_low _ W)|unfold dist in *; lia]. }
  induction fuel as [|fuel IH]; intros p W Hf; cbn [drain_notified]; pose proof (next_told p W) as H;
    destruct (next_cache_change_to_be_notified p) as [n p1]; destruct H as [T H]; pose proof (wi_notified _ W) as Hle.
  - rewrite (proj2 (Z.ltb_ge _ _)) in H by lia. destruct H as [-> ->]. simpl. exists p. split; [done|]. split; [done|]. apply Hsame; [done|lia].
  - destruct (Z.ltb_spec 0 (dist p)).
    + destruct H as (-> & _ & E3 & E4). simpl. destruct (IH p1) as (p' & -> & T' & El); [apply T| |exists p'; split; [done|]; split; [by apply (told_trans p p1)|done]].
      destruct T as (_ & _ & _ & El & _). unfold dist in *. rewrite El, E4. lia.
    + destruct H as [-> ->]. simpl. exists p. split; [done|]. split; [done|]. by apply Hsame.
Qed.

(** The reader knows the writer [g], and what is available has been notified. *)
Record reader_ok r g p : Prop := mkReaderOk {
  rr_alive : sr_alive r = true;
  rr_proxy : acceptMsgFrom r g = Some p;
  rr_inv : wp_inv p;
  rr_notified : last_notified_ p = changes_from_writer_low_mark_ p;
  rr_unread : unread_beyond (sr_history_ r) g (sn_val (changes_from_writer_low_mark_ p))
}.

(** What a handler does not change. *)
Definition same_reader_counts r r' : Prop :=
  sr_alive r' = sr_alive r /\ acknack_count_ r' = acknack_count_ r /\ sr_sent r' = sr_sent r /\
  sr_disable_positive_acks_ r' = sr_disable_positive_acks_ r.

Lemma same_reader_counts_trans r1 r2 r3 : same_reader_counts r1 r2 -> same_reader_counts r2 r3 -> same_reader_counts r1 r3.
Proof. unfold same_reader_counts. naive_solver congruence. Qed.

Lemma update_last_notified_same r g s : let r' := update_last_notified r g s in
  matched_writers_ r' = matched_writers_ r /\ sr_history_ r' = sr_history_ r /\ same_reader_counts r r' /\ sr_notified r' = sr_notified r.
Proof. unfold update_last_notified. by destruct (sn_ltb _ _). Qed.

(** What is told to the listener: the changes with numbers behind [lo] and up to
    [hi], in order; all of them when the history is in order. *)
Definition announces h g (lo hi : Z) (l : list SequenceNumber_t) : Prop :=
  (forall s, s ∈ l -> sn_ok s /\ lo < sn_val s <= hi /\ has_change h g (sn_val s)) /\ StronglySorted Z.lt (vals l) /\
  (ordered (r_changes h) g -> forall m, lo < m <= hi -> has_change h g m -> m ∈ vals l).

Definition noted r g p r' p' : Prop :=
  exists l, sr_notified r' = sr_notified r ++ ((fun s => (g, s)) <$> l) /\
    announces (sr_history_ r') g (sn_val (changes_from_writer_low_mark_ p)) (sn_val (changes_from_writer_low_mark_ p')) l.

Lemma noted_nothing r g p r' p' : sr_notified r' = sr_notified r -> changes_from_writer_low_mark_ p' = changes_from_writer_low_mark_ p -> noted r g p r' p'.
Proof.
  intros E1 E2. exists []. split; [by rewrite app_nil_r|]. rewrite E2. split; [by intros s ?%elem_of_nil|]. split; [constructor|]. lia.
Qed.

Lemma NotifyChanges_spec r g p q : sr_alive r = true -> acceptMsgFrom r g = Some q -> wp_inv p -> is_alive_ p = true ->
  unread_beyond (sr_history_ r) g (sn_val (last_notified_ p)) ->
  exists r' p' l, NotifyChanges r g p = Some r' /\ reader_ok r' g p' /\ told p p' /\ sr_history_ r' = sr_history_ r /\ same_reader_counts r r' /\
    sr_notified r' = sr_notified r ++ ((fun s => (g, s)) <$> l) /\
    announces (sr_history_ r) g (sn_val (last_notified_ p)) (sn_val (changes_from_writer_low_mark_ p)) l.
Proof.
  intros Ha Hq W Hal Hun. unfold NotifyChanges. pose proof (next_at p W) as H. pose proof (wi_notified _ W) as Hle.
  destruct (next_cache_change_to_be_notified p) as [n p1]. destruct H as (T & Hat & Hm1). pose proof T as (W1 & _ & _ & El1 & _).
  set (r1 := update_last_notified r g (available_changes_max p)). pose proof (update_last_notified_same r g (available_changes_max p)) as Hr1.
  fold r1 in Hr1. destruct Hr1 as (Em & Eh & Es & Eno). rewrite Eh.
  destruct (notify_loop_spec (sr_history_ r) g (available_changes_max p) (notify_fuel p) n 0 p1 (sn_val (last_notified_ p) + 1) W1 Hat)
    as (l & p2 & -> & T2 & Hm2 & Hl & Hsl & Hcl).
  { unfold at_number in Hat. destruct (_ <=? _); [right|by left]. destruct Hat as (_ & _ & E3 & E4). unfold notify_fuel, dist. rewrite El1, E4, E3. lia. }
  { apply usable_ok, W. }
  { by rewrite El1. }
  { eapply unread_beyond_later; [exact Hun|lia]. }
  { intros k c Hk. lia. }
  cbn [mbind option_bind]. pose proof T2 as (_ & _ & _ & El2 & _).
  destruct (drain_told (notify_fuel p) p2) as (p3 & -> & T3 & E3); [apply T2| |].
  { unfold notify_fuel, dist. rewrite El2, El1. lia. }
  simpl. pose proof (told_trans _ _ _ T (told_trans _ _ _ T2 T3)) as T'. pose proof T' as (_ & R & _ & El & _). eexists _, p3, l. split; [done|].
  split; [|split; [done|split; [done|split; [|split; [by rewrite Eno|]]]]].
  - split; simpl; [by destruct Es as [-> _]| |apply T'|done|].
    + unfold acceptMsgFrom. simpl. rewrite Em. eapply find_set_writer; [exact Hq|]. apply same_rest_fields in R as (_ & _ & -> & _). done.
    + rewrite Eh, El. by eapply unread_beyond_later.
  - destruct Es as (E1 & E2 & E4 & E5). by repeat split.
  - split; [|split; [done|]].
    + intros s Hs. specialize (Hl s Hs). destruct Hl as (H1 & H2 & H3). split; [done|]. split; [|done]. unfold available_changes_max in *. lia.
    + intros Ho m Hm. apply Hcl; [done|]. unfold available_changes_max. lia.
Qed.

Lemma unread_beyond_sub h h' g n : unread_beyond h g n -> (forall c, c ∈ r_changes h' -> c ∈ r_changes h) -> unread_beyond h' g n.
Proof. unfold unread_beyond. rewrite !list.Forall_forall. auto. Qed.

(** ** Gaps *)

(** What the handlers change of a proxy. *)
Definition proxy_kept p p' : Prop :=
  is_alive_ p' = is_alive_ p /\ is_on_same_process_ p' = is_on_same_process_ p /\ is_datasharing_writer_ p' = is_datasharing_writer_ p /\
  state_ p' = state_ p.

Lemma same_rest_kept p p' : same_rest p p' -> proxy_kept p p'.
Proof. intros (_ & _ & E1 & E2 & E3 & _ & E4 & _)%same_rest_fields. done. Qed.

Lemma proxy_kept_trans p1 p2 p3 : proxy_kept p1 p2 -> proxy_kept p2 p3 -> proxy_kept p1 p3.
Proof. unfold proxy_kept. naive_solver congruence. Qed.

Definition all_assembled h : Prop := Forall (fun c => assembled c = true) (r_changes h).

(** The changes that are complete stay. *)
Definition keeps_assembled h h' : Prop :=
  (forall c, c ∈ r_changes h' -> c ∈ r_changes h) /\ (forall c, c ∈ r_changes h -> assembled c = true -> c ∈ r_changes h') /\
  (all_assembled h -> h' = h).

Lemma keeps_refl h : keeps_assembled h h.
Proof. done. Qed.
Lemma keeps_trans h1 h2 h3 : keeps_assembled h1 h2 -> keeps_assembled h2 h3 -> keeps_assembled h1 h3.
Proof. intros (A1 & A2 & A3) (B1 & B2 & B3). split; [auto|]. split; [auto|]. intros H. rewrite B3; rewrite A3; done. Qed.

Lemma remove_at_keeps h i c : r_changes h !! i = Some c -> assembled c = false -> keeps_assembled h (remove_at h i).
Proof.
  intros Hi Hc. split; [|split; [|unfold all_assembled; rewrite list.Forall_forall; intros Hall; rewrite (Hall c) in Hc; [done|by eapply list_elem_of_lookup_2]]]; simpl.
  - intros d Hd. rewrite list.delete_take_drop in Hd. rewrite <- (take_drop i (r_changes h)). apply elem_of_app in Hd as [Hd|Hd]; apply elem_of_app; [by left|right].
    apply list_elem_of_lookup_1 in Hd as [k Hk]. rewrite lookup_drop in Hk. apply list_elem_of_lookup_2 with (i := S k). rewrite lookup_drop, <- Hk. f_equal; lia.
  - intros d (j & Hj)%list_elem_of_lookup_1 Hd. apply list_elem_of_lookup_2 with (i := if (j <? i)%nat then j else pred j).
    destruct (Nat.ltb_spec j i) as [Hlt|Hge]; [by rewrite list_lookup_delete_lt|].
    destruct (Nat.eq_dec i j) as [->|Hne]; [rewrite Hi in Hj; injection Hj as ->; by rewrite Hc in Hd|].
    rewrite list_lookup_delete_ge by lia. replace (S (pred j)) with j by lia. done.
Qed.

Lemma search_change_found l g s : forall i j c, search_change l g s i = (j, Some c) -> (i <= j)%nat /\ l !! (j - i)%nat = Some c.
Proof.
  induction l as [|d l IH]; intros i j c; simpl; [done|].
  assert (search_change l g s (S i) = (j, Some c) -> (i <= j)%nat /\ (d :: l) !! (j - i)%nat = Some c) as Hnext.
  { intros [Hle Hl]%IH. split; [lia|]. replace (j - i)%nat with (S (j - S i)) by lia. done. }
  case_bool_decide; [|done]. destruct (sn_eqb _ _).
  - intros [= <- <-]. split; [lia|]. by rewrite Nat.sub_diag.
  - destruct (sn_gtb _ _); [done|done].
Qed.

Lemma get_change_found h s g hint i c : reader_get_change_nts h s g hint = (i, Some c) -> r_changes h !! i = Some c.
Proof.
  intros [Hle Hl]%search_change_found. rewrite lookup_drop in Hl. by replace (hint + (i - hint))%nat with i in Hl by lia.
Qed.

(** Only what is known has changed. *)
Definition same_told p p' : Prop := same_rest p p' /\ last_notified_ p' = last_notified_ p.

Lemma same_told_trans p1 p2 p3 : same_told p1 p2 -> same_told p2 p3 -> same_told p1 p3.
Proof. intros [R1 E1] [R2 E2]. split; [unfold same_rest in *; rewrite R2, R1; done|congruence]. Qed.

Lemma gap_one_spec h g it p s looked : wp_inv p -> usable s ->
  let '(h', it', p') := gap_one h g it p s looked in
  wp_inv p' /\ same_told p p' /\ keeps_assembled h h' /\ sn_val (max_sequence_number_ p') = Z.max (sn_val (max_sequence_number_ p)) (sn_val s) /\
  forall n, known p' n <-> known p n \/ n = sn_val s.
Proof.
  intros W Hs. unfold gap_one, irrelevant_change_set. pose proof (received_change_set_spec p s W Hs) as HL.
  destruct (received_change_set p s) as [new p']. destruct HL as (W' & R & El & _ & Em & Hk). simpl in *.
  destruct new; [|split; [done|]; split; [done|]; split; [apply keeps_refl|done]].
  destruct (reader_get_change_nts h looked g it) as [i [c|]] eqn:E; [|split; [done|]; split; [done|]; split; [apply keeps_refl|done]].
  destruct (assembled c) eqn:Ea; (split; [done|]; split; [done|]; split; [|done]); [apply keeps_refl|].
  apply get_change_found in E. by eapply remove_at_keeps.
Qed.

Lemma gap_range_spec g finalSN fuel : forall h it p s, wp_inv p -> sn_valid s -> usable finalSN -> sn_val finalSN - sn_val s <= Z.of_nat fuel ->
  exists h' it' p' s', gap_range fuel h g it p s finalSN = Some (h', it', p', s') /\ wp_inv p' /\ same_told p p' /\ keeps_assembled h h' /\
    sn_val (max_sequence_number_ p') <= Z.max (sn_val (max_sequence_number_ p)) (sn_val finalSN - 1) /\
    forall n, known p' n <-> known p n \/ sn_val s <= n < sn_val finalSN.
Proof.
  assert (Hstop : forall h (it : nat) p (s : SequenceNumber_t), wp_inv p -> sn_val finalSN <= sn_val s ->
    exists h' it' p' (s' : SequenceNumber_t), Some (h, it, p, s) = Some (h', it', p', s') /\ wp_inv p' /\ same_told p p' /\ keeps_assembled h h' /\
    sn_val (max_sequence_number_ p') <= Z.max (sn_val (max_sequence_number_ p)) (sn_val finalSN - 1) /\
    forall n, known p' n <-> known p n \/ sn_val s <= n < sn_val finalSN).
  { intros h it p s W Hle. exists h, it, p, s. split; [done|]. split; [done|]. split; [done|]. split; [apply keeps_refl|]. split; [lia|].
    intros n. split; [by left|]. intros [?|?]; [done|lia]. }
  induction fuel as [|fuel IH]; intros h it p s W Hv Hf Hfu; cbn [gap_range]; rewrite sn_ltb_val by (auto; apply Hv).
  { rewrite (proj2 (Z.ltb_ge _ _)) by lia. apply Hstop; [done|lia]. }
  destruct (Z.ltb_spec (sn_val s) (sn_val finalSN)) as [Hlt|Hge]; [|by apply Hstop].
  pose proof (usable_range _ Hf). assert (usable s) as Hu by (split; [done|lia]).
  pose proof (gap_one_spec h g it p s s W Hu) as H1. destruct (gap_one h g it p s s) as [[h1 it1] p1]. destruct H1 as (W1 & R1 & K1 & M1 & Hk1).
  destruct (sn_incr_val s Hv) as [Hvi Ei]; [lia|].
  destruct (IH h1 it1 p1 (sn_incr s) W1 Hvi Hf) as (h2 & it2 & p2 & s2 & E & W2 & R2 & K2 & M2 & Hk2); [lia|].
  exists h2, it2, p2, s2. split; [done|]. split; [done|]. split; [by apply (same_told_trans p p1)|].
  split; [by apply (keeps_trans h h1)|]. split; [lia|]. intros n. rewrite Hk2, Hk1, Ei. assert (sn_val s <= n < sn_val finalSN <-> n = sn_val s \/ sn_val s + 1 <= n < sn_val finalSN) by lia. tauto.
Qed.

Lemma gap_set_spec g aux xs : forall h it p, wp_inv p -> Forall usable xs ->
  let '(h', p') := gap_set h g it p aux xs in
  wp_inv p' /\ same_told p p' /\ keeps_assembled h h' /\
  (forall b, (forall n, n ∈ vals xs -> n <= b) -> sn_val (max_sequence_number_ p') <= Z.max (sn_val (max_sequence_number_ p)) b) /\
  forall n, known p' n <-> known p n \/ n ∈ vals xs.
Proof.
  induction xs as [|x xs IH]; intros h it p W Hu; cbn [gap_set].
  { split; [done|]. split; [done|]. split; [apply keeps_refl|]. split; [lia|]. intros n. simpl. rewrite elem_of_nil. tauto. }
  apply list.Forall_cons in Hu as [Hx Hu]. pose proof (gap_one_spec h g it p x aux W Hx) as H1.
  destruct (gap_one h g it p x aux) as [[h1 it1] p1]. destruct H1 as (W1 & R1 & K1 & M1 & Hk1).
  specialize (IH h1 it1 p1 W1 Hu). destruct (gap_set h1 g it1 p1 aux xs) as [h2 p2]. destruct IH as (W2 & R2 & K2 & M2 & Hk2).
  split; [done|]. split; [by apply (same_told_trans p p1)|]. split; [by apply (keeps_trans h h1)|]. split.
  - intros b Hb. specialize (M2 b ltac:(intros n Hn; apply Hb; by right)). specialize (Hb (sn_val x) ltac:(by left)). lia.
  - intros n. rewrite Hk2, Hk1, fmap_cons, elem_of_cons. tauto.
Qed.

Lemma process_gap_msg_spec r g p gapStart gapList : reader_ok r g p -> gap_ok (gapStart, gapList) ->
  (forall n, declares (gapStart, gapList) n -> n + 259 < 2 ^ 63) ->
  exists r' p', process_gap_msg r g gapStart gapList = Some (true, r') /\ reader_ok r' g p' /\ same_rest p p' /\ same_reader_counts r r' /\ noted r g p r' p' /\
    keeps_assembled (sr_history_ r) (sr_history_ r') /\
    (forall b, (forall n, declares (gapStart, gapList) n -> n <= b) -> sn_val (max_sequence_number_ p') <= Z.max (sn_val (max_sequence_number_ p)) b) /\
    forall n, known p' n <-> known p n \/ declares (gapStart, gapList) n.
Proof.
  intros [Ha Hp W Hln Hun] (Hv & Hpos & Hlt & Wf) Hb. cbn [fst snd] in *. pose proof (rw_base _ Wf) as Hbo. simpl in Hbo.
  unfold process_gap_msg. rewrite Ha, Hp. cbn [negb orb].
  rewrite sn_ltb_val by (done || apply Hv). rewrite (proj2 (Z.ltb_ge _ _)) by (change (sn_val (mkSN 0 1)) with 1; lia).
  rewrite sn_leb_val by (apply Hv || apply Hbo). rewrite (proj2 (Z.leb_gt _ _)) by lia. cbn [orb].
  assert (usable (base_ gapList)) as Hub.
  { split; [done|]. specialize (Hb (sn_val (base_ gapList) - 1)). unfold declares in Hb. cbn [fst snd] in Hb. specialize (Hb ltac:(left; lia)). lia. }
  destruct (gap_range_spec g (base_ gapList) (Z.to_nat (sn_val (base_ gapList) - sn_val gapStart)) (sr_history_ r) 0 p gapStart W Hv Hub)
    as (h1 & it1 & p1 & s1 & -> & W1 & R1 & K1 & M1 & Hk1); [lia|]. cbn [mbind option_bind].
  destruct (for_each_spec gapList Wf) as (Hok & _ & Hel). change (ival <$> for_each gapList) with (vals (for_each gapList)) in Hel.
  pose proof (gap_set_spec g s1 (for_each gapList) h1 it1 p1 W1) as H2. destruct (gap_set h1 g it1 p1 s1 (for_each gapList)) as [h2 p2].
  destruct H2 as (W2 & R2 & K2 & M2 & Hk2).
  { apply list.Forall_forall. intros x Hx. rewrite list.Forall_forall in Hok. split; [by apply Hok|]. apply elem_of_vals, Hel in Hx.
    specialize (Hb (sn_val x)). unfold declares in Hb. cbn [fst snd] in Hb. specialize (Hb ltac:(by right)). lia. }
  pose proof (find_writer_alive _ _ _ Hp) as Hal. destruct (same_told_trans _ _ _ R1 R2) as [R El].
  pose proof (same_rest_kept _ _ R) as (Eal & Hkept). pose proof (keeps_trans _ _ _ K1 K2) as K.
  destruct (NotifyChanges_spec (sr_set_history r h2) g p2 p) as (r' & p' & l & -> & Hok' & T & Eh & Ec & Eno & Han); [done|done|done|by rewrite Eal| |].
  { simpl. rewrite El, Hln. eapply unread_beyond_sub; [exact Hun|apply K]. }
  simpl. exists r', p'. split; [done|]. split; [done|]. pose proof T as (_ & RT & _ & EL & ET).
  split; [unfold same_rest in *; by rewrite RT, R|].
  split; [done|]. split; [exists l; split; [done|]; rewrite Eh, EL, <- Hln, <- El; done|]. split; [by rewrite Eh|]. split.
  - intros b Hd. specialize (M2 b). rewrite ET. assert (sn_val (base_ gapList) - 1 <= b) by (apply Hd; left; cbn [fst snd]; lia).
    specialize (M2 ltac:(intros n Hn; apply Hd; right; by apply Hel)). lia.
  - intros n. rewrite (told_known _ _ _ T), Hk2, Hk1, Hel. unfold declares. cbn [fst snd]. tauto.
Qed.

(** ** Heartbeats *)

Lemma fragmented_until_none l s g : Forall (fun c => assembled c = true) l -> fragmented_until l s g = ([], l).
Proof.
  induction l as [|c l IH]; intros Hf; [done|]. apply list.Forall_cons in Hf as [Hc Hf]. simpl. rewrite IH by done. rewrite Hc.
  case_bool_decide; [|done]. by destruct (sn_ltb _ _).
Qed.

Lemma set_r_changes_same h : set_r_changes h (r_changes h) (r_isHistoryFull h) = h.
Proof. by destruct h. Qed.

Lemma process_heartbeat_kept p hbCount firstSN lastSN finalFlag livelinessFlag disable : wp_inv p -> usable firstSN -> usable lastSN ->
  let p1 := (process_heartbeat p hbCount firstSN lastSN finalFlag livelinessFlag disable).2 in
  is_alive_ p1 = is_alive_ p /\ is_on_same_process_ p1 = is_on_same_process_ p /\ is_datasharing_writer_ p1 = is_datasharing_writer_ p.
Proof.
  intros W Hf Hl. unfold process_heartbeat. destruct (_ && _); [|done].
  assert (W0 : wp_inv (set_heartbeat p hbCount (heartbeat_final_flag_ p))) by (by apply (same_numbers_inv p)).
  pose proof (heartbeat_numbers _ firstSN lastSN W0 Hf Hl) as HN. destruct (lost_changes_update _ firstSN) as [ls w1]. cbv zeta in HN |- *.
  destruct HN as (_ & R & _). apply same_rest_fields in R as (_ & _ & R1 & R2 & R3 & _). simpl in R1, R2, R3.
  set (w2 := missing_changes_update w1 lastSN) in *. clearbody w2.
  set (w3 := set_heartbeat w2 (last_heartbeat_count_ w2) finalFlag).
  assert (is_alive_ w3 = is_alive_ p /\ is_on_same_process_ w3 = is_on_same_process_ p /\ is_datasharing_writer_ w3 = is_datasharing_writer_ p) as R by done.
  clearbody w3. clear -R.
  destruct (negb (is_on_same_process_ w3)), finalFlag, livelinessFlag, (negb disable || are_there_missing_changes w3),
    (are_there_missing_changes w3); simpl; destruct (received_at_least_one_heartbeat_ w3); done.
Qed.

Lemma process_heartbeat_msg_spec r g p hbCount firstSN lastSN finalFlag livelinessFlag :
  reader_ok r g p -> all_assembled (sr_history_ r) -> state_ p <> STOPPED -> usable firstSN -> usable lastSN ->
  exists r' p', process_heartbeat_msg r g hbCount firstSN lastSN finalFlag livelinessFlag = Some (true, r') /\ reader_ok r' g p' /\
    proxy_kept p p' /\ same_reader_counts r r' /\ sr_history_ r' = sr_history_ r /\ noted r g p r' p' /\
    (if last_heartbeat_count_ p <? hbCount
     then (forall n, known p' n <-> known p n \/ n < sn_val firstSN) /\
          sn_val (max_sequence_number_ p') = Z.max (Z.max (sn_val (max_sequence_number_ p)) (sn_val firstSN - 1)) (sn_val lastSN) /\
          last_heartbeat_count_ p' = hbCount /\ heartbeat_final_flag_ p' = finalFlag
     else p' = p).
Proof.
  intros [Ha Hp W Hln Hun] Has Hst Hf Hl. pose proof (find_writer_alive _ _ _ Hp) as Hal. unfold process_heartbeat_msg. rewrite Ha, Hp. cbn [negb].
  pose proof (process_heartbeat_spec p hbCount firstSN lastSN finalFlag livelinessFlag (sr_disable_positive_acks_ r) W Hf Hl) as H.
  destruct (process_heartbeat p hbCount firstSN lastSN finalFlag livelinessFlag (sr_disable_positive_acks_ r)) as [[[b al] lost] p1] eqn:E1.
  rewrite bool_decide_eq_false_2 in H by done. cbn [negb andb] in H. destruct (last_heartbeat_count_ p <? hbCount) eqn:Ec.
  2:{ destruct H as (-> & _ & _ & ->). eexists _, p. split; [done|]. split; [split; [done| |done..]|split; [done|split; [done|split; [done|split; [by apply noted_nothing|done]]]]].
      unfold acceptMsgFrom. simpl. by eapply find_set_writer. }
  destruct H as (-> & W1 & Ecount & Efinal & _ & Est & Elast & Hk & Hm & _ & _ & _).
  pose proof (process_heartbeat_kept p hbCount firstSN lastSN finalFlag livelinessFlag (sr_disable_positive_acks_ r) W Hf Hl) as (A1 & A2 & A3).
  rewrite E1 in A1, A2, A3. cbn [snd] in A1, A2, A3.
  set (r1 := put_writer r g p1). assert (acceptMsgFrom r1 g = Some p1) as Hp1.
  { unfold acceptMsgFrom, r1. simpl. eapply find_set_writer; [exact Hp|]. by rewrite A1. }
  assert (remove_fragmented_changes_until r1 firstSN g = r1) as ->.
  { unfold remove_fragmented_changes_until. change (sr_history_ r1) with (sr_history_ r). rewrite fragmented_until_none by done.
    simpl. rewrite set_r_changes_same. done. }
  set (r2 := match lost with Some n => if 0 <? n then sr_set_lost r1 (sr_lost r1 ++ [n]) else r1 | None => r1 end).
  assert (acceptMsgFrom r2 g = Some p1 /\ sr_alive r2 = true /\ sr_history_ r2 = sr_history_ r /\ same_reader_counts r r2 /\ sr_notified r2 = sr_notified r) as (Hp2 & Ha2 & Eh2 & Hc2 & En2).
  { unfold r2. destruct lost as [n|]; [destruct (0 <? n)|]; done. }
  rewrite Hp2. destruct (NotifyChanges_spec r2 g p1 p1) as (r' & p' & l & -> & Hok' & T & Eh & Hc & Eno & Han); [done|done|done|by rewrite A1|by rewrite Eh2, Elast, Hln|].
  cbn [mbind option_bind]. pose proof T as (_ & RT & _ & EL & EM). exists r', p'. split; [done|]. split; [done|]. split.
  - apply (proxy_kept_trans p p1); [done|]. by apply same_rest_kept.
  - split; [by apply (same_reader_counts_trans r r2)|]. split; [congruence|]. split.
    { exists l. split; [by rewrite Eno, En2|]. rewrite Eh, EL, <- Hln, <- Elast. done. }
    apply same_rest_fields in RT as (F1 & F2 & _). split; [|split; [by rewrite EM|]].
    + intros n. by rewrite (told_known _ _ _ T), Hk.
    + split; congruence.
Qed.

(** ** Samples *)

Lemma insert_sorted_elem c l d : d ∈ insert_sorted c l <-> d = c \/ d ∈ l.
Proof.
  induction l as [|e l IH]; simpl; [by rewrite elem_of_cons|]. destruct (history_order_cmp e c); rewrite !elem_of_cons, ?IH; tauto.
Qed.

Lemma sorted_vector_insert_elem c l d : d ∈ sorted_vector_insert c l <-> d = c \/ d ∈ l.
Proof.
  unfold sorted_vector_insert. destruct (list.last l) as [e|] eqn:E.
  - destruct (history_order_cmp c e); [apply insert_sorted_elem|]. rewrite elem_of_app, elem_of_cons, elem_of_nil. tauto.
  - apply last_None in E as ->. rewrite elem_of_cons, elem_of_nil. tauto.
Qed.

(** A complete sample of the writer [g]: it is taken unless it is known already or
    the pools are exhausted. *)
Lemma process_data_msg_spec r g p c room :
  reader_ok r g p -> in_writer c = g -> g <> c_Guid_Unknown -> usable (in_seq c) -> assembled c = true -> in_read c = false -> r_preallocated (sr_history_ r) = false ->
  exists b r' p', process_data_msg r c true room = Some (b, r') /\ reader_ok r' g p' /\ same_rest p p' /\ same_reader_counts r r' /\ noted r g p r' p' /\
    r_preallocated (sr_history_ r') = false /\
    (if room && negb (bool_decide (known p (sn_val (in_seq c))))
     then r_changes (sr_history_ r') = sorted_vector_insert c (r_changes (sr_history_ r)) /\ (forall d, d ∈ r_changes (sr_history_ r') <-> d = c \/ d ∈ r_changes (sr_history_ r)) /\
          (forall n, known p' n <-> known p n \/ n = sn_val (in_seq c)) /\
          sn_val (max_sequence_number_ p') = Z.max (sn_val (max_sequence_number_ p)) (sn_val (in_seq c))
     else r' = r /\ p' = p).
Proof.
  intros [Ha Hp W Hln Hun] <- Hg Hu Has Hrd Hpre. unfold process_data_msg. rewrite Ha, Hp. cbn [negb]. rewrite change_was_received_spec by done.
  case_bool_decide as Hkn; cbn [negb].
  { rewrite andb_false_r. exists true, r, p. split; [done|]. split; [by split|]. split; [done|]. split; [done|]. split; [by apply noted_nothing|done]. }
  unfold can_change_be_added_nts. rewrite Hpre, bool_decide_eq_false_2 by done. cbn [negb andb]. destruct room; cbn [negb andb].
  2:{ exists false, r, p. split; [done|]. split; [by split|]. split; [done|]. split; [done|]. split; [by apply noted_nothing|done]. }
  unfold change_received, history_add_change. rewrite Hpre, Has. cbn [andb].
  pose proof (received_change_set_spec p (in_seq c) W Hu) as HL. destruct (received_change_set p (in_seq c)) as [new p1].
  destruct HL as (W1 & R1 & El & _ & Em & Hk). cbn [fst snd] in *. pose proof (find_writer_alive _ _ _ Hp) as Hal.
  pose proof (same_rest_kept _ _ R1) as Hk1.
  set (h' := set_r_changes (sr_history_ r) (sorted_vector_insert c (r_changes (sr_history_ r))) (r_isHistoryFull (sr_history_ r))).
  destruct (NotifyChanges_spec (sr_set_history r h') (in_writer c) p1 p) as (r' & p' & l & -> & Hok & T & Eh & Hc & Eno & Han);
    [done|done|done|by destruct Hk1 as [-> _]| |].
  { simpl. rewrite El, Hln. unfold unread_beyond. simpl. apply list.Forall_forall. intros d [->|Hd]%sorted_vector_insert_elem; [by split; [auto|]|].
    unfold unread_beyond in Hun. rewrite list.Forall_forall in Hun. by apply Hun. }
  simpl. pose proof T as (_ & RT & _ & EL & EM). eexists _, r', p'. split; [done|]. split; [done|].
  split; [unfold same_rest in *; by rewrite RT, R1|]. split; [done|].
  split; [exists l; split; [done|]; rewrite Eh, EL, <- Hln, <- El; done|]. rewrite Eh. split; [done|]. split; [done|]. split; [|split].
  - intros d. simpl. apply sorted_vector_insert_elem.
  - intros n. by rewrite (told_known _ _ _ T), Hk.
  - by rewrite EM.
Qed.

(** ** Acknowledgements *)

Section Acknack.
Context `{P : Platform}.

Lemma search_change_assembled l g s i : Forall (fun c => assembled c = true) l ->
  match (search_change l g s i).2 with Some c => assembled c = true | None => True end.
Proof.
  revert i. induction l as [|c l IH]; intros i Hf; [done|]. apply list.Forall_cons in Hf as [Hc Hf]. simpl.
  case_bool_decide; [|by apply IH]. destruct (sn_eqb _ _); [done|]. destruct (sn_gtb _ _); [done|by apply IH].
Qed.

(** Without samples in fragments, the numbers go into the set as long as it has
    room for them. *)
Lemma ask_for_each_spec fuel r g xs : all_assembled (sr_history_ r) -> forall it sns,
  range_wf sns -> Forall sn_valid xs -> Forall (fun x => sn_val (base_ sns) <= sn_val x <= sn_val (range_max_ sns)) xs ->
  exists sns', ask_for_each fuel r g it sns xs = Some (r, sns') /\ range_wf sns' /\ base_ sns' = base_ sns /\
    forall n, has sns' n = true <-> has sns n = true \/ n ∈ vals xs.
Proof.
  intros Has. induction xs as [|x xs IH]; intros it sns Wf Hv Hr; cbn [ask_for_each].
  { exists sns. split; [done|]. split; [done|]. split; [done|]. intros n. simpl. rewrite elem_of_nil. tauto. }
  apply list.Forall_cons in Hv as [Hx Hv]. apply list.Forall_cons in Hr as [Hrx Hr]. unfold ask_for.
  unfold reader_get_change_nts. pose proof (search_change_assembled (drop it (r_changes (sr_history_ r))) g x it) as HA.
  destruct (search_change (drop it (r_changes (sr_history_ r))) g x it) as [i found].
  assert ((match found with Some c => if assembled c then None else Some c | None => None end) = None) as ->.
  { destruct found as [c|]; [|done]. simpl in HA. rewrite HA; [done|]. by apply Forall_drop. }
  destruct (range_add_spec sns x Wf Hx) as (r1 & E1 & W1 & B1 & X1 & H1). rewrite E1. cbn [mbind option_bind]. simpl ival in *.
  destruct (IH (if (i <? length (r_changes (sr_history_ r)))%nat then i else it) r1 W1 Hv) as (r2 & E2 & W2 & B2 & H2).
  { by rewrite B1, X1. }
  exists r2. rewrite E2. split; [done|]. split; [done|]. split; [by rewrite B2|]. intros n. rewrite H2, H1, fmap_cons, elem_of_cons.
  rewrite orb_true_iff, !andb_true_iff, Z.eqb_eq, !Z.leb_le. split; [naive_solver|]. intros [?|[->|?]]; [by left; left|left; right; naive_solver|by right].
Qed.

(** The acknowledgement of what is known and the request for what is missing. *)
Definition acknack_of p (sns : BitmapRange SequenceNumber_t) : Prop :=
  range_wf sns /\ sn_val (base_ sns) = sn_val (changes_from_writer_low_mark_ p) + 1 /\
  forall n, has sns n = true <-> ~ known p n /\ n <= sn_val (max_sequence_number_ p) /\ n <= sn_val (changes_from_writer_low_mark_ p) + 256.

Lemma send_acknack_spec fuel r g p final :
  reader_ok r g p -> all_assembled (sr_history_ r) -> is_datasharing_writer_ p = false ->
  exists r', send_acknack fuel r g p final = Some r' /\ reader_ok r' g p /\ sr_history_ r' = sr_history_ r /\
    (sr_disable_positive_acks_ r' = sr_disable_positive_acks_ r /\ sr_notified r' = sr_notified r) /\
    ((sr_sent r' = sr_sent r /\ acknack_count_ r' = acknack_count_ r /\ final = true /\ forall n, n <= sn_val (max_sequence_number_ p) -> known p n) \/
     exists sns fin, sr_sent r' = sr_sent r ++ [ACKNACK g sns (u32 (acknack_count_ r + 1)) fin] /\ acknack_of p sns /\
       acknack_count_ r' = u32 (acknack_count_ r + 1)).
Proof.
  intros [Ha Hp W Hln Hun] Has Hd. pose proof (find_writer_alive _ _ _ Hp) as Hal. unfold send_acknack. rewrite Hal, Hd. cbn [negb orb].
  destruct (missing_changes_spec p W) as (m & Em & Wm & Bm & Hm). rewrite Em. cbn [mbind option_bind].
  pose proof (wi_low _ W) as Hlow. pose proof (usable_range _ Hlow). destruct (usable_next _ Hlow) as [Hvn En].
  destruct (range_empty m) eqn:Ee; cbn [negb orb]; [destruct final; cbn [negb]|].
  { exists r. split; [done|]. split; [done|]. split; [done|]. split; [done|]. left. split; [done|]. split; [done|]. split; [done|].
    intros n Hn. pose proof (proj1 (range_empty_spec m Wm) Ee) as Hno.
    destruct (decide (known p n)) as [|Hk]; [done|]. exfalso. destruct (Z.le_gt_cases n (sn_val (changes_from_writer_low_mark_ p) + 256)) as [Hle|Hgt].
    - specialize (Hno n). rewrite (proj2 (Hm n)) in Hno; [done|]. done.
    - assert (has m (sn_val (changes_from_writer_low_mark_ p) + 1) = true) as Hx by (apply Hm; split; [by apply next_unknown|lia]). by rewrite Hno in Hx. }
  all: unfold available_changes_max.
  all: destruct (range_of_spec (sn_add (changes_from_writer_low_mark_ p) 1) 255) as (Wn & Hn0 & Xn); [done|simpl; rewrite En; lia|lia|].
  all: change (range_of (sn_add (changes_from_writer_low_mark_ p) 1) 255) with (range_new (sn_add (changes_from_writer_low_mark_ p) 1)) in *.
  all: destruct (for_each_spec m Wm) as (Hok & _ & Hel); change (ival <$> for_each m) with (vals (for_each m)) in Hel.
  all: destruct (ask_for_each_spec fuel r g (for_each m) Has 0 (range_new (sn_add (changes_from_writer_low_mark_ p) 1)) Wn) as (sns & E & Ws & Bs & Hs);
    [exact Hok| |].
  1,3: apply list.Forall_forall; intros x Hx%elem_of_vals%Hel%Hm; destruct Hx as (Hk & _ & Hx);
    assert (sn_val (changes_from_writer_low_mark_ p) < sn_val x) by (apply Z.nle_gt; intros Hle; apply Hk; by left); simpl in *; lia.
  all: rewrite E; cbn [mbind option_bind]; eexists; split; [done|]; split; [done|]; split; [done|]; split; [done|]; right;
    eexists _, _; split; [done|]; split; [|done]; split; [done|]; split; [by rewrite Bs|]; intros n; rewrite Hs, Hn0, Hel, Hm; naive_solver.
Qed.

Lemma answer_heartbeat_spec fuel r g p :
  reader_ok r g p -> all_assembled (sr_history_ r) -> is_datasharing_writer_ p = false -> state_ p = IDLE ->
  exists r' p', answer_heartbeat fuel r g = Some r' /\ reader_ok r' g p' /\ proxy_kept p p' /\ sr_history_ r' = sr_history_ r /\ same_numbers p p' /\
    (sr_disable_positive_acks_ r' = sr_disable_positive_acks_ r /\ sr_notified r' = sr_notified r) /\ last_heartbeat_count_ p' = last_heartbeat_count_ p /\
    ((sr_sent r' = sr_sent r /\ acknack_count_ r' = acknack_count_ r /\ heartbeat_final_flag_ p = true /\ forall n, n <= sn_val (max_sequence_number_ p) -> known p n) \/
     exists sns fin, sr_sent r' = sr_sent r ++ [ACKNACK g sns (u32 (acknack_count_ r + 1)) fin] /\ acknack_of p sns /\
       acknack_count_ r' = u32 (acknack_count_ r + 1)).
Proof.
  intros Hok Has Hd Hs. pose proof Hok as [Ha Hp W Hln Hun]. pose proof (find_writer_alive _ _ _ Hp) as Hal. unfold answer_heartbeat. rewrite Hp.
  unfold perform_heartbeat_response, event_begin. rewrite Hs.
  set (p1 := event_end (set_state_code p BUSY)).
  assert (reader_ok (put_writer r g p1) g p1) as Hok1.
  { split; [done|unfold acceptMsgFrom; simpl; by eapply find_set_writer|by apply (same_numbers_inv p)|done|done]. }
  destruct (send_acknack_spec fuel (put_writer r g p1) g p1 (heartbeat_final_flag_ (set_state_code p BUSY))) as (r' & E & Hok' & Eh & Epo & HD); [done|done|done|].
  rewrite E. exists r', p1. split; [done|]. split; [done|]. split; [by repeat split; simpl|]. split; [done|]. split; [done|]. split; [done|]. split; [done|].
  destruct HD as [(E1 & E2 & Ef & Hk)|(sns & fin & E1 & Hsns & E2)]; [left|right].
  - split; [done|]. split; [done|]. split; [exact Ef|exact Hk].
  - exists sns, fin. done.
Qed.

Lemma answer_initial_spec r g p :
  reader_ok r g p -> is_datasharing_writer_ p = false -> is_on_same_process_ p = false -> state_ p = IDLE ->
  let r' := (answer_initial_acknack r g).2 in
  exists p', reader_ok r' g p' /\ proxy_kept p p' /\ sr_history_ r' = sr_history_ r /\ same_numbers p p' /\
    (sr_disable_positive_acks_ r' = sr_disable_positive_acks_ r /\ sr_notified r' = sr_notified r) /\ last_heartbeat_count_ p' = last_heartbeat_count_ p /\
    ((sr_sent r' = sr_sent r /\ acknack_count_ r' = acknack_count_ r) \/
     (sr_sent r' = sr_sent r ++ [ACKNACK g (range_new (mkSN 0 0)) (u32 (acknack_count_ r + 1)) false] /\ acknack_count_ r' = u32 (acknack_count_ r + 1))).
Proof.
  intros [Ha Hp W Hln Hun] Hd Hsp Hs. pose proof (find_writer_alive _ _ _ Hp) as Hal. unfold answer_initial_acknack. rewrite Hp.
  unfold perform_initial_ack_nack, event_begin. rewrite Hs. unfold initial_ack_nack_body. simpl is_datasharing_writer_. simpl is_on_same_process_.
  rewrite Hd, Hsp. cbn [last_heartbeat_count_ set_state_code].
  assert (Hsend : forall p1, proxy_kept p p1 -> same_numbers p p1 ->
    let r' := send_acknack_set (put_writer r g p1) g p1 (range_new (mkSN 0 0)) false in
    reader_ok r' g p1 /\ sr_history_ r' = sr_history_ r /\ (sr_disable_positive_acks_ r' = sr_disable_positive_acks_ r /\ sr_notified r' = sr_notified r) /\
    sr_sent r' = sr_sent r ++ [ACKNACK g (range_new (mkSN 0 0)) (u32 (acknack_count_ r + 1)) false] /\ acknack_count_ r' = u32 (acknack_count_ r + 1)).
  { intros p1 (A1 & A2 & _) Hn. pose proof Hn as (_ & N2 & _ & N4). unfold send_acknack_set. rewrite A1, A2, Hal, Hsp. simpl. split; [|done].
    split; [done|unfold acceptMsgFrom; simpl; eapply find_set_writer; [exact Hp|by rewrite A1]|by apply (same_numbers_inv p)|by rewrite N4, N2|by rewrite N2]. }
  assert (forall st hr ia, st = IDLE -> proxy_kept p (set_state_code (set_timers p hr ia) st)) as Hkept by (intros st hr ia ->; by repeat split).
  destruct (last_heartbeat_count_ p =? 0); [destruct (_ <? _)|]; cbn [snd].
  - set (p1 := event_end _). exists p1. destruct (Hsend p1) as (S1 & S2 & S3 & S4 & S5); [by apply Hkept|done|]. split; [done|]. split; [by apply Hkept|].
    split; [done|]. split; [done|]. split; [done|]. split; [done|]. by right.
  - set (p1 := event_end _). assert (proxy_kept p p1) as Hk1 by (by repeat split). exists p1. destruct (Hsend p1) as (S1 & S2 & S3 & S4 & S5); [done|done|].
    split; [done|]. split; [done|]. split; [done|]. split; [done|]. split; [done|]. split; [done|]. by right.
  - set (p1 := event_end _). assert (proxy_kept p p1) as Hk1 by (by repeat split). exists p1.
    split; [split; [done|unfold acceptMsgFrom; simpl; by eapply find_set_writer|by apply (same_numbers_inv p)|done|done]|].
    split; [done|]. split; [done|]. split; [done|]. split; [done|]. split; [done|by left].
Qed.

End Acknack.
