(* ===== verification/StatefulWriterLaws.v ===== *)
(** * What the stateful writer does for one reader

    The invariant of a writer with one matched reader, remote and reliable, and the
    handlers of [StatefulWriter.cpp] on it: each returns, keeps the invariant and
    sends messages that are sound.

    The invariant speaks of a set [exc] of the numbers that need not be sent any
    more.  It says that every number written so far that is not pending for the
    reader is one of them, and that no message declares any other. *)

From Stdlib Require Import Sorted.
From S2P Require Import Prelude SequenceNumber BitmapRange RangeSpec TimedEvent WriterProxyInv ParameterList GapBuilder.
From S2P Require Import WriterHistory ChangeForReader ReaderProxy ReaderProxyInv ReaderProxyLaws StatefulWriter Delivery.

Implicit Types (w : StatefulWriter) (rp : ReaderProxy) (s : SequenceNumber_t) (o : OutChange) (h : WriterHistory).

(** A change that is sent in one message. *)
Definition whole_out o : Prop := out_fragment_size o = 0 /\ out_fragment_count o = 0.

Notation last_of w := (sn_val (m_lastCacheChangeSeqNum (history_ w))).
Notation pending rp n := (status_of (changes_for_reader_ rp) n).

(** A message that declares nothing but numbers of [exc], none beyond [last]. *)
Definition msg_ok (exc : Z -> Prop) (last : Z) (m : Submessage) : Prop :=
  match m with
  | DATA o _ _ => usable (out_seq o) /\ 1 <= sn_val (out_seq o) <= last
  | DATA_FRAG _ _ _ _ => False
  | GAP s l _ => gap_ok (s, l) /\ forall n, declares (s, l) n -> n <= last /\ exc n
  | HEARTBEAT f l _ _ _ => usable f /\ usable l /\ sn_val f <= last + 1 /\ sn_val l <= last /\ forall n, n < sn_val f -> exc n
  end.

Record writer_ok (exc : Z -> Prop) w rp : Prop := mkWriterOk {
  wo_readers : matched_remote_readers_ w = [rp];
  wo_history : history_ok (history_ w);
  wo_whole : Forall whole_out (m_changes (history_ w));
  wo_bound : last_of w + 260 < 2 ^ 63;
  wo_rp : rp_ok (history_ w) rp;
  wo_kind : is_remote_and_reliable rp = true;
  wo_timers : timers_enabled_ rp = true;
  wo_noack : forall n, pending rp n <> Some ACKNOWLEDGED;
  wo_settled : forall n, n <= last_of w -> pending rp n = None -> exc n;
  wo_msgs : Forall (msg_ok exc (last_of w)) (sent_ w)
}.

Section Writer.
Context (exc : Z -> Prop).

(** The reader and its QoS, and the writer's GUID, stay. *)
Definition steady w rp w' rp' : Prop := m_guid w' = m_guid w /\ kept rp rp'.

Lemma steady_refl w rp : steady w rp w rp.
Proof. done. Qed.
Lemma steady_trans w1 rp1 w2 rp2 w3 rp3 : steady w1 rp1 w2 rp2 -> steady w2 rp2 w3 rp3 -> steady w1 rp1 w3 rp3.
Proof. intros [E1 K1] [E2 K2]. split; [congruence|]. by eapply kept_trans. Qed.

(** Only the logs have grown. *)
Definition logged w w' (ms : list Submessage) : Prop :=
  exists count os told, w' = set_logs w count (sent_ w ++ ms) os told.

Lemma writer_ok_logged w w' rp ms : writer_ok exc w rp -> logged w w' ms -> Forall (msg_ok exc (last_of w)) ms -> writer_ok exc w' rp.
Proof.
  intros [H1 H2 H3 H4 H5 H6 H7 H8 H9 H10] (count & os & told & ->) Hms. split; simpl; try done. apply Forall_app. by split.
Qed.

Lemma logged_trans w1 w2 w3 a b : logged w1 w2 a -> logged w2 w3 b -> logged w1 w3 (a ++ b).
Proof. intros (c1 & o1 & t1 & ->) (c2 & o2 & t2 & ->). exists c2, o2, t2. simpl. by rewrite app_assoc. Qed.

Lemma logged_nil w : logged w w [].
Proof. exists (heartbeat_count_ w), (scheduled_ w), (told_ w). rewrite app_nil_r. by destruct w. Qed.

(** A writer of which neither the history, the reader nor the messages are others. *)
Lemma writer_ok_same w w' rp : writer_ok exc w rp -> matched_remote_readers_ w' = matched_remote_readers_ w -> history_ w' = history_ w ->
  sent_ w' = sent_ w -> writer_ok exc w' rp.
Proof. intros [H1 H2 H3 H4 H5 H6 H7 H8 H9 H10] E1 E2 E3. split; rewrite ?E1, ?E2, ?E3; done. Qed.

Lemma pending_in h rp n : rp_ok h rp -> pending rp n <> None -> in_history h n /\ sn_val (changes_low_mark_ rp) < n.
Proof.
  intros [_ [_ Ha _] Hi _] Hn. destruct (status_of (changes_for_reader_ rp) n) as [st|] eqn:E; [|done].
  apply status_of_Some in E as (c & Hc & <- & _). rewrite list.Forall_forall in Ha, Hi. split; [by apply Hi|by apply Ha].
Qed.

Lemma gone_exc w rp n : writer_ok exc w rp -> n <= last_of w -> ~ in_history (history_ w) n -> exc n.
Proof.
  intros W Hn Hi. apply (wo_settled _ _ _ W); [done|]. destruct (pending rp n) as [st|] eqn:E; [|done]. destruct Hi.
  apply (pending_in _ rp); [apply W|by rewrite E].
Qed.

Lemma history_bounds h n : history_ok h -> in_history h n -> 0 < n <= sn_val (m_lastCacheChangeSeqNum h).
Proof.
  intros [_ _ _ Hb] (o & -> & Ho)%list_elem_of_fmap. rewrite list.Forall_forall in Hb. simpl. by apply Hb.
Qed.

Lemma next_number h : history_ok h -> sn_valid (next_sequence_number h) /\ sn_val (next_sequence_number h) = sn_val (m_lastCacheChangeSeqNum h) + 1.
Proof. intros Hh. unfold next_sequence_number. apply usable_next, Hh. Qed.

(** ** Heartbeats *)

Lemma heartbeat_sent w rp k final liveliness : writer_ok exc w rp -> 0 <= k ->
  exists w' ms, send_heartbeat_nts_ w k final liveliness = Some w' /\ logged w w' ms /\ Forall (msg_ok exc (last_of w)) ms /\
    scheduled_ w' = scheduled_ w /\ told_ w' = told_ w.
Proof.
  intros W Hk. unfold send_heartbeat_nts_. destruct (k =? 0).
  { exists w, []. split; [done|]. split; [apply logged_nil|]. by repeat split. }
  pose proof (wo_history _ _ _ W) as Hh. pose proof (wo_bound _ _ _ W) as Hbd. pose proof (usable_range _ (ho_last _ Hh)) as Hr.
  pose proof (seq_num_min_spec _ Hh) as HM. pose proof (seq_num_max_spec _ Hh) as HX. unfold get_min_change, get_max_change in *.
  destruct (m_changes (history_ w)) as [|o l] eqn:El; simpl in HM.
  - destruct HM as [-> Hno]. simpl in HX. destruct HX as [-> _]. rewrite sn_eqb_val by done. rewrite Z.eqb_refl. cbn [orb andb assert].
    destruct ((k =? 1) || liveliness).
    2:{ exists w, []. split; [done|]. split; [apply logged_nil|]. by repeat split. }
    destruct (next_number _ Hh) as [Hv Ev].
    destruct (sub_one (next_sequence_number (history_ w)) Hv) as [Hu1 E1]; [lia|lia|].
    eexists _, [_]. split; [done|]. split; [by eexists _, _, _|]. split; [|done]. constructor; [|constructor]. simpl.
    split; [split; [done|lia]|]. split; [done|]. split; [lia|]. split; [lia|]. intros n Hn. apply (gone_exc w rp); [done|lia|]. apply Hno.
  - destruct (list.last (o :: l)) as [o'|] eqn:Ela; [|by apply last_None in Ela].
    destruct HM as (-> & Hu & Hi & Hmin), HX as (-> & Hu' & Hi' & Hmax).
    destruct (sn_unknown_val (out_seq o) ltac:(auto)) as [Eu _]. destruct (sn_unknown_val (out_seq o') ltac:(auto)) as [Eu' _].
    rewrite sn_eqb_val in Eu, Eu' by (done || auto). rewrite !sn_eqb_val by (done || auto). rewrite !(Z.eqb_sym _ (sn_val sn_unknown)), Eu, Eu'. cbn [orb].
    rewrite sn_leb_val by auto. rewrite (proj2 (Z.leb_le _ _)) by (apply Hmin, Hi'). cbn [assert].
    eexists _, [_]. split; [done|]. split; [by eexists _, _, _|]. split; [|done]. constructor; [|constructor]. simpl.
    pose proof (history_bounds _ _ Hh Hi). pose proof (history_bounds _ _ Hh Hi').
    split; [done|]. split; [done|]. split; [lia|]. split; [lia|]. intros n Hn. apply (gone_exc w rp); [done|lia|]. intros Hx%Hmin. lia.
Qed.

(** The ends of the history are both known or both not, and in order. *)
Lemma ends_of_history h : history_ok h ->
  (get_seq_num_min h = sn_unknown /\ get_seq_num_max h = sn_unknown /\ forall n, ~ in_history h n) \/
  (usable (get_seq_num_min h) /\ usable (get_seq_num_max h) /\ sn_eqb (get_seq_num_min h) sn_unknown = false /\
   sn_eqb (get_seq_num_max h) sn_unknown = false /\ in_history h (sn_val (get_seq_num_min h)) /\ in_history h (sn_val (get_seq_num_max h)) /\
   sn_leb (get_seq_num_min h) (get_seq_num_max h) = true /\ (forall n, in_history h n -> sn_val (get_seq_num_min h) <= n <= sn_val (get_seq_num_max h))).
Proof.
  intros Hh. pose proof (seq_num_min_spec _ Hh) as HM. pose proof (seq_num_max_spec _ Hh) as HX. unfold get_min_change, get_max_change in *.
  destruct (m_changes h) as [|o l] eqn:El; simpl in HM.
  - left. destruct HM as [-> Hno]. simpl in HX. destruct HX as [-> _]. done.
  - right. destruct (list.last (o :: l)) as [o'|] eqn:Ela; [|by apply last_None in Ela].
    destruct HM as (-> & Hu & Hi & Hmin), HX as (-> & Hu' & Hi' & Hmax).
    destruct (sn_unknown_val (out_seq o) ltac:(auto)) as [Eu _]. destruct (sn_unknown_val (out_seq o') ltac:(auto)) as [Eu' _].
    rewrite sn_eqb_val in Eu, Eu' by (done || auto). rewrite !sn_eqb_val by (done || auto). rewrite !(Z.eqb_sym _ (sn_val sn_unknown)), Eu, Eu'.
    rewrite sn_leb_val by auto. rewrite (proj2 (Z.leb_le _ _)) by (apply Hmin, Hi'). do 7 (split; [done|]). split; auto.
Qed.

Lemma sn_eqb_sym (a b : SequenceNumber_t) : sn_eqb a b = sn_eqb b a.
Proof. unfold sn_eqb. by rewrite (Z.eqb_sym (low a)), (Z.eqb_sym (high a)). Qed.

(** ** Gaps for the holes of the history *)

Lemma hole_until_spec fuel : forall (prev stop : SequenceNumber_t), sn_valid prev -> usable stop -> sn_val prev <= sn_val stop ->
  sn_val stop - sn_val prev <= Z.of_nat fuel ->
  exists xs, hole_until fuel prev stop = Some xs /\ Forall sn_valid xs /\ sn_val <$> xs = seqZ (sn_val prev) (sn_val stop - sn_val prev).
Proof.
  induction fuel as [|fuel IH]; intros prev stop Hv Hu Hle Hf; cbn [hole_until]; rewrite sn_eqb_val by (auto; apply Hv); pose proof (usable_range _ Hu).
  - rewrite (proj2 (Z.eqb_eq _ _)) by lia. exists []. split; [done|]. split; [constructor|]. by rewrite seqZ_nil by lia.
  - destruct (Z.eqb_spec (sn_val prev) (sn_val stop)) as [E|Hne].
    + exists []. split; [done|]. split; [constructor|]. by rewrite seqZ_nil by lia.
    + destruct (sn_incr_val prev Hv) as [Hvi Ei]; [lia|]. destruct (IH (sn_incr prev) stop Hvi Hu) as (xs & -> & Hx & Ex); [lia|lia|].
      simpl. exists (prev :: xs). split; [done|]. split; [by constructor|]. rewrite fmap_cons, Ex, Ei, (seqZ_cons (sn_val prev)) by lia.
      f_equal. f_equal; lia.
Qed.

Lemma holes_spec l : forall (prev : SequenceNumber_t), sn_valid prev -> 0 < sn_val prev -> StronglySorted Z.lt (seqs l) -> Forall (fun o => usable (out_seq o)) l ->
  Forall (fun o => sn_val prev <= sn_val (out_seq o)) l ->
  exists xs, holes prev l = Some xs /\ Forall sendable xs /\ StronglySorted (fun x y => sn_val x < sn_val y) xs /\
    forall n, n ∈ sn_val <$> xs <-> sn_val prev <= n /\ n ∉ seqs l /\ exists o, o ∈ l /\ n < sn_val (out_seq o).
Proof.
  induction l as [|o l IH]; intros prev Hv Hp Hs Hu Hle; cbn [holes].
  { exists []. split; [done|]. split; [constructor|]. split; [constructor|]. intros n. rewrite elem_of_nil. split; [done|]. by intros (_ & _ & o & Ho%elem_of_nil & _). }
  apply list.Forall_cons in Hu as [Huo Hu]. apply list.Forall_cons in Hle as [Hlo Hle]. pose proof (usable_range _ Huo).
  pose proof (sorted_head (sn_val (out_seq o)) (seqs l)) as Hhd. rewrite fmap_cons in Hs. simpl in Hs.
  specialize (fun n => Hhd n Hs). apply StronglySorted_inv in Hs as [Hs _].
  destruct (hole_until_spec (Z.to_nat (sn_val (out_seq o) - sn_val prev)) prev (out_seq o)) as (a & -> & Ha & Ea); [done|done|done|lia|].
  cbn [mbind option_bind]. destruct (sn_incr_val (out_seq o)) as [Hvi Ei]; [auto|lia|].
  destruct (IH (sn_incr (out_seq o)) Hvi) as (b & -> & Hb & Hsb & Hbn); [lia|done|done| |].
  { apply list.Forall_forall. intros o' Ho'%seqs_elem. rewrite Ei. apply Hhd in Ho'. lia. }
  simpl. exists (a ++ b). split; [done|].
  assert (Han : forall x, x ∈ a -> sn_val prev <= sn_val x < sn_val (out_seq o)).
  { intros x Hx%(list_elem_of_fmap_2 sn_val). rewrite Ea in Hx. apply elem_of_seqZ in Hx. lia. }
  split; [|split].
  - apply Forall_app. split; [|done]. apply list.Forall_forall. intros x Hx. rewrite list.Forall_forall in Ha.
    specialize (Han x Hx). split; [by apply Ha|]. lia.
  - assert (Hsa : StronglySorted (fun x y => sn_val x < sn_val y) a).
    { clear -Ea. remember (sn_val prev) as k. remember (sn_val (out_seq o) - k) as m. clear Heqk Heqm. revert k m Ea.
      induction a as [|x a IH]; intros k m Ea; [constructor|]. destruct (Z.le_gt_cases m 0) as [Hm|Hm]; [by rewrite seqZ_nil in Ea by lia|].
      rewrite fmap_cons, seqZ_cons in Ea by lia. injection Ea as Ex Ea. constructor; [by eapply IH|]. apply list.Forall_forall. intros y Hy%(list_elem_of_fmap_2 sn_val).
      rewrite Ea in Hy. apply elem_of_seqZ in Hy. lia. }
    clear -Hsa Hsb Hbn Han Ei. induction a as [|x a IH]; [done|]. apply StronglySorted_inv in Hsa as [Hsa Hx]. simpl.
    constructor; [apply IH; [intros; apply Han; by right|done]|]. apply Forall_app. split; [done|]. apply list.Forall_forall. intros y Hy%(list_elem_of_fmap_2 sn_val).
    apply Hbn in Hy as [Hy _]. specialize (Han x ltac:(by left)). lia.
  - intros n. rewrite fmap_app, elem_of_app. split.
    2:{ intros (Hn & Hno & o' & Ho' & Hlt). rewrite elem_of_cons in Hno. rewrite Ea, elem_of_seqZ. simpl in Hno.
        destruct (Z.lt_ge_cases n (sn_val (out_seq o))) as [|Hge]; [left; lia|right]. apply Hbn. rewrite Ei. split; [destruct (Z.eq_dec n (sn_val (out_seq o))); [tauto|lia]|]. split; [tauto|].
        exists o'. split; [|done]. apply elem_of_cons in Ho' as [->|?]; [lia|done]. }
    intros [Hn|Hn].
    + rewrite Ea in Hn. apply elem_of_seqZ in Hn. split; [lia|]. split.
      * intros [Hx|Hx]%elem_of_cons; [simpl in Hx; lia|]. apply Hhd in Hx. lia.
      * exists o. split; [left|lia].
    + apply Hbn in Hn as (H1 & H2 & o' & Ho' & H3). split; [lia|]. split.
      * intros [Hx|Hx]%elem_of_cons; [simpl in Hx; lia|done].
      * exists o'. split; [by right|done].
Qed.

Lemma gaps_for_ok reader log : Forall gap_ok log -> forall last, (forall n, Exists (fun gap => declares gap n) log -> n <= last /\ exc n) ->
  Forall (msg_ok exc last) (gaps_for reader log).
Proof.
  intros Hg last Hd. unfold gaps_for. rewrite list.Forall_fmap. apply list.Forall_forall. intros [s l] Hin. simpl.
  rewrite list.Forall_forall in Hg. split; [by apply Hg|]. intros n Hn. apply Hd. rewrite list.Exists_exists. by exists (s, l).
Qed.

(** Numbers that fill an interval. *)
Lemma sorted_bounds (l : list Z) : StronglySorted Z.lt l -> forall a b, Forall (fun x => a <= x <= b) l -> zlen l <= Z.max 0 (b - a + 1).
Proof.
  unfold zlen. induction 1 as [|x l Hs IH Hx]; intros a b Hab; [simpl; lia|]. apply list.Forall_cons in Hab as [Hxb Hab].
  specialize (IH (x + 1) b). simpl length. rewrite Nat2Z.inj_succ. specialize (IH ltac:(rewrite list.Forall_forall in *; intros y Hy; specialize (Hx y Hy); specialize (Hab y Hy); lia)). lia.
Qed.

Lemma sorted_full (l : list Z) : StronglySorted Z.lt l -> forall a b, Forall (fun x => a <= x <= b) l -> zlen l = b - a + 1 -> forall n, a <= n <= b -> n ∈ l.
Proof.
  induction 1 as [|x l Hs IH Hx]; intros a b Hab Hl n Hn; [unfold zlen in Hl; simpl in Hl; lia|]. apply list.Forall_cons in Hab as [Hxb Hab].
  assert (Forall (fun y => x + 1 <= y <= b) l) as Hab' by (rewrite list.Forall_forall in *; intros y Hy; specialize (Hx y Hy); specialize (Hab y Hy); lia).
  pose proof (sorted_bounds l Hs (x + 1) b Hab') as Hle. assert (zlen (x :: l) = zlen l + 1) as E by (unfold zlen; simpl; lia). assert (0 <= zlen l) by (unfold zlen; lia).
  rewrite elem_of_cons. destruct (Z.eq_dec n x) as [|Hne]; [by left|right]. apply (IH (x + 1) b); [done|lia|lia].
Qed.

(** A hole: a number between two changes of the history. *)
Definition hole h (n : Z) : Prop := ~ in_history h n /\ exists a b, in_history h a /\ in_history h b /\ a < n < b.

Lemma no_holes h : history_ok h -> u64 (u64 (to64long (get_seq_num_max h) - to64long (get_seq_num_min h)) + 1) = zlen (m_changes h) -> forall n, ~ hole h n.
Proof.
  intros Hh E n (Hno & a & b & Ha & Hb & Hn). pose proof (seq_num_min_spec _ Hh) as HM. pose proof (seq_num_max_spec _ Hh) as HX.
  destruct (get_min_change h) as [o|]; [|destruct HM as [_ Hx]; by destruct (Hx a)]. destruct (get_max_change h) as [o'|]; [|destruct HX as [_ Hx]; by destruct (Hx a)].
  destruct HM as (Em & Hu & Hi & Hmin), HX as (Ex & Hu' & Hi' & Hmax). pose proof (usable_range _ Hu). pose proof (usable_range _ Hu'). pose proof (Hmin _ Hi').
  rewrite Em, Ex, !to64long_val in E by auto. unfold u64 in E. rewrite (Z.mod_small (_ - _)), Z.mod_small in E by lia. apply Hno. unfold in_history.
  apply (sorted_full _ (ho_sorted _ Hh) (sn_val (out_seq o)) (sn_val (out_seq o'))).
  - apply list.Forall_forall. intros x Hx. split; [by apply Hmin|by apply Hmax].
  - unfold zlen in *. rewrite length_fmap. lia.
  - specialize (Hmin a Ha). specialize (Hmax b Hb). lia.
Qed.

Lemma gaps_sent w rp reader : writer_ok exc w rp ->
  exists w' ms, add_gaps_for_holes_in_history w reader = Some w' /\ logged w w' ms /\ Forall (msg_ok exc (last_of w)) ms /\
    scheduled_ w' = scheduled_ w /\ told_ w' = told_ w /\
    forall n, hole (history_ w) n -> exists s l, GAP s l reader ∈ ms /\ declares (s, l) n.
Proof.
  intros W. pose proof (wo_history _ _ _ W) as Hh. unfold add_gaps_for_holes_in_history.
  assert (Hnone : (forall n, ~ hole (history_ w) n) -> exists w' ms, Some w = Some w' /\ logged w w' ms /\ Forall (msg_ok exc (last_of w)) ms /\ scheduled_ w' = scheduled_ w /\ told_ w' = told_ w /\
    forall n, hole (history_ w) n -> exists s l, GAP s l reader ∈ ms /\ declares (s, l) n).
  { intros Hno. exists w, []. split; [done|]. split; [apply logged_nil|]. split; [constructor|]. do 2 (split; [done|]). intros n Hn. by destruct (Hno n). }
  destruct (_ && _) eqn:Eskip.
  2:{ apply Hnone. apply andb_false_iff in Eskip as [Em|E]; [|apply no_holes; [done|]; by apply negb_false_iff, Z.eqb_eq in E].
      apply negb_false_iff in Em. intros n (_ & a & _ & Ha & _). destruct (ends_of_history _ Hh) as [(_ & _ & Hno)|(_ & _ & Hne & _)]; [by destruct (Hno a)|].
      rewrite sn_eqb_sym in Em. congruence. }
  destruct (m_changes (history_ w)) as [|o l] eqn:El; [apply Hnone; intros n (_ & a & _ & Ha & _); unfold in_history in Ha; rewrite El in Ha; by apply elem_of_nil in Ha|].
  pose proof Hh as [Hs Hu _ Hb]. rewrite El in Hs, Hu, Hb. apply list.Forall_cons in Hu as [Huo Hu]. apply list.Forall_cons in Hb as [Hbo Hb].
  assert (Hhd : forall n, n ∈ seqs l -> sn_val (out_seq o) < n) by (intros n Hn; exact (sorted_head _ _ _ Hs Hn)). rewrite fmap_cons in Hs. apply StronglySorted_inv in Hs as [Hs _].
  destruct (usable_next _ Huo) as [Hvn En].
  destruct (holes_spec l (sn_add (out_seq o) 1)) as (xs & -> & Hx & Hsx & Hxn); [done|lia|done|done| |].
  { apply list.Forall_forall. intros o' Ho'%seqs_elem. rewrite En. apply Hhd in Ho'. lia. }
  cbn [mbind option_bind]. destruct (build_gaps_spec xs Hx Hsx) as (log & -> & Hg & Hd). simpl. exists (send w (gaps_for reader log)), (gaps_for reader log).
  split; [done|]. split; [by eexists _, _, _|]. split; [|do 2 (split; [done|])].
  2:{ intros n (Hno & a & b & Ha & Hb' & Hn). unfold in_history in Hno, Ha, Hb'. rewrite El, fmap_cons, elem_of_cons in Hno, Ha, Hb'. simpl in Hno, Ha, Hb'.
      assert (n ∈ vals xs) as Hx'.
      { apply Hxn. rewrite En. split; [destruct Ha as [->|Ha%Hhd]; lia|]. split; [tauto|]. destruct Hb' as [->|Hb']; [destruct Ha as [->|Ha%Hhd]; lia|].
        apply list_elem_of_fmap in Hb' as (o' & -> & Ho'). exists o'. split; [done|]. simpl in Hn. lia. }
      apply Hd in Hx'. rewrite list.Exists_exists in Hx'. destruct Hx' as ([s sl] & Hin & Hdecl). exists s, sl. split; [|done]. apply list_elem_of_fmap. by exists (s, sl). }
  apply gaps_for_ok; [done|]. intros n Hn%Hd%Hxn. destruct Hn as (H1 & H2 & o' & Ho' & H3).
  rewrite list.Forall_forall in Hb. apply Hb in Ho'. split; [lia|]. apply (gone_exc w rp); [done|lia|]. unfold in_history. rewrite El, fmap_cons.
  intros [Hx'|Hx']%elem_of_cons; [simpl in Hx'; lia|done].
Qed.

(** A handler that only sends: the writer afterwards. *)
Definition only_sends w rp w' : Prop :=
  writer_ok exc w' rp /\ m_guid w' = m_guid w /\ history_ w' = history_ w /\ scheduled_ w' = scheduled_ w.

Lemma only_sends_refl w rp : writer_ok exc w rp -> only_sends w rp w.
Proof. done. Qed.

Lemma only_sends_trans w1 w2 w3 rp : only_sends w1 rp w2 -> only_sends w2 rp w3 -> only_sends w1 rp w3.
Proof. intros (_ & E1 & E2 & E3) (W & E4 & E5 & E6). split; [done|]. split; [congruence|]. split; congruence. Qed.

Lemma logged_only_sends w w' rp ms : writer_ok exc w rp -> logged w w' ms -> Forall (msg_ok exc (last_of w)) ms -> scheduled_ w' = scheduled_ w ->
  only_sends w rp w'.
Proof. intros W L Hms Es. split; [by eapply writer_ok_logged|]. destruct L as (c & os & told & ->). done. Qed.

Lemma heartbeat_only_sends w rp k final liveliness : writer_ok exc w rp -> 0 <= k ->
  exists w', send_heartbeat_nts_ w k final liveliness = Some w' /\ only_sends w rp w'.
Proof.
  intros W Hk. destruct (heartbeat_sent w rp k final liveliness W Hk) as (w' & ms & E & L & Hms & Es & _). exists w'. split; [done|].
  by eapply logged_only_sends.
Qed.

Lemma gaps_only_sends w rp reader : writer_ok exc w rp ->
  exists w', add_gaps_for_holes_in_history w reader = Some w' /\ only_sends w rp w'.
Proof.
  intros W. destruct (gaps_sent w rp reader W) as (w' & ms & E & L & Hms & Es & _). exists w'. split; [done|]. by eapply logged_only_sends.
Qed.

Lemma send_heartbeat_to_nts_ok w rp rp0 liveliness force : writer_ok exc w rp ->
  exists w', send_heartbeat_to_nts w rp0 liveliness force = Some w' /\ only_sends w rp w'.
Proof.
  intros W. unfold send_heartbeat_to_nts. destruct (_ && _); [|exists w; split; [done|by apply only_sends_refl]].
  assert (exists w1, (if negb (sn_eqb (get_seq_num_min (history_ w)) sn_unknown) && negb (sn_eqb (get_seq_num_max (history_ w)) sn_unknown)
     then assert (sn_leb (get_seq_num_min (history_ w)) (get_seq_num_max (history_ w)))
            (if negb liveliness then add_gaps_for_holes_in_history w (Some (remote_guid_ rp0)) else Some w)
     else Some w) = Some w1 /\ only_sends w rp w1) as (w1 & -> & S1).
  { destruct (ends_of_history _ (wo_history _ _ _ W)) as [(-> & -> & _)|(_ & _ & -> & -> & _ & _ & -> & _)]; cbn [negb andb assert].
    - rewrite sn_eqb_val, Z.eqb_refl by done. exists w. split; [done|by apply only_sends_refl].
    - destruct liveliness; cbn [negb]; [exists w; split; [done|by apply only_sends_refl]|by apply gaps_only_sends]. }
  cbn [mbind option_bind]. destruct (heartbeat_only_sends w1 rp 1 (writer_disable_positive_acks_ w1) liveliness) as (w2 & E2 & S2); [apply S1|lia|].
  exists w2. split; [done|]. by eapply only_sends_trans.
Qed.

Lemma periodic_heartbeat_ok w rp final liveliness : writer_ok exc w rp ->
  exists b w', send_periodic_heartbeat w final liveliness = Some (b, w') /\ only_sends w rp w'.
Proof.
  intros W. unfold send_periodic_heartbeat, send_heartbeat_to_all_readers. rewrite (wo_readers _ _ _ W).
  assert (Hrefl : exists b w', Some (false, w) = Some (b, w') /\ only_sends w rp w') by (eexists _, w; split; [done|by apply only_sends_refl]).
  destruct liveliness; cbn [negb].
  - destruct (separate_sending_enabled_ w); cbn [send_heartbeat_to_each].
    + destruct (send_heartbeat_to_nts_ok w rp rp true false W) as (w1 & -> & S1). simpl. eexists _, w1. done.
    + destruct (heartbeat_only_sends w rp (zlen [rp]) final true W) as (w1 & -> & S1); [done|]. simpl. eexists _, w1. done.
  - destruct (existsb _ [rp]); [|simpl; eexists _, w; split; [done|by apply only_sends_refl]].
    destruct (separate_sending_enabled_ w); cbn [send_heartbeat_to_each].
    + destruct (send_heartbeat_to_nts_ok w rp rp false false W) as (w1 & -> & S1). simpl. eexists _, w1. done.
    + assert (Bool.eqb (sn_eqb sn_unknown (get_seq_num_min (history_ w))) (sn_eqb sn_unknown (get_seq_num_max (history_ w))) = true) as ->.
      { rewrite !(sn_eqb_sym sn_unknown). by destruct (ends_of_history _ (wo_history _ _ _ W)) as [(-> & -> & _)|(_ & _ & -> & -> & _)]. }
      cbn [assert]. destruct (gaps_only_sends w rp None W) as (w1 & -> & S1). cbn [mbind option_bind].
      destruct (heartbeat_only_sends w1 rp (zlen [rp]) (writer_disable_positive_acks_ w1) false) as (w2 & -> & S2); [apply S1|done|].
      simpl. eexists _, w2. split; [done|]. by eapply only_sends_trans.
Qed.

(** ** Removals *)

Lemma find_change_nts_spec h s : history_ok h -> sn_ok s ->
  match find_change_nts h s with
  | Some o => o ∈ m_changes h /\ out_seq o = s
  | None => ~ in_history h (sn_val s)
  end.
Proof.
  intros Hh Hs. unfold find_change_nts. destruct (List.find _ (m_changes h)) as [o|] eqn:E.
  - apply find_some in E as [Hin E]. apply list_elem_of_In in Hin. split; [done|]. pose proof (ho_usable _ Hh) as Hu. rewrite list.Forall_forall in Hu.
    pose proof (Hu o Hin). rewrite sn_eqb_val in E by auto. apply Z.eqb_eq in E. apply sn_val_inj; auto.
  - intros (o & Eo & Ho)%list_elem_of_fmap. apply list_elem_of_In in Ho as Ho'. pose proof (find_none _ _ E o Ho') as Hn. simpl in Hn, Eo.
    pose proof (ho_usable _ Hh) as Hu. rewrite list.Forall_forall in Hu. pose proof (Hu o Ho). rewrite sn_eqb_val in Hn by auto. lia.
Qed.

(** A number of the history that need not be sent any more is removed. *)
Lemma remove_change_ok w rp s : writer_ok exc w rp -> usable s -> in_history (history_ w) (sn_val s) -> exc (sn_val s) ->
  exists w' rp', remove_change w s true = Some (true, w') /\ writer_ok exc w' rp' /\ steady w rp w' rp' /\
    history_ w' = history_remove (history_ w) s /\ last_of w' = last_of w /\ sent_ w' = sent_ w /\
    next_all_acked_notify_sequence_ w' = next_all_acked_notify_sequence_ w /\
    next_expected_acknack_count_ rp' = next_expected_acknack_count_ rp /\
    (forall n, pending rp' n = if n =? sn_val s then None else pending rp n) /\
    (forall n, n <= sn_val (changes_low_mark_ rp') -> n <= sn_val (changes_low_mark_ rp) \/ n = sn_val s).
Proof.
  intros W Hu Hin Hex. pose proof W as [Hrd Hh Hwh Hbd Hrp Hki Hti Hna Hse Hms].
  destruct (history_remove_ok (history_ w) s Hh ltac:(auto)) as (Hh' & Hi' & El). pose proof (history_bounds _ _ Hh Hin) as Hb.
  unfold remove_change. pose proof (find_change_nts_spec (history_ w) s Hh ltac:(auto)) as HF. destruct (find_change_nts (history_ w) s) as [o|]; [|done].
  destruct HF as [Ho Eo]. rewrite Eo. unfold change_removed_by_history. rewrite Hrd. cbn [each_reader].
  assert (is_local_reader_ rp = false) as Hloc by (unfold is_remote_and_reliable in Hki; by destruct (is_local_reader_ rp)).
  destruct (change_has_been_removed_spec (history_ w) (history_remove (history_ w) s) rp s) as (rp' & -> & Hok' & Hsame & Hlo & Hack & Hst);
    [done|done|done|done|done|lia|done|].
  cbn [mbind option_bind]. assert (Hpe : forall n, pending rp' n = if n =? sn_val s then None else pending rp n).
  { intros n. destruct (Z.lt_ge_cases (sn_val (changes_low_mark_ rp')) n) as [Hlt|Hge]; [by apply Hst|].
    destruct Hok' as [_ [_ Ha' _] _ _]. rewrite (status_of_above _ (changes_low_mark_ rp')) by done.
    destruct (Z.eqb_spec n (sn_val s)) as [|Hne]; [done|]. destruct (Z.lt_ge_cases (sn_val (changes_low_mark_ rp)) n) as [Hlt|Hge'].
    - destruct (Hack n) as [|Ha]; [lia|done|]. by destruct (Hna n).
    - destruct Hrp as [_ [_ Ha _] _ _]. by rewrite (status_of_above _ (changes_low_mark_ rp)). }
  destruct (same_reader_kept _ _ Hsame) as (Hk & Hcount & _). pose proof Hk as (_ & K1 & K2 & _ & K3 & K4).
  assert (forall n, n <= sn_val (changes_low_mark_ rp') -> n <= sn_val (changes_low_mark_ rp) \/ n = sn_val s) as Hmark.
  { intros n Hn. destruct (Z.le_gt_cases n (sn_val (changes_low_mark_ rp))) as [|Hgt]; [by left|right]. destruct (Hack n) as [|Ha]; [lia|done|]. by destruct (Hna n). }
  eexists _, rp'. split; [done|]. split; [|split; [done|]; do 6 (split; [done|]); done]. split; simpl; try done.
  - eapply sublist_all; [apply erase_change_sub|done].
  - unfold is_remote_and_reliable in *. by rewrite K1, K2, K3.
  - by rewrite K4.
  - intros n. rewrite Hpe. by destruct (n =? sn_val s).
  - intros n Hn. rewrite Hpe. destruct (Z.eqb_spec n (sn_val s)) as [->|]; [done|]. by apply Hse.
Qed.

(** ** What all the readers have *)

(** A handler that may remove changes which are not pending. *)
Definition prunes w rp w' rp' : Prop :=
  writer_ok exc w' rp' /\ steady w rp w' rp' /\ last_of w' = last_of w /\ sent_ w' = sent_ w /\
  next_expected_acknack_count_ rp' = next_expected_acknack_count_ rp /\ (forall n, pending rp' n = pending rp n) /\
  (forall n, in_history (history_ w') n -> in_history (history_ w) n) /\
  (forall n, in_history (history_ w) n -> pending rp n <> None -> in_history (history_ w') n) /\
  (forall n, in_history (history_ w') n -> n <= sn_val (changes_low_mark_ rp') -> n <= sn_val (changes_low_mark_ rp)).

Lemma prunes_refl w rp : writer_ok exc w rp -> prunes w rp w rp.
Proof. intros W. by do 8 (split; [done|]). Qed.

Lemma prunes_trans w1 rp1 w2 rp2 w3 rp3 : prunes w1 rp1 w2 rp2 -> prunes w2 rp2 w3 rp3 -> prunes w1 rp1 w3 rp3.
Proof.
  intros (A1 & A2 & A3 & A4 & A5 & A6 & A7 & A8 & A9) (B1 & B2 & B3 & B4 & B5 & B6 & B7 & B8 & B9).
  split; [done|]. split; [by eapply steady_trans|]. split; [congruence|]. split; [congruence|]. split; [congruence|].
  split; [intros n; by rewrite B6, A6|]. split; [auto|].
  split; [|auto]. intros n Hn Hp. apply B8; [by apply A8|by rewrite A6].
Qed.

Lemma prunes_same w rp w' : writer_ok exc w rp -> m_guid w' = m_guid w -> matched_remote_readers_ w' = matched_remote_readers_ w ->
  history_ w' = history_ w -> sent_ w' = sent_ w -> prunes w rp w' rp.
Proof.
  intros W E0 E1 E2 E3. split; [by apply (writer_ok_same w)|]. split; [by split|]. rewrite E2. by do 6 (split; [done|]).
Qed.

Lemma received_by_all_ok listener w rp o : writer_ok exc w rp -> usable (out_seq o) -> in_history (history_ w) (sn_val (out_seq o)) ->
  pending rp (sn_val (out_seq o)) = None ->
  exists w' rp', on_writer_change_received_by_all listener w o = Some w' /\ prunes w rp w' rp' /\
    (forall n, n <> sn_val (out_seq o) -> in_history (history_ w') n <-> in_history (history_ w) n) /\
    next_all_acked_notify_sequence_ w' = next_all_acked_notify_sequence_ w.
Proof.
  intros W Hu Hin Hp. unfold on_writer_change_received_by_all. destruct listener as [removes|].
  2:{ exists w, rp. split; [done|]. split; [by apply prunes_refl|done]. }
  set (w1 := set_logs w _ _ _ _). assert (prunes w rp w1 rp) as P1 by (by apply prunes_same). destruct (removes o).
  2:{ exists w1, rp. by split. }
  pose proof (history_bounds _ _ (wo_history _ _ _ W) Hin).
  destruct (remove_change_ok w1 rp (out_seq o)) as (w2 & rp2 & -> & W2 & S2 & Eh & El & Es & En & Ec & Hpe & Hmk); [apply P1|done|done| |].
  { apply (wo_settled _ _ _ W); [lia|done]. }
  destruct (history_remove_ok (history_ w) (out_seq o) (wo_history _ _ _ W) ltac:(auto)) as (_ & Hi & _).
  simpl. exists w2, rp2. split; [done|]. split; [|split; [intros n Hn; rewrite Eh; simpl; rewrite Hi; tauto|done]].
  apply (prunes_trans w rp w1 rp); [done|]. split; [done|]. split; [done|]. do 3 (split; [done|]). split; [|split; [|split]].
  - intros n. rewrite Hpe. destruct (Z.eqb_spec n (sn_val (out_seq o))) as [->|]; done.
  - intros n. rewrite Eh. by intros [? _]%Hi.
  - intros n Hn Hpn. rewrite Eh. apply Hi. split; [done|]. by intros ->.
  - intros n. rewrite Eh. intros [_ Hne]%Hi Hle. by destruct (Hmk n Hle).
Qed.

Lemma notify_backwards_ok listener end_seq cs : forall w rp, writer_ok exc w rp -> NoDup (sn_val ∘ out_seq <$> cs) ->
  Forall (fun o => usable (out_seq o) /\ in_history (history_ w) (sn_val (out_seq o)) /\ pending rp (sn_val (out_seq o)) = None) cs ->
  exists w' rp', notify_backwards listener w cs end_seq = Some w' /\ prunes w rp w' rp'.
Proof.
  induction cs as [|o cs IH]; intros w rp W Hnd Hcs; cbn [notify_backwards]; [exists w, rp; split; [done|by apply prunes_refl]|].
  destruct (sn_ltb _ _); [exists w, rp; split; [done|by apply prunes_refl]|].
  apply list.Forall_cons in Hcs as [(Hu & Hin & Hp) Hcs]. rewrite fmap_cons in Hnd. apply list.NoDup_cons in Hnd as [Hno Hnd].
  destruct (received_by_all_ok listener w rp o W Hu Hin Hp) as (w1 & rp1 & -> & P1 & Hi & _). cbn [mbind option_bind].
  destruct (sn_gtb _ _); [|exists w1, rp1; done].
  destruct (IH w1 rp1) as (w2 & rp2 & E2 & P2); [apply P1|done| |exists w2, rp2; split; [done|by eapply prunes_trans]].
  rewrite list.Forall_forall in Hcs |- *. intros o' Ho'. destruct (Hcs o' Ho') as (H1 & H2 & H3). split; [done|]. split.
  - apply Hi; [|done]. intros E. apply Hno. simpl. rewrite <- E. by apply (list_elem_of_fmap_2 (sn_val ∘ out_seq)).
  - destruct P1 as (_ & _ & _ & _ & _ & E & _). by rewrite E.
Qed.

Lemma sorted_NoDup (l : list Z) : StronglySorted Z.lt l -> NoDup l.
Proof.
  induction l as [|x l IH]; intros Hs; [constructor|]. constructor; [|apply IH; by apply StronglySorted_inv in Hs as [? _]].
  intros Hx. pose proof (sorted_head _ _ _ Hs Hx). lia.
Qed.

Lemma rev_up_to_ok w rp s : writer_ok exc w rp -> s = changes_low_mark_ rp ->
  NoDup (sn_val ∘ out_seq <$> rev (up_to s (m_changes (history_ w)))) /\
  Forall (fun o => usable (out_seq o) /\ in_history (history_ w) (sn_val (out_seq o)) /\ pending rp (sn_val (out_seq o)) = None)
    (rev (up_to s (m_changes (history_ w)))).
Proof.
  intros W ->. pose proof (wo_history _ _ _ W) as Hh. pose proof (wo_rp _ _ _ W) as [Hlow [_ Ha _] _ _]. split.
  - change (NoDup (map (sn_val ∘ out_seq) (rev (up_to (changes_low_mark_ rp) (m_changes (history_ w)))))). rewrite map_rev.
    apply NoDup_ListNoDup, NoDup_rev, NoDup_ListNoDup, sorted_NoDup.
    eapply sublist_sorted; [apply fmap_sublist, sublist_filter|apply Hh].
  - apply Forall_rev. apply list.Forall_forall. intros o [Hle Ho]%list_elem_of_filter. pose proof (ho_usable _ Hh) as Hu. rewrite list.Forall_forall in Hu.
    pose proof (Hu o Ho) as Huo. split; [done|]. split; [by apply seqs_elem|]. apply (status_of_above _ (changes_low_mark_ rp)); [done|].
    apply Is_true_true in Hle. rewrite sn_leb_val in Hle by auto. lia.
Qed.

Lemma check_acked_status_ok listener w rp : writer_ok exc w rp ->
  exists w' rp', check_acked_status listener w = Some w' /\ prunes w rp w' rp'.
Proof.
  intros W. unfold check_acked_status. rewrite (wo_readers _ _ _ W). cbn [min_low_mark_of]. rewrite orb_true_r.
  set (low := changes_low_mark_ rp).
  assert (exists w1 rp1, notify_acked listener w low = Some w1 /\ prunes w rp w1 rp1) as (w1 & rp1 & -> & P1).
  { unfold notify_acked. destruct (negb _); [|exists w, rp; split; [done|by apply prunes_refl]].
    assert (forall w0 rp0 a b c d, prunes w rp w0 rp0 -> prunes w rp (set_acked w0 a b c d) rp0) as Hset.
    { intros w0 rp0 a b c d P0. apply (prunes_trans w rp w0 rp0); [done|]. by apply prunes_same; [apply P0|..]. }
    destruct (sn_leb _ _); cbn [mbind option_bind]; [|eexists _, rp; split; [done|]; by apply Hset, prunes_refl].
    destruct (_ && _); cbn [mbind option_bind]; [|eexists _, rp; split; [done|]; by apply Hset, Hset, prunes_refl].
    destruct (rev_up_to_ok w rp low W eq_refl) as [Hnd Hf].
    match goal with |- context [notify_backwards listener w ?cs ?e] => destruct (notify_backwards_ok listener e cs w rp W Hnd Hf) as (w0 & rp0 & -> & P0) end.
    cbn [mbind option_bind]. eexists _, rp0. split; [done|]. by apply Hset, Hset. }
  cbn [mbind option_bind]. destruct (all_without_changes [rp]); [|exists w1, rp1; done]. eexists _, rp1. split; [done|].
  apply (prunes_trans w rp w1 rp1); [done|]. by apply prunes_same; [apply P1|..].
Qed.

(** ** New changes *)

Lemma whole_out_ok o : whole_out o -> out_ok o.
Proof. intros [E _]. by left. Qed.

Lemma writer_ok_history_grown (exc' : Z -> Prop) w rp : writer_ok exc w rp -> (forall n, n <= last_of w -> exc n -> exc' n) -> writer_ok exc' w rp.
Proof.
  intros [H1 H2 H3 H4 H5 H6 H7 H8 H9 H10] Hmono. split; try done; [intros n Hn Hp; apply Hmono; [done|by apply H9]|].
  pose proof (usable_range _ (ho_last _ H2)). eapply list.Forall_impl; [exact H10|]. intros [o i r|o f i r|s l r|f l c fi li]; simpl; [done|done| |].
  - intros [Hg Hd]. split; [done|]. intros n [Hn He]%Hd. split; [done|by apply Hmono].
  - intros (A & B & C & D & E). do 4 (split; [done|]). intros n Hn. apply Hmono; [lia|by apply E].
Qed.

(** The messages of before do not reach the new number. *)
Lemma msg_ok_later last last' m : msg_ok exc last m -> last <= last' -> msg_ok exc last' m.
Proof.
  destruct m as [o i r|o f i r|s l r|f l c fi li]; simpl; [|done| |].
  - intros (A & B & C) Hl. split; [done|]. lia.
  - intros [Hg Hd] Hl. split; [done|]. intros n [Hn He]%Hd. split; [lia|done].
  - intros (A & B & C & D & E) Hl. do 2 (split; [done|]). split; [lia|]. split; [lia|done].
Qed.

(** A change is written: it is pending for the reader when it is relevant. *)
Lemma writer_add_change_ok listener w rp allowed ch relevant o h' :
  writer_ok exc w rp -> prepare_and_add_change (history_ w) allowed ch = (Some o, h') -> whole_out o -> last_of w + 261 < 2 ^ 63 ->
  (relevant rp = false -> exc (sn_val (out_seq o))) ->
  exists w' rp', writer_add_change listener w allowed ch relevant = Some (true, w') /\ writer_ok exc w' rp' /\ steady w rp w' rp' /\
    history_ w' = h' /\ last_of w' = last_of w + 1 /\ sn_val (out_seq o) = last_of w + 1 /\ sent_ w' = sent_ w /\
    (forall n, in_history h' n <-> in_history (history_ w) n \/ n = last_of w + 1) /\
    (forall n, pending rp' n <> None <-> pending rp n <> None \/ (relevant rp = true /\ n = last_of w + 1)) /\
    changes_low_mark_ rp' = changes_low_mark_ rp /\ next_expected_acknack_count_ rp' = next_expected_acknack_count_ rp.
Proof.
  intros W Eadd Hwo Hbig Hirr. pose proof W as [Hrd Hh Hwh Hbd Hrp Hki Hti Hna Hse Hms].
  destruct (prepare_and_add_change_ok (history_ w) allowed ch o h' Hh ltac:(lia) Eadd) as (Hh' & Ec & Es & Ev).
  assert (usable (out_seq o)) as Huo by (rewrite Es; apply Hh').
  assert (Hin : forall n, in_history h' n <-> in_history (history_ w) n \/ n = sn_val (out_seq o)).
  { intros n. unfold in_history. rewrite Ec, fmap_app, elem_of_app. simpl. rewrite list_elem_of_singleton. done. }
  assert (Eo : sn_val (out_seq o) = last_of w + 1) by (by rewrite Es).
  unfold writer_add_change. rewrite Eadd. unfold unsent_change_added_to_history. simpl. rewrite Hrd. cbn [each_reader]. unfold add_for_reader.
  destruct (ChangeForReader_new_ok o Huo (whole_out_ok o Hwo)) as (c & -> & Hc & Esc & Eoc & Est & _). cbn [mbind option_bind push_mode_ set_history].
  assert (is_reliable_ rp = true) as Hrel by (unfold is_remote_and_reliable in Hki; by destruct (is_reliable_ rp); rewrite ?andb_false_r in Hki).
  set (c1 := if push_mode_ w || negb (is_reliable_ rp) then c else with_status c UNACKNOWLEDGED).
  assert (cfr_ok c1 /\ cfr_seq c1 = out_seq o /\ cfr_status c1 <> ACKNOWLEDGED) as (Hc1 & Es1 & Hn1).
  { unfold c1. destruct (_ || _); [by rewrite Est|]. split; [by apply with_status_ok|done]. }
  destruct (add_change_spec (history_ w) h' rp c1 (relevant rp)) as (rp' & -> & Hok' & Hsame & [Hlo Hup]);
    [done|done|done|by rewrite Es1|done|intros n; by rewrite Es1|intros n Hn; by apply history_bounds|done|].
  cbn [mbind option_bind]. destruct (same_reader_kept _ _ Hsame) as (Hk & Hcnt & _). pose proof Hk as (_ & K1 & K2 & _ & K3 & K4). rewrite Es1, Eo in Hup.
  assert (pending rp (last_of w + 1) = None) as Hnew.
  { destruct (pending rp (last_of w + 1)) eqn:E; [|done]. destruct (pending_in (history_ w) rp (last_of w + 1) Hrp) as [Hi _]; [by rewrite E|].
    apply history_bounds in Hi; [lia|done]. }
  assert (writer_ok exc (set_readers (set_history w h') [rp']) rp') as W'.
  { split; simpl; try done.
    - rewrite Ec. apply Forall_app. split; [done|]. by constructor.
    - rewrite Ev. lia.
    - unfold is_remote_and_reliable in *. by rewrite K1, K2, K3.
    - by rewrite K4.
    - intros n. rewrite Hup. destruct (_ && _); [congruence|apply Hna].
    - intros n Hn. rewrite Hup. destruct (Z.eqb_spec n (last_of w + 1)) as [->|Hne].
      + destruct (relevant rp) eqn:Er; [done|]. intros _. rewrite <- Eo. by apply Hirr.
      + rewrite andb_false_r. apply Hse. lia.
    - eapply list.Forall_impl; [exact Hms|]. intros m Hm. eapply msg_ok_later; [exact Hm|]. lia. }
  match goal with |- context [Some (true, if ?b then ?x else ?y)] => set (w1 := if b then x else y) end.
  assert (matched_remote_readers_ w1 = [rp'] /\ history_ w1 = h' /\ sent_ w1 = sent_ w /\ m_guid w1 = m_guid w) as (R1 & R2 & R3 & R4)
    by (unfold w1; match goal with |- context [if ?b then _ else _] => by destruct b end).
  exists w1, rp'. split; [done|]. split; [by eapply writer_ok_same; [exact W'|..]|]. split; [done|]. split; [done|]. rewrite R2.
  split; [lia|]. split; [done|]. split; [done|]. split; [intros n; by rewrite Hin, Eo|]. split; [|done].
  intros n. rewrite Hup. destruct (relevant rp); simpl; [|naive_solver].
  destruct (Z.eqb_spec n (last_of w + 1)) as [->|Hne]; naive_solver.
Qed.

(** ** Answers to the reader *)

(** A handler that writes nothing new. *)
Definition acts w rp w' rp' : Prop :=
  writer_ok exc w' rp' /\ steady w rp w' rp' /\ last_of w' = last_of w /\
  (forall n, in_history (history_ w') n -> in_history (history_ w) n).

Lemma prunes_acts w rp w' rp' : prunes w rp w' rp' -> acts w rp w' rp'.
Proof. intros (A1 & A2 & A3 & A4 & A5 & A6 & A7 & A8 & A9). done. Qed.

Lemma acts_trans w1 rp1 w2 rp2 w3 rp3 : acts w1 rp1 w2 rp2 -> acts w2 rp2 w3 rp3 -> acts w1 rp1 w3 rp3.
Proof.
  intros (_ & A2 & A3 & A4) (B1 & B2 & B3 & B4). split; [done|]. split; [by eapply steady_trans|]. split; [congruence|auto].
Qed.

Lemma only_sends_acts w rp w' : only_sends w rp w' -> acts w rp w' rp.
Proof. intros (A1 & A2 & A3 & A4). split; [done|]. split; [by split|]. by rewrite A3. Qed.

(** The reader's changes get other statuses, or fewer of them are left. *)
Lemma set_reader_ok w rp rp' : writer_ok exc w rp -> rp_ok (history_ w) rp' -> kept rp rp' ->
  (forall n, pending rp' n <> Some ACKNOWLEDGED) -> (forall n, n <= last_of w -> pending rp' n = None -> exc n) ->
  acts w rp (set_readers w [rp']) rp'.
Proof.
  intros [H1 H2 H3 H4 H5 H6 H7 H8 H9 H10] Hok Hk Hna Hse. pose proof Hk as (_ & K1 & K2 & _ & K3 & K4).
  split; [|done]. split; simpl; try done; [|by rewrite K4]. unfold is_remote_and_reliable in *. by rewrite K1, K2, K3.
Qed.

Lemma converted_ok w rp previous next : writer_ok exc w rp -> status_num next < status_num previous -> next <> ACKNOWLEDGED ->
  exists cs rp', convert_status_on_all_changes rp previous next = Some (cs, rp') /\ acts w rp (set_readers w [rp']) rp' /\ same_reader rp rp' /\
    changes_low_mark_ rp' = changes_low_mark_ rp /\
    (forall n, pending rp' n = match pending rp n with Some st => Some (if bool_decide (st = previous) then next else st) | None => None end) /\
    (forall c, c ∈ cs <-> c ∈ changes_for_reader_ rp /\ cfr_status c = previous).
Proof.
  intros W Hlt Hna. destruct (convert_status_spec _ rp previous next (wo_rp _ _ _ W) Hlt) as (cs & rp' & E & Hok & Hsame & [Hlo Hup] & Hcs).
  exists cs, rp'. split; [done|]. destruct (same_reader_kept _ _ Hsame) as (Hk & _). split; [|done]. apply set_reader_ok; [done|done|done| |].
  - intros n. rewrite Hup. pose proof (wo_noack _ _ _ W n). destruct (pending rp n); [|done]. case_bool_decide; congruence.
  - intros n Hn. rewrite Hup. intros Hx. apply (wo_settled _ _ _ W); [done|]. by destruct (pending rp n).
Qed.

Lemma acts_same w rp w1 rp1 w2 : acts w rp w1 rp1 -> m_guid w2 = m_guid w1 -> matched_remote_readers_ w2 = matched_remote_readers_ w1 ->
  history_ w2 = history_ w1 -> sent_ w2 = sent_ w1 -> acts w rp w2 rp1.
Proof.
  intros (A1 & A2 & A3 & A4) E0 E1 E2 E3. apply (acts_trans w rp w1 rp1); [done|]. apply prunes_acts. by apply prunes_same.
Qed.

Lemma nack_response_ok w rp : writer_ok exc w rp ->
  exists w' rp', perform_nack_response w = Some w' /\ acts w rp w' rp' /\ sent_ w' = sent_ w /\ history_ w' = history_ w /\
    next_expected_acknack_count_ rp' = next_expected_acknack_count_ rp /\ changes_low_mark_ rp' = changes_low_mark_ rp /\
    (forall n, pending rp' n = match pending rp n with Some st => Some (if bool_decide (st = REQUESTED) then UNSENT else st) | None => None end).
Proof.
  intros W. unfold perform_nack_response, perform_acknack_response. rewrite (wo_readers _ _ _ W).
  destruct (converted_ok w rp REQUESTED UNSENT W) as (cs & rp' & -> & A & Hs & Hl & Hp & _); [done|done|]. cbn [mbind option_bind].
  eexists _, rp'. split; [done|]. split; [by apply (acts_same w rp _ rp' _ A)|]. destruct (same_reader_kept _ _ Hs) as (_ & Hc & _). done.
Qed.

Lemma find_reader_one w rp guid : writer_ok exc w rp ->
  find_reader guid (matched_remote_readers_ w) = if bool_decide (remote_guid_ rp = guid) then Some ([], rp, []) else None.
Proof. intros W. rewrite (wo_readers _ _ _ W). simpl. by case_bool_decide. Qed.

Lemma nack_supression_ok w rp guid : writer_ok exc w rp ->
  exists w' rp', writer_perform_nack_supression w guid = Some w' /\ acts w rp w' rp' /\ sent_ w' = sent_ w /\ history_ w' = history_ w /\
    next_expected_acknack_count_ rp' = next_expected_acknack_count_ rp /\ changes_low_mark_ rp' = changes_low_mark_ rp /\
    (forall n, pending rp' n = match pending rp n with
                               | Some st => Some (if bool_decide (remote_guid_ rp = guid) && bool_decide (st = UNDERWAY) then UNACKNOWLEDGED else st)
                               | None => None
                               end).
Proof.
  intros W. unfold writer_perform_nack_supression. rewrite (find_reader_one w rp guid W). case_bool_decide as Eg.
  2:{ exists w, rp. split; [done|]. split; [by apply prunes_acts, prunes_refl|]. do 4 (split; [done|]). intros n. by destruct (pending rp n). }
  unfold perform_nack_supression. destruct (converted_ok w rp UNDERWAY UNACKNOWLEDGED W) as (cs & rp' & -> & A & Hs & Hl & Hp & _); [done|done|].
  cbn [mbind option_bind]. eexists _, rp'. split; [done|]. split; [by apply (acts_same w rp _ rp' _ A)|].
  destruct (same_reader_kept _ _ Hs) as (_ & Hc & _). do 4 (split; [done|]). done.
Qed.

(** *** ACKNACK *)

(** What the set of an ACKNACK of the reader may say: everything before its base
    needs no sending, nothing in it is beyond the last number written. *)
Definition ack_ok (last : Z) (sns : BitmapRange SequenceNumber_t) : Prop :=
  range_wf sns /\ sn_val (base_ sns) <= last + 1 /\ (forall n, has sns n = true -> n <= last) /\ (forall n, n < sn_val (base_ sns) -> exc n).

Lemma sub_add_one s : usable s -> sn_sub_u32 (sn_add s 1) 1 = s.
Proof.
  intros Hu. destruct (usable_next _ Hu) as [Hv E]. pose proof (usable_range _ Hu). destruct (sub_one (sn_add s 1) Hv) as [Hu' E']; [lia|lia|].
  apply sn_val_inj; [auto|auto|lia].
Qed.

(** The numbers before the base are not pending any more; the rest is as it was,
    but for an empty set at 0, with which a reader that keeps old samples starts
    again. *)
Lemma acked_ok w rp (base : SequenceNumber_t) : writer_ok exc w rp -> sn_valid base -> sn_val base <= last_of w + 1 ->
  (forall n, n < sn_val base -> exc n) ->
  exists rp', acked_changes_set (history_ w) rp base = Some rp' /\ acts w rp (set_readers w [rp']) rp' /\ same_reader rp rp' /\
    (0 < sn_val base -> changes_low_mark_ rp' = changes_low_mark_ rp \/ sn_val (changes_low_mark_ rp') = sn_val base - 1) /\
    (0 < sn_val base -> forall n, pending rp' n = if n <? sn_val base then None else pending rp n) /\
    (forall n, in_history (history_ w) n -> n <= sn_val (changes_low_mark_ rp') -> n <= sn_val (changes_low_mark_ rp) \/ n < sn_val base).
Proof.
  intros W Hv Hb Hex. pose proof W as [Hrd Hh Hwh Hbd Hrp Hki Hti Hna Hse Hms]. pose proof (usable_range _ (ro_low _ _ Hrp)) as Hlr.
  destruct (Z.lt_ge_cases (sn_val (changes_low_mark_ rp)) (sn_val base)) as [Hlt|Hge].
  - destruct (acked_changes_set_up (history_ w) rp base Hrp Hv) as (rp' & E & Hok & Hsame & Hlo & Hack & Hst); [lia|done|].
    assert (sn_val (changes_low_mark_ rp') = sn_val base - 1) as El.
    { apply Z.le_antisymm; [|done]. apply Z.nlt_ge. intros Hgt. destruct (Hna (sn_val base)). apply Hack. lia. }
    exists rp'. split; [done|]. destruct (same_reader_kept _ _ Hsame) as (Hk & _).
    assert (Hp : forall n, sn_val base <= n -> pending rp' n = pending rp n) by (intros n Hn; apply Hst; lia).
    assert (Hbelow : forall n, n < sn_val base -> pending rp' n = None).
    { intros n Hn. destruct Hok as [_ [_ Ha _] _ _]. apply (status_of_above _ (changes_low_mark_ rp')); [done|lia]. }
    split; [|split; [done|split; [by right|split]]].
    2:{ intros _ n. destruct (Z.ltb_spec n (sn_val base)); auto. }
    2:{ intros n _ Hn. right. lia. }
    apply set_reader_ok; [done|done|done| |].
    + intros n. destruct (Z.lt_ge_cases n (sn_val base)) as [Hn|Hn]; [by rewrite Hbelow|by rewrite Hp].
    + intros n Hn Hpn. destruct (Z.lt_ge_cases n (sn_val base)) as [Hn'|Hn']; [by apply Hex|]. apply Hse; [done|by rewrite <- Hp].
  - assert (Hnop : acked_changes_set (history_ w) rp base = Some (set_marks rp (changes_for_reader_ rp) (sn_sub_u32 (sn_add (changes_low_mark_ rp) 1) 1)) ->
      exists rp', acked_changes_set (history_ w) rp base = Some rp' /\ acts w rp (set_readers w [rp']) rp' /\ same_reader rp rp' /\
      (0 < sn_val base -> changes_low_mark_ rp' = changes_low_mark_ rp \/ sn_val (changes_low_mark_ rp') = sn_val base - 1) /\
      (0 < sn_val base -> forall n, pending rp' n = if n <? sn_val base then None else pending rp n) /\
      (forall n, in_history (history_ w) n -> n <= sn_val (changes_low_mark_ rp') -> n <= sn_val (changes_low_mark_ rp) \/ n < sn_val base)).
    { rewrite sub_add_one by apply Hrp. assert (set_marks rp (changes_for_reader_ rp) (changes_low_mark_ rp) = rp) as -> by (by destruct rp).
      intros E. exists rp. split; [done|]. split; [|split; [by destruct rp|split; [by left|split; [|by left]]]].
      - by apply set_reader_ok.
      - intros _ n. destruct (Z.ltb_spec n (sn_val base)); [|done]. destruct Hrp as [_ [_ Ha _] _ _]. apply (status_of_above _ (changes_low_mark_ rp)); [done|lia]. }
    unfold acked_changes_set in Hnop |- *. rewrite sn_gtb_val in Hnop |- * by (auto; apply Hrp || apply Hv).
    rewrite (proj2 (Z.ltb_ge _ _)) in Hnop |- * by done. rewrite sn_eqb_val in Hnop |- * by (done || apply Hv). change (sn_val (mkSN 0 0)) with 0 in Hnop |- *.
    destruct (Z.eqb_spec (sn_val base) 0) as [E0|_]; [|by apply Hnop]. destruct (bool_decide (durability_kind_ rp = VOLATILE)) eqn:Ed; [by apply Hnop|].
    clear Hnop. apply bool_decide_eq_false in Ed.
    assert (base = mkSN 0 0) as -> by (apply sn_val_inj; [apply Hv|done|done]).
    assert (is_local_reader_ rp = false) as Hloc by (unfold is_remote_and_reliable in Hki; by destruct (is_local_reader_ rp)).
    destruct (acked_changes_set_zero (history_ w) rp) as (rp' & E & Hok & Hsame & Hlow & Hst); [done|done| |done|done|].
    { unfold history_frags. eapply list.Forall_impl; [exact Hwh|]. apply whole_out_ok. }
    unfold acked_changes_set in E. rewrite sn_gtb_val in E by (done || apply usable_ok, Hrp). rewrite (proj2 (Z.ltb_ge _ _)) in E by (change (sn_val (mkSN 0 0)) with 0; lia).
    rewrite sn_eqb_val in E by done. rewrite bool_decide_eq_false_2 in E by done. change (sn_val (mkSN 0 0) =? sn_val (mkSN 0 0)) with true in E.
    cbn [negb andb] in E |- *. exists rp'. split; [done|]. destruct (same_reader_kept _ _ Hsame) as (Hk & _).
    split; [|split; [done|split; [change (sn_val (mkSN 0 0)) with 0; lia|split; [change (sn_val (mkSN 0 0)) with 0; lia|]]]].
    2:{ intros n Hn Hle. by destruct (Hlow n Hle). }
    apply set_reader_ok; [done|done|done| |].
    + intros n. rewrite Hst. destruct (_ && _); [done|apply Hna].
    + intros n Hn. rewrite Hst. destruct (_ && _); [done|]. by apply Hse.
Qed.

Lemma requested_noack st : st <> Some ACKNOWLEDGED -> requested st <> Some ACKNOWLEDGED.
Proof. by destruct st as [[]|]. Qed.

(** The numbers requested are requested; those that are not pending are declared in
    GAP messages, unless they are before the history. *)
Lemma answer_request_ok w rp sns final : writer_ok exc w rp -> ack_ok (last_of w) sns -> 0 < sn_val (base_ sns) ->
  exists w' rp' ms, answer_request w [] rp [] sns final = Some w' /\ acts w rp w' rp' /\ same_reader rp rp' /\ history_ w' = history_ w /\
    sent_ w' = sent_ w ++ ms /\ changes_low_mark_ rp' = changes_low_mark_ rp /\
    (in_history (history_ w) (sn_val (get_seq_num_min (history_ w))) ->
       (forall n, pending rp' n = if has sns n then requested (pending rp n) else pending rp n) /\
       (forall n, has sns n = true -> refused rp (get_seq_num_min (history_ w)) n -> exists s l d, GAP s l d ∈ ms /\ declares (s, l) n)) /\
    ((forall n, ~ in_history (history_ w) n) -> rp' = rp).
Proof.
  intros W (Wf & Hb & Hm & Hex) Hpos. pose proof W as [Hrd Hh Hwh Hbd Hrp Hki Hti Hna Hse Hms]. unfold answer_request, requested_changes_set.
  destruct (ends_of_history _ Hh) as [(Em & _ & Hno)|(Hum & _ & Hne & _ & Hmin & _)].
  - rewrite Em. change (sn_eqb sn_unknown sn_unknown) with true. cbn [negb mbind option_bind flush is_gap_pending_ RTPSGapBuilder_new].
    match goal with |- context [Some (send ?x ?y)] => set (w1 := x) end. eexists _, rp, _. split; [done|].
    assert (acts w rp w1 rp) as A by (apply prunes_acts, prunes_same; [done|unfold w1; by destruct final..]).
    split; [apply (acts_same w rp w1 rp); [done|done|done|done|simpl; by rewrite app_nil_r]|]. split; [by destruct rp|]. split; [unfold w1; by destruct final|].
    split; [unfold w1; by destruct final|]. split; [done|]. split; [|done]. intros Hx. by destruct (Hno _ Hx).
  - rewrite sn_eqb_sym, Hne. cbn [negb]. destruct (for_each_spec sns Wf) as (Hok & Hso & Hel). change (ival <$> for_each sns) with (vals (for_each sns)) in *.
    assert (Hin : forall x, x ∈ for_each sns -> sn_valid x /\ has sns (sn_val x) = true).
    { intros x Hx. rewrite list.Forall_forall in Hok. split; [by apply Hok|]. by apply Hel, elem_of_vals. }
    assert (Hbase : forall x, x ∈ for_each sns -> 0 < sn_val x <= last_of w).
    { intros x Hx. destruct (Hin x Hx) as [_ Hh']. pose proof (has_window _ _ Wf Hh') as Hw. apply Hm in Hh'. simpl in *. lia. }
    destruct (request_each_spec (history_ w) (get_seq_num_min (history_ w)) (for_each sns) rp RTPSGapBuilder_new [] [] 0)
      as (some & rp' & b' & log & added & la & -> & Hok' & Hsame & [Hlo Hup] & Hgi & Had).
    { done. } { auto. }
    { apply list.Forall_forall. intros x Hx. destruct (Hin x Hx) as [Hv _]. specialize (Hbase x Hx). split; [done|]. lia. }
    { done. }
    { apply list.Forall_forall. intros x Hx. specialize (Hbase x Hx). lia. }
    { apply gap_inv_new. }
    cbn [mbind option_bind]. destruct (flush_spec _ _ _ _ Hgi) as (b2 & log2 & -> & Hgo & Hd).
    destruct (same_reader_kept _ _ Hsame) as (Hk & _).
    assert (Hpe : forall n, pending rp' n = if has sns n then requested (pending rp n) else pending rp n).
    { intros n. rewrite Hup. rewrite (bool_decide_ext _ _ (Hel n)). case_bool_decide as Hc; [by rewrite Hc|]. by apply not_true_is_false in Hc as ->. }
    set (w1 := if some then restart_nack_response (set_readers w [rp']) else if negb final then restart_periodic_hb (set_readers w [rp']) else set_readers w [rp']).
    assert (acts w rp w1 rp') as A1.
    { apply (acts_same w rp (set_readers w [rp'])); [|unfold w1; by destruct some, final..]. apply set_reader_ok; [done|done|done| |].
      - intros n. rewrite Hpe. destruct (has sns n); [by apply requested_noack|done].
      - intros n Hn. rewrite Hpe. destruct (has sns n); [rewrite requested_None|]; by apply Hse. }
    assert (history_ w1 = history_ w /\ sent_ w1 = sent_ w) as [Eh1 Es1] by (unfold w1; by destruct some, final).
    change ([] ++ rp' :: []) with [rp']. fold w1.
    eexists _, rp', _. split; [done|]. split; [|split; [done|split; [done|split; [simpl; by rewrite Es1|split; [done|split; [|by intros Hx; destruct (Hx _ Hmin)]]]]]].
    + apply (acts_trans w rp w1 rp'); [done|]. apply only_sends_acts.
      eapply logged_only_sends; [apply A1|by eexists _, _, _| |done]. destruct A1 as (_ & _ & El & _). rewrite El.
      apply gaps_for_ok; [done|]. intros n Hn%Hd%Had. destruct Hn as [Hn|[Hn (Hst & _)]]; [by apply elem_of_nil in Hn|].
      apply Hel, Hm in Hn. split; [done|]. by apply Hse.
    + intros _. split; [done|]. intros n Hn Hr. assert (n ∈ added) as Ha by (apply Had; right; split; [by apply Hel|done]).
      apply Hd in Ha. rewrite list.Exists_exists in Ha. destruct Ha as ([s l] & Hx & Hdecl). exists s, l, (Some (remote_guid_ rp')).
      split; [|done]. unfold gaps_for. apply list_elem_of_fmap. by exists (s, l).
Qed.

Lemma counted_ok w rp count : writer_ok exc w rp -> writer_ok exc (set_readers w [(check_and_set_acknack_count rp count).2]) (check_and_set_acknack_count rp count).2 /\
  kept rp (check_and_set_acknack_count rp count).2.
Proof.
  intros W. unfold check_and_set_acknack_count. destruct (_ >=? _); simpl.
  - split; [|done]. eapply (proj1 (set_reader_ok w rp _ _ _ _ _ _)).
    Unshelve. all: [> done|by apply (rp_ok_marks _ rp); [apply W|..]|done|apply W|apply W].
  - split; [|done]. apply (writer_ok_same w); [done|simpl; by rewrite (wo_readers _ _ _ W)|done|done].
Qed.

(** What an accepted ACKNACK of the reader does: what is before its base is not
    pending any more, what it asks for is requested, or declared in a GAP message
    when it is in the history and not meant for the reader. *)
Definition heard w rp (sns : BitmapRange SequenceNumber_t) w' rp' : Prop :=
  (forall n, pending rp' n = if n <? sn_val (base_ sns) then None else if has sns n then requested (pending rp n) else pending rp n) /\
  (forall n, has sns n = true -> pending rp n = None -> in_history (history_ w) n -> sn_val (changes_low_mark_ rp) < n ->
     exists s l d, GAP s l d ∈ sent_ w' /\ declares (s, l) n).

Lemma in_window last sns h : history_ok h -> sn_val (m_lastCacheChangeSeqNum h) = last -> ack_ok last sns ->
  sn_leb (if range_empty sns then base_ sns else range_max sns) (next_sequence_number h) = true.
Proof.
  intros Hh El (Wf & Hb & Hm & _). destruct (next_number h Hh) as [Hvn En]. pose proof (rw_base _ Wf) as Hv. simpl in Hv.
  destruct (range_empty sns) eqn:Ee; [rewrite sn_leb_val by (apply Hv || apply Hvn); apply Z.leb_le; lia|].
  pose proof (rw_num _ Wf). unfold range_empty in Ee. destruct (range_max_greatest sns Wf ltac:(lia)) as (Hiok & Hhas & _). simpl in Hiok. apply Hm in Hhas.
  rewrite sn_leb_val by (apply Hiok || apply Hvn). apply Z.leb_le. rewrite En, El. transitivity last; [exact Hhas|lia].
Qed.

(** The branches of [process_acknack] behind the acknowledgement. *)
Lemma answered_ok w rp sns final : writer_ok exc w rp -> ack_ok (last_of w) sns ->
  (forall n, n < sn_val (base_ sns) -> 0 < sn_val (base_ sns) -> pending rp n = None) ->
  exists w' rp', (if sn_gtb (base_ sns) (mkSN 0 0) then answer_request w [] rp [] sns final
    else if range_empty sns && negb final then answer_initial w [] rp [] else Some w) = Some w' /\ acts w rp w' rp' /\ history_ w' = history_ w /\
    changes_low_mark_ rp' = changes_low_mark_ rp /\ next_expected_acknack_count_ rp' = next_expected_acknack_count_ rp /\
    (0 < sn_val (base_ sns) -> heard w rp sns w' rp').
Proof.
  intros W Hack Hbelow. pose proof Hack as (Wf & _ & _ & _). pose proof (rw_base _ Wf) as Hv. simpl in Hv. pose proof (wo_history _ _ _ W) as Hh.
  rewrite sn_gtb_val by (done || apply Hv). change (sn_val (mkSN 0 0)) with 0. destruct (Z.ltb_spec 0 (sn_val (base_ sns))) as [Hpos|Hz].
  - destruct (answer_request_ok w rp sns final W) as (w3 & rp3 & ms & E3 & A3 & S3 & Eh & Es & El & Hsome & Hnone); [done|done|].
    destruct (same_reader_kept _ _ S3) as (_ & Hc & _). exists w3, rp3. do 5 (split; [done|]). intros _.
    destruct (ends_of_history _ Hh) as [(_ & _ & Hno)|(Hum & _ & _ & _ & Hmin & _ & _ & Hrange)].
    + rewrite (Hnone Hno). assert (forall n, pending rp n = None) as Hp.
      { intros n. destruct (pending rp n) eqn:Ep; [|done]. destruct (pending_in (history_ w) rp n) as [Hi _]; [apply W|by rewrite Ep|]. by destruct (Hno n). }
      split; [intros n; rewrite Hp; by destruct (n <? _), (has sns n)|]. intros n _ _ Hi. by destruct (Hno n).
    + destruct (Hsome Hmin) as [Hp Hg]. split.
      * intros n. rewrite Hp. destruct (Z.ltb_spec n (sn_val (base_ sns))) as [Hlt|]; [|done]. rewrite Hbelow by done. by destruct (has sns n).
      * intros n Hn Hpn Hi Hlo. destruct (Hg n Hn) as (s & l & d & Hin & Hd); [split; [done|]; split; [by apply Hrange|done]|].
        exists s, l, d. split; [|done]. rewrite Es. apply elem_of_app. by right.
  - destruct (range_empty sns && negb final).
    2:{ exists w, rp. split; [done|]. split; [by apply prunes_acts, prunes_refl|]. do 3 (split; [done|]). lia. }
    unfold answer_initial, process_initial_acknack. pose proof (wo_kind _ _ _ W) as Hki.
    assert (is_local_reader_ rp = false) as -> by (unfold is_remote_and_reliable in Hki; by destruct (is_local_reader_ rp)).
    cbn [mbind option_bind]. rewrite Hki. cbn [andb]. rewrite fmap_nil. change ([] ++ rp :: []) with [rp]. set (w2 := schedule (set_readers w [rp]) []).
    assert (prunes w rp w2 rp) as P2 by (apply prunes_same; [done|done|simpl; by rewrite (wo_readers _ _ _ W)|done|done]).
    destruct (send_heartbeat_to_nts_ok w2 rp rp false true) as (w3 & -> & S3); [apply P2|].
    cbn [mbind option_bind]. eexists _, rp. split; [done|]. split; [|split; [by destruct S3 as (_ & _ & S3 & _)|do 2 (split; [done|]); lia]].
    apply (acts_same w rp w3 rp); [|done..]. apply (acts_trans w rp w2 rp); [by apply prunes_acts|by apply only_sends_acts].
Qed.

(** An ACKNACK, whatever its counter says and whoever it is from. *)
Lemma process_acknack_ok listener w rp writer_guid reader_guid count sns final : writer_ok exc w rp -> ack_ok (last_of w) sns ->
  exists b w' rp', process_acknack listener w writer_guid reader_guid count sns final = Some (b, w') /\ acts w rp w' rp' /\
    (next_expected_acknack_count_ rp' = next_expected_acknack_count_ rp \/ next_expected_acknack_count_ rp' = u32 (count + 1)) /\
    (forall n, in_history (history_ w') n -> n <= sn_val (changes_low_mark_ rp') -> n <= sn_val (changes_low_mark_ rp) \/ n < sn_val (base_ sns)) /\
    (m_guid w = writer_guid -> remote_guid_ rp = reader_guid -> next_expected_acknack_count_ rp <= count -> 0 < sn_val (base_ sns) -> heard w rp sns w' rp').
Proof.
  intros W Hack. unfold process_acknack.
  case_bool_decide as Egw; [|exists false, w, rp; split; [done|]; split; [by apply prunes_acts, prunes_refl|]; split; [by left|]; split; [by left|done]].
  rewrite (in_window (last_of w) sns) by (done || apply W). rewrite (find_reader_one w rp reader_guid W).
  case_bool_decide as Eg; [|exists true, w, rp; split; [done|]; split; [by apply prunes_acts, prunes_refl|]; split; [by left|]; split; [by left|done]].
  destruct (counted_ok w rp count W) as [W1 K1]. unfold check_and_set_acknack_count in *. destruct (Z.geb_spec count (next_expected_acknack_count_ rp)) as [Hge|Hlt]; cbn [snd] in *.
  2:{ exists true, w, rp. split; [done|]. split; [by apply prunes_acts, prunes_refl|]. split; [by left|]. split; [by left|]. lia. }
  set (rp1 := set_counts rp (u32 (count + 1)) (last_nackfrag_count_ rp)) in *. pose proof Hack as (Wf & Hb & _ & Hex). pose proof (rw_base _ Wf) as Hv. simpl in Hv.
  destruct (acked_ok (set_readers w [rp1]) rp1 (base_ sns) W1) as (rp2 & E2 & A2 & S2 & Hlo2 & Hp2 & Hm2); [done|done|done|].
  simpl in E2. rewrite E2. cbn [mbind option_bind]. change ([] ++ rp2 :: []) with [rp2].
  assert (acts w rp (set_readers w [rp2]) rp2) as A.
  { apply (acts_trans w rp (set_readers w [rp1]) rp1); [by split; [|split]|]. apply (acts_same _ _ _ _ _ A2); done. }
  clear A2. set (w2 := set_readers w [rp2]) in *. destruct (same_reader_kept _ _ S2) as (_ & Hc2 & _). pose proof A as (W2 & _ & El & _).
  destruct (answered_ok w2 rp2 sns final W2) as (w3 & rp3 & -> & A3 & Eh3 & El3 & Ec3 & Hh3); [done|..].
  { intros n Hn Hpos. rewrite Hp2 by done. by rewrite (proj2 (Z.ltb_lt _ _)). }
  cbn [mbind option_bind]. destruct (check_acked_status_ok listener w3 rp3) as (w4 & rp4 & -> & P4); [apply A3|]. cbn [mbind option_bind].
  pose proof P4 as (_ & _ & _ & Es4 & Ec4 & Hp4 & Hi4 & _ & Hm4).
  eexists _, w4, rp4. split; [done|]. split; [eapply acts_trans; [exact A|]; eapply acts_trans; [exact A3|]; by apply prunes_acts|].
  split; [right; rewrite Ec4, Ec3, Hc2; done|]. split.
  { intros n Hn Hle. apply Hm2; [apply Hi4 in Hn; by rewrite Eh3 in Hn|]. rewrite <- El3. by apply Hm4. }
  intros _ _ _ Hpos. destruct (Hh3 Hpos) as [Hp3 Hg3]. split.
  - intros n. rewrite Hp4, Hp3, Hp2 by done. by destruct (n <? _).
  - intros n Hn Hpn Hi Hlow. destruct (Hg3 n Hn) as (s & l & d & Hin & Hd); [rewrite Hp2 by done; by destruct (n <? _)|done| |].
    + pose proof (has_window _ _ Wf Hn) as [Hw _]. simpl in Hw. destruct (Hlo2 Hpos) as [->| ->]; [done|lia].
    + exists s, l, d. by rewrite Es4.
Qed.

(** ** Delivery *)

(** The hole in front of a change that is unsent. *)
Lemma change_is_unsent_spec h rp s (min_seq : SequenceNumber_t) : rp_ok h rp -> usable s -> sn_ok min_seq -> (sn_valid min_seq \/ min_seq = sn_unknown) ->
  match change_is_unsent rp s min_seq with
  | None => pending rp (sn_val s) <> Some UNSENT
  | Some (_, gap, _) => pending rp (sn_val s) = Some UNSENT /\
      (sn_eqb sn_unknown gap = true \/
       (sn_valid gap /\ 0 < sn_val gap < sn_val s /\ forall n, sn_val gap <= n < sn_val s -> pending rp n = None))
  end.
Proof.
  intros Hok Hu Hmo Hmv. pose proof Hok as [Hlow [Hs Ha Hf] Hi Hla]. pose proof (usable_range _ Hlow) as Hlr. pose proof (usable_range _ Hu) as Hur.
  unfold change_is_unsent. destruct (sn_leb s (changes_low_mark_ rp) || negb (has_changes rp)) eqn:E0.
  { apply orb_true_iff in E0 as [E0|E0].
    - rewrite sn_leb_val in E0 by auto. rewrite (status_of_above _ (changes_low_mark_ rp)) by (done || lia). done.
    - unfold has_changes in E0. by destruct (changes_for_reader_ rp). }
  pose proof (find_change_spec _ s Hs Hf ltac:(auto)) as HF. destruct (find_change (changes_for_reader_ rp) s) as [[[a c] b]|]; [|by rewrite HF].
  destruct HF as [E Es]. pose proof (status_found _ a c b s Hs E Es) as Hst. case_bool_decide as Eu; [|rewrite Hst; congruence]. rewrite Eu in Hst.
  destruct (is_reliable_ rp && negb (delivered_ c)); [|split; [done|by left]]. split; [done|].
  set (before := match last_change a with Some d => cfr_seq d | None => changes_low_mark_ rp end).
  assert (usable before /\ sn_val before < sn_val s /\ forall n, sn_val before < n < sn_val s -> pending rp n = None) as (Hub & Hlt & Hno).
  { rewrite E in Hs, Hf, Ha. destruct (sorted_parts a (c :: b) Hs) as (Hsa & Hsb & Hab).
    assert (Hc : forall n, n < sn_val s -> status_of (c :: b) n = None).
    { intros n Hn. apply status_of_None. intros Hx. rewrite fmap_cons in Hsb, Hx. apply elem_of_cons in Hx as [->|Hx]; [simpl in Hn; rewrite Es in Hn; lia|].
      pose proof (sorted_head _ _ _ Hsb Hx) as Hg. simpl in Hg. rewrite Es in Hg. lia. }
    unfold before. destruct (last_change a) as [d|] eqn:El.
    - apply last_change_Some in El as [a' Ea].
      assert (d ∈ a) as Hd by (rewrite Ea; apply elem_of_app; right; left).
      assert (cfr_ok d) as Hdo by (rewrite list.Forall_forall in Hf; apply Hf, elem_of_app; by left). split; [by apply co_usable|]. split.
      + rewrite <- Es. apply Hab; [by apply cseqs_elem|by left].
      + intros n Hn. rewrite E, status_of_app, Hc by lia. rewrite (proj2 (status_of_None a n)); [done|]. intros Hx. rewrite Ea in Hsa, Hx.
        destruct (sorted_parts a' [d] Hsa) as (_ & _ & Had). rewrite fmap_app in Hx. apply elem_of_app in Hx as [Hx|Hx].
        * specialize (Had n (sn_val (cfr_seq d)) Hx ltac:(by left)). lia.
        * apply list_elem_of_singleton in Hx. simpl in Hx. lia.
    - apply last_change_None in El as ->. split; [done|]. split; [rewrite <- Es; simpl in Ha; by inversion Ha|].
      intros n Hn. rewrite E. simpl app. apply Hc. lia. }
  destruct (usable_next _ Hub) as [Hpv Ep]. pose proof (usable_range _ Hub) as Hbr. set (prev := sn_add before 1) in *.
  destruct (negb (sn_eqb prev (cfr_seq c))) eqn:Ene; [|by left]. rewrite Es, sn_eqb_val in Ene by (auto; apply Hpv).
  apply negb_true_iff, Z.eqb_neq in Ene. rewrite sn_ltb_val by (auto; apply Hpv). destruct (Z.ltb_spec (sn_val prev) (sn_val min_seq)) as [Hpm|Hpm].
  - rewrite sn_ltb_val by auto. destruct (Z.ltb_spec (sn_val min_seq) (sn_val s)) as [Hms|_]; [|by left]. right.
    split; [destruct Hmv as [?|Emu]; [done|]; rewrite Emu in Hpm; destruct Hpv as [_ Hpv]; change (sn_val sn_unknown) with (- 2 ^ 32) in Hpm; lia|].
    split; [lia|]. intros n Hn. apply Hno. lia.
  - right. split; [done|]. split; [lia|]. intros n Hn. apply Hno. lia.
Qed.

Lemma gap_before_ok last (gap s : SequenceNumber_t) : sn_valid gap -> usable s -> 0 < sn_val gap < sn_val s -> sn_val s <= last ->
  (forall n, sn_val gap <= n < sn_val s -> exc n) -> forall reader, msg_ok exc last (GAP gap (range_new s) reader).
Proof.
  intros Hv Hu Hg Hl Hex reader. pose proof (usable_range _ Hu). destruct (range_of_spec s 255) as (Wf & Hno & _); [simpl; auto|simpl; lia|lia|].
  change (range_of s 255) with (range_new s) in *. simpl. split.
  - split; [done|]. cbn [fst snd]. split; [lia|]. cbn [fst snd]. split; [simpl; lia|done].
  - intros n [Hn|Hn]; cbn [fst snd] in Hn; [|by rewrite Hno in Hn]. change (base_ (range_new s)) with s in Hn. split; [lia|by apply Hex].
Qed.

(** The sample goes to the reader. *)
Lemma sample_sent_ok w rp s : writer_ok exc w rp -> usable s -> pending rp (sn_val s) = Some UNSENT ->
  exists rp', sample_sent (history_ w) s rp = Some rp' /\ acts w rp (set_readers w [rp']) rp' /\
    next_expected_acknack_count_ rp' = next_expected_acknack_count_ rp /\ changes_low_mark_ rp' = changes_low_mark_ rp /\
    (forall n, pending rp' n = if n =? sn_val s then Some UNDERWAY else pending rp n).
Proof.
  intros W Hu Hp. pose proof W as [Hrd Hh Hwh Hbd Hrp Hki Hti Hna Hse Hms]. unfold sample_sent.
  assert (is_reliable_ rp = true) as Hrel by (unfold is_remote_and_reliable in Hki; by destruct (is_reliable_ rp); rewrite ?andb_false_r in Hki).
  rewrite Hrel. cbn [negb]. destruct (from_unsent_to_underway (history_ w) rp s true) as (rp' & E & Hok & Hk & Hc & [Hlo Hup]); [done..|].
  exists rp'. split; [done|]. split; [|done]. apply set_reader_ok; [done|done|done| |].
  - intros n. rewrite Hup. destruct (n =? sn_val s); [done|apply Hna].
  - intros n Hn. rewrite Hup. destruct (n =? sn_val s); [done|]. by apply Hse.
Qed.

(** The history and what the reader has acknowledged stay, messages are added. *)
Definition relays w rp w' rp' : Prop :=
  acts w rp w' rp' /\ history_ w' = history_ w /\ next_expected_acknack_count_ rp' = next_expected_acknack_count_ rp /\
  changes_low_mark_ rp' = changes_low_mark_ rp /\ exists ms, sent_ w' = sent_ w ++ ms.

Lemma relays_trans w1 rp1 w2 rp2 w3 rp3 : relays w1 rp1 w2 rp2 -> relays w2 rp2 w3 rp3 -> relays w1 rp1 w3 rp3.
Proof.
  intros (A & E1 & E2 & E3 & a & Ea) (B & F1 & F2 & F3 & b & Eb). split; [by eapply acts_trans|]. do 3 (split; [congruence|]).
  exists (a ++ b). by rewrite Eb, Ea, app_assoc.
Qed.

Lemma relays_same w rp w' : writer_ok exc w rp -> m_guid w' = m_guid w -> matched_remote_readers_ w' = matched_remote_readers_ w ->
  history_ w' = history_ w -> sent_ w' = sent_ w -> relays w rp w' rp.
Proof.
  intros W E0 E1 E2 E3. split; [by apply prunes_acts, prunes_same|]. do 3 (split; [done|]). exists []. by rewrite app_nil_r.
Qed.

Lemma relays_refl w rp : writer_ok exc w rp -> relays w rp w rp.
Proof. intros W. by apply relays_same. Qed.

Lemma logged_relays w w' rp ms : writer_ok exc w rp -> logged w w' ms -> Forall (msg_ok exc (last_of w)) ms -> relays w rp w' rp.
Proof.
  intros W L Hms. split; [|destruct L as (c & os & told & ->); do 3 (split; [done|]); by exists ms].
  split; [by eapply writer_ok_logged|]. by destruct L as (c & os & told & ->).
Qed.

Lemma heartbeat_relays w rp k final liveliness : writer_ok exc w rp -> 0 <= k ->
  exists w', send_heartbeat_nts_ w k final liveliness = Some w' /\ relays w rp w' rp.
Proof.
  intros W Hk. destruct (heartbeat_sent w rp k final liveliness W Hk) as (w' & ms & E & L & Hms & _). exists w'. split; [done|]. by eapply logged_relays.
Qed.

Lemma set_active_ok w rp b : writer_ok exc w rp -> relays w rp (set_readers w [set_active rp b]) (set_active rp b).
Proof.
  intros W. split; [|do 3 (split; [done|]); exists []; by rewrite app_nil_r]. apply set_reader_ok; [done| |done|apply W|apply W].
  by apply (rp_ok_marks _ rp); [apply W|..].
Qed.

Lemma min_seq_ok h : history_ok h -> sn_ok (get_seq_num_min h) /\ (sn_valid (get_seq_num_min h) \/ get_seq_num_min h = sn_unknown).
Proof. intros Hh. destruct (ends_of_history _ Hh) as [(-> & _)|(Hum & _)]; [split; [done|by right]|split; [auto|left; auto]]. Qed.

Definition unsent rp s : bool := bool_decide (pending rp (sn_val s) = Some UNSENT).

Lemma scan_one_ok w rp o need : writer_ok exc w rp -> o ∈ m_changes (history_ w) ->
  exists sc w1, scan_readers w o 0 [rp] (mkScan 1 [] [] sn_unknown false false need) = Some (sc, w1) /\ relays w rp w1 rp /\
    sc_before sc = [] /\ sc_from sc = [set_active rp (unsent rp (out_seq o))] /\ sc_should_be_sent sc = unsent rp (out_seq o) /\
    (sn_eqb sn_unknown (sc_gap_for_all sc) = false -> msg_ok exc (last_of w) (GAP (sc_gap_for_all sc) (range_new (out_seq o)) None)) /\
    (unsent rp (out_seq o) = false -> sc_min_unsent_fragment sc = 1).
Proof.
  intros W Ho. pose proof W as [Hrd Hh Hwh Hbd Hrp Hki Hti Hna Hse Hms]. cbn [scan_readers].
  pose proof (ho_usable _ Hh) as Hus. rewrite list.Forall_forall in Hus. pose proof (Hus o Ho) as Hu.
  pose proof (history_bounds _ _ Hh (seqs_elem _ _ Ho)) as Hb.
  pose proof (change_is_unsent_spec (history_ w) rp (out_seq o) (get_seq_num_min (history_ w)) Hrp Hu) as HU. unfold unsent.
  destruct (change_is_unsent rp (out_seq o) (get_seq_num_min (history_ w))) as [[[next gap] hb]|].
  2:{ rewrite bool_decide_eq_false_2.
      - eexists _, w. split; [done|]. split; [by apply relays_refl|]. simpl. by repeat split.
      - apply HU; apply (min_seq_ok _ Hh). }
  destruct HU as [Hp Hgap]; [apply (min_seq_ok _ Hh)..|].
  rewrite bool_decide_eq_true_2 by done. change ((0 =? 0) || _) with true. cbn [orb].
  set (mbf := if frag next <? sc_min_unsent_fragment _ then _ else _).
  assert (exists m, mbf = (m, [], [])) as [m ->] by (unfold mbf; destruct (frag next <? _); by eexists). cbn [app].
  change (sn_eqb sn_unknown (sc_gap_for_all (mkScan 1 [] [] sn_unknown false false need))) with true. cbn [andb].
  destruct Hgap as [Eg|(Hgv & Hgr & Hgn)].
  - rewrite Eg. cbn [negb mbind option_bind]. eexists _, w. split; [done|]. split; [by apply relays_refl|]. simpl. by repeat split.
  - destruct (sn_unknown_val gap Hgv) as [Eg _]. rewrite Eg. cbn [negb sc_gap_for_all].
    assert (Hgo : forall reader, msg_ok exc (last_of w) (GAP gap (range_new (out_seq o)) reader)).
    { apply gap_before_ok; [done|done|done|lia|]. intros n Hn. apply Hse; [lia|by apply Hgn]. }
    destruct (hole_for_all (history_ w) (out_seq o) gap).
    + rewrite sn_eqb_val, Z.eqb_refl by (apply Hgv). cbn [negb mbind option_bind].
      eexists _, w. split; [done|]. split; [by apply relays_refl|]. cbn [sc_before sc_from sc_should_be_sent sc_gap_for_all]. do 3 (split; [done|]). split; [intros _; apply Hgo|done].
    + rewrite Eg. cbn [negb].
      set (w1 := send w [GAP gap (range_new (out_seq o)) (Some (remote_guid_ (set_active rp true)))]).
      assert (relays w rp w1 rp) as R1 by (eapply logged_relays; [done|by eexists _, _, _|by constructor]).
      destruct (heartbeat_relays w1 rp 1 (writer_disable_positive_acks_ w1) false) as (w2 & -> & R2); [apply R1|lia|]. cbn [mbind option_bind].
      eexists _, w2. split; [done|]. split; [by eapply relays_trans|]. simpl. by repeat split.
Qed.

Lemma relays_keep w rp w' rp' m : relays w rp w' rp' -> m ∈ sent_ w -> m ∈ sent_ w'.
Proof. intros (_ & _ & _ & _ & ms & ->) Hm. apply elem_of_app. by left. Qed.

Section Group.
Context (add : nat -> Z -> AddResult) (buffer_used : Z -> bool).

Lemma piggyback_ok w rp x : writer_ok exc w rp ->
  exists w', send_heartbeat_piggyback_nts_ buffer_used w x = Some w' /\ relays w rp w' rp.
Proof.
  intros W. unfold send_heartbeat_piggyback_nts_. rewrite (wo_readers _ _ _ W).
  destruct (negb (disable_heartbeat_piggyback_ w)); [|exists w; split; [done|by apply relays_refl]].
  destruct (_ || _); [by apply heartbeat_relays|exists w; split; [done|by apply relays_refl]].
Qed.

(** What a round leaves when the sample was unsent. *)
Definition round_done w rp o (ret : DeliveryRetCode) w' rp' : Prop :=
  relays w rp w' rp' /\ (forall n, n <> sn_val (out_seq o) -> pending rp' n = pending rp n) /\
  if bool_decide (ret = DELIVERED)
  then pending rp' (sn_val (out_seq o)) = Some UNDERWAY /\ exists i r, DATA o i r ∈ sent_ w'
  else pending rp' (sn_val (out_seq o)) = pending rp (sn_val (out_seq o)).

(** The sample is added and the reader's status changes. *)
Lemma add_sample_ok w rp o inline reader : writer_ok exc w rp -> o ∈ m_changes (history_ w) -> unsent rp (out_seq o) = true ->
  exists rp', sample_sent (history_ w) (out_seq o) rp = Some rp' /\
    round_done w rp o DELIVERED (send (set_readers w [rp']) [DATA o inline reader]) rp' /\
    writer_ok exc (send w [DATA o inline reader]) rp.
Proof.
  intros W Ho Hun. pose proof (wo_history _ _ _ W) as Hh. pose proof (ho_usable _ Hh) as Hus. rewrite list.Forall_forall in Hus. pose proof (Hus o Ho) as Hu.
  pose proof (history_bounds _ _ Hh (seqs_elem _ _ Ho)) as Hb. apply bool_decide_eq_true in Hun.
  destruct (sample_sent_ok w rp (out_seq o) W Hu Hun) as (rp' & E & A & Ec & El & Hp). exists rp'. split; [done|].
  assert (Hd : forall w0 rp0, writer_ok exc w0 rp0 -> last_of w0 = last_of w -> relays w0 rp0 (send w0 [DATA o inline reader]) rp0).
  { intros w0 rp0 W0 E0. eapply logged_relays; [done|by eexists _, _, _|]. constructor; [|constructor]. simpl. rewrite E0. split; [done|]. lia. }
  split; [|by apply (Hd w rp W)].
  assert (relays w rp (set_readers w [rp']) rp') as R by (split; [done|]; do 3 (split; [done|]); exists []; by rewrite app_nil_r).
  split; [eapply relays_trans; [exact R|]; apply Hd; [apply A|done]|]. split; [intros n Hn; rewrite Hp; by rewrite (proj2 (Z.eqb_neq _ _))|].
  rewrite bool_decide_eq_true_2 by done. split; [by rewrite Hp, Z.eqb_refl|]. exists inline, reader. apply elem_of_app. right. left.
Qed.

Lemma round_done_more w rp o ret w1 w2 rp' : round_done w rp o ret w1 rp' -> relays w1 rp' w2 rp' -> round_done w rp o ret w2 rp'.
Proof.
  intros (R1 & H1 & H2) R2. split; [by eapply relays_trans|]. split; [done|]. destruct (bool_decide (ret = DELIVERED)); [|done].
  destruct H2 as (H2 & i & r & Hin). split; [done|]. exists i, r. by eapply relays_keep.
Qed.

Lemma send_to_all_ok w rp o sc : writer_ok exc w rp -> o ∈ m_changes (history_ w) -> unsent rp (out_seq o) = true ->
  sc_before sc = [] -> sc_from sc = [rp] -> active_ rp = true ->
  exists ret w' rp', send_to_all add true buffer_used w o 0 sc = Some (ret, w') /\ round_done w rp o ret w' rp' /\
    (add 0%nat (sc_min_unsent_fragment sc) = Added -> ret = DELIVERED).
Proof.
  intros W Ho Hun Eb Ef Hact. unfold send_to_all. change (nothing_to_send 0 (sc_min_unsent_fragment sc)) with false. rewrite Eb, Ef.
  assert (Hfail : forall ret w', ret <> DELIVERED -> relays w rp w' rp -> round_done w rp o ret w' rp).
  { intros ret w' Hr R. split; [done|]. split; [done|]. by rewrite bool_decide_eq_false_2. }
  destruct (add 0%nat (sc_min_unsent_fragment sc)); cbn [mbind option_bind].
  - cbn [each_reader]. rewrite Hact. unfold sent_to. change (0 <? 0) with false. cbn [negb].
    destruct (add_sample_ok w rp o (sc_inline_qos sc) None W Ho Hun) as (rp' & -> & RD & _). cbn [mbind option_bind].
    change (submessage_of o 0 (sc_min_unsent_fragment sc) (sc_inline_qos sc) None) with (DATA o (sc_inline_qos sc) None). cbn [app].
    destruct (piggyback_ok (send (set_readers w [rp']) [DATA o (sc_inline_qos sc) None]) rp' (sc_min_unsent_fragment sc)) as (w2 & -> & R2); [apply RD|].
    cbn [mbind option_bind]. eexists _, w2, rp'. split; [done|]. split; [|done]. by eapply round_done_more.
  - destruct (piggyback_ok w rp (sc_min_unsent_fragment sc) W) as (w2 & -> & R2). cbn [mbind option_bind]. eexists _, w2, rp. split; [done|]. split; [by apply Hfail|done].
  - eexists _, w, rp. split; [done|]. split; [apply Hfail; [done|by apply relays_refl]|done].
  - eexists _, w, rp. split; [done|]. split; [apply Hfail; [done|by apply relays_refl]|done].
Qed.

Lemma send_to_each_ok w rp o sc : writer_ok exc w rp -> o ∈ m_changes (history_ w) -> unsent rp (out_seq o) = true ->
  active_ rp = true ->
  exists ret w' rp', send_to_each add w o 0 sc 0 [] [rp] DELIVERED = Some (ret, w') /\ round_done w rp o ret w' rp' /\
    (add 0%nat (sc_min_unsent_fragment sc) = Added -> ret = DELIVERED).
Proof.
  intros W Ho Hun Hact. cbn [send_to_each]. rewrite Hact. change (nothing_to_send 0 (sc_min_unsent_fragment sc)) with false.
  assert (Hfail : forall ret w', ret <> DELIVERED -> relays w rp w' rp -> round_done w rp o ret w' rp).
  { intros ret w' Hr R. split; [done|]. split; [done|]. by rewrite bool_decide_eq_false_2. }
  assert (Hset : set_readers w [rp] = w) by (unfold set_readers; rewrite <- (wo_readers _ _ _ W); by destruct w).
  destruct (add 0%nat (sc_min_unsent_fragment sc)); cbn [mbind option_bind].
  - unfold sent_to. change (0 <? 0) with false. cbn [negb].
    destruct (add_sample_ok w rp o (expects_inline_qos_ rp) (Some (remote_guid_ rp)) W Ho Hun) as (rp' & -> & RD & W1). cbn [mbind option_bind].
    change (submessage_of o 0 (sc_min_unsent_fragment sc) (expects_inline_qos_ rp) (Some (remote_guid_ rp))) with (DATA o (expects_inline_qos_ rp) (Some (remote_guid_ rp))).
    destruct (heartbeat_sent (send w [DATA o (expects_inline_qos_ rp) (Some (remote_guid_ rp))]) rp 1 false false W1) as (w2 & ms & -> & L & Hms & _); [lia|].
    cbn [mbind option_bind]. eexists _, _, rp'. split; [done|]. split; [|done]. eapply round_done_more; [exact RD|].
    destruct L as (c & os & told & ->). eapply (logged_relays _ _ _ ms); [apply RD|by eexists _, _, _|done].
  - destruct (heartbeat_relays w rp 1 false false W) as (w2 & -> & R2); [lia|]. cbn [mbind option_bind]. eexists _, _, rp. split; [done|]. split; [|done].
    apply Hfail; [done|]. eapply relays_trans; [exact R2|]. pose proof R2 as ((W2 & _) & _). apply relays_same; [done|done|simpl; by rewrite (wo_readers _ _ _ W2)|done|done].
  - eexists _, _, rp. split; [done|]. split; [|done]. apply Hfail; [done|]. cbn [app]. rewrite Hset. by apply relays_refl.
  - eexists _, _, rp. split; [done|]. split; [|done]. apply Hfail; [done|]. cbn [app]. rewrite Hset. by apply relays_refl.
Qed.

Lemma deliver_round_ok w rp o need : writer_ok exc w rp -> o ∈ m_changes (history_ w) ->
  exists min need' ret w' rp', deliver_round add true buffer_used w o need = Some (min, need', ret, w') /\
    if unsent rp (out_seq o) then round_done w rp o ret w' rp' /\ ((forall i x, add i x = Added) -> ret = DELIVERED)
    else min = 1 /\ ret = DELIVERED /\ relays w rp w' rp' /\ forall n, pending rp' n = pending rp n.
Proof.
  intros W Ho. assert (out_fragment_count o = 0) as Ec by (pose proof (wo_whole _ _ _ W) as Hwh; rewrite list.Forall_forall in Hwh; by apply Hwh).
  unfold deliver_round. rewrite Ec. change (u32 (0 + 1)) with 1. rewrite (wo_readers _ _ _ W).
  destruct (scan_one_ok w rp o need W Ho) as (sc & w1 & -> & R1 & Eb & Ef & Es & Hg & Hmin). cbn [mbind option_bind]. rewrite Eb, Ef. cbn [app].
  set (rp1 := set_active rp (unsent rp (out_seq o))). pose proof R1 as ((W1 & _ & El1 & _) & Eh1 & _).
  pose proof (set_active_ok w1 rp (unsent rp (out_seq o)) W1) as R2. fold rp1 in R2. set (w2 := set_readers w1 [rp1]) in *.
  match goal with |- context [if negb (sn_eqb sn_unknown (sc_gap_for_all sc)) then ?x else ?y] =>
    set (w3 := if negb (sn_eqb sn_unknown (sc_gap_for_all sc)) then x else y) end.
  assert (relays w2 rp1 w3 rp1) as R3.
  { unfold w3. destruct (sn_eqb sn_unknown (sc_gap_for_all sc)) eqn:Eg; cbn [negb]; [apply relays_refl, R2|].
    eapply logged_relays; [apply R2|by eexists _, _, _|]. constructor; [|constructor]. simpl history_. rewrite El1. by apply Hg. }
  assert (relays w rp w3 rp1) as R by (eapply relays_trans; [exact R1|eapply relays_trans; [exact R2|exact R3]]). rewrite Es.
  pose proof R as ((W3 & _ & El3 & _) & Eh3 & _).
  assert (active_ rp1 = unsent rp (out_seq o)) as Hact by done. assert (unsent rp1 (out_seq o) = unsent rp (out_seq o)) as Hun1 by done.
  assert (sc_from sc = [rp1]) as Ef1 by done. clear Ef. destruct (unsent rp (out_seq o)) eqn:Eu.
  - assert (exists ret w' rp', (if negb (separate_sending_enabled_ w3) then send_to_all add true buffer_used w3 o 0 sc
      else send_to_each add w3 o 0 sc 0 [] [rp1] DELIVERED) = Some (ret, w') /\ round_done w3 rp1 o ret w' rp' /\
      (add 0%nat (sc_min_unsent_fragment sc) = Added -> ret = DELIVERED)) as (ret & w' & rp' & -> & RD & Hadd).
    { destruct (negb (separate_sending_enabled_ w3)).
      - apply (send_to_all_ok w3 rp1); [done|by rewrite Eh3|done|done|done|done].
      - apply send_to_each_ok; [done|by rewrite Eh3|done|done]. }
    cbn [mbind option_bind]. eexists _, _, ret, w', rp'. split; [done|]. split; [|auto].
    destruct RD as (R4 & Hp4 & Hd4). split; [by eapply relays_trans|]. done.
  - cbn [mbind option_bind]. eexists _, _, _, w3, rp1. split; [done|]. split; [by apply Hmin|]. done.
Qed.

Lemma deliver_sample_to_network_ok w rp o fuel : writer_ok exc w rp -> o ∈ m_changes (history_ w) ->
  exists ret w' rp', deliver_sample_to_network add true buffer_used (S (S fuel)) w o = Some (ret, w') /\
    if unsent rp (out_seq o) then round_done w rp o ret w' rp' /\ ((forall i x, add i x = Added) -> ret = DELIVERED)
    else relays w rp w' rp' /\ forall n, pending rp' n = pending rp n.
Proof.
  intros W Ho. assert (out_fragment_count o = 0) as Ec by (pose proof (wo_whole _ _ _ W) as Hwh; rewrite list.Forall_forall in Hwh; by apply Hwh).
  unfold deliver_sample_to_network. set (k := S fuel). cbn [deliver_rounds]. rewrite Ec. change (u32 (0 + 1)) with 1. rewrite bool_decide_eq_true_2 by done.
  change (true && negb (0 =? 1)) with true. cbv match.
  destruct (deliver_round_ok w rp o false W Ho) as (min & need & ret & w1 & rp1 & -> & HD). cbn [mbind option_bind].
  assert (Hhb : forall w0 rp0 (b : bool), writer_ok exc w0 rp0 -> relays w0 rp0 (if b then restart_periodic_hb w0 else w0) rp0).
  { intros w0 rp0 b W0. destruct b; [by apply relays_same|by apply relays_refl]. }
  assert (Hstop : forall k w0 need0 ret0 min0, bool_decide (ret0 = DELIVERED) && negb (min0 =? 1) = false ->
    deliver_rounds add true buffer_used k w0 o min0 need0 ret0 = Some (need0, ret0, w0)).
  { intros [|k0] w0 need0 ret0 min0 E; cbn [deliver_rounds]; rewrite Ec; change (u32 (0 + 1)) with 1; by rewrite E. }
  destruct (unsent rp (out_seq o)) eqn:Eu.
  2:{ destruct HD as (-> & -> & R & Hp). rewrite Hstop by done. cbn [mbind option_bind]. eexists _, _, rp1. split; [done|]. split; [|done].
      eapply relays_trans; [exact R|]. apply Hhb, R. }
  destruct HD as [RD Hadd]. destruct (bool_decide (ret = DELIVERED) && negb (min =? 1)) eqn:Eagain.
  2:{ rewrite Hstop by done. cbn [mbind option_bind]. eexists _, _, rp1. split; [done|]. split; [|done]. eapply round_done_more; [exact RD|]. apply Hhb, RD. }
  unfold k. cbn [deliver_rounds]. rewrite Ec. change (u32 (0 + 1)) with 1. rewrite Eagain. apply andb_true_iff in Eagain as [Er _]. apply bool_decide_eq_true in Er as ->.
  pose proof RD as (R & _ & Hpu). rewrite bool_decide_eq_true_2 in Hpu by done. destruct Hpu as [Hpu _].
  destruct (deliver_round_ok w1 rp1 o need) as (min2 & need2 & ret2 & w2 & rp2 & -> & HD2); [apply R|by destruct R as (_ & -> & _)|].
  assert (unsent rp1 (out_seq o) = false) as Eu1 by (unfold unsent; rewrite Hpu; done). rewrite Eu1 in HD2. destruct HD2 as (-> & -> & R2 & Hp2).
  cbn [mbind option_bind]. rewrite Hstop by done. cbn [mbind option_bind]. eexists _, _, rp2. split; [done|]. split; [|done].
  destruct RD as (_ & Hp1 & Hd1). rewrite bool_decide_eq_true_2 in Hd1 by done. destruct Hd1 as (_ & i & r & Hin).
  assert (relays w rp (if need2 then restart_periodic_hb w2 else w2) rp2) as R'.
  { eapply relays_trans; [exact R|]. eapply relays_trans; [exact R2|]. apply Hhb, R2. }
  split; [done|]. split; [intros n Hn; rewrite Hp2; by apply Hp1|]. rewrite bool_decide_eq_true_2 by done. split; [by rewrite Hp2|].
  exists i, r. eapply relays_keep; [apply Hhb, R2|]. by eapply relays_keep.
Qed.

Lemma deliver_sample_ok listener w rp o fuel : writer_ok exc w rp -> o ∈ m_changes (history_ w) ->
  exists ret w' rp', deliver_sample_nts add true buffer_used listener (S (S fuel)) w o = Some (ret, w') /\ acts w rp w' rp' /\
    next_expected_acknack_count_ rp' = next_expected_acknack_count_ rp /\
    (forall m, m ∈ sent_ w -> m ∈ sent_ w') /\
    (forall n, in_history (history_ w) n -> pending rp n <> None -> in_history (history_ w') n) /\
    (forall n, n <> sn_val (out_seq o) -> pending rp' n = pending rp n) /\
    (pending rp (sn_val (out_seq o)) <> None -> pending rp' (sn_val (out_seq o)) <> None) /\
    (unsent rp (out_seq o) = true -> (forall i x, add i x = Added) -> pending rp' (sn_val (out_seq o)) = Some UNDERWAY /\ exists i r, DATA o i r ∈ sent_ w') /\
    (forall n, in_history (history_ w') n -> n <= sn_val (changes_low_mark_ rp') -> n <= sn_val (changes_low_mark_ rp)).
Proof.
  intros W Ho. unfold deliver_sample_nts. rewrite (wo_readers _ _ _ W).
  destruct (deliver_sample_to_network_ok w rp o fuel W Ho) as (ret & w1 & rp1 & -> & HD). cbn [mbind option_bind].
  assert (relays w rp w1 rp1 /\ (forall n, n <> sn_val (out_seq o) -> pending rp1 n = pending rp n) /\
    (pending rp (sn_val (out_seq o)) <> None -> pending rp1 (sn_val (out_seq o)) <> None)) as (R & Hn & Hs).
  { destruct (unsent rp (out_seq o)); [|destruct HD as [R Hp]; split; [done|]; split; [intros; apply Hp|by rewrite Hp]].
    destruct HD as [(R & Hp & Hd) _]. split; [done|]. split; [done|]. destruct (bool_decide (ret = DELIVERED)); [by destruct Hd as [-> _]|by rewrite Hd]. }
  pose proof R as (A & Eh & Ec & Elo & _). destruct (check_acked_status_ok listener w1 rp1) as (w2 & rp2 & -> & P); [apply A|]. cbn [mbind option_bind].
  pose proof P as (_ & _ & _ & Es & Ec2 & Hp2 & _ & Hk & Hmk). rewrite Elo in Hmk. eexists _, w2, rp2. split; [done|]. split; [eapply acts_trans; [exact A|by apply prunes_acts]|].
  split; [congruence|]. split; [intros m Hm; rewrite Es; by eapply relays_keep|]. split.
  { intros n Hi Hpn. apply Hk; [by rewrite Eh|]. destruct (Z.eq_dec n (sn_val (out_seq o))) as [->|Hne]; [auto|by rewrite Hn]. }
  split; [intros n Hne; rewrite Hp2; auto|]. split; [rewrite Hp2; auto|]. split; [|done]. intros Hu Hadd. rewrite Hu in HD. destruct HD as [(_ & _ & Hd) Hr].
  rewrite (Hr Hadd), bool_decide_eq_true_2 in Hd by done. rewrite Hp2, Es. done.
Qed.
End Group.
End Writer.
