(* ===== verification/System.v ===== *)
(** * A writer and a reader with a network between them

    The composition of the stateful writer and the stateful reader: what the one
    sends may reach the other at any later time, any number of times, in any order,
    or never.  Timers run at any time.  Samples are not split into fragments.

    A run is a list of events; an event that is not possible does nothing, and an
    assertion that fails or a loop that does not end is [None].  Three lists are
    kept beside the state, to say what the theorems promise: the numbers that the
    reader's filter let pass when they were written, the numbers that were removed
    from the writer's history before the reader had acknowledged them, and the
    changes that the application has taken out of the reader's history. *)

From S2P Require Import Prelude FastBuffer SequenceNumber BitmapRange RangeSpec TimedEvent WriterProxy WriterProxyInv ParameterList CdrMessage Fragments.
From S2P Require Import GapBuilder WriterHistory ChangeForReader ReaderProxy ReaderProxyInv ReaderProxyLaws StatefulWriter Delivery.
From S2P Require Import ReaderHistory StatefulReader StatefulReaderLaws StatefulWriterLaws.

Implicit Types (w : StatefulWriter) (r : StatefulReader) (rp : ReaderProxy) (p : WriterProxy) (s : SequenceNumber_t) (g : GUID_t).

(** ** Construction *)

(** The constructor of [ReaderProxy], which ends with [stop]. *)
Definition ReaderProxy_new (nack_supression now : Z) : ReaderProxy :=
  rp_stop (mkRP c_Guid_Unknown false false false VOLATILE false false false []
             (timer_new nack_supression now) (timer_new 0 now) false 0 0 (mkSN 0 0) false).

(** The attributes of a writer that its protocol depends on. *)
Record WriterAttributes := mkWA {
  wa_guid : GUID_t;
  wa_push_mode : bool;
  wa_disable_positive_acks : bool;
  wa_separate_sending : bool;
  wa_disable_heartbeat_piggyback : bool;
  wa_durability : DurabilityKind_t;
  wa_heartbeat_period : Z;
  wa_nack_response_delay : Z;
  wa_preallocated : bool;
  wa_payloadMaxSize : Z;
  wa_maximumReservedCaches : Z
}.

Definition StatefulWriter_new (a : WriterAttributes) (now : Z) : StatefulWriter :=
  mkSW (wa_guid a) (wa_push_mode a) (wa_disable_positive_acks a) (wa_separate_sending a) (wa_disable_heartbeat_piggyback a) (wa_durability a)
    (mkWH [] (mkSN 0 0) false (wa_preallocated a) (wa_payloadMaxSize a) (wa_maximumReservedCaches a) 0)
    [] (timer_new (wa_heartbeat_period a) now) (timer_new (wa_nack_response_delay a) now) 0 (mkSN 0 1) (mkSN 0 0) (mkSN 0 0) 0 false [] [] [].

Definition StatefulReader_new (disable_positive_acks : bool) : StatefulReader :=
  mkSR true disable_positive_acks [] (mkRH [] false false 0) 0 0 0 [] [] [] [].

(** ** The system *)

Record System := mkSys {
  sys_w : StatefulWriter;
  sys_r : StatefulReader;
  relevant_ : list Z;
  dropped_ : list Z;
  taken_ : list InChange
}.

Implicit Types (sys : System).

(** A number has been received: the change is in the history of the reader or the
    application has it. *)
Definition received sys (n : Z) : Prop :=
  exists c, (c ∈ r_changes (sr_history_ (sys_r sys)) \/ c ∈ taken_ sys) /\ in_writer c = m_guid (sys_w sys) /\ sn_val (in_seq c) = n.

(** A number that need not be sent any more. *)
Definition settled sys (n : Z) : Prop := n ∉ relevant_ sys \/ received sys n \/ n ∈ dropped_ sys.

Inductive Event :=
  | EvWrite (allowed : Z) (ch : NewChange) (relevant : bool)
  | EvRemove (s : SequenceNumber_t) (flow_removed : bool)
  | EvSend (i : nat) (add : nat -> Z -> AddResult) (buffer_used : Z -> bool)
  | EvHeartbeat (final liveliness : bool)
  | EvNackResponse
  | EvNackSupression
  | EvWriterGets (i : nat)
  | EvReaderGets (i : nat) (time : Z) (data : list Z) (room : bool)
  | EvAnswer
  | EvInitial
  | EvRead (i : nat)
  | EvTake (i : nat).

Definition set_w sys w : System := mkSys w (sys_r sys) (relevant_ sys) (dropped_ sys) (taken_ sys).
Definition set_r sys r : System := mkSys (sys_w sys) r (relevant_ sys) (dropped_ sys) (taken_ sys).

(** All the readers have acknowledged a number. *)
Definition acked_by_readers w s : bool := forallb (fun rp => change_is_acked rp s) (matched_remote_readers_ w).

Section System.
Context `{P : Platform} (listener : Listener) (reader_guid : GUID_t).

(** A sample that fits into a message, with a number that leaves room for the
    sets of numbers behind it. *)
Definition in_scope w (allowed : Z) (ch : NewChange) : bool :=
  match prepare_and_add_change (history_ w) allowed ch with
  | (Some o, _) => (out_fragment_size o =? 0) && (out_fragment_count o =? 0) && (last_of w + 261 <? 2 ^ 63)
  | (None, _) => false
  end.

(** The submessage reaches the reader. *)
Definition reader_gets r g (m : Submessage) (time : Z) (data : list Z) (room : bool) : option (bool * StatefulReader) :=
  match m with
  | DATA o _ _ => process_data_msg r (mkIn g (out_seq o) time (mkChange data (zlen data) 0 0 0) false) true room
  | GAP s l _ => process_gap_msg r g s l
  | HEARTBEAT first last count final liveliness => process_heartbeat_msg r g count first last final liveliness
  | DATA_FRAG _ _ _ _ => Some (false, r)
  end.

Definition sys_step sys (ev : Event) : option System :=
  let w := sys_w sys in let r := sys_r sys in
  match ev with
  | EvWrite allowed ch relevant =>
      if in_scope w allowed ch then
        '(_, w) ← writer_add_change listener w allowed ch (fun _ => relevant);
        Some (mkSys w r (if relevant then last_of w :: relevant_ sys else relevant_ sys) (dropped_ sys) (taken_ sys))
      else Some sys
  | EvRemove s flow_removed =>
      '(removed, w') ← remove_change w s flow_removed;
      Some (mkSys w' r (relevant_ sys)
              (if (removed : bool) && negb (acked_by_readers w s) then sn_val s :: dropped_ sys else dropped_ sys) (taken_ sys))
  | EvSend i add buffer_used =>
      match m_changes (history_ w) !! i with
      | Some o => '(_, w) ← deliver_sample_nts add true buffer_used listener 2 w o; Some (set_w sys w)
      | None => Some sys
      end
  | EvHeartbeat final liveliness => '(_, w) ← send_periodic_heartbeat w final liveliness; Some (set_w sys w)
  | EvNackResponse => w ← perform_nack_response w; Some (set_w sys w)
  | EvNackSupression => w ← writer_perform_nack_supression w reader_guid; Some (set_w sys w)
  | EvWriterGets i =>
      match sr_sent r !! i with
      | Some (ACKNACK writer sns count final) => '(_, w) ← process_acknack listener w writer reader_guid count sns final; Some (set_w sys w)
      | _ => Some sys
      end
  | EvReaderGets i time data room =>
      match sent_ w !! i with
      | Some m => '(_, r) ← reader_gets r (m_guid w) m time data room; Some (set_r sys r)
      | None => Some sys
      end
  | EvAnswer => r ← answer_heartbeat 0 r (m_guid w); Some (set_r sys r)
  | EvInitial => Some (set_r sys (answer_initial_acknack r (m_guid w)).2)
  | EvRead i =>
      match r_changes (sr_history_ r) !! i with
      | Some c => if is_future_change r c then Some sys else Some (set_r sys (end_sample_access_nts r i true))
      | None => Some sys
      end
  | EvTake i =>
      match r_changes (sr_history_ r) !! i with
      | Some c =>
          if is_future_change r c then Some sys
          else Some (mkSys w (reader_remove_change r i) (relevant_ sys) (dropped_ sys) (c :: taken_ sys))
      | None => Some sys
      end
  end.

Fixpoint sys_run sys (evs : list Event) : option System :=
  match evs with
  | [] => Some sys
  | ev :: evs => sys ← sys_step sys ev; sys_run sys evs
  end.

End System.

(** The writer and the reader find each other; [d] is what the writer knows about
    the reader. *)
Definition sys_init (a : WriterAttributes) (d : ReaderData) (nack_supression response_delay acknack_delay now : Z)
    (reader_no_positive_acks : bool) : option System :=
  '(_, w) ← matched_reader_add_edp (StatefulWriter_new a now) (Some (ReaderProxy_new nack_supression now)) d (fun _ => true);
  let '(_, r) := matched_writer_add_edp (StatefulReader_new reader_no_positive_acks) (wa_guid a) (Some (WriterProxy_new now)) response_delay acknack_delay in
  Some (mkSys w r [] [] []).

(** A remote reader that is reliable and a writer that expects acknowledgements;
    both endpoints have GUIDs. *)
Definition remote_pair (a : WriterAttributes) (d : ReaderData) : Prop :=
  wa_disable_positive_acks a = false /\ wa_guid a <> c_Guid_Unknown /\ rd_guid d <> c_Guid_Unknown /\ rd_local d = false /\ rd_datasharing d = false /\ rd_reliable d = true.
