(* ===== verification/SystemInv.v ===== *)
(** * The invariant of a writer and a reader

    What holds of both of them in every state of the system, and that every event
    keeps it: the writer's invariant with the numbers that are settled, what the
    reader knows, the order of its history and what its listener has been told. *)

From Stdlib Require Import Sorted.
From S2P Require Import Prelude FastBuffer SequenceNumber BitmapRange RangeSpec TimedEvent WriterProxy WriterProxyInv ParameterList CdrMessage Fragments.
From S2P Require Import GapBuilder WriterHistory ChangeForReader ReaderProxy ReaderProxyInv ReaderProxyLaws StatefulWriter Delivery.
From S2P Require Import ReaderHistory StatefulReader StatefulReaderLaws StatefulWriterLaws.
From S2P Require Import System.

Implicit Types (w : StatefulWriter) (r : StatefulReader) (rp : ReaderProxy) (p : WriterProxy) (s : SequenceNumber_t) (g : GUID_t).
Implicit Types (sys : System).

(** ** The invariant *)

Notation low_of p := (sn_val (changes_from_writer_low_mark_ p)).
Notation numbers l := (sn_val ∘ in_seq <$> l).
Notation told_numbers r := ((fun x => sn_val x.2) <$> sr_notified r).

(** The history of the reader holds the changes of the writer in order, each one
    known; the application has taken available ones; the listener has been told
    exactly about the available ones that were received, in order. *)
Record book sys p : Prop := mkBook {
  bk_single : Forall (fun c => in_writer c = m_guid (sys_w sys)) (r_changes (sr_history_ (sys_r sys)));
  bk_order : StronglySorted Z.lt (numbers (r_changes (sr_history_ (sys_r sys))));
  bk_known : forall c, c ∈ r_changes (sr_history_ (sys_r sys)) -> known p (sn_val (in_seq c));
  bk_taken : Forall (fun c => sn_val (in_seq c) <= low_of p) (taken_ sys);
  bk_sorted : StronglySorted Z.lt (told_numbers (sys_r sys));
  bk_told : forall n, n ∈ told_numbers (sys_r sys) <-> received sys n /\ n <= low_of p
}.

(** An ACKNACK acknowledges only what is settled. *)
Definition reply_ok (exc : Z -> Prop) (last : Z) (m : ReaderMsg) : Prop :=
  match m with ACKNACK _ sns _ _ => ack_ok exc last sns | NACK_FRAG _ _ _ _ => True end.

Record sys_inv sys rp p : Prop := mkSysInv {
  si_w : writer_ok (settled sys) (sys_w sys) rp;
  si_r : reader_ok (sys_r sys) (m_guid (sys_w sys)) p;
  si_guid : m_guid (sys_w sys) <> c_Guid_Unknown;
  si_state : state_ p = IDLE;
  si_remote : is_on_same_process_ p = false /\ is_datasharing_writer_ p = false;
  si_whole : all_assembled (sr_history_ (sys_r sys));
  si_pool : r_preallocated (sr_history_ (sys_r sys)) = false;
  si_known : forall n, known p n -> settled sys n;
  si_max : sn_val (max_sequence_number_ p) <= last_of (sys_w sys);
  si_relevant : Forall (fun n => 1 <= n <= last_of (sys_w sys)) (relevant_ sys);
  si_dropped : Forall (fun n => n <= last_of (sys_w sys) /\ ~ in_history (history_ (sys_w sys)) n) (dropped_ sys);
  si_book : book sys p;
  si_replies : Forall (reply_ok (settled sys) (last_of (sys_w sys))) (sr_sent (sys_r sys))
}.

Lemma reply_ok_later (exc exc' : Z -> Prop) last last' m : reply_ok exc last m -> last <= last' -> (forall n, n <= last -> exc n -> exc' n) -> reply_ok exc' last' m.
Proof.
  destruct m as [g sns count final|]; [|done]. intros (Wf & Hb & Hm & Hex) Hl Hmono. split; [done|]. split; [lia|].
  split; [intros n Hn; specialize (Hm n Hn); lia|]. intros n Hn. apply Hmono; [lia|auto].
Qed.

Lemma book_writer sys p w' : book sys p -> m_guid w' = m_guid (sys_w sys) -> forall rel dr, book (mkSys w' (sys_r sys) rel dr (taken_ sys)) p.
Proof.
  intros [B1 B2 B3 B4 B5 B6] E rel dr. split; simpl; rewrite ?E; try done. intros n. rewrite B6. unfold received. simpl. by rewrite E.
Qed.

(** What is known only grows, and so does the low mark. *)
Lemma low_grows p p' : wp_inv p -> wp_inv p' -> (forall n, known p n -> known p' n) -> low_of p <= low_of p'.
Proof.
  intros W W' Hk. apply Z.nlt_ge. intros Hlt. apply (next_unknown p' W'). apply Hk. left. lia.
Qed.

Lemma sorted_lookup (l : list Z) : StronglySorted Z.lt l -> forall i j x y, l !! i = Some x -> l !! j = Some y -> (i < j)%nat -> x < y.
Proof.
  induction 1 as [|z l Hs IH Hz]; intros i j x y Hi Hj Hlt; [done|]. destruct j as [|j]; [lia|]. destruct i as [|i]; simpl in *.
  - injection Hi as ->. rewrite list.Forall_forall in Hz. by eapply Hz, list_elem_of_lookup_2.
  - apply (IH i j); [done|done|lia].
Qed.

Lemma sorted_ordered l g : StronglySorted Z.lt (numbers l) -> ordered l g.
Proof.
  intros Hs i j c d Hc Hd _ _ Hij. eapply (sorted_lookup _ Hs i j); [| |done]; rewrite list_lookup_fmap; [by rewrite Hc|by rewrite Hd].
Qed.

Lemma sorted_below_above (l k : list Z) b : StronglySorted Z.lt l -> StronglySorted Z.lt k -> Forall (fun x => x <= b) l -> Forall (fun x => b < x) k -> StronglySorted Z.lt (l ++ k).
Proof.
  intros Hl Hk Hbl Hbk. induction Hl as [|x l Hl IH Hx]; [done|]. apply list.Forall_cons in Hbl as [Hbx Hbl]. simpl. constructor; [auto|].
  apply Forall_app. split; [done|]. eapply list.Forall_impl; [exact Hbk|]. simpl. lia.
Qed.

(** The reader has acted: its history is in order and nothing new is available. *)
Lemma book_reader sys p r' p' : let g := m_guid (sys_w sys) in let h' := sr_history_ r' in
  book sys p -> wp_inv p -> wp_inv p' -> (forall n, known p n -> known p' n) -> noted (sys_r sys) g p r' p' ->
  Forall (fun c => in_writer c = g) (r_changes h') -> StronglySorted Z.lt (numbers (r_changes h')) ->
  (forall c, c ∈ r_changes h' -> known p' (sn_val (in_seq c))) ->
  (forall n, has_change (sr_history_ (sys_r sys)) g n -> has_change h' g n) ->
  (forall n, n <= low_of p -> has_change h' g n -> has_change (sr_history_ (sys_r sys)) g n) -> book (set_r sys r') p'.
Proof.
  intros g h' [B1 B2 B3 B4 B5 B6] W W' Hk (l & El & Hl & Hs & Hc) H1 H2 H3 H4 H5. pose proof (low_grows p p' W W' Hk) as Hlow.
  assert (told_numbers r' = told_numbers (sys_r sys) ++ vals l) as Et.
  { rewrite El, fmap_app. f_equal. rewrite <- list_fmap_compose. done. }
  assert (Hrec : forall n, received (set_r sys r') n <-> has_change h' g n \/ exists c, c ∈ taken_ sys /\ in_writer c = g /\ sn_val (in_seq c) = n).
  { intros n. unfold received, has_change. simpl. naive_solver. }
  assert (Hrec0 : forall n, received sys n <-> has_change (sr_history_ (sys_r sys)) g n \/ exists c, c ∈ taken_ sys /\ in_writer c = g /\ sn_val (in_seq c) = n).
  { intros n. unfold received, has_change. naive_solver. }
  split; simpl; try done.
  - eapply list.Forall_impl; [exact B4|]. simpl. lia.
  - rewrite Et. apply (sorted_below_above _ _ (low_of p)); [done|done| |].
    + apply list.Forall_forall. intros n Hn. by apply B6.
    + apply list.Forall_forall. intros n (s & -> & Hn)%list_elem_of_fmap. by apply Hl.
  - intros n. rewrite Et, elem_of_app, B6, Hrec0, Hrec. split.
    + intros [[[Hn|Hn] Hle]|(s & -> & Hn)%list_elem_of_fmap]; [split; [left; auto|lia]|split; [by right|lia]|]. destruct (Hl s Hn) as (_ & Hb & Hh). split; [by left|]. simpl in Hb |- *. lia.
    + intros [[Hn|Hn] Hle].
      * destruct (Z.le_gt_cases n (low_of p)) as [Hp|Hp]; [left; split; [left; auto|done]|right]. apply Hc; [by apply sorted_ordered|lia|done].
      * left. split; [by right|]. destruct Hn as (c & Hc' & _ & <-). rewrite list.Forall_forall in B4. by apply B4.
Qed.

(** The writer has acted. *)
Lemma writer_acted sys rp p w' rp' : sys_inv sys rp p -> acts (settled sys) (sys_w sys) rp w' rp' -> sys_inv (set_w sys w') rp' p.
Proof.
  intros [H1 H2 H3 H4 H5 H6 H7 H8 H9 H10 HX HB H11] (W & [Eg _] & El & Hi).
  assert (forall n, settled sys n -> settled (set_w sys w') n) as Hs by (intros n; unfold settled, received; simpl; by rewrite Eg).
  split; simpl; rewrite ?Eg, ?El; try done; [|by auto| |by apply book_writer|].
  - eapply writer_ok_history_grown; [exact W|]. auto.
  - eapply list.Forall_impl; [exact HX|]. intros n [Hn Hx]. split; [done|]. intros Hy. by apply Hx, Hi.
  - eapply list.Forall_impl; [exact H11|]. intros m Hm. eapply reply_ok_later; [exact Hm|lia|auto].
Qed.

(** The reader has acted. *)
Lemma reader_acted sys rp p r' p' taken : sys_inv sys rp p ->
  let sys' := mkSys (sys_w sys) r' (relevant_ sys) (dropped_ sys) taken in
  reader_ok r' (m_guid (sys_w sys)) p' -> proxy_kept p p' -> all_assembled (sr_history_ r') -> r_preallocated (sr_history_ r') = false ->
  (forall n, received sys n -> received sys' n) -> (forall n, known p' n -> settled sys' n) ->
  sn_val (max_sequence_number_ p') <= last_of (sys_w sys) -> book sys' p' ->
  Forall (reply_ok (settled sys') (last_of (sys_w sys))) (sr_sent r') -> sys_inv sys' rp p'.
Proof.
  intros [H1 H2 H3 H4 [H5 H5'] H6 H7 H8 H9 H10 HX HB H11] sys' Hr (K1 & K2 & K3 & K4) Ha Hp Hrec Hk Hm Hbk Hre.
  split; simpl; rewrite ?K2, ?K3, ?K4; try done.
  eapply writer_ok_history_grown; [exact H1|]. intros n _ [?|[?|?]]; [by left|right; left; auto|by right; right].
Qed.

Lemma replies_grown sys sys' last ms : Forall (reply_ok (settled sys) last) ms -> relevant_ sys' = relevant_ sys -> dropped_ sys' = dropped_ sys ->
  (forall n, received sys n -> received sys' n) -> Forall (reply_ok (settled sys') last) ms.
Proof.
  intros Hms Er Ed Hrec. eapply list.Forall_impl; [exact Hms|]. intros m Hm. eapply reply_ok_later; [exact Hm|done|].
  intros n _. unfold settled. rewrite Er, Ed. intros [?|[?|?]]; auto.
Qed.

(** ** Every event keeps it *)

Section Steps.
Context `{P : Platform} (listener : Listener) (reader_guid : GUID_t).
Notation step := (sys_step listener reader_guid).

Lemma write_ok sys rp p allowed ch relevant : sys_inv sys rp p ->
  exists sys' rp', step sys (EvWrite allowed ch relevant) = Some sys' /\ sys_inv sys' rp' p.
Proof.
  intros I. cbn [sys_step]. destruct (in_scope (sys_w sys) allowed ch) eqn:Esc; [|by exists sys, rp].
  unfold in_scope in Esc. destruct (prepare_and_add_change (history_ (sys_w sys)) allowed ch) as [[o|] h'] eqn:Eadd; [|done].
  rewrite !andb_true_iff, !Z.eqb_eq, Z.ltb_lt in Esc. destruct Esc as [Hwo Hbig]. pose proof I as [H1 H2 H3 H4 H5 H6 H7 H8 H9 H10 HX HB H11].
  set (rel := if relevant then last_of (sys_w sys) + 1 :: relevant_ sys else relevant_ sys).
  set (sysA := mkSys (sys_w sys) (sys_r sys) rel (dropped_ sys) (taken_ sys)).
  assert (Hgrow : forall n, n <= last_of (sys_w sys) -> settled sys n -> settled sysA n).
  { intros n Hn [Hr|[Hr|Hr]]; [left|by right; left|by right; right]. unfold sysA, rel. simpl. destruct relevant; [|done].
    rewrite elem_of_cons. intros [->|?]; [lia|done]. }
  destruct (prepare_and_add_change_ok (history_ (sys_w sys)) allowed ch o h' (wo_history _ _ _ H1) ltac:(lia) Eadd) as (_ & _ & Es & Ev).
  destruct (writer_add_change_ok (settled sysA) listener (sys_w sys) rp allowed ch (fun _ => relevant) o h') as (w' & rp' & E & W' & [Eg _] & Eh & El & _ & Esent & Hin & _);
    [by eapply writer_ok_history_grown|done|done|done| |].
  { intros ->. left. unfold sysA, rel. simpl. rewrite Es, Ev. intros Hin. rewrite list.Forall_forall in H10. apply H10 in Hin. lia. }
  rewrite E. cbn [mbind option_bind]. eexists _, rp'. split; [done|]. rewrite El. fold rel.
  set (sys' := mkSys w' _ _ _ _). assert (forall n, settled sysA n -> settled sys' n) as Hs by (intros n; unfold settled, received; simpl; by rewrite Eg).
  split; simpl; rewrite ?Eg, ?El; try done.
  - eapply writer_ok_history_grown; [exact W'|]. auto.
  - intros n Hk. apply Hs, Hgrow; [|by apply H8]. pose proof (known_bound p n (rr_inv _ _ _ H2) Hk). lia.
  - lia.
  - assert (Forall (fun n => 1 <= n <= last_of (sys_w sys) + 1) (relevant_ sys)) as Hall by (eapply list.Forall_impl; [exact H10|]; simpl; lia).
    pose proof (usable_range _ (ho_last _ (wo_history _ _ _ H1))). unfold rel. destruct relevant; [|done]. constructor; [lia|done].
  - eapply list.Forall_impl; [exact HX|]. intros n [Hn Hx]. split; [lia|]. rewrite Eh. intros [?| ->]%Hin; [done|lia].
  - by apply book_writer.
  - eapply list.Forall_impl; [exact H11|]. intros m Hm. eapply reply_ok_later; [exact Hm|lia|auto].
Qed.

Lemma sn_eqb_eq s1 s2 : sn_eqb s1 s2 = true -> s1 = s2.
Proof. destruct s1, s2. unfold sn_eqb. simpl. rewrite andb_true_iff, !Z.eqb_eq. by intros [-> ->]. Qed.

Lemma find_change_nts_found h s o : find_change_nts h s = Some o -> o ∈ m_changes h /\ out_seq o = s.
Proof. intros [Hin E%sn_eqb_eq]%find_some. by apply list_elem_of_In in Hin. Qed.

(** What the writer takes for acknowledged is not pending. *)
Lemma change_is_acked_spec exc w rp s : writer_ok exc w rp -> usable s -> change_is_acked rp s = true <-> pending rp (sn_val s) = None.
Proof.
  intros W Hu. pose proof (wo_rp _ _ _ W) as [Hlow [Hs Ha Hc] _ _]. unfold change_is_acked. rewrite sn_leb_val by auto.
  destruct (Z.leb_spec (sn_val s) (sn_val (changes_low_mark_ rp))) as [Hle|Hgt]; cbn [orb].
  { split; [|done]. intros _. by apply (status_of_above _ (changes_low_mark_ rp)). }
  unfold has_changes. destruct (changes_for_reader_ rp) as [|c l] eqn:El; [done|]. rewrite <- El in *. cbn [negb].
  pose proof (find_change_spec (changes_for_reader_ rp) s Hs Hc ltac:(auto)) as HF. pose proof (wo_noack _ _ _ W (sn_val s)) as Hna.
  destruct (find_change (changes_for_reader_ rp) s) as [[[a x] b]|]; [|by rewrite HF].
  destruct HF as [E Ex]. assert (pending rp (sn_val s) = Some (cfr_status x)) as Hst.
  { rewrite E in *. destruct (sorted_parts a (x :: b) Hs) as (_ & _ & Hlt). rewrite status_of_app, (proj2 (status_of_None a (sn_val s))).
    - simpl. by rewrite Ex, Z.eqb_refl.
    - intros Hin. specialize (Hlt _ (sn_val s) Hin). rewrite fmap_cons in Hlt. simpl in Hlt. rewrite Ex in Hlt. specialize (Hlt ltac:(by left)). lia. }
  rewrite Hst. split; [intros Hb%bool_decide_eq_true; congruence|done].
Qed.

Lemma remove_event_ok sys rp p s flow : sys_inv sys rp p ->
  exists sys' rp', step sys (EvRemove s flow) = Some sys' /\ sys_inv sys' rp' p.
Proof.
  intros I. cbn [sys_step]. pose proof I as [H1 H2 H3 H4 H5 H6 H7 H8 H9 H10 HX HB H11].
  assert (Hsame : mkSys (sys_w sys) (sys_r sys) (relevant_ sys) (dropped_ sys) (taken_ sys) = sys) by (by destruct sys).
  destruct (find_change_nts (history_ (sys_w sys)) s) as [o|] eqn:Ef.
  2:{ unfold remove_change. rewrite Ef. cbn [mbind option_bind andb]. rewrite Hsame. by exists sys, rp. }
  destruct (find_change_nts_found _ _ _ Ef) as [Ho Es]. pose proof (ho_usable _ (wo_history _ _ _ H1)) as Hus. rewrite list.Forall_forall in Hus.
  pose proof (Hus o Ho) as Hu. rewrite Es in Hu. pose proof (seqs_elem _ _ Ho) as Hin. rewrite Es in Hin. destruct flow.
  2:{ unfold remove_change. rewrite Ef. cbn [mbind option_bind change_removed_by_history andb]. rewrite Hsame. by exists sys, rp. }
  set (dr := if negb (acked_by_readers (sys_w sys) s) then sn_val s :: dropped_ sys else dropped_ sys).
  set (sysA := mkSys (sys_w sys) (sys_r sys) (relevant_ sys) dr (taken_ sys)).
  assert (Hgrow : forall n, settled sys n -> settled sysA n).
  { intros n [Hr|[Hr|Hr]]; [by left|by right; left|right; right]. unfold sysA, dr. simpl. destruct (negb _); [by right|done]. }
  pose proof (history_bounds _ _ (wo_history _ _ _ H1) Hin) as Hb.
  destruct (remove_change_ok (settled sysA) (sys_w sys) rp s) as (w' & rp' & E & W' & [Eg _] & Eh & El & _);
    [by eapply writer_ok_history_grown; [exact H1|auto]|done|done| |].
  { destruct (acked_by_readers (sys_w sys) s) eqn:Ea; [|right; right; unfold sysA, dr; simpl; left].
    apply Hgrow, (wo_settled _ _ _ H1); [lia|]. unfold acked_by_readers in Ea. rewrite (wo_readers _ _ _ H1) in Ea. simpl in Ea.
    apply andb_true_iff in Ea as [Ea _]. by eapply change_is_acked_spec. }
  rewrite E. cbn [mbind option_bind andb]. fold dr. eexists _, rp'. split; [done|]. set (sys' := mkSys w' _ _ _ _).
  assert (forall n, settled sysA n -> settled sys' n) as Hs by (intros n; unfold settled, received; simpl; by rewrite Eg).
  split; simpl; rewrite ?Eg, ?El; try done.
  - eapply writer_ok_history_grown; [exact W'|]. auto.
  - auto.
  - destruct (history_remove_ok (history_ (sys_w sys)) s (wo_history _ _ _ H1) ltac:(auto)) as (_ & Hi & _).
    assert (Forall (fun n => n <= last_of (sys_w sys) /\ ~ in_history (history_ w') n) (dropped_ sys)) as HX'.
    { eapply list.Forall_impl; [exact HX|]. intros n [Hn Hx]. split; [done|]. rewrite Eh. by intros [? _]%Hi. }
    unfold dr. destruct (negb _); [|done]. constructor; [|done]. split; [lia|]. rewrite Eh. by intros [_ ?]%Hi.
  - by apply book_writer.
  - eapply list.Forall_impl; [exact H11|]. intros m Hm. eapply reply_ok_later; [exact Hm|lia|auto].
Qed.

(** The events of the writer that write and remove nothing. *)
Lemma writer_event_ok sys rp p ev : sys_inv sys rp p ->
  match ev with EvSend _ _ _ | EvHeartbeat _ _ | EvNackResponse | EvNackSupression | EvWriterGets _ => True | _ => False end ->
  exists sys' rp', step sys ev = Some sys' /\ sys_inv sys' rp' p.
Proof.
  intros I Hev. pose proof (si_w _ _ _ I) as W.
  destruct ev as [| |i add used|final liveliness| | |i| | | | |]; try done; cbn [sys_step].
  - destruct (m_changes (history_ (sys_w sys)) !! i) as [o|] eqn:Eo; [|by exists sys, rp]. apply list_elem_of_lookup_2 in Eo.
    destruct (deliver_sample_ok (settled sys) add used listener (sys_w sys) rp o 0 W Eo) as (ret & w' & rp' & -> & A & _). simpl.
    eexists _, rp'. split; [done|]. by eapply writer_acted.
  - destruct (periodic_heartbeat_ok _ _ rp final liveliness W) as (b & w' & -> & S%only_sends_acts). simpl. eexists _, rp. split; [done|]. by eapply writer_acted.
  - destruct (nack_response_ok _ _ rp W) as (w' & rp' & -> & A & _). simpl. eexists _, rp'. split; [done|]. by eapply writer_acted.
  - destruct (nack_supression_ok _ _ rp reader_guid W) as (w' & rp' & -> & A & _). simpl. eexists _, rp'. split; [done|]. by eapply writer_acted.
  - destruct (sr_sent (sys_r sys) !! i) as [[g sns count final|]|] eqn:Em; [|by exists sys, rp..]. apply list_elem_of_lookup_2 in Em.
    pose proof (si_replies _ _ _ I) as Hre. rewrite list.Forall_forall in Hre. apply Hre in Em. simpl in Em.
    destruct (process_acknack_ok _ listener _ rp g reader_guid count sns final W Em) as (b & w' & rp' & -> & A & _). simpl. eexists _, rp'. split; [done|].
    by eapply writer_acted.
Qed.

(** *** The reader *)

(** A handler of the reader that sends nothing. *)
Lemma reader_silent sys rp p r' p' : sys_inv sys rp p -> reader_ok r' (m_guid (sys_w sys)) p' -> proxy_kept p p' ->
  same_reader_counts (sys_r sys) r' -> all_assembled (sr_history_ r') -> r_preallocated (sr_history_ r') = false ->
  (forall c, c ∈ r_changes (sr_history_ (sys_r sys)) -> c ∈ r_changes (sr_history_ r')) ->
  (forall n, known p' n -> known p n \/ settled (set_r sys r') n) -> sn_val (max_sequence_number_ p') <= last_of (sys_w sys) ->
  book (set_r sys r') p' -> sys_inv (set_r sys r') rp p'.
Proof.
  intros I Hr Hk (_ & _ & Es & _) Ha Hp Hin Hkn Hm Hb.
  assert (forall n, received sys n -> received (set_r sys r') n) as Hrec.
  { intros n (c & [Hc|Hc] & Hc'); exists c; (split; [|done]); [left; by apply Hin|by right]. }
  eapply reader_acted; [exact I|done|done|done|done|done| |done|done|].
  - intros n [Hn|Hn]%Hkn; [|done]. apply (si_known _ _ _ I) in Hn as [?|[?|?]]; [by left|right; left; by apply Hrec|by right; right].
  - rewrite Es. eapply replies_grown; [apply I|done|done|done].
Qed.

(** The history stays. *)
Lemma book_same_history sys p r' p' : book sys p -> wp_inv p -> wp_inv p' -> (forall n, known p n -> known p' n) ->
  noted (sys_r sys) (m_guid (sys_w sys)) p r' p' -> sr_history_ r' = sr_history_ (sys_r sys) -> book (set_r sys r') p'.
Proof.
  intros B W W' Hk Hno Eh. pose proof B as [B1 B2 B3 _ _ _]. apply (book_reader sys p); rewrite ?Eh; auto.
Qed.

(** A change is inserted where its number belongs. *)
Lemma insert_sorted_numbers g c l : in_writer c = g -> sn_ok (in_seq c) -> Forall (fun d => in_writer d = g) l -> Forall (fun d => sn_ok (in_seq d)) l ->
  StronglySorted Z.lt (numbers l) -> sn_val (in_seq c) ∉ numbers l -> StronglySorted Z.lt (numbers (insert_sorted c l)).
Proof.
  intros Hw Ho. induction l as [|d l IH]; intros Hg Hf Hs Hno; [repeat constructor|]. apply list.Forall_cons in Hg as [Hd Hg]. apply list.Forall_cons in Hf as [Hdo Hf].
  rewrite fmap_cons in Hs, Hno. simpl in Hno. rewrite elem_of_cons in Hno. pose proof Hs as Hs0. apply StronglySorted_inv in Hs as [Hs Hx]. simpl.
  unfold history_order_cmp. rewrite bool_decide_eq_true_2 by congruence. rewrite sn_ltb_val by done.
  destruct (Z.ltb_spec (sn_val (in_seq d)) (sn_val (in_seq c))) as [Hlt|Hge].
  - rewrite fmap_cons. constructor; [by apply IH; [| | |tauto]|]. apply list.Forall_forall. intros n (x & -> & [->|Hx']%insert_sorted_elem)%list_elem_of_fmap; [done|].
    rewrite list.Forall_forall in Hx. apply Hx. by apply (list_elem_of_fmap_2 (sn_val ∘ in_seq)).
  - rewrite !fmap_cons. constructor; [done|]. simpl in Hx |- *. constructor; [lia|]. eapply list.Forall_impl; [exact Hx|]. simpl. lia.
Qed.

Lemma sorted_insert_numbers g c l : in_writer c = g -> sn_ok (in_seq c) -> Forall (fun d => in_writer d = g) l -> Forall (fun d => sn_ok (in_seq d)) l ->
  StronglySorted Z.lt (numbers l) -> sn_val (in_seq c) ∉ numbers l -> StronglySorted Z.lt (numbers (sorted_vector_insert c l)).
Proof.
  intros Hw Ho Hg Hf Hs Hno. unfold sorted_vector_insert. destruct (list.last l) as [d|] eqn:El; [|apply last_None in El as ->; repeat constructor].
  destruct (history_order_cmp c d) eqn:Ecmp; [by eapply insert_sorted_numbers|]. apply last_Some in El as [k ->].
  apply Forall_app in Hg as [_ Hg]. apply list.Forall_cons in Hg as [Hd _]. apply Forall_app in Hf as [_ Hf]. apply list.Forall_cons in Hf as [Hdo _].
  unfold history_order_cmp in Ecmp. rewrite bool_decide_eq_true_2 in Ecmp by congruence. rewrite sn_ltb_val in Ecmp by done. apply Z.ltb_ge in Ecmp.
  assert (sn_val (in_seq c) <> sn_val (in_seq d)) as Hne by (intros E; apply Hno; rewrite E, fmap_app; apply elem_of_app; right; left).
  rewrite fmap_app. apply (sorted_below_above _ _ (sn_val (in_seq d))); [done|repeat constructor| |constructor; [simpl; lia|constructor]].
  apply list.Forall_forall. intros n Hn. rewrite fmap_app in Hs, Hn. apply list_elem_of_lookup_1 in Hn as [i Hi]. set (L := numbers k ++ numbers [d]) in *.
  assert (L !! length (numbers k) = Some (sn_val (in_seq d))) as Hlast by (unfold L; rewrite lookup_app_r by done; by rewrite Nat.sub_diag).
  destruct (Nat.lt_trichotomy i (length (numbers k))) as [Hlt|[->|Hgt]].
  - pose proof (sorted_lookup _ Hs i _ _ _ Hi Hlast Hlt). lia.
  - rewrite Hlast in Hi. injection Hi as <-. lia.
  - apply lookup_lt_Some in Hi. unfold L in Hi. rewrite length_app in Hi. simpl in Hi. lia.
Qed.

Lemma reader_data_ok sys rp p o inline rd time data room : sys_inv sys rp p -> DATA o inline rd ∈ sent_ (sys_w sys) ->
  exists b r' p', reader_gets (sys_r sys) (m_guid (sys_w sys)) (DATA o inline rd) time data room = Some (b, r') /\ sys_inv (set_r sys r') rp p'.
Proof.
  intros I Hm. pose proof I as [H1 H2 H3 H4 H5 H6 H7 H8 H9 H10 HX HB H11]. pose proof (wo_msgs _ _ _ H1) as Hms. rewrite list.Forall_forall in Hms.
  apply Hms in Hm as [Hu Hb]. cbn [reader_gets]. set (c := mkIn _ _ _ _ _).
  destruct (process_data_msg_spec (sys_r sys) (m_guid (sys_w sys)) p c room) as (b & r' & p' & -> & Hr & Hk%same_rest_kept & Hc & Hno & Hp & HD); [done..|].
  exists b, r', p'. split; [done|]. pose proof HB as [B1 B2 B3 _ _ _]. destruct (room && _) eqn:Eroom.
  - destruct HD as (El & Hin & Hkn & Em). apply andb_true_iff in Eroom as [_ Hnew]. apply negb_true_iff, bool_decide_eq_false in Hnew.
    eapply reader_silent; [done|done|done|done| |done| | | |].
    + apply list.Forall_forall. intros d [->|Hd]%Hin; [done|]. unfold all_assembled in H6. rewrite list.Forall_forall in H6. by apply H6.
    + intros d Hd. apply Hin. by right.
    + intros n [Hn|Hn]%Hkn; [by left|right]. right. left. exists c. split; [left; apply Hin; by left|by split].
    + rewrite Em. simpl. lia.
    + apply (book_reader sys p); [done|apply H2|apply Hr|intros n Hn; apply Hkn; by left|done| | | | |].
      * apply list.Forall_forall. intros d [->|Hd]%Hin; [done|]. rewrite list.Forall_forall in B1. by apply B1.
      * rewrite El. eapply sorted_insert_numbers; [done|simpl; auto|done| |done|].
        -- pose proof (rr_unread _ _ _ H2) as Hun. eapply list.Forall_impl; [exact Hun|]. by intros d [? _].
        -- intros (d & E & Hd)%list_elem_of_fmap. apply Hnew. simpl in E. change (sn_val (in_seq c)) with (sn_val (out_seq o)). rewrite E. by apply B3.
      * intros d [->|Hd]%Hin; apply Hkn; [by right|left; by apply B3].
      * intros n (d & Hd & Hd'). exists d. split; [apply Hin; by right|done].
      * intros n Hn (d & [->|Hd]%Hin & Hd' & <-); [destruct Hnew; left; done|by exists d].
  - destruct HD as [-> ->]. eapply reader_silent; [done|done|done|done|done|done|done|by left|done|]. by destruct sys.
Qed.

Lemma reader_gap_ok sys rp p s l rd : sys_inv sys rp p -> GAP s l rd ∈ sent_ (sys_w sys) ->
  exists b r' p', process_gap_msg (sys_r sys) (m_guid (sys_w sys)) s l = Some (b, r') /\ sys_inv (set_r sys r') rp p'.
Proof.
  intros I Hm. pose proof I as [H1 H2 H3 H4 H5 H6 H7 H8 H9 H10 HX HB H11]. pose proof (wo_msgs _ _ _ H1) as Hms. rewrite list.Forall_forall in Hms.
  apply Hms in Hm as [Hg Hd]. pose proof (wo_bound _ _ _ H1).
  destruct (process_gap_msg_spec (sys_r sys) (m_guid (sys_w sys)) p s l H2 Hg) as (r' & p' & -> & Hr & Hk%same_rest_kept & Hc & Hno & (_ & _ & Eh) & Hmax & Hkn).
  { intros n [Hn _]%Hd. lia. }
  exists true, r', p'. split; [done|]. specialize (Eh H6).
  assert (forall n, settled sys n -> settled (set_r sys r') n) as Hs by (intros n; unfold settled, received; simpl; by rewrite Eh).
  eapply reader_silent; [done|done|done|done|by rewrite Eh|by rewrite Eh|by rewrite Eh| | |].
  - intros n [Hn|Hn]%Hkn; [by left|right]. by apply Hs, Hd.
  - specialize (Hmax (last_of (sys_w sys)) ltac:(intros n Hn; by apply Hd)). lia.
  - apply (book_same_history sys p); [done|apply H2|apply Hr|intros n Hn; apply Hkn; by left|done|done].
Qed.

Lemma reader_heartbeat_ok sys rp p f l count final liveliness : sys_inv sys rp p -> HEARTBEAT f l count final liveliness ∈ sent_ (sys_w sys) ->
  exists b r' p', process_heartbeat_msg (sys_r sys) (m_guid (sys_w sys)) count f l final liveliness = Some (b, r') /\ sys_inv (set_r sys r') rp p'.
Proof.
  intros I Hm. pose proof I as [H1 H2 H3 H4 H5 H6 H7 H8 H9 H10 HX HB H11]. pose proof (wo_msgs _ _ _ H1) as Hms. rewrite list.Forall_forall in Hms.
  apply Hms in Hm as (Hf & Hl & Hf' & Hl' & Hex).
  destruct (process_heartbeat_msg_spec (sys_r sys) (m_guid (sys_w sys)) p count f l final liveliness H2 H6) as (r' & p' & -> & Hr & Hk & Hc & Eh & Hno & HD);
    [by rewrite H4|done|done|].
  exists true, r', p'. split; [done|].
  assert (forall n, settled sys n -> settled (set_r sys r') n) as Hs by (intros n; unfold settled, received; simpl; by rewrite Eh).
  eapply reader_silent; [done|done|done|done|by rewrite Eh|by rewrite Eh|by rewrite Eh| | |].
  - intros n. destruct (_ <? count); [|subst p'; by left]. destruct HD as [Hkn _]. intros [Hn|Hn]%Hkn; [by left|right]. auto.
  - destruct (_ <? count); [|by subst p']. destruct HD as (_ & Em & _). lia.
  - apply (book_same_history sys p); [done|apply H2|apply Hr| |done|done]. intros n Hn. destruct (_ <? count); [|by subst p']. apply HD. by left.
Qed.

Lemma acknack_of_ok sys rp p sns : sys_inv sys rp p -> acknack_of p sns -> ack_ok (settled sys) (last_of (sys_w sys)) sns.
Proof.
  intros I (Wf & Eb & Hh). pose proof (si_r _ _ _ I) as [_ _ Hp]. pose proof (wi_order _ Hp). pose proof (si_max _ _ _ I).
  split; [done|]. split; [lia|]. split; [intros n (_ & Hn & _)%Hh; lia|]. intros n Hn. apply (si_known _ _ _ I). left. lia.
Qed.

Lemma answer_ok sys rp p : sys_inv sys rp p ->
  exists r' p', answer_heartbeat 0 (sys_r sys) (m_guid (sys_w sys)) = Some r' /\ sys_inv (set_r sys r') rp p'.
Proof.
  intros I. pose proof I as [H1 H2 H3 H4 [H5 H5'] H6 H7 H8 H9 H10 HX HB H11].
  destruct (answer_heartbeat_spec 0 (sys_r sys) (m_guid (sys_w sys)) p H2 H6 H5' H4) as (r' & p' & -> & Hr & Hk & Eh & (N1 & N2 & N3 & N4) & [_ Eno] & _ & HD).
  exists r', p'. split; [done|]. assert (forall n, received sys n -> received (set_r sys r') n) as Hrec by (intros n; unfold received; simpl; by rewrite Eh).
  assert (forall n, settled sys n -> settled (set_r sys r') n) as Hs by (intros n [?|[?|?]]; [by left|right; left; auto|by right; right]).
  eapply reader_acted; [exact I|done|done|by rewrite Eh|by rewrite Eh|done| | | |].
  - intros n Hn. apply Hs, H8. unfold known in *. by rewrite N1, N2 in Hn.
  - by rewrite N3.
  - apply (book_same_history sys p); [done|apply H2|apply Hr|intros n; unfold known; by rewrite N1, N2|by apply noted_nothing|done].
  - destruct HD as [(-> & _)|(sns & fin & -> & Hsns & _)]; [by eapply replies_grown|].
    apply Forall_app. split; [by eapply replies_grown|]. constructor; [|constructor].
    apply (reply_ok_later (settled sys) _ (last_of (sys_w sys))); [|lia|auto]. simpl. by eapply acknack_of_ok.
Qed.

Lemma initial_ok sys rp p : sys_inv sys rp p ->
  exists p', sys_inv (set_r sys (answer_initial_acknack (sys_r sys) (m_guid (sys_w sys))).2) rp p'.
Proof.
  intros I. pose proof I as [H1 H2 H3 H4 [H5 H5'] H6 H7 H8 H9 H10 HX HB H11].
  destruct (answer_initial_spec (sys_r sys) (m_guid (sys_w sys)) p H2 H5' H5 H4) as (p' & Hr & Hk & Eh & (N1 & N2 & N3 & N4) & [_ Eno] & _ & HD).
  set (r' := (answer_initial_acknack _ _).2) in *. exists p'.
  assert (forall n, received sys n -> received (set_r sys r') n) as Hrec by (intros n; unfold received; simpl; by rewrite Eh).
  assert (forall n, settled sys n -> settled (set_r sys r') n) as Hs by (intros n [?|[?|?]]; [by left|right; left; auto|by right; right]).
  eapply reader_acted; [exact I|done|done|by rewrite Eh|by rewrite Eh|done| | | |].
  - intros n Hn. apply Hs, H8. unfold known in *. by rewrite N1, N2 in Hn.
  - by rewrite N3.
  - apply (book_same_history sys p); [done|apply H2|apply Hr|intros n; unfold known; by rewrite N1, N2|by apply noted_nothing|done].
  - destruct HD as [(-> & _)|(-> & _)]; [by eapply replies_grown|].
    apply Forall_app. split; [by eapply replies_grown|]. constructor; [|constructor]. simpl.
    destruct (range_of_spec (mkSN 0 0) 255) as (Wn & Hn0 & Xn); [done|done|lia|]. change (range_of (mkSN 0 0) 255) with (range_new (mkSN 0 0)) in *.
    pose proof (usable_range _ (ho_last _ (wo_history _ _ _ H1))).
    split; [done|]. split; [change (0 <= last_of (sys_w sys) + 1); lia|]. split; [intros n; by rewrite Hn0|]. simpl. intros n Hn. left. simpl. intros Hin.
    rewrite list.Forall_forall in H10. apply H10 in Hin. change (sn_val (mkSN 0 0)) with 0 in Hn. lia.
Qed.

Lemma delete_elem {A} (l : list A) i x c : l !! i = Some x -> c ∈ l -> c = x \/ c ∈ delete i l.
Proof.
  intros Hi (j & Hj)%list_elem_of_lookup_1. destruct (Nat.eq_dec i j) as [->|Hne]; [left; congruence|right].
  apply list_elem_of_lookup_2 with (i := if (j <? i)%nat then j else pred j). destruct (Nat.ltb_spec j i); [by rewrite list_lookup_delete_lt|].
  rewrite list_lookup_delete_ge by lia. by replace (S (pred j)) with j by lia.
Qed.

Lemma delete_sub {A} (l : list A) (i : nat) c : c ∈ delete i l -> c ∈ l.
Proof.
  revert i. induction l as [|x l IH]; intros [|i]; simpl; [done|done|by right|]. rewrite !elem_of_cons. intros [?|?]; [by left|right; by eapply IH].
Qed.

(** The change is available. *)
Lemma not_future sys rp p c : sys_inv sys rp p -> c ∈ r_changes (sr_history_ (sys_r sys)) -> is_future_change (sys_r sys) c = false -> sn_val (in_seq c) <= low_of p.
Proof.
  intros I Hc. pose proof (si_r _ _ _ I) as [Ha Hp W _ Hun]. pose proof (si_book _ _ _ I) as [B1 _ _ _ _ _]. rewrite list.Forall_forall in B1.
  unfold unread_beyond in Hun. rewrite list.Forall_forall in Hun. destruct (Hun c Hc) as [Ho _].
  unfold is_future_change, matched_writer_lookup. rewrite Ha, (B1 c Hc). unfold acceptMsgFrom in Hp. rewrite Hp. unfold available_changes_max.
  rewrite sn_ltb_val by (auto; apply usable_ok, W). intros Hlt%Z.ltb_ge. done.
Qed.

Lemma read_ok sys rp p i c : sys_inv sys rp p -> r_changes (sr_history_ (sys_r sys)) !! i = Some c -> is_future_change (sys_r sys) c = false ->
  sys_inv (set_r sys (end_sample_access_nts (sys_r sys) i true)) rp p.
Proof.
  intros I Hi Hf. pose proof I as [H1 H2 H3 H4 H5 H6 H7 H8 H9 H10 HX HB H11]. pose proof (list_elem_of_lookup_2 _ _ _ Hi) as Hc.
  pose proof (not_future sys rp p c I Hc Hf) as Hle. unfold end_sample_access_nts. rewrite Hi. cbn [andb].
  destruct (in_read c) eqn:Erd; cbn [negb]; [by destruct sys|].
  set (c' := mkIn _ _ _ _ true). set (h' := set_r_changes _ _ _). set (r1 := sr_set_history _ _).
  set (r' := if 0 <? total_unread_ r1 then _ else r1).
  assert (acceptMsgFrom r' (m_guid (sys_w sys)) = Some p /\ sr_alive r' = true /\ sr_history_ r' = h' /\ same_reader_counts (sys_r sys) r' /\ sr_notified r' = sr_notified (sys_r sys)) as (Hp & Ha & Eh & Hcnt & Eno).
  { destruct H2 as [A1 A2 _ _ _]. unfold r'. by destruct (0 <? total_unread_ r1). }
  clearbody r'. pose proof H2 as [_ _ W Hln Hun]. pose proof HB as [B1 B2 B3 B4 B5 B6].
  assert (Hsub : forall d, d ∈ r_changes h' -> d = c' \/ d ∈ r_changes (sr_history_ (sys_r sys))).
  { intros d (j & Hj)%list_elem_of_lookup_1. simpl in Hj. destruct (Nat.eq_dec i j) as [->|Hne].
    - rewrite list_lookup_insert_eq in Hj by (by apply lookup_lt_Some in Hi). injection Hj as <-. by left.
    - rewrite list_lookup_insert_ne in Hj by done. right. by eapply list_elem_of_lookup_2. }
  assert (Hsup : forall d, d ∈ r_changes (sr_history_ (sys_r sys)) -> exists d', d' ∈ r_changes h' /\ in_writer d' = in_writer d /\ in_seq d' = in_seq d).
  { intros d (j & Hj)%list_elem_of_lookup_1. destruct (Nat.eq_dec i j) as [->|Hne].
    - rewrite Hj in Hi. injection Hi as ->. exists c'. split; [|done]. apply list_elem_of_lookup_2 with (i := j). simpl.
      apply list_lookup_insert_eq. by apply lookup_lt_Some in Hj.
    - exists d. split; [|done]. apply list_elem_of_lookup_2 with (i := j). simpl. by rewrite list_lookup_insert_ne. }
  assert (Hnum : numbers (r_changes h') = numbers (r_changes (sr_history_ (sys_r sys)))).
  { simpl. rewrite list_fmap_insert. apply list_insert_id. rewrite list_lookup_fmap, Hi. done. }
  assert (forall n, received sys n <-> received (set_r sys r') n) as Hrec.
  { intros n. unfold received. simpl. rewrite Eh. split; intros (d & [Hd|Hd] & Hw & Hn); [|by exists d; split; [right|]| |by exists d; split; [right|]].
    - destruct (Hsup d Hd) as (d' & Hd' & E1 & E2). exists d'. split; [by left|]. by rewrite E1, E2.
    - destruct (Hsub d Hd) as [->|Hd']; [exists c|exists d]; (split; [by left|done]). }
  apply (reader_acted sys rp p); [done| |by repeat split| |by rewrite Eh|by apply Hrec| |done| |].
  - split; [done|done|done|done|]. rewrite Eh. unfold unread_beyond in *. rewrite list.Forall_forall in Hun |- *.
    intros d [->|Hd]%Hsub; [|by apply Hun]. split; [by apply (Hun c)|]. simpl. lia.
  - rewrite Eh. unfold all_assembled in *. rewrite list.Forall_forall in H6 |- *. intros d [->|Hd]%Hsub; [|by apply H6]. by apply (H6 c).
  - intros n Hn. apply H8 in Hn as [?|[?|?]]; [by left|right; left; by apply Hrec|by right; right].
  - split; simpl; rewrite ?Eh, ?Eno, ?Hnum; try done.
    + rewrite list.Forall_forall in B1 |- *. intros d [->|Hd]%Hsub; [by apply (B1 c)|by apply B1].
    + intros d [->|Hd]%Hsub; [by apply (B3 c)|by apply B3].
    + intros n. rewrite B6. by rewrite Hrec.
  - destruct Hcnt as (_ & _ & -> & _). eapply replies_grown; [done|done|done|by intros n ?%Hrec].
Qed.

Lemma sorted_delete (l : list Z) i : StronglySorted Z.lt l -> StronglySorted Z.lt (delete i l).
Proof.
  intros Hs. revert i. induction Hs as [|x l Hs IH Hx]; intros [|i]; simpl; [constructor|constructor|done|]. constructor; [done|]. by apply Forall_delete.
Qed.

Lemma fmap_delete {A B} (f : A -> B) (l : list A) (i : nat) : f <$> delete i l = delete i (f <$> l).
Proof. revert i. induction l as [|x l IH]; intros [|i]; simpl; [done|done|done|]. by rewrite IH. Qed.

Lemma take_ok sys rp p i c : sys_inv sys rp p -> r_changes (sr_history_ (sys_r sys)) !! i = Some c -> is_future_change (sys_r sys) c = false ->
  sys_inv (mkSys (sys_w sys) (reader_remove_change (sys_r sys) i) (relevant_ sys) (dropped_ sys) (c :: taken_ sys)) rp p.
Proof.
  intros I Hi Hf. pose proof I as [H1 H2 H3 H4 H5 H6 H7 H8 H9 H10 HX HB H11]. unfold reader_remove_change. rewrite Hi.
  pose proof (list_elem_of_lookup_2 _ _ _ Hi) as Hci. pose proof (not_future sys rp p c I Hci Hf) as Hle.
  assert (assembled c = true) as Hc by (unfold all_assembled in H6; rewrite list.Forall_forall in H6; by apply H6).
  unfold reader_change_removed. simpl. rewrite (rr_alive _ _ _ H2), Hc. set (r1 := sr_set_history _ _).
  match goal with |- context [mkSys _ (if ?b then ?x else ?y)] => set (r' := if b then x else y) end.
  assert (acceptMsgFrom r' (m_guid (sys_w sys)) = Some p /\ sr_alive r' = true /\ sr_history_ r' = remove_at (sr_history_ (sys_r sys)) i /\
    sr_sent r' = sr_sent (sys_r sys) /\ sr_notified r' = sr_notified (sys_r sys)) as (Hp & Ha & Eh & Es & Eno).
  { destruct H2 as [A1 A2 _ _ _]. unfold r'. by match goal with |- context [if ?b then _ else _] => destruct b end. }
  clearbody r'. assert (Hin : forall d, d ∈ r_changes (sr_history_ (sys_r sys)) -> d = c \/ d ∈ r_changes (sr_history_ r')).
  { intros d Hd. rewrite Eh. simpl. by eapply delete_elem. }
  assert (Hsub : forall d, d ∈ r_changes (sr_history_ r') -> d ∈ r_changes (sr_history_ (sys_r sys))).
  { intros d. rewrite Eh. simpl. apply delete_sub. }
  set (sys' := mkSys _ r' _ _ _). pose proof HB as [B1 B2 B3 B4 B5 B6]. assert (forall n, received sys n <-> received sys' n) as Hrec.
  { intros n. split; intros (d & [Hd|Hd] & Hd').
    - exists d. split; [|done]. simpl. apply Hin in Hd as [->|Hd]; [right; left|by left].
    - exists d. split; [|done]. right. by right.
    - exists d. split; [|done]. left. by apply Hsub.
    - simpl in Hd. apply elem_of_cons in Hd as [->|Hd]; [exists c|exists d]; (split; [|done]); [by left|by right]. }
  apply (reader_acted sys rp p); [done| |by repeat split| |by rewrite Eh|by intros n ?%Hrec| |done| |].
  - destruct H2 as [_ _ W Hln Hun]. split; [done|done|done|done|]. by eapply unread_beyond_sub.
  - rewrite Eh. unfold all_assembled. simpl. by apply Forall_delete.
  - intros n Hn. apply H8 in Hn as [?|[?|?]]; [by left|right; left; by apply Hrec|by right; right].
  - split; simpl; rewrite ?Eno; try done.
    + rewrite list.Forall_forall in B1 |- *. auto.
    + rewrite Eh. simpl. rewrite fmap_delete. by apply sorted_delete.
    + auto.
    + by constructor.
    + intros n. rewrite B6. by rewrite Hrec.
  - rewrite Es. eapply replies_grown; [done|done|done|by intros n ?%Hrec].
Qed.

(** No handler fails, and the invariant is kept. *)
Lemma step_ok sys rp p ev : sys_inv sys rp p -> exists sys' rp' p', step sys ev = Some sys' /\ sys_inv sys' rp' p'.
Proof.
  intros I. destruct ev as [allowed ch relevant|s flow| | | | |i|i time data room| | |i|i].
  3-7: by edestruct (writer_event_ok sys rp p) as (sys' & rp' & E & I'); [exact I| |exists sys', rp', p; split; [exact E|exact I']].
  - destruct (write_ok sys rp p allowed ch relevant I) as (sys' & rp' & ? & ?). by exists sys', rp', p.
  - destruct (remove_event_ok sys rp p s flow I) as (sys' & rp' & ? & ?). by exists sys', rp', p.
  - cbn [sys_step]. destruct (sent_ (sys_w sys) !! i) as [m|] eqn:Em; [|by exists sys, rp, p]. apply list_elem_of_lookup_2 in Em.
    assert (exists b r' p', reader_gets (sys_r sys) (m_guid (sys_w sys)) m time data room = Some (b, r') /\ sys_inv (set_r sys r') rp p') as (b & r' & p' & -> & I').
    { destruct m as [o inline rd|o f inline rd|s l rd|f l count final live].
      - by apply (reader_data_ok _ _ p).
      - pose proof (wo_msgs _ _ _ (si_w _ _ _ I)) as Hms. rewrite list.Forall_forall in Hms. by apply Hms in Em.
      - by apply (reader_gap_ok _ _ p _ _ rd).
      - by apply (reader_heartbeat_ok _ _ p). }
    simpl. by eexists _, rp, p'.
  - cbn [sys_step]. destruct (answer_ok sys rp p I) as (r' & p' & -> & I'). simpl. by eexists _, rp, p'.
  - cbn [sys_step]. destruct (initial_ok sys rp p I) as (p' & I'). by eexists _, rp, p'.
  - cbn [sys_step]. destruct (r_changes (sr_history_ (sys_r sys)) !! i) as [c|] eqn:Ec; [|by exists sys, rp, p].
    destruct (is_future_change (sys_r sys) c) eqn:Ef; [by exists sys, rp, p|]. eexists _, rp, p. split; [done|]. by eapply read_ok.
  - cbn [sys_step]. destruct (r_changes (sr_history_ (sys_r sys)) !! i) as [c|] eqn:Ec; [|by exists sys, rp, p].
    destruct (is_future_change (sys_r sys) c) eqn:Ef; [by exists sys, rp, p|]. eexists _, rp, p. split; [done|]. by apply take_ok.
Qed.

Lemma run_ok evs : forall sys rp p, sys_inv sys rp p -> exists sys' rp' p', sys_run listener reader_guid sys evs = Some sys' /\ sys_inv sys' rp' p'.
Proof.
  induction evs as [|ev evs IH]; intros sys rp p I; cbn [sys_run]; [by exists sys, rp, p|].
  destruct (step_ok sys rp p ev I) as (sys1 & rp1 & p1 & -> & I1). cbn [mbind option_bind]. by apply (IH sys1 rp1 p1).
Qed.
End Steps.

(** ** The start *)

(** The reader is added to a writer that has written nothing. *)
Lemma first_match a ns now guid dur iq npa :
  exists rp, add_reader (StatefulWriter_new a now) (ReaderProxy_new ns now) (mkReaderData guid false false dur iq true npa) (fun _ => true) =
    Some (rp, set_logs (StatefulWriter_new a now) 1 [HEARTBEAT (mkSN 0 1) (mkSN 0 0) 1 (wa_disable_positive_acks a) false] [] []) /\
    remote_guid_ rp = guid /\ is_remote_and_reliable rp = true /\ timers_enabled_ rp = true /\ changes_for_reader_ rp = [] /\ changes_low_mark_ rp = mkSN 0 0.
Proof. destruct dur; vm_compute; eexists; (split; [reflexivity|done]). Qed.

Lemma sys_init_ok a d ns rd ad now nopos : remote_pair a d ->
  exists sys rp p, sys_init a d ns rd ad now nopos = Some sys /\ sys_inv sys rp p /\ remote_guid_ rp = rd_guid d.
Proof.
  intros (_ & Ha & Hd & Hl & Hs & Hr). destruct d as [guid lo ds dur iq rel npa]. simpl in *. subst.
  unfold sys_init, matched_reader_add_edp. simpl rd_guid. rewrite bool_decide_eq_false_2 by done. cbn [StatefulWriter_new matched_remote_readers_ find_reader].
  destruct (first_match a ns now guid dur iq npa) as (rp & -> & E1 & E2 & E3 & E4 & E5).
  cbn [mbind option_bind]. unfold matched_writer_add_edp. cbn [StatefulReader_new sr_alive negb matched_writers_ existsb app].
  set (w := set_readers _ _). set (p := start _ _ _ _ _ _). set (r := sr_set_writers _ _).
  exists (mkSys w r [] [] []), rp, p. split; [done|]. split; [|done].
  assert (forall n, settled (mkSys w r [] [] []) n) as Hall by (intros n; left; apply not_elem_of_nil).
  split; try done.
  - split; try done.
    + split; simpl; [constructor|constructor|by vm_compute|constructor].
    + split; simpl; rewrite ?E4, ?E5; [by vm_compute|split; constructor|constructor|by vm_compute].
    + intros n. by rewrite E4.
    + constructor; [|constructor]. simpl. split; [by vm_compute|]. split; [by vm_compute|]. split; [by vm_compute|]. split; [by vm_compute|]. done.
  - split; [done| | |done|constructor].
    + unfold acceptMsgFrom. simpl. by rewrite bool_decide_eq_true_2.
    + split; simpl; try done; by constructor.
  - constructor.
  - split; simpl; [constructor|constructor|by intros c ?%elem_of_nil|constructor|constructor|]. intros n. rewrite elem_of_nil. split; [done|].
    intros [(c & [Hc|Hc] & _) _]; by apply elem_of_nil in Hc.
Qed.
