(* ===== verification/Reliability.v ===== *)
(** * What the protocol guarantees

    The theorems about every run of a writer and a reader: no handler fails; what
    the writer takes for acknowledged has been received; what the reader takes for
    settled has been received, was filtered out, or was removed before it was
    acknowledged; and the listener is told about the samples in order and once. *)

From Stdlib Require Import Sorted.
From S2P Require Import Prelude FastBuffer SequenceNumber BitmapRange RangeSpec TimedEvent WriterProxy WriterProxyInv ParameterList CdrMessage Fragments.
From S2P Require Import GapBuilder WriterHistory ChangeForReader ReaderProxy ReaderProxyInv ReaderProxyLaws StatefulWriter Delivery.
From S2P Require Import ReaderHistory StatefulReader StatefulReaderLaws StatefulWriterLaws.
From S2P Require Import System SystemInv.

Implicit Types (w : StatefulWriter) (r : StatefulReader) (rp : ReaderProxy) (p : WriterProxy) (s : SequenceNumber_t) (g : GUID_t).
Implicit Types (sys : System).

(** ** What a run guarantees *)

Section Guarantees.
Context `{P : Platform} (listener : Listener) (a : WriterAttributes) (d : ReaderData) (ns rd ad now : Z) (nopos : bool) (evs : list Event).
Context (Hpair : remote_pair a d).

(** A state that a run reaches. *)
Definition reached sys : Prop :=
  exists sys0, sys_init a d ns rd ad now nopos = Some sys0 /\ sys_run listener (rd_guid d) sys0 evs = Some sys.

Lemma reached_inv sys : reached sys -> exists rp p, sys_inv sys rp p.
Proof.
  intros (sys0 & E0 & E). destruct (sys_init_ok a d ns rd ad now nopos Hpair) as (sys1 & rp & p & E1 & I & _). rewrite E1 in E0. injection E0 as <-.
  destruct (run_ok listener (rd_guid d) evs sys1 rp p I) as (sys2 & rp2 & p2 & E2 & I2). rewrite E2 in E. injection E as <-. by exists rp2, p2.
Qed.

(** C4: Whatever is written, removed, lost, duplicated or reordered, no handler of
    the writer or the reader fails an assertion or runs without end, when the
    samples are sent in one message each and the writer has a place to send to:
    without locators the delivery of a sample does run without end
    ([ProtocolLimits.delivery_without_locators_spins]). *)
Theorem no_handler_fails : exists sys, reached sys.
Proof.
  destruct (sys_init_ok a d ns rd ad now nopos Hpair) as (sys1 & rp & p & E1 & I & _).
  destruct (run_ok listener (rd_guid d) evs sys1 rp p I) as (sys2 & rp2 & p2 & E2 & I2). exists sys2, sys1. done.
Qed.

(** C2: A change of the writer's history that its reader counts as having
    acknowledged, and that the reader's filter lets pass, has been received. *)
Theorem acknowledged_is_received sys s :
  reached sys -> usable s -> in_history (history_ (sys_w sys)) (sn_val s) -> acked_by_readers (sys_w sys) s = true ->
  sn_val s ∈ relevant_ sys -> received sys (sn_val s).
Proof.
  intros (rp & p & I)%reached_inv Hu Hin Hack Hrel. pose proof (si_w _ _ _ I) as W. unfold acked_by_readers in Hack.
  rewrite (wo_readers _ _ _ W) in Hack. simpl in Hack. apply andb_true_iff in Hack as [Hack _]. apply (change_is_acked_spec _ _ _ _ W Hu) in Hack.
  pose proof (history_bounds _ _ (wo_history _ _ _ W) Hin). destruct (wo_settled _ _ _ W (sn_val s)) as [?|[?|Hd]]; [lia|done|done|done|].
  pose proof (si_dropped _ _ _ I) as HX. rewrite list.Forall_forall in HX. by destruct (HX _ Hd) as [_ []].
Qed.

(** When the writer finds that all the readers are up to date, which is what
    waiting for acknowledgements waits for, every sample that the filter lets pass
    has been received, unless it was removed from the history before. *)
Theorem updated_means_received sys n :
  reached sys -> all_readers_updated (sys_w sys) = true -> n ∈ relevant_ sys -> received sys n \/ n ∈ dropped_ sys.
Proof.
  intros (rp & p & I)%reached_inv Hup Hrel. pose proof (si_w _ _ _ I) as W. unfold all_readers_updated in Hup. rewrite (wo_readers _ _ _ W) in Hup.
  unfold has_changes in Hup. simpl in Hup. destruct (changes_for_reader_ rp) eqn:El; [|done]. pose proof (si_relevant _ _ _ I) as HR.
  rewrite list.Forall_forall in HR. specialize (HR n Hrel). destruct (wo_settled _ _ _ W n) as [?|[?|?]]; [lia|by rewrite El|done|by left|by right].
Qed.

(** C1: No sample is skipped: of the numbers up to the one the reader calls
    available, each one that the filter lets pass has been received, unless the
    writer removed it before the reader had acknowledged it. *)
Theorem nothing_is_skipped sys p n :
  reached sys -> acceptMsgFrom (sys_r sys) (m_guid (sys_w sys)) = Some p -> n <= sn_val (available_changes_max p) ->
  n ∈ relevant_ sys -> received sys n \/ n ∈ dropped_ sys.
Proof.
  intros (rp & p' & I)%reached_inv Hp Hn Hrel. pose proof (si_r _ _ _ I) as [_ Hp' _ _ _]. rewrite Hp in Hp'. injection Hp' as <-.
  destruct (si_known _ _ _ I n) as [?|[?|?]]; [by left|done|by left|by right].
Qed.

(** C3: The listener of the reader is told about the available samples that have
    been received, about each one once and in the order in which they were written. *)
Theorem listener_told_in_order sys p :
  reached sys -> acceptMsgFrom (sys_r sys) (m_guid (sys_w sys)) = Some p ->
  StronglySorted Z.lt (told_numbers (sys_r sys)) /\
  forall n, n ∈ told_numbers (sys_r sys) <-> received sys n /\ n <= sn_val (available_changes_max p).
Proof.
  intros (rp & p' & I)%reached_inv Hp. pose proof (si_r _ _ _ I) as [_ Hp' _ _ _]. rewrite Hp in Hp'. injection Hp' as <-.
  pose proof (si_book _ _ _ I) as [_ _ _ _ B5 B6]. by split.
Qed.
End Guarantees.

(** ** A run *)

Definition sample_writer : WriterAttributes := mkWA guid_a true false false false VOLATILE 3000000 5000 false 0 0.
Definition sample_reader : ReaderData := mkReaderData guid_b false false VOLATILE false true false.
Definition sample_init : System :=
  default (mkSys (StatefulWriter_new sample_writer 0) (StatefulReader_new false) [] [] []) (sys_init sample_writer sample_reader 0 5000 70000 0 false).

Definition write_one : Event := EvWrite 65000 (mkNew true 10 0 false false) true.
Definition send_one (i : nat) : Event := EvSend i (fun _ _ => Added) (fun _ => false).
Definition reader_gets_one (i : nat) : Event := EvReaderGets i 0 [] true.

(** Three samples are written and sent, the second one gets lost; the reader asks
    for it in answer to a heartbeat. *)
Definition sample_loss : list Event :=
  [write_one; write_one; write_one; send_one 0; send_one 1; send_one 2; reader_gets_one 0; reader_gets_one 3; reader_gets_one 1; reader_gets_one 1;
   EvNackSupression; EvHeartbeat false false; reader_gets_one 4; EvAnswer; EvWriterGets 0].
(** The writer sends it again, and the reader acknowledges everything. *)
Definition sample_repair : list Event :=
  sample_loss ++ [EvNackResponse; send_one 1; reader_gets_one 5; EvNackSupression; EvHeartbeat false false; reader_gets_one 6; EvAnswer; EvWriterGets 1].

Definition sample_after (evs : list Event) : System := default sample_init (sys_run (P := host) None guid_b sample_init evs).

Lemma sample_pair : remote_pair sample_writer sample_reader.
Proof. by repeat split. Qed.

Notation sample_reached evs := (reached (P := host) None sample_writer sample_reader 0 5000 70000 0 false evs).

Lemma sample_loss_reached : sample_reached sample_loss (sample_after sample_loss).
Proof. exists sample_init. split; vm_compute; reflexivity. Qed.
Lemma sample_repair_reached : sample_reached sample_repair (sample_after sample_repair).
Proof. exists sample_init. split; vm_compute; reflexivity. Qed.

Lemma no_handler_fails_witness : exists sys, sample_reached sample_repair sys.
Proof. apply no_handler_fails. exact sample_pair. Defined.

(** The first sample is acknowledged and in the history of the writer, the second
    one is not. *)
Lemma acknowledged_is_received_witness :
  acked_by_readers (sys_w (sample_after sample_loss)) (mkSN 0 2) = false /\ received (sample_after sample_loss) (sn_val (mkSN 0 1)).
Proof.
  split; [vm_compute; reflexivity|].
  apply (acknowledged_is_received (P := host) None sample_writer sample_reader 0 5000 70000 0 false sample_loss sample_pair _ _ sample_loss_reached).
  - split; [split|]; vm_compute; done.
  - vm_compute. repeat constructor.
  - vm_compute. reflexivity.
  - vm_compute. repeat constructor.
Defined.

Lemma updated_means_received_witness :
  all_readers_updated (sys_w (sample_after sample_loss)) = false /\
  (received (sample_after sample_repair) 2 \/ 2 ∈ dropped_ (sample_after sample_repair)).
Proof.
  split; [vm_compute; reflexivity|].
  apply (updated_means_received (P := host) None sample_writer sample_reader 0 5000 70000 0 false sample_repair sample_pair _ _ sample_repair_reached).
  - vm_compute. reflexivity.
  - vm_compute. repeat constructor.
Defined.

(** The third sample, which came before the second one, is told after it. *)
Lemma listener_told_in_order_witness :
  told_numbers (sys_r (sample_after sample_loss)) = [1] /\ told_numbers (sys_r (sample_after sample_repair)) = [1; 2; 3] /\
  StronglySorted Z.lt (told_numbers (sys_r (sample_after sample_repair))).
Proof.
  split; [vm_compute; reflexivity|]. split; [vm_compute; reflexivity|].
  destruct (acceptMsgFrom (sys_r (sample_after sample_repair)) guid_a) as [p|] eqn:E; [|vm_compute in E; discriminate E].
  apply (listener_told_in_order (P := host) None sample_writer sample_reader 0 5000 70000 0 false sample_repair sample_pair _ p sample_repair_reached).
  replace (m_guid (sys_w (sample_after sample_repair))) with guid_a by (vm_compute; reflexivity). exact E.
Defined.

Lemma nothing_is_skipped_witness :
  exists p, acceptMsgFrom (sys_r (sample_after sample_repair)) guid_a = Some p /\ sn_val (available_changes_max p) = 3 /\
    (received (sample_after sample_repair) 3 \/ 3 ∈ dropped_ (sample_after sample_repair)).
Proof.
  destruct (acceptMsgFrom (sys_r (sample_after sample_repair)) guid_a) as [p|] eqn:E; [|vm_compute in E; discriminate E].
  exists p. split; [reflexivity|]. assert (sn_val (available_changes_max p) = 3) as Hm by (vm_compute in E; injection E as <-; vm_compute; reflexivity).
  split; [exact Hm|].
  apply (nothing_is_skipped (P := host) None sample_writer sample_reader 0 5000 70000 0 false sample_repair sample_pair _ p 3 sample_repair_reached).
  - replace (m_guid (sys_w (sample_after sample_repair))) with guid_a by (vm_compute; reflexivity). exact E.
  - rewrite Hm. vm_compute. discriminate.
  - vm_compute. repeat constructor.
Defined.
