(* ===== verification/Heartbeats.v ===== *)
(** * How often a writer beats

    The HEARTBEAT messages that a writer has sent, their counters, and how many of
    them an operation sends at most: the counter of the writer is their number, so
    counters grow from message to message until the 32 bits are used up. *)

From S2P Require Import Prelude SequenceNumber BitmapRange TimedEvent ParameterList GapBuilder.
From S2P Require Import WriterHistory ChangeForReader ReaderProxy StatefulWriter Delivery.

Implicit Types (w : StatefulWriter) (rp : ReaderProxy) (s : SequenceNumber_t) (o : OutChange).

Definition is_beat (m : Submessage) : bool := match m with HEARTBEAT _ _ _ _ _ => true | _ => false end.

Fixpoint beats (l : list Submessage) : Z := match l with [] => 0 | m :: l => (if is_beat m then 1 else 0) + beats l end.

Lemma beats_app a b : beats (a ++ b) = beats a + beats b.
Proof. induction a as [|m a IH]; simpl; [done|]. rewrite IH. lia. Qed.
Lemma beats_nonneg l : 0 <= beats l.
Proof. induction l as [|m l IH]; simpl; [done|]. destruct (is_beat m); lia. Qed.

Definition beat_below (n : Z) (m : Submessage) : Prop := match m with HEARTBEAT _ _ c _ _ => c <= n | _ => True end.

(** The counter of the writer is the number of heartbeats, and no heartbeat has a
    larger one, as long as there are fewer of them than counters. *)
Definition beat_inv w : Prop :=
  heartbeat_count_ w = u32 (beats (sent_ w)) /\ (beats (sent_ w) < 2 ^ 32 -> Forall (beat_below (beats (sent_ w))) (sent_ w)).

(** An operation that sends at most [k] heartbeats. *)
Definition counts (k : Z) w w' : Prop :=
  writer_disable_positive_acks_ w' = writer_disable_positive_acks_ w /\ (exists ms, sent_ w' = sent_ w ++ ms /\ beats ms <= k) /\
  (beat_inv w -> beat_inv w').

Lemma counts_more k k' w w' : counts k w w' -> k <= k' -> counts k' w w'.
Proof. intros (A & (ms & B & C) & D) Hk. split; [done|]. split; [|done]. exists ms. split; [done|lia]. Qed.

Lemma counts_trans k1 k2 w1 w2 w3 : counts k1 w1 w2 -> counts k2 w2 w3 -> counts (k1 + k2) w1 w3.
Proof.
  intros (A1 & (m1 & B1 & C1) & D1) (A2 & (m2 & B2 & C2) & D2). split; [congruence|]. split; [|auto]. exists (m1 ++ m2).
  split; [by rewrite B2, B1, app_assoc|]. rewrite beats_app. lia.
Qed.

(** Messages that are no heartbeats. *)
Lemma counts_quiet w w' ms : writer_disable_positive_acks_ w' = writer_disable_positive_acks_ w -> heartbeat_count_ w' = heartbeat_count_ w ->
  sent_ w' = sent_ w ++ ms -> beats ms = 0 -> counts 0 w w'.
Proof.
  intros A B C D. split; [done|]. split; [exists ms; split; [done|lia]|]. intros [H1 H2]. unfold beat_inv. rewrite B, C, beats_app, D, Z.add_0_r.
  split; [done|]. intros Hb. apply Forall_app. split; [auto|]. clear C. induction ms as [|m ms IH]; [constructor|]. simpl in D.
  pose proof (beats_nonneg ms). destruct m; simpl in D; try lia; constructor; auto. all: done.
Qed.

Lemma counts_same w w' : writer_disable_positive_acks_ w' = writer_disable_positive_acks_ w -> heartbeat_count_ w' = heartbeat_count_ w ->
  sent_ w' = sent_ w -> counts 0 w w'.
Proof. intros A B C. apply (counts_quiet w w' []); [done|done|by rewrite app_nil_r|done]. Qed.

Lemma counts_refl k w : 0 <= k -> counts k w w.
Proof. intros Hk. apply (counts_more 0); [by apply counts_same|done]. Qed.

(** One heartbeat with the next counter. *)
Lemma counts_beat w first last final liveliness : let count := u32 (heartbeat_count_ w + 1) in
  counts 1 w (set_logs w count (sent_ w ++ [HEARTBEAT first last count final liveliness]) (scheduled_ w) (told_ w)).
Proof.
  intros count. split; [done|]. split; [by exists [HEARTBEAT first last count final liveliness]|]. intros [H1 H2].
  assert (count = u32 (beats (sent_ w) + 1)) as Ec by (unfold count; rewrite H1; unfold u32; by rewrite Zplus_mod_idemp_l).
  unfold beat_inv. simpl. rewrite beats_app. simpl. rewrite Ec. split; [done|]. intros Hb. apply Forall_app. split.
  - eapply list.Forall_impl; [apply H2; lia|]. intros [| | |]; simpl; lia.
  - constructor; [|constructor]. simpl. pose proof (beats_nonneg (sent_ w)). unfold u32. rewrite Z.mod_small; lia.
Qed.

(** ** The operations *)

Tactic Notation "bind_step" hyp(E) := let x := fresh "x" in let Ex := fresh "Ex" in apply bind_Some in E as (x & Ex & E).
Tactic Notation "bind_step" hyp(E) "as" ident(x) ident(Ex) := apply bind_Some in E as (x & Ex & E).

Lemma beats_gaps reader log : beats (gaps_for reader log) = 0.
Proof. induction log as [|g log IH]; simpl; [done|]. done. Qed.

Lemma assert_Some {A} (b : bool) (x : option A) y : assert b x = Some y -> b = true /\ x = Some y.
Proof. by destruct b. Qed.

Lemma send_heartbeat_nts_counts w k final liveliness w' : send_heartbeat_nts_ w k final liveliness = Some w' -> counts 1 w w'.
Proof.
  unfold send_heartbeat_nts_. destruct (_ =? 0); [intros [= <-]; by apply counts_refl|]. destruct (_ || _).
  - intros [_ E]%assert_Some. destruct (_ || _); injection E as <-; [apply counts_beat|by apply counts_refl].
  - intros [_ E]%assert_Some. injection E as <-. apply counts_beat.
Qed.

Lemma add_gaps_counts w reader w' : add_gaps_for_holes_in_history w reader = Some w' -> counts 0 w w'.
Proof.
  unfold add_gaps_for_holes_in_history. destruct (_ && _); [|intros [= <-]; by apply counts_refl].
  destruct (m_changes (history_ w)) as [|o l]; [intros [= <-]; by apply counts_refl|]. intros E. bind_step E. bind_step E. destruct x0 as [b log].
  injection E as <-. eapply counts_quiet; [done|done|done|apply beats_gaps].
Qed.

Lemma send_heartbeat_to_nts_counts w rp liveliness force w' : send_heartbeat_to_nts w rp liveliness force = Some w' -> counts 1 w w'.
Proof.
  unfold send_heartbeat_to_nts. destruct (_ && _); [|intros [= <-]; by apply counts_refl]. intros E. bind_step E.
  apply (counts_trans 0 1 w x); [|by eapply send_heartbeat_nts_counts]. destruct (_ && _); [|injection Ex as <-; by apply counts_refl].
  apply assert_Some in Ex as [_ Ex]. destruct (negb liveliness); [by eapply add_gaps_counts|injection Ex as <-; by apply counts_refl].
Qed.

Lemma send_heartbeat_to_each_counts l liveliness : forall w w', send_heartbeat_to_each w l liveliness = Some w' -> counts (zlen l) w w'.
Proof.
  induction l as [|rp l IH]; intros w w' E; cbn [send_heartbeat_to_each] in E; [injection E as <-; by apply counts_refl|]. bind_step E.
  apply (counts_more (1 + zlen l)); [|unfold zlen; simpl; lia]. eapply counts_trans; [by eapply send_heartbeat_to_nts_counts|by apply IH].
Qed.

Lemma periodic_heartbeat_counts w final liveliness b w' : send_periodic_heartbeat w final liveliness = Some (b, w') ->
  counts (Z.max 1 (zlen (matched_remote_readers_ w))) w w'.
Proof.
  unfold send_periodic_heartbeat, send_heartbeat_to_all_readers. set (k := Z.max _ _).
  assert (Hk : forall w', counts 1 w w' -> counts k w w') by (intros w1 C; eapply counts_more; [exact C|lia]).
  assert (Hl : forall w', counts (zlen (matched_remote_readers_ w)) w w' -> counts k w w') by (intros w1 C; eapply counts_more; [exact C|lia]).
  destruct (negb liveliness).
  - intros E. bind_step E. injection E as <- <-. destruct (existsb _ _); [|injection Ex as <-; apply counts_refl; lia].
    destruct (separate_sending_enabled_ w); [by eapply Hl, send_heartbeat_to_each_counts|].
    destruct (matched_remote_readers_ w) eqn:Er; [injection Ex as <-; apply counts_refl; lia|]. apply assert_Some in Ex as [_ Ex]. bind_step Ex.
    apply Hk, (counts_trans 0 1 w x0); [by eapply add_gaps_counts|by eapply send_heartbeat_nts_counts].
  - destruct (separate_sending_enabled_ w).
    + intros E. bind_step E. injection E as <- <-. by eapply Hl, send_heartbeat_to_each_counts.
    + destruct (matched_remote_readers_ w) eqn:Er; [intros [= <- <-]; apply counts_refl; lia|]. intros E. bind_step E. injection E as <- <-.
      by eapply Hk, send_heartbeat_nts_counts.
Qed.

(** Nothing is sent. *)
Lemma remove_change_counts w s flow b w' : remove_change w s flow = Some (b, w') -> counts 0 w w'.
Proof.
  unfold remove_change, change_removed_by_history. destruct (find_change_nts _ _); [|intros [= <- <-]; by apply counts_refl]. intros E. bind_step E.
  destruct x as [removed w1]. injection E as <- <-. destruct flow; [|injection Ex as <- <-; by apply counts_refl]. bind_step Ex.
  injection Ex as <- <-. by apply counts_same.
Qed.

Section Listener.
Context (listener : Listener).

Lemma received_by_all_counts w o w' : on_writer_change_received_by_all listener w o = Some w' -> counts 0 w w'.
Proof.
  unfold on_writer_change_received_by_all. destruct listener as [removes|]; [|intros [= <-]; by apply counts_refl]. set (w1 := set_logs _ _ _ _ _).
  assert (counts 0 w w1) as C1 by (by apply counts_same). destruct (removes o); [|by intros [= <-]]. intros E. bind_step E. destruct x as [b w2]. injection E as <-.
  apply (counts_trans 0 0 w w1); [done|by eapply remove_change_counts].
Qed.

Lemma notify_backwards_counts cs e : forall w w', notify_backwards listener w cs e = Some w' -> counts 0 w w'.
Proof.
  induction cs as [|o cs IH]; intros w w'; cbn [notify_backwards]; [intros [= <-]; by apply counts_refl|]. destruct (sn_ltb _ _); [intros [= <-]; by apply counts_refl|].
  intros E. bind_step E. apply received_by_all_counts in Ex. destruct (sn_gtb _ _); [|by injection E as <-]. apply (counts_trans 0 0 w x); auto.
Qed.

Lemma check_acked_status_counts w w' : check_acked_status listener w = Some w' -> counts 0 w w'.
Proof.
  unfold check_acked_status. intros E. bind_step E. assert (counts 0 w x) as C.
  { unfold notify_acked in Ex. destruct (negb _); [|injection Ex as <-; by apply counts_refl]. bind_step Ex as w1 E1. injection Ex as <-.
    apply (counts_trans 0 0 w w1); [|by apply counts_same]. destruct (sn_leb _ _); [|injection E1 as <-; by apply counts_refl]. bind_step E1 as w2 E2. injection E1 as <-.
    apply (counts_trans 0 0 w w2); [|by apply counts_same]. destruct (_ && _); [by eapply notify_backwards_counts|injection E2 as <-; by apply counts_refl]. }
  destruct (all_without_changes _); injection E as <-; [|done]. apply (counts_trans 0 0 w x); [done|by apply counts_same].
Qed.

Lemma add_change_counts w allowed ch relevant b w' : writer_add_change listener w allowed ch relevant = Some (b, w') -> counts 0 w w'.
Proof.
  unfold writer_add_change. destruct (prepare_and_add_change _ _ _) as [[o|] h]; [|intros [= <- <-]; by apply counts_refl]. intros E. bind_step E. injection E as <- <-.
  apply (counts_trans 0 0 w (set_history w h)); [by apply counts_same|]. unfold unsent_change_added_to_history in Ex.
  destruct (matched_remote_readers_ _); [by eapply check_acked_status_counts|]. bind_step Ex. destruct (existsb _ _); injection Ex as <-; by apply counts_same.
Qed.

Lemma nack_response_counts w w' : perform_nack_response w = Some w' -> counts 0 w w'.
Proof. unfold perform_nack_response. intros E. bind_step E. destruct x. injection E as <-. by apply counts_same. Qed.

Lemma nack_supression_counts w g w' : writer_perform_nack_supression w g = Some w' -> counts 0 w w'.
Proof.
  unfold writer_perform_nack_supression. destruct (find_reader _ _) as [[[a rp] b]|]; [|intros [= <-]; by apply counts_refl]. intros E. bind_step E. destruct x.
  injection E as <-. by apply counts_same.
Qed.

Lemma process_acknack_counts w wg rg count sns final b w' : process_acknack listener w wg rg count sns final = Some (b, w') -> counts 1 w w'.
Proof.
  unfold process_acknack. case_bool_decide; [|intros [= <- <-]; by apply counts_refl]. destruct (sn_leb _ _); [|intros [= <- <-]; by apply counts_refl].
  destruct (find_reader _ _) as [[[l rp] t]|]; [|intros [= <- <-]; by apply counts_refl]. destruct (check_and_set_acknack_count _ _) as [counted rp1].
  destruct counted; [|intros [= <- <-]; by apply counts_refl]. intros E. bind_step E as rp2 E1. bind_step E as w2 Ex0. bind_step E as w3 E3. injection E as <- <-.
  apply (counts_trans 1 0 w w2); [|by eapply check_acked_status_counts]. set (w1 := set_readers _ _) in Ex0. assert (counts 0 w w1) as C1 by (by apply counts_same).
  apply (counts_trans 0 1 w w1); [done|]. destruct (sn_gtb _ _); [|destruct (_ && _); [|injection Ex0 as <-; by apply counts_refl]].
  - apply (counts_more 0); [|lia]. unfold answer_request in Ex0. bind_step Ex0 as z Ez. destruct z as [[[some rp3] g] log]. destruct (flush g log) as [[b1 b2] log2]. injection Ex0 as <-.
    eapply counts_quiet; [| | |apply beats_gaps]; by destruct some, final.
  - unfold answer_initial in Ex0. bind_step Ex0 as z Ez. destruct z as [[ok cs] rp3]. destruct (_ && _); [|injection Ex0 as <-; apply (counts_more 0); [by apply counts_same|lia]].
    bind_step Ex0 as w4 E4. injection Ex0 as <-. apply send_heartbeat_to_nts_counts in E4. apply (counts_trans 0 1 w1 (schedule (set_readers w1 (l ++ rp3 :: t)) (cfr_change <$> cs))); [by apply counts_same|].
    apply (counts_trans 1 0 _ w4); [done|by apply counts_same].
Qed.

(** ** Delivery *)

Section Group.
Context (add : nat -> Z -> AddResult) (has_locators : bool) (buffer_used : Z -> bool).

Lemma scan_readers_counts o n : forall l w sc sc' w', scan_readers w o n l sc = Some (sc', w') ->
  counts (zlen l) w w' /\ zlen (sc_before sc' ++ sc_from sc') = zlen (sc_before sc ++ sc_from sc) + zlen l.
Proof.
  induction l as [|rp l IH]; intros w sc sc' w'; cbn [scan_readers]; [intros [= <- <-]; split; [by apply counts_refl|unfold zlen; simpl; lia]|].
  assert (Hone : zlen (rp :: l) = 1 + zlen l) by (unfold zlen; simpl; lia).
  assert (Hskip : forall sc1, zlen (sc_before sc1 ++ sc_from sc1) = zlen (sc_before sc ++ sc_from sc) + 1 -> scan_readers w o n l sc1 = Some (sc', w') ->
    counts (zlen (rp :: l)) w w' /\ zlen (sc_before sc' ++ sc_from sc') = zlen (sc_before sc ++ sc_from sc) + zlen (rp :: l)).
  { intros sc1 H1 E. destruct (IH _ _ _ _ E) as [C L]. rewrite Hone. split; [eapply counts_more; [exact C|lia]|]. lia. }
  assert (Hlen : forall x : ReaderProxy, zlen (sc_before sc ++ sc_from sc ++ [x]) = zlen (sc_before sc ++ sc_from sc) + 1) by (intros x; unfold zlen; rewrite !length_app; simpl; lia).
  destruct (change_is_unsent rp (out_seq o) _) as [[[next gap] hb]|]; [|by apply Hskip; simpl].
  destruct (_ || _); [|by apply Hskip; simpl].
  set (t := if frag next <? sc_min_unsent_fragment sc then _ else _). assert (zlen (t.1.2 ++ t.2 ++ [set_active rp true]) = zlen (sc_before sc ++ sc_from sc) + 1) as Ht.
  { unfold t. destruct (_ <? _); simpl; [|done]. unfold zlen. rewrite !length_app. simpl. lia. }
  destruct t as [[min before] from]. simpl in Ht. intros E. bind_step E. destruct x as [gap' w1]. destruct (IH _ _ _ _ E) as [C L]. simpl in L. rewrite Hone. split; [|lia].
  apply (counts_trans 1 _ w w1); [|done]. destruct (negb _); [|injection Ex as _ <-; by apply counts_refl].
  destruct (negb _); [|injection Ex as _ <-; by apply counts_refl]. bind_step Ex as w2 E2. injection Ex as _ <-. apply send_heartbeat_nts_counts in E2.
  eapply (counts_trans 0 1 w); [|exact E2]. by eapply counts_quiet.
Qed.

Lemma piggyback_counts w x w' : send_heartbeat_piggyback_nts_ buffer_used w x = Some w' -> counts 1 w w'.
Proof.
  unfold send_heartbeat_piggyback_nts_. destruct (negb _); [|intros [= <-]; by apply counts_refl].
  destruct (_ || _); [apply send_heartbeat_nts_counts|intros [= <-]; by apply counts_refl].
Qed.

Lemma submessage_quiet o n min inline reader : beats [submessage_of o n min inline reader] = 0.
Proof. unfold submessage_of. by destruct (_ <? _). Qed.

Lemma each_reader_length f : forall l l', each_reader f l = Some l' -> zlen l' = zlen l.
Proof.
  induction l as [|rp l IH]; intros l' E; cbn [each_reader] in E; [by injection E as <-|]. do 2 bind_step E. injection E as <-. apply IH in Ex0.
  unfold zlen in *. simpl. lia.
Qed.

Lemma send_to_all_counts w o n sc ret w' : matched_remote_readers_ w = sc_before sc ++ sc_from sc ->
  send_to_all add has_locators buffer_used w o n sc = Some (ret, w') -> counts 1 w w' /\ zlen (matched_remote_readers_ w') = zlen (matched_remote_readers_ w).
Proof.
  intros Er. unfold send_to_all. destruct has_locators; [|intros [= <- <-]; split; [by apply counts_refl|done]]. intros E. bind_step E. destruct x as [[ret1 thrown] w1].
  bind_step E. injection E as <- <-. assert (counts 0 w w1 /\ zlen (matched_remote_readers_ w1) = zlen (matched_remote_readers_ w)) as [C1 L1].
  { destruct (nothing_to_send _ _); [injection Ex as _ _ <-; split; [by apply counts_refl|done]|].
    destruct (add _ _); [|injection Ex as _ _ <-; split; [by apply counts_refl|done]..]. bind_step Ex as from E1. injection Ex as _ _ <-.
    split; [by eapply counts_quiet; [| | |apply submessage_quiet]|]. simpl. apply each_reader_length in E1. rewrite Er. unfold zlen in *. rewrite !length_app. lia. }
  destruct thrown; [injection Ex0 as <-; split; [by apply (counts_more 0)|done]|]. split; [apply (counts_trans 0 1 w w1); [done|by eapply piggyback_counts]|].
  rewrite <- L1. clear - Ex0. unfold send_heartbeat_piggyback_nts_ in Ex0. destruct (negb _); [|by injection Ex0 as <-]. destruct (_ || _); [|by injection Ex0 as <-].
  unfold send_heartbeat_nts_ in Ex0. destruct (_ =? 0); [by injection Ex0 as <-|]. destruct (_ || _); apply assert_Some in Ex0 as [_ Ex0].
  - destruct (_ || _); by injection Ex0 as <-.
  - by injection Ex0 as <-.
Qed.

Lemma send_to_each_counts o n sc : forall l w i done ret ret' w', send_to_each add w o n sc i done l ret = Some (ret', w') ->
  counts (zlen l) w w' /\ zlen (matched_remote_readers_ w') = zlen done + zlen l.
Proof.
  induction l as [|rp l IH]; intros w i done ret ret' w'; cbn [send_to_each]; [intros [= <- <-]; split; [by apply counts_same|unfold zlen; simpl; lia]|].
  assert (Hone : zlen (rp :: l) = 1 + zlen l) by (unfold zlen; simpl; lia). rewrite Hone. assert (0 <= zlen l) as Hl by (unfold zlen; lia).
  assert (Hsnoc : forall x : ReaderProxy, zlen (done ++ [x]) = zlen done + 1) by (intros x; unfold zlen; rewrite length_app; simpl; lia).
  assert (Hnext : forall w1 x ret1, counts 0 w w1 -> (w2 ← send_heartbeat_nts_ w1 1 false false; send_to_each add w2 o n sc (S i) (done ++ [x]) l ret1) = Some (ret', w') ->
    counts (1 + zlen l) w w' /\ zlen (matched_remote_readers_ w') = zlen done + (1 + zlen l)).
  { intros w1 x ret1 C1 E. bind_step E as w2 Ex. apply send_heartbeat_nts_counts in Ex. destruct (IH _ _ _ _ _ _ E) as [C L]. rewrite Hsnoc in L. split; [|lia].
    apply (counts_trans 1 (zlen l) w w2); [|done]. by apply (counts_trans 0 1 w w1). }
  assert (Hstop : forall ret1, Some (ret1, set_readers w (done ++ rp :: l)) = Some (ret', w') ->
    counts (1 + zlen l) w w' /\ zlen (matched_remote_readers_ w') = zlen done + (1 + zlen l)).
  { intros ret1 [= <- <-]. split; [apply (counts_more 0); [by apply counts_same|lia]|]. simpl. unfold zlen. rewrite length_app. simpl. lia. }
  destruct (active_ rp).
  2:{ intros E. destruct (IH _ _ _ _ _ _ E) as [C L]. rewrite Hsnoc in L. split; [eapply counts_more; [exact C|lia]|lia]. }
  destruct (nothing_to_send _ _); [by apply Hnext, counts_refl|]. destruct (add _ _).
  - intros E. bind_step E. eapply Hnext; [|exact E]. by eapply counts_quiet; [| | |apply submessage_quiet].
  - by apply Hnext, counts_refl.
  - apply Hstop.
  - apply Hstop.
Qed.

Lemma deliver_round_counts w o need min need' ret w' : deliver_round add has_locators buffer_used w o need = Some (min, need', ret, w') ->
  counts (zlen (matched_remote_readers_ w) + Z.max 1 (zlen (matched_remote_readers_ w))) w w' /\ zlen (matched_remote_readers_ w') = zlen (matched_remote_readers_ w).
Proof.
  unfold deliver_round. intros E. bind_step E. destruct x as [sc w1]. apply scan_readers_counts in Ex as [C1 L1]. simpl in L1. bind_step E. destruct x as [ret2 w2].
  injection E as _ _ _ <-. set (readers := matched_remote_readers_ w) in *. assert (zlen (sc_before sc ++ sc_from sc) = zlen readers) as L by (rewrite L1; unfold zlen; simpl; lia).
  set (w3 := if negb (sn_eqb sn_unknown (sc_gap_for_all sc)) then send _ _ else _) in Ex. assert (counts 0 w1 w3 /\ matched_remote_readers_ w3 = sc_before sc ++ sc_from sc) as [C3 E3].
  { unfold w3. destruct (negb _); (split; [|done]); [|by apply counts_same]. by eapply counts_quiet. }
  assert (counts (Z.max 1 (zlen readers)) w3 w2 /\ zlen (matched_remote_readers_ w2) = zlen readers) as [C2 L2].
  { destruct (sc_should_be_sent sc); [|injection Ex as <- <-; rewrite E3; split; [apply counts_refl; lia|done]]. destruct (negb (separate_sending_enabled_ w3)).
    - destruct (send_to_all_counts _ _ _ _ _ _ E3 Ex) as [C2 L2]. split; [eapply counts_more; [exact C2|lia]|]. by rewrite L2, E3.
    - destruct (send_to_each_counts _ _ _ _ _ _ _ _ _ _ Ex) as [C2 L2]. assert (zlen (sc_from sc) <= zlen readers) as Hf by (rewrite <- L; unfold zlen; rewrite length_app; lia).
      split; [eapply counts_more; [exact C2|lia]|]. rewrite L2, <- L. unfold zlen. rewrite length_app. lia. }
  split; [|done]. apply (counts_trans _ _ w w1); [done|]. by apply (counts_trans 0 _ w1 w3).
Qed.

Lemma deliver_rounds_counts o k : forall fuel w min need ret need' ret' w', zlen (matched_remote_readers_ w) <= k -> 1 <= k ->
  deliver_rounds add has_locators buffer_used fuel w o min need ret = Some (need', ret', w') -> counts (Z.of_nat fuel * (2 * k)) w w'.
Proof.
  induction fuel as [|fuel IH]; intros w min need ret need' ret' w' Hk H1; cbn [deliver_rounds]; (destruct (_ && _); [|intros [= <- <- <-]; apply counts_refl; lia]); [done|].
  intros E. bind_step E. destruct x as [[[min1 need1] ret1] w1]. apply deliver_round_counts in Ex as [C L]. apply IH in E; [|by rewrite L|done].
  apply (counts_more (2 * k + Z.of_nat fuel * (2 * k))); [|lia]. apply (counts_trans _ _ w w1); [|done]. eapply counts_more; [exact C|]. lia.
Qed.

(** Four heartbeats at most, for a whole sample and one reader. *)
Lemma deliver_sample_counts w rp o ret w' : matched_remote_readers_ w = [rp] ->
  deliver_sample_nts add has_locators buffer_used listener 2 w o = Some (ret, w') -> counts 4 w w'.
Proof.
  intros Er. unfold deliver_sample_nts. rewrite Er. unfold deliver_sample_to_network. intros E. bind_step E as z Ez. destruct z as [ret1 w1]. bind_step E as w3 E3. injection E as <- <-.
  bind_step Ez as z Ex1. destruct z as [[need ret2] w2]. injection Ez as <- <-. apply (deliver_rounds_counts o 1) in Ex1; [|by rewrite Er|done].
  apply (counts_trans 4 0 w (if need then restart_periodic_hb w2 else w2)); [|by eapply check_acked_status_counts].
  apply (counts_trans 4 0 w w2); [exact Ex1|]. destruct need; by apply counts_same.
Qed.
End Group.
End Listener.
