(* ===== verification/Progress.v ===== *)
(** * What progress rests on

    The second invariant of a writer and a reader, about counters and marks: no
    counter is behind the ones in the messages on their way, and what the writer
    takes for acknowledged is known to the reader.  Every event keeps it. *)

From Stdlib Require Import Sorted.
From S2P Require Import Prelude FastBuffer SequenceNumber BitmapRange RangeSpec TimedEvent WriterProxy WriterProxyInv WriterProxyLaws ParameterList CdrMessage Fragments.
From S2P Require Import GapBuilder WriterHistory ChangeForReader ReaderProxy ReaderProxyInv ReaderProxyLaws StatefulWriter Delivery.
From S2P Require Import ReaderHistory StatefulReader StatefulReaderLaws StatefulWriterLaws.
From S2P Require Import System SystemInv Heartbeats.

Implicit Types (w : StatefulWriter) (r : StatefulReader) (rp : ReaderProxy) (p : WriterProxy) (s : SequenceNumber_t) (g : GUID_t).
Implicit Types (sys : System).

Notation mark_of rp := (sn_val (changes_low_mark_ rp)).

(** An ACKNACK of the reader [p] for the writer [g], of [k] messages. *)
Definition reply_known g p (k : Z) (m : ReaderMsg) : Prop :=
  match m with
  | ACKNACK g' sns c _ => g' = g /\ sn_val (base_ sns) <= low_of p + 1 /\ 0 <= c /\ (k < 2 ^ 32 -> c <= k)
  | NACK_FRAG _ _ _ _ => True
  end.

Record live (reader_guid : GUID_t) sys rp p : Prop := mkLive {
  lv_beats : beat_inv (sys_w sys);
  lv_final : writer_disable_positive_acks_ (sys_w sys) = false;
  lv_guid : remote_guid_ rp = reader_guid;
  lv_heard : beats (sent_ (sys_w sys)) < 2 ^ 32 -> last_heartbeat_count_ p <= beats (sent_ (sys_w sys));
  lv_count : acknack_count_ (sys_r sys) = u32 (zlen (sr_sent (sys_r sys)));
  lv_replies : Forall (reply_known (m_guid (sys_w sys)) p (zlen (sr_sent (sys_r sys)))) (sr_sent (sys_r sys));
  lv_next : zlen (sr_sent (sys_r sys)) + 1 < 2 ^ 32 -> next_expected_acknack_count_ rp <= zlen (sr_sent (sys_r sys)) + 1;
  lv_low : forall n, in_history (history_ (sys_w sys)) n -> n <= mark_of rp -> known p n
}.

(** ** The proxies are those of the state *)

Lemma proxies_unique sys rp p rp' p' : sys_inv sys rp p -> sys_inv sys rp' p' -> rp' = rp /\ p' = p.
Proof.
  intros I I'. pose proof (wo_readers _ _ _ (si_w _ _ _ I)) as E. rewrite (wo_readers _ _ _ (si_w _ _ _ I')) in E.
  pose proof (rr_proxy _ _ _ (si_r _ _ _ I)) as E'. rewrite (rr_proxy _ _ _ (si_r _ _ _ I')) in E'. by simplify_eq.
Qed.

Lemma proxy_of sys rp p p' : sys_inv sys rp p -> reader_ok (sys_r sys) (m_guid (sys_w sys)) p' -> p' = p.
Proof. intros I Hr. pose proof (rr_proxy _ _ _ (si_r _ _ _ I)) as E. rewrite (rr_proxy _ _ _ Hr) in E. by injection E. Qed.

Section Live.
Context (reader_guid : GUID_t).
Notation live := (live reader_guid).

(** ** The writer acts *)

Lemma live_writer sys rp p w' rp' k rel dr : live sys rp p -> counts k (sys_w sys) w' -> m_guid w' = m_guid (sys_w sys) -> kept rp rp' ->
  (next_expected_acknack_count_ rp' = next_expected_acknack_count_ rp \/
   exists g sns c fin, ACKNACK g sns c fin ∈ sr_sent (sys_r sys) /\ next_expected_acknack_count_ rp' = u32 (c + 1)) ->
  (forall n, in_history (history_ w') n -> n <= mark_of rp' -> (in_history (history_ (sys_w sys)) n /\ n <= mark_of rp) \/ known p n) ->
  live (mkSys w' (sys_r sys) rel dr (taken_ sys)) rp' p.
Proof.
  intros [L1 L2 L3 L4 L5 L6 L7 L8] (C1 & (ms & C2 & C3) & C4) Eg (K1 & _) Hn Hl. split; simpl; rewrite ?Eg; try done; [by auto|congruence|congruence| | |].
  - rewrite C2, beats_app. pose proof (beats_nonneg ms). intros Hb. specialize (L4 ltac:(lia)). lia.
  - intros Hb. destruct Hn as [->|(g & sns & c & fin & Hin & ->)]; [auto|]. rewrite list.Forall_forall in L6. apply L6 in Hin as (_ & _ & H0 & Hc).
    specialize (Hc ltac:(lia)). unfold u32. pose proof (Z.mod_le (c + 1) (2 ^ 32)). lia.
  - intros n Hi Hle. destruct (Hl n Hi Hle) as [[? ?]|?]; auto.
Qed.

(** ** The reader acts *)

Lemma live_reader sys rp p r' p' taken : live sys rp p -> wp_inv p -> wp_inv p' -> (forall n, known p n -> known p' n) ->
  (last_heartbeat_count_ p' = last_heartbeat_count_ p \/ exists f l fi li, HEARTBEAT f l (last_heartbeat_count_ p') fi li ∈ sent_ (sys_w sys)) ->
  ((sr_sent r' = sr_sent (sys_r sys) /\ acknack_count_ r' = acknack_count_ (sys_r sys)) \/
   exists sns fin, sr_sent r' = sr_sent (sys_r sys) ++ [ACKNACK (m_guid (sys_w sys)) sns (u32 (acknack_count_ (sys_r sys) + 1)) fin] /\
     acknack_count_ r' = u32 (acknack_count_ (sys_r sys) + 1) /\ sn_val (base_ sns) <= low_of p' + 1) ->
  live (mkSys (sys_w sys) r' (relevant_ sys) (dropped_ sys) taken) rp p'.
Proof.
  intros [L1 L2 L3 L4 L5 L6 L7 L8] W W' Hk Hh Hs. pose proof (low_grows p p' W W' Hk) as Hlow. set (k := zlen (sr_sent (sys_r sys))) in *.
  assert (0 <= k) as Hk0 by (unfold k, zlen; lia).
  assert (Hold : forall k', k <= k' -> Forall (reply_known (m_guid (sys_w sys)) p' k') (sr_sent (sys_r sys))).
  { intros k' Hk'. eapply list.Forall_impl; [exact L6|]. intros [g sns c fin|]; [|done]. intros (A & B & C & D). split; [done|]. split; [lia|]. split; [done|].
    intros Hb. specialize (D ltac:(lia)). lia. }
  split; simpl; try done.
  - intros Hb. destruct Hh as [->|(f & l & fi & li & Hin)]; [auto|]. destruct L1 as [_ L1]. specialize (L1 Hb). rewrite list.Forall_forall in L1. by apply L1 in Hin.
  - destruct Hs as [[-> ->]|(sns & fin & -> & -> & _)]; [done|]. rewrite L5. unfold zlen. rewrite length_app. simpl. unfold u32. rewrite Zplus_mod_idemp_l.
    f_equal. unfold k, zlen. lia.
  - destruct Hs as [[-> _]|(sns & fin & -> & _ & Hb)]; [by apply Hold|]. assert (zlen (sr_sent (sys_r sys) ++ [ACKNACK (m_guid (sys_w sys)) sns (u32 (acknack_count_ (sys_r sys) + 1)) fin]) = k + 1) as ->
      by (unfold k, zlen; rewrite length_app; simpl; lia).
    apply Forall_app. split; [apply Hold; lia|]. constructor; [|constructor]. simpl. split; [done|]. split; [done|]. rewrite L5. unfold u32. rewrite Zplus_mod_idemp_l.
    split; [by apply Z.mod_pos_bound|]. intros Hlt. rewrite Z.mod_small; lia.
  - destruct Hs as [[-> _]|(sns & fin & -> & _ & Hb)]; [done|]. unfold zlen. rewrite length_app. simpl. intros Hlt. unfold k, zlen in L7. specialize (L7 ltac:(lia)). lia.
  - intros n Hi Hle. auto.
Qed.

(** ** Every event *)

Section Steps.
Context `{P : Platform} (listener : Listener).
Notation step := (sys_step listener reader_guid).

Definition good sys rp p : Prop := sys_inv sys rp p /\ live sys rp p.

(** A handler of the writer that writes and removes nothing. *)
Lemma good_writer sys rp p w' rp' k : good sys rp p -> acts (settled sys) (sys_w sys) rp w' rp' -> counts k (sys_w sys) w' ->
  (next_expected_acknack_count_ rp' = next_expected_acknack_count_ rp \/
   exists g sns c fin, ACKNACK g sns c fin ∈ sr_sent (sys_r sys) /\ next_expected_acknack_count_ rp' = u32 (c + 1)) ->
  (forall n, in_history (history_ w') n -> n <= mark_of rp' -> n <= mark_of rp \/ known p n) -> good (set_w sys w') rp' p.
Proof.
  intros [I L] A C Hn Hl. pose proof A as (_ & [Eg Hk] & _ & Hi). split; [by eapply writer_acted|]. eapply live_writer; [exact L|exact C|done|done|done|].
  intros n Hin Hle. destruct (Hl n Hin Hle); [left; auto|by right].
Qed.

Definition anything (n : Z) : Prop := True.

Lemma writer_ok_anything sys rp p : sys_inv sys rp p -> writer_ok anything (sys_w sys) rp.
Proof. intros I. eapply writer_ok_history_grown; [apply I|done]. Qed.

Lemma same_reader_of exc w rp rp' : writer_ok exc w rp -> matched_remote_readers_ w = [rp'] -> rp = rp'.
Proof. intros W E. rewrite (wo_readers _ _ _ W) in E. by injection E. Qed.

Lemma good_write sys rp p allowed ch relevant : good sys rp p -> exists sys' rp', step sys (EvWrite allowed ch relevant) = Some sys' /\ good sys' rp' p.
Proof.
  intros [I L]. destruct (write_ok listener reader_guid sys rp p allowed ch relevant I) as (sys' & rp' & E & I'). exists sys', rp'. split; [done|]. split; [done|].
  cbn [sys_step] in E. destruct (in_scope (sys_w sys) allowed ch) eqn:Esc.
  2:{ injection E as <-. by destruct (proxies_unique _ _ _ _ _ I I') as [-> _]. }
  unfold in_scope in Esc. destruct (prepare_and_add_change (history_ (sys_w sys)) allowed ch) as [[o|] h'] eqn:Eadd; [|done].
  rewrite !andb_true_iff, !Z.eqb_eq, Z.ltb_lt in Esc. destruct Esc as [Hwo Hbig].
  destruct (writer_add_change_ok anything listener (sys_w sys) rp allowed ch (fun _ => relevant) o h') as (w' & rp2 & E2 & W2 & [Eg Hk] & Eh & _ & _ & _ & Hin & _ & Elo & Enx);
    [by eapply writer_ok_anything|done|done|done|done|].
  rewrite E2 in E. cbn [mbind option_bind] in E. injection E as <-. apply add_change_counts in E2.
  assert (rp2 = rp') as -> by (eapply same_reader_of; [exact W2|by apply (wo_readers _ _ _ (si_w _ _ _ I'))]).
  eapply live_writer; [exact L|exact E2|done|done|by left|]. intros n Hi Hle. rewrite Elo in Hle. left. split; [|done]. rewrite Eh in Hi. apply Hin in Hi as [?| ->]; [done|].
  pose proof (ro_last _ _ (wo_rp _ _ _ (si_w _ _ _ I))). lia.
Qed.

Lemma good_remove sys rp p s flow : good sys rp p -> exists sys' rp', step sys (EvRemove s flow) = Some sys' /\ good sys' rp' p.
Proof.
  intros [I L]. destruct (remove_event_ok listener reader_guid sys rp p s flow I) as (sys' & rp' & E & I'). exists sys', rp'. split; [done|]. split; [done|].
  cbn [sys_step] in E. apply bind_Some in E as ([removed w'] & E1 & E). injection E as <-. pose proof (remove_change_counts _ _ _ _ _ E1) as C.
  pose proof (wo_readers _ _ _ (si_w _ _ _ I')) as Er. simpl in Er. pose proof (writer_ok_anything _ _ _ I) as W.
  assert (Hsame : removed = false -> w' = sys_w sys -> live (mkSys w' (sys_r sys) (relevant_ sys) (if removed && negb (acked_by_readers (sys_w sys) s) then sn_val s :: dropped_ sys else dropped_ sys) (taken_ sys)) rp' p).
  { intros -> ->. assert (rp = rp') as <- by (by eapply same_reader_of). eapply live_writer; [exact L|exact C|done|done|by left|by left]. }
  unfold remove_change in E1. destruct (find_change_nts (history_ (sys_w sys)) s) as [o|] eqn:Ef; [|injection E1 as <- <-; by apply Hsame].
  destruct flow; [|injection E1 as <- <-; by apply Hsame]. destruct (find_change_nts_found _ _ _ Ef) as [Ho Es].
  pose proof (ho_usable _ (wo_history _ _ _ W)) as Hus. rewrite list.Forall_forall in Hus. pose proof (Hus o Ho) as Hu. rewrite Es in Hu.
  pose proof (seqs_elem _ _ Ho) as Hin. rewrite Es in Hin.
  destruct (remove_change_ok anything (sys_w sys) rp s W Hu Hin ltac:(done)) as (w2 & rp2 & E2 & W2 & [Eg Hk] & Eh & _ & _ & _ & Enx & _ & Hmk).
  unfold remove_change in E2. rewrite Ef in E2. rewrite E2 in E1. injection E1 as <- <-. assert (rp2 = rp') as -> by (by eapply same_reader_of).
  destruct (history_remove_ok (history_ (sys_w sys)) s (wo_history _ _ _ W) ltac:(auto)) as (_ & Hi & _).
  eapply live_writer; [exact L|exact C|done|done|by left|]. intros n Hn Hle. rewrite Eh in Hn. apply Hi in Hn as [Hn Hne]. left. split; [done|]. by destruct (Hmk n Hle).
Qed.

(** *** The reader's messages *)

Lemma good_reader sys rp p r' p' taken : sys_inv (mkSys (sys_w sys) r' (relevant_ sys) (dropped_ sys) taken) rp p' -> good sys rp p -> (forall n, known p n -> known p' n) ->
  (last_heartbeat_count_ p' = last_heartbeat_count_ p \/ exists f l fi li, HEARTBEAT f l (last_heartbeat_count_ p') fi li ∈ sent_ (sys_w sys)) ->
  ((sr_sent r' = sr_sent (sys_r sys) /\ acknack_count_ r' = acknack_count_ (sys_r sys)) \/
   exists sns fin, sr_sent r' = sr_sent (sys_r sys) ++ [ACKNACK (m_guid (sys_w sys)) sns (u32 (acknack_count_ (sys_r sys) + 1)) fin] /\
     acknack_count_ r' = u32 (acknack_count_ (sys_r sys) + 1) /\ sn_val (base_ sns) <= low_of p' + 1) ->
  good (mkSys (sys_w sys) r' (relevant_ sys) (dropped_ sys) taken) rp p'.
Proof. intros I' [I L] Hk Hh Hs. split; [done|]. eapply live_reader; [exact L|apply I|apply I'|done|done|done]. Qed.

(** What the reader knows when it gets a message. *)
Definition learns p (m : Submessage) (room : bool) p' : Prop :=
  match m with
  | DATA o _ _ => room = true -> known p' (sn_val (out_seq o))
  | GAP s l _ => forall n, declares (s, l) n -> known p' n
  | HEARTBEAT f l c final _ => last_heartbeat_count_ p < c ->
      (forall n, n < sn_val f -> known p' n) /\ sn_val l <= sn_val (max_sequence_number_ p') /\ heartbeat_final_flag_ p' = final
  | DATA_FRAG _ _ _ _ => True
  end.

Lemma good_gets sys rp p i m time data room : good sys rp p -> sent_ (sys_w sys) !! i = Some m ->
  exists r' p', step sys (EvReaderGets i time data room) = Some (set_r sys r') /\ good (set_r sys r') rp p' /\ (forall n, known p n -> known p' n) /\ learns p m room p' /\
    sr_sent r' = sr_sent (sys_r sys).
Proof.
  intros G Em. pose proof G as [I L]. cbn [sys_step]. rewrite Em. apply list_elem_of_lookup_2 in Em. pose proof I as [H1 H2 H3 H4 H5 H6 H7 H8 H9 H10 HX HB H11].
  pose proof (wo_msgs _ _ _ H1) as Hms. rewrite list.Forall_forall in Hms. pose proof (Hms m Em) as Hm. destruct m as [o inline rd|o f inline rd|s l rd|f l count final liveliness]; simpl in Hm; [|done| |].
  - destruct (reader_data_ok sys rp p o inline rd time data room I Em) as (b & r' & p' & E & I'). rewrite E. exists r', p'. split; [done|]. cbn [reader_gets] in E. destruct Hm as [Hu _].
    set (c := mkIn _ _ _ _ _) in E. destruct (process_data_msg_spec (sys_r sys) (m_guid (sys_w sys)) p c room) as (b2 & r2 & p2 & E2 & Hr & Hsr & (_ & Hc1 & Hc2 & _) & _ & _ & HD); [done..|].
    rewrite E in E2. injection E2 as <- <-. assert (p2 = p') as -> by exact (proxy_of _ _ _ _ I' Hr).
    assert (last_heartbeat_count_ p' = last_heartbeat_count_ p) as Elh by (by rewrite Hsr).
    assert (forall n, known p n -> known p' n) as Hk by (destruct (room && _); [intros n Hn; apply HD; by left|by destruct HD as [_ ->]]).
    split; [|split; [done|split; [|done]]].
    + eapply good_reader; [done|done|done|by left|by left].
    + simpl. intros ->. cbn [andb] in HD. case_bool_decide as Hk'; simpl in HD; [by apply Hk|]. apply HD. by right.
  - destruct (reader_gap_ok sys rp p s l rd I Em) as (b & r' & p' & E & I'). cbn [reader_gets]. rewrite E. exists r', p'. split; [done|]. destruct Hm as [Hg Hd]. pose proof (wo_bound _ _ _ H1).
    destruct (process_gap_msg_spec (sys_r sys) (m_guid (sys_w sys)) p s l H2 Hg) as (r2 & p2 & E2 & Hr & Hsr & (_ & Hc1 & Hc2 & _) & _ & _ & _ & Hkn).
    { intros n [Hn _]%Hd. lia. }
    rewrite E in E2. injection E2 as -> <-. assert (p2 = p') as -> by exact (proxy_of _ _ _ _ I' Hr).
    assert (last_heartbeat_count_ p' = last_heartbeat_count_ p) as Elh by (by rewrite Hsr). assert (forall n, known p n -> known p' n) as Hk by (intros n Hn; apply Hkn; by left).
    split; [eapply good_reader; [done|done|done|by left|by left]|]. split; [done|]. split; [|done]. intros n Hn. apply Hkn. by right.
  - destruct (reader_heartbeat_ok sys rp p f l count final liveliness I Em) as (b & r' & p' & E & I'). cbn [reader_gets]. rewrite E. exists r', p'. split; [done|]. destruct Hm as (Hf & Hl & _).
    destruct (process_heartbeat_msg_spec (sys_r sys) (m_guid (sys_w sys)) p count f l final liveliness H2 H6) as (r2 & p2 & E2 & Hr & _ & (_ & Hc1 & Hc2 & _) & _ & _ & HD); [by rewrite H4|done|done|].
    rewrite E in E2. injection E2 as -> <-. assert (p2 = p') as -> by exact (proxy_of _ _ _ _ I' Hr).
    destruct (Z.ltb_spec (last_heartbeat_count_ p) count) as [Hlt|Hge].
    + destruct HD as (Hkn & Em' & Ec & Efi). split; [eapply good_reader; [done|done|intros n Hn; apply Hkn; by left|right; rewrite Ec; by exists f, l, final, liveliness|by left]|].
      split; [intros n Hn; apply Hkn; by left|]. split; [|done]. intros _. split; [intros n Hn; apply Hkn; by right|]. split; [lia|done].
    + subst p'. split; [eapply good_reader; [done|done|done|by left|by left]|]. split; [done|]. split; [|done]. simpl. lia.
Qed.

Lemma good_answer sys rp p : good sys rp p ->
  exists r' p', step sys EvAnswer = Some (set_r sys r') /\ good (set_r sys r') rp p' /\ same_numbers p p' /\
    (heartbeat_final_flag_ p = false -> exists sns fin, acknack_of p sns /\
       sr_sent r' = sr_sent (sys_r sys) ++ [ACKNACK (m_guid (sys_w sys)) sns (u32 (acknack_count_ (sys_r sys) + 1)) fin]) /\
    zlen (sr_sent r') <= zlen (sr_sent (sys_r sys)) + 1.
Proof.
  intros G. pose proof G as [I L]. pose proof I as [H1 H2 H3 H4 [H5 H5'] H6 H7 H8 H9 H10 HX HB H11]. cbn [sys_step].
  destruct (answer_ok sys rp p I) as (r' & p' & E & I'). rewrite E. exists r', p'. split; [done|].
  destruct (answer_heartbeat_spec 0 (sys_r sys) (m_guid (sys_w sys)) p H2 H6 H5' H4) as (r2 & p2 & E2 & Hr & _ & _ & Hsn & _ & Elh & HD).
  rewrite E in E2. injection E2 as <-. assert (p2 = p') as -> by exact (proxy_of _ _ _ _ I' Hr).
  pose proof Hsn as (N1 & N2 & _ & _). assert (forall n, known p n -> known p' n) as Hk by (intros n; unfold known; by rewrite N1, N2).
  split; [|split; [done|split]].
  - eapply good_reader; [done|done|done|by left|]. destruct HD as [(E1 & E3 & _)|(sns & fin & E1 & (_ & Hb & _) & E3)]; [by left|right].
    exists sns, fin. split; [done|]. split; [done|]. rewrite N2. lia.
  - intros Ef. destruct HD as [(_ & _ & Ef' & _)|(sns & fin & E1 & Ha & _)]; [congruence|]. by exists sns, fin.
  - destruct HD as [(-> & _)|(sns & fin & -> & _)]; [lia|]. unfold zlen. rewrite length_app. simpl. lia.
Qed.

Lemma good_initial sys rp p : good sys rp p -> exists r' p', step sys EvInitial = Some (set_r sys r') /\ good (set_r sys r') rp p'.
Proof.
  intros G. pose proof G as [I L]. pose proof I as [H1 H2 H3 H4 [H5 H5'] H6 H7 H8 H9 H10 HX HB H11]. destruct (initial_ok sys rp p I) as (p' & I'). eexists _, p'. split; [done|].
  destruct (answer_initial_spec (sys_r sys) (m_guid (sys_w sys)) p H2 H5' H5 H4) as (p2 & Hr & _ & _ & (N1 & N2 & _ & _) & _ & Elh & HD).
  assert (p2 = p') as -> by exact (proxy_of _ _ _ _ I' Hr).
  eapply good_reader; [done|done|intros n; unfold known; by rewrite N1, N2|by left|]. destruct HD as [?|[E1 E2]]; [by left|right]. exists (range_new (mkSN 0 0)), false.
  split; [done|]. split; [done|]. pose proof (usable_range _ (wi_low _ (rr_inv _ _ _ Hr))). change (0 <= low_of p' + 1). lia.
Qed.

(** The application. *)
Lemma good_access sys rp p ev sys' : good sys rp p -> (exists i, ev = EvRead i \/ ev = EvTake i) -> step sys ev = Some sys' -> good sys' rp p.
Proof.
  intros G (i & [->| ->]); pose proof G as [I L]; cbn [sys_step]; (destruct (r_changes (sr_history_ (sys_r sys)) !! i) as [c|] eqn:Ec; [|by intros [= <-]]);
    (destruct (is_future_change (sys_r sys) c) eqn:Ef; [by intros [= <-]|]); intros [= <-].
  - eapply good_reader; [by eapply read_ok|done|done|by left|left]. unfold end_sample_access_nts. rewrite Ec. destruct (_ && _); [|done]. by destruct (0 <? _).
  - eapply good_reader; [by apply take_ok|done|done|by left|left]. unfold reader_remove_change, reader_change_removed. rewrite Ec. simpl.
    destruct (sr_alive _); [|done]. destruct (assembled c); [by destruct (_ && _)|]. by destruct (find_writer _ _).
Qed.

(** *** The writer's handlers *)

Lemma good_send sys rp p i o add used : good sys rp p -> m_changes (history_ (sys_w sys)) !! i = Some o ->
  exists w' rp', step sys (EvSend i add used) = Some (set_w sys w') /\ good (set_w sys w') rp' p /\ counts 4 (sys_w sys) w' /\ last_of w' = last_of (sys_w sys) /\
    (forall n, n <> sn_val (out_seq o) -> pending rp' n = pending rp n) /\
    (unsent rp (out_seq o) = true -> (forall i x, add i x = Added) -> pending rp' (sn_val (out_seq o)) = Some UNDERWAY /\ exists b x, DATA o b x ∈ sent_ w').
Proof.
  intros G Eo. pose proof G as [I L]. cbn [sys_step]. rewrite Eo. apply list_elem_of_lookup_2 in Eo. pose proof (si_w _ _ _ I) as W.
  destruct (deliver_sample_ok (settled sys) add used listener (sys_w sys) rp o 0 W Eo) as (ret & w' & rp' & E & A & En & _ & _ & Hp & _ & Hu & Hm).
  rewrite E. pose proof (deliver_sample_counts _ _ _ _ _ _ _ _ _ (wo_readers _ _ _ W) E) as C. exists w', rp'. split; [done|].
  split; [eapply good_writer; [exact G|exact A|exact C|by left|left; by apply Hm]|]. split; [done|]. split; [apply A|]. split; [done|]. intros Hun Hadd. by apply Hu.
Qed.

Lemma good_heartbeat sys rp p final liveliness : good sys rp p ->
  exists w', step sys (EvHeartbeat final liveliness) = Some (set_w sys w') /\ good (set_w sys w') rp p /\ counts 1 (sys_w sys) w'.
Proof.
  intros G. pose proof G as [I L]. cbn [sys_step]. pose proof (si_w _ _ _ I) as W.
  destruct (periodic_heartbeat_ok _ _ rp final liveliness W) as (b & w' & E & S%only_sends_acts). rewrite E. exists w'. split; [done|].
  apply periodic_heartbeat_counts in E. rewrite (wo_readers _ _ _ W) in E. change (Z.max 1 (zlen [rp])) with 1 in E.
  split; [|done]. eapply good_writer; [exact G|exact S|exact E|by left|by left].
Qed.

Lemma good_nack_response sys rp p : good sys rp p ->
  exists w' rp', step sys EvNackResponse = Some (set_w sys w') /\ good (set_w sys w') rp' p /\ counts 0 (sys_w sys) w' /\ history_ w' = history_ (sys_w sys) /\
    (forall n, pending rp' n = match pending rp n with Some st => Some (if bool_decide (st = REQUESTED) then UNSENT else st) | None => None end).
Proof.
  intros G. pose proof G as [I L]. cbn [sys_step]. pose proof (si_w _ _ _ I) as W. destruct (nack_response_ok _ _ rp W) as (w' & rp' & E & A & _ & Eh & En & El & Hp).
  rewrite E. exists w', rp'. split; [done|]. apply nack_response_counts in E. split; [|done]. eapply good_writer; [exact G|exact A|exact E|by left|]. rewrite El. by left.
Qed.

Lemma good_nack_supression sys rp p : good sys rp p ->
  exists w' rp', step sys EvNackSupression = Some (set_w sys w') /\ good (set_w sys w') rp' p /\ counts 0 (sys_w sys) w' /\ history_ w' = history_ (sys_w sys) /\
    (forall n, pending rp' n = match pending rp n with Some st => Some (if bool_decide (st = UNDERWAY) then UNACKNOWLEDGED else st) | None => None end).
Proof.
  intros G. pose proof G as [I L]. cbn [sys_step]. pose proof (si_w _ _ _ I) as W. destruct (nack_supression_ok _ _ rp reader_guid W) as (w' & rp' & E & A & _ & Eh & En & El & Hp).
  rewrite E. exists w', rp'. split; [done|]. apply nack_supression_counts in E. split; [|split; [done|split; [done|]]].
  - eapply good_writer; [exact G|exact A|exact E|by left|]. rewrite El. by left.
  - intros n. rewrite Hp. by rewrite bool_decide_eq_true_2 by apply (lv_guid _ _ _ _ L).
Qed.

Lemma good_writer_gets sys rp p i g sns count final : good sys rp p -> sr_sent (sys_r sys) !! i = Some (ACKNACK g sns count final) ->
  exists w' rp', step sys (EvWriterGets i) = Some (set_w sys w') /\ good (set_w sys w') rp' p /\ counts 1 (sys_w sys) w' /\ last_of w' = last_of (sys_w sys) /\
    (next_expected_acknack_count_ rp <= count -> 0 < sn_val (base_ sns) -> heard (sys_w sys) rp sns w' rp').
Proof.
  intros G Em. pose proof G as [I L]. cbn [sys_step]. rewrite Em. apply list_elem_of_lookup_2 in Em. pose proof (si_w _ _ _ I) as W.
  pose proof (si_replies _ _ _ I) as Hre. rewrite list.Forall_forall in Hre. pose proof (Hre _ Em) as Hack. simpl in Hack.
  pose proof (lv_replies _ _ _ _ L) as Hrk. rewrite list.Forall_forall in Hrk. destruct (Hrk _ Em) as (-> & Hb & _).
  destruct (process_acknack_ok _ listener _ rp (m_guid (sys_w sys)) reader_guid count sns final W Hack) as (b & w' & rp' & E & A & Hn & Hl & Hh). rewrite E. exists w', rp'. split; [done|].
  apply process_acknack_counts in E. split; [|split; [done|split; [apply A|]]].
  - eapply good_writer; [exact G|exact A|exact E| |].
    + destruct Hn as [?|Hn]; [by left|right]. by exists (m_guid (sys_w sys)), sns, count, final.
    + intros n Hi Hle. destruct (Hl n Hi Hle) as [?|Hlt]; [by left|right]. left. lia.
  - intros Hc Hpos. apply Hh; [done|apply L|done|done].
Qed.

(** All of them together. *)
Lemma good_step sys rp p ev : good sys rp p -> exists sys' rp' p', step sys ev = Some sys' /\ good sys' rp' p'.
Proof.
  intros G. destruct ev as [allowed ch relevant|s flow|i add used|final liveliness| | |i|i time data room| | |i|i].
  - destruct (good_write sys rp p allowed ch relevant G) as (sys' & rp' & ? & ?). by exists sys', rp', p.
  - destruct (good_remove sys rp p s flow G) as (sys' & rp' & ? & ?). by exists sys', rp', p.
  - destruct (m_changes (history_ (sys_w sys)) !! i) as [o|] eqn:Eo; [|exists sys, rp, p; cbn [sys_step]; by rewrite Eo].
    destruct (good_send sys rp p i o add used G Eo) as (w' & rp' & ? & ? & _). by eexists _, rp', p.
  - destruct (good_heartbeat sys rp p final liveliness G) as (w' & ? & ? & _). by eexists _, rp, p.
  - destruct (good_nack_response sys rp p G) as (w' & rp' & ? & ? & _). by eexists _, rp', p.
  - destruct (good_nack_supression sys rp p G) as (w' & rp' & ? & ? & _). by eexists _, rp', p.
  - destruct (sr_sent (sys_r sys) !! i) as [[g sns count final|]|] eqn:Em; [|exists sys, rp, p; cbn [sys_step]; by rewrite Em..].
    destruct (good_writer_gets sys rp p i g sns count final G Em) as (w' & rp' & ? & ? & _). by eexists _, rp', p.
  - destruct (sent_ (sys_w sys) !! i) as [m|] eqn:Em; [|exists sys, rp, p; cbn [sys_step]; by rewrite Em].
    destruct (good_gets sys rp p i m time data room G Em) as (r' & p' & ? & ? & _). by eexists _, rp, p'.
  - destruct (good_answer sys rp p G) as (r' & p' & ? & ? & _). by eexists _, rp, p'.
  - destruct (good_initial sys rp p G) as (r' & p' & ? & ?). by eexists _, rp, p'.
  - destruct (step_ok listener reader_guid sys rp p (EvRead i) (proj1 G)) as (sys' & _ & _ & E & _). exists sys', rp, p. split; [done|]. eapply good_access; [exact G| |exact E]. exists i. by left.
  - destruct (step_ok listener reader_guid sys rp p (EvTake i) (proj1 G)) as (sys' & _ & _ & E & _). exists sys', rp, p. split; [done|]. eapply good_access; [exact G| |exact E]. exists i. by right.
Qed.

Lemma good_run evs : forall sys rp p sys', good sys rp p -> sys_run listener reader_guid sys evs = Some sys' -> exists rp' p', good sys' rp' p'.
Proof.
  induction evs as [|ev evs IH]; intros sys rp p sys' G E; cbn [sys_run] in E; [injection E as <-; by exists rp, p|].
  destruct (good_step sys rp p ev G) as (sys1 & rp1 & p1 & E1 & G1). rewrite E1 in E. cbn [mbind option_bind] in E. by eapply IH.
Qed.
End Steps.
End Live.

(** ** The start *)

Lemma init_good a d ns rd ad now nopos sys : remote_pair a d -> sys_init a d ns rd ad now nopos = Some sys -> exists rp p, good (rd_guid d) sys rp p.
Proof.
  intros Hp E. destruct (sys_init_ok a d ns rd ad now nopos Hp) as (sys1 & rp & p & E1 & I & Eg). rewrite E in E1. injection E1 as <-. exists rp, p. split; [done|].
  destruct Hp as (Ha & _ & Hd & Hl & Hs & Hr). destruct d as [guid lo ds dur iq rel npa]. simpl in *. subst lo ds rel.
  unfold sys_init, matched_reader_add_edp in E. simpl rd_guid in E. rewrite bool_decide_eq_false_2 in E by done. cbn [StatefulWriter_new matched_remote_readers_ find_reader] in E.
  destruct (first_match a ns now guid dur iq npa) as (rp1 & E1 & _). rewrite E1 in E. cbn [mbind option_bind] in E. unfold matched_writer_add_edp in E.
  cbn [StatefulReader_new sr_alive negb matched_writers_ existsb app] in E. injection E as <-. rewrite Ha in *.
  pose proof (rr_proxy _ _ _ (si_r _ _ _ I)) as Ep. unfold acceptMsgFrom in Ep. simpl in Ep. rewrite bool_decide_eq_true_2 in Ep by done. simpl in Ep. injection Ep as <-.
  split; simpl; try done.
  - split; [done|]. intros _. constructor; [done|constructor].
  - pose proof (wo_readers _ _ _ (si_w _ _ _ I)) as Er. simpl in Er. injection Er as <-. clear - E1.
    intros _. assert (next_expected_acknack_count_ rp1 = 0) as ->; [|done]. destruct dur; vm_compute in E1; by injection E1 as <-.
  - intros n Hn. by apply elem_of_nil in Hn.
Qed.
