(* ===== verification/Recovery.v ===== *)
(** * Recovery

    Whatever has been lost so far, the protocol repairs it: from every state that a
    run reaches there is a schedule of timers and messages, without a new write or
    a removal, after which the writer finds that its reader is up to date.  The
    length of the schedule is bounded.

    A round of the schedule lets the timers of the writer run, sends what has not
    been sent, gets a heartbeat to the reader and its answer to the writer, and gets
    the reader the sample or the GAP it asked for first.  It ends with nothing left
    to acknowledge or with the reader's low mark moved on. *)

From Stdlib Require Import Sorted.
From S2P Require Import Prelude FastBuffer SequenceNumber BitmapRange RangeSpec TimedEvent WriterProxy WriterProxyInv WriterProxyLaws ParameterList CdrMessage Fragments.
From S2P Require Import GapBuilder WriterHistory ChangeForReader ReaderProxy ReaderProxyInv ReaderProxyLaws StatefulWriter Delivery.
From S2P Require Import ReaderHistory StatefulReader StatefulReaderLaws StatefulWriterLaws.
From S2P Require Import System SystemInv Reliability Heartbeats Progress.

Implicit Types (w : StatefulWriter) (r : StatefulReader) (rp : ReaderProxy) (p : WriterProxy) (s : SequenceNumber_t) (g : GUID_t).
Implicit Types (sys : System).

(** ** Schedules *)

(** What the timers, the flow controller and the network do. *)
Definition protocol_event (ev : Event) : bool :=
  match ev with EvWrite _ _ _ | EvRemove _ _ | EvRead _ | EvTake _ => false | _ => true end.

Section Recovery.
Context `{P : Platform} (listener : Listener) (reader_guid : GUID_t).
Notation step := (sys_step listener reader_guid).
Notation run := (sys_run listener reader_guid).
Notation good := (good reader_guid).

(** At most [k] events lead from one state to another. *)
Definition leads (k : Z) sys sys' : Prop :=
  exists evs, forallb protocol_event evs = true /\ zlen evs <= k /\ run sys evs = Some sys' /\
    beats (sent_ (sys_w sys')) <= beats (sent_ (sys_w sys)) + 4 * k /\ zlen (sr_sent (sys_r sys')) <= zlen (sr_sent (sys_r sys)) + k /\
    last_of (sys_w sys') = last_of (sys_w sys) /\ relevant_ sys' = relevant_ sys /\ dropped_ sys' = dropped_ sys.

Lemma leads_refl k sys : 0 <= k -> leads k sys sys.
Proof. intros Hk. exists []. unfold zlen at 1. simpl. repeat split; lia. Qed.

Lemma leads_more k k' sys sys' : leads k sys sys' -> k <= k' -> leads k' sys sys'.
Proof. intros (evs & A & B & C & D & E & F & G & H) Hk. exists evs. repeat split; try done; lia. Qed.

Lemma run_app evs1 evs2 sys sys1 : run sys evs1 = Some sys1 -> run sys (evs1 ++ evs2) = run sys1 evs2.
Proof.
  revert sys. induction evs1 as [|ev evs1 IH]; intros sys E; cbn [sys_run app] in *; [by injection E as <-|].
  apply bind_Some in E as (sys2 & E1 & E2). rewrite E1. cbn [mbind option_bind]. by apply IH.
Qed.

Lemma leads_trans k1 k2 sys1 sys2 sys3 : leads k1 sys1 sys2 -> leads k2 sys2 sys3 -> leads (k1 + k2) sys1 sys3.
Proof.
  intros (e1 & A1 & B1 & C1 & D1 & E1 & F1 & G1 & H1) (e2 & A2 & B2 & C2 & D2 & E2 & F2 & G2 & H2). exists (e1 ++ e2).
  split; [by rewrite forallb_app, A1, A2|]. split; [unfold zlen in *; rewrite length_app; lia|]. split; [by rewrite (run_app _ _ _ _ C1)|].
  repeat split; [lia|lia|congruence|congruence|congruence].
Qed.

Lemma leads_writer sys ev w' k : protocol_event ev = true -> step sys ev = Some (set_w sys w') -> counts k (sys_w sys) w' -> k <= 4 ->
  last_of w' = last_of (sys_w sys) -> leads 1 sys (set_w sys w').
Proof.
  intros Hp E (_ & (ms & Es & Hb) & _) Hk El. exists [ev]. simpl. rewrite Hp, E. cbn [mbind option_bind]. split; [done|]. split; [done|]. split; [done|].
  rewrite Es, beats_app. repeat split; [lia|lia|done].
Qed.

Lemma leads_reader sys ev r' : protocol_event ev = true -> step sys ev = Some (set_r sys r') -> zlen (sr_sent r') <= zlen (sr_sent (sys_r sys)) + 1 -> leads 1 sys (set_r sys r').
Proof.
  intros Hp E Hz. exists [ev]. simpl. rewrite Hp, E. cbn [mbind option_bind]. split; [done|]. split; [done|]. split; [done|]. repeat split; [lia|lia].
Qed.

(** ** The heartbeat *)

Lemma pending_history sys rp p n : good sys rp p -> pending rp n <> None -> in_history (history_ (sys_w sys)) n.
Proof. intros [I _] Hn. by destruct (pending_in _ rp n (wo_rp _ _ _ (si_w _ _ _ I)) Hn). Qed.

(** The heartbeat names the first and the last number of the history. *)
Lemma beat_explicit w final liveliness : history_ok (history_ w) -> (exists n, in_history (history_ w) n) ->
  send_heartbeat_nts_ w 1 final liveliness =
    Some (set_logs w (u32 (heartbeat_count_ w + 1)) (sent_ w ++ [HEARTBEAT (get_seq_num_min (history_ w)) (get_seq_num_max (history_ w)) (u32 (heartbeat_count_ w + 1)) final liveliness])
            (scheduled_ w) (told_ w)).
Proof.
  intros Hh [n Hn]. unfold send_heartbeat_nts_. cbn [Z.eqb]. destruct (ends_of_history _ Hh) as [(_ & _ & Hno)|(_ & _ & -> & -> & _ & _ & -> & _)]; [by destruct (Hno n)|]. done.
Qed.

Definition full_heartbeat w w' : Prop :=
  HEARTBEAT (get_seq_num_min (history_ w)) (get_seq_num_max (history_ w)) (u32 (heartbeat_count_ w + 1)) false false ∈ sent_ w' /\ history_ w' = history_ w /\
  forall n, hole (history_ w) n -> exists s l d, GAP s l d ∈ sent_ w' /\ declares (s, l) n.

Lemma gaps_and_beat exc w rp reader w' : writer_ok exc w rp -> writer_disable_positive_acks_ w = false -> (exists n, in_history (history_ w) n) ->
  (w1 ← add_gaps_for_holes_in_history w reader; send_heartbeat_nts_ w1 1 (writer_disable_positive_acks_ w1) false) = Some w' -> full_heartbeat w w'.
Proof.
  intros W Hf Hn E. destruct (gaps_sent exc w rp reader W) as (w1 & ms & E1 & (count & os & told & Ew1) & _ & _ & _ & Hg). rewrite E1 in E. cbn [mbind option_bind] in E.
  assert (history_ w1 = history_ w /\ writer_disable_positive_acks_ w1 = false /\ sent_ w1 = sent_ w ++ ms /\ heartbeat_count_ w1 = heartbeat_count_ w) as (Eh & Ef & Es & Ec).
  { rewrite Ew1. repeat split; [done|]. simpl. clear - E1 Ew1. unfold add_gaps_for_holes_in_history in E1. destruct (_ && _); [|injection E1 as <-; exact (eq_sym (f_equal heartbeat_count_ Ew1))].
    destruct (m_changes (history_ w)); [injection E1 as <-; exact (eq_sym (f_equal heartbeat_count_ Ew1))|]. apply bind_Some in E1 as (xs & _ & E1). apply bind_Some in E1 as ([b log] & _ & E1).
    injection E1 as <-. by injection Ew1. }
  rewrite Ef, beat_explicit in E by (rewrite Eh; done || apply W). injection E as <-. split; [|split; [done|]].
  - simpl. rewrite Eh, Ec. apply elem_of_app. right. left.
  - intros n Hn'. destruct (Hg n Hn') as (s & l & Hin & Hd). exists s, l, reader. split; [|done]. simpl. rewrite Es. apply elem_of_app. left. apply elem_of_app. by right.
Qed.

Lemma heartbeat_comes sys rp p n : good sys rp p -> pending rp n = Some UNACKNOWLEDGED ->
  exists w', step sys (EvHeartbeat false false) = Some (set_w sys w') /\ good (set_w sys w') rp p /\ counts 1 (sys_w sys) w' /\ full_heartbeat (sys_w sys) w'.
Proof.
  intros G Hn. destruct (good_heartbeat reader_guid listener sys rp p false false G) as (w' & E & G' & C). exists w'. split; [done|]. split; [done|]. split; [done|].
  pose proof G as [I L]. pose proof (si_w _ _ _ I) as W. assert (exists n, in_history (history_ (sys_w sys)) n) as Hh by (exists n; apply (pending_history sys rp p n G); by rewrite Hn).
  pose proof (lv_final _ _ _ _ L) as Hf. cbn [sys_step] in E. apply bind_Some in E as ([b w1] & E & Ew). injection Ew as Ew. rewrite Ew in E. clear Ew.
  assert (forall first, has_unacknowledged rp first = true) as Hun.
  { intros first. unfold has_unacknowledged. destruct (sn_gtb _ _); [done|]. apply existsb_exists. apply status_of_Some in Hn as (c & Hc & _ & Est). exists c.
    split; [by apply list_elem_of_In|by apply bool_decide_eq_true]. }
  unfold send_periodic_heartbeat in E. cbn [negb] in E. rewrite (wo_readers _ _ _ W) in E. cbn [existsb] in E. rewrite Hun in E. cbn [orb] in E. apply bind_Some in E as (w2 & E & Ew).
  injection Ew as <- <-. unfold send_heartbeat_to_all_readers in E. rewrite (wo_readers _ _ _ W) in E.
  pose proof (wo_kind _ _ _ W) as Hki. unfold is_remote_and_reliable in Hki. apply andb_true_iff in Hki as [_ Hrel].
  destruct (ends_of_history _ (wo_history _ _ _ W)) as [(_ & _ & Hno)|(_ & _ & Hmi & Hma & _ & _ & Hle & _)]; [destruct Hh as [m Hm]; by destruct (Hno m)|].
  destruct (separate_sending_enabled_ (sys_w sys)).
  - cbn [send_heartbeat_to_each] in E. unfold send_heartbeat_to_nts in E. rewrite Hrel, Hun, Hmi, Hma, Hle in E. cbn [orb andb negb assert] in E.
    apply bind_Some in E as (w3 & E & E3). injection E3 as ->. by eapply gaps_and_beat.
  - rewrite (sn_eqb_sym sn_unknown), Hmi, (sn_eqb_sym sn_unknown), Hma in E. cbn [Bool.eqb assert] in E. by eapply gaps_and_beat.
Qed.

(** ** The timers of the writer *)

(** Everything that is unsent is sent. *)
Lemma send_all l : forall sys rp p, good sys rp p -> (forall n, pending rp n = Some UNSENT -> n ∈ l) -> (forall n, pending rp n <> Some REQUESTED) ->
  exists sys' rp', leads (zlen l) sys sys' /\ good sys' rp' p /\ (forall n, pending rp' n <> Some UNSENT /\ pending rp' n <> Some REQUESTED) /\
    (forall n, pending rp' n = None <-> pending rp n = None).
Proof.
  induction l as [|k l IH]; intros sys rp p G Hl Hr.
  { exists sys, rp. split; [by apply leads_refl|]. split; [done|]. split; [|done]. intros n. split; [|done]. intros Hn%Hl. by apply elem_of_nil in Hn. }
  assert (zlen (k :: l) = 1 + zlen l) as -> by (unfold zlen; simpl; lia). assert (0 <= zlen l) by (unfold zlen; lia).
  destruct (decide (pending rp k = Some UNSENT)) as [Hk|Hk].
  2:{ destruct (IH sys rp p G) as (sys' & rp' & L & R); [|done|exists sys', rp'; split; [eapply leads_more; [exact L|lia]|done]].
      intros n Hn. destruct (elem_of_cons l n k) as [Hc _]. destruct (Hc (Hl n Hn)) as [->|]; done. }
  assert (in_history (history_ (sys_w sys)) k) as Hin by (apply (pending_history sys rp p k G); by rewrite Hk).
  apply list_elem_of_fmap in Hin as (o & Eo & Ho). simpl in Eo. apply list_elem_of_lookup_1 in Ho as [i Hi].
  destruct (good_send reader_guid listener sys rp p i o (fun _ _ => Added) (fun _ => false) G Hi) as (w' & rp1 & E & G1 & C & El & Hp & Hu).
  destruct Hu as [Hu _]; [apply bool_decide_eq_true; by rewrite <- Eo|done|]. rewrite <- Eo in *.
  destruct (IH (set_w sys w') rp1 p G1) as (sys' & rp' & L & G' & H1 & H2).
  - intros n Hn. destruct (Z.eq_dec n k) as [->|Hne]; [congruence|]. rewrite Hp in Hn by done. destruct (elem_of_cons l n k) as [Hc _]. by destruct (Hc (Hl n Hn)).
  - intros n. destruct (Z.eq_dec n k) as [->|Hne]; [congruence|]. rewrite Hp by done. apply Hr.
  - exists sys', rp'. split; [|split; [done|split; [done|]]].
    + eapply leads_trans; [|exact L]. eapply leads_writer; [|exact E|exact C|done|done]. done.
    + intros n. rewrite H2. destruct (Z.eq_dec n k) as [->|Hne]; [rewrite Hu, Hk; done|by rewrite Hp].
Qed.

(** The timers run, and everything pending waits for its acknowledgement. *)
Lemma settle sys rp p : good sys rp p ->
  exists sys' rp', leads (last_of (sys_w sys) + 2) sys sys' /\ good sys' rp' p /\ forall n, pending rp' n = match pending rp n with Some _ => Some UNACKNOWLEDGED | None => None end.
Proof.
  intros G. destruct (good_nack_response reader_guid listener sys rp p G) as (w1 & rp1 & E1 & G1 & C1 & Eh1 & Hp1).
  pose proof (usable_range _ (ho_last _ (wo_history _ _ _ (si_w _ _ _ (proj1 G))))) as Hlast.
  destruct (send_all (seqZ 1 (last_of (sys_w sys))) (set_w sys w1) rp1 p G1) as (sys2 & rp2 & L2 & G2 & Hp2 & Hn2).
  { intros n Hn. apply elem_of_seqZ. assert (in_history (history_ w1) n) as Hi by (apply (pending_history _ rp1 p n G1); by rewrite Hn). rewrite Eh1 in Hi.
    apply history_bounds in Hi; [lia|apply (si_w _ _ _ (proj1 G))]. }
  { intros n. rewrite Hp1. destruct (pending rp n) as [st|]; [|done]. by case_bool_decide as Hst; [|intros [= ->]]. }
  destruct (good_nack_supression reader_guid listener sys2 rp2 p G2) as (w3 & rp3 & E3 & G3 & C3 & Eh3 & Hp3).
  exists (set_w sys2 w3), rp3. split; [|split; [done|]].
  - apply (leads_more (1 + zlen (seqZ 1 (last_of (sys_w sys))) + 1)); [|unfold zlen; rewrite length_seqZ; lia].
    eapply leads_trans; [eapply leads_trans; [|exact L2]|]; [eapply leads_writer; [|exact E1|exact C1|done|by rewrite Eh1]; done|].
    eapply leads_writer; [|exact E3|exact C3|done|by rewrite Eh3]. done.
  - intros n. rewrite Hp3. specialize (Hn2 n). rewrite Hp1 in Hn2. destruct (Hp2 n) as [Hu Hr]. pose proof (wo_noack _ _ _ (si_w _ _ _ (proj1 G2)) n) as Ha.
    destruct (pending rp n) as [st|]; [|by rewrite (proj2 Hn2)]. destruct (pending rp2 n) as [[]|]; try done; try congruence. by destruct Hn2 as [Hx _]; specialize (Hx eq_refl).
Qed.

(** ** A round *)

(** A message of the writer that tells the reader about the next number. *)
Lemma next_learned sys rp p m room : good sys rp p -> m ∈ sent_ (sys_w sys) ->
  match m with DATA o _ _ => room = true /\ sn_val (out_seq o) = low_of p + 1 | GAP s l _ => declares (s, l) (low_of p + 1) | _ => False end ->
  exists sys' p', leads 1 sys sys' /\ good sys' rp p' /\ low_of p < low_of p'.
Proof.
  intros G (i & Hi)%list_elem_of_lookup_1 Hm. destruct (good_gets reader_guid listener sys rp p i m 0 [] room G Hi) as (r' & p' & E & G' & Hk & Hl & Es).
  exists (set_r sys r'), p'. split; [eapply leads_reader; [|exact E|rewrite Es; lia]; done|]. split; [done|].
  assert (known p' (low_of p + 1)) as Hn.
  { destruct m as [o ? ?| |s l ?|]; try done; simpl in Hl; [destruct Hm as [-> <-]; by apply Hl|by apply Hl]. }
  pose proof (rr_inv _ _ _ (si_r _ _ _ (proj1 G))) as W. pose proof (rr_inv _ _ _ (si_r _ _ _ (proj1 G'))) as W'. pose proof (low_grows p p' W W' Hk) as Hle.
  destruct (Z.eq_dec (low_of p) (low_of p')) as [Heq|]; [|lia]. exfalso. apply (next_unknown p' W'). by rewrite <- Heq.
Qed.

(** The reader answers, and the writer hears the answer. *)
Lemma answered sys rp p : good sys rp p -> heartbeat_final_flag_ p = false -> zlen (sr_sent (sys_r sys)) + 2 < 2 ^ 32 ->
  exists sys' rp' p' sns, leads 2 sys sys' /\ good sys' rp' p' /\ low_of p' = low_of p /\ acknack_of p sns /\ heard (sys_w sys) rp sns (sys_w sys') rp'.
Proof.
  intros G Hf Hb. destruct (good_answer reader_guid listener sys rp p G) as (r1 & p1 & E1 & G1 & (_ & N2 & _) & Ha & Hz). destruct (Ha Hf) as (sns & fin & Hsns & Es).
  set (count := u32 (acknack_count_ (sys_r sys) + 1)) in Es. set (k := zlen (sr_sent (sys_r sys))) in *.
  assert (sr_sent (sys_r (set_r sys r1)) !! length (sr_sent (sys_r sys)) = Some (ACKNACK (m_guid (sys_w sys)) sns count fin)) as Hi.
  { simpl. rewrite Es, lookup_app_r by done. by rewrite Nat.sub_diag. }
  destruct (good_writer_gets reader_guid listener (set_r sys r1) rp p1 _ _ _ _ _ G1 Hi) as (w2 & rp2 & E2 & G2 & C2 & El2 & Hh2).
  exists (set_w (set_r sys r1) w2), rp2, p1, sns. split; [|split; [done|split; [by rewrite N2|split; [done|]]]].
  - apply (leads_trans 1 1 sys (set_r sys r1)); [eapply leads_reader; [|exact E1|exact Hz]; done|]. eapply leads_writer; [|exact E2|exact C2|done|done]. done.
  - assert (0 <= k) by (unfold k, zlen; lia). pose proof (proj2 G) as L. apply Hh2.
    + unfold count. rewrite (lv_count _ _ _ _ L). fold k. unfold u32. rewrite Zplus_mod_idemp_l, Z.mod_small by lia. apply (lv_next _ _ _ _ L). fold k. lia.
    + destruct Hsns as (_ & -> & _). pose proof (usable_range _ (wi_low _ (rr_inv _ _ _ (si_r _ _ _ (proj1 G))))). lia.
Qed.

(** The next number of the reader comes, when it is in the history. *)
Lemma next_comes sys rp p sys2 rp2 p2 sns : good sys rp p -> good sys2 rp2 p2 -> (forall n st, pending rp n = Some st -> st = UNACKNOWLEDGED) ->
  low_of p2 = low_of p -> acknack_of p sns -> heard (sys_w sys) rp sns (sys_w sys2) rp2 ->
  in_history (history_ (sys_w sys)) (low_of p + 1) -> low_of p + 1 <= sn_val (max_sequence_number_ p) ->
  exists sys' rp' p', leads 3 sys2 sys' /\ good sys' rp' p' /\ low_of p < low_of p'.
Proof.
  intros G G2 Hun El (_ & Hb & Hh) [Hp Hg] Hi Hm. pose proof (rr_inv _ _ _ (si_r _ _ _ (proj1 G))) as W. pose proof (next_unknown p W) as Hno.
  assert (has sns (low_of p + 1) = true) as Hhas by (apply Hh; split; [done|lia]). destruct (pending rp (low_of p + 1)) as [st|] eqn:Ep.
  - apply Hun in Ep as Est. subst st. specialize (Hp (low_of p + 1)). rewrite Hb, Z.ltb_irrefl, Hhas, Ep in Hp. simpl in Hp.
    destruct (good_nack_response reader_guid listener sys2 rp2 p2 G2) as (w3 & rp3 & E3 & G3 & C3 & Eh3 & Hp3). specialize (Hp3 (low_of p + 1)). rewrite Hp in Hp3. simpl in Hp3.
    assert (in_history (history_ w3) (low_of p + 1)) as Hin by (apply (pending_history _ rp3 p2 _ G3); by rewrite Hp3).
    apply list_elem_of_fmap in Hin as (o & Eo & Ho). simpl in Eo. apply list_elem_of_lookup_1 in Ho as [i Ho].
    destruct (good_send reader_guid listener (set_w sys2 w3) rp3 p2 i o (fun _ _ => Added) (fun _ => false) G3 Ho) as (w4 & rp4 & E4 & G4 & C4 & El4 & _ & Hu).
    destruct Hu as (_ & b & x & Hd); [apply bool_decide_eq_true; by rewrite <- Eo|done|].
    destruct (next_learned _ rp4 p2 (DATA o b x) true G4 Hd) as (sys5 & p5 & L5 & G5 & Hlt); [split; [done|lia]|].
    exists sys5, rp4, p5. split; [|split; [done|lia]]. apply (leads_trans 2 1 sys2 (set_w (set_w sys2 w3) w4)); [|done].
    apply (leads_trans 1 1 sys2 (set_w sys2 w3)); [eapply leads_writer; [|exact E3|exact C3|done|by rewrite Eh3]; done|eapply leads_writer; [|exact E4|exact C4|done|done]; done].
  - destruct (Hg (low_of p + 1) Hhas Ep Hi) as (s & l & d & Hin & Hd).
    { apply Z.nle_gt. intros Hle. apply Hno. by apply (lv_low _ _ _ _ (proj2 G)). }
    destruct (next_learned sys2 rp2 p2 (GAP s l d) true G2 Hin) as (sys5 & p5 & L5 & G5 & Hlt); [by rewrite El|].
    exists sys5, rp2, p5. split; [eapply leads_more; [exact L5|lia]|]. split; [done|lia].
Qed.

Lemma round sys rp p : let last := last_of (sys_w sys) in good sys rp p -> (exists n, pending rp n <> None) ->
  beats (sent_ (sys_w sys)) + 4 * (last + 9) < 2 ^ 32 -> zlen (sr_sent (sys_r sys)) + (last + 9) < 2 ^ 32 ->
  exists sys' rp' p', leads (last + 9) sys sys' /\ good sys' rp' p' /\ ((forall n, pending rp' n = None) \/ low_of p < low_of p').
Proof.
  intros last G [n Hn] Hb Ha. destruct (settle sys rp p G) as (sys1 & rp1 & L1 & G1 & Hp1). fold last in L1.
  assert (pending rp1 n = Some UNACKNOWLEDGED) as Hn1 by (rewrite Hp1; by destruct (pending rp n)).
  destruct (heartbeat_comes sys1 rp1 p n G1 Hn1) as (w2 & E2 & G2 & C2 & Hbeat & Eh2 & Hholes). set (sys2 := set_w sys1 w2) in *.
  assert (leads (last + 3) sys sys2) as L2.
  { apply (leads_more (last + 2 + 1)); [|lia]. eapply leads_trans; [exact L1|]. eapply leads_writer; [|exact E2|exact C2|done|by rewrite Eh2]. done. }
  pose proof Hbeat as Hbeat'. apply list_elem_of_lookup_1 in Hbeat as [i Hi].
  destruct (good_gets reader_guid listener sys2 rp1 p i _ 0 [] true G2 Hi) as (r3 & p3 & E3 & G3 & Hk3 & Hl3 & Es3). set (sys3 := set_r sys2 r3) in *.
  assert (leads (last + 4) sys sys3) as L3 by (apply (leads_more (last + 3 + 1)); [|lia]; eapply leads_trans; [exact L2|]; eapply leads_reader; [|exact E3|rewrite Es3; lia]; done).
  destruct L1 as (_ & _ & _ & _ & Hbe1 & _). assert (0 <= last) as Hlast0 by (apply (usable_range _ (ho_last _ (wo_history _ _ _ (si_w _ _ _ (proj1 G)))))).
  pose proof (rr_inv _ _ _ (si_r _ _ _ (proj1 G))) as W. pose proof (rr_inv _ _ _ (si_r _ _ _ (proj1 G3))) as W3. pose proof (low_grows p p3 W W3 Hk3) as Hlow3.
  destruct Hl3 as (Hbelow & Hmax & Hfin).
  { destruct (lv_beats _ _ _ _ (proj2 G1)) as [Ec _]. pose proof (lv_heard _ _ _ _ (proj2 G1)) as Hh. pose proof (beats_nonneg (sent_ (sys_w sys1))).
    rewrite Ec. unfold u32. rewrite Zplus_mod_idemp_l, Z.mod_small by lia. specialize (Hh ltac:(lia)). lia. }
  assert (Hstep : forall sys4 rp4 p4, leads 5 sys3 sys4 -> good sys4 rp4 p4 -> ((forall n, pending rp4 n = None) \/ low_of p < low_of p4) ->
    exists sys' rp' p', leads (last + 9) sys sys' /\ good sys' rp' p' /\ ((forall n, pending rp' n = None) \/ low_of p < low_of p')).
  { intros sys4 rp4 p4 L4 G4 H4. exists sys4, rp4, p4. split; [|done]. apply (leads_more (last + 4 + 5)); [|lia]. by eapply leads_trans. }
  destruct (Z.eq_dec (low_of p3) (low_of p)) as [Elow|Hne]; [|eapply (Hstep sys3); [by apply leads_refl|exact G3|right; lia]].
  set (h := history_ (sys_w sys1)) in *. pose proof (next_unknown p3 W3) as Hno. set (k := low_of p3 + 1) in *. assert (history_ (sys_w sys3) = h) as Eh3 by exact Eh2.
  destruct (ends_of_history h) as [(_ & _ & Hempty)|(_ & _ & _ & _ & Hmin & Hmx & _ & Hrange)]; [apply (si_w _ _ _ (proj1 G1))| |].
  { destruct (Hempty n). apply (pending_history sys1 rp1 p n G1). by rewrite Hn1. }
  destruct (decide (in_history h k)) as [Hin|Hout].
  - destruct (answered sys3 rp1 p3 G3 Hfin) as (sys4 & rp4 & p4 & sns & L4 & G4 & El4 & Hsns & Hheard).
    { destruct L3 as (_ & _ & _ & _ & _ & Hz & _). lia. }
    destruct (next_comes sys3 rp1 p3 sys4 rp4 p4 sns) as (sys5 & rp5 & p5 & L5 & G5 & Hlt); [done|done| |done|done|done|by rewrite Eh3|specialize (Hrange k Hin); fold k; lia|].
    { intros m st Hm. rewrite Hp1 in Hm. destruct (pending rp m); congruence. }
    eapply (Hstep sys5); [by apply (leads_trans 2 3 sys3 sys4)|exact G5|right; lia].
  - destruct (decide (k <= sn_val (get_seq_num_max h))) as [Hle|Hgt].
    + destruct (Hholes k) as (s & l & d & Hgap & Hd).
      { split; [done|]. exists (sn_val (get_seq_num_min h)), (sn_val (get_seq_num_max h)). split; [done|]. split; [done|].
        assert (sn_val (get_seq_num_min h) <= k) by (apply Z.nlt_ge; intros Hlt; by apply Hno, Hbelow). split; [|]; apply Z.le_neq; (split; [lia|]); intros E; apply Hout; congruence. }
      destruct (next_learned sys3 rp1 p3 (GAP s l d) true G3 Hgap) as (sys4 & p4 & L4 & G4 & Hlt); [done|].
      eapply (Hstep sys4); [by eapply leads_more; [exact L4|lia]|exact G4|right; lia].
    + destruct (answered sys3 rp1 p3 G3 Hfin) as (sys4 & rp4 & p4 & sns & L4 & G4 & El4 & (_ & Hbase & _) & Hheard & _).
      { destruct L3 as (_ & _ & _ & _ & _ & Hz & _). lia. }
      eapply (Hstep sys4); [apply (leads_more 2); [exact L4|lia]|exact G4|left]. intros m. rewrite Hheard, Hbase. fold k. destruct (Z.ltb_spec m k) as [|Hge]; [done|].
      assert (pending rp1 m = None) as ->; [|by destruct (has sns m)]. destruct (pending rp1 m) eqn:Em; [|done]. exfalso.
      assert (in_history h m) as Hm by (apply (pending_history sys1 rp1 p m G1); by rewrite Em). apply Hrange in Hm. lia.
Qed.

(** ** All the rounds *)

Lemma rounds m : forall sys rp p, let c := last_of (sys_w sys) + 9 in good sys rp p -> last_of (sys_w sys) - low_of p < Z.of_nat m ->
  beats (sent_ (sys_w sys)) + 4 * (Z.of_nat m * c) < 2 ^ 32 -> zlen (sr_sent (sys_r sys)) + Z.of_nat m * c < 2 ^ 32 ->
  exists sys' rp' p', leads (Z.of_nat m * c) sys sys' /\ good sys' rp' p' /\ changes_for_reader_ rp' = [].
Proof.
  induction m as [|m IH]; intros sys rp p c G Hm Hb Ha.
  { pose proof (si_max _ _ _ (proj1 G)). pose proof (wi_order _ (rr_inv _ _ _ (si_r _ _ _ (proj1 G)))). lia. }
  assert (0 <= last_of (sys_w sys)) as Hlast by (apply (usable_range _ (ho_last _ (wo_history _ _ _ (si_w _ _ _ (proj1 G)))))).
  assert (Z.of_nat (S m) * c = c + Z.of_nat m * c) as Ec by lia. rewrite Ec in *. assert (0 <= Z.of_nat m * c) as Hmc by (apply Z.mul_nonneg_nonneg; unfold c; lia).
  destruct (changes_for_reader_ rp) as [|x l] eqn:Ex; [exists sys, rp, p; split; [apply leads_refl; unfold c; lia|done]|].
  destruct (round sys rp p G) as (sys1 & rp1 & p1 & L1 & G1 & [Hno|Hlow]); [|fold c; lia|fold c; lia| |].
  { exists (sn_val (cfr_seq x)). rewrite Ex. simpl. by rewrite Z.eqb_refl. }
  - exists sys1, rp1, p1. split; [eapply leads_more; [exact L1|fold c; lia]|]. split; [done|]. destruct (changes_for_reader_ rp1) as [|y k] eqn:Ey; [done|].
    specialize (Hno (sn_val (cfr_seq y))). simpl in Hno. by rewrite Z.eqb_refl in Hno.
  - fold c in L1. pose proof L1 as (_ & _ & _ & _ & Hb1 & Ha1 & El & _). destruct (IH sys1 rp1 p1 G1) as (sys2 & rp2 & p2 & L2 & R); [lia|rewrite El; fold c; lia|rewrite El; fold c; lia|].
    exists sys2, rp2, p2. split; [|done]. eapply leads_trans; [exact L1|]. rewrite El in L2. exact L2.
Qed.
End Recovery.

(** The events that a recovery needs at most. *)
Definition recovery_events sys : Z := (last_of (sys_w sys) + 1) * (last_of (sys_w sys) + 9).

Section Guarantee.
Context `{P : Platform} (listener : Listener) (a : WriterAttributes) (d : ReaderData) (ns rd ad now : Z) (nopos : bool) (evs : list Event).
Context (Hpair : remote_pair a d).

(** C5: From every state of every run, as long as the counters of HEARTBEAT and
    ACKNACK messages do not wrap, a bounded number of timer events and arriving
    messages, with nothing written or removed, leads to a state in which the
    writer finds its reader up to date; every sample that the filter lets pass has
    then been received, unless it was removed before it was acknowledged. *)
Theorem loss_is_repaired sys : reached listener a d ns rd ad now nopos evs sys ->
  beats (sent_ (sys_w sys)) + 4 * recovery_events sys < 2 ^ 32 -> zlen (sr_sent (sys_r sys)) + recovery_events sys < 2 ^ 32 ->
  exists more sys', forallb protocol_event more = true /\ zlen more <= recovery_events sys /\ sys_run listener (rd_guid d) sys more = Some sys' /\
    all_readers_updated (sys_w sys') = true /\ forall n, n ∈ relevant_ sys -> received sys' n \/ n ∈ dropped_ sys.
Proof.
  intros (sys0 & E0 & E) Hb Ha. destruct (init_good a d ns rd ad now nopos sys0 Hpair E0) as (rp0 & p0 & G0).
  destruct (good_run (rd_guid d) listener evs sys0 rp0 p0 sys G0 E) as (rp & p & G). unfold recovery_events in *.
  assert (0 <= last_of (sys_w sys)) as Hlast by (apply (usable_range _ (ho_last _ (wo_history _ _ _ (si_w _ _ _ (proj1 G)))))).
  pose proof (usable_range _ (wi_low _ (rr_inv _ _ _ (si_r _ _ _ (proj1 G))))) as Hlow.
  destruct (rounds listener (rd_guid d) (Z.to_nat (last_of (sys_w sys) + 1)) sys rp p G) as (sys' & rp' & p' & L & G' & Hno); rewrite ?Z2Nat.id by lia; [lia|done|done|].
  rewrite Z2Nat.id in L by lia. destruct L as (more & M1 & M2 & M3 & _ & _ & _ & Er & Ed). exists more, sys'. do 3 (split; [done|]).
  pose proof (proj1 G') as I'. pose proof (si_w _ _ _ I') as W'. split; [unfold all_readers_updated; rewrite (wo_readers _ _ _ W'); simpl; unfold has_changes; by rewrite Hno|].
  intros n Hn. rewrite <- Er in Hn. rewrite <- Ed. pose proof (si_relevant _ _ _ I') as HR. rewrite list.Forall_forall in HR. specialize (HR n Hn).
  destruct (wo_settled _ _ _ W' n) as [?|[?|?]]; [lia|by rewrite Hno|done|by left|by right].
Qed.
End Guarantee.

(** The second of three samples was lost and requested again. *)
Lemma loss_is_repaired_witness :
  all_readers_updated (sys_w (sample_after sample_loss)) = false /\
  exists more sys', sys_run (P := host) None guid_b (sample_after sample_loss) more = Some sys' /\ all_readers_updated (sys_w sys') = true /\ received sys' 2.
Proof.
  split; [vm_compute; reflexivity|].
  destruct (loss_is_repaired (P := host) None sample_writer sample_reader 0 5000 70000 0 false sample_loss sample_pair _ sample_loss_reached) as (more & sys' & _ & _ & E & Hu & Hr).
  - vm_compute. reflexivity.
  - vm_compute. reflexivity.
  - exists more, sys'. split; [exact E|]. split; [exact Hu|]. destruct (Hr 2) as [Hx|Hx].
    + vm_compute. repeat constructor.
    + exact Hx.
    + vm_compute in Hx. exfalso. exact (not_elem_of_nil 2 Hx).
Defined.
