(* ===== verification/LimitedVector.v ===== *)
(** * Vectors with a limit

    Models [ResourceLimitedVector] and [ResourceLimitedContainerConfig]
    ([Fast-DDS/include/fastdds/utils/collections]): a vector whose capacity grows by
    a fixed increment up to a maximum.  [std::vector::reserve] allocates what it is
    asked for.  Other files use [put], what [emplace_back] does to the elements of
    a vector that was made with a sound configuration. *)

From S2P Require Import Prelude.

Record ContainerConfig := mkConfig { cfg_initial : Z; cfg_maximum : Z; cfg_increment : Z }.

Definition fixed_size_configuration (size : Z) : ContainerConfig := mkConfig size size 0.
Definition dynamic_allocation_configuration (increment : Z) : ContainerConfig :=
  mkConfig 0 (2 ^ 64 - 1) (if increment =? 0 then 1 else increment).

Record LimitedVector (A : Type) := mkLV { configuration_ : ContainerConfig; collection_ : list A; capacity_ : Z }.
Arguments mkLV {A} _ _ _.
Arguments configuration_ {A} _.
Arguments collection_ {A} _.
Arguments capacity_ {A} _.

(** [do_remove] of a vector that does not keep the order: the last element takes
    the place. *)
Definition do_remove {A} (l : list A) (i : nat) : list A :=
  match list.last l with
  | Some x => take (pred (length l)) (<[i := x]> l)
  | None => l
  end.

(** The index of the first element with a property. *)
Fixpoint index_of {A} (p : A -> bool) (l : list A) : option nat :=
  match l with
  | [] => None
  | x :: l => if p x then Some O else S <$> index_of p l
  end.

(** [remove_if] on the elements, without keeping the order and with it. *)
Definition swap_remove_if {A} (p : A -> bool) (l : list A) : bool * list A :=
  match index_of p l with Some i => (true, do_remove l i) | None => (false, l) end.
Definition erase_if {A} (p : A -> bool) (l : list A) : bool * list A :=
  match index_of p l with Some i => (true, delete i l) | None => (false, l) end.

(** An element at the end, when there is room. *)
Definition put {A} (limit : Z) (l : list A) (x : A) : list A := if zlen l <? limit then l ++ [x] else l.

Section Vector.
Context {A : Type}.
Implicit Types (v : LimitedVector A) (x : A) (l : list A).

Definition vector_new (cfg : ContainerConfig) : LimitedVector A := mkLV cfg [] (cfg_initial cfg).

Definition with_collection v l : LimitedVector A := mkLV (configuration_ v) l (capacity_ v).

(** [None]: the assertion on the increment fails. *)
Definition ensure_capacity v : option (bool * LimitedVector A) :=
  let cfg := configuration_ v in
  if zlen (collection_ v) =? capacity_ v then
    if capacity_ v <? cfg_maximum cfg then
      if 0 <? cfg_increment cfg then
        Some (true, mkLV cfg (collection_ v) (Z.max (capacity_ v) (Z.min (size_t (capacity_ v + cfg_increment cfg)) (cfg_maximum cfg))))
      else None
    else Some (false, v)
  else Some (true, v).

Definition emplace_back v x : option (bool * LimitedVector A) :=
  '(room, v) ← ensure_capacity v;
  Some (if room : bool then (true, with_collection v (collection_ v ++ [x])) else (false, v)).

Definition insert_at v (pos : nat) x : option (bool * LimitedVector A) :=
  '(room, v) ← ensure_capacity v;
  Some (if room : bool then (true, with_collection v (take pos (collection_ v) ++ x :: drop pos (collection_ v))) else (false, v)).

Definition assign v l : LimitedVector A :=
  let l := take (Z.to_nat (Z.min (zlen l) (cfg_maximum (configuration_ v)))) l in mkLV (configuration_ v) l (Z.max (capacity_ v) (zlen l)).

Fixpoint push_all v l : option (LimitedVector A) :=
  match l with
  | [] => Some v
  | x :: l => '(_, v) ← emplace_back v x; push_all v l
  end.

(** [operator =]; the assertion compares the sizes. *)
Definition copy_from v other : option (LimitedVector A) :=
  v ← push_all (with_collection v []) (collection_ other);
  if zlen (collection_ v) =? zlen (collection_ other) then Some v else None.

(** ** Laws *)

Definition config_ok (cfg : ContainerConfig) : Prop :=
  0 <= cfg_initial cfg <= cfg_maximum cfg /\ 0 <= cfg_increment cfg /\ cfg_maximum cfg - 1 + cfg_increment cfg < 2 ^ 64 /\
  (cfg_increment cfg = 0 -> cfg_initial cfg = cfg_maximum cfg).

Record vector_ok v : Prop := {
  vo_config : config_ok (configuration_ v);
  vo_fits : zlen (collection_ v) <= capacity_ v <= cfg_maximum (configuration_ v);
  vo_fixed : cfg_increment (configuration_ v) = 0 -> capacity_ v = cfg_maximum (configuration_ v)
}.

Lemma vector_new_ok cfg : config_ok cfg -> vector_ok (vector_new cfg).
Proof. intros (? & ? & ? & ?). split; simpl; [done|unfold zlen; simpl; lia|done]. Qed.

Lemma ensure_capacity_spec v : vector_ok v ->
  exists v', ensure_capacity v = Some (zlen (collection_ v) <? cfg_maximum (configuration_ v), v') /\ vector_ok v' /\
    collection_ v' = collection_ v /\ configuration_ v' = configuration_ v /\
    (zlen (collection_ v) < cfg_maximum (configuration_ v) -> zlen (collection_ v) < capacity_ v').
Proof.
  intros V. pose proof V as [C F X]. pose proof C as (C1 & C2 & C3 & C4). unfold ensure_capacity. destruct (Z.eqb_spec (zlen (collection_ v)) (capacity_ v)) as [E|E].
  - rewrite E. destruct (Z.ltb_spec (capacity_ v) (cfg_maximum (configuration_ v))) as [Hlt|Hge]; [|exists v; do 4 (split; [done|]); lia].
    destruct (Z.ltb_spec 0 (cfg_increment (configuration_ v))) as [Hi|Hi]; [|lia]. eexists. split; [done|]. unfold zlen in *. rewrite size_t_small by lia.
    split; [|split; [done|split; [done|simpl; lia]]]. split; simpl; [done|unfold zlen; lia|lia].
  - exists v. replace (_ <? _) with true by (symmetry; apply Z.ltb_lt; lia). do 4 (split; [done|]). lia.
Qed.

(** What [put] stands for. *)
Theorem emplace_back_spec v x : vector_ok v ->
  exists v', emplace_back v x = Some (zlen (collection_ v) <? cfg_maximum (configuration_ v), v') /\ vector_ok v' /\
    configuration_ v' = configuration_ v /\ collection_ v' = put (cfg_maximum (configuration_ v)) (collection_ v) x.
Proof.
  intros V. destruct (ensure_capacity_spec v V) as (v1 & E & V1 & Ec & Eg & Hr). unfold emplace_back, put. rewrite E. simpl.
  destruct (Z.ltb_spec (zlen (collection_ v)) (cfg_maximum (configuration_ v))) as [Hlt|Hge]; (eexists; split; [done|]); simpl; rewrite Ec; [|done].
  split; [|done]. destruct V1 as [C F X]. split; simpl; [done| |done]. specialize (Hr Hlt). unfold zlen in *. rewrite length_app. simpl. lia.
Qed.

Lemma push_all_spec l v : vector_ok v ->
  exists v', push_all v l = Some v' /\ vector_ok v' /\ configuration_ v' = configuration_ v /\
    collection_ v' = collection_ v ++ take (Z.to_nat (cfg_maximum (configuration_ v) - zlen (collection_ v))) l.
Proof.
  revert v. induction l as [|x l IH]; intros v V; simpl; [exists v; by rewrite take_nil, app_nil_r|].
  destruct (emplace_back_spec v x V) as (v1 & E & V1 & Eg & Ec). rewrite E. simpl. destruct (IH v1 V1) as (v2 & E2 & V2 & Eg2 & Ec2). exists v2. rewrite Eg2, Ec2, Eg, Ec.
  do 3 (split; [done|]). unfold put. destruct (Z.ltb_spec (zlen (collection_ v)) (cfg_maximum (configuration_ v))) as [Hlt|Hge].
  - unfold zlen in *. rewrite length_app, <- app_assoc. simpl. f_equal.
    replace (Z.to_nat (cfg_maximum (configuration_ v) - Z.of_nat (length (collection_ v)))) with (S (Z.to_nat (cfg_maximum (configuration_ v) - Z.of_nat (length (collection_ v) + 1)))) by lia. done.
  - by replace (Z.to_nat (cfg_maximum (configuration_ v) - zlen (collection_ v))) with O by lia.
Qed.

(** A copy holds the same elements whenever they are not more than the maximum of
    the vector that is assigned to. *)
Theorem copy_from_spec v other : vector_ok v -> zlen (collection_ other) <= cfg_maximum (configuration_ v) ->
  exists v', copy_from v other = Some v' /\ vector_ok v' /\ collection_ v' = collection_ other.
Proof.
  intros [C F X] Hl. assert (V0 : vector_ok (with_collection v [])) by (split; simpl; [done|unfold zlen in *; simpl; lia|done]).
  destruct (push_all_spec (collection_ other) _ V0) as (v' & E & V & _ & Ec). unfold copy_from. rewrite E. simpl in Ec |- *.
  rewrite take_ge in Ec by (unfold zlen in *; simpl; lia). rewrite Ec, Z.eqb_refl. by exists v'.
Qed.
End Vector.

(** ** Elements *)

Section Elements.
Context {A : Type}.
Implicit Types (p : A -> bool) (l : list A).

Lemma insert_swap l i y z : l !! i = Some y -> y :: <[i := z]> l ≡ₚ z :: l.
Proof.
  intros Hi. rewrite insert_take_drop by (by eapply lookup_lt_Some). rewrite <- (take_drop_middle l i y Hi) at 3. rewrite <- !Permutation_middle. apply Permutation_swap.
Qed.

Lemma do_remove_perm l i y : l !! i = Some y -> y :: do_remove l i ≡ₚ l.
Proof.
  intros Hi. unfold do_remove. destruct (list.last l) as [z|] eqn:El; [|by apply last_None in El as ->]. apply last_Some in El as [k ->].
  rewrite length_app, Nat.add_1_r. simpl. destruct (decide (i < length k)%nat) as [Hlt|Hge].
  - rewrite lookup_app_l in Hi by done. rewrite insert_app_l by done. rewrite take_app_length' by (by rewrite length_insert). rewrite insert_swap by done. apply Permutation_cons_append.
  - rewrite lookup_app_r in Hi by lia. apply list_lookup_singleton_Some in Hi as [Hi <-]. rewrite insert_app_r_alt by lia. rewrite take_app_length by done. apply Permutation_cons_append.
Qed.

Lemma index_of_Some p l i : index_of p l = Some i -> exists x, l !! i = Some x /\ p x = true /\ forall j y, (j < i)%nat -> l !! j = Some y -> p y = false.
Proof.
  revert i. induction l as [|x l IH]; intros i; simpl; [done|]. destruct (p x) eqn:Ep.
  - intros [= <-]. exists x. split; [done|]. split; [done|]. intros. lia.
  - destruct (index_of p l) as [k|]; simpl; [|done]. intros [= <-]. destruct (IH k eq_refl) as (y & Hy & Hp & Hb). exists y. do 2 (split; [done|]).
    intros [|j] z Hj Hz; [by injection Hz as <-|]. apply (Hb j z); [lia|done].
Qed.

Lemma index_of_None p l : index_of p l = None -> Forall (fun x => p x = false) l.
Proof.
  induction l as [|x l IH]; simpl; [constructor|]. destruct (p x) eqn:Ep; [done|]. destruct (index_of p l); [done|]. constructor; auto.
Qed.

(** Removing takes out one element with the property, and none only when there is none. *)
Lemma swap_remove_if_spec p l : match swap_remove_if p l with
  | (true, l') => exists x, p x = true /\ x :: l' ≡ₚ l
  | (false, l') => l' = l /\ Forall (fun x => p x = false) l
  end.
Proof.
  unfold swap_remove_if. destruct (index_of p l) as [i|] eqn:E; [|split; [done|by apply index_of_None]].
  apply index_of_Some in E as (x & Hx & Hp & _). exists x. split; [done|]. by apply do_remove_perm.
Qed.

Lemma erase_if_spec p l : match erase_if p l with
  | (true, l') => exists l1 x l2, l = l1 ++ x :: l2 /\ l' = l1 ++ l2 /\ p x = true /\ Forall (fun y => p y = false) l1
  | (false, l') => l' = l /\ Forall (fun x => p x = false) l
  end.
Proof.
  unfold erase_if. destruct (index_of p l) as [i|] eqn:E; [|split; [done|by apply index_of_None]].
  apply index_of_Some in E as (x & Hx & Hp & Hb). exists (take i l), x, (drop (S i) l). rewrite (take_drop_middle l i x Hx), <- delete_take_drop. do 3 (split; [done|]).
  apply list.Forall_lookup. intros j y Hj. apply lookup_take_Some in Hj as [Hj Hlt]. eauto.
Qed.
End Elements.
