(* ===== verification/Liveliness.v ===== *)
(** * Liveliness of writers

    Models [LivelinessManager] ([Fast-DDS/src/cpp/rtps/writer/LivelinessManager.cpp]
    and [LivelinessData.hpp]): the writers that have to assert that they are alive,
    the timer that belongs to the one whose lease ends first, and what the
    callback is told.

    The clock is read once in an operation and in whole microseconds, as the timer
    counts them; leases and the times at which they end are in nanoseconds.  The
    pointer [timer_owner_] is an index of the vector; following one that is out of
    range is [None].  The callback is set, as in [WLP].

    One operation after the other, the timer always belongs to the writer whose
    lease ends first, the callback's numbers are the numbers of writers, and, as
    long as no writer is removed, no writer is declared dead more than a
    millisecond before its lease ends.  Removing writers breaks the last two
    promises; so does an operation between the locked parts of another one. *)

From S2P Require Import Prelude TimedEvent ParameterList LimitedVector.

(** ** Data *)

Inductive LivelinessKind := AUTOMATIC_LIVELINESS | MANUAL_BY_PARTICIPANT_LIVELINESS | MANUAL_BY_TOPIC_LIVELINESS.
Inductive WriterStatus := NOT_ASSERTED | ALIVE | NOT_ALIVE.

#[export] Instance LivelinessKind_eq_dec : EqDecision LivelinessKind.
Proof. solve_decision. Defined.
#[export] Instance WriterStatus_eq_dec : EqDecision WriterStatus.
Proof. solve_decision. Defined.

Record Duration := mkDuration { seconds : Z; nanosec : Z }.

#[export] Instance Duration_eq_dec : EqDecision Duration.
Proof. solve_decision. Defined.

(** [dds::Time_t::to_ns] and [c_TimeInfinite] *)
Definition to_ns (d : Duration) : Z := seconds d * 1000000000 + nanosec d.
Definition c_TimeInfinite : Duration := mkDuration 0x7fffffff 0xffffffff.

Record LivelinessData := mkLD {
  ld_guid : GUID_t;
  ld_kind : LivelinessKind;
  ld_lease : Duration;
  ld_count : Z;
  ld_status : WriterStatus;
  ld_time : Z
}.

(** What the callback is called with. *)
Record Notice := mkNotice {
  n_guid : GUID_t;
  n_kind : LivelinessKind;
  n_lease : Duration;
  n_alive : Z;
  n_not_alive : Z
}.

Record LivelinessManager := mkLM {
  manage_automatic_ : bool;
  writers_ : list LivelinessData;
  timer_owner_ : option nat;
  liveliness_timer_ : TimedEvent;
  notices_ : list Notice
}.

Implicit Types (m : LivelinessManager) (d : LivelinessData) (now : Z).

Definition LivelinessManager_new (manage_automatic : bool) now : LivelinessManager := mkLM manage_automatic [] None (timer_new 0 now) [].

Definition set_lm_writers m l : LivelinessManager := mkLM (manage_automatic_ m) l (timer_owner_ m) (liveliness_timer_ m) (notices_ m).
Definition set_lm_timer m t : LivelinessManager := mkLM (manage_automatic_ m) (writers_ m) (timer_owner_ m) t (notices_ m).
Definition set_lm_owner m o : LivelinessManager := mkLM (manage_automatic_ m) (writers_ m) o (liveliness_timer_ m) (notices_ m).
Definition notify m (ns : list Notice) : LivelinessManager := mkLM (manage_automatic_ m) (writers_ m) (timer_owner_ m) (liveliness_timer_ m) (notices_ m ++ ns).

Definition is_writer (guid : GUID_t) (kind : LivelinessKind) (lease : Duration) d : bool :=
  bool_decide (ld_guid d = guid) && bool_decide (ld_kind d = kind) && bool_decide (ld_lease d = lease).

Definition with_count d c : LivelinessData := mkLD (ld_guid d) (ld_kind d) (ld_lease d) c (ld_status d) (ld_time d).
Definition with_status_time d st t : LivelinessData := mkLD (ld_guid d) (ld_kind d) (ld_lease d) (ld_count d) st t.
Definition is_alive d : bool := bool_decide (ld_status d = ALIVE).

(** ** The timer *)

(** The loop of [calculate_next]: the first of the writers with the earliest time. *)
Fixpoint earliest (l : list LivelinessData) (i : nat) (min_time : Z) (owner : option nat) (any_alive : bool) : option nat * bool :=
  match l with
  | [] => (owner, any_alive)
  | d :: l =>
      if is_alive d then
        if ld_time d <? min_time then earliest l (S i) (ld_time d) (Some i) true else earliest l (S i) min_time owner true
      else earliest l (S i) min_time owner any_alive
  end.

Definition calculate_next m now : bool * LivelinessManager :=
  let '(owner, any) := earliest (writers_ m) 0 (1000 * now + to_ns c_TimeInfinite) None false in (any, set_lm_owner m owner).

(** The interval up to the time of the owner, in whole milliseconds. *)
Definition owner_interval m now : option Z :=
  match timer_owner_ m with
  | Some i => d ← writers_ m !! i; Some (Z.quot (ld_time d - 1000 * now) 1000000)
  | None => Some 0
  end.

Definition restart_for_owner m now : option LivelinessManager :=
  match timer_owner_ m with
  | Some _ => ms ← owner_interval m now; Some (set_lm_timer m (restart_timer (update_interval_millisec (liveliness_timer_ m) ms)))
  | None => Some m
  end.

(** ** Operations *)

Fixpoint count_again (guid : GUID_t) (kind : LivelinessKind) (lease : Duration) (l : list LivelinessData) : option (list LivelinessData) :=
  match l with
  | [] => None
  | d :: l =>
      if is_writer guid kind lease d then Some (with_count d (u32 (ld_count d + 1)) :: l)
      else l' ← count_again guid kind lease l; Some (d :: l')
  end.

Definition lm_add_writer m guid kind lease now : option (bool * LivelinessManager) :=
  if negb (manage_automatic_ m) && bool_decide (kind = AUTOMATIC_LIVELINESS) then Some (false, m)
  else match count_again guid kind lease (writers_ m) with
       | Some l => Some (true, set_lm_writers m l)
       | None =>
           let m := set_lm_writers m (writers_ m ++ [mkLD guid kind lease 1 NOT_ASSERTED 0]) in
           let '(any, m) := calculate_next m now in
           if any then m ← restart_for_owner m now; Some (true, m) else Some (true, set_lm_timer m (cancel_timer (liveliness_timer_ m)))
       end.

(** [std::find_if] with the predicate of [remove_writer], which counts down and
    assigns the status of every writer it looks at. *)
Fixpoint find_uncounted guid kind lease (l : list LivelinessData) (i : nat) (status : option WriterStatus)
  : option nat * option WriterStatus * list LivelinessData :=
  match l with
  | [] => (None, status, [])
  | d :: l =>
      if is_writer guid kind lease d then
        let d := with_count d (u32 (ld_count d - 1)) in
        if ld_count d =? 0 then (Some i, Some (ld_status d), d :: l)
        else let '(found, st, l) := find_uncounted guid kind lease l (S i) (Some (ld_status d)) in (found, st, d :: l)
      else let '(found, st, l) := find_uncounted guid kind lease l (S i) (Some (ld_status d)) in (found, st, d :: l)
  end.

(** The first locked part of [remove_writer]. *)
Definition remove_locked m guid kind lease : bool * option WriterStatus * LivelinessManager :=
  let '(found, status, l) := find_uncounted guid kind lease (writers_ m) 0 None in
  match found with
  | Some i => (true, status, set_lm_writers m (do_remove l i))
  | None => (false, status, set_lm_writers m l)
  end.

(** Whether the writer was removed, and the status when it is assigned. *)
Definition lm_remove_writer m guid kind lease now : option (bool * option WriterStatus * LivelinessManager) :=
  let '(removed, status, m) := remove_locked m guid kind lease in
  if negb removed then Some (false, status, m)
  else match timer_owner_ m with
       | Some _ =>
           let '(any, m) := calculate_next m now in
           if any then m ← restart_for_owner m now; Some (true, status, m)
           else Some (true, status, set_lm_timer m (cancel_timer (liveliness_timer_ m)))
       | None => Some (true, status, m)
       end.

(** [assert_writer_liveliness]: the writer and what the callback is told. *)
Definition assert_writer now d : LivelinessData * list Notice :=
  (with_status_time d ALIVE (1000 * now + to_ns (ld_lease d)),
   match ld_status d with
   | NOT_ASSERTED => [mkNotice (ld_guid d) (ld_kind d) (ld_lease d) 1 0]
   | NOT_ALIVE => [mkNotice (ld_guid d) (ld_kind d) (ld_lease d) 1 (-1)]
   | ALIVE => []
   end).

Fixpoint assert_writers now (which : LivelinessData -> bool) (l : list LivelinessData) : list LivelinessData * list Notice :=
  match l with
  | [] => ([], [])
  | d :: l =>
      let '(l, ns) := assert_writers now which l in
      if which d then let '(d, n) := assert_writer now d in (d :: l, n ++ ns) else (d :: l, ns)
  end.

(** Only the first one. *)
Fixpoint assert_first now (which : LivelinessData -> bool) (l : list LivelinessData) : list LivelinessData * list Notice :=
  match l with
  | [] => ([], [])
  | d :: l => if which d then let '(d, n) := assert_writer now d in (d :: l, n) else let '(l, ns) := assert_first now which l in (d :: l, ns)
  end.

(** The end of both versions of [assert_liveliness]. *)
Definition restart_after_assertion m now : option (bool * LivelinessManager) :=
  let m := set_lm_timer m (cancel_timer (liveliness_timer_ m)) in
  let '(any, m) := calculate_next m now in
  if any then m ← restart_for_owner m now; Some (true, m) else Some (false, m).

Definition of_participant (kind : LivelinessKind) (prefix : GuidPrefix_t) d : bool :=
  bool_decide (ld_kind d = kind) && bool_decide (guidPrefix (ld_guid d) = prefix).

Definition assert_liveliness m guid kind lease now : option (bool * LivelinessManager) :=
  if existsb (is_writer guid kind lease) (writers_ m) then
    let '(l, ns) := if bool_decide (kind = MANUAL_BY_TOPIC_LIVELINESS) then assert_first now (is_writer guid kind lease) (writers_ m)
                    else assert_writers now (of_participant kind (guidPrefix guid)) (writers_ m) in
    restart_after_assertion (notify (set_lm_writers m l) ns) now
  else Some (false, m).

Definition assert_liveliness_kind m kind prefix now : option (bool * LivelinessManager) :=
  if negb (manage_automatic_ m) && bool_decide (kind = AUTOMATIC_LIVELINESS) then Some (false, m)
  else match writers_ m with
       | [] => Some (true, m)
       | _ => let '(l, ns) := assert_writers now (of_participant kind prefix) (writers_ m) in restart_after_assertion (notify (set_lm_writers m l) ns) now
       end.

Definition timer_expired m now : option (bool * LivelinessManager) :=
  match timer_owner_ m with
  | None => Some (false, m)
  | Some i =>
      d ← writers_ m !! i;
      let m := set_lm_writers m (<[i := with_status_time d NOT_ALIVE (ld_time d)]> (writers_ m)) in
      let m := notify m [mkNotice (ld_guid d) (ld_kind d) (ld_lease d) (-1) 1] in
      let '(any, m) := calculate_next m now in
      if any then
        match timer_owner_ m with
        | Some _ => ms ← owner_interval m now; Some (true, set_lm_timer m (update_interval_millisec (liveliness_timer_ m) ms))
        | None => Some (false, m)
        end
      else Some (false, m)
  end.

Definition is_any_alive m (kind : LivelinessKind) : bool := existsb (fun d => bool_decide (ld_kind d = kind) && is_alive d) (writers_ m).

(** The destructor: no expiry of the timer follows it. *)
Definition lm_destroy m : LivelinessManager := set_lm_timer (set_lm_owner m None) (cancel_timer (liveliness_timer_ m)).

(** ** The service's thread *)

Definition lm_timer_update m now cancel_time : LivelinessManager := set_lm_timer m (snd (timer_update (liveliness_timer_ m) now cancel_time)).

(** [TimedEventImpl::trigger] with [timer_expired] as its callback. *)
Definition lm_timer_trigger m now cancel_time : option LivelinessManager :=
  match timer_state_ (liveliness_timer_ m) with
  | WAITING =>
      '(again, m) ← timer_expired (set_lm_timer m (set_timer_state (liveliness_timer_ m) INACTIVE)) now;
      let t := liveliness_timer_ m in
      Some (set_lm_timer m
              (if again && bool_decide (timer_state_ t = INACTIVE)
               then set_trigger_time (set_timer_state t WAITING) (now + interval_microsec_ t)
               else set_trigger_time t cancel_time))
  | _ => Some (set_lm_timer m (set_trigger_time (liveliness_timer_ m) cancel_time))
  end.

(** ** Runs *)

Inductive lm_op :=
  | LAdd (guid : GUID_t) (kind : LivelinessKind) (lease : Duration)
  | LRemove (guid : GUID_t) (kind : LivelinessKind) (lease : Duration)
  | LAssert (guid : GUID_t) (kind : LivelinessKind) (lease : Duration)
  | LAssertKind (kind : LivelinessKind) (prefix : GuidPrefix_t)
  | LUpdate (cancel_time : Z)
  | LTrigger (cancel_time : Z).

(** The clock, the manager, and how many writers were removed while they were alive
    and while they were not alive any more. *)
Record LState := mkLState { l_now : Z; l_mgr : LivelinessManager; l_gone_alive : Z; l_gone_dead : Z }.

Definition gone (st : option WriterStatus) (s : WriterStatus) : Z := if bool_decide (st = Some s) then 1 else 0.

(** An operation, some time after the one before; the timer is triggered when its
    time has come. *)
Definition lm_step (x : LState) (elapsed : N) (op : lm_op) : option LState :=
  let now := l_now x + Z.of_N elapsed in
  let m := l_mgr x in
  let next m := mkLState now m (l_gone_alive x) (l_gone_dead x) in
  match op with
  | LAdd g k l => '(_, m) ← lm_add_writer m g k l now; Some (next m)
  | LRemove g k l =>
      '(removed, st, m) ← lm_remove_writer m g k l now;
      Some (if removed : bool then mkLState now m (l_gone_alive x + gone st ALIVE) (l_gone_dead x + gone st NOT_ALIVE) else next m)
  | LAssert g k l => '(_, m) ← assert_liveliness m g k l now; Some (next m)
  | LAssertKind k p => '(_, m) ← assert_liveliness_kind m k p now; Some (next m)
  | LUpdate c => Some (next (lm_timer_update m now c))
  | LTrigger c => if next_trigger_time_ (liveliness_timer_ m) <=? now then m ← lm_timer_trigger m now c; Some (next m) else Some (next m)
  end.

Fixpoint lm_run (x : LState) (ops : list (N * lm_op)) : option LState :=
  match ops with
  | [] => Some x
  | (e, op) :: ops => x ← lm_step x e op; lm_run x ops
  end.

(** * What the liveliness manager guarantees *)

Implicit Types (x : LState).

(** ** The earliest writer *)

Definition lease_ok d : Prop := to_ns (ld_lease d) < to_ns c_TimeInfinite.
(** The time of a writer is that of an assertion in the past. *)
Definition timely now d : Prop := is_alive d = true -> ld_time d <= 1000 * now + to_ns (ld_lease d).
Definition not_before (t : Z) (l : list LivelinessData) : Prop := Forall (fun d => is_alive d = true -> t <= ld_time d) l.

Lemma not_before_le t t' l : not_before t l -> t' <= t -> not_before t' l.
Proof. intros H Hle. eapply list.Forall_impl; [exact H|]. simpl. intros d Hd Ha. specialize (Hd Ha). lia. Qed.

Lemma earliest_spec l : forall i t owner any, let '(o, any') := earliest l i t owner any in
  any' = any || existsb is_alive l /\
  ((o = owner /\ not_before t l) \/
   exists j d, o = Some (i + j)%nat /\ l !! j = Some d /\ is_alive d = true /\ ld_time d < t /\ not_before (ld_time d) l).
Proof.
  induction l as [|d l IH]; intros i t owner any; cbn [earliest existsb].
  { split; [by rewrite orb_false_r|]. left. split; [done|constructor]. }
  destruct (is_alive d) eqn:Ea; [destruct (Z.ltb_spec (ld_time d) t) as [Hlt|Hge]|].
  - specialize (IH (S i) (ld_time d) (Some i) true). destruct (earliest l (S i) (ld_time d) (Some i) true) as [o any']. destruct IH as [-> IH].
    split; [by rewrite !orb_true_r|]. right. destruct IH as [[-> Hn]|(j & e & -> & Hj & He & Hlt' & Hn)].
    + exists 0%nat, d. rewrite Nat.add_0_r. do 4 (split; [done|]). by constructor.
    + exists (S j), e. rewrite <- Nat.add_succ_comm. do 3 (split; [done|]). split; [lia|]. constructor; [intros _; lia|done].
  - specialize (IH (S i) t owner true). destruct (earliest l (S i) t owner true) as [o any']. destruct IH as [-> IH].
    split; [by rewrite !orb_true_r|]. destruct IH as [[-> Hn]|(j & e & -> & Hj & He & Hlt' & Hn)]; [left|right].
    + split; [done|]. by constructor.
    + exists (S j), e. rewrite <- Nat.add_succ_comm. do 4 (split; [done|]). constructor; [intros _; lia|done].
  - specialize (IH (S i) t owner any). destruct (earliest l (S i) t owner any) as [o any']. destruct IH as [-> IH].
    split; [done|]. destruct IH as [[-> Hn]|(j & e & -> & Hj & He & Hlt' & Hn)]; [left|right].
    + split; [done|]. constructor; [by rewrite Ea|done].
    + exists (S j), e. rewrite <- Nat.add_succ_comm. do 4 (split; [done|]). constructor; [by rewrite Ea|done].
Qed.

(** ** The invariant *)

(** The timer's owner is alive and none ends before it; without one nobody is. *)
Definition watched m : Prop :=
  match timer_owner_ m with
  | None => Forall (fun d => is_alive d = false) (writers_ m)
  | Some i => exists d, writers_ m !! i = Some d /\ is_alive d = true /\ not_before (ld_time d) (writers_ m)
  end.

Definition armed m : Prop :=
  match timer_owner_ m with
  | None => timer_state_ (liveliness_timer_ m) = INACTIVE
  | Some _ => timer_state_ (liveliness_timer_ m) <> INACTIVE
  end.

Record lm_inv now m : Prop := mkLmInv {
  lm_leases : Forall (fun d => lease_ok d /\ timely now d) (writers_ m);
  lm_watched : watched m;
  lm_armed : armed m
}.

Lemma lm_inv_later now now' m : lm_inv now m -> now <= now' -> lm_inv now' m.
Proof.
  intros [H1 H2 H3] Hle. split; [|done|done]. eapply list.Forall_impl; [exact H1|]. intros d [Hl Ht]. split; [done|]. intros Ha. specialize (Ht Ha). lia.
Qed.

Lemma calculate_next_ok m now : Forall (fun d => lease_ok d /\ timely now d) (writers_ m) ->
  let '(any, m') := calculate_next m now in watched m' /\ (exists o, m' = set_lm_owner m o) /\ (any = true <-> timer_owner_ m' <> None).
Proof.
  intros Hl. unfold calculate_next. pose proof (earliest_spec (writers_ m) 0 (1000 * now + to_ns c_TimeInfinite) None false) as HE.
  destruct (earliest _ _ _ _ _) as [o any]. destruct HE as [-> HE]. simpl orb. split; [|split; [by exists o|]].
  - unfold watched. simpl. destruct HE as [[-> Hn]|(j & d & -> & Hj & Ha & _ & Hn)]; [|by exists d].
    apply list.Forall_forall. intros d Hd. rewrite list.Forall_forall in Hl. destruct (Hl d Hd) as [Hlo Ht]. unfold not_before in Hn. rewrite list.Forall_forall in Hn.
    destruct (is_alive d) eqn:Ea; [|done]. specialize (Hn d Hd Ea). specialize (Ht Ea). unfold lease_ok in Hlo. lia.
  - simpl. destruct HE as [[-> Hn]|(j & d & -> & Hj & Ha & _ & Hn)].
    + split; [|done]. intros Hex. exfalso. apply existsb_exists in Hex as (d & Hd%list_elem_of_In & Ha). unfold not_before in Hn. rewrite list.Forall_forall in Hl, Hn.
      destruct (Hl d Hd) as [Hlo Ht]. specialize (Hn d Hd Ha). specialize (Ht Ha). unfold lease_ok in Hlo. lia.
    + split; [done|]. intros _. apply existsb_exists. exists d. split; [by eapply list_elem_of_In, list_elem_of_lookup_2|done].
Qed.

(** The timer fires no earlier than a millisecond before the owner's time. *)
Definition no_early now m : Prop :=
  match timer_owner_ m with
  | None => True
  | Some i => forall d, writers_ m !! i = Some d ->
      match timer_state_ (liveliness_timer_ m) with
      | INACTIVE => True
      | READY => ld_time d - 1000000 <= 1000 * (now + interval_microsec_ (liveliness_timer_ m))
      | WAITING => ld_time d - 1000000 <= 1000 * next_trigger_time_ (liveliness_timer_ m)
      end
  end.

Lemma no_early_later now now' m : no_early now m -> now <= now' -> no_early now' m.
Proof.
  unfold no_early. destruct (timer_owner_ m) as [i|]; [|done]. intros H Hle d Hd. specialize (H d Hd). destruct (timer_state_ _); [done| |done]. lia.
Qed.

Lemma interval_bound t now : t - 1000000 <= 1000 * (now + Z.quot (t - 1000 * now) 1000000 * 1000).
Proof. pose proof (Z.quot_rem' (t - 1000 * now) 1000000). pose proof (Z.rem_bound_abs (t - 1000 * now) 1000000). lia. Qed.

(** The timer is restarted for an owner that [calculate_next] has found. *)
Lemma restart_ok m now : watched m ->
  exists m', restart_for_owner m now = Some m' /\ writers_ m' = writers_ m /\ timer_owner_ m' = timer_owner_ m /\ notices_ m' = notices_ m /\
    (timer_owner_ m <> None -> armed m') /\
    (timer_state_ (liveliness_timer_ m) = INACTIVE -> no_early now m') /\
    (no_early now m -> no_early now m').
Proof.
  intros Hw. unfold restart_for_owner, owner_interval. unfold watched in Hw. destruct (timer_owner_ m) as [i|] eqn:Eo.
  2:{ exists m. split; [done|]. rewrite Eo. do 4 (split; [done|]). split; [|done]. intros _. unfold no_early. by rewrite Eo. }
  destruct Hw as (d & Hi & Ha & Hn). rewrite Hi. cbn [mbind option_bind]. eexists. split; [done|]. simpl. rewrite Eo. do 3 (split; [done|]).
  unfold armed, no_early, update_interval_millisec, restart_timer, go_ready. simpl. rewrite Eo. split; [|split].
  - intros _. by destruct (timer_state_ (liveliness_timer_ m)) eqn:Es; simpl; rewrite ?Es.
  - intros Es. rewrite Es. simpl. intros e He. rewrite Hi in He. injection He as <-. apply interval_bound.
  - intros H e He. rewrite Hi in He. injection He as <-. specialize (H d Hi). destruct (timer_state_ (liveliness_timer_ m)) eqn:Es; simpl; rewrite ?Es; [apply interval_bound|apply interval_bound|done].
Qed.

(** ** Operations *)

Notation times_ok now l := (Forall (fun d => lease_ok d /\ timely now d) l).

(** The owners of two managers with the same living writers have the same time. *)
Lemma no_early_same now m m' : watched m -> watched m' -> no_early now m -> liveliness_timer_ m' = liveliness_timer_ m ->
  (forall d, is_alive d = true -> d ∈ writers_ m' <-> d ∈ writers_ m) -> no_early now m'.
Proof.
  unfold watched, no_early. intros W W' H Et Hl. destruct (timer_owner_ m') as [i'|]; [|done]. intros d' Hd'. destruct W' as (e & He & Ha & Hn). rewrite He in Hd'. injection Hd' as ->.
  apply list_elem_of_lookup_2 in He. apply (Hl d' Ha) in He. destruct (timer_owner_ m) as [i|].
  2:{ rewrite list.Forall_forall in W. specialize (W d' He). congruence. }
  destruct W as (d & Hd & Ha' & Hn'). specialize (H d Hd). rewrite Et. unfold not_before in Hn, Hn'. rewrite list.Forall_forall in Hn, Hn'. specialize (Hn' d' He Ha).
  apply list_elem_of_lookup_2, (Hl d Ha') in Hd. specialize (Hn d Hd Ha'). assert (ld_time d' = ld_time d) as -> by lia. done.
Qed.

(** The end of an operation that has changed the writers: the next owner is found,
    and the timer restarted or cancelled. *)
Lemma finish_ok m now : times_ok now (writers_ m) ->
  let '(any, m1) := calculate_next m now in
  exists m2, (if any then restart_for_owner m1 now else Some (set_lm_timer m1 (cancel_timer (liveliness_timer_ m1)))) = Some m2 /\ lm_inv now m2 /\
    writers_ m2 = writers_ m /\ notices_ m2 = notices_ m /\ watched m1 /\
    (timer_state_ (liveliness_timer_ m) = INACTIVE -> no_early now m2) /\ (no_early now m1 -> no_early now m2) /\
    liveliness_timer_ m1 = liveliness_timer_ m /\ writers_ m1 = writers_ m.
Proof.
  intros Hl. pose proof (calculate_next_ok m now Hl) as HC. destruct (calculate_next m now) as [any m1]. destruct HC as (W & (o & ->) & Hany). destruct any.
  - destruct (restart_ok (set_lm_owner m o) now W) as (m2 & -> & E1 & E2 & E3 & Ha & Hn1 & Hn2). exists m2. split; [done|].
    split; [split; [by rewrite E1|unfold watched in *; by rewrite E1, E2|by apply Ha, Hany]|]. done.
  - assert (o = None) as ->. { destruct o as [i|]; [|done]. destruct Hany as [_ Hx]. by discriminate Hx. }
    eexists. split; [done|]. split; [split; [done|done|done]|]. by repeat split.
Qed.

Lemma count_again_spec guid kind lease l l' : count_again guid kind lease l = Some l' ->
  Forall2 (fun d d' => exists c, d' = with_count d c) l l'.
Proof.
  revert l'. induction l as [|d l IH]; intros l' E; cbn [count_again] in E; [done|]. destruct (is_writer _ _ _ d).
  - injection E as <-. constructor; [by eexists|]. clear. induction l as [|e l IH]; constructor; [exists (ld_count e); by destruct e|done].
  - apply bind_Some in E as (k & Ek & E). injection E as <-. constructor; [exists (ld_count d); by destruct d|auto].
Qed.

(** Counting does not matter for who is alive until when. *)
Lemma recounted_ok now m l : lm_inv now m -> Forall2 (fun d d' => exists c, d' = with_count d c) (writers_ m) l ->
  lm_inv now (set_lm_writers m l) /\ (no_early now m -> no_early now (set_lm_writers m l)).
Proof.
  intros [H1 H2 H3] F. assert (Hall : forall Q : LivelinessData -> Prop, (forall d c, Q d -> Q (with_count d c)) -> Forall Q (writers_ m) -> Forall Q l).
  { intros Q HQ. clear -F HQ. induction F as [|d d' k k' (c & ->) F IH]; [done|]. intros [Hd Hk]%list.Forall_cons. constructor; auto. }
  split.
  - split; simpl; [by apply Hall; [|exact H1]| |exact H3]. unfold watched in *. simpl. destruct (timer_owner_ m) as [i|]; [|by apply Hall; [|exact H2]].
    destruct H2 as (d & Hi & Ha & Hn). destruct (Forall2_lookup_l _ _ _ _ _ F Hi) as (d' & Hi' & c & ->). exists (with_count d c). split; [done|]. split; [done|]. by apply Hall; [|exact Hn].
  - unfold no_early. simpl. destruct (timer_owner_ m) as [i|]; [|done]. intros H d' Hd'. destruct (Forall2_lookup_r _ _ _ _ _ F Hd') as (d & Hd & c & ->). by apply (H d).
Qed.

Lemma add_writer_ok m guid kind lease now : lm_inv now m -> to_ns lease < to_ns c_TimeInfinite ->
  exists b m', lm_add_writer m guid kind lease now = Some (b, m') /\ lm_inv now m' /\ (no_early now m -> no_early now m').
Proof.
  intros I Hl. pose proof I as [H1 H2 H3]. unfold lm_add_writer. destruct (_ && _); [by exists false, m|].
  destruct (count_again guid kind lease (writers_ m)) as [l|] eqn:Ec.
  { apply count_again_spec in Ec. destruct (recounted_ok now m l I Ec) as [I' Hn]. by eexists true, _. }
  set (new := mkLD guid kind lease 1 NOT_ASSERTED 0). set (m0 := set_lm_writers m (writers_ m ++ [new])).
  assert (times_ok now (writers_ m0)) as H0 by (apply Forall_app; split; [done|]; constructor; [done|constructor]).
  pose proof (finish_ok m0 now H0) as HF. destruct (calculate_next m0 now) as [any m1]. destruct HF as (m2 & E2 & I2 & _ & _ & W1 & _ & Hn & Et & Ew).
  exists true, m2. split; [destruct any; [rewrite E2; done|by injection E2 as <-]|]. split; [done|]. intros Hne. apply Hn. apply (no_early_same now m); [done|done|done|done|].
  intros d Ha. rewrite Ew. simpl. rewrite elem_of_app, list_elem_of_singleton. split; [|by left]. intros [?| ->]; done.
Qed.

(** *** Assertions *)

(** The assertions of some writers. *)
Definition asserted now (l l' : list LivelinessData) : Prop :=
  Forall2 (fun d d' => d' = d \/ d' = with_status_time d ALIVE (1000 * now + to_ns (ld_lease d))) l l'.

Lemma asserted_refl now l : asserted now l l.
Proof. induction l; constructor; [by left|done]. Qed.

Lemma assert_writers_spec now which l : asserted now l (assert_writers now which l).1.
Proof.
  induction l as [|d l IH]; cbn [assert_writers]; [constructor|]. destruct (assert_writers now which l) as [k ns]. destruct (which d); simpl; constructor; auto.
Qed.
Lemma assert_first_spec now which l : asserted now l (assert_first now which l).1.
Proof.
  induction l as [|d l IH]; cbn [assert_first]; [constructor|]. destruct (which d); [constructor; [by right|apply asserted_refl]|].
  destruct (assert_first now which l) as [k ns]. constructor; auto.
Qed.

Lemma asserted_times now l l' : times_ok now l -> asserted now l l' -> times_ok now l'.
Proof.
  intros H F. induction F as [|d d' k k' Hd F IH]; [done|]. apply list.Forall_cons in H as [[H1 H2] H]. constructor; [|auto].
  destruct Hd as [->| ->]; [done|]. split; [done|]. intros _. simpl. lia.
Qed.

Lemma restart_after_ok m l ns now : times_ok now (writers_ m) -> asserted now (writers_ m) l ->
  exists b m', restart_after_assertion (notify (set_lm_writers m l) ns) now = Some (b, m') /\ lm_inv now m' /\ no_early now m' /\ writers_ m' = l /\ notices_ m' = notices_ m ++ ns.
Proof.
  intros H F. unfold restart_after_assertion. set (m0 := set_lm_timer _ _). assert (times_ok now (writers_ m0)) as H0 by (by eapply asserted_times).
  pose proof (finish_ok m0 now H0) as HF. destruct (calculate_next m0 now) as [any m1] eqn:Ecn. destruct HF as (m2 & E2 & I2 & Ew2 & Ens & W1 & Hn1 & _ & Et & Ew).
  destruct any; [exists true, m2; rewrite E2; split; [done|]; split; [done|]; split; [by apply Hn1|done]|].
  exists false, m1. split; [done|]. injection E2 as <-. assert (cancel_timer (liveliness_timer_ m1) = liveliness_timer_ m1) as Ec by (by rewrite Et).
  rewrite Ec in *. assert (set_lm_timer m1 (liveliness_timer_ m1) = m1) as Em by (by destruct m1). rewrite Em in *. split; [done|]. split; [by apply Hn1|done].
Qed.

Lemma assert_liveliness_ok m guid kind lease now : lm_inv now m ->
  exists b m', assert_liveliness m guid kind lease now = Some (b, m') /\ lm_inv now m' /\ (no_early now m -> no_early now m').
Proof.
  intros I. unfold assert_liveliness. destruct (existsb _ _); [|by exists false, m].
  match goal with |- context [let '(l, ns) := ?t in _] => assert (asserted now (writers_ m) t.1) as Hl; [|destruct t as [l ns]] end.
  { case_bool_decide; [apply assert_first_spec|apply assert_writers_spec]. }
  destruct (restart_after_ok m l ns now (lm_leases _ _ I) Hl) as (b & m' & E & I' & Hn & _). exists b, m'. done.
Qed.

Lemma assert_kind_ok m kind prefix now : lm_inv now m ->
  exists b m', assert_liveliness_kind m kind prefix now = Some (b, m') /\ lm_inv now m' /\ (no_early now m -> no_early now m').
Proof.
  intros I. unfold assert_liveliness_kind. destruct (_ && _); [by exists false, m|]. pose proof (assert_writers_spec now (of_participant kind prefix) (writers_ m)) as Hl.
  destruct (writers_ m) as [|d0 k0] eqn:E0; [by exists true, m|]. rewrite <- E0 in Hl |- *. destruct (assert_writers now _ (writers_ m)) as [l ns].
  destruct (restart_after_ok m l ns now (lm_leases _ _ I) Hl) as (b & m' & E & I' & Hn & _). exists b, m'. done.
Qed.

(** *** Removal *)

Lemma find_uncounted_spec guid kind lease l : forall i st, let '(found, st', l') := find_uncounted guid kind lease l i st in
  Forall2 (fun d d' => exists c, d' = with_count d c) l l' /\
  match found with Some j => exists k d, j = (i + k)%nat /\ l' !! k = Some d /\ st' = Some (ld_status d) | None => True end.
Proof.
  induction l as [|d l IH]; intros i st; cbn [find_uncounted]; [split; [constructor|done]|].
  assert (Hid : exists c, d = with_count d c) by (exists (ld_count d); by destruct d).
  assert (Hrefl : Forall2 (fun d d' => exists c, d' = with_count d c) l l) by (clear; induction l as [|e l IH]; constructor; [exists (ld_count e); by destruct e|done]).
  destruct (is_writer guid kind lease d); [destruct (ld_count _ =? 0)|].
  - split; [constructor; [by eexists|done]|]. exists 0%nat. eexists. split; [by rewrite Nat.add_0_r|]. done.
  - specialize (IH (S i) (Some (ld_status (with_count d (u32 (ld_count d - 1)))))). destruct (find_uncounted _ _ _ l _ _) as [[found st'] l']. destruct IH as [IH1 IH2].
    split; [constructor; [by eexists|done]|]. destruct found as [j|]; [|done]. destruct IH2 as (k & e & -> & Hk & Es). exists (S k), e. rewrite Nat.add_succ_r. done.
  - specialize (IH (S i) (Some (ld_status d))). destruct (find_uncounted _ _ _ l _ _) as [[found st'] l']. destruct IH as [IH1 IH2].
    split; [constructor; [done|done]|]. destruct found as [j|]; [|done]. destruct IH2 as (k & e & -> & Hk & Es). exists (S k), e. rewrite Nat.add_succ_r. done.
Qed.

Lemma remove_locked_ok m guid kind lease now : lm_inv now m -> let '(removed, st, m') := remove_locked m guid kind lease in
  times_ok now (writers_ m') /\ (exists l, m' = set_lm_writers m l) /\ (removed = false -> lm_inv now m').
Proof.
  intros I. unfold remove_locked. pose proof (find_uncounted_spec guid kind lease (writers_ m) 0 None) as HF. destruct (find_uncounted _ _ _ _ _ _) as [[found st] l].
  destruct HF as [F HF]. destruct (recounted_ok now m l I F) as [I' _]. pose proof (lm_leases _ _ I') as Hl. simpl in Hl. destruct found as [j|].
  - destruct HF as (k & d & -> & Hk & _). simpl. split; [|split; [by eexists|done]]. apply do_remove_perm in Hk. rewrite <- Hk in Hl. by apply list.Forall_cons in Hl as [_ Hl].
  - split; [done|]. split; [by eexists|done].
Qed.

Lemma remove_writer_ok m guid kind lease now : lm_inv now m -> exists b st m', lm_remove_writer m guid kind lease now = Some (b, st, m') /\ lm_inv now m'.
Proof.
  intros I. unfold lm_remove_writer. pose proof (remove_locked_ok m guid kind lease now I) as HR. unfold remove_locked in *.
  pose proof (find_uncounted_spec guid kind lease (writers_ m) 0 None) as HF. destruct (find_uncounted _ _ _ _ _ _) as [[found st] l]. destruct HF as [F HF].
  destruct found as [j|]; [|destruct HR as (_ & _ & HR); by exists false, st, (set_lm_writers m l); split; [|apply HR]].
  destruct HR as (Hl & _ & _). cbn [negb]. set (m0 := set_lm_writers m (do_remove l j)) in *. change (timer_owner_ m0) with (timer_owner_ m). destruct (timer_owner_ m) as [i|] eqn:Eo.
  - pose proof (finish_ok m0 now Hl) as H2. destruct (calculate_next m0 now) as [any m1]. destruct H2 as (m2 & E2 & I2 & _). exists true, st, m2.
    split; [|done]. destruct any; [by rewrite E2|by injection E2 as <-].
  - exists true, st, m0. split; [done|]. destruct I as [H1 H2 H3]. destruct (recounted_ok now m l (mkLmInv now m H1 H2 H3) F) as [[_ W _] _].
    split; [done| |unfold armed in *; simpl; by rewrite Eo in *]. unfold watched in *. simpl in *. rewrite Eo in *.
    destruct HF as (k & d & -> & Hk & _). simpl. apply do_remove_perm in Hk. rewrite <- Hk in W. by apply list.Forall_cons in W as [_ W].
Qed.

(** *** The timer *)

Lemma timer_update_ok m now cancel : lm_inv now m -> lm_inv now (lm_timer_update m now cancel) /\ (no_early now m -> no_early now (lm_timer_update m now cancel)).
Proof.
  intros [H1 H2 H3]. unfold lm_timer_update, timer_update. unfold armed in H3. destruct (timer_state_ (liveliness_timer_ m)) eqn:Es; simpl.
  - split; [split; [done|done|unfold armed; simpl; by rewrite Es]|]. unfold no_early. simpl. by rewrite Es.
  - split; [split; [done|done|unfold armed; simpl; by destruct (timer_owner_ m)]|]. unfold no_early. simpl. by rewrite Es.
  - split; [split; [done|done|unfold armed; simpl; by rewrite Es]|]. unfold no_early. simpl. by rewrite Es.
Qed.

(** The owner is declared dead, nobody else is. *)
Definition dies (i : nat) d m m' : Prop :=
  writers_ m' = <[i := with_status_time d NOT_ALIVE (ld_time d)]> (writers_ m) /\
  notices_ m' = notices_ m ++ [mkNotice (ld_guid d) (ld_kind d) (ld_lease d) (-1) 1].

Lemma timer_trigger_ok m now cancel : lm_inv now m ->
  exists m', lm_timer_trigger m now cancel = Some m' /\ lm_inv now m' /\ (no_early now m -> no_early now m') /\
    ((writers_ m' = writers_ m /\ notices_ m' = notices_ m) \/
     exists i d, timer_owner_ m = Some i /\ writers_ m !! i = Some d /\ timer_state_ (liveliness_timer_ m) = WAITING /\ is_alive d = true /\ dies i d m m').
Proof.
  intros I. pose proof I as [H1 H2 H3]. unfold lm_timer_trigger. unfold armed in H3. destruct (timer_state_ (liveliness_timer_ m)) eqn:Es.
  - eexists. split; [done|]. split; [split; [done|done|unfold armed; simpl; by rewrite Es]|]. split; [unfold no_early; simpl; by rewrite Es|by left].
  - eexists. split; [done|]. split; [split; [done|done|unfold armed; simpl; by rewrite Es]|]. split; [unfold no_early; simpl; by rewrite Es|by left].
  - unfold timer_expired. simpl. unfold watched in H2. destruct (timer_owner_ m) as [i|] eqn:Eo; [|done]. destruct H2 as (d & Hi & Ha & Hn). rewrite Hi. cbn [mbind option_bind].
    set (dead := with_status_time d NOT_ALIVE (ld_time d)). set (m0 := notify _ _). assert (times_ok now (writers_ m0)) as H0.
    { apply Forall_insert; [done|]. rewrite list.Forall_forall in H1. destruct (H1 d) as [Hl _]; [by eapply list_elem_of_lookup_2|]. by split. }
    pose proof (calculate_next_ok m0 now H0) as HC. destruct (calculate_next m0 now) as [any m1]. destruct HC as (W & (o & ->) & Hany).
    assert (Hdie : forall t, dies i d m (set_lm_timer (set_lm_owner m0 o) t)) by (intros t; by split).
    assert (Hright : forall t, (writers_ (set_lm_timer (set_lm_owner m0 o) t) = writers_ m /\ notices_ (set_lm_timer (set_lm_owner m0 o) t) = notices_ m) \/
      exists i0 d0, Some i = Some i0 /\ writers_ m !! i0 = Some d0 /\ WAITING = WAITING /\ is_alive d0 = true /\ dies i0 d0 m (set_lm_timer (set_lm_owner m0 o) t)) by (intros t; right; by exists i, d).
    destruct any.
    + assert (timer_owner_ (set_lm_owner m0 o) <> None) as Hso by (by apply Hany). unfold owner_interval. unfold watched in W. simpl in W, Hso |- *. destruct o as [j|]; [|done]. destruct W as (e & He & Hea & Hen).
      simpl in He. rewrite He. cbn [mbind option_bind]. eexists. split; [done|]. simpl. split; [split; [done|by exists e|done]|]. split; [|apply Hright].
      intros _. unfold no_early. simpl. intros e' He'. rewrite He in He'. injection He' as <-. apply interval_bound.
    + assert (o = None) as -> by (destruct o; [|done]; destruct Hany as [_ Hx]; by discriminate Hx). eexists. split; [done|]. simpl.
      split; [split; [done|done|done]|]. split; [done|apply Hright].
Qed.

(** ** Runs *)

Definition finite_op (op : lm_op) : bool := match op with LAdd _ _ lease => to_ns lease <? to_ns c_TimeInfinite | _ => true end.
Definition is_removal (op : lm_op) : bool := match op with LRemove _ _ _ => true | _ => false end.

Lemma lm_step_ok x e op : lm_inv (l_now x) (l_mgr x) -> finite_op op = true ->
  exists x', lm_step x e op = Some x' /\ l_now x' = l_now x + Z.of_N e /\ lm_inv (l_now x') (l_mgr x') /\
    (is_removal op = false -> no_early (l_now x) (l_mgr x) -> no_early (l_now x') (l_mgr x')).
Proof.
  intros I Hf. assert (l_now x <= l_now x + Z.of_N e) as Hle by lia. pose proof (lm_inv_later _ _ _ I Hle) as I'. pose proof (fun H => no_early_later (l_now x) (l_now x + Z.of_N e) (l_mgr x) H Hle) as Hlat.
  unfold lm_step. destruct op as [g k l|g k l|g k l|k p|c|c]; simpl in Hf.
  - destruct (add_writer_ok _ g k l _ I') as (b & m' & -> & I2 & Hn); [lia|]. eexists. split; [done|]. simpl. auto.
  - destruct (remove_writer_ok _ g k l _ I') as (b & st & m' & -> & I2). destruct b; eexists; (split; [done|]); by simpl.
  - destruct (assert_liveliness_ok _ g k l _ I') as (b & m' & -> & I2 & Hn). eexists. split; [done|]. simpl. auto.
  - destruct (assert_kind_ok _ k p _ I') as (b & m' & -> & I2 & Hn). eexists. split; [done|]. simpl. auto.
  - destruct (timer_update_ok _ _ c I') as [I2 Hn]. eexists. split; [done|]. simpl. auto.
  - destruct (_ <=? _); [|eexists; split; [done|]; simpl; auto]. destruct (timer_trigger_ok _ _ c I') as (m' & -> & I2 & Hn & _). eexists. split; [done|]. simpl. auto.
Qed.

Definition lm_start (manage_automatic : bool) now : LState := mkLState now (LivelinessManager_new manage_automatic now) 0 0.

Lemma lm_start_inv b now : lm_inv now (LivelinessManager_new b now) /\ no_early now (LivelinessManager_new b now).
Proof. split; [|done]. split; [constructor|constructor|done]. Qed.

Lemma lm_run_ok ops : forall x, lm_inv (l_now x) (l_mgr x) -> forallb (fun eo => finite_op eo.2) ops = true ->
  exists x', lm_run x ops = Some x' /\ lm_inv (l_now x') (l_mgr x') /\
    (forallb (fun eo => negb (is_removal eo.2)) ops = true -> no_early (l_now x) (l_mgr x) -> no_early (l_now x') (l_mgr x')).
Proof.
  induction ops as [|[e op] ops IH]; intros x I Hf; cbn [lm_run]; [by exists x|]. simpl in Hf. apply andb_true_iff in Hf as [Ho Hf].
  destruct (lm_step_ok x e op I Ho) as (x1 & -> & _ & I1 & Hn1). cbn [mbind option_bind]. destruct (IH x1 I1 Hf) as (x2 & E & I2 & Hn2). exists x2. split; [done|]. split; [done|].
  simpl. intros [Hr Hrs]%andb_true_iff Hne. apply Hn2; [done|]. apply Hn1; [by destruct (is_removal op)|done].
Qed.

(** C33: Operations that run one after the other, with finite leases, never follow a
    pointer to a writer that is gone, and a living writer is always watched: the
    timer is armed, and belongs to a living writer whose lease ends no later. *)
Theorem living_writers_are_watched b now ops : forallb (fun eo => finite_op eo.2) ops = true ->
  exists x, lm_run (lm_start b now) ops = Some x /\
    forall d, d ∈ writers_ (l_mgr x) -> is_alive d = true ->
      timer_state_ (liveliness_timer_ (l_mgr x)) <> INACTIVE /\
      exists i o, timer_owner_ (l_mgr x) = Some i /\ writers_ (l_mgr x) !! i = Some o /\ is_alive o = true /\ ld_time o <= ld_time d.
Proof.
  intros Hf. destruct (lm_run_ok ops (lm_start b now) (proj1 (lm_start_inv b now)) Hf) as (x & E & [_ W A] & _). exists x. split; [done|]. intros d Hd Ha.
  unfold watched, armed in *. destruct (timer_owner_ (l_mgr x)) as [i|]; [|rewrite list.Forall_forall in W; by rewrite (W d Hd) in Ha].
  destruct W as (o & Ho & Hoa & Hn). split; [done|]. exists i, o. do 3 (split; [done|]). unfold not_before in Hn. rewrite list.Forall_forall in Hn. auto.
Qed.

(** C34: As long as no writer is removed, a writer that the expired timer declares
    dead has not been asserted for its lease, up to a millisecond. *)
Theorem declared_dead_in_time b now ops x e cancel x' i d d' : forallb (fun eo => finite_op eo.2 && negb (is_removal eo.2)) ops = true ->
  lm_run (lm_start b now) ops = Some x -> lm_step x e (LTrigger cancel) = Some x' ->
  writers_ (l_mgr x) !! i = Some d -> is_alive d = true -> writers_ (l_mgr x') !! i = Some d' -> is_alive d' = false ->
  ld_time d <= 1000 * l_now x' + 1000000.
Proof.
  intros Hf E Es Hi Ha Hi' Hd. assert (forallb (fun eo => finite_op eo.2) ops = true /\ forallb (fun eo => negb (is_removal eo.2)) ops = true) as [Hf1 Hf2].
  { rewrite !forallb_forall in *. split; intros eo Heo; specialize (Hf eo Heo); by apply andb_true_iff in Hf as [? ?]. }
  destruct (lm_start_inv b now) as [I0 N0]. destruct (lm_run_ok ops (lm_start b now) I0 Hf1) as (x1 & E1 & I & Hn). rewrite E in E1. injection E1 as <-. specialize (Hn Hf2 N0).
  unfold lm_step in Es. destruct (Z.leb_spec (next_trigger_time_ (liveliness_timer_ (l_mgr x))) (l_now x + Z.of_N e)) as [Hle|_].
  2:{ injection Es as <-. simpl in Hi'. rewrite Hi in Hi'. injection Hi' as <-. congruence. }
  pose proof (lm_inv_later _ (l_now x + Z.of_N e) _ I ltac:(lia)) as I'. destruct (timer_trigger_ok _ _ cancel I') as (m' & Em & _ & _ & HD). rewrite Em in Es. injection Es as <-. simpl in *.
  destruct HD as [[Ew _]|(j & o & Ej & Ho & Ewait & _ & Ew & _)]; rewrite Ew in Hi'; [congruence|]. destruct (Nat.eq_dec j i) as [->|Hne].
  - rewrite Hi in Ho. injection Ho as <-. unfold no_early in Hn. rewrite Ej in Hn. specialize (Hn d Hi). rewrite Ewait in Hn. lia.
  - rewrite list_lookup_insert_ne in Hi' by done. congruence.
Qed.

(** ** The numbers *)

Definition with_status_in (s : WriterStatus) (l : list LivelinessData) : Z := zlen (filter (fun d => ld_status d = s) l).
Definition told_alive (ns : list Notice) : Z := foldr (fun n z => n_alive n + z) 0 ns.
Definition told_dead (ns : list Notice) : Z := foldr (fun n z => n_not_alive n + z) 0 ns.

Lemma told_app a b : told_alive (a ++ b) = told_alive a + told_alive b /\ told_dead (a ++ b) = told_dead a + told_dead b.
Proof. induction a as [|n a [IH1 IH2]]; simpl; [lia|]. rewrite IH1, IH2. lia. Qed.

Lemma status_cons s d l : with_status_in s (d :: l) = (if bool_decide (ld_status d = s) then 1 else 0) + with_status_in s l.
Proof. unfold with_status_in. rewrite filter_cons. unfold zlen. case_bool_decide as H; [rewrite decide_True by done|rewrite decide_False by done]; simpl; lia. Qed.

Lemma status_perm s l l' : l ≡ₚ l' -> with_status_in s l = with_status_in s l'.
Proof. intros H. unfold with_status_in, zlen. by rewrite H. Qed.

Lemma status_app s l l' : with_status_in s (l ++ l') = with_status_in s l + with_status_in s l'.
Proof. induction l as [|d l IH]; [done|]. rewrite <- app_comm_cons, !status_cons, IH. lia. Qed.

Lemma recounted_status s l l' : Forall2 (fun d d' => exists c, d' = with_count d c) l l' -> with_status_in s l' = with_status_in s l.
Proof. induction 1 as [|d d' k k' (c & ->) F IH]; [done|]. rewrite !status_cons, IH. done. Qed.

(** The callback has been told about exactly the writers there are, and were. *)
Definition balanced x : Prop :=
  told_alive (notices_ (l_mgr x)) = with_status_in ALIVE (writers_ (l_mgr x)) + l_gone_alive x /\
  told_dead (notices_ (l_mgr x)) = with_status_in NOT_ALIVE (writers_ (l_mgr x)) + l_gone_dead x.

Lemma assert_writer_told now d : let '(d', ns) := assert_writer now d in
  told_alive ns = with_status_in ALIVE [d'] - with_status_in ALIVE [d] /\ told_dead ns = with_status_in NOT_ALIVE [d'] - with_status_in NOT_ALIVE [d].
Proof. unfold assert_writer, with_status_time. rewrite !status_cons. simpl. destruct (ld_status d); done. Qed.

Lemma assert_writers_told now which l : let '(l', ns) := assert_writers now which l in
  told_alive ns = with_status_in ALIVE l' - with_status_in ALIVE l /\ told_dead ns = with_status_in NOT_ALIVE l' - with_status_in NOT_ALIVE l.
Proof.
  induction l as [|d l IH]; cbn [assert_writers]; [done|]. destruct (assert_writers now which l) as [l' ns]. pose proof (assert_writer_told now d) as HA.
  destruct (which d); [destruct (assert_writer now d) as [d' n]; destruct (told_app n ns) as [-> ->]|]; rewrite !status_cons in *; unfold with_status_in in *; simpl in *; lia.
Qed.

Lemma assert_first_told now which l : let '(l', ns) := assert_first now which l in
  told_alive ns = with_status_in ALIVE l' - with_status_in ALIVE l /\ told_dead ns = with_status_in NOT_ALIVE l' - with_status_in NOT_ALIVE l.
Proof.
  induction l as [|d l IH]; cbn [assert_first]; [done|]. pose proof (assert_writer_told now d) as HA. destruct (which d).
  - destruct (assert_writer now d) as [d' n]. rewrite !status_cons in *. unfold with_status_in in *. simpl in *. lia.
  - destruct (assert_first now which l) as [l' ns]. rewrite !status_cons in *. lia.
Qed.

Definition same_people m m' : Prop := writers_ m' = writers_ m /\ notices_ m' = notices_ m.

Lemma calculate_next_people m now any m' : calculate_next m now = (any, m') -> same_people m m'.
Proof. unfold calculate_next. destruct (earliest _ _ _ _ _). by intros [= <- <-]. Qed.
Lemma restart_people m now m' : restart_for_owner m now = Some m' -> same_people m m'.
Proof. unfold restart_for_owner. destruct (timer_owner_ m); [|by intros [= <-]]. intros E. apply bind_Some in E as (ms & _ & E). by injection E as <-. Qed.

(** Finding the next owner and restarting or cancelling the timer changes no writer. *)
Lemma finish_people {A} m now any m1 (b : A) r : calculate_next m now = (any, m1) ->
  (if any then m2 ← restart_for_owner m1 now; Some (b, m2) else Some (b, set_lm_timer m1 (cancel_timer (liveliness_timer_ m1)))) = Some r -> same_people m r.2.
Proof.
  intros [E1 E2]%calculate_next_people E. destruct any; [|injection E as <-; done]. apply bind_Some in E as (m2 & [E3 E4]%restart_people & E). injection E as <-.
  split; simpl; congruence.
Qed.

Lemma add_balanced m g k l now b m' : lm_add_writer m g k l now = Some (b, m') -> notices_ m' = notices_ m /\
  with_status_in ALIVE (writers_ m') = with_status_in ALIVE (writers_ m) /\ with_status_in NOT_ALIVE (writers_ m') = with_status_in NOT_ALIVE (writers_ m).
Proof.
  unfold lm_add_writer. destruct (_ && _); [by intros [= <- <-]|]. destruct (count_again _ _ _ _) as [l'|] eqn:Ec.
  - intros [= <- <-]. apply count_again_spec in Ec. simpl. by rewrite !(recounted_status _ _ _ Ec).
  - set (m0 := set_lm_writers _ _). destruct (calculate_next m0 now) as [any m1] eqn:En. intros E. destruct (finish_people m0 now any m1 true (b, m') En E) as [E1 E2]. simpl in E1, E2.
    rewrite E1, E2. simpl. rewrite !status_app. split; [done|]. split; apply Z.add_0_r.
Qed.

Lemma remove_balanced m g k l now b st m' : lm_remove_writer m g k l now = Some (b, st, m') -> notices_ m' = notices_ m /\
  forall s, with_status_in s (writers_ m) = with_status_in s (writers_ m') + if b then gone st s else 0.
Proof.
  unfold lm_remove_writer, remove_locked. pose proof (find_uncounted_spec g k l (writers_ m) 0 None) as HF. destruct (find_uncounted _ _ _ _ _ _) as [[found st'] l'].
  destruct HF as [F HF]. destruct found as [j|].
  2:{ intros [= <- <- <-]. simpl. split; [done|]. intros s. rewrite (recounted_status _ _ _ F). lia. }
  cbn [negb]. set (m0 := set_lm_writers _ _). intros E. destruct HF as (i & d & -> & Hi & Est). simpl in E. assert (b = true /\ st = st' /\ same_people m0 m') as (-> & -> & Ew & En).
  { destruct (timer_owner_ m); [|by injection E as <- <- <-]. destruct (calculate_next m0 now) as [any m1] eqn:Ec. apply calculate_next_people in Ec as [C1 C2].
    destruct any; [|by injection E as <- <- <-]. apply bind_Some in E as (m2 & [E3 E4]%restart_people & E). injection E as <- <- <-. do 2 (split; [done|]). split; congruence. }
  split; [done|]. intros s. rewrite <- (recounted_status s _ _ F). apply do_remove_perm in Hi. rewrite <- (status_perm s _ _ Hi), status_cons, Ew, Est. unfold gone. simpl.
  case_bool_decide as H1; case_bool_decide as H2; [lia|congruence|congruence|lia].
Qed.

Lemma restart_after_people m now b m' : restart_after_assertion m now = Some (b, m') -> same_people m m'.
Proof.
  unfold restart_after_assertion. set (m0 := set_lm_timer m _). destruct (calculate_next m0 now) as [any m1] eqn:En. apply calculate_next_people in En as [E1 E2].
  destruct any; [|by intros [= <- <-]]. intros E. apply bind_Some in E as (m2 & [E3 E4]%restart_people & E). injection E as <- <-. split; simpl; [by rewrite E3, E1|by rewrite E4, E2].
Qed.

Lemma asserted_balanced m l ns now b m' : restart_after_assertion (notify (set_lm_writers m l) ns) now = Some (b, m') ->
  told_alive ns = with_status_in ALIVE l - with_status_in ALIVE (writers_ m) -> told_dead ns = with_status_in NOT_ALIVE l - with_status_in NOT_ALIVE (writers_ m) ->
  told_alive (notices_ m') - with_status_in ALIVE (writers_ m') = told_alive (notices_ m) - with_status_in ALIVE (writers_ m) /\
  told_dead (notices_ m') - with_status_in NOT_ALIVE (writers_ m') = told_dead (notices_ m) - with_status_in NOT_ALIVE (writers_ m).
Proof. intros [E1 E2]%restart_after_people Ha Hd. rewrite E1, E2. simpl. destruct (told_app (notices_ m) ns) as [-> ->]. lia. Qed.

Lemma insert_status s l i d d' : l !! i = Some d -> with_status_in s (<[i := d']> l) = with_status_in s l - with_status_in s [d] + with_status_in s [d'].
Proof.
  intros Hi. pose proof (status_perm s _ _ (insert_swap l i d d' Hi)) as E. rewrite !(status_cons s _ (<[i:=d']> l)), !(status_cons s _ l) in E. rewrite !status_cons. unfold with_status_in in *. simpl. unfold zlen in *. simpl. lia.
Qed.

Lemma lm_step_balanced x e op x' : lm_inv (l_now x) (l_mgr x) -> balanced x -> lm_step x e op = Some x' -> balanced x'.
Proof.
  intros I [B1 B2]. pose proof (lm_inv_later _ (l_now x + Z.of_N e) _ I ltac:(lia)) as I'. unfold lm_step, balanced. destruct op as [g k l|g k l|g k l|k p|c|c]; intros E.
  - apply bind_Some in E as ([b m'] & (En & Ea & Ed)%add_balanced & E). injection E as <-. simpl. rewrite En, Ea, Ed. done.
  - apply bind_Some in E as ([[b st] m'] & (En & Hs)%remove_balanced & E). pose proof (Hs ALIVE). pose proof (Hs NOT_ALIVE). destruct b; injection E as <-; simpl; rewrite En; lia.
  - apply bind_Some in E as ([b m'] & E1 & E). injection E as <-. simpl. unfold assert_liveliness in E1. destruct (existsb _ _); [|injection E1 as <- <-; done].
    pose proof (assert_first_told (l_now x + Z.of_N e) (is_writer g k l) (writers_ (l_mgr x))) as H1. pose proof (assert_writers_told (l_now x + Z.of_N e) (of_participant k (guidPrefix g)) (writers_ (l_mgr x))) as H2.
    destruct (bool_decide (k = MANUAL_BY_TOPIC_LIVELINESS)).
    + destruct (assert_first _ _ _) as [l' ns]. destruct H1 as [Ha Hd]. destruct (asserted_balanced _ _ _ _ _ _ E1 Ha Hd). lia.
    + destruct (assert_writers _ _ _) as [l' ns]. destruct H2 as [Ha Hd]. destruct (asserted_balanced _ _ _ _ _ _ E1 Ha Hd). lia.
  - apply bind_Some in E as ([b m'] & E1 & E). injection E as <-. simpl. unfold assert_liveliness_kind in E1. destruct (_ && _); [injection E1 as <- <-; done|].
    pose proof (assert_writers_told (l_now x + Z.of_N e) (of_participant k p) (writers_ (l_mgr x))) as H2. destruct (writers_ (l_mgr x)) as [|d0 k0] eqn:E0; [injection E1 as <- <-; by rewrite E0|]. rewrite <- E0 in *.
    destruct (assert_writers _ _ _) as [l' ns]. destruct H2 as [Ha Hd]. destruct (asserted_balanced _ _ _ _ _ _ E1 Ha Hd). lia.
  - injection E as <-. done.
  - destruct (_ <=? _); [|injection E as <-; done]. destruct (timer_trigger_ok _ _ c I') as (m' & Em & _ & _ & HD). rewrite Em in E. injection E as <-. simpl.
    destruct HD as [[Ew En]|(i & d & _ & Hi & _ & Ha & Ew & En)]; [rewrite Ew, En; done|]. rewrite Ew, En. destruct (told_app (notices_ (l_mgr x)) [mkNotice (ld_guid d) (ld_kind d) (ld_lease d) (-1) 1]) as [-> ->].
    rewrite !(insert_status _ _ _ _ _ Hi), !status_cons. apply bool_decide_eq_true in Ha. rewrite Ha. unfold with_status_in. simpl. unfold with_status_in in B1, B2. unfold zlen in *. simpl. lia.
Qed.

(** At any time the numbers the callback was given add up: the changes of the
    alive count to the number of writers alive, those of the other to the number of
    writers that lost their liveliness, with the writers removed in either state. *)
Theorem callback_counts_exactly b now ops x : forallb (fun eo => finite_op eo.2) ops = true -> lm_run (lm_start b now) ops = Some x ->
  told_alive (notices_ (l_mgr x)) = with_status_in ALIVE (writers_ (l_mgr x)) + l_gone_alive x /\
  told_dead (notices_ (l_mgr x)) = with_status_in NOT_ALIVE (writers_ (l_mgr x)) + l_gone_dead x.
Proof.
  assert (Hgen : forall ops x0, lm_inv (l_now x0) (l_mgr x0) -> balanced x0 -> forallb (fun eo => finite_op eo.2) ops = true -> lm_run x0 ops = Some x -> balanced x).
  { clear. induction ops as [|[e op] ops IH]; intros x0 I B Hf E; cbn [lm_run] in E; [by injection E as <-|]. simpl in Hf. apply andb_true_iff in Hf as [Ho Hf].
    apply bind_Some in E as (x1 & E1 & E). destruct (lm_step_ok x0 e op I Ho) as (x2 & E2 & _ & I2 & _). rewrite E1 in E2. injection E2 as <-. eapply IH; [exact I2|eapply lm_step_balanced; [exact I|exact B|exact E1]|done|exact E]. }
  intros Hf E. by apply (Hgen ops (lm_start b now)); [apply lm_start_inv| | |].
Qed.

(** ** Samples *)

Definition guid_1 : GUID_t := mkGUID [1; 15; 1; 1; 1; 1; 1; 1; 1; 1; 1; 1] [0; 0; 1; 3].
Definition guid_2 : GUID_t := mkGUID [1; 15; 1; 1; 1; 1; 1; 1; 1; 1; 1; 1] [0; 0; 2; 3].
Definition one_second : Duration := mkDuration 1 0.
Definition ten_seconds : Duration := mkDuration 10 0.
Notation by_topic := MANUAL_BY_TOPIC_LIVELINESS.

(** Two writers with leases of one and ten seconds assert their liveliness. *)
Definition two_alive : list (N * lm_op) :=
  [(0%N, LAdd guid_1 by_topic one_second); (0%N, LAdd guid_2 by_topic ten_seconds);
   (0%N, LAssert guid_1 by_topic one_second); (0%N, LAssert guid_2 by_topic ten_seconds); (0%N, LUpdate 0)].

Definition after (ops : list (N * lm_op)) : LState := default (lm_start false 0) (lm_run (lm_start false 0) ops).

Lemma living_writers_are_watched_witness :
  exists x, lm_run (lm_start false 0) two_alive = Some x /\ with_status_in ALIVE (writers_ (l_mgr x)) = 2 /\ timer_owner_ (l_mgr x) = Some 0%nat.
Proof.
  destruct (living_writers_are_watched false 0 two_alive) as (x & E & _); [vm_compute; reflexivity|]. exists x. split; [exact E|].
  vm_compute in E. injection E as <-. split; vm_compute; reflexivity.
Defined.

(** The first one is declared dead after a second. *)
Lemma declared_dead_in_time_witness :
  exists x' d, lm_step (after two_alive) 1000000 (LTrigger 0) = Some x' /\ l_now x' = 1000000 /\ ld_time d <= 1000 * l_now x' + 1000000 /\ ld_time d = 1000000000.
Proof.
  destruct (lm_step (after two_alive) 1000000 (LTrigger 0)) as [x'|] eqn:E; [|vm_compute in E; discriminate E].
  destruct (writers_ (l_mgr (after two_alive)) !! 0%nat) as [d|] eqn:Ed; [|vm_compute in Ed; discriminate Ed].
  destruct (writers_ (l_mgr x') !! 0%nat) as [d'|] eqn:Ed'; [|vm_compute in E; injection E as <-; vm_compute in Ed'; discriminate Ed'].
  exists x', d. split; [reflexivity|]. split; [vm_compute in E; injection E as <-; reflexivity|]. split.
  - apply (declared_dead_in_time false 0 two_alive (after two_alive) 1000000 0 x' 0 d d'); [vm_compute; reflexivity|vm_compute; reflexivity|exact E|exact Ed| |exact Ed'|].
    + vm_compute in Ed. injection Ed as <-. reflexivity.
    + vm_compute in E. injection E as <-. vm_compute in Ed'. injection Ed' as <-. reflexivity.
  - vm_compute in Ed. injection Ed as <-. reflexivity.
Defined.

Lemma callback_counts_exactly_witness :
  let x := after (two_alive ++ [(1000000%N, LTrigger 0)]) in told_alive (notices_ (l_mgr x)) = with_status_in ALIVE (writers_ (l_mgr x)) + l_gone_alive x /\ with_status_in ALIVE (writers_ (l_mgr x)) = 1.
Proof.
  intros x. split; [|vm_compute; reflexivity].
  apply (callback_counts_exactly false 0 (two_alive ++ [(1000000%N, LTrigger 0)])); vm_compute; reflexivity.
Defined.

(** ** What goes wrong *)

(** Removing the writer that owns the timer leaves the timer waiting for that
    writer's time: another writer is then declared dead nine seconds before its
    lease of ten seconds ends. *)
Theorem early_death_after_removal :
  exists x d, lm_run (lm_start false 0) (two_alive ++ [(500000%N, LRemove guid_1 by_topic one_second); (500000%N, LTrigger 0)]) = Some x /\
    l_now x = 1000000 /\ writers_ (l_mgr x) = [d] /\ ld_guid d = guid_2 /\ ld_status d = NOT_ALIVE /\ ld_time d = 1000 * l_now x + 9000000000.
Proof. eexists _, _. split; [vm_compute; reflexivity|]. do 4 (split; [vm_compute; reflexivity|]). vm_compute. reflexivity. Qed.

(** Removing one of several registrations of a writer reports the status of the
    last writer of the list: a living writer is reported as one that is not alive,
    and the reader that takes its writer off its counts uses that status. *)
Theorem wrong_status_reported :
  let m := l_mgr (after [(0%N, LAdd guid_1 by_topic ten_seconds); (0%N, LAdd guid_1 by_topic ten_seconds); (0%N, LAdd guid_2 by_topic one_second);
                         (0%N, LAssert guid_1 by_topic ten_seconds); (0%N, LAssert guid_2 by_topic one_second); (0%N, LUpdate 0); (1000000%N, LTrigger 0)]) in
  option_map ld_status (head (writers_ m)) = Some ALIVE /\ option_map ld_guid (head (writers_ m)) = Some guid_1 /\
  option_map fst (lm_remove_writer m guid_1 by_topic ten_seconds 2000000) = Some (false, Some NOT_ALIVE).
Proof. split; [vm_compute; reflexivity|]. split; vm_compute; reflexivity. Qed.

(** Between the two locked parts of [remove_writer] the timer's owner may be a
    writer that is gone: a timer that expires there follows a dangling pointer. *)
Theorem timer_owner_dangles :
  let m := l_mgr (after [(0%N, LAdd guid_1 by_topic one_second); (0%N, LAssert guid_1 by_topic one_second)]) in
  timer_owner_ m = Some 0%nat /\ let r := remove_locked m guid_1 by_topic one_second in r.1.1 = true /\ timer_expired r.2 1000000 = None.
Proof. split; [vm_compute; reflexivity|]. split; vm_compute; reflexivity. Qed.
