(* ===== verification/Handles.v ===== *)
(** * Identifiers and their order

    The order of [GUID_t] ([Guid.hpp], [GuidPrefix_t.hpp], [EntityId_t.hpp]) and
    [InstanceHandle_t] ([InstanceHandle.hpp]), and [std::map] with instance handles
    as keys.  A handle is [None] while none of the operators that write to it has
    been used; its bytes are zero then. *)

From Stdlib Require Import Sorted.
From S2P Require Import Prelude ParameterList ReaderProxy.

(** [memcmp(..) < 0], and the order of [std::array]. *)
Fixpoint bytes_ltb (a b : list Z) : bool :=
  match a, b with
  | x :: a, y :: b => (x <? y) || (x =? y) && bytes_ltb a b
  | [], _ :: _ => true
  | _, [] => false
  end.

Definition guid_ltb (g1 g2 : GUID_t) : bool :=
  if bytes_ltb (guidPrefix g1) (guidPrefix g2) then true
  else if bytes_ltb (guidPrefix g2) (guidPrefix g1) then false
  else bytes_ltb (entityId g1) (entityId g2).

Definition InstanceHandle_t : Type := option (list Z).
Definition c_InstanceHandle_Unknown : InstanceHandle_t := None.
Definition isDefined (h : InstanceHandle_t) : bool := match h with Some _ => true | None => false end.

Definition handle_ltb (h1 h2 : InstanceHandle_t) : bool :=
  match h1, h2 with
  | Some v1, Some v2 => bytes_ltb v1 v2
  | None, Some _ => true
  | _, None => false
  end.

Definition handle_of_guid (g : GUID_t) : InstanceHandle_t := Some (guidPrefix g ++ entityId g).
Definition iHandle2GUID (h : InstanceHandle_t) : GUID_t :=
  let v := default (replicate 16 0) h in mkGUID (take 12 v) (take 4 (drop 12 v)).

(** ** Return codes of DDS operations *)

Inductive ReturnCode :=
  | RETCODE_OK | RETCODE_ERROR | RETCODE_UNSUPPORTED | RETCODE_BAD_PARAMETER | RETCODE_PRECONDITION_NOT_MET | RETCODE_OUT_OF_RESOURCES
  | RETCODE_NOT_ENABLED | RETCODE_INCONSISTENT_POLICY | RETCODE_TIMEOUT | RETCODE_NO_DATA | RETCODE_ILLEGAL_OPERATION.

(** ** Order *)

Lemma bytes_ltb_irrefl a : bytes_ltb a a = false.
Proof. induction a as [|x a IH]; simpl; [done|]. rewrite IH, Z.ltb_irrefl. by rewrite andb_false_r. Qed.

Lemma bytes_ltb_trans a b c : bytes_ltb a b = true -> bytes_ltb b c = true -> bytes_ltb a c = true.
Proof.
  revert b c. induction a as [|x a IH]; intros [|y b] [|z c]; simpl; try done. rewrite !orb_true_iff, !andb_true_iff, !Z.ltb_lt, !Z.eqb_eq.
  intros [H1|[-> H1]] [H2|[-> H2]]; [left; lia|left; lia|left; lia|right; split; [done|eauto]].
Qed.

Lemma bytes_ltb_total a b : bytes_ltb a b = false -> bytes_ltb b a = false -> a = b.
Proof.
  revert b. induction a as [|x a IH]; intros [|y b]; simpl; try done. rewrite !orb_false_iff, !Z.ltb_ge. intros [H1 H2] [H3 H4].
  assert (x = y) as -> by lia. rewrite Z.eqb_refl in *. f_equal. by apply IH.
Qed.

Lemma bytes_ltb_asym a b : bytes_ltb a b = true -> bytes_ltb b a = false.
Proof.
  intros H. destruct (bytes_ltb b a) eqn:E; [|done]. pose proof (bytes_ltb_trans _ _ _ H E) as F. by rewrite bytes_ltb_irrefl in F.
Qed.

Lemma handle_ltb_irrefl h : handle_ltb h h = false.
Proof. destruct h; simpl; [apply bytes_ltb_irrefl|done]. Qed.
Lemma handle_ltb_trans h1 h2 h3 : handle_ltb h1 h2 = true -> handle_ltb h2 h3 = true -> handle_ltb h1 h3 = true.
Proof. destruct h1, h2, h3; simpl; try done. apply bytes_ltb_trans. Qed.
Lemma handle_ltb_total h1 h2 : handle_ltb h1 h2 = false -> handle_ltb h2 h1 = false -> h1 = h2.
Proof. destruct h1, h2; simpl; try done. intros. f_equal. by apply bytes_ltb_total. Qed.

Lemma guid_ltb_irrefl g : guid_ltb g g = false.
Proof. unfold guid_ltb. by rewrite !bytes_ltb_irrefl. Qed.
Lemma guid_ltb_total g1 g2 : guid_ltb g1 g2 = false -> guid_ltb g2 g1 = false -> g1 = g2.
Proof.
  destruct g1 as [p1 e1], g2 as [p2 e2]. unfold guid_ltb. simpl. destruct (bytes_ltb p1 p2) eqn:E1; [done|]. destruct (bytes_ltb p2 p1) eqn:E2; [done|].
  intros. f_equal; by apply bytes_ltb_total.
Qed.

(** No identifier comes before the unknown one. *)
Definition guid_ok (g : GUID_t) : Prop :=
  length (guidPrefix g) = 12%nat /\ length (entityId g) = 4%nat /\ Forall is_byte (guidPrefix g) /\ Forall is_byte (entityId g).

Lemma zeros_least n a : length a = n -> Forall is_byte a -> bytes_ltb a (replicate n 0) = false.
Proof.
  revert n. induction a as [|x a IH]; intros [|n]; simpl; try done. intros [= E] H. apply list.Forall_cons in H as [Hx Ha]. rewrite IH by done. unfold is_byte in Hx.
  rewrite andb_false_r, orb_false_r. apply Z.ltb_ge. lia.
Qed.

Lemma guid_unknown_least g : guid_ok g -> guid_ltb g c_Guid_Unknown = false.
Proof.
  intros (L1 & L2 & B1 & B2). unfold guid_ltb, c_Guid_Unknown, c_GuidPrefix_Unknown, c_EntityId_Unknown. simpl guidPrefix. simpl entityId.
  rewrite (zeros_least 12), (zeros_least 4) by done. by destruct (bytes_ltb _ _).
Qed.

(** A handle made of a GUID gives it back. *)
Lemma handle_guid_roundtrip g : guid_ok g -> iHandle2GUID (handle_of_guid g) = g.
Proof.
  intros (L1 & L2 & _). destruct g as [p e]. unfold iHandle2GUID, handle_of_guid. simpl in *. rewrite take_app_length' by done. rewrite drop_app_length' by done.
  by rewrite take_ge by lia.
Qed.

(** ** [std::map] *)

Section Map.
Context {V : Type}.
Notation Map := (list (InstanceHandle_t * V)).
Implicit Types (l : Map) (h k : InstanceHandle_t) (v : V).

Definition map_find k l : option V := snd <$> List.find (fun kv => bool_decide (kv.1 = k)) l.

(** [emplace], which leaves a key that is there as it is. *)
Fixpoint map_emplace k v l : Map :=
  match l with
  | [] => [(k, v)]
  | (h, w) :: l' => if handle_ltb k h then (k, v) :: l else if handle_ltb h k then (h, w) :: map_emplace k v l' else l
  end.

(** Assignment to the value of a key that is there. *)
Definition map_update k v l : Map := map (fun kv => if bool_decide (kv.1 = k) then (k, v) else kv) l.

Definition map_erase k l : Map := filter (fun kv => kv.1 <> k) l.

(** The keys are in order. *)
Definition keys_sorted l : Prop := StronglySorted (fun h k => handle_ltb h k = true) l.*1.

Lemma sorted_tail_ne h (ks : list InstanceHandle_t) : StronglySorted (fun h k => handle_ltb h k = true) (h :: ks) -> h ∉ ks.
Proof. intros [_ H]%StronglySorted_inv Hin. rewrite list.Forall_forall in H. specialize (H h Hin). by rewrite handle_ltb_irrefl in H. Qed.

Lemma map_find_cons k h v l : map_find k ((h, v) :: l) = if bool_decide (h = k) then Some v else map_find k l.
Proof. unfold map_find. simpl. by case_bool_decide. Qed.

Lemma map_find_None k l : map_find k l = None <-> k ∉ l.*1.
Proof.
  induction l as [|[h w] l IH]; [split; [intros _; apply not_elem_of_nil|done]|]. rewrite map_find_cons, fmap_cons, not_elem_of_cons. simpl. case_bool_decide as E.
  - split; [done|]. intros [Hne _]. by symmetry in E.
  - rewrite IH. split; [intros H; split; [congruence|done]|tauto].
Qed.

Lemma map_find_Some k v l : keys_sorted l -> map_find k l = Some v <-> (k, v) ∈ l.
Proof.
  unfold keys_sorted. induction l as [|[h w] l IH]; intros Hs; [split; [done|by intros ?%elem_of_nil]|]. rewrite fmap_cons in Hs. simpl in Hs.
  pose proof (sorted_tail_ne _ _ Hs) as Hn. apply StronglySorted_inv in Hs as [Hs _]. rewrite map_find_cons, elem_of_cons. case_bool_decide as E.
  - subst h. split; [intros [= <-]; by left|]. intros [[= <-]|H]; [done|]. exfalso. apply Hn. apply list_elem_of_fmap. by exists (k, v).
  - rewrite IH by done. split; [by right|]. intros [[= <- <-]|H]; done.
Qed.

Lemma map_find_emplace k v h l : keys_sorted l ->
  map_find h (map_emplace k v l) = match map_find h l with Some w => Some w | None => if bool_decide (h = k) then Some v else None end.
Proof.
  unfold keys_sorted. induction l as [|[k' w] l IH]; intros Hs; simpl map_emplace.
  - rewrite map_find_cons. unfold map_find at 1 2. simpl. case_bool_decide; case_bool_decide; congruence.
  - rewrite fmap_cons in Hs. simpl in Hs. pose proof (StronglySorted_inv Hs) as [Hs' Hall]. destruct (handle_ltb k k') eqn:E1.
    + rewrite !map_find_cons. case_bool_decide as D1; [|case_bool_decide; [done|]; case_bool_decide as D2; [congruence|]; by destruct (map_find h l)].
      subst k. rewrite (bool_decide_true (h = h)) by done. case_bool_decide as D2; [by rewrite D2, handle_ltb_irrefl in E1|].
      replace (map_find h l) with (@None V); [done|]. symmetry. apply map_find_None. intros Hin. rewrite list.Forall_forall in Hall.
      pose proof (handle_ltb_trans _ _ _ E1 (Hall h Hin)) as F. by rewrite handle_ltb_irrefl in F.
    + destruct (handle_ltb k' k) eqn:E2.
      * rewrite !map_find_cons, IH by done. by destruct (bool_decide (k' = h)).
      * pose proof (handle_ltb_total _ _ E1 E2) as ->. rewrite map_find_cons. destruct (decide (k' = h)) as [->|D]; [by rewrite bool_decide_true by done|].
        rewrite !bool_decide_false by congruence. by destruct (map_find h l).
Qed.

Lemma map_emplace_keys k v h l : h ∈ (map_emplace k v l).*1 <-> h = k \/ h ∈ l.*1.
Proof.
  induction l as [|[k' w] l IH]; simpl map_emplace; [rewrite fmap_cons; simpl; rewrite elem_of_cons; tauto|].
  destruct (handle_ltb k k') eqn:E1; [rewrite !fmap_cons; simpl; rewrite !elem_of_cons; tauto|]. destruct (handle_ltb k' k) eqn:E2.
  - rewrite !fmap_cons. simpl. rewrite !elem_of_cons, IH. tauto.
  - pose proof (handle_ltb_total _ _ E1 E2) as ->. rewrite !fmap_cons. simpl. rewrite !elem_of_cons. tauto.
Qed.

Lemma map_emplace_sorted k v l : keys_sorted l -> keys_sorted (map_emplace k v l).
Proof.
  unfold keys_sorted. induction l as [|[k' w] l IH]; intros Hs; simpl map_emplace; [repeat constructor|]. rewrite fmap_cons in Hs. simpl in Hs.
  pose proof (StronglySorted_inv Hs) as [Hs' Hall]. destruct (handle_ltb k k') eqn:E1.
  - rewrite !fmap_cons. simpl. constructor; [done|]. constructor; [done|]. eapply list.Forall_impl; [exact Hall|]. intros x. by apply handle_ltb_trans.
  - destruct (handle_ltb k' k) eqn:E2; [|by rewrite fmap_cons]. rewrite fmap_cons. simpl. constructor; [by apply IH|]. apply list.Forall_forall. intros x Hx.
    apply map_emplace_keys in Hx as [->|Hx]; [done|]. rewrite list.Forall_forall in Hall. auto.
Qed.

Lemma map_update_keys k v l : (map_update k v l).*1 = l.*1.
Proof. unfold map_update. induction l as [|[h w] l IH]; [done|]. cbn [map fst]. rewrite !fmap_cons, IH. case_bool_decide; simpl; congruence. Qed.

Lemma map_find_update k v h l : map_find h (map_update k v l) = if bool_decide (h = k) then (fun _ => v) <$> map_find h l else map_find h l.
Proof.
  induction l as [|[h' w] l IH]; [simpl; by case_bool_decide|]. unfold map_update in *. cbn [map fst]. destruct (decide (h' = k)) as [->|Hne].
  - rewrite (bool_decide_true (k = k)) by done. rewrite !map_find_cons, IH. destruct (decide (k = h)) as [->|E]; [by rewrite !bool_decide_true by done|].
    by rewrite !bool_decide_false by congruence.
  - rewrite (bool_decide_false (h' = k)) by done. rewrite !map_find_cons, IH. destruct (decide (h' = h)) as [->|E]; [by rewrite (bool_decide_true (h = h)), !(bool_decide_false (h = k)) by done|].
    by rewrite (bool_decide_false (h' = h)) by done.
Qed.

Lemma map_erase_sorted k l : keys_sorted l -> keys_sorted (map_erase k l).
Proof.
  unfold keys_sorted, map_erase. induction l as [|[h w] l IH]; intros Hs; [constructor|]. rewrite fmap_cons in Hs. apply StronglySorted_inv in Hs as [Hs Hall]. rewrite filter_cons.
  case_decide; [|auto]. rewrite fmap_cons. constructor; [auto|]. apply list.Forall_forall. intros x (kv & -> & Hx)%list_elem_of_fmap. apply list_elem_of_filter in Hx as [_ Hx].
  rewrite list.Forall_forall in Hall. apply Hall. by apply list_elem_of_fmap_2.
Qed.

Lemma map_find_erase k h l : map_find h (map_erase k l) = if bool_decide (h = k) then None else map_find h l.
Proof.
  unfold map_erase. induction l as [|[h' w] l IH]; [simpl; by case_bool_decide|]. destruct (decide (h' = k)) as [->|D].
  - rewrite filter_cons_False by (simpl; tauto). rewrite IH, map_find_cons. destruct (decide (k = h)) as [->|E]; [by rewrite !bool_decide_true by done|].
    by rewrite !bool_decide_false by congruence.
  - rewrite filter_cons_True by done. rewrite !map_find_cons, IH. destruct (decide (h' = h)) as [->|E]; [by rewrite (bool_decide_true (h = h)), (bool_decide_false (h = k)) by done|].
    by rewrite (bool_decide_false (h' = h)) by done.
Qed.
End Map.
