(* ===== verification/DataReaderInstance.v ===== *)
(** * Instances on the side of the reader

    Models [DataReaderInstance] and [DataReaderHistoryCounters]
    ([Fast-DDS/src/cpp/fastdds/subscriber/history]): the state of an instance, the
    writers that are alive for it, and its owner.  A change is referred to by its
    address.  With shared ownership all writers have the strength [2^32 - 1].  A
    failed assertion is [None]. *)

From S2P Require Import Prelude SequenceNumber LimitedVector ParameterList ReaderProxy Handles.

Inductive ViewStateKind := NEW_VIEW_STATE | NOT_NEW_VIEW_STATE.
Inductive InstanceStateKind := ALIVE_INSTANCE_STATE | NOT_ALIVE_DISPOSED_INSTANCE_STATE | NOT_ALIVE_NO_WRITERS_INSTANCE_STATE.

#[export] Instance ViewStateKind_eq_dec : EqDecision ViewStateKind.
Proof. solve_decision. Defined.
#[export] Instance InstanceStateKind_eq_dec : EqDecision InstanceStateKind.
Proof. solve_decision. Defined.

(** The values of the constants, which are used as bits of a mask. *)
Definition view_mask (v : ViewStateKind) : Z := match v with NEW_VIEW_STATE => 1 | NOT_NEW_VIEW_STATE => 2 end.
Definition instance_mask (s : InstanceStateKind) : Z :=
  match s with ALIVE_INSTANCE_STATE => 1 | NOT_ALIVE_DISPOSED_INSTANCE_STATE => 2 | NOT_ALIVE_NO_WRITERS_INSTANCE_STATE => 4 end.

Record DataReaderHistoryCounters := mkCounters {
  samples_read : Z;
  samples_unread : Z;
  instances_new : Z;
  instances_not_new : Z;
  instances_alive : Z;
  instances_disposed : Z;
  instances_no_writers : Z
}.

Notation WriterOwnership := (GUID_t * Z)%type.
Definition UINT32_MAX : Z := 2 ^ 32 - 1.

Record DataReaderInstance := mkDI {
  cache_changes : list nat;
  alive_writers : list WriterOwnership;
  current_owner : WriterOwnership;
  next_deadline_us : Z;
  view_state : ViewStateKind;
  instance_state : InstanceStateKind;
  disposed_generation_count : Z;
  no_writers_generation_count : Z;
  has_been_accounted_ : bool
}.

Implicit Types (i : DataReaderInstance) (n : DataReaderHistoryCounters) (g : GUID_t) (s : Z) (w : WriterOwnership).

Definition DataReaderInstance_new : DataReaderInstance :=
  mkDI [] [] (c_Guid_Unknown, UINT32_MAX) 0 NEW_VIEW_STATE ALIVE_INSTANCE_STATE 0 0 false.

Definition set_cache_changes i l : DataReaderInstance :=
  mkDI l (alive_writers i) (current_owner i) (next_deadline_us i) (view_state i) (instance_state i)
    (disposed_generation_count i) (no_writers_generation_count i) (has_been_accounted_ i).
Definition set_alive_writers i l : DataReaderInstance :=
  mkDI (cache_changes i) l (current_owner i) (next_deadline_us i) (view_state i) (instance_state i)
    (disposed_generation_count i) (no_writers_generation_count i) (has_been_accounted_ i).
Definition set_current_owner i w : DataReaderInstance :=
  mkDI (cache_changes i) (alive_writers i) w (next_deadline_us i) (view_state i) (instance_state i)
    (disposed_generation_count i) (no_writers_generation_count i) (has_been_accounted_ i).
Definition set_deadline i t : DataReaderInstance :=
  mkDI (cache_changes i) (alive_writers i) (current_owner i) t (view_state i) (instance_state i)
    (disposed_generation_count i) (no_writers_generation_count i) (has_been_accounted_ i).
Definition set_view_state i v : DataReaderInstance :=
  mkDI (cache_changes i) (alive_writers i) (current_owner i) (next_deadline_us i) v (instance_state i)
    (disposed_generation_count i) (no_writers_generation_count i) (has_been_accounted_ i).
Definition set_instance_state i st : DataReaderInstance :=
  mkDI (cache_changes i) (alive_writers i) (current_owner i) (next_deadline_us i) (view_state i) st
    (disposed_generation_count i) (no_writers_generation_count i) (has_been_accounted_ i).
Definition next_generation i (disposed no_writers : Z) : DataReaderInstance :=
  mkDI (cache_changes i) (alive_writers i) (current_owner i) (next_deadline_us i) (view_state i) (instance_state i)
    (i32 (disposed_generation_count i + disposed)) (i32 (no_writers_generation_count i + no_writers)) (has_been_accounted_ i).
Definition set_accounted i : DataReaderInstance :=
  mkDI (cache_changes i) (alive_writers i) (current_owner i) (next_deadline_us i) (view_state i) (instance_state i)
    (disposed_generation_count i) (no_writers_generation_count i) true.

(** ** Counters *)

(** Additions to the counters of instances, by state and by view. *)
Definition add_new n (k : Z) : DataReaderHistoryCounters :=
  mkCounters (samples_read n) (samples_unread n) (u64 (instances_new n + k)) (instances_not_new n) (instances_alive n) (instances_disposed n) (instances_no_writers n).
Definition add_not_new n (k : Z) : DataReaderHistoryCounters :=
  mkCounters (samples_read n) (samples_unread n) (instances_new n) (u64 (instances_not_new n + k)) (instances_alive n) (instances_disposed n) (instances_no_writers n).
Definition add_state n (st : InstanceStateKind) (k : Z) : DataReaderHistoryCounters :=
  let on st' x := if bool_decide (st = st') then u64 (x + k) else x in
  mkCounters (samples_read n) (samples_unread n) (instances_new n) (instances_not_new n)
    (on ALIVE_INSTANCE_STATE (instances_alive n)) (on NOT_ALIVE_DISPOSED_INSTANCE_STATE (instances_disposed n))
    (on NOT_ALIVE_NO_WRITERS_INSTANCE_STATE (instances_no_writers n)).
Definition set_samples n (rd unread : Z) : DataReaderHistoryCounters :=
  mkCounters rd unread (instances_new n) (instances_not_new n) (instances_alive n) (instances_disposed n) (instances_no_writers n).

Definition counters_update n (view : ViewStateKind) (from to : InstanceStateKind) (set_as_new_view_state : bool) : DataReaderHistoryCounters :=
  let n := add_state (add_state n from (-1)) to 1 in
  if set_as_new_view_state && bool_decide (view <> NEW_VIEW_STATE) then add_not_new (add_new n 1) (-1) else n.

(** ** Writers and owner *)

Definition is_guid g w : bool := bool_decide (w.1 = g).

Definition better w (owner : WriterOwnership) : bool := (w.2 >? owner.2) || (w.2 =? owner.2) && guid_ltb w.1 owner.1.

Definition update_owner i : DataReaderInstance :=
  set_current_owner i (fold_left (fun owner w => if better w owner then w else owner) (alive_writers i) (current_owner i)).

Section Limit.
(** The maximum number of writers of an instance. *)
Variable limit : Z.

Definition writer_set i g s : DataReaderInstance :=
  match index_of (is_guid g) (alive_writers i) with
  | None => set_alive_writers i (put limit (alive_writers i) (g, s))
  | Some k => set_alive_writers i (<[k := (g, s)]> (alive_writers i))
  end.

Definition writer_update_its_ownership_strength i g s : option DataReaderInstance :=
  if bool_decide (g = (current_owner i).1) then
    k ← index_of (is_guid g) (alive_writers i);
    Some (update_owner (set_current_owner (set_alive_writers i (<[k := (g, s)]> (alive_writers i))) (g, s)))
  else Some i.

(** The owner after a sample, and whether the sample is accepted. *)
Definition owner_after i g s : option (option WriterOwnership) :=
  let '(og, os) := current_owner i in
  if bool_decide (g = og) then Some (Some (og, s))
  else if s >? os then Some (Some (g, s))
  else if (s =? os) && guid_ltb g og then Some (Some (g, os))
  else if s =? UINT32_MAX then if bool_decide (c_Guid_Unknown = og) && (UINT32_MAX =? os) then Some (Some (og, os)) else None
  else if bool_decide (c_Guid_Unknown = og) then Some (Some (g, s))
  else Some None.

(** An instance that is not alive comes to life. *)
Definition revive_instance n i : option (DataReaderHistoryCounters * DataReaderInstance) :=
  match instance_state i with
  | NOT_ALIVE_DISPOSED_INSTANCE_STATE =>
      Some (counters_update n (view_state i) NOT_ALIVE_DISPOSED_INSTANCE_STATE ALIVE_INSTANCE_STATE true,
            set_instance_state (set_view_state (set_alive_writers (next_generation i 1 0) []) NEW_VIEW_STATE) ALIVE_INSTANCE_STATE)
  | NOT_ALIVE_NO_WRITERS_INSTANCE_STATE =>
      if zlen (alive_writers i) =? 0 then
        Some (counters_update n (view_state i) NOT_ALIVE_NO_WRITERS_INSTANCE_STATE ALIVE_INSTANCE_STATE true,
              set_instance_state (set_view_state (next_generation i 0 1) NEW_VIEW_STATE) ALIVE_INSTANCE_STATE)
      else None
  | ALIVE_INSTANCE_STATE => Some (n, i)
  end.

Definition writer_alive n i g s : option (bool * DataReaderHistoryCounters * DataReaderInstance) :=
  accepted ← owner_after i g s;
  match accepted with
  | Some owner => '(n, i) ← revive_instance n (set_current_owner i owner); Some (true, n, writer_set i g s)
  | None => Some (false, n, writer_set i g s)
  end.

Definition writer_dispose n i g s : bool * DataReaderHistoryCounters * DataReaderInstance :=
  let '(og, os) := current_owner i in
  if (s >=? os) || (s =? os) && guid_ltb g og then
    let i := if s =? UINT32_MAX then i else set_current_owner i (g, s) in
    match instance_state i with
    | ALIVE_INSTANCE_STATE =>
        (true, counters_update n (view_state i) ALIVE_INSTANCE_STATE NOT_ALIVE_DISPOSED_INSTANCE_STATE false,
         writer_set (set_instance_state i NOT_ALIVE_DISPOSED_INSTANCE_STATE) g s)
    | _ => (false, n, writer_set i g s)
    end
  else (false, n, writer_set i g s).

Definition is_alive_state i : bool := bool_decide (instance_state i = ALIVE_INSTANCE_STATE).

(** A writer that goes is not the owner any more. *)
Definition drop_owner i g : DataReaderInstance :=
  if bool_decide (g = (current_owner i).1) then
    let i := set_current_owner i (c_Guid_Unknown, 0) in if is_alive_state i then update_owner i else i
  else i.

Definition writer_unregister n i g : bool * DataReaderHistoryCounters * DataReaderInstance :=
  let '(removed, l) := swap_remove_if (is_guid g) (alive_writers i) in
  if removed : bool then
    let i := drop_owner (set_alive_writers i l) g in
    if (zlen (alive_writers i) =? 0) && is_alive_state i then
      (true, counters_update n (view_state i) ALIVE_INSTANCE_STATE NOT_ALIVE_NO_WRITERS_INSTANCE_STATE false,
       set_instance_state i NOT_ALIVE_NO_WRITERS_INSTANCE_STATE)
    else (true, n, i)
  else (false, n, i).

(** The counters take an instance in with its first change. *)
Definition account n i : option (DataReaderHistoryCounters * DataReaderInstance) :=
  if has_been_accounted_ i then Some (n, i)
  else if bool_decide (view_state i = NEW_VIEW_STATE) && is_alive_state i then Some (add_state (add_new n 1) ALIVE_INSTANCE_STATE 1, set_accounted i)
  else None.

Definition update_state n i (change_kind : ChangeKind_t) g s : option (bool * DataReaderHistoryCounters * DataReaderInstance) :=
  '(n, i) ← account n i;
  match change_kind with
  | ALIVE => writer_alive n i g s
  | NOT_ALIVE_DISPOSED => Some (writer_dispose n i g s)
  | NOT_ALIVE_DISPOSED_UNREGISTERED =>
      let '(r1, n, i) := writer_dispose n i g s in
      let '(r2, n, i) := writer_unregister n i g in
      Some (r1 || r2, n, i)
  | NOT_ALIVE_UNREGISTERED => Some (writer_unregister n i g)
  end.

Definition writer_removed n i g : bool * DataReaderHistoryCounters * DataReaderInstance :=
  if has_been_accounted_ i then writer_unregister n i g else (false, n, i).

Definition deadline_missed i : DataReaderInstance :=
  if bool_decide (c_Guid_Unknown <> (current_owner i).1) then
    let '(removed, l) := swap_remove_if (is_guid (current_owner i).1) (alive_writers i) in
    if removed : bool then
      let i := set_current_owner (set_alive_writers i l) (c_Guid_Unknown, 0) in
      let i := if (zlen (alive_writers i) =? 0) && is_alive_state i then set_instance_state i NOT_ALIVE_NO_WRITERS_INSTANCE_STATE else i in
      if is_alive_state i then update_owner i else i
    else i
  else i.
End Limit.

(** ** Runs of one instance *)

Inductive inst_op :=
  | IChange (change_kind : ChangeKind_t) (g : GUID_t)
  | IRemoved (g : GUID_t)
  | IDeadline.

(** Each writer has a strength of its own that does not change. *)
Definition inst_step (limit : Z) (str : GUID_t -> Z) n i (op : inst_op) : option (DataReaderHistoryCounters * DataReaderInstance) :=
  match op with
  | IChange k g => '(_, n, i) ← update_state limit n i k g (str g); Some (n, i)
  | IRemoved g => let '(_, n, i) := writer_removed n i g in Some (n, i)
  | IDeadline => Some (n, deadline_missed i)
  end.

Fixpoint inst_run (limit : Z) (str : GUID_t -> Z) n i (ops : list inst_op) : option (DataReaderHistoryCounters * DataReaderInstance) :=
  match ops with
  | [] => Some (n, i)
  | op :: ops => '(n, i) ← inst_step limit str n i op; inst_run limit str n i ops
  end.

Definition no_counters : DataReaderHistoryCounters := mkCounters 0 0 0 0 0 0 0.

Lemma writer_set_accounted limit i g s : has_been_accounted_ (writer_set limit i g s) = has_been_accounted_ i.
Proof. unfold writer_set. by destruct (index_of _ _). Qed.

Lemma writer_dispose_accounted limit n i g s r n' i' : writer_dispose limit n i g s = (r, n', i') -> has_been_accounted_ i' = has_been_accounted_ i.
Proof.
  unfold writer_dispose. destruct (current_owner i) as [og os]. destruct (_ || _); [|intros [= _ _ <-]; apply writer_set_accounted].
  destruct (_ =? _); simpl; destruct (instance_state i); intros [= _ _ <-]; by rewrite writer_set_accounted.
Qed.

Lemma writer_unregister_accounted n i g r n' i' : writer_unregister n i g = (r, n', i') -> has_been_accounted_ i' = has_been_accounted_ i.
Proof.
  unfold writer_unregister. destruct (swap_remove_if _ _) as [[] l]; [|by intros [= _ _ <-]]. unfold drop_owner. simpl. destruct (bool_decide _); [destruct (is_alive_state _)|]; destruct (_ && _); by intros [= _ _ <-].
Qed.

Lemma deadline_missed_accounted i : has_been_accounted_ (deadline_missed i) = has_been_accounted_ i.
Proof. unfold deadline_missed. destruct (bool_decide _); [|done]. destruct (swap_remove_if _ _) as [[] l]; [|done]. simpl. destruct (_ && _); by destruct (is_alive_state _). Qed.

(** An instance stays accounted. *)
Lemma step_accounts limit str n i k g n' i' : inst_step limit str n i (IChange k g) = Some (n', i') -> has_been_accounted_ i' = true.
Proof.
  intros E. simpl in E. apply bind_Some in E as ([[r n1] i1] & E1 & E). injection E as <- <-. unfold update_state in E1. apply bind_Some in E1 as ([n2 i2] & E2 & E1).
  assert (H2 : has_been_accounted_ i2 = true). { unfold account in E2. destruct (has_been_accounted_ i) eqn:Eh; [by injection E2 as <- <-|]. destruct (_ && _); [|done]. by injection E2 as <- <-. }
  clear E2. destruct k.
  - unfold writer_alive in E1. apply bind_Some in E1 as ([w|] & _ & E1); [|injection E1 as <- <- <-; by rewrite writer_set_accounted].
    apply bind_Some in E1 as ([n3 i3] & E3 & E1). injection E1 as <- <- <-. rewrite writer_set_accounted. rewrite <- H2. unfold revive_instance in E3. simpl in E3.
    destruct (instance_state i2); [by injection E3 as <- <-|by injection E3 as <- <-|]. destruct (_ =? _); [|done]. by injection E3 as <- <-.
  - injection E1 as E1. by rewrite (writer_dispose_accounted _ _ _ _ _ _ _ _ E1).
  - injection E1 as E1. by rewrite (writer_unregister_accounted _ _ _ _ _ _ E1).
  - destruct (writer_dispose _ _ _ _ _) as [[r1 n3] i3] eqn:Ed. destruct (writer_unregister _ _ _) as [[r2 n4] i4] eqn:Eu. injection E1 as <- <- <-.
    by rewrite (writer_unregister_accounted _ _ _ _ _ _ Eu), (writer_dispose_accounted _ _ _ _ _ _ _ _ Ed).
Qed.

Lemma inst_run_accounted limit str ops n i n' i' : has_been_accounted_ i = true -> inst_run limit str n i ops = Some (n', i') -> has_been_accounted_ i' = true.
Proof.
  revert n i. induction ops as [|op ops IH]; intros n i H E; cbn [inst_run] in E; [by injection E as <- <-|]. apply bind_Some in E as ([n1 i1] & E1 & E). eapply IH; [|exact E].
  destruct op as [k g|g|]; [by eapply step_accounts| |].
  - simpl in E1. unfold writer_removed in E1. rewrite H in E1. destruct (writer_unregister _ _ _) as [[r n2] i2] eqn:Eu. injection E1 as <- <-. by rewrite (writer_unregister_accounted _ _ _ _ _ _ Eu).
  - injection E1 as <- <-. by rewrite deadline_missed_accounted.
Qed.

(** ** Ownership *)

Section Ownership.
Context (limit : Z) (str : GUID_t -> Z) (writers : list GUID_t).
Context (Hlimit : zlen writers <= limit).
Context (Hstr : forall g, g ∈ writers -> 0 <= str g < UINT32_MAX /\ g <> c_Guid_Unknown).

Record owned i : Prop := {
  ow_nodup : NoDup (alive_writers i).*1;
  ow_known : Forall (fun w => w.1 ∈ writers /\ w.2 = str w.1) (alive_writers i);
  ow_owner : (current_owner i).1 = c_Guid_Unknown /\ (current_owner i).2 = 0 \/ current_owner i ∈ alive_writers i;
  ow_strongest : instance_state i = ALIVE_INSTANCE_STATE -> Forall (fun w => w.2 <= (current_owner i).2) (alive_writers i)
}.

(** The writer that just wrote, in front of those that were there. *)
Lemma writer_set_spec i g : g ∈ writers -> NoDup (alive_writers i).*1 -> Forall (fun w => w.1 ∈ writers /\ w.2 = str w.1) (alive_writers i) ->
  exists l, writer_set limit i g (str g) = set_alive_writers i l /\ NoDup l.*1 /\ forall w, w ∈ l <-> w = (g, str g) \/ w ∈ alive_writers i.
Proof.
  intros Hg Hn Hk. unfold writer_set. destruct (index_of (is_guid g) (alive_writers i)) as [k|] eqn:E.
  - apply index_of_Some in E as ([g' s'] & Hk' & Hgu & _). unfold is_guid in Hgu. apply bool_decide_eq_true in Hgu. simpl in Hgu. subst g'.
    assert (s' = str g) as ->. { rewrite list.Forall_forall in Hk. by apply (Hk (g, s')), list_elem_of_lookup_2 with k. }
    rewrite list_insert_id by done. eexists. split; [done|]. split; [done|]. intros w. split; [by right|]. intros [->|H]; [by apply list_elem_of_lookup_2 with k|done].
  - apply index_of_None in E. assert (Hnin : g ∉ (alive_writers i).*1).
    { intros (w & -> & Hw)%list_elem_of_fmap. rewrite list.Forall_forall in E. specialize (E w Hw). unfold is_guid in E. by apply bool_decide_eq_false in E. }
    assert (Hlen : zlen (alive_writers i) < limit).
    { assert (Hs : g :: (alive_writers i).*1 ⊆+ writers).
      { apply NoDup_submseteq; [by constructor|]. intros x [->|Hx]%elem_of_cons; [done|]. apply list_elem_of_fmap in Hx as (w & -> & Hw). rewrite list.Forall_forall in Hk. by apply Hk. }
      apply submseteq_length in Hs. cbn [length] in Hs. rewrite length_fmap in Hs. unfold zlen in *. lia. }
    unfold put. apply Z.ltb_lt in Hlen. rewrite Hlen. eexists. split; [done|]. split.
    + rewrite fmap_app. apply list.NoDup_app. split; [done|]. split; [|apply NoDup_singleton]. intros x Hx ->%list_elem_of_singleton. done.
    + intros w. rewrite elem_of_app, list_elem_of_singleton. tauto.
Qed.

Lemma fold_better l w0 : let r := fold_left (fun owner w => if better w owner then w else owner) l w0 in
  (r = w0 \/ r ∈ l) /\ w0.2 <= r.2 /\ Forall (fun w => w.2 <= r.2) l.
Proof.
  revert w0. induction l as [|w l IH]; intros w0; simpl; [by repeat split; [left| |constructor]|]. destruct (IH (if better w w0 then w else w0)) as (H1 & H2 & H3).
  assert (Hw : w0.2 <= (if better w w0 then w else w0).2 /\ w.2 <= (if better w w0 then w else w0).2).
  { unfold better. rewrite Z.gtb_ltb. destruct (Z.ltb_spec w0.2 w.2); cbn [orb]; [lia|]. destruct (Z.eqb_spec w.2 w0.2); cbn [andb]; [destruct (guid_ltb _ _)|]; lia. }
  split; [|split; [lia|constructor; [lia|done]]]. destruct H1 as [->|H1]; [|by right; right]. destruct (better w w0); [right; left|by left].
Qed.

(** Looking for an owner among the writers left, with no owner to begin with. *)
Lemma update_owner_owned i : NoDup (alive_writers i).*1 -> Forall (fun w => w.1 ∈ writers /\ w.2 = str w.1) (alive_writers i) ->
  current_owner i = (c_Guid_Unknown, 0) -> owned (update_owner i).
Proof.
  intros Hn Hk Ho. unfold update_owner. pose proof (fold_better (alive_writers i) (current_owner i)) as (H1 & H2 & H3). split; simpl; [done|done| |done].
  rewrite Ho in *. destruct H1 as [->|H1]; [by left|by right].
Qed.

Lemma swap_removed i g l : owned i -> swap_remove_if (is_guid g) (alive_writers i) = (true, l) ->
  NoDup l.*1 /\ Forall (fun w => w.1 ∈ writers /\ w.2 = str w.1) l /\ forall w, w ∈ l <-> w ∈ alive_writers i /\ w.1 <> g.
Proof.
  intros [Hn Hk _ _] E. pose proof (swap_remove_if_spec (is_guid g) (alive_writers i)) as S. rewrite E in S. destruct S as (x & Hx & Hp).
  unfold is_guid in Hx. apply bool_decide_eq_true in Hx. subst g. assert (Hn' : NoDup (x :: l).*1) by (by rewrite Hp). rewrite fmap_cons in Hn'. apply list.NoDup_cons in Hn' as [Hx Hn'].
  rewrite <- Hp in Hk. apply list.Forall_cons in Hk as [_ Hk]. do 2 (split; [done|]). intros w. rewrite <- Hp, elem_of_cons. split.
  - intros Hw. split; [by right|]. intros E1. apply Hx. rewrite <- E1. by apply list_elem_of_fmap_2.
  - intros [[->|Hw] Hne]; done.
Qed.
(** What becomes of the owner when a writer writes. *)
Lemma owner_after_spec i g : owned i -> g ∈ writers -> exists r, owner_after i g (str g) = Some r /\
  match r with
  | Some w => w = (g, str g) /\ (current_owner i).2 <= str g
  | None => current_owner i ∈ alive_writers i /\ (current_owner i).1 <> g /\ str g <= (current_owner i).2
  end.
Proof.
  intros [_ Hk Ho _] Hg. unfold owner_after. destruct (current_owner i) as [og os] eqn:E. simpl in *. destruct (Hstr g Hg) as [Hr Hu].
  assert (Hos : 0 <= os /\ (og <> c_Guid_Unknown -> os = str og)).
  { destruct Ho as [[-> ->]|Ho]; [split; [lia|done]|]. rewrite list.Forall_forall in Hk. destruct (Hk _ Ho) as [Hw Hs]. simpl in *. subst os. destruct (Hstr og Hw). split; [lia|done]. }
  destruct Hos as [Hos Hos']. case_bool_decide as D; [subst og; eexists; split; [done|]; simpl; rewrite Hos' by done; split; [done|simpl; lia]|].
  rewrite Z.gtb_ltb. destruct (Z.ltb_spec os (str g)); [eexists; split; [done|]; split; [done|simpl; lia]|]. destruct (Z.eqb_spec (str g) os) as [Heq|Hne]; cbn [andb].
  - rewrite Heq in *. destruct (guid_ltb g og); [eexists; split; [done|]; split; [done|simpl; lia]|]. destruct (Z.eqb_spec os UINT32_MAX); [lia|]. case_bool_decide; (eexists; split; [done|]); [by split|].
    split; [by destruct Ho as [[-> _]|Ho]|]. split; [simpl; congruence|simpl; lia].
  - destruct (Z.eqb_spec (str g) UINT32_MAX); [lia|]. case_bool_decide as U.
    + subst og. destruct Ho as [[_ ->]|Ho]; [lia|]. rewrite list.Forall_forall in Hk. destruct (Hk _ Ho) as [Hw _]. by destruct (Hstr _ Hw).
    + eexists; split; [done|]. split; [by destruct Ho as [[-> _]|Ho]|]. split; [simpl; congruence|simpl; lia].
Qed.

(** A writer set in an instance whose owner stays. *)
Lemma owned_set i g : owned i -> g ∈ writers -> (instance_state i = ALIVE_INSTANCE_STATE -> str g <= (current_owner i).2) -> owned (writer_set limit i g (str g)).
Proof.
  intros [Hn Hk Ho Hs] Hg Hle. destruct (writer_set_spec i g Hg Hn Hk) as (l & -> & Hn' & Hl). split; simpl; [done| | |].
  - apply list.Forall_forall. intros w [->|Hw]%Hl; [done|]. rewrite list.Forall_forall in Hk. auto.
  - destruct Ho as [Ho|Ho]; [by left|]. right. apply Hl. by right.
  - intros Ea. apply list.Forall_forall. intros w [->|Hw]%Hl; [simpl; auto|]. specialize (Hs Ea). rewrite list.Forall_forall in Hs. auto.
Qed.

(** The same when it becomes the owner. *)
Lemma owned_set_owner i g : NoDup (alive_writers i).*1 -> Forall (fun w => w.1 ∈ writers /\ w.2 = str w.1) (alive_writers i) -> g ∈ writers -> current_owner i = (g, str g) ->
  (instance_state i = ALIVE_INSTANCE_STATE -> Forall (fun w => w.2 <= str g) (alive_writers i)) -> owned (writer_set limit i g (str g)).
Proof.
  intros Hn Hk Hg Eo Hs. destruct (writer_set_spec i g Hg Hn Hk) as (l & -> & Hn' & Hl). split; simpl; [done| | |].
  - apply list.Forall_forall. intros w [->|Hw]%Hl; [done|]. rewrite list.Forall_forall in Hk. auto.
  - right. rewrite Eo. apply Hl. by left.
  - intros Ea. rewrite Eo. apply list.Forall_forall. intros w [->|Hw]%Hl; [simpl; lia|]. specialize (Hs Ea). rewrite list.Forall_forall in Hs. auto.
Qed.

Lemma instance_revived n i n' i' : revive_instance n i = Some (n', i') -> current_owner i' = current_owner i /\ instance_state i' = ALIVE_INSTANCE_STATE /\
  (alive_writers i' = [] \/ alive_writers i' = alive_writers i /\ instance_state i = ALIVE_INSTANCE_STATE).
Proof.
  unfold revive_instance. destruct (instance_state i) eqn:Es; [|intros [= <- <-]; simpl; auto|].
  - intros [= <- <-]. by auto.
  - destruct (Z.eqb_spec (zlen (alive_writers i)) 0) as [E|]; [|done]. intros [= <- <-]. simpl. split; [done|]. split; [done|]. left. destruct (alive_writers i); [done|]. unfold zlen in E. simpl in E. lia.
Qed.

Lemma writer_alive_owned n i g r n' i' : owned i -> g ∈ writers -> writer_alive limit n i g (str g) = Some (r, n', i') -> owned i' /\ (r = true -> current_owner i' = (g, str g)).
Proof.
  intros O Hg E. destruct (owner_after_spec i g O Hg) as (r0 & Er & Hr). unfold writer_alive in E. rewrite Er in E. simpl in E. destruct r0 as [w|].
  - destruct Hr as [-> Hle]. apply bind_Some in E as ([n1 i1] & E1 & E). injection E as <- <- <-. apply instance_revived in E1 as (Eo & Es & Hw). simpl in Eo.
    assert (Eo' : current_owner (writer_set limit i1 g (str g)) = current_owner i1) by (unfold writer_set; by destruct (index_of _ _)). split; [|by rewrite Eo', Eo].
    destruct O as [Hn Hk _ Hs]. apply owned_set_owner; [destruct Hw as [->|[-> _]]; [constructor|done]|destruct Hw as [->|[-> _]]; [constructor|done]|done|done|].
    intros _. destruct Hw as [->|[-> Ea]]; [constructor|]. specialize (Hs Ea). eapply list.Forall_impl; [exact Hs|]. simpl. intros. lia.
  - injection E as <- <- <-. split; [|done]. apply owned_set; [done|done|]. intros _. lia.
Qed.

Lemma writer_dispose_owned n i g r n' i' : owned i -> g ∈ writers -> writer_dispose limit n i g (str g) = (r, n', i') -> owned i'.
Proof.
  intros O Hg E. pose proof O as [Hn Hk Ho Hs]. unfold writer_dispose in E. destruct (current_owner i) as [og os] eqn:Eo. rewrite Z.geb_leb in E. destruct (Z.leb_spec os (str g)); cbn [orb] in E.
  - destruct (Hstr g Hg) as [Hr _]. destruct (Z.eqb_spec (str g) UINT32_MAX); [lia|]. simpl in E. destruct (instance_state i) eqn:Es; injection E as <- <- <-; apply owned_set_owner; simpl; try done; by rewrite Es.
  - destruct (Z.eqb_spec (str g) os); [lia|]. simpl in E. injection E as <- <- <-. apply owned_set; [done|done|]. rewrite Eo. simpl. lia.
Qed.

(** Taking out a writer that is not the owner. *)
Lemma owned_without i g l : owned i -> swap_remove_if (is_guid g) (alive_writers i) = (true, l) -> g <> (current_owner i).1 -> owned (set_alive_writers i l).
Proof.
  intros O E Hne. destruct (swap_removed i g l O E) as (Hn & Hk & Hl). destruct O as [_ _ Ho Hs]. split; simpl; [done|done| |].
  - destruct Ho as [Ho|Ho]; [by left|]. right. apply Hl. split; [done|congruence].
  - intros Ea. apply list.Forall_forall. intros w [Hw _]%Hl. specialize (Hs Ea). rewrite list.Forall_forall in Hs. auto.
Qed.

Lemma owned_state i st : owned i -> (st = ALIVE_INSTANCE_STATE -> instance_state i = st) -> owned (set_instance_state i st).
Proof. intros [Hn Hk Ho Hs] H. split; simpl; [done|done|done|]. intros ->. auto. Qed.

(** With no owner and no claim to be alive. *)
Lemma owned_nobody i : NoDup (alive_writers i).*1 -> Forall (fun w => w.1 ∈ writers /\ w.2 = str w.1) (alive_writers i) -> current_owner i = (c_Guid_Unknown, 0) ->
  (instance_state i = ALIVE_INSTANCE_STATE -> alive_writers i = []) -> owned i.
Proof. intros Hn Hk Eo Hs. split; [done|done|rewrite Eo; by left|]. intros Ea. rewrite (Hs Ea). constructor. Qed.

Lemma writer_unregister_owned n i g r n' i' : owned i -> writer_unregister n i g = (r, n', i') -> owned i'.
Proof.
  intros O E. unfold writer_unregister in E. destruct (swap_remove_if _ _) as [b l] eqn:Er. destruct b; [|by injection E as <- <- <-].
  assert (O1 : owned (drop_owner (set_alive_writers i l) g)).
  { destruct (swap_removed i g l O Er) as (Hn & Hk & Hl). unfold drop_owner. simpl. case_bool_decide as D; [|by apply (owned_without i g l)]. unfold is_alive_state. simpl. case_bool_decide.
    - by apply update_owner_owned.
    - by apply owned_nobody. }
  destruct (_ && _); injection E as <- <- <-; [by apply owned_state|done].
Qed.

Lemma deadline_missed_owned i : owned i -> owned (deadline_missed i).
Proof.
  intros O. unfold deadline_missed. case_bool_decide as D; [|done]. destruct (swap_remove_if _ _) as [b l] eqn:Er. destruct b; [|done].
  destruct (swap_removed i _ l O Er) as (Hn & Hk & Hl). unfold is_alive_state. simpl. destruct (instance_state i) eqn:Es; destruct (Z.eqb_spec (zlen l) 0) as [Ez|Ez]; simpl; rewrite ?Es; simpl.
  all: first [by apply owned_nobody|by apply update_owner_owned|apply owned_nobody; simpl; try done; by rewrite Es].
Qed.

Lemma account_owned n i n' i' : owned i -> account n i = Some (n', i') -> owned i'.
Proof. intros [Hn Hk Ho Hs] E. unfold account in E. destruct (has_been_accounted_ i); [by injection E as <- <-|]. destruct (_ && _); [|done]. injection E as <- <-. by split. Qed.

Definition op_known (op : inst_op) : Prop := match op with IChange _ g | IRemoved g => g ∈ writers | IDeadline => True end.

Lemma inst_step_owned n i op n' i' : owned i -> op_known op -> inst_step limit str n i op = Some (n', i') -> owned i'.
Proof.
  intros O Hop E. destruct op as [k g|g|]; simpl in *.
  - apply bind_Some in E as ([[r n1] i1] & E1 & E). injection E as <- <-. unfold update_state in E1. apply bind_Some in E1 as ([n2 i2] & E2 & E1). apply account_owned in E2 as O2; [|done]. destruct k.
    + eapply writer_alive_owned in E1 as [? _]; done.
    + injection E1 as E1. by eapply writer_dispose_owned in E1.
    + injection E1 as E1. by eapply writer_unregister_owned in E1.
    + destruct (writer_dispose _ _ _ _ _) as [[r1 n3] i3] eqn:Ed. destruct (writer_unregister _ _ _) as [[r2 n4] i4] eqn:Eu. injection E1 as <- <- <-.
      apply writer_dispose_owned in Ed as O3; [|done|done]. by eapply writer_unregister_owned in Eu.
  - unfold writer_removed in E. destruct (has_been_accounted_ i); [|by injection E as <- <-]. destruct (writer_unregister _ _ _) as [[r n1] i1] eqn:Eu. injection E as <- <-. by eapply writer_unregister_owned in Eu.
  - injection E as <- <-. by apply deadline_missed_owned.
Qed.

Lemma inst_run_owned ops n i n' i' : owned i -> Forall op_known ops -> inst_run limit str n i ops = Some (n', i') -> owned i'.
Proof.
  revert n i. induction ops as [|op ops IH]; intros n i O Hops E; simpl in E; [by injection E as <- <-|]. apply list.Forall_cons in Hops as [Hop Hops].
  apply bind_Some in E as ([n1 i1] & E1 & E). eapply IH; [|done|exact E]. by eapply inst_step_owned.
Qed.

(** The first sample of an instance makes its writer the owner. *)
Lemma first_sample_owned n g n' i' : g ∈ writers -> inst_step limit str n DataReaderInstance_new (IChange ALIVE g) = Some (n', i') -> owned i'.
Proof.
  intros Hg E. destruct (Hstr g Hg) as [Hr Hu]. assert (Eo : owner_after (set_accounted DataReaderInstance_new) g (str g) = Some (Some (g, str g))).
  { unfold owner_after. cbn [current_owner set_accounted DataReaderInstance_new]. rewrite bool_decide_false by done. rewrite Z.gtb_ltb. destruct (Z.ltb_spec UINT32_MAX (str g)); [lia|].
    destruct (Z.eqb_spec (str g) UINT32_MAX); [lia|]. cbn [andb]. by rewrite bool_decide_true. }
  cbn [inst_step] in E. unfold update_state, writer_alive in E. change (account n DataReaderInstance_new) with (Some (add_state (add_new n 1) ALIVE_INSTANCE_STATE 1, set_accounted DataReaderInstance_new)) in E.
  cbn [mbind option_bind] in E. rewrite Eo in E. cbn [mbind option_bind revive_instance instance_state set_current_owner set_accounted DataReaderInstance_new] in E. injection E as <- <-. apply owned_set_owner; simpl; [constructor|constructor|done|done|constructor].
Qed.

(** C32: With exclusive ownership and strengths that do not change, whatever writers
    write, dispose, unregister or go and whatever deadlines pass after the first
    sample of an instance, which has data, the owner of
    an instance that is alive is a living writer no other one is stronger than (or
    nobody, while all that are left have strength zero); and the next sample of a
    writer is accepted, with the writer as the owner, exactly when it is the owner
    or no living writer is stronger, unless the owner keeps it out with the same strength. *)
Theorem strongest_writer_owns g0 ops n i g : g0 ∈ writers -> g ∈ writers -> Forall op_known ops ->
  inst_run limit str no_counters DataReaderInstance_new (IChange ALIVE g0 :: ops) = Some (n, i) -> instance_state i = ALIVE_INSTANCE_STATE ->
  ((current_owner i).1 = c_Guid_Unknown /\ (current_owner i).2 = 0 \/ current_owner i ∈ alive_writers i) /\
  Forall (fun w => w.2 <= (current_owner i).2) (alive_writers i) /\
  exists r n' i', update_state limit n i ALIVE g (str g) = Some (r, n', i') /\
    if r : bool then current_owner i' = (g, str g) /\ Forall (fun w => w.2 <= str g) (alive_writers i)
    else current_owner i' = current_owner i /\ current_owner i ∈ alive_writers i /\ (current_owner i).1 <> g /\ str g <= (current_owner i).2.
Proof.
  intros Hg0 Hg Hops E Ea. cbn [inst_run] in E. apply bind_Some in E as ([n1 i1] & E1 & E). pose proof (first_sample_owned _ _ _ _ Hg0 E1) as O1.
  pose proof (inst_run_owned ops n1 i1 n i O1 Hops E) as O. pose proof O as [_ _ Ho Hs]. specialize (Hs Ea). split; [done|]. split; [done|].
  assert (Ec : account n i = Some (n, i)). { unfold account. by rewrite (inst_run_accounted limit str ops n1 i1 n i (step_accounts _ _ _ _ _ _ _ _ E1) E). }
  unfold update_state. rewrite Ec. simpl. destruct (owner_after_spec i g O Hg) as (r & Er & Hr). unfold writer_alive. rewrite Er. simpl. destruct r as [w|].
  - destruct Hr as [-> Hle]. unfold revive_instance. cbn [instance_state set_current_owner]. rewrite Ea. simpl. eexists _, _, _. split; [done|]. split.
    + unfold writer_set. by destruct (index_of _ _).
    + eapply list.Forall_impl; [exact Hs|]. simpl. intros. lia.
  - eexists _, _, _. split; [done|]. split; [unfold writer_set; by destruct (index_of _ _)|done].
Qed.
End Ownership.

(** ** Examples *)

Definition guid_a : GUID_t := mkGUID (replicate 12 1) [0; 0; 1; 2].
Definition guid_b : GUID_t := mkGUID (replicate 12 1) [0; 0; 2; 2].
Definition b_is_stronger (g : GUID_t) : Z := if bool_decide (g = guid_b) then 20 else 10.

(** The stronger writer goes, and the other one takes over. *)
Lemma strongest_writer_owns_witness :
  exists n i, inst_run 2 b_is_stronger no_counters DataReaderInstance_new [IChange ALIVE guid_a; IChange ALIVE guid_b; IChange ALIVE guid_a; IRemoved guid_b] = Some (n, i) /\
    instance_state i = ALIVE_INSTANCE_STATE /\ current_owner i = (guid_a, 10) /\ Forall (fun w => w.2 <= (current_owner i).2) (alive_writers i).
Proof.
  eexists _, _. split; [vm_compute; reflexivity|]. split; [reflexivity|]. split; [reflexivity|].
  refine (proj1 (proj2 (strongest_writer_owns 2 b_is_stronger [guid_a; guid_b] _ _ guid_a [IChange ALIVE guid_b; IChange ALIVE guid_a; IRemoved guid_b] _ _ guid_a _ _ _ _ _))).
  - unfold zlen. simpl. lia.
  - intros g [->| [->|[]%elem_of_nil]%elem_of_cons]%elem_of_cons; (split; [vm_compute; split; congruence|discriminate]).
  - by left.
  - by left.
  - repeat constructor.
  - vm_compute. reflexivity.
  - reflexivity.
Defined.

(** ** What goes wrong *)

(** A writer that disposes an instance without writers is counted as alive while
    the instance stays without writers; its next sample fails the assertion that
    such an instance has no writer. *)
Theorem dispose_without_writers_fails :
  inst_run 2 (fun _ => UINT32_MAX) no_counters DataReaderInstance_new
    [IChange ALIVE guid_a; IChange NOT_ALIVE_UNREGISTERED guid_a; IChange NOT_ALIVE_DISPOSED guid_b; IChange ALIVE guid_b] = None.
Proof. vm_compute. reflexivity. Qed.

(** A missed deadline takes the last writer of an instance without telling the
    counters; when the instance comes back to life the number of instances without
    writers falls below zero and wraps around. *)
Theorem missed_deadline_breaks_counters :
  exists i, inst_run 2 b_is_stronger no_counters DataReaderInstance_new [IChange ALIVE guid_a; IDeadline; IChange ALIVE guid_a] =
    Some (mkCounters 0 0 1 0 2 0 (2 ^ 64 - 1), i).
Proof. eexists. vm_compute. reflexivity. Qed.

(** Writers of strength zero, the default, are never found when the owner goes:
    the instance is left without an owner although writers are alive. *)
Theorem no_owner_among_weakest :
  exists n i, inst_run 2 (fun _ => 0) no_counters DataReaderInstance_new [IChange ALIVE guid_a; IChange ALIVE guid_b; IRemoved guid_a] = Some (n, i) /\
    alive_writers i = [(guid_b, 0)] /\ current_owner i = (c_Guid_Unknown, 0).
Proof. eexists _, _. split; [vm_compute; reflexivity|]. split; reflexivity. Qed.

(** With exclusive ownership an instance whose first change disposes it stays
    alive, and its writer is not accepted as the owner. *)
Theorem first_dispose_ignored :
  exists n i, inst_run 2 b_is_stronger no_counters DataReaderInstance_new [IChange NOT_ALIVE_DISPOSED guid_b] = Some (n, i) /\
    instance_state i = ALIVE_INSTANCE_STATE /\ (current_owner i).1 = c_Guid_Unknown.
Proof. eexists _, _. split; [vm_compute; reflexivity|]. split; reflexivity. Qed.
