(* ===== verification/DataReaderHistory.v ===== *)
(** * The history of a data reader

    Models [DataReaderHistory] ([Fast-DDS/src/cpp/fastdds/subscriber/history]) over
    [ReaderHistory] and [History]: the changes of a reader by instance, KEEP_ALL and
    KEEP_LAST, the limits on samples and instances, and the counters behind the
    states of samples, views and instances.

    A change is an object with an address; [m_changes] holds the objects, the
    instances hold addresses, and following an address that is not in [m_changes]
    is [None], as is a failed assertion.  [data_available_instances_] holds the
    handles of instances: an entry leaves [instances_] only together with its entry
    there, so that both maps refer to the same object.  Of the reader below, what
    the history asks for: the number of unread samples, what was notified, and
    what is available of each matched writer.  The key of a payload is computed by
    the type: a parameter. *)

From S2P Require Import Prelude SequenceNumber LimitedVector ParameterList ReaderProxy Handles DataReaderInstance.

(** ** Data *)

Record RChange := mkRC {
  rc_addr : nat;
  rc_kind : ChangeKind_t;
  rc_writer : GUID_t;
  rc_seq : SequenceNumber_t;
  rc_time : Z;
  rc_handle : InstanceHandle_t;
  rc_payload : list Z;
  rc_assembled : bool;
  rc_read : bool;
  rc_strength : Z;
  rc_disposed_generation : Z;
  rc_no_writers_generation : Z
}.

Inductive SampleRejectedStatusKind := NOT_REJECTED | REJECTED_BY_INSTANCES_LIMIT | REJECTED_BY_SAMPLES_LIMIT | REJECTED_BY_SAMPLES_PER_INSTANCE_LIMIT.

#[export] Instance SampleRejectedStatusKind_eq_dec : EqDecision SampleRejectedStatusKind.
Proof. solve_decision. Defined.

(** The parts of [DataReaderQos] that the history uses. *)
Record HistoryQos := mkHQ {
  q_keep_all : bool;
  q_depth : Z;
  q_max_samples : Z;
  q_max_instances : Z;
  q_max_samples_per_instance : Z;
  q_allocated_samples : Z;
  q_max_writers : Z;
  q_preallocated : bool;
  q_payload_max : Z
}.

(** What the reader knows. *)
Record ReaderState := mkRS {
  total_unread_ : Z;
  notified_ : list (GUID_t * SequenceNumber_t);
  available_ : list (GUID_t * SequenceNumber_t)
}.

Record DataReaderHistory := mkDRH {
  has_keys_ : bool;
  qos_ : HistoryQos;
  m_changes : list RChange;
  m_isHistoryFull : bool;
  instances_ : list (InstanceHandle_t * DataReaderInstance);
  data_available_ : list (InstanceHandle_t * unit);
  counters_ : DataReaderHistoryCounters;
  reader_ : ReaderState
}.

Implicit Types (h : DataReaderHistory) (c d : RChange) (k : InstanceHandle_t) (a : nat).

Definition set_m_changes h l (full : bool) : DataReaderHistory :=
  mkDRH (has_keys_ h) (qos_ h) l full (instances_ h) (data_available_ h) (counters_ h) (reader_ h).
Definition set_instances h l : DataReaderHistory :=
  mkDRH (has_keys_ h) (qos_ h) (m_changes h) (m_isHistoryFull h) l (data_available_ h) (counters_ h) (reader_ h).
Definition set_available h l : DataReaderHistory :=
  mkDRH (has_keys_ h) (qos_ h) (m_changes h) (m_isHistoryFull h) (instances_ h) l (counters_ h) (reader_ h).
Definition set_counters h n : DataReaderHistory :=
  mkDRH (has_keys_ h) (qos_ h) (m_changes h) (m_isHistoryFull h) (instances_ h) (data_available_ h) n (reader_ h).
Definition with_reader h rs : DataReaderHistory :=
  mkDRH (has_keys_ h) (qos_ h) (m_changes h) (m_isHistoryFull h) (instances_ h) (data_available_ h) (counters_ h) rs.

Definition set_rc_handle c k : RChange :=
  mkRC (rc_addr c) (rc_kind c) (rc_writer c) (rc_seq c) (rc_time c) k (rc_payload c) (rc_assembled c) (rc_read c) (rc_strength c)
    (rc_disposed_generation c) (rc_no_writers_generation c).
Definition set_rc_read c (b : bool) : RChange :=
  mkRC (rc_addr c) (rc_kind c) (rc_writer c) (rc_seq c) (rc_time c) (rc_handle c) (rc_payload c) (rc_assembled c) b (rc_strength c)
    (rc_disposed_generation c) (rc_no_writers_generation c).
Definition set_rc_generations c (disposed no_writers : Z) : RChange :=
  mkRC (rc_addr c) (rc_kind c) (rc_writer c) (rc_seq c) (rc_time c) (rc_handle c) (rc_payload c) (rc_assembled c) (rc_read c) (rc_strength c)
    disposed no_writers.

Definition INT32_MAX : Z := 2 ^ 31 - 1.
Definition unlimited (z : Z) : Z := if z <=? 0 then INT32_MAX else z.

(** The limits after the constructor. *)
Definition max_samples_ h : Z := unlimited (q_max_samples (qos_ h)).
Definition max_instances_ h : Z := if has_keys_ h then unlimited (q_max_instances (qos_ h)) else 1.
Definition max_samples_per_instance_ h : Z := if has_keys_ h then unlimited (q_max_samples_per_instance (qos_ h)) else max_samples_ h.
(** [key_changes_allocation_.maximum] *)
Definition changes_limit h : Z :=
  if has_keys_ h then if max_samples_per_instance_ h <? INT32_MAX then max_samples_per_instance_ h else 2 ^ 64 - 1 else max_samples_ h.

Definition DataReaderHistory_new (has_keys : bool) (qos : HistoryQos) : DataReaderHistory :=
  mkDRH has_keys qos [] false
    (if has_keys then [] else [(c_InstanceHandle_Unknown, DataReaderInstance_new)])
    (if has_keys then [] else [(c_InstanceHandle_Unknown, tt)]) no_counters (mkRS 0 [] []).

(** ** Pointers and the reader *)

Definition deref h a : option RChange := List.find (fun c => rc_addr c =? a)%nat (m_changes h).

(** A change is modified through its pointer. *)
Definition modify h a (f : RChange -> RChange) : DataReaderHistory :=
  set_m_changes h (map (fun c => if (rc_addr c =? a)%nat then f c else c) (m_changes h)) (m_isHistoryFull h).

Definition record_in (l : list (GUID_t * SequenceNumber_t)) (g : GUID_t) : option SequenceNumber_t := snd <$> List.find (fun r => bool_decide (r.1 = g)) l.

Definition last_notified (rs : ReaderState) (g : GUID_t) : SequenceNumber_t := default (mkSN 0 0) (record_in (notified_ rs) g).

Definition one_less_unread (rs : ReaderState) : ReaderState :=
  mkRS (if 0 <? total_unread_ rs then total_unread_ rs - 1 else total_unread_ rs) (notified_ rs) (available_ rs).

(** [StatefulReader::change_removed_by_history]: what it does to the unread samples. *)
Definition reader_forgets (rs : ReaderState) c : ReaderState :=
  if rc_assembled c && negb (rc_read c) && sn_geb (last_notified rs (rc_writer c)) (rc_seq c) then one_less_unread rs else rs.

(** [StatefulReader::begin_sample_access_nts]: whether the change lies in the future. *)
Definition is_future (rs : ReaderState) c : bool :=
  match record_in (available_ rs) (rc_writer c) with Some s => sn_ltb s (rc_seq c) | None => false end.

(** [StatefulReader::end_sample_access_nts] *)
Definition end_sample_access h a (mark_as_read : bool) : option DataReaderHistory :=
  c ← deref h a;
  Some (if mark_as_read && negb (rc_read c) then with_reader (modify h a (fun c => set_rc_read c true)) (one_less_unread (reader_ h)) else h).

(** ** The histories below *)

Definition matches_change c d : bool := sn_eqb (rc_seq c) (rc_seq d) && bool_decide (rc_writer c = rc_writer d).

Definition find_in_history h c : option nat := index_of (fun d => matches_change d c) (m_changes h).

Definition rc_order_cmp c d : bool :=
  if bool_decide (rc_writer c = rc_writer d) then sn_ltb (rc_seq c) (rc_seq d) else rc_time c <? rc_time d.

(** [std::lower_bound]: before the first element that is not less. *)
Fixpoint lower_bound c (l : list RChange) : nat :=
  match l with
  | [] => O
  | d :: l => if rc_order_cmp d c then S (lower_bound c l) else O
  end.

(** Where [sorted_vector_insert] puts a change. *)
Definition insert_position c (l : list RChange) : nat :=
  match list.last l with
  | Some d => if rc_order_cmp c d then lower_bound c l else length l
  | None => O
  end.

Definition insert_before {A} (n : nat) (x : A) (l : list A) : list A := take n l ++ x :: drop n l.

(** [ReaderHistory::add_change] *)
Definition drh_add_change h c : bool * DataReaderHistory :=
  if q_preallocated (qos_ h) && (zlen (rc_payload c) >? q_payload_max (qos_ h)) then (false, h)
  else (true, set_m_changes h (insert_before (insert_position c (m_changes h)) c (m_changes h)) (m_isHistoryFull h)).

(** [ReaderHistory::remove_change_nts] *)
Definition base_remove h (pos : nat) c : DataReaderHistory :=
  with_reader (set_m_changes h (delete pos (m_changes h)) false) (reader_forgets (reader_ h) c).

(** Whether what is at the place of a removed change is another one. *)
Definition gone_from h (pos : nat) c : bool := match m_changes h !! pos with Some d => negb (matches_change c d) | None => true end.

Definition add_read h (z : Z) : DataReaderHistory :=
  set_counters h (set_samples (counters_ h) (u64 (samples_read (counters_ h) + z)) (samples_unread (counters_ h))).
Definition sync_unread h : DataReaderHistory :=
  set_counters h (set_samples (counters_ h) (samples_read (counters_ h)) (total_unread_ (reader_ h))).

Definition update_instance h k (i : DataReaderInstance) : DataReaderHistory := set_instances h (map_update k i (instances_ h)).

(** [DataReaderHistory::remove_change_nts], the virtual method. *)
Definition drh_remove_change_nts h (pos : nat) : option (bool * DataReaderHistory) :=
  c ← m_changes h !! pos;
  let h := base_remove h pos c in
  if gone_from h pos c then
    let h := if negb (has_keys_ h) || rc_assembled c then
               match map_find (rc_handle c) (instances_ h) with
               | Some i =>
                   let h := update_instance h (rc_handle c) (set_cache_changes i (snd (erase_if (Nat.eqb (rc_addr c)) (cache_changes i)))) in
                   if rc_read c then add_read h (-1) else h
               | None => h
               end
             else h in
    Some (true, sync_unread h)
  else Some (false, h).

(** [History::remove_change] *)
Definition drh_remove_change h c : option (bool * DataReaderHistory) :=
  match find_in_history h c with
  | None => Some (false, h)
  | Some pos => drh_remove_change_nts h pos
  end.

(** ** Instances *)

(** Through the iterators of an instance, by number and writer. *)
Fixpoint find_matching h (l : list nat) c : option (option nat) :=
  match l with
  | [] => Some None
  | a :: l => d ← deref h a; if matches_change d c then Some (Some O) else r ← find_matching h l c; Some (option_map S r)
  end.

Definition not_alive (ki : InstanceHandle_t * DataReaderInstance) : bool := negb (bool_decide (instance_state ki.2 = ALIVE_INSTANCE_STATE)).

(** An instance is found, added, or takes the place of one that is not alive. *)
Definition find_key h k : bool * DataReaderHistory :=
  match map_find k (instances_ h) with
  | Some _ => (true, h)
  | None =>
      if zlen (instances_ h) <? max_instances_ h then (true, set_instances h (map_emplace k DataReaderInstance_new (instances_ h)))
      else match List.find not_alive (instances_ h) with
           | Some (k', _) =>
               (true, set_instances (set_available h (map_erase k' (data_available_ h))) (map_emplace k DataReaderInstance_new (map_erase k' (instances_ h))))
           | None => (false, h)
           end
  end.

(** The first part of [remove_change_sub], on an instance that was found. *)
Definition erase_from_instance h c : option DataReaderHistory :=
  i ← map_find (rc_handle c) (instances_ h);
  r ← find_matching h (cache_changes i) c;
  Some (match r with
        | Some n =>
            let h := update_instance h (rc_handle c) (set_cache_changes i (delete n (cache_changes i))) in
            if rc_read c then add_read h (-1) else h
        | None => h
        end).

Definition remove_change_sub h c : option (bool * DataReaderHistory) :=
  let '(ok, h) := find_key h (rc_handle c) in
  h ← (if ok : bool then erase_from_instance h c else Some h);
  '(removed, h) ← drh_remove_change h c;
  Some (if removed : bool then (true, sync_unread (set_m_changes h (m_changes h) false)) else (false, h)).

(** [remove_change_sub] with an iterator to the change in its instance. *)
Definition remove_change_at h a : option (bool * DataReaderHistory) :=
  c ← deref h a;
  match find_in_history h c with
  | None => Some (false, h)
  | Some pos =>
      let h := base_remove h pos c in
      if gone_from h pos c then
        let '(ok, h) := find_key h (rc_handle c) in
        let h := if ok : bool then
                   match map_find (rc_handle c) (instances_ h) with
                   | Some i =>
                       match erase_if (Nat.eqb a) (cache_changes i) with
                       | (true, l) => let h := update_instance h (rc_handle c) (set_cache_changes i l) in if rc_read c then add_read h (-1) else h
                       | (false, _) => h
                       end
                   | None => h
                   end
                 else h in
        Some (true, sync_unread (set_m_changes h (m_changes h) false))
      else Some (false, h)
  end.

Definition add_to_reader_history_if_not_full h c : bool * SampleRejectedStatusKind * DataReaderHistory :=
  if m_isHistoryFull h then (false, REJECTED_BY_SAMPLES_LIMIT, h)
  else let '(ret_value, h) := drh_add_change h c in
       (ret_value, NOT_REJECTED,
        if zlen (m_changes h) =? size_t (q_max_samples (qos_ h)) then set_m_changes h (m_changes h) true else h).

Definition add_to_instance h c : option DataReaderHistory :=
  i ← map_find (rc_handle c) (instances_ h);
  l ← mapM (deref h) (cache_changes i);
  let changes := if zlen (cache_changes i) <? changes_limit h then insert_before (insert_position c l) (rc_addr c) (cache_changes i) else cache_changes i in
  let h := update_instance h (rc_handle c) (set_cache_changes i changes) in
  Some (set_available h (map_emplace (rc_handle c) tt (data_available_ h))).

Definition add_received_change_with_key h c : option (bool * SampleRejectedStatusKind * DataReaderHistory) :=
  let '(ret_value, reason, h) := add_to_reader_history_if_not_full h c in
  if ret_value : bool then h ← add_to_instance h c; Some (true, reason, h) else Some (false, reason, h).

(** ** Reception *)

Section Key.
(** [TopicDataType::compute_key] on a payload. *)
Variable compute_key : list Z -> option (list Z).

Definition compute_key_for_change h c : bool * RChange :=
  if negb (has_keys_ h) then (true, set_rc_handle c c_InstanceHandle_Unknown)
  else if negb (rc_assembled c) then (false, c)
  else if isDefined (rc_handle c) then (true, c)
  else match compute_key (rc_payload c) with Some v => (true, set_rc_handle c (Some v)) | None => (false, c) end.

Definition received_change_keep_all h c (unknown_missing_changes_up_to : Z) : option (bool * SampleRejectedStatusKind * DataReaderHistory) :=
  let '(keyed, c) := compute_key_for_change h c in
  if negb keyed then Some (add_to_reader_history_if_not_full h c)
  else
    let '(ok, h) := find_key h (rc_handle c) in
    if ok : bool then
      i ← map_find (rc_handle c) (instances_ h);
      if size_t (zlen (cache_changes i) + unknown_missing_changes_up_to) <? max_samples_per_instance_ h then add_received_change_with_key h c
      else Some (false, REJECTED_BY_SAMPLES_PER_INSTANCE_LIMIT, h)
    else Some (false, REJECTED_BY_INSTANCES_LIMIT, h).

(** Room for a change in an instance with KEEP_LAST: there is, there is after the
    oldest sample is removed, or the change is older than all. *)
Definition make_room h c (i : DataReaderInstance) : option (option bool * DataReaderHistory) :=
  if zlen (cache_changes i) <? size_t (q_depth (qos_ h)) then Some (Some true, h)
  else
    a ← cache_changes i !! O;
    first_change ← deref h a;
    if rc_time c >=? rc_time first_change then '(removed, h) ← remove_change_sub h first_change; Some (Some removed, h)
    else Some (None, h).

Definition received_change_keep_last h c : option (bool * SampleRejectedStatusKind * DataReaderHistory) :=
  let '(keyed, c) := compute_key_for_change h c in
  if negb keyed then Some (add_to_reader_history_if_not_full h c)
  else
    let '(ok, h) := find_key h (rc_handle c) in
    if ok : bool then
      i ← map_find (rc_handle c) (instances_ h);
      '(room, h) ← make_room h c i;
      match room with
      | None => Some (true, NOT_REJECTED, h)
      | Some true => add_received_change_with_key h c
      | Some false => Some (false, NOT_REJECTED, h)
      end
    else Some (false, REJECTED_BY_INSTANCES_LIMIT, h).

Definition received_change h c (unknown_missing_changes_up_to : Z) : option (bool * SampleRejectedStatusKind * DataReaderHistory) :=
  if (0 =? unknown_missing_changes_up_to) || (size_t (zlen (m_changes h) + unknown_missing_changes_up_to) <? max_samples_ h) then
    if q_keep_all (qos_ h) then received_change_keep_all h c unknown_missing_changes_up_to else received_change_keep_last h c
  else Some (false, REJECTED_BY_SAMPLES_LIMIT, h).

(** A fragmented change is complete.  The change is in the history already. *)
Definition completed_change h a (unknown_missing_changes_up_to : Z) : option (bool * SampleRejectedStatusKind * DataReaderHistory) :=
  c ← deref h a;
  let '(keyed, c) := compute_key_for_change h c in
  let h := modify h a (fun _ => c) in
  if negb keyed then Some (false, REJECTED_BY_INSTANCES_LIMIT, h)
  else
    let '(ok, h) := find_key h (rc_handle c) in
    if negb ok then Some (false, REJECTED_BY_INSTANCES_LIMIT, h)
    else if negb (isDefined (rc_handle c)) then Some (true, NOT_REJECTED, h)
    else
      i ← map_find (rc_handle c) (instances_ h);
      if q_keep_all (qos_ h) then
        if size_t (zlen (cache_changes i) + unknown_missing_changes_up_to) <? max_samples_per_instance_ h
        then h ← add_to_instance h c; Some (true, NOT_REJECTED, h)
        else Some (false, REJECTED_BY_SAMPLES_PER_INSTANCE_LIMIT, h)
      else
        '(room, h) ← make_room h c i;
        match room with
        | None => Some (true, NOT_REJECTED, h)
        | Some true => h ← add_to_instance h c; Some (true, NOT_REJECTED, h)
        | Some false => Some (false, REJECTED_BY_INSTANCES_LIMIT, h)
        end.
End Key.

(** ** The rest of the operations *)

(** [writer_unmatched]: the loop of [remove_changes_with_pred].  [None] also when it
    does not end. *)
Fixpoint remove_where (fuel : nat) (pred : RChange -> bool) h (pos : nat) : option DataReaderHistory :=
  match m_changes h !! pos with
  | None => Some h
  | Some c =>
      match fuel with
      | O => None
      | S fuel => if pred c then '(_, h) ← drh_remove_change_nts h pos; remove_where fuel pred h pos else remove_where fuel pred h (S pos)
      end
  end.

Definition writer_unmatched h (g : GUID_t) (last_notified_seq : SequenceNumber_t) : option DataReaderHistory :=
  remove_where (length (m_changes h)) (fun c => bool_decide (g = rc_writer c) && sn_ltb last_notified_seq (rc_seq c)) h 0.

Definition set_next_deadline h k (t : Z) (missed : bool) : bool * DataReaderHistory :=
  match map_find k (instances_ h) with
  | None => (false, h)
  | Some i => (true, update_instance h k (set_deadline (if missed then deadline_missed i else i) t))
  end.

(** [std::min_element] *)
Fixpoint min_deadline (k : InstanceHandle_t) (t : Z) (l : list (InstanceHandle_t * DataReaderInstance)) : InstanceHandle_t * Z :=
  match l with
  | [] => (k, t)
  | (k', i) :: l => if next_deadline_us i <? t then min_deadline k' (next_deadline_us i) l else min_deadline k t l
  end.

(** [None]: the end of an empty map is followed. *)
Definition get_next_deadline h : option (InstanceHandle_t * Z) :=
  match instances_ h with
  | [] => None
  | (k, i) :: l => Some (min_deadline k (next_deadline_us i) l)
  end.

(** [BaseReader::get_unread_count(true)]: the loop that marks samples as read. *)
Fixpoint mark_all (rs : ReaderState) (l : list RChange) (unread : Z) : list RChange * Z :=
  match l with
  | [] => ([], unread)
  | c :: l' =>
      if 0 <? unread then
        if negb (rc_read c) && sn_geb (last_notified rs (rc_writer c)) (rc_seq c)
        then let '(l', unread) := mark_all rs l' (unread - 1) in (set_rc_read c true :: l', unread)
        else let '(l', unread) := mark_all rs l' unread in (c :: l', unread)
      else (l, unread)
  end.

Definition get_unread_count h (mark_as_read : bool) : option (Z * DataReaderHistory) :=
  let ret_val := total_unread_ (reader_ h) in
  if ret_val =? samples_unread (counters_ h) then
    if mark_as_read then
      let '(l, unread) := mark_all (reader_ h) (m_changes h) ret_val in
      if unread =? 0 then
        let h := with_reader (set_m_changes h l (m_isHistoryFull h)) (mkRS unread (notified_ (reader_ h)) (available_ (reader_ h))) in
        Some (ret_val, set_counters h (set_samples (counters_ h) (u64 (samples_read (counters_ h) + ret_val)) 0))
      else None
    else Some (ret_val, h)
  else None.

Definition is_instance_present h k : bool := has_keys_ h && bool_decide (map_find k (instances_ h) <> None).

(** The available instances from the one that is looked up on. *)
Definition lookup_available_instance h k (exact : bool) : list InstanceHandle_t :=
  let l := (data_available_ h).*1 in
  let from p := match index_of p l with Some n => drop n l | None => [] end in
  if negb (has_keys_ h) then if negb (isDefined k) && negb exact then l else []
  else if exact then from (fun k' => bool_decide (k' = k))
  else if negb (isDefined k) then l
  else from (fun k' => handle_ltb k k').

(** [check_and_remove_instance] on an instance that is available. *)
Definition check_and_remove_instance h k : option (bool * DataReaderHistory) :=
  i ← map_find k (instances_ h);
  Some (match cache_changes i with
        | [] =>
            (true,
             let h := if not_alive (k, i) && (zlen (alive_writers i) =? 0) && isDefined k then set_instances h (map_erase k (instances_ h)) else h in
             set_available h (map_erase k (data_available_ h)))
        | _ => (false, h)
        end).

Definition change_was_processed_nts h c (is_going_to_be_mark_as_read : bool) : DataReaderHistory :=
  if negb (rc_read c) && is_going_to_be_mark_as_read
  then set_counters h (set_samples (counters_ h) (u64 (samples_read (counters_ h) + 1)) (u64 (samples_unread (counters_ h) - 1))) else h.

Definition instance_viewed_nts h k : option DataReaderHistory :=
  i ← map_find k (instances_ h);
  Some (if bool_decide (view_state i = NEW_VIEW_STATE)
        then set_counters (update_instance h k (set_view_state i NOT_NEW_VIEW_STATE)) (add_not_new (add_new (counters_ h) (-1)) 1) else h).

(** The changes of other writers behind a change that brought a new owner.  [None]
    also when a removal fails: the loop tries it again and again. *)
Fixpoint remove_other_owners h (owner : GUID_t) (l : list nat) : option DataReaderHistory :=
  match l with
  | [] => Some h
  | a :: l =>
      c ← deref h a;
      if bool_decide (rc_writer c <> owner) then '(removed, h) ← remove_change_at h a; if removed : bool then remove_other_owners h owner l else None
      else remove_other_owners h owner l
  end.

Definition update_instance_nts h a : option (bool * DataReaderHistory) :=
  c ← deref h a;
  i ← map_find (rc_handle c) (instances_ h);
  if rc_read c then None
  else
    let n := set_samples (counters_ h) (samples_read (counters_ h)) (u64 (samples_unread (counters_ h) + 1)) in
    '(ret, n, i') ← update_state (q_max_writers (qos_ h)) n i (rc_kind c) (rc_writer c) (rc_strength c);
    let h := set_counters (update_instance h (rc_handle c) i') n in
    let h := modify h a (fun c => set_rc_generations c (disposed_generation_count i') (no_writers_generation_count i')) in
    if bool_decide ((current_owner i').1 <> (current_owner i).1) && bool_decide ((current_owner i').1 = rc_writer c) then
      l ← mapM (deref h) (cache_changes i');
      let pos := lower_bound c l in
      if bool_decide (cache_changes i' !! pos = Some a) then h ← remove_other_owners h (current_owner i').1 (drop (S pos) (cache_changes i')); Some (ret, h) else None
    else Some (ret, h).

(** One turn of the loop of [writer_not_alive]. *)
Definition remove_writer_from (g : GUID_t) (acc : DataReaderHistoryCounters * list (InstanceHandle_t * DataReaderInstance))
    (ki : InstanceHandle_t * DataReaderInstance) : DataReaderHistoryCounters * list (InstanceHandle_t * DataReaderInstance) :=
  let '(_, n, i) := writer_removed acc.1 ki.2 g in (n, acc.2 ++ [(ki.1, i)]).

Definition writer_not_alive h (g : GUID_t) : DataReaderHistory :=
  let '(n, l) := fold_left (remove_writer_from g) (instances_ h) (counters_ h, []) in
  set_instances (set_counters h n) l.

Definition flag (b : bool) (v : Z) : Z := if b then v else 0.

Definition get_mask_status h : Z * Z * Z :=
  let n := counters_ h in
  let some x := negb (x =? 0) in
  (Z.lor (flag (some (samples_read n)) 1) (flag (some (samples_unread n)) 2),
   Z.lor (flag (some (instances_not_new n)) 2) (flag (some (instances_new n)) 1),
   Z.lor (flag (some (instances_alive n)) 1) (Z.lor (flag (some (instances_disposed n)) 2) (flag (some (instances_no_writers n)) 4))).

Definition writer_update_its_ownership_strength_nts h (g : GUID_t) (strength : Z) : option DataReaderHistory :=
  l ← mapM (fun ki => i ← writer_update_its_ownership_strength ki.2 g strength; Some (ki.1, i)) (instances_ h);
  Some (set_instances h l).

(** The first change that is not in the future. *)
Fixpoint first_present h (l : list nat) : option (option RChange) :=
  match l with
  | [] => Some None
  | a :: l => c ← deref h a; if is_future (reader_ h) c then first_present h l else Some (Some c)
  end.

Fixpoint first_untaken h (l : list InstanceHandle_t) : option (option (DataReaderInstance * RChange)) :=
  match l with
  | [] => Some None
  | k :: l =>
      i ← map_find k (instances_ h);
      r ← first_present h (cache_changes i);
      match r with Some c => Some (Some (i, c)) | None => first_untaken h l end
  end.

(** The instance and the change [get_first_untaken_info] describes. *)
Definition get_first_untaken h : option (option (DataReaderInstance * RChange)) := first_untaken h (data_available_ h).*1.
