(* ===== verification/DataReaderHistoryInv.v ===== *)
(** * The invariant of the history of a data reader

    What every operation of [DataReaderHistory] keeps: the maps are in order, an
    instance refers to changes of the history only, to its own ones and to each
    once, an instance with changes is available, and the limits of the QoS hold. *)

From Stdlib Require Import Sorted.
From S2P Require Import Prelude SequenceNumber LimitedVector ParameterList ReaderProxy Handles DataReaderInstance DataReaderHistory.

Implicit Types (h : DataReaderHistory) (c d : RChange) (k : InstanceHandle_t) (a : nat) (i : DataReaderInstance).

(** The most changes an instance may have. *)
Definition instance_limit h : Z := if q_keep_all (qos_ h) then max_samples_per_instance_ h else q_depth (qos_ h).

(** A change of the history that an instance may refer to. *)
Definition referred h k a : Prop :=
  exists c, c ∈ m_changes h /\ rc_addr c = a /\ rc_handle c = k /\ (has_keys_ h = true -> rc_assembled c = true).

Record inst_ok h k i : Prop := {
  io_nodup : NoDup (cache_changes i);
  io_refs : Forall (referred h k) (cache_changes i);
  io_limit : zlen (cache_changes i) <= instance_limit h;
  io_available : cache_changes i <> [] -> k ∈ (data_available_ h).*1
}.

Record qos_ok h : Prop := {
  qo_depth : 0 < q_depth (qos_ h) < 2 ^ 31;
  qo_samples : - 2 ^ 31 <= q_max_samples (qos_ h) < 2 ^ 31;
  qo_per_instance : q_max_samples_per_instance (qos_ h) < 2 ^ 31;
  qo_keyless : has_keys_ h = false -> q_max_samples (qos_ h) <= 0 \/ q_depth (qos_ h) <= q_max_samples (qos_ h);
  qo_keyed : has_keys_ h = true -> q_max_samples_per_instance (qos_ h) <= 0 \/ q_depth (qos_ h) <= q_max_samples_per_instance (qos_ h)
}.

Record drh_ok h : Prop := {
  do_qos : qos_ok h;
  do_keys : keys_sorted (instances_ h);
  do_available_keys : keys_sorted (data_available_ h);
  do_available : forall k, k ∈ (data_available_ h).*1 -> k ∈ (instances_ h).*1;
  do_addr : NoDup (rc_addr <$> m_changes h);
  do_ident : forall c d, c ∈ m_changes h -> d ∈ m_changes h -> matches_change c d = true -> c = d;
  do_inst : forall k i, (k, i) ∈ instances_ h -> inst_ok h k i;
  do_full : 0 < q_max_samples (qos_ h) ->
              zlen (m_changes h) <= q_max_samples (qos_ h) /\ (zlen (m_changes h) = q_max_samples (qos_ h) -> m_isHistoryFull h = true);
  do_really_full : m_isHistoryFull h = true -> zlen (m_changes h) = size_t (q_max_samples (qos_ h));
  do_instances : zlen (instances_ h) <= max_instances_ h;
  do_keyless : has_keys_ h = false -> Forall (fun c => rc_handle c = c_InstanceHandle_Unknown) (m_changes h)
}.

(** ** Lists and pointers *)

Lemma addr_inj h c d : NoDup (rc_addr <$> m_changes h) -> c ∈ m_changes h -> d ∈ m_changes h -> rc_addr c = rc_addr d -> c = d.
Proof.
  intros Hn [n Hc]%list_elem_of_lookup [m Hd]%list_elem_of_lookup E. assert (n = m) as ->; [|congruence].
  eapply (NoDup_lookup _ n m (rc_addr c) Hn); rewrite list_lookup_fmap; [by rewrite Hc|by rewrite Hd, E].
Qed.

Lemma find_Some_elem {A} (p : A -> bool) l x : List.find p l = Some x -> x ∈ l /\ p x = true.
Proof. intros E. apply List.find_some in E as [H1 H2]. split; [by apply list_elem_of_In|done]. Qed.

Lemma deref_Some h a c : NoDup (rc_addr <$> m_changes h) -> deref h a = Some c <-> c ∈ m_changes h /\ rc_addr c = a.
Proof.
  intros Hn. unfold deref. split.
  - intros [H1 H2]%find_Some_elem. by apply Nat.eqb_eq in H2.
  - intros [Hc <-]. destruct (List.find _ _) as [d|] eqn:E.
    + apply find_Some_elem in E as [Hd Ea]. apply Nat.eqb_eq in Ea. f_equal. by apply (addr_inj h).
    + apply list_elem_of_In in Hc. pose proof (List.find_none _ _ E _ Hc) as Hf. simpl in Hf. by rewrite Nat.eqb_refl in Hf.
Qed.

Lemma referred_deref h k a : NoDup (rc_addr <$> m_changes h) -> referred h k a -> exists c, deref h a = Some c /\ rc_handle c = k.
Proof. intros Hn (c & Hc & Ea & Ek & _). exists c. split; [by apply deref_Some|done]. Qed.

Lemma mapM_deref h k l : NoDup (rc_addr <$> m_changes h) -> Forall (referred h k) l ->
  exists cs, mapM (deref h) l = Some cs /\ rc_addr <$> cs = l /\ Forall (fun c => c ∈ m_changes h) cs.
Proof.
  intros Hn. induction 1 as [|a l Ha _ (cs & E & Ea & Hc)]; [by exists []|]. destruct (referred_deref h k a Hn Ha) as (c & Ec & _). apply deref_Some in Ec as Hc'; [|done]. destruct Hc' as [Hc' <-].
  exists (c :: cs). split; [simpl; rewrite Ec; simpl; by rewrite E|]. split; [by rewrite fmap_cons, Ea|by constructor].
Qed.

Lemma find_in_history_spec h c pos : drh_ok h -> c ∈ m_changes h -> find_in_history h c = Some pos -> m_changes h !! pos = Some c.
Proof.
  intros O Hc E. apply index_of_Some in E as (d & Hd & Hm & _). rewrite Hd. f_equal. apply (do_ident h O); [by apply list_elem_of_lookup_2 with pos|done|done].
Qed.

Lemma sn_eqb_refl s : sn_eqb s s = true.
Proof. unfold sn_eqb. by rewrite !Z.eqb_refl. Qed.

Lemma matches_refl c : matches_change c c = true.
Proof. unfold matches_change. rewrite sn_eqb_refl. simpl. by apply bool_decide_eq_true. Qed.

Lemma find_in_history_found h c : c ∈ m_changes h -> find_in_history h c <> None.
Proof. intros Hc E. apply index_of_None in E. rewrite list.Forall_forall in E. specialize (E c Hc). simpl in E. by rewrite matches_refl in E. Qed.

Lemma insert_before_perm {A} n (x : A) l : insert_before n x l ≡ₚ x :: l.
Proof. unfold insert_before. rewrite <- Permutation_middle. by rewrite take_drop. Qed.

Lemma delete_perm {A} (l : list A) n x : l !! n = Some x -> x :: delete n l ≡ₚ l.
Proof. intros E. rewrite delete_take_drop. rewrite <- (take_drop_middle l n x E) at 3. by rewrite <- Permutation_middle. Qed.

Lemma map_update_elem {V} k (v : V) l k' v' : (k', v') ∈ map_update k v l -> k' = k /\ v' = v \/ (k', v') ∈ l /\ k' <> k.
Proof.
  unfold map_update. intros H. apply list_elem_of_In, List.in_map_iff in H as ([k0 v0] & E & Hin). simpl in E. apply list_elem_of_In in Hin. case_bool_decide as D; injection E as <- <-; auto.
Qed.

Lemma map_emplace_elem {V} k (v : V) l k' v' : (k', v') ∈ map_emplace k v l -> k' = k /\ v' = v \/ (k', v') ∈ l.
Proof.
  induction l as [|[k0 v0] l IH]; simpl; [intros ?%list_elem_of_singleton; left; by simplify_eq|]. destruct (handle_ltb k k0); [rewrite elem_of_cons; intros [?|?]; [left; by simplify_eq|auto]|].
  destruct (handle_ltb k0 k); [|auto]. rewrite !elem_of_cons. intros [?|?%IH]; tauto.
Qed.

Lemma map_emplace_length {V} k (v : V) l : (length (map_emplace k v l) <= S (length l))%nat.
Proof. induction l as [|[k0 v0] l IH]; simpl; [lia|]. destruct (handle_ltb k k0); [simpl; lia|]. destruct (handle_ltb k0 k); simpl; lia. Qed.

Lemma map_erase_length {V} k (l : list (InstanceHandle_t * V)) : k ∈ l.*1 -> (length (map_erase k l) < length l)%nat.
Proof.
  unfold map_erase. induction l as [|[k0 v0] l IH]; [intros ?%elem_of_nil; done|]. rewrite fmap_cons, elem_of_cons, filter_cons. simpl. intros [->|Hk].
  - rewrite decide_False by tauto. pose proof (length_filter (fun kv : InstanceHandle_t * V => kv.1 <> k0) l). lia.
  - specialize (IH Hk). case_decide; simpl; lia.
Qed.

(** ** Keeping the invariant *)

(** Another history with the same changes, whose instances hold no other changes. *)
Lemma ok_instances h l n rs : drh_ok h -> keys_sorted l -> l.*1 = (instances_ h).*1 ->
  (forall k i', (k, i') ∈ l -> exists i, (k, i) ∈ instances_ h /\ NoDup (cache_changes i') /\ zlen (cache_changes i') <= zlen (cache_changes i) /\
    forall a, a ∈ cache_changes i' -> a ∈ cache_changes i) ->
  drh_ok (with_reader (set_counters (set_instances h l) n) rs).
Proof.
  intros [Q K A1 A2 Hn Hi I F Fu N Kl] Ks El Hl. split; simpl; try done.
  - destruct Q. by split.
  - intros k Hk. rewrite El. auto.
  - intros k i' Hin. destruct (Hl k i' Hin) as (i & Hi' & Hnd & Hlen & Hsub). destruct (I k i Hi') as [_ R L A]. split; [done| |simpl in *; unfold instance_limit, max_samples_per_instance_, max_samples_ in *; simpl; lia|].
    + apply list.Forall_forall. intros a Ha. rewrite list.Forall_forall in R. apply R. auto.
    + intros Hne. apply A. destruct (cache_changes i) as [|x xs]; [|done]. destruct (cache_changes i') as [|a l']; [done|]. exfalso. by specialize (Hsub a (list_elem_of_here _ _)) as ?%elem_of_nil.
  - unfold max_instances_ in *. simpl. unfold zlen in *. rewrite <- (length_fmap fst l), El, length_fmap. lia.
Qed.

Lemma same_instances h : forall k i', (k, i') ∈ instances_ h -> drh_ok h -> exists i, (k, i) ∈ instances_ h /\ NoDup (cache_changes i') /\ zlen (cache_changes i') <= zlen (cache_changes i) /\
    forall a, a ∈ cache_changes i' -> a ∈ cache_changes i.
Proof. intros k i Hi O. exists i. split; [done|]. split; [by apply (io_nodup _ _ _ (do_inst h O k i Hi))|]. split; [lia|done]. Qed.

Lemma set_instances_id h n rs : with_reader (set_counters (set_instances h (instances_ h)) n) rs = with_reader (set_counters h n) rs.
Proof. done. Qed.

Lemma ok_counters h n : drh_ok h -> drh_ok (set_counters h n).
Proof. intros O. apply (ok_instances h (instances_ h) n (reader_ h) O (do_keys h O) eq_refl). intros k i' Hi. by apply same_instances. Qed.

Lemma ok_reader h rs : drh_ok h -> drh_ok (with_reader h rs).
Proof. intros O. apply (ok_instances h (instances_ h) (counters_ h) rs O (do_keys h O) eq_refl). intros k i' Hi. by apply same_instances. Qed.

(** An instance that loses changes, or changes otherwise. *)
Lemma ok_update h k i i' : drh_ok h -> map_find k (instances_ h) = Some i -> NoDup (cache_changes i') -> zlen (cache_changes i') <= zlen (cache_changes i) ->
  (forall a, a ∈ cache_changes i' -> a ∈ cache_changes i) -> drh_ok (update_instance h k i').
Proof.
  intros O Ei Hn Hl Hs. apply (ok_instances h (map_update k i' (instances_ h)) (counters_ h) (reader_ h) O).
  - unfold keys_sorted. rewrite map_update_keys. apply O.
  - apply map_update_keys.
  - intros k' j [[-> ->]|[Hj _]]%map_update_elem; [|by apply same_instances]. exists i. split; [apply map_find_Some; [apply O|done]|done].
Qed.

Lemma ok_update_state h k i i' : drh_ok h -> map_find k (instances_ h) = Some i -> cache_changes i' = cache_changes i -> drh_ok (update_instance h k i').
Proof.
  intros O Ei Ec. apply (ok_update h k i i'); rewrite ?Ec; [done|done| |lia|done]. apply map_find_Some in Ei; [|apply O]. apply (io_nodup h k i). by apply (do_inst h O).
Qed.

(** A change that no instance refers to goes. *)
Lemma forget_ok h pos c : drh_ok h -> m_changes h !! pos = Some c -> (forall k i, (k, i) ∈ instances_ h -> rc_addr c ∉ cache_changes i) -> drh_ok (base_remove h pos c).
Proof.
  intros [Q K A1 A2 Hn Hi I F Fu N Kl] Hc Hfree. pose proof (delete_perm _ _ _ Hc) as P. assert (Hsub : forall d, d ∈ delete pos (m_changes h) -> d ∈ m_changes h) by (intros d Hd; rewrite <- P; by right).
  unfold base_remove. apply ok_reader. split; simpl; try done.
  - destruct Q. by split.
  - assert (Hn' : NoDup (rc_addr <$> c :: delete pos (m_changes h))) by (by rewrite P). rewrite fmap_cons in Hn'. by apply list.NoDup_cons in Hn' as [_ Hn'].
  - intros x y Hx Hy. auto.
  - intros k i Hki. destruct (I k i Hki) as [Hnd R L A]. split; [done| |done|done]. apply list.Forall_forall. intros a Ha. rewrite list.Forall_forall in R.
    destruct (R a Ha) as (d & Hd & Ea & Ek & Hass). exists d. split; [|done]. rewrite <- P, elem_of_cons in Hd. destruct Hd as [->|Hd]; [|done]. exfalso. apply (Hfree k i Hki). by rewrite Ea.
  - intros Hm. specialize (F Hm) as [F1 F2]. pose proof (Permutation_length P) as Hlen. simpl in Hlen. unfold zlen in *. split; lia.
  - intros Hk. specialize (Kl Hk). rewrite list.Forall_forall in *. auto.
Qed.

(** A new change, which no instance refers to yet. *)
Lemma add_change_ok h c r reason h' : drh_ok h -> (has_keys_ h = false -> rc_handle c = c_InstanceHandle_Unknown) -> (forall d, d ∈ m_changes h -> rc_addr d <> rc_addr c /\ matches_change d c = false /\ matches_change c d = false) ->
  add_to_reader_history_if_not_full h c = (r, reason, h') -> drh_ok h' /\ instances_ h' = instances_ h /\ data_available_ h' = data_available_ h /\ qos_ h' = qos_ h /\ has_keys_ h' = has_keys_ h /\
    (r = true -> c ∈ m_changes h') /\ (r = false -> m_changes h' = m_changes h) /\ (forall d, d ∈ m_changes h' -> d = c \/ d ∈ m_changes h).
Proof.
  intros O Hkc Hf E. unfold add_to_reader_history_if_not_full in E. destruct (m_isHistoryFull h) eqn:Ef; [injection E as <- <- <-; split; [done|]; repeat split; try done; auto|].
  unfold drh_add_change in E. destruct (_ && _).
  - injection E as <- <- <-. set (b := zlen (m_changes h) =? _). assert (drh_ok (if b then set_m_changes h (m_changes h) true else h)).
    { destruct b eqn:Eb; [|done]. apply Z.eqb_eq in Eb. destruct O as [Q K A1 A2 Hn Hi I F Fu N Kl]. split; simpl; try done; [destruct Q; by split|intros k i Hki; destruct (I k i Hki); by split|]. intros Hm. split; [by apply F|done]. }
    split; [done|]. destruct b; simpl; repeat split; try done; auto.
  - injection E as <- <- <-. set (l := insert_before _ c (m_changes h)). assert (P : l ≡ₚ c :: m_changes h) by apply insert_before_perm.
    assert (Hin : forall d, d ∈ l <-> d = c \/ d ∈ m_changes h) by (intros d; by rewrite P, elem_of_cons). destruct O as [Q K A1 A2 Hn Hi I F Fu N Kl]. pose proof (Permutation_length P) as Hlen. simpl in Hlen.
    assert (O' : forall b, (0 < q_max_samples (qos_ h) -> zlen l = q_max_samples (qos_ h) -> b = true) -> (b = true -> zlen l = size_t (q_max_samples (qos_ h))) -> drh_ok (set_m_changes h l b)).
    { intros b Hb Hbt. split; simpl; try done.
      - destruct Q. by split.
      - rewrite P, fmap_cons. constructor; [|done]. intros (d & Ed & Hd)%list_elem_of_fmap. by destruct (Hf d Hd) as [? _].
      - intros x y [->|Hx]%Hin [->|Hy]%Hin; [done|destruct (Hf y Hy) as (_ & _ & ->); done|destruct (Hf x Hx) as (_ & -> & _); done|auto].
      - intros k i Hki. destruct (I k i Hki) as [Hnd R L A]. split; [done| |done|done]. eapply list.Forall_impl; [exact R|]. intros a (d & Hd & Hrest). exists d. split; [apply Hin; by right|done].
      - intros Hm. specialize (F Hm) as [F1 F2]. split; [|auto]. unfold zlen in *. destruct (Z.eq_dec (Z.of_nat (length (m_changes h))) (q_max_samples (qos_ h))) as [Heq|Hneq]; [by rewrite F2 in Ef|lia].
      - intros Hk. rewrite P. constructor; [auto|]. auto. }
    simpl. destruct Q as [_ Q _ _ _]. split; [|destruct (_ =? _); simpl; repeat split; try done; intros; by apply Hin; auto].
    destruct (Z.eqb_spec (zlen l) (size_t (q_max_samples (qos_ h)))) as [Heq|Hneq]; simpl.
    + by apply (O' true).
    + apply O'; [|congruence]. intros Hm Hz. rewrite size_t_small in Hneq by lia. done.
Qed.

(** A map of instances of which some are new and empty. *)
Lemma ok_new_instances h l av : drh_ok h -> keys_sorted l -> keys_sorted av -> (forall k, k ∈ av.*1 -> k ∈ l.*1) -> zlen l <= max_instances_ h ->
  (forall k i, (k, i) ∈ l -> i = DataReaderInstance_new \/ (k, i) ∈ instances_ h /\ (k ∈ (data_available_ h).*1 -> k ∈ av.*1)) ->
  drh_ok (set_instances (set_available h av) l).
Proof.
  intros [Q K A1 A2 Hn Hi I F Fu N Kl] Ks Kav Hav Hlen Hl. split; simpl; try done.
  - destruct Q. by split.
  - intros k i Hki. destruct (Hl k i Hki) as [->|[Hin Ha]].
    + split; [constructor|constructor| |done]. unfold zlen, instance_limit. simpl. destruct Q as [Q1 Q2 Q3 Q4 Q5]. unfold max_samples_per_instance_, max_samples_, unlimited, INT32_MAX. simpl.
      repeat match goal with |- context [if ?b then _ else _] => destruct b eqn:? end; lia.
    + destruct (I k i Hin) as [Hnd R L A]. split; [done|done|done|]. intros Hne. by apply Ha, A.
Qed.

Lemma max_instances_pos h : 1 <= max_instances_ h.
Proof. unfold max_instances_, unlimited, INT32_MAX. destruct (has_keys_ h); [|lia]. destruct (Z.leb_spec (q_max_instances (qos_ h)) 0); lia. Qed.

Lemma find_key_ok h k ok h' : drh_ok h -> find_key h k = (ok, h') ->
  drh_ok h' /\ m_changes h' = m_changes h /\ qos_ h' = qos_ h /\ has_keys_ h' = has_keys_ h /\ counters_ h' = counters_ h /\ reader_ h' = reader_ h /\ m_isHistoryFull h' = m_isHistoryFull h /\
  (forall k' i, (k', i) ∈ instances_ h' -> i = DataReaderInstance_new \/ (k', i) ∈ instances_ h) /\
  (if ok : bool then exists i, map_find k (instances_ h') = Some i /\ (map_find k (instances_ h) = Some i /\ h' = h \/ map_find k (instances_ h) = None /\ i = DataReaderInstance_new)
   else h' = h /\ Forall (fun ki => instance_state ki.2 = ALIVE_INSTANCE_STATE) (instances_ h) /\ max_instances_ h <= zlen (instances_ h) /\ map_find k (instances_ h) = None).
Proof.
  intros O E. unfold find_key in E. destruct (map_find k (instances_ h)) as [i|] eqn:Ek.
  { injection E as <- <-. do 7 (split; [done|]). split; [auto|]. exists i. auto. }
  assert (Hnew : forall l, keys_sorted l -> map_find k l = None -> map_find k (map_emplace k DataReaderInstance_new l) = Some DataReaderInstance_new).
  { intros l Hl Hk. rewrite map_find_emplace by done. rewrite Hk. by rewrite bool_decide_true. }
  destruct (Z.ltb_spec (zlen (instances_ h)) (max_instances_ h)) as [Hlt|Hge].
  - injection E as <- <-. split.
    { apply (ok_new_instances h _ (data_available_ h) O); [apply map_emplace_sorted, O|apply O| | |].
      - intros k' Hk'. apply map_emplace_keys. right. by apply (do_available h O).
      - pose proof (map_emplace_length k DataReaderInstance_new (instances_ h)). unfold zlen in *. lia.
      - intros k' i [[-> ->]|Hin]%map_emplace_elem; [by left|by right]. }
    simpl. do 6 (split; [done|]). split; [intros k' i [[-> ->]|Hin]%map_emplace_elem; auto|]. eexists. split; [apply Hnew; [apply O|done]|]. auto.
  - destruct (List.find not_alive (instances_ h)) as [[k' i']|] eqn:Ef.
    + injection E as <- <-. apply find_Some_elem in Ef as [Hk' _]. assert (Hkey : k' ∈ (instances_ h).*1) by (apply list_elem_of_fmap; by exists (k', i')). split.
      { apply (ok_new_instances h _ (map_erase k' (data_available_ h)) O); [apply map_emplace_sorted, map_erase_sorted, O|apply map_erase_sorted, O| | |].
        - intros k0 ([k1 u] & -> & [Hne Hin]%list_elem_of_filter)%list_elem_of_fmap. simpl in *. apply map_emplace_keys. right.
          assert (Hk1 : k1 ∈ (instances_ h).*1) by (apply (do_available h O); apply list_elem_of_fmap; by exists (k1, u)).
          apply list_elem_of_fmap in Hk1 as ([k2 j] & -> & Hj). apply list_elem_of_fmap. exists (k2, j). split; [done|]. by apply list_elem_of_filter.
        - pose proof (map_emplace_length k DataReaderInstance_new (map_erase k' (instances_ h))). pose proof (map_erase_length k' (instances_ h) Hkey). pose proof (do_instances h O). unfold zlen in *. lia.
        - intros k0 i [[-> ->]|Hin]%map_emplace_elem; [by left|]. apply list_elem_of_filter in Hin as [Hne Hin]. simpl in Hne. right. split; [done|].
          intros ([k1 u] & -> & Hu)%list_elem_of_fmap. apply list_elem_of_fmap. exists (k1, u). split; [done|]. by apply list_elem_of_filter. }
      simpl. do 6 (split; [done|]). split; [intros k0 i [[-> ->]|[_ Hin]%list_elem_of_filter]%map_emplace_elem; auto|]. eexists. split; [apply Hnew; [apply map_erase_sorted, O|]|by right].
      rewrite map_find_erase. by case_bool_decide.
    + injection E as <- <-. do 7 (split; [done|]). split; [auto|]. split; [done|]. split; [|done]. apply list.Forall_forall. intros ki Hki.
      apply list_elem_of_In in Hki. pose proof (List.find_none _ _ Ef ki Hki) as Hna. unfold not_alive in Hna. apply negb_false_iff in Hna. by apply bool_decide_eq_true in Hna.
Qed.

Lemma erase_addr a l : NoDup l -> exists l', (erase_if (Nat.eqb a) l).2 = l' /\ NoDup l' /\ zlen l' <= zlen l /\ forall b, b ∈ l' <-> b ∈ l /\ b <> a.
Proof.
  intros Hn. pose proof (erase_if_spec (Nat.eqb a) l) as S. destruct (erase_if _ l) as [[] l'] eqn:E; exists l'; (split; [done|]).
  - destruct S as (l1 & x & l2 & -> & -> & Hx & H1). apply Nat.eqb_eq in Hx. subst x. apply list.NoDup_app in Hn as (N1 & N2 & N3). apply list.NoDup_cons in N3 as [N3 N4]. split; [|split].
    + apply list.NoDup_app. split; [done|]. split; [|done]. intros x Hx Hx2. apply (N2 x Hx). by right.
    + unfold zlen. rewrite !length_app. simpl. lia.
    + intros b. rewrite !elem_of_app, elem_of_cons. split.
      * intros [Hb|Hb]; (split; [tauto|]); intros ->; [apply (N2 a Hb); by left|done].
      * intros [[?|[?|?]] ?]; tauto.
  - destruct S as [-> Hf]. split; [done|]. split; [lia|]. intros b. split; [|tauto]. intros Hb. split; [done|]. intros ->. rewrite list.Forall_forall in Hf. specialize (Hf a Hb). by rewrite Nat.eqb_refl in Hf.
Qed.

(** A change is dropped from its instance and from the history. *)
Lemma dropped_ok h pos c : drh_ok h -> m_changes h !! pos = Some c ->
  (if negb (has_keys_ h) || rc_assembled c then
     match map_find (rc_handle c) (instances_ h) with
     | Some i => drh_ok (update_instance (base_remove h pos c) (rc_handle c) (set_cache_changes i (erase_if (Nat.eqb (rc_addr c)) (cache_changes i)).2))
     | None => drh_ok (base_remove h pos c)
     end
   else drh_ok (base_remove h pos c)).
Proof.
  intros O Hc. assert (Hcin : c ∈ m_changes h) by (by apply list_elem_of_lookup_2 with pos).
  assert (Hown : forall k i, (k, i) ∈ instances_ h -> rc_addr c ∈ cache_changes i -> k = rc_handle c /\ (has_keys_ h = true -> rc_assembled c = true)).
  { intros k i Hki Ha. pose proof (io_refs _ _ _ (do_inst h O k i Hki)) as R. rewrite list.Forall_forall in R. destruct (R _ Ha) as (d & Hd & Ea & Ek & Hass).
    assert (d = c) as -> by (by apply (addr_inj h); [apply O| | |]). done. }
  destruct (negb (has_keys_ h) || rc_assembled c) eqn:Eb.
  - destruct (map_find (rc_handle c) (instances_ h)) as [i|] eqn:Ei.
    + assert (Hki : (rc_handle c, i) ∈ instances_ h) by (apply map_find_Some; [apply O|done]). destruct (erase_addr (rc_addr c) (cache_changes i) (io_nodup _ _ _ (do_inst h O _ _ Hki))) as (l' & El & Hn & Hlen & Hl). rewrite El.
      change (update_instance (base_remove h pos c) (rc_handle c) (set_cache_changes i l')) with (base_remove (update_instance h (rc_handle c) (set_cache_changes i l')) pos c).
      apply forget_ok; [|done|].
      * apply (ok_update h (rc_handle c) i); [done|done|done|done|]. intros a Ha. by apply Hl.
      * intros k j [[-> ->]|[Hj Hne]]%map_update_elem Ha; [simpl in Ha; by apply Hl in Ha as [_ ?]|]. by destruct (Hown k j Hj Ha).
    + apply forget_ok; [done|done|]. intros k i Hki Ha. destruct (Hown k i Hki Ha) as [-> _]. apply map_find_None in Ei. apply Ei. apply list_elem_of_fmap. by exists (rc_handle c, i).
  - apply orb_false_iff in Eb as [Eb1 Eb2]. apply negb_false_iff in Eb1. apply forget_ok; [done|done|]. intros k i Hki Ha. destruct (Hown k i Hki Ha) as [_ Hass]. rewrite Hass in Eb2; done.
Qed.

Lemma gone_after_remove h pos c : drh_ok h -> m_changes h !! pos = Some c -> gone_from (base_remove h pos c) pos c = true.
Proof.
  intros O Hc. unfold gone_from. simpl. destruct (delete pos (m_changes h) !! pos) as [d|] eqn:Ed; [|done]. apply negb_true_iff. destruct (matches_change c d) eqn:Em; [|done]. exfalso.
  rewrite list_lookup_delete_ge in Ed by lia. assert (c = d) as <- by (apply (do_ident h O); [by apply list_elem_of_lookup_2 with pos|by apply list_elem_of_lookup_2 with (S pos)|done]).
  pose proof (do_addr h O) as Hn. assert (pos = S pos); [|lia]. eapply (NoDup_lookup _ pos (S pos) (rc_addr c) Hn); rewrite list_lookup_fmap; [by rewrite Hc|by rewrite Ed].
Qed.

Lemma drh_remove_change_nts_ok h pos r h' : drh_ok h -> drh_remove_change_nts h pos = Some (r, h') ->
  drh_ok h' /\ r = true /\ m_changes h' = delete pos (m_changes h).
Proof.
  intros O E. unfold drh_remove_change_nts in E. apply bind_Some in E as (c & Hc & E). rewrite (gone_after_remove h pos c O Hc) in E. injection E as <- <-. generalize (dropped_ok h pos c O Hc). cbn [has_keys_ base_remove with_reader set_m_changes instances_].
  destruct (negb (has_keys_ h) || rc_assembled c); intros D.
  - destruct (map_find (rc_handle c) (instances_ h)) as [i|]; [|split; [by apply ok_counters|done]]. destruct (rc_read c); (split; [|done]); unfold sync_unread, add_read; repeat apply ok_counters; done.
  - split; [by apply ok_counters|done].
Qed.

Lemma drh_remove_change_ok h c r h' : drh_ok h -> drh_remove_change h c = Some (r, h') -> drh_ok h' /\ (c ∈ m_changes h -> r = true /\ forall d, d ∈ m_changes h' <-> d ∈ m_changes h /\ d <> c).
Proof.
  intros O E. unfold drh_remove_change in E. destruct (find_in_history h c) as [pos|] eqn:Ef.
  - destruct (drh_remove_change_nts_ok h pos r h' O E) as (O' & -> & Em). split; [done|]. intros Hc. split; [done|]. pose proof (find_in_history_spec h c pos O Hc Ef) as Hp. pose proof (delete_perm _ _ _ Hp) as P.
    intros d. assert (Hd0 : d ∈ m_changes h <-> d = c \/ d ∈ delete pos (m_changes h)) by (by rewrite <- elem_of_cons, P). rewrite Em, Hd0. split; [|tauto]. intros Hd. split; [by right|]. intros ->. assert (Hn : NoDup (rc_addr <$> c :: delete pos (m_changes h))) by (rewrite P; apply O). rewrite fmap_cons in Hn. apply list.NoDup_cons in Hn as [Hn _].
    apply Hn. by apply list_elem_of_fmap_2.
  - injection E as <- <-. split; [done|]. intros Hc. by apply find_in_history_found in Hc.
Qed.

(** ** Removal of a change *)

Definition without a (l : list nat) : list nat := (erase_if (Nat.eqb a) l).2.

Lemma without_absent a l : a ∉ l -> without a l = l.
Proof.
  intros Ha. unfold without, erase_if. destruct (index_of (Nat.eqb a) l) as [n|] eqn:E; [|done]. apply index_of_Some in E as (b & Hb & Eb & _). apply Nat.eqb_eq in Eb as <-.
  exfalso. apply Ha. by apply list_elem_of_lookup_2 with n.
Qed.

Lemma without_cons a l : without a (a :: l) = l.
Proof. unfold without, erase_if. simpl. by rewrite Nat.eqb_refl. Qed.

Lemma find_matching_spec h k l c : drh_ok h -> c ∈ m_changes h -> Forall (referred h k) l -> find_matching h l c = Some (index_of (Nat.eqb (rc_addr c)) l).
Proof.
  intros O Hc. induction 1 as [|a l Ha Hl IH]; [done|]. destruct (referred_deref h k a (do_addr h O) Ha) as (d & Ed & _). cbn [find_matching]. rewrite Ed. simpl. rewrite IH. simpl.
  apply deref_Some in Ed as [Hd Ea]; [|apply O]. destruct (matches_change d c) eqn:Em.
  - assert (d = c) as -> by (by apply (do_ident h O)). by rewrite Ea, Nat.eqb_refl.
  - destruct (Nat.eqb_spec (rc_addr c) a) as [E|_]; [|done]. assert (d = c) as -> by (apply (addr_inj h); [apply O|done|done|congruence]). by rewrite matches_refl in Em.
Qed.

Lemma update_instance_id h k i : keys_sorted (instances_ h) -> map_find k (instances_ h) = Some i -> update_instance h k i = h.
Proof.
  intros Ks Ei. unfold update_instance, map_update. destruct h as [hk q mc f ins av ct rd]. unfold set_instances. simpl in *. f_equal. apply map_find_Some in Ei; [|done].
  rewrite <- (List.map_id ins) at 2. apply List.map_ext_in. intros [k' j] Hin. simpl. case_bool_decide as D; [|done]. subst k'. f_equal.
  apply list_elem_of_In in Hin. apply map_find_Some in Ei; [|done]. apply map_find_Some in Hin; [|done]. congruence.
Qed.

(** What every removal leaves as it is. *)
Definition same_config h h' : Prop := qos_ h' = qos_ h /\ has_keys_ h' = has_keys_ h.

Lemma same_config_limits h h' : same_config h h' -> max_samples_ h' = max_samples_ h /\ max_instances_ h' = max_instances_ h /\ max_samples_per_instance_ h' = max_samples_per_instance_ h /\
  changes_limit h' = changes_limit h /\ instance_limit h' = instance_limit h.
Proof. intros [Eq Ek]. unfold instance_limit, changes_limit, max_samples_per_instance_, max_instances_, max_samples_. by rewrite !Eq, !Ek. Qed.

(** A change has gone: from the changes and from the instance it belonged to. *)
Record removed_from h c h' : Prop := {
  rf_ok : drh_ok h';
  rf_config : same_config h h';
  rf_changes : forall d, d ∈ m_changes h' <-> d ∈ m_changes h /\ d <> c;
  rf_length : S (length (m_changes h')) = length (m_changes h);
  rf_room : m_isHistoryFull h' = false;
  rf_instance : forall i, map_find (rc_handle c) (instances_ h) = Some i ->
    map_find (rc_handle c) (instances_ h') = Some (set_cache_changes i (if negb (has_keys_ h) || rc_assembled c then without (rc_addr c) (cache_changes i) else cache_changes i)) /\
    data_available_ h' = data_available_ h;
  rf_others : forall k i, (k, i) ∈ instances_ h -> k <> rc_handle c -> map_find (rc_handle c) (instances_ h) <> None -> (k, i) ∈ instances_ h'
}.

Lemma set_cache_changes_id i : set_cache_changes i (cache_changes i) = i.
Proof. by destruct i. Qed.

Lemma map_update_other {V} k (v : V) l k' v' : (k', v') ∈ l -> k' <> k -> (k', v') ∈ map_update k v l.
Proof. intros Hin Hne. unfold map_update. apply list_elem_of_In, List.in_map_iff. exists (k', v'). simpl. rewrite bool_decide_false by done. split; [done|]. by apply list_elem_of_In. Qed.

(** The virtual method on a change of the history. *)
Lemma remove_change_removes h c : drh_ok h -> c ∈ m_changes h -> exists h', drh_remove_change h c = Some (true, h') /\ removed_from h c h'.
Proof.
  intros O Hc. unfold drh_remove_change. destruct (find_in_history h c) as [pos|] eqn:Ef; [|by apply find_in_history_found in Ef]. pose proof (find_in_history_spec h c pos O Hc Ef) as Hp.
  destruct (drh_remove_change_nts h pos) as [[r h']|] eqn:E. 2:{ unfold drh_remove_change_nts in E. rewrite Hp in E. simpl in E. by destruct (gone_from _ _ _). }
  destruct (drh_remove_change_nts_ok h pos r h' O E) as (O' & -> & Em). exists h'. split; [done|].
  assert (E2 : drh_remove_change h c = Some (true, h')) by (unfold drh_remove_change; by rewrite Ef). apply drh_remove_change_ok in E2 as [_ E2]; [|done]. destruct (E2 Hc) as [_ Hch].
  assert (Hl : S (length (m_changes h')) = length (m_changes h)) by (rewrite Em; pose proof (Permutation_length (delete_perm _ _ _ Hp)) as P; by simpl in P).
  unfold drh_remove_change_nts in E. rewrite Hp in E. simpl in E. destruct (gone_from _ _ _); [|done]. injection E as <-.
  destruct (negb (has_keys_ h) || rc_assembled c) eqn:Eb.
  - destruct (map_find (rc_handle c) (instances_ h)) as [i|] eqn:Ei.
    + split; [done|by destruct (rc_read c)|done|done|by destruct (rc_read c)| |].
      * intros j Hj. rewrite Ei in Hj. injection Hj as <-. rewrite Eb. destruct (rc_read c); simpl; rewrite map_find_update, bool_decide_true by done; by rewrite Ei.
      * intros k j Hj Hne _. destruct (rc_read c); simpl; by apply map_update_other.
    + split; [done|done|done|done|done| |]; [intros j Hj; congruence|intros; congruence].
  - split; [done|done|done|done|done| |]; simpl.
    + intros i Hi. rewrite Eb, set_cache_changes_id. done.
    + done.
Qed.

Lemma remove_change_sub_removes h c : drh_ok h -> c ∈ m_changes h -> (negb (has_keys_ h) || rc_assembled c) = true ->
  exists h', remove_change_sub h c = Some (true, h') /\ removed_from h c h'.
Proof.
  intros O Hc Hb. unfold remove_change_sub. destruct (find_key h (rc_handle c)) as [ok h1] eqn:Ek. destruct (find_key_ok h _ ok h1 O Ek) as (O1 & Em & Eq & Eh & _ & _ & _ & Hinst & Hok).
  assert (Hmid : exists h2, (if ok then erase_from_instance h1 c else Some h1) = Some h2 /\
    drh_ok h2 /\ m_changes h2 = m_changes h /\ same_config h h2 /\
    (forall i, map_find (rc_handle c) (instances_ h) = Some i -> map_find (rc_handle c) (instances_ h2) = Some (set_cache_changes i (without (rc_addr c) (cache_changes i))) /\ data_available_ h2 = data_available_ h) /\
    (forall k i, (k, i) ∈ instances_ h -> k <> rc_handle c -> map_find (rc_handle c) (instances_ h) <> None -> (k, i) ∈ instances_ h2) /\
    (map_find (rc_handle c) (instances_ h) <> None -> map_find (rc_handle c) (instances_ h2) <> None)).
  { destruct ok; [|destruct Hok as (-> & _ & _ & Hnone); exists h; do 3 (split; [done|]); split; [done|]; split; [intros; congruence|]; split; [intros; congruence|done]].
    destruct Hok as (i & Ei & Hi). unfold erase_from_instance. rewrite Ei. simpl. assert (Hki : (rc_handle c, i) ∈ instances_ h1) by (apply map_find_Some; [apply O1|done]). pose proof (do_inst h1 O1 _ _ Hki) as [Hn R _ _].
    rewrite (find_matching_spec h1 (rc_handle c)) by (done || by rewrite Em). simpl.
    assert (Eupd : match index_of (Nat.eqb (rc_addr c)) (cache_changes i) with
                   | Some n => let h := update_instance h1 (rc_handle c) (set_cache_changes i (delete n (cache_changes i))) in if rc_read c then add_read h (-1) else h | None => h1 end =
                   (let h := update_instance h1 (rc_handle c) (set_cache_changes i (without (rc_addr c) (cache_changes i))) in
                    if rc_read c && bool_decide (index_of (Nat.eqb (rc_addr c)) (cache_changes i) <> None) then add_read h (-1) else h)).
    { unfold without, erase_if. destruct (index_of _ _) as [n|]; simpl; [by rewrite andb_true_r|]. rewrite andb_false_r, set_cache_changes_id. symmetry. apply update_instance_id; [apply O1|done]. }
    eexists. split; [apply f_equal; exact Eupd|]. clear Eupd. set (b := rc_read c && _). destruct (erase_addr (rc_addr c) (cache_changes i) Hn) as (l' & El & Hn' & Hlen & Hl). unfold without. rewrite El.
    assert (O2 : drh_ok (update_instance h1 (rc_handle c) (set_cache_changes i l'))). { apply (ok_update h1 (rc_handle c) i); [done|done|done|done|]. intros a Ha. by apply Hl. }
    simpl. split; [destruct b; [by apply ok_counters|done]|]. split; [by destruct b|]. split; [by destruct b|]. split; [|split].
    - intros j Hj. destruct Hi as [[Hi ->]|[Hi _]]; [|congruence]. rewrite Hj in Hi. injection Hi as ->. rewrite <- El. destruct b; simpl; rewrite map_find_update, bool_decide_true by done; by rewrite Ei.
    - intros k j Hj Hne Hsome. destruct Hi as [[Hi ->]|[Hi _]]; [|done]. destruct b; simpl; by apply map_update_other.
    - intros _. destruct b; simpl; rewrite map_find_update, bool_decide_true by done; by rewrite Ei. }
  destruct Hmid as (h2 & E2 & O2 & Em2 & C2 & Hi2 & Ho2 & Hs2). rewrite E2. simpl. destruct (remove_change_removes h2 c O2) as (h3 & E3 & [O3 C3 Ch3 L3 Rm3 I3 Ot3]); [by rewrite Em2|].
  rewrite E3. simpl. eexists. split; [done|]. destruct C2 as [C21 C22]. destruct C3 as [C31 C32]. split.
  - unfold sync_unread. apply ok_counters. destruct O3 as [Q K A1 A2 Hn Hid I F Fu N Kl]. split; simpl; try done; [destruct Q; by split|intros k i Hki; destruct (I k i Hki); by split|].
    intros Hm. specialize (F Hm) as [F1 F2]. split; [done|]. by rewrite Rm3 in F2.
  - split; simpl; congruence.
  - intros d. simpl. by rewrite Ch3, Em2.
  - simpl. by rewrite L3, Em2.
  - done.
  - simpl. intros i Hi. destruct (Hi2 i Hi) as [Hi2' Ha2]. destruct (I3 _ Hi2') as [Hi3 Ha3]. rewrite C22, Hb in Hi3. rewrite Hb, Hi3, Ha3, Ha2. split; [|done].
    assert (Hki : (rc_handle c, i) ∈ instances_ h) by (apply map_find_Some; [apply O|done]). destruct (erase_addr (rc_addr c) (cache_changes i) (io_nodup _ _ _ (do_inst h O _ _ Hki))) as (l' & El & _ & _ & Hl).
    change (cache_changes (set_cache_changes i (without (rc_addr c) (cache_changes i)))) with (without (rc_addr c) (cache_changes i)). rewrite (without_absent _ (without _ _)); [done|].
    unfold without. rewrite El. intros [_ ?]%Hl. done.
  - simpl. intros k i Hki Hne Hsome. apply Ot3; [by apply Ho2|done|by apply Hs2].
Qed.

Lemma find_key_base_remove h pos c k : find_key (base_remove h pos c) k = let '(ok, h1) := find_key h k in (ok, base_remove h1 pos c).
Proof.
  unfold find_key. simpl. destruct (map_find k (instances_ h)); [done|]. change (max_instances_ (base_remove h pos c)) with (max_instances_ h). destruct (_ <? _); [done|].
  by destruct (List.find not_alive (instances_ h)) as [[k' i']|].
Qed.

(** Removal through an iterator of the instance. *)
Lemma remove_change_at_removes h a c : drh_ok h -> deref h a = Some c -> (negb (has_keys_ h) || rc_assembled c) = true ->
  exists h', remove_change_at h a = Some (true, h') /\ removed_from h c h'.
Proof.
  intros O Ea Hb. apply deref_Some in Ea as Hc; [|apply O]. destruct Hc as [Hc Haddr]. unfold remove_change_at. rewrite Ea. simpl. destruct (find_in_history h c) as [pos|] eqn:Ef; [|by apply find_in_history_found in Ef].
  pose proof (find_in_history_spec h c pos O Hc Ef) as Hp. rewrite (gone_after_remove h pos c O Hp), find_key_base_remove. destruct (find_key h (rc_handle c)) as [ok h1] eqn:Ek.
  destruct (find_key_ok h _ ok h1 O Ek) as (O1 & Em & Eq & Eh & _ & _ & _ & _ & Hok). eexists. split; [done|].
  assert (Hd : forall d, d ∈ delete pos (m_changes h) <-> d ∈ m_changes h /\ d <> c).
  { destruct (remove_change_removes h c O Hc) as (h' & E' & [_ _ Hch _ _ _ _]). unfold drh_remove_change in E'. rewrite Ef in E'. by apply drh_remove_change_nts_ok in E' as (_ & _ & <-). }
  assert (Hl : S (length (delete pos (m_changes h))) = length (m_changes h)) by (pose proof (Permutation_length (delete_perm _ _ _ Hp)) as P; by simpl in P).
  rewrite <- Em in Hp. generalize (dropped_ok h1 pos c O1 Hp). rewrite Eh, Hb. subst a. intros D.
  assert (Hfull : forall g, drh_ok g -> m_isHistoryFull g = false -> drh_ok (sync_unread (set_m_changes g (m_changes g) false))).
  { intros g G Eg. unfold sync_unread. apply ok_counters. replace (set_m_changes g (m_changes g) false) with g; [done|]. destruct g. simpl in *. by subst. }
  destruct ok.
  - destruct Hok as (i & Ei & Hi). cbn [instances_ base_remove with_reader set_m_changes]. rewrite Ei in D |- *. unfold without in *. destruct (erase_if (Nat.eqb (rc_addr c)) (cache_changes i)) as [b l] eqn:Ee. simpl in D.
    assert (El : b = false -> l = cache_changes i). { unfold erase_if in Ee. intros Hbf. destruct (index_of _ _); by simplify_eq. }
    assert (Hupd : b = false -> update_instance (base_remove h1 pos c) (rc_handle c) (set_cache_changes i l) = base_remove h1 pos c).
    { intros Hf. rewrite (El Hf), set_cache_changes_id. by apply update_instance_id; [apply O1|]. }
    destruct b; split; simpl; try done.
    all: try (apply Hfull; [|by destruct (rc_read c)]).
    all: try (destruct (rc_read c); [by apply ok_counters|done]); try (rewrite Hupd in D by done; done).
    all: try (destruct (rc_read c); simpl; rewrite ?Em; done).
    all: try (split; simpl; destruct (rc_read c); simpl; congruence); try (split; simpl; congruence).
    all: try (by rewrite Em).
    all: try (intros j Hj; destruct Hi as [[Hi ->]|[Hi _]]; [|congruence]; rewrite Hj in Hi; injection Hi as ->; unfold without; rewrite Hb, Ee; simpl; try (destruct (rc_read c); simpl; rewrite map_find_update, bool_decide_true by done; by rewrite Ei)).
    all: try (rewrite (El eq_refl), set_cache_changes_id; by rewrite Ei).
    all: intros k j Hj Hne Hsome; (destruct Hi as [[Hi ->]|[Hi _]]; [|done]); try (destruct (rc_read c); simpl; by apply map_update_other); done.
  - destruct Hok as (-> & _ & _ & Hnone). rewrite Hnone in D. split; simpl; try done; [by apply Hfull|intros; congruence].
Qed.

(** ** Reception *)

Lemma limit_within h : qos_ok h -> instance_limit h <= changes_limit h.
Proof.
  intros [Q1 Q2 Q3 Q4 Q5]. unfold instance_limit, changes_limit, max_samples_per_instance_, max_samples_, unlimited, INT32_MAX in *.
  destruct (has_keys_ h), (q_keep_all (qos_ h)); repeat match goal with |- context [?x <=? ?y] => destruct (Z.leb_spec x y) | |- context [?x <? ?y] => destruct (Z.ltb_spec x y) end; lia.
Qed.

(** The instance a change is added to gets it at its place. *)
Record added_to h c i h' : Prop := {
  ad_ok : drh_ok h';
  ad_config : same_config h h';
  ad_changes : m_changes h' = m_changes h;
  ad_instance : exists cs, mapM (deref h) (cache_changes i) = Some cs /\
    map_find (rc_handle c) (instances_ h') = Some (set_cache_changes i (insert_before (insert_position c cs) (rc_addr c) (cache_changes i)));
  ad_available : rc_handle c ∈ (data_available_ h').*1
}.

Lemma add_to_instance_ok h c i : drh_ok h -> c ∈ m_changes h -> (has_keys_ h = true -> rc_assembled c = true) -> map_find (rc_handle c) (instances_ h) = Some i ->
  rc_addr c ∉ cache_changes i -> zlen (cache_changes i) < instance_limit h -> exists h', add_to_instance h c = Some h' /\ added_to h c i h'.
Proof.
  intros O Hc Hass Ei Hnin Hlt. assert (Hki : (rc_handle c, i) ∈ instances_ h) by (apply map_find_Some; [apply O|done]). pose proof (do_inst h O _ _ Hki) as [Hn R L A].
  destruct (mapM_deref h (rc_handle c) (cache_changes i) (do_addr h O) R) as (cs & Ecs & _ & _). unfold add_to_instance. rewrite Ei. simpl. rewrite Ecs. simpl.
  pose proof (limit_within h (do_qos h O)) as Hlim. replace (zlen (cache_changes i) <? changes_limit h) with true by (symmetry; apply Z.ltb_lt; lia). eexists. split; [done|].
  set (l := insert_before _ _ _). assert (P : l ≡ₚ rc_addr c :: cache_changes i) by apply insert_before_perm.
  assert (Hkey : rc_handle c ∈ (instances_ h).*1) by (apply list_elem_of_fmap; by exists (rc_handle c, i)). split; simpl; [|done|done| |].
  - destruct O as [Q K A1 A2 Hna Hid I F Fu N Kl]. split; simpl; try done.
    + destruct Q. by split.
    + unfold keys_sorted. by rewrite map_update_keys.
    + by apply map_emplace_sorted.
    + intros k [->|Hk]%map_emplace_keys; rewrite map_update_keys; auto.
    + intros k j [[-> ->]|[Hj Hne]]%map_update_elem.
      * split; simpl; [rewrite P; by constructor| | |].
        -- apply list.Forall_forall. intros a Ha. assert (Ha' : a ∈ rc_addr c :: cache_changes i) by (by rewrite <- P). apply elem_of_cons in Ha' as [->|Ha']; [by exists c|].
           rewrite list.Forall_forall in R. by apply R.
        -- unfold zlen in *. rewrite (Permutation_length P). simpl. unfold instance_limit in *. change (max_samples_per_instance_ (set_available _ _)) with (max_samples_per_instance_ h). simpl. lia.
        -- intros _. apply map_emplace_keys. by left.
      * destruct (I k j Hj) as [Hn' R' L' A']. split; simpl; [done|done|done|]. intros Hne'. apply map_emplace_keys. right. auto.
    + unfold zlen. rewrite <- (length_fmap fst), map_update_keys, length_fmap. done.
  - exists cs. split; [done|]. rewrite map_find_update, bool_decide_true by done. by rewrite Ei.
  - apply map_emplace_keys. by left.
Qed.

Lemma mapM_same h h1 l : (forall a, a ∈ l -> deref h1 a = deref h a) -> mapM (deref h1) l = mapM (deref h) l.
Proof.
  induction l as [|a l IH]; intros H; [done|]. simpl. rewrite (H a) by left. destruct (deref h a); simpl; [|done]. rewrite IH; [done|]. intros b Hb. apply H. by right.
Qed.

(** A change that is not in the history yet. *)
Definition fresh h c : Prop := forall d, d ∈ m_changes h -> rc_addr d <> rc_addr c /\ matches_change d c = false /\ matches_change c d = false.

Lemma unreferred h k i a : drh_ok h -> (k, i) ∈ instances_ h -> (forall d, d ∈ m_changes h -> rc_addr d <> a) -> a ∉ cache_changes i.
Proof. intros O Hki Hf Ha. pose proof (io_refs _ _ _ (do_inst h O k i Hki)) as R. rewrite list.Forall_forall in R. destruct (R a Ha) as (d & Hd & Ea & _). by apply (Hf d Hd). Qed.

Lemma add_received_ok h c i : drh_ok h -> (has_keys_ h = false -> rc_handle c = c_InstanceHandle_Unknown) -> fresh h c -> (has_keys_ h = true -> rc_assembled c = true) -> map_find (rc_handle c) (instances_ h) = Some i ->
  zlen (cache_changes i) < instance_limit h -> exists r reason h', add_received_change_with_key h c = Some (r, reason, h') /\ drh_ok h' /\ same_config h h' /\
    (if r : bool then reason = NOT_REJECTED /\ (forall d, d ∈ m_changes h' <-> d = c \/ d ∈ m_changes h) /\
       exists cs, mapM (deref h) (cache_changes i) = Some cs /\
         map_find (rc_handle c) (instances_ h') = Some (set_cache_changes i (insert_before (insert_position c cs) (rc_addr c) (cache_changes i))) /\ rc_handle c ∈ (data_available_ h').*1
     else m_changes h' = m_changes h /\ instances_ h' = instances_ h /\ (m_isHistoryFull h = false -> q_preallocated (qos_ h) && (zlen (rc_payload c) >? q_payload_max (qos_ h)) = true)).
Proof.
  intros O Hkc Hf Hass Ei Hlt. assert (Hki : (rc_handle c, i) ∈ instances_ h) by (apply map_find_Some; [apply O|done]). unfold add_received_change_with_key.
  destruct (add_to_reader_history_if_not_full h c) as [[r reason] h1] eqn:E. destruct (add_change_ok h c r reason h1 O Hkc Hf E) as (O1 & Eins & Eav & Eq & Eh & Hin & Hsame & Hsub). destruct r.
  - specialize (Hin eq_refl). assert (Hds : forall a, a ∈ cache_changes i -> deref h1 a = deref h a).
    { intros a Ha. pose proof (io_refs _ _ _ (do_inst h O _ _ Hki)) as R. rewrite list.Forall_forall in R. destruct (R a Ha) as (d & Hd & Ea & _).
      assert (H1 : deref h a = Some d) by (apply deref_Some; [apply O|done]). rewrite H1. apply deref_Some; [apply O1|]. split; [|done]. pose proof E as E'. unfold add_to_reader_history_if_not_full, drh_add_change in E'.
      destruct (m_isHistoryFull h); [done|]. destruct (_ && _); [done|]. injection E' as _ <-. set (b := _ =? _). replace (m_changes (if b then _ else _)) with (insert_before (insert_position c (m_changes h)) c (m_changes h)) by (by destruct b).
      rewrite insert_before_perm. by right. }
    destruct (add_to_instance_ok h1 c i O1 Hin) as (h2 & E2 & [O2 C2 M2 (cs & Ecs & I2) A2]).
    + rewrite Eh. done.
    + by rewrite Eins.
    + apply (unreferred h (rc_handle c)); [done|done|]. intros d Hd. by destruct (Hf d Hd).
    + by destruct (same_config_limits h h1 (conj Eq Eh)) as (_ & _ & _ & _ & ->).
    + rewrite E2. simpl. eexists _, _, _. split; [done|]. split; [done|]. destruct C2 as [C21 C22]. split; [split; congruence|]. unfold add_to_reader_history_if_not_full, drh_add_change in E.
      destruct (m_isHistoryFull h); [done|]. destruct (_ && _); [done|]. injection E as <- E. split; [done|]. split.
      * intros d. rewrite M2. split; [apply Hsub|]. intros [->|Hd]; [done|]. rewrite <- E. set (b := _ =? _).
        replace (m_changes (if b then _ else _)) with (insert_before (insert_position c (m_changes h)) c (m_changes h)) by (by destruct b). rewrite insert_before_perm. by right.
      * exists cs. rewrite <- Ecs. split; [|done]. symmetry. by apply mapM_same.
  - eexists _, _, _. split; [done|]. split; [done|]. split; [done|]. split; [by apply Hsame|]. split; [done|]. intros Hnf. unfold add_to_reader_history_if_not_full, drh_add_change in E. rewrite Hnf in E. by destruct (_ && _).
Qed.

(** The oldest sample of an instance. *)
Definition oldest h i f : Prop := exists rest, cache_changes i = rc_addr f :: rest /\ f ∈ m_changes h.

Lemma oldest_facts h k i f : drh_ok h -> map_find k (instances_ h) = Some i -> oldest h i f -> rc_handle f = k /\ (negb (has_keys_ h) || rc_assembled f) = true.
Proof.
  intros O Ei (rest & Ec & Hf). assert (Hki : (k, i) ∈ instances_ h) by (apply map_find_Some; [apply O|done]). pose proof (io_refs _ _ _ (do_inst h O _ _ Hki)) as R. rewrite Ec in R.
  apply list.Forall_cons in R as [(d & Hd & Ea & Ek & Hass) _]. assert (d = f) as -> by (by apply (addr_inj h); [apply O| | |]). split; [done|]. destruct (has_keys_ h); [|done]. simpl. auto.
Qed.

Lemma make_room_ok h c k i : drh_ok h -> map_find k (instances_ h) = Some i -> exists room h', make_room h c i = Some (room, h') /\
  match room with
  | Some true => zlen (cache_changes i) < q_depth (qos_ h) /\ h' = h \/
                 q_depth (qos_ h) <= zlen (cache_changes i) /\ exists f, oldest h i f /\ rc_time f <= rc_time c /\ removed_from h f h'
  | Some false => False
  | None => h' = h /\ q_depth (qos_ h) <= zlen (cache_changes i) /\ exists f, oldest h i f /\ rc_time c < rc_time f
  end.
Proof.
  intros O Ei. pose proof (qo_depth h (do_qos h O)) as Hd. unfold make_room. rewrite size_t_small by lia. destruct (Z.ltb_spec (zlen (cache_changes i)) (q_depth (qos_ h))) as [Hlt|Hge]; [eexists _, _; split; [done|]; by left|].
  assert (Hki : (k, i) ∈ instances_ h) by (apply map_find_Some; [apply O|done]). pose proof (io_refs _ _ _ (do_inst h O _ _ Hki)) as R.
  destruct (cache_changes i) as [|a rest] eqn:Ec; [unfold zlen in Hge; simpl in Hge; lia|]. apply list.Forall_cons in R as [Ra _]. destruct (referred_deref h k a (do_addr h O) Ra) as (f & Ef & _).
  apply deref_Some in Ef as Hf; [|apply O]. destruct Hf as [Hf Hfa]. assert (Ho : oldest h i f) by (exists rest; by rewrite Ec, Hfa). destruct (oldest_facts h k i f O Ei Ho) as [_ Hb]. simpl. rewrite Ef. simpl.
  rewrite Z.geb_leb. destruct (Z.leb_spec (rc_time f) (rc_time c)) as [Hle|Hgt]; [|eexists _, _; split; [done|]; split; [done|]; split; [done|]; by exists f].
  destruct (remove_change_sub_removes h f O Hf Hb) as (h' & E' & Hr). rewrite E'. simpl. eexists _, _. split; [done|]. right. split; [done|]. by exists f.
Qed.

(** The instance after its oldest sample has gone. *)
Lemma oldest_removed h k i f h' : drh_ok h -> map_find k (instances_ h) = Some i -> oldest h i f -> removed_from h f h' ->
  map_find k (instances_ h') = Some (set_cache_changes i (tail (cache_changes i))) /\ zlen (tail (cache_changes i)) + 1 = zlen (cache_changes i).
Proof.
  intros O Ei Ho [_ _ _ _ _ I _]. destruct (oldest_facts h k i f O Ei Ho) as [<- Hb]. destruct (I i Ei) as [I1 _]. rewrite Hb in I1. destruct Ho as (rest & Ec & _). rewrite Ec in I1 |- *. rewrite without_cons in I1.
  split; [done|]. unfold zlen. simpl. lia.
Qed.

Section Reception.
Context (compute_key : list Z -> option (list Z)).

Lemma keyed_change h c keyed c' : compute_key_for_change compute_key h c = (keyed, c') ->
  rc_addr c' = rc_addr c /\ rc_writer c' = rc_writer c /\ rc_seq c' = rc_seq c /\ rc_time c' = rc_time c /\ rc_payload c' = rc_payload c /\ rc_assembled c' = rc_assembled c /\ rc_read c' = rc_read c /\
  (keyed = true -> has_keys_ h = true -> rc_assembled c' = true) /\ (has_keys_ h = true -> isDefined (rc_handle c) = true -> c' = c) /\ (has_keys_ h = false -> keyed = true /\ rc_handle c' = c_InstanceHandle_Unknown).
Proof.
  unfold compute_key_for_change. destruct (has_keys_ h) eqn:Ek; simpl; [|intros [= <- <-]; by repeat split].
  destruct (rc_assembled c) eqn:Ea; simpl; [|intros [= <- <-]; by repeat split]. destruct (isDefined (rc_handle c)); [intros [= <- <-]; by repeat split|].
  destruct (compute_key (rc_payload c)); intros [= <- <-]; by repeat split.
Qed.

Lemma fresh_keyed h c keyed c' : fresh h c -> compute_key_for_change compute_key h c = (keyed, c') -> fresh h c'.
Proof.
  intros Hf (Ea & Ew & Es & _)%keyed_change d Hd. destruct (Hf d Hd) as (H1 & H2 & H3). unfold matches_change in *. by rewrite Ea, Ew, Es.
Qed.

(** The history after the handling of a change that was received: the invariant,
    and nothing lost or gained beyond what the result says. *)
Definition received_ok h c (r : bool) (reason : SampleRejectedStatusKind) h' : Prop :=
  drh_ok h' /\ same_config h h' /\ (forall d, d ∈ m_changes h' -> d ∈ m_changes h \/ rc_addr d = rc_addr c) /\ (reason <> NOT_REJECTED -> r = false /\ m_changes h' = m_changes h).

Lemma temporary_ok h c r reason h' : drh_ok h -> (has_keys_ h = false -> rc_handle c = c_InstanceHandle_Unknown) -> fresh h c -> add_to_reader_history_if_not_full h c = (r, reason, h') -> received_ok h c r reason h'.
Proof.
  intros O Hkc Hf E. pose proof E as E'. apply add_change_ok in E' as (O' & _ & _ & Eq & Eh & Hin & Hsame & Hsub); [|done|done|done]. split; [done|]. split; [done|]. split; [intros d [->|?]%Hsub; auto|].
  unfold add_to_reader_history_if_not_full in E. destruct (m_isHistoryFull h); [injection E as <- <- <-; done|]. destruct (drh_add_change h c). by injection E as <- <- <-.
Qed.

Lemma received_keep_all_ok h c missing : drh_ok h -> q_keep_all (qos_ h) = true -> fresh h c -> 0 <= missing < 2 ^ 32 -> zlen (m_changes h) < 2 ^ 32 ->
  exists r reason h', received_change_keep_all compute_key h c missing = Some (r, reason, h') /\ received_ok h c r reason h'.
Proof.
  intros O Hka Hf Hm Hz. unfold received_change_keep_all. destruct (compute_key_for_change compute_key h c) as [keyed c'] eqn:Ec. pose proof (keyed_change h c keyed c' Ec) as (Ea & _ & _ & _ & _ & _ & _ & Hass & _ & Hkl0).
  pose proof (fresh_keyed h c keyed c' Hf Ec) as Hf'. destruct keyed; simpl.
  2:{ destruct (add_to_reader_history_if_not_full h c') as [[r reason] h'] eqn:E. eexists _, _, _. split; [done|]. pose proof (temporary_ok h c' r reason h' O (fun H => proj2 (Hkl0 H)) Hf' E) as T. unfold received_ok in *. by rewrite Ea in T. }
  destruct (find_key h (rc_handle c')) as [ok h1] eqn:Ek. destruct (find_key_ok h _ ok h1 O Ek) as (O1 & Em & Eq & Eh & _ & _ & _ & _ & Hok). destruct ok.
  2:{ eexists _, _, _. split; [done|]. split; [done|]. split; [done|]. split; [intros d; rewrite Em; auto|done]. }
  destruct Hok as (i & Ei & _). rewrite Ei. simpl. assert (Hki : (rc_handle c', i) ∈ instances_ h1) by (apply map_find_Some; [apply O1|done]). pose proof (io_limit _ _ _ (do_inst h1 O1 _ _ Hki)) as Hil.
  assert (Hbig : zlen (cache_changes i) <= INT32_MAX). { unfold instance_limit in Hil. rewrite Eq, Hka in Hil. pose proof (do_qos h1 O1) as [Q1 Q2 Q3 _ _]. unfold max_samples_per_instance_, max_samples_, unlimited, INT32_MAX in *.
    destruct (has_keys_ h1); destruct (Z.leb_spec (q_max_samples (qos_ h1)) 0), (Z.leb_spec (q_max_samples_per_instance (qos_ h1)) 0); lia. }
  rewrite size_t_small by (unfold INT32_MAX, zlen in *; lia). destruct (Z.ltb_spec (zlen (cache_changes i) + missing) (max_samples_per_instance_ h1)) as [Hlt|Hge].
  2:{ eexists _, _, _. split; [done|]. split; [done|]. split; [done|]. split; [intros d; rewrite Em; auto|done]. }
  destruct (add_received_ok h1 c' i O1) as (r & reason & h2 & E2 & O2 & C2 & H2); [intros Hk; apply Hkl0; congruence|by intros d Hd; apply Hf'; rewrite <- Em|rewrite Eh; by apply Hass|done|unfold instance_limit; rewrite Eq, Hka; lia|].
  eexists _, _, _. split; [exact E2|]. destruct C2 as [C21 C22]. split; [done|]. split; [split; congruence|]. destruct r.
  - destruct H2 as (-> & Hch & _). split; [|done]. intros d [->|Hd]%Hch; [by right|left; by rewrite <- Em].
  - destruct H2 as (Hch & _). rewrite Hch, Em. split; [auto|done].
Qed.

Lemma received_keep_last_ok h c : drh_ok h -> q_keep_all (qos_ h) = false -> fresh h c ->
  exists r reason h', received_change_keep_last compute_key h c = Some (r, reason, h') /\ drh_ok h' /\ same_config h h' /\ (forall d, d ∈ m_changes h' -> d ∈ m_changes h \/ rc_addr d = rc_addr c).
Proof.
  intros O Hkl Hf. unfold received_change_keep_last. destruct (compute_key_for_change compute_key h c) as [keyed c'] eqn:Ec. pose proof (keyed_change h c keyed c' Ec) as (Ea & _ & _ & _ & _ & _ & _ & Hass & _ & Hkl0).
  pose proof (fresh_keyed h c keyed c' Hf Ec) as Hf'. destruct keyed; simpl.
  2:{ destruct (add_to_reader_history_if_not_full h c') as [[r reason] h'] eqn:E. eexists _, _, _. split; [done|]. destruct (temporary_ok h c' r reason h' O (fun H => proj2 (Hkl0 H)) Hf' E) as (T1 & T2 & T3 & _). rewrite Ea in T3. done. }
  destruct (find_key h (rc_handle c')) as [ok h1] eqn:Ek. destruct (find_key_ok h _ ok h1 O Ek) as (O1 & Em & Eq & Eh & _ & _ & _ & _ & Hok). destruct ok.
  2:{ eexists _, _, _. split; [done|]. split; [done|]. split; [done|]. intros d; rewrite Em; auto. }
  destruct Hok as (i & Ei & _). rewrite Ei. simpl. destruct (make_room_ok h1 c' _ i O1 Ei) as (room & h2 & E2 & H2). rewrite E2. simpl. destruct room as [[]|]; [|done|].
  2:{ destruct H2 as (-> & _). eexists _, _, _. split; [done|]. split; [done|]. split; [done|]. intros d; rewrite Em; auto. }
  assert (Hnext : exists i2, drh_ok h2 /\ same_config h1 h2 /\ map_find (rc_handle c') (instances_ h2) = Some i2 /\ zlen (cache_changes i2) < instance_limit h2 /\ forall d, d ∈ m_changes h2 -> d ∈ m_changes h).
  { destruct H2 as [[Hlt ->]|(Hge & f & Ho & _ & Hr)].
    - exists i. unfold instance_limit. rewrite Eq, Hkl. rewrite Eq in Hlt. do 3 (split; [done|]). split; [done|]. intros d; by rewrite Em.
    - destruct (oldest_removed h1 _ i f h2 O1 Ei Ho Hr) as [Hi2 Hl2]. destruct Hr as [R1 [R21 R22] R3 _ _ _ _]. eexists. split; [done|]. split; [done|]. split; [exact Hi2|]. split; [|intros d [Hd _]%R3; by rewrite <- Em].
      assert (Hki : (rc_handle c', i) ∈ instances_ h1) by (apply map_find_Some; [apply O1|done]). pose proof (io_limit _ _ _ (do_inst h1 O1 _ _ Hki)) as Hil. unfold instance_limit in *. rewrite R21. rewrite Eq, Hkl in *. simpl. lia. }
  destruct Hnext as (i2 & O2 & [C21 C22] & Hi2 & Hl2 & Hs2). destruct (add_received_ok h2 c' i2 O2) as (r & reason & h3 & E3 & O3 & [C31 C32] & H3); [intros Hk; apply Hkl0; congruence|by intros d Hd; apply Hf', Hs2|intros Hk; apply Hass; [done|congruence]|done|done|].
  eexists _, _, _. split; [exact E3|]. split; [done|]. split; [split; congruence|]. destruct r.
  - destruct H3 as (_ & Hch & _). intros d [->|Hd]%Hch; [by right|left; auto].
  - destruct H3 as (Hch & _). rewrite Hch. auto.
Qed.

Lemma received_change_ok h c missing : drh_ok h -> fresh h c -> 0 <= missing < 2 ^ 32 -> zlen (m_changes h) < 2 ^ 32 ->
  exists r reason h', received_change compute_key h c missing = Some (r, reason, h') /\ drh_ok h' /\ same_config h h' /\ (forall d, d ∈ m_changes h' -> d ∈ m_changes h \/ rc_addr d = rc_addr c).
Proof.
  intros O Hf Hm Hz. unfold received_change. destruct (_ || _); [|eexists _, _, _; split; [done|]; split; [done|]; split; [done|]; auto]. destruct (q_keep_all (qos_ h)) eqn:Eq; [|by apply received_keep_last_ok].
  destruct (received_keep_all_ok h c missing O Eq Hf Hm Hz) as (r & reason & h' & E & H1 & H2 & H3 & _). eauto 10.
Qed.
End Reception.
