(* ===== verification/DataReaderHistoryRuns.v ===== *)
(** * Runs of the history of a data reader

    The operations of [DataReaderHistory] in any order, as the reader and the
    application call them, and what holds in every state they reach. *)

From Stdlib Require Import Sorted.
From S2P Require Import Prelude SequenceNumber LimitedVector ParameterList ReaderProxy Handles DataReaderInstance DataReaderHistory DataReaderHistoryInv.

Implicit Types (h : DataReaderHistory) (c d : RChange) (k : InstanceHandle_t) (a : nat) (i : DataReaderInstance).

(** ** The remaining operations keep the invariant *)

(** The same change with other contents. *)
Definition same_change h c c' : Prop :=
  rc_addr c' = rc_addr c /\ rc_writer c' = rc_writer c /\ rc_seq c' = rc_seq c /\ (has_keys_ h = false -> rc_handle c' = rc_handle c) /\
  ((exists k i, (k, i) ∈ instances_ h /\ rc_addr c ∈ cache_changes i) -> rc_handle c' = rc_handle c /\ (has_keys_ h = true -> rc_assembled c = true -> rc_assembled c' = true)).

Lemma pointwise_ok h l : drh_ok h -> Forall2 (same_change h) (m_changes h) l -> drh_ok (set_m_changes h l (m_isHistoryFull h)).
Proof.
  intros O F2. assert (Ea : rc_addr <$> l = rc_addr <$> m_changes h). { clear -F2. induction F2 as [|c c' cs l (E & _) _ IH]; [done|]. by rewrite !fmap_cons, E, IH. }
  assert (Hback : forall c', c' ∈ l -> exists c, c ∈ m_changes h /\ same_change h c c').
  { intros c' [n Hn]%list_elem_of_lookup. destruct (Forall2_lookup_r _ _ _ _ _ F2 Hn) as (c & Hc & Hs). exists c. split; [by apply list_elem_of_lookup_2 with n|done]. }
  pose proof (Forall2_length F2) as Hlen. destruct O as [Q K A1 A2 Hn Hi I F Fu N Kl]. split; simpl; try done.
  - destruct Q. by split.
  - by rewrite Ea.
  - intros c' d' Hc' Hd' Hm. destruct (Hback c' Hc') as (c & Hc & Sc), (Hback d' Hd') as (d & Hd & Sd). assert (c = d) as <-.
    { apply Hi; [done|done|]. unfold matches_change in *. destruct Sc as (_ & S1 & S2 & _), Sd as (_ & S3 & S4 & _). by rewrite S1, S2, S3, S4 in Hm. }
    apply (addr_inj (set_m_changes h l (m_isHistoryFull h))); simpl; [by rewrite Ea|done|done|]. destruct Sc as (-> & _), Sd as (-> & _). done.
  - intros k i Hki. destruct (I k i Hki) as [Hnd R L A]. split; [done| |done|done]. apply list.Forall_forall. intros a Ha. rewrite list.Forall_forall in R. destruct (R a Ha) as (c & Hc & Eca & Ek & Hass).
    apply list_elem_of_lookup in Hc as [n Hcn]. destruct (Forall2_lookup_l _ _ _ _ _ F2 Hcn) as (c' & Hc' & (S1 & _ & _ & _ & S4)). destruct S4 as [S4 S5]; [exists k, i; by rewrite Eca|].
    exists c'. split; [by apply list_elem_of_lookup_2 with n|]. split; [congruence|]. split; [congruence|]. intros Hk. simpl in Hk. auto.
  - unfold zlen in *. by rewrite <- Hlen.
  - unfold zlen in *. by rewrite <- Hlen.
  - intros Hk. apply list.Forall_forall. intros c' Hc'. destruct (Hback c' Hc') as (c & Hc & (_ & _ & _ & S & _)). rewrite (S Hk). specialize (Kl Hk). rewrite list.Forall_forall in Kl. auto.
Qed.

Lemma modify_ok h a f : drh_ok h -> (forall c, c ∈ m_changes h -> rc_addr c = a -> same_change h c (f c)) -> drh_ok (modify h a f).
Proof.
  intros O Hf. apply pointwise_ok; [done|]. assert (Hall : Forall (fun c => c ∈ m_changes h) (m_changes h)) by (by apply list.Forall_forall).
  induction Hall as [|c l Hc Hl IH]; simpl; constructor; [|done]. destruct (Nat.eqb_spec (rc_addr c) a); [auto|]. by repeat split.
Qed.

Lemma update_state_cache limit n i kd g s r n' i' : update_state limit n i kd g s = Some (r, n', i') -> cache_changes i' = cache_changes i.
Proof.
  assert (Hset : forall i, cache_changes (writer_set limit i g s) = cache_changes i) by (intros j; unfold writer_set; by destruct (index_of _ _)).
  assert (Hdis : forall n i r n' i', writer_dispose limit n i g s = (r, n', i') -> cache_changes i' = cache_changes i).
  { intros n0 j r0 n1 j'. unfold writer_dispose. destruct (current_owner j). destruct (_ || _); [|intros [= _ _ <-]; apply Hset]. destruct (_ =? _); simpl; destruct (instance_state j); intros [= _ _ <-]; by rewrite Hset. }
  assert (Hun : forall n i r n' i', writer_unregister n i g = (r, n', i') -> cache_changes i' = cache_changes i).
  { intros n0 j r0 n1 j'. unfold writer_unregister. destruct (swap_remove_if _ _) as [[] l]; [|by intros [= _ _ <-]]. unfold drop_owner. simpl. destruct (bool_decide _); [destruct (is_alive_state _)|]; destruct (_ && _); by intros [= _ _ <-]. }
  intros E. unfold update_state in E. apply bind_Some in E as ([n1 i1] & E1 & E). assert (H1 : cache_changes i1 = cache_changes i).
  { unfold account in E1. destruct (has_been_accounted_ i); [by injection E1 as <- <-|]. destruct (_ && _); [|done]. by injection E1 as <- <-. }
  rewrite <- H1. destruct kd.
  - unfold writer_alive in E. apply bind_Some in E as ([w|] & _ & E); [|injection E as <- <- <-; apply Hset]. apply bind_Some in E as ([n2 i2] & E2 & E). injection E as <- <- <-. rewrite Hset.
    unfold revive_instance in E2. simpl in E2. destruct (instance_state i1); [by injection E2 as <- <-|by injection E2 as <- <-|]. destruct (_ =? _); [|done]. by injection E2 as <- <-.
  - injection E as E. by apply Hdis in E.
  - injection E as E. by apply Hun in E.
  - destruct (writer_dispose _ _ _ _ _) as [[r1 n3] i3] eqn:Ed. destruct (writer_unregister _ _ _) as [[r2 n4] i4] eqn:Eu. injection E as <- <- <-. apply Hun in Eu. apply Hdis in Ed. congruence.
Qed.

Lemma writer_removed_cache n i g r n' i' : writer_removed n i g = (r, n', i') -> cache_changes i' = cache_changes i.
Proof.
  unfold writer_removed, writer_unregister. destruct (has_been_accounted_ i); [|by intros [= _ _ <-]]. destruct (swap_remove_if _ _) as [[] l]; [|by intros [= _ _ <-]]. unfold drop_owner. simpl.
  destruct (bool_decide _); [destruct (is_alive_state _)|]; destruct (_ && _); by intros [= _ _ <-].
Qed.

Lemma deadline_missed_cache i : cache_changes (deadline_missed i) = cache_changes i.
Proof. unfold deadline_missed. destruct (bool_decide _); [|done]. destruct (swap_remove_if _ _) as [[] l]; [|done]. simpl. destruct (_ && _); by destruct (is_alive_state _). Qed.

Lemma remove_other_owners_ok l h owner h' : drh_ok h -> (forall a c, a ∈ l -> deref h a = Some c -> (negb (has_keys_ h) || rc_assembled c) = true) ->
  remove_other_owners h owner l = Some h' -> drh_ok h' /\ same_config h h'.
Proof.
  revert h. induction l as [|a l IH]; intros h O Hass E; cbn [remove_other_owners] in E; [by injection E as <-|]. apply bind_Some in E as (c & Ec & E). destruct (bool_decide _).
  - destruct (remove_change_at_removes h a c O Ec (Hass a c (list_elem_of_here _ _) Ec)) as (h1 & E1 & [O1 [C1 C2] Ch _ _ _ _]). rewrite E1 in E. simpl in E. destruct (IH h1 O1) as [O2 [C3 C4]]; [|done|].
    + intros b d Hb Hd. rewrite C2. apply (Hass b d); [by right|]. apply deref_Some in Hd as [Hd Eb]; [|apply O1]. apply deref_Some; [apply O|]. split; [by apply Ch in Hd as [? _]|done].
    + split; [done|]. split; congruence.
  - apply (IH h O); [|done]. intros b d Hb. apply Hass. by right.
Qed.

Lemma update_instance_nts_ok h a r h' : drh_ok h -> update_instance_nts h a = Some (r, h') -> drh_ok h' /\ same_config h h'.
Proof.
  intros O E. unfold update_instance_nts in E. apply bind_Some in E as (c & Ec & E). apply bind_Some in E as (i & Ei & E). destruct (rc_read c); [done|]. apply bind_Some in E as ([[ret n] i'] & Eu & E).
  apply update_state_cache in Eu as Hcache. set (h1 := modify _ _ _) in E. assert (O1 : drh_ok h1).
  { apply modify_ok; [|intros d Hd Ea; by repeat split]. apply ok_counters. by apply (ok_update_state h _ i). }
  destruct (_ && _); [|injection E as <- <-; done]. apply bind_Some in E as (l & El & E). case_bool_decide; [|done]. apply bind_Some in E as (h2 & E2 & E). injection E as <- <-.
  apply remove_other_owners_ok in E2 as [O2 C2]; [done|done|].
  intros b d Hb Hd. assert (Hb' : b ∈ cache_changes i') by (rewrite <- (take_drop (S (lower_bound c l))); apply elem_of_app; by right). assert (Hki : (rc_handle c, i') ∈ instances_ h1).
  { simpl. apply map_find_Some; [unfold keys_sorted; rewrite map_update_keys; apply O|]. rewrite map_find_update, bool_decide_true by done. by rewrite Ei. }
  pose proof (io_refs _ _ _ (do_inst h1 O1 _ _ Hki)) as R. rewrite list.Forall_forall in R. destruct (R b Hb') as (d' & Hd' & Ea & _ & Hass). assert (E' : deref h1 b = Some d') by (apply deref_Some; [apply O1|done]).
  rewrite Hd in E'. injection E' as <-. destruct (has_keys_ h1); [|done]. simpl. auto.
Qed.

Lemma drh_remove_nts_config h pos r h' : drh_remove_change_nts h pos = Some (r, h') -> same_config h h'.
Proof.
  intros E. unfold drh_remove_change_nts in E. apply bind_Some in E as (c & _ & E). destruct (gone_from _ _ _); [|by injection E as <- <-]. injection E as <- <-.
  destruct (_ || _); [|done]. destruct (map_find _ _); [|done]. by destruct (rc_read c).
Qed.

(** The loop over the changes of a writer ends, and takes out what it should. *)
Lemma remove_where_ok fuel pred h pos : drh_ok h -> (length (m_changes h) <= fuel + pos)%nat ->
  exists h', remove_where fuel pred h pos = Some h' /\ drh_ok h' /\ same_config h h' /\ take pos (m_changes h') = take pos (m_changes h) /\
    forall d, d ∈ drop pos (m_changes h') -> pred d = false.
Proof.
  revert h pos. induction fuel as [|fuel IH]; intros h pos O Hlen; cbn [remove_where]; destruct (m_changes h !! pos) as [c|] eqn:Ec.
  - apply lookup_lt_Some in Ec. lia.
  - exists h. apply lookup_ge_None in Ec. rewrite drop_ge by lia. do 4 (split; [done|]). by intros d ?%elem_of_nil.
  - destruct (pred c) eqn:Ep.
    + destruct (drh_remove_change_nts h pos) as [[r h1]|] eqn:E. 2:{ unfold drh_remove_change_nts in E. rewrite Ec in E. simpl in E. by destruct (gone_from _ _ _). }
      destruct (drh_remove_change_nts_ok h pos r h1 O E) as (O1 & -> & Em). simpl. pose proof (Permutation_length (delete_perm _ _ _ Ec)) as P. simpl in P.
      destruct (IH h1 pos O1) as (h2 & E2 & O2 & [C1 C2] & Ht & Hd); [rewrite Em; lia|]. exists h2. destruct (drh_remove_nts_config _ _ _ _ E) as [C3 C4]. split; [done|]. split; [done|].
      split; [split; congruence|]. split; [|done]. rewrite Ht, Em, delete_take_drop. apply take_app_length'. symmetry. apply length_take_le. apply lookup_lt_Some in Ec. lia.
    + destruct (IH h (S pos) O) as (h2 & E2 & O2 & C & Ht & Hd); [lia|]. exists h2. do 3 (split; [done|]). split.
      * apply (f_equal (take pos)) in Ht. by rewrite !take_take, !Nat.min_l in Ht by lia.
      * assert (Hpos : m_changes h2 !! pos = Some c) by (rewrite <- (lookup_take_lt _ (S pos)) by lia; rewrite Ht, lookup_take_lt by lia; done).
        intros d Hin. rewrite (drop_S _ c) in Hin by done. apply elem_of_cons in Hin as [->|Hin]; [done|auto].
  - exists h. apply lookup_ge_None in Ec. rewrite drop_ge by lia. do 4 (split; [done|]). by intros d ?%elem_of_nil.
Qed.

Lemma writer_not_alive_ok h g : drh_ok h -> drh_ok (writer_not_alive h g) /\ same_config h (writer_not_alive h g).
Proof.
  intros O. unfold writer_not_alive. assert (Hfold : forall l n acc, exists n' f, fold_left (remove_writer_from g) l (n, acc) = (n', acc ++ f) /\
    f.*1 = l.*1 /\ Forall2 (fun ki ki' => cache_changes ki'.2 = cache_changes ki.2) l f).
  { induction l as [|[k i] l IH]; intros n acc; [exists n, []; by rewrite app_nil_r|]. cbn [fold_left]. unfold remove_writer_from at 2. simpl. destruct (writer_removed n i g) as [[r n1] i1] eqn:E. apply writer_removed_cache in E.
    destruct (IH n1 (acc ++ [(k, i1)])) as (n' & f & Ef & E1 & F2). exists n', ((k, i1) :: f). rewrite Ef, <- app_assoc. split; [done|]. rewrite !fmap_cons, E1. split; [done|]. by constructor. }
  destruct (Hfold (instances_ h) (counters_ h) []) as (n' & f & -> & Ek & F2). split; [|done]. apply (ok_instances h f n' (reader_ h) O); [unfold keys_sorted; rewrite Ek; apply O|done|].
  intros k i' [m Hm]%list_elem_of_lookup. simpl in Hm. destruct (Forall2_lookup_r _ _ _ _ _ F2 Hm) as ([k0 i] & Hm0 & Ec). simpl in Ec. assert (k0 = k) as ->.
  { assert (H1 : f.*1 !! m = Some k) by (by rewrite list_lookup_fmap, Hm). rewrite Ek, list_lookup_fmap, Hm0 in H1. by injection H1. }
  assert (Hin : (k, i) ∈ instances_ h) by (by apply list_elem_of_lookup_2 with m). exists i. rewrite Ec. split; [done|]. split; [by apply (io_nodup _ _ _ (do_inst h O _ _ Hin))|]. split; [lia|done].
Qed.

Lemma strength_ok h g s h' : drh_ok h -> writer_update_its_ownership_strength_nts h g s = Some h' -> drh_ok h' /\ same_config h h'.
Proof.
  intros O E. unfold writer_update_its_ownership_strength_nts in E. apply bind_Some in E as (l & El & E). injection E as <-. split; [|done]. apply mapM_Some in El.
  assert (Hone : forall i i', writer_update_its_ownership_strength i g s = Some i' -> cache_changes i' = cache_changes i).
  { intros i i'. unfold writer_update_its_ownership_strength. destruct (bool_decide _); [|by intros [= <-]]. destruct (index_of _ _); simpl; [|done]. by intros [= <-]. }
  assert (Ek : l.*1 = (instances_ h).*1). { clear -El. induction El as [|[k i] [k' i'] ls l' E _ IH]; [done|]. simpl in E. apply bind_Some in E as (i1 & _ & [= <- <-]). by rewrite !fmap_cons, IH. }
  apply (ok_instances h l (counters_ h) (reader_ h) O); [unfold keys_sorted; rewrite Ek; apply O|done|]. intros k i' [m Hm]%list_elem_of_lookup.
  destruct (Forall2_lookup_r _ _ _ _ _ El Hm) as ([k0 i] & Hm0 & Ei). simpl in Ei. apply bind_Some in Ei as (i1 & Ei & [= -> ->]). apply Hone in Ei. assert (Hin : (k, i) ∈ instances_ h) by (by apply list_elem_of_lookup_2 with m).
  exists i. rewrite Ei. split; [done|]. split; [by apply (io_nodup _ _ _ (do_inst h O _ _ Hin))|]. split; [lia|done].
Qed.

Lemma mark_all_same h rs l unread : Forall2 (same_change h) l (mark_all rs l unread).1.
Proof.
  revert unread. induction l as [|c l IH]; intros unread; simpl; [constructor|]. assert (Hc : same_change h c c) by (by repeat split). destruct (0 <? unread); [|by constructor; [|apply Forall2_same_length_lookup; split; [done|]; intros; simplify_eq; by repeat split]].
  destruct (_ && _).
  - specialize (IH (unread - 1)). destruct (mark_all rs l (unread - 1)). constructor; [by repeat split|done].
  - specialize (IH unread). destruct (mark_all rs l unread). by constructor.
Qed.

Lemma get_unread_count_ok h mark z h' : drh_ok h -> get_unread_count h mark = Some (z, h') -> drh_ok h' /\ same_config h h'.
Proof.
  intros O E. unfold get_unread_count in E. destruct (_ =? _); [|done]. destruct mark; [|by injection E as <- <-]. pose proof (mark_all_same h (reader_ h) (m_changes h) (total_unread_ (reader_ h))) as F2.
  destruct (mark_all _ _ _) as [l u]. simpl in F2. destruct (u =? 0); [|done]. injection E as <- <-. split; [|done]. apply ok_counters, ok_reader. by apply pointwise_ok.
Qed.

Lemma check_and_remove_ok h k r h' : drh_ok h -> check_and_remove_instance h k = Some (r, h') -> drh_ok h' /\ same_config h h'.
Proof.
  intros O E. unfold check_and_remove_instance in E. apply bind_Some in E as (i & Ei & E). destruct (cache_changes i) as [|x xs] eqn:Ec; [|by injection E as <- <-]. injection E as <- <-.
  assert (Hmine : forall k' j, (k', j) ∈ instances_ h -> k' = k -> cache_changes j = []). { intros k' j Hj ->. apply map_find_Some in Hj; [|apply O]. by rewrite Ei in Hj; injection Hj as <-. }
  destruct O as [Q K A1 A2 Hn Hi I F Fu N Kl]. assert (Hav : forall k', k' ∈ (map_erase k (data_available_ h)).*1 -> k' <> k /\ k' ∈ (data_available_ h).*1).
  { intros k' ([k1 u] & -> & [Hne Hin]%list_elem_of_filter)%list_elem_of_fmap. split; [done|]. apply list_elem_of_fmap. by exists (k1, u). }
  assert (Hav2 : forall k', k' <> k -> k' ∈ (data_available_ h).*1 -> k' ∈ (map_erase k (data_available_ h)).*1).
  { intros k' Hne ([k1 u] & -> & Hin)%list_elem_of_fmap. apply list_elem_of_fmap. exists (k1, u). split; [done|]. by apply list_elem_of_filter. }
  destruct (_ && _); (split; [|done]); split; simpl; try done; try (destruct Q; by split); try (by apply map_erase_sorted).
  - intros k' [Hne Hk']%Hav. apply A2 in Hk' as ([k1 j] & -> & Hj)%list_elem_of_fmap. apply list_elem_of_fmap. exists (k1, j). split; [done|]. by apply list_elem_of_filter.
  - intros k' j [Hne Hj]%list_elem_of_filter. destruct (I k' j Hj) as [Hnd R L A]. split; simpl; [done|done|done|]. intros Hc. apply Hav2; [done|auto].
  - unfold map_erase, max_instances_ in *. simpl in *. pose proof (length_filter (fun kv : InstanceHandle_t * DataReaderInstance => kv.1 <> k) (instances_ h)). unfold zlen in *. lia.
  - intros k' [Hne Hk']%Hav. auto.
  - intros k' j Hj. destruct (I k' j Hj) as [Hnd R L A]. split; simpl; [done|done|done|]. intros Hc. apply Hav2; [|auto]. intros ->. apply Hc. by apply (Hmine k j).
Qed.

Definition set_rc_assembled c : RChange :=
  mkRC (rc_addr c) (rc_kind c) (rc_writer c) (rc_seq c) (rc_time c) (rc_handle c) (rc_payload c) true (rc_read c) (rc_strength c)
    (rc_disposed_generation c) (rc_no_writers_generation c).

Section Runs.
Context (compute_key : list Z -> option (list Z)).

(** The last fragment of a change has arrived. *)
Lemma completed_change_ok h a c missing r reason h' : drh_ok h -> deref h a = Some c -> rc_assembled c = false ->
  completed_change compute_key (modify h a set_rc_assembled) a missing = Some (r, reason, h') -> 0 <= missing < 2 ^ 32 -> drh_ok h' /\ same_config h h'.
Proof.
  intros O Ea Hna E Hm. set (h0 := modify h a set_rc_assembled) in *. apply deref_Some in Ea as Hc; [|apply O]. destruct Hc as [Hc Hca].
  assert (Huniq : forall d, d ∈ m_changes h -> rc_addr d = a -> d = c) by (intros d Hd Hda; apply (addr_inj h); [apply O|done|done|congruence]).
  assert (Hunref : has_keys_ h = true -> forall k i, (k, i) ∈ instances_ h -> a ∉ cache_changes i).
  { intros Hk k i Hki Ha. pose proof (io_refs _ _ _ (do_inst h O k i Hki)) as R. rewrite list.Forall_forall in R. destruct (R a Ha) as (d & Hd & Eda & _ & Hass). rewrite (Huniq d Hd Eda) in Hass. by rewrite Hass in Hna. }
  assert (O0 : drh_ok h0). { apply modify_ok; [done|]. intros d Hd Hda. by repeat split. }
  assert (Ec0 : deref h0 a = Some (set_rc_assembled c)).
  { apply deref_Some; [apply O0|]. split; [|done]. subst h0. simpl. apply list_elem_of_In, List.in_map_iff. exists c. split; [by rewrite Hca, Nat.eqb_refl|by apply list_elem_of_In]. }
  unfold completed_change in E. rewrite Ec0 in E. simpl in E. destruct (compute_key_for_change compute_key h0 (set_rc_assembled c)) as [keyed c'] eqn:Ek.
  pose proof (keyed_change compute_key h0 _ keyed c' Ek) as (K1 & K2 & K3 & K4 & K5 & K6 & K7 & K8 & K9 & K10). simpl in *. set (h1 := modify h0 a (fun _ => c')) in *.
  assert (O1 : drh_ok h1).
  { apply modify_ok; [done|]. intros d Hd Hda. assert (d = set_rc_assembled c) as ->.
    { assert (Hd' : deref h0 a = Some d) by (apply deref_Some; [apply O0|done]). rewrite Ec0 in Hd'. by injection Hd'. }
    split; [done|]. split; [done|]. split; [done|]. split.
    - intros Hk. destruct (K10 Hk) as [_ ->]. simpl. pose proof (do_keyless h O Hk) as F. rewrite list.Forall_forall in F. by rewrite (F c Hc).
    - intros (k & i & Hki & Ha). simpl in Ha. rewrite Hca in Ha. destruct (has_keys_ h) eqn:Hk; [by destruct (Hunref eq_refl k i Hki)|]. split; [|done]. destruct (K10 eq_refl) as [_ ->]. simpl.
      pose proof (do_keyless h O Hk) as F. rewrite list.Forall_forall in F. by rewrite (F c Hc). }
  assert (C1 : same_config h h1) by done. assert (Hc1 : c' ∈ m_changes h1).
  { subst h1. simpl. apply list_elem_of_In, List.in_map_iff. exists (set_rc_assembled c). split; [simpl; by rewrite Hca, Nat.eqb_refl|]. apply list_elem_of_In. apply deref_Some in Ec0 as [? _]; [done|apply O0]. }
  clear Ek. destruct keyed; simpl in E; [|injection E as <- <- <-; done]. destruct (find_key h1 (rc_handle c')) as [ok h2] eqn:Ef. destruct (find_key_ok h1 _ ok h2 O1 Ef) as (O2 & Em & Eq & Eh & _ & _ & _ & Hinst & Hok).
  assert (C2 : same_config h h2) by (destruct C1; split; congruence). destruct ok; simpl in E; [|injection E as <- <- <-; done]. destruct (isDefined (rc_handle c')) eqn:Hdef; simpl in E; [|injection E as <- <- <-; done].
  destruct Hok as (i & Ei & _). rewrite Ei in E. simpl in E. assert (Hkeys : has_keys_ h = true) by (destruct (has_keys_ h); [done|]; destruct (K10 eq_refl) as [_ Hu]; by rewrite Hu in Hdef).
  assert (Hadd : forall g j, drh_ok g -> same_config h g -> c' ∈ m_changes g -> map_find (rc_handle c') (instances_ g) = Some j -> a ∉ cache_changes j ->
     zlen (cache_changes j) < instance_limit g -> exists g', add_to_instance g c' = Some g' /\ drh_ok g' /\ same_config h g').
  { intros g j G [Cg1 Cg2] Hcg Hj Hun Hl. destruct (add_to_instance_ok g c' j G Hcg) as (g' & E' & [G' [C3 C4] _ _ _]); [intros _; by apply K8|done| |done|].
    - by rewrite K1, Hca.
    - exists g'. split; [done|]. split; [done|]. split; congruence. }
  assert (Hki : (rc_handle c', i) ∈ instances_ h2) by (apply map_find_Some; [apply O2|done]).
  assert (Hun2 : a ∉ cache_changes i) by (destruct (Hinst _ _ Hki) as [->|Hx]; [apply not_elem_of_nil|by apply (Hunref Hkeys _ i Hx)]).
  rewrite <- Em in Hc1. rewrite !(proj1 C2) in E. destruct (q_keep_all (qos_ h)) eqn:Eka.
  - pose proof (io_limit _ _ _ (do_inst h2 O2 _ _ Hki)) as Hil. unfold instance_limit in Hil. rewrite (proj1 C2), Eka in Hil.
    assert (Hbig : max_samples_per_instance_ h2 <= INT32_MAX). { pose proof (do_qos h2 O2) as [Q1 Q2 Q3 _ _]. unfold max_samples_per_instance_, max_samples_, unlimited, INT32_MAX.
      destruct (has_keys_ h2); destruct (Z.leb_spec (q_max_samples (qos_ h2)) 0), (Z.leb_spec (q_max_samples_per_instance (qos_ h2)) 0); lia. }
    rewrite size_t_small in E by (unfold INT32_MAX, zlen in *; lia). destruct (Z.ltb_spec (zlen (cache_changes i) + missing) (max_samples_per_instance_ h2)); [|injection E as <- <- <-; done].
    destruct (Hadd h2 i O2 C2 Hc1 Ei Hun2) as (g' & Eg & G1 & G2); [unfold instance_limit; rewrite (proj1 C2), Eka; lia|]. rewrite Eg in E. by injection E as <- <- <-.
  - destruct (make_room_ok h2 c' _ i O2 Ei) as (room & h3 & E3 & H3). rewrite E3 in E. simpl in E. destruct room as [[]|]; [|done|destruct H3 as (-> & _); injection E as <- <- <-; done].
    destruct H3 as [[Hlt ->]|(Hge & f & Ho & _ & Hr)].
    + destruct (Hadd h2 i O2 C2 Hc1 Ei Hun2) as (g' & Eg & G1 & G2); [unfold instance_limit; rewrite (proj1 C2), Eka in *; lia|]. rewrite Eg in E. by injection E as <- <- <-.
    + destruct (oldest_removed h2 _ i f h3 O2 Ei Ho Hr) as [Hi3 Hl3]. pose proof Hr as [O3 [C31 C32] Ch3 _ _ I3 Ot3]. assert (C3 : same_config h h3) by (destruct C2; split; congruence).
      assert (Hfa : f <> c'). { intros ->. destruct Ho as (rest & Ecache & _). apply Hun2. rewrite Ecache, K1, Hca. by left. }
      destruct (Hadd h3 (set_cache_changes i (tail (cache_changes i))) O3 C3) as (g' & Eg & G1 & G2); [apply Ch3; by split|done| | |rewrite Eg in E; by injection E as <- <- <-].
      * simpl. intros Ha. apply Hun2. destruct (cache_changes i); [done|by right].
      * pose proof (io_limit _ _ _ (do_inst h2 O2 _ _ Hki)) as Hil. unfold instance_limit in *. rewrite C31. rewrite (proj1 C2), Eka in *. simpl. lia.
Qed.

(** ** Steps *)

Inductive drh_op :=
  | DReceive (c : RChange) (missing : Z)
  | DComplete (a : nat) (missing : Z)
  | DNotify (a : nat)
  | DRemove (a : nat)
  | DRemoveAt (a : nat)
  | DUnmatch (g : GUID_t) (last : SequenceNumber_t)
  | DNotAlive (g : GUID_t)
  | DDeadline (k : InstanceHandle_t) (t : Z) (missed : bool)
  | DStrength (g : GUID_t) (strength : Z)
  | DMarkRead
  | DAccess (a : nat)
  | DViewed (k : InstanceHandle_t)
  | DCheck (k : InstanceHandle_t)
  | DReader (rs : ReaderState).

Definition drh_step h (op : drh_op) : option DataReaderHistory :=
  match op with
  | DReceive c missing => '(_, _, h) ← received_change compute_key h c missing; Some h
  | DComplete a missing => '(_, _, h) ← completed_change compute_key (modify h a set_rc_assembled) a missing; Some h
  | DNotify a => '(_, h) ← update_instance_nts h a; Some h
  | DRemove a => c ← deref h a; '(_, h) ← remove_change_sub h c; Some h
  | DRemoveAt a => '(_, h) ← remove_change_at h a; Some h
  | DUnmatch g last => writer_unmatched h g last
  | DNotAlive g => Some (writer_not_alive h g)
  | DDeadline k t missed => Some (set_next_deadline h k t missed).2
  | DStrength g strength => writer_update_its_ownership_strength_nts h g strength
  | DMarkRead => '(_, h) ← get_unread_count h true; Some h
  | DAccess a => c ← deref h a; end_sample_access (change_was_processed_nts h c true) a true
  | DViewed k => instance_viewed_nts h k
  | DCheck k => '(_, h) ← check_and_remove_instance h k; Some h
  | DReader rs => Some (with_reader h rs)
  end.

(** What the callers see to: a change that is received is a new one, a change
    that is completed was not complete, and what is taken out of an instance or
    expires is a whole change. *)
Definition allowed h (op : drh_op) : Prop :=
  match op with
  | DReceive c missing => fresh h c /\ 0 <= missing < 2 ^ 32 /\ zlen (m_changes h) < 2 ^ 32
  | DComplete a missing => (forall c, deref h a = Some c -> rc_assembled c = false) /\ 0 <= missing < 2 ^ 32
  | DRemove a | DRemoveAt a => forall c, deref h a = Some c -> (negb (has_keys_ h) || rc_assembled c) = true
  | _ => True
  end.

Inductive reaches (h : DataReaderHistory) : DataReaderHistory -> Prop :=
  | reaches_start : reaches h h
  | reaches_step h1 op h2 : reaches h h1 -> allowed h1 op -> drh_step h1 op = Some h2 -> reaches h h2.

Lemma drh_step_ok h op h' : drh_ok h -> allowed h op -> drh_step h op = Some h' -> drh_ok h' /\ same_config h h'.
Proof.
  intros O Hal E. destruct op; cbn [drh_step] in E.
  - apply bind_Some in E as ([[r reason] h1] & E1 & [= <-]). destruct Hal as (Hf & Hm & Hz). destruct (received_change_ok compute_key h c missing O Hf Hm Hz) as (r' & rs & h2 & E2 & O2 & C2 & _). rewrite E1 in E2. by injection E2 as -> -> ->.
  - apply bind_Some in E as ([[r reason] h1] & E1 & [= <-]). destruct Hal as [Hal Hm]. destruct (deref h a) as [c|] eqn:Ec; [by apply (completed_change_ok h a c missing r reason h1 O Ec (Hal c eq_refl) E1)|].
    exfalso. unfold completed_change in E1. apply bind_Some in E1 as (c & Ec' & _). apply find_Some_elem in Ec' as [Hc Ea]. simpl in Hc. apply list_elem_of_In, List.in_map_iff in Hc as (d & Ed & Hd).
    apply list_elem_of_In in Hd. apply Nat.eqb_eq in Ea. assert (deref h a = Some d) by (apply deref_Some; [apply O|]; split; [done|]; destruct (Nat.eqb_spec (rc_addr d) a); subst; done). congruence.
  - apply bind_Some in E as ([r h1] & E1 & [= <-]). by apply update_instance_nts_ok in E1.
  - apply bind_Some in E as (c & Ec & E). apply bind_Some in E as ([r h1] & E1 & [= <-]). specialize (Hal c Ec). apply deref_Some in Ec as [Hc _]; [|apply O].
    destruct (remove_change_sub_removes h c O Hc Hal) as (h2 & E2 & [R1 R2 _ _ _ _ _]). rewrite E1 in E2. by injection E2 as -> ->.
  - apply bind_Some in E as ([r h1] & E1 & [= <-]). destruct (deref h a) as [c|] eqn:Ec; [|unfold remove_change_at in E1; by rewrite Ec in E1].
    destruct (remove_change_at_removes h a c O Ec (Hal c Ec)) as (h2 & E2 & [R1 R2 _ _ _ _ _]). rewrite E1 in E2. by injection E2 as -> ->.
  - destruct (remove_where_ok (length (m_changes h)) (fun c => bool_decide (g = rc_writer c) && sn_ltb last (rc_seq c)) h 0 O) as (h2 & E2 & O2 & C2 & _); [lia|]. unfold writer_unmatched in E. rewrite E in E2. by injection E2 as ->.
  - injection E as <-. by apply writer_not_alive_ok.
  - injection E as <-. unfold set_next_deadline. destruct (map_find k (instances_ h)) as [i|] eqn:Ei; [|done]. split; [|done]. apply (ok_update_state h k i); [done|done|]. destruct missed; [apply deadline_missed_cache|done].
  - by apply strength_ok in E.
  - apply bind_Some in E as ([z h1] & E1 & [= <-]). by apply get_unread_count_ok in E1.
  - apply bind_Some in E as (c & Ec & E). unfold change_was_processed_nts in E. assert (Hg : forall g, drh_ok g -> same_config h g -> end_sample_access g a true = Some h' -> drh_ok h' /\ same_config h h').
    { intros g G Cg E'. unfold end_sample_access in E'. apply bind_Some in E' as (d & _ & [= <-]). destruct (negb (rc_read d)); [|done]. split; [|done]. apply ok_reader, modify_ok; [done|]. intros x Hx _. by repeat split. }
    destruct (_ && _); (apply Hg in E; [done| |done]); [by apply ok_counters|done].
  - unfold instance_viewed_nts in E. apply bind_Some in E as (i & Ei & [= <-]). case_bool_decide; [|done]. split; [|done]. apply ok_counters. by apply (ok_update_state h k i).
  - apply bind_Some in E as ([r h1] & E1 & [= <-]). by apply check_and_remove_ok in E1.
  - injection E as <-. split; [by apply ok_reader|done].
Qed.

Lemma start_ok has_keys qos : qos_ok (DataReaderHistory_new has_keys qos) -> drh_ok (DataReaderHistory_new has_keys qos).
Proof.
  intros Q. split; simpl; try done.
  - unfold keys_sorted. destruct has_keys; repeat constructor.
  - unfold keys_sorted. destruct has_keys; repeat constructor.
  - by destruct has_keys.
  - constructor.
  - by intros c d ?%elem_of_nil.
  - intros k i Hki. destruct has_keys; [by apply elem_of_nil in Hki|]. apply list_elem_of_singleton in Hki as [= -> ->]. split; simpl; [constructor|constructor| |done].
    unfold zlen, instance_limit, max_samples_per_instance_, max_samples_, unlimited, INT32_MAX. simpl. destruct Q as [Q1 Q2 Q3 _ _]. simpl in *. destruct (q_keep_all qos); [|lia]. destruct (Z.leb_spec (q_max_samples qos) 0); lia.
  - intros Hm. unfold zlen. simpl. lia.
  - unfold zlen. pose proof (max_instances_pos (DataReaderHistory_new has_keys qos)). destruct has_keys; simpl; lia.
Qed.

Lemma reaches_ok h h' : drh_ok h -> reaches h h' -> drh_ok h' /\ same_config h h'.
Proof.
  intros O R. induction R as [|h1 op h2 _ [O1 [C1 C2]] Hal E]; [done|]. destruct (drh_step_ok h1 op h2 O1 Hal E) as [O2 [C3 C4]]. split; [done|]. split; congruence.
Qed.

(** A rejection by the number of samples, in a history that really is full. *)
Lemma full_history h : drh_ok h -> q_max_samples (qos_ h) <> 0 -> zlen (m_changes h) < 2 ^ 32 -> m_isHistoryFull h = true -> max_samples_ h <= zlen (m_changes h).
Proof.
  intros O Hq Hz Fu. pose proof (do_really_full h O Fu) as E. pose proof (qo_samples h (do_qos h O)) as Q. unfold max_samples_, unlimited, size_t, u64 in *. destruct (Z.leb_spec (q_max_samples (qos_ h)) 0) as [Hle|Hgt].
  - rewrite <- (Z.mod_add _ 1), Z.mod_small in E by lia. lia.
  - rewrite Z.mod_small in E; lia.
Qed.

(** ** What holds in every run *)

(** C24: Whatever is received, completed, notified, removed, read or unmatched, and in
    whatever order, the history keeps to its QoS: not more samples than [max_samples],
    not more instances than [max_instances], and in no instance more than
    [max_samples_per_instance] with KEEP_ALL or [depth] with KEEP_LAST. *)
Theorem reader_limits_hold has_keys qos h : qos_ok (DataReaderHistory_new has_keys qos) -> reaches (DataReaderHistory_new has_keys qos) h ->
  (0 < q_max_samples qos -> zlen (m_changes h) <= q_max_samples qos) /\ zlen (instances_ h) <= max_instances_ h /\
  forall k i, map_find k (instances_ h) = Some i -> zlen (cache_changes i) <= if q_keep_all qos then max_samples_per_instance_ h else q_depth qos.
Proof.
  intros Q R. destruct (reaches_ok _ h (start_ok _ _ Q) R) as [O [C1 C2]]. simpl in C1. split; [|split; [apply O|]].
  - intros Hm. rewrite <- C1 in *. by apply (do_full h O).
  - intros k i Hi. apply map_find_Some in Hi; [|apply O]. pose proof (io_limit _ _ _ (do_inst h O k i Hi)) as L. unfold instance_limit in L. by rewrite C1 in L.
Qed.

(** C23: In every run no instance refers to a change that has gone, to a change of
    another instance or twice to the same one, an instance with changes can be
    found by the application, and the reception of a new change never fails an
    assertion or follows a dangling pointer. *)
Theorem references_are_sound has_keys qos h : qos_ok (DataReaderHistory_new has_keys qos) -> reaches (DataReaderHistory_new has_keys qos) h ->
  (forall k i a, map_find k (instances_ h) = Some i -> a ∈ cache_changes i ->
     k ∈ (data_available_ h).*1 /\ NoDup (cache_changes i) /\ exists c, deref h a = Some c /\ rc_handle c = k) /\
  forall c missing, fresh h c -> 0 <= missing < 2 ^ 32 -> zlen (m_changes h) < 2 ^ 32 -> is_Some (received_change compute_key h c missing).
Proof.
  intros Q R. destruct (reaches_ok _ h (start_ok _ _ Q) R) as [O _]. split.
  - intros k i a Hi Ha. apply map_find_Some in Hi; [|apply O]. destruct (do_inst h O k i Hi) as [Hn Rf _ A]. split; [apply A; intros E; by rewrite E in Ha; apply elem_of_nil in Ha|]. split; [done|].
    rewrite list.Forall_forall in Rf. apply referred_deref; [apply O|auto].
  - intros c missing Hf Hm Hz. destruct (received_change_ok compute_key h c missing O Hf Hm Hz) as (r & reason & h' & E & _). by rewrite E.
Qed.

(** Adding a change concerns its own instance only. *)
Lemma added_apart h c r reason h' k : add_received_change_with_key h c = Some (r, reason, h') -> k <> rc_handle c ->
  map_find k (instances_ h') = map_find k (instances_ h).
Proof.
  unfold add_received_change_with_key. destruct (add_to_reader_history_if_not_full h c) as [[b reason'] h1] eqn:E1. intros E Hk.
  assert (Ei : instances_ h1 = instances_ h).
  { unfold add_to_reader_history_if_not_full, drh_add_change in E1. destruct (m_isHistoryFull h); [by injection E1 as _ _ <-|].
    destruct (q_preallocated _ && _); injection E1 as _ _ <-; by destruct (_ =? _). }
  rewrite <- Ei. destruct b; [|by injection E as _ _ <-]. apply bind_Some in E as (h2 & E2 & [= _ _ <-]). unfold add_to_instance in E2.
  apply bind_Some in E2 as (i & _ & E2). apply bind_Some in E2 as (l & _ & [= <-]). simpl. by rewrite map_find_update, bool_decide_false.
Qed.

(** C25: With KEEP_LAST a change for an instance that has its [depth] samples
    already takes the place of the oldest one, when the change brings its
    instance with it, fits into the memory and is not older than that one, and
    when the changes that are missing before it leave room: the oldest leaves the
    history, the new one is put in its place in the order of the instance, no
    other sample comes or goes, and the other instances stay as they are.  (The
    counters do change: [read_sample_counted_twice].) *)
Theorem keep_last_replaces_oldest has_keys qos h c i f missing : qos_ok (DataReaderHistory_new has_keys qos) -> reaches (DataReaderHistory_new has_keys qos) h ->
  q_keep_all qos = false -> fresh h c -> compute_key_for_change compute_key h c = (true, c) ->
  missing = 0 \/ 0 < missing /\ zlen (m_changes h) + missing < max_samples_ h ->
  map_find (rc_handle c) (instances_ h) = Some i -> zlen (cache_changes i) = q_depth qos -> oldest h i f -> rc_time f <= rc_time c ->
  q_preallocated qos && (zlen (rc_payload c) >? q_payload_max qos) = false ->
  exists h' cs, received_change compute_key h c missing = Some (true, NOT_REJECTED, h') /\
    (forall d, d ∈ m_changes h' <-> d = c \/ d ∈ m_changes h /\ d <> f) /\
    mapM (deref h) (tail (cache_changes i)) = Some cs /\
    map_find (rc_handle c) (instances_ h') = Some (set_cache_changes i (insert_before (insert_position c cs) (rc_addr c) (tail (cache_changes i)))) /\
    forall k j, k <> rc_handle c -> map_find k (instances_ h) = Some j -> map_find k (instances_ h') = Some j.
Proof.
  intros Q R Hkl Hf Hkey Hmiss Ei Hlen Ho Ht Hpay. destruct (reaches_ok _ h (start_ok _ _ Q) R) as [O [C1 C2]]. simpl in C1, C2. destruct (keyed_change compute_key h c true c Hkey) as (_ & _ & _ & _ & _ & _ & _ & Hass & _ & Hno).
  assert (Hgo : (0 =? missing) || (size_t (zlen (m_changes h) + missing) <? max_samples_ h) = true).
  { destruct Hmiss as [->|[H1 H2]]; [done|]. apply orb_true_iff. right. pose proof (qo_samples h (do_qos h O)). rewrite size_t_small by (unfold max_samples_, unlimited, INT32_MAX, zlen in *; destruct (Z.leb_spec (q_max_samples (qos_ h)) 0); lia). by apply Z.ltb_lt. }
  unfold received_change. rewrite Hgo, C1, Hkl. unfold received_change_keep_last. rewrite Hkey. cbn [negb]. unfold find_key. rewrite Ei. cbn [mbind option_bind]. rewrite Ei. simpl.
  destruct (make_room_ok h c _ i O Ei) as (room & h1 & E1 & H1). rewrite E1. simpl. assert (Hsame : forall f', oldest h i f' -> f' = f).
  { intros f' (r1 & Er1 & Hf1). destruct Ho as (r2 & Er2 & Hf2). rewrite Er1 in Er2. injection Er2 as Ea _. apply (addr_inj h); [apply O|done|done|done]. }
  rewrite C1 in H1. destruct room as [[]|]; [|done|destruct H1 as (_ & _ & f' & Ho' & Hlt); rewrite (Hsame f' Ho') in Hlt; lia].
  destruct H1 as [[Hlt _]|(_ & f' & Ho' & _ & Hr)]; [lia|]. rewrite (Hsame f' Ho') in Hr. destruct (oldest_removed h _ i f h1 O Ei Ho Hr) as [Hi1 Hl1]. destruct (oldest_facts h _ i f O Ei Ho) as [Hfk _]. pose proof Hr as [O1 [C3 C4] Ch1 _ Full1 _ Oth].
  destruct (add_received_ok h1 c (set_cache_changes i (tail (cache_changes i))) O1) as (r & reason & h2 & E2 & _ & _ & H2); [rewrite C4; intros E; by destruct (Hno E)|intros d [Hd _]%Ch1; by apply Hf|rewrite C4; auto|done| |].
  { unfold instance_limit. rewrite C3, C1, Hkl. simpl. lia. }
  destruct r; [|destruct H2 as (_ & _ & Hbad); specialize (Hbad Full1); rewrite C3, C1, Hpay in Hbad; done]. destruct H2 as (-> & Hch & cs & Ecs & I2 & _). simpl in Ecs. exists h2, cs. split; [done|]. split; [|split; [|split]].
  - intros d. rewrite Hch, Ch1. done.
  - rewrite <- Ecs. symmetry. apply mapM_same. intros a Ha. apply map_find_Some in Hi1 as Hki; [|apply O1]. pose proof (io_refs _ _ _ (do_inst h1 O1 _ _ Hki)) as Rf. rewrite list.Forall_forall in Rf.
    destruct (Rf a Ha) as (d & Hd & Ea & _). assert (Hd1 : deref h1 a = Some d) by (apply deref_Some; [apply O1|done]). rewrite Hd1. symmetry. apply deref_Some; [apply O|]. split; [by apply Ch1 in Hd as [? _]|done].
  - exact I2.
  - intros k j Hk Hj. rewrite (added_apart h1 c _ _ h2 k E2 Hk). apply map_find_Some; [apply O1|]. apply Oth; [by apply map_find_Some; [apply O|]|congruence|by rewrite Hfk, Ei].
Qed.

(** The instance a change belongs to, and the samples this instance has. *)
Definition own_handle h c : InstanceHandle_t := rc_handle (compute_key_for_change compute_key h c).2.
Definition samples_of h k : list nat := match map_find k (instances_ h) with Some i => cache_changes i | None => [] end.

(** What each outcome of a change that does not enter the history stands for. *)
Definition refused_because h c (missing : Z) (reason : SampleRejectedStatusKind) : Prop :=
  match reason with
  | REJECTED_BY_SAMPLES_LIMIT => max_samples_ h <= zlen (m_changes h) + missing
  | REJECTED_BY_SAMPLES_PER_INSTANCE_LIMIT => max_samples_per_instance_ h <= zlen (samples_of h (own_handle h c)) + missing
  | REJECTED_BY_INSTANCES_LIMIT =>
      map_find (own_handle h c) (instances_ h) = None /\ max_instances_ h <= zlen (instances_ h) /\
      Forall (fun ki => instance_state ki.2 = ALIVE_INSTANCE_STATE) (instances_ h)
  | NOT_REJECTED => q_preallocated (qos_ h) && (zlen (rc_payload c) >? q_payload_max (qos_ h)) = true
  end.

(** With KEEP_LAST the oldest sample of a full instance is gone. *)
Definition lost_its_oldest h c h' : Prop :=
  q_keep_all (qos_ h) = false /\ q_depth (qos_ h) <= zlen (samples_of h (own_handle h c)) /\
  exists f, head (samples_of h (own_handle h c)) = Some (rc_addr f) /\ f ∈ m_changes h /\ rc_time f <= rc_time c /\
    forall d, d ∈ m_changes h' <-> d ∈ m_changes h /\ d <> f.

Lemma not_added h c reason h' : drh_ok h -> zlen (m_changes h) < 2 ^ 32 -> q_max_samples (qos_ h) <> 0 ->
  add_to_reader_history_if_not_full h c = (false, reason, h') ->
  m_changes h' = m_changes h /\
  (reason = REJECTED_BY_SAMPLES_LIMIT /\ max_samples_ h <= zlen (m_changes h) /\ m_isHistoryFull h = true \/
   reason = NOT_REJECTED /\ q_preallocated (qos_ h) && (zlen (rc_payload c) >? q_payload_max (qos_ h)) = true).
Proof.
  intros O Hz Hq E. unfold add_to_reader_history_if_not_full, drh_add_change in E.
  destruct (m_isHistoryFull h) eqn:Fu; [injection E as <- <-; split; [done|]; left; split; [done|]; split; [by apply full_history|done]|].
  destruct (q_preallocated _ && _) eqn:Ep; [|done]. injection E as <- <-. split; [by destruct (_ =? _)|]. by right.
Qed.

Lemma not_added_with_key h c reason h' : drh_ok h -> zlen (m_changes h) < 2 ^ 32 -> q_max_samples (qos_ h) <> 0 ->
  add_received_change_with_key h c = Some (false, reason, h') ->
  m_changes h' = m_changes h /\
  (reason = REJECTED_BY_SAMPLES_LIMIT /\ max_samples_ h <= zlen (m_changes h) /\ m_isHistoryFull h = true \/
   reason = NOT_REJECTED /\ q_preallocated (qos_ h) && (zlen (rc_payload c) >? q_payload_max (qos_ h)) = true).
Proof.
  intros O Hz Hq E. unfold add_received_change_with_key in E. destruct (add_to_reader_history_if_not_full h c) as [[r reason'] h1] eqn:Ea.
  destruct r; [by apply bind_Some in E as (? & _ & E)|]. injection E as <- <-. by apply not_added.
Qed.

Lemma instance_limit_small h : drh_ok h -> q_keep_all (qos_ h) = true -> instance_limit h <= INT32_MAX.
Proof.
  intros O Eka. pose proof (do_qos h O) as [Q1 Q2 Q3 _ _].
  unfold instance_limit. rewrite Eka. unfold max_samples_per_instance_, max_samples_, unlimited, INT32_MAX.
  destruct (has_keys_ h); destruct (Z.leb_spec (q_max_samples (qos_ h)) 0), (Z.leb_spec (q_max_samples_per_instance (qos_ h)) 0); lia.
Qed.

(** C26: When a new change does not enter the history, the reason that is given
    holds, for a reader whose [max_samples] is not 0: the history has [max_samples] samples, the ones that are on their way
    included; the instance of this very change has [max_samples_per_instance];
    the instance is not there, [max_instances] are, and all of them are alive;
    and without a reason the payload does not fit into the preallocated memory.
    No sample is lost, except that with KEEP_LAST a payload that does not fit is
    noticed only after the oldest sample of its full instance was removed. *)
Theorem rejection_is_justified has_keys qos h c missing reason h' : qos_ok (DataReaderHistory_new has_keys qos) -> reaches (DataReaderHistory_new has_keys qos) h ->
  q_max_samples qos <> 0 -> fresh h c -> 0 <= missing < 2 ^ 32 -> zlen (m_changes h) < 2 ^ 32 ->
  received_change compute_key h c missing = Some (false, reason, h') ->
  refused_because h c missing reason /\ (m_changes h' = m_changes h \/ reason = NOT_REJECTED /\ lost_its_oldest h c h').
Proof.
  intros Q R Hq Hf Hm Hz E. destruct (reaches_ok _ h (start_ok _ _ Q) R) as [O [C1 C2]]. simpl in C1, C2. rewrite <- C1 in Hq.
  unfold received_change in E. destruct ((0 =? missing) || (size_t (zlen (m_changes h) + missing) <? max_samples_ h)) eqn:Eg.
  2:{ injection E as <- <-. split; [|by left]. apply orb_false_iff in Eg as [_ Eg]. rewrite size_t_small in Eg by (unfold zlen in *; lia). by apply Z.ltb_ge in Eg. }
  destruct (compute_key_for_change compute_key h c) as [keyed c'] eqn:Ec. assert (Eown : own_handle h c = rc_handle c') by (unfold own_handle; by rewrite Ec).
  destruct (keyed_change compute_key h c keyed c' Ec) as (_ & _ & _ & Etime & Epay & _).
  destruct keyed; cycle 1.
  { assert (E1 : add_to_reader_history_if_not_full h c' = (false, reason, h')).
    { destruct (q_keep_all (qos_ h)); unfold received_change_keep_all, received_change_keep_last in E; rewrite Ec in E; simpl in E; by injection E. }
    apply not_added in E1 as [Em [(-> & Hs & _)|(-> & Hp)]]; [| |done..]; (split; [simpl|by left]).
    - lia.
    - by rewrite <- Epay. }
  destruct (find_key h (rc_handle c')) as [ok h1] eqn:Ek. destruct (find_key_ok h _ ok h1 O Ek) as (O1 & Em & Eq & Eh & _ & _ & _ & _ & Hok).
  assert (Hrej : ok = false -> (false, REJECTED_BY_INSTANCES_LIMIT, h1) = (false, reason, h') ->
    refused_because h c missing reason /\ (m_changes h' = m_changes h \/ reason = NOT_REJECTED /\ lost_its_oldest h c h')).
  { intros -> [= <- <-]. destruct Hok as (-> & Ha & Hl & Hn). split; [|by left]. simpl. by rewrite Eown. }
  destruct (same_config_limits h h1 (conj Eq Eh)) as (Esam & _ & Emax & _ & Elim).
  assert (Hwith : forall h2, h2 = h1 -> ok = true -> add_received_change_with_key h2 c' = Some (false, reason, h') ->
    refused_because h c missing reason /\ (m_changes h' = m_changes h \/ reason = NOT_REJECTED /\ lost_its_oldest h c h')).
  { intros h2 -> _ E1. apply not_added_with_key in E1 as [Em' [(-> & Hs & _)|(-> & Hp)]]; [| |done|by rewrite Em|by rewrite Eq]; (split; [simpl|left; congruence]).
    - rewrite Em, Esam in Hs. lia.
    - by rewrite <- Epay, <- Eq. }
  destruct (q_keep_all (qos_ h)) eqn:Eka.
  - unfold received_change_keep_all in E. rewrite Ec in E. simpl in E. rewrite Ek in E. destruct ok; [|apply Hrej; [done|congruence]].
    destruct Hok as (i & Ei & Hi). rewrite Ei in E. simpl in E. assert (Hki : (rc_handle c', i) ∈ instances_ h1) by (apply map_find_Some; [apply O1|done]). pose proof (io_limit _ _ _ (do_inst h1 O1 _ _ Hki)) as Hil.
    rewrite Emax in E. destruct (size_t (zlen (cache_changes i) + missing) <? max_samples_per_instance_ h) eqn:El; [by apply (Hwith h1)|]. injection E as <- <-. split; [|by left]. simpl.
    assert (Es : samples_of h (own_handle h c) = cache_changes i) by (rewrite Eown; unfold samples_of; destruct Hi as [[-> _]|[-> ->]]; done). rewrite Es.
    pose proof (instance_limit_small h O Eka). rewrite size_t_small in El by (unfold INT32_MAX, zlen in *; lia). by apply Z.ltb_ge in El.
  - unfold received_change_keep_last in E. rewrite Ec in E. simpl in E. rewrite Ek in E. destruct ok; [|apply Hrej; [done|congruence]].
    destruct Hok as (i & Ei & Hi). rewrite Ei in E. simpl in E. destruct (make_room_ok h1 c' _ i O1 Ei) as (room & h2 & E2 & H2). rewrite E2 in E. simpl in E.
    destruct room as [[]|]; [|done|done]. destruct H2 as [[_ ->]|(Hfull & f & Ho & Ht & Hr)]; [by apply (Hwith h1)|].
    pose proof Hr as [O2 [C3 C4] Ch2 _ Full _ _]. assert (Hz2 : zlen (m_changes h2) < 2 ^ 32) by (pose proof (rf_length _ _ _ Hr) as Hl; rewrite Em in Hl; unfold zlen in *; lia).
    apply not_added_with_key in E as [Em' [(_ & _ & Fu)|(-> & Hp)]]; [congruence| |done..|by rewrite C3, Eq].
    split; [simpl; by rewrite <- Epay, <- Eq, <- C3|]. right. split; [done|]. pose proof (qo_depth h (do_qos h O)) as Hd. rewrite Eq in Hfull.
    destruct Hi as [[Hi ->]|[_ ->]]; [|simpl in Hfull; unfold zlen in Hfull; simpl in Hfull; lia].
    assert (Es : samples_of h (own_handle h c) = cache_changes i) by (rewrite Eown; unfold samples_of; by rewrite Hi).
    split; [done|]. rewrite Es. split; [done|]. destruct Ho as (rest & Er & Hfm). exists f. rewrite Er. split; [done|]. split; [done|]. split; [lia|]. intros d. by rewrite Em', Ch2.
Qed.
End Runs.

(** ** Examples *)

Definition key_of (payload : list Z) : option (list Z) := Some (take 1 payload).
Definition last_one : HistoryQos := mkHQ false 1 10 1 5 0 10 false 100.
Definition keep_two : HistoryQos := mkHQ true 1 2 2 2 0 10 false 100.

(** Change [n] of a writer: its number, its time, and an instance. *)
Definition change_of (g : GUID_t) (n : nat) (kd : ChangeKind_t) (key strength : Z) : RChange :=
  mkRC n kd g (mkSN 0 (Z.of_nat n)) (Z.of_nat n) (Some [key]) [key; Z.of_nat n] true false strength 0 0.
Definition shared (g : GUID_t) (n : nat) (key : Z) : RChange := change_of g n ALIVE key UINT32_MAX.

Fixpoint drh_run h (ops : list drh_op) : option DataReaderHistory :=
  match ops with
  | [] => Some h
  | op :: ops => h ← drh_step key_of h op; drh_run h ops
  end.

(** A decidable version of what is allowed, for concrete runs. *)
Definition allowed_b h (op : drh_op) : bool :=
  match op with
  | DReceive c missing =>
      forallb (fun d => negb (rc_addr d =? rc_addr c)%nat && negb (matches_change d c) && negb (matches_change c d)) (m_changes h) && (0 <=? missing) && (missing <? 2 ^ 32) && (zlen (m_changes h) <? 2 ^ 32)
  | DNotify _ | DAccess _ | DReader _ | DUnmatch _ _ => true
  | _ => false
  end.

Fixpoint allowed_run h (ops : list drh_op) : bool :=
  match ops with
  | [] => true
  | op :: ops => allowed_b h op && match drh_step key_of h op with Some h => allowed_run h ops | None => false end
  end.

Lemma allowed_b_ok h op : allowed_b h op = true -> allowed h op.
Proof.
  destruct op; try done. simpl. rewrite !andb_true_iff. intros [[[Hf H1] H2] H3]. split; [|split; [split; [by apply Z.leb_le|by apply Z.ltb_lt]|by apply Z.ltb_lt]].
  intros d Hd. rewrite forallb_forall in Hf. apply list_elem_of_In in Hd. specialize (Hf d Hd). rewrite !andb_true_iff, !negb_true_iff in Hf. destruct Hf as [[H4 H5] H6]. split; [by apply Nat.eqb_neq|done].
Qed.

Lemma run_reaches h0 h ops h' : reaches key_of h0 h -> allowed_run h ops = true -> drh_run h ops = Some h' -> reaches key_of h0 h'.
Proof.
  revert h. induction ops as [|op ops IH]; intros h R Ha E; simpl in *; [by injection E as <-|]. apply andb_true_iff in Ha as [Ha1 Ha2]. destruct (drh_step key_of h op) as [h1|] eqn:E1; [|done]. simpl in E.
  eapply IH; [|exact Ha2|exact E]. eapply reaches_step; [exact R|by apply allowed_b_ok|exact E1].
Qed.

Definition run_from (has_keys : bool) (qos : HistoryQos) (ops : list drh_op) : DataReaderHistory :=
  default (DataReaderHistory_new has_keys qos) (drh_run (DataReaderHistory_new has_keys qos) ops).

Lemma run_from_reaches has_keys qos ops : allowed_run (DataReaderHistory_new has_keys qos) ops = true -> drh_run (DataReaderHistory_new has_keys qos) ops <> None ->
  reaches key_of (DataReaderHistory_new has_keys qos) (run_from has_keys qos ops).
Proof.
  intros Ha Hn. unfold run_from. destruct (drh_run _ ops) as [h|] eqn:E; [|done]. simpl. eapply run_reaches; [apply reaches_start|exact Ha|exact E].
Qed.

Definition notified (n : Z) (l : list (GUID_t * SequenceNumber_t)) : drh_op := DReader (mkRS n l l).

Lemma last_one_ok : qos_ok (DataReaderHistory_new true last_one).
Proof. split; simpl; lia. Qed.
Lemma keep_two_ok : qos_ok (DataReaderHistory_new true keep_two).
Proof. split; simpl; lia. Qed.

Definition one_sample : list drh_op := [DReceive (shared guid_a 1 7) 0; notified 1 [(guid_a, mkSN 0 1)]; DNotify 1].

Lemma reader_limits_hold_witness : zlen (m_changes (run_from true last_one one_sample)) <= 10.
Proof.
  refine (proj1 (reader_limits_hold key_of true last_one (run_from true last_one one_sample) last_one_ok _) _); [|reflexivity].
  apply run_from_reaches; vm_compute; congruence.
Defined.

Lemma references_are_sound_witness : is_Some (received_change key_of (run_from true last_one one_sample) (shared guid_a 2 7) 0).
Proof.
  refine (proj2 (references_are_sound key_of true last_one (run_from true last_one one_sample) last_one_ok _) _ _ _ _ _).
  - apply run_from_reaches; vm_compute; congruence.
  - apply (allowed_b_ok _ (DReceive (shared guid_a 2 7) 0)). vm_compute. reflexivity.
  - lia.
  - vm_compute. reflexivity.
Defined.

Lemma keep_last_replaces_oldest_witness : exists h' cs, received_change key_of (run_from true last_one one_sample) (shared guid_a 2 7) 3 = Some (true, NOT_REJECTED, h') /\
  (forall d, d ∈ m_changes h' <-> d = shared guid_a 2 7 \/ d ∈ m_changes (run_from true last_one one_sample) /\ d <> shared guid_a 1 7) /\ cs = @nil RChange.
Proof.
  destruct (keep_last_replaces_oldest key_of true last_one (run_from true last_one one_sample) (shared guid_a 2 7)
    (set_cache_changes (default DataReaderInstance_new (map_find (Some [7]) (instances_ (run_from true last_one one_sample)))) [1%nat]) (shared guid_a 1 7) 3 last_one_ok) as (h' & cs & E & Hm & Hcs & _).
  - apply run_from_reaches; vm_compute; congruence.
  - reflexivity.
  - apply (allowed_b_ok _ (DReceive (shared guid_a 2 7) 0)). vm_compute. reflexivity.
  - reflexivity.
  - right. vm_compute. split; reflexivity.
  - vm_compute. reflexivity.
  - reflexivity.
  - exists []. split; [reflexivity|]. vm_compute. left.
  - vm_compute. congruence.
  - reflexivity.
  - exists h', cs. split; [exact E|]. split; [exact Hm|]. injection Hcs as <-. reflexivity.
Defined.

(** Two samples of an instance, which is as many as it may have. *)
Definition two_samples : list drh_op := [DReceive (shared guid_a 1 7) 0; DReceive (shared guid_a 2 7) 0].

Lemma rejection_is_justified_witness : exists h', received_change key_of (run_from true keep_two two_samples) (shared guid_b 3 8) 0 = Some (false, REJECTED_BY_SAMPLES_LIMIT, h') /\
  refused_because key_of (run_from true keep_two two_samples) (shared guid_b 3 8) 0 REJECTED_BY_SAMPLES_LIMIT.
Proof.
  eexists. split; [vm_compute; reflexivity|].
  refine (proj1 (rejection_is_justified key_of true keep_two (run_from true keep_two two_samples) (shared guid_b 3 8) 0 REJECTED_BY_SAMPLES_LIMIT _ keep_two_ok _ _ _ _ _ _)).
  - apply run_from_reaches; vm_compute; congruence.
  - simpl. lia.
  - apply (allowed_b_ok _ (DReceive (shared guid_b 3 8) 0)). vm_compute. reflexivity.
  - lia.
  - vm_compute. reflexivity.
  - vm_compute. reflexivity.
Defined.

(** ** What goes wrong *)

(** A sample that has been read and is replaced by a newer one is taken off the
    number of read samples twice, which wraps around: from then on the reader
    reports that it has read samples. *)
Theorem read_sample_counted_twice :
  let h := run_from true last_one (one_sample ++ [DAccess 1; DReceive (shared guid_a 2 7) 0]) in
  m_changes h = [shared guid_a 2 7] /\ samples_read (counters_ h) = 2 ^ 64 - 1.
Proof. split; vm_compute; reflexivity. Qed.

(** A disposed instance makes room for a new one although it has samples: they
    stay in the history, where they count for [max_samples], and can neither be
    read nor taken; and when one of them is notified afterwards, the assertion that
    its instance exists fails. *)
Theorem recycled_instance_loses_samples :
  let h := run_from true (mkHQ true 1 10 1 5 0 10 false 100)
    [DReceive (shared guid_a 1 7) 0; DReceive (change_of guid_b 2 NOT_ALIVE_DISPOSED 7 UINT32_MAX) 0; notified 1 [(guid_b, mkSN 0 2)]; DNotify 2; DReceive (shared guid_b 3 8) 0] in
  rc_addr <$> m_changes h = [1; 2; 3]%nat /\ map (fun ki => (ki.1, cache_changes ki.2)) (instances_ h) = [(Some [8], [3%nat])] /\ update_instance_nts h 1 = None.
Proof. split; [vm_compute; reflexivity|]. split; vm_compute; reflexivity. Qed.

(** A writer's samples are notified together.  When the first is refused because
    a stronger writer owns its instance, and the second belongs to another
    instance, the second is counted twice, and the assertion that compares the
    numbers of unread samples fails. *)
Theorem unread_count_disagrees :
  let h := run_from true (mkHQ true 1 10 2 5 0 10 false 100)
    [DReceive (change_of guid_a 1 ALIVE 7 20) 0; notified 1 [(guid_a, mkSN 0 1)]; DNotify 1; DReceive (change_of guid_b 2 ALIVE 7 10) 0; DReceive (change_of guid_b 3 ALIVE 8 10) 0;
     notified 3 [(guid_a, mkSN 0 1); (guid_b, mkSN 0 3)]; DNotify 2] in
  exists c h1 h2, deref h 2 = Some c /\ remove_change_sub h c = Some (true, h1) /\ drh_step key_of h1 (DNotify 3) = Some h2 /\
    total_unread_ (reader_ h2) = 2 /\ samples_unread (counters_ h2) = 3 /\ get_unread_count h2 false = None.
Proof. eexists _, _, _. split; [vm_compute; reflexivity|]. split; [vm_compute; reflexivity|]. split; [vm_compute; reflexivity|]. split; [reflexivity|]. split; reflexivity. Qed.

(** With KEEP_LAST a change that is older than all samples of its instance is
    reported as received and is nowhere: neither in the history nor given back to
    the pool it came from. *)
Theorem old_change_vanishes :
  let h := run_from true last_one [DReceive (shared guid_a 2 7) 0] in received_change key_of h (shared guid_b 1 7) 0 = Some (true, NOT_REJECTED, h) /\ rc_addr <$> m_changes h = [2%nat].
Proof. split; vm_compute; reflexivity. Qed.
