(* ===== verification/ReadTake.v ===== *)
(** * Reading and taking samples

    Models [ReadTakeCommand] ([Fast-DDS/src/cpp/fastdds/subscriber/DataReaderImpl])
    and the functions of [DataReaderImpl] that run it, on a stateful reader without
    data sharing.  The collections of the application are the list of samples that
    is returned, with as many slots as [max_samples]; an iterator of the available
    instances is the list of the handles from there on.  [deserialize] is the
    type's: a parameter.  An endless loop is [None].

    [read] and [take] give the first samples, as many as asked for, of the samples
    that the states select, instance by instance in the order of the handles; [take]
    removes exactly these from the history, [read] marks exactly these as read.  On
    a history in any state that its operations reach, and without failing. *)

From S2P Require Import Prelude SequenceNumber ParameterList ReaderProxy LimitedVector Handles DataReaderInstance DataReaderHistory DataReaderHistoryInv DataReaderHistoryRuns.

Implicit Types (h : DataReaderHistory) (c : RChange) (k : InstanceHandle_t) (a : nat) (i : DataReaderInstance).

Record SampleInfo := mkInfo {
  si_sample_state : Z;
  si_view_state : ViewStateKind;
  si_instance_state : InstanceStateKind;
  si_disposed_generation_count : Z;
  si_no_writers_generation_count : Z;
  si_sample_rank : Z;
  si_source_timestamp : Z;
  si_instance_handle : InstanceHandle_t;
  si_sample_identity : GUID_t * SequenceNumber_t;
  si_valid_data : bool
}.

Definition READ_SAMPLE_STATE : Z := 1.
Definition NOT_READ_SAMPLE_STATE : Z := 2.
Definition ANY_SAMPLE_STATE : Z := 3.
Definition ANY_VIEW_STATE : Z := 3.
Definition ANY_INSTANCE_STATE : Z := 7.

Record StateFilter := mkFilter { sample_states : Z; view_states : Z; instance_states : Z }.

(** The payload of a sample, if it has one, and its information. *)
Record Sample := mkSample { s_data : option (list Z); s_info : SampleInfo }.

Record ReadTakeCommand := mkRT {
  rt_history : DataReaderHistory;
  rt_samples : list Sample;
  rt_remaining : Z;
  rt_instances : list InstanceHandle_t;
  rt_finished : bool;
  rt_return : ReturnCode
}.

Implicit Types (m : ReadTakeCommand).

Definition with_history m h : ReadTakeCommand := mkRT h (rt_samples m) (rt_remaining m) (rt_instances m) (rt_finished m) (rt_return m).
Definition with_finished m (b : bool) : ReadTakeCommand := mkRT (rt_history m) (rt_samples m) (rt_remaining m) (rt_instances m) b (rt_return m).
Definition with_instances m l : ReadTakeCommand := mkRT (rt_history m) (rt_samples m) (rt_remaining m) l (rt_finished m) (rt_return m).

Definition sample_state c : Z := if rc_read c then READ_SAMPLE_STATE else NOT_READ_SAMPLE_STATE.

Definition has_valid_data c : bool := match rc_kind c with ALIVE => true | _ => false end.

Definition generate_info i c : SampleInfo :=
  mkInfo (sample_state c) (view_state i) (instance_state i) (rc_disposed_generation c) (rc_no_writers_generation c) 0
    (rc_time c) (rc_handle c) (rc_writer c, rc_seq c) (has_valid_data c).

Definition set_rank (s : Sample) (rank : Z) : Sample :=
  let x := s_info s in
  mkSample (s_data s) (mkInfo (si_sample_state x) (si_view_state x) (si_instance_state x) (si_disposed_generation_count x) (si_no_writers_generation_count x) rank
    (si_source_timestamp x) (si_instance_handle x) (si_sample_identity x) (si_valid_data x)).

(** The ranks of the samples of one instance: the number of those behind. *)
Fixpoint set_ranks (l : list Sample) : list Sample :=
  match l with
  | [] => []
  | s :: l => set_rank s (zlen l) :: set_ranks l
  end.

Section Read.
(** Whether a payload can be deserialized. *)
Variable deserialize : list Z -> bool.
Variable states : StateFilter.
Variable single_instance : bool.
Variable loop_for_data : bool.
Variable take_samples : bool.

(** Whether the sample was added, and whether its payload could not be deserialized. *)
Definition add_sample m i c : bool * bool * ReadTakeCommand :=
  if 0 <? rt_remaining m then
    if has_valid_data c && negb (deserialize (rc_payload c)) then (false, true, m)
    else
      let remaining := rt_remaining m - 1 in
      (true, false,
       mkRT (rt_history m) (rt_samples m ++ [mkSample (if has_valid_data c then Some (rc_payload c) else None) (generate_info i c)]) remaining (rt_instances m)
         (remaining =? 0) RETCODE_OK)
  else (false, false, with_finished m (rt_remaining m =? 0)).

(** The loop over the changes of an instance, from an iterator on. *)
Fixpoint traverse m i (l : list nat) : option ReadTakeCommand :=
  match l with
  | [] => Some m
  | a :: l =>
      if rt_finished m then Some m
      else
        c ← deref (rt_history m) a;
        if Z.land (sample_state c) (sample_states states) =? 0 then traverse m i l
        else if is_future (reader_ (rt_history m)) c then traverse m i l
        else
          let '(added, failed, m) := add_sample m i c in
          h ← end_sample_access (change_was_processed_nts (rt_history m) c added) a added;
          if failed || added && take_samples then
            '(removed, h) ← remove_change_at h a;
            if removed : bool then traverse (with_history m h) i l else None
          else traverse (with_history m h) i l
  end.

Definition is_valid_instance i : bool :=
  negb (Z.land (instance_states states) (instance_mask (instance_state i)) =? 0) && negb (Z.land (view_states states) (view_mask (view_state i)) =? 0).

(** [next_instance]: whether there is one. *)
Definition next_instance m : option (bool * ReadTakeCommand) :=
  match rt_instances m with
  | [] => None
  | k :: rest =>
      '(_, h) ← check_and_remove_instance (rt_history m) k;
      let m := with_instances (with_history m h) rest in
      Some (match rest with [] => (false, with_finished m true) | _ => (true, m) end)
  end.

Fixpoint go_to_first_valid_instance (fuel : nat) m : option (bool * ReadTakeCommand) :=
  match rt_instances m with
  | [] => None
  | k :: _ =>
      i ← map_find k (instances_ (rt_history m));
      if is_valid_instance i then Some (true, m)
      else if single_instance && negb loop_for_data then Some (false, with_finished m true)
      else
        match fuel with
        | O => None
        | S fuel => '(found, m) ← next_instance m; if found : bool then go_to_first_valid_instance fuel m else Some (false, m)
        end
  end.

Definition add_instance m : option ReadTakeCommand :=
  '(found, m) ← go_to_first_valid_instance (length (rt_instances m)) m;
  if negb found then Some m
  else
    k ← head (rt_instances m);
    i ← map_find k (instances_ (rt_history m));
    let first_slot := length (rt_samples m) in
    m ← traverse m i (cache_changes i);
    let ret_val := (first_slot <? length (rt_samples m))%nat in
    m ← (if ret_val then
           h ← instance_viewed_nts (rt_history m) k;
           Some (mkRT h (take first_slot (rt_samples m) ++ set_ranks (drop first_slot (rt_samples m))) (rt_remaining m) (rt_instances m) (rt_finished m) (rt_return m))
         else Some m);
    if single_instance && (negb loop_for_data || loop_for_data && ret_val) then
      '(_, h) ← check_and_remove_instance (rt_history m) k;
      Some (with_finished (with_history m h) true)
    else '(_, m) ← next_instance m; Some m.

(** [while (!cmd.is_finished()) cmd.add_instance(..)] *)
Fixpoint run_command (fuel : nat) m : option ReadTakeCommand :=
  if rt_finished m then Some m
  else match fuel with
       | O => None
       | S fuel => m ← add_instance m; run_command fuel m
       end.
End Read.

(** [DataReaderImpl::read_or_take], on collections that meet its preconditions. *)
Definition read_or_take deserialize h (max_samples : Z) k (states : StateFilter) (exact_instance single_instance should_take : bool)
    : option (ReturnCode * list Sample * DataReaderHistory) :=
  match lookup_available_instance h k exact_instance with
  | [] => Some (if exact_instance && negb (is_instance_present h k) then RETCODE_BAD_PARAMETER else RETCODE_NO_DATA, [], h)
  | l =>
      m ← run_command deserialize states single_instance (negb exact_instance) should_take (length l) (mkRT h [] max_samples l false RETCODE_NO_DATA);
      Some (rt_return m, rt_samples m, rt_history m)
  end.

Definition dr_read d h n states := read_or_take d h n c_InstanceHandle_Unknown states false false false.
Definition dr_read_instance d h n k states := read_or_take d h n k states true true false.
Definition dr_read_next_instance d h n k states := read_or_take d h n k states false true false.
Definition dr_take d h n states := read_or_take d h n c_InstanceHandle_Unknown states false false true.
Definition dr_take_instance d h n k states := read_or_take d h n k states true true true.
Definition dr_take_next_instance d h n k states := read_or_take d h n k states false true true.

(** [read_or_take_next_sample] *)
Definition read_or_take_next_sample deserialize h (should_take : bool) : option (ReturnCode * list Sample * DataReaderHistory) :=
  if zlen (m_changes h) =? 0 then Some (RETCODE_NO_DATA, [], h)
  else
    match lookup_available_instance h c_InstanceHandle_Unknown false with
    | [] => Some (RETCODE_NO_DATA, [], h)
    | l =>
        m ← run_command deserialize (mkFilter NOT_READ_SAMPLE_STATE ANY_VIEW_STATE ANY_INSTANCE_STATE) false false should_take (length l) (mkRT h [] 1 l false RETCODE_NO_DATA);
        Some (rt_return m, rt_samples m, rt_history m)
    end.

(** * What reading and taking returns *)

(** ** The samples that are selected *)

Definition wanted (states : StateFilter) (rs : ReaderState) c : bool := negb (Z.land (sample_state c) (sample_states states) =? 0) && negb (is_future rs c).

Definition changes_of h i : list RChange := omap (deref h) (cache_changes i).

Definition selected_of (states : StateFilter) h k : list RChange :=
  match map_find k (instances_ h) with
  | Some i => if is_valid_instance states i then List.filter (wanted states (reader_ h)) (changes_of h i) else []
  | None => []
  end.

Definition selected (states : StateFilter) h (l : list InstanceHandle_t) : list RChange := concat (selected_of states h <$> l).

Definition identity (s : Sample) : GUID_t * SequenceNumber_t := si_sample_identity (s_info s).

(** ** Pointers after an operation *)

Lemma find_map_addr l a a' (f : RChange -> RChange) : (forall c, rc_addr (f c) = rc_addr c) ->
  List.find (fun c => rc_addr c =? a')%nat (map (fun c => if (rc_addr c =? a)%nat then f c else c) l) =
  (fun c => if (a' =? a)%nat then f c else c) <$> List.find (fun c => rc_addr c =? a')%nat l.
Proof.
  intros Hf. induction l as [|c l IH]; [done|]. simpl. destruct (Nat.eqb_spec (rc_addr c) a) as [E|E]; rewrite ?Hf.
  - destruct (Nat.eqb_spec (rc_addr c) a') as [E'|E']; [|done]. simpl. subst. by rewrite Nat.eqb_refl.
  - destruct (Nat.eqb_spec (rc_addr c) a') as [E'|E']; [|done]. simpl. subst. destruct (Nat.eqb_spec (rc_addr c) a); [done|]. done.
Qed.

Lemma deref_modify h a a' f : (forall c, rc_addr (f c) = rc_addr c) -> deref (modify h a f) a' = (fun c => if (a' =? a)%nat then f c else c) <$> deref h a'.
Proof. intros Hf. unfold deref, modify. simpl. by apply find_map_addr. Qed.

Lemma removed_deref h c h' a : drh_ok h -> c ∈ m_changes h -> removed_from h c h' -> deref h' a = if (a =? rc_addr c)%nat then None else deref h a.
Proof.
  intros O Hc [O' _ Ch _ _ _ _]. destruct (Nat.eqb_spec a (rc_addr c)) as [->|Hne].
  - destruct (deref h' (rc_addr c)) as [d|] eqn:E; [|done]. exfalso. apply deref_Some in E as [Hd Ea]; [|apply O']. apply Ch in Hd as [Hd Hdc]. apply Hdc. by apply (addr_inj h); [apply O| | |].
  - destruct (deref h a) as [d|] eqn:E.
    + apply deref_Some in E as [Hd Ea]; [|apply O]. apply deref_Some; [apply O'|]. split; [|done]. apply Ch. split; [done|congruence].
    + destruct (deref h' a) as [d|] eqn:E'; [|done]. apply deref_Some in E' as [Hd Ea]; [|apply O']. apply Ch in Hd as [Hd _]. assert (deref h a = Some d) by (apply deref_Some; [apply O|done]). congruence.
Qed.

Lemma remove_change_at_reader h a r h' : drh_ok h -> remove_change_at h a = Some (r, h') -> available_ (reader_ h') = available_ (reader_ h).
Proof.
  intros O E. unfold remove_change_at in E. apply bind_Some in E as (c & Ec & E). destruct (find_in_history h c) as [pos|]; [|by injection E as <- <-].
  assert (Hb : available_ (reader_ (base_remove h pos c)) = available_ (reader_ h)) by (simpl; unfold reader_forgets; by destruct (_ && _)).
  destruct (gone_from _ _ _); [|by injection E as <- <-]. rewrite find_key_base_remove in E. destruct (find_key h (rc_handle c)) as [ok h1] eqn:Ek. destruct (find_key_ok h _ ok h1 O Ek) as (_ & _ & _ & _ & _ & Er & _).
  assert (Hb1 : available_ (reader_ (base_remove h1 pos c)) = available_ (reader_ h)) by (simpl; rewrite Er; unfold reader_forgets; by destruct (_ && _)).
  injection E as <- <-. destruct ok; [|done]. destruct (map_find _ _); [|done]. destruct (erase_if _ _) as [[] l]; [|done]. by destruct (rc_read c).
Qed.

(** ** Steps inside of one instance *)

(** What handling changes of one instance leaves as it is. *)
Record instance_kept h h' k i : Prop := {
  kp_ok : drh_ok h';
  kp_config : same_config h h';
  kp_reader : available_ (reader_ h') = available_ (reader_ h);
  kp_available : data_available_ h' = data_available_ h;
  kp_others : forall k' j, k' <> k -> map_find k' (instances_ h) = Some j -> map_find k' (instances_ h') = Some j;
  kp_mine : exists i', map_find k (instances_ h') = Some i' /\ instance_state i' = instance_state i /\ view_state i' = view_state i
}.

Lemma instance_kept_refl h k i : drh_ok h -> map_find k (instances_ h) = Some i -> instance_kept h h k i.
Proof. intros O Ei. split; try done. by exists i. Qed.

Lemma instance_kept_trans h1 h2 h3 k i : instance_kept h1 h2 k i -> instance_kept h2 h3 k i -> instance_kept h1 h3 k i.
Proof. intros [_ [C1 C2] R1 A1 O1 _] [K2 [C3 C4] R2 A2 O2 M2]. split; [done|split; congruence|congruence|congruence|auto|done]. Qed.

(** What becomes of a change that is returned. *)
Definition after_read (take_samples : bool) c : option RChange := if take_samples then None else Some (set_rc_read c true).

(** A sample without a payload, or with one that can be deserialized. *)
Definition readable (deserialize : list Z -> bool) c : bool := negb (has_valid_data c && negb (deserialize (rc_payload c))).

(** The changes that are visited for [n] samples: those that cannot be
    deserialized do not count. *)
Fixpoint visited (deserialize : list Z -> bool) (n : nat) (l : list RChange) : list RChange :=
  match n, l with
  | O, _ | _, [] => []
  | S n', c :: l => c :: visited deserialize (if readable deserialize c then n' else n) l
  end.

(** Those of the visited changes that are returned; the other ones are removed,
    even by a read. *)
Definition handed (deserialize : list Z -> bool) (l : list RChange) : list RChange := List.filter (readable deserialize) l.

Definition after_visit (deserialize : list Z -> bool) (take_samples : bool) c : option RChange :=
  if readable deserialize c then after_read take_samples c else None.

Lemma visited_0 d l : visited d 0 l = [].
Proof. by destruct l. Qed.

Lemma visited_nil d n : visited d n [] = [].
Proof. by destruct n. Qed.

Lemma visited_elem d n l c : c ∈ visited d n l -> c ∈ l.
Proof.
  revert n. induction l as [|x l IH]; intros [|n]; simpl; try (by intros H; apply elem_of_nil in H).
  intros [->|H]%elem_of_cons; [by left|]. right. by eapply IH.
Qed.

Lemma handed_le d n l : (length (handed d (visited d n l)) <= n)%nat.
Proof.
  revert n. induction l as [|c l IH]; intros [|n]; simpl; try lia. unfold handed in *.
  destruct (readable d c) eqn:E; simpl; rewrite ?E; simpl; [specialize (IH n)|specialize (IH (S n))]; lia.
Qed.

Lemma visited_app d n l1 l2 :
  visited d n (l1 ++ l2) = visited d n l1 ++ visited d (n - length (handed d (visited d n l1))) l2.
Proof.
  revert n. induction l1 as [|c l1 IH]; intros n; [rewrite visited_nil; simpl; by rewrite Nat.sub_0_r|].
  destruct n as [|n]; [by destruct l2|]. simpl. f_equal. rewrite IH. unfold handed. destruct (readable d c) eqn:E; by rewrite ?E.
Qed.

(** When everything can be deserialized, the first [n]. *)
Lemma visited_take d n l : (forall c, c ∈ l -> readable d c = true) -> visited d n l = take n l.
Proof.
  revert n. induction l as [|c l IH]; intros [|n] H; simpl; try done. rewrite (H c) by left. f_equal. apply IH. intros x Hx. apply H. by right.
Qed.

Lemma referred_iff h k a : drh_ok h -> referred h k a <-> exists c, deref h a = Some c /\ rc_handle c = k /\ (has_keys_ h = true -> rc_assembled c = true).
Proof.
  intros O. split.
  - intros (c & Hc & Ea & Ek & Hass). exists c. split; [|done]. apply deref_Some; [apply O|done].
  - intros (c & Ec & Ek & Hass). apply deref_Some in Ec as [Hc Ea]; [|apply O]. by exists c.
Qed.

(** A change is removed. *)
Lemma remove_one h k i a c : drh_ok h -> map_find k (instances_ h) = Some i -> referred h k a -> deref h a = Some c ->
  exists h2, remove_change_at h a = Some (true, h2) /\ instance_kept h h2 k i /\ forall a', deref h2 a' = if (a' =? a)%nat then None else deref h a'.
Proof.
  intros O Ei Ha Ec. destruct (proj1 (deref_Some h a c ltac:(apply O)) Ec) as [Hc Hca]. destruct Ha as (d & Hd & Eda & Ek & Hda).
  assert (d = c) as -> by (apply (addr_inj h); [apply O|done|done|congruence]).
  assert (Hass : (negb (has_keys_ h) || rc_assembled c) = true) by (destruct (has_keys_ h); [simpl; auto|done]).
  destruct (remove_change_at_removes h a c O Ec) as (h2 & E2 & R2); [done|]. exists h2. split; [done|].
  assert (Ed2 : forall a', deref h2 a' = if (a' =? a)%nat then None else deref h a') by (intros a'; by rewrite (removed_deref h _ h2 a' O Hc R2), Hca).
  pose proof (remove_change_at_reader _ _ _ _ O E2) as Er2. destruct R2 as [O2 C Ch2 _ _ I2 Ot2]. rewrite Ek in I2, Ot2. destruct (I2 i Ei) as [I3 A3]. split; [|done]. split; [done|done|done|done| |].
  + intros k' j Hne Hj. apply map_find_Some; [apply O2|]. apply Ot2; [apply map_find_Some; [apply O|done]|done|congruence].
  + eexists. split; [exact I3|done].
Qed.

(** A sample is returned: it is marked as read, and removed when it is taken. *)
Lemma return_one (take_samples : bool) h k i a c : drh_ok h -> map_find k (instances_ h) = Some i -> referred h k a -> deref h a = Some c ->
  exists h1 h2, end_sample_access (change_was_processed_nts h c true) a true = Some h1 /\
    (if take_samples then remove_change_at h1 a = Some (true, h2) else h2 = h1) /\ instance_kept h h2 k i /\
    forall a', deref h2 a' = if (a' =? a)%nat then after_read take_samples c else deref h a'.
Proof.
  intros O Ei Ha Ec. assert (Hc : c ∈ m_changes h /\ rc_addr c = a) by (by apply deref_Some; [apply O|]). destruct Hc as [Hc Hca].
  set (h0 := change_was_processed_nts h c true). assert (O0 : drh_ok h0 /\ m_changes h0 = m_changes h /\ reader_ h0 = reader_ h /\ instances_ h0 = instances_ h /\ data_available_ h0 = data_available_ h /\ same_config h h0).
  { subst h0. unfold change_was_processed_nts. destruct (_ && _); [|done]. split; [by apply ok_counters|done]. }
  destruct O0 as (O0 & Em0 & Er0 & Ei0 & Ea0 & C0). assert (Ed0 : forall a', deref h0 a' = deref h a') by (intros a'; unfold deref; by rewrite Em0).
  unfold end_sample_access. rewrite Ed0, Ec. cbn [mbind option_bind]. set (h1 := if true && negb (rc_read c) then _ else h0).
  assert (H1 : drh_ok h1 /\ available_ (reader_ h1) = available_ (reader_ h) /\ instances_ h1 = instances_ h /\ data_available_ h1 = data_available_ h /\ same_config h h1 /\
    forall a', deref h1 a' = if (a' =? a)%nat then Some (set_rc_read c true) else deref h a').
  { subst h1. destruct (rc_read c) eqn:Erd; simpl.
    - split; [done|]. rewrite Er0. do 4 (split; [done|]). intros a'. rewrite Ed0. destruct (Nat.eqb_spec a' a) as [->|]; [|done]. rewrite Ec. f_equal. destruct c. simpl in *. by subst.
    - split; [apply ok_reader, modify_ok; [done|]; intros x Hx _; by repeat split|]. rewrite Er0. split; [done|]. split; [done|]. split; [done|]. split; [done|]. intros a'.
      change (deref (with_reader (modify h0 a (fun c => set_rc_read c true)) _) a') with (deref (modify h0 a (fun c => set_rc_read c true)) a'). rewrite deref_modify by done. rewrite Ed0.
      destruct (Nat.eqb_spec a' a) as [->|]; [by rewrite Ec|]. by destruct (deref h a'). }
  clearbody h1. destruct H1 as (O1 & Er1 & Ei1 & Ea1 & C1 & Ed1). exists h1. assert (Ec1 : deref h1 a = Some (set_rc_read c true)) by (rewrite Ed1; by rewrite Nat.eqb_refl).
  assert (K1 : instance_kept h h1 k i) by (split; try done; [by rewrite Ei1|exists i; by rewrite Ei1]).
  destruct take_samples.
  - destruct (remove_one h1 k i a (set_rc_read c true) O1) as (h2 & E2 & K2 & Ed2); [by rewrite Ei1| |done|].
    { apply (referred_iff h k a O) in Ha as (d & Ed & Hk & Hass). rewrite Ec in Ed. injection Ed as <-. apply (referred_iff h1 k a O1). exists (set_rc_read c true). destruct C1 as [_ Ck]. rewrite Ck. by destruct c. }
    exists h2. split; [done|]. split; [done|]. split; [by eapply instance_kept_trans|]. intros a'. rewrite Ed2, Ed1. by destruct (a' =? a)%nat.
  - exists h1. split; [done|]. split; [done|]. by split.
Qed.

(** A sample is visited: returned, or removed when it cannot be deserialized. *)
Lemma visit_one deserialize (take_samples : bool) h k i a c : drh_ok h -> map_find k (instances_ h) = Some i -> referred h k a -> deref h a = Some c ->
  let r := readable deserialize c in
  exists h1 h2, end_sample_access (change_was_processed_nts h c r) a r = Some h1 /\
    (if negb r || r && take_samples then remove_change_at h1 a = Some (true, h2) else h2 = h1) /\ instance_kept h h2 k i /\
    forall a', deref h2 a' = if (a' =? a)%nat then after_visit deserialize take_samples c else deref h a'.
Proof.
  intros O Ei Ha Ec r. subst r. unfold after_visit. destruct (readable deserialize c); [by apply return_one|].
  destruct (remove_one h k i a c O Ei Ha Ec) as (h2 & E2 & K2 & Ed2). exists h, h2. unfold change_was_processed_nts, end_sample_access.
  rewrite andb_false_r, Ec. done.
Qed.

Lemma wanted_same states rs rs' c : available_ rs' = available_ rs -> wanted states rs' c = wanted states rs c.
Proof. intros E. unfold wanted, is_future. by rewrite E. Qed.

Lemma filter_wanted_same states rs rs' (l : list RChange) : available_ rs' = available_ rs -> List.filter (wanted states rs') l = List.filter (wanted states rs) l.
Proof. intros E. apply List.filter_ext. intros c. by apply wanted_same. Qed.

Lemma omap_deref_same h h' (l : list nat) : (forall a, a ∈ l -> deref h' a = deref h a) -> omap (deref h') l = omap (deref h) l.
Proof. unfold omap. induction l as [|a l IH]; intros H; [done|]. simpl. rewrite (H a) by left. rewrite IH; [done|]. intros b Hb. apply H. by right. Qed.

Section Command.
Context (deserialize : list Z -> bool) (states : StateFilter) (single_instance loop_for_data take_samples : bool).

Definition ident_of c : GUID_t * SequenceNumber_t := (rc_writer c, rc_seq c).

(** The history after some changes have been visited. *)
Definition returned (picked : list RChange) h h' : Prop :=
  forall a, deref h' a = match List.find (fun c => rc_addr c =? a)%nat picked with Some c => after_visit deserialize take_samples c | None => deref h a end.

Definition some_data (picked : list RChange) (before : ReturnCode) : ReturnCode := match picked with [] => before | _ => RETCODE_OK end.

(** The loop over the changes of an instance. *)
Lemma traverse_spec l : forall m i k i0, drh_ok (rt_history m) -> map_find k (instances_ (rt_history m)) = Some i0 -> rt_finished m = false -> 0 < rt_remaining m -> NoDup l -> Forall (referred (rt_history m) k) l ->
  let picked := visited deserialize (Z.to_nat (rt_remaining m)) (List.filter (wanted states (reader_ (rt_history m))) (omap (deref (rt_history m)) l)) in
  exists m', traverse deserialize states take_samples m i l = Some m' /\
    identity <$> rt_samples m' = (identity <$> rt_samples m) ++ (ident_of <$> handed deserialize picked) /\ rt_remaining m' = rt_remaining m - zlen (handed deserialize picked) /\ rt_finished m' = (rt_remaining m' =? 0) /\
    rt_instances m' = rt_instances m /\ rt_return m' = some_data (handed deserialize picked) (rt_return m) /\ instance_kept (rt_history m) (rt_history m') k i0 /\ returned picked (rt_history m) (rt_history m') /\ length (rt_samples m') = (length (rt_samples m) + length (handed deserialize picked))%nat.
Proof.
  induction l as [|a l IH]; intros m i k i0 O Ei Hnf Hrem Hnd Hl picked.
  { exists m. assert (picked = []) as -> by (subst picked; by destruct (Z.to_nat _)). change (handed deserialize []) with (@nil RChange). rewrite fmap_nil, app_nil_r. split; [done|]. split; [done|]. split; [unfold zlen; simpl; lia|]. split; [rewrite Hnf; symmetry; apply Z.eqb_neq; lia|]. split; [done|]. split; [done|].
    split; [by apply instance_kept_refl|]. split; [by intros a|]. simpl. lia. }
  apply list.Forall_cons in Hl as [Ha Hl]. apply list.NoDup_cons in Hnd as [Hanin Hnd]. destruct (proj1 (referred_iff _ k a O) Ha) as (c & Ec & Hk & Hass).
  assert (Eo : omap (deref (rt_history m)) (a :: l) = c :: omap (deref (rt_history m)) l) by (unfold omap; simpl; by rewrite Ec).
  cbn [traverse]. rewrite Hnf, Ec. cbn [mbind option_bind]. subst picked. rewrite Eo. cbn [List.filter].
  assert (Ew : wanted states (reader_ (rt_history m)) c = negb (Z.land (sample_state c) (sample_states states) =? 0) && negb (is_future (reader_ (rt_history m)) c)) by done. rewrite Ew. clear Ew.
  destruct (Z.land (sample_state c) (sample_states states) =? 0) eqn:Es; cbn [negb andb]; [by apply (IH m i k i0)|]. destruct (is_future (reader_ (rt_history m)) c) eqn:Ef; cbn [negb]; [by apply (IH m i k i0)|].
  destruct (visit_one deserialize take_samples (rt_history m) k i0 a c O Ei Ha Ec) as (h1 & h2 & E1 & E2 & K2 & Ed2).
  set (m1 := if readable deserialize c then mkRT (rt_history m) (rt_samples m ++ [mkSample (if has_valid_data c then Some (rc_payload c) else None) (generate_info i c)]) (rt_remaining m - 1) (rt_instances m) (rt_remaining m - 1 =? 0) RETCODE_OK else m).
  assert (Eadd : add_sample deserialize m i c = (readable deserialize c, negb (readable deserialize c), m1)).
  { unfold add_sample. replace (0 <? rt_remaining m) with true by (symmetry; apply Z.ltb_lt; lia). subst m1. unfold readable. by destruct (has_valid_data c && _). }
  rewrite Eadd. assert (Eh : rt_history m1 = rt_history m) by (subst m1; by destruct (readable _ _)). rewrite Eh, E1. cbn [mbind option_bind].
  assert (Hgo : (if negb (readable deserialize c) || readable deserialize c && take_samples then '(removed, h) ← remove_change_at h1 a; if removed : bool then traverse deserialize states take_samples (with_history m1 h) i l else None
       else traverse deserialize states take_samples (with_history m1 h1) i l) = traverse deserialize states take_samples (with_history m1 h2) i l).
  { destruct (negb _ || _); [by rewrite E2|by subst h2]. }
  rewrite Hgo. clear Hgo E1 E2 Eadd Eh. pose proof K2 as [O2 [C2a C2b] R2 A2 Ot2 (i1 & Ei1 & Es1 & Ev1)].
  assert (Hkeep : forall a', a' ∈ l -> deref h2 a' = deref (rt_history m) a'). { intros a' Ha'. rewrite Ed2. destruct (Nat.eqb_spec a' a) as [->|]; done. }
  assert (Hv : forall n, visited deserialize (Z.to_nat (rt_remaining m)) (c :: n) = c :: visited deserialize (Z.to_nat (rt_remaining m1)) n).
  { intros n. replace (Z.to_nat (rt_remaining m)) with (S (Z.to_nat (rt_remaining m - 1))) by lia. simpl. subst m1. destruct (readable deserialize c); simpl; f_equal; f_equal; lia. }
  rewrite Hv. clear Hv. set (rest := visited _ _ _).
  assert (Hhanded : handed deserialize (c :: rest) = (if readable deserialize c then [c] else []) ++ handed deserialize rest) by (unfold handed; simpl; by destruct (readable deserialize c)).
  assert (Hrem1 : rt_remaining m1 = rt_remaining m - (if readable deserialize c then 1 else 0)) by (subst m1; destruct (readable _ _); simpl; lia).
  assert (Hsam : identity <$> rt_samples m1 = (identity <$> rt_samples m) ++ (ident_of <$> (if readable deserialize c then [c] else []))) by (subst m1; destruct (readable _ _); simpl; [by rewrite fmap_app|by rewrite app_nil_r]).
  assert (Hlen : length (rt_samples m1) = (length (rt_samples m) + (if readable deserialize c then 1 else 0))%nat) by (subst m1; destruct (readable _ _); simpl; [rewrite length_app; simpl|]; lia).
  assert (Hret : rt_return m1 = some_data (if readable deserialize c then [c] else []) (rt_return m)) by (subst m1; by destruct (readable _ _)).
  assert (Hin1 : rt_instances m1 = rt_instances m) by (subst m1; by destruct (readable _ _)).
  assert (Hfin : rt_finished m1 = (rt_remaining m1 =? 0)) by (subst m1; destruct (readable _ _); simpl; [done|rewrite Hnf; symmetry; apply Z.eqb_neq; lia]).
  assert (Hat : forall a', deref h2 a' = match List.find (fun d => rc_addr d =? a')%nat [c] with Some d => after_visit deserialize take_samples d | None => deref (rt_history m) a' end).
  { intros a'. simpl. rewrite Ed2. apply deref_Some in Ec as [_ <-]; [|apply O]. by rewrite Nat.eqb_sym; destruct (_ =? _)%nat. }
  clearbody m1. rewrite Hhanded. destruct (Z.eq_dec (rt_remaining m1) 0) as [Er|Er].
  - assert (rest = []) as Erest by (subst rest; rewrite Er; apply visited_0). rewrite Erest. clearbody rest. subst rest. rewrite app_nil_r. exists (with_history m1 h2). split.
    { destruct l; [done|]. cbn [traverse with_history rt_finished]. by rewrite Hfin, Er. }
    cbn [with_history rt_samples rt_remaining rt_finished rt_instances rt_return rt_history]. split; [done|]. split; [rewrite Hrem1; unfold zlen; by destruct (readable _ _)|]. split; [done|]. split; [done|]. split; [done|]. split; [done|]. split; [done|].
    rewrite Hlen. by destruct (readable _ _).
  - destruct (IH (with_history m1 h2) i k i1) as (m' & E' & H1 & H2 & H3 & H4 & H5 & H6 & H7 & H8); cbn [with_history rt_history rt_remaining rt_finished]; try done.
    { rewrite Hfin. by apply Z.eqb_neq. } { destruct (readable _ _); lia. }
    { apply list.Forall_forall. intros a' Ha'. apply referred_iff; [done|]. rewrite (Hkeep a' Ha'), C2b. rewrite list.Forall_forall in Hl. by apply referred_iff, Hl. }
    cbn [with_history rt_history rt_remaining rt_finished rt_samples rt_instances rt_return] in *. rewrite (omap_deref_same (rt_history m) h2 l Hkeep), (filter_wanted_same _ (reader_ (rt_history m))) in * by done. fold rest in H1, H2, H5, H7, H8.
    exists m'. split; [done|]. split; [rewrite H1, Hsam, fmap_app, <- app_assoc; done|]. split; [rewrite H2, Hrem1; unfold zlen; rewrite length_app; destruct (readable _ _); simpl; lia|]. split; [done|]. split; [congruence|]. split; [rewrite H5, Hret; by destruct (readable _ _), (handed deserialize rest)|].
    split; [|split; [|rewrite H8, Hlen, length_app; destruct (readable _ _); simpl; lia]].
    + eapply instance_kept_trans; [exact K2|]. destruct H6 as [G1 G2 G3 G4 G5 (i' & G6 & G7 & G8)]. split; try done. exists i'. split; [done|]. split; congruence.
    + intros a'. rewrite H7, Hat. simpl. apply deref_Some in Ec as [_ Eca]; [|apply O]. rewrite Eca. destruct (Nat.eqb_spec a a') as [<-|Hne]; [|done].
      destruct (List.find _ rest) as [d|] eqn:Ef'; [|done]. exfalso. apply find_Some_elem in Ef' as [Hd Eda]. apply Nat.eqb_eq in Eda. subst rest. apply visited_elem in Hd.
      apply list_elem_of_In, List.filter_In in Hd as [Hn _]. apply list_elem_of_In, list_elem_of_omap in Hn as (b & Hb & Ebd). apply deref_Some in Ebd as [_ Ebd]; [|apply O]. congruence.
Qed.

(** ** From instance to instance *)

(** Bookkeeping of one instance: its view or its place in the maps. *)
Record settles h h' k : Prop := {
  se_ok : drh_ok h';
  se_config : same_config h h';
  se_reader : reader_ h' = reader_ h;
  se_changes : m_changes h' = m_changes h;
  se_others : forall k', k' <> k -> map_find k' (instances_ h') = map_find k' (instances_ h)
}.

Lemma check_settles h k i : drh_ok h -> map_find k (instances_ h) = Some i -> exists r h', check_and_remove_instance h k = Some (r, h') /\ settles h h' k.
Proof.
  intros O Ei. destruct (check_and_remove_instance h k) as [[r h']|] eqn:E; [|unfold check_and_remove_instance in E; by rewrite Ei in E]. exists r, h'. split; [done|]. destruct (check_and_remove_ok h k r h' O E) as [O' C'].
  unfold check_and_remove_instance in E. rewrite Ei in E. simpl in E. destruct (cache_changes i); [|by injection E as <- <-; split]. injection E as <- <-. split; [done|done| | |].
  - by destruct (_ && _).
  - by destruct (_ && _).
  - intros k' Hne. destruct (_ && _); simpl; [|done]. by rewrite map_find_erase, bool_decide_false.
Qed.

Lemma viewed_settles h k i : drh_ok h -> map_find k (instances_ h) = Some i -> exists h', instance_viewed_nts h k = Some h' /\ settles h h' k /\ map_find k (instances_ h') <> None.
Proof.
  intros O Ei. unfold instance_viewed_nts. rewrite Ei. simpl. eexists. split; [done|]. case_bool_decide; [|split; [by split|by rewrite Ei]]. split.
  - split; [|done|done|done|]; [apply ok_counters; by apply (ok_update_state h k i)|]. intros k' Hne. simpl. by rewrite map_find_update, bool_decide_false.
  - simpl. rewrite map_find_update, bool_decide_true by done. by rewrite Ei.
Qed.

Lemma settles_trans h1 h2 h3 k : settles h1 h2 k -> settles h2 h3 k -> settles h1 h3 k.
Proof. intros [_ [C1 C2] R1 M1 S1] [O2 [C3 C4] R2 M2 S2]. split; [done|split; congruence|congruence|congruence|]. intros k' Hne. rewrite S2, S1; done. Qed.

Lemma settles_deref h h' k a : settles h h' k -> deref h' a = deref h a.
Proof. intros [_ _ _ Em _]. unfold deref. by rewrite Em. Qed.

Lemma selected_settles h h' k l : settles h h' k -> k ∉ l -> selected states h' l = selected states h l.
Proof.
  intros S Hk. pose proof S as [_ _ Er _ Ot]. unfold selected. f_equal. apply list_fmap_ext. intros n k' Hn. apply list_elem_of_lookup_2 in Hn. unfold selected_of, changes_of.
  rewrite Ot by congruence. destruct (map_find k' (instances_ h)) as [j|]; [|done]. rewrite Er, (omap_deref_same h h'); [done|]. intros a _. by apply (settles_deref h h' k).
Qed.

(** The changes selected in an instance are its own. *)
Lemma selected_of_handle h k c : drh_ok h -> c ∈ selected_of states h k -> rc_handle c = k /\ deref h (rc_addr c) = Some c.
Proof.
  intros O Hc. unfold selected_of in Hc. destruct (map_find k (instances_ h)) as [i|] eqn:Ei; [|by apply elem_of_nil in Hc]. destruct (is_valid_instance states i); [|by apply elem_of_nil in Hc].
  apply list_elem_of_In, List.filter_In in Hc as [Hc _]. apply list_elem_of_In, list_elem_of_omap in Hc as (a & Ha & Ed). apply map_find_Some in Ei; [|apply O].
  pose proof (io_refs _ _ _ (do_inst h O k i Ei)) as R. rewrite list.Forall_forall in R. destruct (proj1 (referred_iff h k a O) (R a Ha)) as (d & Ed' & Hk & _). rewrite Ed in Ed'. injection Ed' as <-.
  split; [done|]. apply deref_Some in Ed as [Hd <-]; [|apply O]. by apply deref_Some; [apply O|].
Qed.

Lemma selected_handle h l c : drh_ok h -> c ∈ selected states h l -> rc_handle c ∈ l /\ deref h (rc_addr c) = Some c.
Proof.
  intros O Hc. unfold selected in Hc. apply list_elem_of_In, in_concat in Hc as (cs & Hcs & Hc). apply list_elem_of_In, list_elem_of_fmap in Hcs as (k & -> & Hk). apply list_elem_of_In in Hc.
  destruct (selected_of_handle h k c O Hc) as [<- Hd]. done.
Qed.

(** The selection of other instances after changes of one have been returned. *)
Lemma selected_kept h h' k i picked l : drh_ok h -> instance_kept h h' k i -> returned picked h h' -> (forall c, c ∈ picked -> rc_handle c = k /\ deref h (rc_addr c) = Some c) -> k ∉ l ->
  (forall k', k' ∈ l -> map_find k' (instances_ h) <> None) -> selected states h' l = selected states h l.
Proof.
  intros O [O' _ Er _ Ot _] Hret Hp Hk Hl. unfold selected. f_equal. apply list_fmap_ext. intros n k' Hn. apply list_elem_of_lookup_2 in Hn. unfold selected_of, changes_of. specialize (Hl k' Hn).
  destruct (map_find k' (instances_ h)) as [j|] eqn:Ej; [|done]. rewrite (Ot k' j) by (done || congruence). rewrite (filter_wanted_same _ (reader_ h)) by done. rewrite (omap_deref_same h h'); [done|]. intros a Ha. rewrite Hret.
  destruct (List.find _ picked) as [c|] eqn:Ef; [|done]. exfalso. apply find_Some_elem in Ef as [Hc Ea]. apply Nat.eqb_eq in Ea. destruct (Hp c Hc) as [Hck Hcd]. apply map_find_Some in Ej; [|apply O].
  pose proof (io_refs _ _ _ (do_inst h O k' j Ej)) as R. rewrite list.Forall_forall in R. destruct (proj1 (referred_iff h k' a O) (R a Ha)) as (d & Ed & Hdk & _). rewrite <- Ea, Hcd in Ed. injection Ed as <-. congruence.
Qed.

Lemma find_app {A} (p : A -> bool) l1 l2 : List.find p (l1 ++ l2) = match List.find p l1 with Some x => Some x | None => List.find p l2 end.
Proof. induction l1 as [|x l1 IH]; [done|]. simpl. by destruct (p x). Qed.

Lemma returned_app p1 p2 h h1 h2 : returned p1 h h1 -> returned p2 h1 h2 -> (forall c d, c ∈ p1 -> d ∈ p2 -> rc_addr c <> rc_addr d) -> returned (p1 ++ p2) h h2.
Proof.
  intros R1 R2 Hd a. rewrite R2, R1, find_app. destruct (List.find _ p1) as [c|] eqn:E1; [|done]. destruct (List.find _ p2) as [d|] eqn:E2; [|done]. exfalso.
  apply find_Some_elem in E1 as [Hc Ec], E2 as [Hd' Ed]. apply Nat.eqb_eq in Ec, Ed. apply (Hd c d); congruence.
Qed.

Lemma run_command_more fuel m m' : run_command deserialize states single_instance loop_for_data take_samples fuel m = Some m' ->
  run_command deserialize states single_instance loop_for_data take_samples (S fuel) m = Some m'.
Proof.
  revert m. induction fuel as [|fuel IH]; intros m E; simpl in *; [by destruct (rt_finished m)|]. destruct (rt_finished m); [done|]. destruct (add_instance _ _ _ _ _ m) as [m1|]; [|done]. simpl in *. by apply IH.
Qed.

Lemma identity_ranks l : identity <$> set_ranks l = identity <$> l.
Proof. induction l as [|x l IH]; [done|]. simpl set_ranks. by rewrite !fmap_cons, IH. Qed.

(** What a whole command does: the samples it picks, from where it stands. *)
Definition picked_by m : list RChange := visited deserialize (Z.to_nat (rt_remaining m)) (selected states (rt_history m) (rt_instances m)).

Record ran m m' : Prop := {
  rn_ok : drh_ok (rt_history m');
  rn_config : same_config (rt_history m) (rt_history m');
  rn_samples : identity <$> rt_samples m' = (identity <$> rt_samples m) ++ (ident_of <$> handed deserialize (picked_by m));
  rn_return : rt_return m' = some_data (handed deserialize (picked_by m)) (rt_return m);
  rn_history : returned (picked_by m) (rt_history m) (rt_history m')
}.

Lemma ran_nothing m : drh_ok (rt_history m) -> picked_by m = [] -> ran m m.
Proof. intros O Ep. split; rewrite ?Ep; try done. by rewrite app_nil_r. Qed.

(** A first part that picks [p], and the rest of the command. *)
Lemma ran_after p m m1 m' : picked_by m = p ++ picked_by m1 -> same_config (rt_history m) (rt_history m1) -> identity <$> rt_samples m1 = (identity <$> rt_samples m) ++ (ident_of <$> handed deserialize p) ->
  rt_return m1 = some_data (handed deserialize p) (rt_return m) -> returned p (rt_history m) (rt_history m1) -> (forall c d, c ∈ p -> d ∈ picked_by m1 -> rc_addr c <> rc_addr d) -> ran m1 m' -> ran m m'.
Proof.
  intros Ep [C1 C2] Es Er Hret Hd [O' [C3 C4] Es' Er' Hret']. split; [done|split; congruence| | |].
  - rewrite Es', Es, Ep. unfold handed. by rewrite List.filter_app, fmap_app, app_assoc.
  - rewrite Er', Er, Ep. unfold handed. rewrite List.filter_app. by destruct (List.filter _ p), (List.filter _ (picked_by m1)).
  - rewrite Ep. by apply (returned_app p _ _ (rt_history m1)).
Qed.

Lemma next_instance_spec m k rest i : drh_ok (rt_history m) -> rt_instances m = k :: rest -> map_find k (instances_ (rt_history m)) = Some i ->
  exists m', next_instance m = Some (bool_decide (rest <> []), m') /\ settles (rt_history m) (rt_history m') k /\ rt_instances m' = rest /\ rt_samples m' = rt_samples m /\
    rt_remaining m' = rt_remaining m /\ rt_return m' = rt_return m /\ rt_finished m' = (rt_finished m || bool_decide (rest = [])).
Proof.
  intros O El Ei. unfold next_instance. rewrite El. destruct (check_settles _ k i O Ei) as (r & h' & E & S). rewrite E. simpl.
  destruct rest as [|k' rest]; eexists; (split; [done|]); (split; [exact S|]); simpl; rewrite ?orb_true_r, ?orb_false_r; done.
Qed.

(** What is picked beyond the first instance. *)
Lemma picked_rest m k rest h1 (r1 : Z) m1 : rt_instances m = k :: rest -> rt_instances m1 = rest -> rt_history m1 = h1 -> rt_remaining m1 = r1 -> 0 < rt_remaining m ->
  selected states h1 rest = selected states (rt_history m) rest -> r1 = rt_remaining m - zlen (handed deserialize (visited deserialize (Z.to_nat (rt_remaining m)) (selected_of states (rt_history m) k))) ->
  picked_by m = visited deserialize (Z.to_nat (rt_remaining m)) (selected_of states (rt_history m) k) ++ picked_by m1.
Proof.
  intros El El1 Eh Er Hrem Es ->. unfold picked_by. rewrite El, El1, Eh, Er, Es. unfold selected. rewrite fmap_cons. cbn [concat]. rewrite visited_app. f_equal. f_equal. unfold zlen. lia.
Qed.

(** Returning what one instance has does not disturb the others. *)
Lemma picked_apart h h1 k l n1 n2 c d : drh_ok h -> selected states h1 l = selected states h l -> k ∉ l -> c ∈ visited deserialize n1 (selected_of states h k) -> d ∈ visited deserialize n2 (selected states h1 l) -> rc_addr c <> rc_addr d.
Proof.
  intros O Es Hk Hc Hd E. rewrite Es in Hd. apply visited_elem in Hc, Hd.
  apply selected_of_handle in Hc as [Hck Hc]; [|done]. apply selected_handle in Hd as [Hdk Hd]; [|done]. congruence.
Qed.

End Command.

Section Whole.
Context (deserialize : list Z -> bool) (states : StateFilter) (loop_for_data take_samples : bool).

Notation run := (run_command deserialize states false loop_for_data take_samples).
Notation add := (add_instance deserialize states false loop_for_data take_samples).

(** The visit of an instance that the states let through. *)
Lemma visit_valid m k rest i : drh_ok (rt_history m) -> rt_instances m = k :: rest -> map_find k (instances_ (rt_history m)) = Some i -> is_valid_instance states i = true ->
  rt_finished m = false -> 0 < rt_remaining m -> k ∉ rest -> (forall k', k' ∈ rest -> map_find k' (instances_ (rt_history m)) <> None) ->
  let p := visited deserialize (Z.to_nat (rt_remaining m)) (selected_of states (rt_history m) k) in
  exists m1, add m = Some m1 /\ drh_ok (rt_history m1) /\ same_config (rt_history m) (rt_history m1) /\ identity <$> rt_samples m1 = (identity <$> rt_samples m) ++ (ident_of <$> handed deserialize p) /\
    rt_return m1 = some_data (handed deserialize p) (rt_return m) /\ returned deserialize take_samples p (rt_history m) (rt_history m1) /\ rt_instances m1 = rest /\ rt_remaining m1 = rt_remaining m - zlen (handed deserialize p) /\
    rt_finished m1 = ((rt_remaining m1 =? 0) || bool_decide (rest = [])) /\ selected states (rt_history m1) rest = selected states (rt_history m) rest /\
    (forall k', k' ∈ rest -> map_find k' (instances_ (rt_history m1)) <> None).
Proof.
  intros O El Ei Hv Hnf Hrem Hk Hpresent p. assert (Eg : go_to_first_valid_instance states false loop_for_data (length (rt_instances m)) m = Some (true, m)).
  { destruct (length (rt_instances m)) as [|n]; cbn [go_to_first_valid_instance]; rewrite El, Ei; cbn [mbind option_bind]; by rewrite Hv. }
  unfold add_instance. rewrite Eg. cbn [mbind option_bind negb]. rewrite El. cbn [head mbind option_bind]. rewrite Ei. cbn [mbind option_bind].
  assert (Ei' := Ei). apply map_find_Some in Ei'; [|apply O]. pose proof (do_inst _ O k i Ei') as I.
  destruct (traverse_spec deserialize states take_samples (cache_changes i) m i k i O Ei Hnf Hrem (io_nodup _ _ _ I) (io_refs _ _ _ I)) as (m1 & E1 & Hs & Hr & Hf & Hl & Hret & K & Hh & Hlen).
  assert (Ep : p = visited deserialize (Z.to_nat (rt_remaining m)) (List.filter (wanted states (reader_ (rt_history m))) (omap (deref (rt_history m)) (cache_changes i)))) by (subst p; unfold selected_of; by rewrite Ei, Hv). rewrite <- Ep in Hs, Hr, Hret, Hh, Hlen. clear Ep.
  rewrite E1. cbn [mbind option_bind]. assert (Hp : forall c, c ∈ p -> rc_handle c = k /\ deref (rt_history m) (rc_addr c) = Some c).
  { intros c Hc. subst p. apply visited_elem in Hc. by apply (selected_of_handle states). }
  pose proof (selected_kept deserialize states take_samples _ _ k i p rest O K Hh Hp Hk Hpresent) as Hsel. destruct K as [O1 C1 R1 A1 Ot1 (i1 & Ei1 & _ & _)].
  set (m2 := if (length (rt_samples m) <? length (rt_samples m1))%nat then _ else Some m1).
  assert (H2 : exists m2' i2, m2 = Some m2' /\ settles (rt_history m1) (rt_history m2') k /\ map_find k (instances_ (rt_history m2')) = Some i2 /\ identity <$> rt_samples m2' = identity <$> rt_samples m1 /\
    rt_remaining m2' = rt_remaining m1 /\ rt_instances m2' = rt_instances m1 /\ rt_finished m2' = rt_finished m1 /\ rt_return m2' = rt_return m1).
  { subst m2. destruct (_ <? _)%nat.
    - destruct (viewed_settles _ k i1 O1 Ei1) as (h2 & E2 & S2 & N2). rewrite E2. cbn [mbind option_bind]. destruct (map_find k (instances_ h2)) as [i2|] eqn:Ei2; [|done]. exists (mkRT h2 (take (length (rt_samples m)) (rt_samples m1) ++ set_ranks (drop (length (rt_samples m)) (rt_samples m1))) (rt_remaining m1) (rt_instances m1) (rt_finished m1) (rt_return m1)), i2. simpl.
      split; [done|]. split; [done|]. split; [done|]. split; [|done]. by rewrite fmap_app, identity_ranks, <- fmap_app, take_drop.
    - exists m1, i1. split; [done|]. split; [by split|]. done. }
  destruct H2 as (m2' & i2 & E2 & S2 & Ei2 & Es2 & Er2 & El2 & Ef2 & Eret2). rewrite E2. cbn [mbind option_bind andb]. destruct (next_instance_spec m2' k rest i2) as (m3 & E3 & S3 & El3 & Es3 & Er3 & Eret3 & Ef3); [apply S2|congruence|done|].
  rewrite E3. cbn [mbind option_bind]. exists m3. pose proof (settles_trans _ _ _ _ S2 S3) as S. split; [done|]. split; [apply S|]. split; [destruct C1 as [C1 C2], (se_config _ _ _ S) as [C3 C4]; split; congruence|].
  split; [congruence|]. split; [congruence|]. split; [intros a; rewrite (settles_deref _ _ k a S); apply Hh|]. split; [done|]. split; [congruence|]. split; [rewrite Ef3, Ef2, Hf; congruence|]. split; [by rewrite (selected_settles states _ _ k rest S Hk)|].
  intros k' Hk'. rewrite (se_others _ _ _ S k') by congruence. specialize (Hpresent k' Hk'). destruct (map_find k' (instances_ (rt_history m))) as [j|] eqn:Ej; [|done]. by rewrite (Ot1 k' j) by (done || congruence).
Qed.

(** An instance that the states keep out is passed over. *)
Lemma visit_invalid m k rest i : drh_ok (rt_history m) -> rt_instances m = k :: rest -> map_find k (instances_ (rt_history m)) = Some i -> is_valid_instance states i = false ->
  exists m1, next_instance m = Some (bool_decide (rest <> []), m1) /\ settles (rt_history m) (rt_history m1) k /\ rt_instances m1 = rest /\ rt_samples m1 = rt_samples m /\ rt_remaining m1 = rt_remaining m /\
    rt_return m1 = rt_return m /\ rt_finished m1 = (rt_finished m || bool_decide (rest = [])) /\ add m = if bool_decide (rest = []) then Some m1 else add m1.
Proof.
  intros O El Ei Hv. destruct (next_instance_spec m k rest i O El Ei) as (m1 & E1 & S & El1 & Es1 & Er1 & Eret1 & Ef1). exists m1. do 7 (split; [done|]). unfold add_instance at 1. rewrite El. cbn [length go_to_first_valid_instance]. rewrite El, Ei.
  cbn [mbind option_bind andb]. rewrite Hv, E1. cbn [mbind option_bind]. destruct rest as [|k' rest]; [done|]. rewrite bool_decide_true, bool_decide_false by done. unfold add_instance. by rewrite El1.
Qed.

(** The loop ends, and has picked the first of the selected samples. *)
Lemma run_spec l : forall m, rt_instances m = l -> l <> [] -> NoDup l -> (forall k, k ∈ l -> map_find k (instances_ (rt_history m)) <> None) -> drh_ok (rt_history m) -> rt_finished m = false -> 0 < rt_remaining m ->
  exists m', run (length l) m = Some m' /\ ran deserialize states take_samples m m'.
Proof.
  induction l as [|k rest IH]; intros m El Hne Hnd Hpresent O Hnf Hrem; [done|]. apply list.NoDup_cons in Hnd as [Hk Hnd]. destruct (map_find k (instances_ (rt_history m))) as [i|] eqn:Ei; [|by destruct (Hpresent k); [left|]].
  assert (Hrest : forall k', k' ∈ rest -> map_find k' (instances_ (rt_history m)) <> None) by (intros k' Hk'; apply Hpresent; by right).
  cbn [length run_command]. rewrite Hnf. destruct (is_valid_instance states i) eqn:Hv.
  - destruct (visit_valid m k rest i O El Ei Hv Hnf Hrem Hk Hrest) as (m1 & E1 & O1 & C1 & Es1 & Eret1 & Hh1 & El1 & Er1 & Ef1 & Hsel & Hpr1). rewrite E1. cbn [mbind option_bind]. set (p := visited _ _ _) in *.
    assert (Ep : picked_by deserialize states m = p ++ picked_by deserialize states m1) by (by eapply picked_rest). assert (Hd : forall c d, c ∈ p -> d ∈ picked_by deserialize states m1 -> rc_addr c <> rc_addr d).
    { intros c d. unfold picked_by. rewrite El1. by apply picked_apart. }
    destruct (rt_finished m1) eqn:Hf1.
    + exists m1. split; [by destruct (length rest); simpl; rewrite Hf1|]. apply (ran_after deserialize states take_samples p m m1 m1); [done..|]. apply ran_nothing; [done|]. unfold picked_by. symmetry in Ef1. apply orb_prop in Ef1 as [Ez|Ez].
      * apply Z.eqb_eq in Ez. rewrite Ez. apply visited_0.
      * apply bool_decide_eq_true in Ez. rewrite El1, Ez. apply visited_nil.
    + symmetry in Ef1. apply orb_false_elim in Ef1 as [Ez Ez']. apply Z.eqb_neq in Ez. apply bool_decide_eq_false in Ez'. assert (0 <= rt_remaining m1) by (rewrite Er1; subst p; pose proof (handed_le deserialize (Z.to_nat (rt_remaining m)) (selected_of states (rt_history m) k)); unfold zlen; lia).
      destruct (IH m1) as (m' & E' & R'); [done|done|done|done|done|done|lia|]. exists m'. split; [done|]. by apply (ran_after deserialize states take_samples p m m1 m').
  - destruct (visit_invalid m k rest i O El Ei Hv) as (m1 & E1 & S & El1 & Es1 & Er1 & Eret1 & Ef1 & Ea). rewrite Ea. rewrite Hnf in Ef1. cbn [orb] in Ef1.
    pose proof (selected_settles states _ _ k rest S Hk) as Hsel. assert (Hso : selected_of states (rt_history m) k = []) by (unfold selected_of; by rewrite Ei, Hv).
    assert (Ep : picked_by deserialize states m = [] ++ picked_by deserialize states m1). { rewrite (picked_rest deserialize states m k rest _ _ m1 El El1 eq_refl eq_refl Hrem Hsel), Hso; [by rewrite visited_nil|]. rewrite Hso, visited_nil, Er1. unfold zlen. simpl. lia. }
    assert (Hran : forall m', ran deserialize states take_samples m1 m' -> ran deserialize states take_samples m m').
    { intros m' R. apply (ran_after deserialize states take_samples [] m m1 m'); [done|apply S|by rewrite Es1, app_nil_r|done|by intros a; rewrite (settles_deref _ _ k a S)|by intros c d Hc; apply elem_of_nil in Hc|done]. }
    destruct rest as [|k' rest].
    + rewrite bool_decide_true in * by done. exists m1. split; [simpl; by rewrite Ef1|]. apply Hran, ran_nothing; [apply S|]. unfold picked_by. rewrite El1. apply visited_nil.
    + rewrite bool_decide_false in * by done. destruct (IH m1) as (m' & E' & R'); [done|done|done| |apply S|done|lia|].
      { intros x Hx. rewrite (se_others _ _ _ S x) by congruence. by apply Hrest. }
      exists m'. split; [|by apply Hran]. apply run_command_more in E'. cbn [length] in E'. cbn [run_command] in E' |- *. rewrite Ef1 in E'. done.
Qed.
End Whole.

Lemma keys_nodup {A} (l : list (InstanceHandle_t * A)) : keys_sorted l -> NoDup l.*1.
Proof.
  unfold keys_sorted. induction l.*1 as [|k ks IH]; intros Hs; [constructor|]. constructor; [by apply sorted_tail_ne|]. inversion Hs; auto.
Qed.

(** C22: On a history in any state that a run reaches, [read] and [take] return
    the samples that the states select, instance by instance in the order of the
    handles and up to [max_samples] of them: no other ones, none twice, none out
    of order.  A selected sample whose payload cannot be deserialized is passed
    over and does not count.  Of the changes of the history, those that were
    passed over are removed, by [read] too, those that are returned are marked
    as read or, by [take], removed, and every other one is as before; without
    any sample the code is RETCODE_NO_DATA. *)
Theorem read_and_take_select compute_key has_keys qos h deserialize states max_samples (taken : bool) : qos_ok (DataReaderHistory_new has_keys qos) -> reaches compute_key (DataReaderHistory_new has_keys qos) h ->
  0 < max_samples ->
  let seen := visited deserialize (Z.to_nat max_samples) (selected states h (data_available_ h).*1) in
  let picked := handed deserialize seen in
  exists samples h', (if taken then dr_take else dr_read) deserialize h max_samples states = Some (match picked with [] => RETCODE_NO_DATA | _ => RETCODE_OK end, samples, h') /\
    identity <$> samples = ident_of <$> picked /\
    forall a, deref h' a = match List.find (fun c => rc_addr c =? a)%nat seen with
                           | Some c => if readable deserialize c && negb taken then Some (set_rc_read c true) else None
                           | None => deref h a
                           end.
Proof.
  intros Q R Hmax seen picked. destruct (reaches_ok _ _ h (start_ok _ _ Q) R) as [O _].
  assert (El : lookup_available_instance h c_InstanceHandle_Unknown false = (data_available_ h).*1) by (unfold lookup_available_instance; by destruct (has_keys_ h)).
  replace ((if taken then dr_take else dr_read) deserialize h max_samples states) with (read_or_take deserialize h max_samples c_InstanceHandle_Unknown states false false taken) by (by destruct taken).
  unfold read_or_take. rewrite El. destruct ((data_available_ h).*1) as [|k rest] eqn:Ek.
  - exists [], h. assert (seen = []) as E by apply visited_nil. subst picked. by rewrite E.
  - destruct (run_spec deserialize states (negb false) taken (k :: rest) (mkRT h [] max_samples (k :: rest) false RETCODE_NO_DATA)) as (m' & E & [_ _ Es Er Hh]); [done|done| | |done|done|done|].
    { rewrite <- Ek. apply keys_nodup, O. }
    { intros k' Hk'. cbn [rt_history]. rewrite <- Ek in Hk'. apply (do_available h O) in Hk'. apply list_elem_of_fmap in Hk' as ([k'' j] & -> & Hj). apply map_find_Some in Hj; [|apply O]. simpl. by rewrite Hj. }
    rewrite E. cbn [mbind option_bind]. eexists _, _. split; [rewrite Er; done|]. split; [done|]. intros a. rewrite Hh.
    change (picked_by _ _ _) with seen. destruct (List.find _ seen) as [c|]; [|done]. unfold after_visit, after_read. by destruct (readable deserialize c), taken.
Qed.

(** Two instances with two samples and one, one of them read; all of them notified. *)
Definition three_samples : list drh_op :=
  [DReceive (shared guid_a 1 8) 0; DReceive (shared guid_a 2 7) 0; DReceive (shared guid_a 3 8) 0; notified 3 [(guid_a, mkSN 0 3)]; DNotify 1; DNotify 2; DNotify 3; DAccess 1].
Definition keep_ten : HistoryQos := mkHQ true 1 10 2 5 0 10 false 100.
Definition unread : StateFilter := mkFilter NOT_READ_SAMPLE_STATE ANY_VIEW_STATE ANY_INSTANCE_STATE.

Lemma keep_ten_ok : qos_ok (DataReaderHistory_new true keep_ten).
Proof. split; simpl; lia. Qed.

Lemma read_and_take_select_witness :
  (exists samples h', dr_take (fun _ => true) (run_from true keep_ten three_samples) 5 unread = Some (RETCODE_OK, samples, h') /\
    identity <$> samples = [(guid_a, mkSN 0 2); (guid_a, mkSN 0 3)] /\ deref h' 1 = deref (run_from true keep_ten three_samples) 1 /\ deref h' 2 = None) /\
  (exists samples h', dr_read (fun _ => false) (run_from true keep_ten three_samples) 5 unread = Some (RETCODE_NO_DATA, samples, h') /\
    samples = [] /\ deref h' 1 = deref (run_from true keep_ten three_samples) 1 /\ deref h' 2 = None).
Proof.
  assert (R : reaches key_of (DataReaderHistory_new true keep_ten) (run_from true keep_ten three_samples)) by (apply run_from_reaches; vm_compute; congruence).
  split.
  - destruct (read_and_take_select key_of true keep_ten (run_from true keep_ten three_samples) (fun _ => true) unread 5 true keep_ten_ok R) as (samples & h' & E & Hs & Hh); [lia|].
    exists samples, h'. split; [rewrite E; vm_compute; reflexivity|]. split; [rewrite Hs; vm_compute; reflexivity|]. split; [rewrite (Hh 1%nat)|rewrite (Hh 2%nat)]; vm_compute; reflexivity.
  - destruct (read_and_take_select key_of true keep_ten (run_from true keep_ten three_samples) (fun _ => false) unread 5 false keep_ten_ok R) as (samples & h' & E & Hs & Hh); [lia|].
    exists samples, h'. split; [rewrite E; vm_compute; reflexivity|]. split; [apply (fmap_nil_inv identity); rewrite Hs; vm_compute; reflexivity|]. split; [rewrite (Hh 1%nat)|rewrite (Hh 2%nat)]; vm_compute; reflexivity.
Defined.
