(* ===== verification/DataWriterHistory.v ===== *)
(** * The history of a data writer

    Models [DataWriterHistory.cpp] and [DataWriterInstance.hpp]
    ([Fast-DDS/src/cpp/fastdds/publisher]) over the [WriterHistory] of an RTPS
    writer, which is an interface here.  A [CacheChange_t*] is an address; the
    changes that exist are a finite map, and following a pointer to one that has
    been released has no result.  Waiting releases the lock: what the history has
    become when the lock is taken again is a parameter. *)

From stdpp Require Import gmap.
From S2P Require Import Prelude SequenceNumber LimitedVector ParameterList WriterHistory Handles.

(** ** Interface of the RTPS writer *)

(** What the history asks of its writer; the history the writer sees is the one
    with the new change in it, and the one a removed change is still in.
    [some_acked]: all readers have the first change.  [acked]: all readers have a
    change, or it was delivered to all of them when they do not acknowledge. *)
Class RtpsWriter (W : Type) := {
  unsent_change_added : W -> WriterHistory -> OutChange -> option W;
  change_removed : W -> WriterHistory -> SequenceNumber_t -> option (bool * W);
  acked : W -> WriterHistory -> SequenceNumber_t -> option bool;
  some_acked : W -> WriterHistory -> bool
}.

(** ** Data *)

Record WChange := mkWC {
  wc_kind : ChangeKind_t;
  wc_handle : InstanceHandle_t;
  wc_payload : list Z;
  wc_new : NewChange;
  wc_time : Z;
  wc_out : OutChange
}.

Definition wc_seq (c : WChange) : SequenceNumber_t := out_seq (wc_out c).
Definition set_wc_out (c : WChange) (o : OutChange) : WChange := mkWC (wc_kind c) (wc_handle c) (wc_payload c) (wc_new c) (wc_time c) o.

Record DataWriterInstance := mkDWI { dwi_changes : list nat; dwi_deadline : Z; key_payload : list Z }.
Definition set_dwi_changes (i : DataWriterInstance) (l : list nat) : DataWriterInstance := mkDWI l (dwi_deadline i) (key_payload i).

Record WriterQos := mkWQ {
  wq_keep_all : bool;
  wq_depth : Z;
  wq_max_samples : Z;
  wq_max_instances : Z;
  wq_max_samples_per_instance : Z
}.

(** [to_history_attributes]: the maximum number of changes; the product of two
    [int32_t] may overflow, which is undefined. *)
Definition to_history_attributes (q : WriterQos) (keyed : bool) : option Z :=
  if wq_keep_all q then Some (wq_max_samples q)
  else if keyed then let n := wq_depth q * wq_max_instances q in if (- 2 ^ 31 <=? n) && (n <? 2 ^ 31) then Some n else None
  else Some (wq_depth q).

Section History.
Context {W : Type} `{RtpsWriter W}.

Record DataWriterHistory := mkDW {
  dw_changes : list nat;
  dw_objects : gmap nat WChange;
  dw_last : SequenceNumber_t;
  dw_full : bool;
  dw_preallocated : bool;
  dw_payload_max : Z;
  dw_max_reserved : Z;
  dw_high_mark : Z;
  keyed_changes_ : list (InstanceHandle_t * DataWriterInstance);
  next_deadline_us_ : Z;
  dw_qos : WriterQos;
  dw_keyed : bool;
  dw_writer : W;
  unacked_told_ : list InstanceHandle_t
}.

Implicit Types (h : DataWriterHistory) (a : nat) (c : WChange) (k : InstanceHandle_t) (i : DataWriterInstance) (s : SequenceNumber_t).

Definition unlimited (n : Z) : Z := if n <=? 0 then 2 ^ 31 - 1 else n.
Definition limits_of (q : WriterQos) : WriterQos :=
  mkWQ (wq_keep_all q) (wq_depth q) (unlimited (wq_max_samples q)) (unlimited (wq_max_instances q)) (unlimited (wq_max_samples_per_instance q)).

Definition DataWriterHistory_new (q : WriterQos) (keyed preallocated : bool) (payload_max : Z) (w : W) : option DataWriterHistory :=
  reserved ← to_history_attributes q keyed;
  Some (mkDW [] ∅ (mkSN 0 0) false preallocated payload_max reserved 0 [] 0 (limits_of q) keyed w []).

Definition dw_set_changes h l objects full w : DataWriterHistory :=
  mkDW l objects (dw_last h) full (dw_preallocated h) (dw_payload_max h) (dw_max_reserved h) (dw_high_mark h)
    (keyed_changes_ h) (next_deadline_us_ h) (dw_qos h) (dw_keyed h) w (unacked_told_ h).
Definition set_objects h objects : DataWriterHistory := dw_set_changes h (dw_changes h) objects (dw_full h) (dw_writer h).
Definition set_keyed h l : DataWriterHistory :=
  mkDW (dw_changes h) (dw_objects h) (dw_last h) (dw_full h) (dw_preallocated h) (dw_payload_max h) (dw_max_reserved h) (dw_high_mark h)
    l (next_deadline_us_ h) (dw_qos h) (dw_keyed h) (dw_writer h) (unacked_told_ h).
Definition set_topic_deadline h t : DataWriterHistory :=
  mkDW (dw_changes h) (dw_objects h) (dw_last h) (dw_full h) (dw_preallocated h) (dw_payload_max h) (dw_max_reserved h) (dw_high_mark h)
    (keyed_changes_ h) t (dw_qos h) (dw_keyed h) (dw_writer h) (unacked_told_ h).
Definition tell_unacked h k : DataWriterHistory :=
  mkDW (dw_changes h) (dw_objects h) (dw_last h) (dw_full h) (dw_preallocated h) (dw_payload_max h) (dw_max_reserved h) (dw_high_mark h)
    (keyed_changes_ h) (next_deadline_us_ h) (dw_qos h) (dw_keyed h) (dw_writer h) (unacked_told_ h ++ [k]).

Definition follow h a : option WChange := dw_objects h !! a.

(** The history as the RTPS writer sees it. *)
Definition base_of h : WriterHistory :=
  mkWH (omap (fun a => wc_out <$> follow h a) (dw_changes h)) (dw_last h) (dw_full h) (dw_preallocated h) (dw_payload_max h) (dw_max_reserved h) (dw_high_mark h).

(** ** Removal *)

(** [History::remove_change] and [WriterHistory::remove_change_nts], with the
    pointer of the history that has the number of the change. *)
Definition remove_from_history h a : option (bool * DataWriterHistory) :=
  c ← follow h a;
  match List.find (fun a' => match follow h a' with Some c' => sn_eqb (wc_seq c') (wc_seq c) | None => false end) (dw_changes h) with
  | None => Some (false, h)
  | Some a' =>
      '(removed, w) ← change_removed (dw_writer h) (base_of h) (wc_seq c);
      Some (removed, if removed : bool then dw_set_changes h (filter (fun x => x <> a') (dw_changes h)) (delete a' (dw_objects h)) false w
                     else dw_set_changes h (dw_changes h) (dw_objects h) (dw_full h) w)
  end.

(** The loop of [remove_change_pub] over the changes of an instance. *)
Fixpoint remove_in_instance h k i a c (before l : list nat) : option (bool * DataWriterHistory) :=
  match l with
  | [] => Some (false, h)
  | a' :: l =>
      c' ← follow h a';
      if sn_eqb (wc_seq c') (wc_seq c) then
        '(removed, h) ← remove_from_history h a;
        if removed : bool then Some (true, set_keyed h (map_update k (set_dwi_changes i (before ++ l)) (keyed_changes_ h)))
        else remove_in_instance h k i a c (before ++ [a']) l
      else remove_in_instance h k i a c (before ++ [a']) l
  end.

Definition remove_change_pub h a : option (bool * DataWriterHistory) :=
  if negb (dw_keyed h) then remove_from_history h a
  else
    c ← follow h a;
    match map_find (wc_handle c) (keyed_changes_ h) with
    | None => Some (false, h)
    | Some i => remove_in_instance h (wc_handle c) i a c [] (dwi_changes i)
    end.

(** [WriterHistory::remove_min_change], which calls [remove_change_g]. *)
Definition remove_min_change h : option (bool * DataWriterHistory) :=
  match dw_changes h with
  | [] => Some (false, h)
  | a :: _ => remove_change_pub h a
  end.

(** [removeMinChange] and [removeAllChange]: how many have been removed. *)
Definition removeMinChange h : option (bool * DataWriterHistory) := remove_min_change h.

Fixpoint remove_all (fuel : nat) h (rem : Z) : option (Z * DataWriterHistory) :=
  match dw_changes h with
  | [] => Some (rem, h)
  | a :: _ =>
      '(removed, h) ← remove_change_pub h a;
      if removed : bool then match fuel with O => None | S fuel => remove_all fuel h (rem + 1) end else Some (rem, h)
  end.

Definition removeAllChange h : option (Z * DataWriterHistory) := remove_all (length (dw_changes h)) h 0.

(** The loop of [remove_instance_changes]: the changes it leaves. *)
Fixpoint remove_up_to h (l : list nat) s : option (list nat * DataWriterHistory) :=
  match l with
  | [] => Some ([], h)
  | a :: l' =>
      c ← follow h a;
      if sn_leb (wc_seq c) s then '(_, h) ← remove_from_history h a; remove_up_to h l' s
      else Some (l, h)
  end.

Definition remove_instance_changes h k s : option (bool * DataWriterHistory) :=
  if negb (dw_keyed h) then Some (false, h)
  else
    match map_find k (keyed_changes_ h) with
    | None => Some (false, h)
    | Some i =>
        '(l, h) ← remove_up_to h (dwi_changes i) s;
        Some (true, match l with
                    | [] => set_keyed h (map_erase k (keyed_changes_ h))
                    | _ => set_keyed h (map_update k (set_dwi_changes i l) (keyed_changes_ h))
                    end)
    end.

(** ** Instances *)

Definition find_or_add_key h k (payload : list Z) : bool * DataWriterHistory :=
  match map_find k (keyed_changes_ h) with
  | Some _ => (true, h)
  | None =>
      if i32 (zlen (keyed_changes_ h)) <? wq_max_instances (dw_qos h) then (true, set_keyed h (map_emplace k (mkDWI [] 0 payload) (keyed_changes_ h)))
      else (false, h)
  end.

Definition register_instance h k : bool * DataWriterHistory := if negb (dw_keyed h) then (false, h) else find_or_add_key h k [].

(** [DataWriterInstance::is_registered] *)
Definition is_registered h i : option bool :=
  match list.last (dwi_changes i) with
  | None => Some true
  | Some a => c ← follow h a; Some (match wc_kind c with NOT_ALIVE_UNREGISTERED | NOT_ALIVE_DISPOSED_UNREGISTERED => false | _ => true end)
  end.

Definition is_key_registered h k : option bool :=
  match map_find k (keyed_changes_ h) with None => Some false | Some i => is_registered h i end.

Definition get_key_value h k : option (option (list Z)) :=
  match map_find k (keyed_changes_ h) with
  | None => Some None
  | Some i => registered ← is_registered h i; Some (if registered : bool then Some (key_payload i) else None)
  end.

Fixpoint rebuild (h : DataWriterHistory) (l : list nat) : option DataWriterHistory :=
  match l with
  | [] => Some h
  | a :: l =>
      c ← follow h a;
      let '(ok, h) := find_or_add_key h (wc_handle c) (wc_payload c) in
      if ok : bool then
        i ← map_find (wc_handle c) (keyed_changes_ h);
        rebuild (set_keyed h (map_update (wc_handle c) (set_dwi_changes i (dwi_changes i ++ [a])) (keyed_changes_ h))) l
      else rebuild h l
  end.

Definition rebuild_instances h : option DataWriterHistory := if dw_keyed h then rebuild h (dw_changes h) else Some h.

(** ** Deadlines *)

Definition dw_set_next_deadline h k (t : Z) : bool * DataWriterHistory :=
  if negb (dw_keyed h) then (true, set_topic_deadline h t)
  else match map_find k (keyed_changes_ h) with
       | None => (false, h)
       | Some i => (true, set_keyed h (map_update k (mkDWI (dwi_changes i) t (key_payload i)) (keyed_changes_ h)))
       end.

(** [std::min_element]; there is no minimum among no instances. *)
Fixpoint min_instance (best : InstanceHandle_t * DataWriterInstance) (l : list (InstanceHandle_t * DataWriterInstance)) : InstanceHandle_t * DataWriterInstance :=
  match l with
  | [] => best
  | x :: l => min_instance (if dwi_deadline x.2 <? dwi_deadline best.2 then x else best) l
  end.

Definition dw_get_next_deadline h k : option (InstanceHandle_t * Z) :=
  if dw_keyed h then
    match keyed_changes_ h with
    | [] => None
    | x :: l => let m := min_instance x l in Some (m.1, dwi_deadline m.2)
    end
  else Some (k, next_deadline_us_ h).

(** ** Adding a change *)

Section Waiting.
(** When a wait is over: what the history has become.  [wait_removal] also gives
    the value of [may_remove_change_], [wait_acked] whether the change is
    acknowledged and not the time over. *)
Variable wait_removal : DataWriterHistory -> Z * DataWriterHistory.
Variable wait_acked : SequenceNumber_t -> DataWriterHistory -> bool * DataWriterHistory.

(** [StatefulWriter::try_remove_change] *)
Definition dw_try_remove_change h : option (bool * DataWriterHistory) :=
  let '(may, h) := if some_acked (dw_writer h) (base_of h) then (1, h) else wait_removal h in
  if may =? 1 then remove_min_change h else Some (may =? 2, h).

(** [wait_for_acknowledgement] *)
Definition wait_for_acknowledgement h s : option (bool * DataWriterHistory) :=
  yes ← acked (dw_writer h) (base_of h) s;
  Some (if yes : bool then (true, h) else wait_acked s h).

Definition wait_for_acknowledgement_last_change h k : option (bool * DataWriterHistory) :=
  if dw_keyed h then
    match map_find k (keyed_changes_ h) with
    | None => Some (false, h)
    | Some i => a ← list.last (dwi_changes i); c ← follow h a; wait_for_acknowledgement h (wc_seq c)
    end
  else Some (false, h).

(** The first part of [prepare_change]: a history that is full. *)
Definition make_room_in_history h : option (bool * DataWriterHistory) :=
  if dw_full h then
    a ← head (dw_changes h);
    c ← follow h a;
    is_acked ← acked (dw_writer h) (base_of h) (wc_seq c);
    let instance := if dw_keyed h then wc_handle c else c_InstanceHandle_Unknown in
    '(ret, h) ← (if wq_keep_all (dw_qos h) then dw_try_remove_change h else remove_min_change h);
    if ret : bool then
      let h := if is_acked : bool then h else tell_unacked h instance in
      if dw_full h then None else Some (true, h)
    else Some (false, h)
  else Some (true, h).

(** The loop of [prepare_change] over the limits of the instance. *)
Fixpoint make_room_in_instance (fuel : nat) h a : option (bool * DataWriterHistory) :=
  match fuel with
  | O => None
  | S fuel =>
      c ← follow h a;
      let '(found, h) := find_or_add_key h (wc_handle c) (wc_payload c) in
      if negb found then Some (false, h)
      else
        i ← map_find (wc_handle c) (keyed_changes_ h);
        if wq_keep_all (dw_qos h) then
          if zlen (dwi_changes i) <? u64 (wq_max_samples_per_instance (dw_qos h)) then Some (true, h)
          else
            f ← head (dwi_changes i);
            first ← follow h f;
            '(ok, h) ← wait_for_acknowledgement h (wc_seq first);
            if negb ok then Some (false, h)
            else
              let '(found, h) := find_or_add_key h (wc_handle c) (wc_payload c) in
              if negb found then Some (false, h)
              else
                i ← map_find (wc_handle c) (keyed_changes_ h);
                match dwi_changes i with
                | [] => make_room_in_instance fuel h a
                | f :: _ =>
                    now ← follow h f;
                    if sn_eqb (wc_seq now) (wc_seq first) then
                      '(add, h) ← remove_change_pub h f;
                      if add : bool then Some (true, h) else make_room_in_instance fuel h a
                    else make_room_in_instance fuel h a
                end
        else if zlen (dwi_changes i) <? u64 (wq_depth (dw_qos h)) then Some (true, h)
        else
          f ← head (dwi_changes i);
          first ← follow h f;
          is_acked ← acked (dw_writer h) (base_of h) (wc_seq first);
          '(add, h) ← remove_change_pub h f;
          if add : bool then Some (true, if is_acked : bool then h else tell_unacked h (wc_handle c)) else make_room_in_instance fuel h a
  end.

Definition prepare_change (fuel : nat) h a : option (bool * DataWriterHistory) :=
  '(room, h) ← make_room_in_history h;
  if negb room then Some (false, h)
  else if negb (dw_keyed h) then Some (true, h)
  else
    '(add, h) ← make_room_in_instance fuel h a;
    if add : bool then
      c ← follow h a;
      i ← map_find (wc_handle c) (keyed_changes_ h);
      Some (true, set_keyed h (map_update (wc_handle c) (set_dwi_changes i (dwi_changes i ++ [a])) (keyed_changes_ h)))
    else Some (false, h).

(** [WriterHistory::add_change_] *)
Definition add_change_ h a (allowed : Z) : option (bool * DataWriterHistory) :=
  c ← follow h a;
  match prepare_and_add_change (base_of h) allowed (wc_new c) with
  | (None, _) => Some (false, h)
  | (Some o, b) =>
      let h := mkDW (dw_changes h ++ [a]) (<[a := set_wc_out c o]> (dw_objects h)) (m_lastCacheChangeSeqNum b) (m_isHistoryFull b) (dw_preallocated h) (dw_payload_max h)
                 (dw_max_reserved h) (high_mark_for_frag_ b) (keyed_changes_ h) (next_deadline_us_ h) (dw_qos h) (dw_keyed h) (dw_writer h) (unacked_told_ h) in
      w ← unsent_change_added (dw_writer h) (base_of h) o;
      Some (true, dw_set_changes h (dw_changes h) (dw_objects h) (dw_full h) w)
  end.

Definition add_pub_change (fuel : nat) h a (allowed : Z) : option (bool * DataWriterHistory) :=
  '(add, h) ← prepare_change fuel h a;
  if add : bool then add_change_ h a allowed else Some (false, h).

End Waiting.
End History.

Arguments DataWriterHistory W : clear implicits.
