(* ===== verification/DataWriterHistoryInv.v ===== *)
(** * The invariant of the history of a data writer

    What the RTPS writer promises the history ([RtpsWriterLaws]), the invariant of
    the history, and what removing and adding do to it. *)

From Stdlib Require Import Sorted.
From stdpp Require Import gmap.
From S2P Require Import Prelude SequenceNumber LimitedVector WriterProxyInv ParameterList WriterHistory Handles DataWriterHistory.

(** ** What the writer promises *)

Class RtpsWriterLaws (W : Type) `{RtpsWriter W} := {
  (** the invariant of the writer with its history *)
  writer_fine : W -> WriterHistory -> Prop;
  (** the changes it can send *)
  writer_takes : WriterHistory -> OutChange -> Prop;
  added_fine w b allowed ch o b' : writer_fine w b -> history_ok b -> prepare_and_add_change b allowed ch = (Some o, b') -> writer_takes b o ->
    exists w', unsent_change_added w b' o = Some w' /\ writer_fine w' b';
  removed_fine w b (s : SequenceNumber_t) : writer_fine w b -> history_ok b -> usable s -> in_history b (sn_val s) ->
    exists w', change_removed w b s = Some (true, w') /\ writer_fine w' (history_remove b s);
  acked_answers w b (s : SequenceNumber_t) : writer_fine w b -> history_ok b -> usable s -> in_history b (sn_val s) -> is_Some (acked w b s);
  some_acked_first w b o l : writer_fine w b -> history_ok b -> m_changes b = o :: l -> some_acked w b = true -> acked w b (out_seq o) = Some true
}.

Section Invariant.
Context {W : Type} `{RtpsWriterLaws W}.
Implicit Types (h : DataWriterHistory W) (a : nat) (c : WChange) (k : InstanceHandle_t) (i : DataWriterInstance).

Definition instance_limit (q : WriterQos) : Z := if wq_keep_all q then wq_max_samples_per_instance q else wq_depth q.

Record dwi_ok h k i : Prop := {
  wi_order : dwi_changes i `sublist_of` dw_changes h;
  wi_handle : forall a c, a ∈ dwi_changes i -> follow h a = Some c -> wc_handle c = k;
  wi_limit : zlen (dwi_changes i) <= instance_limit (dw_qos h)
}.

(** The history without its instances. *)
Record base_fine h : Prop := {
  bf_history : history_ok (base_of h);
  bf_writer : writer_fine (dw_writer h) (base_of h);
  bf_nodup : NoDup (dw_changes h);
  bf_live : forall a, a ∈ dw_changes h -> is_Some (follow h a);
  bf_full : dw_full h = true -> dw_changes h <> [];
  bf_samples : 0 < dw_max_reserved h -> zlen (dw_changes h) <= dw_max_reserved h /\ (zlen (dw_changes h) = dw_max_reserved h -> dw_full h = true);
  bf_reserved : dw_max_reserved h < 2 ^ 31
}.

Record dw_ok h : Prop := {
  dk_base : base_fine h;
  dk_keys : keys_sorted (keyed_changes_ h);
  dk_instances : zlen (keyed_changes_ h) <= wq_max_instances (dw_qos h);
  dk_no_keys : dw_keyed h = false -> keyed_changes_ h = [];
  dk_listed : dw_keyed h = true -> forall a c, a ∈ dw_changes h -> follow h a = Some c -> exists i, map_find (wc_handle c) (keyed_changes_ h) = Some i /\ a ∈ dwi_changes i;
  dk_inst : forall k i, map_find k (keyed_changes_ h) = Some i -> dwi_ok h k i;
  dk_qos : 0 < instance_limit (dw_qos h) < 2 ^ 31 /\ 0 < wq_max_instances (dw_qos h) < 2 ^ 31
}.

(** ** Pointers and numbers *)

Definition outs (objects : gmap nat WChange) (l : list nat) : list OutChange := omap (fun a => wc_out <$> objects !! a) l.

Lemma base_changes h : m_changes (base_of h) = outs (dw_objects h) (dw_changes h).
Proof. done. Qed.

Lemma outs_app objects l1 l2 : outs objects (l1 ++ l2) = outs objects l1 ++ outs objects l2.
Proof. unfold outs. apply omap_app. Qed.

Lemma outs_step objects a l : outs objects (a :: l) = match objects !! a with Some c => wc_out c :: outs objects l | None => outs objects l end.
Proof. unfold outs. simpl. by destruct (objects !! a). Qed.

Lemma outs_cons objects a l c : objects !! a = Some c -> outs objects (a :: l) = wc_out c :: outs objects l.
Proof. intros E. by rewrite outs_step, E. Qed.

Lemma outs_elem objects l o : o ∈ outs objects l <-> exists a c, a ∈ l /\ objects !! a = Some c /\ wc_out c = o.
Proof.
  unfold outs. rewrite list_elem_of_omap. split.
  - intros (a & Ha & E). destruct (objects !! a) as [c|] eqn:Ec; [|done]. injection E as <-. by exists a, c.
  - intros (a & c & Ha & Ec & <-). exists a. by rewrite Ec.
Qed.

Lemma outs_ext objects objects' l : (forall a, a ∈ l -> objects' !! a = objects !! a) -> outs objects' l = outs objects l.
Proof.
  intros E. induction l as [|a l IH]; [done|]. rewrite !outs_step, (E a) by left. rewrite IH; [done|]. intros b Hb. apply E. by right.
Qed.

Lemma in_history_follow h a c : a ∈ dw_changes h -> follow h a = Some c -> in_history (base_of h) (sn_val (wc_seq c)).
Proof. intros Ha Ec. unfold in_history. rewrite base_changes. apply (seqs_elem _ (wc_out c)). apply outs_elem. by exists a, c. Qed.

Lemma usable_follow h a c : base_fine h -> a ∈ dw_changes h -> follow h a = Some c -> usable (wc_seq c).
Proof.
  intros O Ha Ec. pose proof (ho_usable _ (bf_history h O)) as U. rewrite list.Forall_forall in U. apply (U (wc_out c)). rewrite base_changes. apply outs_elem. by exists a, c.
Qed.

(** Different pointers of a history have different numbers. *)
Lemma seq_inj_list objects l a b c d : StronglySorted Z.lt (seqs (outs objects l)) -> (forall x, x ∈ l -> is_Some (objects !! x)) -> a ∈ l -> b ∈ l -> objects !! a = Some c -> objects !! b = Some d ->
  sn_val (wc_seq c) = sn_val (wc_seq d) -> a = b.
Proof.
  induction l as [|x l IH]; intros Hs Hl Ha Hb Ec Ed E; [by apply elem_of_nil in Ha|]. destruct (Hl x) as [e Ee]; [left|]. rewrite (outs_cons _ _ _ e Ee), fmap_cons in Hs.
  assert (Hin : forall y f, y ∈ l -> objects !! y = Some f -> sn_val (wc_seq e) < sn_val (wc_seq f)).
  { intros y f Hy Ef. apply (sorted_head _ _ _ Hs). apply (seqs_elem _ (wc_out f)), outs_elem. by exists y, f. }
  apply StronglySorted_inv in Hs as [Hs _]. apply elem_of_cons in Ha as [->|Ha], Hb as [->|Hb]; [done| | |].
  - pose proof (Hin b d Hb Ed). rewrite Ec in Ee. injection Ee as ->. lia.
  - pose proof (Hin a c Ha Ec). rewrite Ed in Ee. injection Ee as ->. lia.
  - apply IH; try done. intros y Hy. apply Hl. by right.
Qed.

Lemma seq_inj h a b c d : base_fine h -> a ∈ dw_changes h -> b ∈ dw_changes h -> follow h a = Some c -> follow h b = Some d -> sn_eqb (wc_seq c) (wc_seq d) = true -> a = b.
Proof.
  intros O Ha Hb Ec Ed E. pose proof (usable_follow h a c O Ha Ec). pose proof (usable_follow h b d O Hb Ed). rewrite sn_eqb_val in E by auto. apply Z.eqb_eq in E.
  apply (seq_inj_list (dw_objects h) (dw_changes h) a b c d); try done; [exact (ho_sorted _ (bf_history h O))|apply (bf_live h O)].
Qed.

Lemma filter_everything {A} (P : A -> Prop) `{forall x, Decision (P x)} (l : list A) : (forall x, x ∈ l -> P x) -> filter P l = l.
Proof. induction l as [|x l IH]; intros Hl; [done|]. rewrite filter_cons_True by (apply Hl; left). f_equal. apply IH. intros y Hy. apply Hl. by right. Qed.

(** The history without a change, as the writer sees it. *)
Lemma outs_erase objects l a c : NoDup l -> (forall x, x ∈ l -> is_Some (objects !! x)) -> a ∈ l -> objects !! a = Some c -> StronglySorted Z.lt (seqs (outs objects l)) -> Forall (fun o => usable (out_seq o)) (outs objects l) ->
  outs (delete a objects) (filter (fun x => x <> a) l) = erase_change (outs objects l) (wc_seq c).
Proof.
  induction l as [|x l IH]; intros Hn Hl Ha Ec Hs Hu; [by apply elem_of_nil in Ha|]. destruct (Hl x) as [e Ee]; [left|]. rewrite (outs_cons _ _ _ e Ee) in *. apply list.NoDup_cons in Hn as [Hx Hn].
  apply list.Forall_cons in Hu as [Hue Hu]. rewrite fmap_cons in Hs. cbn [erase_change]. fold (wc_seq e). destruct (decide (x = a)) as [->|Hne].
  - rewrite Ec in Ee. injection Ee as <-. rewrite filter_cons_False by tauto. rewrite sn_eqb_val by (destruct Hue; auto). rewrite Z.eqb_refl. rewrite filter_everything by congruence.
    apply outs_ext. intros y Hy. apply lookup_delete_ne. congruence.
  - apply elem_of_cons in Ha as [->|Ha]; [done|]. rewrite filter_cons_True by done. rewrite (outs_cons _ _ _ e) by (by rewrite lookup_delete_ne by done).
    assert (Hlt : sn_val (wc_seq e) < sn_val (wc_seq c)) by (apply (sorted_head _ _ _ Hs), (seqs_elem _ (wc_out c)), outs_elem; by exists a, c).
    assert (Huc : usable (wc_seq c)) by (rewrite list.Forall_forall in Hu; apply (Hu (wc_out c)), outs_elem; by exists a, c).
    rewrite sn_eqb_val by (fold (wc_seq e) in Hue; destruct Hue, Huc; auto). destruct (Z.eqb_spec (sn_val (wc_seq e)) (sn_val (wc_seq c))); [lia|]. f_equal. apply StronglySorted_inv in Hs as [Hs _].
    apply IH; try done. intros y Hy. apply Hl. by right.
Qed.
(** ** Removal *)

(** What removing and adding leave as it is. *)
Definition config h : SequenceNumber_t * bool * Z * Z * Z * WriterQos * bool :=
  (dw_last h, dw_preallocated h, dw_payload_max h, dw_max_reserved h, dw_high_mark h, dw_qos h, dw_keyed h).

(** A change has left the history, not yet its instance. *)
Record gone h a h' : Prop := {
  go_base : base_fine h';
  go_changes : dw_changes h' = filter (fun x => x <> a) (dw_changes h);
  go_objects : dw_objects h' = delete a (dw_objects h);
  go_full : dw_full h' = false;
  go_config : config h' = config h;
  go_keyed : keyed_changes_ h' = keyed_changes_ h;
  go_told : unacked_told_ h' = unacked_told_ h
}.

Lemma filter_length (l : list nat) a : a ∈ l -> zlen (filter (fun x => x <> a) l) < zlen l.
Proof.
  intros Ha. unfold zlen. enough (length (filter (fun x => x <> a) l) < length l)%nat by lia. induction l as [|x l IH]; [by apply elem_of_nil in Ha|]. destruct (decide (x = a)) as [->|Hne].
  - rewrite filter_cons_False by tauto. simpl. pose proof (length_filter (fun x => x <> a) l). lia.
  - rewrite filter_cons_True by done. simpl. apply elem_of_cons in Ha as [->|Ha]; [done|]. specialize (IH Ha). lia.
Qed.

Lemma remove_from_history_ok h a c : base_fine h -> a ∈ dw_changes h -> follow h a = Some c -> exists h', remove_from_history h a = Some (true, h') /\ gone h a h'.
Proof.
  intros O Ha Ec. pose proof (usable_follow h a c O Ha Ec) as U. unfold remove_from_history. rewrite Ec. cbn [mbind option_bind].
  destruct (List.find _ (dw_changes h)) as [a'|] eqn:E.
  2:{ exfalso. apply list_elem_of_In in Ha as Hin. pose proof (find_none _ _ E a Hin) as Hn. simpl in Hn. rewrite Ec, sn_eqb_val in Hn by (destruct U; auto). by rewrite Z.eqb_refl in Hn. }
  apply find_some in E as [Ha' E]. apply list_elem_of_In in Ha'. destruct (follow h a') as [c'|] eqn:Ec'; [|done]. pose proof (seq_inj h a' a c' c O Ha' Ha Ec' Ec E) as ->.
  destruct (removed_fine (dw_writer h) (base_of h) (wc_seq c)) as (w' & -> & Hw); [apply O|apply O|done|by apply (in_history_follow h a)|]. cbn [mbind option_bind]. eexists. split; [done|].
  set (h' := dw_set_changes _ _ _ _ _). assert (Eb : base_of h' = history_remove (base_of h) (wc_seq c)).
  { unfold history_remove, set_changes. rewrite base_changes. unfold base_of at 1. f_equal. apply (outs_erase (dw_objects h)); [apply O|apply (bf_live h O)|done|done|apply O|apply O]. }
  split; try done. split.
  - rewrite Eb. apply history_remove_ok; [apply O|destruct U; auto].
  - by rewrite Eb.
  - apply list.NoDup_filter, O.
  - intros x [Hne Hx]%list_elem_of_filter. unfold follow. simpl. rewrite lookup_delete_ne by done. by apply (bf_live h O).
  - done.
  - intros Hm. simpl in Hm. destruct (bf_samples h O Hm) as [Hle _]. simpl. pose proof (filter_length (dw_changes h) a Ha). split; lia.
  - apply (bf_reserved h O).
Qed.
(** A change has left the history and its instance. *)
Record taken h a h' : Prop := {
  tk_ok : dw_ok h';
  tk_changes : dw_changes h' = filter (fun x => x <> a) (dw_changes h);
  tk_objects : dw_objects h' = delete a (dw_objects h);
  tk_full : dw_full h' = false;
  tk_config : config h' = config h;
  tk_keyed : forall k, map_find k (keyed_changes_ h') = (fun i => set_dwi_changes i (filter (fun x => x <> a) (dwi_changes i))) <$> map_find k (keyed_changes_ h);
  tk_keys : (keyed_changes_ h').*1 = (keyed_changes_ h).*1;
  tk_told : unacked_told_ h' = unacked_told_ h
}.

Lemma filter_out_middle (before l : list nat) a : NoDup (before ++ a :: l) -> filter (fun x => x <> a) (before ++ a :: l) = before ++ l.
Proof.
  intros (_ & Hb & Hl)%list.NoDup_app. apply list.NoDup_cons in Hl as [Hal _]. rewrite list.filter_app, filter_cons_False by tauto. f_equal; apply filter_everything; intros x Hx ->; [|done]. apply (Hb a Hx). left.
Qed.

Lemma remove_in_instance_ok h k i a c l : forall before, base_fine h -> map_find k (keyed_changes_ h) = Some i -> NoDup (before ++ l) -> (forall x, x ∈ l -> x ∈ dw_changes h) -> a ∈ l -> follow h a = Some c ->
  exists h1, gone h a h1 /\ remove_in_instance h k i a c before l = Some (true, set_keyed h1 (map_update k (set_dwi_changes i (filter (fun x => x <> a) (before ++ l))) (keyed_changes_ h))).
Proof.
  induction l as [|x l IH]; intros before O Ei Hn Hl Ha Ec; [by apply elem_of_nil in Ha|]. assert (Hx : x ∈ dw_changes h) by (apply Hl; left). destruct (bf_live h O x Hx) as [cx Ex].
  cbn [remove_in_instance]. rewrite Ex. cbn [mbind option_bind]. destruct (decide (x = a)) as [->|Hne].
  - rewrite Ec in Ex. injection Ex as <-. pose proof (usable_follow h a c O Hx Ec) as U. rewrite sn_eqb_val by (destruct U; auto). rewrite Z.eqb_refl.
    destruct (remove_from_history_ok h a c O Hx Ec) as (h1 & -> & G). cbn [mbind option_bind]. exists h1. split; [done|]. rewrite (go_keyed _ _ _ G). by rewrite filter_out_middle.
  - destruct (sn_eqb (wc_seq cx) (wc_seq c)) eqn:E; [exfalso; apply elem_of_cons in Ha as [->|Ha]; [done|]; apply Hne; apply (seq_inj h x a cx c); try done; apply Hl; by right|].
    apply elem_of_cons in Ha as [->|Ha]; [done|]. destruct (IH (before ++ [x])) as (h1 & G & E1); [done|done|by rewrite <- app_assoc|intros y Hy; apply Hl; by right|done|done|].
    exists h1. split; [done|]. rewrite E1. by rewrite <- app_assoc.
Qed.

Lemma filter_sublist {A} (P : A -> Prop) `{forall x, Decision (P x)} (l1 l2 : list A) : l1 `sublist_of` l2 -> filter P l1 `sublist_of` filter P l2.
Proof.
  induction 1 as [|x l1 l2 _ IH|x l1 l2 _ IH]; [done| |]; rewrite ?filter_cons; repeat case_decide; auto; [by constructor|by constructor].
Qed.

Lemma sublist_elem {A} (l1 l2 : list A) x : l1 `sublist_of` l2 -> x ∈ l1 -> x ∈ l2.
Proof. induction 1; intros Hx; [done|apply elem_of_cons in Hx as [->|Hx]; [left|right; auto]|right; auto]. Qed.

Lemma taken_intro h a h1 keyed : dw_ok h -> gone h a h1 -> keys_sorted keyed -> keyed.*1 = (keyed_changes_ h).*1 ->
  (forall k, map_find k keyed = (fun i => set_dwi_changes i (filter (fun x => x <> a) (dwi_changes i))) <$> map_find k (keyed_changes_ h)) -> taken h a (set_keyed h1 keyed).
Proof.
  intros O [G1 G2 G3 G4 G5 G6 G7] Hs Hk Hf. unfold config in G5. injection G5 as C1 C2 C3 C4 C5 C6 C7. split; try done; [|unfold config; simpl; congruence]. split; simpl.
  - destruct G1 as [B1 B2 B3 B4 B5 B6 B7]. by split.
  - done.
  - rewrite C6. pose proof (dk_instances h O) as Hi. unfold zlen in *. rewrite <- (length_fmap fst), Hk, length_fmap. done.
  - rewrite C7. intros Hkd. rewrite (dk_no_keys h O Hkd) in Hk. by destruct keyed.
  - rewrite C7, G2. intros Hkd x c [Hne Hx]%list_elem_of_filter Ec. unfold follow in Ec. simpl in Ec. rewrite G3, lookup_delete_ne in Ec by done. destruct (dk_listed h O Hkd x c Hx Ec) as (i & Ei & Hxi).
    eexists. rewrite Hf, Ei. split; [done|]. simpl. by apply list_elem_of_filter.
  - intros k i. rewrite Hf. destruct (map_find k (keyed_changes_ h)) as [j|] eqn:Ej; [|done]. intros [= <-]. destruct (dk_inst h O k j Ej) as [I1 I2 I3]. split; simpl.
    + rewrite G2. by apply filter_sublist.
    + intros x c [Hne Hx]%list_elem_of_filter Ec. unfold follow in Ec. simpl in Ec. rewrite G3, lookup_delete_ne in Ec by done. by apply (I2 x).
    + rewrite C6. unfold zlen in *. pose proof (length_filter (fun x => x <> a) (dwi_changes j)). lia.
  - rewrite C6. apply O.
Qed.

Lemma remove_change_pub_ok h a : dw_ok h -> a ∈ dw_changes h -> exists h', remove_change_pub h a = Some (true, h') /\ taken h a h'.
Proof.
  intros O Ha. pose proof (dk_base h O) as B. destruct (bf_live h B a Ha) as [c Ec]. unfold remove_change_pub. destruct (dw_keyed h) eqn:Hkd; simpl.
  - rewrite Ec. cbn [mbind option_bind]. destruct (dk_listed h O Hkd a c Ha Ec) as (i & Ei & Hi). rewrite Ei. pose proof (dk_inst h O _ _ Ei) as [I1 I2 I3].
    destruct (remove_in_instance_ok h (wc_handle c) i a c (dwi_changes i) []) as (h1 & G & E); [done|done| |intros x; by apply sublist_elem|done|done|].
    { eapply sublist_NoDup; [|exact I1]. apply B. }
    rewrite E. eexists. split; [done|]. apply taken_intro; [done|done| |apply map_update_keys|].
    + unfold keys_sorted. rewrite map_update_keys. apply O.
    + intros k. rewrite map_find_update. case_bool_decide as D; [subst k; rewrite Ei; done|]. destruct (map_find k (keyed_changes_ h)) as [j|] eqn:Ej; [|done]. simpl. f_equal.
      destruct (dk_inst h O k j Ej) as [J1 J2 J3]. destruct j as [l t p]. unfold set_dwi_changes. simpl in *. f_equal. symmetry. apply filter_everything. intros x Hx ->. apply D. symmetry. by apply (J2 a c).
  - destruct (remove_from_history_ok h a c B Ha Ec) as (h1 & E & G). exists h1. split; [done|]. replace h1 with (set_keyed h1 (keyed_changes_ h)) by (rewrite <- (go_keyed _ _ _ G); by destruct h1). apply taken_intro; [done|done|apply O|done|].
    intros k. by rewrite (dk_no_keys h O Hkd).
Qed.
Lemma remove_min_change_ok h a l : dw_ok h -> dw_changes h = a :: l -> exists h', remove_min_change h = Some (true, h') /\ taken h a h' /\ dw_changes h' = l.
Proof.
  intros O E. unfold remove_min_change. rewrite E. destruct (remove_change_pub_ok h a O) as (h' & E' & T); [rewrite E; left|]. exists h'. split; [done|]. split; [done|]. rewrite (tk_changes _ _ _ T), E.
  pose proof (bf_nodup h (dk_base h O)) as Hn. rewrite E in Hn. apply list.NoDup_cons in Hn as [Hn _]. rewrite filter_cons_False by tauto. apply filter_everything. congruence.
Qed.

(** Everything is removed. *)
Lemma remove_all_ok fuel : forall h rem, dw_ok h -> (length (dw_changes h) <= fuel)%nat ->
  exists h', remove_all fuel h rem = Some (rem + zlen (dw_changes h), h') /\ dw_ok h' /\ dw_changes h' = [] /\ config h' = config h.
Proof.
  induction fuel as [|fuel IH]; intros h rem O Hf; destruct (dw_changes h) as [|a l] eqn:E; cbn [remove_all]; rewrite E; [exists h; rewrite Z.add_0_r; done|simpl in Hf; lia|exists h; rewrite Z.add_0_r; done|].
  destruct (remove_min_change_ok h a l O E) as (h1 & E1 & T & El). unfold remove_min_change in E1. rewrite E in E1. rewrite E1. cbn [mbind option_bind].
  destruct (IH h1 (rem + 1)) as (h' & E' & O' & En & C); [apply T|rewrite El; simpl in Hf; lia|]. exists h'. rewrite E', El. split; [f_equal; f_equal; unfold zlen; simpl; lia|]. split; [done|]. split; [done|]. rewrite C. apply T.
Qed.

(** The changes of an instance up to a number are removed from the history. *)
Lemma remove_up_to_ok (s : SequenceNumber_t) l : forall h, base_fine h -> NoDup l -> (forall x, x ∈ l -> x ∈ dw_changes h) ->
  exists pre rest h', l = pre ++ rest /\ remove_up_to h l s = Some (rest, h') /\ base_fine h' /\ dw_changes h' = filter (fun x => x ∉ pre) (dw_changes h) /\
    (forall x, x ∉ pre -> follow h' x = follow h x) /\ config h' = config h /\ keyed_changes_ h' = keyed_changes_ h /\ unacked_told_ h' = unacked_told_ h /\
    (forall x c, x ∈ pre -> follow h x = Some c -> sn_leb (wc_seq c) s = true) /\ (forall x c l', rest = x :: l' -> follow h x = Some c -> sn_leb (wc_seq c) s = false).
Proof.
  induction l as [|x l IH]; intros h B Hn Hl.
  - exists [], [], h. do 3 (split; [done|]). split; [symmetry; apply filter_everything; intros y _; apply not_elem_of_nil|]. do 4 (split; [done|]). split; [by intros y c ?%elem_of_nil|done].
  - assert (Hx : x ∈ dw_changes h) by (apply Hl; left). destruct (bf_live h B x Hx) as [c Ec]. apply list.NoDup_cons in Hn as [Hxl Hn]. cbn [remove_up_to]. rewrite Ec. cbn [mbind option_bind]. destruct (sn_leb (wc_seq c) s) eqn:Es.
    + destruct (remove_from_history_ok h x c B Hx Ec) as (h1 & -> & [G1 G2 G3 G4 G5 G6 G7]). cbn [mbind option_bind]. assert (Hf1 : forall y, y <> x -> follow h1 y = follow h y) by (intros y Hy; unfold follow; rewrite G3; by apply lookup_delete_ne).
      destruct (IH h1) as (pre & rest & h' & El & E' & B' & Hc' & Hf' & C' & K' & T' & Hpre & Hrest); [done|done|intros y Hy; rewrite G2; apply list_elem_of_filter; split; [congruence|apply Hl; by right]|].
      exists (x :: pre), rest, h'. split; [by rewrite El|]. split; [done|]. split; [done|]. split.
      { rewrite Hc', G2, list_filter_filter. apply list_filter_iff. intros y. rewrite not_elem_of_cons. tauto. }
      split; [intros y [Hy1 Hy2]%not_elem_of_cons; rewrite Hf', Hf1; done|]. do 3 (split; [congruence|]). split.
      * intros y d [->|Hy]%elem_of_cons Ed; [congruence|]. apply (Hpre y d Hy). rewrite Hf1; [done|]. intros ->. apply Hxl. rewrite El. apply elem_of_app. by left.
      * intros y d l' Er Ed. apply (Hrest y d l' Er). rewrite Hf1; [done|]. intros ->. apply Hxl. rewrite El, Er. apply elem_of_app. right. left.
    + exists [], (x :: l), h. do 3 (split; [done|]). split; [symmetry; apply filter_everything; intros y _; apply not_elem_of_nil|]. do 4 (split; [done|]). split; [by intros y d ?%elem_of_nil|]. intros y d l' [= <- <-] Ed. congruence.
Qed.
Lemma config_inj h h' : config h' = config h -> dw_last h' = dw_last h /\ dw_max_reserved h' = dw_max_reserved h /\ dw_qos h' = dw_qos h /\ dw_keyed h' = dw_keyed h.
Proof. unfold config. by intros [= -> _ _ -> _ -> ->]. Qed.

Lemma sublist_app_r {A} (l1 l2 l : list A) : l1 ++ l2 `sublist_of` l -> l2 `sublist_of` l.
Proof. intros Hs. etrans; [|exact Hs]. by apply sublist_inserts_l. Qed.

Lemma base_set_keyed h keyed : base_fine h -> base_fine (set_keyed h keyed).
Proof. intros [B1 B2 B3 B4 B5 B6 B7]. by split. Qed.

Lemma remove_instance_changes_ok h k (s : SequenceNumber_t) i : dw_ok h -> dw_keyed h = true -> map_find k (keyed_changes_ h) = Some i ->
  exists pre rest h', remove_instance_changes h k s = Some (true, h') /\ dw_ok h' /\ dwi_changes i = pre ++ rest /\ dw_changes h' = filter (fun x => x ∉ pre) (dw_changes h) /\ config h' = config h /\
    (forall x c, x ∈ pre -> follow h x = Some c -> sn_leb (wc_seq c) s = true) /\ (rest = [] -> map_find k (keyed_changes_ h') = None).
Proof.
  intros O Hkd Ei. destruct (dk_inst h O k i Ei) as [I1 I2 I3]. pose proof (dk_base h O) as B. assert (Hn : NoDup (dwi_changes i)) by (eapply sublist_NoDup; [apply B|exact I1]).
  unfold remove_instance_changes. rewrite Hkd, Ei. cbn [negb]. destruct (remove_up_to_ok s (dwi_changes i) h B Hn) as (pre & rest & h1 & El & E1 & B1 & Hc1 & Hf1 & C1 & K1 & _ & Hpre & _); [intros x; by apply sublist_elem|].
  rewrite E1. cbn [mbind option_bind]. exists pre, rest. destruct (config_inj _ _ C1) as (_ & _ & Cq & Ck).
  set (keyed := match rest with [] => map_erase k (keyed_changes_ h) | _ => map_update k (set_dwi_changes i rest) (keyed_changes_ h) end).
  exists (set_keyed h1 keyed). split; [by rewrite K1; destruct rest|]. split; [|split; [done|]; split; [done|]; split; [done|]; split; [done|]; intros ->; subst keyed; simpl; by rewrite map_find_erase, bool_decide_true].
  assert (Hfind : forall k' j, map_find k' keyed = Some j -> k' = k /\ j = set_dwi_changes i rest /\ rest <> [] \/ k' <> k /\ map_find k' (keyed_changes_ h) = Some j).
  { intros k' j. subst keyed. destruct rest as [|r rest]; [rewrite map_find_erase; case_bool_decide; [done|by right]|]. rewrite map_find_update. case_bool_decide as D; [|by right]. subst k'. rewrite Ei. intros [= <-]. left. done. }
  assert (Hother : forall k', k' <> k -> map_find k' keyed = map_find k' (keyed_changes_ h)).
  { intros k' D. subst keyed. destruct rest; [by rewrite map_find_erase, bool_decide_false|by rewrite map_find_update, bool_decide_false]. }
  assert (Hlive : forall x, x ∈ dw_changes h1 -> x ∈ dw_changes h /\ x ∉ pre) by (intros x; rewrite Hc1; intros [? ?]%list_elem_of_filter; done).
  split; simpl.
  - by apply base_set_keyed.
  - subst keyed. destruct rest; [apply map_erase_sorted, O|]. unfold keys_sorted. rewrite map_update_keys. apply O.
  - rewrite Cq. pose proof (dk_instances h O). unfold zlen in *. subst keyed. destruct rest; [pose proof (length_filter (fun kv : InstanceHandle_t * DataWriterInstance => kv.1 <> k) (keyed_changes_ h)); unfold map_erase; lia|].
    unfold map_update. by rewrite length_map.
  - rewrite Ck, Hkd. done.
  - intros _ x c Hx Ec. destruct (Hlive x Hx) as [Hx1 Hx2]. change (follow h1 x = Some c) in Ec. rewrite Hf1 in Ec by done. destruct (dk_listed h O Hkd x c Hx1 Ec) as (j & Ej & Hxj). destruct (decide (wc_handle c = k)) as [D|D].
    + rewrite D in *. rewrite Ei in Ej. injection Ej as <-. rewrite El in Hxj. apply elem_of_app in Hxj as [Hxj|Hxj]; [done|]. exists (set_dwi_changes i rest). split; [|done]. subst keyed. destruct rest; [by apply elem_of_nil in Hxj|].
      rewrite map_find_update, bool_decide_true by done. by rewrite Ei.
    + exists j. by rewrite Hother.
  - intros k' j Ej. assert (Hsub : forall m, m `sublist_of` dw_changes h -> (forall x, x ∈ m -> x ∉ pre) -> m `sublist_of` dw_changes h1).
    { intros m Hm Hmp. rewrite Hc1. rewrite <- (filter_everything (fun x => x ∉ pre) m) by done. by apply filter_sublist. }
    destruct (Hfind k' j Ej) as [(-> & -> & Hr)|[D Ej']].
    + rewrite El in *. apply list.NoDup_app in Hn as (Hn1 & Hn2 & Hn3). split; simpl.
      * apply Hsub; [by eapply sublist_app_r|]. intros x Hx Hp. by apply (Hn2 x).
      * intros x c Hx Ec. change (follow h1 x = Some c) in Ec. rewrite Hf1 in Ec by (intros Hp; by apply (Hn2 x)). apply (I2 x); [apply elem_of_app; by right|done].
      * rewrite Cq. unfold zlen in *. rewrite length_app in I3. lia.
    + destruct (dk_inst h O k' j Ej') as [J1 J2 J3]. assert (Hnp : forall x, x ∈ dwi_changes j -> x ∉ pre).
      { intros x Hx Hp. destruct (bf_live h B x) as [c Ec]; [by eapply sublist_elem|]. apply D. rewrite <- (J2 x c Hx Ec). apply (I2 x c); [rewrite El; apply elem_of_app; by left|done]. }
      split; simpl; [by apply Hsub| |by rewrite Cq]. intros x c Hx Ec. change (follow h1 x = Some c) in Ec. rewrite Hf1 in Ec by auto. by apply (J2 x).
  - rewrite Cq. apply O.
Qed.

(** ** Instances *)

Lemma i32_small (n : Z) : 0 <= n < 2 ^ 31 -> i32 n = n.
Proof. intros Hn. unfold i32. rewrite Z.mod_small by lia. destruct (Z.ltb_spec n (2 ^ 31)); lia. Qed.

Lemma find_or_add_key_ok h k payload found h' : dw_ok h -> dw_keyed h = true -> find_or_add_key h k payload = (found, h') ->
  dw_ok h' /\ h' = set_keyed h (keyed_changes_ h') /\ (forall k', k' <> k -> map_find k' (keyed_changes_ h') = map_find k' (keyed_changes_ h)) /\
  if found : bool then exists i, map_find k (keyed_changes_ h') = Some i /\ (map_find k (keyed_changes_ h) = Some i \/ map_find k (keyed_changes_ h) = None /\ dwi_changes i = [])
  else h' = h /\ map_find k (keyed_changes_ h) = None /\ zlen (keyed_changes_ h) = wq_max_instances (dw_qos h).
Proof.
  intros O Hkd E. unfold find_or_add_key in E. destruct (map_find k (keyed_changes_ h)) as [i|] eqn:Ei; [injection E as <- <-; split; [done|]; split; [by destruct h|]; split; [done|]; exists i; auto|].
  pose proof (dk_instances h O) as Hi. pose proof (proj2 (dk_qos h O)) as Hq. pose proof (zlen_nonneg (keyed_changes_ h)) as Hz. rewrite i32_small in E by lia. destruct (Z.ltb_spec (zlen (keyed_changes_ h)) (wq_max_instances (dw_qos h))) as [Hl|Hl].
  2:{ injection E as <- <-. split; [done|]. split; [by destruct h|]. split; [done|]. split; [done|]. split; [done|lia]. }
  injection E as <- <-. assert (Hf : forall k', map_find k' (map_emplace k (mkDWI [] 0 payload) (keyed_changes_ h)) = if bool_decide (k' = k) then Some (mkDWI [] 0 payload) else map_find k' (keyed_changes_ h)).
  { intros k'. rewrite map_find_emplace by apply O. case_bool_decide as D; [subst k'; by rewrite Ei|]. by destruct (map_find k' _). }
  split; [|split; [done|]; split; [intros k' D; simpl; by rewrite Hf, bool_decide_false|]; exists (mkDWI [] 0 payload); simpl; rewrite Hf, bool_decide_true by done; auto]. split; simpl.
  - apply base_set_keyed, O.
  - apply map_emplace_sorted, O.
  - assert (Hlen : forall l : list (InstanceHandle_t * DataWriterInstance), zlen (map_emplace k (mkDWI [] 0 payload) l) <= zlen l + 1).
    { intros l. unfold zlen. induction l as [|[k' w] l IH]; [done|]. simpl map_emplace. destruct (handle_ltb k k'); [simpl; lia|]. destruct (handle_ltb k' k); simpl; lia. }
    pose proof (Hlen (keyed_changes_ h)). lia.
  - by rewrite Hkd.
  - intros _ x c Hx Ec. destruct (dk_listed h O Hkd x c Hx Ec) as (j & Ej & Hxj). exists j. rewrite Hf. case_bool_decide as D; [congruence|done].
  - intros k' j. rewrite Hf. case_bool_decide as D; [|intros Ej; by destruct (dk_inst h O k' j Ej) as [J1 J2 J3]]. intros [= <-]. split; simpl; [apply sublist_nil_l|by intros x c ?%elem_of_nil|pose proof (proj1 (dk_qos h O)); unfold zlen; simpl; lia].
  - apply O.
Qed.
(** ** Adding *)

(** A change that exists and is not in the history yet. *)
Definition pending h a c : Prop := follow h a = Some c /\ a ∉ dw_changes h.

(** The change is behind the others of its instance. *)
Definition listed h a c : DataWriterHistory W :=
  match map_find (wc_handle c) (keyed_changes_ h) with
  | Some i => set_keyed h (map_update (wc_handle c) (set_dwi_changes i (dwi_changes i ++ [a])) (keyed_changes_ h))
  | None => h
  end.

Definition has_room h k : Prop := exists i, map_find k (keyed_changes_ h) = Some i /\ zlen (dwi_changes i) < instance_limit (dw_qos h).

Record committed h a c (o : OutChange) h' : Prop := {
  cm_ok : dw_ok h';
  cm_changes : dw_changes h' = dw_changes h ++ [a];
  cm_objects : dw_objects h' = <[a := set_wc_out c o]> (dw_objects h);
  cm_qos : dw_qos h' = dw_qos h /\ dw_keyed h' = dw_keyed h /\ dw_max_reserved h' = dw_max_reserved h;
  cm_last : sn_val (dw_last h') = sn_val (dw_last h) + 1;
  cm_keyed : forall k, map_find k (keyed_changes_ h') =
    (fun i => if bool_decide (k = wc_handle c) then set_dwi_changes i (dwi_changes i ++ [a]) else i) <$> map_find k (keyed_changes_ h);
  cm_told : unacked_told_ h' = unacked_told_ h
}.

Lemma listed_base h a c : base_of (listed h a c) = base_of h /\ follow (listed h a c) a = follow h a /\ dw_writer (listed h a c) = dw_writer h.
Proof. unfold listed. by destruct (map_find _ _). Qed.

Lemma add_change_refused h a c allowed b : pending h a c -> prepare_and_add_change (base_of h) allowed (wc_new c) = (None, b) -> add_change_ (listed h a c) a allowed = Some (false, listed h a c).
Proof. intros [Ec _] E. destruct (listed_base h a c) as (E1 & E2 & _). unfold add_change_. rewrite E2, Ec. cbn [mbind option_bind]. by rewrite E1, E. Qed.

Lemma prepare_fields b allowed ch o b' : prepare_and_add_change b allowed ch = (Some o, b') -> m_isHistoryFull b = false /\
  b' = mkWH (m_changes b ++ [o]) (m_lastCacheChangeSeqNum b') (i32 (zlen (m_changes b ++ [o])) =? maximumReservedCaches b) (preallocated_ b) (payloadMaxSize b) (maximumReservedCaches b) (high_mark_for_frag_ b').
Proof.
  unfold prepare_and_add_change. destruct (negb (new_own ch)); [done|]. destruct (_ && _); [done|]. destruct (m_isHistoryFull b) eqn:Ef; [done|]. destruct (writer_set_fragments _ ch). intros [= <- <-]. split; [done|]. simpl. f_equal. by destruct (_ =? _).
Qed.

Lemma outs_length objects l : (forall x, x ∈ l -> is_Some (objects !! x)) -> length (outs objects l) = length l.
Proof. induction l as [|x l IH]; intros Hl; [done|]. destruct (Hl x) as [c Ec]; [left|]. rewrite (outs_cons _ _ _ c Ec). simpl. rewrite IH; [done|]. intros y Hy. apply Hl. by right. Qed.

Lemma add_change_base h a c allowed o b : base_fine h -> pending h a c -> sn_val (dw_last h) + 259 < 2 ^ 63 -> zlen (dw_changes h) + 1 < 2 ^ 31 -> prepare_and_add_change (base_of h) allowed (wc_new c) = (Some o, b) -> writer_takes (base_of h) o ->
  exists h', add_change_ h a allowed = Some (true, h') /\ base_fine h' /\ dw_changes h' = dw_changes h ++ [a] /\ dw_objects h' = <[a := set_wc_out c o]> (dw_objects h) /\
    (dw_qos h' = dw_qos h /\ dw_keyed h' = dw_keyed h /\ dw_max_reserved h' = dw_max_reserved h) /\ sn_val (dw_last h') = sn_val (dw_last h) + 1 /\ keyed_changes_ h' = keyed_changes_ h /\ unacked_told_ h' = unacked_told_ h.
Proof.
  intros B [Ec Ha] Hlast Hsz E Htk. destruct (prepare_and_add_change_ok (base_of h) allowed (wc_new c) o b) as (Hb & Em & Es & Ev); [apply B|done|done|]. destruct (prepare_fields _ _ _ _ _ E) as [Ef Eb].
  unfold add_change_. rewrite Ec. cbn [mbind option_bind]. rewrite E. set (h1 := mkDW _ _ _ _ _ _ _ _ _ _ _ _ _ _).
  assert (Eo : outs (<[a := set_wc_out c o]> (dw_objects h)) (dw_changes h ++ [a]) = m_changes (base_of h) ++ [o]).
  { rewrite outs_app. f_equal; [|rewrite (outs_cons _ _ _ (set_wc_out c o)); [done|by rewrite lookup_insert_eq]]. apply outs_ext. intros x Hx. apply lookup_insert_ne. congruence. }
  assert (Efl : m_isHistoryFull b = (i32 (zlen (m_changes (base_of h) ++ [o])) =? dw_max_reserved h)) by (by rewrite Eb).
  assert (Eb1 : base_of h1 = b) by (rewrite Eb; unfold base_of at 1; f_equal; [exact Eo|exact Efl]).
  destruct (added_fine (dw_writer h) (base_of h) allowed (wc_new c) o b) as (w' & Ew & Hw); [apply B|apply B|done|done|]. change (dw_writer h1) with (dw_writer h). rewrite Eb1, Ew. cbn [mbind option_bind].
  eexists. split; [done|]. split; [|split; [done|]; split; [done|]; split; [done|]; split; [exact Ev|]; done].
  assert (Hlen : zlen (m_changes (base_of h) ++ [o]) = zlen (dw_changes h) + 1). { unfold zlen. rewrite length_app, base_changes, outs_length by apply (bf_live h B). simpl. lia. }
  assert (Hfull : dw_full h1 = (zlen (dw_changes h) + 1 =? dw_max_reserved h)). { subst h1. simpl. rewrite Efl, Hlen, i32_small; [done|]. pose proof (zlen_nonneg (dw_changes h)). lia. }
  set (h' := dw_set_changes _ _ _ _ _). assert (Eb' : base_of h' = b) by (rewrite <- Eb1; done). split.
  - by rewrite Eb'.
  - by rewrite Eb'.
  - simpl. apply list.NoDup_app. split; [apply B|]. split; [intros x Hx ->%list_elem_of_singleton; done|apply list.NoDup_singleton].
  - intros x Hx. unfold follow. simpl. simpl in Hx. destruct (decide (x = a)) as [->|Hne]; [by rewrite lookup_insert_eq|]. rewrite lookup_insert_ne by done. apply elem_of_app in Hx as [Hx|Hx%list_elem_of_singleton]; [by apply (bf_live h B)|done].
  - simpl. intros _. by destruct (dw_changes h).
  - intros Hm. simpl in Hm. destruct (bf_samples h B Hm) as [H1 H2]. change (dw_full h') with (dw_full h1). rewrite Hfull. simpl. unfold zlen in *. rewrite length_app. simpl. simpl in Ef.
    split; [destruct (Z.eq_dec (Z.of_nat (length (dw_changes h))) (dw_max_reserved h)) as [Eq|]; [specialize (H2 Eq); congruence|lia]|]. intros Eq. apply Z.eqb_eq. lia.
  - apply (bf_reserved h B).
Qed.
Lemma listed_find h a c k : map_find k (keyed_changes_ (listed h a c)) = (fun i => if bool_decide (k = wc_handle c) then set_dwi_changes i (dwi_changes i ++ [a]) else i) <$> map_find k (keyed_changes_ h).
Proof.
  unfold listed. destruct (map_find (wc_handle c) (keyed_changes_ h)) as [i|] eqn:Ei; simpl.
  - rewrite map_find_update. case_bool_decide as D; [subst k; by rewrite Ei|]. by destruct (map_find k _).
  - case_bool_decide as D; [subst k; by rewrite Ei|]. by destruct (map_find k _).
Qed.

Lemma listed_keys h a c : (keyed_changes_ (listed h a c)).*1 = (keyed_changes_ h).*1.
Proof. unfold listed. destruct (map_find _ _); [apply map_update_keys|done]. Qed.

(** A change is added to the history behind the others, after room has been made. *)
Lemma dw_add_change_ok h a c allowed o b : dw_ok h -> pending h a c -> (dw_keyed h = true -> has_room h (wc_handle c)) -> sn_val (dw_last h) + 259 < 2 ^ 63 -> zlen (dw_changes h) + 1 < 2 ^ 31 ->
  prepare_and_add_change (base_of h) allowed (wc_new c) = (Some o, b) -> writer_takes (base_of h) o -> exists h', add_change_ (listed h a c) a allowed = Some (true, h') /\ committed h a c o h'.
Proof.
  intros O [Ec Ha] Hroom Hlast Hsz E Htk. destruct (listed_base h a c) as (Eb & Ef & _). assert (Ed : dw_changes (listed h a c) = dw_changes h /\ dw_objects (listed h a c) = dw_objects h /\ dw_last (listed h a c) = dw_last h /\
    dw_qos (listed h a c) = dw_qos h /\ dw_keyed (listed h a c) = dw_keyed h /\ dw_max_reserved (listed h a c) = dw_max_reserved h /\ unacked_told_ (listed h a c) = unacked_told_ h) by (unfold listed; by destruct (map_find _ _)).
  destruct Ed as (D1 & D2 & D3 & D4 & D5 & D6 & D7). destruct (add_change_base (listed h a c) a c allowed o b) as (h' & E' & B' & C1 & C2 & (C3 & C4 & C5) & C6 & C7 & C8).
  - unfold listed. destruct (map_find _ _); [apply base_set_keyed|]; apply O.
  - unfold pending. by rewrite Ef, D1.
  - by rewrite D3.
  - by rewrite D1.
  - by rewrite Eb.
  - by rewrite Eb.
  - rewrite D1 in C1. rewrite D2 in C2. rewrite D3 in C6. rewrite D4 in C3. rewrite D5 in C4. rewrite D6 in C5. rewrite D7 in C8. exists h'. split; [done|]. split; try done; [|intros k; rewrite C7; apply listed_find].
    assert (Hfo : forall x, x <> a -> follow h' x = follow h x) by (intros x Hx; unfold follow; rewrite C2; by apply lookup_insert_ne). split.
    + done.
    + unfold keys_sorted. rewrite C7, listed_keys. apply O.
    + rewrite C7, C3. pose proof (dk_instances h O) as Hi. unfold zlen in *. by rewrite <- (length_fmap fst), listed_keys, length_fmap.
    + rewrite C4, C7. intros Hkd. pose proof (listed_keys h a c) as Hl. rewrite (dk_no_keys h O Hkd) in Hl. by destruct (keyed_changes_ (listed h a c)).
    + rewrite C4, C1. intros Hkd x d Hx Ed. destruct (decide (x = a)) as [->|Hne].
      * unfold follow in Ed. rewrite C2, lookup_insert_eq in Ed. injection Ed as <-. destruct (Hroom Hkd) as (i & Ei & _). eexists. rewrite C7, listed_find. simpl. rewrite Ei, bool_decide_true by done. split; [done|]. simpl. apply elem_of_app. right. left.
      * rewrite Hfo in Ed by done. apply elem_of_app in Hx as [Hx|Hx%list_elem_of_singleton]; [|done]. destruct (dk_listed h O Hkd x d Hx Ed) as (i & Ei & Hxi). eexists. rewrite C7, listed_find, Ei. split; [done|]. case_bool_decide; [|done]. simpl. apply elem_of_app. by left.
    + intros k j. rewrite C7, listed_find. destruct (map_find k (keyed_changes_ h)) as [i|] eqn:Ei; [|done]. intros [= <-]. destruct (dk_inst h O k i Ei) as [I1 I2 I3].
      assert (Hni : forall x, x ∈ dwi_changes i -> x <> a) by (intros x Hx ->; apply Ha; by eapply sublist_elem). split.
      * rewrite C1. case_bool_decide; simpl; [by apply sublist_app|]. by apply sublist_inserts_r.
      * intros x d Hx Ed. case_bool_decide as D; simpl in Hx; [|rewrite Hfo in Ed by auto; by apply (I2 x)]. apply elem_of_app in Hx as [Hx|Hx%list_elem_of_singleton]; [rewrite Hfo in Ed by auto; by apply (I2 x)|]. subst x. unfold follow in Ed. rewrite C2, lookup_insert_eq in Ed. injection Ed as <-. by rewrite D.
      * rewrite C3. case_bool_decide as D; simpl; [|done]. unfold zlen in *. rewrite length_app. simpl. destruct (dw_keyed h) eqn:Hkd; [|rewrite (dk_no_keys h O Hkd) in Ei; done]. destruct (Hroom eq_refl) as (i' & Ei' & Hlt). rewrite <- D, Ei in Ei'. injection Ei' as <-. unfold zlen in Hlt. lia.
    + rewrite C3. apply O.
Qed.
End Invariant.
