(* ===== verification/DataWriterHistoryLaws.v ===== *)
(** * What the history of a data writer guarantees

    Room for a new change, and runs of the history: its limits hold, its pointers
    are sound, room is made with KEEP_ALL from changes the writer calls acknowledged,
    and a write succeeds with KEEP_LAST unless its instance is one too many.  While
    a write waits, the readers may acknowledge or time may end, and nobody else
    changes the history ([waits_ok]); [Acked] is any property the acknowledgements
    of the writer imply. *)

From Stdlib Require Import Sorted.
From stdpp Require Import gmap.
From S2P Require Import Prelude SequenceNumber LimitedVector WriterProxyInv ParameterList WriterHistory Handles DataWriterHistory DataWriterHistoryInv.

Section Laws.
Context {W : Type} `{RtpsWriterLaws W}.
Implicit Types (h : DataWriterHistory W) (a : nat) (c : WChange) (k : InstanceHandle_t) (i : DataWriterInstance).

Context (wait_removal : DataWriterHistory W -> Z * DataWriterHistory W) (wait_acked : SequenceNumber_t -> DataWriterHistory W -> bool * DataWriterHistory W).
Context (Acked : SequenceNumber_t -> Prop) (Hacked : forall w b s, writer_fine w b -> acked w b s = Some true -> Acked s).

(** Nothing but the state of the writer has changed. *)
Definition quiet h h' : Prop := exists w, h' = dw_set_changes h (dw_changes h) (dw_objects h) (dw_full h) w /\ writer_fine w (base_of h).

Definition first_acked h w : Prop := forall a c l, dw_changes h = a :: l -> follow h a = Some c -> acked w (base_of h) (wc_seq c) = Some true.

(** What a wait may do: time may be over, or the readers acknowledge. *)
Record waits_ok : Prop := {
  wt_removal h : dw_ok h -> quiet h (wait_removal h).2 /\ ((wait_removal h).1 = 0 \/ (wait_removal h).1 = 1 /\ first_acked h (dw_writer (wait_removal h).2));
  wt_acked s h : dw_ok h -> quiet h (wait_acked s h).2 /\ ((wait_acked s h).1 = true -> acked (dw_writer (wait_acked s h).2) (base_of h) s = Some true)
}.

(** ** Making room *)

Record made_room h h' : Prop := {
  mr_ok : dw_ok h';
  mr_config : config h' = config h;
  mr_changes : dw_changes h' `sublist_of` dw_changes h;
  mr_pending : forall a c, pending h a c -> pending h' a c;
  mr_kept : forall a, a ∈ dw_changes h' -> follow h' a = follow h a;
  mr_acked : wq_keep_all (dw_qos h) = true -> forall a c, a ∈ dw_changes h -> follow h a = Some c -> a ∈ dw_changes h' \/ Acked (wc_seq c);
  mr_full : dw_full h' = true -> dw_full h = true;
  mr_keys : forall k, k ∈ (keyed_changes_ h).*1 -> k ∈ (keyed_changes_ h').*1
}.

Lemma made_room_refl h : dw_ok h -> made_room h h.
Proof. intros O. split; auto. Qed.

Lemma made_room_trans h1 h2 h3 : made_room h1 h2 -> made_room h2 h3 -> made_room h1 h3.
Proof.
  intros [O1 C1 S1 P1 K1 A1 F1 Y1] [O2 C2 S2 P2 K2 A2 F2 Y2]. split; try done; [congruence|by etrans|auto| | |auto|auto].
  - intros a Ha. rewrite K2 by done. apply K1. by eapply sublist_elem.
  - intros Hk a c Ha Ec. destruct (A1 Hk a c Ha Ec) as [Ha2|]; [|by right]. apply A2; [|done|by rewrite K1]. destruct (config_inj _ _ C1) as (_ & _ & -> & _). done.
Qed.

Lemma taken_room h a h' : dw_ok h -> a ∈ dw_changes h -> taken h a h' -> (wq_keep_all (dw_qos h) = true -> forall c, follow h a = Some c -> Acked (wc_seq c)) -> made_room h h'.
Proof.
  intros O Ha [T1 T2 T3 T4 T5 T6 T7 T8] Hk. assert (Hf : forall x, x <> a -> follow h' x = follow h x) by (intros x Hx; unfold follow; rewrite T3; by apply lookup_delete_ne). split; try done.
  - rewrite T2. apply sublist_filter.
  - intros x c [Ex Hx]. assert (x <> a) by congruence. split; [by rewrite Hf|]. rewrite T2. intros [_ ?]%list_elem_of_filter. done.
  - intros x Hx. rewrite T2 in Hx. apply list_elem_of_filter in Hx as [Hx _]. by apply Hf.
  - intros Hka x c Hx Ec. destruct (decide (x = a)) as [->|Hne]; [right; by apply Hk|left]. rewrite T2. by apply list_elem_of_filter.
  - congruence.
  - by rewrite T7.
Qed.

Lemma same_base_ok h h' : dw_ok h -> base_fine h' -> dw_changes h' = dw_changes h -> dw_objects h' = dw_objects h -> config h' = config h -> keyed_changes_ h' = keyed_changes_ h -> dw_ok h'.
Proof.
  intros [O1 O2 O3 O4 O5 O6 O7] B E1 E2 C K. destruct (config_inj _ _ C) as (_ & _ & Cq & Ck). split; rewrite ?K, ?Cq, ?Ck, ?E1; try done.
  - intros Hk a c Ha Ec. unfold follow in Ec. rewrite E2 in Ec. by apply O5.
  - intros k i Ei. destruct (O6 k i Ei) as [I1 I2 I3]. split; rewrite ?E1, ?Cq; [done| |done]. intros a c Ha Ec. unfold follow in Ec. rewrite E2 in Ec. by apply (I2 a).
Qed.

Lemma quiet_room h h' : dw_ok h -> quiet h h' -> made_room h h' /\ base_of h' = base_of h /\ keyed_changes_ h' = keyed_changes_ h /\ dw_changes h' = dw_changes h /\ dw_objects h' = dw_objects h /\ dw_full h' = dw_full h /\ unacked_told_ h' = unacked_told_ h.
Proof.
  intros O (w & -> & Hw). split; [|done]. assert (dw_ok (dw_set_changes h (dw_changes h) (dw_objects h) (dw_full h) w)) as O'.
  { apply (same_base_ok h); try done. destruct (dk_base h O) as [B1 B2 B3 B4 B5 B6 B7]. split; done. }
  split; try done. intros _ a c Ha _. by left.
Qed.

Lemma tell_room h k : dw_ok h -> made_room h (tell_unacked h k).
Proof.
  intros O. split; try done; [|intros _ a c Ha _; by left]. apply (same_base_ok h); try done. destruct (dk_base h O) as [B1 B2 B3 B4 B5 B6 B7]. split; done.
Qed.

Lemma tell_if_room h (b : bool) k : dw_ok h -> made_room h (if b then h else tell_unacked h k).
Proof. intros O. destruct b; [by apply made_room_refl|by apply tell_room]. Qed.

Lemma key_room h k payload found h' : dw_ok h -> dw_keyed h = true -> find_or_add_key h k payload = (found, h') -> made_room h h'.
Proof.
  intros O Hk E. destruct (find_or_add_key_ok h k payload found h' O Hk E) as (O' & Eh & _). assert (Hk' : forall k', k' ∈ (keyed_changes_ h).*1 -> k' ∈ (keyed_changes_ h').*1).
  { unfold find_or_add_key in E. destruct (map_find k _); [by injection E as _ <-|]. destruct (_ <? _); injection E as _ <-; [|done]. intros k' Hk'. simpl. apply map_emplace_keys. by right. }
  rewrite Eh in *. split; try done. intros _ a c Ha _. by left.
Qed.

Lemma answers h a c : dw_ok h -> a ∈ dw_changes h -> follow h a = Some c -> exists b, acked (dw_writer h) (base_of h) (wc_seq c) = Some b.
Proof. intros O Ha Ec. apply acked_answers; [apply O|apply O|by apply (usable_follow h a); [apply O|..]|by apply (in_history_follow h a)]. Qed.

Context (Hwaits : waits_ok).

(** The first change is acknowledged, and removed. *)
Lemma remove_acked_min h h0 : dw_ok h -> made_room h0 h -> wq_keep_all (dw_qos h0) = true -> first_acked h (dw_writer h) -> dw_changes h <> [] ->
  exists h', remove_min_change h = Some (true, h') /\ made_room h0 h' /\ dw_full h' = false.
Proof.
  intros O M Hk Hfa Hne. destruct (dw_changes h) as [|a l] eqn:E; [done|]. destruct (remove_min_change_ok h a l O E) as (h' & E' & T & _). exists h'. split; [done|]. split; [|apply T].
  eapply made_room_trans; [exact M|]. apply (taken_room h a); [done|rewrite E; left|done|]. intros _ c Ec. eapply Hacked; [apply O|]. by apply (Hfa a c l).
Qed.

Lemma try_remove_ok h : dw_ok h -> wq_keep_all (dw_qos h) = true -> dw_full h = true ->
  exists r h', dw_try_remove_change wait_removal h = Some (r, h') /\ made_room h h' /\ (r = true -> dw_full h' = false).
Proof.
  intros O Hk Hf. pose proof (bf_full h (dk_base h O) Hf) as Hne. unfold dw_try_remove_change. destruct (some_acked (dw_writer h) (base_of h)) eqn:Es.
  - cbn [Z.eqb]. destruct (remove_acked_min h h) as (h' & E & M & F); [done|by apply made_room_refl|done| |done|]; [|exists true, h'; auto]. intros a c l E Ec. destruct (dk_base h O) as [B1 B2 B3 B4 B5 B6 B7].
    refine (some_acked_first (dw_writer h) (base_of h) (wc_out c) (outs (dw_objects h) l) B2 B1 _ Es). rewrite base_changes, E. by apply outs_cons.
  - destruct (wt_removal Hwaits h O) as [Q R]. destruct (wait_removal h) as [may h1]. simpl in *. destruct (quiet_room h h1 O Q) as (M & Eb & _ & Ec & Eo & Ef & _). destruct R as [->|[-> R]].
    + exists false, h1. done.
    + cbn [Z.eqb]. destruct (remove_acked_min h1 h) as (h' & E & M' & F); [apply M|done|done| |by rewrite Ec|exists true, h'; auto]. intros a c l E1 E2. rewrite Eb. rewrite Ec in E1. unfold follow in E2. rewrite Eo in E2. by apply (R a c l).
Qed.

(** A history that is full gets room, or the write is given up. *)
Lemma room_in_history_ok h : dw_ok h -> exists r h', make_room_in_history wait_removal h = Some (r, h') /\ made_room h h' /\ if r : bool then dw_full h' = false /\ (wq_keep_all (dw_qos h) = false -> (dw_full h = false -> h' = h) /\ dw_changes h' = (if dw_full h then tail (dw_changes h) else dw_changes h) /\ (keyed_changes_ h').*1 = (keyed_changes_ h).*1) else wq_keep_all (dw_qos h) = true /\ dw_full h = true.
Proof.
  intros O. unfold make_room_in_history. destruct (dw_full h) eqn:Hf; [|exists true, h; split; [done|]; split; [by apply made_room_refl|by rewrite Hf]].
  pose proof (bf_full h (dk_base h O) Hf) as Hne. destruct (dw_changes h) as [|a l] eqn:E; [done|]. assert (Ha : a ∈ dw_changes h) by (rewrite E; left). destruct (bf_live h (dk_base h O) a Ha) as [c Ec]. cbn [head mbind option_bind]. rewrite Ec. cbn [mbind option_bind].
  destruct (answers h a c O Ha Ec) as [b ->]. cbn [mbind option_bind]. destruct (wq_keep_all (dw_qos h)) eqn:Hk.
  - destruct (try_remove_ok h O Hk Hf) as (r & h1 & -> & M & F). cbn [mbind option_bind]. destruct r; [|exists false, h1; done]. specialize (F eq_refl).
    pose proof (tell_if_room h1 b (if dw_keyed h then wc_handle c else c_InstanceHandle_Unknown) (mr_ok _ _ M)) as M2. set (h2 := if b then h1 else _) in *. assert (F2 : dw_full h2 = false) by (subst h2; by destruct b). rewrite F2. exists true, h2. split; [done|]. split; [by eapply made_room_trans|done].
  - destruct (remove_min_change_ok h a l O E) as (h1 & -> & T & El). cbn [mbind option_bind]. assert (M : made_room h h1) by (apply (taken_room h a); [done|done|done|congruence]). pose proof (tk_full _ _ _ T) as F.
    pose proof (tell_if_room h1 b (if dw_keyed h then wc_handle c else c_InstanceHandle_Unknown) (mr_ok _ _ M)) as M2. set (h2 := if b then h1 else _) in *. assert (F2 : dw_full h2 = false) by (subst h2; by destruct b). rewrite F2. exists true, h2. split; [done|]. split; [by eapply made_room_trans|]. split; [done|]. intros _. split; [done|]. replace (dw_changes h2) with (dw_changes h1) by (subst h2; by destruct b). split; [by rewrite El|]. replace (keyed_changes_ h2) with (keyed_changes_ h1) by (subst h2; by destruct b). apply T.
Qed.
Lemma limit_u64 h : dw_ok h -> u64 (instance_limit (dw_qos h)) = instance_limit (dw_qos h).
Proof. intros O. pose proof (proj1 (dk_qos h O)). unfold u64. apply Z.mod_small. lia. Qed.

Lemma room_after h f h' k i : dw_ok h -> map_find k (keyed_changes_ h) = Some i -> f ∈ dwi_changes i -> taken h f h' -> has_room h' k.
Proof.
  intros O Ei Hf T. destruct (config_inj _ _ (tk_config _ _ _ T)) as (_ & _ & Cq & _). eexists. split; [by rewrite (tk_keyed _ _ _ T), Ei|]. simpl. rewrite Cq. pose proof (filter_length (dwi_changes i) f Hf). pose proof (wi_limit _ _ _ (dk_inst h O k i Ei)). lia.
Qed.

(** The first change of an instance that is full. *)
Lemma full_instance h k i : dw_ok h -> map_find k (keyed_changes_ h) = Some i -> (zlen (dwi_changes i) <? u64 (instance_limit (dw_qos h))) = false ->
  exists f l cf, dwi_changes i = f :: l /\ f ∈ dw_changes h /\ follow h f = Some cf /\ wc_handle cf = k.
Proof.
  intros O Ei Hl. rewrite limit_u64 in Hl by done. apply Z.ltb_ge in Hl. pose proof (proj1 (dk_qos h O)). destruct (dk_inst h O k i Ei) as [I1 I2 I3]. destruct (dwi_changes i) as [|f l] eqn:E; [unfold zlen in Hl; simpl in Hl; lia|].
  assert (Hf : f ∈ dw_changes h) by (eapply sublist_elem; [exact I1|left]). destruct (bf_live h (dk_base h O) f Hf) as [cf Ef]. exists f, l, cf. split; [done|]. split; [done|]. split; [done|]. apply (I2 f); [left|done].
Qed.

Lemma wait_ok h f cf : dw_ok h -> f ∈ dw_changes h -> follow h f = Some cf ->
  exists r h', wait_for_acknowledgement wait_acked h (wc_seq cf) = Some (r, h') /\ quiet h h' /\ (r = true -> Acked (wc_seq cf)).
Proof.
  intros O Hf Ef. unfold wait_for_acknowledgement. destruct (answers h f cf O Hf Ef) as [b Eb]. rewrite Eb. cbn [mbind option_bind]. destruct b.
  - exists true, h. split; [done|]. split; [exists (dw_writer h); split; [by destruct h|apply O]|]. intros _. eapply Hacked; [apply O|exact Eb].
  - destruct (wt_acked Hwaits (wc_seq cf) h O) as [Q R]. destruct (wait_acked (wc_seq cf) h) as [r h']. exists r, h'. split; [done|]. split; [done|]. intros ->. simpl in *. destruct Q as (w & -> & Hw). eapply Hacked; [exact Hw|]. by apply R.
Qed.

Lemma find_key_again h k payload i : map_find k (keyed_changes_ h) = Some i -> find_or_add_key h k payload = (true, h).
Proof. intros Ei. unfold find_or_add_key. by rewrite Ei. Qed.

(** What makes room for a change with KEEP_LAST: the oldest change of its instance
    when the instance is full, the oldest of all when the history is. *)
Definition evicted_in_instance h c : list nat :=
  match map_find (wc_handle c) (keyed_changes_ h) with
  | Some i => if zlen (dwi_changes i) <? instance_limit (dw_qos h) then [] else take 1 (dwi_changes i)
  | None => []
  end.
Definition evicted h c : list nat := if dw_full h then take 1 (dw_changes h) else if dw_keyed h then evicted_in_instance h c else [].

Lemma filter_none (l : list nat) : filter (fun x => x ∉ []) l = l.
Proof. apply filter_everything. intros x _. apply not_elem_of_nil. Qed.

(** The instance of the change gets room, or the write is given up. *)
Lemma room_in_instance_ok fuel h a c : dw_ok h -> dw_keyed h = true -> pending h a c ->
  exists r h', make_room_in_instance wait_acked (S fuel) h a = Some (r, h') /\ made_room h h' /\
    if r : bool then has_room h' (wc_handle c) /\ (wq_keep_all (dw_qos h) = false -> dw_changes h' = filter (fun x => x ∉ evicted_in_instance h c) (dw_changes h))
    else wq_keep_all (dw_qos h) = true \/ map_find (wc_handle c) (keyed_changes_ h) = None /\ zlen (keyed_changes_ h) = wq_max_instances (dw_qos h).
Proof.
  intros O Hkd Hp. cbn [make_room_in_instance]. rewrite (proj1 Hp). cbn [mbind option_bind]. destruct (find_or_add_key h (wc_handle c) (wc_payload c)) as [found h1] eqn:Ek.
  pose proof (key_room _ _ _ _ _ O Hkd Ek) as M1. destruct (find_or_add_key_ok _ _ _ _ _ O Hkd Ek) as (O1 & Eh1 & _ & Hk). destruct found; cbn [negb]; [|exists false, h1; destruct Hk as (-> & Hk1 & Hk2); auto].
  destruct Hk as (i & Ei & Hi). rewrite Ei. cbn [mbind option_bind]. destruct (config_inj _ _ (mr_config _ _ M1)) as (_ & _ & Cq & Ck). rewrite Cq. destruct (wq_keep_all (dw_qos h)) eqn:Hka.
  - assert (Hlim : wq_max_samples_per_instance (dw_qos h) = instance_limit (dw_qos h1)) by (rewrite Cq; unfold instance_limit; by rewrite Hka). rewrite Hlim. destruct (zlen (dwi_changes i) <? u64 (instance_limit (dw_qos h1))) eqn:Hl.
    { exists true, h1. split; [done|]. split; [done|]. split; [exists i; split; [done|]; rewrite limit_u64 in Hl by done; by apply Z.ltb_lt|]. done. }
    destruct (full_instance h1 (wc_handle c) i O1 Ei Hl) as (f & l & cf & El & Hf & Ef & Hfh). rewrite El. cbn [head mbind option_bind]. rewrite Ef. cbn [mbind option_bind]. destruct (wait_ok h1 f cf O1 Hf Ef) as (r & h2 & -> & Q & HA). cbn [mbind option_bind].
    destruct (quiet_room h1 h2 O1 Q) as (M2 & _ & K2 & D2 & Ob2 & _). destruct r; cbn [negb]; [|exists false, h2; split; [done|]; split; [by eapply made_room_trans|by left]].
    rewrite (find_key_again h2 _ _ i) by (by rewrite K2). cbn [negb]. rewrite K2, Ei. cbn [mbind option_bind]. rewrite El. assert (Ef2 : follow h2 f = Some cf) by (unfold follow; by rewrite Ob2). rewrite Ef2. cbn [mbind option_bind].
    pose proof (usable_follow h1 f cf (dk_base _ O1) Hf Ef) as U. rewrite sn_eqb_val by (destruct U; auto). rewrite Z.eqb_refl. destruct (remove_change_pub_ok h2 f) as (h3 & -> & T); [apply M2|by rewrite D2|]. cbn [mbind option_bind]. exists true, h3. split; [done|]. split.
    + eapply made_room_trans; [exact M1|]. eapply made_room_trans; [exact M2|]. apply (taken_room h2 f); [apply M2|by rewrite D2|done|]. intros _ c' Ec'. assert (c' = cf) as -> by congruence. by apply HA.
    + split; [|done]. apply (room_after h2 f h3 _ i); [apply M2|by rewrite K2|rewrite El; left|done].
  - assert (Hlim : wq_depth (dw_qos h) = instance_limit (dw_qos h1)) by (rewrite Cq; unfold instance_limit; by rewrite Hka). rewrite Hlim. destruct (zlen (dwi_changes i) <? u64 (instance_limit (dw_qos h1))) eqn:Hl.
    { exists true, h1. split; [done|]. split; [done|]. split; [exists i; split; [done|]; rewrite limit_u64 in Hl by done; by apply Z.ltb_lt|]. intros _. rewrite limit_u64, Cq in Hl by done.
      assert (evicted_in_instance h c = []) as -> by (unfold evicted_in_instance; destruct Hi as [->|[-> _]]; [by rewrite Hl|done]). rewrite filter_none. by rewrite Eh1. }
    destruct (full_instance h1 (wc_handle c) i O1 Ei Hl) as (f & l & cf & El & Hf & Ef & Hfh). rewrite El. cbn [head mbind option_bind]. rewrite Ef. cbn [mbind option_bind]. destruct (answers h1 f cf O1 Hf Ef) as [b ->]. cbn [mbind option_bind].
    destruct (remove_change_pub_ok h1 f O1 Hf) as (h2 & -> & T). cbn [mbind option_bind]. eexists true, _. split; [done|]. split.
    + eapply made_room_trans; [exact M1|]. eapply made_room_trans; [apply (taken_room h1 f); [done|done|done|congruence]|]. apply tell_if_room, T.
    + assert (R : has_room h2 (wc_handle c)) by (apply (room_after h1 f h2 _ i); [done|done|rewrite El; left|done]). split; [by destruct b|]. intros _. rewrite limit_u64, Cq in Hl by done. assert (evicted_in_instance h c = [f]) as ->.
      { unfold evicted_in_instance. destruct Hi as [->|[_ Hn]]; [rewrite Hl, El; done|congruence]. }
      replace (dw_changes (if b then h2 else _)) with (dw_changes h2) by (by destruct b). rewrite (tk_changes _ _ _ T). rewrite Eh1. simpl. apply list_filter_iff. intros x. rewrite list_elem_of_singleton. done.
Qed.

(** ** A write *)

Lemma prepare_change_ok fuel h a c : dw_ok h -> pending h a c ->
  exists (r : bool) h', prepare_change wait_removal wait_acked (S fuel) h a = Some (r, if r then listed h' a c else h') /\ made_room h h' /\
    if r : bool then dw_full h' = false /\ (dw_keyed h = true -> has_room h' (wc_handle c)) /\
      (wq_keep_all (dw_qos h) = false -> (dw_full h = true -> dw_keyed h = false) -> dw_changes h' = filter (fun x => x ∉ evicted h c) (dw_changes h))
    else wq_keep_all (dw_qos h) = true \/ dw_keyed h = true /\ map_find (wc_handle c) (keyed_changes_ h) = None /\ zlen (keyed_changes_ h) = wq_max_instances (dw_qos h).
Proof.
  intros O Hp. unfold prepare_change. destruct (room_in_history_ok h O) as (r & h1 & -> & M1 & R1). cbn [mbind option_bind]. destruct r; cbn [negb]; [|exists false, h1; split; [done|]; split; [done|]; left; by destruct R1].
  destruct (config_inj _ _ (mr_config _ _ M1)) as (_ & _ & Cq & Ck). pose proof (mr_ok _ _ M1) as O1. pose proof (mr_pending _ _ M1 a c Hp) as Hp1. destruct (dw_keyed h) eqn:Hkd; rewrite Ck; cbn [negb].
  - destruct (room_in_instance_ok fuel h1 a c O1) as (r & h2 & -> & M2 & R2); [congruence|done|]. cbn [mbind option_bind]. destruct r.
    + destruct (mr_pending _ _ M2 a c Hp1) as [Ec2 _]. rewrite Ec2. cbn [mbind option_bind]. exists true, h2. destruct R2 as [(i & Ei & Hi) Hev]. rewrite Ei. cbn [mbind option_bind]. split; [unfold listed; by rewrite Ei|]. split; [by eapply made_room_trans|]. destruct R1 as [F1 R1].
      split; [destruct (dw_full h2) eqn:F; [|done]; pose proof (mr_full _ _ M2 F); congruence|]. split; [intros _; by exists i|]. intros Hka Hfull. destruct (dw_full h) eqn:Hf; [by specialize (Hfull eq_refl)|].
      destruct (R1 Hka) as (R1' & _). rewrite (R1' eq_refl) in Hev. rewrite (Hev Hka). unfold evicted. by rewrite Hf, Hkd.
    + exists false, h2. split; [done|]. split; [by eapply made_room_trans|]. rewrite Cq in R2. destruct (wq_keep_all (dw_qos h)) eqn:Hka; [by left|right]. destruct R2 as [|[R2 Rn]]; [done|]. split; [done|]. destruct R1 as [_ R1]. destruct (R1 eq_refl) as (_ & _ & Hkeq). split; [|rewrite <- Rn; unfold zlen; f_equal; by rewrite <- !(length_fmap fst), Hkeq].
      destruct (map_find (wc_handle c) (keyed_changes_ h)) as [i|] eqn:Ei; [|done]. exfalso. revert R2. assert (Hkeys : (wc_handle c) ∈ (keyed_changes_ h1).*1); [|by intros Hn%map_find_None].
      apply (mr_keys _ _ M1). destruct (decide (wc_handle c ∈ (keyed_changes_ h).*1)) as [|Hn]; [done|]. apply map_find_None in Hn. congruence.
  - exists true, h1. split; [f_equal; f_equal; unfold listed; by rewrite (dk_no_keys h1 O1 Ck)|]. split; [done|]. destruct R1 as [F1 R1]. split; [done|]. split; [done|]. intros Hka _. destruct (R1 Hka) as (_ & -> & _). unfold evicted. rewrite Hkd.
    destruct (dw_full h) eqn:Hf; [|by rewrite filter_none]. pose proof (bf_nodup h (dk_base h O)) as Hn. destruct (dw_changes h) as [|x l]; [done|]. apply list.NoDup_cons in Hn as [Hx _]. simpl. rewrite filter_cons_False by (rewrite list_elem_of_singleton; tauto).
    symmetry. apply filter_everything. intros y Hy ->%list_elem_of_singleton. done.
Qed.

(** A change the writer may be given: it is the writer's own, its payload fits, and
    numbers are left. *)
Record sendable h c (allowed : Z) : Prop := {
  sd_own : new_own (wc_new c) = true;
  sd_fits : dw_preallocated h && (new_length (wc_new c) >? dw_payload_max h) = false;
  sd_last : sn_val (dw_last h) + 259 < 2 ^ 63;
  sd_size : zlen (dw_changes h) + 1 < 2 ^ 31;
  sd_takes : forall b o b', m_lastCacheChangeSeqNum b = dw_last h -> high_mark_for_frag_ b = dw_high_mark h -> prepare_and_add_change b allowed (wc_new c) = (Some o, b') -> writer_takes b o
}.

Lemma prepare_accepts b allowed ch : new_own ch = true -> preallocated_ b && (new_length ch >? payloadMaxSize b) = false -> m_isHistoryFull b = false -> exists o b', prepare_and_add_change b allowed ch = (Some o, b').
Proof. intros H1 H2 H3. unfold prepare_and_add_change. rewrite H1, H2, H3. cbn [negb]. destruct (writer_set_fragments _ ch). by eexists _, _. Qed.

(** A write ends: room is made and the change is the last of the history, or there
    was no room in time, or the instances are exhausted. *)
Lemma add_pub_change_ok fuel h a c allowed : dw_ok h -> pending h a c -> sendable h c allowed ->
  exists (r : bool) h1 h', add_pub_change wait_removal wait_acked (S fuel) h a allowed = Some (r, h') /\ made_room h h1 /\
    if r then (exists o, committed h1 a c o h') /\ (wq_keep_all (dw_qos h) = false -> (dw_full h = true -> dw_keyed h = false) -> dw_changes h1 = filter (fun x => x ∉ evicted h c) (dw_changes h)) else h' = h1 /\ (wq_keep_all (dw_qos h) = true \/ dw_keyed h = true /\ map_find (wc_handle c) (keyed_changes_ h) = None /\ zlen (keyed_changes_ h) = wq_max_instances (dw_qos h)).
Proof.
  intros O Hp [S1 S2 S3 S4 S5]. unfold add_pub_change. destruct (prepare_change_ok fuel h a c O Hp) as (r & h1 & -> & M & R). cbn [mbind option_bind]. destruct r; [|exists false, h1, h1; auto].
  destruct R as (Hf & Hr & Hev). pose proof (mr_config _ _ M) as C. unfold config in C. injection C as C1 C2 C3 C4 C5 C6 C7. destruct (prepare_accepts (base_of h1) allowed (wc_new c)) as (o & b & Eo); [done|simpl; congruence|done|].
  destruct (dw_add_change_ok h1 a c allowed o b) as (h' & E' & Cm); [apply M|by apply (mr_pending _ _ M)|intros Hk; apply Hr; congruence|congruence| |done|apply (S5 (base_of h1) o b); done|].
  { unfold zlen in *. pose proof (sublist_length _ _ (mr_changes _ _ M)). lia. }
  exists true, h1, h'. split; [done|]. split; [done|]. split; [by exists o|done].
Qed.

(** ** Runs *)

Inductive dw_op :=
  | WWrite (a : nat) (c : WChange) (allowed : Z)
  | WRemove (a : nat)
  | WRemoveMin
  | WRemoveAll
  | WRemoveInstance (k : InstanceHandle_t) (s : SequenceNumber_t)
  | WRegister (k : InstanceHandle_t)
  | WDeadline (k : InstanceHandle_t) (t : Z)
  | WWriter (w : W).

(** A change that could not be added is released again. *)
Definition dw_step h (op : dw_op) : option (DataWriterHistory W) :=
  match op with
  | WWrite a c allowed =>
      '(added, h) ← add_pub_change wait_removal wait_acked 1 (set_objects h (<[a := c]> (dw_objects h))) a allowed;
      Some (if added : bool then h else set_objects h (delete a (dw_objects h)))
  | WRemove a => '(_, h) ← remove_change_pub h a; Some h
  | WRemoveMin => '(_, h) ← removeMinChange h; Some h
  | WRemoveAll => '(_, h) ← removeAllChange h; Some h
  | WRemoveInstance k s => '(_, h) ← remove_instance_changes h k s; Some h
  | WRegister k => Some (register_instance h k).2
  | WDeadline k t => Some (dw_set_next_deadline h k t).2
  | WWriter w => Some (dw_set_changes h (dw_changes h) (dw_objects h) (dw_full h) w)
  end.

(** What the callers see to: the pool gives an object that is not in use, a change
    that is removed is one of the history. *)
Definition dw_allowed h (op : dw_op) : Prop :=
  match op with
  | WWrite a c allowed => follow h a = None /\ sendable h c allowed
  | WRemove a => a ∈ dw_changes h
  | WWriter w => writer_fine w (base_of h)
  | _ => True
  end.

Lemma objects_ok h objects : dw_ok h -> (forall a, a ∈ dw_changes h -> objects !! a = dw_objects h !! a) -> dw_ok (set_objects h objects).
Proof.
  intros O Ho. assert (Eb : base_of (set_objects h objects) = base_of h) by (unfold base_of; simpl; f_equal; by apply outs_ext). destruct (dk_base h O) as [B1 B2 B3 B4 B5 B6 B7].
  assert (Hf : forall a, a ∈ dw_changes h -> follow (set_objects h objects) a = follow h a) by (intros a Ha; unfold follow; simpl; by apply Ho). destruct O as [_ O1 O2 O3 O4 O5 O6]. split; try done.
  - split; try done; [by rewrite Eb|by rewrite Eb|]. intros a Ha. simpl in Ha. rewrite Hf by done. by apply B4.
  - intros Hk a c Ha Ec. simpl in Ha. rewrite Hf in Ec by done. by apply O4.
  - intros k i Ei. destruct (O5 k i Ei) as [I1 I2 I3]. split; try done. intros a c Ha Ec. rewrite Hf in Ec by (by eapply sublist_elem). by apply (I2 a).
Qed.

Lemma deadline_ok h k t : dw_ok h -> dw_ok (dw_set_next_deadline h k t).2 /\ config (dw_set_next_deadline h k t).2 = config h.
Proof.
  intros O. unfold dw_set_next_deadline. destruct (dw_keyed h) eqn:Hkd; simpl.
  - destruct (map_find k (keyed_changes_ h)) as [i|] eqn:Ei; [|done]. split; [|done]. simpl. pose proof O as [B O1 O2 O3 O4 O5 O6]. assert (Hf : forall k' j, map_find k' (map_update k (mkDWI (dwi_changes i) t (key_payload i)) (keyed_changes_ h)) = Some j ->
      exists j0, map_find k' (keyed_changes_ h) = Some j0 /\ dwi_changes j0 = dwi_changes j).
    { intros k' j. rewrite map_find_update. case_bool_decide; [subst k'; rewrite Ei; intros [= <-]; by exists i|intros Ej; by exists j]. }
    split; try done; [by apply base_set_keyed|unfold keys_sorted; simpl; rewrite map_update_keys; done|simpl; unfold zlen in *; unfold map_update; by rewrite length_map|simpl; congruence| |].
    + intros _ a c Ha Ec. destruct (O4 Hkd a c Ha Ec) as (j & Ej & Hj). simpl. rewrite map_find_update. case_bool_decide as D; [|by exists j]. rewrite Ej. eexists. split; [done|]. simpl. rewrite D, Ei in Ej. by injection Ej as ->.
    + intros k' j Ej. simpl in Ej. destruct (Hf k' j Ej) as (j0 & Ej0 & El). destruct (O5 k' j0 Ej0) as [I1 I2 I3]. rewrite El in *. split; done.
  - split; [|done]. apply (same_base_ok h); try done. destruct (dk_base h O) as [B1 B2 B3 B4 B5 B6 B7]. split; done.
Qed.
Definition same_qos h h' : Prop := dw_qos h' = dw_qos h /\ dw_keyed h' = dw_keyed h /\ dw_max_reserved h' = dw_max_reserved h.

Lemma config_qos h h' : config h' = config h -> same_qos h h'.
Proof. intros C. destruct (config_inj _ _ C) as (_ & ? & ? & ?). done. Qed.

Lemma write_step h a c allowed : dw_ok h -> dw_allowed h (WWrite a c allowed) -> let h0 := set_objects h (<[a := c]> (dw_objects h)) in dw_ok h0 /\ pending h0 a c /\ sendable h0 c allowed.
Proof.
  intros O [Ef [S1 S2 S3 S4 S5]] h0. assert (Ha : a ∉ dw_changes h) by (intros Ha; destruct (bf_live h (dk_base h O) a Ha) as [d Ed]; congruence).
  split; [apply objects_ok; [done|]; intros x Hx; apply lookup_insert_ne; congruence|]. split; [|by split]. split; [unfold follow; simpl; by rewrite lookup_insert_eq|done].
Qed.

(** Every operation that is allowed returns and keeps the invariant. *)
Lemma dw_step_ok h op : dw_ok h -> dw_allowed h op -> exists h', dw_step h op = Some h' /\ dw_ok h' /\ same_qos h h'.
Proof.
  intros O Hal. destruct op; cbn [dw_step].
  - destruct (write_step h a c allowed O Hal) as (O0 & Hp & Hs). destruct (add_pub_change_ok 0 _ a c allowed O0 Hp Hs) as (r & h1 & h' & -> & M & R). cbn [mbind option_bind]. pose proof (config_qos _ _ (mr_config _ _ M)) as (Q1 & Q2 & Q3). destruct r.
    + destruct R as [[o Cm] _]. exists h'. split; [done|]. split; [apply Cm|]. destruct (cm_qos _ _ _ _ _ Cm) as (? & ? & ?). split; [simpl in *; congruence|]. split; simpl in *; congruence.
    + destruct R as [-> _]. eexists. split; [done|]. split; [|done]. apply objects_ok; [apply M|]. intros x Hx. destruct (mr_pending _ _ M a c Hp) as [_ Ha]. apply lookup_delete_ne. congruence.
  - destruct (remove_change_pub_ok h a O Hal) as (h' & -> & T). cbn [mbind option_bind]. exists h'. split; [done|]. split; [apply T|apply config_qos, T].
  - unfold removeMinChange. destruct (dw_changes h) as [|a l] eqn:E; [unfold remove_min_change; rewrite E; by exists h|]. destruct (remove_min_change_ok h a l O E) as (h' & -> & T & _). cbn [mbind option_bind]. exists h'. split; [done|]. split; [apply T|apply config_qos, T].
  - unfold removeAllChange. destruct (remove_all_ok (length (dw_changes h)) h 0 O) as (h' & -> & O' & _ & C); [done|]. cbn [mbind option_bind]. exists h'. split; [done|]. split; [done|by apply config_qos].
  - unfold remove_instance_changes. destruct (dw_keyed h) eqn:Hkd; [|by exists h]. destruct (map_find k (keyed_changes_ h)) as [i|] eqn:Ei; [|by exists h].
    destruct (remove_instance_changes_ok h k s i O Hkd Ei) as (pre & rest & h' & E & O' & _ & _ & C & _). unfold remove_instance_changes in E. rewrite Hkd, Ei in E. cbn [negb] in *. rewrite E. cbn [mbind option_bind]. exists h'. split; [done|]. split; [done|by apply config_qos].
  - unfold register_instance. destruct (dw_keyed h) eqn:Hkd; [|by exists h]. simpl. destruct (find_or_add_key h k []) as [found h'] eqn:E. pose proof (key_room _ _ _ _ _ O Hkd E) as M. exists h'. split; [done|]. split; [apply M|apply config_qos, M].
  - destruct (deadline_ok h k t O) as [O' C]. eexists. split; [done|]. split; [done|by apply config_qos].
  - eexists. split; [done|]. destruct (quiet_room h _ O (ex_intro _ w (conj eq_refl Hal))) as [M _]. split; [apply M|done].
Qed.

Inductive dw_reaches (h0 : DataWriterHistory W) : DataWriterHistory W -> Prop :=
  | dw_reaches_start : dw_reaches h0 h0
  | dw_reaches_step h op h' : dw_reaches h0 h -> dw_allowed h op -> dw_step h op = Some h' -> dw_reaches h0 h'.

Lemma dw_reaches_ok h0 h : dw_ok h0 -> dw_reaches h0 h -> dw_ok h /\ same_qos h0 h.
Proof.
  intros O R. induction R as [|h op h' _ [O1 (Q1 & Q2 & Q3)] Hal E]; [done|]. destruct (dw_step_ok h op O1 Hal) as (h2 & E2 & O2 & R1 & R2 & R3). rewrite E in E2. injection E2 as <-. split; [done|]. split; [congruence|]. split; congruence.
Qed.

(** A history that is created with values in the range of [int32_t]. *)
Record qos_fine (q : WriterQos) : Prop := {
  qf_depth : wq_keep_all q = false -> 0 < wq_depth q < 2 ^ 31;
  qf_samples : wq_max_samples q < 2 ^ 31;
  qf_instances : wq_max_instances q < 2 ^ 31;
  qf_per_instance : wq_max_samples_per_instance q < 2 ^ 31
}.

Lemma dw_new_ok q keyed preallocated payload_max w h : qos_fine q -> DataWriterHistory_new q keyed preallocated payload_max w = Some h -> writer_fine w (base_of h) -> dw_ok h.
Proof.
  intros [Q1 Q2 Q3 Q4] E Hw. unfold DataWriterHistory_new in E. apply bind_Some in E as (reserved & Er & [= <-]). split; simpl; try done.
  - split; simpl; try done.
    + split; simpl; [constructor|constructor|split; [done|unfold sn_val; simpl; lia]|constructor].
    + constructor.
    + by intros a ?%elem_of_nil.
    + intros Hr. unfold zlen. simpl. lia.
    + unfold to_history_attributes in Er. destruct (wq_keep_all q) eqn:Hk; [injection Er as <-; done|]. specialize (Q1 eq_refl). destruct keyed; [|injection Er as <-; lia]. destruct (_ && _) eqn:El; [|done]. injection Er as <-. apply andb_true_iff in El as [_ El]. by apply Z.ltb_lt in El.
  - constructor.
  - unfold zlen, unlimited. simpl. destruct (Z.leb_spec (wq_max_instances q) 0); lia.
  - unfold instance_limit. simpl. unfold unlimited. destruct (wq_keep_all q); [|specialize (Q1 eq_refl)]; destruct (Z.leb_spec (wq_max_instances q) 0), (Z.leb_spec (wq_max_samples_per_instance q) 0); lia.
Qed.
End Laws.
