(* ===== verification/DataWriterRuns.v ===== *)
(** * A data writer's history over a stateful writer

    [StatefulWriter] with a remote and reliable reader keeps the promises that
    [RtpsWriterLaws] asks for, and the theorems on runs of the history. *)

From Stdlib Require Import Sorted.
From stdpp Require Import gmap.
From S2P Require Import Prelude SequenceNumber LimitedVector TimedEvent WriterProxyInv ParameterList WriterHistory ChangeForReader ReaderProxy ReaderProxyInv StatefulWriter StatefulWriterLaws.
From S2P Require Import Handles DataWriterHistory DataWriterHistoryInv DataWriterHistoryLaws.

Implicit Types (w : StatefulWriter) (b : WriterHistory) (s : SequenceNumber_t).

(** ** The stateful writer *)

(** Whether [try_remove_change] need not wait. *)
Definition first_is_acked w : bool :=
  let min_low_mark := sn_sub_u32 (next_all_acked_notify_sequence_ w) 1 in
  let min_seq := get_seq_num_min (history_ w) in
  let calc := if sn_ltb min_low_mark min_seq then mkSN 0 0 else sn_add (sn_sub min_low_mark min_seq) 1 in
  negb (sn_leb calc (mkSN 0 0)).

(** [change_is_acked_or_fully_delivered] *)
Definition change_is_acked_or_fully_delivered w s : option bool :=
  if writer_disable_positive_acks_ w then Some (has_been_fully_delivered w s) else is_acked_by_all_nts w s.

(** The samples are relevant to every reader. *)
#[export] Instance stateful_writer : RtpsWriter StatefulWriter := {
  unsent_change_added w b o := unsent_change_added_to_history None (set_history w b) o (fun _ => true);
  change_removed w b s := change_removed_by_history (set_history w b) s true;
  acked w b s := change_is_acked_or_fully_delivered (set_history w b) s;
  some_acked w b := first_is_acked (set_history w b)
}.

(** What all readers have is known, and positive acknowledgements are on. *)
Definition acks_known w : Prop := usable (next_all_acked_notify_sequence_ w) /\ 0 < sn_val (next_all_acked_notify_sequence_ w) /\ writer_disable_positive_acks_ w = false.

Definition any_number (n : Z) : Prop := True.

Definition stateful_fine w b : Prop := acks_known w /\ exists rp, writer_ok any_number (set_history w b) rp.
Definition stateful_takes b (o : OutChange) : Prop := whole_out o /\ sn_val (m_lastCacheChangeSeqNum b) + 261 < 2 ^ 63.

Lemma set_history_twice w b b' : set_history (set_history w b) b' = set_history w b'.
Proof. by destruct w. Qed.

Lemma set_history_same w b : history_ w = b -> set_history w b = w.
Proof. intros <-. by destruct w. Qed.

Lemma unsent_acks w b o w' : (exists rp, matched_remote_readers_ w = [rp]) -> unsent_change_added_to_history None (set_history w b) o (fun _ => true) = Some w' -> acks_known w -> acks_known w'.
Proof.
  intros [rp Er] E A. unfold unsent_change_added_to_history in E. simpl in E. rewrite Er in E. apply bind_Some in E as (l & _ & [= <-]). match goal with |- context [if ?b then _ else _] => destruct b end; exact A.
Qed.

Lemma stateful_added w b allowed ch o b' : stateful_fine w b -> history_ok b -> prepare_and_add_change b allowed ch = (Some o, b') -> stateful_takes b o -> exists w', unsent_change_added w b' o = Some w' /\ stateful_fine w' b'.
Proof.
  intros [A [rp Hrp]] Hh E [Hw Hb]. destruct (writer_add_change_ok any_number None (set_history w b) rp allowed ch (fun _ => true) o b' Hrp) as (w' & rp' & E' & Hok & _ & Eh & _); [done|done|done|done|].
  unfold writer_add_change in E'. cbn [history_ set_history] in E'. rewrite E in E'. rewrite set_history_twice in E'. apply bind_Some in E' as (w1 & E1 & [= ->]). exists w'. split; [done|]. split.
  - eapply unsent_acks; [|exact E1|done]. exists rp. exact (wo_readers _ _ _ Hrp).
  - exists rp'. by rewrite set_history_same.
Qed.

Lemma stateful_removed w b s : stateful_fine w b -> history_ok b -> usable s -> in_history b (sn_val s) -> exists w', change_removed w b s = Some (true, w') /\ stateful_fine w' (history_remove b s).
Proof.
  intros [A [rp Hrp]] Hh Hu Hin. destruct (remove_change_ok any_number (set_history w b) rp s Hrp Hu Hin) as (w' & rp' & E & Hok & _ & Eh & _); [done|]. unfold remove_change in E. cbn [history_ set_history] in E.
  pose proof (find_change_nts_spec b s Hh ltac:(auto)) as HF. destruct (find_change_nts b s) as [o|]; [|done]. destruct HF as [_ Eo]. rewrite Eo in E. apply bind_Some in E as ([r w1] & E1 & E). exists w1.
  assert (Hr : r = true) by (by injection E). subst r. split; [done|]. injection E as <-. split.
  - unfold change_removed_by_history in E1. apply bind_Some in E1 as (l & _ & [= <-]). exact A.
  - exists rp'. unfold change_removed_by_history in E1. apply bind_Some in E1 as (l & El & E1). injection E1 as <-. exact Hok.
Qed.

Lemma stateful_answers w b s : stateful_fine w b -> history_ok b -> usable s -> in_history b (sn_val s) -> is_Some (acked w b s).
Proof.
  intros _ Hh Hu Hin. simpl. unfold change_is_acked_or_fully_delivered. destruct (writer_disable_positive_acks_ _); [done|]. unfold is_acked_by_all_nts. cbn [history_ set_history].
  destruct (next_number b Hh) as [Hv En]. pose proof (history_bounds b _ Hh Hin). rewrite sn_gtb_val by (destruct Hv, Hu; auto). destruct (Z.ltb_spec (sn_val s) (sn_val (next_sequence_number b))); [done|lia].
Qed.

Lemma stateful_first w b o l : stateful_fine w b -> history_ok b -> m_changes b = o :: l -> some_acked w b = true -> acked w b (out_seq o) = Some true.
Proof.
  intros [(A1 & A2 & A3) F] Hh El Hs. assert (Hin : in_history b (sn_val (out_seq o))) by (unfold in_history; rewrite El; left). assert (Hu : usable (out_seq o)) by (pose proof (ho_usable _ Hh) as U; rewrite El in U; by inversion U).
  destruct (stateful_answers w b (out_seq o)) as [r Er]; [done|done|done|done|]. rewrite Er. f_equal. simpl in Er. unfold change_is_acked_or_fully_delivered in Er. simpl in Er. rewrite A3 in Er. unfold is_acked_by_all_nts in Er. destruct (sn_gtb _ _); [|done]. injection Er as <-. simpl.
  simpl in Hs. unfold first_is_acked, get_seq_num_min, get_min_change in Hs. simpl in Hs. rewrite El in Hs. simpl in Hs. destruct (sn_ltb (sn_sub_u32 _ 1) (out_seq o)) eqn:Elt; [done|]. destruct (sn_sub_u32_val (next_all_acked_notify_sequence_ w) 1) as [Hv Ev]; [destruct A1; auto|lia|lia|].
  assert (Ho1 : sn_ok (sn_sub_u32 (next_all_acked_notify_sequence_ w) 1)) by auto. assert (Ho2 : sn_ok (out_seq o)) by auto. assert (Ho3 : sn_ok (next_all_acked_notify_sequence_ w)) by auto.
  rewrite sn_ltb_val in Elt by done. apply Z.ltb_ge in Elt. rewrite sn_ltb_val by done. apply orb_true_iff. left. apply Z.ltb_lt. lia.
Qed.

#[export] Instance stateful_writer_laws : RtpsWriterLaws StatefulWriter := {
  writer_fine := stateful_fine;
  writer_takes := stateful_takes;
  added_fine := stateful_added;
  removed_fine := stateful_removed;
  acked_answers := stateful_answers;
  some_acked_first := stateful_first
}.

(** ** What holds in every run *)

Section Runs.
Context {W : Type} `{RtpsWriterLaws W}.
Implicit Types (h : DataWriterHistory W) (a : nat) (c : WChange).
Context (wait_removal : DataWriterHistory W -> Z * DataWriterHistory W) (wait_acked : SequenceNumber_t -> DataWriterHistory W -> bool * DataWriterHistory W).
Context (Hwaits : waits_ok wait_removal wait_acked).

(** A history in use: created for a writer, then any operations in any order. *)
Definition in_use (q : WriterQos) (keyed preallocated : bool) (payload_max : Z) h : Prop :=
  exists (w : W) h0, qos_fine q /\ DataWriterHistory_new q keyed preallocated payload_max w = Some h0 /\ writer_fine w (base_of h0) /\ dw_reaches wait_removal wait_acked h0 h.

Lemma in_use_ok q keyed preallocated payload_max h : in_use q keyed preallocated payload_max h -> dw_ok h /\ dw_qos h = limits_of q /\ dw_keyed h = keyed /\ to_history_attributes q keyed = Some (dw_max_reserved h).
Proof.
  intros (w & h0 & Q & E & Hw & R). destruct (dw_reaches_ok wait_removal wait_acked (fun _ => True) (fun _ _ _ _ _ => I) Hwaits h0 h (dw_new_ok _ _ _ _ _ _ Q E Hw) R) as [O (R1 & R2 & R3)].
  unfold DataWriterHistory_new in E. apply bind_Some in E as (n & En & [= <-]). simpl in *. split; [done|]. split; [done|]. split; [done|]. congruence.
Qed.

(** C30: Whatever is written, removed, registered or acknowledged, and in whatever order,
    the history of a data writer keeps to its QoS: not more changes than it reserves,
    not more instances than [max_instances], and in no instance more changes than
    [max_samples_per_instance] with KEEP_ALL or [depth] with KEEP_LAST. *)
Theorem writer_limits_hold q keyed preallocated payload_max h : in_use q keyed preallocated payload_max h ->
  (forall n, to_history_attributes q keyed = Some n -> 0 < n -> zlen (dw_changes h) <= n) /\ zlen (keyed_changes_ h) <= wq_max_instances (limits_of q) /\
  forall k i, map_find k (keyed_changes_ h) = Some i -> zlen (dwi_changes i) <= if wq_keep_all q then wq_max_samples_per_instance (limits_of q) else wq_depth q.
Proof.
  intros U. destruct (in_use_ok _ _ _ _ _ U) as (O & Eq & _ & En). split; [|split].
  - intros n En' Hn. rewrite En in En'. injection En' as <-. by apply (bf_samples h (dk_base h O)).
  - rewrite <- Eq. apply O.
  - intros k i Ei. pose proof (wi_limit _ _ _ (dk_inst h O k i Ei)) as L. unfold instance_limit in L. rewrite Eq in L. exact L.
Qed.

(** C29: In every run each pointer of a data writer's history and of its instances leads
    to a change that exists; an instance has exactly the changes of the history with
    its handle, in the order of the history; and every write, removal, registration
    and deadline returns: no assertion fails, no released change is looked at and no
    loop goes on for ever.  This is for changes that the history below accepts, and
    when no other thread changes the history while a write waits; the wait of an
    application for the last change of an instance is not among the operations
    ([no_last_change]). *)
Theorem writer_references_sound q preallocated payload_max h : in_use q true preallocated payload_max h ->
  (forall a, a ∈ dw_changes h -> exists c i, follow h a = Some c /\ map_find (wc_handle c) (keyed_changes_ h) = Some i /\ a ∈ dwi_changes i) /\
  (forall k i, map_find k (keyed_changes_ h) = Some i -> dwi_changes i `sublist_of` dw_changes h /\ forall a, a ∈ dwi_changes i -> exists c, follow h a = Some c /\ wc_handle c = k) /\
  forall op, dw_allowed h op -> is_Some (dw_step wait_removal wait_acked h op).
Proof.
  intros U. destruct (in_use_ok _ _ _ _ _ U) as (O & Eq & Ek & _). split; [|split].
  - intros a Ha. destruct (bf_live h (dk_base h O) a Ha) as [c Ec]. destruct (dk_listed h O Ek a c Ha Ec) as (i & Ei & Hi). by exists c, i.
  - intros k i Ei. destruct (dk_inst h O k i Ei) as [I1 I2 I3]. split; [done|]. intros a Ha. destruct (bf_live h (dk_base h O) a) as [c Ec]; [by eapply sublist_elem|]. exists c. split; [done|]. by apply (I2 a).
  - intros op Hal. destruct (dw_step_ok wait_removal wait_acked (fun _ => True) (fun _ _ _ _ _ => I) Hwaits h op O Hal) as (h' & -> & _). done.
Qed.

(** C28: With KEEP_LAST a write of a change that the history below accepts
    ([sendable]) succeeds, unless it is the first of an instance of a
    topic with keys and [max_instances] are there already.  The change becomes the
    last of the history.  What leaves is the oldest change of its instance when that
    has [depth] changes, or, when the history of a topic without keys is full, the
    oldest of all, and nothing else.  (Only the full history of a topic with keys is
    left out here: [keep_last_evicts_other_instance] shows what it does.) *)
Theorem keep_last_keeps_the_last q keyed preallocated payload_max h a c allowed :
  in_use q keyed preallocated payload_max h -> wq_keep_all q = false -> dw_allowed h (WWrite a c allowed) ->
  (keyed = true -> map_find (wc_handle c) (keyed_changes_ h) <> None \/ zlen (keyed_changes_ h) < wq_max_instances (limits_of q)) ->
  (dw_full h = true -> keyed = false) ->
  exists h', dw_step wait_removal wait_acked h (WWrite a c allowed) = Some h' /\ dw_changes h' = filter (fun x => x ∉ evicted h c) (dw_changes h) ++ [a] /\
    (exists o, follow h' a = Some (set_wc_out c o)) /\ forall a', a' ∈ dw_changes h -> a' ∈ dw_changes h' -> follow h' a' = follow h a'.
Proof.
  intros U Hka Hal Hinst Hfull. destruct (in_use_ok _ _ _ _ _ U) as (O & Eq & Ek & _). destruct (write_step h a c allowed O Hal) as (O0 & Hp & Hs).
  destruct (add_pub_change_ok wait_removal wait_acked (fun _ => True) (fun _ _ _ _ _ => I) Hwaits 0 _ a c allowed O0 Hp Hs) as (r & h1 & h' & E & M & R). cbn [dw_step]. rewrite E. cbn [mbind option_bind]. destruct r.
  2:{ exfalso. destruct R as [_ [R|(R1 & R2 & R3)]]; [simpl in R; rewrite Eq in R; simpl in R; congruence|]. simpl in R1, R2, R3. rewrite Eq in R3. destruct Hinst as [Hinst|Hinst]; [congruence|by apply Hinst|lia]. }
  destruct R as [[o Cm] Hev]. exists h'. split; [done|]. rewrite (cm_changes _ _ _ _ _ Cm). split.
  { rewrite Hev; [done|simpl; by rewrite Eq|simpl; rewrite Ek; done]. }
  split; [exists o; unfold follow; rewrite (cm_objects _ _ _ _ _ Cm); by rewrite lookup_insert_eq|]. intros a' Ha Ha'. destruct Hal as [Hnone _]. assert (a' <> a) by (intros ->; destruct (bf_live h (dk_base h O) a Ha) as [d Ed]; congruence).
  apply elem_of_app in Ha' as [Ha'|Ha'%list_elem_of_singleton]; [|done]. unfold follow at 1. rewrite (cm_objects _ _ _ _ _ Cm), lookup_insert_ne by done. change (follow h1 a' = follow h a'). rewrite (mr_kept _ _ _ M a' Ha'). unfold follow. simpl. by rewrite lookup_insert_ne by done.
Qed.
End Runs.

(** ** Examples *)

(** A change that is sent in one message. *)
Lemma small_sendable (h : DataWriterHistory StatefulWriter) (c : WChange) allowed : new_own (wc_new c) = true -> dw_preallocated h && (new_length (wc_new c) >? dw_payload_max h) = false -> sn_val (dw_last h) + 261 < 2 ^ 63 -> zlen (dw_changes h) + 1 < 2 ^ 31 ->
  new_inline_qos (wc_new c) = 0 -> new_related (wc_new c) = false -> new_keyed_end (wc_new c) = false -> new_length (wc_new c) <= (if dw_high_mark h =? 0 then allowed else dw_high_mark h) -> sendable h c allowed.
Proof.
  intros H1 H2 H3 H4 H5 H6 H7 H8. split; try done; [lia|]. intros b o b' El Eh E. unfold prepare_and_add_change in E. rewrite H1 in E. cbn [negb] in E. destruct (preallocated_ b && _); [done|]. destruct (m_isHistoryFull b); [done|].
  unfold writer_set_fragments in E. rewrite H5, H6, H7, Eh in E. cbn [Z.ltb Z.compare] in E. destruct (Z.gtb_spec (new_length (wc_new c)) (if dw_high_mark h =? 0 then allowed else dw_high_mark h)); [lia|]. injection E as <- _. split; [done|]. by rewrite El.
Qed.

Definition one_reader : ReaderProxy :=
  mkRP (mkGUID (replicate 12 2) (replicate 4 2)) false false true VOLATILE false true false [] (timer_new 0 0) (timer_new 0 0) true 0 0 (mkSN 0 0) true.
Definition reader_writer : StatefulWriter :=
  mkSW (mkGUID (replicate 12 1) (replicate 4 1)) true false false false VOLATILE (mkWH [] (mkSN 0 0) false false 0 0 0) [one_reader] (timer_new 0 0) (timer_new 0 0)
    0 (mkSN 0 1) (mkSN 0 0) (mkSN 0 0) 0 false [] [] [].

Definition time_over_removal (h : DataWriterHistory StatefulWriter) : Z * DataWriterHistory StatefulWriter := (0, h).
Definition time_over_acked (s : SequenceNumber_t) (h : DataWriterHistory StatefulWriter) : bool * DataWriterHistory StatefulWriter := (false, h).

(** Nobody answers while a write waits. *)
Lemma time_over_ok : waits_ok time_over_removal time_over_acked.
Proof.
  split.
  - intros h O. split; [|by left]. exists (dw_writer h). split; [by destruct h|apply O].
  - intros s h O. split; [|done]. exists (dw_writer h). split; [by destruct h|apply O].
Qed.

Lemma reader_writer_fine n : stateful_fine reader_writer (mkWH [] (mkSN 0 0) false false 1000 n 0).
Proof.
  split; [by repeat split|]. exists one_reader. split; try done.
  - split; simpl; [constructor|constructor|by vm_compute|constructor].
  - split; simpl; [by vm_compute|split; constructor|constructor|by vm_compute].
Qed.

(** A write of an instance, sent in one message. *)
Definition sample_of (key : Z) : WChange := mkWC ALIVE (Some [key]) [key] (mkNew true 10 0 false false) 0 (mkOut (mkSN 0 0) 0 0).
Definition write_of (a : nat) (key : Z) : @dw_op StatefulWriter := WWrite a (sample_of key) 65000.

Definition new_for (q : WriterQos) (keyed : bool) : DataWriterHistory StatefulWriter :=
  default (mkDW [] ∅ (mkSN 0 0) false false 1000 0 0 [] 0 q keyed reader_writer []) (DataWriterHistory_new q keyed false 1000 reader_writer).

Fixpoint dw_run (h : DataWriterHistory StatefulWriter) (ops : list (@dw_op StatefulWriter)) : option (DataWriterHistory StatefulWriter) :=
  match ops with
  | [] => Some h
  | op :: ops => h ← dw_step time_over_removal time_over_acked h op; dw_run h ops
  end.

Definition run_of (q : WriterQos) (keyed : bool) (ops : list (@dw_op StatefulWriter)) : DataWriterHistory StatefulWriter := default (new_for q keyed) (dw_run (new_for q keyed) ops).

(** Writes of new objects are allowed. *)
Definition write_allowed (h : DataWriterHistory StatefulWriter) (op : @dw_op StatefulWriter) : bool :=
  match op with
  | WWrite a c allowed =>
      match follow h a with Some _ => false | None => true end && new_own (wc_new c) && negb (dw_preallocated h && (new_length (wc_new c) >? dw_payload_max h)) && (sn_val (dw_last h) + 261 <? 2 ^ 63) &&
      (zlen (dw_changes h) + 1 <? 2 ^ 31) && (new_inline_qos (wc_new c) =? 0) && negb (new_related (wc_new c)) && negb (new_keyed_end (wc_new c)) &&
      (new_length (wc_new c) <=? (if dw_high_mark h =? 0 then allowed else dw_high_mark h))
  | WRemoveMin | WRemoveAll | WRegister _ | WRemoveInstance _ _ => true
  | _ => false
  end.

Fixpoint writes_allowed (h : DataWriterHistory StatefulWriter) (ops : list (@dw_op StatefulWriter)) : bool :=
  match ops with
  | [] => true
  | op :: ops => write_allowed h op && match dw_step time_over_removal time_over_acked h op with Some h => writes_allowed h ops | None => false end
  end.

Lemma write_allowed_ok h op : write_allowed h op = true -> dw_allowed h op.
Proof.
  destruct op; try done. simpl. rewrite !andb_true_iff, !negb_true_iff. intros ((((((((H1 & H2) & H3) & H4) & H5) & H6) & H7) & H8) & H9). split; [by destruct (follow h a)|].
  apply small_sendable; try done; [by apply Z.ltb_lt|by apply Z.ltb_lt|by apply Z.eqb_eq|by apply Z.leb_le].
Qed.

Lemma dw_run_reaches h0 h ops h' : dw_reaches time_over_removal time_over_acked h0 h -> writes_allowed h ops = true -> dw_run h ops = Some h' -> dw_reaches time_over_removal time_over_acked h0 h'.
Proof.
  revert h. induction ops as [|op ops IH]; intros h R Ha E; simpl in *; [by injection E as <-|]. apply andb_true_iff in Ha as [Ha1 Ha2]. destruct (dw_step _ _ h op) as [h1|] eqn:E1; [|done]. simpl in E.
  eapply IH; [|exact Ha2|exact E]. eapply dw_reaches_step; [exact R|by apply write_allowed_ok|exact E1].
Qed.

Lemma run_in_use q keyed ops : qos_fine q -> to_history_attributes q keyed <> None -> writes_allowed (new_for q keyed) ops = true -> dw_run (new_for q keyed) ops <> None ->
  in_use time_over_removal time_over_acked q keyed false 1000 (run_of q keyed ops).
Proof.
  intros Q Hn Ha Hr. exists reader_writer, (new_for q keyed). unfold run_of, new_for, DataWriterHistory_new in *. destruct (to_history_attributes q keyed) as [n|]; [|done]. simpl in *. split; [done|]. split; [done|]. split; [apply reader_writer_fine|].
  destruct (dw_run _ ops) as [h|] eqn:E; [|done]. simpl. eapply dw_run_reaches; [apply dw_reaches_start|exact Ha|exact E].
Qed.

Definition all_of_one : WriterQos := mkWQ true 1 1 2 1.
Definition last_of_two : WriterQos := mkWQ false 1 0 2 1.

Lemma all_of_one_fine : qos_fine all_of_one.
Proof. split; simpl; lia. Qed.
Lemma last_of_two_fine : qos_fine last_of_two.
Proof. split; simpl; lia. Qed.

Lemma writer_limits_hold_witness : zlen (dw_changes (run_of last_of_two true [write_of 1 7; write_of 2 7; write_of 3 8])) <= 2.
Proof.
  refine (proj1 (writer_limits_hold _ _ time_over_ok last_of_two true false 1000 _ _) 2 _ _); [|reflexivity|lia].
  apply run_in_use; [apply last_of_two_fine|done|vm_compute; reflexivity|vm_compute; congruence].
Defined.

Lemma writer_references_sound_witness : is_Some (dw_step time_over_removal time_over_acked (run_of last_of_two true [write_of 1 7; write_of 2 7]) (write_of 3 7)).
Proof.
  refine (proj2 (proj2 (writer_references_sound _ _ time_over_ok last_of_two false 1000 _ _)) _ _).
  - apply run_in_use; [apply last_of_two_fine|done|vm_compute; reflexivity|vm_compute; congruence].
  - apply write_allowed_ok. vm_compute. reflexivity.
Defined.

Lemma keep_last_keeps_the_last_witness :
  (exists h', dw_step time_over_removal time_over_acked (run_of last_of_two true [write_of 1 7]) (write_of 2 7) = Some h' /\ dw_changes h' = [2%nat]) /\
  (exists h', dw_step time_over_removal time_over_acked (run_of last_of_two true [write_of 1 7]) (write_of 2 8) = Some h' /\ dw_changes h' = [1; 2]%nat).
Proof.
  split.
  - destruct (keep_last_keeps_the_last _ _ time_over_ok last_of_two true false 1000 (run_of last_of_two true [write_of 1 7]) 2 (sample_of 7) 65000) as (h' & E & K & _).
    + apply run_in_use; [apply last_of_two_fine|done|vm_compute; reflexivity|vm_compute; congruence].
    + reflexivity.
    + apply (write_allowed_ok _ (write_of 2 7)). vm_compute. reflexivity.
    + left. vm_compute. congruence.
    + vm_compute. congruence.
    + exists h'. split; [exact E|]. rewrite K. vm_compute. reflexivity.
  - destruct (keep_last_keeps_the_last _ _ time_over_ok last_of_two true false 1000 (run_of last_of_two true [write_of 1 7]) 2 (sample_of 8) 65000) as (h' & E & K & _).
    + apply run_in_use; [apply last_of_two_fine|done|vm_compute; reflexivity|vm_compute; congruence].
    + reflexivity.
    + apply (write_allowed_ok _ (write_of 2 8)). vm_compute. reflexivity.
    + right. vm_compute. reflexivity.
    + vm_compute. congruence.
    + exists h'. split; [exact E|]. rewrite K. vm_compute. reflexivity.
Defined.

(** ** What goes wrong *)

(** KEEP_LAST with a depth of one, and as many instances as are allowed have their
    sample: a write of one instance first removes the oldest change of all, then the
    one it replaces.  The only sample of another instance is lost, and nothing is
    left of the two instances but the new change. *)
Theorem keep_last_evicts_other_instance :
  let h := run_of last_of_two true [write_of 1 7; write_of 2 8] in
  dw_changes h = [1; 2]%nat /\ exists h', dw_step time_over_removal time_over_acked h (write_of 3 8) = Some h' /\
    dw_changes h' = [3%nat] /\ map (fun ki => (ki.1, dwi_changes ki.2)) (keyed_changes_ h') = [(Some [7], []); (Some [8], [3%nat])].
Proof. split; [vm_compute; reflexivity|]. eexists. split; [vm_compute; reflexivity|]. split; vm_compute; reflexivity. Qed.

(** The readers acknowledge the first change while a write waits. *)
Definition acked_in_time (h : DataWriterHistory StatefulWriter) : Z * DataWriterHistory StatefulWriter :=
  (1, dw_set_changes h (dw_changes h) (dw_objects h) (dw_full h) (set_acked (dw_writer h) (mkSN 0 2) (mkSN 0 1) 1 true)).

(** With KEEP_ALL whether the first change is acknowledged is asked before the wait
    for its acknowledgement; when it comes in time the change is removed, and
    reported to the application as removed without having been acknowledged. *)
Theorem acknowledged_reported_lost :
  let h := run_of all_of_one false [write_of 1 7] in
  let w := dw_writer (acked_in_time h).2 in
  acked w (base_of h) (mkSN 0 1) = Some true /\
  exists h', dw_step acked_in_time time_over_acked h (write_of 2 7) = Some h' /\ dw_changes h' = [2%nat] /\ unacked_told_ h' = [c_InstanceHandle_Unknown].
Proof. split; [vm_compute; reflexivity|]. eexists. split; [vm_compute; reflexivity|]. split; vm_compute; reflexivity. Qed.

(** Waiting for the last change of an instance that is registered and has none takes
    the last element of an empty vector. *)
Theorem no_last_change :
  let h := run_of last_of_two true [WRegister (Some [7])] in
  is_key_registered h (Some [7]) = Some true /\ wait_for_acknowledgement_last_change time_over_acked h (Some [7]) = None.
Proof. split; vm_compute; reflexivity. Qed.
