(* ===== verification/DataWriter.v ===== *)
(** * The data writer

    Models the write path, instances, deadlines and lifespan of [DataWriterImpl.cpp]
    ([Fast-DDS/src/cpp/fastdds/publisher]) over the history of a data writer.  The
    type support (serialization and keys) is a parameter, and so is what the pools
    give.  A time is in nanoseconds; the functions take the time the clock shows.

    The changes whose lifespan is over are removed and the timer is set for the
    next one; and where deadlines and registrations do not do what they mean to. *)

From stdpp Require Import gmap.
From S2P Require Import Prelude SequenceNumber ParameterList WriterHistory StatefulWriter LimitedVector Handles DataWriterHistory DataWriterHistoryInv DataWriterHistoryLaws DataWriterRuns.

(** ** QoS *)

Inductive MemoryPolicy := PREALLOCATED_MEMORY_MODE | PREALLOCATED_WITH_REALLOC_MEMORY_MODE | DYNAMIC_RESERVE_MEMORY_MODE | DYNAMIC_REUSABLE_MEMORY_MODE.

(** What the checks look at; a duration that is infinite is [None]. *)
Record DataWriterQos := mkDWQ {
  dq_by_source_timestamp : bool;
  dq_unique_network_flows : bool;
  dq_pull_mode : bool;
  dq_best_effort : bool;
  dq_heartbeat_period : option Z;
  dq_liveliness_by_topic : bool;
  dq_lease_duration : option Z;
  dq_announcement_period : option Z;
  dq_data_sharing_on : bool;
  dq_memory_policy : MemoryPolicy;
  dq_history : WriterQos
}.

Definition time_lt (a b : option Z) : bool := match a, b with Some x, Some y => x <? y | Some _, None => true | None, _ => false end.
Definition time_le (a b : option Z) : bool := negb (time_lt b a).

Definition check_qos (q : DataWriterQos) : ReturnCode :=
  if dq_by_source_timestamp q then RETCODE_UNSUPPORTED
  else if dq_unique_network_flows q then RETCODE_UNSUPPORTED
  else if dq_pull_mode q && dq_best_effort q then RETCODE_INCONSISTENT_POLICY
  else if dq_pull_mode q && bool_decide (dq_heartbeat_period q = None) then RETCODE_INCONSISTENT_POLICY
  else if negb (dq_liveliness_by_topic q) && time_lt (dq_lease_duration q) None && time_le (dq_lease_duration q) (dq_announcement_period q) then RETCODE_INCONSISTENT_POLICY
  else if dq_data_sharing_on q && match dq_memory_policy q with PREALLOCATED_MEMORY_MODE | PREALLOCATED_WITH_REALLOC_MEMORY_MODE => false | _ => true end then RETCODE_INCONSISTENT_POLICY
  else if negb (wq_keep_all (dq_history q)) && (wq_depth (dq_history q) <=? 0) then RETCODE_INCONSISTENT_POLICY
  else RETCODE_OK.

(** The product of two [int32_t] may overflow, which is undefined. *)
Definition check_allocation_consistency (q : DataWriterQos) : option ReturnCode :=
  let h := dq_history q in
  let n := wq_max_instances h * wq_max_samples_per_instance h in
  if wq_max_samples h >? 0 then
    if (- 2 ^ 31 <=? n) && (n <? 2 ^ 31) then
      Some (if wq_max_samples h <? n then RETCODE_INCONSISTENT_POLICY
            else if (wq_max_instances h <=? 0) || (wq_max_samples_per_instance h <=? 0) then RETCODE_INCONSISTENT_POLICY
            else RETCODE_OK)
    else None
  else Some RETCODE_OK.

Definition check_qos_including_resource_limits (q : DataWriterQos) (keyed : bool) : option ReturnCode :=
  match check_qos q with
  | RETCODE_OK => if keyed then check_allocation_consistency q else Some RETCODE_OK
  | code => Some code
  end.

(** [unregister_change_kind] *)
Definition unregister_change_kind (dispose autodispose : bool) : ChangeKind_t :=
  if dispose then NOT_ALIVE_DISPOSED else if autodispose then NOT_ALIVE_DISPOSED_UNREGISTERED else NOT_ALIVE_UNREGISTERED.

Section Impl.
Context {W : Type} `{RtpsWriter W} {D : Type}.
(** The type support. *)
Variable serialize : D -> option (list Z).
Variable compute_key : D -> InstanceHandle_t.
Variable wait_removal : DataWriterHistory W -> Z * DataWriterHistory W.
Variable wait_acked : SequenceNumber_t -> DataWriterHistory W -> bool * DataWriterHistory W.

Record DataWriterImpl := mkDI {
  di_history : DataWriterHistory W;
  di_enabled : bool;
  di_autodispose : bool;
  di_volatile : bool;
  di_period : option Z;
  di_lifespan : option Z;
  timer_owner_ : InstanceHandle_t;
  deadline_interval_ : Z;
  deadline_running_ : bool;
  lifespan_interval_ : Z;
  lifespan_running_ : bool;
  missed_ : list InstanceHandle_t
}.

Implicit Types (im : DataWriterImpl) (k : InstanceHandle_t) (a : nat).

Definition di_set_history im h : DataWriterImpl :=
  mkDI h (di_enabled im) (di_autodispose im) (di_volatile im) (di_period im) (di_lifespan im) (timer_owner_ im) (deadline_interval_ im) (deadline_running_ im)
    (lifespan_interval_ im) (lifespan_running_ im) (missed_ im).
Definition di_set_deadline im owner interval running missed : DataWriterImpl :=
  mkDI (di_history im) (di_enabled im) (di_autodispose im) (di_volatile im) (di_period im) (di_lifespan im) owner interval running
    (lifespan_interval_ im) (lifespan_running_ im) missed.
Definition di_set_lifespan im interval running : DataWriterImpl :=
  mkDI (di_history im) (di_enabled im) (di_autodispose im) (di_volatile im) (di_period im) (di_lifespan im) (timer_owner_ im) (deadline_interval_ im) (deadline_running_ im)
    interval running (missed_ im).

(** ** Deadlines *)

(** The interval of the timer is in milliseconds, rounded to zero. *)
Definition deadline_timer_reschedule (now : Z) im : option DataWriterImpl :=
  '(owner, next) ← dw_get_next_deadline (di_history im) (timer_owner_ im);
  Some (di_set_deadline im owner (Z.quot (next - now) 1000000) (deadline_running_ im) (missed_ im)).

(** The callback of the timer: a deadline has been missed. *)
Definition di_deadline_missed (now period : Z) im : option DataWriterImpl :=
  let im := di_set_deadline im (timer_owner_ im) (deadline_interval_ im) false (missed_ im ++ [timer_owner_ im]) in
  let '(ok, h) := dw_set_next_deadline (di_history im) (timer_owner_ im) (now + period) in
  if ok : bool then
    im ← deadline_timer_reschedule now (di_set_history im h);
    Some (di_set_deadline im (timer_owner_ im) (deadline_interval_ im) true (missed_ im))
  else Some im.

(** ** Lifespan *)

(** The callback of the timer: whether it is started again. *)
Fixpoint lifespan_expired (fuel : nat) (now lifespan : Z) im : option (bool * DataWriterImpl) :=
  match dw_changes (di_history im) with
  | [] => Some (false, di_set_lifespan im (lifespan_interval_ im) false)
  | a :: _ =>
      c ← follow (di_history im) a;
      if now <? wc_time c + lifespan then Some (true, di_set_lifespan im (wc_time c + lifespan - now) true)
      else
        match fuel with
        | O => None
        | S fuel => '(_, h) ← remove_change_pub (di_history im) a; lifespan_expired fuel now lifespan (di_set_history im h)
        end
  end.

(** ** Writing *)

(** The timers after a change has been added. *)
Definition after_write (now : Z) k im : option DataWriterImpl :=
  im ← match di_period im with
       | None => Some im
       | Some period =>
           let '(ok, h) := dw_set_next_deadline (di_history im) k (now + period) in
           let im := di_set_history im h in
           if (ok : bool) && (bool_decide (timer_owner_ im = k) || bool_decide (timer_owner_ im = c_InstanceHandle_Unknown)) then
             im ← deadline_timer_reschedule now im;
             Some (di_set_deadline im (timer_owner_ im) (deadline_interval_ im) true (missed_ im))
           else Some im
       end;
  Some (match di_lifespan im with None => im | Some lifespan => di_set_lifespan im lifespan true end).

(** [perform_create_new_change].  [object] is the change the pool gives, [payload]
    whether there is a payload; the payload of a change that is not ALIVE is not
    filled.  [fuel] bounds the retries of the history. *)
Definition perform_create_new_change (fuel : nat) (now : Z) (object : option nat) (payload : bool) (related : bool) (allowed : Z) im (kind : ChangeKind_t) (data : D) k
    : option (ReturnCode * DataWriterImpl) :=
  if negb payload then Some (RETCODE_OUT_OF_RESOURCES, im)
  else
    match (match kind with ALIVE => serialize data | _ => Some [] end) with
    | None => Some (RETCODE_ERROR, im)
    | Some bytes =>
        match object with
        | None => Some (RETCODE_OUT_OF_RESOURCES, im)
        | Some a =>
            let h := di_history im in
            let ch := mkNew true (zlen bytes) 0 related (dw_keyed h && match kind with ALIVE => false | _ => true end) in
            let h := set_objects h (<[a := mkWC kind k bytes ch now (mkOut (mkSN 0 0) 0 0)]> (dw_objects h)) in
            '(added, h) ← add_pub_change wait_removal wait_acked fuel h a allowed;
            if added : bool then im ← after_write now k (di_set_history im h); Some (RETCODE_OK, im)
            else Some (RETCODE_TIMEOUT, di_set_history im (set_objects h (delete a (dw_objects h))))
        end
    end.

(** [create_new_change_with_params] with [check_new_change_preconditions]. *)
Definition create_new_change_with_params fuel now object payload related allowed im (kind : ChangeKind_t) (data : option D) k : option (ReturnCode * DataWriterImpl) :=
  match data with
  | None => Some (RETCODE_BAD_PARAMETER, im)
  | Some data =>
      if match kind with ALIVE => false | _ => true end && negb (dw_keyed (di_history im)) then Some (RETCODE_ILLEGAL_OPERATION, im)
      else perform_create_new_change fuel now object payload related allowed im kind data k
  end.

(** [check_write_preconditions]: the handle of the instance. *)
Definition check_write_preconditions im (data : D) k : ReturnCode * InstanceHandle_t :=
  if negb (di_enabled im) then (RETCODE_NOT_ENABLED, c_InstanceHandle_Unknown)
  else
    let instance := if dw_keyed (di_history im) then compute_key data else c_InstanceHandle_Unknown in
    if isDefined k && negb (bool_decide (k = instance)) then (RETCODE_PRECONDITION_NOT_MET, instance) else (RETCODE_OK, instance).

Definition di_write fuel now object payload related allowed im (data : D) k : option (ReturnCode * DataWriterImpl) :=
  match check_write_preconditions im data k with
  | (RETCODE_OK, instance) => create_new_change_with_params fuel now object payload related allowed im ALIVE (Some data) instance
  | (code, _) => Some (code, im)
  end.

(** ** Instances *)

Definition check_instance_preconditions im (data : option D) k : ReturnCode * InstanceHandle_t :=
  if negb (di_enabled im) then (RETCODE_NOT_ENABLED, c_InstanceHandle_Unknown)
  else
    match data with
    | None => (RETCODE_BAD_PARAMETER, c_InstanceHandle_Unknown)
    | Some data =>
        if negb (dw_keyed (di_history im)) then (RETCODE_PRECONDITION_NOT_MET, c_InstanceHandle_Unknown)
        else
          let instance := compute_key data in
          if isDefined k && negb (bool_decide (instance = k)) then (RETCODE_PRECONDITION_NOT_MET, instance) else (RETCODE_OK, instance)
    end.

(** [do_register_instance] *)
Definition do_register_instance im (key : D) k : option (InstanceHandle_t * DataWriterImpl) :=
  let '(ok, h) := register_instance (di_history im) k in
  if ok : bool then
    i ← map_find k (keyed_changes_ h);
    match key_payload i with
    | [] =>
        match serialize key with
        | Some bytes => Some (k, di_set_history im (set_keyed h (map_update k (mkDWI (dwi_changes i) (dwi_deadline i) bytes) (keyed_changes_ h))))
        | None => '(_, h) ← remove_instance_changes h k (mkSN 0 0); Some (k, di_set_history im h)
        end
    | _ => Some (k, di_set_history im h)
    end
  else Some (c_InstanceHandle_Unknown, di_set_history im h).

Definition di_register_instance im (key : option D) : option (InstanceHandle_t * DataWriterImpl) :=
  match check_instance_preconditions im key c_InstanceHandle_Unknown, key with
  | (RETCODE_OK, k), Some key => do_register_instance im key k
  | _, _ => Some (c_InstanceHandle_Unknown, im)
  end.

Definition unregister_instance fuel now object payload related allowed im (data : option D) k (dispose : bool) : option (ReturnCode * DataWriterImpl) :=
  match check_instance_preconditions im data k with
  | (RETCODE_OK, instance) =>
      registered ← is_key_registered (di_history im) instance;
      if registered : bool then create_new_change_with_params fuel now object payload related allowed im (unregister_change_kind dispose (di_autodispose im)) data instance
      else Some (RETCODE_PRECONDITION_NOT_MET, im)
  | (code, _) => Some (code, im)
  end.

(** [get_key_value]: the serialized key; whether there is a key holder is [holder]. *)
Definition di_get_key_value im (holder : bool) k : option (ReturnCode * option (list Z)) :=
  if negb holder || negb (isDefined k) then Some (RETCODE_BAD_PARAMETER, None)
  else if negb (dw_keyed (di_history im)) then Some (RETCODE_ILLEGAL_OPERATION, None)
  else if negb (di_enabled im) then Some (RETCODE_NOT_ENABLED, None)
  else payload ← get_key_value (di_history im) k; Some (match payload with None => (RETCODE_BAD_PARAMETER, None) | Some p => (RETCODE_OK, Some p) end).

(** [wait_for_acknowledgments] of an instance *)
Definition wait_for_acknowledgments im (data : option D) k : option (ReturnCode * DataWriterImpl) :=
  match check_instance_preconditions im data k with
  | (RETCODE_OK, instance) =>
      registered ← is_key_registered (di_history im) instance;
      if registered : bool then
        '(ok, h) ← wait_for_acknowledgement_last_change wait_acked (di_history im) instance;
        Some (if ok : bool then RETCODE_OK else RETCODE_TIMEOUT, di_set_history im h)
      else Some (RETCODE_PRECONDITION_NOT_MET, im)
  | (code, _) => Some (code, im)
  end.

(** [InnerDataWriterListener::on_writer_change_received_by_all] *)
Definition di_on_received_by_all im a : option DataWriterImpl :=
  let h := di_history im in
  c ← follow h a;
  match wc_kind c with
  | NOT_ALIVE_UNREGISTERED | NOT_ALIVE_DISPOSED_UNREGISTERED =>
      if dw_keyed h then '(_, h) ← remove_instance_changes h (wc_handle c) (wc_seq c); Some (di_set_history im h)
      else if di_volatile im then '(_, h) ← remove_change_pub h a; Some (di_set_history im h) else Some im
  | _ => if di_volatile im then '(_, h) ← remove_change_pub h a; Some (di_set_history im h) else Some im
  end.

Definition clear_history im : option (ReturnCode * DataWriterImpl) :=
  '(removed, h) ← removeAllChange (di_history im);
  Some (if 0 <? removed then RETCODE_OK else RETCODE_ERROR, di_set_history im h).
End Impl.

Arguments DataWriterImpl W : clear implicits.

(** * What the data writer does *)

(** ** Lifespan *)

Section Lifespan.
Context {W : Type} `{RtpsWriterLaws W}.
Implicit Types (h : DataWriterHistory W) (im : DataWriterImpl W).
Context (wait_removal : DataWriterHistory W -> Z * DataWriterHistory W) (wait_acked : SequenceNumber_t -> DataWriterHistory W -> bool * DataWriterHistory W).
Context (Hwaits : waits_ok wait_removal wait_acked).

Definition expired h (now lifespan : Z) (a : nat) : bool := match follow h a with Some c => wc_time c + lifespan <=? now | None => false end.

(** The changes from the first one on that has not expired. *)
Fixpoint from_unexpired h (now lifespan : Z) (l : list nat) : list nat :=
  match l with
  | [] => []
  | a :: l' => if expired h now lifespan a then from_unexpired h now lifespan l' else l
  end.

Lemma from_unexpired_ext h h' now lifespan l : (forall a, a ∈ l -> follow h' a = follow h a) -> from_unexpired h' now lifespan l = from_unexpired h now lifespan l.
Proof.
  induction l as [|a l IH]; intros E; [done|]. cbn [from_unexpired]. unfold expired. rewrite (E a) by left. destruct (match follow h a with Some c => _ | None => _ end); [|done]. apply IH. intros b Hb. apply E. by right.
Qed.

Lemma lifespan_expired_ok fuel now lifespan : forall im, dw_ok (di_history im) -> (length (dw_changes (di_history im)) <= fuel)%nat ->
  let left := from_unexpired (di_history im) now lifespan (dw_changes (di_history im)) in
  exists im', lifespan_expired fuel now lifespan im = Some (bool_decide (left <> []), im') /\ dw_ok (di_history im') /\ dw_changes (di_history im') = left /\
    (forall a, a ∈ left -> follow (di_history im') a = follow (di_history im) a) /\
    (forall a c l, left = a :: l -> follow (di_history im) a = Some c -> lifespan_interval_ im' = wc_time c + lifespan - now /\ 0 < lifespan_interval_ im' /\ lifespan_running_ im' = true).
Proof.
  induction fuel as [|fuel IH]; intros im O Hf left; destruct (dw_changes (di_history im)) as [|a l] eqn:E; cbn [lifespan_expired]; rewrite E; subst left.
  - eexists. split; [done|]. split; [done|]. split; [exact E|]. split; [by intros a ?%elem_of_nil|done].
  - simpl in Hf. lia.
  - eexists. split; [done|]. split; [done|]. split; [exact E|]. split; [by intros a ?%elem_of_nil|done].
  - assert (Ha : a ∈ dw_changes (di_history im)) by (rewrite E; left). destruct (bf_live _ (dk_base _ O) a Ha) as [c Ec]. rewrite Ec. cbn [mbind option_bind from_unexpired]. assert (Hex : expired (di_history im) now lifespan a = (wc_time c + lifespan <=? now)) by (unfold expired; by rewrite Ec). rewrite Hex.
    destruct (Z.ltb_spec now (wc_time c + lifespan)) as [Hl|Hl].
    + destruct (Z.leb_spec (wc_time c + lifespan) now) as [?|_]; [lia|]. eexists. split; [done|]. split; [done|]. split; [exact E|]. split; [done|]. intros a' c' l' [= <- <-] Ec'. rewrite Ec in Ec'. injection Ec' as <-. simpl. split; [done|]. split; [lia|done].
    + destruct (Z.leb_spec (wc_time c + lifespan) now) as [_|?]; [|lia]. destruct (remove_min_change_ok (di_history im) a l O E) as (h1 & E1 & T & El). unfold remove_min_change in E1. rewrite E in E1. rewrite E1. cbn [mbind option_bind].
      assert (Hsame : forall x, x ∈ l -> follow h1 x = follow (di_history im) x).
      { intros x Hx. unfold follow. rewrite (tk_objects _ _ _ T). apply lookup_delete_ne. intros <-. pose proof (bf_nodup _ (dk_base _ O)) as Hn. rewrite E in Hn. apply list.NoDup_cons in Hn as [Hn _]. done. }
      destruct (IH (di_set_history im h1)) as (im' & E' & O' & Ec' & Hk & Hi); [apply T|simpl; rewrite El; simpl in Hf; lia|]. simpl in E', Ec', Hk, Hi. rewrite El, (from_unexpired_ext (di_history im)) in * by done.
      assert (Hsub : forall x, x ∈ from_unexpired (di_history im) now lifespan l -> x ∈ l) by (clear; induction l as [|y l IH]; intros x Hx; [done|]; cbn [from_unexpired] in Hx; destruct (expired (di_history im) now lifespan y); [right; auto|done]).
      exists im'. split; [exact E'|]. split; [done|]. split; [done|]. split; [intros x Hx; rewrite Hk by done; auto|]. intros x d l' Ex Ed. apply (Hi x d l' Ex). rewrite Hsame; [done|]. apply Hsub. rewrite Ex. left.
Qed.

(** C31: When the timer of the lifespan expires, the changes at the head of the history whose
    lifespan is over are removed, and no other ones; the callback returns, and asks
    for the timer to be started again exactly when changes are left, with the time
    until the first of them expires, which lies ahead. *)
Theorem expired_changes_removed q keyed preallocated payload_max im now lifespan : in_use wait_removal wait_acked q keyed preallocated payload_max (di_history im) ->
  let left := from_unexpired (di_history im) now lifespan (dw_changes (di_history im)) in
  exists im', lifespan_expired (length (dw_changes (di_history im))) now lifespan im = Some (bool_decide (left <> []), im') /\ dw_changes (di_history im') = left /\
    (forall a, a ∈ left -> follow (di_history im') a = follow (di_history im) a) /\
    forall a c l, left = a :: l -> follow (di_history im) a = Some c -> lifespan_interval_ im' = wc_time c + lifespan - now /\ 0 < lifespan_interval_ im' /\ lifespan_running_ im' = true.
Proof.
  intros U left. destruct (in_use_ok _ _ Hwaits _ _ _ _ _ U) as [O _]. destruct (lifespan_expired_ok (length (dw_changes (di_history im))) now lifespan im O) as (im' & E & _ & H2 & H3 & H4); [done|]. exists im'. split; [exact E|]. split; [done|]. split; done.
Qed.
End Lifespan.

(** ** Examples *)

Definition bytes_of (d : Z) : option (list Z) := Some [d].
Definition handle_of (d : Z) : InstanceHandle_t := Some [d].
Definition last_two : WriterQos := mkWQ false 2 0 0 2.
Definition second : Z := 1000000000.

(** A keyed data writer with a deadline of a second and a lifespan. *)
Definition writer_of (h : DataWriterHistory StatefulWriter) (lifespan : option Z) : DataWriterImpl StatefulWriter := mkDI h true true false (Some second) lifespan c_InstanceHandle_Unknown 0 false 0 false [].

Definition write_at (now : Z) (a : nat) (key : Z) (im : DataWriterImpl StatefulWriter) : option (DataWriterImpl StatefulWriter) :=
  snd <$> di_write bytes_of handle_of time_over_removal time_over_acked 1 now (Some a) true false 65000 im key c_InstanceHandle_Unknown.
Definition unregister_at (now : Z) (a : nat) (key : Z) (im : DataWriterImpl StatefulWriter) : option (DataWriterImpl StatefulWriter) :=
  snd <$> unregister_instance bytes_of handle_of time_over_removal time_over_acked 1 now (Some a) true false 65000 im (Some key) c_InstanceHandle_Unknown false.

Lemma last_two_fine : qos_fine last_two.
Proof. split; simpl; lia. Qed.

Lemma expired_changes_removed_witness :
  let im := writer_of (run_of last_two true [write_of 1 7; write_of 2 8]) (Some 5) in
  exists im', lifespan_expired (length (dw_changes (di_history im))) 10 5 im = Some (false, im') /\ dw_changes (di_history im') = [].
Proof.
  destruct (expired_changes_removed time_over_removal time_over_acked time_over_ok last_two true false 1000 (writer_of (run_of last_two true [write_of 1 7; write_of 2 8]) (Some 5)) 10 5) as (im' & E & Hc & _).
  - apply run_in_use; [apply last_two_fine|done|vm_compute; reflexivity|vm_compute; congruence].
  - exists im'. split; [rewrite E; vm_compute; reflexivity|]. rewrite Hc. vm_compute. reflexivity.
Defined.

(** ** What goes wrong *)

(** An instance is unregistered; the deadline timer comes to watch it, and it is
    removed when all readers know.  The timer then reports a missed deadline of an instance that is
    gone, and stops; a later write of another instance does not start it again, so
    that no deadline of the writer is watched any more. *)
Theorem deadline_watch_dies :
  exists im, (im ← write_at 0 1 7 (writer_of (new_for last_two true) None); im ← write_at (second / 10) 2 8 im; im ← unregister_at (second / 5) 3 7 im;
              im ← write_at (second / 2) 4 8 im; im ← di_on_received_by_all im 3; im ← di_deadline_missed (6 * second / 5) second im; write_at (5 * second) 5 8 im) = Some im /\
    missed_ im = [handle_of 7] /\ map fst (keyed_changes_ (di_history im)) = [handle_of 8] /\ deadline_running_ im = false /\ timer_owner_ im = handle_of 7.
Proof. eexists. split; [vm_compute; reflexivity|]. do 3 (split; [vm_compute; reflexivity|]). vm_compute. reflexivity. Qed.

(** An instance that is registered and not written has the beginning of time as its
    deadline: the next write sets the timer to it, and to a time in the past. *)
Theorem registered_instance_is_late :
  exists im, ('(_, im) ← di_register_instance bytes_of handle_of (writer_of (new_for last_two true) None) (Some 9); write_at (10 * second) 1 7 im) = Some im /\
    timer_owner_ im = handle_of 9 /\ deadline_interval_ im = - 10000 /\ deadline_running_ im = true.
Proof. eexists. split; [vm_compute; reflexivity|]. do 2 (split; [vm_compute; reflexivity|]). vm_compute. reflexivity. Qed.

(** An instance whose key cannot be serialized is not registered, and its handle is
    returned as if it were. *)
Theorem unregistered_handle_returned :
  exists im, di_register_instance (fun _ => None) handle_of (writer_of (new_for last_two true) None) (Some 9) = Some (handle_of 9, im) /\ keyed_changes_ (di_history im) = [].
Proof. eexists. split; [vm_compute; reflexivity|]. vm_compute. reflexivity. Qed.
