(* ===== verification/Partition.v ===== *)
(** * The partition policy

    Models [PartitionQosPolicy] and [Partition_t] of
    [Fast-DDS/include/fastdds/dds/core/policy/QosPolicies.hpp], and their
    parameter of a discovery message,
    [QosPoliciesSerializer<PartitionQosPolicy>] of
    [src/cpp/fastdds/core/policy/QosPoliciesSerializer.hpp].  The names are kept
    serialized: each has its size with the final null character, the characters
    and padding to four bytes.  A C string is the list of its bytes before the
    null character.

    The names of a policy are those put into it, in their order, as long as they
    fit ([names_are_kept]); they survive the trip in a discovery message
    ([partitions_arrive]).  The reader of the parameter trusts the size of a name
    ([one_name_read_many_times]), and two partitions are equal when their names
    differ ([partition_equality_inverted]). *)

From S2P Require Import Prelude FastBuffer SequenceNumber BitmapRange CdrMessage MsgReader ParameterList MessageReceiver MessageCreator MessageWire.

(** ** C strings *)

(** The string that starts the bytes; [None] when none of them is null, and the
    code reads past their end. *)
Fixpoint c_string (bs : list Z) : option (list Z) :=
  match bs with
  | [] => None
  | b :: bs => if b =? 0 then Some [] else cons b <$> c_string bs
  end.

Definition c_string_at (bs : list Z) (p : Z) : option (list Z) :=
  if p <? 0 then None else c_string (drop (Z.to_nat p) bs).

(** The characters before the first null one, what [c_str()] means to a reader. *)
Fixpoint c_str (s : list Z) : list Z :=
  match s with
  | [] => []
  | b :: s => if b =? 0 then [] else b :: c_str s
  end.

Definition no_null (s : list Z) : Prop := Forall (fun b => b <> 0) s.

(** [(n + 3u) & ~3u] *)
Definition align4 (n : Z) : Z := Z.land (u32 (n + 3)) 0xFFFFFFFC.

(** [max_size_], the bytes of [partitions_] up to its length, the bytes allocated
    for them, [Npartitions_], [hasChanged] and the length of the parameter. *)
Record PartitionQosPolicy := mkPartitions {
  pq_max_size_ : Z;
  partitions_ : list Z;
  partitions_max_size : Z;
  Npartitions_ : Z;
  pq_hasChanged : bool;
  pq_length : Z
}.

(** A [Partition_t], by what its getters return. *)
Record Partition_t := mkPartition { partition_size : Z; partition_name : list Z }.

#[export] Instance Partition_eq_dec : EqDecision Partition_t.
Proof. solve_decision. Defined.

Section Policy.
Context `{P : Platform}.
Implicit Types p : PartitionQosPolicy.

Definition PartitionQosPolicy_new : PartitionQosPolicy := mkPartitions 0 [] 0 0 false 0.

(** [SerializedPayload_t::reserve] *)
Definition reserve_partitions p (new_size : Z) : PartitionQosPolicy :=
  if new_size <=? partitions_max_size p then p
  else mkPartitions (pq_max_size_ p) (partitions_ p) new_size (Npartitions_ p) (pq_hasChanged p) (pq_length p).

Definition set_max_size p (size : Z) : PartitionQosPolicy :=
  let p := reserve_partitions p size in
  mkPartitions size (partitions_ p) (partitions_max_size p) (Npartitions_ p) (pq_hasChanged p) (pq_length p).

(** [None] when the copies leave the allocated bytes, after the 32-bit sum of the
    sizes has wrapped around. *)
Definition push_back p (name : list Z) : option PartitionQosPolicy :=
  let size := u32 (zlen name + 1) in
  let alignment := u32 (align4 size - size) in
  let need := u32 (zlen (partitions_ p) + size + alignment + 4) in
  if negb (pq_max_size_ p =? 0) && (partitions_max_size p <? need) then Some p
  else
    let p := reserve_partitions p need in
    let data := partitions_ p ++ host_bytes 4 size ++ take (Z.to_nat size) (name ++ [0]) ++ repeat 0 (Z.to_nat alignment) in
    if zlen data <=? partitions_max_size p
    then Some (mkPartitions (pq_max_size_ p) data (partitions_max_size p) (u32 (Npartitions_ p + 1)) true (pq_length p))
    else None.

Definition clear_partitions p : PartitionQosPolicy :=
  mkPartitions (pq_max_size_ p) [] (partitions_max_size p) 0 false (pq_length p).

(** [Partition_t::size] and [name] at a position of the list. *)
Definition partition_at (data : list Z) (ptr : Z) : option Partition_t :=
  size ← host_value <$> mread data ptr 4;
  name ← c_string_at data (ptr + 4);
  Some (mkPartition size name).

(** [const_iterator::advance] *)
Definition advance_partition (data : list Z) (ptr : Z) : option Z :=
  size ← host_value <$> mread data ptr 4;
  Some (ptr + u32 (4 + align4 size)).

(** The loops [for (it = begin(); it != end(); ++it)]: every step goes four bytes
    or more. *)
Fixpoint iterate (fuel : nat) (data : list Z) (ptr : Z) : option (list Partition_t) :=
  if ptr =? zlen data then Some []
  else
    match fuel with
    | O => None
    | S fuel =>
        x ← partition_at data ptr;
        next ← advance_partition data ptr;
        cons x <$> iterate fuel data next
    end.

Definition partition_list p : option (list Partition_t) := iterate (length (partitions_ p)) (partitions_ p) 0.

(** [names() const] *)
Definition names p : option (list (list Z)) :=
  if Npartitions_ p >? 0 then option_map (map partition_name) (partition_list p) else Some [].

Fixpoint push_names p (nam : list (list Z)) : option PartitionQosPolicy :=
  match nam with
  | [] => Some p
  | n :: nam => p ← push_back p (c_str n); push_names p nam
  end.

(** [names(nam)] and [setNames] *)
Definition set_names p (nam : list (list Z)) : option PartitionQosPolicy :=
  p ← push_names (clear_partitions p) nam;
  Some (mkPartitions (pq_max_size_ p) (partitions_ p) (partitions_max_size p) (Npartitions_ p) true (pq_length p)).

(** [Partition_t::operator ==], [strcmp] being zero on equal strings. *)
Definition partition_eqb (a b : Partition_t) : bool :=
  (partition_size a =? partition_size b) &&
  ((partition_size a =? 0) || negb (bool_decide (partition_name a = partition_name b))).

(** ** The parameter *)

(** The results of the parts are accumulated. *)
Definition add_string (msg : CDRMessage_t) (in_str : list Z) : option (bool * CDRMessage_t) :=
  let str_siz := u32 (zlen in_str + 1) in
  '(v1, msg) ← addUInt32 msg str_siz;
  '(v2, msg) ← addData msg (take (Z.to_nat str_siz) (in_str ++ [0]));
  add_padding (Z.to_nat (u32 (- str_siz) mod 4)) (v1 && v2) msg.

Definition partition_serialized_size p : option Z :=
  l ← partition_list p;
  Some (fold_left (fun ret x => align4 (u32 (ret + 4 + partition_size x))) l 8).

(** The length of the parameter, kept in 16 bits. *)
Definition parameter_len (l : list Partition_t) : Z :=
  fold_left (fun len x => u16 (align4 (u16 (u16 (len + 4) + u16 (partition_size x))))) l 4.

Fixpoint add_strings (l : list Partition_t) (valid : bool) (msg : CDRMessage_t) : option (bool * CDRMessage_t) :=
  match l with
  | [] => Some (valid, msg)
  | x :: l => '(v, msg) ← add_string msg (partition_name x); add_strings l (valid && v) msg
  end.

Definition PID_PARTITION : Z := 0x0029.

Definition add_to_cdr_message p (msg : CDRMessage_t) : option (bool * CDRMessage_t) :=
  l ← partition_list p;
  '(v1, msg) ← addUInt16 msg PID_PARTITION;
  '(v2, msg) ← addUInt16 msg (parameter_len l);
  '(v3, msg) ← addUInt32 msg (Npartitions_ p);
  add_strings l (v1 && v2 && v3) msg.

(** The loop over the partitions: it ends early when a size is not there. *)
Fixpoint read_partitions (n : nat) p : Reader (bool * PartitionQosPolicy) :=
  match n with
  | O => rret (true, p)
  | S n =>
      let* '(v, partition_size) := read_u32 0 in
      if negb v then rret (false, p)
      else
        let* m := rget in
        let* name := rcheck (c_string_at (buffer m) (pos m)) in
        let* p := rcheck (push_back p name) in
        let alignment := u32 (align4 partition_size - partition_size) in
        do* advance (u32 (partition_size + alignment)) in
        read_partitions n p
  end.

Definition read_content_from_cdr_message p (parameter_length : Z) : Reader (bool * PartitionQosPolicy) :=
  if negb (pq_max_size_ p =? 0) && (parameter_length >? u32 (pq_max_size_ p + 4)) then rret (false, p)
  else
    let p := mkPartitions (pq_max_size_ p) (partitions_ p) (partitions_max_size p) (Npartitions_ p) (pq_hasChanged p) parameter_length in
    let* m := rget in
    let pos_ref := pos m in
    let* '(valid, num_partitions) := read_u32 0 in
    let* '(v, p) := read_partitions (Z.to_nat num_partitions) p in
    if negb v then rret (false, p)
    else
      let* m := rget in
      rret (valid && (parameter_length =? u32 (pos m - pos_ref)), p).

End Policy.

(** * Laws of the partition policy *)

(** ** C strings *)

Lemma c_string_app s r : no_null s -> c_string (s ++ 0 :: r) = Some s.
Proof.
  induction 1 as [|b s Hb _ IH]; [done|]. cbn [c_string app]. rewrite (proj2 (Z.eqb_neq b 0)) by done.
  unfold no_null in *. by rewrite IH.
Qed.

Lemma c_string_drop d k s r : drop k d = s ++ 0 :: r -> no_null s -> c_string_at d (Z.of_nat k) = Some s.
Proof.
  intros E Hs. unfold c_string_at. rewrite (proj2 (Z.ltb_ge _ _)) by lia. rewrite Nat2Z.id, E. by apply c_string_app.
Qed.

Lemma c_str_no_null s : no_null (c_str s).
Proof. induction s as [|b s IH]; [constructor|]. cbn. destruct (Z.eqb_spec b 0); [constructor|by constructor]. Qed.

Lemma partition_c_str_id s : no_null s -> c_str s = s.
Proof. induction 1 as [|b s Hb _ IH]; [done|]. cbn. rewrite (proj2 (Z.eqb_neq b 0)) by done. by f_equal. Qed.

(** The bytes that are at a position of a block are what is left of it there. *)
Lemma holds_drop d p bs : holds d p bs -> exists r, drop (Z.to_nat p) d = bs ++ r.
Proof.
  intros [_ H]. exists (drop (length bs) (drop (Z.to_nat p) d)).
  rewrite <- (take_drop (length bs) (drop (Z.to_nat p) d)) at 1. f_equal.
  apply list_eq. intros i. destruct (bs !! i) as [b|] eqn:E.
  - rewrite lookup_take_lt by (by apply lookup_lt_Some in E). rewrite lookup_drop. by apply H.
  - apply lookup_ge_None in E. apply lookup_ge_None. rewrite length_take. lia.
Qed.

Lemma c_string_holds d p s : holds d p (s ++ [0]) -> no_null s -> c_string_at d p = Some s.
Proof.
  intros Hh Hs. pose proof Hh as [Hp _]. apply holds_drop in Hh as [r E]. rewrite <- app_assoc in E.
  rewrite <- (Z2Nat.id p Hp). by eapply c_string_drop.
Qed.

Lemma align4_eq n : 0 <= n < 2 ^ 32 - 3 -> align4 n = (n + 3) / 4 * 4.
Proof. intros Hn. unfold align4. rewrite u32_small by lia. apply mask_align4. lia. Qed.

Lemma align4_bounds n : 0 <= n < 2 ^ 32 - 3 -> n <= align4 n <= n + 3 /\ align4 n mod 4 = 0.
Proof. intros Hn. rewrite align4_eq by done. split; [Z.to_euclidean_division_equations; lia|]. apply Z_mod_mult. Qed.

Section Laws.
Context `{P : Platform}.
Implicit Types p q : PartitionQosPolicy.

(** ** The serialized names *)

Definition padding (n : list Z) : nat := Z.to_nat (align4 (zlen n + 1) - (zlen n + 1)).
Definition entry (n : list Z) : list Z := host_bytes 4 (zlen n + 1) ++ n ++ [0] ++ repeat 0 (padding n).
Definition entries (ns : list (list Z)) : list Z := concat (entry <$> ns).
Definition entry_size (n : list Z) : Z := 4 + align4 (zlen n + 1).

Definition short (n : list Z) : Prop := zlen n < 2 ^ 31.
Definition named (n : list Z) : Partition_t := mkPartition (zlen n + 1) n.

Lemma zlen_entry n : short n -> zlen (entry n) = entry_size n.
Proof.
  intros Hs. pose proof (zlen_nonneg n). destruct (align4_bounds (zlen n + 1)) as [Ha _]; [unfold short in Hs; lia|].
  unfold entry, entry_size, padding. rewrite !zlen_app, zlen_host. unfold zlen at 2 3. rewrite repeat_length. simpl length. lia.
Qed.

Lemma entry_size_bounds n : short n -> 8 <= entry_size n < 2 ^ 32 /\ entry_size n mod 4 = 0.
Proof.
  intros Hs. pose proof (zlen_nonneg n). unfold short in Hs. destruct (align4_bounds (zlen n + 1)) as [Ha Hm]; [lia|].
  unfold entry_size. split; [|rewrite Zplus_mod, Hm; done]. split; [|lia].
  assert (align4 (zlen n + 1) <> 1 /\ align4 (zlen n + 1) <> 2 /\ align4 (zlen n + 1) <> 3) as (?&?&?); [|lia].
  split_and!; intros E; rewrite E in Hm; done.
Qed.

Lemma entries_cons n ns : entries (n :: ns) = entry n ++ entries ns.
Proof. done. Qed.

Lemma entries_app a b : entries (a ++ b) = entries a ++ entries b.
Proof. unfold entries. by rewrite fmap_app, concat_app. Qed.

(** A policy with these names. *)
Record policy_of (ns : list (list Z)) p : Prop := mkPolicyOf {
  po_data : partitions_ p = entries ns;
  po_count : Npartitions_ p = zlen ns;
  po_strings : Forall no_null ns;
  po_short : Forall short ns;
  po_fits : zlen (partitions_ p) <= partitions_max_size p < 2 ^ 32
}.

Lemma entries_count ns : Forall short ns -> 8 * zlen ns <= zlen (entries ns).
Proof.
  induction 1 as [|n ns Hn _ IH]; [done|]. rewrite entries_cons, zlen_app, zlen_entry by done.
  destruct (entry_size_bounds n Hn). unfold zlen in *. simpl length. lia.
Qed.

Lemma drop_app_at (a b : list Z) : drop (Z.to_nat (zlen a)) (a ++ b) = b.
Proof. unfold zlen. rewrite Nat2Z.id. apply drop_app_length. Qed.

Lemma size_at a n r : short n -> host_value <$> mread (a ++ entry n ++ r) (zlen a) 4 = Some (zlen n + 1).
Proof.
  intros Hs. pose proof (zlen_nonneg n). pose proof (zlen_nonneg a).
  assert (H4 : holds (a ++ entry n ++ r) (zlen a) (host_bytes 4 (zlen n + 1))).
  { split; [done|]. intros i b Hi. unfold entry. rewrite lookup_app_r by (unfold zlen; lia). rewrite <- app_assoc.
    rewrite lookup_app_l; [|apply lookup_lt_Some in Hi; rewrite length_host_bytes in *; unfold zlen; lia]. rewrite <- Hi. f_equal. unfold zlen. lia. }
  apply holds_mread in H4. rewrite zlen_host in H4. change (Z.of_nat 4) with 4 in H4. rewrite H4. simpl.
  rewrite host_value_bytes. change (8 * Z.of_nat 4) with 32. f_equal. unfold short in Hs. rewrite Z.mod_small by lia. done.
Qed.

Lemma partition_at_entry a n r : short n -> no_null n -> partition_at (a ++ entry n ++ r) (zlen a) = Some (named n).
Proof.
  intros Hs Hn. unfold partition_at. rewrite size_at by done. simpl.
  assert (E : c_string_at (a ++ entry n ++ r) (zlen a + 4) = Some n); [|by rewrite E].
  replace (zlen a + 4) with (Z.of_nat (length (a ++ host_bytes 4 (zlen n + 1)))) by (rewrite length_app, length_host_bytes; unfold zlen; lia).
  eapply (c_string_drop _ _ _ (repeat 0 (padding n) ++ r)); [|done].
  unfold entry. rewrite <- !app_assoc, app_assoc. by rewrite drop_app_length.
Qed.

Lemma advance_entry a n r : short n -> advance_partition (a ++ entry n ++ r) (zlen a) = Some (zlen (a ++ entry n)).
Proof.
  intros Hs. unfold advance_partition. rewrite size_at by done. simpl. f_equal.
  rewrite zlen_app, zlen_entry by done. destruct (entry_size_bounds n Hs). unfold entry_size in *. by rewrite u32_small by lia.
Qed.

Lemma iterate_entries ns : Forall short ns -> Forall no_null ns -> forall fuel a, (length ns <= fuel)%nat ->
  iterate fuel (a ++ entries ns) (zlen a) = Some (map named ns).
Proof.
  induction ns as [|n ns IH]; intros Hs Hn fuel a Hf.
  { change (entries []) with (@nil Z). rewrite app_nil_r. destruct fuel; cbn; by rewrite Z.eqb_refl. }
  apply Forall_cons_1 in Hs as [Hs1 Hs]. apply Forall_cons_1 in Hn as [Hn1 Hn]. destruct fuel as [|fuel]; [simpl in Hf; lia|].
  rewrite entries_cons. cbn [iterate].
  rewrite (proj2 (Z.eqb_neq _ _)).
  2:{ rewrite !zlen_app, zlen_entry by done. destruct (entry_size_bounds n Hs1). pose proof (zlen_nonneg (entries ns)). lia. }
  rewrite partition_at_entry, advance_entry by done. cbn [mbind option_bind].
  rewrite app_assoc, IH by (done || (simpl in Hf; lia)). done.
Qed.

Lemma partition_list_of ns p : policy_of ns p -> partition_list p = Some (map named ns).
Proof.
  intros [Hd Hc Hn Hs Hf]. unfold partition_list. rewrite Hd. apply (iterate_entries ns Hs Hn _ []).
  pose proof (entries_count ns Hs). unfold zlen in *. lia.
Qed.

Lemma names_of ns p : policy_of ns p -> names p = Some ns.
Proof.
  intros H. unfold names. rewrite (partition_list_of ns p H). destruct H as [_ -> _ _ _].
  destruct (Z.gtb_spec (zlen ns) 0) as [_|Hz]; [|destruct ns; [done|unfold zlen in Hz; simpl in Hz; lia]].
  simpl. f_equal. rewrite map_map. apply map_id.
Qed.

Lemma clear_of ns p : policy_of ns p -> policy_of [] (clear_partitions p).
Proof. intros [_ _ _ _ [H1 H2]]. pose proof (zlen_nonneg (partitions_ p)). split; simpl; try constructor; try done; unfold zlen in *; simpl; lia. Qed.

(** ** Adding a name *)

(** Without a limit it is added, with one when it fits. *)
Definition room p (n : list Z) : bool :=
  (pq_max_size_ p =? 0) || (zlen (partitions_ p) + entry_size n <=? partitions_max_size p).

Lemma push_back_of ns p n : policy_of ns p -> no_null n -> short n -> zlen (partitions_ p) + entry_size n < 2 ^ 32 ->
  exists p', push_back p n = Some p' /\ pq_max_size_ p' = pq_max_size_ p /\ pq_length p' = pq_length p /\
    policy_of (if room p n then ns ++ [n] else ns) p' /\
    (pq_max_size_ p <> 0 -> partitions_max_size p' = partitions_max_size p).
Proof.
  intros Hpo Hn Hs Hlt. pose proof Hpo as [Hd Hc Hns Hss [Hf1 Hf2]]. pose proof (zlen_nonneg n) as Hz.
  pose proof (zlen_nonneg (partitions_ p)) as Hz2. pose proof (entries_count ns Hss) as Hcount. rewrite <- Hd in Hcount.
  destruct (align4_bounds (zlen n + 1)) as [Ha Hm]; [unfold short in Hs; lia|]. unfold entry_size in Hlt. unfold short in Hs.
  set (A := align4 (zlen n + 1)) in *. unfold push_back. rewrite (u32_small (zlen n + 1)) by lia. fold A. rewrite (u32_small (A - _)) by lia.
  rewrite u32_small by lia. replace (zlen (partitions_ p) + (zlen n + 1) + (A - (zlen n + 1)) + 4) with (zlen (partitions_ p) + (4 + A)) by lia.
  unfold room, entry_size. fold A.
  assert (Etake : take (Z.to_nat (zlen n + 1)) (n ++ [0]) = n ++ [0]) by (apply take_ge; rewrite length_app; unfold zlen; simpl; lia).
  rewrite Etake.
  assert (Eent : partitions_ p ++ host_bytes 4 (zlen n + 1) ++ (n ++ [0]) ++ repeat 0 (Z.to_nat (A - (zlen n + 1))) = entries (ns ++ [n])).
  { rewrite entries_app, Hd. f_equal. unfold entries. simpl. rewrite app_nil_r. unfold entry, padding. fold A. by rewrite <- app_assoc. }
  assert (El : zlen (entries (ns ++ [n])) = zlen (partitions_ p) + (4 + A)).
  { rewrite entries_app, zlen_app, <- Hd. f_equal. change (entries [n]) with (entry n ++ []). rewrite app_nil_r. by apply zlen_entry. }
  destruct (Z.eqb_spec (pq_max_size_ p) 0) as [E0|E0]; simpl.
  - set (p1 := reserve_partitions p (zlen (partitions_ p) + (4 + A))).
    assert (Hp1 : partitions_ p1 = partitions_ p /\ Npartitions_ p1 = Npartitions_ p /\ pq_max_size_ p1 = pq_max_size_ p /\
      pq_length p1 = pq_length p /\ zlen (partitions_ p) + (4 + A) <= partitions_max_size p1 < 2 ^ 32).
    { unfold p1, reserve_partitions. destruct (Z.leb_spec (zlen (partitions_ p) + (4 + A)) (partitions_max_size p)); simpl; split_and!; try done; lia. }
    destruct Hp1 as (-> & -> & -> & -> & Hcap). rewrite Eent, El, (proj2 (Z.leb_le _ _)) by lia.
    eexists. split; [done|]. simpl. split; [done|]. split; [done|]. split; [|done].
    split; simpl; [done| |by apply Forall_app_2; [|constructor]|by apply Forall_app_2; [|constructor]|lia].
    rewrite Hc, zlen_app. change (zlen [n]) with 1. apply u32_small. pose proof (zlen_nonneg ns). lia.
  - destruct (Z.ltb_spec (partitions_max_size p) (zlen (partitions_ p) + (4 + A))) as [Hfull|Hroom].
    + rewrite (proj2 (Z.leb_gt _ _)) by lia. exists p. split; [done|]. split; [done|]. split; [done|]. split; done.
    + unfold reserve_partitions. rewrite (proj2 (Z.leb_le (zlen (partitions_ p) + (4 + A)) (partitions_max_size p))) by lia.
      rewrite Eent, El, (proj2 (Z.leb_le _ _)) by lia.
      eexists. split; [done|]. simpl. split; [done|]. split; [done|]. split; [|done].
      split; simpl; [done| |by apply Forall_app_2; [|constructor]|by apply Forall_app_2; [|constructor]|lia].
      rewrite Hc, zlen_app. change (zlen [n]) with 1. apply u32_small. pose proof (zlen_nonneg ns). lia.
Qed.

(** ** A list of names *)

(** The names that are kept of a list: those that fit after the ones kept before
    them, all of them without a limit. *)
Fixpoint kept (limit : option Z) (used : Z) (nam : list (list Z)) : list (list Z) :=
  match nam with
  | [] => []
  | n :: nam =>
      if match limit with None => true | Some cap => used + entry_size n <=? cap end
      then n :: kept limit (used + entry_size n) nam else kept limit used nam
  end.

Definition limit_of p : option Z := if pq_max_size_ p =? 0 then None else Some (partitions_max_size p).

Lemma push_names_of nam : forall ns p, policy_of ns p -> Forall short nam -> zlen (partitions_ p) + zlen (entries (c_str <$> nam)) < 2 ^ 32 ->
  Forall short (c_str <$> nam) ->
  exists p', push_names p nam = Some p' /\ policy_of (ns ++ kept (limit_of p) (zlen (partitions_ p)) (c_str <$> nam)) p'.
Proof.
  induction nam as [|n nam IH]; intros ns p Hp Hs Hlt Hs'.
  { exists p. rewrite app_nil_r. done. }
  apply Forall_cons_1 in Hs as [Hn Hs]. rewrite fmap_cons in *. apply Forall_cons_1 in Hs' as [Hn' Hs'].
  rewrite entries_cons, zlen_app, zlen_entry in Hlt by done. pose proof (zlen_nonneg (entries (c_str <$> nam))).
  destruct (push_back_of ns p (c_str n) Hp (c_str_no_null n) Hn') as (p1 & E & Em & _ & Hp1 & Hcap); [lia|].
  cbn [push_names]. rewrite E. cbn [mbind option_bind].
  assert (El : limit_of p1 = limit_of p) by (unfold limit_of; rewrite Em; destruct (Z.eqb_spec (pq_max_size_ p) 0); [done|by rewrite Hcap]).
  assert (Er : match limit_of p with None => true | Some cap => zlen (partitions_ p) + entry_size (c_str n) <=? cap end = room p (c_str n)).
  { unfold limit_of, room. by destruct (pq_max_size_ p =? 0). }
  cbn [kept]. rewrite Er. pose proof (po_data _ _ Hp) as Ed. pose proof (po_data _ _ Hp1) as Ed1.
  pose proof (proj1 (entry_size_bounds (c_str n) Hn')).
  destruct (room p (c_str n)).
  - assert (Ez : zlen (partitions_ p1) = zlen (partitions_ p) + entry_size (c_str n)).
    { rewrite Ed1, entries_app, zlen_app, Ed. f_equal. unfold entries. cbn. rewrite app_nil_r. by apply zlen_entry. }
    destruct (IH _ p1 Hp1 Hs) as (p' & E' & Hp'); [lia|done|]. exists p'. split; [done|]. by rewrite Ez, El, <- app_assoc in Hp'.
  - assert (Ez : partitions_ p1 = partitions_ p) by congruence.
    destruct (IH _ p1 Hp1 Hs) as (p' & E' & Hp'); [rewrite Ez; lia|done|]. exists p'. split; [done|]. by rewrite Ez, El in Hp'.
Qed.

(** ** The parameter *)

Lemma align4_plus a n : 0 <= a -> a mod 4 = 0 -> 0 <= n -> a + n < 2 ^ 32 - 3 -> align4 (a + n) = a + align4 n.
Proof. intros Ha Hm Hn Hl. rewrite !align4_eq by lia. Z.to_euclidean_division_equations; lia. Qed.

Lemma parameter_len_from ns : Forall short ns -> forall a, 0 <= a -> a mod 4 = 0 -> a + zlen (entries ns) < 2 ^ 16 ->
  fold_left (fun len x => u16 (align4 (u16 (u16 (len + 4) + u16 (partition_size x))))) (map named ns) a = a + zlen (entries ns).
Proof.
  induction 1 as [|n ns Hn _ IH]; intros a Ha Hm Hl; [cbn; rewrite Z.add_0_r; done|].
  rewrite entries_cons, zlen_app, zlen_entry in * by done. pose proof (zlen_nonneg (entries ns)). pose proof (zlen_nonneg n).
  destruct (entry_size_bounds n Hn) as [Hb Hb4]. unfold entry_size in *. destruct (align4_bounds (zlen n + 1)) as [Ha4 _]; [unfold short in Hn; lia|].
  cbn [map fold_left named partition_size]. rewrite (u16_small (a + 4)), (u16_small (zlen n + 1)), (u16_small (a + 4 + (zlen n + 1))) by lia.
  rewrite align4_plus; [|lia|by rewrite Zplus_mod, Hm|lia|lia]. rewrite u16_small by lia. rewrite IH; [lia|lia| |lia].
  rewrite <- Z.add_assoc, Zplus_mod, Hm, Hb4. done.
Qed.

Lemma parameter_len_of ns : Forall short ns -> 4 + zlen (entries ns) < 2 ^ 16 -> parameter_len (map named ns) = 4 + zlen (entries ns).
Proof. intros Hs Hl. unfold parameter_len. by apply parameter_len_from. Qed.

Lemma padding_count n : short n -> Z.to_nat (u32 (- (zlen n + 1)) mod 4) = padding n.
Proof.
  intros Hs. pose proof (zlen_nonneg n). unfold short in Hs. unfold padding. f_equal. rewrite align4_eq by lia. unfold u32.
  change (2 ^ 32) with (4 * 2 ^ 30). Z.to_euclidean_division_equations; lia.
Qed.

Lemma string_written n : short n -> writes (fun m => add_string m n) (entry n).
Proof.
  intros Hs m Hf Hl. pose proof (zlen_nonneg n). assert (Hs' := Hs). unfold short in Hs'. unfold entry in *.
  rewrite !zlen_app, zlen_host in Hl. unfold zlen at 2 3 in Hl. rewrite repeat_length in Hl. simpl length in Hl.
  unfold add_string. rewrite (u32_small (zlen n + 1)) by lia. rewrite padding_count by done.
  replace (take (Z.to_nat (zlen n + 1)) (n ++ [0])) with (n ++ [0]) by (symmetry; apply take_ge; rewrite length_app; unfold zlen; simpl; lia).
  destruct (writes_then _ _ m (zlen n + 1 + Z.of_nat (padding n)) (writes_primitive 4 (zlen n + 1) ltac:(lia)) Hf) as (m1 & E1 & Hf1 & He1 & Hl1);
    [lia|rewrite zlen_host; lia|].
  destruct (writes_then _ _ m1 (Z.of_nat (padding n)) (writes_data (n ++ [0])) Hf1) as (m2 & E2 & Hf2 & He2 & Hl2);
    [lia|rewrite zlen_app; change (zlen [0]) with 1; lia|].
  destruct (padding_written (padding n) m2 Hf2 Hl2) as (m3 & E3 & Hf3 & He3).
  exists m3. unfold addUInt32. rewrite E1. cbn [mbind option_bind]. rewrite E2. cbn [mbind option_bind andb]. split; [done|]. split; [done|].
  pose proof (emits_trans _ _ _ _ _ He1 (emits_trans _ _ _ _ _ He2 He3)) as He. by rewrite <- app_assoc in He.
Qed.

Lemma strings_written ns : Forall short ns -> forall m, filling m -> pos m + zlen (entries ns) < msg_max_size m ->
  exists m', add_strings (map named ns) true m = Some (true, m') /\ filling m' /\ emits m (entries ns) m'.
Proof.
  induction 1 as [|n ns Hn _ IH]; intros m Hf Hl.
  { exists m. split; [done|]. split; [done|]. apply emits_nil, Hf. }
  rewrite entries_cons in *. rewrite zlen_app in Hl. pose proof (zlen_nonneg (entries ns)).
  destruct (writes_then _ _ m (zlen (entries ns)) (string_written n Hn) Hf) as (m1 & E & Hf1 & He & Hl1); [lia|lia|].
  destruct (IH m1 Hf1 Hl1) as (m2 & E2 & Hf2 & He2). exists m2. cbn [map add_strings named partition_name]. rewrite E. cbn [mbind option_bind andb].
  split; [done|]. split; [done|]. exact (emits_trans _ _ _ _ _ He He2).
Qed.

(** What is in the parameter. *)
Definition content ns : list Z := host_bytes 4 (zlen ns) ++ entries ns.

Lemma zlen_content ns : zlen (content ns) = 4 + zlen (entries ns).
Proof. unfold content. by rewrite zlen_app, zlen_host. Qed.

Lemma parameter_written ns p : policy_of ns p -> zlen (content ns) < 2 ^ 16 ->
  writes (add_to_cdr_message p) (host_bytes 2 PID_PARTITION ++ host_bytes 2 (zlen (content ns)) ++ content ns).
Proof.
  intros Hp Hc m Hf Hl. rewrite zlen_content in Hc. pose proof (zlen_nonneg (entries ns)).
  rewrite !zlen_app, !zlen_host, zlen_content in Hl. unfold add_to_cdr_message. rewrite (partition_list_of ns p Hp). cbn [mbind option_bind].
  rewrite parameter_len_of by (done || apply Hp). rewrite zlen_content, (po_count _ _ Hp).
  destruct (writes_then _ _ m (2 + 4 + zlen (entries ns)) (writes_primitive 2 PID_PARTITION ltac:(lia)) Hf) as (m1 & E1 & Hf1 & He1 & Hl1);
    [lia|rewrite zlen_host; lia|].
  destruct (writes_then _ _ m1 (4 + zlen (entries ns)) (writes_primitive 2 (4 + zlen (entries ns)) ltac:(lia)) Hf1) as (m2 & E2 & Hf2 & He2 & Hl2);
    [lia|rewrite zlen_host; lia|].
  destruct (writes_then _ _ m2 (zlen (entries ns)) (writes_primitive 4 (zlen ns) ltac:(lia)) Hf2) as (m3 & E3 & Hf3 & He3 & Hl3);
    [lia|rewrite zlen_host; lia|].
  destruct (strings_written ns (po_short _ _ Hp) m3 Hf3 Hl3) as (m4 & E4 & Hf4 & He4).
  exists m4. unfold addUInt16, addUInt32. rewrite E1. cbn [mbind option_bind]. rewrite E2. cbn [mbind option_bind]. rewrite E3. cbn [mbind option_bind andb].
  split; [done|]. split; [done|]. exact (emits_trans _ _ _ _ _ He1 (emits_trans _ _ _ _ _ He2 (emits_trans _ _ _ _ _ He3 He4))).
Qed.

(** ** Reading the parameter *)

Lemma ahead_c_string m n r : ahead m (n ++ [0] ++ r) -> no_null n -> c_string_at (buffer m) (pos m) = Some n.
Proof.
  intros [_ _ _ Hh] Hn. rewrite app_assoc in Hh. apply holds_app_inv in Hh as [Hh _]. by apply c_string_holds.
Qed.

Lemma push_back_all ks q n : policy_of ks q -> pq_max_size_ q = 0 -> no_null n -> short n -> zlen (entries (ks ++ [n])) < 2 ^ 32 ->
  exists q', push_back q n = Some q' /\ policy_of (ks ++ [n]) q' /\ pq_max_size_ q' = 0.
Proof.
  intros Hq H0 Hn Hs Hl. rewrite entries_app, zlen_app in Hl. change (entries [n]) with (entry n ++ []) in Hl.
  rewrite app_nil_r, zlen_entry, <- (po_data _ _ Hq) in Hl by done.
  destruct (push_back_of ks q n Hq Hn Hs Hl) as (q' & E & Em & _ & Hp & _). exists q'. split; [done|].
  unfold room in Hp. rewrite H0 in Hp. split; [done|congruence].
Qed.

Lemma partitions_read ns : Forall short ns -> Forall no_null ns -> forall ks q m, policy_of ks q -> pq_max_size_ q = 0 ->
  zlen (entries (ks ++ ns)) < 2 ^ 32 -> ahead m (entries ns) -> msg_endian m = RTPS_DEFAULT_ENDIAN ->
  exists q', read_partitions (length ns) q m = Some ((true, q'), skip_bytes m (zlen (entries ns))) /\ policy_of (ks ++ ns) q'.
Proof.
  induction ns as [|n ns IH]; intros Hs Hn ks q m Hq H0 Hl Ha He.
  { exists q. rewrite app_nil_r. split; [|done]. simpl. unfold rret, skip_bytes, set_pos. change (zlen (entries [])) with 0. rewrite Z.add_0_r. by destruct m. }
  apply Forall_cons_1 in Hs as [Hs1 Hs]. apply Forall_cons_1 in Hn as [Hn1 Hn]. rewrite entries_cons in *.
  pose proof (zlen_nonneg n). assert (Hs' := Hs1). unfold short in Hs'. destruct (entry_size_bounds n Hs1) as [Hb _]. unfold entry_size in Hb.
  destruct (align4_bounds (zlen n + 1)) as [Hal _]; [lia|].
  assert (Ha0 := Ha). unfold entry in Ha0. rewrite <- !app_assoc in Ha0.
  destruct (ahead_app _ _ _ Ha0) as [Ha1 Ha2]. destruct (ahead_app _ _ _ Ha) as [_ Ha3].
  destruct (consumes_u32 (zlen n + 1) 0 ltac:(lia) m Ha1 He) as (a & E & ->).
  destruct (push_back_all ks q n Hq H0 Hn1 Hs1) as (q1 & E1 & Hq1 & H1).
  { replace (ks ++ n :: ns) with ((ks ++ [n]) ++ ns) in Hl by (by rewrite <- app_assoc). rewrite entries_app, zlen_app in Hl.
    pose proof (zlen_nonneg (entries ns)). lia. }
  cbn [length read_partitions]. unfold rbind at 1. rewrite E. cbn [negb]. unfold rbind at 1, rget at 1, rbind at 1, rcheck at 1.
  rewrite (ahead_c_string _ _ _ Ha2 Hn1). unfold rbind at 1, rcheck at 1. rewrite E1. unfold rbind at 1, advance at 1, rput at 1.
  rewrite (u32_small (align4 _ - _)), (u32_small (zlen n + 1 + _)) by lia.
  assert (Epos : set_pos (skip_bytes m (zlen (host_bytes 4 (zlen n + 1)))) (u32 (pos (skip_bytes m (zlen (host_bytes 4 (zlen n + 1)))) + (zlen n + 1 + (align4 (zlen n + 1) - (zlen n + 1))))) =
    skip_bytes m (zlen (entry n))).
  { unfold skip_bytes, set_pos. simpl. f_equal. rewrite zlen_host, zlen_entry by done. unfold entry_size.
    destruct Ha as [Hp Hle Hsm _]. rewrite zlen_app, zlen_entry in Hp by done. unfold entry_size in Hp. pose proof (zlen_nonneg (entries ns)).
    rewrite u32_small by lia. lia. }
  rewrite Epos. destruct (IH Hs Hn (ks ++ [n]) q1 (skip_bytes m (zlen (entry n))) Hq1 H1) as (q' & E' & Hq'); [by rewrite <- app_assoc|done|done|].
  exists q'. split; [|by rewrite <- app_assoc in Hq']. rewrite E'. do 2 f_equal. unfold skip_bytes, set_pos. simpl. f_equal. rewrite zlen_app. lia.
Qed.

Lemma parameter_read ns q : Forall short ns -> Forall no_null ns -> zlen (content ns) < 2 ^ 16 -> policy_of [] q -> pq_max_size_ q = 0 ->
  consumes (read_content_from_cdr_message q (zlen (content ns))) (content ns) (fun r => r.1 = true /\ policy_of ns r.2).
Proof.
  intros Hs Hn Hc Hq H0 m Ha He. unfold read_content_from_cdr_message. rewrite H0. cbn [Z.eqb negb andb].
  pose proof (entries_count ns Hs) as Hcnt. pose proof (zlen_content ns) as Ez. pose proof (zlen_nonneg ns).
  unfold content in Ha. destruct (ahead_app _ _ _ Ha) as [Ha1 Ha2].
  destruct (consumes_u32 (zlen ns) 0 ltac:(lia) m Ha1 He) as (a & E & ->).
  set (q0 := mkPartitions _ _ _ _ _ _).
  assert (Hq0 : policy_of [] q0) by (destruct Hq; by split).
  destruct (partitions_read ns Hs Hn [] q0 (skip_bytes m (zlen (host_bytes 4 (zlen ns)))) Hq0 eq_refl) as (q' & E' & Hq'); [simpl; lia|done|done|].
  unfold rbind at 1, rget at 1, rbind at 1. rewrite E. unfold rbind at 1. replace (Z.to_nat (zlen ns)) with (length ns) by (unfold zlen; lia). rewrite E'.
  cbn [negb]. unfold rbind, rget, rret. eexists. split.
  - do 2 f_equal. unfold skip_bytes, set_pos. simpl. f_equal. rewrite Ez, zlen_host. lia.
  - simpl. split; [|done]. destruct Ha as [Hp Hle Hsm _]. rewrite Z.eqb_eq. rewrite zlen_host, Ez. rewrite u32_small by lia. lia.
Qed.

(** The reader goes back four bytes for a size of [0xFFFFFFFC], so that the same
    name is read as often as the number of names says. *)
Lemma rewound_read s r : short s -> no_null s -> forall k ks q m, policy_of ks q -> pq_max_size_ q = 0 ->
  zlen (entries (ks ++ repeat s k)) < 2 ^ 32 -> ahead m (host_bytes 4 0xFFFFFFFC ++ s ++ [0] ++ r) -> msg_endian m = RTPS_DEFAULT_ENDIAN ->
  exists q', read_partitions k q m = Some ((true, q'), m) /\ policy_of (ks ++ repeat s k) q'.
Proof.
  intros Hs Hn. induction k as [|k IH]; intros ks q m Hq H0 Hl Ha He.
  { exists q. by rewrite app_nil_r. }
  destruct (ahead_app _ _ _ Ha) as [Ha1 Ha2].
  destruct (consumes_u32 0xFFFFFFFC 0 ltac:(lia) m Ha1 He) as (a & E & ->).
  cbn [repeat] in *. replace (ks ++ s :: repeat s k) with ((ks ++ [s]) ++ repeat s k) in * by (by rewrite <- app_assoc).
  destruct (push_back_all ks q s Hq H0 Hn Hs) as (q1 & E1 & Hq1 & H1).
  { rewrite entries_app, zlen_app in Hl. pose proof (zlen_nonneg (entries (repeat s k))). lia. }
  cbn [read_partitions]. unfold rbind at 1. rewrite E. cbn [negb]. unfold rbind at 1, rget at 1, rbind at 1, rcheck at 1.
  rewrite (ahead_c_string _ _ _ Ha2 Hn). unfold rbind at 1, rcheck at 1. rewrite E1. unfold rbind at 1, advance at 1, rput at 1.
  match goal with |- context [set_pos ?m' ?p'] => assert (Epos : set_pos m' p' = m) end.
  { unfold skip_bytes, set_pos. simpl. rewrite zlen_host.
    change (u32 (0xFFFFFFFC + u32 (align4 0xFFFFFFFC - 0xFFFFFFFC))) with 0xFFFFFFFC.
    destruct Ha1 as [Hp Hle Hsm _]. rewrite zlen_host in Hp. replace (u32 _) with (pos m); [by destruct m|].
    replace (pos m + Z.of_nat 4 + 0xFFFFFFFC) with (pos m + 1 * 2 ^ 32) by lia. unfold u32. rewrite Z_mod_plus_full. symmetry. apply Z.mod_small. lia. }
  rewrite Epos. by apply IH.
Qed.

(** ** Properties *)

(** [names(nam)] keeps the names, each up to its first null character and in
    their order, that fit in the bytes the policy is limited to, and all of them
    when there is no limit; [names()] gives them back. *)
Theorem names_are_kept ns p nam : policy_of ns p -> Forall short nam -> Forall short (c_str <$> nam) -> zlen (entries (c_str <$> nam)) < 2 ^ 32 ->
  exists p', set_names p nam = Some p' /\ names p' = Some (kept (limit_of p) 0 (c_str <$> nam)) /\ pq_hasChanged p' = true.
Proof.
  intros Hp Hs Hs' Hl. apply clear_of in Hp.
  destruct (push_names_of nam [] (clear_partitions p) Hp Hs) as (p' & E & Hp'); [done|done|].
  unfold set_names. rewrite E. eexists. split; [done|]. split; [|done]. apply names_of. destruct Hp'. by split.
Qed.

(** C36: the parameter that is written for a policy with the names [ns], when it
    is not longer than the 16 bits of its length allow, is read back as a policy
    with the same names. *)
Theorem partitions_arrive ns p q : policy_of ns p -> policy_of [] q -> pq_max_size_ q = 0 -> zlen (content ns) < 2 ^ 16 ->
  writes (add_to_cdr_message p) (host_bytes 2 PID_PARTITION ++ host_bytes 2 (zlen (content ns)) ++ content ns) /\
  consumes (read_content_from_cdr_message q (zlen (content ns))) (content ns) (fun r => r.1 = true /\ names r.2 = names p).
Proof.
  intros Hp Hq H0 Hc. split; [by apply parameter_written|]. rewrite (names_of ns p Hp).
  intros m Ha He. destruct (parameter_read ns q (po_short _ _ Hp) (po_strings _ _ Hp) Hc Hq H0 m Ha He) as (a & E & H1 & H2).
  exists a. split; [done|]. split; [done|by apply names_of].
Qed.

(** A parameter of four bytes with the number [k], followed by a size of
    [0xFFFFFFFC] and a string: it is accepted, with [k] times the string as its
    names, for any [k] that the memory allows. *)
Theorem one_name_read_many_times k s r q m : short s -> no_null s -> 0 <= k < 2 ^ 32 -> policy_of [] q -> pq_max_size_ q = 0 ->
  zlen (entries (repeat s (Z.to_nat k))) < 2 ^ 32 -> msg_endian m = RTPS_DEFAULT_ENDIAN ->
  ahead m (host_bytes 4 k ++ host_bytes 4 0xFFFFFFFC ++ s ++ [0] ++ r) ->
  exists q', read_content_from_cdr_message q 4 m = Some ((true, q'), skip_bytes m 4) /\ names q' = Some (repeat s (Z.to_nat k)).
Proof.
  intros Hs Hn Hk Hq H0 Hl He Ha. destruct (ahead_app _ _ _ Ha) as [Ha1 Ha2].
  destruct (consumes_u32 k 0 Hk m Ha1 He) as (a & E & ->). unfold read_content_from_cdr_message. rewrite H0. cbn [Z.eqb negb andb].
  set (q0 := mkPartitions _ _ _ _ _ _). assert (Hq0 : policy_of [] q0) by (destruct Hq; by split).
  destruct (rewound_read s r Hs Hn (Z.to_nat k) [] q0 _ Hq0 eq_refl Hl Ha2 He) as (q' & E' & Hq').
  unfold rbind at 1, rget at 1, rbind at 1. rewrite E. unfold rbind at 1. rewrite E'. cbn [negb]. unfold rbind, rget, rret.
  rewrite zlen_host. change (Z.of_nat 4) with 4. exists q'. split; [|by apply names_of].
  do 3 f_equal. simpl. replace (pos m + 4 - pos m) with 4 by lia. done.
Qed.

(** Two partitions with names of one size are equal when the names differ, and a
    partition is not equal to itself: [strcmp] is zero on equal strings. *)
Theorem partition_equality_inverted a b : zlen a = zlen b -> partition_eqb (named a) (named b) = negb (bool_decide (a = b)).
Proof.
  intros E. unfold partition_eqb, named. simpl. rewrite E, Z.eqb_refl. pose proof (zlen_nonneg b).
  by rewrite (proj2 (Z.eqb_neq _ _)) by lia.
Qed.

End Laws.

(** ** Concrete policies *)

Lemma new_policy `{P : Platform} : policy_of [] PartitionQosPolicy_new.
Proof. by split; try constructor. Qed.

Lemma new_limited `{P : Platform} n : 0 <= n < 2 ^ 32 -> policy_of [] (set_max_size PartitionQosPolicy_new n).
Proof.
  intros Hn. unfold set_max_size, reserve_partitions. simpl. destruct (Z.leb_spec n 0); split; simpl; try constructor; try done; unfold zlen; simpl; lia.
Qed.

(** With 16 bytes, the names "a" and "bcd" are kept and "e" is not. *)
Lemma names_are_kept_witness :
  exists p', @set_names host (set_max_size PartitionQosPolicy_new 16) [[97]; [98; 99; 100]; [101]] = Some p' /\
    @names host p' = Some [[97]; [98; 99; 100]] /\ pq_hasChanged p' = true.
Proof.
  apply (@names_are_kept host [] (set_max_size PartitionQosPolicy_new 16) [[97]; [98; 99; 100]; [101]]).
  - apply new_limited. lia.
  - repeat constructor.
  - repeat constructor.
  - vm_compute. reflexivity.
Defined.

Definition two_names : PartitionQosPolicy := mkPartitions 0 (@entries host [[97; 42]; []]) 16 2 true 0.

Lemma two_names_of : @policy_of host [[97; 42]; []] two_names.
Proof. by split; repeat constructor. Qed.

Lemma partitions_arrive_witness :
  @writes host (@add_to_cdr_message host two_names)
    (@host_bytes host 2 PID_PARTITION ++ @host_bytes host 2 20 ++ @content host [[97; 42]; []]) /\
  @consumes host _ (@read_content_from_cdr_message host PartitionQosPolicy_new 20) (@content host [[97; 42]; []])
    (fun r => r.1 = true /\ @names host r.2 = @names host two_names).
Proof.
  apply (@partitions_arrive host [[97; 42]; []] two_names PartitionQosPolicy_new).
  - exact two_names_of.
  - apply new_policy.
  - reflexivity.
  - vm_compute. reflexivity.
Defined.

(** Eleven bytes, read as fifty names. *)
Definition rewinding : CDRMessage_t :=
  mkMsg (@host_bytes host 4 50 ++ @host_bytes host 4 0xFFFFFFFC ++ [97; 98] ++ [0] ++ []) 0 11 11 (@RTPS_DEFAULT_ENDIAN host).

Lemma one_name_read_many_times_witness :
  exists q', @read_content_from_cdr_message host PartitionQosPolicy_new 4 rewinding = Some ((true, q'), skip_bytes rewinding 4) /\
    @names host q' = Some (repeat [97; 98] (Z.to_nat 50)).
Proof.
  apply (@one_name_read_many_times host 50 [97; 98] [] PartitionQosPolicy_new rewinding).
  - done.
  - by repeat constructor.
  - lia.
  - apply new_policy.
  - reflexivity.
  - vm_compute. reflexivity.
  - reflexivity.
  - split; vm_compute; by split.
Defined.

Lemma partition_equality_inverted_witness : partition_eqb (named [97]) (named [98]) = negb (bool_decide ([97] = [98])).
Proof. apply (partition_equality_inverted [97] [98]). reflexivity. Defined.
