(* ===== verification/Matching.v ===== *)
(** * Which endpoints match

    Models [EDP::valid_matching] and its helpers of
    [Fast-DDS/src/cpp/rtps/builtin/discovery/endpoint/EDP.cpp], the matching of
    partition names of [src/cpp/utils/StringMatching.cpp], and the parts of
    [WriterProxyData], [ReaderProxyData], [WriterQos] and [ReaderQos] that
    matching and its updates look at.  [fnmatch] is the function of the C library,
    with [FNM_NOESCAPE].  The partitions of a policy are the list its iteration
    visits ([partitions_arrive]).  The policies that neither matching nor
    [canQosBeUpdated] looks at, the flags that a policy has changed, and the
    locators are left out.

    [valid_matching] decides a declarative compatibility of a writer and a reader
    and a failure says why ([valid_matching_exact]).
    The result depends on a part of the data only, which a copy keeps. *)

From stdpp Require Import gmap.
From S2P Require Import Prelude SequenceNumber ParameterList ReaderProxy Liveliness Partition.

(** ** Policies *)

Inductive ReliabilityQosPolicyKind := BEST_EFFORT_RELIABILITY_QOS | RELIABLE_RELIABILITY_QOS.
Inductive OwnershipQosPolicyKind := SHARED_OWNERSHIP_QOS | EXCLUSIVE_OWNERSHIP_QOS.

#[export] Instance ReliabilityQosPolicyKind_eq_dec : EqDecision ReliabilityQosPolicyKind.
Proof. solve_decision. Defined.
#[export] Instance OwnershipQosPolicyKind_eq_dec : EqDecision OwnershipQosPolicyKind.
Proof. solve_decision. Defined.

(** The values of the enumerations that are compared by order. *)
Definition durability_value (k : DurabilityKind_t) : Z :=
  match k with VOLATILE => 0 | TRANSIENT_LOCAL => 1 | TRANSIENT => 2 | PERSISTENT => 3 end.
Definition liveliness_value (k : LivelinessKind) : Z :=
  match k with AUTOMATIC_LIVELINESS => 0 | MANUAL_BY_PARTICIPANT_LIVELINESS => 1 | MANUAL_BY_TOPIC_LIVELINESS => 2 end.

(** [operator >] of [Time_t.hpp]. *)
Definition duration_gt (t1 t2 : Duration) : bool :=
  if seconds t1 >? seconds t2 then true
  else if seconds t1 <? seconds t2 then false
  else nanosec t1 >? nanosec t2.

#[export] Instance Duration_eq_dec : EqDecision Duration.
Proof. solve_decision. Defined.

Definition XCDR_DATA_REPRESENTATION : Z := 0.
Definition XML_DATA_REPRESENTATION : Z := 1.
Definition XCDR2_DATA_REPRESENTATION : Z := 2.

Record WriterQos := mkWriterQos {
  wq_durability : DurabilityKind_t;
  wq_deadline : Duration;
  wq_liveliness : LivelinessKind;
  wq_lease : Duration;
  wq_announcement : Duration;
  wq_reliability : ReliabilityQosPolicyKind;
  wq_ownership : OwnershipQosPolicyKind;
  wq_strength : Z;
  wq_destination_order : Z;
  wq_partition : list Partition_t;
  wq_disable_positive_acks : bool;
  wq_representation : list Z;
  wq_data_sharing : Z * list Z
}.

Record ReaderQos := mkReaderQos {
  rq_durability : DurabilityKind_t;
  rq_deadline : Duration;
  rq_liveliness : LivelinessKind;
  rq_lease : Duration;
  rq_announcement : Duration;
  rq_reliability : ReliabilityQosPolicyKind;
  rq_ownership : OwnershipQosPolicyKind;
  rq_destination_order : Z;
  rq_partition : list Partition_t;
  rq_disable_positive_acks : bool;
  rq_representation : list Z;
  rq_data_sharing : Z * list Z
}.

(** [setQos]: an immutable policy is taken the first time, the others when they
    differ.  Of the representations of a writer only the first one counts. *)
Definition names_of_list (l : list Partition_t) : list (list Z) := map partition_name l.

Definition same_representation (a b : list Z) : bool :=
  bool_decide (length a = length b) && match a, b with x :: _, y :: _ => x =? y | _, _ => true end.

Definition writer_set_qos (m q : WriterQos) (first_time : bool) : WriterQos := mkWriterQos
  (if first_time then wq_durability q else wq_durability m)
  (if first_time || negb (bool_decide (wq_deadline m = wq_deadline q)) then wq_deadline q else wq_deadline m)
  (if first_time then wq_liveliness q else wq_liveliness m)
  (if first_time then wq_lease q else wq_lease m)
  (if first_time then wq_announcement q else wq_announcement m)
  (if first_time then wq_reliability q else wq_reliability m)
  (if first_time then wq_ownership q else wq_ownership m)
  (if negb (wq_strength q =? wq_strength m) then wq_strength q else wq_strength m)
  (if negb (wq_destination_order m =? wq_destination_order q) then wq_destination_order q else wq_destination_order m)
  (if first_time || negb (bool_decide (names_of_list (wq_partition q) = names_of_list (wq_partition m))) then wq_partition q else wq_partition m)
  (if first_time then wq_disable_positive_acks q else wq_disable_positive_acks m)
  (if negb (same_representation (wq_representation q) (wq_representation m)) then wq_representation q else wq_representation m)
  (if first_time && negb (bool_decide (wq_data_sharing m = wq_data_sharing q)) then wq_data_sharing q else wq_data_sharing m).

Definition reader_set_qos (m q : ReaderQos) (first_time : bool) : ReaderQos := mkReaderQos
  (if first_time then rq_durability q else rq_durability m)
  (if first_time || negb (bool_decide (rq_deadline m = rq_deadline q)) then rq_deadline q else rq_deadline m)
  (if first_time then rq_liveliness q else rq_liveliness m)
  (if first_time then rq_lease q else rq_lease m)
  (if first_time then rq_announcement q else rq_announcement m)
  (if first_time then rq_reliability q else rq_reliability m)
  (if first_time then rq_ownership q else rq_ownership m)
  (if negb (rq_destination_order m =? rq_destination_order q) then rq_destination_order q else rq_destination_order m)
  (if first_time || negb (bool_decide (names_of_list (rq_partition q) = names_of_list (rq_partition m))) then rq_partition q else rq_partition m)
  (if first_time then rq_disable_positive_acks q else rq_disable_positive_acks m)
  (if negb (bool_decide (rq_representation m = rq_representation q)) then rq_representation q else rq_representation m)
  (if negb (bool_decide (rq_data_sharing m = rq_data_sharing q)) then rq_data_sharing q else rq_data_sharing m).

(** [canQosBeUpdated] *)
Definition writer_can_be_updated (m q : WriterQos) : bool :=
  bool_decide (wq_durability m = wq_durability q) && bool_decide (wq_liveliness m = wq_liveliness q) && bool_decide (wq_lease m = wq_lease q) &&
  bool_decide (wq_announcement m = wq_announcement q) && bool_decide (wq_reliability m = wq_reliability q) &&
  bool_decide (wq_ownership m = wq_ownership q) && (wq_destination_order m =? wq_destination_order q) &&
  bool_decide (wq_data_sharing m = wq_data_sharing q).

Definition reader_can_be_updated (m q : ReaderQos) : bool :=
  bool_decide (rq_durability m = rq_durability q) && bool_decide (rq_liveliness m = rq_liveliness q) && bool_decide (rq_lease m = rq_lease q) &&
  bool_decide (rq_announcement m = rq_announcement q) && bool_decide (rq_reliability m = rq_reliability q) &&
  bool_decide (rq_ownership m = rq_ownership q) && (rq_destination_order m =? rq_destination_order q) &&
  bool_decide (rq_data_sharing m = rq_data_sharing q).

(** ** Proxy data *)

(** An identifier of a type: its discriminator, [TK_NONE] being zero, and the rest
    of it, with the size of the serialized type object. *)
Record TypeIdWithSize := mkTypeId { type_id_d : Z; type_id_rest : list Z; typeobject_serialized_size : Z }.

#[export] Instance TypeIdWithSize_eq_dec : EqDecision TypeIdWithSize.
Proof. solve_decision. Defined.

Record TypeInformationParameter := mkTypeInfo { ti_complete : TypeIdWithSize; ti_minimal : TypeIdWithSize; ti_assigned : bool }.

Definition TypeInformationParameter_new : TypeInformationParameter := mkTypeInfo (mkTypeId 0 [] 0) (mkTypeId 0 [] 0) false.

(** [m_type_information] is a pointer that may be null. *)
Record WriterProxyData := mkWriterProxyData {
  wd_guid : GUID_t;
  wd_persistence_guid : GUID_t;
  wd_topicName : list Z;
  wd_typeName : list Z;
  wd_topicKind : TopicKind_t;
  wd_type_information : option TypeInformationParameter;
  wd_qos : WriterQos
}.

Record ReaderProxyData := mkReaderProxyData {
  rpd_guid : GUID_t;
  rpd_topicName : list Z;
  rpd_typeName : list Z;
  rpd_topicKind : TopicKind_t;
  rpd_isAlive : bool;
  rpd_type_information : option TypeInformationParameter;
  rpd_content_filter : list (list Z);
  rpd_qos : ReaderQos
}.

(** [is_update_allowed]: [this] and the other one. *)
Definition writer_update_allowed (d w : WriterProxyData) : bool :=
  bool_decide (wd_guid d = wd_guid w) && bool_decide (wd_persistence_guid d = wd_persistence_guid w) &&
  bool_decide (wd_typeName d = wd_typeName w) && bool_decide (wd_topicName d = wd_topicName w) &&
  writer_can_be_updated (wd_qos d) (wd_qos w).

Definition reader_update_allowed (d r : ReaderProxyData) : bool :=
  bool_decide (rpd_guid d = rpd_guid r) && bool_decide (rpd_typeName d = rpd_typeName r) && bool_decide (rpd_topicName d = rpd_topicName r) &&
  reader_can_be_updated (rpd_qos d) (rpd_qos r).

(** ** Matching *)

(** The bits of [PolicyMask] and of [MatchingFailureMask]. *)
Definition DURABILITY_QOS_POLICY_ID : Z := 2.
Definition DEADLINE_QOS_POLICY_ID : Z := 4.
Definition OWNERSHIP_QOS_POLICY_ID : Z := 6.
Definition LIVELINESS_QOS_POLICY_ID : Z := 8.
Definition RELIABILITY_QOS_POLICY_ID : Z := 11.
Definition DATAREPRESENTATION_QOS_POLICY_ID : Z := 23.
Definition DISABLEPOSITIVEACKS_QOS_POLICY_ID : Z := 25.

Definition different_topic : Z := 0.
Definition inconsistent_topic : Z := 1.
Definition incompatible_qos : Z := 2.
Definition partitions : Z := 3.
Definition different_typeinfo : Z := 4.

(** [if (b) mask.set(bit)] *)
Definition set_if (b : bool) (bit : Z) (mask : Z) : Z := if b then Z.setbit mask bit else mask.

Section Matching.
Variable fnmatch : list Z -> list Z -> bool.
Implicit Types w : WriterProxyData.
Implicit Types r : ReaderProxyData.

(** [StringMatching::matchPattern] and [matchString] *)
Definition matchPattern (pattern str : list Z) : bool := fnmatch pattern str.
Definition matchString (str1 str2 : list Z) : bool := if fnmatch str1 str2 then true else fnmatch str2 str1.

Definition is_partition_empty (partition : Partition_t) : bool :=
  (partition_size partition <=? 1) && (zlen (partition_name partition) =? 0).

Definition is_same_type (t1 t2 : TypeInformationParameter) : bool :=
  (negb (type_id_d (ti_complete t1) =? 0) && bool_decide (ti_complete t1 = ti_complete t2)) ||
  (negb (type_id_d (ti_minimal t1) =? 0) && bool_decide (ti_minimal t1 = ti_minimal t2)).

(** [has_type_information() && type_information().assigned()] *)
Definition type_assigned (t : option TypeInformationParameter) : option TypeInformationParameter :=
  match t with Some i => if ti_assigned i then Some i else None | None => None end.

Definition checkDataRepresentationQos w r : bool :=
  let rr := rq_representation (rpd_qos r) in
  let find x := existsb (Z.eqb x) rr in
  match wq_representation (wd_qos w) with
  | [] => bool_decide (rr = []) || find XCDR_DATA_REPRESENTATION
  | writerRepresentation :: _ =>
      if writerRepresentation =? XCDR2_DATA_REPRESENTATION then find XCDR2_DATA_REPRESENTATION
      else if writerRepresentation =? XCDR_DATA_REPRESENTATION then bool_decide (rr = []) || find XCDR_DATA_REPRESENTATION
      else false
  end.

(** The policies of the writer that do not offer what the reader requests. *)
Definition incompatible_policies w r : Z :=
  let wq := wd_qos w in
  let rq := rpd_qos r in
  let m := set_if (bool_decide (wq_reliability wq = BEST_EFFORT_RELIABILITY_QOS) && bool_decide (rq_reliability rq = RELIABLE_RELIABILITY_QOS))
             RELIABILITY_QOS_POLICY_ID 0 in
  let m := set_if (durability_value (wq_durability wq) <? durability_value (rq_durability rq)) DURABILITY_QOS_POLICY_ID m in
  let m := set_if (negb (bool_decide (wq_ownership wq = rq_ownership rq))) OWNERSHIP_QOS_POLICY_ID m in
  let m := set_if (duration_gt (wq_deadline wq) (rq_deadline rq)) DEADLINE_QOS_POLICY_ID m in
  let m := set_if (negb (wq_disable_positive_acks wq) && rq_disable_positive_acks rq) DISABLEPOSITIVEACKS_QOS_POLICY_ID m in
  let m := set_if (duration_gt (wq_lease wq) (rq_lease rq)) LIVELINESS_QOS_POLICY_ID m in
  let m := set_if (liveliness_value (wq_liveliness wq) <? liveliness_value (rq_liveliness rq)) LIVELINESS_QOS_POLICY_ID m in
  set_if (negb (checkDataRepresentationQos w r)) DATAREPRESENTATION_QOS_POLICY_ID m.

Definition partitions_match (wp rp : list Partition_t) : bool :=
  match wp, rp with
  | [], [] => true
  | [], _ :: _ => existsb is_partition_empty rp
  | _ :: _, [] => existsb is_partition_empty wp
  | _, _ => existsb (fun a => existsb (fun b => matchString (partition_name a) (partition_name b)) rp) wp
  end.

(** The result, the reason of a failure and the incompatible policies. *)
Record MatchResult := mkMatch { m_valid : bool; m_reason : Z; m_incompatible : Z }.

Definition failed_for (bit : Z) : MatchResult := mkMatch false (Z.setbit 0 bit) 0.

Definition valid_matching w r : MatchResult :=
  if negb (bool_decide (wd_topicName w = rpd_topicName r)) then failed_for different_topic
  else
    match match type_assigned (wd_type_information w), type_assigned (rpd_type_information r) with
          | Some t1, Some t2 => if negb (is_same_type t1 t2) then Some different_typeinfo else None
          | _, _ => if negb (bool_decide (wd_typeName w = rpd_typeName r)) then Some inconsistent_topic else None
          end with
    | Some bit => failed_for bit
    | None =>
        if negb (bool_decide (wd_topicKind w = rpd_topicKind r)) then failed_for inconsistent_topic
        else if negb (rpd_isAlive r) then mkMatch false 0 0
        else
          let incompatible := incompatible_policies w r in
          if negb (incompatible =? 0) then mkMatch false (Z.setbit 0 incompatible_qos) incompatible
          else if partitions_match (wq_partition (wd_qos w)) (rq_partition (rpd_qos r)) then mkMatch true 0 0
          else failed_for partitions
    end.

End Matching.

(** * What a match means *)

(** ** Masks *)

Lemma testbit_set_if b bit m i : 0 <= bit -> 0 <= i -> Z.testbit (set_if b bit m) i = (b && (i =? bit)) || Z.testbit m i.
Proof.
  intros Hb Hi. unfold set_if. destruct b; [|done]. rewrite Z.setbit_eqb by done. by rewrite Z.eqb_sym.
Qed.

Lemma testbit_zero i : Z.testbit 0 i = false.
Proof. apply Z.testbit_0_l. Qed.

Lemma set_if_nonneg b bit m : 0 <= bit -> 0 <= m -> 0 <= set_if b bit m.
Proof. intros Hb Hm. unfold set_if. destruct b; [|done]. unfold Z.setbit. apply Z.lor_nonneg. split; [done|]. apply Z.shiftl_nonneg. lia. Qed.

Lemma mask_zero m : 0 <= m -> (m = 0 <-> forall i, 0 <= i -> Z.testbit m i = false).
Proof.
  intros Hm. split; [intros -> i _; apply testbit_zero|]. intros H. apply Z.bits_inj_0. intros i.
  destruct (Z.ltb_spec i 0); [by apply Z.testbit_neg_r|by apply H].
Qed.

(** ** Offered and requested policies *)

Definition duration_le (a b : Duration) : Prop := seconds a < seconds b \/ seconds a = seconds b /\ nanosec a <= nanosec b.

Lemma duration_gt_false a b : duration_gt a b = false <-> duration_le a b.
Proof.
  unfold duration_gt, duration_le. destruct (Z.gtb_spec (seconds a) (seconds b)); [split; [done|lia]|].
  destruct (Z.ltb_spec (seconds a) (seconds b)); [split; [lia|done]|].
  destruct (Z.gtb_spec (nanosec a) (nanosec b)); split; try done; lia.
Qed.

Section Laws.
Variable fnmatch : list Z -> list Z -> bool.
Implicit Types w : WriterProxyData.
Implicit Types r : ReaderProxyData.

(** A representation both can use: the first one of the writer, XCDR when there is
    none, is among those of the reader, where none means XCDR. *)
Definition representation_of w : Z := default XCDR_DATA_REPRESENTATION (head (wq_representation (wd_qos w))).
Definition representations_of r : list Z :=
  match rq_representation (rpd_qos r) with [] => [XCDR_DATA_REPRESENTATION] | l => l end.
Definition same_data_representation w r : Prop :=
  representation_of w ∈ representations_of r /\
  (representation_of w = XCDR_DATA_REPRESENTATION \/ representation_of w = XCDR2_DATA_REPRESENTATION).

(** The writer does not offer what the reader requests of the policy. *)
Definition violates w r (id : Z) : Prop :=
  let wq := wd_qos w in
  let rq := rpd_qos r in
  id = RELIABILITY_QOS_POLICY_ID /\ wq_reliability wq = BEST_EFFORT_RELIABILITY_QOS /\ rq_reliability rq = RELIABLE_RELIABILITY_QOS \/
  id = DURABILITY_QOS_POLICY_ID /\ durability_value (wq_durability wq) < durability_value (rq_durability rq) \/
  id = OWNERSHIP_QOS_POLICY_ID /\ wq_ownership wq <> rq_ownership rq \/
  id = DEADLINE_QOS_POLICY_ID /\ ~ duration_le (wq_deadline wq) (rq_deadline rq) \/
  id = DISABLEPOSITIVEACKS_QOS_POLICY_ID /\ wq_disable_positive_acks wq = false /\ rq_disable_positive_acks rq = true \/
  id = LIVELINESS_QOS_POLICY_ID /\ (~ duration_le (wq_lease wq) (rq_lease rq) \/ liveliness_value (wq_liveliness wq) < liveliness_value (rq_liveliness rq)) \/
  id = DATAREPRESENTATION_QOS_POLICY_ID /\ ~ same_data_representation w r.

(** A partition in common: no names at all match no names and the empty one. *)
Definition names_match (a b : list Z) : Prop := fnmatch a b = true \/ fnmatch b a = true.
Definition share_partition (wp rp : list Partition_t) : Prop :=
  wp = [] /\ rp = [] \/
  wp = [] /\ (exists b, b ∈ rp /\ is_partition_empty b = true) \/
  rp = [] /\ (exists a, a ∈ wp /\ is_partition_empty a = true) \/
  (exists a b, a ∈ wp /\ b ∈ rp /\ names_match (partition_name a) (partition_name b)).

Definition same_type w r : Prop :=
  match type_assigned (wd_type_information w), type_assigned (rpd_type_information r) with
  | Some t1, Some t2 => is_same_type t1 t2 = true
  | _, _ => wd_typeName w = rpd_typeName r
  end.

Record Compatible w r : Prop := mkCompatible {
  co_topic : wd_topicName w = rpd_topicName r;
  co_type : same_type w r;
  co_kind : wd_topicKind w = rpd_topicKind r;
  co_alive : rpd_isAlive r = true;
  co_policies : forall id, ~ violates w r id;
  co_partition : share_partition (wq_partition (wd_qos w)) (rq_partition (rpd_qos r))
}.

(** ** The checks *)

Lemma existsb_elem_of {A} (f : A -> bool) l : existsb f l = true <-> exists x, x ∈ l /\ f x = true.
Proof. rewrite existsb_exists. by setoid_rewrite list_elem_of_In. Qed.

Lemma find_elem_of x l : existsb (Z.eqb x) l = true <-> x ∈ l.
Proof.
  rewrite existsb_elem_of. split; [intros (y & Hy & E); by apply Z.eqb_eq in E as ->|]. intros H. exists x. split; [done|apply Z.eqb_refl].
Qed.

Lemma representation_spec w r : checkDataRepresentationQos w r = true <-> same_data_representation w r.
Proof.
  unfold checkDataRepresentationQos, same_data_representation, representation_of, representations_of.
  assert (Hx : forall l, bool_decide (l = []) || existsb (Z.eqb XCDR_DATA_REPRESENTATION) l = true <->
    XCDR_DATA_REPRESENTATION ∈ match l with [] => [XCDR_DATA_REPRESENTATION] | _ => l end).
  { intros [|x l]; [split; [intros _; by left|done]|]. rewrite bool_decide_eq_false_2 by done. apply find_elem_of. }
  assert (Hm : (match rq_representation (rpd_qos r) with [] => [XCDR_DATA_REPRESENTATION] | z :: l => z :: l end) =
    (match rq_representation (rpd_qos r) with [] => [XCDR_DATA_REPRESENTATION] | _ => rq_representation (rpd_qos r) end)) by (by destruct (rq_representation _)).
  rewrite Hm. destruct (wq_representation (wd_qos w)) as [|x l]; simpl.
  { rewrite Hx. split; [intros ?; split; [done|by left]|by intros []]. }
  destruct (Z.eqb_spec x XCDR2_DATA_REPRESENTATION) as [->|H2].
  { rewrite find_elem_of. destruct (rq_representation (rpd_qos r)) as [|y rr] eqn:E.
    - split; [intros H; inversion H|]. intros [H _]. apply list_elem_of_singleton in H. done.
    - split; [intros ?; split; [done|by right]|by intros []]. }
  destruct (Z.eqb_spec x XCDR_DATA_REPRESENTATION) as [->|H1].
  { rewrite Hx. split; [intros ?; split; [done|by left]|by intros []]. }
  split; [done|]. intros [_ []]; done.
Qed.

Lemma violates_spec w r i : 0 <= i -> Z.testbit (incompatible_policies w r) i = true <-> violates w r i.
Proof.
  intros Hi. unfold incompatible_policies.
  rewrite !testbit_set_if, testbit_zero, orb_false_r by (done || unfold RELIABILITY_QOS_POLICY_ID, DURABILITY_QOS_POLICY_ID, OWNERSHIP_QOS_POLICY_ID,
    DEADLINE_QOS_POLICY_ID, DISABLEPOSITIVEACKS_QOS_POLICY_ID, LIVELINESS_QOS_POLICY_ID, DATAREPRESENTATION_QOS_POLICY_ID; lia).
  rewrite !orb_true_iff, !andb_true_iff, !Z.eqb_eq, !Z.ltb_lt, !negb_true_iff, !bool_decide_eq_true, !bool_decide_eq_false.
  rewrite <- !not_true_iff_false, representation_spec.
  unfold violates. rewrite <- !duration_gt_false, !not_false_iff_true, not_true_iff_false. tauto.
Qed.

Lemma incompatible_nonneg w r : 0 <= incompatible_policies w r.
Proof. unfold incompatible_policies. repeat (apply set_if_nonneg; [done|]). done. Qed.

Lemma policies_agree w r : incompatible_policies w r = 0 <-> forall id, ~ violates w r id.
Proof.
  assert (Hv : forall id, violates w r id -> 0 <= id).
  { intros id. unfold violates, RELIABILITY_QOS_POLICY_ID, DURABILITY_QOS_POLICY_ID, OWNERSHIP_QOS_POLICY_ID,
      DEADLINE_QOS_POLICY_ID, DISABLEPOSITIVEACKS_QOS_POLICY_ID, LIVELINESS_QOS_POLICY_ID, DATAREPRESENTATION_QOS_POLICY_ID. lia. }
  rewrite mask_zero by apply incompatible_nonneg.
  split.
  - intros H id Hid. pose proof (Hv id Hid) as H0. apply violates_spec in Hid; [|done]. by rewrite H in Hid.
  - intros H i Hi. apply not_true_is_false. intros E. by apply (H i), violates_spec.
Qed.

Lemma match_string_spec a b : matchString fnmatch a b = true <-> names_match a b.
Proof. unfold matchString, names_match. destruct (fnmatch a b); intuition congruence. Qed.

Lemma partitions_spec wp rp : partitions_match fnmatch wp rp = true <-> share_partition wp rp.
Proof.
  unfold partitions_match, share_partition. destruct wp as [|a wp], rp as [|b rp].
  - split; [by left|done].
  - rewrite existsb_elem_of. split; [intros H; right; left; done|].
    intros [[_ ?]|[[_ H]|[[? _]|(x & y & Hx & _)]]]; [done|done|done|inversion Hx].
  - rewrite existsb_elem_of. split; [intros H; right; right; left; done|].
    intros [[? _]|[[? _]|[[_ H]|(x & y & _ & Hy & _)]]]; [done|done|done|inversion Hy].
  - rewrite existsb_elem_of. setoid_rewrite existsb_elem_of. setoid_rewrite match_string_spec. split.
    + intros (x & Hx & y & Hy & H). right. right. right. eauto.
    + intros [[? _]|[[? _]|[[? _]|(x & y & Hx & Hy & H)]]]; [done..|eauto].
Qed.

(** ** Properties *)

(** Why a topic is inconsistent. *)
Definition topic_inconsistent w r : Prop :=
  (type_assigned (wd_type_information w) = None \/ type_assigned (rpd_type_information r) = None) /\ wd_typeName w <> rpd_typeName r \/
  same_type w r /\ wd_topicKind w <> rpd_topicKind r.

(** What the checks before that of the reader's life have found. *)
Definition one_topic w r : Prop := wd_topicName w = rpd_topicName r /\ same_type w r /\ wd_topicKind w = rpd_topicKind r.

(** The failures, in the order of the checks: each comes with what the checks before
    it have found. *)
Inductive Failure w r : MatchResult -> Prop :=
| fail_topic : wd_topicName w <> rpd_topicName r -> Failure w r (mkMatch false (2 ^ different_topic) 0)
| fail_type t1 t2 : wd_topicName w = rpd_topicName r ->
    type_assigned (wd_type_information w) = Some t1 -> type_assigned (rpd_type_information r) = Some t2 -> is_same_type t1 t2 = false ->
    Failure w r (mkMatch false (2 ^ different_typeinfo) 0)
| fail_inconsistent : wd_topicName w = rpd_topicName r -> topic_inconsistent w r -> Failure w r (mkMatch false (2 ^ inconsistent_topic) 0)
| fail_dead : one_topic w r -> rpd_isAlive r = false -> Failure w r (mkMatch false 0 0)
| fail_qos mask : one_topic w r -> rpd_isAlive r = true -> (forall i, 0 <= i -> Z.testbit mask i = true <-> violates w r i) -> (exists i, violates w r i) ->
    Failure w r (mkMatch false (2 ^ incompatible_qos) mask)
| fail_partitions : one_topic w r -> rpd_isAlive r = true -> (forall id, ~ violates w r id) -> ~ share_partition (wq_partition (wd_qos w)) (rq_partition (rpd_qos r)) ->
    Failure w r (mkMatch false (2 ^ partitions) 0).

(** The checks, one after the other. *)
Lemma valid_matching_cases w r :
  Compatible w r /\ valid_matching fnmatch w r = mkMatch true 0 0 \/ ~ Compatible w r /\ Failure w r (valid_matching fnmatch w r).
Proof.
  unfold valid_matching, failed_for. destruct (decide (wd_topicName w = rpd_topicName r)) as [Et|Et].
  2:{ right. rewrite bool_decide_eq_false_2 by done. split; [by intros []|by apply (fail_topic w r)]. }
  rewrite bool_decide_eq_true_2 by done. cbn [negb].
  set (ty := match type_assigned (wd_type_information w) with Some _ => _ | None => _ end).
  assert (Hty : same_type w r /\ ty = None \/ ~ same_type w r /\ exists bit, ty = Some bit /\ Failure w r (mkMatch false (Z.setbit 0 bit) 0)).
  { unfold ty, same_type, topic_inconsistent in *. destruct (type_assigned (wd_type_information w)) as [t1|] eqn:E1, (type_assigned (rpd_type_information r)) as [t2|] eqn:E2.
    - destruct (is_same_type t1 t2) eqn:E; [by left|]. right. split; [done|]. eexists. split; [done|]. by apply (fail_type w r t1 t2).
    - destruct (decide (wd_typeName w = rpd_typeName r)); [left; by rewrite bool_decide_eq_true_2|]. right. rewrite bool_decide_eq_false_2 by done.
      split; [done|]. eexists. split; [done|]. apply (fail_inconsistent w r); [done|]. left. auto.
    - destruct (decide (wd_typeName w = rpd_typeName r)); [left; by rewrite bool_decide_eq_true_2|]. right. rewrite bool_decide_eq_false_2 by done.
      split; [done|]. eexists. split; [done|]. apply (fail_inconsistent w r); [done|]. left. auto.
    - destruct (decide (wd_typeName w = rpd_typeName r)); [left; by rewrite bool_decide_eq_true_2|]. right. rewrite bool_decide_eq_false_2 by done.
      split; [done|]. eexists. split; [done|]. apply (fail_inconsistent w r); [done|]. left. auto. }
  destruct Hty as [[Hs ->]|(Hs & bit & -> & Hf)]; [|right; split; [by intros []|done]].
  destruct (decide (wd_topicKind w = rpd_topicKind r)) as [Ek|Ek].
  2:{ right. rewrite bool_decide_eq_false_2 by done. split; [by intros []|]. apply (fail_inconsistent w r); [done|]. by right. }
  assert (Hone : one_topic w r) by done.
  rewrite bool_decide_eq_true_2 by done. cbn [negb]. destruct (rpd_isAlive r) eqn:Ea; cbn [negb].
  2:{ right. split; [|by apply fail_dead]. intros []. congruence. }
  destruct (Z.eqb_spec (incompatible_policies w r) 0) as [E0|E0]; cbn [negb].
  2:{ right. split; [intros [? ? ? ? Hp ?]; by apply policies_agree in Hp|]. apply (fail_qos w r); [done|done|intros i Hi; by apply violates_spec|].
      exists (Z.log2 (incompatible_policies w r)). apply violates_spec; [apply Z.log2_nonneg|].
      apply Z.bit_log2. pose proof (incompatible_nonneg w r). lia. }
  pose proof (proj1 (policies_agree w r) E0) as Hp.
  destruct (partitions_match fnmatch (wq_partition (wd_qos w)) (rq_partition (rpd_qos r))) eqn:Epart.
  - left. split; [|done]. split; try done. by apply partitions_spec.
  - assert (Hn : ~ share_partition (wq_partition (wd_qos w)) (rq_partition (rpd_qos r))) by (rewrite <- partitions_spec; congruence).
    right. split; [by intros []|by apply (fail_partitions w r)].
Qed.

(** C8: a writer and a reader match exactly when they are on one topic, of the same
    type and kind, the reader is alive, the writer offers what the reader requests
    of every policy, and they have a partition in common.  Otherwise the reason that
    is set is the first check that fails, and the incompatible policies are exactly
    those whose offer does not satisfy the request; no reason is set for a reader
    that is not alive. *)
Theorem valid_matching_exact w r :
  if m_valid (valid_matching fnmatch w r) then Compatible w r /\ valid_matching fnmatch w r = mkMatch true 0 0
  else ~ Compatible w r /\ Failure w r (valid_matching fnmatch w r).
Proof. destruct (valid_matching_cases w r) as [[Hc ->]|[Hc Hf]]; [done|]. by destruct (m_valid _) eqn:E; [destruct Hf|]. Qed.

(** Without partitions the empty name is not matched by patterns: the writer with
    the empty name matches the reader of [*], the writer with no name does not. *)
Theorem no_partition_is_not_the_empty_name : fnmatch [42] [] = true ->
  partitions_match fnmatch [mkPartition 1 []] [mkPartition 2 [42]] = true /\ partitions_match fnmatch [] [mkPartition 2 [42]] = false.
Proof. intros H. unfold partitions_match, matchString. simpl. rewrite H. by destruct (fnmatch [] [42]). Qed.

(** ** What the result depends on *)

Definition writer_key w := (wd_topicName w, wd_typeName w, wd_topicKind w, type_assigned (wd_type_information w),
  (wq_durability (wd_qos w), wq_deadline (wd_qos w), wq_liveliness (wd_qos w), wq_lease (wd_qos w), wq_reliability (wd_qos w),
   wq_ownership (wd_qos w), wq_partition (wd_qos w), wq_disable_positive_acks (wd_qos w), head (wq_representation (wd_qos w)))).

Definition reader_key r := (rpd_topicName r, rpd_typeName r, rpd_topicKind r, rpd_isAlive r, type_assigned (rpd_type_information r),
  (rq_durability (rpd_qos r), rq_deadline (rpd_qos r), rq_liveliness (rpd_qos r), rq_lease (rpd_qos r), rq_reliability (rpd_qos r),
   rq_ownership (rpd_qos r), rq_partition (rpd_qos r), rq_disable_positive_acks (rpd_qos r), rq_representation (rpd_qos r))).

Lemma valid_matching_keys w w' r r' : writer_key w = writer_key w' -> reader_key r = reader_key r' ->
  valid_matching fnmatch w r = valid_matching fnmatch w' r'.
Proof.
  unfold writer_key, reader_key. intros Hw Hr. simplify_eq.
  unfold valid_matching, incompatible_policies, checkDataRepresentationQos.
  repeat match goal with H : _ = _ |- _ => rewrite H; clear H end.
  destruct (wq_representation (wd_qos w)), (wq_representation (wd_qos w')); simpl in *; simplify_eq; done.
Qed.

End Laws.

(** ** Witnesses *)

Definition sometime : Duration := mkDuration 5 0.
Definition a_writer (topic : list Z) (reliability : ReliabilityQosPolicyKind) : WriterProxyData :=
  mkWriterProxyData (mkGUID (repeat 1 12) [0; 0; 1; 3]) c_Guid_Unknown topic [84] NO_KEY None
    (mkWriterQos VOLATILE sometime AUTOMATIC_LIVELINESS sometime sometime reliability SHARED_OWNERSHIP_QOS 0 0 [] false [] (0, [])).
Definition a_reader (deadline : Duration) : ReaderProxyData :=
  mkReaderProxyData (mkGUID (repeat 2 12) [0; 0; 1; 4]) [116] [84] NO_KEY true None []
    (mkReaderQos VOLATILE deadline AUTOMATIC_LIVELINESS sometime sometime RELIABLE_RELIABILITY_QOS SHARED_OWNERSHIP_QOS 0 [] false [] (0, [])).

(** The writer is not reliable, and its deadline is too long. *)
Example two_policies_fail : valid_matching (fun a b => bool_decide (a = b)) (a_writer [116] BEST_EFFORT_RELIABILITY_QOS) (a_reader (mkDuration 1 0)) =
  mkMatch false (2 ^ incompatible_qos) (2 ^ RELIABILITY_QOS_POLICY_ID + 2 ^ DEADLINE_QOS_POLICY_ID).
Proof. vm_compute. reflexivity. Qed.

Lemma no_partition_is_not_the_empty_name_witness :
  let all_matches (p s : list Z) := bool_decide (p = [42]) || bool_decide (p = s) in
  partitions_match all_matches [mkPartition 1 []] [mkPartition 2 [42]] = true /\ partitions_match all_matches [] [mkPartition 2 [42]] = false.
Proof. apply (no_partition_is_not_the_empty_name (fun p s => bool_decide (p = [42]) || bool_decide (p = s))). vm_compute. reflexivity. Defined.
