(* ===== verification/EndpointDiscovery.v ===== *)
(** * Endpoint discovery

    Models [EDP] of [Fast-DDS/src/cpp/rtps/builtin/discovery/endpoint/EDP.cpp],
    the announcements of [EDPSimple.cpp] and [EDPSimpleListeners.cpp], and the
    proxy data of participants that [participant/PDP.cpp] keeps, in the build
    without security.  A participant knows the data of its own endpoints and of
    those of the participants it has discovered, and tells its endpoints which
    remote ones to match.  The endpoints are behind an interface, which
    [EndpointMatches.v] implements with readers and writers of this
    development.  The payload of an announcement is the proxy data it carries. *)

From stdpp Require Import gmap.
From S2P Require Import Prelude SequenceNumber ParameterList Liveliness ReaderProxy Partition Matching.

(** ** The interface of a local endpoint *)

(** What [EDP] uses of a [BaseReader] or a [BaseWriter]; [D] is the data of the
    remote endpoint. *)
Class Endpoint (E D : Type) := {
  getGuid : E -> GUID_t;
  has_listener : E -> bool;
  is_matched : E -> GUID_t -> bool;
  matched_add : E -> D -> bool * E;
  matched_remove : E -> GUID_t -> bool -> bool * E
}.

(** The calls of the listeners of local endpoints. *)
Inductive Call :=
| on_matched (local remote : GUID_t)
| on_unmatched (local remote : GUID_t)
| on_incompatible_qos (local : GUID_t) (policies : Z).

(** The changes of the builtin writers, each of the key of an endpoint. *)
Inductive ReaderNews := reader_alive (d : ReaderProxyData) | reader_gone (g : GUID_t).
Inductive WriterNews := writer_alive (d : WriterProxyData) | writer_gone (g : GUID_t).

Definition reader_news_key (n : ReaderNews) : GUID_t := match n with reader_alive d => rpd_guid d | reader_gone g => g end.
Definition writer_news_key (n : WriterNews) : GUID_t := match n with writer_alive d => wd_guid d | writer_gone g => g end.

Inductive TypePropagation := TYPEPROPAGATION_UNKNOWN | TYPEPROPAGATION_DISABLED | TYPEPROPAGATION_ENABLED | TYPEPROPAGATION_MINIMAL_BANDWIDTH | TYPEPROPAGATION_REGISTRATION_ONLY.

(** The topic an endpoint is registered with. *)
Record TopicDescription := mkTopic { topic_name : list Z; type_name : list Z; type_information : TypeInformationParameter }.

(** The readers and writers of a participant, by their entity ids. *)
Record ParticipantProxyData := mkPP {
  pp_guid : GUID_t;
  pp_readers : gmap EntityId_t ReaderProxyData;
  pp_writers : gmap EntityId_t WriterProxyData
}.

(** A pool of proxy data: the free ones, those created and their limit. *)
Record ProxyPool := mkPool { pool_free : nat; pool_number : nat; pool_max : nat }.

Definition take_proxy (p : ProxyPool) : option ProxyPool :=
  match pool_free p with
  | O => if (pool_number p <? pool_max p)%nat then Some (mkPool 0 (S (pool_number p)) (pool_max p)) else None
  | S n => Some (mkPool n (pool_number p) (pool_max p))
  end.
Definition return_proxies (n : nat) (p : ProxyPool) : ProxyPool := mkPool (pool_free p + n) (pool_number p) (pool_max p).

(** Proxy data of the pool, after [clear]. *)
Definition blank_writer_qos : WriterQos :=
  mkWriterQos VOLATILE (mkDuration 0x7fffffff 0xffffffff) AUTOMATIC_LIVELINESS (mkDuration 0x7fffffff 0xffffffff) (mkDuration 0x7fffffff 0xffffffff)
    RELIABLE_RELIABILITY_QOS SHARED_OWNERSHIP_QOS 0 0 [] false [] (0, []).
Definition blank_reader_qos : ReaderQos :=
  mkReaderQos VOLATILE (mkDuration 0x7fffffff 0xffffffff) AUTOMATIC_LIVELINESS (mkDuration 0x7fffffff 0xffffffff) (mkDuration 0x7fffffff 0xffffffff)
    BEST_EFFORT_RELIABILITY_QOS SHARED_OWNERSHIP_QOS 0 [] false [] (0, []).
Definition blank_writer : WriterProxyData := mkWriterProxyData c_Guid_Unknown c_Guid_Unknown [] [] NO_KEY None blank_writer_qos.
Definition blank_reader : ReaderProxyData := mkReaderProxyData c_Guid_Unknown [] [] NO_KEY true None [[]; []; []; []] blank_reader_qos.

Section Discovery.
Context {R W : Type} `{RE : !Endpoint R WriterProxyData} `{WE : !Endpoint W ReaderProxyData}.
Variable fnmatch : list Z -> list Z -> bool.

(** The first of [d_participants] is the participant itself. *)
Record Discovery := mkDiscovery {
  d_guid : GUID_t;
  d_match_local : bool;
  d_propagation : TypePropagation;
  d_max_participants : nat;
  d_participants : list ParticipantProxyData;
  d_reader_pool : ProxyPool;
  d_writer_pool : ProxyPool;
  d_readers : list R;
  d_writers : list W;
  d_calls : list Call;
  d_subscriptions : list ReaderNews;
  d_publications : list WriterNews
}.
Implicit Types s : Discovery.

Definition set_participants s l : Discovery := mkDiscovery (d_guid s) (d_match_local s) (d_propagation s) (d_max_participants s) l
  (d_reader_pool s) (d_writer_pool s) (d_readers s) (d_writers s) (d_calls s) (d_subscriptions s) (d_publications s).
Definition set_reader_pool s p : Discovery := mkDiscovery (d_guid s) (d_match_local s) (d_propagation s) (d_max_participants s) (d_participants s)
  p (d_writer_pool s) (d_readers s) (d_writers s) (d_calls s) (d_subscriptions s) (d_publications s).
Definition set_writer_pool s p : Discovery := mkDiscovery (d_guid s) (d_match_local s) (d_propagation s) (d_max_participants s) (d_participants s)
  (d_reader_pool s) p (d_readers s) (d_writers s) (d_calls s) (d_subscriptions s) (d_publications s).
Definition set_endpoints s rs ws cs : Discovery := mkDiscovery (d_guid s) (d_match_local s) (d_propagation s) (d_max_participants s) (d_participants s)
  (d_reader_pool s) (d_writer_pool s) rs ws cs (d_subscriptions s) (d_publications s).
Definition set_news s rn wn : Discovery := mkDiscovery (d_guid s) (d_match_local s) (d_propagation s) (d_max_participants s) (d_participants s)
  (d_reader_pool s) (d_writer_pool s) (d_readers s) (d_writers s) (d_calls s) rn wn.

(** ** Proxy data *)

Definition same_prefix (g : GUID_t) (p : ParticipantProxyData) : bool := bool_decide (guidPrefix (pp_guid p) = guidPrefix g).

(** The loops over the participants with the prefix: they go on after one that does
    not have the endpoint. *)
Fixpoint find_reader_data (l : list ParticipantProxyData) (g : GUID_t) : option ReaderProxyData :=
  match l with
  | [] => None
  | p :: l =>
      if same_prefix g p then match pp_readers p !! entityId g with Some d => Some d | None => find_reader_data l g end
      else find_reader_data l g
  end.
Fixpoint find_writer_data (l : list ParticipantProxyData) (g : GUID_t) : option WriterProxyData :=
  match l with
  | [] => None
  | p :: l =>
      if same_prefix g p then match pp_writers p !! entityId g with Some d => Some d | None => find_writer_data l g end
      else find_writer_data l g
  end.

Definition lookupReaderProxyData s (g : GUID_t) : option ReaderProxyData := find_reader_data (d_participants s) g.
Definition lookupWriterProxyData s (g : GUID_t) : option WriterProxyData := find_writer_data (d_participants s) g.

Definition put_reader (g : GUID_t) (d : ReaderProxyData) (p : ParticipantProxyData) : ParticipantProxyData :=
  mkPP (pp_guid p) (<[entityId g := d]> (pp_readers p)) (pp_writers p).
Definition put_writer (g : GUID_t) (d : WriterProxyData) (p : ParticipantProxyData) : ParticipantProxyData :=
  mkPP (pp_guid p) (pp_readers p) (<[entityId g := d]> (pp_writers p)).

(** The participants before the first one with a property, that one and the others. *)
Fixpoint split_at {A} (f : A -> bool) (l : list A) : option (list A * A * list A) :=
  match l with
  | [] => None
  | x :: l => if f x then Some ([], x, l) else match split_at f l with Some (a, y, b) => Some (x :: a, y, b) | None => None end
  end.

(** The initializer sees the data, and whether it is an update; what it has changed
    stays when it fails. *)
Definition addReaderProxyData s (reader_guid : GUID_t) (init : ReaderProxyData -> bool -> bool * ReaderProxyData) : Discovery * option ReaderProxyData :=
  match split_at (same_prefix reader_guid) (d_participants s) with
  | None => (s, None)
  | Some (before, p, after) =>
      match pp_readers p !! entityId reader_guid with
      | Some d =>
          let '(ok, d) := init d true in
          (set_participants s (before ++ put_reader reader_guid d p :: after), if ok then Some d else None)
      | None =>
          match take_proxy (d_reader_pool s) with
          | None => (s, None)
          | Some pool =>
              let '(ok, d) := init blank_reader false in
              (set_participants (set_reader_pool s pool) (before ++ put_reader reader_guid d p :: after), if ok then Some d else None)
          end
      end
  end.

Definition addWriterProxyData s (writer_guid : GUID_t) (init : WriterProxyData -> bool -> bool * WriterProxyData) : Discovery * option WriterProxyData :=
  match split_at (same_prefix writer_guid) (d_participants s) with
  | None => (s, None)
  | Some (before, p, after) =>
      match pp_writers p !! entityId writer_guid with
      | Some d =>
          let '(ok, d) := init d true in
          (set_participants s (before ++ put_writer writer_guid d p :: after), if ok then Some d else None)
      | None =>
          match take_proxy (d_writer_pool s) with
          | None => (s, None)
          | Some pool =>
              let '(ok, d) := init blank_writer false in
              (set_participants (set_writer_pool s pool) (before ++ put_writer writer_guid d p :: after), if ok then Some d else None)
          end
      end
  end.

(** ** Unpairing *)

(** All local endpoints drop a remote one. *)
Fixpoint unpair_all {E D} `{!Endpoint E D} (g : GUID_t) (by_lease : bool) (l : list E) : list E * list Call :=
  match l with
  | [] => ([], [])
  | e :: l =>
      let '(removed, e') := matched_remove e g by_lease in
      let '(l, calls) := unpair_all g by_lease l in
      (e' :: l, if removed && has_listener e' then on_unmatched (getGuid e') g :: calls else calls)
  end.

Definition unpairWriterProxy s (writer_guid : GUID_t) (removed_by_lease : bool) : Discovery :=
  let '(rs, calls) := unpair_all writer_guid removed_by_lease (d_readers s) in set_endpoints s rs (d_writers s) (d_calls s ++ calls).

(** [matched_reader_remove] has no second argument. *)
Definition unpairReaderProxy s (reader_guid : GUID_t) : Discovery :=
  let '(ws, calls) := unpair_all reader_guid false (d_writers s) in set_endpoints s (d_readers s) ws (d_calls s ++ calls).

(** Out of a participant that has it. *)
Definition has_reader (g : GUID_t) (p : ParticipantProxyData) : bool :=
  same_prefix g p && match pp_readers p !! entityId g with Some _ => true | None => false end.
Definition has_writer (g : GUID_t) (p : ParticipantProxyData) : bool :=
  same_prefix g p && match pp_writers p !! entityId g with Some _ => true | None => false end.

Definition removeReaderProxyData s (reader_guid : GUID_t) : bool * Discovery :=
  match split_at (has_reader reader_guid) (d_participants s) with
  | None => (false, s)
  | Some (before, p, after) =>
      let s := unpairReaderProxy s reader_guid in
      let p := mkPP (pp_guid p) (delete (entityId reader_guid) (pp_readers p)) (pp_writers p) in
      (true, set_reader_pool (set_participants s (before ++ p :: after)) (return_proxies 1 (d_reader_pool s)))
  end.

Definition removeWriterProxyData s (writer_guid : GUID_t) : bool * Discovery :=
  match split_at (has_writer writer_guid) (d_participants s) with
  | None => (false, s)
  | Some (before, p, after) =>
      let s := unpairWriterProxy s writer_guid false in
      let p := mkPP (pp_guid p) (pp_readers p) (delete (entityId writer_guid) (pp_writers p)) in
      (true, set_writer_pool (set_participants s (before ++ p :: after)) (return_proxies 1 (d_writer_pool s)))
  end.

(** ** Pairing *)

(** The common body of the pairing functions, for one local and one remote
    endpoint: [remote] is the identifier and [d] the data of the remote one. *)
Definition pair_endpoint {E D} `{!Endpoint E D} (res : MatchResult) (remote : GUID_t) (d : D) (e : E) : E * list Call :=
  if m_valid res then
    let '(added, e) := matched_add e d in
    (e, if added && has_listener e then [on_matched (getGuid e) remote] else [])
  else
    let calls := if Z.testbit (m_reason res) incompatible_qos && has_listener e then [on_incompatible_qos (getGuid e) (m_incompatible res)] else [] in
    if is_matched e remote then
      let '(removed, e) := matched_remove e remote false in
      (e, calls ++ if removed && has_listener e then [on_unmatched (getGuid e) remote] else [])
    else (e, calls).

Definition pair_reader (rdata : ReaderProxyData) (wdata : WriterProxyData) (r : R) : R * list Call :=
  pair_endpoint (valid_matching fnmatch wdata rdata) (wd_guid wdata) wdata r.
Definition pair_writer (wdata : WriterProxyData) (rdata : ReaderProxyData) (w : W) : W * list Call :=
  pair_endpoint (valid_matching fnmatch wdata rdata) (rpd_guid rdata) rdata w.

(** One local endpoint with many remote ones. *)
Fixpoint pair_with_each {E D} (pair : D -> E -> E * list Call) (ds : list D) (e : E) : E * list Call :=
  match ds with
  | [] => (e, [])
  | d :: ds => let '(e, c1) := pair d e in let '(e, c2) := pair_with_each pair ds e in (e, c1 ++ c2)
  end.

(** The participants whose endpoints are looked at: not the first one, when local
    endpoints do not match. *)
Definition matchable s : list ParticipantProxyData := if d_match_local s then d_participants s else tail (d_participants s).
Definition all_writers (l : list ParticipantProxyData) : list WriterProxyData := l ≫= fun p => snd <$> map_to_list (pp_writers p).
Definition all_readers (l : list ParticipantProxyData) : list ReaderProxyData := l ≫= fun p => snd <$> map_to_list (pp_readers p).

(** The endpoint a reference points to, changed. *)
Fixpoint change_endpoint {E D} `{!Endpoint E D} (g : GUID_t) (f : E -> E * list Call) (l : list E) : list E * list Call :=
  match l with
  | [] => ([], [])
  | e :: l =>
      if bool_decide (getGuid e = g) then let '(e, calls) := f e in (e :: l, calls)
      else let '(l, calls) := change_endpoint g f l in (e :: l, calls)
  end.

Definition pairingReader s (reader : GUID_t) (rdata : ReaderProxyData) : Discovery :=
  let '(rs, calls) := change_endpoint reader (pair_with_each (pair_reader rdata) (all_writers (matchable s))) (d_readers s) in
  set_endpoints s rs (d_writers s) (d_calls s ++ calls).

Definition pairingWriter s (writer : GUID_t) (wdata : WriterProxyData) : Discovery :=
  let known := List.filter (fun rdata => negb (bool_decide (rpd_guid rdata = c_Guid_Unknown))) (all_readers (matchable s)) in
  let '(ws, calls) := change_endpoint writer (pair_with_each (pair_writer wdata) known) (d_writers s) in
  set_endpoints s (d_readers s) ws (d_calls s ++ calls).

(** One remote endpoint with all local ones that have proxy data. *)
Fixpoint pair_each {E D L} `{!Endpoint E D} (find : GUID_t -> option L) (pair : L -> E -> E * list Call) (l : list E) : list E * list Call :=
  match l with
  | [] => ([], [])
  | e :: l =>
      let '(e, c1) := match find (getGuid e) with Some d => pair d e | None => (e, []) end in
      let '(l, c2) := pair_each find pair l in (e :: l, c1 ++ c2)
  end.

Definition pairing_reader_proxy_with_any_local_writer s (rdata : ReaderProxyData) : Discovery :=
  let '(ws, calls) := pair_each (lookupWriterProxyData s) (fun wdata => pair_writer wdata rdata) (d_writers s) in
  set_endpoints s (d_readers s) ws (d_calls s ++ calls).

Definition pairing_writer_proxy_with_any_local_reader s (wdata : WriterProxyData) : Discovery :=
  let '(rs, calls) := pair_each (lookupReaderProxyData s) (fun rdata => pair_reader rdata wdata) (d_readers s) in
  set_endpoints s rs (d_writers s) (d_calls s ++ calls).

(** ** Announcements *)

(** A change of the builtin writer takes the place of one of the same endpoint. *)
Definition process_reader_proxy_data s (n : ReaderNews) : Discovery :=
  set_news s (filter (fun m => reader_news_key m <> reader_news_key n) (d_subscriptions s) ++ [n]) (d_publications s).
Definition process_writer_proxy_data s (n : WriterNews) : Discovery :=
  set_news s (d_subscriptions s) (filter (fun m => writer_news_key m <> writer_news_key n) (d_publications s) ++ [n]).

(** ** Local endpoints *)

(** [entityId.value[3] & 0x0F] *)
Definition entity_kind (g : GUID_t) : Z := Z.land (nth 3 (entityId g) 0) 0x0F.

(** The type information of a new endpoint; [old] is that of the pooled data.  An
    assertion says that the propagation is known. *)
Definition propagated s (t : TypeInformationParameter) (old : option TypeInformationParameter) : option TypeInformationParameter :=
  if ti_assigned t then
    match d_propagation s with
    | TYPEPROPAGATION_ENABLED => Some t
    | TYPEPROPAGATION_MINIMAL_BANDWIDTH => Some (mkTypeInfo (mkTypeId 0 [] 0) (ti_minimal t) true)
    | _ => option_map (fun i => mkTypeInfo (ti_complete i) (ti_minimal i) false) old
    end
  else old.

(** All four strings of the filter must be there. *)
Definition filter_complete (f : list (list Z)) : bool := forallb (fun x => 0 <? zlen x) f.

Definition init_new_reader s (g : GUID_t) (topic : TopicDescription) (qos : ReaderQos) (content_filter : option (list (list Z)))
    (d : ReaderProxyData) (updating : bool) : bool * ReaderProxyData :=
  if updating then (false, d)
  else
    let d := mkReaderProxyData g (topic_name topic) (type_name topic) (if entity_kind g =? 7 then WITH_KEY else NO_KEY) true
               (propagated s (type_information topic) (rpd_type_information d)) (rpd_content_filter d) (reader_set_qos (rpd_qos d) qos true) in
    match content_filter with
    | Some f =>
        if filter_complete f
        then (true, mkReaderProxyData (rpd_guid d) (rpd_topicName d) (rpd_typeName d) (rpd_topicKind d) (rpd_isAlive d) (rpd_type_information d) f (rpd_qos d))
        else (false, d)
    | None => (true, d)
    end.

Definition init_new_writer s (g persistence_guid : GUID_t) (topic : TopicDescription) (qos : WriterQos)
    (d : WriterProxyData) (updating : bool) : bool * WriterProxyData :=
  if updating then (false, d)
  else (true, mkWriterProxyData g persistence_guid (topic_name topic) (type_name topic) (if entity_kind g =? 2 then WITH_KEY else NO_KEY)
                (propagated s (type_information topic) (wd_type_information d)) (writer_set_qos (wd_qos d) qos true)).

Definition new_reader_proxy_data s (g : GUID_t) topic qos content_filter : bool * Discovery :=
  match addReaderProxyData s g (init_new_reader s g topic qos content_filter) with
  | (s, None) => (false, s)
  | (s, Some rdata) =>
      let s := if d_match_local s then pairing_reader_proxy_with_any_local_writer s rdata else s in
      let s := pairingReader s g rdata in
      (true, process_reader_proxy_data s (reader_alive rdata))
  end.

Definition new_writer_proxy_data s (g persistence_guid : GUID_t) topic qos : bool * Discovery :=
  match addWriterProxyData s g (init_new_writer s g persistence_guid topic qos) with
  | (s, None) => (false, s)
  | (s, Some wdata) =>
      let s := if d_match_local s then pairing_writer_proxy_with_any_local_reader s wdata else s in
      let s := pairingWriter s g wdata in
      (true, process_writer_proxy_data s (writer_alive wdata))
  end.

(** An update: the qos is set before the filter is looked at.  The code asserts
    that the data is there. *)
Definition init_updated_reader (qos : ReaderQos) (content_filter : option (list (list Z))) (d : ReaderProxyData) (updating : bool) : bool * ReaderProxyData :=
  let d1 := mkReaderProxyData (rpd_guid d) (rpd_topicName d) (rpd_typeName d) (rpd_topicKind d) (rpd_isAlive d) (rpd_type_information d)
              (rpd_content_filter d) (reader_set_qos (rpd_qos d) qos false) in
  let with_filter f := mkReaderProxyData (rpd_guid d1) (rpd_topicName d1) (rpd_typeName d1) (rpd_topicKind d1) true (rpd_type_information d1) f (rpd_qos d1) in
  match content_filter with
  | Some f => if filter_complete f then (true, with_filter f) else (false, d1)
  | None => (true, with_filter (take 2 (rpd_content_filter d1) ++ [[]; []]))
  end.

Definition init_updated_writer (qos : WriterQos) (d : WriterProxyData) (updating : bool) : bool * WriterProxyData :=
  (true, mkWriterProxyData (wd_guid d) (wd_persistence_guid d) (wd_topicName d) (wd_typeName d) (wd_topicKind d) (wd_type_information d)
           (writer_set_qos (wd_qos d) qos false)).

Definition update_reader s (g : GUID_t) qos content_filter : option (bool * Discovery) :=
  match lookupReaderProxyData s g with
  | None => None
  | Some _ =>
      Some match addReaderProxyData s g (init_updated_reader qos content_filter) with
           | (s, None) => (false, s)
           | (s, Some rdata) =>
               let s := process_reader_proxy_data s (reader_alive rdata) in
               let s := if d_match_local s then pairing_reader_proxy_with_any_local_writer s rdata else s in
               (true, pairingReader s g rdata)
           end
  end.

Definition update_writer s (g : GUID_t) qos : option (bool * Discovery) :=
  match lookupWriterProxyData s g with
  | None => None
  | Some _ =>
      Some match addWriterProxyData s g (init_updated_writer qos) with
           | (s, None) => (false, s)
           | (s, Some wdata) =>
               let s := process_writer_proxy_data s (writer_alive wdata) in
               let s := if d_match_local s then pairing_writer_proxy_with_any_local_reader s wdata else s in
               (true, pairingWriter s g wdata)
           end
  end.

(** [deleteUserEndpoint]: the endpoint leaves its list before its data does. *)
Definition remove_endpoint {E D} `{!Endpoint E D} (g : GUID_t) (l : list E) : list E :=
  match split_at (fun e => bool_decide (entityId (getGuid e) = entityId g)) l with Some (a, _, b) => a ++ b | None => l end.

Definition remove_reader s (g : GUID_t) : bool * Discovery :=
  removeReaderProxyData (process_reader_proxy_data (set_endpoints s (remove_endpoint g (d_readers s)) (d_writers s) (d_calls s)) (reader_gone g)) g.
Definition remove_writer s (g : GUID_t) : bool * Discovery :=
  removeWriterProxyData (process_writer_proxy_data (set_endpoints s (d_readers s) (remove_endpoint g (d_writers s)) (d_calls s)) (writer_gone g)) g.

(** ** Remote endpoints *)

(** [*data = *temp]; without an answer of the type lookup the type information goes. *)
Definition copy_reader (type_found : bool) (temp d : ReaderProxyData) (updating : bool) : bool * ReaderProxyData :=
  (true, mkReaderProxyData (rpd_guid temp) (rpd_topicName temp) (rpd_typeName temp) (rpd_topicKind temp) (rpd_isAlive temp)
           (if type_found then rpd_type_information temp else Some TypeInformationParameter_new) (rpd_content_filter temp)
           (reader_set_qos (rpd_qos d) (rpd_qos temp) true)).
Definition copy_writer (type_found : bool) (temp d : WriterProxyData) (updating : bool) : bool * WriterProxyData :=
  (true, mkWriterProxyData (wd_guid temp) (wd_persistence_guid temp) (wd_topicName temp) (wd_typeName temp) (wd_topicKind temp)
           (if type_found then wd_type_information temp else Some TypeInformationParameter_new)
           (writer_set_qos (wd_qos d) (wd_qos temp) true)).

Definition add_reader_from_change s (type_found : bool) (temp : ReaderProxyData) : Discovery :=
  if bool_decide (guidPrefix (rpd_guid temp) = guidPrefix (d_guid s)) then s
  else
    match addReaderProxyData s (rpd_guid temp) (copy_reader type_found temp) with
    | (s, Some rdata) => pairing_reader_proxy_with_any_local_writer s rdata
    | (s, None) => s
    end.

Definition add_writer_from_change s (type_found : bool) (temp : WriterProxyData) : Discovery :=
  if bool_decide (guidPrefix (wd_guid temp) = guidPrefix (d_guid s)) then s
  else
    match addWriterProxyData s (wd_guid temp) (copy_writer type_found temp) with
    | (s, Some wdata) => pairing_writer_proxy_with_any_local_reader s wdata
    | (s, None) => s
    end.

(** [EDPSimpleSUBListener] and [EDPSimplePUBListener::on_new_cache_change_added];
    a type is looked up when the data has its information. *)
Definition on_reader_news s (lookup_ok : bool) (n : ReaderNews) : Discovery :=
  match n with
  | reader_alive d => add_reader_from_change s (lookup_ok && match type_assigned (rpd_type_information d) with Some _ => true | None => false end) d
  | reader_gone g => snd (removeReaderProxyData s g)
  end.
Definition on_writer_news s (lookup_ok : bool) (n : WriterNews) : Discovery :=
  match n with
  | writer_alive d => add_writer_from_change s (lookup_ok && match type_assigned (wd_type_information d) with Some _ => true | None => false end) d
  | writer_gone g => snd (removeWriterProxyData s g)
  end.

(** ** Participants *)

(** Called for a participant that is not known yet; the code counts the proxies it
    creates, here those in use. *)
Definition add_participant_proxy_data s (g : GUID_t) : option Discovery :=
  if (length (d_participants s) <? d_max_participants s)%nat then Some (set_participants s (d_participants s ++ [mkPP g ∅ ∅])) else None.

Definition remove_remote_participant s (g : GUID_t) (dropped : bool) : bool * Discovery :=
  if bool_decide (g = d_guid s) then (false, s)
  else
    match split_at (fun p => bool_decide (pp_guid p = g)) (d_participants s) with
    | None => (false, s)
    | Some (before, p, after) =>
        let s := set_participants s (before ++ after) in
        let known := fun x => negb (bool_decide (x = c_Guid_Unknown)) in
        let s := fold_left unpairReaderProxy (List.filter known (rpd_guid ∘ snd <$> map_to_list (pp_readers p))) s in
        let s := fold_left (fun s g => unpairWriterProxy s g dropped) (List.filter known (wd_guid ∘ snd <$> map_to_list (pp_writers p))) s in
        let s := set_reader_pool s (return_proxies (size (pp_readers p)) (d_reader_pool s)) in
        (true, set_writer_pool s (return_proxies (size (pp_writers p)) (d_writer_pool s)))
    end.

End Discovery.

Arguments Discovery : clear implicits.
