(* ===== verification/EndpointDiscoveryInv.v ===== *)
(** * Endpoint discovery keeps the matches exact

    The laws of a local endpoint, the invariant of a participant - its endpoints
    are paired with exactly the known ones they match - and what the steps of
    [EndpointDiscovery.v] do to it. *)

From stdpp Require Import gmap.
From S2P Require Import Prelude SequenceNumber ParameterList Liveliness ReaderProxy Partition Matching EndpointDiscovery.

(** ** What an endpoint promises *)

(** [pairs e g]: the endpoint is matched with [g]; an [unlimited] one refuses no
    endpoint. *)
Class EndpointLaws (E D : Type) (key : D -> GUID_t) `{Endpoint E D} := {
  pairs : E -> GUID_t -> Prop;
  unlimited : E -> Prop;
  law_is_matched e g : is_matched e g = true <-> pairs e g;
  law_add_guid e d : getGuid (matched_add e d).2 = getGuid e;
  law_add_unlimited e d : unlimited (matched_add e d).2 <-> unlimited e;
  law_add_others e d g : g <> key d -> pairs (matched_add e d).2 g <-> pairs e g;
  law_add_stays e d : pairs e (key d) -> pairs (matched_add e d).2 (key d);
  law_add_room e d : unlimited e -> key d <> c_Guid_Unknown -> pairs (matched_add e d).2 (key d);
  law_remove_guid e g l : getGuid (matched_remove e g l).2 = getGuid e;
  law_remove_unlimited e g l : unlimited (matched_remove e g l).2 <-> unlimited e;
  law_remove e g l h : pairs (matched_remove e g l).2 h <-> pairs e h /\ h <> g
}.

#[export] Hint Rewrite @law_add_guid @law_remove_guid @law_add_unlimited @law_remove_unlimited using typeclasses eauto : endpoint.

(** ** One endpoint *)

Section One.
Context {E D : Type} (key : D -> GUID_t) `{EL : EndpointLaws E D key}.

(** [e'] is [e] with its match of [g] decided by [valid]. *)
Record decided (valid : bool) (g : GUID_t) (e e' : E) : Prop := mkDecided {
  de_guid : getGuid e' = getGuid e;
  de_unlimited : unlimited e' <-> unlimited e;
  de_others h : h <> g -> pairs e' h <-> pairs e h;
  de_sound : pairs e' g -> valid = true;
  de_complete : unlimited e -> valid = true -> pairs e' g
}.

Lemma pair_endpoint_decides res d e : key d <> c_Guid_Unknown -> decided (m_valid res) (key d) e (pair_endpoint res (key d) d e).1.
Proof.
  intros Hk. unfold pair_endpoint. destruct (m_valid res) eqn:Ev.
  - pose proof (law_add_guid (key := key) e d) as Hg. pose proof (law_add_unlimited (key := key) e d). pose proof (fun h => law_add_others (key := key) e d h).
    pose proof (law_add_room (key := key) e d). destruct (matched_add e d) as [b e']. simpl in *. by split; auto.
  - destruct (is_matched e (key d)) eqn:Em.
    + pose proof (law_remove_guid (key := key) e (key d) false) as Hg. pose proof (law_remove_unlimited (key := key) e (key d) false).
      pose proof (law_remove (key := key) e (key d) false) as Hr. destruct (matched_remove e (key d) false) as [b e']. simpl in *.
      split; [done|done| |intros Hp; by apply Hr in Hp as []|done]. intros h Hh. rewrite Hr. tauto.
    + simpl. split; try done. intros Hp. apply law_is_matched in Hp. congruence.
Qed.

(** Several remote endpoints, at most one for an identifier. *)
Lemma pair_with_each_decides (pair : D -> E -> E * list Call) (valid : D -> bool) ds :
  (forall d e, d ∈ ds -> decided (valid d) (key d) e (pair d e).1) -> (forall d d', d ∈ ds -> d' ∈ ds -> key d = key d' -> d = d') ->
  forall e, let e' := (pair_with_each pair ds e).1 in
  getGuid e' = getGuid e /\ (unlimited e' <-> unlimited e) /\
  (forall h, (forall d, d ∈ ds -> key d <> h) -> pairs e' h <-> pairs e h) /\
  (forall d, d ∈ ds -> decided (valid d) (key d) e' e').
Proof.
  induction ds as [|d ds IH]; intros Hp Hi e.
  { simpl. split; [done|]. split; [done|]. split; [done|]. intros d Hd. inversion Hd. }
  assert (Hd : decided (valid d) (key d) e (pair d e).1) by (apply Hp; by left).
  cbn [pair_with_each]. destruct (pair d e) as [e1 c1]. simpl in Hd.
  destruct (IH (fun d e H => Hp d e (list_elem_of_further _ _ _ H)) (fun d d' H H' => Hi d d' (list_elem_of_further _ _ _ H) (list_elem_of_further _ _ _ H')) e1)
    as (Hg & Hu & Ho & Hds).
  destruct (pair_with_each pair ds e1) as [e2 c2]. simpl in *. destruct Hd as [Dg Du Do Ds Dc].
  split; [congruence|]. split; [by rewrite Hu|]. split.
  - intros h Hh. rewrite Ho; [apply Do|]; intros; [intros ->; by eapply Hh; [left|]|]. apply Hh. by right.
  - intros d' Hd'. destruct (decide (Exists (fun x => key x = key d') ds)) as [Hx|Hx].
    { apply Exists_exists in Hx as (x & Hx & Ex). apply list_elem_of_In in Hx.
      rewrite (Hi d' x); [by apply Hds|done|by right|done]. }
    assert (Hout : forall x, x ∈ ds -> key x <> key d').
    { intros x Hx' Ex. apply Hx, Exists_exists. exists x. split; [by apply list_elem_of_In|done]. }
    apply elem_of_cons in Hd' as [->|Hd']; [|by destruct (Hout d' Hd')]. split; try done.
    + intros H1. apply Ho in H1; [by apply Ds|done].
    + intros Hun Hv. apply Ho; [done|]. apply Dc; [by apply Du, Hu|done].
Qed.
End One.

(** ** A list of local endpoints *)

Section Side.
Context {E D : Type} (key : D -> GUID_t) `{EL : EndpointLaws E D key}.
Implicit Types should base X : GUID_t -> GUID_t -> Prop.

(** Of the endpoints of the list, by local and remote identifier: pairs are among
    [base], and outside of [X] they are exactly those that [should] be, but for
    endpoints that have refused one. *)
Definition side_inv should base X (l : list E) : Prop :=
  forall e, e ∈ l -> forall g,
    (~ X (getGuid e) g -> (pairs e g -> should (getGuid e) g) /\ (unlimited e -> should (getGuid e) g -> pairs e g)) /\
    (pairs e g -> base (getGuid e) g).

Lemma side_weaken should base X should' base' X' l :
  side_inv should base X l ->
  (forall e g, e ∈ l -> ~ X' (getGuid e) g -> ~ X (getGuid e) g /\ (should' (getGuid e) g <-> should (getGuid e) g)) ->
  (forall e g, e ∈ l -> base (getGuid e) g -> base' (getGuid e) g) -> side_inv should' base' X' l.
Proof.
  intros Hi Hs Hb e He g. destruct (Hi e He g) as [H1 H2]. split; [|intros Hp; by apply Hb, H2].
  intros HX. destruct (Hs e g He HX) as [HX' Es]. rewrite Es. by apply H1.
Qed.

(** Each endpoint of [l'] is what [f] makes of the one in its place. *)
Definition each (f : E -> E -> Prop) (l l' : list E) : Prop := Forall2 f l l'.

Lemma each_elem f l l' e' : each f l l' -> e' ∈ l' -> exists e, e ∈ l /\ f e e'.
Proof.
  intros Hl He. apply list_elem_of_lookup in He as [i Hi]. destruct (Forall2_lookup_r _ _ _ _ _ Hl Hi) as (e & Hi' & Hf). 
  exists e. split; [by eapply list_elem_of_lookup_2|done].
Qed.

Lemma each_guids f l l' : each f l l' -> (forall e e', f e e' -> getGuid e' = getGuid e) -> getGuid <$> l' = getGuid <$> l.
Proof. intros Hl Hf. induction Hl as [|e e' l l' He _ IH]; [done|]. cbn. f_equal; [by apply Hf|done]. Qed.

(** The match with [g] of every endpoint is decided. *)
Definition all_decide g (valid : GUID_t -> bool) (l l' : list E) : Prop := each (fun e e' => decided key (valid (getGuid e)) g e e') l l'.

Lemma side_decide should base X should' base' g valid l l' :
  side_inv should base X l -> all_decide g valid l l' ->
  (forall e, e ∈ l -> valid (getGuid e) = true <-> should' (getGuid e) g) ->
  (forall e h, e ∈ l -> h <> g -> should' (getGuid e) h <-> should (getGuid e) h) ->
  (forall e h, e ∈ l -> h <> g -> base (getGuid e) h -> base' (getGuid e) h) ->
  (forall e, e ∈ l -> should' (getGuid e) g -> base' (getGuid e) g) ->
  side_inv should' base' (fun a h => X a h /\ h <> g) l'.
Proof.
  intros Hi Hd Hv Hs Hb Hsb e' He' h. destruct (each_elem _ _ _ _ Hd He') as (e & He & [Dg Du Do Ds Dc]).
  rewrite Dg, Du. destruct (decide (h = g)) as [->|Hh].
  - split; [intros _; split|].
    + intros Hp. apply Hv; [done|]. by apply Ds.
    + intros Hun Hsh. apply Dc; [done|]. by apply Hv.
    + intros Hp. apply Hsb; [done|]. apply Hv; [done|]. by apply Ds.
  - rewrite Do by done. destruct (Hi e He h) as [H1 H2]. rewrite Hs by done. split; [|intros Hp; apply Hb; auto].
    intros HX. apply H1. tauto.
Qed.

(** *** The loops *)

Lemma unpair_all_decides g by_lease l : all_decide g (fun _ => false) l (unpair_all g by_lease l).1.
Proof.
  induction l as [|e l IH]; [constructor|]. cbn [unpair_all].
  pose proof (law_remove_guid (key := key) e g by_lease) as Hg. pose proof (law_remove_unlimited (key := key) e g by_lease) as Hu.
  pose proof (law_remove (key := key) e g by_lease) as Hr.
  destruct (matched_remove e g by_lease) as [b e'], (unpair_all g by_lease l) as [l' c]. simpl in *. constructor; [|done].
  split; [done|done| |intros Hp; by apply Hr in Hp as []|done]. intros h Hh. rewrite Hr. tauto.
Qed.

Lemma pair_each_spec {L} (find : GUID_t -> option L) pair l :
  each (fun e e' => e' = match find (getGuid e) with Some d => (pair d e).1 | None => e end) l (pair_each find pair l).1.
Proof.
  induction l as [|e l IH]; [constructor|]. cbn [pair_each].
  destruct (find (getGuid e)) as [d|] eqn:Ef; [destruct (pair d e) as [e' c1] eqn:Ep|]; destruct (pair_each find pair l) as [l' c2];
    constructor; try done; by rewrite Ef, ?Ep.
Qed.

Lemma change_endpoint_spec g (f : E -> E * list Call) l : NoDup (getGuid <$> l) ->
  each (fun e e' => e' = if decide (getGuid e = g) then (f e).1 else e) l (change_endpoint g f l).1.
Proof.
  induction l as [|e l IH]; intros Hn; [constructor|]. cbn in Hn. apply list.NoDup_cons in Hn as [Hni Hn]. cbn [change_endpoint].
  case_bool_decide as Eg.
  - destruct (f e) as [e' c] eqn:Ef. constructor; [by rewrite decide_True, Ef by done|].
    assert (Hall : forall x, x ∈ l -> getGuid x <> g).
    { intros x Hx E'. apply Hni. rewrite Eg, <- E'. by apply list_elem_of_fmap_2. }
    clear IH Hni Hn. unfold each. induction l as [|x l IH]; constructor; [rewrite decide_False; [done|apply Hall; by left]|].
    apply IH. intros y Hy. apply Hall. by right.
  - specialize (IH Hn). destruct (change_endpoint g f l) as [l' c]. constructor; [by rewrite decide_False|done].
Qed.

(** *** Leaving the list *)

Lemma split_at_eq {A} (f : A -> bool) l a x b : split_at f l = Some (a, x, b) -> l = a ++ x :: b /\ f x = true.
Proof.
  revert a. induction l as [|y l IH]; intros a; [done|]. cbn [split_at]. destruct (f y) eqn:Ef; [by intros [= <- <- <-]|].
  destruct (split_at f l) as [[[a' y'] b']|]; [|done]. intros [= <- <- <-]. destruct (IH a' eq_refl) as [-> ?]. done.
Qed.

Lemma split_at_none {A} (f : A -> bool) l x : split_at f l = None -> x ∈ l -> f x = false.
Proof.
  induction l as [|y l IH]; intros Hn Hx; [inversion Hx|]. cbn [split_at] in Hn. destruct (f y) eqn:Ef; [done|].
  destruct (split_at f l) as [[[a' y'] b']|]; [done|]. apply elem_of_cons in Hx as [->|Hx]; [done|auto].
Qed.

Lemma remove_endpoint_sub (g : GUID_t) (l : list E) : sublist (remove_endpoint g l) l.
Proof.
  unfold remove_endpoint. destruct (split_at _ l) as [[[a x] b]|] eqn:Es; [|done].
  apply split_at_eq in Es as [-> _]. by apply sublist_app, sublist_cons.
Qed.

Lemma remove_endpoint_gone (g : GUID_t) (l : list E) e : NoDup (getGuid <$> l) -> (forall x, x ∈ l -> guidPrefix (getGuid x) = guidPrefix g) ->
  e ∈ remove_endpoint g l -> getGuid e <> g.
Proof.
  intros Hn Hp. unfold remove_endpoint. destruct (split_at _ l) as [[[a x] b]|] eqn:Es.
  - apply split_at_eq in Es as [-> Ex]. apply bool_decide_eq_true in Ex.
    assert (Eg : getGuid x = g).
    { assert (Hx : guidPrefix (getGuid x) = guidPrefix g) by (apply Hp, elem_of_app; right; by left).
      destruct (getGuid x), g. simpl in *. by subst. }
    intros He E'. rewrite fmap_app, fmap_cons in Hn. apply list.NoDup_app in Hn as (_ & Hd & Hn). apply list.NoDup_cons in Hn as [Hni _].
    apply elem_of_app in He as [He|He].
    + apply (Hd (getGuid e)); [by apply list_elem_of_fmap_2|]. rewrite E', <- Eg. by left.
    + apply Hni. rewrite Eg, <- E'. by apply list_elem_of_fmap_2.
  - intros He E'. pose proof (split_at_none _ _ _ Es He) as Hf. apply bool_decide_eq_false in Hf. by rewrite E' in Hf.
Qed.
End Side.
