(* ===== verification/EndpointDiscoveryLaws.v ===== *)
(** * The steps of endpoint discovery

    What the operations of [EndpointDiscovery.v] do to the data a participant
    knows, and that they keep its endpoints paired with those they match. *)

From stdpp Require Import gmap.
From S2P Require Import Prelude SequenceNumber ParameterList Liveliness ReaderProxy Partition Matching.
From S2P Require Import EndpointDiscovery EndpointDiscoveryInv.

(** ** The data of an endpoint *)

Definition prefix_of (p : ParticipantProxyData) : GuidPrefix_t := guidPrefix (pp_guid p).

(** The common shape of the lookups. *)
Fixpoint find_in {D} (look : ParticipantProxyData -> option D) (g : GUID_t) (l : list ParticipantProxyData) : option D :=
  match l with
  | [] => None
  | p :: l => if same_prefix g p then match look p with Some d => Some d | None => find_in look g l end else find_in look g l
  end.

Definition reader_of (g : GUID_t) (p : ParticipantProxyData) : option ReaderProxyData := pp_readers p !! entityId g.
Definition writer_of (g : GUID_t) (p : ParticipantProxyData) : option WriterProxyData := pp_writers p !! entityId g.

Lemma find_reader_in l g : find_reader_data l g = find_in (reader_of g) g l.
Proof. induction l as [|p l IH]; [done|]. cbn. unfold reader_of at 1. by rewrite IH. Qed.
Lemma find_writer_in l g : find_writer_data l g = find_in (writer_of g) g l.
Proof. induction l as [|p l IH]; [done|]. cbn. unfold writer_of at 1. by rewrite IH. Qed.

Lemma same_prefix_true g p : same_prefix g p = true <-> prefix_of p = guidPrefix g.
Proof. unfold same_prefix, prefix_of. by rewrite bool_decide_eq_true. Qed.

Lemma find_in_absent {D} (look : ParticipantProxyData -> option D) g l : (forall p, p ∈ l -> prefix_of p <> guidPrefix g) -> find_in look g l = None.
Proof.
  induction l as [|p l IH]; intros Hl; [done|]. cbn. destruct (same_prefix g p) eqn:Es; [|apply IH; intros x Hx; apply Hl; by right].
  apply same_prefix_true in Es. destruct (Hl p); [by left|done].
Qed.

Lemma find_in_middle {D} (look : ParticipantProxyData -> option D) g a p b : NoDup (prefix_of <$> a ++ p :: b) ->
  find_in look g (a ++ p :: b) = if decide (prefix_of p = guidPrefix g) then look p else find_in look g (a ++ b).
Proof.
  induction a as [|x a IH]; cbn [app]; intros Hn; rewrite fmap_cons in Hn; apply list.NoDup_cons in Hn as [Hx Hn].
  - cbn [find_in]. unfold same_prefix. fold (prefix_of p). destruct (decide (prefix_of p = guidPrefix g)) as [E|E];
      [rewrite bool_decide_eq_true_2 by done|by rewrite bool_decide_eq_false_2].
    destruct (look p); [done|]. apply find_in_absent. intros y Hy E'. apply Hx. rewrite E, <- E'. by apply list_elem_of_fmap_2.
  - cbn [find_in]. rewrite (IH Hn). unfold same_prefix. fold (prefix_of x). destruct (decide (prefix_of x = guidPrefix g)) as [E|E];
      [rewrite (bool_decide_eq_true_2 (prefix_of x = _)) by done|by rewrite (bool_decide_eq_false_2 (prefix_of x = _))].
    destruct (decide (prefix_of p = guidPrefix g)) as [E'|E']; [|done]. exfalso. apply Hx. rewrite E, <- E', fmap_app, fmap_cons. apply elem_of_app. right. by left.
Qed.

Lemma find_in_spec {D} (look : ParticipantProxyData -> option D) g l d : NoDup (prefix_of <$> l) ->
  find_in look g l = Some d <-> exists p, p ∈ l /\ prefix_of p = guidPrefix g /\ look p = Some d.
Proof.
  intros Hn. split.
  - induction l as [|x l IH]; [done|]. rewrite fmap_cons in Hn. apply list.NoDup_cons in Hn as [_ Hn]. cbn. destruct (same_prefix g x) eqn:Es.
    + apply same_prefix_true in Es. destruct (look x) eqn:El; [intros [= <-]; exists x; split; [by left|done]|].
      intros H. destruct (IH Hn H) as (p & Hp & ?). exists p. split; [by right|done].
    + intros H. destruct (IH Hn H) as (p & Hp & ?). exists p. split; [by right|done].
  - intros (p & Hp & Ep & El). apply list_elem_of_split in Hp as (a & b & ->). rewrite find_in_middle by done. by rewrite decide_True.
Qed.

Lemma guid_eta g h : guidPrefix g = guidPrefix h -> entityId g = entityId h -> g = h.
Proof. destruct g, h. simpl. by intros -> ->. Qed.

Section Participant.
Context {R W : Type} `{RE : !Endpoint R WriterProxyData} `{WE : !Endpoint W ReaderProxyData}.
Context {RL : EndpointLaws R WriterProxyData wd_guid} {WL : EndpointLaws W ReaderProxyData rpd_guid}.
Variable fnmatch : list Z -> list Z -> bool.
Implicit Types s : Discovery R W.

(** ** The invariant *)

(** Endpoints of the participant itself are matched when it is configured so. *)
Definition visible s (g : GUID_t) : Prop := d_match_local s = true \/ guidPrefix g <> guidPrefix (d_guid s).

(** The participant knows both endpoints, and they are compatible. *)
Definition compatible s (gr gw : GUID_t) : Prop :=
  exists rd wd, lookupReaderProxyData s gr = Some rd /\ lookupWriterProxyData s gw = Some wd /\ m_valid (valid_matching fnmatch wd rd) = true.

Definition reader_should s (a h : GUID_t) : Prop := compatible s a h /\ visible s h.
Definition writer_should s (a h : GUID_t) : Prop := compatible s h a /\ visible s h.
Definition reader_base s (a h : GUID_t) : Prop := is_Some (lookupReaderProxyData s a) /\ is_Some (lookupWriterProxyData s h) /\ visible s h.
Definition writer_base s (a h : GUID_t) : Prop := is_Some (lookupWriterProxyData s a) /\ is_Some (lookupReaderProxyData s h) /\ visible s h.

Record wf s : Prop := mkWf {
  wf_own : exists p l, d_participants s = p :: l /\ pp_guid p = d_guid s;
  wf_prefixes : NoDup (prefix_of <$> d_participants s);
  wf_known : Forall (fun p => prefix_of p <> guidPrefix c_Guid_Unknown) (d_participants s);
  wf_reader_keys p i d : p ∈ d_participants s -> pp_readers p !! i = Some d -> rpd_guid d = mkGUID (prefix_of p) i;
  wf_writer_keys p i d : p ∈ d_participants s -> pp_writers p !! i = Some d -> wd_guid d = mkGUID (prefix_of p) i;
  wf_readers : NoDup (getGuid <$> d_readers s);
  wf_writers : NoDup (getGuid <$> d_writers s);
  wf_local_readers : Forall (fun e => guidPrefix (getGuid e) = guidPrefix (d_guid s)) (d_readers s);
  wf_local_writers : Forall (fun e => guidPrefix (getGuid e) = guidPrefix (d_guid s)) (d_writers s)
}.

(** All matches are decided, but for those in [Xr] and [Xw]. *)
Record inv (Xr Xw : GUID_t -> GUID_t -> Prop) s : Prop := mkInv {
  inv_wf : wf s;
  inv_readers : side_inv wd_guid (reader_should s) (reader_base s) Xr (d_readers s);
  inv_writers : side_inv rpd_guid (writer_should s) (writer_base s) Xw (d_writers s)
}.

Definition none (_ _ : GUID_t) : Prop := False.

Lemma lookup_reader_spec s g d : wf s -> lookupReaderProxyData s g = Some d <->
  exists p, p ∈ d_participants s /\ prefix_of p = guidPrefix g /\ pp_readers p !! entityId g = Some d.
Proof. intros Hw. unfold lookupReaderProxyData. rewrite find_reader_in, find_in_spec by apply Hw. done. Qed.
Lemma lookup_writer_spec s g d : wf s -> lookupWriterProxyData s g = Some d <->
  exists p, p ∈ d_participants s /\ prefix_of p = guidPrefix g /\ pp_writers p !! entityId g = Some d.
Proof. intros Hw. unfold lookupWriterProxyData. rewrite find_writer_in, find_in_spec by apply Hw. done. Qed.

Lemma lookup_reader_guid s g d : wf s -> lookupReaderProxyData s g = Some d -> rpd_guid d = g /\ g <> c_Guid_Unknown.
Proof.
  intros Hw Hd. apply lookup_reader_spec in Hd as (p & Hp & Ep & Hd); [|done]. split.
  - rewrite (wf_reader_keys _ Hw p _ _ Hp Hd), Ep. by destruct g.
  - intros ->. pose proof (wf_known _ Hw) as Hk. rewrite list.Forall_forall in Hk. by apply (Hk p Hp).
Qed.
Lemma lookup_writer_guid s g d : wf s -> lookupWriterProxyData s g = Some d -> wd_guid d = g /\ g <> c_Guid_Unknown.
Proof.
  intros Hw Hd. apply lookup_writer_spec in Hd as (p & Hp & Ep & Hd); [|done]. split.
  - rewrite (wf_writer_keys _ Hw p _ _ Hp Hd), Ep. by destruct g.
  - intros ->. pose proof (wf_known _ Hw) as Hk. rewrite list.Forall_forall in Hk. by apply (Hk p Hp).
Qed.

(** ** Changing the data *)

(** All but the data of proxies and the pools. *)
Record same_rest s s' : Prop := mkSameRest {
  sr_guid : d_guid s' = d_guid s;
  sr_local : d_match_local s' = d_match_local s;
  sr_readers : d_readers s' = d_readers s;
  sr_writers : d_writers s' = d_writers s;
  sr_subscriptions : d_subscriptions s' = d_subscriptions s;
  sr_publications : d_publications s' = d_publications s;
  sr_propagation : d_propagation s' = d_propagation s;
  sr_prefixes : pp_guid <$> d_participants s' = pp_guid <$> d_participants s
}.

Record reader_data_set (g : GUID_t) (d : option ReaderProxyData) s s' : Prop := mkReaderSet {
  rs_wf : wf s';
  rs_rest : same_rest s s';
  rs_this : lookupReaderProxyData s' g = d;
  rs_others h : h <> g -> lookupReaderProxyData s' h = lookupReaderProxyData s h;
  rs_writers h : lookupWriterProxyData s' h = lookupWriterProxyData s h
}.
Record writer_data_set (g : GUID_t) (d : option WriterProxyData) s s' : Prop := mkWriterSet {
  ws_wf : wf s';
  ws_rest : same_rest s s';
  ws_this : lookupWriterProxyData s' g = d;
  ws_others h : h <> g -> lookupWriterProxyData s' h = lookupWriterProxyData s h;
  ws_readers h : lookupReaderProxyData s' h = lookupReaderProxyData s h
}.

(** A participant in the list, changed in its place. *)
Lemma replace_participant s s' a p p' b : wf s -> d_participants s = a ++ p :: b -> d_participants s' = a ++ p' :: b -> pp_guid p' = pp_guid p ->
  d_guid s' = d_guid s -> d_readers s' = d_readers s -> d_writers s' = d_writers s ->
  (forall i d, pp_readers p' !! i = Some d -> rpd_guid d = mkGUID (prefix_of p) i) ->
  (forall i d, pp_writers p' !! i = Some d -> wd_guid d = mkGUID (prefix_of p) i) ->
  wf s' /\ prefix_of <$> d_participants s' = prefix_of <$> d_participants s /\
  (forall h, lookupReaderProxyData s' h = if decide (prefix_of p = guidPrefix h) then pp_readers p' !! entityId h else lookupReaderProxyData s h) /\
  (forall h, lookupWriterProxyData s' h = if decide (prefix_of p = guidPrefix h) then pp_writers p' !! entityId h else lookupWriterProxyData s h).
Proof.
  intros [(p0 & l0 & Ho & Hg0) Hn Hk Hr Hw Hnr Hnw Hlr Hlw] E E' Ep Eg Er Ew Hr' Hw'.
  assert (Epre : prefix_of p' = prefix_of p) by (unfold prefix_of; by rewrite Ep).
  assert (Epres : prefix_of <$> d_participants s' = prefix_of <$> d_participants s) by (by rewrite E, E', !fmap_app, !fmap_cons, Epre).
  assert (Hn' : NoDup (prefix_of <$> a ++ p' :: b)) by (rewrite <- E', Epres; done).
  assert (Hmem : forall x, x ∈ d_participants s' -> x = p' \/ x ∈ d_participants s).
  { intros x Hx. rewrite E' in Hx. rewrite E. apply elem_of_app in Hx as [Hx|Hx]; [right; apply elem_of_app; by left|].
    apply elem_of_cons in Hx as [->|Hx]; [by left|]. right. apply elem_of_app. right. by right. }
  split; [|split; [done|split]].
  - split.
    + rewrite Eg, E'. destruct a as [|x a]; simpl in *.
      * rewrite E in Ho. simplify_eq. exists p', l0. split; [done|congruence].
      * rewrite E in Ho. simplify_eq. eauto.
    + by rewrite Epres.
    + rewrite list.Forall_forall in *. intros x Hx. destruct (Hmem x Hx) as [->|Hx']; [|by apply Hk]. rewrite Epre. apply Hk. rewrite E. apply elem_of_app. right. by left.
    + intros x i d Hx. destruct (Hmem x Hx) as [->|Hx']; [rewrite Epre; apply Hr'|by apply Hr].
    + intros x i d Hx. destruct (Hmem x Hx) as [->|Hx']; [rewrite Epre; apply Hw'|by apply Hw].
    + by rewrite Er.
    + by rewrite Ew.
    + by rewrite Er, Eg.
    + by rewrite Ew, Eg.
  - intros h. unfold lookupReaderProxyData. rewrite !find_reader_in, E, E', !find_in_middle, Epre by (done || by rewrite <- E). by destruct (decide _).
  - intros h. unfold lookupWriterProxyData. rewrite !find_writer_in, E, E', !find_in_middle, Epre by (done || by rewrite <- E). by destruct (decide _).
Qed.

(** An initializer that names its endpoint, and that changes nothing when it fails. *)
Definition good_reader_init s (g : GUID_t) (init : ReaderProxyData -> bool -> bool * ReaderProxyData) : Prop :=
  (forall d, rpd_guid d = g -> rpd_guid (init d true).2 = g) /\ (forall d, (init d true).1 = false -> (init d true).2 = d) /\
  (lookupReaderProxyData s g = None -> (init blank_reader false).1 = true /\ rpd_guid (init blank_reader false).2 = g).
Definition good_writer_init s (g : GUID_t) (init : WriterProxyData -> bool -> bool * WriterProxyData) : Prop :=
  (forall d, wd_guid d = g -> wd_guid (init d true).2 = g) /\ (forall d, (init d true).1 = false -> (init d true).2 = d) /\
  (lookupWriterProxyData s g = None -> (init blank_writer false).1 = true /\ wd_guid (init blank_writer false).2 = g).

Lemma set_same_participants s : set_participants s (d_participants s) = s.
Proof. by destruct s. Qed.

(** What an initializer leaves is there, whether it has failed or not. *)
Lemma add_reader_any s g init : wf s -> (forall d, rpd_guid d = g -> rpd_guid (init d true).2 = g) ->
  (lookupReaderProxyData s g = None -> rpd_guid (init blank_reader false).2 = g) ->
  addReaderProxyData s g init = (s, None) \/
  exists s' old (u ok : bool) d, init old u = (ok, d) /\ addReaderProxyData s g init = (s', if ok then Some d else None) /\ reader_data_set g (Some d) s s' /\
    (if u then lookupReaderProxyData s g = Some old /\ (d = old -> s' = s) else lookupReaderProxyData s g = None /\ old = blank_reader).
Proof.
  intros Hw Hi1 Hi3. unfold addReaderProxyData. destruct (split_at (same_prefix g) (d_participants s)) as [[[a p] b]|] eqn:Es; [|by left].
  apply split_at_eq in Es as [El Ep]. apply same_prefix_true in Ep.
  assert (Hp : p ∈ d_participants s) by (rewrite El; apply elem_of_app; right; by left).
  assert (Hlook : lookupReaderProxyData s g = pp_readers p !! entityId g).
  { unfold lookupReaderProxyData. rewrite find_reader_in, El, find_in_middle by (rewrite <- El; apply Hw). by rewrite decide_True. }
  assert (Hset : forall pool d, rpd_guid d = g -> reader_data_set g (Some d) s (set_participants (set_reader_pool s pool) (a ++ put_reader g d p :: b))).
  { intros pool d Hd.
    destruct (replace_participant s (set_participants (set_reader_pool s pool) (a ++ put_reader g d p :: b)) a p (put_reader g d p) b Hw El)
      as (Hwf & Hpre & Hr & Hwr); try done.
    - simpl. intros i d' [[<- <-]|[Hne Hd']]%lookup_insert_Some; [rewrite Hd, Ep; by destruct g|]. by apply (wf_reader_keys _ Hw p).
    - simpl. intros i d' Hd'. by apply (wf_writer_keys _ Hw p).
    - split; [done|split; try done; simpl; by rewrite El, !fmap_app, !fmap_cons|..].
      + rewrite Hr, decide_True by done. simpl. by simplify_map_eq.
      + intros h Hh. rewrite Hr. destruct (decide (prefix_of p = guidPrefix h)) as [E|E]; [|done]. simpl.
        rewrite lookup_insert_ne by (intros E'; apply Hh; symmetry; apply guid_eta; congruence).
        unfold lookupReaderProxyData. rewrite find_reader_in, El, find_in_middle by (rewrite <- El; apply Hw). by rewrite decide_True.
      + intros h. rewrite Hwr. destruct (decide (prefix_of p = guidPrefix h)) as [E|E]; [|done]. simpl.
        unfold lookupWriterProxyData. rewrite find_writer_in, El, find_in_middle by (rewrite <- El; apply Hw). by rewrite decide_True. }
  destruct (pp_readers p !! entityId g) as [old|] eqn:Eold.
  - pose proof (Hi1 old) as H1. destruct (init old true) as [ok d] eqn:Ei. simpl in H1. right. eexists _, old, true, ok, d. split; [done|]. split; [done|].
    replace (set_participants s _) with (set_participants (set_reader_pool s (d_reader_pool s)) (a ++ put_reader g d p :: b)) by (by destruct s).
    split; [apply Hset, H1; rewrite (wf_reader_keys _ Hw p _ _ Hp Eold), Ep; by destruct g|]. split; [congruence|].
    intros ->. unfold put_reader. rewrite insert_id by done. replace (mkPP (pp_guid p) (pp_readers p) (pp_writers p)) with p by (by destruct p). rewrite <- El. by destruct s.
  - destruct (take_proxy (d_reader_pool s)) as [pool|]; [|by left]. specialize (Hi3 Hlook).
    destruct (init blank_reader false) as [ok d] eqn:Ei. simpl in Hi3. right. eexists _, blank_reader, false, ok, d. split; [done|]. split; [done|]. split; [by apply Hset|done].
Qed.

Lemma add_reader_spec s g init : wf s -> good_reader_init s g init ->
  addReaderProxyData s g init = (s, None) \/
  exists s' d, addReaderProxyData s g init = (s', Some d) /\ reader_data_set g (Some d) s s' /\
    exists old u, (init old u) = (true, d) /\ (if u then lookupReaderProxyData s g = Some old else lookupReaderProxyData s g = None /\ old = blank_reader).
Proof.
  intros Hw (Hi1 & Hi2 & Hi3). destruct (add_reader_any s g init Hw Hi1) as [?|(s' & old & u & ok & d & Ei & E & Hset & Hu)]; [intros H; by apply Hi3|by left|].
  destruct ok; [right; exists s', d; split; [done|]; split; [done|]; exists old, u; destruct u; tauto|left]. destruct u.
  - destruct Hu as [_ Hu]. specialize (Hi2 old). rewrite Ei in Hi2. rewrite E, Hu by (by apply Hi2). done.
  - destruct Hu as [Hn ->]. destruct (Hi3 Hn) as [H _]. rewrite Ei in H. done.
Qed.

Lemma add_writer_spec s g init : wf s -> good_writer_init s g init ->
  addWriterProxyData s g init = (s, None) \/
  exists s' d, addWriterProxyData s g init = (s', Some d) /\ writer_data_set g (Some d) s s' /\
    exists old u, (init old u) = (true, d) /\ (if u then lookupWriterProxyData s g = Some old else lookupWriterProxyData s g = None /\ old = blank_writer).
Proof.
  intros Hw (Hi1 & Hi2 & Hi3). unfold addWriterProxyData. destruct (split_at (same_prefix g) (d_participants s)) as [[[a p] b]|] eqn:Es; [|by left].
  apply split_at_eq in Es as [El Ep]. apply same_prefix_true in Ep.
  assert (Hp : p ∈ d_participants s) by (rewrite El; apply elem_of_app; right; by left).
  assert (Hlook : lookupWriterProxyData s g = pp_writers p !! entityId g).
  { unfold lookupWriterProxyData. rewrite find_writer_in, El, find_in_middle by (rewrite <- El; apply Hw). by rewrite decide_True. }
  assert (Hset : forall pool d, wd_guid d = g -> writer_data_set g (Some d) s (set_participants (set_writer_pool s pool) (a ++ put_writer g d p :: b))).
  { intros pool d Hd.
    destruct (replace_participant s (set_participants (set_writer_pool s pool) (a ++ put_writer g d p :: b)) a p (put_writer g d p) b Hw El)
      as (Hwf & Hpre & Hr & Hwr); try done.
    - simpl. intros i d' Hd'. by apply (wf_reader_keys _ Hw p).
    - simpl. intros i d' [[<- <-]|[Hne Hd']]%lookup_insert_Some; [rewrite Hd, Ep; by destruct g|]. by apply (wf_writer_keys _ Hw p).
    - split; [done|split; try done; simpl; by rewrite El, !fmap_app, !fmap_cons|..].
      + rewrite Hwr, decide_True by done. simpl. by simplify_map_eq.
      + intros h Hh. rewrite Hwr. destruct (decide (prefix_of p = guidPrefix h)) as [E|E]; [|done]. simpl.
        rewrite lookup_insert_ne by (intros E'; apply Hh; symmetry; apply guid_eta; congruence).
        unfold lookupWriterProxyData. rewrite find_writer_in, El, find_in_middle by (rewrite <- El; apply Hw). by rewrite decide_True.
      + intros h. rewrite Hr. destruct (decide (prefix_of p = guidPrefix h)) as [E|E]; [|done]. simpl.
        unfold lookupReaderProxyData. rewrite find_reader_in, El, find_in_middle by (rewrite <- El; apply Hw). by rewrite decide_True. }
  destruct (pp_writers p !! entityId g) as [old|] eqn:Eold.
  - pose proof (Hi1 old) as H1. pose proof (Hi2 old) as H2. destruct (init old true) as [ok d] eqn:Ei. simpl in *. destruct ok.
    + right. eexists _, d. split; [done|]. split; [|exists old, true; rewrite Ei; split; [done|congruence]].
      replace (set_participants s _) with (set_participants (set_writer_pool s (d_writer_pool s)) (a ++ put_writer g d p :: b)) by (by destruct s).
      apply Hset, H1. rewrite (wf_writer_keys _ Hw p _ _ Hp Eold), Ep. by destruct g.
    + left. f_equal. rewrite H2 by done. unfold put_writer. rewrite insert_id by done.
      replace (mkPP (pp_guid p) (pp_readers p) (pp_writers p)) with p by (by destruct p). rewrite <- El. apply set_same_participants.
  - destruct (take_proxy (d_writer_pool s)) as [pool|]; [|by left]. destruct Hi3 as [H0 H1]; [congruence|].
    destruct (init blank_writer false) as [ok d] eqn:Ei. simpl in *. subst ok. right. eexists _, d. split; [done|].
    split; [by apply Hset|]. exists blank_writer, false. split; [done|]. split; [congruence|done].
Qed.

(** ** The invariant after a change of data *)

Lemma visible_same s s' g : same_rest s s' -> visible s' g <-> visible s g.
Proof. intros [E1 E2 _ _ _ _ _]. unfold visible. by rewrite E1, E2. Qed.

Lemma reader_set_inv g d s s' Xr Xw : reader_data_set g (Some d) s s' -> inv Xr Xw s ->
  inv (fun a h => Xr a h \/ a = g) (fun a h => Xw a h \/ h = g) s'.
Proof.
  intros [Hwf Hs Ht Ho Hw] [Hwf0 Ir Iw]. split; [done| |].
  - rewrite (sr_readers _ _ Hs). eapply side_weaken; [exact Ir| |].
    + intros e h He HX. split; [tauto|]. unfold reader_should, compatible. rewrite (visible_same _ _ _ Hs), Ho, Hw by tauto. done.
    + intros e h He (H1 & H2 & H3). unfold reader_base. rewrite (visible_same _ _ _ Hs), Hw. split; [|done].
      destruct (decide (getGuid e = g)) as [->|Hne]; [by rewrite Ht|by rewrite Ho].
  - rewrite (sr_writers _ _ Hs). eapply side_weaken; [exact Iw| |].
    + intros e h He HX. split; [tauto|]. unfold writer_should, compatible. rewrite (visible_same _ _ _ Hs), Ho, Hw by tauto. done.
    + intros e h He (H1 & H2 & H3). unfold writer_base. rewrite (visible_same _ _ _ Hs), Hw. split; [done|]. split; [|done].
      destruct (decide (h = g)) as [->|Hne]; [by rewrite Ht|by rewrite Ho].
Qed.

Lemma writer_set_inv g d s s' Xr Xw : writer_data_set g (Some d) s s' -> inv Xr Xw s ->
  inv (fun a h => Xr a h \/ h = g) (fun a h => Xw a h \/ a = g) s'.
Proof.
  intros [Hwf Hs Ht Ho Hr] [Hwf0 Ir Iw]. split; [done| |].
  - rewrite (sr_readers _ _ Hs). eapply side_weaken; [exact Ir| |].
    + intros e h He HX. split; [tauto|]. unfold reader_should, compatible. rewrite (visible_same _ _ _ Hs), Ho, Hr by tauto. done.
    + intros e h He (H1 & H2 & H3). unfold reader_base. rewrite (visible_same _ _ _ Hs), Hr. split; [done|]. split; [|done].
      destruct (decide (h = g)) as [->|Hne]; [by rewrite Ht|by rewrite Ho].
  - rewrite (sr_writers _ _ Hs). eapply side_weaken; [exact Iw| |].
    + intros e h He HX. split; [tauto|]. unfold writer_should, compatible. rewrite (visible_same _ _ _ Hs), Ho, Hr by tauto. done.
    + intros e h He (H1 & H2 & H3). unfold writer_base. rewrite (visible_same _ _ _ Hs), Hr. split; [|done].
      destruct (decide (getGuid e = g)) as [->|Hne]; [by rewrite Ht|by rewrite Ho].
Qed.

(** Fewer exceptions. *)
Lemma inv_weaken Xr Xw Xr' Xw' s : inv Xr Xw s ->
  (forall e h, e ∈ d_readers s -> ~ Xr' (getGuid e) h -> ~ Xr (getGuid e) h) ->
  (forall e h, e ∈ d_writers s -> ~ Xw' (getGuid e) h -> ~ Xw (getGuid e) h) -> inv Xr' Xw' s.
Proof.
  intros [Hwf Ir Iw] H1 H2. split; [done| |].
  - eapply side_weaken; [exact Ir| |done]. intros e h He HX. split; [by apply H1|done].
  - eapply side_weaken; [exact Iw| |done]. intros e h He HX. split; [by apply H2|done].
Qed.

(** ** Pairing *)

Lemma each_elem_impl {E} (f f' : E -> E -> Prop) l l' : each f l l' -> (forall e e', e ∈ l -> f e e' -> f' e e') -> each f' l l'.
Proof.
  intros Hl. unfold each in *. induction Hl as [|e e' l l' He _ IH]; intros Hf; constructor; [by apply Hf; [left|]|].
  apply IH. intros x x' Hx. apply Hf. by right.
Qed.

Lemma guids_local {E D} `{!Endpoint E D} prefix (l l' : list E) : getGuid <$> l' = getGuid <$> l ->
  Forall (fun e => guidPrefix (getGuid e) = prefix) l -> Forall (fun e => guidPrefix (getGuid e) = prefix) l'.
Proof.
  revert l. induction l' as [|e' l' IH]; intros [|e l] E' Hl; try done. cbn in E'. injection E' as Eg El.
  apply Forall_cons_1 in Hl as [He Hl]. constructor; [by rewrite Eg|by eapply IH].
Qed.

(** New endpoints with the same identifiers in the places of the old ones. *)
Lemma wf_endpoints s rs ws cs : wf s -> getGuid <$> rs = getGuid <$> d_readers s -> getGuid <$> ws = getGuid <$> d_writers s -> wf (set_endpoints s rs ws cs).
Proof.
  intros [Ho Hn Hk Hr Hw Hnr Hnw Hlr Hlw] Er Ew. split; simpl; try done; try (by rewrite ?Er, ?Ew).
  - by eapply guids_local.
  - by eapply guids_local.
Qed.

Lemma decided_guids {E D} (key : D -> GUID_t) `{EL : EndpointLaws E D key} g valid l l' :
  all_decide key g valid l l' -> getGuid <$> l' = getGuid <$> l.
Proof. intros Hl. eapply each_guids; [exact Hl|]. by intros e e' []. Qed.

Lemma readers_decided s g valid rs cs Xr Xw : inv Xr Xw s -> all_decide wd_guid g valid (d_readers s) rs ->
  (forall e, e ∈ d_readers s -> valid (getGuid e) = true <-> reader_should s (getGuid e) g) ->
  inv (fun a h => Xr a h /\ h <> g) Xw (set_endpoints s rs (d_writers s) cs).
Proof.
  intros [Hwf Ir Iw] Hd Hv. split; [by eapply wf_endpoints; [|by eapply decided_guids|]| |exact Iw].
  eapply (side_decide wd_guid (reader_should s) (reader_base s) Xr (reader_should s) (reader_base s) g valid); [exact Ir|exact Hd|exact Hv|done|done|].
  intros e He [(rd & wd & E1 & E2 & _) Hvis]. unfold reader_base. by rewrite E1, E2.
Qed.

Lemma writers_decided s g valid ws cs Xr Xw : inv Xr Xw s -> all_decide rpd_guid g valid (d_writers s) ws ->
  (forall e, e ∈ d_writers s -> valid (getGuid e) = true <-> writer_should s (getGuid e) g) ->
  inv Xr (fun a h => Xw a h /\ h <> g) (set_endpoints s (d_readers s) ws cs).
Proof.
  intros [Hwf Ir Iw] Hd Hv. split; [by eapply wf_endpoints; [| |by eapply decided_guids]|exact Ir|].
  eapply (side_decide rpd_guid (writer_should s) (writer_base s) Xw (writer_should s) (writer_base s) g valid); [exact Iw|exact Hd|exact Hv|done|done|].
  intros e He [(rd & wd & E1 & E2 & _) Hvis]. unfold writer_base. by rewrite E1, E2.
Qed.

Lemma pairing_reader_any_inv s g rd Xr Xw : inv Xr Xw s -> lookupReaderProxyData s g = Some rd -> visible s g ->
  inv Xr (fun a h => Xw a h /\ h <> g) (pairing_reader_proxy_with_any_local_writer fnmatch s rd).
Proof.
  intros Hi Hrd Hv. pose proof Hi as [Hwf Ir Iw]. destruct (lookup_reader_guid s g rd Hwf Hrd) as [Hg Hu].
  unfold pairing_reader_proxy_with_any_local_writer.
  pose proof (pair_each_spec (lookupWriterProxyData s) (fun wdata => pair_writer fnmatch wdata rd) (d_writers s)) as He.
  destruct (pair_each _ _ _) as [ws cs]. simpl in He.
  apply (writers_decided s g (fun a => match lookupWriterProxyData s a with Some wd => m_valid (valid_matching fnmatch wd rd) | None => false end)); [done| |].
  - eapply each_elem_impl; [exact He|]. intros e e' Hin ->. destruct (lookupWriterProxyData s (getGuid e)) as [wd|] eqn:Ew.
    + rewrite <- Hg. apply pair_endpoint_decides. by rewrite Hg.
    + split; try done. intros Hp. apply (Iw e Hin g) in Hp as [[x Hx] _]. congruence.
  - intros e He'. unfold writer_should, compatible. rewrite Hrd. destruct (lookupWriterProxyData s (getGuid e)) as [wd|].
    + split; [intros E; split; [by exists rd, wd|done]|]. by intros [(? & ? & [= <-] & [= <-] & ?) _].
    + split; [done|]. by intros [(? & ? & _ & ? & _) _].
Qed.

Lemma pairing_writer_any_inv s g wd Xr Xw : inv Xr Xw s -> lookupWriterProxyData s g = Some wd -> visible s g ->
  inv (fun a h => Xr a h /\ h <> g) Xw (pairing_writer_proxy_with_any_local_reader fnmatch s wd).
Proof.
  intros Hi Hwd Hv. pose proof Hi as [Hwf Ir Iw]. destruct (lookup_writer_guid s g wd Hwf Hwd) as [Hg Hu].
  unfold pairing_writer_proxy_with_any_local_reader.
  pose proof (pair_each_spec (lookupReaderProxyData s) (fun rdata => pair_reader fnmatch rdata wd) (d_readers s)) as He.
  destruct (pair_each _ _ _) as [rs cs]. simpl in He.
  apply (readers_decided s g (fun a => match lookupReaderProxyData s a with Some rd => m_valid (valid_matching fnmatch wd rd) | None => false end)); [done| |].
  - eapply each_elem_impl; [exact He|]. intros e e' Hin ->. destruct (lookupReaderProxyData s (getGuid e)) as [rd|] eqn:Er.
    + rewrite <- Hg. apply pair_endpoint_decides. by rewrite Hg.
    + split; try done. intros Hp. apply (Ir e Hin g) in Hp as [[x Hx] _]. congruence.
  - intros e He'. unfold reader_should, compatible. rewrite Hwd. destruct (lookupReaderProxyData s (getGuid e)) as [rd|].
    + split; [intros E; split; [by exists rd, wd|done]|]. by intros [(? & ? & [= <-] & [= <-] & ?) _].
    + split; [done|]. by intros [(? & ? & ? & _ & _) _].
Qed.

(** The endpoints of the participants that are looked at. *)
Lemma matchable_spec s p : wf s -> p ∈ matchable s <-> p ∈ d_participants s /\ (d_match_local s = true \/ prefix_of p <> guidPrefix (d_guid s)).
Proof.
  intros Hw. destruct (wf_own _ Hw) as (own & l & El & Eg). pose proof (wf_prefixes _ Hw) as Hn. unfold matchable. rewrite El in *.
  rewrite fmap_cons in Hn. apply list.NoDup_cons in Hn as [Hni _]. assert (Eo : prefix_of own = guidPrefix (d_guid s)) by (unfold prefix_of; by rewrite Eg).
  destruct (d_match_local s); [intuition|]. simpl. rewrite elem_of_cons. split.
  - intros Hp. split; [by right|]. right. intros E. apply Hni. rewrite Eo, <- E. by apply list_elem_of_fmap_2.
  - intros [[->|Hp] [?|Hne]]; congruence.
Qed.

Lemma all_writers_spec s wd : wf s -> wd ∈ all_writers (matchable s) <-> lookupWriterProxyData s (wd_guid wd) = Some wd /\ visible s (wd_guid wd).
Proof.
  intros Hw. unfold all_writers. rewrite list_elem_of_bind. split.
  - intros (p & Hwd & Hp). apply matchable_spec in Hp as [Hp Hv]; [|done]. apply list_elem_of_fmap in Hwd as ([i d] & -> & Hd).
    apply elem_of_map_to_list in Hd. simpl. pose proof (wf_writer_keys _ Hw p i d Hp Hd) as Hg. rewrite Hg. split; [|exact Hv].
    apply lookup_writer_spec; [done|]. by exists p.
  - intros [Hl Hv]. apply lookup_writer_spec in Hl as (p & Hp & Ep & Hd); [|done]. exists p. split.
    + apply list_elem_of_fmap. exists (entityId (wd_guid wd), wd). split; [done|]. by apply elem_of_map_to_list.
    + apply matchable_spec; [done|]. split; [done|]. unfold visible in Hv. by rewrite Ep.
Qed.

Lemma all_readers_spec s rd : wf s -> rd ∈ all_readers (matchable s) <-> lookupReaderProxyData s (rpd_guid rd) = Some rd /\ visible s (rpd_guid rd).
Proof.
  intros Hw. unfold all_readers. rewrite list_elem_of_bind. split.
  - intros (p & Hwd & Hp). apply matchable_spec in Hp as [Hp Hv]; [|done]. apply list_elem_of_fmap in Hwd as ([i d] & -> & Hd).
    apply elem_of_map_to_list in Hd. simpl. pose proof (wf_reader_keys _ Hw p i d Hp Hd) as Hg. rewrite Hg. split; [|exact Hv].
    apply lookup_reader_spec; [done|]. by exists p.
  - intros [Hl Hv]. apply lookup_reader_spec in Hl as (p & Hp & Ep & Hd); [|done]. exists p. split.
    + apply list_elem_of_fmap. exists (entityId (rpd_guid rd), rd). split; [done|]. by apply elem_of_map_to_list.
    + apply matchable_spec; [done|]. split; [done|]. unfold visible in Hv. by rewrite Ep.
Qed.

Lemma known_readers_spec s rd : wf s ->
  rd ∈ List.filter (fun r => negb (bool_decide (rpd_guid r = c_Guid_Unknown))) (all_readers (matchable s)) <->
  lookupReaderProxyData s (rpd_guid rd) = Some rd /\ visible s (rpd_guid rd).
Proof.
  intros Hw. rewrite list_elem_of_In, filter_In, <- list_elem_of_In, all_readers_spec, negb_true_iff, bool_decide_eq_false by done.
  split; [tauto|]. intros [Hl Hv]. split; [done|]. by eapply lookup_reader_guid.
Qed.

(** One endpoint that has been paired with all the remote ones there are. *)
Lemma paired_with_all {E D} (key : D -> GUID_t) `{EL : EndpointLaws E D key} (pair : D -> E -> E * list Call) (valid : D -> bool) ds
    (look : GUID_t -> option D) (vis : GUID_t -> Prop) (e : E) :
  (forall d, d ∈ ds <-> look (key d) = Some d /\ vis (key d)) -> (forall h d, look h = Some d -> key d = h) ->
  (forall d e, d ∈ ds -> decided key (valid d) (key d) e (pair d e).1) ->
  (forall h, pairs e h -> is_Some (look h) /\ vis h) ->
  let e' := (pair_with_each pair ds e).1 in
  getGuid e' = getGuid e /\ forall h,
    (pairs e' h -> exists d, look h = Some d /\ vis h /\ valid d = true) /\
    (unlimited e' -> forall d, look h = Some d -> vis h -> valid d = true -> pairs e' h).
Proof.
  intros Hds Hkey Hp Hb. assert (Hi : forall d d', d ∈ ds -> d' ∈ ds -> key d = key d' -> d = d').
  { intros d d' Hd Hd' E'. apply Hds in Hd as [Hd _]. apply Hds in Hd' as [Hd' _]. congruence. }
  destruct (pair_with_each_decides key pair valid ds Hp Hi e) as (Hg & _ & Ho & Hdec). split; [done|].
  intros h. destruct (look h) as [d|] eqn:El.
  - pose proof (Hkey h d El) as <-. split.
    + intros Hpe. destruct (decide (Exists (fun x => key x = key d) ds)) as [Hx|Hx].
      * apply Exists_exists in Hx as (x & Hx & Ex). apply list_elem_of_In in Hx. pose proof (proj1 (Hds x) Hx) as [Hlx Hvx].
        rewrite Ex, El in Hlx. simplify_eq. exists x. split; [done|]. split; [done|]. by apply (de_sound _ _ _ _ _ (Hdec x Hx)).
      * apply Ho in Hpe; [|intros x Hx' Ex; apply Hx, Exists_exists; exists x; by rewrite <- list_elem_of_In].
        destruct (Hb _ Hpe) as [_ Hv]. destruct Hx. apply Exists_exists. exists d. split; [|done]. apply list_elem_of_In, Hds. by rewrite El.
    + intros Hun d' [= <-] Hv Hvd. assert (Hin : d ∈ ds) by (apply Hds; by rewrite El). by apply (de_complete _ _ _ _ _ (Hdec d Hin)).
  - split; [|done]. intros Hpe. assert (Hno : forall d, d ∈ ds -> key d <> h) by (intros d Hd <-; apply Hds in Hd as [Hd _]; congruence).
    apply Ho in Hpe; [|done]. destruct (Hb h Hpe) as [[x Hx] _]. congruence.
Qed.

Lemma pairingReader_inv s g rd Xr Xw : inv Xr Xw s -> lookupReaderProxyData s g = Some rd ->
  inv (fun a h => Xr a h /\ a <> g) Xw (pairingReader fnmatch s g rd).
Proof.
  intros [Hwf Ir Iw] Hrd. destruct (lookup_reader_guid s g rd Hwf Hrd) as [Hg Hu]. unfold pairingReader.
  pose proof (change_endpoint_spec g (pair_with_each (pair_reader fnmatch rd) (all_writers (matchable s))) (d_readers s) (wf_readers _ Hwf)) as He.
  destruct (change_endpoint _ _ _) as [rs cs]. simpl in He.
  assert (Hall : forall e, e ∈ d_readers s -> getGuid e = g -> let e' := (pair_with_each (pair_reader fnmatch rd) (all_writers (matchable s)) e).1 in
    getGuid e' = getGuid e /\ forall h, (pairs e' h -> reader_should s g h) /\ (unlimited e' -> reader_should s g h -> pairs e' h)).
  { intros e Hin Eg.
    destruct (paired_with_all wd_guid (pair_reader fnmatch rd) (fun wd => m_valid (valid_matching fnmatch wd rd)) (all_writers (matchable s))
      (lookupWriterProxyData s) (visible s) e) as [Hge Hex].
    - intros d. by apply all_writers_spec.
    - intros h d Hd. by eapply lookup_writer_guid.
    - intros d x Hd. apply pair_endpoint_decides. apply all_writers_spec in Hd as [Hd _]; [|done]. by eapply lookup_writer_guid.
    - intros h Hp. apply (Ir e Hin h) in Hp as (_ & H1 & H2). done.
    - split; [done|]. intros h. destruct (Hex h) as [H1 H2]. unfold reader_should, compatible. rewrite Hrd. split.
      + intros Hp. destruct (H1 Hp) as (d & Hl & Hv & Hm). split; [|done]. by exists rd, d.
      + intros Hun [(? & d & [= <-] & Hl & Hm) Hv]. by apply (H2 Hun d). }
  split; [|intros e' He' h|exact Iw].
  - apply wf_endpoints; [done| |done]. eapply each_guids; [|intros e e' H; exact H].
    eapply each_elem_impl; [exact He|]. intros e e' Hin ->. destruct (decide (getGuid e = g)) as [E|]; [by apply (Hall e Hin E)|done].
  - destruct (each_elem _ _ _ _ He He') as (e & Hin & ->). destruct (decide (getGuid e = g)) as [E|E]; [|destruct (Ir e Hin h); tauto].
    destruct (Hall e Hin E) as [Hge Hex]. rewrite Hge, E. destruct (Hex h) as [H1 H2]. split; [done|].
    intros Hp. destruct (H1 Hp) as [(rd' & wd & E1 & E2 & _) Hv]. split; [by exists rd'|]. split; [by exists wd|exact Hv].
Qed.

Lemma pairingWriter_inv s g wd Xr Xw : inv Xr Xw s -> lookupWriterProxyData s g = Some wd ->
  inv Xr (fun a h => Xw a h /\ a <> g) (pairingWriter fnmatch s g wd).
Proof.
  intros [Hwf Ir Iw] Hwd. destruct (lookup_writer_guid s g wd Hwf Hwd) as [Hg Hu]. unfold pairingWriter.
  set (ds := List.filter _ _).
  pose proof (change_endpoint_spec g (pair_with_each (pair_writer fnmatch wd) ds) (d_writers s) (wf_writers _ Hwf)) as He.
  destruct (change_endpoint _ _ _) as [ws cs]. simpl in He.
  assert (Hall : forall e, e ∈ d_writers s -> getGuid e = g -> let e' := (pair_with_each (pair_writer fnmatch wd) ds e).1 in
    getGuid e' = getGuid e /\ forall h, (pairs e' h -> writer_should s g h) /\ (unlimited e' -> writer_should s g h -> pairs e' h)).
  { intros e Hin Eg.
    destruct (paired_with_all rpd_guid (pair_writer fnmatch wd) (fun rd => m_valid (valid_matching fnmatch wd rd)) ds
      (lookupReaderProxyData s) (visible s) e) as [Hge Hex].
    - intros d. by apply known_readers_spec.
    - intros h d Hd. by eapply lookup_reader_guid.
    - intros d x Hd. apply pair_endpoint_decides. apply known_readers_spec in Hd as [Hd _]; [|done]. by eapply lookup_reader_guid.
    - intros h Hp. apply (Iw e Hin h) in Hp as (_ & H1 & H2). done.
    - split; [done|]. intros h. destruct (Hex h) as [H1 H2]. unfold writer_should, compatible. rewrite Hwd. split.
      + intros Hp. destruct (H1 Hp) as (d & Hl & Hv & Hm). split; [|done]. by exists d, wd.
      + intros Hun [(d & ? & Hl & [= <-] & Hm) Hv]. by apply (H2 Hun d). }
  split; [|exact Ir|intros e' He' h].
  - apply wf_endpoints; [done|done|]. eapply each_guids; [|intros e e' H; exact H].
    eapply each_elem_impl; [exact He|]. intros e e' Hin ->. destruct (decide (getGuid e = g)) as [E|]; [by apply (Hall e Hin E)|done].
  - destruct (each_elem _ _ _ _ He He') as (e & Hin & ->). destruct (decide (getGuid e = g)) as [E|E]; [|destruct (Iw e Hin h); tauto].
    destruct (Hall e Hin E) as [Hge Hex]. rewrite Hge, E. destruct (Hex h) as [H1 H2]. split; [done|].
    intros Hp. destruct (H1 Hp) as [(rd' & wd' & E1 & E2 & _) Hv]. split; [by exists wd'|]. split; [by exists rd'|exact Hv].
Qed.

End Participant.
