(* ===== verification/EndpointDiscoveryRuns.v ===== *)
(** * Runs of endpoint discovery

    Every operation of a participant keeps its endpoints paired with exactly the
    endpoints it knows and that they match, except for readers whose last
    registration or update failed for an incomplete content filter
    ([discovery_inv]).  Nobody else announces the end of an endpoint of this
    participant. *)

From stdpp Require Import gmap.
From S2P Require Import Prelude SequenceNumber ParameterList Liveliness ReaderProxy Partition Matching.
From S2P Require Import EndpointDiscovery EndpointDiscoveryInv EndpointDiscoveryLaws.

(** ** Endpoints that drop remote ones *)

Section Drop.
Context {E D : Type} (key : D -> GUID_t) `{EL : EndpointLaws E D key}.
Implicit Types P : GUID_t -> Prop.

Record dropped P (e e' : E) : Prop := mkDropped {
  dr_guid : getGuid e' = getGuid e;
  dr_unlimited : unlimited e' <-> unlimited e;
  dr_pairs h : pairs e' h <-> pairs e h /\ ~ P h
}.

Lemma dropped_refl e : dropped (fun _ => False) e e.
Proof. split; try done. intros h. tauto. Qed.

Lemma dropped_trans P Q e1 e2 e3 : dropped P e1 e2 -> dropped Q e2 e3 -> dropped (fun h => P h \/ Q h) e1 e3.
Proof. intros [G1 U1 P1] [G2 U2 P2]. split; [congruence|by rewrite U2|]. intros h. rewrite P2, P1. tauto. Qed.

Lemma unpair_all_drops g by_lease l : each (dropped (fun h => h = g)) l (unpair_all g by_lease l).1.
Proof.
  induction l as [|e l IH]; [constructor|]. cbn [unpair_all].
  pose proof (law_remove_guid (key := key) e g by_lease) as Hg. pose proof (law_remove_unlimited (key := key) e g by_lease) as Hu.
  pose proof (law_remove (key := key) e g by_lease) as Hr.
  destruct (matched_remove e g by_lease) as [b e'], (unpair_all g by_lease l) as [l' c]. simpl in *. by constructor.
Qed.

Lemma each_dropped_trans P Q l1 l2 l3 : each (dropped P) l1 l2 -> each (dropped Q) l2 l3 -> each (dropped (fun h => P h \/ Q h)) l1 l3.
Proof.
  intros H1. revert l3. induction H1 as [|e e' l l' He _ IH]; intros l3 H2; inversion H2; subst; constructor; [by eapply dropped_trans|by apply IH].
Qed.

Lemma each_dropped_refl l : each (dropped (fun _ => False)) l l.
Proof. induction l; constructor; [apply dropped_refl|done]. Qed.

Lemma each_dropped_ext P Q l l' : (forall h, P h <-> Q h) -> each (dropped P) l l' -> each (dropped Q) l l'.
Proof. intros He Hl. eapply each_elem_impl; [exact Hl|]. intros e e' _ [G U Hp]. split; [done|done|]. intros h. rewrite Hp. by rewrite He. Qed.

Lemma side_drop (should base X should' base' : GUID_t -> GUID_t -> Prop) P l l' :
  side_inv key should base X l -> each (dropped P) l l' ->
  (forall e h, e ∈ l -> P h -> ~ should' (getGuid e) h) ->
  (forall e h, e ∈ l -> ~ P h -> (should' (getGuid e) h <-> should (getGuid e) h) /\ (base (getGuid e) h -> base' (getGuid e) h)) ->
  side_inv key should' base' X l'.
Proof.
  intros Hi Hd Hp Hn e' He' h. destruct (each_elem _ _ _ _ Hd He') as (e & He & [Dg Du Dp]). rewrite Dg, Du, Dp.
  destruct (Hi e He h) as [H1 H2]. split.
  - intros HX. specialize (H1 HX). split.
    + intros [Hpe HnP]. apply (Hn e h He HnP). by apply H1.
    + intros Hun Hsh. assert (HnP : ~ P h) by (intros HP; by apply (Hp e h He HP)). split; [|done]. apply H1; [done|]. by apply (Hn e h He HnP).
  - intros [Hpe HnP]. apply (Hn e h He HnP). by apply H2.
Qed.

Lemma dropped_guids P l l' : each (dropped P) l l' -> getGuid <$> l' = getGuid <$> l.
Proof. intros Hl. eapply each_guids; [exact Hl|]. by intros e e' []. Qed.
End Drop.

Section Runs.
Context {R W : Type} `{RE : !Endpoint R WriterProxyData} `{WE : !Endpoint W ReaderProxyData}.
Context {RL : EndpointLaws R WriterProxyData wd_guid} {WL : EndpointLaws W ReaderProxyData rpd_guid}.
Variable fnmatch : list Z -> list Z -> bool.
Implicit Types s : Discovery R W.

(** ** Removing data *)

Lemma unpair_reader_eq s g : exists ws cs, unpairReaderProxy s g = set_endpoints s (d_readers s) ws cs /\
  each (dropped rpd_guid (fun h => h = g)) (d_writers s) ws.
Proof.
  unfold unpairReaderProxy. pose proof (unpair_all_drops rpd_guid g false (d_writers s)) as Hd.
  destruct (unpair_all g false (d_writers s)) as [ws cs]. by eexists _, _.
Qed.
Lemma unpair_writer_eq s g by_lease : exists rs cs, unpairWriterProxy s g by_lease = set_endpoints s rs (d_writers s) cs /\
  each (dropped wd_guid (fun h => h = g)) (d_readers s) rs.
Proof.
  unfold unpairWriterProxy. pose proof (unpair_all_drops wd_guid g by_lease (d_readers s)) as Hd.
  destruct (unpair_all g by_lease (d_readers s)) as [rs cs]. by eexists _, _.
Qed.

Lemma remove_reader_spec s g : wf s -> lookupReaderProxyData s g = None /\ removeReaderProxyData s g = (false, s) \/
  exists s' ws cs, removeReaderProxyData s g = (true, s') /\ each (dropped rpd_guid (fun h => h = g)) (d_writers s) ws /\
    reader_data_set g None (set_endpoints s (d_readers s) ws cs) s'.
Proof.
  intros Hw. unfold removeReaderProxyData. destruct (split_at (has_reader g) (d_participants s)) as [[[a p] b]|] eqn:Es.
  - right. apply split_at_eq in Es as [El Ep]. unfold has_reader in Ep. apply andb_true_iff in Ep as [Ep _]. apply same_prefix_true in Ep.
    assert (Hp : p ∈ d_participants s) by (rewrite El; apply elem_of_app; right; by left).
    destruct (unpair_reader_eq s g) as (ws & cs & -> & Hd). eexists _, ws, cs. split; [done|]. split; [done|].
    set (s0 := set_endpoints s (d_readers s) ws cs).
    assert (Hw0 : wf s0) by (apply wf_endpoints; [done|done|by eapply dropped_guids]).
    set (p' := mkPP (pp_guid p) (delete (entityId g) (pp_readers p)) (pp_writers p)).
    set (s' := set_reader_pool _ _).
    destruct (replace_participant s0 s' a p p' b Hw0) as (Hwf & _ & Hr & Hwr); try done.
    + simpl. intros i d [_ Hd']%lookup_delete_Some. by apply (wf_reader_keys _ Hw p).
    + simpl. intros i d Hd'. by apply (wf_writer_keys _ Hw p).
    + split; [done|split; try done; simpl; by rewrite El, !fmap_app, !fmap_cons|..].
      * rewrite Hr, decide_True by done. simpl. by rewrite lookup_delete_eq.
      * intros h Hh. rewrite Hr. destruct (decide (prefix_of p = guidPrefix h)) as [E|E]; [|done]. simpl.
        rewrite lookup_delete_ne by (intros E'; apply Hh; symmetry; apply guid_eta; congruence).
        unfold lookupReaderProxyData. simpl. rewrite find_reader_in, El, find_in_middle by (rewrite <- El; apply Hw). by rewrite decide_True.
      * intros h. rewrite Hwr. destruct (decide (prefix_of p = guidPrefix h)) as [E|E]; [|done]. simpl.
        unfold lookupWriterProxyData. simpl. rewrite find_writer_in, El, find_in_middle by (rewrite <- El; apply Hw). by rewrite decide_True.
  - left. split; [|done]. destruct (lookupReaderProxyData s g) as [d|] eqn:Ed; [|done]. apply lookup_reader_spec in Ed as (p & Hp & Ep & Hd); [|done].
    pose proof (split_at_none _ _ _ Es Hp) as Hf. unfold has_reader in Hf. rewrite (proj2 (same_prefix_true g p)), Hd in Hf by done. done.
Qed.

Lemma remove_writer_spec s g : wf s -> lookupWriterProxyData s g = None /\ removeWriterProxyData s g = (false, s) \/
  exists s' rs cs, removeWriterProxyData s g = (true, s') /\ each (dropped wd_guid (fun h => h = g)) (d_readers s) rs /\
    writer_data_set g None (set_endpoints s rs (d_writers s) cs) s'.
Proof.
  intros Hw. unfold removeWriterProxyData. destruct (split_at (has_writer g) (d_participants s)) as [[[a p] b]|] eqn:Es.
  - right. apply split_at_eq in Es as [El Ep]. unfold has_writer in Ep. apply andb_true_iff in Ep as [Ep _]. apply same_prefix_true in Ep.
    assert (Hp : p ∈ d_participants s) by (rewrite El; apply elem_of_app; right; by left).
    destruct (unpair_writer_eq s g false) as (rs & cs & -> & Hd). eexists _, rs, cs. split; [done|]. split; [done|].
    set (s0 := set_endpoints s rs (d_writers s) cs).
    assert (Hw0 : wf s0) by (apply wf_endpoints; [done|by eapply dropped_guids|done]).
    set (p' := mkPP (pp_guid p) (pp_readers p) (delete (entityId g) (pp_writers p))).
    set (s' := set_writer_pool _ _).
    destruct (replace_participant s0 s' a p p' b Hw0) as (Hwf & _ & Hr & Hwr); try done.
    + simpl. intros i d Hd'. by apply (wf_reader_keys _ Hw p).
    + simpl. intros i d [_ Hd']%lookup_delete_Some. by apply (wf_writer_keys _ Hw p).
    + split; [done|split; try done; simpl; by rewrite El, !fmap_app, !fmap_cons|..].
      * rewrite Hwr, decide_True by done. simpl. by rewrite lookup_delete_eq.
      * intros h Hh. rewrite Hwr. destruct (decide (prefix_of p = guidPrefix h)) as [E|E]; [|done]. simpl.
        rewrite lookup_delete_ne by (intros E'; apply Hh; symmetry; apply guid_eta; congruence).
        unfold lookupWriterProxyData. simpl. rewrite find_writer_in, El, find_in_middle by (rewrite <- El; apply Hw). by rewrite decide_True.
      * intros h. rewrite Hr. destruct (decide (prefix_of p = guidPrefix h)) as [E|E]; [|done]. simpl.
        unfold lookupReaderProxyData. simpl. rewrite find_reader_in, El, find_in_middle by (rewrite <- El; apply Hw). by rewrite decide_True.
  - left. split; [|done]. destruct (lookupWriterProxyData s g) as [d|] eqn:Ed; [|done]. apply lookup_writer_spec in Ed as (p & Hp & Ep & Hd); [|done].
    pose proof (split_at_none _ _ _ Es Hp) as Hf. unfold has_writer in Hf. rewrite (proj2 (same_prefix_true g p)), Hd in Hf by done. done.
Qed.

Lemma reader_removed_inv s g s' ws cs Xr Xw : inv fnmatch Xr Xw s -> (forall e, e ∈ d_readers s -> getGuid e <> g) ->
  each (dropped rpd_guid (fun h => h = g)) (d_writers s) ws -> reader_data_set g None (set_endpoints s (d_readers s) ws cs) s' -> inv fnmatch Xr Xw s'.
Proof.
  intros [Hwf Ir Iw] Hno Hd [Hwf' Hs Ht Ho Hw]. split; [done| |].
  - rewrite (sr_readers _ _ Hs). eapply side_weaken; [exact Ir| |].
    + intros e h He HX. split; [done|]. unfold reader_should, compatible. rewrite (visible_same _ _ _ Hs), Ho, Hw by (by apply Hno). done.
    + intros e h He. unfold reader_base. rewrite (visible_same _ _ _ Hs), Ho, Hw by (by apply Hno). exact id.
  - rewrite (sr_writers _ _ Hs). eapply side_drop; [exact Iw|exact Hd| |].
    + intros e h He -> [(rd & wd & E1 & _) _]. congruence.
    + intros e h He Hh. unfold writer_should, writer_base, compatible. rewrite (visible_same _ _ _ Hs), Ho, Hw by done. split; [done|exact id].
Qed.

Lemma writer_removed_inv s g s' rs cs Xr Xw : inv fnmatch Xr Xw s -> (forall e, e ∈ d_writers s -> getGuid e <> g) ->
  each (dropped wd_guid (fun h => h = g)) (d_readers s) rs -> writer_data_set g None (set_endpoints s rs (d_writers s) cs) s' -> inv fnmatch Xr Xw s'.
Proof.
  intros [Hwf Ir Iw] Hno Hd [Hwf' Hs Ht Ho Hr]. split; [done| |].
  - rewrite (sr_readers _ _ Hs). eapply side_drop; [exact Ir|exact Hd| |].
    + intros e h He -> [(rd & wd & _ & E2 & _) _]. congruence.
    + intros e h He Hh. unfold reader_should, reader_base, compatible. rewrite (visible_same _ _ _ Hs), Ho, Hr by done. split; [done|exact id].
  - rewrite (sr_writers _ _ Hs). eapply side_weaken; [exact Iw| |].
    + intros e h He HX. split; [done|]. unfold writer_should, compatible. rewrite (visible_same _ _ _ Hs), Ho, Hr by (by apply Hno). done.
    + intros e h He. unfold writer_base. rewrite (visible_same _ _ _ Hs), Ho, Hr by (by apply Hno). exact id.
Qed.

Lemma news_inv s rn wn Xr Xw : inv fnmatch Xr Xw s -> inv fnmatch Xr Xw (set_news s rn wn).
Proof. intros [[] Ir Iw]. split; [by split|exact Ir|exact Iw]. Qed.

Lemma invisible_writers_inv s g Xr Xw : inv fnmatch Xr Xw s -> ~ visible s g -> inv fnmatch Xr (fun a h => Xw a h /\ h <> g) s.
Proof.
  intros [Hwf Ir Iw] Hv. split; [done|done|]. intros e He h. destruct (Iw e He h) as [H1 H2]. split; [|done]. intros HX.
  destruct (decide (h = g)) as [->|Hne]; [|apply H1; tauto]. split; [intros Hp; by apply H2 in Hp as (_ & _ & ?)|by intros _ []].
Qed.
Lemma invisible_readers_inv s g Xr Xw : inv fnmatch Xr Xw s -> ~ visible s g -> inv fnmatch (fun a h => Xr a h /\ h <> g) Xw s.
Proof.
  intros [Hwf Ir Iw] Hv. split; [done| |done]. intros e He h. destruct (Ir e He h) as [H1 H2]. split; [|done]. intros HX.
  destruct (decide (h = g)) as [->|Hne]; [|apply H1; tauto]. split; [intros Hp; by apply H2 in Hp as (_ & _ & ?)|by intros _ []].
Qed.

(** Pairing changes nothing but the endpoints. *)
Lemma pairing_reader_any_eq s rd : exists ws cs, pairing_reader_proxy_with_any_local_writer fnmatch s rd = set_endpoints s (d_readers s) ws cs.
Proof. unfold pairing_reader_proxy_with_any_local_writer. destruct (pair_each _ _ _) as [ws cs]. by eexists _, _. Qed.
Lemma pairing_writer_any_eq s wd : exists rs cs, pairing_writer_proxy_with_any_local_reader fnmatch s wd = set_endpoints s rs (d_writers s) cs.
Proof. unfold pairing_writer_proxy_with_any_local_reader. destruct (pair_each _ _ _) as [rs cs]. by eexists _, _. Qed.
Lemma pairingReader_eq s g rd : exists rs cs, pairingReader fnmatch s g rd = set_endpoints s rs (d_writers s) cs.
Proof. unfold pairingReader. destruct (change_endpoint _ _ _) as [rs cs]. by eexists _, _. Qed.
Lemma pairingWriter_eq s g wd : exists ws cs, pairingWriter fnmatch s g wd = set_endpoints s (d_readers s) ws cs.
Proof. unfold pairingWriter. destruct (change_endpoint _ _ _) as [ws cs]. by eexists _, _. Qed.

(** ** Local endpoints *)

(** Local readers whose data has changed without a decision on their matches: an
    initializer has failed. *)
Definition open_readers (U : list GUID_t) (a h : GUID_t) : Prop := a ∈ U.
Definition open_writers (U : list GUID_t) (a h : GUID_t) : Prop := h ∈ U.
Definition decided_of (g : GUID_t) (U : list GUID_t) : list GUID_t := filter (fun x => x <> g) U.
Notation invU U := (inv fnmatch (open_readers U) (open_writers U)).

(** Both pairings after the data of a local endpoint has changed. *)
Lemma local_reader_paired U s s0 g rd : invU U s -> reader_data_set g (Some rd) s s0 -> guidPrefix g = guidPrefix (d_guid s) ->
  invU (decided_of g U) (pairingReader fnmatch (if d_match_local s0 then pairing_reader_proxy_with_any_local_writer fnmatch s0 rd else s0) g rd).
Proof.
  intros Hi Hset Hg. pose proof (reader_set_inv fnmatch _ _ _ _ _ _ Hset Hi) as H0. pose proof (rs_this _ _ _ _ Hset) as Hrd.
  assert (H1 : inv fnmatch (fun a h => open_readers U a h \/ a = g) (fun a h => (open_writers U a h \/ h = g) /\ h <> g)
    (if d_match_local s0 then pairing_reader_proxy_with_any_local_writer fnmatch s0 rd else s0)).
  { destruct (d_match_local s0) eqn:El.
    - apply pairing_reader_any_inv; [done|done|]. by left.
    - apply invisible_writers_inv; [done|]. intros [?|Hv]; [congruence|]. apply Hv. by rewrite (sr_guid _ _ (rs_rest _ _ _ _ Hset)). }
  assert (Hrd1 : lookupReaderProxyData (if d_match_local s0 then pairing_reader_proxy_with_any_local_writer fnmatch s0 rd else s0) g = Some rd).
  { destruct (d_match_local s0); [|done]. destruct (pairing_reader_any_eq s0 rd) as (ws & cs & ->). exact Hrd. }
  pose proof (pairingReader_inv fnmatch _ g rd _ _ H1 Hrd1) as H2.
  eapply inv_weaken; [exact H2| |]; unfold open_readers, open_writers, decided_of; intros e h _; rewrite list_elem_of_filter; cbn beta; tauto.
Qed.

Lemma local_writer_paired U s s0 g wd : invU U s -> writer_data_set g (Some wd) s s0 -> guidPrefix g = guidPrefix (d_guid s) ->
  invU U (pairingWriter fnmatch (if d_match_local s0 then pairing_writer_proxy_with_any_local_reader fnmatch s0 wd else s0) g wd).
Proof.
  intros Hi Hset Hg. pose proof (writer_set_inv fnmatch _ _ _ _ _ _ Hset Hi) as H0. pose proof (ws_this _ _ _ _ Hset) as Hwd.
  assert (H1 : inv fnmatch (fun a h => (open_readers U a h \/ h = g) /\ h <> g) (fun a h => open_writers U a h \/ a = g)
    (if d_match_local s0 then pairing_writer_proxy_with_any_local_reader fnmatch s0 wd else s0)).
  { destruct (d_match_local s0) eqn:El.
    - apply pairing_writer_any_inv; [done|done|]. by left.
    - apply invisible_readers_inv; [done|]. intros [?|Hv]; [congruence|]. apply Hv. by rewrite (sr_guid _ _ (ws_rest _ _ _ _ Hset)). }
  assert (Hwd1 : lookupWriterProxyData (if d_match_local s0 then pairing_writer_proxy_with_any_local_reader fnmatch s0 wd else s0) g = Some wd).
  { destruct (d_match_local s0); [|done]. destruct (pairing_writer_any_eq s0 wd) as (rs & cs & ->). exact Hwd. }
  pose proof (pairingWriter_inv fnmatch _ g wd _ _ H1 Hwd1) as H2. eapply inv_weaken; [exact H2| |]; intros e h _ HX; tauto.
Qed.

(** A failed initializer. *)
Lemma reader_left_open U s s0 g d : invU U s -> reader_data_set g (Some d) s s0 -> invU (g :: U) s0.
Proof.
  intros Hi Hset. pose proof (reader_set_inv fnmatch _ _ _ _ _ _ Hset Hi) as H0.
  eapply inv_weaken; [exact H0| |]; unfold open_readers, open_writers; intros e h _; rewrite elem_of_cons; tauto.
Qed.
Lemma open_more U g s : invU U s -> invU (g :: U) s.
Proof. intros Hi. eapply inv_weaken; [exact Hi| |]; unfold open_readers, open_writers; intros e h _; rewrite elem_of_cons; tauto. Qed.

Definition filter_ok (content_filter : option (list (list Z))) : bool := match content_filter with Some f => filter_complete f | None => true end.

(** The open readers after a registration or an update of [g], with its result. *)
Definition open_after (content_filter : option (list (list Z))) (g : GUID_t) (ok : bool) (U : list GUID_t) : list GUID_t :=
  if ok then decided_of g U else if filter_ok content_filter then U else g :: U.

Lemma init_new_reader_good s g topic qos content_filter : filter_ok content_filter = true -> good_reader_init s g (init_new_reader s g topic qos content_filter).
Proof.
  intros Hf. unfold good_reader_init, init_new_reader. split_and!; [done|done|]. intros _.
  destruct content_filter as [f|]; simpl in Hf; [by rewrite Hf|done].
Qed.
Lemma init_new_writer_good s g pg topic qos : good_writer_init s g (init_new_writer s g pg topic qos).
Proof. by unfold good_writer_init, init_new_writer. Qed.

Lemma init_updated_reader_good s g qos content_filter d : filter_ok content_filter = true -> lookupReaderProxyData s g = Some d ->
  good_reader_init s g (init_updated_reader qos content_filter).
Proof.
  intros Hf Hd. unfold good_reader_init, init_updated_reader. split_and!; [| |congruence]; intros d'; destruct content_filter as [f|]; simpl in Hf; rewrite ?Hf; done.
Qed.
Lemma init_updated_writer_good s g qos d : lookupWriterProxyData s g = Some d -> good_writer_init s g (init_updated_writer qos).
Proof. intros Hd. unfold good_writer_init, init_updated_writer. split_and!; [done|done|congruence]. Qed.

Lemma copy_reader_good s ok temp : good_reader_init s (rpd_guid temp) (copy_reader ok temp).
Proof. by unfold good_reader_init, copy_reader. Qed.
Lemma copy_writer_good s ok temp : good_writer_init s (wd_guid temp) (copy_writer ok temp).
Proof. by unfold good_writer_init, copy_writer. Qed.

Lemma new_reader_inv U s g topic qos content_filter : invU U s -> guidPrefix g = guidPrefix (d_guid s) ->
  let r := new_reader_proxy_data fnmatch s g topic qos content_filter in invU (open_after content_filter g r.1 U) r.2.
Proof.
  intros Hi Hg. unfold new_reader_proxy_data, open_after. pose proof (inv_wf _ _ _ _ Hi) as Hw. destruct (filter_ok content_filter) eqn:Hf.
  - destruct (add_reader_spec s g _ Hw (init_new_reader_good s g topic qos content_filter Hf)) as [->|(s0 & rd & -> & Hset & _)]; [done|].
    by apply news_inv, (local_reader_paired U s).
  - assert (Hok : forall d u, (init_new_reader s g topic qos content_filter d u).1 = false).
    { intros d [|]; [done|]. destruct content_filter as [x|]; [|done]. unfold init_new_reader. simpl in Hf. by rewrite Hf. }
    destruct (add_reader_any s g (init_new_reader s g topic qos content_filter) Hw) as [->|(s0 & old & u & ok & d & Ei & -> & Hset & _)]; [done| |by apply open_more|].
    + intros _. unfold init_new_reader. destruct content_filter as [x|]; [destruct (filter_complete x)|]; done.
    + specialize (Hok old u). rewrite Ei in Hok. simpl in Hok. subst ok. by eapply reader_left_open.
Qed.
Lemma new_writer_inv U s g pg topic qos : invU U s -> guidPrefix g = guidPrefix (d_guid s) ->
  invU U (new_writer_proxy_data fnmatch s g pg topic qos).2.
Proof.
  intros Hi Hg. unfold new_writer_proxy_data.
  destruct (add_writer_spec s g _ (inv_wf _ _ _ _ Hi) (init_new_writer_good s g pg topic qos)) as [->|(s0 & wd & -> & Hset & _)]; [done|].
  by apply news_inv, (local_writer_paired U s).
Qed.

Lemma update_reader_inv U s s' ok g qos content_filter : invU U s -> guidPrefix g = guidPrefix (d_guid s) ->
  update_reader fnmatch s g qos content_filter = Some (ok, s') -> invU (open_after content_filter g ok U) s'.
Proof.
  intros Hi Hg. unfold update_reader, open_after. destruct (lookupReaderProxyData s g) as [d|] eqn:Hd; [|done].
  pose proof (inv_wf _ _ _ _ Hi) as Hw. destruct (filter_ok content_filter) eqn:Hf.
  - destruct (add_reader_spec s g _ Hw (init_updated_reader_good s g qos content_filter d Hf Hd)) as [->|(s0 & rd & -> & Hset & _)]; [by intros [= <- <-]|].
    intros [= <- <-]. set (s1 := process_reader_proxy_data s0 (reader_alive rd)).
    assert (H1 : reader_data_set g (Some rd) (set_news s (d_subscriptions s1) (d_publications s1)) s1).
    { destruct Hset as [[] [] ? ? ?]. split; [by split|by split|done..]. }
    exact (local_reader_paired U _ s1 g rd (news_inv _ _ _ _ _ Hi) H1 Hg).
  - destruct content_filter as [x|]; [|done]. simpl in Hf.
    destruct (add_reader_any s g (init_updated_reader qos (Some x)) Hw) as [->|(s0 & old & u & ok' & d' & Ei & -> & Hset & _)].
    + intros d'. unfold init_updated_reader. by rewrite Hf.
    + congruence.
    + intros [= <- <-]. by apply open_more.
    + unfold init_updated_reader in Ei. rewrite Hf in Ei. injection Ei as <- _. intros [= <- <-]. by eapply reader_left_open.
Qed.
Lemma update_writer_inv U s s' b g qos : invU U s -> guidPrefix g = guidPrefix (d_guid s) ->
  update_writer fnmatch s g qos = Some (b, s') -> invU U s'.
Proof.
  intros Hi Hg. unfold update_writer. destruct (lookupWriterProxyData s g) as [d|] eqn:Hd; [|done].
  destruct (add_writer_spec s g _ (inv_wf _ _ _ _ Hi) (init_updated_writer_good s g qos d Hd)) as [->|(s0 & wd & -> & Hset & _)]; [by intros [= <- <-]|].
  intros [= <- <-]. set (s1 := process_writer_proxy_data s0 (writer_alive wd)).
  assert (H1 : writer_data_set g (Some wd) (set_news s (d_subscriptions s1) (d_publications s1)) s1).
  { destruct Hset as [[] [] ? ? ?]. split; [by split|by split|done..]. }
  exact (local_writer_paired U _ s1 g wd (news_inv _ _ _ _ _ Hi) H1 Hg).
Qed.

Lemma sublist_fmap_of {A B} (f : A -> B) l1 l2 : sublist l1 l2 -> sublist (f <$> l1) (f <$> l2).
Proof. induction 1; cbn; by constructor. Qed.

Lemma delete_reader_inv s g Xr Xw : inv fnmatch Xr Xw s -> guidPrefix g = guidPrefix (d_guid s) -> inv fnmatch Xr Xw (remove_reader s g).2.
Proof.
  intros Hi Hg. pose proof (inv_wf _ _ _ _ Hi) as Hw. pose proof (wf_local_readers _ Hw) as Hl. rewrite list.Forall_forall in Hl.
  pose proof (remove_endpoint_sub g (d_readers s)) as Hsub.
  assert (Hgone : forall e, e ∈ remove_endpoint g (d_readers s) -> getGuid e <> g).
  { intros e. apply remove_endpoint_gone; [apply Hw|]. intros x Hx. by rewrite Hg, Hl. }
  unfold remove_reader. set (s1 := process_reader_proxy_data _ _).
  assert (H1 : inv fnmatch Xr Xw s1).
  { apply news_inv. destruct Hi as [[] Ir Iw]. split; [split; try done; simpl|intros e He; apply Ir; by eapply elem_of_sublist|exact Iw].
    - eapply sublist_NoDup; [|by apply sublist_fmap_of]. done.
    - rewrite list.Forall_forall. intros x Hx. apply Hl. by eapply elem_of_sublist. }
  destruct (remove_reader_spec s1 g (inv_wf _ _ _ _ H1)) as [[_ ->]|(s' & ws & cs & -> & Hd & Hset)]; [done|].
  by eapply reader_removed_inv.
Qed.
Lemma delete_writer_inv s g Xr Xw : inv fnmatch Xr Xw s -> guidPrefix g = guidPrefix (d_guid s) -> inv fnmatch Xr Xw (remove_writer s g).2.
Proof.
  intros Hi Hg. pose proof (inv_wf _ _ _ _ Hi) as Hw. pose proof (wf_local_writers _ Hw) as Hl. rewrite list.Forall_forall in Hl.
  pose proof (remove_endpoint_sub g (d_writers s)) as Hsub.
  assert (Hgone : forall e, e ∈ remove_endpoint g (d_writers s) -> getGuid e <> g).
  { intros e. apply remove_endpoint_gone; [apply Hw|]. intros x Hx. by rewrite Hg, Hl. }
  unfold remove_writer. set (s1 := process_writer_proxy_data _ _).
  assert (H1 : inv fnmatch Xr Xw s1).
  { apply news_inv. destruct Hi as [[] Ir Iw]. split; [split; try done; simpl|exact Ir|intros e He; apply Iw; by eapply elem_of_sublist].
    - eapply sublist_NoDup; [|by apply sublist_fmap_of]. done.
    - rewrite list.Forall_forall. intros x Hx. apply Hl. by eapply elem_of_sublist. }
  destruct (remove_writer_spec s1 g (inv_wf _ _ _ _ H1)) as [[_ ->]|(s' & rs & cs & -> & Hd & Hset)]; [done|].
  by eapply writer_removed_inv.
Qed.

(** ** Remote endpoints *)

Lemma reader_change_inv s ok temp Xr Xw : inv fnmatch Xr Xw s -> inv fnmatch Xr Xw (add_reader_from_change fnmatch s ok temp).
Proof.
  intros Hi. unfold add_reader_from_change. case_bool_decide as Ep; [done|]. pose proof (inv_wf _ _ _ _ Hi) as Hw.
  destruct (add_reader_spec s _ _ Hw (copy_reader_good s ok temp)) as [->|(s0 & rd & -> & Hset & _)]; [done|].
  assert (Hv : visible s0 (rpd_guid temp)) by (right; by rewrite (sr_guid _ _ (rs_rest _ _ _ _ Hset))).
  pose proof (reader_set_inv fnmatch _ _ _ _ _ _ Hset Hi) as H0.
  pose proof (pairing_reader_any_inv fnmatch _ _ rd _ _ H0 (rs_this _ _ _ _ Hset) Hv) as H1.
  eapply inv_weaken; [exact H1| |]; intros e h He HX; [|tauto]. intros [?|E']; [done|].
  destruct (pairing_reader_any_eq s0 rd) as (ws & cs & E1). rewrite E1 in He. simpl in He. rewrite (sr_readers _ _ (rs_rest _ _ _ _ Hset)) in He.
  pose proof (wf_local_readers _ Hw) as Hl. rewrite list.Forall_forall in Hl. apply Ep. by rewrite <- E', Hl.
Qed.
Lemma writer_change_inv s ok temp Xr Xw : inv fnmatch Xr Xw s -> inv fnmatch Xr Xw (add_writer_from_change fnmatch s ok temp).
Proof.
  intros Hi. unfold add_writer_from_change. case_bool_decide as Ep; [done|]. pose proof (inv_wf _ _ _ _ Hi) as Hw.
  destruct (add_writer_spec s _ _ Hw (copy_writer_good s ok temp)) as [->|(s0 & wd & -> & Hset & _)]; [done|].
  assert (Hv : visible s0 (wd_guid temp)) by (right; by rewrite (sr_guid _ _ (ws_rest _ _ _ _ Hset))).
  pose proof (writer_set_inv fnmatch _ _ _ _ _ _ Hset Hi) as H0.
  pose proof (pairing_writer_any_inv fnmatch _ _ wd _ _ H0 (ws_this _ _ _ _ Hset) Hv) as H1.
  eapply inv_weaken; [exact H1| |]; intros e h He HX; [tauto|]. intros [?|E']; [done|].
  destruct (pairing_writer_any_eq s0 wd) as (rs & cs & E1). rewrite E1 in He. simpl in He. rewrite (sr_writers _ _ (ws_rest _ _ _ _ Hset)) in He.
  pose proof (wf_local_writers _ Hw) as Hl. rewrite list.Forall_forall in Hl. apply Ep. by rewrite <- E', Hl.
Qed.

Lemma reader_news_inv s ok n Xr Xw : inv fnmatch Xr Xw s -> (forall g, n = reader_gone g -> guidPrefix g <> guidPrefix (d_guid s)) ->
  inv fnmatch Xr Xw (on_reader_news fnmatch s ok n).
Proof.
  intros Hi Hn. destruct n as [d|g]; [by apply reader_change_inv|]. simpl. pose proof (inv_wf _ _ _ _ Hi) as Hw.
  destruct (remove_reader_spec s g Hw) as [[_ ->]|(s' & ws & cs & -> & Hd & Hset)]; [done|]. eapply reader_removed_inv; [exact Hi| |exact Hd|exact Hset].
  intros e He <-. pose proof (wf_local_readers _ Hw) as Hl. rewrite list.Forall_forall in Hl. by apply (Hn _ eq_refl), Hl.
Qed.
Lemma writer_news_inv s ok n Xr Xw : inv fnmatch Xr Xw s -> (forall g, n = writer_gone g -> guidPrefix g <> guidPrefix (d_guid s)) ->
  inv fnmatch Xr Xw (on_writer_news fnmatch s ok n).
Proof.
  intros Hi Hn. destruct n as [d|g]; [by apply writer_change_inv|]. simpl. pose proof (inv_wf _ _ _ _ Hi) as Hw.
  destruct (remove_writer_spec s g Hw) as [[_ ->]|(s' & rs & cs & -> & Hd & Hset)]; [done|]. eapply writer_removed_inv; [exact Hi| |exact Hd|exact Hset].
  intros e He <-. pose proof (wf_local_writers _ Hw) as Hl. rewrite list.Forall_forall in Hl. by apply (Hn _ eq_refl), Hl.
Qed.

(** ** Participants *)

Lemma participant_found_inv s s' g Xr Xw : inv fnmatch Xr Xw s -> add_participant_proxy_data s g = Some s' ->
  (forall p, p ∈ d_participants s -> prefix_of p <> guidPrefix g) -> guidPrefix g <> guidPrefix c_Guid_Unknown -> inv fnmatch Xr Xw s'.
Proof.
  intros [[(p0 & l0 & Ho & Hg0) Hn Hk Hr Hw Hnr Hnw Hlr Hlw] Ir Iw] E Hfresh Hun. unfold add_participant_proxy_data in E. destruct (_ <? _)%nat; [|done]. injection E as <-.
  assert (Hfind : forall {D} (look : ParticipantProxyData -> option D) h l, look (mkPP g ∅ ∅) = None -> find_in look h (l ++ [mkPP g ∅ ∅]) = find_in look h l).
  { intros D look h l Hl. induction l as [|x l IH]; [simpl; rewrite Hl; by destruct (same_prefix _ _)|]. cbn. by rewrite IH. }
  assert (Hlr' : forall h, lookupReaderProxyData (set_participants s (d_participants s ++ [mkPP g ∅ ∅])) h = lookupReaderProxyData s h).
  { intros h. unfold lookupReaderProxyData. rewrite !find_reader_in. apply Hfind. unfold reader_of. simpl. apply lookup_empty. }
  assert (Hlw' : forall h, lookupWriterProxyData (set_participants s (d_participants s ++ [mkPP g ∅ ∅])) h = lookupWriterProxyData s h).
  { intros h. unfold lookupWriterProxyData. rewrite !find_writer_in. apply Hfind. unfold writer_of. simpl. apply lookup_empty. }
  assert (Hmem : forall p, p ∈ d_participants s ++ [mkPP g ∅ ∅] -> p ∈ d_participants s \/ p = mkPP g ∅ ∅).
  { intros p Hp. apply elem_of_app in Hp as [?|Hp]; [by left|right]. by apply list_elem_of_singleton in Hp. }
  split; [split; try done; simpl| |].
  - rewrite Ho. simpl. eauto.
  - rewrite fmap_app. apply list.NoDup_app. split; [done|]. split; [|apply NoDup_singleton]. intros x Hx ->%list_elem_of_singleton.
    apply list_elem_of_fmap in Hx as (p & Ep & Hp). by apply (Hfresh p Hp).
  - apply Forall_app. split; [done|]. by constructor.
  - intros p i d Hp Hd. destruct (Hmem p Hp) as [Hp'| ->]; [by apply Hr|simpl in Hd; by rewrite lookup_empty in Hd].
  - intros p i d Hp Hd. destruct (Hmem p Hp) as [Hp'| ->]; [by apply Hw|simpl in Hd; by rewrite lookup_empty in Hd].
  - eapply side_weaken; [exact Ir| |].
    + intros e h He HX. split; [done|]. unfold reader_should, compatible. by rewrite Hlr', Hlw'.
    + intros e h He. unfold reader_base. rewrite Hlr', Hlw'. exact id.
  - eapply side_weaken; [exact Iw| |].
    + intros e h He HX. split; [done|]. unfold writer_should, compatible. by rewrite Hlr', Hlw'.
    + intros e h He. unfold writer_base. rewrite Hlr', Hlw'. exact id.
Qed.

(** Several unpairings. *)
Lemma unpair_readers_eq gs : forall s, exists ws cs, fold_left unpairReaderProxy gs s = set_endpoints s (d_readers s) ws cs /\
  each (dropped rpd_guid (fun h => h ∈ gs)) (d_writers s) ws.
Proof.
  induction gs as [|g gs IH]; intros s.
  - exists (d_writers s), (d_calls s). split; [by destruct s|]. eapply each_dropped_ext; [|apply each_dropped_refl]. intros h. rewrite elem_of_nil. done.
  - cbn [fold_left]. destruct (unpair_reader_eq s g) as (ws & cs & -> & Hd). destruct (IH (set_endpoints s (d_readers s) ws cs)) as (ws' & cs' & -> & Hd').
    exists ws', cs'. split; [done|]. eapply each_dropped_ext; [|by eapply each_dropped_trans]. intros h. by rewrite elem_of_cons.
Qed.
Lemma unpair_writers_eq gs by_lease : forall s, exists rs cs, fold_left (fun s g => unpairWriterProxy s g by_lease) gs s = set_endpoints s rs (d_writers s) cs /\
  each (dropped wd_guid (fun h => h ∈ gs)) (d_readers s) rs.
Proof.
  induction gs as [|g gs IH]; intros s.
  - exists (d_readers s), (d_calls s). split; [by destruct s|]. eapply each_dropped_ext; [|apply each_dropped_refl]. intros h. rewrite elem_of_nil. done.
  - cbn [fold_left]. destruct (unpair_writer_eq s g by_lease) as (rs & cs & -> & Hd). destruct (IH (set_endpoints s rs (d_writers s) cs)) as (rs' & cs' & -> & Hd').
    exists rs', cs'. split; [done|]. eapply each_dropped_ext; [|by eapply each_dropped_trans]. intros h. by rewrite elem_of_cons.
Qed.

(** The data without a participant. *)
Lemma without_participant s a p b : wf s -> d_participants s = a ++ p :: b ->
  (forall h, find_reader_data (a ++ b) h = if decide (prefix_of p = guidPrefix h) then None else lookupReaderProxyData s h) /\
  (forall h, find_writer_data (a ++ b) h = if decide (prefix_of p = guidPrefix h) then None else lookupWriterProxyData s h).
Proof.
  intros Hw El. pose proof (wf_prefixes _ Hw) as Hn. rewrite El in Hn.
  assert (Hno : forall h, prefix_of p = guidPrefix h -> forall x, x ∈ a ++ b -> prefix_of x <> guidPrefix h).
  { intros h Eh x Hx Ex. rewrite fmap_app, fmap_cons in Hn. apply list.NoDup_app in Hn as (_ & Hd & Hn). apply list.NoDup_cons in Hn as [Hni _].
    apply elem_of_app in Hx as [Hx|Hx].
    - apply (Hd (prefix_of x)); [by apply list_elem_of_fmap_2|]. rewrite Ex, <- Eh. by left.
    - apply Hni. rewrite Eh, <- Ex. by apply list_elem_of_fmap_2. }
  split; intros h; [rewrite find_reader_in|rewrite find_writer_in]; destruct (decide (prefix_of p = guidPrefix h)) as [Eh|Eh];
    try (apply find_in_absent; by apply Hno); [unfold lookupReaderProxyData; rewrite find_reader_in|unfold lookupWriterProxyData; rewrite find_writer_in];
    rewrite El, find_in_middle by done; by rewrite decide_False.
Qed.

Lemma NoDup_fmap_inj_in {A B} (f : A -> B) l x y : NoDup (f <$> l) -> x ∈ l -> y ∈ l -> f x = f y -> x = y.
Proof.
  induction l as [|z l IH]; intros Hn Hx Hy E; [inversion Hx|]. rewrite fmap_cons in Hn. apply list.NoDup_cons in Hn as [Hz Hn].
  apply elem_of_cons in Hx as [->|Hx], Hy as [->|Hy]; [done| | |by apply IH].
  - destruct Hz. rewrite E. by apply list_elem_of_fmap_2.
  - destruct Hz. rewrite <- E. by apply list_elem_of_fmap_2.
Qed.

Lemma known_keys (l : list GUID_t) h : h <> c_Guid_Unknown -> h ∈ List.filter (fun x => negb (bool_decide (x = c_Guid_Unknown))) l <-> h ∈ l.
Proof.
  intros Hh. rewrite !list_elem_of_In, filter_In, negb_true_iff, bool_decide_eq_false. tauto.
Qed.

(** The endpoints a participant has are those found for its prefix. *)
Lemma participant_readers s p h : wf s -> p ∈ d_participants s ->
  h ∈ rpd_guid ∘ snd <$> map_to_list (pp_readers p) <-> prefix_of p = guidPrefix h /\ is_Some (lookupReaderProxyData s h).
Proof.
  intros Hw Hp. rewrite list_elem_of_fmap. split.
  - intros ([i d] & -> & Hd). apply elem_of_map_to_list in Hd. simpl. rewrite (wf_reader_keys _ Hw p i d Hp Hd). simpl. split; [done|].
    exists d. apply lookup_reader_spec; [done|]. by exists p.
  - intros [Eh [d Hd]]. pose proof (lookup_reader_guid s h d Hw Hd) as [Hg _]. apply lookup_reader_spec in Hd as (p' & Hp' & Ep' & Hd); [|done].
    assert (p' = p) as -> by (eapply (NoDup_fmap_inj_in prefix_of); [by apply Hw|done|done|congruence]).
    exists (entityId h, d). split; [done|]. by apply elem_of_map_to_list.
Qed.
Lemma participant_writers s p h : wf s -> p ∈ d_participants s ->
  h ∈ wd_guid ∘ snd <$> map_to_list (pp_writers p) <-> prefix_of p = guidPrefix h /\ is_Some (lookupWriterProxyData s h).
Proof.
  intros Hw Hp. rewrite list_elem_of_fmap. split.
  - intros ([i d] & -> & Hd). apply elem_of_map_to_list in Hd. simpl. rewrite (wf_writer_keys _ Hw p i d Hp Hd). simpl. split; [done|].
    exists d. apply lookup_writer_spec; [done|]. by exists p.
  - intros [Eh [d Hd]]. pose proof (lookup_writer_guid s h d Hw Hd) as [Hg _]. apply lookup_writer_spec in Hd as (p' & Hp' & Ep' & Hd); [|done].
    assert (p' = p) as -> by (eapply (NoDup_fmap_inj_in prefix_of); [by apply Hw|done|done|congruence]).
    exists (entityId h, d). split; [done|]. by apply elem_of_map_to_list.
Qed.

Lemma pools_inv s pr pw Xr Xw : inv fnmatch Xr Xw s -> inv fnmatch Xr Xw (set_writer_pool (set_reader_pool s pr) pw).
Proof. intros [[] Ir Iw]. split; [by split|exact Ir|exact Iw]. Qed.

Lemma remote_prefix s a p b : wf s -> d_participants s = a ++ p :: b -> pp_guid p <> d_guid s ->
  prefix_of p <> guidPrefix (d_guid s) /\ exists own a', a = own :: a' /\ pp_guid own = d_guid s.
Proof.
  intros Hw El Hne. destruct (wf_own _ Hw) as (own & l & Eo & Eog). pose proof (wf_prefixes _ Hw) as Hn. rewrite El in Eo, Hn.
  destruct a as [|x a]; simpl in Eo; [injection Eo as -> _; congruence|]. injection Eo as -> Eo. split; [|by exists own, a].
  intros E. cbn in Hn. apply list.NoDup_cons in Hn as [Hni _]. apply Hni. unfold prefix_of at 1. rewrite Eog, <- E.
  apply list_elem_of_fmap_2, elem_of_app. right. by left.
Qed.

Lemma without_participant_wf s own a p b rs ws cs : wf s -> d_participants s = (own :: a) ++ p :: b -> pp_guid own = d_guid s ->
  getGuid <$> rs = getGuid <$> d_readers s -> getGuid <$> ws = getGuid <$> d_writers s ->
  wf (set_endpoints (set_participants s ((own :: a) ++ b)) rs ws cs).
Proof.
  intros Hw El Eog Er Ew. apply wf_endpoints; [|done|done].
  assert (Hsub : sublist ((own :: a) ++ b) (d_participants s)) by (rewrite El; by apply sublist_app, sublist_cons).
  assert (Hin : forall x, x ∈ (own :: a) ++ b -> x ∈ d_participants s) by (intros x Hx; by eapply elem_of_sublist).
  destruct Hw as [Ho Hn Hk Hr Hwk Hnr Hnw Hlr Hlw]. split; simpl; try done.
  - by exists own, (a ++ b).
  - eapply sublist_NoDup; [exact Hn|]. exact (sublist_fmap_of prefix_of _ _ Hsub).
  - rewrite list.Forall_forall in *. intros x Hx. by apply Hk, Hin.
  - intros x i d Hx. by apply Hr, Hin.
  - intros x i d Hx. by apply Hwk, Hin.
Qed.

Lemma participant_gone_inv s a p b rs ws cs Pr Pw Xr Xw : inv fnmatch Xr Xw s -> d_participants s = a ++ p :: b -> pp_guid p <> d_guid s ->
  each (dropped wd_guid Pw) (d_readers s) rs -> each (dropped rpd_guid Pr) (d_writers s) ws ->
  (forall h, Pw h <-> prefix_of p = guidPrefix h /\ is_Some (lookupWriterProxyData s h)) ->
  (forall h, Pr h <-> prefix_of p = guidPrefix h /\ is_Some (lookupReaderProxyData s h)) ->
  inv fnmatch Xr Xw (set_endpoints (set_participants s (a ++ b)) rs ws cs).
Proof.
  intros [Hw Ir Iw] El Hne Hdr Hdw HPw HPr. destruct (remote_prefix s a p b Hw El Hne) as (Hloc & own & a' & Ea & Eog).
  destruct (without_participant s a p b Hw El) as [Hfr Hfw]. set (s' := set_endpoints _ _ _ _).
  assert (Hr : forall h, lookupReaderProxyData s' h = if decide (prefix_of p = guidPrefix h) then None else lookupReaderProxyData s h) by exact Hfr.
  assert (Hwr : forall h, lookupWriterProxyData s' h = if decide (prefix_of p = guidPrefix h) then None else lookupWriterProxyData s h) by exact Hfw.
  assert (Hw' : wf s') by (unfold s'; subst a; by eapply without_participant_wf; [| | |eapply dropped_guids|eapply dropped_guids]).
  assert (Hvis : forall h, visible s' h <-> visible s h) by done.
  pose proof (wf_local_readers _ Hw) as Hlr. rewrite list.Forall_forall in Hlr. pose proof (wf_local_writers _ Hw) as Hlw. rewrite list.Forall_forall in Hlw.
  split; [done| |].
  - eapply side_drop; [exact Ir|exact Hdr| |].
    + intros e h He [Eh _]%HPw [(rd & wd & _ & E2 & _) _]. by rewrite Hwr, decide_True in E2.
    + intros e h He Hh. assert (E1 : lookupReaderProxyData s' (getGuid e) = lookupReaderProxyData s (getGuid e)) by (rewrite Hr, decide_False; [done|by rewrite Hlr]).
      assert (E2 : lookupWriterProxyData s' h = lookupWriterProxyData s h).
      { rewrite Hwr. destruct (decide _) as [Eh|]; [|done]. destruct (lookupWriterProxyData s h) eqn:Ed; [|done]. destruct Hh. apply HPw. by rewrite Ed. }
      unfold reader_should, reader_base, compatible. rewrite E1, E2, Hvis. split; [done|exact id].
  - eapply side_drop; [exact Iw|exact Hdw| |].
    + intros e h He [Eh _]%HPr [(rd & wd & E1 & _) _]. by rewrite Hr, decide_True in E1.
    + intros e h He Hh. assert (E1 : lookupWriterProxyData s' (getGuid e) = lookupWriterProxyData s (getGuid e)) by (rewrite Hwr, decide_False; [done|by rewrite Hlw]).
      assert (E2 : lookupReaderProxyData s' h = lookupReaderProxyData s h).
      { rewrite Hr. destruct (decide _) as [Eh|]; [|done]. destruct (lookupReaderProxyData s h) eqn:Ed; [|done]. destruct Hh. apply HPr. by rewrite Ed. }
      unfold writer_should, writer_base, compatible. rewrite E1, E2, Hvis. split; [done|exact id].
Qed.

Lemma participant_lost_inv s g by_lease Xr Xw : inv fnmatch Xr Xw s -> inv fnmatch Xr Xw (remove_remote_participant s g by_lease).2.
Proof.
  intros Hi. pose proof (inv_wf _ _ _ _ Hi) as Hw. unfold remove_remote_participant. case_bool_decide as Eg; [done|].
  destruct (split_at _ (d_participants s)) as [[[a p] b]|] eqn:Es; [|done]. apply split_at_eq in Es as [El Ep]. apply bool_decide_eq_true in Ep.
  assert (Hp : p ∈ d_participants s) by (rewrite El; apply elem_of_app; right; by left).
  destruct (unpair_readers_eq (List.filter (fun x => negb (bool_decide (x = c_Guid_Unknown))) (rpd_guid ∘ snd <$> map_to_list (pp_readers p)))
    (set_participants s (a ++ b))) as (ws & cs & -> & Hdw).
  destruct (unpair_writers_eq (List.filter (fun x => negb (bool_decide (x = c_Guid_Unknown))) (wd_guid ∘ snd <$> map_to_list (pp_writers p))) by_lease
    (set_endpoints (set_participants s (a ++ b)) (d_readers (set_participants s (a ++ b))) ws cs)) as (rs & cs' & -> & Hdr).
  apply pools_inv. eapply (participant_gone_inv s a p b rs ws cs'); [done|done|congruence|exact Hdr|exact Hdw| |]; intros h.
  - rewrite <- (participant_writers s p h Hw Hp). split; intros Hh.
    + apply list_elem_of_In, filter_In in Hh as [Hh _]. by apply list_elem_of_In.
    + apply known_keys; [|done]. apply (participant_writers s p h Hw Hp) in Hh as [_ [d Hd]]. by eapply lookup_writer_guid.
  - rewrite <- (participant_readers s p h Hw Hp). split; intros Hh.
    + apply list_elem_of_In, filter_In in Hh as [Hh _]. by apply list_elem_of_In.
    + apply known_keys; [|done]. apply (participant_readers s p h Hw Hp) in Hh as [_ [d Hd]]. by eapply lookup_reader_guid.
Qed.

(** ** Runs *)

(** The operations, in any order, with the local readers that are open before and
    after.  An endpoint is created before it is registered, and changes between the
    operations of discovery without matching or losing remote ones; the prefix of a
    participant is that of no other one, and nobody else announces the end of an
    endpoint of this participant. *)
Inductive step (U : list GUID_t) s : list GUID_t -> Discovery R W -> Prop :=
| step_create_reader e : (forall h, ~ pairs e h) -> guidPrefix (getGuid e) = guidPrefix (d_guid s) -> getGuid e ∉ getGuid <$> d_readers s ->
    lookupReaderProxyData s (getGuid e) = None -> step U s U (set_endpoints s (d_readers s ++ [e]) (d_writers s) (d_calls s))
| step_create_writer e : (forall h, ~ pairs e h) -> guidPrefix (getGuid e) = guidPrefix (d_guid s) -> getGuid e ∉ getGuid <$> d_writers s ->
    lookupWriterProxyData s (getGuid e) = None -> step U s U (set_endpoints s (d_readers s) (d_writers s ++ [e]) (d_calls s))
| step_reader a e b e' : d_readers s = a ++ e :: b -> getGuid e' = getGuid e -> (unlimited e' <-> unlimited e) -> (forall h, pairs e' h <-> pairs e h) ->
    step U s U (set_endpoints s (a ++ e' :: b) (d_writers s) (d_calls s))
| step_writer a e b e' : d_writers s = a ++ e :: b -> getGuid e' = getGuid e -> (unlimited e' <-> unlimited e) -> (forall h, pairs e' h <-> pairs e h) ->
    step U s U (set_endpoints s (d_readers s) (a ++ e' :: b) (d_calls s))
| step_register_reader g topic qos content_filter ok s' : guidPrefix g = guidPrefix (d_guid s) ->
    new_reader_proxy_data fnmatch s g topic qos content_filter = (ok, s') -> step U s (open_after content_filter g ok U) s'
| step_register_writer g persistence_guid topic qos : guidPrefix g = guidPrefix (d_guid s) ->
    step U s U (new_writer_proxy_data fnmatch s g persistence_guid topic qos).2
| step_update_reader g qos content_filter ok s' : guidPrefix g = guidPrefix (d_guid s) ->
    update_reader fnmatch s g qos content_filter = Some (ok, s') -> step U s (open_after content_filter g ok U) s'
| step_update_writer g qos b s' : guidPrefix g = guidPrefix (d_guid s) -> update_writer fnmatch s g qos = Some (b, s') -> step U s U s'
| step_delete_reader g : guidPrefix g = guidPrefix (d_guid s) -> step U s U (remove_reader s g).2
| step_delete_writer g : guidPrefix g = guidPrefix (d_guid s) -> step U s U (remove_writer s g).2
| step_reader_news ok n : (forall g, n = reader_gone g -> guidPrefix g <> guidPrefix (d_guid s)) -> step U s U (on_reader_news fnmatch s ok n)
| step_writer_news ok n : (forall g, n = writer_gone g -> guidPrefix g <> guidPrefix (d_guid s)) -> step U s U (on_writer_news fnmatch s ok n)
| step_participant_found g s' : (forall p, p ∈ d_participants s -> prefix_of p <> guidPrefix g) -> guidPrefix g <> guidPrefix c_Guid_Unknown ->
    add_participant_proxy_data s g = Some s' -> step U s U s'
| step_participant_lost g by_lease : step U s U (remove_remote_participant s g by_lease).2.

(** A participant that knows itself only. *)
Definition new_participant (g : GUID_t) (match_local : bool) (propagation : TypePropagation) (max : nat) (pr pw : ProxyPool) : Discovery R W :=
  mkDiscovery g match_local propagation max [mkPP g ∅ ∅] pr pw [] [] [] [] [].

Inductive reached : list GUID_t -> Discovery R W -> Prop :=
| reached_new g match_local propagation max pr pw : guidPrefix g <> guidPrefix c_Guid_Unknown ->
    reached [] (new_participant g match_local propagation max pr pw)
| reached_step U s U' s' : reached U s -> step U s U' s' -> reached U' s'.

Lemma created_wf {E D} `{!Endpoint E D} prefix (l : list E) e : NoDup (getGuid <$> l) -> Forall (fun e => guidPrefix (getGuid e) = prefix) l ->
  guidPrefix (getGuid e) = prefix -> getGuid e ∉ getGuid <$> l ->
  NoDup (getGuid <$> l ++ [e]) /\ Forall (fun e => guidPrefix (getGuid e) = prefix) (l ++ [e]).
Proof.
  intros Hn Hl He Hni. split; [|apply Forall_app; split; [done|by constructor]].
  rewrite fmap_app. apply list.NoDup_app. split; [done|]. split; [|apply NoDup_singleton]. by intros x Hx ->%list_elem_of_singleton.
Qed.

Lemma created_side {E D} (key : D -> GUID_t) `{EL : EndpointLaws E D key} should base X (l : list E) e :
  side_inv key should base X l -> (forall h, ~ pairs e h) -> (forall h, ~ should (getGuid e) h) -> side_inv key should base X (l ++ [e]).
Proof.
  intros Hi Hp Hs x Hx h. apply elem_of_app in Hx as [Hx|Hx]; [by apply Hi|]. apply list_elem_of_singleton in Hx as ->.
  split; [|intros Q; by destruct (Hp h)]. intros _. split; [intros Q; by destruct (Hp h)|intros _ Q; by destruct (Hs h)].
Qed.

Lemma changed_side {E D} (key : D -> GUID_t) `{EL : EndpointLaws E D key} should base X (a b : list E) e e' :
  side_inv key should base X (a ++ e :: b) -> getGuid e' = getGuid e -> (unlimited e' <-> unlimited e) -> (forall h, pairs e' h <-> pairs e h) ->
  side_inv key should base X (a ++ e' :: b).
Proof.
  intros Hi Hg Hu Hp x Hx h. apply elem_of_app in Hx as [Hx|Hx]; [apply Hi, elem_of_app; by left|].
  apply elem_of_cons in Hx as [->|Hx]; [|apply Hi, elem_of_app; right; by right]. rewrite Hg, Hu, Hp. apply Hi, elem_of_app. right. by left.
Qed.

Lemma step_inv U s U' s' : invU U s -> step U s U' s' -> invU U' s'.
Proof.
  intros Hi Hs. pose proof (inv_wf _ _ _ _ Hi) as Hw.
  destruct Hs as [e Hp Hg Hni Hd|e Hp Hg Hni Hd|a e b e' El Hg Hu Hp|a e b e' El Hg Hu Hp|g topic qos cf ok s' Hg E|g pg topic qos Hg
    |g qos cf ok s' Hg E|g qos b s' Hg E|g Hg|g Hg|ok n Hn|ok n Hn|g s' Hf Hk E|g l].
  - destruct Hi as [_ Ir Iw]. destruct (created_wf (guidPrefix (d_guid s)) (d_readers s) e) as [Hn Hl]; [by apply Hw..|done|done|].
    split; [destruct Hw; by split| |exact Iw]. apply created_side; [exact Ir|done|]. intros h [(rd & wd & E1 & _) _]. unfold lookupReaderProxyData in *. simpl in E1. congruence.
  - destruct Hi as [_ Ir Iw]. destruct (created_wf (guidPrefix (d_guid s)) (d_writers s) e) as [Hn Hl]; [by apply Hw..|done|done|].
    split; [destruct Hw; by split|exact Ir|]. apply created_side; [exact Iw|done|]. intros h [(rd & wd & _ & E2 & _) _]. unfold lookupWriterProxyData in *. simpl in E2. congruence.
  - destruct Hi as [_ Ir Iw]. split; [|eapply changed_side; [by rewrite <- El|done..]|exact Iw].
    apply wf_endpoints; [done| |done]. rewrite El, !fmap_app, !fmap_cons. by rewrite Hg.
  - destruct Hi as [_ Ir Iw]. split; [|exact Ir|eapply changed_side; [by rewrite <- El|done..]].
    apply wf_endpoints; [done|done|]. rewrite El, !fmap_app, !fmap_cons. by rewrite Hg.
  - pose proof (new_reader_inv U s g topic qos cf Hi Hg) as H. by rewrite E in H.
  - by apply new_writer_inv.
  - by eapply update_reader_inv.
  - by eapply update_writer_inv.
  - by apply delete_reader_inv.
  - by apply delete_writer_inv.
  - by apply reader_news_inv.
  - by apply writer_news_inv.
  - by eapply participant_found_inv.
  - by apply participant_lost_inv.
Qed.

Lemma discovery_inv U s : reached U s -> invU U s.
Proof.
  induction 1 as [g ml tp mx pr pw Hg|U s U' s' _ IH Hs]; [|by eapply step_inv].
  split; [split; simpl| |]; try (by constructor); try (by intros e He; inversion He); try apply NoDup_singleton.
  - by exists (mkPP g ∅ ∅), [].
  - intros p i d ->%list_elem_of_singleton E. simpl in E. by rewrite lookup_empty in E.
  - intros p i d ->%list_elem_of_singleton. simpl. by rewrite lookup_empty.
Qed.

(** A participant keeps its identifier. *)
Lemma add_reader_guid s g init : d_guid (addReaderProxyData s g init).1 = d_guid s.
Proof. unfold addReaderProxyData. by repeat case_match. Qed.
Lemma add_writer_guid s g init : d_guid (addWriterProxyData s g init).1 = d_guid s.
Proof. unfold addWriterProxyData. by repeat case_match. Qed.
Lemma remove_reader_guid s g : d_guid (removeReaderProxyData s g).2 = d_guid s.
Proof. unfold removeReaderProxyData, unpairReaderProxy. by repeat case_match. Qed.
Lemma remove_writer_guid s g : d_guid (removeWriterProxyData s g).2 = d_guid s.
Proof. unfold removeWriterProxyData, unpairWriterProxy. by repeat case_match. Qed.
Lemma reader_paired_guid s (b : bool) g rd :
  d_guid (pairingReader fnmatch (if b then pairing_reader_proxy_with_any_local_writer fnmatch s rd else s) g rd) = d_guid s.
Proof.
  destruct (pairing_reader_any_eq s rd) as (ws & cs & E).
  destruct (pairingReader_eq (if b then pairing_reader_proxy_with_any_local_writer fnmatch s rd else s) g rd) as (rs & cs' & ->). rewrite E. by destruct b.
Qed.
Lemma writer_paired_guid s (b : bool) g wd :
  d_guid (pairingWriter fnmatch (if b then pairing_writer_proxy_with_any_local_reader fnmatch s wd else s) g wd) = d_guid s.
Proof.
  destruct (pairing_writer_any_eq s wd) as (ws & cs & E).
  destruct (pairingWriter_eq (if b then pairing_writer_proxy_with_any_local_reader fnmatch s wd else s) g wd) as (rs & cs' & ->). rewrite E. by destruct b.
Qed.

Lemma step_guid U s U' s' : step U s U' s' -> d_guid s' = d_guid s.
Proof.
  destruct 1 as [| | | |g topic qos cf ok s' _ E|g pg topic qos _|g qos cf ok s' _ E|g qos b s' _ E|g _|g _|ok n _|ok n _|g s' _ _ E|g l]; try done.
  - unfold new_reader_proxy_data in E. pose proof (add_reader_guid s g (init_new_reader s g topic qos cf)) as Ha. destruct (addReaderProxyData _ _ _) as [s0 [rd|]]; [|by injection E as _ <-].
    injection E as _ <-. unfold process_reader_proxy_data. simpl. by rewrite reader_paired_guid.
  - unfold new_writer_proxy_data. pose proof (add_writer_guid s g (init_new_writer s g pg topic qos)) as Ha. destruct (addWriterProxyData _ _ _) as [s0 [wd|]]; [|done].
    unfold process_writer_proxy_data. simpl. by rewrite writer_paired_guid.
  - unfold update_reader in E. destruct (lookupReaderProxyData s g); [|done]. pose proof (add_reader_guid s g (init_updated_reader qos cf)) as Ha.
    destruct (addReaderProxyData _ _ _) as [s0 [rd|]]; injection E as _ <-; [by rewrite reader_paired_guid|done].
  - unfold update_writer in E. destruct (lookupWriterProxyData s g); [|done]. pose proof (add_writer_guid s g (init_updated_writer qos)) as Ha.
    destruct (addWriterProxyData _ _ _) as [s0 [wd|]]; injection E as _ <-; [by rewrite writer_paired_guid|done].
  - unfold remove_reader. by rewrite remove_reader_guid.
  - unfold remove_writer. by rewrite remove_writer_guid.
  - destruct n as [d|g]; [|apply remove_reader_guid]. cbn [on_reader_news]. unfold add_reader_from_change. case_bool_decide; [done|].
    match goal with |- context [addReaderProxyData ?a ?b ?c] => pose proof (add_reader_guid a b c) as Ha; destruct (addReaderProxyData a b c) as [s0 [rd|]] end; [|done].
    by destruct (pairing_reader_any_eq s0 rd) as (ws & cs & ->).
  - destruct n as [d|g]; [|apply remove_writer_guid]. cbn [on_writer_news]. unfold add_writer_from_change. case_bool_decide; [done|].
    match goal with |- context [addWriterProxyData ?a ?b ?c] => pose proof (add_writer_guid a b c) as Ha; destruct (addWriterProxyData a b c) as [s0 [wd|]] end; [|done].
    by destruct (pairing_writer_any_eq s0 wd) as (rs & cs & ->).
  - unfold add_participant_proxy_data in E. destruct (_ <? _)%nat; [|done]. by injection E as <-.
  - unfold remove_remote_participant. case_bool_decide; [done|]. destruct (split_at _ _) as [[[a p] b]|]; [|done]. simpl.
    match goal with |- context [fold_left unpairReaderProxy ?gs ?x] => destruct (unpair_readers_eq gs x) as (ws & cs & -> & _) end.
    match goal with |- context [fold_left (fun s g => unpairWriterProxy s g ?l) ?gs ?x] => destruct (unpair_writers_eq gs l x) as (rs & cs' & -> & _) end. done.
Qed.

(** Only local readers are open. *)
Lemma open_local U s : reached U s -> forall g, g ∈ U -> guidPrefix g = guidPrefix (d_guid s).
Proof.
  induction 1 as [|U s U' s' Hr IH Hs]; intros x Hx; [inversion Hx|]. pose proof (inv_wf _ _ _ _ (discovery_inv U s Hr)) as Hw.
  assert (E : d_guid s' = d_guid s) by (by eapply step_guid).
  rewrite E. destruct Hs as [| | | |g topic qos cf ok s' Hg _| |g qos cf ok s' Hg _| | | | | | |]; try (by apply IH);
    unfold open_after, decided_of in Hx; destruct ok; try (destruct (filter_ok cf)); try (by apply IH);
    try (apply list_elem_of_filter in Hx as [_ Hx]; by apply IH); (apply elem_of_cons in Hx as [->|Hx]; [done|by apply IH]).
Qed.

End Runs.
