(* ===== verification/StatelessReader.v ===== *)
(** * The best-effort reader

    Models [Fast-DDS/src/cpp/rtps/reader/StatelessReader.cpp]: the matched writers,
    the reception of DATA and DATA_FRAG messages, what is notified and counted as
    lost, and the access to the history.  Writers are remote: none is in this
    process or shares memory with the reader.

    What the filter of the reader says and whether the pools have room are
    arguments, as in [StatefulReader.v]; what the liveliness manager answers to a
    removal is left out.  [debug] says whether assertions are compiled; without
    them the code goes on, but for the end iterator, which it may not read.  A
    collection without a limit has no maximum.

    It begins with [ReaderHistoryState]
    ([Fast-DDS/src/cpp/rtps/reader/ReaderHistoryState.hpp]) and the operations of
    [BaseReader.cpp] on it: the number that was notified last of every writer.
    Writers that share a persistence identifier share the record, which stays as
    long as one of them is matched; the count of them has 16 bits.

    Every sample is notified once and in the order of its writer
    ([each_sample_once_in_order]); the samples lost are counted when whole samples
    arrive ([lost_and_found]), but not when fragments of a sample that was overtaken
    are dropped ([overtaken_fragments_miscounted]).  Samples of a writer with the
    unknown entity are taken by every reader for which no trusted writer was set ([unknown_entity_is_trusted]). *)

From Stdlib Require Import Sorted.
From stdpp Require Import gmap.
From S2P Require Import Prelude FastBuffer SequenceNumber WriterProxy CdrMessage Fragments FragmentsSpec ParameterList ReaderProxy ReaderHistory LimitedVector Liveliness Matching.

#[export] Instance GUID_t_countable : Countable GUID_t.
Proof. apply (inj_countable' (fun g => (guidPrefix g, entityId g)) (fun p => mkGUID p.1 p.2)). by intros []. Defined.

Record ReaderHistoryState := mkHS {
  persistence_guid_map : gmap GUID_t GUID_t;
  persistence_guid_count : gmap GUID_t Z;
  history_record_ : gmap GUID_t SequenceNumber_t
}.

Section HistoryRecord.
Implicit Types (h : ReaderHistoryState) (g p : GUID_t) (s : SequenceNumber_t).

Definition set_record h rec : ReaderHistoryState := mkHS (persistence_guid_map h) (persistence_guid_count h) rec.

Definition guid_to_look h g : GUID_t := default g (persistence_guid_map h !! g).

Definition record_of_writer h g : SequenceNumber_t := default (mkSN 0 0) (history_record_ h !! guid_to_look h g).

(** [update_last_notified] returns what was notified before, also when that is
    not less. *)
Definition record_update h g s : SequenceNumber_t * ReaderHistoryState :=
  let ret_val := record_of_writer h g in
  (ret_val, if sn_ltb ret_val s then set_record h (<[guid_to_look h g := s]> (history_record_ h)) else h).

Definition count_writer h p (d : Z) : gmap GUID_t Z := <[p := u16 (default 0 (persistence_guid_count h !! p) + d)]> (persistence_guid_count h).

Definition add_persistence_guid h g p : ReaderHistoryState :=
  if bool_decide (p = c_Guid_Unknown) || bool_decide (p = g) then
    mkHS (<[g := g]> (persistence_guid_map h)) (count_writer h g 1) (history_record_ h)
  else
    let h := mkHS (<[g := p]> (persistence_guid_map h)) (count_writer h p 1) (history_record_ h) in
    match history_record_ h !! g with
    | Some s => let h := (record_update h g s).2 in set_record h (delete g (history_record_ h))
    | None => h
    end.

Definition remove_persistence_guid h g p (removed_by_lease : bool) : ReaderHistoryState :=
  let stored := if bool_decide (p = c_Guid_Unknown) then g else p in
  let counts := count_writer h stored (-1) in
  let m := delete g (persistence_guid_map h) in
  if bool_decide (default 0 (counts !! stored) = 0) && negb removed_by_lease then mkHS m (delete stored counts) (delete stored (history_record_ h))
  else mkHS m counts (history_record_ h).

(** ** Laws *)

Lemma update_returns h g s : (record_update h g s).1 = record_of_writer h g.
Proof. done. Qed.

Lemma update_record h g s : record_of_writer (record_update h g s).2 g = if sn_ltb (record_of_writer h g) s then s else record_of_writer h g.
Proof.
  unfold record_update. simpl. destruct (sn_ltb _ _) eqn:E; [|done].
  unfold record_of_writer, guid_to_look. simpl. by rewrite lookup_insert_eq.
Qed.

Lemma update_map h g s : persistence_guid_map (record_update h g s).2 = persistence_guid_map h.
Proof. unfold record_update. simpl. by destruct (sn_ltb _ _). Qed.

(** Writers of another identifier keep their record. *)
Lemma update_other h g s g' : guid_to_look h g' <> guid_to_look h g -> record_of_writer (record_update h g s).2 g' = record_of_writer h g'.
Proof.
  intros Hne. unfold record_update. simpl. destruct (sn_ltb _ _); [|done]. unfold record_of_writer, guid_to_look in *. simpl.
  by rewrite lookup_insert_ne.
Qed.

End HistoryRecord.

(** * The reader *)

Record RemoteWriterInfo_t := mkRW {
  rw_guid : GUID_t;
  rw_persistence_guid : GUID_t;
  rw_has_manual_topic_liveliness : bool;
  rw_fragmented_change : option InChange;
  rw_ownership_strength : Z
}.

(** The calls of the listener, of the history and of the liveliness manager. *)
Inductive WriterDiscoveryStatus := DISCOVERED_WRITER | CHANGED_QOS_WRITER | REMOVED_WRITER | IGNORED_WRITER.
Inductive ReaderCall :=
| on_writer_discovery (status : WriterDiscoveryStatus) (g : GUID_t)
| on_sample_lost (n : Z)
| on_data_available (g : GUID_t) (s : SequenceNumber_t) (strength : Z)
| writer_update_its_ownership_strength_nts (g : GUID_t) (strength : Z)
| sub_liveliness_add (g : GUID_t)
| sub_liveliness_remove (g : GUID_t)
| sub_liveliness_assert (g : GUID_t).

(** [sl_notified] is what [on_data_notify] has been called for. *)
Record StatelessReader := mkSLR {
  sl_guid : GUID_t;
  sl_exclusive : bool;
  sl_finite_lease : bool;
  sl_listener : bool;
  sl_trusted : EntityId_t;
  sl_limit : option Z;
  sl_accept_unknown : bool;
  sl_writers : list RemoteWriterInfo_t;
  sl_history : ReaderHistory;
  sl_unread : Z;
  sl_record : ReaderHistoryState;
  sl_calls : list ReaderCall;
  sl_notified : list (GUID_t * SequenceNumber_t)
}.

Implicit Types (r : StatelessReader) (w : RemoteWriterInfo_t) (g : GUID_t) (s : SequenceNumber_t) (c : InChange).

Definition sl_set_writers r (unknown : bool) l : StatelessReader := mkSLR (sl_guid r) (sl_exclusive r) (sl_finite_lease r) (sl_listener r)
  (sl_trusted r) (sl_limit r) unknown l (sl_history r) (sl_unread r) (sl_record r) (sl_calls r) (sl_notified r).
Definition sl_set_history r h (unread : Z) : StatelessReader := mkSLR (sl_guid r) (sl_exclusive r) (sl_finite_lease r) (sl_listener r)
  (sl_trusted r) (sl_limit r) (sl_accept_unknown r) (sl_writers r) h unread (sl_record r) (sl_calls r) (sl_notified r).
Definition sl_set_record r rec : StatelessReader := mkSLR (sl_guid r) (sl_exclusive r) (sl_finite_lease r) (sl_listener r)
  (sl_trusted r) (sl_limit r) (sl_accept_unknown r) (sl_writers r) (sl_history r) (sl_unread r) rec (sl_calls r) (sl_notified r).
Definition sl_set_calls r calls : StatelessReader := mkSLR (sl_guid r) (sl_exclusive r) (sl_finite_lease r) (sl_listener r)
  (sl_trusted r) (sl_limit r) (sl_accept_unknown r) (sl_writers r) (sl_history r) (sl_unread r) (sl_record r) calls (sl_notified r).
Definition sl_set_notified r l : StatelessReader := mkSLR (sl_guid r) (sl_exclusive r) (sl_finite_lease r) (sl_listener r)
  (sl_trusted r) (sl_limit r) (sl_accept_unknown r) (sl_writers r) (sl_history r) (sl_unread r) (sl_record r) (sl_calls r) l.

(** The constructor; until a trusted writer is set it has the unknown entity. *)
Definition stateless_reader_new g (exclusive finite_lease listener : bool) (limit : option Z) (accept_unknown : bool) (h : ReaderHistory) : StatelessReader :=
  mkSLR g exclusive finite_lease listener [0; 0; 0; 0] limit accept_unknown [] h 0 (mkHS ∅ ∅ ∅) [] [].
Definition set_trusted_writer r (writer : EntityId_t) : StatelessReader := mkSLR (sl_guid r) (sl_exclusive r) (sl_finite_lease r) (sl_listener r)
  writer (sl_limit r) false (sl_writers r) (sl_history r) (sl_unread r) (sl_record r) (sl_calls r) (sl_notified r).
(** [None]: the assertion fails. *)
Definition allow_unknown_writers r : option StatelessReader :=
  if bool_decide (sl_trusted r = [0; 0; 0; 0]) then None
  else Some (mkSLR (sl_guid r) (sl_exclusive r) (sl_finite_lease r) (sl_listener r) (sl_trusted r) (sl_limit r) true (sl_writers r)
    (sl_history r) (sl_unread r) (sl_record r) (sl_calls r) (sl_notified r)).

(** A call that is made when the condition holds. *)
Definition call_if (b : bool) r (x : ReaderCall) : StatelessReader := if b then sl_set_calls r (sl_calls r ++ [x]) else r.

Definition is_writer g w : bool := bool_decide (rw_guid w = g).
Definition writer_info r g : option RemoteWriterInfo_t := List.find (is_writer g) (sl_writers r).

(** ** Matched writers *)

(** The first entry of the writer, replaced. *)
Fixpoint set_info g (f : RemoteWriterInfo_t -> RemoteWriterInfo_t) (l : list RemoteWriterInfo_t) : list RemoteWriterInfo_t :=
  match l with
  | [] => []
  | w :: l => if is_writer g w then f w :: l else w :: set_info g f l
  end.

Definition set_strength (strength : Z) w : RemoteWriterInfo_t :=
  mkRW (rw_guid w) (rw_persistence_guid w) (rw_has_manual_topic_liveliness w) (rw_fragmented_change w) strength.
Definition set_fragmented (c : option InChange) w : RemoteWriterInfo_t :=
  mkRW (rw_guid w) (rw_persistence_guid w) (rw_has_manual_topic_liveliness w) c (rw_ownership_strength w).

Definition stateless_writer_add_edp r (wdata : WriterProxyData) : bool * StatelessReader :=
  let g := wd_guid wdata in
  let strength := wq_strength (wd_qos wdata) in
  match writer_info r g with
  | Some w =>
      let r := call_if (sl_exclusive r && negb (rw_ownership_strength w =? strength)) r (writer_update_its_ownership_strength_nts g strength) in
      let r := sl_set_writers r (sl_accept_unknown r) (set_info g (set_strength strength) (sl_writers r)) in
      (false, call_if (sl_listener r) r (on_writer_discovery CHANGED_QOS_WRITER g))
  | None =>
      if match sl_limit r with Some n => n <=? zlen (sl_writers r) | None => false end then (false, r)
      else
        let w := mkRW g (wd_persistence_guid wdata) (bool_decide (wq_liveliness (wd_qos wdata) = MANUAL_BY_TOPIC_LIVELINESS)) None strength in
        let r := sl_set_record r (add_persistence_guid (sl_record r) g (wd_persistence_guid wdata)) in
        let r := sl_set_writers r false (sl_writers r ++ [w]) in
        let r := call_if (sl_finite_lease r) r (sub_liveliness_add g) in
        (true, call_if (sl_listener r) r (on_writer_discovery DISCOVERED_WRITER g))
  end.

(** [change_removed_by_history] *)
Definition stateless_change_removed r c : StatelessReader :=
  if negb (in_read c) && (0 <? sl_unread r) then sl_set_history r (sl_history r) (sl_unread r - 1) else r.

Definition stateless_writer_remove r g (removed_by_lease : bool) : bool * StatelessReader :=
  let gone := filter (fun c => in_writer c = g) (r_changes (sl_history r)) in
  let r := fold_left stateless_change_removed gone (sl_set_history r (remove_changes_with_guid (sl_history r) g) (sl_unread r)) in
  match writer_info r g with
  | Some w =>
      let r := sl_set_record r (remove_persistence_guid (sl_record r) g (rw_persistence_guid w) removed_by_lease) in
      let r := sl_set_writers r (sl_accept_unknown r) (snd (erase_if (is_writer g) (sl_writers r))) in
      let r := call_if (sl_listener r) r (on_writer_discovery REMOVED_WRITER g) in
      (true, call_if (sl_finite_lease r) r (sub_liveliness_remove g))
  | None => (false, r)
  end.

Definition stateless_writer_is_matched r g : bool := existsb (is_writer g) (sl_writers r).
Definition matched_writers_guids r : list GUID_t := map rw_guid (sl_writers r).

Definition stateless_accept r g (kind_alive : bool) : bool :=
  if kind_alive && (sl_accept_unknown r || bool_decide (entityId g = sl_trusted r)) then true else existsb (is_writer g) (sl_writers r).

Definition writer_has_manual_liveliness r g : bool := match writer_info r g with Some w => rw_has_manual_topic_liveliness w | None => false end.

Definition stateless_assert_liveliness r g : StatelessReader := call_if (sl_finite_lease r) r (sub_liveliness_assert g).

(** ** What was notified *)

Definition thereIsUpperRecordOf r g s : bool := sn_geb (record_of_writer (sl_record r) g) s.
Definition stateless_update_last r g s : StatelessReader := sl_set_record r (record_update (sl_record r) g s).2.

(** ** Reception *)

Section Reception.
Context `{P : Platform}.
Variable debug : bool.

(** [assert(b)] *)
Definition checked {A} (b : bool) (k : option A) : option A := if debug && negb b then None else k.

(** The samples between the one notified before and this one: [d] of them less. *)
Definition lost_samples (previous_seq s : SequenceNumber_t) (d : Z) : Z := to_int32_max (u64 (to64long (sn_sub s previous_seq) - d)).

Definition stateless_change_received r c : option (bool * StatelessReader) :=
  let g := in_writer c in
  let seq := in_seq c in
  if thereIsUpperRecordOf r g seq then Some (false, r)
  else
    let looked_for := sl_exclusive r || bool_decide (sl_trusted r = entityId g) in
    let writer := if looked_for then writer_info r g else None in
    let update_notified := if looked_for then match writer with Some _ => true | None => false end else true in
    strength ← (if sl_exclusive r then rw_ownership_strength <$> writer else Some (2 ^ 32 - 1));
    let '(added, h) := history_add_change (sl_history r) c in
    if added then
      let r := sl_set_history r h (u64 (sl_unread r + 1)) in
      let previous_seq := if update_notified then record_of_writer (sl_record r) g else mkSN 0 0 in
      let r := if update_notified then stateless_update_last r g seq else r in
      let r := sl_set_notified r (sl_notified r ++ [(g, seq)]) in
      if sl_listener r then
        r ← (if negb (sn_eqb (mkSN 0 0) previous_seq) then
               checked (sn_ltb previous_seq seq)
                 (let lost := lost_samples previous_seq seq 1 in Some (call_if (0 <? lost) r (on_sample_lost lost)))
             else Some r);
        Some (true, sl_set_calls r (sl_calls r ++ [on_data_available g seq strength]))
      else Some (true, r)
    else Some (false, r).

(** [relevant] is the answer of the data filter, [room] says whether the pools
    have a change and a payload. *)
Definition stateless_process_data r c (kind_alive relevant room : bool) : option (bool * StatelessReader) :=
  let g := in_writer c in
  if stateless_accept r g kind_alive then
    '(ret, r) ←
      (if thereIsUpperRecordOf r g (in_seq c) then Some (true, r)
       else
         let '(can, never) := can_change_be_added_nts (sl_history r) g (payload_length (in_body c)) in
         if negb can then Some (false, if never then stateless_update_last r g (in_seq c) else r)
         else if negb relevant then Some (true, stateless_update_last r g (in_seq c))
         else if negb room then Some (false, r)
         else stateless_change_received r c);
    Some (ret, stateless_assert_liveliness r g)
  else Some (true, r).

(** *** Fragments *)

(** A change that is to be put together, in the memory [m]. *)
Definition begin_assembly c (m : list Z) (sampleSize : Z) : option InChange :=
  b ← setFragmentSize (mkChange m sampleSize 0 0 0) (fragment_size_ (in_body c)) true;
  Some (mkIn (in_writer c) (in_seq c) (in_time c) b (in_read c)).

(** A pending change of a smaller number is dropped; its memory is used again when
    the sample fits. *)
Definition drop_pending r c (sampleSize : Z) (work_change : option InChange) : option (StatelessReader * option InChange) :=
  match work_change with
  | Some p =>
      if sn_ltb (in_seq p) (in_seq c) then
        let g := in_writer c in
        let updated_seq := in_seq p in
        let previous_seq := record_of_writer (sl_record r) g in
        let r := stateless_update_last r g updated_seq in
        r ← (if sl_listener r && negb (sn_eqb (mkSN 0 0) previous_seq) then
               checked (sn_ltb previous_seq updated_seq)
                 (let lost := lost_samples previous_seq updated_seq 0 in
                  checked (0 <? lost) (Some (sl_set_calls r (sl_calls r ++ [on_sample_lost lost]))))
             else Some r);
        if sampleSize <=? zlen (payload (in_body p)) then
          work ← begin_assembly c (payload (in_body p)) sampleSize;
          Some (r, Some work)
        else Some (r, None)
      else Some (r, Some p)
  | None => Some (r, None)
  end.

Definition reserve_work c (sampleSize : Z) (memory : option (list Z)) : option (option InChange) :=
  match memory with
  | Some m => if zlen m <? sampleSize then Some None else work ← begin_assembly c m sampleSize; Some (Some work)
  | None => Some None
  end.

Definition stateless_process_frag (fuel : nat) r c (sampleSize fragmentStartingNum fragmentsInSubmessage : Z)
    (relevant : bool) (memory : option (list Z)) : option (bool * StatelessReader) :=
  let g := in_writer c in
  match writer_info r g with
  | None => Some (true, r)
  | Some w =>
      '(ret, r) ←
        (if thereIsUpperRecordOf r g (in_seq c) then Some (true, r)
         else if match rw_fragmented_change w with Some p => sn_gtb (in_seq p) (in_seq c) | None => false end then Some (true, r)
         else
           let '(can, never) := can_change_be_added_nts (sl_history r) g sampleSize in
           if negb can then Some (false, if never then stateless_update_last r g (in_seq c) else r)
           else
             '(r, work) ← drop_pending r c sampleSize (rw_fragmented_change w);
             work ← (match work with Some p => Some (Some p) | None => reserve_work c sampleSize memory end);
             '(completed, work) ←
               (match work with
                | Some p =>
                    '(done, b) ← add_fragments fuel (in_body p) (payload (in_body c)) (payload_length (in_body c)) fragmentStartingNum fragmentsInSubmessage;
                    let p := mkIn (in_writer p) (in_seq p) (in_time p) b (in_read p) in
                    Some (if done : bool then (Some p, None) else (None, Some p))
                | None => Some (None, None)
                end);
             let r := sl_set_writers r (sl_accept_unknown r) (set_info g (set_fragmented work) (sl_writers r)) in
             match completed with
             | Some p =>
                 if negb relevant then Some (true, stateless_update_last r (in_writer p) (in_seq p))
                 else '(_, r) ← stateless_change_received r p; Some (true, r)
             | None => Some (true, r)
             end);
      Some (ret, stateless_assert_liveliness r g)
  end.

End Reception.

(** ** Access *)

Definition stateless_next_untaken r : option InChange := head (r_changes (sl_history r)).
Definition stateless_next_unread r : option InChange := List.find (fun c => negb (in_read c)) (r_changes (sl_history r)).

(** [end_sample_access_nts] of the change at an index. *)
Definition stateless_end_access r (i : nat) (mark_as_read : bool) : StatelessReader :=
  match r_changes (sl_history r) !! i with
  | Some c =>
      if mark_as_read && negb (in_read c) then
        let h := sl_history r in
        let c := mkIn (in_writer c) (in_seq c) (in_time c) (in_body c) true in
        sl_set_history r (set_r_changes h (<[i := c]> (r_changes h)) (r_isHistoryFull h)) (if 0 <? sl_unread r then sl_unread r - 1 else sl_unread r)
      else r
  | None => r
  end.

(** * What the best-effort reader promises *)

(** ** Order *)

Definition sn_lt (a b : SequenceNumber_t) : Prop := sn_ltb a b = true.
Definition sn_le (a b : SequenceNumber_t) : Prop := sn_ltb b a = false.

Lemma sn_lt_lex a b : sn_lt a b <-> high a < high b \/ high a = high b /\ low a < low b.
Proof. unfold sn_lt, sn_ltb. destruct (Z.eqb_spec (high a) (high b)); rewrite Z.ltb_lt; lia. Qed.
Lemma sn_le_lex a b : sn_le a b <-> high a < high b \/ high a = high b /\ low a <= low b.
Proof. unfold sn_le, sn_ltb. destruct (Z.eqb_spec (high b) (high a)); rewrite Z.ltb_ge; lia. Qed.
Lemma sn_geb_lex a b : sn_geb a b = false <-> sn_lt a b.
Proof. rewrite sn_lt_lex. unfold sn_geb. rewrite !Z.geb_leb, Z.gtb_ltb. destruct (Z.eqb_spec (high a) (high b)); rewrite ?Z.leb_gt, ?Z.ltb_ge; lia. Qed.

Ltac sn_order := rewrite ?sn_lt_lex, ?sn_le_lex in *; lia.

Lemma sn_le_refl a : sn_le a a.
Proof. sn_order. Qed.
#[export] Hint Resolve sn_le_refl : core.

(** The record of a writer does not go back. *)
Lemma update_mono h g s g' : sn_le (record_of_writer h g') (record_of_writer (record_update h g s).2 g').
Proof.
  destruct (decide (guid_to_look h g' = guid_to_look h g)) as [E|E]; [|by rewrite update_other].
  unfold record_of_writer at 1. rewrite E. fold (record_of_writer h g).
  assert (E' : record_of_writer (record_update h g s).2 g' = record_of_writer (record_update h g s).2 g).
  { unfold record_of_writer, guid_to_look in *. by rewrite update_map, E. }
  rewrite E', update_record. destruct (sn_ltb _ _) eqn:El; [|done]. change (sn_lt (record_of_writer h g) s) in El. sn_order.
Qed.

Lemma update_reaches h g s : sn_le s (record_of_writer (record_update h g s).2 g).
Proof. rewrite update_record. destruct (sn_ltb _ _) eqn:E; [done|exact E]. Qed.

(** ** Steps *)

(** The numbers of a writer among those notified. *)
Definition numbers_of g (l : list (GUID_t * SequenceNumber_t)) : list SequenceNumber_t := (filter (fun x => x.1 = g) l).*2.

(** A writer whose samples are always recorded. *)
Definition recorded (r : StatelessReader) g : Prop := sl_exclusive r = true \/ sl_trusted r <> entityId g.

Record progress (r r' : StatelessReader) : Prop := mkProgress {
  pr_exclusive : sl_exclusive r' = sl_exclusive r;
  pr_trusted : sl_trusted r' = sl_trusted r;
  pr_record g : sn_le (record_of_writer (sl_record r) g) (record_of_writer (sl_record r') g);
  pr_notified : exists new, sl_notified r' = sl_notified r ++ new /\ forall g, recorded r g ->
    StronglySorted sn_lt (numbers_of g new) /\
    Forall (fun s => sn_lt (record_of_writer (sl_record r) g) s /\ sn_le s (record_of_writer (sl_record r') g)) (numbers_of g new)
}.

Lemma numbers_of_app g l1 l2 : numbers_of g (l1 ++ l2) = numbers_of g l1 ++ numbers_of g l2.
Proof. unfold numbers_of. by rewrite list.filter_app, fmap_app. Qed.

Lemma StronglySorted_app_lt (l1 l2 : list SequenceNumber_t) m : StronglySorted sn_lt l1 -> StronglySorted sn_lt l2 ->
  Forall (fun s => sn_le s m) l1 -> Forall (fun s => sn_lt m s) l2 -> StronglySorted sn_lt (l1 ++ l2).
Proof.
  intros H1 H2 F1 F2. induction H1 as [|x l1 H1 IH Hx]; [done|]. apply Forall_cons_1 in F1 as [Fx F1]. simpl. constructor; [by apply IH|].
  apply Forall_app. split; [done|]. eapply list.Forall_impl; [exact F2|]. intros y Hy. simpl in Hy. sn_order.
Qed.

Lemma progress_refl r : progress r r.
Proof. split; try done. exists []. split; [by rewrite app_nil_r|]. intros g _. split; constructor. Qed.

Lemma progress_trans r1 r2 r3 : progress r1 r2 -> progress r2 r3 -> progress r1 r3.
Proof.
  intros [E1 T1 R1 (n1 & N1 & S1)] [E2 T2 R2 (n2 & N2 & S2)]. split; [congruence|congruence|..].
  - intros g. specialize (R1 g). specialize (R2 g). sn_order.
  - exists (n1 ++ n2). split; [by rewrite N2, N1, app_assoc|]. intros g Hg.
    assert (Hg2 : recorded r2 g) by (unfold recorded in *; by rewrite E1, T1). destruct (S1 g Hg) as [A1 B1], (S2 g Hg2) as [A2 B2].
    rewrite numbers_of_app. specialize (R1 g). specialize (R2 g). split.
    + eapply (StronglySorted_app_lt _ _ (record_of_writer (sl_record r2) g)); [done|done|..]; (eapply list.Forall_impl; [eassumption|]); by intros s [].
    + apply Forall_app. split; (eapply list.Forall_impl; [eassumption|]); intros s [Ha Hb]; split; sn_order.
Qed.

(** What is not the record or what was notified does not count. *)
Lemma progress_rest r r' : sl_exclusive r' = sl_exclusive r -> sl_trusted r' = sl_trusted r -> sl_record r' = sl_record r ->
  sl_notified r' = sl_notified r -> progress r r'.
Proof.
  intros E T R N. split; [done|done|intros g; by rewrite R|]. exists []. split; [by rewrite app_nil_r|]. intros g _. split; constructor.
Qed.

Lemma progress_update r g s : progress r (stateless_update_last r g s).
Proof.
  split; [done|done|intros g'; apply update_mono|]. exists []. split; [by simpl; rewrite app_nil_r|]. intros g' _. split; constructor.
Qed.

Lemma progress_call b r x : progress r (call_if b r x).
Proof. destruct b; [by apply progress_rest|apply progress_refl]. Qed.

(** A sample is notified. *)
Lemma progress_sample r h u g s (update_notified : bool) : sn_lt (record_of_writer (sl_record r) g) s -> (recorded r g -> update_notified = true) ->
  let r1 := sl_set_history r h u in let r2 := if update_notified then stateless_update_last r1 g s else r1 in
  progress r (sl_set_notified r2 (sl_notified r2 ++ [(g, s)])).
Proof.
  intros Hlt Hu r1 r2.
  assert (Hm : forall g', sn_le (record_of_writer (sl_record r) g') (record_of_writer (sl_record r2) g')) by (intros g'; unfold r2; destruct update_notified; [apply update_mono|done]).
  split; [by unfold r2; destruct update_notified|by unfold r2; destruct update_notified|exact Hm|].
  exists [(g, s)]. split; [by unfold r2; destruct update_notified|]. intros g' Hg'. unfold numbers_of. simpl.
  destruct (decide (g = g')) as [<-|Hne].
  - rewrite filter_cons_True by done. simpl. split; [repeat constructor|]. constructor; [|constructor]. split; [done|]. unfold r2. rewrite (Hu Hg'). apply update_reaches.
  - rewrite filter_cons_False by done. split; constructor.
Qed.

Section Reception.
Context `{P : Platform}.
Variable debug : bool.

Lemma checked_Some {A} b (k : option A) x : checked debug b k = Some x -> k = Some x /\ (debug = true -> b = true).
Proof. unfold checked. destruct debug, b; simpl; try done; intros ->; done. Qed.

Lemma change_received_progress r c b r' : stateless_change_received debug r c = Some (b, r') -> progress r r'.
Proof.
  unfold stateless_change_received, thereIsUpperRecordOf. destruct (sn_geb _ _) eqn:Eu; [intros [= <- <-]; apply progress_refl|].
  apply sn_geb_lex in Eu. set (g := in_writer c) in *. set (looked_for := sl_exclusive r || _). set (writer := if looked_for then _ else None).
  set (update_notified := if looked_for then _ else true).
  destruct (if sl_exclusive r then _ else _) as [strength|] eqn:Es; [|done]. simpl.
  assert (Hu : recorded r g -> update_notified = true).
  { unfold update_notified, recorded, writer, looked_for in *. destruct (sl_exclusive r); simpl in *; [by destruct (writer_info r g)|].
    intros [?|Hne]; [done|]. by rewrite bool_decide_eq_false_2. }
  destruct (history_add_change (sl_history r) c) as [added h]. destruct added; [|intros [= <- <-]; apply progress_refl].
  pose proof (progress_sample r h (u64 (sl_unread r + 1)) g (in_seq c) update_notified Eu Hu) as Hp. cbv zeta in Hp.
  set (r2 := sl_set_notified _ _) in *. destruct (sl_listener _); [|intros [= <- <-]; exact Hp].
  destruct (negb _).
  - unfold checked. destruct (debug && _); [done|]. simpl. intros [= <- <-]. eapply progress_trans; [exact Hp|].
    eapply progress_trans; [apply progress_call|by apply progress_rest].
  - simpl. intros [= <- <-]. eapply progress_trans; [exact Hp|by apply progress_rest].
Qed.

Lemma process_data_progress r c alive relevant room b r' : stateless_process_data debug r c alive relevant room = Some (b, r') -> progress r r'.
Proof.
  unfold stateless_process_data. destruct (stateless_accept r (in_writer c) alive); [|intros [= <- <-]; apply progress_refl].
  match goal with |- mbind _ ?x = _ -> _ => destruct x as [[b1 r1]|] eqn:E; [|done] end.
  simpl. intros [= <- <-]. eapply progress_trans; [|apply progress_call]. revert E.
  destruct (thereIsUpperRecordOf _ _ _); [intros [= <- <-]; apply progress_refl|].
  destruct (can_change_be_added_nts _ _ _) as [can never]. destruct can; simpl.
  - destruct relevant; simpl; [|intros [= <- <-]; apply progress_update]. destruct room; simpl; [apply change_received_progress|intros [= <- <-]; apply progress_refl].
  - intros [= <- <-]. destruct never; [apply progress_update|apply progress_refl].
Qed.

Lemma drop_pending_progress r c size work r' work' : drop_pending debug r c size work = Some (r', work') -> progress r r'.
Proof.
  unfold drop_pending. destruct work as [p|]; [|intros [= <- <-]; apply progress_refl]. destruct (sn_ltb _ _); [|intros [= <- <-]; apply progress_refl].
  set (r1 := stateless_update_last r _ _). pose proof (progress_update r (in_writer c) (in_seq p)) as H1. fold r1 in H1.
  match goal with |- mbind _ ?x = _ -> _ => destruct x as [r2|] eqn:E; [|done] end. simpl.
  assert (H2 : progress r r2).
  { eapply progress_trans; [exact H1|]. destruct (_ && _); [|injection E as <-; apply progress_refl].
    apply checked_Some in E as [E _]. apply checked_Some in E as [[= <-] _]. by apply progress_rest. }
  destruct (size <=? _).
  - destruct (begin_assembly _ _ _); [|done]. simpl. by intros [= <- <-].
  - by intros [= <- <-].
Qed.

Lemma process_frag_progress fuel r c size start n relevant memory b r' :
  stateless_process_frag debug fuel r c size start n relevant memory = Some (b, r') -> progress r r'.
Proof.
  unfold stateless_process_frag. destruct (writer_info r (in_writer c)) as [w|]; [|intros [= <- <-]; apply progress_refl].
  match goal with |- mbind _ ?x = _ -> _ => destruct x as [[b1 r1]|] eqn:E; [|done] end.
  simpl. intros [= <- <-]. eapply progress_trans; [|apply progress_call]. revert E.
  destruct (thereIsUpperRecordOf _ _ _); [intros [= <- <-]; apply progress_refl|].
  destruct (match rw_fragmented_change w with Some _ => _ | None => false end); [intros [= <- <-]; apply progress_refl|].
  destruct (can_change_be_added_nts _ _ _) as [can never]. destruct can; simpl.
  2:{ intros [= <- <-]. destruct never; [apply progress_update|apply progress_refl]. }
  destruct (drop_pending _ _ _ _ _) as [[r2 work]|] eqn:Ed; [|done]. apply drop_pending_progress in Ed. simpl.
  match goal with |- mbind _ ?x = _ -> _ => destruct x as [work2|]; [|done] end. simpl.
  match goal with |- mbind _ ?x = _ -> _ => destruct x as [[completed work3]|]; [|done] end. simpl.
  set (r3 := sl_set_writers r2 _ _). assert (H3 : progress r r3) by (eapply progress_trans; [exact Ed|by apply progress_rest]).
  destruct completed as [p|]; [|by intros [= <- <-]].
  destruct relevant; simpl; [|intros [= <- <-]; eapply progress_trans; [exact H3|apply progress_update]].
  destruct (stateless_change_received debug r3 p) as [[b3 r4]|] eqn:Er; [|done]. simpl. intros [= <- <-].
  eapply progress_trans; [exact H3|]. by eapply change_received_progress.
Qed.

(** ** Runs *)

(** The messages of any writers. *)
Inductive ReaderMessage :=
| data_message (c : InChange) (kind_alive relevant room : bool)
| frag_message (fuel : nat) (c : InChange) (size start n : Z) (relevant : bool) (memory : option (list Z)).

Definition receive r (m : ReaderMessage) : option StatelessReader :=
  match m with
  | data_message c kind_alive relevant room => snd <$> stateless_process_data debug r c kind_alive relevant room
  | frag_message fuel c size start n relevant memory => snd <$> stateless_process_frag debug fuel r c size start n relevant memory
  end.

Fixpoint receive_all r (ms : list ReaderMessage) : option StatelessReader :=
  match ms with
  | [] => Some r
  | m :: ms => r ← receive r m; receive_all r ms
  end.

Lemma receive_progress r m r' : receive r m = Some r' -> progress r r'.
Proof.
  destruct m; simpl.
  - destruct (stateless_process_data _ _ _ _ _ _) as [[b r1]|] eqn:E; [|done]. intros [= <-]. by eapply process_data_progress.
  - destruct (stateless_process_frag _ _ _ _ _ _ _ _ _) as [[b r1]|] eqn:E; [|done]. intros [= <-]. by eapply process_frag_progress.
Qed.

Lemma receive_all_progress ms : forall r r', receive_all r ms = Some r' -> progress r r'.
Proof.
  induction ms as [|m ms IH]; intros r r'; simpl; [intros [= <-]; apply progress_refl|].
  destruct (receive r m) as [r1|] eqn:E; [|done]. simpl. intros Hr. eapply progress_trans; [by eapply receive_progress|by apply IH].
Qed.

(** *** Every message is handled *)

(** The sample of a writer's number, and the size of its fragments. *)
Variable content : GUID_t -> SequenceNumber_t -> list Z * Z.

(** A sample whose last fragment has room for the link that is kept in it. *)
Definition linkable (x : list Z * Z) : Prop := fits x.1 x.2 (zlen x.1).

(** A message of a sample: with exclusive ownership its writer is matched; fragments
    are those of the content, and no assertion looks at what they take the place
    of. *)
Definition handled r (m : ReaderMessage) : Prop :=
  match m with
  | data_message c _ _ _ => sl_exclusive r = true -> is_Some (writer_info r (in_writer c))
  | frag_message fuel c size start n _ _ => let x := content (in_writer c) (in_seq c) in
      debug = false /\ linkable x /\ size = zlen x.1 /\ fragment_size_ (in_body c) = x.2 /\
      fm_ok x.1 x.2 (mkFragMsg start n (payload (in_body c)) (payload_length (in_body c))) /\ (Z.to_nat (n_fragments x.2 (zlen x.1)) <= fuel)%nat
  end.

(** What a writer has sent in part. *)
Definition in_work g (p : InChange) : Prop := in_writer p = g /\ let x := content g (in_seq p) in
  linkable x /\ exists M, assembling x.1 x.2 (in_body p) M.
Definition pending r : Prop := forall w p, w ∈ sl_writers r -> rw_fragmented_change w = Some p -> in_work (rw_guid w) p.

Lemma in_work_fits x b M : linkable x -> assembling x.1 x.2 b M -> (length M <= Z.to_nat (n_fragments x.2 (zlen x.1)))%nat.
Proof.
  intros _ [_ _ _ _ _ _ [Hs Hf] _]. set (cnt := n_fragments _ _) in *.
  assert (Hn : NoDup M) by (clear Hf; induction Hs as [|y M _ IH Hy]; constructor; [|done]; intros Hin; rewrite list.Forall_forall in Hy; specialize (Hy y Hin); lia).
  rewrite <- (length_upto 0 (Z.to_nat cnt)). apply submseteq_length, NoDup_submseteq; [done|]. intros y Hy. rewrite list.Forall_forall in Hf. apply elem_of_upto. specialize (Hf y Hy). lia.
Qed.

Lemma begin_in_work c m size : let x := content (in_writer c) (in_seq c) in
  linkable x -> size = zlen x.1 -> fragment_size_ (in_body c) = x.2 -> size <= zlen m -> exists p, begin_assembly c m size = Some p /\ in_work (in_writer c) p /\ in_seq p = in_seq c.
Proof.
  intros x Hx -> Ef Hm. pose proof Hx as (H1 & H2 & H3 & _ & H4). unfold begin_assembly. rewrite Ef.
  destruct (start_assembling x.1 x.2 (mkChange m (zlen x.1) 0 0 0)) as (b & -> & As & _); [split_and!; simpl; (done || lia)|done|].
  eexists. split; [done|]. split; [|done]. split; [done|]. simpl. split; [exact Hx|by eexists].
Qed.

Lemma set_info_in g f l w : w ∈ set_info g f l -> w ∈ l \/ exists v, v ∈ l /\ rw_guid v = g /\ w = f v.
Proof.
  induction l as [|v l IH]; [by left|]. cbn [set_info]. unfold is_writer at 1. case_bool_decide as E; rewrite !elem_of_cons.
  - intros [->|?]; [right; exists v; split; [by left|done]|left; by right].
  - intros [->|H]; [left; by left|]. destruct (IH H) as [?|(v' & ? & ? & ?)]; [left; by right|right; exists v'; split; [by right|done]].
Qed.

Lemma set_info_guids g f l : (forall w, rw_guid (f w) = rw_guid w) -> map rw_guid (set_info g f l) = map rw_guid l.
Proof. intros Hf. induction l as [|w l IH]; [done|]. simpl. destruct (is_writer g w); simpl; [by rewrite Hf|by rewrite IH]. Qed.

Lemma writer_info_same r r' g : map rw_guid (sl_writers r') = map rw_guid (sl_writers r) -> is_Some (writer_info r' g) <-> is_Some (writer_info r g).
Proof.
  assert (H : forall l, is_Some (List.find (is_writer g) l) <-> g ∈ map rw_guid l).
  { induction l as [|v l IH]; simpl; [split; [by intros []|intros H; inversion H]|]. unfold is_writer at 1. rewrite elem_of_cons. case_bool_decide as E.
    - split; [left; congruence|by eexists].
    - rewrite IH. split; [by right|]. intros [?|?]; [congruence|done]. }
  intros E. unfold writer_info. by rewrite !H, E.
Qed.

Record kept (r r' : StatelessReader) : Prop := mkKept {
  kp_exclusive : sl_exclusive r' = sl_exclusive r;
  kp_guids : map rw_guid (sl_writers r') = map rw_guid (sl_writers r);
  kp_pending : pending r -> pending r'
}.

Lemma stays_refl r : kept r r.
Proof. by split. Qed.
Lemma stays_trans r1 r2 r3 : kept r1 r2 -> kept r2 r3 -> kept r1 r3.
Proof. intros [] []. split; [congruence|congruence|auto]. Qed.
Lemma stays_rest r r' : sl_exclusive r' = sl_exclusive r -> sl_writers r' = sl_writers r -> kept r r'.
Proof. intros He Hw. split; [done|by rewrite Hw|]. unfold pending. by rewrite Hw. Qed.
Lemma stays_call b r x : kept r (call_if b r x).
Proof. destruct b; by apply stays_rest. Qed.

Lemma change_received_total r c : (sl_exclusive r = true -> is_Some (writer_info r (in_writer c))) ->
  exists b r', stateless_change_received debug r c = Some (b, r') /\ kept r r'.
Proof.
  intros Hw. unfold stateless_change_received. destruct (thereIsUpperRecordOf r (in_writer c) (in_seq c)) eqn:Eu; [eexists _, _; split; [done|apply stays_refl]|].
  apply sn_geb_lex in Eu. set (g := in_writer c) in *. set (looked_for := sl_exclusive r || _). set (writer := if looked_for then _ else None).
  set (update_notified := if looked_for then _ else true).
  assert (exists strength, (if sl_exclusive r then rw_ownership_strength <$> writer else Some (2 ^ 32 - 1)) = Some strength) as [strength ->].
  { unfold writer, looked_for. destruct (sl_exclusive r); [|by eexists]. simpl. destruct (Hw eq_refl) as [w ->]. by eexists. }
  cbn [mbind option_bind]. destruct (history_add_change (sl_history r) c) as [added h]. destruct added; [|eexists _, _; split; [done|apply stays_refl]].
  set (r1 := if update_notified then _ else _). assert (H1 : kept r r1) by (unfold r1; destruct update_notified; by apply stays_rest).
  set (r2 := sl_set_notified r1 _). assert (H2 : kept r r2) by (eapply stays_trans; [exact H1|by apply stays_rest]).
  destruct (sl_listener r2); [|eexists _, _; split; [done|exact H2]]. destruct (negb _) eqn:Ez.
  - assert (Hu : update_notified = true) by (destruct update_notified; [done|by vm_compute in Ez]). rewrite Hu. unfold checked. simpl.
    unfold sn_lt in Eu. rewrite Eu, andb_false_r. cbn [mbind option_bind]. eexists _, _. split; [done|].
    eapply stays_trans; [exact H2|]. eapply stays_trans; [apply stays_call|by apply stays_rest].
  - cbn [mbind option_bind]. eexists _, _. split; [done|]. eapply stays_trans; [exact H2|by apply stays_rest].
Qed.

Lemma process_data_total r c alive relevant room : (sl_exclusive r = true -> is_Some (writer_info r (in_writer c))) ->
  exists b r', stateless_process_data debug r c alive relevant room = Some (b, r') /\ kept r r'.
Proof.
  intros Hw. unfold stateless_process_data. destruct (stateless_accept r (in_writer c) alive); [|eexists _, _; split; [done|apply stays_refl]].
  match goal with |- exists b r', mbind _ ?x = _ /\ _ => assert (exists b r', x = Some (b, r') /\ kept r r') as (b & r' & -> & Hk) end.
  { destruct (thereIsUpperRecordOf _ _ _); [eexists _, _; split; [done|apply stays_refl]|].
    destruct (can_change_be_added_nts _ _ _) as [[] never]; simpl; [|destruct never; eexists _, _; (split; [done|]); by apply stays_rest].
    destruct relevant; simpl; [|eexists _, _; split; [done|by apply stays_rest]]. destruct room; simpl; [by apply change_received_total|eexists _, _; split; [done|apply stays_refl]]. }
  simpl. eexists _, _. split; [done|]. eapply stays_trans; [exact Hk|apply stays_call].
Qed.

Lemma drop_pending_total r c size work : debug = false -> let x := content (in_writer c) (in_seq c) in
  linkable x -> size = zlen x.1 -> fragment_size_ (in_body c) = x.2 -> (forall p, work = Some p -> in_work (in_writer c) p /\ sn_gtb (in_seq p) (in_seq c) = false) ->
  exists r' work', drop_pending debug r c size work = Some (r', work') /\ kept r r' /\ forall p, work' = Some p -> in_work (in_writer c) p /\ in_seq p = in_seq c.
Proof.
  intros Hd x Hx Hs Hf Hp. unfold drop_pending. destruct work as [p|]; [|eexists r, None; split; [done|]; split; [apply stays_refl|done]].
  destruct (Hp p eq_refl) as [Hw Hg]. destruct (sn_ltb (in_seq p) (in_seq c)) eqn:El.
  - unfold checked. rewrite Hd. cbn [andb]. set (r1 := stateless_update_last r _ _). assert (H1 : kept r r1) by (by apply stays_rest).
    match goal with |- exists r' (x' : option InChange), mbind _ ?x = _ /\ _ => assert (exists r2, x = Some r2 /\ kept r r2) as (r2 & -> & H2) end.
    { destruct (_ && _); eexists; (split; [done|]); [|exact H1]. eapply stays_trans; [exact H1|by apply stays_rest]. }
    cbn [mbind option_bind]. destruct (Z.leb_spec size (zlen (payload (in_body p)))) as [Hle|_]; [|eexists r2, None; by split].
    destruct (begin_in_work c (payload (in_body p)) size Hx Hs Hf Hle) as (q & -> & Hq & Eq). eexists r2, (Some q). split; [done|]. split; [done|]. by intros ? [= <-].
  - eexists r, (Some p). split; [done|]. split; [apply stays_refl|]. intros ? [= <-]. split; [done|].
    unfold sn_ltb, sn_gtb in *. destruct (in_seq p) as [h1 l1], (in_seq c) as [h2 l2]. simpl in *. rewrite !Z.gtb_ltb in Hg.
    destruct (Z.eqb_spec h1 h2); [f_equal; [done|]|]; apply Z.ltb_ge in El, Hg; lia.
Qed.

Lemma process_frag_total fuel r c size start n relevant memory : pending r -> handled r (frag_message fuel c size start n relevant memory) ->
  exists b r', stateless_process_frag debug fuel r c size start n relevant memory = Some (b, r') /\ kept r r'.
Proof.
  intros Hp (Hd & Hx & Hs & Hf & Hm & Hfuel). set (x := content (in_writer c) (in_seq c)) in *. unfold stateless_process_frag.
  set (g := in_writer c) in *. destruct (writer_info r g) as [w|] eqn:Ew; [|eexists _, _; split; [done|apply stays_refl]].
  assert (Hw : w ∈ sl_writers r /\ rw_guid w = g).
  { apply find_some in Ew as [Hin E]. split; [by apply list_elem_of_In|]. by apply bool_decide_eq_true in E. }
  match goal with |- exists b r', mbind _ ?x = _ /\ _ => assert (exists b r', x = Some (b, r') /\ kept r r') as (b & r' & -> & Hk) end.
  2:{ simpl. eexists _, _. split; [done|]. eapply stays_trans; [exact Hk|apply stays_call]. }
  destruct (thereIsUpperRecordOf _ _ _); [eexists _, _; split; [done|apply stays_refl]|].
  destruct (match rw_fragmented_change w with Some p => _ | None => false end) eqn:Egt; [eexists _, _; split; [done|apply stays_refl]|].
  destruct (can_change_be_added_nts _ _ _) as [[] never]; simpl; [|destruct never; eexists _, _; (split; [done|]); by apply stays_rest].
  destruct (drop_pending_total r c size (rw_fragmented_change w) Hd Hx Hs Hf) as (r1 & work & -> & Hk1 & Hw1).
  { intros p Ep. rewrite Ep in Egt. split; [|done]. destruct Hw as [Hin Eg]. fold g. rewrite <- Eg. by apply (Hp w p). }
  cbn [mbind option_bind].
  assert (exists work2, match work with Some p => Some (Some p) | None => reserve_work c size memory end = Some work2 /\
    forall p, work2 = Some p -> in_work g p /\ in_seq p = in_seq c) as (work2 & -> & Hw2).
  { destruct work as [p|]; [by eexists|]. unfold reserve_work. destruct memory as [m|]; [|by eexists]. destruct (Z.ltb_spec (zlen m) size) as [|Hge]; [by eexists|].
    destruct (begin_in_work c m size Hx Hs Hf Hge) as (q & -> & Hq & Eq). eexists. split; [done|]. by intros ? [= <-]. }
  cbn [mbind option_bind].
  match goal with |- exists b r', mbind _ ?y = _ /\ _ => assert (exists completed work3, y = Some (completed, work3) /\
    (forall p, work3 = Some p -> in_work g p) /\ (forall p, completed = Some p -> in_writer p = g)) as (completed & work3 & -> & Hw3 & Hc3) end.
  { destruct work2 as [p|]; [|by eexists _, _]. destruct (Hw2 p eq_refl) as [[Hg [_ (M & As)]] Eq]. rewrite Eq in As. fold x in As.
    destruct (add_one_spec x.1 x.2 (mkFragMsg start n (payload (in_body c)) (payload_length (in_body c))) (in_body p) M fuel As) as (b & ch & E & As' & _);
      [apply Hx|apply Hx|done|etransitivity; [by eapply in_work_fits|done]|]. simpl in E. rewrite E. cbn [mbind option_bind].
    destruct b; eexists _, _; (split; [done|]); split; intros ? [= <-]; [done|]. split; [done|]. simpl. rewrite Eq. fold x. split; [done|by eexists]. }
  cbn [mbind option_bind]. set (r2 := sl_set_writers r1 _ _). assert (Hk2 : kept r r2).
  { eapply stays_trans; [exact Hk1|]. destruct Hk1 as [_ _ Hp1]. split; [done|by apply set_info_guids|]. intros _ v p Hv Ep. simpl in Hv.
    apply set_info_in in Hv as [Hv|(v' & Hv & Eg & ->)]; [by apply (Hp1 Hp)|]. simpl in *. rewrite Eg. by apply Hw3. }
  destruct completed as [p|]; [|by eexists _, _]. destruct relevant; simpl; [|eexists _, _; split; [done|]; eapply stays_trans; [exact Hk2|by apply stays_rest]].
  destruct (change_received_total r2 p) as (b & r3 & -> & Hk3).
  { intros _. rewrite (Hc3 p eq_refl). apply (writer_info_same r r2 g (kp_guids _ _ Hk2)). by eexists. }
  simpl. eexists _, _. split; [done|]. by eapply stays_trans.
Qed.

Lemma handled_kept r r' m : kept r r' -> handled r m -> handled r' m.
Proof. intros [E1 E2 _]. destruct m; [|done]. simpl. rewrite E1, (writer_info_same r r') by done. done. Qed.

Lemma receive_all_total ms : forall r, pending r -> Forall (handled r) ms -> exists r', receive_all r ms = Some r' /\ kept r r'.
Proof.
  induction ms as [|m ms IH]; intros r Hp Hms; [exists r; split; [done|apply stays_refl]|]. apply Forall_cons_1 in Hms as [Hm Hms].
  assert (exists r1, receive r m = Some r1 /\ kept r r1) as (r1 & E & Hk).
  { destruct m; simpl.
    - destruct (process_data_total r c kind_alive relevant room Hm) as (b & r1 & -> & Hk). by exists r1.
    - destruct (process_frag_total fuel r c size start n relevant memory Hp Hm) as (b & r1 & -> & Hk). by exists r1. }
  cbn [receive_all]. rewrite E. cbn [mbind option_bind]. destruct (IH r1) as (r2 & E2 & Hk2); [by apply Hk|eapply list.Forall_impl; [exact Hms|]; intros x; by apply handled_kept|].
  exists r2. split; [done|]. by eapply stays_trans.
Qed.


(** ** The samples that are lost *)

Definition lost_total (l : list ReaderCall) : Z := foldr (fun x n => match x with on_sample_lost k => k + n | _ => n end) 0 l.

Lemma lost_total_app l1 l2 : lost_total (l1 ++ l2) = lost_total l1 + lost_total l2.
Proof. induction l1 as [|x l1 IH]; [done|]. simpl. rewrite IH. destruct x; lia. Qed.

Lemma lost_samples_val a b d : sn_valid a -> sn_valid b -> 0 <= d <= 1 -> sn_val a + d <= sn_val b -> sn_val b - sn_val a <= INT32_MAX ->
  lost_samples a b d = sn_val b - sn_val a - d.
Proof.
  intros [Oa Va] [Ob Vb] Hd Hab Hm. unfold lost_samples, to_int32_max, INT32_MAX in *.
  assert (E : sn_valid (sn_sub b a) /\ sn_val (sn_sub b a) = sn_val b - sn_val a).
  { unfold sn_valid, sn_ok, sn_val, sn_sub, u32 in *. destruct a as [ha la], b as [hb lb]. simpl in *.
    destruct (Z.ltb_spec lb la); simpl; [replace ((lb - la) mod 2 ^ 32) with (lb - la + 2 ^ 32) by (rewrite <- (Z_mod_plus_full (lb - la) 1), Z.mod_small; lia)|rewrite Z.mod_small by lia]; lia. }
  destruct E as [Ev Es]. rewrite to64long_val, Es by done. unfold u64. rewrite Z.mod_small by lia. destruct (Z.gtb_spec (sn_val b - sn_val a - d) (2 ^ 31 - 1)); lia.
Qed.

(** A reader that takes every whole sample of a writer that fits. *)
Record listens (r : StatelessReader) g : Prop := mkListens {
  li_listener : sl_listener r = true;
  li_recorded : is_Some (writer_info r g) \/ sl_exclusive r = false /\ sl_trusted r <> entityId g;
  li_accepts : stateless_accept r g true = true;
  li_known : g <> c_Guid_Unknown;
  li_valid : sn_valid (record_of_writer (sl_record r) g)
}.

Definition whole_sample (c : InChange) : ReaderMessage := data_message c true true true.

Definition sample_fits r c : Prop := r_preallocated (sl_history r) = true -> payload_length (in_body c) <= r_payloadMaxSize (sl_history r).

(** The number samples are counted from: the last one notified, or the one before the
    first that arrives. *)
Definition counted_from (last : SequenceNumber_t) (cs : list InChange) : Z :=
  if sn_val last =? 0 then match cs with c :: _ => sn_val (in_seq c) - 1 | [] => 0 end else sn_val last.

Lemma assert_liveliness_rest r g : let r' := stateless_assert_liveliness r g in
  lost_total (sl_calls r') = lost_total (sl_calls r) /\ sl_record r' = sl_record r /\ sl_notified r' = sl_notified r /\ sl_history r' = sl_history r /\
  (listens r g -> listens r' g).
Proof.
  unfold stateless_assert_liveliness, call_if. destruct (sl_finite_lease r); [|done]. simpl. rewrite lost_total_app. simpl.
  split; [lia|]. do 3 (split; [done|]). intros []. by split.
Qed.

Lemma whole_sample_step r c g : listens r g -> in_writer c = g -> sample_fits r c -> sn_valid (in_seq c) -> 0 < sn_val (in_seq c) ->
  sn_val (in_seq c) - counted_from (record_of_writer (sl_record r) g) [c] <= INT32_MAX ->
  exists r' new, receive r (whole_sample c) = Some r' /\ listens r' g /\ sl_notified r' = sl_notified r ++ new /\
    (forall x, sample_fits r x -> sample_fits r' x) /\
    sn_val (record_of_writer (sl_record r') g) = Z.max (sn_val (record_of_writer (sl_record r) g)) (sn_val (in_seq c)) /\
    zlen new + lost_total (sl_calls r') = lost_total (sl_calls r) + sn_val (record_of_writer (sl_record r') g) - counted_from (record_of_writer (sl_record r) g) [c].
Proof.
  intros HL <- Hfit [Co Cv] Hpos Hm. pose proof HL as [Ll Lr La Lk [Lo Lv]]. set (g := in_writer c) in *. set (last := record_of_writer (sl_record r) g) in *.
  unfold counted_from in *. cbn [whole_sample receive]. unfold stateless_process_data, thereIsUpperRecordOf. fold g last. rewrite La. rewrite sn_geb_val by done.
  destruct (Z.leb_spec (sn_val (in_seq c)) (sn_val last)) as [Hle|Hlt].
  - simpl. eexists _, []. split; [done|]. destruct (assert_liveliness_rest r g) as (-> & -> & -> & Eh & Hl). fold last.
    split; [by apply Hl|]. split; [by rewrite app_nil_r|]. split; [unfold sample_fits; by rewrite Eh|].
    rewrite (proj2 (Z.eqb_neq _ _)), Z.max_l by lia. unfold zlen. simpl. lia.
  - assert (Hroom : r_preallocated (sl_history r) && (payload_length (in_body c) >? r_payloadMaxSize (sl_history r)) = false).
    { unfold sample_fits in Hfit. destruct (r_preallocated _); [|done]. rewrite Z.gtb_ltb. by apply Z.ltb_ge, Hfit. }
    unfold can_change_be_added_nts. rewrite Hroom, bool_decide_eq_false_2 by done. simpl.
    unfold stateless_change_received, thereIsUpperRecordOf. fold g last. rewrite sn_geb_val by done. destruct (Z.leb_spec (sn_val (in_seq c)) (sn_val last)); [lia|].
    set (looked_for := sl_exclusive r || _). set (writer := if looked_for then _ else None). set (update_notified := if looked_for then _ else true).
    assert (update_notified = true /\ exists k, (if sl_exclusive r then rw_ownership_strength <$> writer else Some (2 ^ 32 - 1)) = Some k) as [-> [k ->]].
    { unfold update_notified, writer, looked_for. destruct Lr as [[w Ew]|[Ls Lt]].
      - rewrite Ew. destruct (sl_exclusive r); simpl; [by split; [|eexists]|]. destruct (bool_decide _); by split; [|eexists].
      - rewrite Ls, bool_decide_eq_false_2 by done. by split; [|eexists]. }
    simpl. unfold history_add_change. rewrite Hroom. rewrite Ll. fold last. set (h := set_r_changes _ _ _). set (u := u64 _).
    set (r1 := sl_set_notified _ _). assert (Hp : sn_ltb last (in_seq c) = true) by (rewrite sn_ltb_val by done; by apply Z.ltb_lt).
    assert (E1 : record_of_writer (sl_record r1) g = in_seq c) by (pose proof (update_record (sl_record r) g (in_seq c)) as E; fold last in E; by rewrite Hp in E).
    set (lost := if sn_val last =? 0 then 0 else sn_val (in_seq c) - sn_val last - 1).
    assert (exists r2, (if negb (sn_eqb (mkSN 0 0) last) then checked debug (sn_ltb last (in_seq c)) 
      (Some (call_if (0 <? lost_samples last (in_seq c) 1) r1 (on_sample_lost (lost_samples last (in_seq c) 1)))) else Some r1) = Some r2 /\ sl_record r2 = sl_record r1 /\ sl_notified r2 = sl_notified r1 /\
      sl_history r2 = h /\ lost_total (sl_calls r2) = lost_total (sl_calls r) + lost /\ listens r2 g) as (r2 & Er & E2 & E3 & E4 & E5 & HL2).
    { assert (HL1 : listens r1 g) by (split; try done; by rewrite E1).
      rewrite sn_eqb_val by (done || (split; simpl; lia)). change (sn_val (mkSN 0 0)) with 0. rewrite Z.eqb_sym. unfold lost. destruct (Z.eqb_spec (sn_val last) 0) as [E0|E0].
      - exists r1. do 4 (split; [done|]). split; [simpl; lia|done].
      - simpl. rewrite Hp. unfold checked. rewrite andb_false_r, (lost_samples_val last (in_seq c) 1) by (done || lia). eexists. split; [done|]. unfold call_if.
        destruct (Z.ltb_spec 0 (sn_val (in_seq c) - sn_val last - 1)); [|do 3 (split; [done|]); split; [simpl; lia|done]].
        do 3 (split; [done|]). split; [simpl; rewrite lost_total_app; simpl; lia|]. by destruct HL1. }
    rewrite Er. cbn [mbind option_bind fmap option_fmap option_map snd]. eexists _, _. split; [reflexivity|].
    match goal with |- listens (stateless_assert_liveliness ?x g) g /\ _ => set (r3 := x); destruct (assert_liveliness_rest r3 g) as (-> & -> & -> & Eh & Hl) end.
    assert (E6 : record_of_writer (sl_record r3) g = in_seq c) by (by unfold r3; simpl; rewrite E2).
    split; [apply Hl; destruct HL2; by split|]. split; [unfold r3; simpl; by rewrite E3|].
    split; [unfold sample_fits; rewrite Eh; unfold r3; simpl; by rewrite E4|]. rewrite E6. split; [lia|].
    assert (E7 : lost_total (sl_calls r3) = lost_total (sl_calls r2)) by (unfold r3; simpl; rewrite lost_total_app; simpl; lia). rewrite E7, E5. unfold zlen, lost. simpl.
    destruct (Z.eqb_spec (sn_val last) 0); lia.
Qed.

(** C10: when whole samples of a writer that fit arrive at a best-effort reader with a
    listener, in whatever order and how often, no assertion fails, and every number
    up to the last one notified - from the last one notified before, or from the first
    sample that arrives when there was none - has either been notified or been
    counted as lost, once.  The writer is matched, or the reader needs no match
    and is not told to trust it; the numbers are less than 2^31 apart. *)
Theorem lost_and_found cs : forall r g, listens r g -> Forall (fun c => in_writer c = g /\ sample_fits r c /\ sn_valid (in_seq c) /\ 0 < sn_val (in_seq c) /\
    sn_val (in_seq c) - counted_from (record_of_writer (sl_record r) g) cs <= INT32_MAX) cs ->
  exists r' new, receive_all r (map whole_sample cs) = Some r' /\ sl_notified r' = sl_notified r ++ new /\
    zlen new + (lost_total (sl_calls r') - lost_total (sl_calls r)) =
      sn_val (record_of_writer (sl_record r') g) - counted_from (record_of_writer (sl_record r) g) cs.
Proof.
  induction cs as [|c cs IH]; intros r g Hl Hcs.
  - exists r, []. split; [done|]. split; [by rewrite app_nil_r|]. unfold zlen, counted_from. simpl. destruct (Z.eqb_spec (sn_val (record_of_writer (sl_record r) g)) 0); lia.
  - apply Forall_cons_1 in Hcs as [(Hg & Hfit & Hv & Hpos & Hm) Hcs]. destruct (whole_sample_step r c g Hl Hg Hfit Hv Hpos Hm) as (r1 & n1 & E1 & L1 & N1 & F1 & R1 & S1).
    assert (Hv1 : 0 <= sn_val (record_of_writer (sl_record r) g)) by apply Hl.
    assert (Hc1 : forall l, counted_from (record_of_writer (sl_record r1) g) l = sn_val (record_of_writer (sl_record r1) g)).
    { intros l. unfold counted_from. by rewrite (proj2 (Z.eqb_neq _ _)) by lia. }
    assert (Hle : counted_from (record_of_writer (sl_record r) g) (c :: cs) <= sn_val (record_of_writer (sl_record r1) g)).
    { unfold counted_from. destruct (sn_val _ =? 0); lia. }
    destruct (IH r1 g L1) as (r2 & n2 & E2 & N2 & S2).
    { eapply list.Forall_impl; [exact Hcs|]. intros x (? & Hx & ? & ? & ?). split; [done|]. split; [by apply F1|]. do 2 (split; [done|]). rewrite Hc1. lia. }
    exists r2, (n1 ++ n2). cbn [map receive_all]. rewrite E1. split; [done|]. split; [by rewrite N2, N1, app_assoc|].
    rewrite Hc1 in S2. change (counted_from _ (c :: cs)) with (counted_from (record_of_writer (sl_record r) g) [c]). revert S2. unfold zlen in *. rewrite length_app. lia.
Qed.

(** ** Flaws *)

(** C38: a listener is told of 2147483647 lost samples - or an assertion fails -
    when the fragments of a sample are dropped after a later sample has been
    notified: what was notified before is subtracted from a smaller number. *)
Theorem overtaken_fragments_miscounted r c p size : sl_listener r = true -> sn_valid (in_seq p) -> sn_valid (record_of_writer (sl_record r) (in_writer c)) ->
  sn_val (in_seq p) < sn_val (record_of_writer (sl_record r) (in_writer c)) -> sn_ltb (in_seq p) (in_seq c) = true ->
  if debug then drop_pending debug r c size (Some p) = None
  else forall r' x, drop_pending debug r c size (Some p) = Some (r', x) -> sl_calls r' = sl_calls r ++ [on_sample_lost INT32_MAX].
Proof.
  intros Hl [Po Pv] [Lo Lv] Hlt Hc. set (last := record_of_writer (sl_record r) (in_writer c)) in *. unfold drop_pending. fold last. rewrite Hc.
  assert (Hz : sn_eqb (mkSN 0 0) last = false) by (rewrite sn_eqb_val by (done || (split; simpl; lia)); apply Z.eqb_neq; unfold sn_val at 1; simpl; lia).
  assert (Hp : sn_ltb last (in_seq p) = false) by (rewrite sn_ltb_val by done; apply Z.ltb_ge; lia).
  assert (Hn : lost_samples last (in_seq p) 0 = INT32_MAX).
  { unfold lost_samples, to_int32_max, to64long, sn_sub, INT32_MAX, u64, u32, sn_valid, sn_ok, sn_val in *.
    destruct (in_seq p) as [ha la], last as [hb lb]. simpl in *. rewrite !Z.shiftl_mul_pow2 by lia.
    assert (Hd : - 2 ^ 63 < (ha - hb) * 2 ^ 32 + (la - lb) < 0) by lia.
    match goal with |- (if ?x >? _ then _ else _) = _ => enough (x = 2 ^ 64 + ((ha - hb) * 2 ^ 32 + (la - lb))) as -> by (destruct (Z.gtb_spec (2 ^ 64 + ((ha - hb) * 2 ^ 32 + (la - lb))) (2 ^ 31 - 1)); lia) end.
    destruct (Z.ltb_spec la lb); simpl; rewrite Z.sub_0_r, !Z.mod_mod by lia; Z.div_mod_to_equations; lia. }
  simpl. rewrite Hn, Hl, Hz, Hp. unfold checked. destruct debug; [done|]. intros r' w. simpl.
  destruct (size <=? _); [destruct (begin_assembly _ _ _); [|done]; simpl|]; by intros [= <- <-].
Qed.

(** C39: no writer is matched and none has been set to be trusted, but a sample of a
    writer whose entity is the unknown one is taken, and notified as often as it
    arrives; with exclusive ownership the reader reads an iterator at the end. *)
Theorem unknown_entity_is_trusted g prefix exclusive finite_lease limit h seq time body : prefix <> guidPrefix c_Guid_Unknown ->
  r_preallocated h = false -> sn_valid seq -> 0 < sn_val seq ->
  let w := mkGUID prefix [0; 0; 0; 0] in
  let m := whole_sample (mkIn w seq time body false) in
  match receive_all (stateless_reader_new g exclusive finite_lease true limit false h) [m; m] with
  | Some r => exclusive = false /\ sl_notified r = [(w, seq); (w, seq)]
  | None => exclusive = true
  end.
Proof.
  intros Hp Hh [So Sv] Hs w m.
  assert (Hu : sn_geb (mkSN 0 0) seq = false) by (rewrite sn_geb_val by (done || (split; simpl; lia)); apply Z.leb_gt; unfold sn_val at 1; simpl; lia).
  assert (Hg : bool_decide (w = c_Guid_Unknown) = false) by (apply bool_decide_eq_false_2; intros E; apply Hp; by rewrite <- E).
  assert (Hstep : forall r, sl_exclusive r = exclusive -> sl_trusted r = [0; 0; 0; 0] -> sl_writers r = [] -> sl_record r = mkHS ∅ ∅ ∅ ->
    r_preallocated (sl_history r) = false -> sl_finite_lease r = finite_lease -> sl_listener r = true ->
    match receive r m with
    | Some r' => exclusive = false /\ sl_notified r' = sl_notified r ++ [(w, seq)] /\ sl_exclusive r' = exclusive /\ sl_trusted r' = [0; 0; 0; 0] /\
        sl_writers r' = [] /\ sl_record r' = mkHS ∅ ∅ ∅ /\ r_preallocated (sl_history r') = false /\ sl_finite_lease r' = finite_lease /\ sl_listener r' = true
    | None => exclusive = true
    end).
  { intros r He Ht Hw Hr Hpre Hf Hl. unfold m, whole_sample. cbn [receive]. unfold stateless_process_data, stateless_accept, thereIsUpperRecordOf, can_change_be_added_nts.
    cbn [in_writer in_seq in_body]. rewrite Ht, Hr, Hpre, Hg, (bool_decide_eq_true_2 (entityId w = _)) by done. rewrite orb_true_r.
    unfold record_of_writer, guid_to_look. simpl. rewrite !lookup_empty. simpl. rewrite Hu. simpl.
    unfold stateless_change_received, thereIsUpperRecordOf, record_of_writer, guid_to_look, history_add_change, writer_info. cbn [in_writer in_seq in_body].
    rewrite Hr, He, Ht, Hw, Hpre. simpl. rewrite !lookup_empty. simpl. rewrite Hu, orb_true_r. destruct exclusive; [done|]. simpl. rewrite Hl. simpl.
    unfold stateless_assert_liveliness, call_if. simpl. rewrite Hf. destruct finite_lease; simpl; by rewrite ?Hr. }
  cbn [receive_all]. set (r0 := stateless_reader_new _ _ _ _ _ _ _).
  pose proof (Hstep r0 eq_refl eq_refl eq_refl eq_refl Hh eq_refl eq_refl) as H1. destruct (receive r0 m) as [r1|]; [|done]. cbn [mbind option_bind].
  destruct H1 as (He & N1 & E1 & T1 & W1 & R1 & P1 & F1 & L1). pose proof (Hstep r1 E1 T1 W1 R1 P1 F1 L1) as H2. destruct (receive r1 m) as [r2|]; [|done].
  destruct H2 as (_ & N2 & _). split; [done|]. by rewrite N2, N1.
Qed.

End Reception.

(** ** Witnesses *)

(** A reader matched with the writer [guid_a]. *)
Definition best_effort : StatelessReader :=
  let qos := mkWriterQos VOLATILE (mkDuration 0 0) AUTOMATIC_LIVELINESS (mkDuration 0 0) (mkDuration 0 0) BEST_EFFORT_RELIABILITY_QOS SHARED_OWNERSHIP_QOS
    0 0 [] false [] (0, []) in
  snd (stateless_writer_add_edp (stateless_reader_new guid_b false false true None false empty_history)
         (mkWriterProxyData guid_a c_Guid_Unknown [] [] NO_KEY None qos)).

Definition sample (n : Z) : InChange := a_change guid_a n n.
(** The first of two fragments. *)
Definition first_fragment (n : Z) : ReaderMessage :=
  frag_message 5 (mkIn guid_a (SequenceNumber_of n) n (mkChange (repeat 7 8) 8 8 0 0) false) 16 1 1 true (Some (repeat 0 16)).

Definition second_fragment (n : Z) : ReaderMessage :=
  frag_message 5 (mkIn guid_a (SequenceNumber_of n) n (mkChange (repeat 7 8) 8 8 0 0) false) 16 2 1 true None.

(** Every sample has 16 bytes, in fragments of eight. *)
Definition sevens (g : GUID_t) (s : SequenceNumber_t) : list Z * Z := (repeat 7 16, 8).

Lemma sevens_linkable g s : linkable (sevens g s).
Proof. unfold linkable, fits, links_fit. vm_compute. intuition congruence. Qed.

Lemma fragment_handled n : handled false sevens best_effort (first_fragment n) /\ handled false sevens best_effort (second_fragment n).
Proof.
  split; (split; [done|]); (split; [apply sevens_linkable|]); (do 2 (split; [reflexivity|])); split; try (vm_compute; lia);
    (split; [simpl; lia|]); (split; [simpl; lia|]); intros _; split; vm_compute; congruence.
Qed.

Definition some_messages : list ReaderMessage :=
  [whole_sample (sample 1); first_fragment 2; whole_sample (sample 1); second_fragment 2; first_fragment 2; whole_sample (sample 5); whole_sample (sample 4)].


Lemma lost_and_found_witness : exists r' new,
  receive_all (P := host) true best_effort (map whole_sample [sample 2; sample 7; sample 3; sample 7; sample 9]) = Some r' /\
  sl_notified r' = sl_notified best_effort ++ new /\ lost_total (sl_calls r') = 5 /\
  zlen new + (lost_total (sl_calls r') - lost_total (sl_calls best_effort)) = sn_val (record_of_writer (sl_record r') guid_a) - 1.
Proof.
  destruct (lost_and_found (P := host) true [sample 2; sample 7; sample 3; sample 7; sample 9] best_effort guid_a) as (r' & new & E & N & S).
  - split; [done|left; by eexists|done|discriminate|vm_compute; intuition congruence].
  - repeat (constructor; [split; [done|]; split; [discriminate|]; vm_compute; intuition congruence|]). constructor.
  - exists r', new. split; [exact E|]. split; [exact N|]. split; [|exact S]. clear S N. vm_compute in E. injection E as <-. reflexivity.
Defined.

(** The first sample, a fragment of the second, the fifth, a fragment of the sixth. *)
Lemma overtaken_fragments_miscounted_witness :
  sl_calls <$> receive_all (P := host) false best_effort [whole_sample (sample 1); first_fragment 2; whole_sample (sample 5); first_fragment 6] =
    Some [on_writer_discovery DISCOVERED_WRITER guid_a; on_data_available guid_a (SequenceNumber_of 1) (2 ^ 32 - 1); on_sample_lost 3;
          on_data_available guid_a (SequenceNumber_of 5) (2 ^ 32 - 1); on_sample_lost 2147483647] /\
  drop_pending (P := host) true (stateless_update_last best_effort guid_a (SequenceNumber_of 5)) (sample 6) 16 (Some (sample 2)) = None.
Proof.
  split; [vm_compute; reflexivity|].
  refine (overtaken_fragments_miscounted (P := host) true (stateless_update_last best_effort guid_a (SequenceNumber_of 5)) (sample 6) (sample 2) 16 eq_refl _ _ _ eq_refl);
    vm_compute; (done || split; (done || split; congruence)).
Defined.

Lemma unknown_entity_is_trusted_witness :
  let w := mkGUID (repeat 1 12) [0; 0; 0; 0] in
  let m := whole_sample (mkIn w (SequenceNumber_of 3) 0 whole false) in
  match receive_all (P := host) false (stateless_reader_new guid_a false false true None false empty_history) [m; m] with
  | Some r => false = false /\ sl_notified r = [(w, SequenceNumber_of 3); (w, SequenceNumber_of 3)]
  | None => false = true
  end.
Proof.
  refine (unknown_entity_is_trusted (P := host) false guid_a (repeat 1 12) false false None empty_history (SequenceNumber_of 3) 0 whole _ eq_refl _ _);
    [vm_compute; congruence|split; vm_compute; (done || split; congruence)|done].
Defined.
