(* ===== verification/StatelessWriter.v ===== *)
(** * The best-effort writer

    Models [Fast-DDS/src/cpp/rtps/writer/StatelessWriter.cpp] and the parts of
    [ReaderLocator.cpp], [LocatorSelector.hpp] and [BaseWriter.cpp] it uses: the
    matched readers and the pool they are taken from, the readers a message is
    addressed to, and the delivery of a sample, whole or in fragments, together or
    to each reader.  Readers are remote: none is in this process or shares memory
    with the writer.  A collection without a limit has no maximum.

    What the message group answers is an argument, one answer for each submessage;
    so are the locators that the transports select and what the filter says.  The
    submessages sent and the calls of the listener are logs.

    The selector holds the readers that are matched, and the limit on readers is
    kept ([readers_are_accounted]).  A sample whose delivery is tried again goes on
    with the first fragment that was not sent, so that all readers are sent each
    fragment once ([fragments_resume]), or, with separate sending, at least once
    ([every_reader_gets_every_fragment]).  A sample in fragments that was delivered
    is not sent a second time ([fragments_not_sent_again]). *)

From stdpp Require Import gmap.
From S2P Require Import Prelude SequenceNumber ParameterList ReaderProxy LimitedVector Liveliness Matching.

(** The answers of [RTPSMessageGroup::add_data] and [add_data_frag]; the last two
    are exceptions. *)
Inductive AddResult := submessage_added | submessage_refused | group_timeout | group_limit_exceeded.
Inductive DeliveryRetCode := DELIVERED | NOT_DELIVERED | EXCEEDED_LIMIT.

#[export] Instance DeliveryRetCode_eq_dec : EqDecision DeliveryRetCode.
Proof. solve_decision. Defined.

(** A reader that is matched: its locators are opaque. *)
Record ReaderLocator := mkRL { rl_remote_guid : GUID_t; rl_locators : list (list Z); rl_expects_inline_qos : bool }.

(** A submessage: those it is addressed to, the sample and the fragment. *)
Record Submessage := mkSub { sub_readers : list GUID_t; sub_seq : Z; sub_fragment : option Z }.

Inductive ReaderDiscoveryStatus := DISCOVERED_READER | CHANGED_QOS_READER | REMOVED_READER | IGNORED_READER.
Inductive WriterCall :=
| on_reader_discovery (status : ReaderDiscoveryStatus) (g : GUID_t)
| on_writer_change_received_by_all (seq : Z).

(** [sw_entries] are the entries of the locator selector, by their identifiers. *)
Record StatelessWriter := mkSLW {
  sw_guid : GUID_t;
  sw_listener : bool;
  sw_separate_sending : bool;
  sw_limit : option Z;
  sw_fixed_locators : list (list Z);
  sw_readers : list ReaderLocator;
  sw_pool : nat;
  sw_entries : list GUID_t;
  is_inline_qos_expected_ : bool;
  current_sequence_number_sent_ : Z;
  current_fragment_sent_ : Z;
  last_sequence_number_sent_ : Z;
  sw_sent : list Submessage;
  sw_calls : list WriterCall
}.

Implicit Types (w : StatelessWriter) (x : ReaderLocator) (g : GUID_t).

Definition sw_set_readers w l (pool : nat) (entries : list GUID_t) : StatelessWriter := mkSLW (sw_guid w) (sw_listener w) (sw_separate_sending w) (sw_limit w)
  (sw_fixed_locators w) l pool entries (is_inline_qos_expected_ w) (current_sequence_number_sent_ w) (current_fragment_sent_ w)
  (last_sequence_number_sent_ w) (sw_sent w) (sw_calls w).
Definition sw_set_inline w (b : bool) : StatelessWriter := mkSLW (sw_guid w) (sw_listener w) (sw_separate_sending w) (sw_limit w)
  (sw_fixed_locators w) (sw_readers w) (sw_pool w) (sw_entries w) b (current_sequence_number_sent_ w) (current_fragment_sent_ w)
  (last_sequence_number_sent_ w) (sw_sent w) (sw_calls w).
Definition sw_set_current w (seq frag last : Z) : StatelessWriter := mkSLW (sw_guid w) (sw_listener w) (sw_separate_sending w) (sw_limit w)
  (sw_fixed_locators w) (sw_readers w) (sw_pool w) (sw_entries w) (is_inline_qos_expected_ w) seq frag last (sw_sent w) (sw_calls w).
Definition sw_set_logs w sent calls : StatelessWriter := mkSLW (sw_guid w) (sw_listener w) (sw_separate_sending w) (sw_limit w)
  (sw_fixed_locators w) (sw_readers w) (sw_pool w) (sw_entries w) (is_inline_qos_expected_ w) (current_sequence_number_sent_ w)
  (current_fragment_sent_ w) (last_sequence_number_sent_ w) sent calls.

Definition writer_call_if (b : bool) w (c : WriterCall) : StatelessWriter := if b then sw_set_logs w (sw_sent w) (sw_calls w ++ [c]) else w.

(** The constructor and [init]: the pool is filled. *)
Definition stateless_writer_new g (listener separate_sending : bool) (limit : option Z) (initial : nat) : StatelessWriter :=
  mkSLW g listener separate_sending limit [] [] initial [] false 0 0 0 [] [].

(** ** Matched readers *)

Definition is_reader g x : bool := bool_decide (rl_remote_guid x = g).

(** [ReaderLocator::start] of a free one and [update]: whether something has
    changed. *)
Definition locator_start g (locators : list (list Z)) (expects_inline_qos : bool) : ReaderLocator :=
  mkRL g locators expects_inline_qos.
Definition locator_update x (locators : list (list Z)) (expects_inline_qos : bool) : bool * ReaderLocator :=
  let changed := negb (bool_decide (rl_locators x = locators)) in
  (negb (eqb (rl_expects_inline_qos x) expects_inline_qos) || changed,
   mkRL (rl_remote_guid x) (if changed then locators else rl_locators x) expects_inline_qos).

(** [update_reader_info], but for the selection of locators. *)
Definition update_reader_info w : StatelessWriter := sw_set_inline w (existsb rl_expects_inline_qos (sw_readers w)).

(** The first reader of the list with the identifier, changed. *)
Fixpoint update_matched g (f : ReaderLocator -> ReaderLocator) (l : list ReaderLocator) : list ReaderLocator :=
  match l with
  | [] => []
  | x :: l => if is_reader g x then f x :: l else x :: update_matched g f l
  end.

Definition get_matched_readers_size w : Z := zlen (sw_readers w).

(** [matched_reader_add_edp], with the locators of the reader that are left after
    filtering.  The entry of the selector is added when there is room for it. *)
Definition stateless_reader_add_edp w g (locators : list (list Z)) (expects_inline_qos : bool) : bool * StatelessWriter :=
  match List.find (is_reader g) (sw_readers w) with
  | Some x =>
      let w := if fst (locator_update x locators expects_inline_qos)
               then update_reader_info (sw_set_readers w (update_matched g (fun x => snd (locator_update x locators expects_inline_qos)) (sw_readers w)) (sw_pool w) (sw_entries w))
               else w in
      (false, writer_call_if (sw_listener w) w (on_reader_discovery CHANGED_QOS_READER g))
  | None =>
      let full := match sw_limit w with Some n => n <=? get_matched_readers_size w | None => false end in
      if (sw_pool w =? 0)%nat && full then (false, w)
      else
        let room (n : Z) := match sw_limit w with Some m => n <? m | None => true end in
        let entries := if room (zlen (sw_entries w)) then sw_entries w ++ [g] else sw_entries w in
        let readers := if room (zlen (sw_readers w)) then sw_readers w ++ [locator_start g locators expects_inline_qos] else sw_readers w in
        let w := update_reader_info (sw_set_readers w readers (pred (sw_pool w)) entries) in
        (true, writer_call_if (sw_listener w) w (on_reader_discovery DISCOVERED_READER g))
  end.

(** [matched_reader_remove]; [None]: the reader is in the selector but not matched. *)
Definition stateless_reader_remove w g : option (bool * StatelessWriter) :=
  let '(removed, entries) := swap_remove_if (fun e => bool_decide (e = g)) (sw_entries w) in
  if removed then
    let '(found, readers) := erase_if (is_reader g) (sw_readers w) in
    if found then
      let pool := match sw_limit w with Some n => if Z.of_nat (sw_pool w) <? n then S (sw_pool w) else sw_pool w | None => S (sw_pool w) end in
      let w := update_reader_info (sw_set_readers w readers pool entries) in
      Some (true, writer_call_if (sw_listener w) w (on_reader_discovery REMOVED_READER g))
    else None
  else Some (false, w).

Definition stateless_reader_is_matched w g : bool := existsb (is_reader g) (sw_readers w).
Definition stateless_matched_readers_guids w : list GUID_t := map rl_remote_guid (sw_readers w).

Definition set_fixed_locators w (l : list (list Z)) : bool * StatelessWriter :=
  (true, mkSLW (sw_guid w) (sw_listener w) (sw_separate_sending w) (sw_limit w) (sw_fixed_locators w ++ l) (sw_readers w) (sw_pool w) (sw_entries w)
           (is_inline_qos_expected_ w) (current_sequence_number_sent_ w) (current_fragment_sent_ w) (last_sequence_number_sent_ w) (sw_sent w) (sw_calls w)).

(** ** What was sent *)

Definition stateless_is_acked_by_all w (seq : Z) : bool := seq <=? last_sequence_number_sent_ w.
Definition stateless_has_been_fully_delivered w (next_seq seq : Z) : bool :=
  if next_seq <=? seq then false else if 0 <? get_matched_readers_size w then stateless_is_acked_by_all w seq else true.

(** The condition [wait_for_acknowledgement] waits for. *)
Definition change_is_acknowledged w (in_history : bool) (seq : Z) : bool := if seq <=? last_sequence_number_sent_ w then true else negb in_history.

(** [unsent_change_added_to_history]: whether the flow controller gets the change. *)
Definition stateless_unsent_change w (seq : Z) : bool * StatelessWriter :=
  if negb (bool_decide (sw_fixed_locators w = [])) || (0 <? get_matched_readers_size w) then (true, w)
  else (false, writer_call_if (sw_listener w) w (on_writer_change_received_by_all seq)).

Definition stateless_process_acknack w (writer_guid : GUID_t) : bool * bool := (bool_decide (writer_guid = sw_guid w), false).

(** ** Delivery *)

(** One submessage: the answer of the group and the answers left; when none is
    given it is added. *)
Definition add_submessage w (m : Submessage) (answers : list AddResult) : AddResult * StatelessWriter * list AddResult :=
  let answer := default submessage_added (head answers) in
  (answer, match answer with submessage_added => sw_set_logs w (sw_sent w ++ [m]) (sw_calls w) | _ => w end, tail answers).

(** What a loop ends with: a code, or an exception. *)
Inductive Outcome := went_on (code : DeliveryRetCode) | thrown (code : DeliveryRetCode).

#[export] Instance Outcome_eq_dec : EqDecision Outcome.
Proof. solve_decision. Defined.

Definition outcome_code (o : Outcome) : DeliveryRetCode := match o with went_on c | thrown c => c end.

(** The loop over the readers of one submessage; a failure does not end it. *)
Fixpoint send_to_each w (l : list GUID_t) (seq : Z) (frag : option Z) (answers : list AddResult) (code : DeliveryRetCode)
  : Outcome * StatelessWriter * list AddResult :=
  match l with
  | [] => (went_on code, w, answers)
  | g :: l =>
      let '(answer, w, answers) := add_submessage w (mkSub [g] seq frag) answers in
      match answer with
      | submessage_added => send_to_each w l seq frag answers code
      | submessage_refused => send_to_each w l seq frag answers NOT_DELIVERED
      | group_timeout => (thrown NOT_DELIVERED, w, answers)
      | group_limit_exceeded => (thrown EXCEEDED_LIMIT, w, answers)
      end
  end.

Definition set_fragment w (frag : Z) : StatelessWriter := sw_set_current w (current_sequence_number_sent_ w) frag (last_sequence_number_sent_ w).

(** The loops over the fragments: [n] are left. *)
Fixpoint fragments_to_each (n : nat) w (l : list GUID_t) (seq frag : Z) (answers : list AddResult) : Outcome * StatelessWriter * list AddResult :=
  match n with
  | O => (went_on DELIVERED, w, answers)
  | S n =>
      let '(o, w, answers) := send_to_each w l seq (Some frag) answers DELIVERED in
      match o with
      | went_on DELIVERED => fragments_to_each n (set_fragment w frag) l seq (frag + 1) answers
      | _ => (o, w, answers)
      end
  end.

Fixpoint fragments_to_all (n : nat) w (l : list GUID_t) (seq frag : Z) (answers : list AddResult) : Outcome * StatelessWriter * list AddResult :=
  match n with
  | O => (went_on DELIVERED, w, answers)
  | S n =>
      let '(answer, w, answers) := add_submessage w (mkSub l seq (Some frag)) answers in
      match answer with
      | submessage_added => fragments_to_all n (set_fragment w frag) l seq (frag + 1) answers
      | submessage_refused => (went_on NOT_DELIVERED, w, answers)
      | group_timeout => (thrown NOT_DELIVERED, w, answers)
      | group_limit_exceeded => (thrown EXCEEDED_LIMIT, w, answers)
      end
  end.

(** [deliver_sample_nts] of a sample with its number of fragments; [relevant] is the
    answer of the filter, [selected_size] the number of locators that the transports
    select for the readers that are enabled. *)
Definition deliver_sample_nts w (seq n_fragments : Z) (relevant : GUID_t -> bool) (selected_size : list GUID_t -> Z) (answers : list AddResult)
  : DeliveryRetCode * StatelessWriter * list AddResult :=
  let w := if negb (current_sequence_number_sent_ w =? seq) then sw_set_current w seq 0 (last_sequence_number_sent_ w) else w in
  let left := Z.to_nat (n_fragments - current_fragment_sent_ w) in
  let '(o, w, answers) :=
    if sw_separate_sending w then
      let l := List.filter relevant (map rl_remote_guid (sw_readers w)) in
      if 0 <? n_fragments then fragments_to_each left w l seq (current_fragment_sent_ w + 1) answers
      else send_to_each w l seq None answers DELIVERED
    else
      let l := List.filter (fun g => negb (bool_decide (g = c_Guid_Unknown)) && relevant g) (sw_entries w) in
      if 0 <? selected_size l + zlen (sw_fixed_locators w) then
        if 0 <? n_fragments then fragments_to_all left w l seq (current_fragment_sent_ w + 1) answers
        else
          let '(answer, w, answers) := add_submessage w (mkSub l seq None) answers in
          (match answer with
           | submessage_added => went_on DELIVERED
           | submessage_refused => went_on NOT_DELIVERED
           | group_timeout => thrown NOT_DELIVERED
           | group_limit_exceeded => thrown EXCEEDED_LIMIT
           end, w, answers)
      else (went_on DELIVERED, w, answers) in
  let code := outcome_code o in
  if bool_decide (code = DELIVERED) && (last_sequence_number_sent_ w <? seq) then
    let w := sw_set_current w (current_sequence_number_sent_ w) (current_fragment_sent_ w) seq in
    (code, writer_call_if (sw_listener w) w (on_writer_change_received_by_all seq), answers)
  else (code, w, answers).

(** * What the best-effort writer promises *)

(** ** Readers *)

Definition reader_guids w : list GUID_t := map rl_remote_guid (sw_readers w).

Record accounted w : Prop := mkAccounted {
  ac_entries : sw_entries w ≡ₚ reader_guids w;
  ac_distinct : NoDup (reader_guids w);
  ac_limit n : sw_limit w = Some n -> zlen (sw_readers w) + Z.of_nat (sw_pool w) <= n
}.

Lemma accounted_rest w w' : sw_entries w' = sw_entries w -> sw_readers w' = sw_readers w -> sw_pool w' = sw_pool w -> sw_limit w' = sw_limit w ->
  accounted w -> accounted w'.
Proof. intros E R P L [He Hd Hl]. unfold reader_guids in *. split; unfold reader_guids; rewrite ?E, ?R, ?P, ?L; done. Qed.

Lemma accounted_call b w c : accounted w -> accounted (writer_call_if b w c).
Proof. destruct b; [|done]. by apply accounted_rest. Qed.
#[export] Hint Resolve accounted_call : core.

Lemma call_rest b w c : let w' := writer_call_if b w c in
  sw_guid w' = sw_guid w /\ sw_limit w' = sw_limit w /\ sw_listener w' = sw_listener w /\ reader_guids w' = reader_guids w.
Proof. by destruct b. Qed.

Lemma find_reader_none g l : List.find (is_reader g) l = None <-> g ∉ map rl_remote_guid l.
Proof.
  induction l as [|x l IH]; simpl; [split; [intros _ H; inversion H|done]|]. unfold is_reader at 1. rewrite not_elem_of_cons.
  case_bool_decide as E; [split; [done|intros [? _]; congruence]|]. rewrite IH. split; [|tauto]. intros ?. split; [congruence|done].
Qed.

Lemma update_matched_guids g f l : (forall x, rl_remote_guid (f x) = rl_remote_guid x) -> map rl_remote_guid (update_matched g f l) = map rl_remote_guid l.
Proof. intros Hf. induction l as [|x l IH]; [done|]. simpl. destruct (is_reader g x); simpl; [by rewrite Hf|by rewrite IH]. Qed.

Lemma update_matched_length g f l : length (update_matched g f l) = length l.
Proof. induction l as [|x l IH]; [done|]. simpl. destruct (is_reader g x); simpl; by rewrite ?IH. Qed.

Lemma has_room w n : accounted w -> sw_limit w = Some n -> zlen (sw_readers w) < n -> zlen (sw_entries w) < n.
Proof. intros [He _ _] _ Hn. unfold zlen in *. rewrite He. unfold reader_guids. by rewrite length_map. Qed.

(** What adding does to the readers. *)
Lemma reader_add_spec w g locators expects : accounted w -> let '(added, w') := stateless_reader_add_edp w g locators expects in
  accounted w' /\ sw_guid w' = sw_guid w /\ sw_limit w' = sw_limit w /\ sw_listener w' = sw_listener w /\
  reader_guids w' = (if added then reader_guids w ++ [g] else reader_guids w) /\ (added = true -> g ∉ reader_guids w) /\
  (g ∈ reader_guids w' \/ sw_limit w = Some (zlen (sw_readers w))).
Proof.
  intros Ha. pose proof Ha as [He Hd Hl]. unfold stateless_reader_add_edp. destruct (List.find (is_reader g) (sw_readers w)) as [x|] eqn:Ef.
  - assert (Hg : g ∈ reader_guids w) by (destruct (decide (g ∈ reader_guids w)) as [|Hn]; [done|]; apply find_reader_none in Hn; congruence).
    match goal with |- context [writer_call_if _ ?y _] => set (w1 := y) end.
    assert (H1 : accounted w1 /\ sw_guid w1 = sw_guid w /\ sw_limit w1 = sw_limit w /\ sw_listener w1 = sw_listener w /\ reader_guids w1 = reader_guids w).
    { unfold w1. destruct (fst _); [|done]. assert (Eg : reader_guids (sw_set_readers w (update_matched g (fun x => snd (locator_update x locators expects)) (sw_readers w)) (sw_pool w) (sw_entries w)) = reader_guids w) by (by apply update_matched_guids).
      split; [|done]. apply (accounted_rest (sw_set_readers w (update_matched g (fun x => snd (locator_update x locators expects)) (sw_readers w)) (sw_pool w) (sw_entries w))); try done.
      split; [by rewrite Eg|by rewrite Eg|]. simpl. intros n Hn. unfold zlen in *. rewrite update_matched_length. by apply Hl. }
    destruct H1 as (A1 & G1 & L1 & B1 & R1). split; [by apply accounted_call|].
    match goal with |- context [writer_call_if ?b w1 ?c] => destruct (call_rest b w1 c) as (-> & -> & -> & ->) end.
    rewrite G1, L1, B1, R1. do 5 (split; [done|]). by left.
  - apply find_reader_none in Ef. set (full := match sw_limit w with Some n => _ | None => false end).
    destruct ((sw_pool w =? 0)%nat && full) eqn:Efull.
    { split; [done|]. do 5 (split; [done|]). right. apply andb_true_iff in Efull as [Hp Hf]. apply Nat.eqb_eq in Hp. unfold full, get_matched_readers_size in Hf.
      destruct (sw_limit w) as [n|]; [|done]. apply Z.leb_le in Hf. specialize (Hl n eq_refl). f_equal. lia. }
    assert (Hroom : forall n, sw_limit w = Some n -> zlen (sw_readers w) < n).
    { intros n Hn. specialize (Hl n Hn). unfold full, get_matched_readers_size in Efull. rewrite Hn in Efull.
      apply andb_false_iff in Efull as [Hp|Hf]; [apply Nat.eqb_neq in Hp; lia|apply Z.leb_gt in Hf; lia]. }
    assert (E1 : match sw_limit w with Some m => zlen (sw_entries w) <? m | None => true end = true).
    { destruct (sw_limit w) as [n|] eqn:En; [|done]. apply Z.ltb_lt. apply (has_room w n Ha En). by apply Hroom. }
    assert (E2 : match sw_limit w with Some m => zlen (sw_readers w) <? m | None => true end = true).
    { destruct (sw_limit w) as [n|] eqn:En; [|done]. apply Z.ltb_lt. by apply Hroom. }
    rewrite E1, E2. set (w1 := update_reader_info _).
    assert (R1 : reader_guids w1 = reader_guids w ++ [g]) by (unfold w1, reader_guids; simpl; by rewrite map_app).
    assert (A1 : accounted w1).
    { split; [rewrite R1; unfold w1; simpl; by rewrite He| |].
      - rewrite R1. apply list.NoDup_app. split; [done|]. split; [|apply NoDup_singleton]. intros y Hy Hin. apply list_elem_of_singleton in Hin as ->. by apply Ef.
      - unfold w1. simpl. intros n Hn. specialize (Hroom n Hn). specialize (Hl n Hn). unfold zlen in *. rewrite length_app. simpl. lia. }
    split; [by apply accounted_call|]. 
    match goal with |- context [writer_call_if ?b w1 ?c] => destruct (call_rest b w1 c) as (-> & -> & -> & ->) end.
    rewrite R1. do 3 (split; [done|]). split; [done|]. split; [done|]. left. apply elem_of_app. right. by left.
Qed.

Lemma reader_remove_spec w g : accounted w -> exists removed w', stateless_reader_remove w g = Some (removed, w') /\
  accounted w' /\ sw_guid w' = sw_guid w /\ sw_limit w' = sw_limit w /\ sw_listener w' = sw_listener w /\ removed = bool_decide (g ∈ reader_guids w) /\
  forall h, h ∈ reader_guids w' <-> h ∈ reader_guids w /\ h <> g.
Proof.
  intros [He Hd Hl]. unfold stateless_reader_remove. pose proof (swap_remove_if_spec (fun e => bool_decide (e = g)) (sw_entries w)) as Hs.
  destruct (swap_remove_if _ (sw_entries w)) as [removed entries]. destruct removed.
  - destruct Hs as (e & Ee & Hp). apply bool_decide_eq_true in Ee as ->.
    assert (Hg : g ∈ reader_guids w) by (rewrite <- He, <- Hp; by left).
    pose proof (erase_if_spec (is_reader g) (sw_readers w)) as Hr. destruct (erase_if (is_reader g) (sw_readers w)) as [found readers]. destruct found.
    2:{ destruct Hr as [_ Hr]. exfalso. apply list_elem_of_fmap in Hg as (x & -> & Hx). rewrite list.Forall_forall in Hr. specialize (Hr x Hx).
        unfold is_reader in Hr. by apply bool_decide_eq_false in Hr. }
    destruct Hr as (l1 & x & l2 & El & -> & Ex & _). unfold is_reader in Ex. apply bool_decide_eq_true in Ex.
    assert (Eg : reader_guids w = map rl_remote_guid l1 ++ g :: map rl_remote_guid l2) by (unfold reader_guids; rewrite El, map_app; simpl; by rewrite Ex).
    assert (Hd' : NoDup (g :: map rl_remote_guid (l1 ++ l2))) by (rewrite map_app, Permutation_middle, <- Eg; done).
    apply list.NoDup_cons in Hd' as [Hni Hd'].
    set (pool := match sw_limit w with Some n => _ | None => _ end). set (w1 := update_reader_info _).
    assert (A1 : accounted w1).
    { split; [|exact Hd'|].
      - unfold w1, reader_guids. simpl. apply (Permutation_cons_inv (a := g)). rewrite Hp, He, Eg, map_app. by rewrite Permutation_middle.
      - unfold w1. simpl. intros n Hn. specialize (Hl n Hn). unfold pool. rewrite Hn. rewrite El in Hl. unfold zlen in *. rewrite length_app in *. simpl in *.
        destruct (Z.ltb_spec (Z.of_nat (sw_pool w)) n); lia. }
    eexists true, _. split; [done|]. split; [by apply accounted_call|].
    assert (Hin : forall h, h ∈ map rl_remote_guid (l1 ++ l2) <-> h ∈ reader_guids w /\ h <> g).
    { intros h. rewrite Eg, <- Permutation_middle, <- map_app, elem_of_cons. split; [intros Hh; split; [by right|intros ->; done]|]. by intros [[->|?] ?]. }
    match goal with |- context [writer_call_if ?b w1 ?c] => destruct (call_rest b w1 c) as (-> & -> & -> & ->) end.
    do 3 (split; [done|]). split; [by rewrite bool_decide_eq_true_2|exact Hin].
  - destruct Hs as [-> Hs]. eexists false, w. split; [done|]. split; [by split|]. do 3 (split; [done|]).
    assert (Hn : g ∉ reader_guids w).
    { rewrite <- He. intros Hg. rewrite list.Forall_forall in Hs. specialize (Hs g Hg). by apply bool_decide_eq_false in Hs. }
    split; [by rewrite bool_decide_eq_false_2|]. intros h. split; [|tauto]. intros Hh. split; [done|congruence].
Qed.

(** ** Deliveries *)

Lemma set_same_fragment w : set_fragment w (current_fragment_sent_ w) = w.
Proof. by destruct w. Qed.
Lemma set_same_logs w : sw_set_logs w (sw_sent w) (sw_calls w) = w.
Proof. by destruct w. Qed.

Definition to_all (l : list GUID_t) (seq f : Z) : Submessage := mkSub l seq (Some f).

Lemma seqZ_snoc f k : 0 <= k -> seqZ f (k + 1) = seqZ f k ++ [f + k].
Proof. intros Hk. rewrite seqZ_app by lia. done. Qed.

Lemma fragments_to_all_spec l seq n : forall w frag answers, frag = current_fragment_sent_ w + 1 ->
  exists k o answers', fragments_to_all n w l seq frag answers =
      (o, set_fragment (sw_set_logs w (sw_sent w ++ map (to_all l seq) (seqZ frag k)) (sw_calls w)) (current_fragment_sent_ w + k), answers') /\
    0 <= k <= Z.of_nat n /\ (outcome_code o = DELIVERED <-> k = Z.of_nat n).
Proof.
  induction n as [|n IH]; intros w frag answers Ef.
  - exists 0, (went_on DELIVERED), answers. simpl. rewrite app_nil_r, Z.add_0_r, set_same_logs, set_same_fragment. split; [done|]. split; [lia|]. split; [lia|done].
  - cbn [fragments_to_all]. unfold add_submessage. destruct (default submessage_added (head answers)).
    + set (w1 := set_fragment (sw_set_logs w (sw_sent w ++ [mkSub l seq (Some frag)]) (sw_calls w)) frag).
      destruct (IH w1 (frag + 1) (tail answers) eq_refl) as (k & o & answers' & E & Hk & Ho). exists (k + 1), o, answers'. fold w1. rewrite E.
      split; [|split; [lia|rewrite Ho; lia]]. f_equal. f_equal. unfold w1, set_fragment, sw_set_logs, sw_set_current. simpl. f_equal; [lia|].
      rewrite <- app_assoc. f_equal. rewrite (seqZ_cons frag (k + 1)) by lia. replace (Z.pred (k + 1)) with k by lia. done.
    + exists 0, (went_on NOT_DELIVERED), (tail answers). simpl. rewrite app_nil_r, Z.add_0_r, set_same_logs, set_same_fragment. split; [done|]. split; [lia|]. split; [done|lia].
    + exists 0, (thrown NOT_DELIVERED), (tail answers). simpl. rewrite app_nil_r, Z.add_0_r, set_same_logs, set_same_fragment. split; [done|]. split; [lia|]. split; [done|lia].
    + exists 0, (thrown EXCEEDED_LIMIT), (tail answers). simpl. rewrite app_nil_r, Z.add_0_r, set_same_logs, set_same_fragment. split; [done|]. split; [lia|]. split; [done|lia].
Qed.

(** A submessage to each of several readers. *)
Lemma send_to_each_spec l seq f : forall w answers code, exists o new answers',
  send_to_each w l seq f answers code = (o, sw_set_logs w (sw_sent w ++ new) (sw_calls w), answers') /\
  (outcome_code o = DELIVERED -> code = DELIVERED /\ o = went_on DELIVERED /\ forall g, g ∈ l -> mkSub [g] seq f ∈ new).
Proof.
  induction l as [|g l IH]; intros w answers code.
  - exists (went_on code), [], answers. simpl. rewrite app_nil_r, set_same_logs. split; [done|]. intros ->. split; [done|]. split; [done|]. intros g Hg. inversion Hg.
  - cbn [send_to_each]. unfold add_submessage. destruct (default submessage_added (head answers)).
    + set (w1 := sw_set_logs w _ _). destruct (IH w1 (tail answers) code) as (o & new & answers' & E & Ho). exists o, (mkSub [g] seq f :: new), answers'.
      fold w1. rewrite E. split; [f_equal; f_equal; unfold w1; simpl; by rewrite <- app_assoc|]. intros Hd. destruct (Ho Hd) as (Hc & Hw & Hg).
      split; [done|]. split; [done|]. intros h [->|Hh]%elem_of_cons; [by left|right; by apply Hg].
    + destruct (IH w (tail answers) NOT_DELIVERED) as (o & new & answers' & E & Ho). exists o, new, answers'. split; [exact E|]. intros Hd. by destruct (Ho Hd).
    + exists (thrown NOT_DELIVERED), [], (tail answers). rewrite app_nil_r, set_same_logs. split; [done|]. done.
    + exists (thrown EXCEEDED_LIMIT), [], (tail answers). rewrite app_nil_r, set_same_logs. split; [done|]. done.
Qed.

Lemma fragments_to_each_spec l seq n : forall w frag answers, frag = current_fragment_sent_ w + 1 ->
  exists k o new answers', fragments_to_each n w l seq frag answers =
      (o, set_fragment (sw_set_logs w (sw_sent w ++ new) (sw_calls w)) (current_fragment_sent_ w + k), answers') /\
    0 <= k <= Z.of_nat n /\ (outcome_code o = DELIVERED -> k = Z.of_nat n) /\
    forall g f, g ∈ l -> frag <= f < frag + k -> mkSub [g] seq (Some f) ∈ new.
Proof.
  induction n as [|n IH]; intros w frag answers Ef.
  - exists 0, (went_on DELIVERED), [], answers. simpl. rewrite app_nil_r, Z.add_0_r, set_same_logs, set_same_fragment. split; [done|]. split; [lia|]. split; [done|]. intros; lia.
  - cbn [fragments_to_each]. destruct (send_to_each_spec l seq (Some frag) w answers DELIVERED) as (o & new & answers' & E & Ho). rewrite E.
    destruct (decide (o = went_on DELIVERED)) as [->|Hne].
    + set (w1 := set_fragment (sw_set_logs w _ _) frag). destruct (IH w1 (frag + 1) answers' eq_refl) as (k & o & new' & answers'' & E' & Hk & Hc & Hg).
      exists (k + 1), o, (new ++ new'), answers''. rewrite E'. destruct (Ho eq_refl) as (_ & _ & Hall).
      split; [f_equal; f_equal; unfold w1, set_fragment, sw_set_logs, sw_set_current; simpl; rewrite app_assoc; f_equal; lia|].
      split; [lia|]. split; [intros Hd; rewrite (Hc Hd); lia|]. intros g f Hgl Hf. apply elem_of_app. destruct (decide (f = frag)) as [->|]; [left; by apply Hall|]. right. apply Hg; [done|lia].
    + exists 0, o, new, answers'. rewrite Z.add_0_r. change (current_fragment_sent_ w) with (current_fragment_sent_ (sw_set_logs w (sw_sent w ++ new) (sw_calls w))).
      rewrite set_same_fragment. split; [destruct o as [[]|[]]; done|]. split; [lia|]. split; [|intros; lia].
      intros Hd. destruct (Ho Hd) as (_ & -> & _). done.
Qed.

(** What a delivery leaves as it is. *)
Record same_settings w w' : Prop := mkSameSettings {
  ss_separate : sw_separate_sending w' = sw_separate_sending w;
  ss_fixed : sw_fixed_locators w' = sw_fixed_locators w;
  ss_readers : sw_readers w' = sw_readers w;
  ss_entries : sw_entries w' = sw_entries w
}.

Definition selected w (relevant : GUID_t -> bool) : list GUID_t := List.filter (fun g => negb (bool_decide (g = c_Guid_Unknown)) && relevant g) (sw_entries w).
Definition addressed w (relevant : GUID_t -> bool) : list GUID_t := List.filter relevant (reader_guids w).

(** The end of a delivery. *)
Lemma finish_delivery o w seq (answers : list AddResult) :
  let r := (let code := outcome_code o in
    if bool_decide (code = DELIVERED) && (last_sequence_number_sent_ w <? seq) then
      let w := sw_set_current w (current_sequence_number_sent_ w) (current_fragment_sent_ w) seq in
      (code, writer_call_if (sw_listener w) w (on_writer_change_received_by_all seq), answers)
    else (code, w, answers)) in
  r.1.1 = outcome_code o /\ same_settings w r.1.2 /\ sw_sent r.1.2 = sw_sent w /\ current_sequence_number_sent_ r.1.2 = current_sequence_number_sent_ w /\
  current_fragment_sent_ r.1.2 = current_fragment_sent_ w /\ (outcome_code o = DELIVERED -> stateless_is_acked_by_all r.1.2 seq = true).
Proof.
  unfold stateless_is_acked_by_all. cbv zeta. destruct (bool_decide _ && _) eqn:E; simpl.
  - unfold writer_call_if. simpl. destruct (sw_listener w); simpl; (do 5 (split; [done|])); intros _; by apply Z.leb_refl.
  - do 5 (split; [done|]). intros Hd. rewrite Hd, bool_decide_eq_true_2 in E by done. simpl in E. apply Z.ltb_ge in E. by apply Z.leb_le.
Qed.

(** One attempt for a sample in fragments, to all readers together. *)
Lemma deliver_shared w seq n relevant size answers : sw_separate_sending w = false -> 0 < n -> 0 < size (selected w relevant) + zlen (sw_fixed_locators w) ->
  let c := if current_sequence_number_sent_ w =? seq then current_fragment_sent_ w else 0 in 0 <= c <= n ->
  let r := deliver_sample_nts w seq n relevant size answers in exists k, 0 <= k <= n - c /\
    same_settings w r.1.2 /\ current_sequence_number_sent_ r.1.2 = seq /\ current_fragment_sent_ r.1.2 = c + k /\
    sw_sent r.1.2 = sw_sent w ++ map (to_all (selected w relevant) seq) (seqZ (c + 1) k) /\
    (r.1.1 = DELIVERED <-> c + k = n) /\ (r.1.1 = DELIVERED -> stateless_is_acked_by_all r.1.2 seq = true).
Proof.
  intros Hs Hn Hsize c Hc. unfold deliver_sample_nts. set (w0 := if negb _ then _ else w).
  assert (H0 : same_settings w w0 /\ current_sequence_number_sent_ w0 = seq /\ current_fragment_sent_ w0 = c /\ sw_sent w0 = sw_sent w).
  { unfold w0, c. destruct (Z.eqb_spec (current_sequence_number_sent_ w) seq); done. }
  destruct H0 as ([S1 S2 S3 S4] & C1 & C2 & C3). rewrite S1, S2, S4, Hs. fold (selected w relevant).
  rewrite (proj2 (Z.ltb_lt _ _) Hsize), (proj2 (Z.ltb_lt _ _) Hn).
  destruct (fragments_to_all_spec (selected w relevant) seq (Z.to_nat (n - current_fragment_sent_ w0)) w0 (current_fragment_sent_ w0 + 1) answers eq_refl)
    as (k & o & answers' & E & Hk & Ho). rewrite E. set (w1 := set_fragment _ _).
  destruct (finish_delivery o w1 seq answers') as (F1 & [T1 T2 T3 T4] & F3 & F4 & F5 & F6). cbv zeta in *.
  set (r := if bool_decide _ && _ then _ else _) in *. rewrite C2 in *.
  exists k. split; [lia|]. split; [split; by rewrite ?T1, ?T2, ?T3, ?T4|]. split; [by rewrite F4|]. split; [rewrite F5; unfold w1; simpl; lia|].
  split; [rewrite F3; unfold w1; simpl; rewrite ?C2, C3; done|]. rewrite F1. split; [rewrite Ho; lia|]. exact F6.
Qed.

(** One attempt, to each reader on its own. *)
Lemma deliver_separate w seq n relevant size answers : sw_separate_sending w = true -> 0 < n ->
  let c := if current_sequence_number_sent_ w =? seq then current_fragment_sent_ w else 0 in 0 <= c <= n ->
  let r := deliver_sample_nts w seq n relevant size answers in exists k new, 0 <= k <= n - c /\
    same_settings w r.1.2 /\ current_sequence_number_sent_ r.1.2 = seq /\ current_fragment_sent_ r.1.2 = c + k /\ sw_sent r.1.2 = sw_sent w ++ new /\
    (forall g f, g ∈ addressed w relevant -> c < f <= c + k -> mkSub [g] seq (Some f) ∈ new) /\ (k = 0 -> c = n -> new = []) /\
    (r.1.1 = DELIVERED -> c + k = n) /\ (c = n -> r.1.1 = DELIVERED) /\ (r.1.1 = DELIVERED -> stateless_is_acked_by_all r.1.2 seq = true).
Proof.
  intros Hs Hn c Hc. unfold deliver_sample_nts. set (w0 := if negb _ then _ else w).
  assert (H0 : same_settings w w0 /\ current_sequence_number_sent_ w0 = seq /\ current_fragment_sent_ w0 = c /\ sw_sent w0 = sw_sent w).
  { unfold w0, c. destruct (Z.eqb_spec (current_sequence_number_sent_ w) seq); done. }
  destruct H0 as ([S1 S2 S3 S4] & C1 & C2 & C3). rewrite S1, S3, Hs. fold (reader_guids w). fold (addressed w relevant). rewrite (proj2 (Z.ltb_lt _ _) Hn).
  destruct (fragments_to_each_spec (addressed w relevant) seq (Z.to_nat (n - current_fragment_sent_ w0)) w0 (current_fragment_sent_ w0 + 1) answers eq_refl)
    as (k & o & new & answers' & E & Hk & Ho & Hg). 
  assert (Hend : c = n -> o = went_on DELIVERED /\ new = []).
  { intros Ec. rewrite C2, Ec, Z.sub_diag in E. simpl in E. injection E as <- E _. split; [done|]. apply (f_equal sw_sent) in E. simpl in E.
    destruct new as [|m new]; [done|]. apply (f_equal length) in E. rewrite length_app in E. simpl in E. lia. }
  rewrite E. set (w1 := set_fragment _ _).
  destruct (finish_delivery o w1 seq answers') as (F1 & [T1 T2 T3 T4] & F3 & F4 & F5 & F6). cbv zeta in *.
  set (r := if bool_decide _ && _ then _ else _) in *. rewrite C2 in *.
  exists k, new. split; [lia|]. split; [split; by rewrite ?T1, ?T2, ?T3, ?T4|]. split; [by rewrite F4|]. split; [rewrite F5; unfold w1; simpl; lia|].
  split; [rewrite F3; unfold w1; simpl; by rewrite C3|]. split; [intros g f Hgl Hf; apply Hg; [done|lia]|]. split; [intros _ Ec; by apply Hend|]. rewrite F1.
  split; [intros Hd; rewrite (Ho Hd); lia|]. split; [intros Ec; by destruct (Hend Ec) as [-> _]|exact F6].
Qed.

(** A sample is delivered again until it succeeds; each try has its answers. *)
Fixpoint attempts w (seq n : Z) (relevant : GUID_t -> bool) (size : list GUID_t -> Z) (tries : list (list AddResult)) : DeliveryRetCode * StatelessWriter :=
  match tries with
  | [] => (NOT_DELIVERED, w)
  | answers :: tries =>
      let '(code, w, _) := deliver_sample_nts w seq n relevant size answers in
      if bool_decide (code = DELIVERED) then (code, w) else attempts w seq n relevant size tries
  end.

Lemma selected_same w w' relevant : same_settings w w' -> selected w' relevant = selected w relevant.
Proof. intros [_ _ _ E]. unfold selected. by rewrite E. Qed.
Lemma addressed_same w w' relevant : same_settings w w' -> addressed w' relevant = addressed w relevant.
Proof. intros [_ _ E _]. unfold addressed, reader_guids. by rewrite E. Qed.

Lemma attempts_shared seq n relevant size tries : forall w c, sw_separate_sending w = false -> 0 < n ->
  0 < size (selected w relevant) + zlen (sw_fixed_locators w) ->
  c = (if current_sequence_number_sent_ w =? seq then current_fragment_sent_ w else 0) -> 0 <= c <= n ->
  let r := attempts w seq n relevant size tries in exists k, 0 <= k <= n - c /\
    sw_sent r.2 = sw_sent w ++ map (to_all (selected w relevant) seq) (seqZ (c + 1) k) /\
    (r.1 = DELIVERED -> c + k = n /\ stateless_is_acked_by_all r.2 seq = true).
Proof.
  induction tries as [|answers tries IH]; intros w c Hs Hn Hsize Ec Hc.
  - exists 0. simpl. rewrite app_nil_r. split; [lia|]. split; done.
  - cbn [attempts]. subst c. destruct (deliver_shared w seq n relevant size answers Hs Hn Hsize Hc) as (k & Hk & Hss & Hq & Hf & Hsent & Hd & Ha). cbv zeta in *.
    set (c := if current_sequence_number_sent_ w =? seq then current_fragment_sent_ w else 0) in *.
    destruct (deliver_sample_nts w seq n relevant size answers) as [[code w1] rest]. simpl in *. case_bool_decide as Ecode.
    + exists k. simpl. split; [lia|]. split; [done|]. intros _. split; [by apply Hd|by apply Ha].
    + destruct (IH w1 (c + k)) as (k' & Hk' & Hsent' & Hd'); try done.
      * by rewrite (ss_separate _ _ Hss).
      * by rewrite (selected_same w w1), (ss_fixed _ _ Hss).
      * by rewrite Hq, Z.eqb_refl, Hf.
      * lia.
      * exists (k + k'). split; [lia|]. split.
        { rewrite Hsent', Hsent, (selected_same w w1), <- app_assoc, <- map_app by done. do 2 f_equal.
          rewrite seqZ_app by lia. do 2 f_equal. lia. }
        intros Hdd. destruct (Hd' Hdd). split; [lia|done].
Qed.

Lemma attempts_separate seq n relevant size tries : forall w c, sw_separate_sending w = true -> 0 < n ->
  c = (if current_sequence_number_sent_ w =? seq then current_fragment_sent_ w else 0) -> 0 <= c <= n ->
  let r := attempts w seq n relevant size tries in exists new, sw_sent r.2 = sw_sent w ++ new /\
    (r.1 = DELIVERED -> stateless_is_acked_by_all r.2 seq = true /\
      forall g f, g ∈ addressed w relevant -> c < f <= n -> mkSub [g] seq (Some f) ∈ new).
Proof.
  induction tries as [|answers tries IH]; intros w c Hs Hn Ec Hc.
  - exists []. simpl. by rewrite app_nil_r.
  - cbn [attempts]. subst c. destruct (deliver_separate w seq n relevant size answers Hs Hn Hc) as (k & new & Hk & Hss & Hq & Hf & Hsent & Hg & _ & Hd & _ & Ha).
    cbv zeta in *. set (c := if current_sequence_number_sent_ w =? seq then current_fragment_sent_ w else 0) in *.
    destruct (deliver_sample_nts w seq n relevant size answers) as [[code w1] rest]. simpl in *. case_bool_decide as Ecode.
    + exists new. simpl. split; [done|]. intros _. split; [by apply Ha|]. intros g f Hin Hfr. apply Hg; [done|]. specialize (Hd Ecode). lia.
    + destruct (IH w1 (c + k)) as (new' & Hsent' & Hd'); try done.
      * by rewrite (ss_separate _ _ Hss).
      * by rewrite Hq, Z.eqb_refl, Hf.
      * lia.
      * exists (new ++ new'). split; [by rewrite Hsent', Hsent, app_assoc|]. intros Hdd. destruct (Hd' Hdd) as [Hack Hall]. split; [done|].
        intros g f Hin Hfr. apply elem_of_app. destruct (Z.le_gt_cases f (c + k)); [left; apply Hg; [done|lia]|right]. apply Hall; [by rewrite (addressed_same w w1)|lia].
Qed.

(** Sent together, each fragment is sent once. *)
Lemma shared_fragments_resume w seq n relevant size tries : sw_separate_sending w = false -> 0 < n -> current_sequence_number_sent_ w <> seq ->
  0 < size (selected w relevant) + zlen (sw_fixed_locators w) ->
  let '(code, w') := attempts w seq n relevant size tries in exists k, 0 <= k <= n /\
    sw_sent w' = sw_sent w ++ map (fun f => mkSub (selected w relevant) seq (Some f)) (seqZ 1 k) /\
    (code = DELIVERED -> k = n /\ stateless_is_acked_by_all w' seq = true).
Proof.
  intros Hs Hn Hne Hsize. assert (Ec : 0 = if current_sequence_number_sent_ w =? seq then current_fragment_sent_ w else 0) by (by rewrite (proj2 (Z.eqb_neq _ _) Hne)).
  destruct (attempts_shared seq n relevant size tries w 0 Hs Hn Hsize Ec ltac:(lia)) as (k & Hk & Hsent & Hd).
  destruct (attempts w seq n relevant size tries) as [code w']. simpl in *. exists k. split; [lia|]. split; [exact Hsent|].
  intros E. destruct (Hd E). split; [lia|done].
Qed.

(** With separate sending, when a sample counts as delivered after any number of
    tries, every reader it is relevant for has been sent every fragment. *)
Theorem every_reader_gets_every_fragment w seq n relevant size tries : sw_separate_sending w = true -> 0 < n -> current_sequence_number_sent_ w <> seq ->
  let '(code, w') := attempts w seq n relevant size tries in exists new, sw_sent w' = sw_sent w ++ new /\
    (code = DELIVERED -> forall g f, g ∈ reader_guids w -> relevant g = true -> 1 <= f <= n -> mkSub [g] seq (Some f) ∈ new).
Proof.
  intros Hs Hn Hne. assert (Ec : 0 = if current_sequence_number_sent_ w =? seq then current_fragment_sent_ w else 0) by (by rewrite (proj2 (Z.eqb_neq _ _) Hne)).
  destruct (attempts_separate seq n relevant size tries w 0 Hs Hn Ec ltac:(lia)) as (new & Hsent & Hd).
  destruct (attempts w seq n relevant size tries) as [code w']. simpl in *. exists new. split; [exact Hsent|].
  intros E g f Hin Hr Hf. destruct (Hd E) as [_ Hall]. apply Hall; [|lia]. unfold addressed. rewrite list_elem_of_In, filter_In, <- list_elem_of_In. done.
Qed.

(** C11: however often the network refuses a fragment of a new sample and the delivery
    is tried again: when the fragments are sent to all readers together, and some
    locator is selected for them, they are sent in order and each once, up to the last
    one when the sample counts as delivered; with separate sending every relevant
    reader has been sent every fragment, at least once, when the sample counts as
    delivered. *)
Theorem fragments_resume w seq n relevant size tries : 0 < n -> current_sequence_number_sent_ w <> seq ->
  (sw_separate_sending w = false -> 0 < size (selected w relevant) + zlen (sw_fixed_locators w)) ->
  let '(code, w') := attempts w seq n relevant size tries in
  if sw_separate_sending w then
    exists new, sw_sent w' = sw_sent w ++ new /\
      (code = DELIVERED -> forall g f, g ∈ reader_guids w -> relevant g = true -> 1 <= f <= n -> mkSub [g] seq (Some f) ∈ new)
  else
    exists k, 0 <= k <= n /\ sw_sent w' = sw_sent w ++ map (fun f => mkSub (selected w relevant) seq (Some f)) (seqZ 1 k) /\
      (code = DELIVERED -> k = n /\ stateless_is_acked_by_all w' seq = true).
Proof.
  intros Hn Hne Hsize. destruct (sw_separate_sending w) eqn:Hs.
  - by apply every_reader_gets_every_fragment.
  - apply shared_fragments_resume; auto.
Qed.

(** C40: when a sample in fragments that was delivered is delivered again, as every
    announcement of a participant is, nothing is sent, and it counts as delivered. *)
Theorem fragments_not_sent_again w seq n relevant size answers w1 rest again : 0 < n ->
  (sw_separate_sending w = false -> 0 < size (selected w relevant) + zlen (sw_fixed_locators w)) ->
  0 <= (if current_sequence_number_sent_ w =? seq then current_fragment_sent_ w else 0) <= n ->
  deliver_sample_nts w seq n relevant size answers = (DELIVERED, w1, rest) ->
  let '(code, w2, _) := deliver_sample_nts w1 seq n relevant size again in code = DELIVERED /\ sw_sent w2 = sw_sent w1.
Proof.
  intros Hn Hsize Hc E. destruct (sw_separate_sending w) eqn:Hs.
  - destruct (deliver_separate w seq n relevant size answers Hs Hn Hc) as (k & new & Hk & Hss & Hq & Hf & _ & _ & _ & Hd & _). cbv zeta in *. rewrite E in *. simpl in *.
    specialize (Hd eq_refl). assert (Hc1 : (if current_sequence_number_sent_ w1 =? seq then current_fragment_sent_ w1 else 0) = n) by (rewrite Hq, Z.eqb_refl; lia).
    destruct (deliver_separate w1 seq n relevant size again) as (k1 & new1 & Hk1 & _ & _ & _ & Hsent1 & _ & Hnil & _ & Hd1 & _).
    { by rewrite (ss_separate _ _ Hss). } { done. } { lia. }
    destruct (deliver_sample_nts w1 seq n relevant size again) as [[code w2] rest2]. simpl in *. split; [by apply Hd1|].
    rewrite Hsent1, Hnil, app_nil_r by lia. done.
  - destruct (deliver_shared w seq n relevant size answers Hs Hn (Hsize eq_refl) Hc) as (k & Hk & Hss & Hq & Hf & _ & Hd & _). cbv zeta in *. rewrite E in *. simpl in *.
    assert (Hkn := proj1 Hd eq_refl). assert (Hc1 : (if current_sequence_number_sent_ w1 =? seq then current_fragment_sent_ w1 else 0) = n) by (rewrite Hq, Z.eqb_refl; lia).
    destruct (deliver_shared w1 seq n relevant size again) as (k1 & Hk1 & _ & _ & _ & Hsent1 & Hd1 & _).
    { by rewrite (ss_separate _ _ Hss). } { done. } { rewrite (selected_same w w1), (ss_fixed _ _ Hss) by done. by apply Hsize. } { lia. }
    destruct (deliver_sample_nts w1 seq n relevant size again) as [[code w2] rest2]. simpl in *. rewrite Hc1 in *.
    assert (k1 = 0) as -> by lia. split; [apply Hd1; lia|]. rewrite Hsent1. simpl. by rewrite app_nil_r.
Qed.

(** ** Runs *)

Inductive WriterOp :=
| op_add (g : GUID_t) (locators : list (list Z)) (expects_inline_qos : bool)
| op_remove (g : GUID_t)
| op_deliver (seq n : Z) (relevant : GUID_t -> bool) (size : list GUID_t -> Z) (answers : list AddResult).

Definition writer_step w (o : WriterOp) : option StatelessWriter :=
  match o with
  | op_add g locators expects => Some (stateless_reader_add_edp w g locators expects).2
  | op_remove g => snd <$> stateless_reader_remove w g
  | op_deliver seq n relevant size answers => Some (deliver_sample_nts w seq n relevant size answers).1.2
  end.

Fixpoint writer_run w (l : list WriterOp) : option StatelessWriter :=
  match l with [] => Some w | o :: l => w ← writer_step w o; writer_run w l end.

(** The readers that were added last and not removed since; without a limit. *)
Fixpoint wanted (l : list WriterOp) (g : GUID_t) (now : bool) : bool :=
  match l with
  | [] => now
  | op_add h _ _ :: l => wanted l g (now || bool_decide (h = g))
  | op_remove h :: l => wanted l g (now && negb (bool_decide (h = g)))
  | op_deliver _ _ _ _ _ :: l => wanted l g now
  end.

Lemma add_submessage_rest w m answers : let w' := (add_submessage w m answers).1.2 in
  sw_entries w' = sw_entries w /\ sw_readers w' = sw_readers w /\ sw_pool w' = sw_pool w /\ sw_limit w' = sw_limit w.
Proof. unfold add_submessage. simpl. by destruct (default submessage_added (head answers)). Qed.

(** A delivery leaves the readers, the selector and the pool as they are. *)
Definition same_readers w w' : Prop :=
  sw_entries w' = sw_entries w /\ sw_readers w' = sw_readers w /\ sw_pool w' = sw_pool w /\ sw_limit w' = sw_limit w.

Lemma deliver_readers w seq n relevant size answers : same_readers w (deliver_sample_nts w seq n relevant size answers).1.2.
Proof.
  unfold deliver_sample_nts. set (w0 := if negb _ then _ else w). assert (H0 : same_readers w w0) by (unfold w0; by destruct (negb _)).
  match goal with |- context [if sw_separate_sending w0 then ?a else ?b] => set (loop := if sw_separate_sending w0 then a else b) end.
  assert (H1 : same_readers w loop.1.2).
  { unfold loop. destruct (sw_separate_sending w0).
    - destruct (0 <? n).
      + destruct (fragments_to_each_spec (List.filter relevant (map rl_remote_guid (sw_readers w0))) seq (Z.to_nat (n - current_fragment_sent_ w0)) w0
          (current_fragment_sent_ w0 + 1) answers eq_refl) as (k & o & new & answers' & -> & _). exact H0.
      + destruct (send_to_each_spec (List.filter relevant (map rl_remote_guid (sw_readers w0))) seq None w0 answers DELIVERED) as (o & new & answers' & -> & _). exact H0.
    - destruct (0 <? _); [|exact H0]. set (l := List.filter _ _). destruct (0 <? n).
      + destruct (fragments_to_all_spec l seq (Z.to_nat (n - current_fragment_sent_ w0)) w0 (current_fragment_sent_ w0 + 1) answers eq_refl)
          as (k & o & answers' & -> & _). exact H0.
      + unfold add_submessage. by destruct (default submessage_added (head answers)). }
  destruct loop as [[o w1] answers']. simpl in H1. cbv zeta. destruct (bool_decide _ && _); [|exact H1]. unfold writer_call_if. simpl. by destruct (sw_listener w1).
Qed.

Lemma step_accounted w o : accounted w -> exists w', writer_step w o = Some w' /\ accounted w' /\ sw_limit w' = sw_limit w /\
  (sw_limit w = None -> forall g, g ∈ reader_guids w' <-> wanted [o] g (bool_decide (g ∈ reader_guids w)) = true).
Proof.
  intros Ha. destruct o as [h locators expects|h|seq n relevant size answers]; simpl.
  - eexists. split; [done|]. pose proof (reader_add_spec w h locators expects Ha) as Hs. destruct (stateless_reader_add_edp w h locators expects) as [added w'].
    destruct Hs as (Ha' & _ & Hl & _ & Hg & Hn & Hor). split; [done|]. split; [done|]. intros Hlim g. destruct Hor as [Hin|]; [|congruence].
    rewrite orb_true_iff, !bool_decide_eq_true. simpl. destruct added.
    + rewrite Hg, elem_of_app, list_elem_of_singleton. split; (intros [?|?]; [by left|right; congruence]).
    + rewrite Hg in *. split; [by left|]. by intros [?|<-].
  - destruct (reader_remove_spec w h Ha) as (removed & w' & -> & Ha' & _ & Hl & _ & _ & Hg). exists w'. split; [done|]. split; [done|]. split; [done|].
    intros _ g. rewrite Hg, andb_true_iff, negb_true_iff, bool_decide_eq_true, bool_decide_eq_false. split; (intros [? ?]; split; congruence || done).
  - eexists. split; [done|]. destruct (deliver_readers w seq n relevant size answers) as (E & R & P & L).
    split; [by apply (accounted_rest w)|]. split; [done|]. intros _ g. unfold reader_guids. rewrite R. by rewrite bool_decide_eq_true.
Qed.

Lemma wanted_step o l g now : wanted (o :: l) g now = wanted l g (wanted [o] g now).
Proof. by destruct o. Qed.

Lemma run_accounted l : forall w, accounted w -> exists w', writer_run w l = Some w' /\ accounted w' /\ sw_limit w' = sw_limit w /\
  (sw_limit w = None -> forall g, g ∈ reader_guids w' <-> wanted l g (bool_decide (g ∈ reader_guids w)) = true).
Proof.
  induction l as [|o l IH]; intros w Ha.
  - exists w. split; [done|]. split; [done|]. split; [done|]. intros _ g. simpl. by rewrite bool_decide_eq_true.
  - destruct (step_accounted w o Ha) as (w1 & E1 & A1 & L1 & G1). destruct (IH w1 A1) as (w2 & E2 & A2 & L2 & G2). exists w2.
    cbn [writer_run]. rewrite E1. split; [done|]. split; [done|]. split; [congruence|]. intros Hl g. rewrite G2, wanted_step by congruence.
    assert (Eb : bool_decide (g ∈ reader_guids w1) = wanted [o] g (bool_decide (g ∈ reader_guids w))).
    { apply eq_true_iff_eq. rewrite bool_decide_eq_true. by apply G1. }
    by rewrite Eb.
Qed.

(** Whatever readers are matched and removed between deliveries, no assertion
    fails, the selector holds the matched readers, each once, the readers in use and
    the free ones keep to the limit, and without one the readers are those added and
    not removed. *)
Theorem readers_are_accounted g listener separate limit initial l : match limit with Some n => Z.of_nat initial <= n | None => True end ->
  exists w, writer_run (stateless_writer_new g listener separate limit initial) l = Some w /\
    sw_entries w ≡ₚ reader_guids w /\ NoDup (reader_guids w) /\
    match limit with
    | Some n => zlen (sw_readers w) + Z.of_nat (sw_pool w) <= n
    | None => forall h, h ∈ reader_guids w <-> wanted l h false = true
    end.
Proof.
  intros Hi. destruct (run_accounted l (stateless_writer_new g listener separate limit initial)) as (w & E & [He Hd Hl] & L & G).
  { split; [done|constructor|]. simpl. intros n ->. unfold zlen. simpl. lia. }
  exists w. split; [exact E|]. split; [done|]. split; [done|]. simpl in L. destruct limit as [n|]; [by apply Hl|]. intros h. by rewrite (G eq_refl h).
Qed.

(** ** Witnesses *)

Definition reader_1 : GUID_t := mkGUID (repeat 1 12) [0; 0; 1; 0x04].
Definition reader_2 : GUID_t := mkGUID (repeat 2 12) [0; 0; 1; 0x04].
Definition two_readers (separate : bool) : StatelessWriter :=
  (stateless_reader_add_edp (stateless_reader_add_edp (stateless_writer_new reader_1 true separate (Some 4) 2) reader_1 [] false).2 reader_2 [] false).2.
Definition everyone (_ : GUID_t) : bool := true.
Definition one_each (l : list GUID_t) : Z := zlen l.

Lemma readers_are_accounted_witness : Z.of_nat 2 <= 3 /\ exists w,
  writer_run (stateless_writer_new reader_1 true false (Some 3) 2) [op_add reader_1 [] false; op_add reader_2 [] true; op_remove reader_1] = Some w /\
  sw_entries w ≡ₚ reader_guids w /\ NoDup (reader_guids w) /\ zlen (sw_readers w) + Z.of_nat (sw_pool w) <= 3.
Proof.
  split; [lia|]. apply (readers_are_accounted reader_1 true false (Some 3) 2 [op_add reader_1 [] false; op_add reader_2 [] true; op_remove reader_1]). lia.
Defined.

Lemma fragments_resume_witness :
  (let '(code, w') := attempts (two_readers false) 7 3 everyone one_each [[submessage_added; submessage_refused]; [group_timeout]; []] in
   code = DELIVERED /\ exists k, 0 <= k <= 3 /\
    sw_sent w' = sw_sent (two_readers false) ++ map (fun f => mkSub (selected (two_readers false) everyone) 7 (Some f)) (seqZ 1 k) /\
    (code = DELIVERED -> k = 3 /\ stateless_is_acked_by_all w' 7 = true)) /\
  (let '(code, w') := attempts (two_readers true) 7 2 everyone one_each [[submessage_refused]; []] in
   code = DELIVERED /\ exists new, sw_sent w' = sw_sent (two_readers true) ++ new /\
    (code = DELIVERED -> forall g f, g ∈ reader_guids (two_readers true) -> everyone g = true -> 1 <= f <= 2 -> mkSub [g] 7 (Some f) ∈ new)).
Proof.
  split.
  - pose proof (fragments_resume (two_readers false) 7 3 everyone one_each [[submessage_added; submessage_refused]; [group_timeout]; []]
      eq_refl ltac:(vm_compute; congruence) (fun _ => eq_refl)) as H. simpl sw_separate_sending in H. cbv iota in H.
    destruct (attempts _ _ _ _ _ _) as [code w'] eqn:E. split; [|exact H]. vm_compute in E. by injection E as <- _.
  - pose proof (fragments_resume (two_readers true) 7 2 everyone one_each [[submessage_refused]; []]
      eq_refl ltac:(vm_compute; congruence) ltac:(discriminate)) as H. simpl sw_separate_sending in H. cbv iota in H.
    destruct (attempts _ _ _ _ _ _) as [code w'] eqn:E. split; [|exact H]. vm_compute in E. by injection E as <- _.
Defined.

Lemma fragments_not_sent_again_witness : exists w1,
  deliver_sample_nts (two_readers false) 7 3 everyone one_each [] = (DELIVERED, w1, []) /\
  let '(code, w2, _) := deliver_sample_nts w1 7 3 everyone one_each [] in code = DELIVERED /\ sw_sent w2 = sw_sent w1.
Proof.
  eexists. split; [vm_compute; reflexivity|].
  eapply (fragments_not_sent_again (two_readers false) 7 3 everyone one_each [] _ [] []); [lia|intros _; vm_compute; reflexivity|vm_compute; split; congruence|vm_compute; reflexivity].
Defined.
