(* ===== verification/EndpointMatches.v ===== *)
(** * Matches are exact, and both ends agree

    The theorems of endpoint discovery, for all endpoints that keep the laws, and
    a run of two participants with a best-effort reader and a best-effort writer.

    The best-effort reader and writer are behind the interface of
    [EndpointDiscovery.v]: they satisfy the laws of [EndpointDiscoveryInv.v], so
    that what is proved of discovery holds with them.  An endpoint comes with the invariant of its
    collections.  The locators and the inline QoS of a reader are not part of its
    data here. *)

From stdpp Require Import gmap.
From S2P Require Import Prelude SequenceNumber ParameterList ReaderProxy ReaderHistory LimitedVector Liveliness Partition Matching EndpointDiscovery EndpointDiscoveryInv EndpointDiscoveryLaws.
From S2P Require Import EndpointDiscoveryRuns StatelessReader StatelessWriter.

(** ** Readers *)

Definition writer_guids (r : StatelessReader) : list GUID_t := matched_writers_guids r.
Definition distinct_writers (r : StatelessReader) : Prop := NoDup (writer_guids r).

Lemma writer_info_none r g : writer_info r g = None <-> g ∉ writer_guids r.
Proof.
  unfold writer_info, writer_guids, matched_writers_guids. induction (sl_writers r) as [|w l IH]; simpl; [split; [intros _ H; inversion H|done]|].
  unfold is_writer at 1. rewrite not_elem_of_cons. case_bool_decide as E; [split; [done|intros [? _]; congruence]|]. rewrite IH.
  split; [|tauto]. intros ?. split; [congruence|done].
Qed.

Lemma call_if_rest b r c : let r' := call_if b r c in
  sl_guid r' = sl_guid r /\ sl_limit r' = sl_limit r /\ sl_listener r' = sl_listener r /\ sl_writers r' = sl_writers r.
Proof. by destruct b. Qed.

Lemma writer_add_spec r d : distinct_writers r -> let '(added, r') := stateless_writer_add_edp r d in
  sl_guid r' = sl_guid r /\ sl_limit r' = sl_limit r /\
  writer_guids r' = (if added then writer_guids r ++ [wd_guid d] else writer_guids r) /\ (added = true -> wd_guid d ∉ writer_guids r) /\
  (wd_guid d ∈ writer_guids r' \/ sl_limit r <> None).
Proof.
  intros Hd. unfold stateless_writer_add_edp. destruct (writer_info r (wd_guid d)) as [w|] eqn:Ei.
  - assert (Hin : wd_guid d ∈ writer_guids r) by (destruct (decide (wd_guid d ∈ writer_guids r)) as [|Hn]; [done|]; apply writer_info_none in Hn; congruence).
    set (r1 := call_if _ _ (writer_update_its_ownership_strength_nts _ _)). destruct (call_if_rest (sl_exclusive r && negb (rw_ownership_strength w =? wq_strength (wd_qos d))) r
      (writer_update_its_ownership_strength_nts (wd_guid d) (wq_strength (wd_qos d)))) as (G1 & L1 & B1 & W1). fold r1 in G1, L1, B1, W1.
    set (r2 := sl_set_writers r1 _ _). assert (W2 : writer_guids r2 = writer_guids r).
    { unfold writer_guids, matched_writers_guids, r2. simpl. by rewrite set_info_guids, W1. }
    destruct (call_if_rest (sl_listener r2) r2 (on_writer_discovery CHANGED_QOS_WRITER (wd_guid d))) as (-> & -> & _ & Ew).
    unfold writer_guids, matched_writers_guids in *. rewrite Ew. split; [by rewrite <- G1|]. split; [by rewrite <- L1|]. split; [exact W2|]. split; [done|]. left. by rewrite W2.
  - apply writer_info_none in Ei. destruct (match sl_limit r with Some n => _ | None => false end) eqn:Efull.
    { do 4 (split; [done|]). right. by destruct (sl_limit r). }
    match goal with |- context [call_if (sl_finite_lease ?x) ?x ?c] => set (r1 := x); destruct (call_if_rest (sl_finite_lease r1) r1 c) as (G2 & L2 & B2 & W2); set (r2 := call_if (sl_finite_lease r1) r1 c) in * end.
    destruct (call_if_rest (sl_listener r2) r2 (on_writer_discovery DISCOVERED_WRITER (wd_guid d))) as (-> & -> & _ & Ew).
    unfold writer_guids, matched_writers_guids in *. rewrite Ew, G2, L2, W2. unfold r1. simpl. rewrite map_app. simpl.
    do 3 (split; [done|]). split; [done|]. left. apply elem_of_app. right. by left.
Qed.

Lemma change_removed_rest cs : forall r, let r' := fold_left stateless_change_removed cs r in
  sl_guid r' = sl_guid r /\ sl_limit r' = sl_limit r /\ sl_writers r' = sl_writers r.
Proof.
  induction cs as [|c cs IH]; intros r; [done|]. cbn [fold_left]. destruct (IH (stateless_change_removed r c)) as (-> & -> & ->).
  unfold stateless_change_removed. by destruct (_ && _).
Qed.

Lemma writer_remove_spec r g l : distinct_writers r -> let '(removed, r') := stateless_writer_remove r g l in
  sl_guid r' = sl_guid r /\ sl_limit r' = sl_limit r /\ distinct_writers r' /\ forall h, h ∈ writer_guids r' <-> h ∈ writer_guids r /\ h <> g.
Proof.
  intros Hd. unfold stateless_writer_remove. set (r0 := fold_left _ _ _).
  destruct (change_removed_rest (filter (fun c => in_writer c = g) (r_changes (sl_history r))) (sl_set_history r (remove_changes_with_guid (sl_history r) g) (sl_unread r)))
    as (G0 & L0 & W0). fold r0 in G0, L0, W0. simpl in G0, L0, W0.
  assert (E0 : writer_guids r0 = writer_guids r) by (unfold writer_guids, matched_writers_guids; by rewrite W0).
  destruct (writer_info r0 g) as [w|] eqn:Ei.
  - assert (Hin : g ∈ writer_guids r0) by (destruct (decide (g ∈ writer_guids r0)) as [|Hn]; [done|]; apply writer_info_none in Hn; congruence).
    pose proof (erase_if_spec (is_writer g) (sl_writers r0)) as He.
    match goal with |- context [call_if (sl_listener ?x) ?x ?c] => set (r1 := x); destruct (call_if_rest (sl_listener r1) r1 c) as (G2 & L2 & B2 & W2); set (r2 := call_if (sl_listener r1) r1 c) in * end.
    destruct (call_if_rest (sl_finite_lease r2) r2 (sub_liveliness_remove g)) as (-> & -> & _ & Ew).
    destruct (erase_if (is_writer g) (sl_writers r0)) as [found ws] eqn:Ee.
    assert (E1 : sl_writers r1 = ws) by (change (sl_writers r1) with (erase_if (is_writer g) (sl_writers r0)).2; by rewrite Ee). destruct found.
    2:{ destruct He as [_ He]. exfalso. apply list_elem_of_fmap in Hin as (y & -> & Hy). rewrite list.Forall_forall in He. specialize (He y Hy).
        unfold is_writer in He. by apply bool_decide_eq_false in He. }
    destruct He as (l1 & y & l2 & El & -> & Ey & _). unfold is_writer in Ey. apply bool_decide_eq_true in Ey.
    assert (Eg : writer_guids r = map rw_guid l1 ++ g :: map rw_guid l2).
    { rewrite <- E0. unfold writer_guids, matched_writers_guids. rewrite El, map_app. simpl. by rewrite Ey. }
    assert (Hd' : NoDup (g :: map rw_guid (l1 ++ l2))) by (rewrite map_app, Permutation_middle, <- Eg; done).
    apply list.NoDup_cons in Hd' as [Hni Hd'].
    unfold distinct_writers, writer_guids, matched_writers_guids. rewrite Ew, W2, E1. split; [by rewrite G2|]. split; [by rewrite L2|]. split; [done|].
    intros h. fold (matched_writers_guids r). fold (writer_guids r). rewrite Eg, <- Permutation_middle, <- map_app, elem_of_cons.
    split; [intros Hh; split; [by right|by intros ->]|]. by intros [[->|?] ?].
  - apply writer_info_none in Ei. split; [done|]. split; [done|]. unfold distinct_writers. rewrite E0 in *. split; [done|]. intros h.
    split; [|tauto]. intros Hh. split; [done|]. by intros ->.
Qed.

Record BestEffortReader := mkBER { ber :> StatelessReader; ber_distinct : distinct_writers ber }.

Lemma add_distinct (r : BestEffortReader) d : distinct_writers (stateless_writer_add_edp r d).2.
Proof.
  pose proof (writer_add_spec r d (ber_distinct r)) as H. destruct (stateless_writer_add_edp r d) as [added r']. simpl. destruct H as (_ & _ & Hg & Hn & _).
  unfold distinct_writers. rewrite Hg. destruct added; [|apply ber_distinct]. apply list.NoDup_app. split; [apply ber_distinct|]. split; [|apply NoDup_singleton].
  intros x Hx Hs. apply list_elem_of_singleton in Hs as ->. by apply Hn.
Qed.
Lemma remove_distinct (r : BestEffortReader) g l : distinct_writers (stateless_writer_remove r g l).2.
Proof. pose proof (writer_remove_spec r g l (ber_distinct r)) as H. destruct (stateless_writer_remove r g l) as [b r']. simpl. tauto. Qed.

#[export] Instance BestEffortReader_endpoint : Endpoint BestEffortReader WriterProxyData := {|
  getGuid (r : BestEffortReader) := sl_guid r;
  has_listener (r : BestEffortReader) := sl_listener r;
  is_matched (r : BestEffortReader) g := stateless_writer_is_matched r g;
  matched_add (r : BestEffortReader) d := ((stateless_writer_add_edp r d).1, mkBER _ (add_distinct r d));
  matched_remove (r : BestEffortReader) g l := ((stateless_writer_remove r g l).1, mkBER _ (remove_distinct r g l))
|}.

#[export, refine] Instance BestEffortReader_laws : EndpointLaws BestEffortReader WriterProxyData wd_guid := {|
  pairs (r : BestEffortReader) g := g ∈ writer_guids r;
  unlimited (r : BestEffortReader) := sl_limit r = None
|}.
Proof.
  - intros r g. simpl. unfold stateless_writer_is_matched, writer_guids, matched_writers_guids. rewrite existsb_exists, list_elem_of_fmap. split.
    + intros (w & Hw & E). apply bool_decide_eq_true in E. exists w. split; [done|]. by apply list_elem_of_In.
    + intros (w & -> & Hw). exists w. split; [by apply list_elem_of_In|]. by apply bool_decide_eq_true.
  - intros r d. simpl. pose proof (writer_add_spec r d (ber_distinct r)) as H. destruct (stateless_writer_add_edp r d). simpl. tauto.
  - intros r d. simpl. pose proof (writer_add_spec r d (ber_distinct r)) as H. destruct (stateless_writer_add_edp r d). simpl. destruct H as (_ & -> & _). done.
  - intros r d g Hg. simpl. pose proof (writer_add_spec r d (ber_distinct r)) as H. destruct (stateless_writer_add_edp r d) as [b r']. simpl.
    destruct H as (_ & _ & -> & _). destruct b; [|done]. rewrite elem_of_app, list_elem_of_singleton. tauto.
  - intros r d Hp. simpl in *. pose proof (writer_add_spec r d (ber_distinct r)) as H. destruct (stateless_writer_add_edp r d) as [b r']. simpl.
    destruct H as (_ & _ & -> & _). destruct b; [|done]. apply elem_of_app. by left.
  - intros r d Hu _. simpl in *. pose proof (writer_add_spec r d (ber_distinct r)) as H. destruct (stateless_writer_add_edp r d) as [b r']. simpl.
    destruct H as (_ & _ & _ & _ & [?|?]); done.
  - intros r g l. simpl. pose proof (writer_remove_spec r g l (ber_distinct r)) as H. destruct (stateless_writer_remove r g l). simpl. tauto.
  - intros r g l. simpl. pose proof (writer_remove_spec r g l (ber_distinct r)) as H. destruct (stateless_writer_remove r g l). simpl. destruct H as (_ & -> & _). done.
  - intros r g l h. simpl. pose proof (writer_remove_spec r g l (ber_distinct r)) as H. destruct (stateless_writer_remove r g l). simpl. by destruct H as (_ & _ & _ & H).
Defined.

(** ** Writers *)

Record BestEffortWriter := mkBEW { bew :> StatelessWriter; bew_accounted : accounted bew }.

Definition remove_reader_total (w : StatelessWriter) g : bool * StatelessWriter := default (false, w) (stateless_reader_remove w g).

Lemma add_accounted (w : BestEffortWriter) d : accounted (stateless_reader_add_edp w (rpd_guid d) [] false).2.
Proof. pose proof (reader_add_spec w (rpd_guid d) [] false (bew_accounted w)) as H. destruct (stateless_reader_add_edp w _ _ _). simpl. tauto. Qed.
Lemma remove_accounted (w : BestEffortWriter) g : accounted (remove_reader_total w g).2.
Proof. destruct (reader_remove_spec w g (bew_accounted w)) as (b & w' & E & H). unfold remove_reader_total. rewrite E. simpl. tauto. Qed.

#[export] Instance BestEffortWriter_endpoint : Endpoint BestEffortWriter ReaderProxyData := {|
  getGuid (w : BestEffortWriter) := sw_guid w;
  has_listener (w : BestEffortWriter) := sw_listener w;
  is_matched (w : BestEffortWriter) g := stateless_reader_is_matched w g;
  matched_add (w : BestEffortWriter) d := ((stateless_reader_add_edp w (rpd_guid d) [] false).1, mkBEW _ (add_accounted w d));
  matched_remove (w : BestEffortWriter) g _ := ((remove_reader_total w g).1, mkBEW _ (remove_accounted w g))
|}.

#[export, refine] Instance BestEffortWriter_laws : EndpointLaws BestEffortWriter ReaderProxyData rpd_guid := {|
  pairs (w : BestEffortWriter) g := g ∈ reader_guids w;
  unlimited (w : BestEffortWriter) := sw_limit w = None
|}.
Proof.
  - intros w g. simpl. unfold stateless_reader_is_matched, reader_guids. rewrite existsb_exists, list_elem_of_fmap. split.
    + intros (x & Hx & E). apply bool_decide_eq_true in E. exists x. split; [done|]. by apply list_elem_of_In.
    + intros (x & -> & Hx). exists x. split; [by apply list_elem_of_In|]. by apply bool_decide_eq_true.
  - intros w d. simpl. pose proof (reader_add_spec w (rpd_guid d) [] false (bew_accounted w)) as H. destruct (stateless_reader_add_edp w _ _ _). simpl. tauto.
  - intros w d. simpl. pose proof (reader_add_spec w (rpd_guid d) [] false (bew_accounted w)) as H. destruct (stateless_reader_add_edp w _ _ _). simpl.
    destruct H as (_ & _ & -> & _). done.
  - intros w d g Hg. simpl. pose proof (reader_add_spec w (rpd_guid d) [] false (bew_accounted w)) as H. destruct (stateless_reader_add_edp w _ _ _) as [b w']. simpl.
    destruct H as (_ & _ & _ & _ & -> & _). destruct b; [|done]. rewrite elem_of_app, list_elem_of_singleton. tauto.
  - intros w d Hp. simpl in *. pose proof (reader_add_spec w (rpd_guid d) [] false (bew_accounted w)) as H. destruct (stateless_reader_add_edp w _ _ _) as [b w']. simpl.
    destruct H as (_ & _ & _ & _ & -> & _). destruct b; [|done]. apply elem_of_app. by left.
  - intros w d Hu _. simpl in *. pose proof (reader_add_spec w (rpd_guid d) [] false (bew_accounted w)) as H. destruct (stateless_reader_add_edp w _ _ _) as [b w']. simpl.
    destruct H as (_ & _ & _ & _ & _ & _ & [?|?]); [done|congruence].
  - intros w g l. simpl. destruct (reader_remove_spec w g (bew_accounted w)) as (b & w' & E & H). unfold remove_reader_total. rewrite E. simpl. tauto.
  - intros w g l. simpl. destruct (reader_remove_spec w g (bew_accounted w)) as (b & w' & E & H). unfold remove_reader_total. rewrite E. simpl.
    destruct H as (_ & _ & -> & _). done.
  - intros w g l h. simpl. destruct (reader_remove_spec w g (bew_accounted w)) as (b & w' & E & H). unfold remove_reader_total. rewrite E. simpl. by destruct H as (_ & _ & _ & _ & _ & H).
Defined.

(** * Matches are exact, and both ends agree *)

Section Matches.
Context {R W : Type} `{RE : !Endpoint R WriterProxyData} `{WE : !Endpoint W ReaderProxyData}.
Context {RL : EndpointLaws R WriterProxyData wd_guid} {WL : EndpointLaws W ReaderProxyData rpd_guid}.
Variable fnmatch : list Z -> list Z -> bool.
Implicit Types s : Discovery R W.

(** C6: whatever the participant has been told and its application has done, as
    long as nobody else announces the end of an endpoint of its own, a local endpoint
    is matched only with endpoints it knows and that are visible to it.  A local
    reader outside of [U], the readers whose last registration or update failed for an
    incomplete content filter, is matched only with compatible writers, and, if it has
    no limit, with all of them; and so is a local writer with the readers outside
    of [U]. *)
Theorem matches_are_exact U s : reached fnmatch U s ->
  (forall e, e ∈ d_readers s -> forall h, (pairs e h -> reader_base s (getGuid e) h) /\
     (getGuid e ∉ U -> (pairs e h -> reader_should fnmatch s (getGuid e) h) /\ (unlimited e -> reader_should fnmatch s (getGuid e) h -> pairs e h))) /\
  (forall e, e ∈ d_writers s -> forall h, (pairs e h -> writer_base s (getGuid e) h) /\
     (h ∉ U -> (pairs e h -> writer_should fnmatch s (getGuid e) h) /\ (unlimited e -> writer_should fnmatch s (getGuid e) h -> pairs e h))).
Proof. intros Hs. destruct (discovery_inv fnmatch U s Hs) as [_ Ir Iw]. split; intros e He h; [destruct (Ir e He h)|destruct (Iw e He h)]; done. Qed.

(** Each participant knows the reader and the writer, and they know the same of
    them, as far as matching looks at it. *)
Definition same_knowledge (s1 s2 : Discovery R W) (gr gw : GUID_t) : Prop := exists rd1 wd1 rd2 wd2,
  lookupReaderProxyData s1 gr = Some rd1 /\ lookupWriterProxyData s1 gw = Some wd1 /\
  lookupReaderProxyData s2 gr = Some rd2 /\ lookupWriterProxyData s2 gw = Some wd2 /\ reader_key rd1 = reader_key rd2 /\ writer_key wd1 = writer_key wd2.

(** C7: when two participants with different prefixes know the same of a reader of
    the one and a writer of the other, neither of which has a limit, and the reader's
    last update did not fail, the reader is matched with the writer exactly when the
    writer is matched with the reader. *)
Theorem both_ends_agree U1 U2 s1 s2 r w : reached fnmatch U1 s1 -> reached fnmatch U2 s2 -> r ∈ d_readers s1 -> w ∈ d_writers s2 -> unlimited r -> unlimited w ->
  getGuid r ∉ U1 -> same_knowledge s1 s2 (getGuid r) (getGuid w) -> guidPrefix (d_guid s1) <> guidPrefix (d_guid s2) -> pairs r (getGuid w) <-> pairs w (getGuid r).
Proof.
  intros H1 H2 Hr Hw Hur Huw HU1 (rd1 & wd1 & rd2 & wd2 & R1 & W1 & R2 & W2 & Kr & Kw) Hne.
  destruct (discovery_inv fnmatch U1 s1 H1) as [F1 I1 _], (discovery_inv fnmatch U2 s2 H2) as [F2 _ I2].
  pose proof (wf_local_readers _ F1) as L1. rewrite list.Forall_forall in L1. pose proof (wf_local_writers _ F2) as L2. rewrite list.Forall_forall in L2.
  assert (HU2 : getGuid r ∉ U2) by (intros Hin; apply (open_local fnmatch U2 s2 H2) in Hin; rewrite L1 in Hin by done; congruence).
  assert (V1 : visible s1 (getGuid w)) by (right; rewrite L2 by done; congruence).
  assert (V2 : visible s2 (getGuid r)) by (right; rewrite L1 by done; congruence).
  destruct (I1 r Hr (getGuid w)) as [[S1 C1] _]; [exact HU1|]. destruct (I2 w Hw (getGuid r)) as [[S2 C2] _]; [exact HU2|].
  pose proof (valid_matching_keys fnmatch wd1 wd2 rd1 rd2 Kw Kr) as Ev. split.
  - intros [(x & y & Ex & Ey & Hv) _]%S1. apply C2; [done|]. split; [|done]. exists rd2, wd2. split; [done|]. split; [done|]. rewrite <- Ev. congruence.
  - intros [(x & y & Ex & Ey & Hv) _]%S2. apply C1; [done|]. split; [|done]. exists rd1, wd1. split; [done|]. split; [done|]. rewrite Ev. congruence.
Qed.

(** A removal is obeyed whoever announces it: also that of a local reader. *)
Lemma anyone_removes s ok g : wf s -> is_Some (lookupReaderProxyData s g) -> lookupReaderProxyData (on_reader_news fnmatch s ok (reader_gone g)) g = None.
Proof.
  intros Hw [d Hd]. simpl. destruct (remove_reader_spec s g Hw) as [[Hn _]|(s' & ws & cs & -> & _ & Hset)]; [congruence|]. apply (rs_this _ _ _ _ Hset).
Qed.

End Matches.

(** ** Two participants *)

(** Patterns without wildcards. *)
Definition same_name (a b : list Z) : bool := bool_decide (a = b).

Definition prefix_a : GuidPrefix_t := repeat 1 12.
Definition prefix_b : GuidPrefix_t := repeat 2 12.
Definition participant_a : GUID_t := mkGUID prefix_a [0; 0; 1; 0xc1].
Definition participant_b : GUID_t := mkGUID prefix_b [0; 0; 1; 0xc1].
Definition the_reader : GUID_t := mkGUID prefix_a [0; 0; 1; 0x04].
Definition the_writer : GUID_t := mkGUID prefix_b [0; 0; 1; 0x03].
Definition a_topic : TopicDescription := mkTopic [116] [84] TypeInformationParameter_new.

Definition Two := Discovery BestEffortReader BestEffortWriter.
Definition ten : ProxyPool := mkPool 0 0 10.
Definition fresh_reader : BestEffortReader :=
  mkBER (stateless_reader_new the_reader false false true None false empty_history) (NoDup_nil_2 (A := GUID_t)).

Lemma fresh_writer_accounted : accounted (stateless_writer_new the_writer true false None 2).
Proof. split; [done|constructor|done]. Qed.
Definition fresh_writer : BestEffortWriter := mkBEW _ fresh_writer_accounted.

(** Each creates and registers an endpoint; they find each other and are told of the
    other endpoint. *)
Definition a0 : Two := new_participant participant_a false TYPEPROPAGATION_ENABLED 5 ten ten.
Definition a1 : Two := set_endpoints a0 [fresh_reader] [] [].
Definition a2 : Two := (new_reader_proxy_data same_name a1 the_reader a_topic blank_reader_qos None).2.
Definition a3 : Two := default a2 (add_participant_proxy_data a2 participant_b).
Definition b0 : Two := new_participant participant_b false TYPEPROPAGATION_ENABLED 5 ten ten.
Definition b1 : Two := set_endpoints b0 [] [fresh_writer] [].
Definition b2 : Two := (new_writer_proxy_data same_name b1 the_writer c_Guid_Unknown a_topic blank_writer_qos).2.
Definition b3 : Two := default b2 (add_participant_proxy_data b2 participant_a).
Definition a4 : Two := fold_left (fun s n => on_writer_news same_name s true n) (d_publications b3) a3.
Definition b4 : Two := fold_left (fun s n => on_reader_news same_name s true n) (d_subscriptions a3) b3.

Lemma reached_a : reached same_name [] a4.
Proof.
  assert (R0 : reached same_name [] a0) by (apply reached_new; by vm_compute).
  assert (R1 : reached same_name [] a1).
  { eapply reached_step; [exact R0|]. apply (step_create_reader same_name [] a0 fresh_reader); [intros h Hh; inversion Hh|done|intros Hh; inversion Hh|by vm_compute]. }
  assert (R2 : reached same_name [] a2).
  { eapply reached_step; [exact R1|]. apply (step_register_reader same_name [] a1 the_reader a_topic blank_reader_qos None true); [done|vm_compute; reflexivity]. }
  assert (R3 : reached same_name [] a3).
  { eapply reached_step; [exact R2|]. apply (step_participant_found same_name [] a2 participant_b a3); [intros p Hp|by vm_compute|done].
    assert (E : Forall (fun p => prefix_of p <> guidPrefix participant_b) (d_participants a2)) by (vm_compute; repeat constructor; congruence).
    rewrite list.Forall_forall in E. by apply E. }
  eapply reached_step; [exact R3|]. assert (E : exists d, d_publications b3 = [writer_alive d]) by (eexists; vm_compute; reflexivity). destruct E as [d E].
  unfold a4. rewrite E. cbn [fold_left]. by apply step_writer_news.
Qed.

Lemma reached_b : reached same_name [] b4.
Proof.
  assert (R0 : reached same_name [] b0) by (apply reached_new; by vm_compute).
  assert (R1 : reached same_name [] b1).
  { eapply reached_step; [exact R0|]. apply (step_create_writer same_name [] b0 fresh_writer); [intros h Hh; inversion Hh|done|intros Hh; inversion Hh|by vm_compute]. }
  assert (R2 : reached same_name [] b2).
  { eapply reached_step; [exact R1|]. by apply (step_register_writer same_name [] b1 the_writer c_Guid_Unknown a_topic blank_writer_qos). }
  assert (R3 : reached same_name [] b3).
  { eapply reached_step; [exact R2|]. apply (step_participant_found same_name [] b2 participant_a b3); [intros p Hp|by vm_compute|done].
    assert (E : Forall (fun p => prefix_of p <> guidPrefix participant_a) (d_participants b2)) by (vm_compute; repeat constructor; congruence).
    rewrite list.Forall_forall in E. by apply E. }
  eapply reached_step; [exact R3|]. assert (E : exists d, d_subscriptions a3 = [reader_alive d]) by (eexists; vm_compute; reflexivity). destruct E as [d E].
  unfold b4. rewrite E. cbn [fold_left]. by apply step_reader_news.
Qed.

(** The reader is matched with the writer. *)
Lemma matches_are_exact_witness : reached same_name [] a4 /\ map (fun e => is_matched e the_writer) (d_readers a4) = [true] /\
  (forall e, e ∈ d_readers a4 -> forall h, (pairs e h -> reader_base a4 (getGuid e) h) /\
     (getGuid e ∉ [] -> (pairs e h -> reader_should same_name a4 (getGuid e) h) /\ (unlimited e -> reader_should same_name a4 (getGuid e) h -> pairs e h))).
Proof. split; [exact reached_a|]. split; [vm_compute; reflexivity|]. exact (proj1 (matches_are_exact same_name [] a4 reached_a)). Defined.

Lemma both_ends_agree_witness : exists r w, r ∈ d_readers a4 /\ w ∈ d_writers b4 /\ is_matched r the_writer = true /\
  (pairs r (getGuid w) <-> pairs w (getGuid r)).
Proof.
  assert (Ha : map (fun e : BestEffortReader => (sl_guid e, sl_limit e, is_matched e the_writer)) (d_readers a4) = [(the_reader, None, true)]) by (vm_compute; reflexivity).
  assert (Hb : map (fun e : BestEffortWriter => (sw_guid e, sw_limit e)) (d_writers b4) = [(the_writer, None)]) by (vm_compute; reflexivity).
  destruct (d_readers a4) as [|r [|]] eqn:Er; try discriminate. destruct (d_writers b4) as [|w [|]] eqn:Ew; try discriminate.
  injection Ha as Gr Lr Mr. injection Hb as Gw Lw. exists r, w. split; [by left|]. split; [by left|]. split; [exact Mr|].
  apply (both_ends_agree same_name [] [] a4 b4 r w reached_a reached_b).
  - rewrite Er. by left.
  - rewrite Ew. by left.
  - exact Lr.
  - exact Lw.
  - intros Hin. inversion Hin.
  - simpl. rewrite Gr, Gw. do 4 eexists. split; [vm_compute; reflexivity|]. split; [vm_compute; reflexivity|].
    split; [vm_compute; reflexivity|]. split; [vm_compute; reflexivity|]. split; reflexivity.
  - by vm_compute.
Defined.

(** An update with a filter that is not complete fails, but its policies are there,
    and neither announced nor looked at for the matches. *)
Definition later_deadline : ReaderQos :=
  mkReaderQos VOLATILE (mkDuration 0 1) AUTOMATIC_LIVELINESS (mkDuration 0x7fffffff 0xffffffff) (mkDuration 0x7fffffff 0xffffffff)
    BEST_EFFORT_RELIABILITY_QOS SHARED_OWNERSHIP_QOS 0 [] false [] (0, []).

Example failed_update_changes_qos : match update_reader same_name a4 the_reader later_deadline (Some [[]; []; []; []]) with
  | Some (ok, s) => ok = false /\ option_map (fun d => rq_deadline (rpd_qos d)) (lookupReaderProxyData s the_reader) = Some (mkDuration 0 1) /\
      d_subscriptions s = d_subscriptions a4 /\ map (fun e => is_matched e the_writer) (d_readers s) = [true] /\
      option_map (fun wd => option_map (fun rd => m_valid (valid_matching same_name wd rd)) (lookupReaderProxyData s the_reader)) (lookupWriterProxyData s the_writer)
        = Some (Some false)
  | None => False
  end.
Proof. vm_compute. split_and!; reflexivity. Qed.

(** A registration with such a filter fails, and the data stays. *)
Example failed_registration_stays : match new_reader_proxy_data same_name a1 the_reader a_topic blank_reader_qos (Some [[]; []; []; []]) with
  | (ok, s) => ok = false /\ option_map rpd_topicName (lookupReaderProxyData s the_reader) = Some (topic_name a_topic)
  end.
Proof. by vm_compute. Qed.
