(* ===== verification/ProtocolLimits.v ===== *)
(** * Where the writer and the reader do not do what they mean to

    Runs of the handlers that show what the general theorems have to exclude. *)

From S2P Require Import Prelude FastBuffer SequenceNumber BitmapRange TimedEvent WriterProxy ParameterList CdrMessage Fragments GapBuilder.
From S2P Require Import WriterHistory ChangeForReader ReaderProxy StatefulWriter Delivery ReaderHistory StatefulReader System Reliability.

Implicit Types (w : StatefulWriter) (o : OutChange).

(** ** Gaps and fragments *)

(** A change of two fragments of which one has arrived. *)
Definition half_change (n : Z) : InChange := mkIn guid_a (SequenceNumber_of n) 0 (mkChange [0; 0; 0; 0; 0; 0; 0; 0] 8 4 2 1) false.

Definition reader_with (l : list InChange) : StatefulReader :=
  let r := (matched_writer_add_edp (StatefulReader_new false) guid_a (Some (WriterProxy_new 0)) 5000 70000).2 in
  sr_set_history r (mkRH l false false 0).

(** A GAP message removes the wrong incomplete change.  Of the numbers in its
    set, the fragments of the number behind the interval are looked for instead: 4
    is not declared and its fragments are lost, 5 is declared and its fragments
    stay in the history for ever. *)
Theorem gap_removes_wrong_fragments :
  let r := reader_with [half_change 4; half_change 5] in
  let gap := range_new (SequenceNumber_of 4) in
  option_map (fun x => r_changes (sr_history_ x.2))
    ('(_, gap) ← range_add gap (SequenceNumber_of 5); process_gap_msg r guid_a (SequenceNumber_of 3) gap)
  = Some [half_change 5].
Proof. vm_compute. reflexivity. Qed.

(** ** Delivery *)

(** A writer with remote readers and what each of them still waits for. *)
Definition writer_with (h : WriterHistory) (l : list ReaderProxy) : StatefulWriter :=
  set_readers (set_history (StatefulWriter_new sample_writer 0) h) l.

Definition history_of (l : list OutChange) (last : Z) : WriterHistory := mkWH l (SequenceNumber_of last) false false 0 0 65000.

Definition proxy_of g (l : list ChangeForReader_t) (low : Z) : ReaderProxy :=
  mkRP g false false true VOLATILE false true false l (timer_new 0 0) (timer_new 0 0) true 0 0 (SequenceNumber_of low) true.

Definition delivered_one : ChangeForReader_t := mkCFR UNDERWAY (SequenceNumber_of 1) (mkOut (SequenceNumber_of 1) 0 0) range_default true.

(** A sample that every reader it is relevant to has got counts as not
    delivered, when a reader it is not relevant to comes later in the list. *)
Theorem delivered_but_not_fully :
  let w := writer_with (history_of [mkOut (SequenceNumber_of 1) 0 0] 1) [proxy_of guid_b [delivered_one] 0; proxy_of guid_a [] 0] in
  let w' := writer_with (history_of [mkOut (SequenceNumber_of 1) 0 0] 1) [proxy_of guid_a [] 0; proxy_of guid_b [delivered_one] 0] in
  has_been_fully_delivered w (SequenceNumber_of 1) = false /\ has_been_fully_delivered w' (SequenceNumber_of 1) = true.
Proof. vm_compute. done. Qed.

(** A sample of three fragments. *)
Definition split_one : OutChange := mkOut (SequenceNumber_of 1) 1000 3.
Definition split_writer : StatefulWriter :=
  match ChangeForReader_new split_one with
  | Some c => writer_with (history_of [split_one] 1) [proxy_of guid_b [c] 0]
  | None => StatefulWriter_new sample_writer 0
  end.

Lemma split_round add used need :
  deliver_round add false used split_writer split_one need = Some (1, true, DELIVERED, split_writer).
Proof. destruct need; vm_compute; reflexivity. Qed.

Lemma split_rounds add used fuel : forall need, deliver_rounds add false used fuel split_writer split_one 1 need DELIVERED = None.
Proof.
  induction fuel as [|fuel IH]; intros need; cbn [deliver_rounds]; [reflexivity|].
  rewrite split_round. apply IH.
Qed.

(** While no locator of the readers is selected, the delivery of a sample in
    fragments never ends: each round finds the same fragment and sends nothing. *)
Theorem delivery_without_locators_spins add used fuel :
  deliver_sample_to_network add false used fuel split_writer split_one = None.
Proof.
  unfold deliver_sample_to_network. destruct fuel as [|fuel]; [reflexivity|]. cbn [deliver_rounds]. rewrite split_round.
  change (out_fragment_count split_one) with 3. cbn [mbind option_bind]. pose proof (split_rounds add used fuel true) as H.
  change (bool_decide (DELIVERED = DELIVERED) && negb (0 =? u32 (3 + 1))) with true. cbv iota. by rewrite H.
Qed.
